(* ===== verification/_CoqProject ===== *)
-Q . S2P
Prelude.v
RustStr.v
BytesCodec.v
NetUtil.v
SecureStream.v
Handshake.v
FileTransfer.v
FileTransferProofs.v
F32.v
VideoQos.v
Messages.v
Enigo.v
Keys.v
FileManager.v
CmFiles.v
OneWay.v
ClientFiles.v
ClientFilesProofs.v
VideoPlayer.v
VideoPlayerProofs.v
Codec.v
CodecProofs.v
ClipFiles.v
FusePaste.v
ClipMsg.v
TerminalBuffer.v
Terminal.v
TerminalProofs.v
Service.v
DisplayService.v
Server.v
VideoService.v
VideoServiceProofs.v
Password.v
Config.v
ConfigProofs.v
ConfigMore.v
ConfigMoreProofs.v
Rendezvous.v
RendezvousProofs.v
Dial.v
DialProofs.v
PeerConfig.v
PeerConfigProofs.v
Connection.v
LoginLimits.v
ConnectionAuth.v
ConnectionSafety.v
ConnectionLoop.v
ConnectionLoopProofs.v
CmClients.v
CmClientsProofs.v
InputService.v
InputServiceProofs.v
Keyboard.v
KeyboardProofs.v
Clipboard.v
ClipboardProofs.v
Employee.v
Sound.v
Recorder.v
Lan.v
Tls.v
WebSocket.v
Proxy.v
Http.v
HttpProofs.v
TransportProofs.v
ApiServer.v
Account.v
Downloader.v
CustomClient.v
ClientConfig.v
ClientOptions.v
ClientLogin.v
ClientLoginProofs.v
PortForward.v
ClientLoop.v
ClientLoopProofs.v
ClientSessionProofs.v
