(* ===== verification/Prelude.v ===== *)
(** * HibtDesk verification library

    HibtDesk is a remote desktop in Rust (a derivative of RustDesk).  A
    controlled machine runs a server process: it accepts connections, checks
    the login of the peer, subscribes the connection to the services it may use
    (video, sound, clipboard, cursor), executes the peer's input, transfers
    files and serves copied files.  A second process, the connection manager,
    shows the connections to the user and carries out the orders that change
    files.  The controlling side keeps settings and passwords per peer, proves
    its identity and sends the options of the session.  This library models that
    core from the sources and proves what makes it correct, and where it is not,
    what exactly happens.  The platform is a
    Linux desktop build with the features [flutter] and [unix-file-copy-paste].

    ** How the parts interact

    [tcp.rs] frames and encrypts byte streams with a key the two sides agree on
    ([server.rs], [client.rs]); the client answers the hash message of the
    server with a login ([client.rs]); [connection.rs] parses the frames
    into messages and runs one task per connection around them; the task locks
    process-wide state (failure counters, sessions, the server with its
    services) and the configuration; file actions start jobs of [fs.rs] or
    become orders for the connection manager ([ui_cm_interface.rs]); clipboard
    messages are served from the list of copied files ([libs/clipboard]) and
    pasted through a FUSE file system.

    ** Files

    - [Prelude], [RustStr]: results, panics, machine integers, record update,
      bytes; the [str] operations of the standard library the code calls.
    - [BytesCodec] ([hbb_common/src/bytes_codec.rs]): length-prefixed framing.
    - [NetUtil] ([hbb_common/src/lib.rs], [socket_client.rs]): the mangling of
      socket addresses, version numbers, host and port strings.
    - [SecureStream] ([tcp.rs], [FramedStream] and [Encrypt]): the encrypted
      stream over the codec.  The crate's secretbox is the class [SecretBox].
    - [Handshake] ([server.rs] [create_tcp_connection], [client.rs]
      [secure_connection], [common.rs] [secure_tcp]): the key exchange.  The
      signatures, boxes and the protobuf coding are the classes [Sodium] and
      [Proto].
    - [FileTransfer], [FileTransferProofs] ([hbb_common/src/fs.rs]): transfer
      jobs, the scheduler of read jobs, receiving, resuming, overwrite
      detection, over a file system of inodes ([Transfer.FS]).
    - [F32], [VideoQos] ([src/server/video_qos.rs]): frame rate and bitrate
      control with binary32 arithmetic written out with rounding.
    - [Messages]: the protobuf messages the handlers read and send, as data.
    - [FileManager] ([connection.rs]): the file manager of a connection, its
      orders to the connection manager ([ipc::FS]).
    - [CmFiles] ([ui_cm_interface.rs], [fs.rs]): execution of these orders, and
      the removal and renaming of files; what the operating system refuses is a
      parameter.
    - [OneWay] ([connection.rs], [ui_cm_interface.rs]): a connection with its
      connection manager and the queues between them, under one-way transfer.
    - [ClientFiles], [ClientFilesProofs] ([src/client/io_loop.rs]): the file
      window of the controlling side, its jobs and the answers of the peer.
    - [VideoPlayer], [VideoPlayerProofs] ([io_loop.rs], [client.rs]
      [start_video_thread]): the queue between a session and the player of a
      display, and the player.
    - [ClipFiles], [FusePaste], [ClipMsg] ([libs/clipboard/src/platform/unix],
      [clipboard_file.rs], [libs/clipboard/src/lib.rs]): the list of copied
      files, its binary form and parser, serving contents, the FUSE tree of the
      pasting side and its reads, messages and channels between them.
    - [TerminalBuffer], [Terminal], [TerminalProofs]
      ([src/server/terminal_service.rs]): the output buffer of a terminal, the
      table of terminal services, the actions of a peer, the reading pass, the
      cleanup and reaper tasks.  Each operation is one step under its locks.
    - [Service] ([src/server/service.rs]), [Server] ([src/server.rs]): services
      with their subscribers, whose operations are those done under one taking
      of the lock, and the table of services and connections.
    - [Password], [Config], [ConfigProofs] ([password_security.rs],
      [config.rs]): stored secrets, options in their layers, login policy,
      trusted devices, provisioning.
    - [ConfigMore], [ConfigMoreProofs] ([config.rs]): identities, the key pair,
      the proxy, the local settings, the sealed caches.
    - [Rendezvous], [RendezvousProofs] ([src/rendezvous_mediator.rs]): keeping
      the machine registered, the requests the rendezvous server forwards,
      direct access, the test of the NAT.
    - [PeerConfig], [PeerConfigProofs] ([config.rs]): the settings kept per
      peer, their defaults and deserialisation, their files and the listing.
    - [Connection] ([connection.rs]): the state of an incoming connection and
      its handlers, composed with the file manager, the file clipboard and the
      server.  [LoginLimits], [ConnectionAuth], [ConnectionSafety] have the
      theorems about it.
    - [ConnectionLoop], [ConnectionLoopProofs] ([connection.rs] [start]): the
      loop around the handlers with its timers and channels, the tunnel, the
      clean-up and the guards that are dropped at the end.
    - [CmClients], [CmClientsProofs] ([ui_cm_interface.rs]): the window's table
      of clients, its calls, and the loop of every connection's task, which
      executes the orders of [CmFiles].
    - [Enigo], [Keys], [InputService], [InputServiceProofs] ([libs/enigo],
      [src/server/input_service.rs], [handle_input] of [connection.rs]): the
      traits of simulated keyboards and mice and their implementation on Linux,
      the simulation of what peers type, the table of pressed keys.
    - [Keyboard], [KeyboardProofs] ([src/keyboard.rs],
      [ui_session_interface.rs]): the keyboard of the controlling side.
    - [Clipboard], [ClipboardProofs] ([src/clipboard.rs],
      [server/clipboard_service.rs]): the system clipboard as messages and back,
      the mark of its owner, the listener and the service.
    - [Sound] ([server/audio_service.rs], [AudioHandler] and
      [AudioBuffer] of [client.rs]): the audio service with its gate for
      silence, the player and the buffer before a device.
    - [Recorder] ([libs/scrap/src/common/record.rs],
      [hbbs_http/record_upload.rs]): the files of a recording and their upload.
    - [Lan] ([src/lan.rs]): discovery on the local network.
    - [PortForward] ([src/port_forward.rs]): the controlling end of a tunnel,
      over the login, the stream and the loop at the other end.
    - [Employee] ([src/employee_manager.rs]): the heartbeat
      and the recordings of this derivative, for its Windows service.
    - [Dial], [DialProofs] ([client.rs] [Client::start], [common.rs]): dialling
      a peer, as programs over the operations on the network; UDP punching, the
      health check, the query for online peers.
    - [ClientConfig], [ClientOptions] ([client.rs] [LoginConfigHandler]): the
      options of a session on the controlling side, toggles, quality, the
      information about the peer.
    - [ClientLogin], [ClientLoginProofs] ([client.rs] [handle_hash] and its
      neighbours): the login of the controlling side and its errors.
    - [ClientLoop], [ClientLoopProofs], [ClientSessionProofs] ([io_loop.rs],
      [ui_session_interface.rs]): the session of the controlling side: messages
      of the peer, orders of the user, timers, recording, voice calls, the rate
      of frames, reconnecting.  It composes the login, the file window, the
      players and the file clipboard.

    - [Codec], [CodecProofs] ([libs/scrap/src/common/codec.rs]): what viewers
      can decode, the codec negotiated between them, the decoders of a viewer.
    - [DisplayService] ([src/server/display_service.rs]): the displays kept in
      step with the system and the viewers.
    - [VideoService], [VideoServiceProofs] ([src/server/video_service.rs]): the
      capturing thread: its start, its rounds, its end, with the actions of
      other threads interleaved.

    - [Tls], [WebSocket], [Proxy], [Http], [HttpProofs], [TransportProofs]
      ([hbb_common/src/tls.rs], [websocket.rs], [proxy.rs],
      [src/hbbs_http/http_client.rs], [common.rs]): what is remembered about the
      certificates of servers, the transport over WebSocket, proxies, the HTTP
      clients with their fallbacks and the requests made with them.  What can
      wait or race is a program over operations ([Tls.Prog]).
    - [ApiServer] ([common.rs], [hbbs_http/sync.rs],
      [src/updater.rs]): the address of the API server, the heartbeats and what
      their answers change, the loop that looks for a newer version.
    - [Account] ([hbbs_http/account.rs]): logging in with an
      account, as a relation of steps of threads.
    - [Downloader] ([hbbs_http/downloader.rs]): downloads
      with their threads and files.
    - [CustomClient] ([src/custom_server.rs],
      [common.rs]): servers named in the executable's name, the signed settings
      of a custom client, small functions.

    A struct is a [Record] with the source's fields, an enum an [Inductive], a
    function of the code a [Definition] or [Fixpoint] of the same name; a method
    with [&mut self] returns the new state; [Result] is [result]; a function
    that can panic returns an [outcome].  What a handler does outside the state
    it owns is a list of effects in order.  Integers are kept at their width
    ([u64], [i32], ...) wherever the code casts or can overflow.  Third-party
    code (cryptography, zstd, UTF-16, TOTP, the operating system, the clock, the
    random numbers) is a parameter, with its documented laws as a class where a
    theorem needs them; each such class has a concrete instance that satisfies
    it, used in the witnesses.

    ** What the theorems show

    - Transport: any messages survive framing and encryption for every cutting
      of the byte stream, in order and exactly once; nonces do not repeat;
      oversized frames are refused; addresses and versions encode faithfully.
      The key exchange keys both sides when the identities check out, the client
      never takes a key for an unsigned identity, and without a usable key both
      sides go on in clear text.
    - Who gets in: a peer message authorizes a connection only with the evidence
      the code asks for; wrong attempts that are made one after the other are
      bounded per address, minute and prefix, from any counters.  Two weaknesses
      are theorems as well: a one-time code alone is enough, and parallel
      attempts are counted once.  A tunnel needs no login at all.  A client that
      holds the right password is let in, and a password it was told to remember
      opens the next session.
    - What a peer can do: every effect of every message is one that a table of
      permissions allows ([ConnectionSafety.permitted]; the copying of files and
      sound need no more than an authorized connection);
      subscriptions follow the permissions except where stated; one-way file
      transfer lets no block of a file and no digest of a file to be sent out,
      though the digest of a file that an upload would overwrite leaves; the
      connection manager changes only the files that accepted uploads,
      removals and renamings name; which file actions and clipboard requests
      panic (the release profile aborts on a panic).
    - Files: a transfer whose reads and creations succeed delivers every file
      with its contents and time, for every way the reads are chopped, with the
      detection of overwriting and without; nothing is sent before it is
      confirmed; copied files are announced and read back exactly, up to the
      positions the protocol loses.
    - Terminals: output arrives in order and once, the buffer keeps a suffix of
      the output, and every shell belongs to a session, awaits its reaper or has
      been reaped, but for two failures that lose one: of a request to open
      after the shell was started, and of a kill; and further failures: 15001
      lines printed in two pieces make the trimming loop spin, output does not
      count as activity, a dead terminal of a persistent service is reopened for
      ever.
    - Registration: a silent rendezvous server is noticed, a conflict of
      identities renews the identity, behind a proxy nothing but relays is used;
      and the failures: anyone can replace the servers by a datagram, and the
      server can switch off the encryption of a session.
    - Services: each subscriber sees exactly what a three-state specification
      prescribes (a refinement for every sequence of what is done under one
      taking of the lock); a subscriber that arrives while a snapshot is sent
      goes without it; connections are subscribed and removed completely.
    - The life of a connection: it ends once and leaves no trace in the tables
      of the process, whatever happened before; a silent peer is dropped at the
      first tick 30 seconds after its last message.  In
      the window of the connection manager a client is marked as disconnected
      exactly when its task has ended.
    - Control: the video controller never panics and stays in its bounds for
      every history; the delay estimator refines its specification.
    - Video: the codec negotiated is one every viewer decodes, or VP9, which is
      chosen even for a viewer that has reported it as not working; however
      viewers come and go, a frame goes only to viewers that have the stream
      from its start, except where every other viewer has left in between.
    - The controlling side: the peer is told of every recording, the microphone
      opens only on request, the rate asked for stays in its bounds, jobs
      survive the session, video is played in order unless a queue overflows.
      Removing a directory from the file window removes its files, except those
      the operating system refuses to remove; but the
      names a peer lists are not checked: it can make a download write any file
      of the controlling side, and choose the files a removal removes.
    - Keys: what the simulation holds down by position is in its table, so a
      forced release lets go of everything; typing leaves no modifier behind;
      when the user leaves the window a controlled machine with X11 holds none
      of the keys, followed from one machine to the other.  And what goes wrong:
      characters are forgotten instead of released, swapping Control and Meta
      garbles characters, the shortcut that leaves the relative mouse mode can
      hold Control.
    - The clipboard: what is copied arrives unchanged, except for special data
      that does not compress; what a peer copied is not announced back until
      something else is written, unless it carries the mark of the owner itself.
    - Recordings of the screen by the service: they stay young and small, and a
      piece is made only where the conditions hold.
    - Sound: every listener gets the format first, unless it subscribes while a
      snapshot is sent; silence is not sent for long,
      the buffer keeps the newest samples in order and is never read beyond its
      end; but a format can ask for more memory than there is.
    - Recordings of a session can be played, as long as no peer sends a time
      below zero, and are told of in order; the
      server's copy of one becomes the file.  A discovery shows as online
      exactly who has answered.
    - Tunnels: bytes arrive unchanged both ways, but in clear text even where
      the session was encrypted.
    - Other transports: with the insecure fallback off nothing accepts an
      invalid certificate or hands out a client that does; what the table says
      to be reached with checks stays checked, for requests one after the other
      without a reset of the table; the attempts are those of a ladder in order;
      a WebSocket stream delivers its messages opened in sequence, but text
      messages as they came; a tunnel through an HTTP proxy opens exactly on a
      readable head of at most 4096 bytes with status 200.
    - The API server: an answer of it changes the options, the connections and
      the sessions as it says; accounts: one log-in at a time, except for two
      calls at once; a finished download is the file the server sent; a custom
      client's fixed settings cannot be changed.
    - Dialling: a session is encrypted only with the peer the rendezvous server
      vouched for; online peers are read exactly, and a short answer panics; the
      time limit of UDP punching does not hold.
    - Configuration: options, reloads, secrets, devices and provisioning; peer
      settings stay in range, survive a restart and are listed (except where
      stated); toggles sent during a session have the effect a new login with
      the changed options would have, except for what is toggled while a
      view-only session greys it out.

    ** Bounds and fuel

    [BytesCodec.drain_n] recurses on fuel that is shown to be enough
    (a theorem there), and so does the loop that fills a buffer ([fill]); the
    loop that trims a terminal buffer is structural and has no result where the
    code spins; the transfer theorem gives a number of rounds after which everything has
    arrived; the walk
    over a directory tree ([constr_file_lst]) takes its depth as fuel, a
    parameter, since the disk is arbitrary; the attempts of a request take a
    small constant ([Http.FUEL]) that the equivalence with the ladder shows to
    be enough, the reading of a proxy's answer one step per byte
    ([Proxy.response_fuel]); everything else is structural.
    Theorems that need a size bound (file sizes below 2^62, lists below 2^31,
    fewer than 2^64 messages) say so in their hypotheses.

    ** What is not modelled

    User interfaces and their foreign-function glue, platform code, capture, the
    encoders themselves, the test of AV1's speed, Wayland, resampling of sound,
    WebRTC (a feature that is off), the test for IPv6 by STUN, the installation
    of an update (Windows), the socket of inter-process messages, virtual input
    devices, plugins, and code for other operating systems.  Of
    [connection.rs], audits carry only their kind, the text of logs is left
    out, and remote printing (Windows) is missing. *)

From stdpp Require Export base tactics decidable option list list_numbers numbers strings gmap sets.
From Stdlib Require Export ZArith Lia.

#[global] Open Scope Z_scope.

(** ** Results and panics

    [result] is Rust's [Result]; [outcome] adds the third way a Rust function
    can end: a panic (a failed [unwrap], an index out of range, [clamp] with
    [min > max], ...). *)

Inductive result (A E : Type) : Type :=
| Ok (a : A)
| Err (e : E).
Arguments Ok {A E} a.
Arguments Err {A E} e.

Inductive outcome (A : Type) : Type :=
| Done (a : A)
| Panic.
Arguments Done {A} a.
Arguments Panic {A}.

Declare Scope rust_scope.
Delimit Scope rust_scope with rust.

Definition result_bind {A B E} (c : result A E) (k : A -> result B E) : result B E :=
  match c with Ok a => k a | Err e => Err e end.

Definition outcome_bind {A B} (c : outcome A) (k : A -> outcome B) : outcome B :=
  match c with Done a => k a | Panic => Panic end.

Notation "'let?' x ':=' c 'in' k" := (result_bind c (fun x => k))
  (at level 10, x pattern, c at level 100, k at level 200) : rust_scope.
Notation "'let!' x ':=' c 'in' k" := (outcome_bind c (fun x => k))
  (at level 10, x pattern, c at level 100, k at level 200) : rust_scope.

Lemma bind_Done {A B} (c : outcome A) (k : A -> outcome B) (b : B) :
  outcome_bind c k = Done b -> exists a, c = Done a /\ k a = Done b.
Proof. destruct c as [a|]; [|discriminate]. intros H. exists a. auto. Qed.

Definition unwrap_or {A} (d : A) (o : option A) : A :=
  match o with Some a => a | None => d end.

Definition is_ok {A E} (r : result A E) : bool :=
  match r with Ok _ => true | Err _ => false end.

(** ** Machine integers

    A [w]-bit unsigned integer is a [Z]; [wrap w] is the conversion [as uN] and
    the result of wrapping arithmetic; [swrap w] is [as iN]. *)

Definition wrap (w z : Z) : Z := z mod 2 ^ w.
Definition swrap (w z : Z) : Z := (z + 2 ^ (w - 1)) mod 2 ^ w - 2 ^ (w - 1).

Abbreviation u8 := (wrap 8).
Abbreviation u16 := (wrap 16).
Abbreviation u32 := (wrap 32).
Abbreviation u64 := (wrap 64).
Abbreviation u128 := (wrap 128).
Abbreviation i32 := (swrap 32).
Abbreviation i64 := (swrap 64).

Definition usize_MAX : Z := 2 ^ 64 - 1.

Definition in_u (w z : Z) : Prop := 0 <= z < 2 ^ w.
Definition is_byte (b : Z) : Prop := 0 <= b < 256.
Abbreviation bytes := (Forall is_byte).

#[global] Instance is_byte_dec b : Decision (is_byte b).
Proof. unfold is_byte. apply _. Defined.

Lemma wrap_small w z : 0 <= z < 2 ^ w -> wrap w z = z.
Proof. intros H. by apply Z.mod_small. Qed.

Lemma wrap_range w z : 0 <= w -> 0 <= wrap w z < 2 ^ w.
Proof. intros H. apply Z.mod_pos_bound. lia. Qed.

Lemma swrap_small w z : 0 < w -> - 2 ^ (w - 1) <= z < 2 ^ (w - 1) -> swrap w z = z.
Proof.
  intros Hw H. unfold swrap.
  assert (2 ^ w = 2 * 2 ^ (w - 1)) as E.
  { replace w with (Z.succ (w - 1)) at 1 by lia. rewrite Z.pow_succ_r; lia. }
  rewrite Z.mod_small; lia.
Qed.

Lemma swrap_range w z : 0 < w -> - 2 ^ (w - 1) <= swrap w z < 2 ^ (w - 1).
Proof.
  intros Hw. unfold swrap.
  assert (2 ^ w = 2 * 2 ^ (w - 1)) as E.
  { replace w with (Z.succ (w - 1)) at 1 by lia. rewrite Z.pow_succ_r; lia. }
  pose proof (Z.mod_pos_bound (z + 2 ^ (w - 1)) (2 ^ w)). lia.
Qed.

(** ** Bits of disjoint parts

    [a | (b << k)] with [a < 2^k] is [a + b * 2^k]: the way the code packs
    fields, turned into arithmetic that [lia] understands. *)

Lemma testbit_high a k l : 0 <= a < 2 ^ k -> 0 <= k <= l -> Z.testbit a l = false.
Proof.
  intros Ha Hk. apply (Z.bounded_iff_bits_nonneg k a); lia.
Qed.

Lemma land_shiftl_0 a b k : 0 <= k -> 0 <= a < 2 ^ k -> Z.land a (Z.shiftl b k) = 0.
Proof.
  intros Hk Ha. apply Z.bits_inj'. intros n Hn.
  rewrite Z.land_spec, Z.bits_0, Z.shiftl_spec by done.
  destruct (decide (n < k)).
  - rewrite (Z.testbit_neg_r b (n - k)) by lia. apply andb_false_r.
  - rewrite (testbit_high a k n) by lia. done.
Qed.

Lemma lor_shiftl a b k :
  0 <= k -> 0 <= a < 2 ^ k -> Z.lor a (Z.shiftl b k) = a + b * 2 ^ k.
Proof.
  intros Hk Ha. rewrite <- Z.add_nocarry_lor by (by apply land_shiftl_0).
  by rewrite Z.shiftl_mul_pow2 by lia.
Qed.

Lemma lor_ge_r a b : 0 <= a -> b <= Z.lor a b.
Proof.
  intros Ha. assert (Z.lor a b = Z.ldiff a b + b) as ->.
  - rewrite Z.add_nocarry_lor.
    + apply Z.bits_inj'. intros n Hn. rewrite !Z.lor_spec, Z.ldiff_spec.
      by destruct (Z.testbit a n), (Z.testbit b n).
    + apply Z.bits_inj'. intros n Hn. rewrite Z.land_spec, Z.ldiff_spec, Z.bits_0.
      by destruct (Z.testbit a n), (Z.testbit b n).
  - pose proof (proj2 (Z.ldiff_nonneg a b)). lia.
Qed.

Lemma shiftr_div a k : 0 <= k -> Z.shiftr a k = a / 2 ^ k.
Proof. intros. by apply Z.shiftr_div_pow2. Qed.

Lemma land_mask a k : 0 <= k -> Z.land a (2 ^ k - 1) = a mod 2 ^ k.
Proof. intros. rewrite <- Z.land_ones, Z.ones_equiv by done. done. Qed.

(** ** Little-endian bytes *)

Fixpoint to_le_bytes (n : nat) (z : Z) : list Z :=
  match n with
  | O => []
  | S n => z mod 256 :: to_le_bytes n (z / 256)
  end.

Fixpoint from_le_bytes (l : list Z) : Z :=
  match l with
  | [] => 0
  | b :: l => b + 256 * from_le_bytes l
  end.

Lemma to_le_bytes_length n z : length (to_le_bytes n z) = n.
Proof. revert z. induction n; intros z; simpl; auto. Qed.

Lemma to_le_bytes_bytes n z : bytes (to_le_bytes n z).
Proof.
  revert z. induction n; intros z; simpl; constructor; auto.
  unfold is_byte. pose proof (Z.mod_pos_bound z 256). lia.
Qed.

Lemma from_to_le_bytes n z :
  0 <= z < 256 ^ Z.of_nat n -> from_le_bytes (to_le_bytes n z) = z.
Proof.
  revert z. induction n as [|n IH]; intros z Hz.
  - simpl in *. lia.
  - cbn [to_le_bytes from_le_bytes].
    rewrite Nat2Z.inj_succ, Z.pow_succ_r in Hz by lia.
    rewrite IH by (split; [apply Z.div_pos | apply Z.div_lt_upper_bound]; lia).
    pose proof (Z.div_mod z 256). lia.
Qed.

Lemma from_le_bytes_range l :
  bytes l -> 0 <= from_le_bytes l < 256 ^ Z.of_nat (length l).
Proof.
  induction 1 as [|b l Hb Hl IH]; cbn [from_le_bytes length]; [lia|].
  rewrite Nat2Z.inj_succ, Z.pow_succ_r by lia. unfold is_byte in Hb. lia.
Qed.

Lemma to_from_le_bytes l :
  bytes l -> to_le_bytes (length l) (from_le_bytes l) = l.
Proof.
  induction 1 as [|b l Hb Hl IH]; [done|]. cbn [from_le_bytes length to_le_bytes].
  unfold is_byte in Hb. f_equal.
  - rewrite (Z.mul_comm 256), Z.mod_add by lia. by apply Z.mod_small.
  - rewrite (Z.mul_comm 256), Z.div_add by lia.
    rewrite Z.div_small by lia. by rewrite Z.add_0_l.
Qed.

Lemma from_le_bytes_app l1 l2 :
  from_le_bytes (l1 ++ l2) = from_le_bytes l1 + 256 ^ Z.of_nat (length l1) * from_le_bytes l2.
Proof.
  induction l1 as [|b l1 IH]; cbn [app from_le_bytes length]; [lia|].
  rewrite IH, Nat2Z.inj_succ, Z.pow_succ_r by lia. ring.
Qed.

Lemma from_le_bytes_zeros n : from_le_bytes (replicate n 0) = 0.
Proof. induction n; cbn [replicate from_le_bytes]; lia. Qed.

(** ** Lengths as [usize] *)

Definition len {A} (l : list A) : Z := Z.of_nat (length l).

Lemma len_nonneg {A} (l : list A) : 0 <= len l.
Proof. unfold len. lia. Qed.

Lemma len_app {A} (l k : list A) : len (l ++ k) = len l + len k.
Proof. unfold len. rewrite length_app. lia. Qed.

(** ** Functional update of one field of a record

    [r <| f := v |>] is [r] with the field [f] replaced.  The update function is
    found by type class search from the projection [f]; on a record declared
    with primitive projections it reduces without a case analysis. *)

Definition field_tag {A} (x : A) (B : Type) : Type := B.

Class FieldSet {R E : Type} (f : R -> E) := set_field : E -> R -> R.

#[global] Hint Mode FieldSet + + + : typeclass_instances.

Ltac build_field_set :=
  lazymatch goal with
  | |- @FieldSet ?R ?E ?f =>
    let v := fresh "v" in let r := fresh "r" in
    intros v r; change (field_tag r R); destruct r;
    lazymatch goal with
    | |- field_tag ?T _ =>
      let y := eval cbn in (f T) in
      lazymatch eval pattern y in T with
      | ?k _ => let t := eval cbv beta in (k v) in exact t
      end
    end
  end.

#[export] Hint Extern 1 (FieldSet _) => build_field_set : typeclass_instances.

Notation "r <| f := v |>" := (set_field (f := f) v r)
  (at level 1, left associativity, f constr, format "r  <| f  :=  v |>").

Lemma list_filter_none {A} (P : A -> Prop) `{!forall x, Decision (P x)} (l : list A) :
  Forall (fun x => ~ P x) l -> filter P l = [].
Proof. induction 1 as [|x l Hx _ IH]; [done|]. by rewrite filter_cons_False. Qed.

(** ** Automation *)

Create HintDb rust.
#[export] Hint Resolve len_nonneg to_le_bytes_bytes : rust.
#[export] Hint Rewrite @len_app @app_nil_r @app_nil_l : rust.

(** [split_if] splits on a condition of the goal or of a hypothesis. *)
Ltac split_if :=
  match goal with
  | |- context [if ?b then _ else _] => destruct b eqn:?
  | H : context [if ?b then _ else _] |- _ => destruct b eqn:?
  end.

Ltac zbool :=
  repeat match goal with
  | H : (_ <? _) = true |- _ => apply Z.ltb_lt in H
  | H : (_ <? _) = false |- _ => apply Z.ltb_ge in H
  | H : (_ <=? _) = true |- _ => apply Z.leb_le in H
  | H : (_ <=? _) = false |- _ => apply Z.leb_gt in H
  | H : (_ =? _) = true |- _ => apply Z.eqb_eq in H
  | H : (_ =? _) = false |- _ => apply Z.eqb_neq in H
  | H : negb _ = true |- _ => apply negb_true_iff in H
  | H : negb _ = false |- _ => apply negb_false_iff in H
  | H : _ && _ = true |- _ => apply andb_true_iff in H; destruct H
  | H : _ || _ = false |- _ => apply orb_false_iff in H; destruct H
  end.

(** [pack_arith] turns packed bit fields into sums, innermost first. *)
Ltac pack_arith :=
  repeat match goal with
  | |- context [Z.lor ?a (Z.shiftl ?b ?k)] =>
    lazymatch a with
    | Z.lor _ _ => fail
    | _ => rewrite (lor_shiftl a b k) by lia
    end
  end.

(** [wrap_arith] removes conversions that do not change the value. *)
Ltac wrap_arith :=
  repeat match goal with
  | |- context [swrap ?w ?z] =>
    lazymatch z with
    | context [swrap _ _] => fail
    | _ => rewrite (swrap_small w z) by lia
    end
  | |- context [wrap ?w ?z] =>
    lazymatch z with
    | context [wrap _ _] => fail
    | _ => rewrite (wrap_small w z) by lia
    end
  end.

(** [zcases] is the usual case analysis on the code's integer tests. *)
Ltac zcases := repeat split_if; zbool; try lia.
