(* ===== verification/RustStr.v ===== *)
(** * Strings the way the Rust code uses them

    A Rust [str] is its sequence of bytes, so [string] (a list of 8-bit
    characters) is used with the UTF-8 bytes as its contents.  This file has
    the standard-library operations the components call: [split], [find],
    [parse] and decimal formatting, with the lemmas that relate them. *)

From S2P Require Import Prelude.
From Stdlib Require Export Ascii.

#[global] Open Scope string_scope.
#[global] Open Scope list_scope.
#[global] Open Scope Z_scope.

#[global] Arguments Ascii.eqb : simpl never.

Definition str_len (s : string) : Z := Z.of_nat (String.length s).

Definition ascii_code (c : ascii) : Z := Z.of_nat (nat_of_ascii c).

(** ** Searching and splitting *)

Definition starts_with (pat s : string) : bool := String.prefix pat s.

(** [str::to_lowercase] as far as a comparison with ASCII text sees it: ASCII
    letters, and the Kelvin sign, the only other character that becomes one. *)
Definition lower (c : ascii) : ascii :=
  let n := nat_of_ascii c in if (65 <=? n)%nat && (n <=? 90)%nat then ascii_of_nat (n + 32) else c.

Definition KELVIN : string := String "226" (String "132" (String "170" "")).

Fixpoint to_lowercase (s : string) : string :=
  match s with
  | EmptyString => ""
  | String a r =>
    match r with
    | String b (String c r') =>
      if String.eqb (String a (String b (String c ""))) KELVIN
      then String "k" (to_lowercase r') else String (lower a) (to_lowercase r)
    | _ => String (lower a) (to_lowercase r)
    end
  end.

Fixpoint contains_str (pat s : string) : bool :=
  starts_with pat s || match s with EmptyString => false | String _ r => contains_str pat r end.

Definition ends_with (pat s : string) : bool :=
  (String.length pat <=? String.length s)%nat
  && String.eqb (String.substring (String.length s - String.length pat) (String.length pat) s) pat.

Fixpoint contains_char (c : ascii) (s : string) : bool :=
  match s with
  | EmptyString => false
  | String a s => Ascii.eqb a c || contains_char c s
  end.

(** [str::split(char)]: never empty; ["a.b"] gives [["a"; "b"]]. *)
Fixpoint split_char (c : ascii) (s : string) : list string :=
  match s with
  | EmptyString => [""]
  | String a s' =>
    if Ascii.eqb a c then "" :: split_char c s'
    else match split_char c s' with
         | [] => [String a ""]
         | w :: ws => String a w :: ws
         end
  end.

(** [str::split(&str)] for a non-empty pattern. *)
Fixpoint split_str_n (fuel : nat) (pat s : string) : list string :=
  match fuel with
  | O => [s]
  | S fuel =>
    match s with
    | EmptyString => [""]
    | String a s' =>
      if String.prefix pat s then "" :: split_str_n fuel pat (String.substring (String.length pat) (String.length s) s)
      else match split_str_n fuel pat s' with
           | [] => [String a ""]
           | w :: ws => String a w :: ws
           end
    end
  end.

Definition split_str (pat s : string) : list string := split_str_n (S (String.length s)) pat s.

(** [str::replace(&str, &str)] for a non-empty pattern: join the pieces. *)
Definition replace_str (pat by_ s : string) : string := String.concat by_ (split_str pat s).

(** [str::rfind(char)] as the suffix after the last occurrence. *)
Fixpoint after_last (c : ascii) (s : string) : option string :=
  match s with
  | EmptyString => None
  | String a s' =>
    match after_last c s' with
    | Some r => Some r
    | None => if Ascii.eqb a c then Some s' else None
    end
  end.

(** [str::trim]: drops characters of the Unicode class [White_Space], in their
    UTF-8 encoding. *)
Definition bytes_string (l : list Z) : string :=
  fold_right (fun b s => String (ascii_of_nat (Z.to_nat b)) s) "" l.

Definition WHITE_SPACE : list string :=
  map (fun c => bytes_string [c]) [9; 10; 11; 12; 13; 32]
  ++ map (fun c => bytes_string [0xC2; c]) [0x85; 0xA0]
  ++ [bytes_string [0xE1; 0x9A; 0x80]]
  ++ map (fun c => bytes_string [0xE2; 0x80; c])
       [0x80; 0x81; 0x82; 0x83; 0x84; 0x85; 0x86; 0x87; 0x88; 0x89; 0x8A; 0xA8; 0xA9; 0xAF]
  ++ [bytes_string [0xE2; 0x81; 0x9F]; bytes_string [0xE3; 0x80; 0x80]].

Fixpoint strip_any (fuel : nat) (pats : list string) (s : string) : string :=
  match fuel with
  | O => s
  | S fuel =>
    match List.find (fun p => String.prefix p s) pats with
    | Some p => strip_any fuel pats (String.substring (String.length p) (String.length s) s)
    | None => s
    end
  end.

Fixpoint rev_string (s acc : string) : string :=
  match s with
  | EmptyString => acc
  | String a s => rev_string s (String a acc)
  end.

Definition trim_start (s : string) : string := strip_any (String.length s) WHITE_SPACE s.
Definition trim_end (s : string) : string :=
  rev_string (strip_any (String.length s) (map (fun p => rev_string p "") WHITE_SPACE) (rev_string s "")) "".
Definition trim (s : string) : string := trim_end (trim_start s).

Example trim_both : trim (" 12" +:+ bytes_string [0xC2; 0xA0; 10]) = "12".
Proof. vm_compute. reflexivity. Qed.

Lemma split_char_cons c s : exists w ws, split_char c s = w :: ws.
Proof.
  induction s as [|a s (w & ws & IH)]; cbn; [eauto|].
  rewrite IH. destruct (Ascii.eqb a c); eauto.
Qed.

Lemma split_char_none c s : contains_char c s = false -> split_char c s = [s].
Proof.
  induction s as [|a s IH]; cbn; [done|].
  intros H. apply orb_false_iff in H as [-> H]. by rewrite IH.
Qed.

Lemma split_char_app c a b :
  contains_char c a = false -> split_char c (a +:+ String c b) = a :: split_char c b.
Proof.
  induction a as [|x a IH]; intros H.
  - change ("" +:+ String c b) with (String c b). cbn [split_char].
    by rewrite Ascii.eqb_refl.
  - change (String x a +:+ String c b) with (String x (a +:+ String c b)).
    cbn [split_char contains_char] in *.
    apply orb_false_iff in H as [-> H]. by rewrite IH.
Qed.

Lemma contains_char_app c s1 s2 :
  contains_char c (s1 +:+ s2) = contains_char c s1 || contains_char c s2.
Proof.
  induction s1 as [|a s1 IH]; [done|].
  change (String a s1 +:+ s2) with (String a (s1 +:+ s2)). cbn [contains_char].
  by rewrite IH, orb_assoc.
Qed.

Lemma append_empty s : s +:+ "" = s.
Proof. induction s as [|a s IH]; [done|]. change (String a s +:+ "") with (String a (s +:+ "")). by rewrite IH. Qed.

Lemma append_assoc a b c : a +:+ (b +:+ c) = (a +:+ b) +:+ c.
Proof.
  induction a as [|x a IH]; [done|].
  change (String x a +:+ (b +:+ c)) with (String x (a +:+ (b +:+ c))).
  change ((String x a +:+ b) +:+ c) with (String x ((a +:+ b) +:+ c)). by rewrite IH.
Qed.

(** All of a string, and a string as the prefix of a longer one. *)
Lemma substring_all s n : (String.length s <= n)%nat -> String.substring 0 n s = s.
Proof.
  revert n. induction s as [|a s IH]; intros [|n]; cbn; try done; [lia|].
  intros H. by rewrite IH by lia.
Qed.

Lemma prefix_own p r : starts_with p (p +:+ r) = true.
Proof.
  unfold starts_with. induction p as [|a p IH]; [destruct r; reflexivity|].
  change (String a p +:+ r) with (String a (p +:+ r)). cbn [String.prefix].
  destruct (Ascii.ascii_dec a a); [exact IH|congruence].
Qed.

Lemma length_append a b : String.length (a +:+ b) = (String.length a + String.length b)%nat.
Proof.
  induction a as [|x a IH]; [done|]. change (String x a +:+ b) with (String x (a +:+ b)). cbn. by rewrite IH.
Qed.

Lemma split_char_join c a b : split_char c (a +:+ String c b) = split_char c a ++ split_char c b.
Proof.
  induction a as [|x a IH].
  - change ("" +:+ String c b) with (String c b). cbn [split_char]. by rewrite Ascii.eqb_refl.
  - change (String x a +:+ String c b) with (String x (a +:+ String c b)). cbn [split_char]. rewrite IH.
    destruct (Ascii.eqb x c); [done|]. destruct (split_char_cons c a) as (w & ws & ->). done.
Qed.

(** A suffix without the separator goes to the last part. *)
Lemma split_char_suffix c a sfx :
  contains_char c sfx = false ->
  exists l w, split_char c a = l ++ [w] /\ split_char c (a +:+ sfx) = l ++ [w +:+ sfx].
Proof.
  intros Hs. induction a as [|x a (l & w & E1 & E2)].
  - exists [], "". split; [done|]. change ("" +:+ sfx) with sfx. by apply split_char_none.
  - change (String x a +:+ sfx) with (String x (a +:+ sfx)). cbn [split_char]. rewrite E1, E2.
    destruct (Ascii.eqb x c); [by exists ("" :: l), w|].
    destruct l as [|v l]; [by exists [], (String x w)|by exists (String x v :: l), w].
Qed.

Lemma after_last_Some c s r : after_last c s = Some r -> exists p, s = p +:+ String c r.
Proof.
  revert r. induction s as [|a s IH]; intros r; cbn [after_last]; [done|].
  destruct (after_last c s) as [r'|].
  - intros [= <-]. destruct (IH r' eq_refl) as [p ->]. by exists (String a p).
  - destruct (Ascii.eqb_spec a c) as [->|]; [|done]. intros [= ->]. by exists "".
Qed.

Lemma split_char_empty c s : split_char c s = [""] -> s = "".
Proof.
  destruct s as [|a s]; [done|]. cbn [split_char]. destruct (split_char_cons c s) as (w & ws & ->).
  by destruct (Ascii.eqb a c).
Qed.

(** ** Decimal numbers *)

Definition digit_of (c : ascii) : option Z :=
  let n := ascii_code c in
  if (48 <=? n) && (n <=? 57) then Some (n - 48) else None.

Fixpoint parse_digits (acc : Z) (s : string) : option Z :=
  match s with
  | EmptyString => Some acc
  | String c s => match digit_of c with
                  | Some d => parse_digits (acc * 10 + d) s
                  | None => None
                  end
  end.

(** [str::parse] for the integer type with range [lo .. hi]: an optional sign
    ('-' only when the type is signed), at least one digit, and no overflow. *)
Definition parse_int (lo hi : Z) (s : string) : option Z :=
  let in_range v := if (lo <=? v) && (v <=? hi) then Some v else None in
  match s with
  | EmptyString => None
  | String "+" EmptyString => None
  | String "-" EmptyString => None
  | String "+" s' => match parse_digits 0 s' with Some v => in_range v | None => None end
  | String "-" s' =>
    if lo <? 0 then match parse_digits 0 s' with Some v => in_range (- v) | None => None end
    else None
  | _ => match parse_digits 0 s with Some v => in_range v | None => None end
  end.

Definition parse_i32 : string -> option Z := parse_int (- 2 ^ 31) (2 ^ 31 - 1).
Definition parse_i64 : string -> option Z := parse_int (- 2 ^ 63) (2 ^ 63 - 1).
Definition parse_u16 : string -> option Z := parse_int 0 (2 ^ 16 - 1).

Definition digit_char (d : Z) : ascii := ascii_of_nat (Z.to_nat (48 + d)).

(** Decimal digits, most significant first. *)
Fixpoint show_nonneg (fuel : nat) (z : Z) (acc : string) : string :=
  match fuel with
  | O => acc
  | S fuel =>
    let acc := String (digit_char (z mod 10)) acc in
    if z <? 10 then acc else show_nonneg fuel (z / 10) acc
  end.

(** [format!("{}", z)]. *)
Definition show (z : Z) : string :=
  let p := Z.abs z in
  let s := show_nonneg (S (Z.to_nat (Z.log2 p))) p "" in
  if z <? 0 then String "-" s else s.

Lemma digit_of_digit_char d : 0 <= d < 10 -> digit_of (digit_char d) = Some d.
Proof.
  intros H. assert (d = 0 \/ d = 1 \/ d = 2 \/ d = 3 \/ d = 4 \/ d = 5 \/ d = 6 \/ d = 7 \/ d = 8 \/ d = 9)
    as Hd by lia.
  repeat (destruct Hd as [Hd|Hd]); subst; reflexivity.
Qed.

Lemma show_nonneg_parse fuel z acc n :
  0 <= z -> z < 2 ^ Z.of_nat fuel -> (0 < fuel)%nat ->
  parse_digits n (show_nonneg fuel z acc) =
  parse_digits (n * 10 ^ (Z.of_nat (String.length (show_nonneg fuel z ""))) + z) acc.
Proof.
  revert z acc n. induction fuel as [|fuel IH]; intros z acc n H0 Hz Hf; [lia|].
  cbn [show_nonneg]. destruct (z <? 10) eqn:E; zbool.
  - cbn [parse_digits String.length]. rewrite Z.mod_small by lia.
    rewrite digit_of_digit_char by lia. f_equal.
  - assert (0 <= z / 10) by (apply Z.div_pos; lia).
    assert (z / 10 < 2 ^ Z.of_nat fuel) as Hlt.
    { apply Z.div_lt_upper_bound; [lia|]. rewrite Nat2Z.inj_succ, Z.pow_succ_r in Hz by lia. lia. }
    destruct fuel as [|fuel]; [cbn in Hlt; lia|].
    rewrite IH by lia. cbn [parse_digits].
    pose proof (Z.mod_pos_bound z 10 ltac:(lia)).
    rewrite digit_of_digit_char by lia. f_equal.
    assert (forall f y a, String.length (show_nonneg f y a) =
              (String.length (show_nonneg f y "") + String.length a)%nat) as Hlen.
    { clear. induction f as [|f IHf]; intros y a; cbn [show_nonneg]; [done|].
      destruct (y <? 10); cbn [String.length]; [done|].
      rewrite IHf, (IHf _ (String _ "")). cbn. lia. }
    rewrite (Hlen _ _ (String _ "")). cbn [String.length].
    rewrite Nat2Z.inj_add, Z.pow_add_r by lia. change (10 ^ Z.of_nat 1) with 10.
    pose proof (Z.div_mod z 10 ltac:(lia)). lia.
Qed.

Lemma show_nonneg_head fuel z acc :
  0 <= z -> (0 < fuel)%nat -> exists d s, 0 <= d < 10 /\ show_nonneg fuel z acc = String (digit_char d) s.
Proof.
  revert z acc. induction fuel as [|fuel IH]; intros z acc H0 Hf; [lia|].
  cbn [show_nonneg]. pose proof (Z.mod_pos_bound z 10 ltac:(lia)).
  destruct (z <? 10); [eauto|]. destruct fuel; [eauto|].
  apply IH; [apply Z.div_pos|]; lia.
Qed.

Lemma parse_show_nonneg lo hi z :
  0 <= z -> lo <= z <= hi -> parse_int lo hi (show z) = Some z.
Proof.
  intros H0 Hr. unfold show. rewrite (proj2 (Z.ltb_ge z 0)) by lia.
  rewrite Z.abs_eq by lia. set (f := S (Z.to_nat (Z.log2 z))).
  assert (z < 2 ^ Z.of_nat f) as Hz.
  { unfold f. rewrite Nat2Z.inj_succ, Z2Nat.id by apply Z.log2_nonneg.
    destruct (decide (z = 0)) as [->|]; [cbn; lia|]. apply Z.log2_spec. lia. }
  destruct (show_nonneg_head f z "") as (d & s & Hd & Hs); [lia|unfold f; lia|].
  assert (parse_digits 0 (show_nonneg f z "") = Some z) as Hp.
  { rewrite show_nonneg_parse by (unfold f in *; lia). cbn [parse_digits]. f_equal; lia. }
  rewrite Hs in *. unfold parse_int.
  assert (d = 0 \/ d = 1 \/ d = 2 \/ d = 3 \/ d = 4 \/ d = 5 \/ d = 6 \/ d = 7 \/ d = 8 \/ d = 9)
    as Hdd by lia.
  assert ((lo <=? z) && (z <=? hi) = true) as Hb by (apply andb_true_iff; split; apply Z.leb_le; lia).
  repeat (destruct Hdd as [Hdd|Hdd]); subst d; unfold digit_char in *;
    match goal with H : context [ascii_of_nat ?n] |- _ =>
      let c := eval vm_compute in (ascii_of_nat n) in change (ascii_of_nat n) with c in * end;
    by rewrite Hp, Hb.
Qed.
