(* ===== verification/BytesCodec.v ===== *)
(** * The length-prefixed framing codec ([libs/hbb_common/src/bytes_codec.rs])

    [BytesCodec] frames every message of the TCP transport.  The two low bits
    of the first byte give the number of extra header bytes; the remaining bits
    of the little-endian header are the payload length.  The decoder keeps a
    two-state machine ([Head] / [Data n]) between calls.

    [drain] is the loop its caller runs: call [decode] until it asks for more
    input.  The main results are the round trip of one frame and of a stream
    of frames cut into arbitrary chunks. *)

From S2P Require Import Prelude.

Module Codec.

(** ** Data *)

Inductive DecodeState : Type :=
| Head
| Data (n : Z).

Record BytesCodec : Type := mkBytesCodec {
  state : DecodeState;
  raw : bool;
  max_packet_length : Z
}.

Inductive io_error : Type :=
| InvalidData (msg : string)
| InvalidInput (msg : string).

Definition new : BytesCodec := mkBytesCodec Head false usize_MAX.

Definition set_raw (c : BytesCodec) : BytesCodec :=
  mkBytesCodec (state c) true (max_packet_length c).

Definition set_max_packet_length (c : BytesCodec) (n : Z) : BytesCodec :=
  mkBytesCodec (state c) (raw c) n.

Definition set_state (c : BytesCodec) (s : DecodeState) : BytesCodec :=
  mkBytesCodec s (raw c) (max_packet_length c).

(** ** Operations

    [src] is the receive buffer; every operation returns what is left of it. *)

Definition byte_at (src : list Z) (i : nat) : Z := nth i src 0.

Definition decode_head (c : BytesCodec) (src : list Z)
  : result (option Z) io_error * list Z :=
  match src with
  | [] => (Ok None, src)
  | _ =>
    let head_len := Z.land (byte_at src 0) 0x3 + 1 in
    if len src <? head_len then (Ok None, src) else
    let n := byte_at src 0 in
    let n := if 1 <? head_len then Z.lor n (Z.shiftl (byte_at src 1) 8) else n in
    let n := if 2 <? head_len then Z.lor n (Z.shiftl (byte_at src 2) 16) else n in
    let n := if 3 <? head_len then Z.lor n (Z.shiftl (byte_at src 3) 24) else n in
    let n := Z.shiftr n 2 in
    if max_packet_length c <? n then (Err (InvalidData "Too big packet"), src) else
    (Ok (Some n), drop (Z.to_nat head_len) src)
  end.

Definition decode_data (n : Z) (src : list Z) : option (list Z) * list Z :=
  if len src <? n then (None, src)
  else (Some (take (Z.to_nat n) src), drop (Z.to_nat n) src).

Definition decode_body (c : BytesCodec) (n : Z) (src : list Z)
  : result (option (list Z)) io_error * BytesCodec * list Z :=
  match decode_data n src with
  | (Some data, src) => (Ok (Some data), set_state c Head, src)
  | (None, src) => (Ok None, c, src)
  end.

Definition decode (c : BytesCodec) (src : list Z)
  : result (option (list Z)) io_error * BytesCodec * list Z :=
  if raw c then
    match src with
    | [] => (Ok None, c, src)
    | _ => (Ok (Some src), c, [])
    end
  else
    match state c with
    | Head =>
      match decode_head c src with
      | (Err e, src) => (Err e, c, src)
      | (Ok None, src) => (Ok None, c, src)
      | (Ok (Some n), src) => decode_body (set_state c (Data n)) n src
      end
    | Data n => decode_body c n src
    end.

(** The header of a payload of [l] bytes. *)
Definition encode_head (l : Z) : result (list Z) io_error :=
  if l <=? 0x3F then Ok (to_le_bytes 1 (u8 (Z.shiftl l 2)))
  else if l <=? 0x3FFF then Ok (to_le_bytes 2 (Z.lor (u16 (Z.shiftl l 2)) 0x1))
  else if l <=? 0x3FFFFF then
    let h := Z.lor (u32 (Z.shiftl l 2)) 0x2 in
    Ok (to_le_bytes 2 (u16 (Z.land h 0xFFFF)) ++ to_le_bytes 1 (u8 (Z.shiftr h 16)))
  else if l <=? 0x3FFFFFFF then Ok (to_le_bytes 4 (Z.lor (u32 (Z.shiftl l 2)) 0x3))
  else Err (InvalidInput "Overflow").

Definition encode (c : BytesCodec) (data buf : list Z) : result (list Z) io_error :=
  if raw c then Ok (buf ++ data)
  else match encode_head (len data) with
       | Err e => Err e
       | Ok h => Ok (buf ++ h ++ data)
       end.

(** ** The read loop and the write loop *)

(** [drain] calls [decode] until it returns [None] (more input needed) or an
    error.  Every frame taken from state [Head] consumes at least its first
    header byte, so [length src + 2] rounds are always enough. *)
Fixpoint drain_n (fuel : nat) (c : BytesCodec) (src : list Z)
  : list (list Z) * result BytesCodec io_error * list Z :=
  match fuel with
  | O => ([], Ok c, src)
  | S fuel =>
    match decode c src with
    | (Err e, _, src) => ([], Err e, src)
    | (Ok None, c, src) => ([], Ok c, src)
    | (Ok (Some m), c, src) =>
      let '(ms, r, src) := drain_n fuel c src in (m :: ms, r, src)
    end
  end.

Definition drain (c : BytesCodec) (src : list Z) := drain_n (S (S (length src))) c src.

(** Bytes arrive in chunks; each is appended to the buffer and drained. *)
Fixpoint feed (c : BytesCodec) (src : list Z) (chunks : list (list Z))
  : list (list Z) * result BytesCodec io_error * list Z :=
  match chunks with
  | [] => ([], Ok c, src)
  | ch :: chunks =>
    match drain c (src ++ ch) with
    | (ms, Err e, src) => (ms, Err e, src)
    | (ms, Ok c, src) =>
      let '(ms', r, src) := feed c src chunks in (ms ++ ms', r, src)
    end
  end.

Fixpoint encode_all (c : BytesCodec) (ms : list (list Z)) (buf : list Z)
  : result (list Z) io_error :=
  match ms with
  | [] => Ok buf
  | m :: ms => match encode c m buf with Err e => Err e | Ok buf => encode_all c ms buf end
  end.

(** ** Headers *)

Lemma decode_head_le c h rest k n :
  bytes h -> length h = S k -> (k <= 3)%nat ->
  from_le_bytes h = 4 * n + Z.of_nat k -> 0 <= n <= max_packet_length c ->
  decode_head c (h ++ rest) = (Ok (Some n), rest).
Proof.
  intros Hb Hl Hk Hv Hn.
  destruct h as [|b0 h]; [done|]. unfold decode_head. cbn [app].
  inversion Hb as [|? ? Hb0 Hb']; subst. unfold is_byte in Hb0.
  cbn [from_le_bytes] in Hv. unfold byte_at. cbn [nth].
  change 0x3 with (2 ^ 2 - 1). rewrite land_mask by lia. change (2 ^ 2) with 4.
  assert (b0 mod 4 = Z.of_nat k) as Hmod.
  { replace b0 with (Z.of_nat k + (n - 64 * from_le_bytes h) * 4) by lia.
    rewrite Z.mod_add by lia. apply Z.mod_small. lia. }
  rewrite Hmod.
  assert ((len (b0 :: h ++ rest) <? Z.of_nat k + 1) = false) as ->.
  { apply Z.ltb_ge. unfold len. cbn [length] in *. rewrite length_app. lia. }
  replace (drop (Z.to_nat (Z.of_nat k + 1)) (b0 :: h ++ rest)) with rest; cycle 1.
  { replace (Z.to_nat (Z.of_nat k + 1)) with (length (b0 :: h)) by (cbn [length] in *; lia).
    by rewrite (app_comm_cons h rest b0), drop_app_length. }
  set (V := Z.shiftr _ 2). assert (V = n) as ->; cycle 1.
  { rewrite (proj2 (Z.ltb_ge _ _)) by lia. done. }
  unfold V. clear V. rewrite shiftr_div by lia. change (2 ^ 2) with 4.
  transitivity ((4 * n + Z.of_nat k) / 4); cycle 1.
  { symmetry. apply (Z.div_unique _ _ _ (Z.of_nat k)); lia. }
  f_equal. rewrite <- Hv.
  destruct k as [|[|[|[|k]]]]; [| | | |lia];
    repeat (destruct h as [|? h]; cbn [length] in Hl; [try done; lia|]);
    destruct h; try done; cbn [app nth from_le_bytes];
    repeat match goal with H : bytes (_ :: _) |- _ => inversion H; clear H; subst end;
    unfold is_byte in *;
    repeat match goal with |- context [?a <? ?b] => 
      let v := eval vm_compute in (a <? b) in change (a <? b) with v end; cbn match;
    pack_arith; lia.
Qed.

Lemma encode_head_spec l :
  0 <= l <= 0x3FFFFFFF ->
  exists h k, encode_head l = Ok h /\ bytes h /\ length h = S k /\ (k <= 3)%nat /\
              from_le_bytes h = 4 * l + Z.of_nat k.
Proof.
  intros Hl. unfold encode_head. rewrite !(Z.shiftl_mul_pow2 l 2) by lia.
  change (2 ^ 2) with 4.
  assert (forall v k, 0 <= k < 4 -> Z.lor (v * 4) k = 4 * v + k) as Hor.
  { intros v k Hk. rewrite Z.lor_comm. change 4 with (2 ^ 2) at 1.
    rewrite <- Z.shiftl_mul_pow2, lor_shiftl by lia. lia. }
  repeat split_if; zbool; try lia.
  - exists (to_le_bytes 1 (u8 (l * 4))), 0%nat.
    rewrite wrap_small, from_to_le_bytes by lia. repeat split; auto with rust; lia.
  - exists (to_le_bytes 2 (Z.lor (u16 (l * 4)) 1)), 1%nat.
    rewrite wrap_small, Hor, from_to_le_bytes by lia. repeat split; auto with rust; lia.
  - cbv zeta. rewrite !(wrap_small 32), !Hor by lia.
    change 0xFFFF with (2 ^ 16 - 1). rewrite land_mask, shiftr_div by lia.
    set (h := 4 * l + 2). assert (0 <= h < 2 ^ 24) as Hh by (unfold h; lia).
    assert (0 <= h / 2 ^ 16 < 256) as Hq
      by (split; [apply Z.div_pos | apply Z.div_lt_upper_bound]; lia).
    pose proof (Z.mod_pos_bound h (2 ^ 16) ltac:(lia)) as Hr.
    rewrite !wrap_small by lia.
    eexists _, 2%nat. split; [done|].
    split; [apply Forall_app; auto with rust|]. split; [done|]. split; [lia|].
    rewrite from_le_bytes_app, !from_to_le_bytes, to_le_bytes_length by lia.
    pose proof (Z.div_mod h (2 ^ 16) ltac:(lia)). unfold h in *. lia.
  - exists (to_le_bytes 4 (Z.lor (u32 (l * 4)) 3)), 3%nat.
    rewrite wrap_small, Hor, from_to_le_bytes by lia. repeat split; auto with rust; lia.
Qed.

(** ** Frames *)

(** A payload the peer accepts: it fits the header format and the limit set by
    [set_max_packet_length]. *)
Definition fits (c : BytesCodec) (m : list Z) : Prop :=
  len m <= 0x3FFFFFFF /\ len m <= max_packet_length c.

Definition frame (m : list Z) : list Z :=
  match encode_head (len m) with Ok h => h ++ m | Err _ => m end.

Definition frames (ms : list (list Z)) : list Z := concat (map frame ms).

(** The bytes still to come, from the decoder's point of view, when the
    messages [ms] are outstanding. *)
Definition expects (c : BytesCodec) (ms : list (list Z)) (bs : list Z) : Prop :=
  raw c = false /\ Forall (fits c) ms /\
  match state c with
  | Head => bs = frames ms
  | Data n => exists m ms', ms = m :: ms' /\ n = len m /\ bs = m ++ frames ms'
  end.

Lemma frame_head c m :
  fits c m ->
  exists h, frame m = h ++ m /\ h <> [] /\
    (forall rest, decode_head c (h ++ rest) = (Ok (Some (len m)), rest)) /\
    (forall s1 s2, s2 <> [] -> s1 ++ s2 = h -> decode_head c s1 = (Ok None, s1)).
Proof.
  intros [H1 H2]. pose proof (len_nonneg m).
  destruct (encode_head_spec (len m)) as (h & k & He & Hb & Hl & Hk & Hv); [lia|].
  exists h. unfold frame. rewrite He. split; [done|]. split; [by destruct h|]. split.
  - intros rest. eapply decode_head_le; eauto; lia.
  - intros [|b0 s1] s2 Hs2 Hs; [done|]. subst h. unfold decode_head, byte_at. cbn [nth].
    change 0x3 with (2 ^ 2 - 1). rewrite land_mask by lia. change (2 ^ 2) with 4.
    rewrite <- app_comm_cons in Hv, Hl. cbn [from_le_bytes] in Hv.
    set (x := from_le_bytes (s1 ++ s2)) in *.
    assert (b0 mod 4 = Z.of_nat k) as ->.
    { replace b0 with (Z.of_nat k + (len m - 64 * x) * 4) by lia.
      rewrite Z.mod_add by lia. apply Z.mod_small. lia. }
    rewrite (proj2 (Z.ltb_lt _ _)); [done|].
    destruct s2; [done|]. unfold len in *. cbn [length] in *. rewrite length_app in Hl.
    cbn [length] in Hl. lia.
Qed.

Lemma decode_data_full m rest : decode_data (len m) (m ++ rest) = (Some m, rest).
Proof.
  unfold decode_data. rewrite len_app. pose proof (len_nonneg rest).
  rewrite (proj2 (Z.ltb_ge _ _)) by lia.
  unfold len. rewrite Nat2Z.id, take_app_length, drop_app_length. done.
Qed.

(** Two ways to cut the same bytes: one cut is inside the other's first part. *)
Lemma app_cut {A} (a b x y : list A) :
  a ++ b = x ++ y ->
  (exists z, z <> [] /\ x = a ++ z /\ b = z ++ y) \/ (exists z, a = x ++ z /\ y = z ++ b).
Proof.
  revert x. induction a as [|e a IH]; intros [|e' x] H; simplify_eq/=.
  - right. by exists [].
  - left. by exists (e' :: x).
  - right. by exists (e :: a).
  - destruct (IH _ ltac:(eassumption)) as [(z & ? & -> & ->)|(z & -> & ->)]; [left|right]; eauto.
Qed.

(** One [decode] call on a buffer that is a prefix of the outstanding bytes
    either delivers the next message or keeps everything for later. *)
Lemma decode_progress c ms src f :
  expects c ms (src ++ f) ->
  (exists c' src', decode c src = (Ok None, c', src') /\ expects c' ms (src' ++ f) /\
     max_packet_length c' = max_packet_length c /\
     (f = [] -> ms = [] /\ src' = [] /\ state c' = Head)) \/
  (exists m ms' src', ms = m :: ms' /\ decode c src = (Ok (Some m), set_state c Head, src') /\
     expects (set_state c Head) ms' (src' ++ f) /\
     (state c = Head -> (length src' < length src)%nat) /\ (length src' <= length src)%nat).
Proof.
  intros (Hraw & Hfit & Hst). unfold decode. rewrite Hraw.
  destruct c as [st r mx]; cbn [state raw max_packet_length] in *. subst r.
  destruct st as [|n].
  - destruct ms as [|m ms]; cbn in Hst.
    { apply app_eq_nil in Hst as [-> ->]. left. exists (mkBytesCodec Head false mx), []. done. }
    inversion Hfit as [|? ? Hm Hms]; subst.
    destruct (frame_head _ _ Hm) as (h & Hfr & Hne & Hfull & Hshort).
    rewrite Hfr, <- app_assoc in Hst.
    destruct (app_cut _ _ _ _ Hst) as [(z & Hz & -> & ->)|(z & -> & Hrest)].
    + left. rewrite (Hshort src z) by done.
      exists (mkBytesCodec Head false mx), src. repeat split; auto.
      * cbn. unfold frames. cbn [map concat]. by rewrite Hfr, <- !app_assoc.
      * by destruct z.
      * by destruct z.
    + rewrite Hfull. cbn. unfold decode_body. symmetry in Hrest.
      destruct (app_cut _ _ _ _ Hrest) as [(y & Hy & -> & ->)|(y & -> & ?)].
      * left. unfold decode_data.
        rewrite (proj2 (Z.ltb_lt _ _)); cycle 1.
        { rewrite len_app. destruct y; [done|]. unfold len. cbn [length]. lia. }
        eexists _, z. split; [done|]. repeat split; auto; cbn.
        -- exists (z ++ y), ms. by rewrite <- app_assoc.
        -- by destruct y.
        -- by destruct y.
        -- by destruct y.
      * right. rewrite decode_data_full. exists m, ms, y. repeat split; auto; cbn.
        all: rewrite ?length_app; destruct h; [done|]; cbn [length app]; done || lia.
  - destruct Hst as (m & ms' & -> & -> & Hst).
    inversion Hfit as [|? ? Hm Hms]; subst. unfold decode_body.
    destruct (app_cut _ _ _ _ Hst) as [(y & Hy & -> & ->)|(y & -> & ?)].
    + left. unfold decode_data.
      rewrite (proj2 (Z.ltb_lt _ _)); cycle 1.
      { rewrite len_app. destruct y; [done|]. unfold len. cbn [length]. lia. }
      eexists _, src. split; [done|]. repeat split; auto; cbn.
      * exists (src ++ y), ms'. by rewrite <- app_assoc.
      * by destruct y.
      * by destruct y.
      * by destruct y.
    + right. rewrite decode_data_full. exists m, ms', y. repeat split; auto; cbn.
      all: rewrite ?length_app; done || lia.
Qed.

Lemma drain_progress fuel c ms src f :
  expects c ms (src ++ f) ->
  (match state c with Head => S (length src) | Data _ => S (S (length src)) end <= fuel)%nat ->
  exists ms1 ms2 c' src',
    drain_n fuel c src = (ms1, Ok c', src') /\ ms = ms1 ++ ms2 /\
    expects c' ms2 (src' ++ f) /\ (f = [] -> ms2 = [] /\ src' = [] /\ state c' = Head) /\
    max_packet_length c' = max_packet_length c.
Proof.
  revert c ms src. induction fuel as [|fuel IH]; intros c ms src He Hf; [destruct (state c); lia|].
  cbn [drain_n].
  destruct (decode_progress _ _ _ _ He)
    as [(c' & src' & -> & He' & Hm & Hend)|(m & ms' & src' & -> & -> & He' & Hlt & Hle)].
  - exists [], ms, c', src'. auto.
  - destruct (IH _ _ _ He') as (ms1 & ms2 & c2 & src2 & -> & -> & Hx & Hend & Hmx).
    { cbn [state set_state]. destruct (state c); [specialize (Hlt eq_refl)|]; lia. }
    exists (m :: ms1), ms2, c2, src2. auto.
Qed.

Lemma feed_progress chunks c ms src f :
  expects c ms (src ++ concat chunks ++ f) ->
  exists ms1 ms2 c' src',
    feed c src chunks = (ms1, Ok c', src') /\ ms = ms1 ++ ms2 /\
    expects c' ms2 (src' ++ f) /\
    (chunks <> [] -> f = [] -> ms2 = [] /\ src' = [] /\ state c' = Head) /\
    max_packet_length c' = max_packet_length c.
Proof.
  revert c ms src. induction chunks as [|ch chunks IH]; intros c ms src He; cbn [feed concat] in *.
  - exists [], ms, c, src. done.
  - rewrite <- app_assoc, app_assoc in He. unfold drain.
    destruct (drain_progress (S (S (length (src ++ ch)))) _ _ _ _ He)
      as (ms1 & ms2 & c1 & src1 & -> & -> & He1 & Hend & Hmx); [destruct (state c); lia|].
    destruct (IH _ _ _ He1) as (ms3 & ms4 & c2 & src2 & Hfd & -> & He2 & Hend2 & Hmx2).
    rewrite Hfd.
    exists (ms1 ++ ms3), ms4, c2, src2. rewrite <- app_assoc.
    do 3 (split; [done|]). split; [|congruence].
    intros _ ->. destruct chunks as [|ch' chunks]; [|by apply Hend2].
    cbn in *. simplify_eq. by apply Hend.
Qed.

Lemma encode_all_frames c ms buf :
  raw c = false -> Forall (fun m => len m <= 0x3FFFFFFF) ms ->
  encode_all c ms buf = Ok (buf ++ frames ms).
Proof.
  intros Hr Hms. revert buf. induction Hms as [|m ms Hm Hms IH]; intros buf; cbn [encode_all].
  - unfold frames. cbn. by rewrite app_nil_r.
  - unfold encode. rewrite Hr.
    destruct (encode_head_spec (len m)) as (h & k & He & _); [pose proof (len_nonneg m); lia|].
    rewrite He, IH. unfold frames at 2. cbn [map concat]. unfold frame. rewrite He.
    by rewrite <- !app_assoc.
Qed.

Lemma feed_roundtrip c ms wire chunks :
  raw c = false -> state c = Head -> Forall (fits c) ms ->
  encode_all c ms [] = Ok wire -> concat chunks = wire -> chunks <> [] ->
  feed c [] chunks = (ms, Ok c, []).
Proof.
  intros Hraw Hst Hms Hw Hc Hne.
  rewrite encode_all_frames in Hw; [|done|by eapply Forall_impl; [done|intros ? [? _]]].
  cbn in Hw. simplify_eq.
  destruct (feed_progress chunks c ms [] []) as (ms1 & ms2 & c' & src' & -> & -> & He & Hend & Hmx).
  { cbn. rewrite app_nil_r. split; [done|]. split; [done|]. by rewrite Hst. }
  destruct (Hend Hne eq_refl) as (-> & -> & Hst'). rewrite app_nil_r.
  destruct He as (Hraw' & _). destruct c, c'; cbn in *; simplify_eq. done.
Qed.

(** ** Properties *)

(** C1. Stream round trip, independent of chunking: whatever list of payloads
    is encoded onto the wire, and however the resulting bytes are cut into
    non-empty-listed chunks on arrival, feeding the chunks to a decoder in its
    initial state delivers exactly those payloads in order, ends back in
    [Head] with the limit unchanged, and leaves no byte in the buffer. *)
Theorem stream_roundtrip c ms wire chunks :
  raw c = false -> state c = Head -> Forall (fits c) ms ->
  encode_all c ms [] = Ok wire -> concat chunks = wire -> chunks <> [] ->
  feed c [] chunks = (ms, Ok c, []).
Proof. apply feed_roundtrip. Qed.

Lemma stream_roundtrip_witness :
  feed new [] [[12; 7]; [8]; [9; 4]; [5]] = ([[7; 8; 9]; [5]], Ok new, []).
Proof.
  apply (stream_roundtrip new [[7; 8; 9]; [5]] [12; 7; 8; 9; 4; 5]);
    first [reflexivity | discriminate | idtac].
  repeat constructor; vm_compute; discriminate.
Defined.

(** Encoding fails exactly on payloads above [0x3FFFFFFF] bytes, and the
    failure writes nothing; otherwise the frame is appended with at most four
    header bytes. *)
Theorem encode_overflow c data buf :
  raw c = false ->
  (0x3FFFFFFF < len data <-> encode c data buf = Err (InvalidInput "Overflow")) /\
  (len data <= 0x3FFFFFFF -> exists h, encode c data buf = Ok (buf ++ h ++ data) /\
     (1 <= length h <= 4)%nat).
Proof.
  intros Hr. unfold encode. rewrite Hr. pose proof (len_nonneg data).
  destruct (decide (len data <= 0x3FFFFFFF)) as [Hle|Hgt].
  - destruct (encode_head_spec (len data)) as (h & k & -> & _ & Hl & Hk & _); [lia|].
    split; [split; [lia|done]|]. intros _. exists h. split; [done|lia].
  - assert (encode_head (len data) = Err (InvalidInput "Overflow")) as ->.
    { unfold encode_head. zcases; done. }
    split; [split; [done|lia]|lia].
Qed.

Lemma encode_overflow_witness :
  exists h, encode new [1; 2] [9] = Ok ([9] ++ h ++ [1; 2]) /\ (1 <= length h <= 4)%nat.
Proof.
  destruct (encode_overflow new [1; 2] [9] eq_refl) as [_ H].
  apply H. vm_compute. discriminate.
Defined.

(** A frame whose announced length exceeds [max_packet_length] is refused
    as "Too big packet" as soon as its header is complete, whatever follows,
    and the buffer and the decoder are left untouched. *)
Theorem oversize_rejected c (m rest : list Z) :
  raw c = false -> state c = Head -> len m <= 0x3FFFFFFF -> max_packet_length c < len m ->
  exists h, encode_head (len m) = Ok h /\
    decode c (h ++ rest) = (Err (InvalidData "Too big packet"), c, h ++ rest).
Proof.
  intros Hr Hs Hl Hm. pose proof (len_nonneg m).
  destruct (frame_head new m) as (h & Hf & Hne & Hd & _).
  { split; [done|]. cbn. unfold usize_MAX. lia. }
  exists h. destruct (encode_head_spec (len m)) as (h' & k & He & _); [lia|].
  unfold frame in Hf. rewrite He in Hf. apply app_inv_tail in Hf as ->.
  split; [done|]. unfold decode. rewrite Hr, Hs. specialize (Hd rest).
  destruct h as [|b h]; [done|]. unfold decode_head in *. cbn [app] in *.
  destruct (len (A:=Z) _ <? _) eqn:E; [done|]. destruct (max_packet_length new <? _) eqn:E2; [done|].
  injection Hd as Hn _. rewrite Hn.
  by rewrite (proj2 (Z.ltb_lt _ _)) by lia.
Qed.

Lemma oversize_rejected_witness :
  exists h, encode_head (len [1; 2; 3]) = Ok h /\
    decode (set_max_packet_length new 2) (h ++ [1]) =
    (Err (InvalidData "Too big packet"), set_max_packet_length new 2, h ++ [1]).
Proof.
  apply (oversize_rejected (set_max_packet_length new 2) [1; 2; 3] [1]);
    first [reflexivity | vm_compute; congruence].
Defined.

(** ** Termination of the read loop *)

Lemma decode_head_shrinks c src n src' :
  decode_head c src = (Ok (Some n), src') -> (length src' < length src)%nat.
Proof.
  unfold decode_head. destruct src as [|b src]; [done|].
  destruct (len (A:=Z) _ <? _); [done|]. destruct (max_packet_length c <? _); [done|].
  intros [= _ <-]. unfold byte_at. cbn [nth]. set (k := Z.land b 3).
  assert (0 <= k) by (apply Z.land_nonneg; lia).
  replace (Z.to_nat (k + 1)) with (S (Z.to_nat k)) by lia.
  cbn [drop length]. rewrite length_drop. lia.
Qed.

Lemma decode_shrinks c src m c' src' :
  decode c src = (Ok (Some m), c', src') ->
  (length src' <= length src)%nat /\
  (raw c = false -> state c' = Head /\ raw c' = false) /\
  (raw c = false -> state c = Head -> (length src' < length src)%nat) /\
  (raw c = true -> src' = [] /\ c' = c).
Proof.
  assert (forall (c : BytesCodec) (n : Z) (src : list Z), decode_body c n src = (Ok (Some m), c', src') ->
          (length src' <= length src)%nat /\ state c' = Head /\ raw c' = raw c) as Hb.
  { intros c1 n src1. unfold decode_body, decode_data. destruct (len src1 <? n); [intros [=]|].
    intros [= _ <- <-]. rewrite length_drop. split; [lia|done]. }
  unfold decode. destruct (raw c) eqn:Hr.
  - destruct src; [done|]. intros [= _ <- <-]. cbn. repeat split; try done; lia.
  - destruct (state c) eqn:Hs.
    + destruct (decode_head c src) as [[[n|]|e] src1] eqn:Hh; try done.
      intros H. apply Hb in H as (? & ? & ?). apply decode_head_shrinks in Hh.
      cbn in *. rewrite Hr in *. repeat split; try done; lia.
    + intros H. apply Hb in H as (? & ? & ?). rewrite Hr in *. repeat split; try done.
Qed.

Lemma drain_fuel_more c src fuel fuel' :
  (match raw c, state c with false, Head => S (length src) | _, _ => S (S (length src)) end
     <= fuel)%nat -> (fuel <= fuel')%nat ->
  drain_n fuel' c src = drain_n fuel c src.
Proof.
  revert c src fuel'. induction fuel as [|fuel IH]; intros c src fuel' Hf Hle;
    [destruct (raw c), (state c); lia|].
  destruct fuel' as [|fuel']; [lia|]. cbn [drain_n].
  destruct (decode c src) as [[[[m|]|e] c'] src'] eqn:Hd; try done.
  rewrite (IH c' src' fuel'); [done| |lia].
  pose proof (decode_shrinks _ _ _ _ _ Hd) as (H1 & H2 & H3 & H4).
  destruct (raw c) eqn:Hr.
  - destruct (H4 eq_refl) as [-> ->]. rewrite Hr. cbn. 
    destruct src as [|b src]; cbn in *; [|lia].
    unfold decode in Hd. rewrite Hr in Hd. done.
  - destruct (H2 eq_refl) as [-> ->]. destruct (state c); [specialize (H3 eq_refl eq_refl)|]; lia.
Qed.

(** The read loop terminates: from any decoder state and buffer, [drain]'s
    bound on the number of [decode] calls is never what stops it, so more
    rounds give the same result. *)
Theorem drain_terminates c src fuel :
  (S (S (length src)) <= fuel)%nat -> drain_n fuel c src = drain c src.
Proof.
  intros H. unfold drain. apply drain_fuel_more; [destruct (raw c), (state c); lia|done].
Qed.

Lemma drain_terminates_witness :
  drain_n 50 (set_raw new) [4; 5] = drain (set_raw new) [4; 5].
Proof. apply (drain_terminates (set_raw new) [4; 5] 50). cbn. lia. Defined.

End Codec.
