(* ===== verification/NetUtil.v ===== *)
(** * Network addresses, versions and host strings

    [libs/hbb_common/src/lib.rs]: [AddrMangle] (the wire form of a peer's
    socket address, mixed with a timestamp so that middleboxes do not rewrite
    it), [get_version_number] and [get_version_from_url].
    [libs/hbb_common/src/socket_client.rs]: the host:port string helpers.

    The clock reading used by [AddrMangle::encode] is an argument.  The regular
    expressions behind [is_ipv4_str] and [is_ipv6_str] belong to the [regex]
    crate; the two predicates are parameters of the host helpers. *)

From S2P Require Import Prelude RustStr.

Module AddrMangle.

(** ** Socket addresses: octets, port, and for IPv6 the flow and scope ids *)

Inductive SocketAddr : Type :=
| V4 (ip : list Z) (port : Z)
| V6 (ip : list Z) (port flowinfo scope_id : Z).

Definition zeros (n : nat) : list Z := replicate n 0.

(** [Ipv6Addr::to_ipv4]: IPv4-compatible ([::a.b.c.d]) or IPv4-mapped
    ([::ffff:a.b.c.d]) addresses. *)
Definition to_ipv4 (ip : list Z) : option (list Z) :=
  if decide (take 10 ip = zeros 10) then
    if decide (take 2 (drop 10 ip) = [0; 0] \/ take 2 (drop 10 ip) = [255; 255])
    then Some (drop 12 ip) else None
  else None.

Definition is_loopback (a : SocketAddr) : bool :=
  match a with
  | V4 ip _ => bool_decide (take 1 ip = [127])
  | V6 ip _ _ _ => bool_decide (ip = zeros 15 ++ [1])
  end.

Definition try_into_v4 (addr : SocketAddr) : SocketAddr :=
  match addr with
  | V6 ip port _ _ =>
    if negb (is_loopback addr) then
      match to_ipv4 ip with Some v4 => V4 v4 port | None => addr end
    else addr
  | _ => addr
  end.

Fixpoint leading_zeros (l : list Z) : nat :=
  match l with
  | b :: l => if b =? 0 then S (leading_zeros l) else O
  | [] => O
  end.

Definition encode (micros : Z) (addr : SocketAddr) : list Z :=
  match try_into_v4 addr with
  | V4 ip port =>
    let tm := u32 micros in
    let ip := from_le_bytes ip in
    let v := Z.lor (Z.lor (u128 (Z.shiftl (ip + tm) 49)) (u128 (Z.shiftl tm 17)))
                   (port + Z.land tm 0xFFFF) in
    let bs := to_le_bytes 16 v in
    let n_padding := leading_zeros (reverse bs) in
    take (16 - n_padding) bs
  | V6 ip port _ _ => ip ++ to_le_bytes 2 port
  end.

(** [Config::get_any_listen_addr] *)
Definition get_any_listen_addr (is_ipv4 : bool) : SocketAddr :=
  if is_ipv4 then V4 (zeros 4) 0 else V6 (zeros 16) 0 0 0.

Definition decode (bs : list Z) : SocketAddr :=
  if 16 <? len bs then
    if negb (len bs =? 18) then get_any_listen_addr false
    else V6 (take 16 bs) (from_le_bytes (drop 16 bs)) 0 0
  else
    let padded := bs ++ zeros (16 - length bs) in
    let number := from_le_bytes padded in
    let tm := Z.land (Z.shiftr number 17) (2 ^ 32 - 1) in
    let ip := to_le_bytes 4 (u32 (u128 (Z.shiftr number 49 - tm))) in
    let port := u128 (Z.land number 0xFFFFFF - Z.land tm 0xFFFF) in
    V4 ip (u16 port).

Definition addr_wf (a : SocketAddr) : Prop :=
  match a with
  | V4 ip port => bytes ip /\ length ip = 4%nat /\ in_u 16 port
  | V6 ip port fl sc => bytes ip /\ length ip = 16%nat /\ in_u 16 port /\ in_u 32 fl /\ in_u 32 sc
  end.

(** What the wire form keeps of an address: IPv4 inside IPv6 becomes IPv4, and
    the IPv6 flow and scope ids are dropped. *)
Definition canonical (a : SocketAddr) : SocketAddr :=
  match try_into_v4 a with
  | V4 ip port => V4 ip port
  | V6 ip port _ _ => V6 ip port 0 0
  end.

Lemma leading_zeros_split l :
  l = zeros (leading_zeros l) ++ drop (leading_zeros l) l.
Proof.
  induction l as [|b l IH]; [done|]. cbn. destruct (b =? 0) eqn:E; [|done].
  apply Z.eqb_eq in E as ->. cbn. by f_equal.
Qed.

Lemma leading_zeros_le l : (leading_zeros l <= length l)%nat.
Proof. induction l as [|b l IH]; cbn; [lia|]. destruct (b =? 0); lia. Qed.

Lemma strip_pad l :
  let n := leading_zeros (reverse l) in
  take (length l - n) l ++ zeros n = l.
Proof.
  intros n. pose proof (leading_zeros_split (reverse l)) as H. fold n in H.
  apply (f_equal reverse) in H. rewrite reverse_involutive, reverse_app in H.
  unfold zeros in *. rewrite reverse_replicate in H.
  assert (n <= length l)%nat.
  { unfold n. rewrite <- (length_reverse l). apply leading_zeros_le. }
  rewrite H at 2. rewrite take_app_length'; [done|].
  rewrite length_reverse, length_drop, length_reverse. done.
Qed.

(** The 128-bit number of an IPv4 address, as a sum of its three fields. *)
Lemma mangled_value ip tm port :
  0 <= ip < 2 ^ 32 -> 0 <= tm < 2 ^ 32 -> 0 <= port < 2 ^ 16 ->
  Z.lor (Z.lor (u128 (Z.shiftl (ip + tm) 49)) (u128 (Z.shiftl tm 17))) (port + Z.land tm 0xFFFF) =
  port + tm mod 2 ^ 16 + tm * 2 ^ 17 + (ip + tm) * 2 ^ 49.
Proof.
  intros Hip Htm Hport. change 0xFFFF with (2 ^ 16 - 1). rewrite land_mask by lia.
  pose proof (Z.mod_pos_bound tm (2 ^ 16) ltac:(lia)) as Hm.
  rewrite !wrap_small by (rewrite Z.shiftl_mul_pow2 by lia; lia).
  rewrite (Z.lor_comm (Z.lor _ _) _), (Z.lor_comm (Z.shiftl (ip + tm) 49)), Z.lor_assoc.
  rewrite (lor_shiftl (port + _) tm 17) by lia.
  rewrite lor_shiftl by lia. lia.
Qed.

Lemma decode_v4_value ip tm port :
  0 <= ip < 2 ^ 32 -> 0 <= tm < 2 ^ 32 -> 0 <= port < 2 ^ 16 ->
  let number := port + tm mod 2 ^ 16 + tm * 2 ^ 17 + (ip + tm) * 2 ^ 49 in
  let tm' := Z.land (Z.shiftr number 17) (2 ^ 32 - 1) in
  tm' = tm /\ u32 (u128 (Z.shiftr number 49 - tm')) = ip /\
  u16 (u128 (Z.land number 0xFFFFFF - Z.land tm' 0xFFFF)) = port.
Proof.
  intros Hip Htm Hport number tm'.
  pose proof (Z.mod_pos_bound tm (2 ^ 16) ltac:(lia)) as Hm.
  assert (Z.shiftr number 17 = tm + (ip + tm) * 2 ^ 32) as Hs17.
  { rewrite shiftr_div by lia. symmetry. apply (Z.div_unique _ _ _ (port + tm mod 2 ^ 16)); unfold number; lia. }
  assert (tm' = tm) as E.
  { unfold tm'. rewrite Hs17, land_mask, Z.mod_add by lia. apply Z.mod_small. lia. }
  split; [done|]. rewrite E. split.
  - assert (Z.shiftr number 49 = ip + tm) as ->.
    { rewrite shiftr_div by lia. symmetry.
      apply (Z.div_unique _ _ _ (port + tm mod 2 ^ 16 + tm * 2 ^ 17)); unfold number; lia. }
    replace (ip + tm - tm) with ip by lia. rewrite (wrap_small 128), wrap_small; lia.
  - change 0xFFFFFF with (2 ^ 24 - 1). change 0xFFFF with (2 ^ 16 - 1).
    rewrite !land_mask by lia. unfold wrap.
    pose proof (Z.div_mod number (2 ^ 24) ltac:(lia)) as Hd.
    set (q := number / 2 ^ 24) in *. set (r := number mod 2 ^ 24) in *.
    set (x := r - tm mod 2 ^ 16).
    pose proof (Z.div_mod x (2 ^ 128) ltac:(lia)) as Hx.
    symmetry. apply (Z.mod_unique _ _ (2 * tm + (ip + tm) * 2 ^ 33 - q * 2 ^ 8 - x / 2 ^ 128 * 2 ^ 112)); [lia|].
    unfold number in Hd. unfold x in *. lia.
Qed.

(** C3. [AddrMangle] round trip: for every well-formed address and every clock
    reading, decoding the encoded address gives back the address, up to the
    documented canonicalisation (IPv4 carried inside IPv6 becomes IPv4; IPv6
    flow and scope ids are not on the wire). *)
Theorem decode_encode micros a :
  addr_wf a -> decode (encode micros a) = canonical a.
Proof.
  intros Hwf. unfold encode, canonical.
  assert (addr_wf (try_into_v4 a)) as Hwf'.
  { destruct a as [|ip port fl sc]; [done|]. unfold try_into_v4.
    destruct (negb _); [|done]. unfold to_ipv4.
    case_decide; [|exact Hwf]. case_decide; [|exact Hwf]. destruct Hwf as (Hb & Hl & Hp & _).
    split; [by apply Forall_drop|]. split; [|done]. rewrite length_drop. lia. }
  clear Hwf. destruct (try_into_v4 a) as [ip port|ip port fl sc].
  - destruct Hwf' as (Hb & Hl & Hp). unfold in_u in Hp.
    pose proof (from_le_bytes_range _ Hb) as Hip. rewrite Hl in Hip.
    pose proof (wrap_range 32 micros ltac:(lia)) as Htm. set (tm := u32 micros) in *.
    change (256 ^ Z.of_nat 4) with (2 ^ 32) in Hip.
    rewrite mangled_value by lia.
    set (N := port + _ + _ + _). pose proof (Z.mod_pos_bound tm (2 ^ 16) ltac:(lia)).
    assert (0 <= N < 256 ^ Z.of_nat 16) as HN by (unfold N; lia).
    pose proof (strip_pad (to_le_bytes 16 N)) as Hpad. cbv zeta in Hpad.
    rewrite to_le_bytes_length in Hpad.
    set (n := leading_zeros _) in *.
    assert (n <= 16)%nat as Hn.
    { unfold n. etrans; [apply leading_zeros_le|]. by rewrite length_reverse, to_le_bytes_length. }
    assert (length (take (16 - n) (to_le_bytes 16 N)) = (16 - n)%nat) as Hlen
      by (rewrite length_take, to_le_bytes_length; lia).
    unfold decode, len. rewrite Hlen.
    rewrite (proj2 (Z.ltb_ge _ _)) by lia.
    replace (16 - (16 - n))%nat with n by lia. rewrite Hpad.
    rewrite from_to_le_bytes by done.
    destruct (decode_v4_value (from_le_bytes ip) tm port) as (_ & Eip & Eport); [lia..|].
    fold N in Eip, Eport. rewrite Eip, Eport.
    f_equal. rewrite <- Hl at 1. by apply to_from_le_bytes.
  - destruct Hwf' as (Hb & Hl & Hp & _). unfold in_u in Hp. unfold decode.
    rewrite len_app. unfold len. rewrite Hl, to_le_bytes_length.
    change (16 <? _) with true. change (negb _) with false. cbv iota.
    rewrite take_app_length' by done. rewrite drop_app_length' by done.
    rewrite from_to_le_bytes by (change (256 ^ Z.of_nat 2) with (2 ^ 16); lia). done.
Qed.

Lemma decode_encode_witness :
  decode (encode 1700000000123456 (V4 [192; 168; 16; 32] 21116)) = V4 [192; 168; 16; 32] 21116.
Proof.
  apply (decode_encode 1700000000123456 (V4 [192; 168; 16; 32] 21116)).
  split; [|split; [reflexivity|unfold in_u; lia]].
  repeat constructor; vm_compute; congruence.
Defined.

End AddrMangle.

Module Version.

(** ** [get_version_number] *)

(** One round of the loop over the dot-separated parts; the state is [n] and
    [last]. *)
Definition version_step (st : Z * Z) (x : string) : Z * Z :=
  let last := unwrap_or 0 (parse_i64 x) in
  (i64 (i64 (st.1 * 1000) + last), last).

Definition get_version_number (v : string) : Z :=
  let versions := split_char "-" v in
  let n := match versions with
           | v :: _ =>
             let '(n, last) := fold_left version_step (split_char "." v) (0, 0) in
             i64 (i64 (n - last) + i64 (last * 10))
           | [] => 0
           end in
  match versions with
  | _ :: v :: _ => i64 (n + unwrap_or 0 (parse_i64 v))
  | _ => n
  end.

(** ** [get_version_from_url]

    The delimiters are ASCII, so positions counted in characters and in bytes
    select the same substrings. *)

Fixpoint position (p : Ascii.ascii -> bool) (l : list Ascii.ascii) : option nat :=
  match l with
  | [] => None
  | x :: l => if p x then Some O else S <$> position p l
  end.

Definition get_version_from_url (url : list Ascii.ascii) : list Ascii.ascii :=
  let n := length url in
  match position (fun x => Ascii.eqb x "-") (reverse url) with
  | Some a =>
    match position (fun x => Ascii.eqb x ".") (reverse url) with
    | Some b =>
      if (b <? a)%nat then
        match parse_i32 (String.string_of_list_ascii (drop (n - b) url)) with
        | Some _ => drop (n - a) url
        | None => take (a - b - 1) (drop (n - a) url)
        end
      else drop (n - a) url
    | None => []
    end
  | None => []
  end.

(** ** Lemmas *)

Lemma show_nonneg_no_char fuel z c acc :
  digit_of c = None -> 0 <= z -> contains_char c acc = false ->
  contains_char c (show_nonneg fuel z acc) = false.
Proof.
  intros Hc. revert z acc. induction fuel as [|fuel IH]; intros z acc Hz Ha; [done|].
  cbn [show_nonneg]. pose proof (Z.mod_pos_bound z 10 ltac:(lia)).
  assert (contains_char c (String (digit_char (z mod 10)) acc) = false) as Hs.
  { cbn [contains_char]. rewrite Ha, orb_false_r.
    destruct (Ascii.eqb_spec (digit_char (z mod 10)) c) as [E|]; [|done].
    rewrite <- E, digit_of_digit_char in Hc by lia. done. }
  destruct (z <? 10); [done|]. apply IH; [apply Z.div_pos; lia|done].
Qed.

Lemma show_no_char z c :
  digit_of c = None -> 0 <= z -> contains_char c (show z) = false.
Proof.
  intros Hc Hz. unfold show. rewrite (proj2 (Z.ltb_ge _ _)) by lia.
  apply show_nonneg_no_char; [done|lia|done].
Qed.

(** The released form of a version: ["major.minor.build-patch"]. *)
Definition version_string (a b c p : Z) : string :=
  (show a +:+ String "." (show b +:+ String "." (show c))) +:+ String "-" (show p).

Definition version_ok (a b c p : Z) : Prop :=
  0 <= a < 10 ^ 9 /\ 0 <= b < 1000 /\ 0 <= c < 100 /\ 0 <= p < 10.

Lemma version_number_value a b c p :
  version_ok a b c p ->
  get_version_number (version_string a b c p) = a * 1000000 + b * 1000 + c * 10 + p.
Proof.
  intros (Ha & Hb & Hc & Hp). unfold get_version_number, version_string.
  rewrite split_char_app; cycle 1.
  { rewrite contains_char_app. cbn [contains_char]. rewrite contains_char_app.
    cbn [contains_char]. rewrite !show_no_char by (done || lia). done. }
  rewrite (split_char_none "-" (show p)) by (apply show_no_char; [done|lia]).
  rewrite split_char_app by (apply show_no_char; [done|lia]).
  rewrite split_char_app by (apply show_no_char; [done|lia]).
  rewrite (split_char_none "." (show c)) by (apply show_no_char; [done|lia]).
  unfold parse_i64. cbn [fold_left version_step fst snd].
  unfold version_step, parse_i64. rewrite !parse_show_nonneg by lia. cbn [unwrap_or fst snd].
  wrap_arith. lia.
Qed.

(** [get_version_number] orders released versions correctly: for
    [a.b.c-p] with [b < 1000], [c < 100] and [p < 10] the numeric comparison is
    the lexicographic comparison of the four components. *)
Theorem version_order a b c p a' b' c' p' :
  version_ok a b c p -> version_ok a' b' c' p' ->
  get_version_number (version_string a b c p) < get_version_number (version_string a' b' c' p')
  <-> a < a' \/ a = a' /\ (b < b' \/ b = b' /\ (c < c' \/ c = c' /\ p < p')).
Proof.
  intros H H'. rewrite !version_number_value by done.
  destruct H as (? & ? & ? & ?), H' as (? & ? & ? & ?). lia.
Qed.

Lemma version_order_witness :
  get_version_number (version_string 1 1 10 0) < get_version_number (version_string 1 2 3 0).
Proof. apply (version_order 1 1 10 0 1 2 3 0); unfold version_ok; lia. Defined.

Lemma position_app_found p l1 x l2 :
  Forall (fun y => p y = false) l1 -> p x = true -> position p (l1 ++ x :: l2) = Some (length l1).
Proof.
  intros H Hx. induction H as [|y l1 Hy Hl IH]; cbn; [by rewrite Hx|]. by rewrite Hy, IH.
Qed.

(** [get_version_from_url] on a download link: for
    [prefix-version.ext] where neither the version nor the extension contains
    a dash, the extension has no dot and is not a number, the version is
    returned without the extension. *)
Theorem version_from_url pre ver ext :
  Forall (fun x => Ascii.eqb x "-" = false) (ver ++ ext) ->
  Forall (fun x => Ascii.eqb x "." = false) ext ->
  parse_i32 (String.string_of_list_ascii ext) = None ->
  get_version_from_url (pre ++ "-"%char :: ver ++ "."%char :: ext) = ver.
Proof.
  intros Hd Hdot Hn. apply Forall_app in Hd as [Hdv Hde]. unfold get_version_from_url.
  set (url := pre ++ _).
  assert (reverse url = (reverse (ver ++ "."%char :: ext)) ++ "-"%char :: reverse pre) as Hr.
  { unfold url. rewrite reverse_app, reverse_cons, <- app_assoc. done. }
  assert (reverse (ver ++ "."%char :: ext) = reverse ext ++ "."%char :: reverse ver) as Hr2.
  { rewrite reverse_app, reverse_cons, <- app_assoc. done. }
  rewrite Hr, position_app_found; [|apply Forall_reverse; apply Forall_app; split; [done|by constructor]|done].
  rewrite Hr2, <- app_assoc, <- app_comm_cons.
  rewrite position_app_found; [|by apply Forall_reverse|done].
  rewrite length_app, !length_reverse. cbn [length]. rewrite length_reverse.
  rewrite (proj2 (Nat.ltb_lt _ _)) by lia.
  replace (length url - length ext)%nat with (length (pre ++ "-"%char :: ver ++ ["."%char])) by
    (unfold url; rewrite !length_app; cbn [length]; rewrite !length_app; cbn [length]; lia).
  assert (url = (pre ++ "-"%char :: ver ++ ["."%char]) ++ ext) as E1.
  { unfold url. rewrite <- app_assoc, <- app_comm_cons, <- app_assoc. done. }
  rewrite E1 at 1. rewrite drop_app_length, Hn.
  replace (length url - (length ext + S (length ver)))%nat with (length (pre ++ ["-"%char])) by
    (unfold url; rewrite !length_app; cbn [length]; rewrite !length_app; cbn [length]; lia).
  assert (url = (pre ++ ["-"%char]) ++ ver ++ "."%char :: ext) as E2.
  { unfold url. by rewrite <- app_assoc. }
  rewrite E2, drop_app_length. apply take_app_length'. lia.
Qed.

Lemma version_from_url_witness :
  get_version_from_url (String.list_ascii_of_string "https://x.org/rustdesk-1.2.3.exe")
  = String.list_ascii_of_string "1.2.3".
Proof.
  apply (version_from_url (String.list_ascii_of_string "https://x.org/rustdesk")
           (String.list_ascii_of_string "1.2.3") (String.list_ascii_of_string "exe"));
    [repeat constructor | repeat constructor | reflexivity].
Defined.

End Version.

Module HostPort.

Section HostPort.

(** The two classifiers of [lib.rs] that run a regular expression. *)
Context (is_ipv6_str is_ipv4_str : string -> bool).

Definition check_port (host : string) (port : Z) : string :=
  if is_ipv6_str host then
    if starts_with "[" host then host
    else "[" +:+ host +:+ "]:" +:+ show port
  else if negb (contains_char ":" host) then host +:+ ":" +:+ show port
  else host.

Definition increase_port (host : string) (offset : Z) : string :=
  if is_ipv6_str host then
    if starts_with "[" host then
      match split_str "]:" host with
      | [h; p] =>
        let port := unwrap_or 0 (parse_i32 p) in
        if 0 <? port then h +:+ "]:" +:+ show (i32 (port + offset)) else host
      | _ => host
      end
    else host
  else if contains_char ":" host then
    match split_char ":" host with
    | [h; p] =>
      let port := unwrap_or 0 (parse_i32 p) in
      if 0 <? port then h +:+ ":" +:+ show (i32 (port + offset)) else host
    | _ => host
    end
  else host.

Definition split_host_port (host : string) : option (string * Z) :=
  if is_ipv6_str host then
    if starts_with "[" host then
      match split_str "]:" host with
      | [h; p] =>
        let port := unwrap_or 0 (parse_i32 p) in
        if 0 <? port then Some (h +:+ "]", port) else None
      | _ => None
      end
    else None
  else if contains_char ":" host then
    match split_char ":" host with
    | [h; p] =>
      let port := unwrap_or 0 (parse_i32 p) in
      if 0 <? port then Some (h, port) else None
    | _ => None
    end
  else None.

Definition ipv4_to_ipv6 (addr : string) (ipv4 : bool) : string :=
  if negb ipv4 && is_ipv4_str addr then
    match split_char ":" addr with
    | ip :: _ => replace_str ip (ip +:+ ".nip.io") addr
    | [] => addr
    end
  else addr.

(** For a host name without a colon, [check_port] appends the port,
    [split_host_port] recovers both parts, and [increase_port] shifts the port
    and keeps the host, as long as the shifted port fits an [i32].  The
    classifier must not take the two [host:port] strings for IPv6. *)
Theorem host_port_roundtrip host port offset :
  contains_char ":" host = false -> is_ipv6_str host = false ->
  is_ipv6_str (host +:+ ":" +:+ show port) = false ->
  0 < port < 2 ^ 31 -> 0 <= port + offset < 2 ^ 31 ->
  check_port host port = host +:+ ":" +:+ show port /\
  check_port (check_port host port) 0 = check_port host port /\
  split_host_port (check_port host port) = Some (host, port) /\
  increase_port (check_port host port) offset = host +:+ ":" +:+ show (port + offset).
Proof.
  intros Hc H6 H6' Hp Ho.
  assert (check_port host port = host +:+ ":" +:+ show port) as E.
  { unfold check_port. by rewrite H6, Hc. }
  rewrite E. split; [done|].
  assert (contains_char ":" (host +:+ ":" +:+ show port) = true) as Hcc.
  { rewrite !contains_char_app. by rewrite orb_true_r. }
  assert (split_char ":" (host +:+ ":" +:+ show port) = [host; show port]) as Hs.
  { change (":" +:+ show port) with (String ":" (show port)). rewrite split_char_app by done.
    by rewrite split_char_none by (apply Version.show_no_char; [done|lia]). }
  assert (parse_i32 (show port) = Some port) as Hparse
    by (unfold parse_i32; apply parse_show_nonneg; lia).
  assert ((0 <? port) = true) as Hpos by (apply Z.ltb_lt; lia).
  unfold check_port, split_host_port, increase_port. rewrite H6', Hcc, Hs, Hparse. cbn [unwrap_or].
  rewrite Hpos. rewrite swrap_small by lia. done.
Qed.

End HostPort.

Lemma host_port_roundtrip_witness :
  let v6 s := starts_with "[" s in
  check_port v6 "test.com" 13 = "test.com:13" /\
  check_port v6 (check_port v6 "test.com" 13) 0 = check_port v6 "test.com" 13 /\
  split_host_port v6 (check_port v6 "test.com" 13) = Some ("test.com", 13) /\
  increase_port v6 (check_port v6 "test.com" 13) 4 = "test.com:17".
Proof.
  intros v6. apply (host_port_roundtrip v6 "test.com" 13 4); first [reflexivity | lia].
Defined.

End HostPort.
