(* ===== verification/SecureStream.v ===== *)
(** * The encrypted framed stream ([libs/hbb_common/src/tcp.rs])

    [FramedStream] puts [Encrypt] on top of [BytesCodec]: every message is
    sealed with a per-direction sequence number as nonce and then framed.
    NaCl's [secretbox] and [box] belong to the [sodiumoxide] crate; they are
    the operations of the class [SecretBox], with the two documented facts the
    stream relies on as its laws. *)

From S2P Require Import Prelude BytesCodec.

Import Codec.

(** ** What the stream needs from [sodiumoxide] *)

Definition NONCEBYTES : nat := 24.
Definition MACBYTES : nat := 16.
Definition KEYBYTES : nat := 32.
Definition PUBLICKEYBYTES : nat := 32.

Class SecretBox := {
  seal : list Z -> list Z -> list Z -> list Z;         (* data, nonce, key *)
  open_box : list Z -> list Z -> list Z -> option (list Z)
}.

(** [open] inverts [seal] under the same nonce and key, and the ciphertext is
    the plaintext plus a 16-byte authenticator, all of them bytes. *)
Class SecretBoxLaws `(SB : SecretBox) : Prop := {
  open_seal : forall m n k, open_box (seal m n k) n k = Some m;
  seal_length : forall m n k, length (seal m n k) = (MACBYTES + length m)%nat;
  seal_bytes : forall m n k, bytes m -> bytes n -> bytes k -> bytes (seal m n k)
}.

Module Secure.

Section Stream.
Context `{SB : SecretBox}.

(** ** [Encrypt]: key, number of messages sealed, number of messages opened *)

Record Encrypt : Type := mkEncrypt { key : list Z; seq_enc : Z; seq_dec : Z }.

Definition Encrypt_new (k : list Z) : Encrypt := mkEncrypt k 0 0.

Definition get_nonce (seqnum : Z) : list Z :=
  to_le_bytes 8 seqnum ++ replicate (NONCEBYTES - 8) 0.

Inductive error : Type :=
| Io (e : io_error)
| DecryptionError
| Handshake (msg : string).

Definition dec (e : Encrypt) (bs : list Z) : result (list Z) error * Encrypt :=
  if len bs <=? 1 then (Ok bs, e)
  else
    let e := mkEncrypt (key e) (seq_enc e) (u64 (seq_dec e + 1)) in
    let nonce := get_nonce (seq_dec e) in
    match open_box bs nonce (key e) with
    | Some res => (Ok res, e)
    | None => (Err DecryptionError, e)
    end.

Definition enc (e : Encrypt) (data : list Z) : list Z * Encrypt :=
  let e := mkEncrypt (key e) (u64 (seq_enc e + 1)) (seq_dec e) in
  let nonce := get_nonce (seq_enc e) in
  (seal data nonce (key e), e).

(** [Encrypt::decode]: the handshake's symmetric key, opened with [box_]
    ([box_open data nonce their_pk our_sk], an operation of the crate). *)
Definition decode_key (box_open : list Z -> list Z -> list Z -> list Z -> option (list Z))
  (symmetric_data their_pk_b our_sk_b : list Z) : result (list Z) error :=
  if negb (Nat.eqb (length their_pk_b) PUBLICKEYBYTES)
  then Err (Handshake "Handshake failed: pk length")
  else
    let nonce := replicate 24 0 in
    match box_open symmetric_data nonce their_pk_b our_sk_b with
    | None => Err (Handshake "Handshake failed: box decryption failure")
    | Some symmetric_key =>
      if negb (Nat.eqb (length symmetric_key) KEYBYTES)
      then Err (Handshake "Handshake failed: invalid secret key length from peer")
      else Ok symmetric_key
    end.

(** ** [FramedStream]: codec, encryption state, send timeout, and the two
    buffers of tokio's [Framed] *)

Record FramedStream : Type := mkFramedStream {
  codec : BytesCodec;
  encrypt : option Encrypt;
  send_timeout : Z;
  rbuf : list Z;
  wbuf : list Z
}.

Definition from_stream : FramedStream := mkFramedStream Codec.new None 0 [] [].

Definition set_send_timeout (fs : FramedStream) (ms : Z) : FramedStream :=
  mkFramedStream (codec fs) (encrypt fs) ms (rbuf fs) (wbuf fs).

Definition set_raw (fs : FramedStream) : FramedStream :=
  mkFramedStream (Codec.set_raw (codec fs)) None (send_timeout fs) (rbuf fs) (wbuf fs).

Definition is_secured (fs : FramedStream) : bool :=
  match encrypt fs with Some _ => true | None => false end.

Definition set_key (fs : FramedStream) (k : list Z) : FramedStream :=
  mkFramedStream (codec fs) (Some (Encrypt_new k)) (send_timeout fs) (rbuf fs) (wbuf fs).

(** [send_bytes] when the transport accepts the bytes in time. *)
Definition send_bytes (fs : FramedStream) (bs : list Z) : result FramedStream error :=
  match encode (codec fs) bs (wbuf fs) with
  | Ok w => Ok (mkFramedStream (codec fs) (encrypt fs) (send_timeout fs) (rbuf fs) w)
  | Err e => Err (Io e)
  end.

Definition send_raw (fs : FramedStream) (msg : list Z) : result FramedStream error :=
  match encrypt fs with
  | Some k =>
    let '(msg, k) := enc k msg in
    send_bytes (mkFramedStream (codec fs) (Some k) (send_timeout fs) (rbuf fs) (wbuf fs)) msg
  | None => send_bytes fs msg
  end.

(** [next] on what has arrived so far; [None] when no frame is complete. *)
Definition next (fs : FramedStream) : option (result (list Z) error) * FramedStream :=
  let '(r, c, buf) := decode (codec fs) (rbuf fs) in
  let fs := mkFramedStream c (encrypt fs) (send_timeout fs) buf (wbuf fs) in
  match r with
  | Err e => (Some (Err (Io e)), fs)
  | Ok None => (None, fs)
  | Ok (Some bs) =>
    match encrypt fs with
    | Some k =>
      let '(r, k) := dec k bs in
      (Some r, mkFramedStream c (Some k) (send_timeout fs) buf (wbuf fs))
    | None => (Some (Ok bs), fs)
    end
  end.

(** ** The two ends of a connection *)

Fixpoint send_all (fs : FramedStream) (ms : list (list Z)) : result FramedStream error :=
  match ms with
  | [] => Ok fs
  | m :: ms => match send_raw fs m with Ok fs => send_all fs ms | Err e => Err e end
  end.

Fixpoint next_n (fuel : nat) (fs : FramedStream) : list (list Z) * option error * FramedStream :=
  match fuel with
  | O => ([], None, fs)
  | S fuel =>
    match next fs with
    | (None, fs) => ([], None, fs)
    | (Some (Err e), fs) => ([], Some e, fs)
    | (Some (Ok m), fs) => let '(ms, e, fs) := next_n fuel fs in (m :: ms, e, fs)
    end
  end.

Definition receive (fs : FramedStream) (chunk : list Z) : FramedStream :=
  mkFramedStream (codec fs) (encrypt fs) (send_timeout fs) (rbuf fs ++ chunk) (wbuf fs).

Fixpoint receive_all (fs : FramedStream) (chunks : list (list Z))
  : list (list Z) * option error * FramedStream :=
  match chunks with
  | [] => ([], None, fs)
  | ch :: chunks =>
    let fs := receive fs ch in
    match next_n (S (S (length (rbuf fs)))) fs with
    | (ms, Some e, fs) => (ms, Some e, fs)
    | (ms, None, fs) => let '(ms', e, fs) := receive_all fs chunks in (ms ++ ms', e, fs)
    end
  end.

(** ** Lemmas *)

Lemma get_nonce_length s : length (get_nonce s) = NONCEBYTES.
Proof. unfold get_nonce. rewrite length_app, to_le_bytes_length. done. Qed.

Lemma get_nonce_inj s s' : in_u 64 s -> in_u 64 s' -> get_nonce s = get_nonce s' -> s = s'.
Proof.
  unfold in_u. intros Hs Hs' H. unfold get_nonce in H. apply app_inv_tail in H.
  apply (f_equal from_le_bytes) in H.
  rewrite !from_to_le_bytes in H by (change (256 ^ Z.of_nat 8) with (2 ^ 64); lia). done.
Qed.

(** Ciphertexts of [ms] sealed with the sequence numbers from [n + 1] on. *)
Fixpoint sealed (k : list Z) (n : Z) (ms : list (list Z)) : list (list Z) :=
  match ms with
  | [] => []
  | m :: ms => seal m (get_nonce (n + 1)) k :: sealed k (n + 1) ms
  end.

Lemma send_all_secured fs k n d ms :
  encrypt fs = Some (mkEncrypt k n d) -> 0 <= n -> n + len ms < 2 ^ 64 ->
  raw (codec fs) = false ->
  send_all fs ms =
  match encode_all (codec fs) (sealed k n ms) (wbuf fs) with
  | Ok w => Ok (mkFramedStream (codec fs) (Some (mkEncrypt k (n + len ms) d)) (send_timeout fs) (rbuf fs) w)
  | Err e => Err (Io e)
  end.
Proof.
  revert fs n. induction ms as [|m ms IH]; intros fs n He Hn Hl Hr.
  - cbn. unfold len. cbn. rewrite Z.add_0_r, <- He. by destruct fs.
  - cbn [send_all sealed encode_all]. unfold send_raw, enc, send_bytes. rewrite He.
    cbn [seq_enc seq_dec key]. unfold len in *. cbn [length] in *.
    rewrite wrap_small by lia. cbn [codec wbuf encrypt send_timeout rbuf].
    destruct (encode _ _ _) as [w|e]; [|done].
    rewrite (IH _ (n + 1)) by (done || lia). cbn [codec wbuf send_timeout rbuf].
    replace (n + 1 + Z.of_nat (length ms)) with (n + Z.of_nat (S (length ms))) by lia. done.
Qed.

Context {SBL : SecretBoxLaws SB}.

Lemma dec_sealed k n d m :
  0 <= d < 2 ^ 64 - 1 ->
  dec (mkEncrypt k n d) (seal m (get_nonce (d + 1)) k) = (Ok m, mkEncrypt k n (d + 1)).
Proof.
  intros Hd. unfold dec, len. rewrite seal_length.
  rewrite (proj2 (Z.leb_gt _ _)) by (unfold MACBYTES; lia). cbn [seq_dec key seq_enc].
  rewrite wrap_small by lia. by rewrite open_seal.
Qed.

(** The receiver's loop over the codec's output, as [drain] of the codec
    followed by decryption of the frames. *)
Lemma next_n_sealed fuel fs k n d ms c' buf' :
  encrypt fs = Some (mkEncrypt k n d) -> 0 <= d -> d + len ms < 2 ^ 64 ->
  drain_n fuel (codec fs) (rbuf fs) = (sealed k d ms, Ok c', buf') ->
  next_n fuel fs =
  (ms, None, mkFramedStream c' (Some (mkEncrypt k n (d + len ms))) (send_timeout fs) buf' (wbuf fs)).
Proof.
  revert fs d ms. induction fuel as [|fuel IH]; intros fs d ms He Hd Hl Hdr.
  - destruct ms; cbn [sealed drain_n] in Hdr; [|done]. injection Hdr as <- <-. unfold len. cbn.
    rewrite Z.add_0_r, <- He. by destruct fs.
  - cbn [drain_n next_n] in *. unfold next.
    destruct (decode (codec fs) (rbuf fs)) as [[[[f|]|e] c] buf]; [| |destruct ms; done].
    + destruct (drain_n fuel c buf) as [[fsn r] src] eqn:Hdn.
      destruct ms as [|m ms]; [done|]. cbn [sealed] in Hdr. injection Hdr as -> -> -> ->.
      cbn [encrypt]. unfold len in *. cbn [length] in *.
      rewrite He, dec_sealed by lia.
      rewrite (IH _ (d + 1) ms) by (cbn; (done || lia)). cbn [send_timeout wbuf].
      replace (d + 1 + Z.of_nat (length ms)) with (d + Z.of_nat (S (length ms))) by lia. done.
    + destruct ms; [|done]. injection Hdr as -> ->. unfold len. cbn.
      by rewrite Z.add_0_r, <- He.
Qed.

Lemma sealed_app k n ms1 ms2 : sealed k n (ms1 ++ ms2) = sealed k n ms1 ++ sealed k (n + len ms1) ms2.
Proof.
  revert n. induction ms1 as [|m ms1 IH]; intros n; cbn [sealed app].
  - unfold len. cbn. by rewrite Z.add_0_r.
  - rewrite IH. unfold len. cbn [length]. do 3 f_equal. lia.
Qed.

Lemma sealed_split k n ms fs1 fs2 :
  sealed k n ms = fs1 ++ fs2 ->
  exists ms1 ms2, ms = ms1 ++ ms2 /\ fs1 = sealed k n ms1 /\ fs2 = sealed k (n + len ms1) ms2.
Proof.
  revert n ms. induction fs1 as [|f fs1 IH]; intros n ms H.
  - exists [], ms. unfold len. cbn. rewrite Z.add_0_r. done.
  - destruct ms as [|m ms]; [done|]. cbn [sealed app] in H. injection H as Hf H.
    destruct (IH _ _ H) as (ms1 & ms2 & -> & -> & ->).
    exists (m :: ms1), ms2. cbn [sealed]. rewrite Hf. split; [done|]. split; [done|].
    unfold len. cbn [length]. f_equal. lia.
Qed.

Lemma receive_all_sealed chunks fs k n d ms c' buf' :
  encrypt fs = Some (mkEncrypt k n d) -> 0 <= d -> d + len ms < 2 ^ 64 ->
  feed (codec fs) (rbuf fs) chunks = (sealed k d ms, Ok c', buf') ->
  receive_all fs chunks =
  (ms, None, mkFramedStream c' (Some (mkEncrypt k n (d + len ms))) (send_timeout fs) buf' (wbuf fs)).
Proof.
  revert fs d ms. induction chunks as [|ch chunks IH]; intros fs d ms He Hd Hl Hf.
  - cbn [feed] in Hf. destruct ms; [|done]. injection Hf as <- <-. unfold len. cbn.
    rewrite Z.add_0_r, <- He. by destruct fs.
  - cbn [feed receive_all] in *.
    destruct (drain (codec fs) (rbuf fs ++ ch)) as [[fr [c|e]] buf] eqn:Hdr; [|done].
    destruct (feed c buf chunks) as [[fr' r] src] eqn:Hfd. injection Hf as Hms -> ->.
    symmetry in Hms. apply sealed_split in Hms as (ms1 & ms2 & -> & -> & ->).
    rewrite len_app in *. pose proof (len_nonneg ms1). pose proof (len_nonneg ms2).
    unfold receive. cbn [rbuf].
    rewrite (next_n_sealed _ _ k n d ms1 c buf) by (cbn; (done || lia)).
    rewrite (IH _ (d + len ms1) ms2) by (cbn; (done || lia)). cbn [send_timeout wbuf].
    by rewrite Z.add_assoc.
Qed.

Lemma sealed_fits c k n ms :
  Forall (fun m => len m + Z.of_nat MACBYTES <= Z.min 0x3FFFFFFF (max_packet_length c)) ms ->
  Forall (fits c) (sealed k n ms).
Proof.
  intros H. revert n. induction H as [|m ms Hm Hms IH]; intros n; cbn [sealed]; constructor; auto.
  unfold fits, len in *. rewrite seal_length. lia.
Qed.

(** ** Properties *)

(** A keyed stream delivers what is sent. *)
Lemma secured_delivery tx rx k n d n' ms tx' chunks :
  encrypt tx = Some (mkEncrypt k n d) -> encrypt rx = Some (mkEncrypt k n' n) ->
  codec tx = Codec.new -> codec rx = Codec.new -> wbuf tx = [] -> rbuf rx = [] ->
  0 <= n -> n + len ms < 2 ^ 64 ->
  Forall (fun m => len m + Z.of_nat MACBYTES <= 0x3FFFFFFF) ms ->
  send_all tx ms = Ok tx' -> concat chunks = wbuf tx' -> chunks <> [] ->
  encrypt tx' = Some (mkEncrypt k (n + len ms) d) /\
  receive_all rx chunks =
  (ms, None, mkFramedStream Codec.new (Some (mkEncrypt k n' (n + len ms))) (send_timeout rx) [] (wbuf rx)).
Proof.
  intros Het Her Hct Hcr Hw Hr Hn Hl Hms Hsend Hch Hne.
  rewrite (send_all_secured _ k n d) in Hsend by (done || by rewrite Hct).
  rewrite Hct, Hw in Hsend.
  destruct (encode_all Codec.new (sealed k n ms) []) as [w|] eqn:Hw'; [|done].
  injection Hsend as <-. cbn [wbuf encrypt] in *. split; [done|].
  apply receive_all_sealed; try done. rewrite Hcr, Hr.
  pose proof (feed_roundtrip Codec.new (sealed k n ms) w chunks) as Hrt.
  apply Hrt; try done. apply sealed_fits.
  eapply Forall_impl; [done|]. intros m Hm. cbv beta in *. cbn [max_packet_length Codec.new].
  unfold usize_MAX. unfold MACBYTES in *. lia.
Qed.

(** C2. The secured channel delivers: when both ends installed the same key
    and the receiver has opened as many messages as the sender has sealed,
    everything sent arrives, decrypted, in order and exactly once, however the
    network cuts the bytes; the counters stay in step. *)
Theorem secure_channel_delivers tx rx k n d n' ms tx' chunks :
  encrypt tx = Some (mkEncrypt k n d) -> encrypt rx = Some (mkEncrypt k n' n) ->
  codec tx = Codec.new -> codec rx = Codec.new -> wbuf tx = [] -> rbuf rx = [] ->
  0 <= n -> n + len ms < 2 ^ 64 ->
  Forall (fun m => len m + Z.of_nat MACBYTES <= 0x3FFFFFFF) ms ->
  send_all tx ms = Ok tx' -> concat chunks = wbuf tx' -> chunks <> [] ->
  encrypt tx' = Some (mkEncrypt k (n + len ms) d) /\
  receive_all rx chunks =
  (ms, None, mkFramedStream Codec.new (Some (mkEncrypt k n' (n + len ms))) (send_timeout rx) [] (wbuf rx)).
Proof. apply secured_delivery. Qed.

(** The nonces a run of [enc] calls uses. *)
Fixpoint used_nonces (e : Encrypt) (ms : list (list Z)) : list (list Z) :=
  match ms with
  | [] => []
  | m :: ms => let e := (enc e m).2 in get_nonce (seq_enc e) :: used_nonces e ms
  end.

Lemma used_nonces_seq e ms :
  0 <= seq_enc e -> seq_enc e + len ms < 2 ^ 64 ->
  used_nonces e ms = map (fun i => get_nonce (seq_enc e + 1 + Z.of_nat i)) (seq 0 (length ms)).
Proof.
  revert e. induction ms as [|m ms IH]; intros e H0 Hl; [done|].
  unfold len in *. cbn [length used_nonces seq map enc seq_enc snd] in *.
  rewrite wrap_small by lia. rewrite IH by (cbn; lia). cbn [seq_enc]. rewrite Z.add_0_r. f_equal.
  rewrite <- seq_shift, map_map. apply map_ext. intros i. f_equal. lia.
Qed.

(** Nonces are never reused within a direction: over fewer than [2^64]
    messages every [enc] call uses a fresh nonce. *)
Theorem nonces_fresh e ms :
  0 <= seq_enc e -> seq_enc e + len ms < 2 ^ 64 -> NoDup (used_nonces e ms).
Proof.
  intros H0 Hl. rewrite used_nonces_seq by done.
  apply NoDup_fmap_2_strong; [|apply NoDup_seq].
  intros i j Hi%elem_of_seq Hj%elem_of_seq E. unfold len in *.
  apply get_nonce_inj in E; unfold in_u; lia.
Qed.

(** The two directions of one connection start from the same key and the same
    counter: the i-th message of each side is sealed under the same key and
    nonce.  [secretbox] asks for a nonce that is unique per key. *)
Lemma directions_share_nonces k ms ms' :
  length ms = length ms' -> len ms < 2 ^ 64 ->
  used_nonces (Encrypt_new k) ms = used_nonces (Encrypt_new k) ms'.
Proof.
  intros Hl H. rewrite !used_nonces_seq; unfold len in *; cbn [seq_enc Encrypt_new]; try lia.
  by rewrite Hl.
Qed.

(** What [dec] accepts: a frame of at most one byte passes unchecked and
    leaves the counter alone; anything longer is accepted only if it opens
    under the key and the next sequence number, and an accepted or refused
    frame consumes that number. *)
Theorem dec_accepts e bs :
  (len bs <= 1 -> dec e bs = (Ok bs, e)) /\
  (1 < len bs ->
   seq_dec (dec e bs).2 = u64 (seq_dec e + 1) /\
   (forall m, (dec e bs).1 = Ok m <->
      open_box bs (get_nonce (u64 (seq_dec e + 1))) (key e) = Some m)).
Proof.
  unfold dec. split; intros H.
  - by rewrite (proj2 (Z.leb_le _ _)).
  - rewrite (proj2 (Z.leb_gt _ _)) by done. cbn [seq_dec key seq_enc].
    destruct (open_box bs _ _) as [r|]; cbn; split; try done; intros m; split; congruence.
Qed.

(** The handshake never yields a malformed key: [Encrypt::decode] returns
    a 32-byte key or an error, whatever the peer sent. *)
Theorem handshake_key_length box_open data pk sk k :
  decode_key box_open data pk sk = Ok k ->
  length k = KEYBYTES /\ length pk = PUBLICKEYBYTES /\
  box_open data (replicate 24 0) pk sk = Some k.
Proof.
  unfold decode_key. destruct (Nat.eqb_spec (length pk) PUBLICKEYBYTES); [|done]. cbn [negb].
  destruct (box_open data (replicate 24 0) pk sk) as [sk'|]; [|done].
  destruct (Nat.eqb_spec (length sk') KEYBYTES); [|done]. cbn [negb]. by intros [= <-].
Qed.

End Stream.

(** ** A concrete box, to evaluate the stream: the tag is the nonce and key *)

Definition toy_tag (n k : list Z) : list Z := take 16 (k ++ n ++ replicate 16 0).

#[local] Instance toy_box : SecretBox := {
  seal m n k := toy_tag n k ++ m;
  open_box c n k := if decide (take 16 c = toy_tag n k) then Some (drop 16 c) else None
}.

#[local] Instance toy_box_laws : SecretBoxLaws toy_box.
Proof.
  assert (forall n k, length (toy_tag n k) = 16%nat) as Hl.
  { intros n k. unfold toy_tag. rewrite length_take, !length_app, length_replicate. lia. }
  split; intros m n k; cbn.
  - rewrite take_app_length', drop_app_length' by (by rewrite Hl). by rewrite decide_True by done.
  - rewrite length_app, Hl. done.
  - intros Hm Hn Hk. apply Forall_app_2; [|done]. apply Forall_take, Forall_app_2; [done|].
    apply Forall_app_2; [done|]. by apply Forall_replicate.
Qed.

Lemma secure_channel_delivers_witness :
  let a := set_key from_stream [7] in
  let b := set_key from_stream [7] in
  exists a', send_all a [[1; 2; 3]; []; [9]] = Ok a' /\
    encrypt a' = Some (mkEncrypt [7] 3 0) /\
    receive_all b [take 5 (wbuf a'); drop 5 (wbuf a')] =
    ([[1; 2; 3]; []; [9]], None, mkFramedStream Codec.new (Some (mkEncrypt [7] 0 3)) 0 [] []).
Proof.
  intros a b. eexists. split; [reflexivity|].
  eapply (secure_channel_delivers a b [7] 0 0 0 [[1; 2; 3]; []; [9]]);
    first [reflexivity | lia | discriminate | idtac].
  repeat constructor; vm_compute; discriminate.
Defined.

Lemma nonces_fresh_witness : NoDup (used_nonces (Encrypt_new [7]) [[1]; [2]; [1]]).
Proof. apply (nonces_fresh (Encrypt_new [7]) [[1]; [2]; [1]]); vm_compute; congruence. Defined.

Lemma dec_accepts_witness : dec (Encrypt_new [7]) [5] = (Ok [5], Encrypt_new [7]).
Proof. apply (dec_accepts (Encrypt_new [7]) [5]). vm_compute. congruence. Defined.

Lemma handshake_key_length_witness :
  let bo d (_ _ _ : list Z) := Some d in
  length (replicate 32 5) = KEYBYTES /\ length (replicate 32 1) = PUBLICKEYBYTES /\
  bo (replicate 32 5) (replicate 24 0) (replicate 32 1) [] = Some (replicate 32 5).
Proof.
  intros bo. apply (handshake_key_length bo (replicate 32 5) (replicate 32 1) [] (replicate 32 5)).
  reflexivity.
Defined.

End Secure.
