(* ===== verification/Handshake.v ===== *)
(** * Key exchange

    How the two ends of a connection get their common key:
    [create_tcp_connection] ([src/server.rs]) on the controlled side,
    [Client::secure_connection] ([src/client.rs]) on the controlling side, and
    [secure_tcp] ([src/common.rs]) towards the rendezvous server.  Each function
    sends and receives on a [FramedStream]; it is cut where it waits for the
    other side.

    Signatures and boxes belong to [sodiumoxide] (class [Sodium]), the encoding
    of the messages to the code generated from the proto files (class [Proto]),
    base64 to its crate. *)

From S2P Require Import Prelude RustStr BytesCodec SecureStream.

#[local] Open Scope rust_scope.

Definition SIGN_PUBLICKEYBYTES : Z := 32.
Definition SIGN_SECRETKEYBYTES : Z := 64.
Definition BOX_PUBLICKEYBYTES : Z := 32.
Definition BOX_NONCEBYTES : nat := 24.

Class Sodium := {
  sign : list Z -> list Z -> list Z;                              (* message, secret key *)
  verify : list Z -> list Z -> option (list Z);                   (* signed message, public key *)
  sign_pk : list Z -> list Z;                                     (* public half of a secret key *)
  box_seal : list Z -> list Z -> list Z -> list Z -> list Z;      (* data, nonce, their pk, our sk *)
  box_open : list Z -> list Z -> list Z -> list Z -> option (list Z);
  box_pk : list Z -> list Z }.

Class SodiumLaws `(SO : Sodium) : Prop := {
  verify_sign : forall m sk, verify (sign m sk) (sign_pk sk) = Some m;
  open_sealed : forall m n a b, box_open (box_seal m n (box_pk b) a) n (box_pk a) b = Some m;
  box_pk_length : forall sk, len (box_pk sk) = BOX_PUBLICKEYBYTES;
  sign_pk_length : forall sk, len (sign_pk sk) = SIGN_PUBLICKEYBYTES }.

(** The unions of [Message] and [RendezvousMessage] the handshakes look at; any
    other union, or none, is [Other]. *)
Inductive HsMessage : Type :=
| SignedId (signed : list Z)
| PublicKey (asymmetric_value symmetric_value : list Z)
| KeyExchange (keys : list (list Z))
| Empty
| Other (tag : Z).

Class Proto := {
  write_to_bytes : HsMessage -> list Z;
  parse_from_bytes : list Z -> option HsMessage;
  write_id_pk : string -> list Z -> list Z;
  parse_id_pk : list Z -> option (string * list Z) }.

Class ProtoLaws `(PR : Proto) : Prop := {
  parse_write : forall m, parse_from_bytes (write_to_bytes m) = Some m;
  parse_write_id_pk : forall i pk, parse_id_pk (write_id_pk i pk) = Some (i, pk) }.

Module Handshake.

Import Codec Secure.

Section Functions.
Context `{SB : SecretBox} `{SO : Sodium} `{PR : Proto} (decode64 : string -> option (list Z)).

(** ** Helpers ([src/common.rs]) *)

Definition get_pk (pk : list Z) : option (list Z) := if len pk =? 32 then Some pk else None.

Definition get_rs_pk (str_base64 : string) : option (list Z) :=
  match decode64 str_base64 with
  | Some pk => get_pk pk
  | None => None
  end.

Definition decode_id_pk (signed key : list Z) : result (string * list Z) string :=
  match verify signed key with
  | None => Err "Signature mismatch"
  | Some bs =>
    match parse_id_pk bs with
    | None => Err "protobuf"
    | Some (id, pk) =>
      match get_pk pk with
      | Some pk => Ok (id, pk)
      | None => Err "Wrong their public length"
      end
    end
  end.

(** The random box key pair and symmetric key are arguments. *)
Definition create_symmetric_key_msg (our_sk_b key their_pk_b : list Z) : list Z * list Z * list Z :=
  (box_pk our_sk_b, box_seal key (replicate BOX_NONCEBYTES 0) their_pk_b our_sk_b, key).

Definition send (m : HsMessage) (fs : FramedStream) : result FramedStream error :=
  send_raw fs (write_to_bytes m).

(** ** The controlled side *)

Record KeyPair : Type := mkKeyPair { kp_sk : list Z; kp_pk : list Z }.

(** Up to the wait for the peer's public key.  [inl]: the connection starts at
    once. *)
Definition server_hello (secure : bool) (kp : KeyPair) (id : string) (our_sk_b : list Z) (stream : FramedStream)
  : result (FramedStream + FramedStream) error :=
  if secure && (len (kp_pk kp) =? SIGN_PUBLICKEYBYTES) && (len (kp_sk kp) =? SIGN_SECRETKEYBYTES)
  then
    let? stream := send (SignedId (sign (write_id_pk id (box_pk our_sk_b)) (kp_sk kp))) stream in
    Ok (inr stream)
  else Ok (inl stream).

(** What [stream.next()] gave: [None] when the peer closed.  The boolean is
    [Config::set_key_confirmed(false)]. *)
Definition server_key (our_sk_b : list Z) (got : option (result (list Z) error)) (stream : FramedStream)
  : result (FramedStream * bool) error :=
  match got with
  | None => Err (Handshake "Failed to receive public key")
  | Some res =>
    let? bytes := res in
    match parse_from_bytes bytes with
    | None => Err (Handshake "Handshake failed: invalid message format")
    | Some (PublicKey asymmetric_value symmetric_value) =>
      if len asymmetric_value =? BOX_PUBLICKEYBYTES then
        let? k := decode_key box_open symmetric_value asymmetric_value our_sk_b in
        Ok (set_key stream k, false)
      else if len asymmetric_value =? 0 then Ok (stream, true)
      else Err (Handshake "Handshake failed: invalid public sign key length from peer")
    | Some _ => Ok (stream, false)
    end
  end.

(** ** The controlling side *)

(** The signing key of the peer, when the rendezvous server vouches for it. *)
Definition peer_sign_pk (peer_id : string) (signed_id_pk : list Z) (rs_pub_key key : string) : option (list Z) :=
  let rs_pk := get_rs_pk (if String.eqb key "" then rs_pub_key else key) in
  if negb (len signed_id_pk =? 0) then
    match rs_pk with
    | Some rs_pk =>
      match decode_id_pk signed_id_pk rs_pk with
      | Ok (id, pk) => if String.eqb id peer_id then Some pk else None
      | Err _ => None
      end
    | None => None
    end
  else None.

(** Up to the wait; [inl]: done without encryption. *)
Definition client_hello (peer_id : string) (signed_id_pk : list Z) (rs_pub_key key : string) (conn : FramedStream)
  : result (FramedStream + list Z) error :=
  match peer_sign_pk peer_id signed_id_pk rs_pub_key key with
  | Some sign_pk => Ok (inr sign_pk)
  | None => let? conn := send Empty conn in Ok (inl conn)
  end.

Definition client_key (peer_id : string) (sign_pk our_sk_b key : list Z)
  (got : option (result (list Z) error)) (conn : FramedStream) : result FramedStream error :=
  match got with
  | None => Err (Handshake "Reset by the peer")
  | Some res =>
    let? bytes := res in
    match parse_from_bytes bytes with
    | Some (SignedId si) =>
      match decode_id_pk si sign_pk with
      | Ok (id, their_pk_b) =>
        if String.eqb id peer_id then
          let '(asymmetric_value, symmetric_value, k) := create_symmetric_key_msg our_sk_b key their_pk_b in
          let? conn := send (PublicKey asymmetric_value symmetric_value) conn in
          Ok (set_key conn k)
        else send Empty conn
      | Err _ => send (PublicKey [] []) conn
      end
    | Some _ => send Empty conn
    | None => send Empty conn
    end
  end.

(** ** Towards the rendezvous server *)

Definition secure_tcp (use_ws : bool) (key : string) (our_sk_b sym_key : list Z)
  (got : option (result (list Z) error)) (conn : FramedStream) : result FramedStream error :=
  if use_ws then Ok conn
  else
    match get_rs_pk key with
    | None => Err (Handshake "Handshake failed: invalid public key from rendezvous server")
    | Some rs_pk =>
      match got with
      | Some (Ok bytes) =>
        match parse_from_bytes bytes with
        | Some (KeyExchange keys) =>
          match keys with
          | [signed] =>
            match verify signed rs_pk with
            | None => Err (Handshake "Signature mismatch in key exchange")
            | Some their_pk_b =>
              match get_pk their_pk_b with
              | None => Err (Handshake "Wrong their public length in key exchange")
              | Some their_pk_b =>
                let '(asymmetric_value, symmetric_value, k) := create_symmetric_key_msg our_sk_b sym_key their_pk_b in
                let? conn := send (KeyExchange [asymmetric_value; symmetric_value]) conn in
                Ok (set_key conn k)
              end
            end
          | _ => Err (Handshake "Handshake failed: invalid key exchange message")
          end
        | _ => Ok conn
        end
      | _ => Ok conn
      end
    end.

(** ** The two sides together *)

(** The transport takes what has been written ([Framed::send] flushes). *)
Definition flush (fs : FramedStream) : list Z * FramedStream :=
  (wbuf fs, mkFramedStream (codec fs) (encrypt fs) (send_timeout fs) (rbuf fs) []).

(** A run in which every frame arrives: the hello of the server, the answer of
    the client, the end of the server's handshake. *)
Definition run (kp : KeyPair) (id peer_id : string) (signed_id_pk : list Z) (rs_pub_key key : string)
  (server_sk_b client_sk_b sym : list Z) : result (FramedStream * FramedStream) error :=
  let? hello := server_hello true kp id server_sk_b from_stream in
  let? greet := client_hello peer_id signed_id_pk rs_pub_key key from_stream in
  match hello, greet with
  | inr server, inr sign_pk =>
    let '(bytes, server) := flush server in
    let '(got, client) := next (receive from_stream bytes) in
    let? client := client_key peer_id sign_pk client_sk_b sym got client in
    let '(bytes, client) := flush client in
    let '(got, server) := next (receive server bytes) in
    let? (server, _) := server_key server_sk_b got server in
    Ok (client, server)
  | _, _ => Err (Handshake "not secure")
  end.

End Functions.

(** ** A message over a stream without a key *)

Section Laws.
Context `{SB : SecretBox} {SO : Sodium} {PR : Proto} `{!SecretBoxLaws SB} `{!SodiumLaws SO} `{!ProtoLaws PR}.
Context (decode64 : string -> option (list Z)).

Lemma clear_send m bs t w :
  len m <= 0x3FFFFFFF -> send_raw (mkFramedStream Codec.new None t bs w) m
  = Ok (mkFramedStream Codec.new None t bs (w ++ frame m)).
Proof using.
  intros Hm. unfold send_raw, send_bytes. cbn [encrypt codec wbuf send_timeout rbuf].
  pose proof (encode_all_frames Codec.new [m] w eq_refl ltac:(by constructor)) as He. cbn [encode_all] in He.
  destruct (encode Codec.new m w) as [w'|]; [|done]. injection He as ->.
  unfold frames. cbn [map concat]. by rewrite app_nil_r.
Qed.

Lemma clear_next m t w :
  len m <= 0x3FFFFFFF -> next (receive (mkFramedStream Codec.new None t [] w) (frame m))
  = (Some (Ok m), mkFramedStream Codec.new None t [] w).
Proof using.
  intros Hm. unfold next, receive. cbn [encrypt codec wbuf send_timeout rbuf app].
  assert (expects Codec.new [m] (frame m ++ [])) as Hx.
  { split; [done|]. split; [constructor; [|done]|].
    - split; [done|]. cbn. unfold usize_MAX. lia.
    - cbn. unfold frames. cbn. by rewrite !app_nil_r. }
  destruct (decode_progress Codec.new [m] (frame m) [] Hx) as [(c' & s' & _ & _ & _ & H)|(m' & ms' & s' & Hm' & Hd & He & _)].
  - by destruct (H eq_refl) as [H1 _].
  - injection Hm' as <- <-. rewrite Hd. destruct He as (_ & _ & He). cbn in He. rewrite app_nil_r in He.
    unfold frames in He. cbn in He. by subst s'.
Qed.

Lemma decode_signed_id i pk sk : len pk = 32 -> decode_id_pk (sign (write_id_pk i pk) sk) (sign_pk sk) = Ok (i, pk).
Proof. intros Hl. unfold decode_id_pk. rewrite verify_sign, parse_write_id_pk. unfold get_pk. by rewrite Hl. Qed.

(** The controlled side takes the key that was sealed for it. *)
Lemma server_key_answer server_sk_b client_sk_b sym st : len sym = 32 ->
  server_key server_sk_b (Some (Ok (write_to_bytes (PublicKey (box_pk client_sk_b)
    (box_seal sym (replicate BOX_NONCEBYTES 0) (box_pk server_sk_b) client_sk_b))))) st = Ok (set_key st sym, false).
Proof.
  intros Hsym. unfold server_key. cbn [result_bind]. rewrite parse_write, box_pk_length.
  cbn [Z.eqb Pos.eqb BOX_PUBLICKEYBYTES]. unfold decode_key.
  assert (length (box_pk client_sk_b) = PUBLICKEYBYTES) as ->.
  { pose proof (box_pk_length client_sk_b) as H. unfold len, BOX_PUBLICKEYBYTES in H. unfold PUBLICKEYBYTES. lia. }
  rewrite Nat.eqb_refl. cbn [negb]. change (replicate 24 0) with (replicate BOX_NONCEBYTES 0).
  rewrite open_sealed. assert (length sym = KEYBYTES) as -> by (unfold len in Hsym; unfold KEYBYTES; lia).
  rewrite Nat.eqb_refl. done.
Qed.

(** ** Properties *)

(** C8. The key exchange works end to end: when the rendezvous server has signed
    the peer's id and key, the controlled side signs with that key, and both
    handshake messages fit a frame, the handshake ends with both streams keyed
    with the symmetric key the controlling side chose, empty buffers and
    counters at zero; from then on everything the controlling side sends
    arrives decrypted, in order and exactly once, however the bytes are cut. *)
Theorem handshake_secures kp peer_id rs_sk rs_pub_key key server_sk_b client_sk_b sym :
  kp_pk kp = sign_pk (kp_sk kp) -> len (kp_sk kp) = SIGN_SECRETKEYBYTES -> len sym = 32 ->
  decode64 (if String.eqb key "" then rs_pub_key else key) = Some (sign_pk rs_sk) ->
  let signed_id_pk := sign (write_id_pk peer_id (kp_pk kp)) rs_sk in
  let hello := SignedId (sign (write_id_pk peer_id (box_pk server_sk_b)) (kp_sk kp)) in
  let answer := PublicKey (box_pk client_sk_b)
                  (box_seal sym (replicate BOX_NONCEBYTES 0) (box_pk server_sk_b) client_sk_b) in
  signed_id_pk <> [] ->
  len (write_to_bytes hello) <= 0x3FFFFFFF -> len (write_to_bytes answer) <= 0x3FFFFFFF ->
  exists client server,
    run decode64 kp peer_id peer_id signed_id_pk rs_pub_key key server_sk_b client_sk_b sym = Ok (client, server)
    /\ encrypt client = Some (Encrypt_new sym) /\ encrypt server = Some (Encrypt_new sym)
    /\ forall ms tx chunks,
       len ms < 2 ^ 64 -> Forall (fun m => len m + Z.of_nat MACBYTES <= 0x3FFFFFFF) ms ->
       send_all client ms = Ok tx -> concat chunks = wbuf tx -> chunks <> [] ->
       fst (fst (receive_all server chunks)) = ms.
Proof.
  intros Hpk Hsk Hsym Hrs signed hello answer Hne Hfh Hfa.
  assert (Hh : server_hello true kp peer_id server_sk_b from_stream
               = Ok (inr (mkFramedStream Codec.new None 0 [] (frame (write_to_bytes hello))))).
  { unfold server_hello. rewrite Hpk, sign_pk_length, Hsk. cbn [andb Z.eqb Pos.eqb SIGN_PUBLICKEYBYTES SIGN_SECRETKEYBYTES].
    unfold send, from_stream. by rewrite clear_send. }
  assert (Hc : client_hello decode64 peer_id signed rs_pub_key key from_stream = Ok (inr (kp_pk kp))).
  { unfold client_hello, peer_sign_pk, get_rs_pk. rewrite Hrs. unfold get_pk. rewrite sign_pk_length.
    change (SIGN_PUBLICKEYBYTES =? 32) with true. cbv iota.
    destruct (Z.eqb_spec (len signed) 0) as [Hz|_]; [by destruct signed|]. cbn [negb].
    unfold signed. rewrite decode_signed_id by (rewrite Hpk; apply sign_pk_length). by rewrite String.eqb_refl. }
  assert (Hk : client_key peer_id (kp_pk kp) client_sk_b sym (Some (Ok (write_to_bytes hello))) from_stream
               = Ok (set_key (mkFramedStream Codec.new None 0 [] (frame (write_to_bytes answer))) sym)).
  { unfold client_key. cbn [result_bind]. rewrite parse_write. unfold hello.
    rewrite Hpk, decode_signed_id by apply box_pk_length. rewrite String.eqb_refl. cbn [create_symmetric_key_msg].
    unfold send, from_stream. fold answer. by rewrite clear_send. }
  eexists _, _. split; [|split; [|split]].
  - unfold run. rewrite Hh, Hc. cbn [result_bind flush wbuf codec encrypt send_timeout rbuf].
    change from_stream with (mkFramedStream Codec.new None 0 [] []) at 1.
    rewrite clear_next by done.
    change (mkFramedStream Codec.new None 0 [] []) with from_stream. rewrite Hk.
    cbn [result_bind flush set_key wbuf codec encrypt send_timeout rbuf]. unfold from_stream.
    rewrite clear_next by done. unfold answer. by rewrite server_key_answer.
  - reflexivity.
  - reflexivity.
  - intros ms tx chunks Hlen Hms Hsend Hch Hcn.
    match type of Hsend with send_all ?t ms = _ => match goal with |- context [receive_all ?rx chunks] =>
      destruct (secured_delivery t rx sym 0 0 0 ms tx chunks
        eq_refl eq_refl eq_refl eq_refl eq_refl eq_refl ltac:(lia) ltac:(lia) Hms Hsend Hch Hcn) as [_ ->] end end.
    reflexivity.
Qed.

(** Encryption implies authentication.  Whatever arrives, if the controlling
    side ends its handshake with a keyed stream, then the rendezvous server has
    signed the peer's id with a signing key, the received message carries the
    same id and a box key under that signing key, the stream's key is the one
    chosen for this handshake, and the only thing sent is that key sealed for
    this box key. *)
Theorem secured_means_signed peer_id signed_id_pk rs_pub_key key our_sk_b sym got conn conn' spk :
  encrypt conn = None ->
  client_hello decode64 peer_id signed_id_pk rs_pub_key key conn = Ok (inr spk) ->
  client_key peer_id spk our_sk_b sym got conn = Ok conn' ->
  is_secured conn' = true ->
  exists rs_pk bytes si their_pk_b,
    get_rs_pk decode64 (if String.eqb key "" then rs_pub_key else key) = Some rs_pk
    /\ decode_id_pk signed_id_pk rs_pk = Ok (peer_id, spk)
    /\ got = Some (Ok bytes) /\ parse_from_bytes bytes = Some (SignedId si)
    /\ decode_id_pk si spk = Ok (peer_id, their_pk_b)
    /\ encrypt conn' = Some (Encrypt_new sym)
    /\ send_raw conn (write_to_bytes (PublicKey (box_pk our_sk_b)
                        (box_seal sym (replicate BOX_NONCEBYTES 0) their_pk_b our_sk_b)))
       = Ok (mkFramedStream (codec conn') None (send_timeout conn') (rbuf conn') (wbuf conn')).
Proof.
  intros Hn Hh Hk Hs.
  assert (Hclear : forall m c, send m conn = Ok c -> encrypt c = None).
  { intros m c Hc. unfold send, send_raw, send_bytes in Hc. rewrite Hn in Hc.
    destruct (encode _ _ _); [|done]. by injection Hc as <-. }
  unfold client_hello in Hh. destruct (peer_sign_pk decode64 peer_id signed_id_pk rs_pub_key key) as [pk|] eqn:Ep;
    [|by destruct (send Empty conn)]. injection Hh as ->.
  unfold peer_sign_pk in Ep. destruct (negb _); [|done].
  destruct (get_rs_pk decode64 _) as [rs_pk|] eqn:Er; [|done].
  destruct (decode_id_pk signed_id_pk rs_pk) as [[id pk]|] eqn:Ed; [|done].
  destruct (String.eqb_spec id peer_id) as [->|]; [|done]. injection Ep as ->.
  assert (Hno : forall m, send m conn = Ok conn' -> False).
  { intros m Hm. unfold is_secured in Hs. by rewrite (Hclear _ _ Hm) in Hs. }
  unfold client_key in Hk. destruct got as [[bytes|]|]; [cbn [result_bind] in Hk|done|done].
  destruct (parse_from_bytes bytes) as [[si| | | |]|] eqn:Eb; try by apply Hno in Hk.
  destruct (decode_id_pk si spk) as [[i their]|] eqn:Es; [|by apply Hno in Hk].
  destruct (String.eqb_spec i peer_id) as [->|]; [|by apply Hno in Hk].
  cbn [create_symmetric_key_msg] in Hk.
  destruct (send _ conn) as [c|] eqn:Ec; [|done]. cbn [result_bind] in Hk. injection Hk as <-.
  pose proof (Hclear _ _ Ec) as Hcn. exists rs_pk, bytes, si, their.
  split; [done|]. split; [done|]. split; [done|]. split; [done|]. split; [done|]. split; [done|].
  unfold send in Ec. rewrite Ec. destruct c. cbn in *. by subst.
Qed.

(** The fall-back is silent: any first frame of the server that is not a
    signed id and key under the expected signing key (an empty one will do)
    leaves the controlling side with a working stream that is not encrypted,
    and any answer that is a message other than a public key does the same on
    the controlled side although encryption was asked for. *)
Theorem handshake_downgrades peer_id spk our_sk_b sym bytes bytes' conn :
  encrypt conn = None -> raw (codec conn) = false ->
  (forall m, m = Empty \/ m = PublicKey [] [] -> len (write_to_bytes m) <= 0x3FFFFFFF) ->
  match parse_from_bytes bytes with
  | Some (SignedId si) => forall pk, decode_id_pk si spk <> Ok (peer_id, pk)
  | _ => True
  end ->
  match parse_from_bytes bytes' with Some (PublicKey _ _) | None => False | Some _ => True end ->
  (exists conn', client_key peer_id spk our_sk_b sym (Some (Ok bytes)) conn = Ok conn' /\ is_secured conn' = false)
  /\ server_key our_sk_b (Some (Ok bytes')) conn = Ok (conn, false).
Proof.
  intros Hn Hr Hfit Hb Hb'. split.
  - assert (Hsend : forall m, m = Empty \/ m = PublicKey [] [] ->
      exists conn', send m conn = Ok conn' /\ is_secured conn' = false).
    { intros m Hm. specialize (Hfit m Hm). unfold send, send_raw, send_bytes. rewrite Hn.
      pose proof (encode_all_frames (codec conn) [write_to_bytes m] (wbuf conn) Hr ltac:(by constructor)) as He.
      cbn [encode_all] in He. destruct (encode _ _ _); [|done]. by eexists. }
    unfold client_key. cbn [result_bind].
    destruct (parse_from_bytes bytes) as [[si| | | |]|]; try (apply Hsend; by left).
    destruct (decode_id_pk si spk) as [[i pk]|]; [|apply Hsend; by right].
    destruct (String.eqb_spec i peer_id) as [->|]; [by destruct (Hb pk)|apply Hsend; by left].
  - unfold server_key. cbn [result_bind]. by destruct (parse_from_bytes bytes') as [[]|].
Qed.

End Laws.

(** ** Concrete operations

    A signature and a box that show their contents to the right key only, and
    encodings through the countability of the messages; used below to run the
    handshake. *)

#[global] Instance HsMessage_eq_dec : EqDecision HsMessage.
Proof. solve_decision. Defined.

#[global] Instance HsMessage_countable : Countable HsMessage.
Proof.
  refine (inj_countable'
    (fun m => match m with
              | SignedId s => inl (inl s)
              | PublicKey a s => inl (inr (a, s))
              | KeyExchange ks => inr (inl ks)
              | Empty => inr (inr None)
              | Other t => inr (inr (Some t))
              end)
    (fun x => match x with
              | inl (inl s) => SignedId s
              | inl (inr (a, s)) => PublicKey a s
              | inr (inl ks) => KeyExchange ks
              | inr (inr None) => Empty
              | inr (inr (Some t)) => Other t
              end) _).
  by intros [].
Defined.

Definition pad32 (k : list Z) : list Z := take 32 (k ++ replicate 32 0).

Definition toy_sodium : Sodium := {|
  sign m sk := pad32 sk ++ m;
  verify s pk := if decide (take 32 s = pk) then Some (drop 32 s) else None;
  sign_pk := pad32;
  box_seal m _ pk _ := pad32 pk ++ m;
  box_open c _ _ sk := if decide (take 32 c = pad32 sk) then Some (drop 32 c) else None;
  box_pk := pad32 |}.

Definition toy_proto : Proto := {|
  write_to_bytes m := [Zpos (countable.encode m)];
  parse_from_bytes bs := match bs with [Zpos p] => countable.decode p | _ => None end;
  write_id_pk i pk := [Zpos (countable.encode (i, pk))];
  parse_id_pk bs := match bs with [Zpos p] => countable.decode p | _ => None end |}.

Lemma pad32_length k : length (pad32 k) = 32%nat.
Proof. unfold pad32. rewrite length_take, length_app, length_replicate. lia. Qed.

Lemma pad32_app k m : take 32 (pad32 k ++ m) = pad32 k /\ drop 32 (pad32 k ++ m) = m.
Proof. split; [apply take_app_length'|apply drop_app_length']; by rewrite pad32_length. Qed.

Lemma toy_sodium_laws : SodiumLaws toy_sodium.
Proof.
  assert (forall k, pad32 (pad32 k) = pad32 k) as Hp.
  { intros k. unfold pad32 at 1. rewrite take_app_length'; [done|by rewrite pad32_length]. }
  split; intros; cbn -[pad32].
  - destruct (pad32_app sk m) as [-> ->]. by rewrite decide_True.
  - rewrite Hp. destruct (pad32_app b m) as [-> ->]. by rewrite decide_True.
  - unfold len. by rewrite pad32_length.
  - unfold len. by rewrite pad32_length.
Qed.

Lemma toy_proto_laws : ProtoLaws toy_proto.
Proof. split; intros; cbn -[countable.encode countable.decode]; apply countable.decode_encode. Qed.

Definition toy_decode64 (s : string) : option (list Z) := Some (pad32 [str_len s]).

Definition demo_keys : KeyPair := mkKeyPair (pad32 [7] ++ pad32 [7]) (pad32 [7]).

Lemma handshake_secures_witness :
  exists client server,
    run (SB := Secure.toy_box) (SO := toy_sodium) (PR := toy_proto) toy_decode64 demo_keys "id" "id"
      (sign (Sodium := toy_sodium) (write_id_pk (Proto := toy_proto) "id" (kp_pk demo_keys)) [3])
      "" "key" [8] [9] (pad32 [1]) = Ok (client, server)
    /\ encrypt client = Some (Encrypt_new (pad32 [1])).
Proof.
  destruct (handshake_secures (SB := Secure.toy_box) (SO := toy_sodium) (PR := toy_proto) (SecretBoxLaws0 := Secure.toy_box_laws)
    (SodiumLaws0 := toy_sodium_laws) (ProtoLaws0 := toy_proto_laws) toy_decode64 demo_keys "id" [3] "" "key" [8] [9] (pad32 [1]))
    as (client & server & Hr & Hc & _);
    first [reflexivity | discriminate | idtac].
  exists client, server. split; [exact Hr|exact Hc].
Defined.

Lemma secured_means_signed_witness :
  exists rs_pk bytes si their_pk_b,
    get_rs_pk toy_decode64 "key" = Some rs_pk
    /\ @decode_id_pk toy_sodium toy_proto (pad32 [3] ++ write_id_pk (Proto := toy_proto) "id" (pad32 [7])) rs_pk
       = Ok ("id", pad32 [7])
    /\ Some (Ok (E := error) [Zpos (countable.encode (SignedId (pad32 [7] ++ write_id_pk (Proto := toy_proto) "id" (pad32 [8]))))])
       = Some (Ok bytes) /\ parse_from_bytes (Proto := toy_proto) bytes = Some (SignedId si)
    /\ @decode_id_pk toy_sodium toy_proto si (pad32 [7]) = Ok ("id", their_pk_b).
Proof.
  edestruct (@secured_means_signed Secure.toy_box toy_sodium toy_proto toy_decode64 "id"
    (pad32 [3] ++ write_id_pk (Proto := toy_proto) "id" (pad32 [7])) "" "key" [9] (pad32 [1])
    (Some (Ok [Zpos (countable.encode (SignedId (pad32 [7] ++ write_id_pk (Proto := toy_proto) "id" (pad32 [8]))))]))
    from_stream) as (rs_pk & bytes & si & their & H1 & H2 & H3 & H4 & H5 & _);
    [reflexivity|vm_compute; reflexivity|vm_compute; reflexivity|vm_compute; reflexivity|].
  exists rs_pk, bytes, si, their. split; [exact H1|]. split; [exact H2|]. split; [exact H3|]. split; [exact H4|exact H5].
Defined.

(** An empty frame from the network is enough. *)
Lemma handshake_downgrades_witness :
  exists conn', @client_key Secure.toy_box toy_sodium toy_proto "id" (pad32 [7]) [9] (pad32 [1]) (Some (Ok [])) from_stream
                = Ok conn' /\ is_secured conn' = false.
Proof.
  apply (@handshake_downgrades Secure.toy_box toy_sodium toy_proto "id" (pad32 [7]) [9] (pad32 [1]) []
    [Zpos (countable.encode Empty)] from_stream); try reflexivity.
  intros m [-> | ->]; vm_compute; discriminate.
Defined.

End Handshake.
