(* ===== verification/FileTransfer.v ===== *)
(** * File transfer jobs ([libs/hbb_common/src/fs.rs])

    A [TransferJob] reads files on one host and writes them on the other, in
    blocks of at most 128 KiB, optionally compressed, optionally asking the
    peer to confirm each file.  The model has the whole job: both
    constructors, [read], [write], the overwrite-detection handshake, resuming
    at an offset, and the scheduler [handle_read_jobs].

    The file system is what the calls of [std::fs] and [tokio::fs] act on:
    paths name inodes and an open file is an inode and a position, so that a
    stream stays attached to a file that is renamed, as on Unix.  Only regular
    files are represented, and no other process changes them.  What the
    operating system decides is a parameter: how many bytes one [read] returns
    or which error, and whether a file can be created.  zstd is a parameter
    too; [compress] returns an empty vector when the compressor fails. *)

From S2P Require Import Prelude RustStr NetUtil.

Module Transfer.

(** ** Data *)

Inductive FileType : Type := Dir | DirLink | DirDrive | File | FileLink.

Record FileEntry : Type := mkFileEntry {
  entry_type : FileType;
  name : string;
  is_hidden : bool;
  size : Z;
  modified_time : Z
}.

Inductive JobType : Type := Generic | Printer.

#[global] Instance JobType_eq_dec : EqDecision JobType.
Proof. solve_decision. Defined.

Definition JobType_from_i32 (v : Z) : JobType :=
  if v =? 0 then Generic else if v =? 1 then Printer else Generic.
Definition JobType_into_i32 (t : JobType) : Z :=
  match t with Generic => 0 | Printer => 1 end.

(** A cursor is its buffer and position. *)
Inductive DataSource : Type :=
| FilePath (p : string)
| MemoryCursor (buf : list Z) (pos : Z).

Definition to_meta (d : DataSource) : string :=
  match d with FilePath p => p | MemoryCursor _ _ => "" end.

(** An open file is its inode and position. *)
Inductive DataStream : Type :=
| FileStream (ino : nat) (pos : Z)
| BufStream (buf : list Z) (pos : Z).

Record FileDigest : Type := mkFileDigest { d_size : Z; d_modified : Z }.

Record TransferJob : Type := mkTransferJob {
  id : Z;
  type : JobType;
  remote : string;
  data_source : DataSource;
  show_hidden : bool;
  is_remote : bool;
  is_last_job : bool;
  is_resume : bool;
  file_num : Z;
  files : list FileEntry;
  conn_id : Z;
  data_stream : option DataStream;
  total_size : Z;
  finished_size : Z;
  transferred : Z;
  enable_overwrite_detection : bool;
  file_confirmed : bool;
  file_skipped : bool;
  file_is_waiting : bool;
  default_overwrite_strategy : option bool;
  digest : FileDigest
}.

Record TransferJobMeta : Type := mkTransferJobMeta {
  m_id : Z; m_remote : string; m_to : string; m_show_hidden : bool; m_file_num : Z; m_is_remote : bool
}.

Record FileTransferBlock : Type := mkBlock {
  b_id : Z; b_file_num : Z; b_data : list Z; b_compressed : bool
}.

Record FileTransferDigest : Type := mkDigest {
  td_id : Z; td_file_num : Z; td_last_modified : Z; td_file_size : Z;
  td_is_identical : bool; td_transferred_size : Z; td_is_resume : bool
}.

Inductive SendConfirmUnion : Type := Skip (s : bool) | OffsetBlk (offset : Z).

Record FileTransferSendConfirmRequest : Type := mkConfirm {
  c_id : Z; c_file_num : Z; c_union : option SendConfirmUnion
}.

(** The messages a read job sends. *)
Inductive Msg : Type :=
| MsgError (id : Z) (err : string) (file_num : Z)
| MsgBlock (b : FileTransferBlock)
| MsgDone (id file_num : Z)
| MsgDigest (d : FileTransferDigest).

(** ** Field updates *)

Definition with_stream (j : TransferJob) (s : option DataStream) : TransferJob :=
  mkTransferJob (id j) (type j) (remote j) (data_source j) (show_hidden j) (is_remote j)
    (is_last_job j) (is_resume j) (file_num j) (files j) (conn_id j) s (total_size j)
    (finished_size j) (transferred j) (enable_overwrite_detection j) (file_confirmed j)
    (file_skipped j) (file_is_waiting j) (default_overwrite_strategy j) (digest j).
Definition with_source (j : TransferJob) (d : DataSource) : TransferJob :=
  mkTransferJob (id j) (type j) (remote j) d (show_hidden j) (is_remote j)
    (is_last_job j) (is_resume j) (file_num j) (files j) (conn_id j) (data_stream j) (total_size j)
    (finished_size j) (transferred j) (enable_overwrite_detection j) (file_confirmed j)
    (file_skipped j) (file_is_waiting j) (default_overwrite_strategy j) (digest j).
Definition with_file_num (j : TransferJob) (n : Z) : TransferJob :=
  mkTransferJob (id j) (type j) (remote j) (data_source j) (show_hidden j) (is_remote j)
    (is_last_job j) (is_resume j) n (files j) (conn_id j) (data_stream j) (total_size j)
    (finished_size j) (transferred j) (enable_overwrite_detection j) (file_confirmed j)
    (file_skipped j) (file_is_waiting j) (default_overwrite_strategy j) (digest j).
Definition with_counts (j : TransferJob) (fin tr : Z) : TransferJob :=
  mkTransferJob (id j) (type j) (remote j) (data_source j) (show_hidden j) (is_remote j)
    (is_last_job j) (is_resume j) (file_num j) (files j) (conn_id j) (data_stream j) (total_size j)
    fin tr (enable_overwrite_detection j) (file_confirmed j)
    (file_skipped j) (file_is_waiting j) (default_overwrite_strategy j) (digest j).
Definition with_flags (j : TransferJob) (confirmed skipped waiting : bool) : TransferJob :=
  mkTransferJob (id j) (type j) (remote j) (data_source j) (show_hidden j) (is_remote j)
    (is_last_job j) (is_resume j) (file_num j) (files j) (conn_id j) (data_stream j) (total_size j)
    (finished_size j) (transferred j) (enable_overwrite_detection j) confirmed
    skipped waiting (default_overwrite_strategy j) (digest j).

Definition set_files (j : TransferJob) (fl : list FileEntry) : TransferJob :=
  mkTransferJob (id j) (type j) (remote j) (data_source j) (show_hidden j) (is_remote j)
    (is_last_job j) (is_resume j) (file_num j) fl (conn_id j) (data_stream j) (total_size j)
    (finished_size j) (transferred j) (enable_overwrite_detection j) (file_confirmed j)
    (file_skipped j) (file_is_waiting j) (default_overwrite_strategy j) (digest j).
Definition set_digest (j : TransferJob) (sz md : Z) : TransferJob :=
  mkTransferJob (id j) (type j) (remote j) (data_source j) (show_hidden j) (is_remote j)
    (is_last_job j) (is_resume j) (file_num j) (files j) (conn_id j) (data_stream j) (total_size j)
    (finished_size j) (transferred j) (enable_overwrite_detection j) (file_confirmed j)
    (file_skipped j) (file_is_waiting j) (default_overwrite_strategy j) (mkFileDigest sz md).
Definition set_overwrite_strategy (j : TransferJob) (s : option bool) : TransferJob :=
  mkTransferJob (id j) (type j) (remote j) (data_source j) (show_hidden j) (is_remote j)
    (is_last_job j) (is_resume j) (file_num j) (files j) (conn_id j) (data_stream j) (total_size j)
    (finished_size j) (transferred j) (enable_overwrite_detection j) (file_confirmed j)
    (file_skipped j) (file_is_waiting j) s (digest j).

(** [set_file_confirmed] also clears the "last file skipped" mark. *)
Definition set_file_confirmed (j : TransferJob) (b : bool) : TransferJob :=
  with_flags j b false (file_is_waiting j).
Definition set_file_is_waiting (j : TransferJob) (b : bool) : TransferJob :=
  with_flags j (file_confirmed j) (file_skipped j) b.

(** ** The file system

    [mtime] is in nanoseconds since the epoch. *)

Record FileNode : Type := mkFileNode { content : list Z; mtime : Z }.

Record FS : Type := mkFS {
  paths : gmap string nat;
  nodes : gmap nat FileNode;
  next_ino : nat
}.

Definition fs_empty : FS := mkFS ∅ ∅ 0.

Definition fs_get (fs : FS) (p : string) : option FileNode :=
  paths fs !! p ≫= fun i => nodes fs !! i.

(** [remove_file] *)
Definition fs_unlink (fs : FS) (p : string) : FS :=
  mkFS (delete p (paths fs)) (nodes fs) (next_ino fs).

(** [rename], when the source exists *)
Definition fs_rename (fs : FS) (a b : string) : FS :=
  match paths fs !! a with
  | Some i => mkFS (<[b := i]> (delete a (paths fs))) (nodes fs) (next_ino fs)
  | None => fs
  end.

(** [File::create]: truncates an existing file, else makes a new one. *)
Definition fs_create (fs : FS) (p : string) (t : Z) : FS * nat :=
  match paths fs !! p with
  | Some i => (mkFS (paths fs) (<[i := mkFileNode [] t]> (nodes fs)) (next_ino fs), i)
  | None =>
    let i := next_ino fs in
    (mkFS (<[p := i]> (paths fs)) (<[i := mkFileNode [] t]> (nodes fs)) (S i), i)
  end.

Definition fs_update (fs : FS) (i : nat) (n : FileNode) : FS :=
  mkFS (paths fs) (<[i := n]> (nodes fs)) (next_ino fs).

Definition fs_set_mtime (fs : FS) (p : string) (t : Z) : FS :=
  match paths fs !! p with
  | Some i => match nodes fs !! i with
              | Some n => fs_update fs i (mkFileNode (content n) t)
              | None => fs
              end
  | None => fs
  end.

(** [std::fs::write] *)
Definition fs_write_file (fs : FS) (p : string) (data : list Z) (t : Z) : FS :=
  let '(fs, i) := fs_create fs p t in fs_update fs i (mkFileNode data t).

(** [PathBuf::join] on Unix. *)
Definition ends_with_slash (p : string) : bool :=
  match after_last "/" p with Some "" => true | _ => false end.

Definition path_join (p q : string) : string :=
  if starts_with "/" q then q
  else if String.eqb p "" then q
  else if ends_with_slash p then p +:+ q
  else p +:+ "/" +:+ q.

Definition join (p nm : string) : string := if String.eqb nm "" then p else path_join p nm.

(** [Path::file_name] of a path without trailing slash. *)
Definition path_file_name (p : string) : string :=
  match after_last "/" p with Some f => f | None => p end.

Definition download_path (p : string) : string := p +:+ ".download".
Definition digest_path (p : string) : string := p +:+ ".digest".

(** Overwrite [data] at [pos]. *)
Definition splice (old : list Z) (pos : Z) (data : list Z) : list Z :=
  take (Z.to_nat pos) old ++ data ++ drop (Z.to_nat pos + length data) old.

Section Transfer.

(** One [read] call: how many of the remaining bytes are returned, or an error. *)
Context (os_read : list Z -> Z -> result nat string).
(** Whether [File::create] of a path succeeds. *)
Context (can_create : string -> bool).
Context (zcompress zdecompress : list Z -> list Z).
(** The current time, for files that are written, and the text of a digest file. *)
Context (now : Z) (digest_json : FileDigest -> list Z).

(** ** Small helpers *)

Definition get_ext (nm : string) : string := unwrap_or "" (after_last "." nm).

Definition compressed_exts : list string :=
  ["xz"; "gz"; "zip"; "7z"; "rar"; "bz2"; "tgz"; "png"; "jpg"].

Definition is_compressed_file (nm : string) : bool :=
  existsb (String.eqb (get_ext nm)) compressed_exts.

Definition sum_sizes (fl : list FileEntry) : Z := fold_left (fun a e => u64 (a + size e)) fl 0.

Definition entry_at (j : TransferJob) (n : Z) : option FileEntry := files j !! Z.to_nat n.

(** ** Constructors *)

Definition job_default : TransferJob :=
  mkTransferJob 0 Generic "" (FilePath "") false false false false 0 [] 0 None 0 0 0
    false false false false None (mkFileDigest 0 0).

Definition new_job (i : Z) (t : JobType) (rem : string) (src : DataSource) (fnum : Z)
  (hid isrem : bool) (fl : list FileEntry) (total : Z) (detect : bool) : TransferJob :=
  mkTransferJob i t rem src hid isrem false false fnum fl 0 None total 0 0
    detect false false false None (mkFileDigest 0 0).

Definition new_write (i : Z) (t : JobType) (rem : string) (src : DataSource) (fnum : Z)
  (hid isrem : bool) (fl : list FileEntry) (detect : bool) : TransferJob :=
  new_job i t rem src fnum hid isrem fl (sum_sizes fl) detect.

(** [get_recursive_files] is the directory walk; here its result. *)
Definition new_read (recursive_files : string -> bool -> result (list FileEntry) string)
  (i : Z) (t : JobType) (rem : string) (src : DataSource) (fnum : Z)
  (hid isrem detect : bool) : result TransferJob string :=
  match src with
  | FilePath p =>
    match recursive_files p hid with
    | Err e => Err e
    | Ok fl => Ok (new_job i t rem src fnum hid isrem fl (sum_sizes fl) detect)
    end
  | MemoryCursor buf _ => Ok (new_job i t rem src fnum hid isrem [] (len buf) detect)
  end.

Definition gen_meta (j : TransferJob) : TransferJobMeta :=
  mkTransferJobMeta (id j) (remote j) (to_meta (data_source j)) (show_hidden j) (file_num j) (is_remote j).

(** ** Finishing a received file *)

(** [modify_time]: the completed download takes its final name and time. *)
Definition modify_time (j : TransferJob) (fs : FS) : FS :=
  if decide (type j = Printer) then fs else
  match data_source j with
  | FilePath p =>
    let n := u64 (file_num j) in
    if n <? len (files j) then
      match entry_at j n with
      | Some e =>
        let path := join p (name e) in
        let fs := fs_unlink fs (digest_path path) in
        let fs := fs_rename fs (download_path path) path in
        fs_set_mtime fs path (modified_time e * 10 ^ 9)
      | None => fs
      end
    else fs
  | MemoryCursor _ _ => fs
  end.

Definition remove_download_file (j : TransferJob) (fs : FS) : FS :=
  if decide (type j = Printer) then fs else
  match data_source j with
  | FilePath p =>
    let n := u64 (file_num j) in
    if n <? len (files j) then
      match entry_at j n with
      | Some e =>
        let path := join p (name e) in
        fs_unlink (fs_unlink fs (download_path path)) (digest_path path)
      | None => fs
      end
    else fs
  | MemoryCursor _ _ => fs
  end.

Definition set_finished_size_on_resume (j : TransferJob) : TransferJob :=
  if is_resume j && (0 <? file_num j)
  then with_counts j (sum_sizes (take (Z.to_nat (u64 (file_num j))) (files j))) (transferred j)
  else j.

(** ** Streams *)

(** [write_all] through an open stream. *)
Definition stream_write (fs : FS) (s : DataStream) (data : list Z) : FS * DataStream :=
  match s with
  | FileStream i pos =>
    let old := match nodes fs !! i with Some n => content n | None => [] end in
    (fs_update fs i (mkFileNode (splice old pos data) now), FileStream i (pos + len data))
  | BufStream buf pos => (fs, BufStream (splice buf pos data) (pos + len data))
  end.

(** What is left to read, and the stream after reading [n] bytes. *)
Definition stream_rest (fs : FS) (s : DataStream) : list Z :=
  match s with
  | FileStream i pos =>
    drop (Z.to_nat pos) (match nodes fs !! i with Some n => content n | None => [] end)
  | BufStream buf pos => drop (Z.to_nat pos) buf
  end.

Definition stream_advance (s : DataStream) (n : nat) : DataStream :=
  match s with
  | FileStream i pos => FileStream i (pos + Z.of_nat n)
  | BufStream buf pos => BufStream buf (pos + Z.of_nat n)
  end.

(** ** Writing a block *)

(** The file-path case of [write]: switch to the block's file if needed.  The
    job is returned in every case: an error leaves the changes made so far. *)
Definition write_open (j : TransferJob) (p : string) (bnum : Z) (fs : FS)
  : result unit string * TransferJob * FS :=
  let n := u64 bnum in
  if len (files j) <=? n then (Err "Wrong file number", j, fs) else
  if negb (n =? u64 (file_num j)) || match data_stream j with None => true | Some _ => false end then
    let fs := modify_time j fs in
    let j := with_file_num j bnum in
    match entry_at j n with
    | None => (Err "Wrong file number", j, fs)
    | Some e =>
      let path := join p (name e) in
      let '(wpath, dpath) :=
        if decide (type j = Printer) then (p, None)
        else (download_path path, Some (digest_path path)) in
      let fs := match dpath with Some dp => fs_unlink fs dp | None => fs end in
      if can_create wpath then
        let '(fs, i) := fs_create fs wpath now in
        let j := with_stream j (Some (FileStream i 0)) in
        let fs := match dpath with
                  | Some dp => fs_write_file fs dp (digest_json (digest j)) now
                  | None => fs
                  end in
        (Ok tt, j, fs)
      else (Err "create", j, fs)
    end
  else (Ok tt, j, fs).

Definition write (j : TransferJob) (b : FileTransferBlock) (fs : FS)
  : result unit string * TransferJob * FS :=
  if negb (b_id b =? id j) then (Err "Wrong id", j, fs) else
  let '(r, j, fs) :=
    match data_source j with
    | FilePath p => write_open j p (b_file_num b) fs
    | MemoryCursor buf pos =>
      match data_stream j with
      | None => (Ok tt, with_stream j (Some (BufStream buf pos)), fs)
      | Some _ => (Ok tt, j, fs)
      end
    end in
  match r with
  | Err e => (Err e, j, fs)
  | Ok _ =>
    let data := if b_compressed b then zdecompress (b_data b) else b_data b in
    match data_stream j with
    | None => (Err (if b_compressed b then "data stream is None" else "file is None"), j, fs)
    | Some s =>
      let '(fs, s) := stream_write fs s data in
      let j := with_stream j (Some s) in
      (Ok tt, with_counts j (u64 (finished_size j + len data)) (u64 (transferred j + len (b_data b))), fs)
    end
  end.

(** ** Reading a block *)

(** [open_data_stream]: [Ok true] when the job is done. *)
Definition open_data_stream (j : TransferJob) (fs : FS) : result bool string * TransferJob :=
  let n := u64 (file_num j) in
  match data_source j with
  | FilePath p =>
    if len (files j) <=? n then (Ok true, with_stream j None)
    else match data_stream j with
         | Some _ => (Ok false, j)
         | None =>
           match entry_at j n with
           | None => (Ok true, with_stream j None)
           | Some e =>
             let path := join p (name e) in
             match paths fs !! path with
             | Some i =>
               let j := with_stream j (Some (FileStream i 0)) in
               (Ok false, with_flags j false (file_skipped j) false)
             | None =>
               let j := with_file_num j (i32 (file_num j + 1)) in
               (Err "open", with_flags j false (file_skipped j) false)
             end
           end
         end
  | MemoryCursor buf pos =>
    match data_stream j with
    | Some _ => (Ok false, j)
    | None => (Ok false, with_stream (with_source j (MemoryCursor [] 0)) (Some (BufStream buf pos)))
    end
  end.

Definition get_current_digest (j : TransferJob) (fs : FS) : result (Z * Z) string :=
  match data_stream j with
  | None => Err "file is None"
  | Some (FileStream i _) =>
    match nodes fs !! i with Some n => Ok (mtime n / 10 ^ 9, len (content n)) | None => Err "metadata" end
  | Some (BufStream _ _) => Err "No digest for buf stream"
  end.

Definition needs_digest (j : TransferJob) : bool :=
  bool_decide (type j = Generic) && enable_overwrite_detection j &&
  negb (file_confirmed j) && negb (file_is_waiting j).

(** [send_current_digest], into the outgoing messages. *)
Definition send_current_digest (j : TransferJob) (fs : FS) (out : list Msg)
  : result unit string * list Msg :=
  match get_current_digest j fs with
  | Err e => (Err e, out)
  | Ok (last_modified, file_size) =>
    (Ok tt, out ++ [MsgDigest (mkDigest (id j) (file_num j) last_modified file_size false 0 (is_resume j))])
  end.

Definition init_data_stream (j : TransferJob) (fs : FS) (out : list Msg)
  : result unit string * TransferJob * list Msg :=
  match open_data_stream j fs with
  | (Err e, j) => (Err e, j, out)
  | (Ok true, j) => (Ok tt, j, out)
  | (Ok false, j) =>
    if needs_digest j then
      match send_current_digest j fs out with
      | (Err e, out) => (Err e, j, out)
      | (Ok _, out) => (Ok tt, set_file_is_waiting j true, out)
      end
    else (Ok tt, j, out)
  end.

(** The connection-manager variant hands the digest to its caller. *)
Definition init_data_stream_for_cm (j : TransferJob) (fs : FS)
  : result (option (Z * Z)) string * TransferJob :=
  match open_data_stream j fs with
  | (Err e, j) => (Err e, j)
  | (Ok true, j) => (Ok None, j)
  | (Ok false, j) =>
    if needs_digest j then
      match get_current_digest j fs with
      | Err e => (Err e, j)
      | Ok d => (Ok (Some d), set_file_is_waiting j true)
      end
    else (Ok None, j)
  end.

Definition BUF_SIZE : Z := 128 * 1024.

(** The fill loop of [read]: until the buffer is full or a read returns 0.
    Each round but the last takes at least one byte, so one more round than
    there are bytes left is enough fuel. *)
Fixpoint fill (fuel : nat) (fs : FS) (s : DataStream) (buf : list Z)
  : result (list Z) string * DataStream :=
  match fuel with
  | O => (Ok buf, s)
  | S fuel =>
    let rest := stream_rest fs s in
    match os_read rest (BUF_SIZE - len buf) with
    | Err e => (Err e, s)
    | Ok n =>
      let buf := buf ++ take n rest in
      let s := stream_advance s n in
      if (Nat.eqb n 0) || (len buf =? BUF_SIZE) then (Ok buf, s) else fill fuel fs s buf
    end
  end.

Definition next_file (j : TransferJob) : TransferJob :=
  let j := with_stream (with_file_num j (i32 (file_num j + 1))) None in
  with_flags j false (file_skipped j) false.

Definition read (j : TransferJob) (fs : FS) : result (option FileTransferBlock) string * TransferJob :=
  if bool_decide (type j = Generic) && enable_overwrite_detection j && negb (file_confirmed j)
  then (Ok None, j) else
  let n := u64 (file_num j) in
  let past_end := match data_source j with FilePath _ => len (files j) <=? n | _ => false end in
  if past_end then (Ok None, with_stream j None) else
  let nm := match data_source j with
            | FilePath p =>
              let nm := match entry_at j n with Some e => name e | None => "" end in
              if (len (files j) =? 1) && String.eqb nm "" then path_file_name p else nm
            | MemoryCursor _ _ => ""
            end in
  match data_stream j with
  | None => (Err "data stream is None", j)
  | Some s =>
    match fill (S (length (stream_rest fs s))) fs s [] with
    | (Err e, _) => (Err e, next_file j)
    | (Ok buf, s) =>
      let is_mem := match data_source j with MemoryCursor _ _ => true | _ => false end in
      match buf with
      | [] =>
        if is_mem then (Ok None, with_stream j None)
        else (Ok (Some (mkBlock (id j) (i32 n) [] false)), next_file j)
      | _ =>
        let tmp := zcompress buf in
        let use := negb is_mem && negb (is_compressed_file nm) && (len tmp <? len buf) in
        let data := if use then tmp else buf in
        let j := with_stream j (Some s) in
        (Ok (Some (mkBlock (id j) (i32 n) data use)),
         with_counts j (u64 (finished_size j + len buf)) (u64 (transferred j + len data)))
      end
    end
  end.

(** ** Status, skipping, confirming *)

Definition job_skipped (j : TransferJob) : bool := file_skipped j && (len (files j) =? 1).

Definition job_completed (j : TransferJob) : bool :=
  negb (enable_overwrite_detection j) || (negb (file_confirmed j) && negb (file_is_waiting j)).

Definition job_error (j : TransferJob) : option string :=
  if job_skipped j then Some "skipped" else None.

Definition set_file_skipped (j : TransferJob) : TransferJob :=
  let j := with_stream j None in
  let j := set_file_confirmed j false in
  let j := set_file_is_waiting j false in
  let j := with_file_num j (i32 (file_num j + 1)) in
  with_flags j (file_confirmed j) true (file_is_waiting j).

(** [set_stream_offset]; indexing [files] panics out of range. *)
Definition set_stream_offset (j : TransferJob) (n offset : Z) (fs : FS) : outcome TransferJob :=
  match data_source j with
  | FilePath p =>
    match entry_at j n with
    | None => Panic
    | Some e =>
      let path := join p (name e) in
      let open_at q :=
        let j := with_stream j (Some (FileStream q offset)) in
        Done (with_counts j (u64 (finished_size j + offset)) (u64 (transferred j + offset))) in
      match paths fs !! download_path path, paths fs !! digest_path path with
      | Some i, Some _ => open_at i
      | _, _ =>
        match paths fs !! path with
        | Some i => open_at i
        | None => Done j
        end
      end
    end
  | MemoryCursor _ _ => Done j
  end.

Definition confirm (j : TransferJob) (r : FileTransferSendConfirmRequest) (fs : FS)
  : outcome TransferJob :=
  if negb (file_num j =? c_file_num r) then Done j
  else match c_union r with
       | Some (Skip s) => Done (if s then set_file_skipped j else set_file_confirmed j true)
       | Some (OffsetBlk offset) =>
         let j := set_file_confirmed j true in
         if 0 <? offset then set_stream_offset j (u64 (c_file_num r)) offset fs else Done j
       | None => Done j
       end.

(** ** Job lists and the scheduler *)

Fixpoint remove_job (i : Z) (jobs : list TransferJob) : option TransferJob * list TransferJob :=
  match jobs with
  | [] => (None, [])
  | j :: jobs =>
    if id j =? i then (Some j, jobs)
    else let '(r, jobs) := remove_job i jobs in (r, j :: jobs)
  end.

Definition get_job (i : Z) (jobs : list TransferJob) : option TransferJob :=
  list_find (fun j => id j = i) jobs ≫= fun p => Some p.2.

Fixpoint init_jobs (jobs : list TransferJob) (fs : FS) (out : list Msg) : list TransferJob * list Msg :=
  match jobs with
  | [] => ([], out)
  | j :: jobs =>
    let '(j, out) :=
      if is_last_job j then (j, out)
      else match init_data_stream j fs out with
           | (Ok _, j, out) => (j, out)
           | (Err e, j, out) => (j, out ++ [MsgError (id j) e (file_num j)])
           end in
    let '(jobs, out) := init_jobs jobs fs out in (j :: jobs, out)
  end.

(** The loop of [handle_read_jobs]: it serves the first job that is not left
    over from an earlier session and stops. The ids in the third component
    are the finished jobs. *)
Fixpoint serve_first (jobs : list TransferJob) (fs : FS) (out : list Msg)
  : list TransferJob * list Msg * list Z :=
  match jobs with
  | [] => ([], out, [])
  | j :: jobs =>
    if is_last_job j then
      let '(jobs, out, fin) := serve_first jobs fs out in (j :: jobs, out, fin)
    else
      match read j fs with
      | (Err e, j) => (j :: jobs, out ++ [MsgError (id j) e (file_num j)], [])
      | (Ok (Some b), j) => (j :: jobs, out ++ [MsgBlock b], [])
      | (Ok None, j) =>
        if job_completed j then
          let m := match job_error j with
                   | Some err => MsgError (id j) err (file_num j)
                   | None => MsgDone (id j) (file_num j)
                   end in
          (j :: jobs, out ++ [m], [id j])
        else (j :: jobs, out, [])
      end
  end.

Definition handle_read_jobs (jobs : list TransferJob) (fs : FS) : list TransferJob * list Msg :=
  let '(jobs, out) := init_jobs jobs fs [] in
  let '(jobs, out, finished) := serve_first jobs fs out in
  (fold_left (fun jobs i => (remove_job i jobs).2) finished jobs, out).

(** ** Overwrite detection on the receiving side *)

Inductive DigestCheckResult : Type :=
| IsSame
| NeedConfirm (d : FileTransferDigest)
| NoSuchFile.

(** [parse_digest] reads a stored [.digest] file. *)
Definition is_write_need_confirmation (parse_digest : list Z -> option FileDigest)
  (resume : bool) (path : string) (d : FileTransferDigest) (fs : FS) : DigestCheckResult :=
  let existing :=
    match fs_get fs path with
    | Some n =>
      let is_identical :=
        (td_last_modified d * 10 ^ 9 =? mtime n) && (td_file_size d =? len (content n)) in
      NeedConfirm (mkDigest (td_id d) (td_file_num d) (mtime n / 10 ^ 9) (len (content n))
                     is_identical 0 false)
    | None => NoSuchFile
    end in
  match resume, fs_get fs (digest_path path), fs_get fs (download_path path) with
  | true, Some dg, Some dl =>
    match parse_digest (content dg) with
    | Some local =>
      if (d_modified local =? td_last_modified d) && (d_size local =? td_file_size d) then
        let transferred_size := len (content dl) in
        if 0 <? transferred_size then
          NeedConfirm (mkDigest (td_id d) (td_file_num d) (td_last_modified d) (td_file_size d)
                         true transferred_size false)
        else existing
      else existing
    | None => existing
    end
  | _, _, _ => existing
  end.

Definition transform_windows_path (fl : list FileEntry) : list FileEntry :=
  map (fun e => mkFileEntry (entry_type e)
        (String.string_of_list_ascii (map (fun c => if Ascii.eqb c "\" then "/"%char else c)
           (String.list_ascii_of_string (name e))))
        (is_hidden e) (size e) (modified_time e)) fl.

(** ** The controlling side's handling of file responses
    ([src/client/io_loop.rs]): a block goes to the job with its id, whose
    error is ignored; [Done] removes the job and finishes its last file. *)

Fixpoint on_block (jobs : list TransferJob) (b : FileTransferBlock) (fs : FS) : list TransferJob * FS :=
  match jobs with
  | [] => ([], fs)
  | j :: jobs =>
    if id j =? b_id b then let '(_, j, fs) := write j b fs in (j :: jobs, fs)
    else let '(jobs, fs) := on_block jobs b fs in (j :: jobs, fs)
  end.

Definition on_done (jobs : list TransferJob) (i : Z) (fs : FS)
  : option TransferJob * list TransferJob * FS :=
  match remove_job i jobs with
  | (Some j, jobs) => (Some j, jobs, modify_time j fs)
  | (None, jobs) => (None, jobs, fs)
  end.

End Transfer.
End Transfer.
