(* ===== verification/FileTransferProofs.v ===== *)
(** * Correctness of file transfer

    The end-to-end theorem: a read job on one host, served by
    [handle_read_jobs], and a write job on the other, fed with its messages,
    copy every listed file.  Then the error paths: what an unreadable or
    uncreatable file does to a job. *)

From S2P Require Import Prelude RustStr FileTransfer.

Import Transfer.

(** ** File system lemmas *)

(** Every named inode has been allocated, and no two paths share one. *)
Definition fs_wf (fs : FS) : Prop :=
  (forall p i, paths fs !! p = Some i -> (i < next_ino fs)%nat) /\
  (forall p q i, paths fs !! p = Some i -> paths fs !! q = Some i -> p = q).

Lemma fs_wf_unlink fs p : fs_wf fs -> fs_wf (fs_unlink fs p).
Proof.
  intros [H1 H2]. split; cbn; intros *; rewrite ?lookup_delete_Some; naive_solver.
Qed.

Lemma fs_wf_update fs i n : fs_wf fs -> fs_wf (fs_update fs i n).
Proof. done. Qed.

Lemma fs_wf_rename fs a b : fs_wf fs -> fs_wf (fs_rename fs a b).
Proof.
  intros [H1 H2]. unfold fs_rename. destruct (paths fs !! a) as [i|] eqn:Ha; [|done].
  split; cbn; intros *; rewrite ?lookup_insert_Some, ?lookup_delete_Some; naive_solver.
Qed.

Lemma fs_wf_create fs p t : fs_wf fs -> fs_wf (fs_create fs p t).1.
Proof.
  intros [H1 H2]. unfold fs_create. destruct (paths fs !! p) as [i|] eqn:Hp; [done|].
  split; cbn; intros *; rewrite ?lookup_insert_Some.
  - intros [[<- <-]|[_ H]]; [lia|]. apply H1 in H. lia.
  - intros [[<- <-]|[? Hp1]] [[<- Hi]|[? Hq]]; try done.
    + apply H1 in Hq. lia.
    + subst. apply H1 in Hp1. lia.
    + eauto.
Qed.

Lemma fs_wf_set_mtime fs p t : fs_wf fs -> fs_wf (fs_set_mtime fs p t).
Proof.
  intros H. unfold fs_set_mtime. destruct (paths fs !! p) as [i|]; [|done].
  by destruct (nodes fs !! i).
Qed.

Lemma fs_wf_write_file fs p d t : fs_wf fs -> fs_wf (fs_write_file fs p d t).
Proof.
  intros H. unfold fs_write_file. pose proof (fs_wf_create fs p t H).
  destruct (fs_create fs p t). by apply fs_wf_update.
Qed.

#[export] Hint Resolve fs_wf_unlink fs_wf_update fs_wf_rename fs_wf_create fs_wf_set_mtime
  fs_wf_write_file : fsdb.

Lemma fs_get_unlink fs p q : fs_get (fs_unlink fs p) q = if decide (p = q) then None else fs_get fs q.
Proof. unfold fs_get. cbn. rewrite lookup_delete. by case_decide. Qed.

Lemma fs_get_rename fs a b q n :
  fs_get fs a = Some n -> a <> b ->
  fs_get (fs_rename fs a b) q =
  if decide (q = b) then Some n else if decide (q = a) then None else fs_get fs q.
Proof.
  unfold fs_get, fs_rename. intros H Hab. destruct (paths fs !! a) as [i|] eqn:Ha; [|done].
  cbn in *. rewrite lookup_insert, lookup_delete. repeat case_decide; subst; try done.
Qed.

Lemma fs_get_rename_ne fs a b q : q <> a -> q <> b -> fs_get (fs_rename fs a b) q = fs_get fs q.
Proof.
  intros Ha Hb. unfold fs_get, fs_rename. destruct (paths fs !! a); [|done]. cbn.
  by rewrite lookup_insert_ne, lookup_delete_ne.
Qed.

Lemma fs_get_update_ne fs p q i n :
  fs_wf fs -> paths fs !! p = Some i -> q <> p -> fs_get (fs_update fs i n) q = fs_get fs q.
Proof.
  intros [_ Hinj] Hp Hq. unfold fs_get. cbn. destruct (paths fs !! q) as [k|] eqn:Hk; [|done]. cbn.
  rewrite lookup_insert_ne; [done|]. intros <-. by apply Hq, (Hinj _ _ _ Hk Hp).
Qed.

Lemma fs_get_update_eq fs p i n : paths fs !! p = Some i -> fs_get (fs_update fs i n) p = Some n.
Proof. intros Hp. unfold fs_get. cbn. rewrite Hp. cbn. apply lookup_insert_eq. Qed.

Lemma fs_create_path fs p t : paths (fs_create fs p t).1 !! p = Some (fs_create fs p t).2.
Proof.
  unfold fs_create. destruct (paths fs !! p) eqn:E; cbn; [done|]. apply lookup_insert_eq.
Qed.

Lemma fs_create_node fs p t : nodes (fs_create fs p t).1 !! (fs_create fs p t).2 = Some (mkFileNode [] t).
Proof. unfold fs_create. destruct (paths fs !! p); cbn; apply lookup_insert_eq. Qed.

Lemma fs_get_create_ne fs p q t : fs_wf fs -> q <> p -> fs_get (fs_create fs p t).1 q = fs_get fs q.
Proof.
  intros [Hlt Hinj] Hq. unfold fs_create. destruct (paths fs !! p) as [i|] eqn:E.
  - apply (fs_get_update_ne fs p q i); [by split|done|done].
  - unfold fs_get. cbn. rewrite lookup_insert_ne by done.
    destruct (paths fs !! q) as [k|] eqn:Hk; [|done]. cbn. rewrite lookup_insert_ne; [done|].
    apply Hlt in Hk. lia.
Qed.

Lemma fs_get_write_file_ne fs p q d t : fs_wf fs -> q <> p -> fs_get (fs_write_file fs p d t) q = fs_get fs q.
Proof.
  intros Hwf Hq. unfold fs_write_file.
  pose proof (fs_create_path fs p t) as Hp. pose proof (fs_wf_create fs p t Hwf) as Hw.
  pose proof (fs_get_create_ne fs p q t Hwf Hq) as He.
  destruct (fs_create fs p t) as [fs' i]. cbn in *. by rewrite (fs_get_update_ne fs' p q i).
Qed.

Lemma fs_write_file_path_ne fs p q d t : q <> p -> paths (fs_write_file fs p d t) !! q = paths fs !! q.
Proof.
  intros Hq. unfold fs_write_file, fs_create. destruct (paths fs !! p); cbn; [done|].
  by rewrite lookup_insert_ne.
Qed.

Lemma fs_write_file_node_ne fs p q i d t :
  fs_wf fs -> paths fs !! q = Some i -> q <> p -> nodes (fs_write_file fs p d t) !! i = nodes fs !! i.
Proof.
  intros [Hlt Hinj] Hi Hq. unfold fs_write_file, fs_create. destruct (paths fs !! p) as [k|] eqn:E; cbn.
  - assert (k <> i) by (intros ->; by apply Hq, (Hinj _ _ _ Hi E)).
    by rewrite !lookup_insert_ne.
  - assert (next_ino fs <> i) by (apply Hlt in Hi; lia).
    by rewrite !lookup_insert_ne.
Qed.

Lemma fs_get_set_mtime fs p t n :
  fs_get fs p = Some n -> fs_get (fs_set_mtime fs p t) p = Some (mkFileNode (content n) t).
Proof.
  unfold fs_get, fs_set_mtime. destruct (paths fs !! p) as [i|] eqn:Hp; [|done]. cbn.
  intros ->. cbn. rewrite Hp. cbn. apply lookup_insert_eq.
Qed.

Lemma fs_get_set_mtime_ne fs p q t : fs_wf fs -> q <> p -> fs_get (fs_set_mtime fs p t) q = fs_get fs q.
Proof.
  intros Hwf Hq. unfold fs_set_mtime. destruct (paths fs !! p) as [i|] eqn:Hp; [|done].
  destruct (nodes fs !! i) as [n|]; [|done]. by apply (fs_get_update_ne fs p q i).
Qed.

Lemma splice_end w d : splice w (len w) d = w ++ d.
Proof.
  unfold splice, len. rewrite Nat2Z.id, take_ge by lia.
  rewrite drop_ge by lia. by rewrite app_nil_r.
Qed.

(** ** Reading: the fill loop *)

(** Documented behaviour of [AsyncRead::read] on a file: a successful call
    returns at most as much as was asked for and as is left, and returns 0
    only at the end. *)
Definition os_read_ok (os_read : list Z -> Z -> result nat string) : Prop :=
  forall rest cap n, 0 < cap -> os_read rest cap = Ok n ->
    (n <= length rest)%nat /\ Z.of_nat n <= cap /\ (n = 0%nat <-> rest = []).

Definition os_read_total (os_read : list Z -> Z -> result nat string) : Prop :=
  forall rest cap, exists n, os_read rest cap = Ok n.

Definition stream_pos (s : DataStream) : Z :=
  match s with FileStream _ pos => pos | BufStream _ pos => pos end.

Lemma stream_rest_advance fs s n :
  0 <= stream_pos s -> stream_rest fs (stream_advance s n) = drop n (stream_rest fs s).
Proof.
  intros H. destruct s as [i pos|buf pos]; cbn in *; rewrite drop_drop; f_equal; lia.
Qed.

Lemma stream_advance_advance s n m :
  stream_advance (stream_advance s n) m = stream_advance s (n + m).
Proof. destruct s; cbn; f_equal; lia. Qed.

(** Short reads do not matter: the loop collects exactly the next
    [min BUF_SIZE rest] bytes. *)
Lemma fill_spec os_read fuel fs s buf :
  os_read_ok os_read -> os_read_total os_read -> 0 <= stream_pos s ->
  len buf < BUF_SIZE -> (length (stream_rest fs s) < fuel)%nat ->
  exists n, fill os_read fuel fs s buf =
    (Ok (buf ++ take n (stream_rest fs s)), stream_advance s n) /\
    n = Nat.min (Z.to_nat (BUF_SIZE - len buf)) (length (stream_rest fs s)).
Proof.
  intros Hok Htot. revert s buf. induction fuel as [|fuel IH]; intros s buf Hp Hb Hf; [lia|].
  cbn [fill]. set (rest := stream_rest fs s) in *.
  destruct (Htot rest (BUF_SIZE - len buf)) as [n Hn]. rewrite Hn.
  destruct (Hok rest (BUF_SIZE - len buf) n ltac:(lia) Hn) as (H1 & H2 & H3).
  destruct (Nat.eqb n 0) eqn:E0.
  - apply Nat.eqb_eq in E0. subst n. destruct H3 as [H3 _]. specialize (H3 eq_refl).
    exists 0%nat. cbn [orb]. split; [done|]. rewrite H3. cbn. lia.
  - apply Nat.eqb_neq in E0. cbn [orb].
    assert (len (buf ++ take n rest) = len buf + Z.of_nat n) as Hl
      by (rewrite len_app; unfold len; rewrite length_take; lia).
    destruct (len (buf ++ take n rest) =? BUF_SIZE) eqn:E1; zbool.
    + exists n. split; [done|]. lia.
    + destruct (IH (stream_advance s n) (buf ++ take n rest)) as (m & Hm & Hmin).
      { destruct s; cbn in *; lia. } { lia. }
      { rewrite stream_rest_advance, length_drop by done. fold rest. lia. }
      exists (n + m)%nat. rewrite Hm, stream_rest_advance, stream_advance_advance by done. fold rest.
      split; [|rewrite stream_rest_advance, length_drop in Hmin by done; fold rest in Hmin; lia].
      rewrite <- app_assoc. do 3 f_equal.
      rewrite <- (take_drop n rest) at 3. rewrite take_app_add' by (rewrite length_take; lia). done.
Qed.

(** ** Two hosts *)

Lemma not_in3 (q a b c : string) : q ∉ [a; b; c] -> q <> a /\ q <> b /\ q <> c.
Proof. set_solver. Qed.

Lemma nodup3 (a b c : string) : NoDup [a; b; c] -> a <> b /\ a <> c /\ b <> c.
Proof. rewrite !NoDup_cons. set_solver. Qed.

Lemma in3 (a b c : string) : a ∈ [a; b; c] /\ b ∈ [a; b; c] /\ c ∈ [a; b; c].
Proof. set_solver. Qed.

Module Delivery.

Section Delivery.

Context (os_read : list Z -> Z -> result nat string) (can_create : string -> bool).
Context (zcompress zdecompress : list Z -> list Z).
Context (now : Z) (digest_json : FileDigest -> list Z).
(** Reading a stored digest, and whether both sides can resume. *)
Context (parse_digest : list Z -> option FileDigest) (can_resume : bool).

Abbreviation h_read_jobs := (handle_read_jobs os_read zcompress).
Abbreviation h_block := (on_block can_create zdecompress now digest_json).
Abbreviation h_write := (write can_create zdecompress now digest_json).

(** What the receiving side answers to a digest: it asks for the file from an
    offset, skips it, or asks its user ([None]). *)
Definition digest_answer (j : TransferJob) (d : FileTransferDigest) (fs : FS) : option FileTransferSendConfirmRequest :=
  match entry_at j (u64 (td_file_num d)), data_source j with
  | Some file, FilePath p =>
    let path := join p (name file) in
    let request d u := Some (mkConfirm (td_id d) (td_file_num d) (Some u)) in
    match is_write_need_confirmation parse_digest (can_resume && is_resume j) path d fs with
    | IsSame => request d (Skip true)
    | NoSuchFile => request d (OffsetBlk 0)
    | NeedConfirm d' =>
      let resume := td_is_identical d' && is_resume j && (0 <? td_transferred_size d') in
      match (if resume then Some true else default_overwrite_strategy j) with
      | Some true => request d' (OffsetBlk (if resume then u32 (td_transferred_size d') else 0))
      | Some false => request d' (Skip true)
      | None => None
      end
    end
  | _, _ => None
  end.

(** A digest arrives: the answer, which the receiving job follows as well. *)
Fixpoint on_digest (jobs : list TransferJob) (d : FileTransferDigest) (fs : FS)
  : outcome (list TransferJob * list FileTransferSendConfirmRequest) :=
  match jobs with
  | [] => Done ([], [])
  | j :: jobs =>
    if id j =? td_id d then
      match digest_answer j d fs with
      | Some req =>
        match confirm (set_digest j (td_file_size d) (td_last_modified d)) req fs with
        | Done j => Done (j :: jobs, [req])
        | Panic => Panic
        end
      | None => Done (match entry_at j (u64 (td_file_num d)), data_source j with
                      | Some _, FilePath _ => set_digest j (td_file_size d) (td_last_modified d)
                      | _, _ => j
                      end :: jobs, [])
      end
    else
      match on_digest jobs d fs with Done (jobs, r) => Done (j :: jobs, r) | Panic => Panic end
  end.

(** The sending side follows the answers. *)
Fixpoint on_confirm (jobs : list TransferJob) (r : FileTransferSendConfirmRequest) (fs : FS) : outcome (list TransferJob) :=
  match jobs with
  | [] => Done []
  | j :: jobs =>
    if id j =? c_id r then match confirm j r fs with Done j => Done (j :: jobs) | Panic => Panic end
    else match on_confirm jobs r fs with Done jobs => Done (j :: jobs) | Panic => Panic end
  end.

Fixpoint on_confirms (rs : list FileTransferSendConfirmRequest) (jobs : list TransferJob) (fs : FS)
  : outcome (list TransferJob) :=
  match rs with
  | [] => Done jobs
  | r :: rs => match on_confirm jobs r fs with Done jobs => on_confirms rs jobs fs | Panic => Panic end
  end.

(** Deliver the messages of one scheduler round: the answers to digests, and
    the job that [Done] ends. *)
Fixpoint deliver (out : list Msg) (jobs : list TransferJob) (fs : FS)
  : outcome (list TransferJob * FS * list FileTransferSendConfirmRequest * option TransferJob) :=
  match out with
  | [] => Done (jobs, fs, [], None)
  | MsgBlock b :: out => let '(jobs, fs) := h_block jobs b fs in deliver out jobs fs
  | MsgDone i _ :: out => let '(j, jobs, fs) := on_done jobs i fs in Done (jobs, fs, [], j)
  | MsgDigest d :: out =>
    match on_digest jobs d fs with
    | Done (jobs, r) =>
      match deliver out jobs fs with Done (jobs, fs, rs, j) => Done (jobs, fs, r ++ rs, j) | Panic => Panic end
    | Panic => Panic
    end
  | MsgError _ _ _ :: out => deliver out jobs fs
  end.

(** Rounds until [Done] arrives: the sender's jobs and file system, then the
    receiver's.  [None] when the rounds run out or a side panics. *)
Fixpoint transfer (fuel : nat) (sjobs : list TransferJob) (sfs : FS) (rjobs : list TransferJob) (rfs : FS)
  : option (list TransferJob * list TransferJob * TransferJob * FS) :=
  match fuel with
  | O => None
  | S fuel =>
    let '(sjobs, out) := h_read_jobs sjobs sfs in
    match deliver out rjobs rfs with
    | Done (rjobs, rfs, rs, fin) =>
      match fin, on_confirms rs sjobs sfs with
      | Some j, _ => Some (sjobs, rjobs, j, rfs)
      | None, Done sjobs => transfer fuel sjobs sfs rjobs rfs
      | None, Panic => None
      end
    | Panic => None
    end
  end.

(** ** Assumptions of a transfer *)

Context (Hos : os_read_ok os_read) (Hos' : os_read_total os_read).
Context (Hz : forall d, d <> [] -> zdecompress (zcompress d) = d).

Context (jid : Z) (src dst : string) (fl : list FileEntry).
Context (sfs : FS) (contents : list (list Z)).

Definition spath (e : FileEntry) : string := join src (name e).
Definition rpath (e : FileEntry) : string := join dst (name e).
Definition slots (e : FileEntry) : list string :=
  [rpath e; download_path (rpath e); digest_path (rpath e)].

(** The files exist on the sender with these contents. *)
Context (Hsrc : Forall2 (fun e c => exists i t, paths sfs !! spath e = Some i /\
                           nodes sfs !! i = Some (mkFileNode c t)) fl contents).
Context (Hlen : len fl < 2 ^ 31).
(** Whether the sending job has overwrite detection. *)
Context (detect : bool).
(** The receiver's final, download and digest paths do not collide. *)
Context (Hslots : NoDup (fl ≫= slots)).
Context (Hcreate : forall e, e ∈ fl -> can_create (download_path (rpath e)) = true).

Lemma slots_inj i j e e' x :
  fl !! i = Some e -> fl !! j = Some e' -> x ∈ slots e -> x ∈ slots e' -> i = j.
Proof using Hslots.
  revert i j Hslots. clear. induction fl as [|a l IH]; intros i j Hnd Hi Hj Hx Hx'; [done|].
  cbn [mbind list_bind] in Hnd. apply NoDup_app in Hnd as (H1 & H2 & H3).
  destruct i as [|i], j as [|j]; cbn in Hi, Hj; simplify_eq; auto.
  - exfalso. apply (H2 x Hx). apply list_elem_of_bind. exists e'. split; [done|].
    by eapply list_elem_of_lookup_2.
  - exfalso. apply (H2 x Hx'). apply list_elem_of_bind. exists e. split; [done|].
    by eapply list_elem_of_lookup_2.
Qed.

Lemma slots_nodup i e : fl !! i = Some e -> NoDup (slots e).
Proof using Hslots.
  revert i Hslots. clear. induction fl as [|a l IH]; intros i Hnd Hi; [done|].
  cbn [mbind list_bind] in Hnd. apply NoDup_app in Hnd as (H1 & H2 & H3).
  destruct i as [|i]; cbn in Hi; simplify_eq; eauto.
Qed.

Lemma slots_ne i e :
  fl !! i = Some e ->
  rpath e <> download_path (rpath e) /\ rpath e <> digest_path (rpath e) /\
  download_path (rpath e) <> digest_path (rpath e).
Proof using Hslots.
  intros Hi. by apply nodup3, (slots_nodup i).
Qed.

(** ** The receiver *)

Definition rjob_ok (j : TransferJob) : Prop :=
  id j = jid /\ type j = Generic /\ data_source j = FilePath dst /\ files j = fl.

(** File [k] is complete under its final name. *)
Definition file_done (fs : FS) (k : nat) : Prop :=
  forall e c, fl !! k = Some e -> contents !! k = Some c ->
    fs_get fs (rpath e) = Some (mkFileNode c (modified_time e * 10 ^ 9)) /\
    fs_get fs (download_path (rpath e)) = None /\ fs_get fs (digest_path (rpath e)) = None.

Definition total_upto (k : nat) : Z := Z.of_nat (sum_list_with (fun c => length c) (take k contents)).

(** [w] of file [k] has been written to its download file. *)
Record receiving (k : nat) (w : list Z) (j : TransferJob) (fs : FS) : Prop := {
  rc_job : rjob_ok j;
  rc_num : file_num j = Z.of_nat k;
  rc_wf : fs_wf fs;
  rc_done : forall i, (i < k)%nat -> file_done fs i;
  rc_size : finished_size j = u64 (total_upto k + len w);
  rc_stream : exists e i t, fl !! k = Some e /\ data_stream j = Some (FileStream i (len w)) /\
    paths fs !! download_path (rpath e) = Some i /\ nodes fs !! i = Some (mkFileNode w t)
}.

(** Ready for the first block of file [k]. *)
Inductive ready : nat -> TransferJob -> FS -> Prop :=
| ready_first j fs :
    rjob_ok j -> file_num j = 0 -> data_stream j = None -> finished_size j = 0 -> fs_wf fs ->
    ready 0 j fs
| ready_next k c j fs :
    contents !! k = Some c -> receiving k c j fs -> ready (S k) j fs.

Lemma u64_nat k : (k < length fl)%nat -> u64 (Z.of_nat k) = Z.of_nat k.
Proof using Hlen. intros H. apply wrap_small. unfold len in Hlen. lia. Qed.

Lemma length_contents : length contents = length fl.
Proof using Hsrc. symmetry. by eapply Forall2_length. Qed.

Lemma total_upto_S k c : contents !! k = Some c -> total_upto (S k) = total_upto k + len c.
Proof using.
  intros H. unfold total_upto. rewrite (take_S_r _ _ _ H), sum_list_with_app. cbn.
  unfold len. lia.
Qed.

(** [modify_time] touches only the paths of the job's current file. *)
Lemma modify_time_frame k e j fs q :
  rjob_ok j -> file_num j = Z.of_nat k -> fl !! k = Some e -> fs_wf fs -> q ∉ slots e ->
  fs_get (modify_time j fs) q = fs_get fs q /\ fs_wf (modify_time j fs).
Proof using Hlen.
  intros (Hid & Ht & Hd & Hf) Hn He Hwf Hq. unfold modify_time. rewrite Ht, Hd, Hf, Hn.
  rewrite decide_False by done. assert (k < length fl)%nat as Hk by (by eapply lookup_lt_Some).
  rewrite u64_nat by done. unfold len. rewrite (proj2 (Z.ltb_lt _ _)) by lia.
  unfold entry_at. rewrite Hf, Nat2Z.id, He. unfold slots in Hq.
  assert (q <> rpath e /\ q <> download_path (rpath e) /\ q <> digest_path (rpath e)) as (H1 & H2 & H3)
    by (by apply not_in3).
  split; [|eauto with fsdb].
  change (join dst (name e)) with (rpath e).
  rewrite fs_get_set_mtime_ne by eauto with fsdb.
  rewrite fs_get_rename_ne by done. rewrite fs_get_unlink. by rewrite decide_False.
Qed.

Lemma file_done_frame i k e fs fs' :
  fl !! k = Some e -> i <> k ->
  (forall q, q ∉ slots e -> fs_get fs' q = fs_get fs q) -> file_done fs i -> file_done fs' i.
Proof using Hslots.
  intros He Hik Hf Hd e' c Hi Hc. destruct (Hd e' c Hi Hc) as (H1 & H2 & H3).
  assert (forall q, q ∈ slots e' -> fs_get fs' q = fs_get fs q) as Hq.
  { intros q Hq. apply Hf. intros Hqe. by apply Hik, (slots_inj i k e' e q). }
  rewrite !Hq by apply in3. done.
Qed.

(** Finishing file [k]. *)
Lemma modify_time_done k c j fs :
  receiving k c j fs -> contents !! k = Some c ->
  fs_wf (modify_time j fs) /\ forall i, (i <= k)%nat -> file_done (modify_time j fs) i.
Proof using Hlen Hslots.
  intros [Hj Hn Hwf Hdone _ (e & ino & t & He & Hs & Hp & Hnode)] Hc.
  assert (forall q, q ∉ slots e -> fs_get (modify_time j fs) q = fs_get fs q) as Hfr
    by (intros q Hq; by eapply modify_time_frame).
  assert (fs_wf (modify_time j fs)) as Hwf'.
  { destruct (decide ("" ∈ slots e)) as [Hin|Hin].
    - clear Hfr. destruct Hj as (Hid & Ht & Hd & Hf). unfold modify_time. rewrite Ht, Hd, Hf, Hn.
      rewrite decide_False by done. destruct (_ <? _); [|done]. destruct (entry_at j _); eauto with fsdb.
    - by eapply modify_time_frame. }
  split; [done|]. intros i Hi. destruct (decide (i = k)) as [->|Hne]; cycle 1.
  { eapply file_done_frame; [done|exact Hne|exact Hfr|]. apply Hdone. lia. }
  intros e' c' He' Hc'. simplify_eq. destruct (slots_ne _ _ He) as (N1 & N2 & N3).
  destruct Hj as (Hid & Ht & Hd & Hf). unfold modify_time. rewrite Ht, Hd, Hf, Hn.
  rewrite decide_False by done. assert (k < length fl)%nat as Hk by (by eapply lookup_lt_Some).
  rewrite u64_nat by done. unfold len. rewrite (proj2 (Z.ltb_lt _ _)) by lia.
  unfold entry_at. rewrite Hf, Nat2Z.id, He.
  change (join dst (name e)) with (rpath e).
  assert (fs_get fs (download_path (rpath e)) = Some (mkFileNode c t)) as Hget
    by (unfold fs_get; rewrite Hp; exact Hnode).
  set (f1 := fs_unlink fs (digest_path (rpath e))).
  assert (fs_get f1 (download_path (rpath e)) = Some (mkFileNode c t)) as H1.
  { unfold f1. rewrite fs_get_unlink. rewrite decide_False by congruence. done. }
  assert (fs_wf f1) as W1 by (unfold f1; eauto with fsdb).
  split_and!.
  - rewrite (fs_get_set_mtime _ _ _ (mkFileNode c t)); [done|].
    rewrite (fs_get_rename _ _ _ _ _ H1) by congruence. by rewrite decide_True.
  - rewrite fs_get_set_mtime_ne by (eauto with fsdb; congruence).
    rewrite (fs_get_rename _ _ _ _ _ H1) by congruence. rewrite decide_False by congruence.
    by rewrite decide_True.
  - rewrite fs_get_set_mtime_ne by (eauto with fsdb; congruence).
    rewrite fs_get_rename_ne by congruence. unfold f1. rewrite fs_get_unlink. by rewrite decide_True.
Qed.

(** What of the receiving side a block of file [k] leaves as it is: the job's
    way to answer digests, and the final paths of later files. *)
Definition unchanged (k : nat) (j : TransferJob) (fs : FS) (j' : TransferJob) (fs' : FS) : Prop :=
  is_resume j' = is_resume j /\ default_overwrite_strategy j' = default_overwrite_strategy j
  /\ forall i e, (k < i)%nat -> fl !! i = Some e -> fs_get fs' (rpath e) = fs_get fs (rpath e).

Lemma other_slot k i e e' : fl !! k = Some e -> fl !! i = Some e' -> i <> k -> rpath e' ∉ slots e.
Proof using Hslots. intros He He' Hne Hin. apply Hne. apply (slots_inj i k e' e (rpath e')); [done|done|apply in3|done]. Qed.

Lemma ready_later k j fs i e :
  ready k j fs -> fl !! i = Some e -> (k < i)%nat -> fs_get (modify_time j fs) (rpath e) = fs_get fs (rpath e).
Proof using Hlen Hslots.
  intros Hr He Hi. inversion Hr as [j' fs' Hj Hn Hs Hfin Hwf|k' c j' fs' Hc Hrec]; subst.
  - destruct (lookup_lt_is_Some_2 fl 0) as [e0 H0]; [apply lookup_lt_Some in He; lia|].
    eapply (modify_time_frame 0 e0); [done|exact Hn|done|done|]. eapply other_slot; [done|done|lia].
  - destruct Hrec as [Hj Hn Hwf _ _ (e' & _ & _ & He' & _)].
    eapply modify_time_frame; [done|done|done|done|]. eapply other_slot; [done|done|lia].
Qed.

Lemma ready_modified k j fs e :
  ready k j fs -> fl !! k = Some e ->
  rjob_ok j /\ fs_wf (modify_time j fs) /\ (forall i, (i < k)%nat -> file_done (modify_time j fs) i) /\
  finished_size j = u64 (total_upto k) /\
  (negb (u64 (Z.of_nat k) =? u64 (file_num j)) ||
     match data_stream j with None => true | Some _ => false end = true).
Proof using Hlen Hslots.
  intros Hr He. inversion Hr as [j' fs' Hj Hn Hs Hfin Hwf|k' c j' fs' Hc Hrec]; subst.
  - split; [done|]. split.
    { unfold modify_time. destruct Hj as (_ & -> & -> & _). rewrite decide_False by done.
      destruct (_ <? _); [|done]. destruct (entry_at j _); eauto with fsdb. }
    split; [lia|]. rewrite Hs, Hfin. split; [done|]. apply orb_true_r.
  - destruct (modify_time_done _ _ _ _ Hrec Hc) as [Hwf Hd]. destruct Hrec as [Hj Hn _ _ Hsz (e' & _ & _ & He' & _)].
    split; [done|]. split; [done|]. split; [intros i Hi; apply Hd; lia|].
    rewrite Hsz, (total_upto_S _ _ Hc). split; [done|].
    rewrite Hn, !u64_nat by (by eapply lookup_lt_Some).
    rewrite (proj2 (Z.eqb_neq _ _)) by lia. done.
Qed.

(** The first block of a file opens its download file. *)
Lemma write_open_starts k j fs e :
  ready k j fs -> fl !! k = Some e ->
  exists j' fs', write_open can_create now digest_json j dst (Z.of_nat k) fs = (Ok tt, j', fs') /\
    receiving k [] j' fs' /\ unchanged k j fs j' fs'.
Proof using Hlen Hslots Hcreate.
  intros Hr He. pose proof (ready_later k j fs) as Hlat. assert (k < length fl)%nat as Hk by (by eapply lookup_lt_Some).
  destruct (ready_modified _ _ _ _ Hr He) as ((Hid & Ht & Hd & Hf) & Hwf & Hdone & Hsz & Hcond).
  unfold write_open. rewrite Hf, Hcond. rewrite u64_nat by done.
  unfold len at 1. rewrite (proj2 (Z.leb_gt _ _)) by lia.
  unfold entry_at. cbn [files with_file_num type digest with_stream].
  rewrite Hf, Nat2Z.id, He, Ht, decide_False by done.
  change (join dst (name e)) with (rpath e).
  rewrite Hcreate by (by eapply list_elem_of_lookup_2).
  set (f0 := modify_time j fs) in *. set (f1 := fs_unlink f0 (digest_path (rpath e))).
  assert (fs_wf f1) as W1 by (unfold f1; eauto with fsdb).
  pose proof (fs_create_path f1 (download_path (rpath e)) now) as Hcp.
  pose proof (fs_create_node f1 (download_path (rpath e)) now) as Hcn.
  pose proof (fs_wf_create f1 (download_path (rpath e)) now W1) as W2.
  assert (forall q, q ∉ slots e -> fs_get (fs_create f1 (download_path (rpath e)) now).1 q = fs_get f0 q) as Hfr.
  { intros q Hq. apply not_in3 in Hq as (Q1 & Q2 & Q3). rewrite fs_get_create_ne by done.
    unfold f1. rewrite fs_get_unlink. by rewrite decide_False by congruence. }
  destruct (fs_create f1 (download_path (rpath e)) now) as [f2 i]. cbn [fst snd] in *.
  eexists _, _. split; [reflexivity|]. destruct (slots_ne _ _ He) as (N1 & N2 & N3).
  split; cycle 1.
  { split; [done|]. split; [done|]. intros x ex Hx Hex.
    pose proof (other_slot _ _ _ _ He Hex ltac:(lia)) as Hq.
    rewrite fs_get_write_file_ne; [|done|by apply not_in3 in Hq as (_ & _ & ?)].
    rewrite Hfr by done. by apply Hlat with (i := x). }
  constructor.
  - repeat split; done.
  - done.
  - eauto with fsdb.
  - intros x Hx. eapply (file_done_frame x k e f0); [done|lia| |by apply Hdone].
    intros q Hq. rewrite fs_get_write_file_ne; [by apply Hfr|done|by apply not_in3 in Hq as (_ & _ & ?)].
  - cbn [finished_size with_stream with_file_num]. rewrite Hsz. unfold len. cbn. by rewrite Z.add_0_r.
  - exists e, i, now. split; [done|]. split; [done|].
    rewrite fs_write_file_path_ne by done. split; [done|].
    by rewrite (fs_write_file_node_ne f2 _ (download_path (rpath e))).
Qed.

(** Every block of file [k] extends what has been written of it. *)
Lemma write_block k w j fs e b d :
  (ready k j fs /\ w = []) \/ receiving k w j fs -> fl !! k = Some e ->
  b_id b = jid -> b_file_num b = Z.of_nat k ->
  (if b_compressed b then zdecompress (b_data b) else b_data b) = d ->
  exists j' fs', h_write j b fs = (Ok tt, j', fs') /\ receiving k (w ++ d) j' fs' /\ unchanged k j fs j' fs'.
Proof using Hlen Hslots Hcreate.
  intros Hr He Hbid Hbn Hdec.
  assert (exists j1 fs1, write_open can_create now digest_json j dst (Z.of_nat k) fs = (Ok tt, j1, fs1) /\
            receiving k w j1 fs1 /\ unchanged k j fs j1 fs1) as (j1 & fs1 & Hopen & Hrec & U1 & U2 & U3).
  { destruct Hr as [[Hr ->]|Hr]; [by eapply write_open_starts|]. exists j, fs. split; [|done].
    destruct Hr as [(Hid & Ht & Hd & Hf) Hn _ _ _ (e' & i & t & He' & Hs & _)].
    unfold write_open. rewrite Hf, Hn, Hs.
    rewrite u64_nat by (by eapply lookup_lt_Some).
    apply lookup_lt_Some in He as Hk. unfold len at 1. rewrite (proj2 (Z.leb_gt _ _)) by lia.
    by rewrite Z.eqb_refl. }
  assert (rjob_ok j) as (Hid & Ht & Hd & Hf).
  { destruct Hr as [[Hr _]|Hr]; [|apply Hr]. by apply (ready_modified k j fs e). }
  unfold write. rewrite Hbid, Hid, Z.eqb_refl. cbn [negb]. rewrite Hd, Hbn, Hopen, Hdec.
  destruct Hrec as [(Hid1 & Ht1 & Hd1 & Hf1) Hn Hwf Hdone Hsz (e' & i & t & He' & Hs & Hp & Hnode)].
  simplify_eq. rewrite Hs. unfold stream_write. rewrite Hnode. cbn [content].
  rewrite splice_end. eexists _, _. split; [reflexivity|]. split; cycle 1.
  { split; [done|]. split; [done|]. intros x ex Hx Hex. rewrite <- (U3 x ex Hx Hex).
    apply (fs_get_update_ne fs1 (download_path (rpath e))); [done|done|].
    pose proof (other_slot _ _ _ _ He Hex ltac:(lia)) as Hq. by apply not_in3 in Hq as (_ & ? & _). }
  constructor.
  - repeat split; done.
  - done.
  - by apply fs_wf_update.
  - intros x Hx. eapply (file_done_frame x k e fs1); [done|lia| |by apply Hdone].
    intros q Hq. apply (fs_get_update_ne fs1 (download_path (rpath e))); [done|done|].
    by apply not_in3 in Hq as (_ & ? & _).
  - cbn [finished_size with_stream with_counts]. rewrite Hsz, len_app. unfold wrap.
    rewrite Z.add_mod_idemp_l by done. f_equal. lia.
  - exists e, i, now. cbn [data_stream with_counts with_stream]. rewrite len_app.
    split; [done|]. split; [done|]. split; [done|]. cbn. apply lookup_insert_eq.
Qed.

(** ** The sender *)

Definition sjob_ok (j : TransferJob) : Prop :=
  id j = jid /\ type j = Generic /\ data_source j = FilePath src /\ files j = fl /\
  enable_overwrite_detection j = detect /\ is_last_job j = false /\ file_skipped j = false.

(** The sender may read file [k], with [rest] still to read. *)
Definition sending (k : nat) (rest : list Z) (j : TransferJob) : Prop :=
  sjob_ok j /\ file_num j = Z.of_nat k /\
  exists c, contents !! k = Some c /\
  match data_stream j with
  | None => detect = false /\ rest = c
  | Some (FileStream i pos) =>
    (detect = true -> file_confirmed j = true) /\
    0 <= pos /\ exists t, nodes sfs !! i = Some (mkFileNode c t) /\ rest = drop (Z.to_nat pos) c
  | Some (BufStream _ _) => False
  end.

(** Just before file [k]. *)
Definition between (k : nat) (j : TransferJob) : Prop :=
  sjob_ok j /\ file_num j = Z.of_nat k /\ data_stream j = None
  /\ file_confirmed j = false /\ file_is_waiting j = false.

(** The receiver answers the digests of file [k] and the later ones by asking
    for them: its user has chosen to overwrite, or they are not there. *)
Definition asks_for (k : nat) (j : TransferJob) (fs : FS) : Prop :=
  is_resume j = false
  /\ (default_overwrite_strategy j = Some true
      \/ forall i e, (k <= i)%nat -> fl !! i = Some e -> fs_get fs (rpath e) = None).

Lemma source_at k c : contents !! k = Some c ->
  exists e i t, fl !! k = Some e /\ paths sfs !! spath e = Some i /\ nodes sfs !! i = Some (mkFileNode c t).
Proof using Hsrc.
  intros Hc. destruct (Forall2_lookup_r _ _ _ _ _ Hsrc Hc) as (e & He & i & t & Hp & Hn). eauto 10.
Qed.

Lemma between_sending k c j : detect = false -> between k j -> contents !! k = Some c -> sending k c j.
Proof using. intros Hdet (H1 & H2 & H3 & _) Hc. split; [done|]. split; [done|]. exists c. by rewrite H3. Qed.

Lemma asks_on k j fs j' fs' : asks_for k j fs -> unchanged k j fs j' fs' -> asks_for (S k) j' fs'.
Proof using.
  intros [Hr Ha] (U1 & U2 & U3). split; [congruence|]. destruct Ha as [Ha|Ha]; [left; congruence|right].
  intros i e Hi He. rewrite (U3 i e) by (done || lia). apply (Ha i); [lia|done].
Qed.

Lemma asks_more k j fs j' fs' : asks_for (S k) j fs -> unchanged k j fs j' fs' -> asks_for (S k) j' fs'.
Proof using.
  intros [Hr Ha] (U1 & U2 & U3). split; [congruence|]. destruct Ha as [Ha|Ha]; [left; congruence|right].
  intros i e Hi He. rewrite (U3 i e) by (done || lia). by apply (Ha i).
Qed.

(** After [open_data_stream] the stream is open. *)
Lemma open_sending k rest j :
  sending k rest j ->
  exists j' i pos c t, open_data_stream j sfs = (Ok false, j') /\ sjob_ok j' /\ file_num j' = Z.of_nat k /\
    (detect = true -> file_confirmed j' = true) /\
    data_stream j' = Some (FileStream i pos) /\ 0 <= pos /\ contents !! k = Some c /\
    nodes sfs !! i = Some (mkFileNode c t) /\ rest = drop (Z.to_nat pos) c.
Proof using Hsrc Hlen.
  intros ((Hid & Ht & Hd & Hf & Ho & Hl & Hsk) & Hn & c & Hc & Hs).
  destruct (source_at _ _ Hc) as (e & i & t & He & Hp & Hnode).
  assert (k < length fl)%nat as Hk by (by eapply lookup_lt_Some).
  unfold open_data_stream. rewrite Hn, u64_nat by done. rewrite Hd, Hf. unfold len.
  rewrite (proj2 (Z.leb_gt _ _)) by lia. destruct (data_stream j) as [[i' pos|]|] eqn:Hstream.
  - destruct Hs as (Hcf & Hpos & t' & Hn' & ->). exists j, i', pos, c, t'. repeat split; done.
  - done.
  - destruct Hs as [Hdet ->]. unfold entry_at. rewrite Hf, Nat2Z.id, He.
    change (join src (name e)) with (spath e). rewrite Hp.
    eexists _, i, 0, c, t. split; [reflexivity|]. repeat split; try done. congruence.
Qed.

Lemma i32_nat k : (k <= length fl)%nat -> i32 (Z.of_nat k) = Z.of_nat k.
Proof using Hlen.
  intros H. unfold len in Hlen. destruct (decide (Z.of_nat k = 2 ^ 31)); [|apply swrap_small; lia].
  lia.
Qed.

(** Reading is not held back by overwrite detection. *)
Definition may_read (j : TransferJob) : Prop :=
  bool_decide (type j = Generic) && enable_overwrite_detection j && negb (file_confirmed j) = false.

Lemma confirmed_may_read j : enable_overwrite_detection j = detect -> (detect = true -> file_confirmed j = true) -> may_read j.
Proof using. unfold may_read. intros -> H. destruct detect; [by rewrite H, andb_false_r|by rewrite andb_false_r]. Qed.

(** One [read]: either the next bytes of the file, or the end-of-file block. *)
Lemma read_block k rest j i pos c t :
  sjob_ok j -> file_num j = Z.of_nat k -> (detect = true -> file_confirmed j = true) ->
  data_stream j = Some (FileStream i pos) -> 0 <= pos ->
  contents !! k = Some c -> nodes sfs !! i = Some (mkFileNode c t) -> rest = drop (Z.to_nat pos) c ->
  exists b d rest' j', read os_read zcompress j sfs = (Ok (Some b), j') /\
    b_id b = jid /\ b_file_num b = Z.of_nat k /\
    (if b_compressed b then zdecompress (b_data b) else b_data b) = d /\ rest = d ++ rest' /\
    (rest = [] -> between (S k) j') /\
    (rest <> [] -> sending k rest' j' /\ (length rest' < length rest)%nat).
Proof using Hsrc Hlen Hos Hos' Hz.
  intros (Hid & Ht & Hd & Hf & Ho & Hl & Hsk) Hn Hcf Hs Hpos Hc Hnode Hrest.
  destruct (source_at _ _ Hc) as (e & _ & _ & He & _ & _).
  assert (k < length fl)%nat as Hk by (by eapply lookup_lt_Some).
  unfold read. rewrite (confirmed_may_read j Ho Hcf). rewrite Hn, u64_nat by done.
  rewrite Hd, Hf. unfold len at 1. rewrite (proj2 (Z.leb_gt _ _)) by lia. rewrite Hs.
  assert (stream_rest sfs (FileStream i pos) = rest) as Hsr by (cbn; by rewrite Hnode).
  destruct (fill_spec os_read (S (length (stream_rest sfs (FileStream i pos)))) sfs (FileStream i pos) [])
    as (n & Hfill & Hmin); [done|done|done|vm_compute; done|lia|].
  rewrite Hfill, Hsr. cbn [app]. rewrite i32_nat by lia.
  destruct (take n rest) as [|x buf] eqn:Etake.
  - assert (rest = []) as Hnil.
    { destruct rest as [|y rest]; [done|]. rewrite Hsr in Hmin. cbn [length] in Hmin.
      destruct n; [|done]. unfold BUF_SIZE, len in Hmin. cbn [length] in Hmin. lia. }
    eexists _, [], [], _. split; [reflexivity|]. cbn. split; [done|]. split; [done|]. split; [done|].
    split; [done|]. split; [|done]. intros _. unfold between, next_file, sjob_ok. cbn.
    rewrite Hn. replace (Z.of_nat k + 1) with (Z.of_nat (S k)) by lia.
    rewrite i32_nat by lia. repeat split; done.
  - set (bf := x :: buf) in *. set (use := negb false && _ && _).
    eexists _, bf, (drop n rest), _. split; [reflexivity|]. cbn [b_id b_file_num b_compressed b_data].
    split; [done|]. split; [done|]. split.
    { destruct use; [|done]. by apply Hz. }
    split; [by rewrite <- Etake, take_drop|]. split; [by intros ->; rewrite take_nil in Etake|].
    intros _. split; cycle 1.
    { rewrite length_drop. assert (n <> 0)%nat by (intros ->; done).
      assert (length rest <> 0)%nat by (intros E; apply length_zero_iff_nil in E; subst rest; rewrite E, take_nil in Etake; done).
      lia. }
    split; [repeat split; done|]. split; [done|]. exists c. split; [done|].
    cbn [data_stream with_counts with_stream stream_advance]. split; [done|]. split; [lia|]. exists t. split; [done|].
    rewrite Hrest, drop_drop. f_equal. lia.
Qed.

(** The round that opens file [k] under overwrite detection: its digest is
    sent, the receiver asks for the whole file, and both sides go on. *)
Lemma digest_round k c e rj rfs sj :
  detect = true -> between k sj -> fl !! k = Some e -> contents !! k = Some c -> ready k rj rfs -> asks_for k rj rfs ->
  exists sj' rj', (forall fuel, transfer (S fuel) [sj] sfs [rj] rfs = transfer fuel [sj'] sfs [rj'] rfs)
    /\ sending k c sj' /\ ready k rj' rfs /\ asks_for k rj' rfs.
Proof using Hsrc Hlen.
  intros Hdet ((Hid & Ht & Hd & Hf & Ho & Hl & Hsk) & Hn & Hs & Hcf & Hw) He Hc Hr [Hres Hask].
  destruct (source_at _ _ Hc) as (e' & i & t & He' & Hp & Hnode). assert (e' = e) as -> by congruence.
  assert (k < length fl)%nat as Hk by (by eapply lookup_lt_Some).
  assert (rjob_ok rj) as (Rid & Rt & Rd & Rf).
  { inversion Hr as [j' fs' Hj|k' c' j' fs' Hc' Hrec]; subst; [apply Hj|apply Hrec]. }
  set (d := mkDigest jid (Z.of_nat k) (t / 10 ^ 9) (len c) false 0 (is_resume sj)).
  set (sj1 := set_file_is_waiting (with_flags (with_stream sj (Some (FileStream i 0))) false (file_skipped sj) false) true).
  assert (Hround : h_read_jobs [sj] sfs = ([sj1], [MsgDigest d])).
  { unfold handle_read_jobs. cbn [init_jobs]. rewrite Hl. unfold init_data_stream, open_data_stream.
    rewrite Hn, u64_nat by done. rewrite Hd, Hf. unfold len at 1. rewrite (proj2 (Z.leb_gt _ _)) by lia.
    rewrite Hs. unfold entry_at. rewrite Hf, Nat2Z.id, He. change (join src (name e)) with (spath e). rewrite Hp.
    unfold needs_digest, send_current_digest, get_current_digest.
    cbn [type with_flags with_stream enable_overwrite_detection file_confirmed file_is_waiting data_stream id file_num is_resume].
    rewrite Ht, Ho, Hdet, Hnode, Hid, Hn. cbn [bool_decide decide_rel andb negb app].
    rewrite bool_decide_true by done. cbn [andb negb app mtime content]. fold d.
    cbn [serve_first is_last_job set_file_is_waiting with_flags with_stream]. rewrite Hl. unfold read.
    cbn [type with_flags with_stream enable_overwrite_detection file_confirmed set_file_is_waiting].
    rewrite Ht, Ho, Hdet, bool_decide_true by done. cbn [andb negb].
    unfold job_completed. cbn [enable_overwrite_detection file_confirmed file_is_waiting with_flags with_stream set_file_is_waiting].
    rewrite Ho, Hdet. done. }
  assert (Hans : digest_answer rj d rfs = Some (mkConfirm jid (Z.of_nat k) (Some (OffsetBlk 0)))).
  { unfold digest_answer. cbn [td_file_num d]. rewrite u64_nat by done. unfold entry_at.
    rewrite Rf, Nat2Z.id, He, Rd. change (join dst (name e)) with (rpath e). rewrite Hres, andb_false_r.
    unfold is_write_need_confirmation. destruct Hask as [Hask|Hask].
    - destruct (fs_get rfs (rpath e)); [|done]. cbn [td_is_identical td_transferred_size]. rewrite andb_false_r.
      cbn [andb]. by rewrite Hask.
    - by rewrite (Hask k e ltac:(lia) He). }
  set (rj1 := if file_num rj =? Z.of_nat k then set_file_confirmed (set_digest rj (len c) (t / 10 ^ 9)) true
              else set_digest rj (len c) (t / 10 ^ 9)).
  exists (set_file_confirmed sj1 true), rj1. split; [|split; [|split]].
  - intros fuel. cbn [transfer]. rewrite Hround. cbn [deliver on_digest]. rewrite Rid. cbn [td_id d].
    rewrite Z.eqb_refl. rewrite Hans. unfold confirm at 1. cbn [c_file_num c_union file_num set_digest td_file_size td_last_modified d].
    destruct (file_num rj =? Z.of_nat k) eqn:En; cbn [negb];
      cbn [Z.ltb Z.compare on_confirms on_confirm app c_id]; unfold sj1 at 1;
      cbn [id set_file_is_waiting with_flags with_stream]; rewrite Hid, Z.eqb_refl;
      unfold confirm; cbn [c_file_num c_union file_num set_file_is_waiting with_flags with_stream];
      fold sj1; unfold sj1 at 1; cbn [file_num set_file_is_waiting with_flags with_stream]; rewrite Hn, Z.eqb_refl; reflexivity.
  - split; [repeat split; done|]. split; [done|]. exists c. split; [done|].
    cbn [data_stream set_file_confirmed set_file_is_waiting with_flags with_stream sj1].
    split; [done|]. split; [done|]. exists t. done.
  - assert (forall j, rj1 = j -> id j = id rj /\ type j = type rj /\ data_source j = data_source rj /\ files j = files rj
        /\ file_num j = file_num rj /\ data_stream j = data_stream rj /\ finished_size j = finished_size rj) as Hk1.
    { intros j <-. unfold rj1. by destruct (_ =? _). }
    destruct (Hk1 rj1 eq_refl) as (K1 & K2 & K3 & K4 & K5 & K6 & K7). clearbody rj1. clear Hk1.
    inversion Hr as [j' fs' Hj Hn0 Hs0 Hfin Hwf|k' c' j' fs' Hc' Hrec]; subst.
    + apply ready_first; [unfold rjob_ok; by rewrite K1, K2, K3, K4|congruence..|done].
    + apply (ready_next k' c'); [done|]. destruct Hrec as [Hj Hn0 Hwf Hdone Hsz Hst].
      constructor; [unfold rjob_ok; by rewrite K1, K2, K3, K4|congruence|done|done|congruence|by rewrite K6].
  - unfold asks_for, rj1. by destruct (_ =? _).
Qed.

(** One scheduler round in the middle of a file. *)
Lemma round_step k w rest c rj rfs sj e :
  sending k rest sj -> fl !! k = Some e -> contents !! k = Some c -> w ++ rest = c ->
  (ready k rj rfs /\ w = []) \/ receiving k w rj rfs ->
  exists sj' rj' rfs', (forall fuel, transfer (S fuel) [sj] sfs [rj] rfs = transfer fuel [sj'] sfs [rj'] rfs') /\
  unchanged k rj rfs rj' rfs' /\
  ((rest = [] /\ between (S k) sj' /\ receiving k c rj' rfs') \/
   (exists w' rest', sending k rest' sj' /\ (length rest' < length rest)%nat /\ w' ++ rest' = c /\
      receiving k w' rj' rfs')).
Proof.
  intros Hsend He Hc Hw Hrecv.
  destruct (open_sending _ _ _ Hsend) as (sj1 & i & pos & c' & t & Hopen & Hok & Hn & Hcf & Hs & Hpos & Hc' & Hnode & Hrest).
  assert (c' = c) as -> by congruence.
  destruct (read_block k rest sj1 i pos c t Hok Hn Hcf Hs Hpos Hc Hnode Hrest)
    as (b & d & rest' & sj2 & Hread & Hbid & Hbn & Hdec & Hsplit & Hend & Hmore).
  destruct (write_block k w rj rfs e b d Hrecv He Hbid Hbn Hdec) as (rj' & rfs' & Hwrite & Hrec' & Hun).
  assert (is_last_job sj = false) as Hl0 by apply Hsend.
  destruct Hok as (Hid & Ht & Hd & Hf & Ho & Hl & Hsk).
  assert (id rj = jid) as Hrid.
  { destruct Hrecv as [[Hr _]|Hr]; [by apply (ready_modified k rj rfs e)|apply Hr]. }
  exists sj2, rj', rfs'. split; [|split; [done|]].
  - intros fuel. cbn [transfer]. unfold handle_read_jobs. cbn [init_jobs]. rewrite Hl0.
    unfold init_data_stream. rewrite Hopen. unfold needs_digest. rewrite (confirmed_may_read sj1 Ho Hcf). cbn [andb].
    cbn [serve_first]. rewrite Hl, Hread. cbn [fold_left app deliver on_block].
    rewrite Hrid, Hbid, Z.eqb_refl, Hwrite. done.
  - destruct (decide (rest = [])) as [E|E].
    + left. split; [done|]. split; [by apply Hend|]. rewrite E in Hsplit. symmetry in Hsplit.
      apply app_eq_nil in Hsplit as [-> _]. rewrite app_nil_r in Hrec'.
      rewrite E, app_nil_r in Hw. by rewrite <- Hw.
    + right. exists (w ++ d), rest'. destruct (Hmore E) as [H1 H2]. split; [done|]. split; [done|].
      split; [|done]. by rewrite <- app_assoc, <- Hsplit.
Qed.

(** A whole file, once it may be read. *)
Lemma send_file k e c : fl !! k = Some e -> contents !! k = Some c ->
  forall m w rest rj rfs sj, (length rest <= m)%nat -> sending k rest sj -> w ++ rest = c ->
  (ready k rj rfs /\ w = []) \/ receiving k w rj rfs ->
  (detect = true -> forall j fs, unchanged k rj rfs j fs -> asks_for (S k) j fs) ->
  exists n sj' rj' rfs', (forall fuel, transfer (n + fuel) [sj] sfs [rj] rfs = transfer fuel [sj'] sfs [rj'] rfs') /\
    between (S k) sj' /\ receiving k c rj' rfs' /\ (detect = true -> asks_for (S k) rj' rfs').
Proof.
  intros He Hc. induction m as [|m IH]; intros w rest rj rfs sj Hm Hs Hw Hr Ha;
    destruct (round_step k w rest c rj rfs sj e Hs He Hc Hw Hr)
      as (sj1 & rj1 & rfs1 & Hstep & Hun & [(-> & Hb & Hrec)|(w' & rest' & Hs' & Hlt & Hw' & Hrec)]).
  - exists 1%nat, sj1, rj1, rfs1. auto.
  - lia.
  - exists 1%nat, sj1, rj1, rfs1. auto.
  - destruct (IH w' rest' rj1 rfs1 sj1) as (n & sj' & rj' & rfs' & Hn & Hb & Hr'); [lia|done|done|by right| |].
    { intros Hdet j fs Hu. eapply asks_more; [by apply Ha|done]. }
    exists (S n), sj', rj', rfs'. split; [|done]. intros fuel. cbn [Nat.add]. by rewrite Hstep, Hn.
Qed.

(** The same from before the file, with or without a digest. *)
Lemma send_from k e c rj rfs sj : fl !! k = Some e -> contents !! k = Some c ->
  between k sj -> ready k rj rfs -> (detect = true -> asks_for k rj rfs) ->
  exists n sj' rj' rfs', (forall fuel, transfer (n + fuel) [sj] sfs [rj] rfs = transfer fuel [sj'] sfs [rj'] rfs') /\
    between (S k) sj' /\ receiving k c rj' rfs' /\ (detect = true -> asks_for (S k) rj' rfs').
Proof.
  intros He Hc Hb Hr Ha. destruct (Bool.bool_dec detect true) as [Hdet|Hdet%Bool.not_true_is_false].
  - destruct (digest_round k c e rj rfs sj Hdet Hb He Hc Hr (Ha Hdet)) as (sj1 & rj1 & H1 & Hs1 & Hr1 & Ha1).
    destruct (send_file k e c He Hc (length c) [] c rj1 rfs sj1) as (n & sj2 & rj2 & rfs2 & Hn & Hb2 & Hr2 & Ha2);
      [done|done|done|by left| |].
    { intros _ j fs Hu. by eapply asks_on. }
    exists (S n), sj2, rj2, rfs2. split; [|done]. intros fuel. cbn [Nat.add]. by rewrite H1, Hn.
  - apply (send_file k e c He Hc (length c) [] c rj rfs sj); [done|by apply between_sending|done|by left|congruence].
Qed.

(** All remaining files. *)
Lemma send_files r : forall k sj rj rfs, (k + r)%nat = length fl -> between k sj -> ready k rj rfs ->
  (detect = true -> asks_for k rj rfs) ->
  exists n sj' rj' rfs', (forall fuel, transfer (n + fuel) [sj] sfs [rj] rfs = transfer fuel [sj'] sfs [rj'] rfs') /\
    between (length fl) sj' /\ ready (length fl) rj' rfs'.
Proof.
  induction r as [|r IH]; intros k sj rj rfs Hk Hb Hr Ha.
  - rewrite Nat.add_0_r in Hk. subst k. exists 0%nat, sj, rj, rfs. done.
  - destruct (lookup_lt_is_Some_2 fl k) as [e He]; [lia|].
    destruct (lookup_lt_is_Some_2 contents k) as [c Hc]; [rewrite length_contents; lia|].
    destruct (send_from k e c rj rfs sj He Hc Hb Hr Ha) as (n & sj1 & rj1 & rfs1 & Hn & Hb1 & Hr1 & Ha1).
    destruct (IH (S k) sj1 rj1 rfs1) as (n2 & sj2 & rj2 & rfs2 & Hn2 & Hb2 & Hr2);
      [lia|done|by eapply ready_next|done|].
    exists (n + n2)%nat, sj2, rj2, rfs2. split; [|done]. intros fuel.
    by rewrite <- Nat.add_assoc, Hn, Hn2.
Qed.

(** The last round: the sender finds no more files and reports [Done]. *)
Lemma last_round sj rj rfs :
  between (length fl) sj -> ready (length fl) rj rfs ->
  forall fuel, transfer (S fuel) [sj] sfs [rj] rfs = Some ([], [], rj, modify_time rj rfs).
Proof using Hlen.
  intros ((Hid & Ht & Hd & Hf & Ho & Hl & Hsk) & Hn & Hs & Hcf & Hwt) Hr fuel.
  assert (u64 (Z.of_nat (length fl)) = Z.of_nat (length fl)) as Hu
    by (apply wrap_small; unfold len in Hlen; lia).
  assert (id rj = jid) as Hrid.
  { inversion Hr as [j' fs' Hj|k' c j' fs' Hc Hrec]; subst; [apply Hj|apply Hrec]. }
  cbn [transfer]. unfold handle_read_jobs. cbn [init_jobs]. rewrite Hl.
  unfold init_data_stream, open_data_stream. rewrite Hn, Hu, Hd, Hf. unfold len.
  rewrite Z.leb_refl. cbn [serve_first is_last_job with_stream]. rewrite Hl.
  assert (Hread : exists j, read os_read zcompress (with_stream sj None) sfs = (Ok None, j)
    /\ job_completed j = true /\ job_error j = None /\ id j = jid).
  { unfold read. cbn [enable_overwrite_detection with_stream type data_source files file_num file_confirmed].
    rewrite Hn, Hd, Hf, Hu. unfold len. rewrite Z.leb_refl.
    unfold job_completed, job_error, job_skipped.
    destruct (_ && _); eexists; (split; [reflexivity|]);
      cbn [enable_overwrite_detection with_stream file_skipped file_confirmed file_is_waiting id];
      by rewrite Hsk, Hcf, Hwt, orb_true_r. }
  destruct Hread as (j & -> & -> & -> & Hj).
  cbn [fold_left remove_job]. rewrite Z.eqb_refl, Hj. cbn [deliver app snd]. unfold on_done. cbn [remove_job].
  by rewrite Hrid, Z.eqb_refl.
Qed.

Lemma all_done rj rfs :
  ready (length fl) rj rfs ->
  finished_size rj = u64 (total_upto (length fl)) /\
  forall i, (i < length fl)%nat -> file_done (modify_time rj rfs) i.
Proof using Hlen Hslots.
  intros Hr. inversion Hr as [j' fs' Hj Hn Hs Hfin Hwf E|k' c j' fs' Hc Hrec E]; subst.
  - split; [|lia]. rewrite Hfin. done.
  - destruct (modify_time_done _ _ _ _ Hrec Hc) as [_ Hd]. split.
    + destruct Hrec as [_ _ _ _ Hsz _]. by rewrite Hsz, (total_upto_S _ _ Hc).
    + intros i Hi. apply Hd. lia.
Qed.

Lemma transfer_more n m sj rj rfs r :
  transfer n sj sfs rj rfs = Some r -> (n <= m)%nat -> transfer m sj sfs rj rfs = Some r.
Proof using.
  revert m sj rj rfs. induction n as [|n IH]; intros m sj rj rfs H Hm; [done|].
  destruct m as [|m]; [lia|]. cbn [transfer] in *.
  destruct (h_read_jobs sj sfs) as [sj' out].
  destruct (deliver out rj rfs) as [[[[rj' rfs'] rs] [j|]]|]; [done| |done].
  destruct (on_confirms rs sj' sfs); [|done]. apply IH; [done|lia].
Qed.


(** A second transfer of the same file is recognised: once a file is in
    place, a digest carrying its listed modification time and its size is
    answered with "identical", whatever the sub-second part of the sender's
    timestamp was. *)
Theorem retransfer_identical parse rfs k e c d :
  file_done rfs k -> fl !! k = Some e -> contents !! k = Some c ->
  td_last_modified d = modified_time e -> td_file_size d = len c ->
  is_write_need_confirmation parse false (rpath e) d rfs =
  NeedConfirm (mkDigest (td_id d) (td_file_num d) (modified_time e) (len c) true 0 false).
Proof using.
  intros Hd He Hc Hm Hs. destruct (Hd e c He Hc) as (Hget & _ & _).
  unfold is_write_need_confirmation. rewrite Hget. cbn [mtime content].
  rewrite Hm, Hs, !Z.eqb_refl. cbn [andb]. by rewrite Z.div_mul by lia.
Qed.

(** When the next file cannot be created, its data goes into the previous
    one: [write] reports the error but leaves the job pointing at the new file
    number with the old stream, so the following block of the uncreatable file
    is accepted and appended to the file already delivered under its final
    name. *)
Theorem failed_create_misdirects k e e' c j fs b1 b2 :
  receiving k c j fs -> contents !! k = Some c -> fl !! k = Some e -> fl !! S k = Some e' ->
  can_create (download_path (rpath e')) = false ->
  b_id b1 = jid -> b_file_num b1 = Z.of_nat (S k) ->
  b_id b2 = jid -> b_file_num b2 = Z.of_nat (S k) -> b_compressed b2 = false ->
  exists j1 fs1 j2 fs2,
    h_write j b1 fs = (Err "create", j1, fs1) /\ file_done fs1 k /\
    h_write j1 b2 fs1 = (Ok tt, j2, fs2) /\
    (fs_get fs2 (rpath e)) = Some (mkFileNode (c ++ b_data b2) now).
Proof using Hlen Hslots.
  intros Hrec Hc He He' Hcc Hb1 Hn1 Hb2 Hn2 Hunc.
  destruct (modify_time_done _ _ _ _ Hrec Hc) as [Hwf Hdone].
  destruct (slots_ne _ _ He) as (N1 & N2 & N3).
  pose proof (lookup_lt_Some _ _ _ He) as Hk. pose proof (lookup_lt_Some _ _ _ He') as Hk'.
  assert (forall q, q ∈ slots e -> q <> digest_path (rpath e')) as Hne.
  { intros q Hq ->. assert (k = S k); [|lia]. eapply slots_inj; [exact He|exact He'|exact Hq|].
    apply in3. }
  assert (paths (modify_time j fs) !! rpath e = paths fs !! download_path (rpath e)) as Hino.
  { destruct Hrec as [(Hid & Ht & Hd & Hf) Hn _ _ _ (e0 & i & t & He0 & Hs & Hp & Hnode)].
    assert (e0 = e) as -> by congruence.
    unfold modify_time. rewrite Ht, Hd, Hf, Hn, decide_False by done.
    rewrite u64_nat by done. unfold len. rewrite (proj2 (Z.ltb_lt _ _)) by lia.
    unfold entry_at. rewrite Hf, Nat2Z.id, He0. change (join dst (name e)) with (rpath e).
    set (f1 := fs_rename _ _ _). assert (paths f1 !! rpath e = Some i) as Hp1.
    { unfold f1, fs_rename. cbn. rewrite lookup_delete_ne by done. rewrite Hp. cbn. apply lookup_insert_eq. }
    unfold fs_set_mtime. rewrite Hp1. destruct (nodes f1 !! i); cbn; by rewrite Hp1, Hp. }
  pose proof Hrec as [(Hid & Ht & Hd & Hf) Hn _ _ _ (e0 & i & t & He0 & Hs & Hp & Hnode)].
  assert (e0 = e) as -> by congruence.
  exists (with_file_num j (Z.of_nat (S k))), (fs_unlink (modify_time j fs) (digest_path (rpath e'))).
  eexists _, _. split.
  { unfold write. rewrite Hb1, Hid, Z.eqb_refl. cbn [negb]. rewrite Hd, Hn1. unfold write_open.
    rewrite Hf, Hn, !u64_nat by done. unfold len. rewrite (proj2 (Z.leb_gt _ _)) by lia.
    rewrite (proj2 (Z.eqb_neq _ _)) by lia. cbn [negb orb].
    unfold entry_at. cbn [files with_file_num type]. rewrite Hf, Nat2Z.id, He', Ht, decide_False by done.
    change (join dst (name e')) with (rpath e'). by rewrite Hcc. }
  split.
  { intros e1 c1 He1 Hc1. assert (e1 = e) as -> by congruence. assert (c1 = c) as -> by congruence.
    destruct (Hdone k ltac:(lia) _ _ He Hc) as (D1 & D2 & D3).
    rewrite !fs_get_unlink. rewrite !decide_False by (apply not_eq_sym, Hne, in3). done. }
  split.
  { unfold write. cbn [id with_file_num data_source]. rewrite Hb2, Hid, Z.eqb_refl. cbn [negb].
    rewrite Hd, Hn2. unfold write_open. cbn [files file_num with_file_num data_stream].
    rewrite Hf, !u64_nat by done. unfold len. rewrite (proj2 (Z.leb_gt _ _)) by lia.
    rewrite Z.eqb_refl, Hs. cbn [negb orb]. cbn [data_stream with_file_num]. rewrite Hs, Hunc.
    cbn [stream_write]. reflexivity. }
  unfold fs_get. cbn [paths fs_update fs_unlink nodes].
  rewrite lookup_delete_ne by (apply not_eq_sym, Hne, in3).
  rewrite Hino, Hp. cbn. rewrite lookup_insert_eq.
  destruct (Hdone k ltac:(lia) _ _ He Hc) as (D1 & _ & _). unfold fs_get in D1.
  rewrite Hino, Hp in D1. cbn in D1. rewrite D1. cbn [content].
  change (Z.of_nat (length c)) with (len c). by rewrite splice_end.
Qed.

End Delivery.

(** ** Errors and the confirmation handshake *)

(** A failed compression loses the block: when zstd fails [compress] returns
    an empty vector, which is shorter than the data, so the block goes out
    marked compressed with no data while the job counts the bytes as sent. *)
Theorem failed_compression_drops_block os_read zcompress j fs p e i pos :
  os_read_ok os_read -> os_read_total os_read ->
  enable_overwrite_detection j = false -> data_source j = FilePath p ->
  entry_at j (u64 (file_num j)) = Some e -> name e <> "" -> is_compressed_file (name e) = false ->
  u64 (file_num j) < len (files j) ->
  data_stream j = Some (FileStream i pos) -> 0 <= pos -> stream_rest fs (FileStream i pos) <> [] ->
  (forall d, zcompress d = []) ->
  exists b j', read os_read zcompress j fs = (Ok (Some b), j') /\
    b_data b = [] /\ b_compressed b = true /\
    finished_size j' = u64 (finished_size j + Z.min BUF_SIZE (len (stream_rest fs (FileStream i pos)))).
Proof.
  intros Hos Htot Ho Hd He Hnm Hext Hlt Hs Hpos Hrest Hz.
  unfold read. rewrite Ho, andb_false_r. cbn [andb]. rewrite Hd.
  rewrite (proj2 (Z.leb_gt _ _)) by done. rewrite Hs, He.
  destruct (fill_spec os_read (S (length (stream_rest fs (FileStream i pos)))) fs (FileStream i pos) [])
    as (n & Hfill & Hmin); [done|done|done|vm_compute; done|lia|].
  rewrite Hfill. cbn [app]. set (rest := stream_rest fs (FileStream i pos)) in *.
  assert (String.eqb (name e) "" = false) as -> by (by apply String.eqb_neq).
  rewrite andb_false_r, Hext, Hz.
  destruct (take n rest) as [|x buf] eqn:Et.
  { destruct rest as [|y rest]; [done|]. destruct n; [|done]. unfold BUF_SIZE, len in Hmin. cbn in Hmin. lia. }
  assert (len (x :: buf) = Z.min BUF_SIZE (len rest)) as Hl.
  { rewrite <- Et. unfold len. rewrite length_take. unfold len, BUF_SIZE in *. cbn [length] in Hmin. lia. }
  assert ((len (A:=Z) [] <? len (x :: buf)) = true) as -> by (apply Z.ltb_lt; unfold len; cbn; lia).
  cbn [negb andb]. eexists _, _. split; [reflexivity|]. cbn [b_data b_compressed finished_size with_counts with_stream]. rewrite Hl. done.
Qed.

(** [confirm] panics exactly when the peer confirms a resume offset for the
    current file number while that number is past the end of the file list
    (the job is complete, or was created with such a number). *)
Theorem confirm_panics_iff j r fs :
  confirm j r fs = Panic <->
  file_num j = c_file_num r /\ (exists off, c_union r = Some (OffsetBlk off) /\ 0 < off) /\
  (exists p, data_source j = FilePath p) /\ files j !! Z.to_nat (u64 (c_file_num r)) = None.
Proof.
  unfold confirm. destruct (file_num j =? c_file_num r) eqn:En; zbool; cbn [negb]; cycle 1.
  { split; [done|]. intros (? & _). done. }
  destruct (c_union r) as [[s|off]|]; [naive_solver| |naive_solver].
  destruct (0 <? off) eqn:Eo; zbool; cycle 1.
  { split; [done|]. intros (_ & (o & [= ->] & ?) & _). lia. }
  unfold set_stream_offset, entry_at. cbn [data_source set_file_confirmed with_flags files].
  destruct (data_source j) as [p|]; [|naive_solver].
  destruct (files j !! _) as [e|] eqn:Ee; [|naive_solver].
  split; [|naive_solver]. repeat (case_match; try done).
Qed.

(** Overwrite detection holds back data: while the current file of a job is
    not confirmed, a scheduler round on that job sends no block of it, only
    the file's digest (once), or an error, or [Done] after the last file. *)
Theorem unconfirmed_sends_no_block os_read zcompress j fs jobs out :
  type j = Generic -> enable_overwrite_detection j = true -> file_confirmed j = false ->
  is_last_job j = false -> handle_read_jobs os_read zcompress [j] fs = (jobs, out) ->
  Forall (fun m => match m with MsgBlock _ => False | _ => True end) out.
Proof.
  intros Ht Ho Hc Hl. unfold handle_read_jobs. cbn [init_jobs]. rewrite Hl.
  destruct (init_data_stream j fs []) as [[r j1] out1] eqn:Hi.
  assert (type j1 = Generic /\ enable_overwrite_detection j1 = true /\ file_confirmed j1 = false /\
          is_last_job j1 = false /\
          Forall (fun m => match m with MsgBlock _ => False | _ => True end) out1) as (T & O & C & L & F).
  { unfold init_data_stream, open_data_stream, send_current_digest, set_file_is_waiting in Hi.
    repeat (case_match; simplify_eq/=; try done); repeat split; try done; repeat constructor. }
  assert (read os_read zcompress j1 fs = (Ok None, j1)) as Hread.
  { unfold read. rewrite T, O, C. done. }
  set (out2 := match r with Ok _ => _ | Err _ => _ end).
  assert (out2 = (j1, out1) \/ exists e, out2 = (j1, out1 ++ [MsgError (id j1) e (file_num j1)])) as Hout2
    by (unfold out2; destruct r; eauto).
  assert (Forall (fun m => match m with MsgBlock _ => False | _ => True end) out2.2 /\ out2.1 = j1) as [F2 E1].
  { destruct Hout2 as [->|[e ->]]; cbn; split; try done. apply Forall_app. split; [done|]. by repeat constructor. }
  destruct out2 as [j2 out2']. cbn in *. subst j2. rewrite L, Hread.
  destruct (job_completed j1); cbn; intros [= _ <-]; [|done].
  apply Forall_app. split; [done|]. constructor; [|done]. by destruct (job_error j1).
Qed.

(** ** A concrete transfer

    Two files, reads of at most two bytes, a compressor that never shrinks. *)

Definition ex_read (rest : list Z) (cap : Z) : result nat string :=
  Ok (Nat.min 2 (Nat.min (length rest) (Z.to_nat cap))).
Definition ex_all (_ : string) : bool := true.
Definition ex_json (_ : FileDigest) : list Z := [123].
Definition ex_id (d : list Z) : list Z := d.
Definition ex_files : list FileEntry :=
  [mkFileEntry File "a.txt" false 3 100; mkFileEntry File "b.txt" false 0 200].
Definition ex_contents : list (list Z) := [[1; 2; 3]; []].
Definition ex_sfs : FS := fs_write_file (fs_write_file fs_empty "/s/a.txt" [1; 2; 3] 5) "/s/b.txt" [] 6.
Definition ex_sjob : TransferJob := new_job 1 Generic "" (FilePath "/s") 0 false false ex_files 3 false.
Definition ex_rjob : TransferJob := new_write 1 Generic "" (FilePath "/d") 0 false true ex_files false.

(** The same with overwrite detection. *)
Definition ex_sjob_d : TransferJob := new_job 1 Generic "" (FilePath "/s") 0 false false ex_files 3 true.
Definition ex_rjob_d : TransferJob := new_write 1 Generic "" (FilePath "/d") 0 false true ex_files true.

Lemma ex_read_ok : os_read_ok ex_read.
Proof.
  intros rest cap n Hc E. assert (n = Nat.min 2 (Nat.min (length rest) (Z.to_nat cap))) as ->
    by (unfold ex_read in E; congruence).
  split; [lia|]. split; [lia|].
  split; [|intros ->; cbn [length]; lia]. intros H. destruct rest; [done|]. cbn [length] in H. lia.
Qed.

Lemma ex_read_total : os_read_total ex_read.
Proof. intros rest cap. eexists. reflexivity. Qed.

Lemma fs_wf_empty : fs_wf fs_empty.
Proof. split; cbn; intros *; by rewrite lookup_empty. Qed.

Lemma ex_slots : NoDup (ex_files ≫= slots "/d").
Proof. vm_compute. repeat (constructor; [set_solver|]). constructor. Qed.


(** Six rounds: two digests, one block, two ends of files and the end of the
    job. *)
Example detected_transfer :
  match transfer ex_read ex_all ex_id ex_id 0 ex_json (fun _ => None) true 6 [ex_sjob_d] ex_sfs [ex_rjob_d] fs_empty with
  | Some ([], [], j, fs) => fs_get fs "/d/a.txt" = Some (mkFileNode [1; 2; 3] (100 * 10 ^ 9))
  | _ => False
  end.
Proof. vm_compute. reflexivity. Qed.

(** The state after the first file's block, for the theorems about the middle
    of a transfer. *)
Definition ex_block : FileTransferBlock := mkBlock 1 0 [1; 2; 3] false.
Definition ex_only_a (p : string) : bool := String.eqb p "/d/a.txt.download".
Definition ex_mid : result unit string * TransferJob * FS :=
  write ex_all ex_id 0 ex_json ex_rjob ex_block fs_empty.

Lemma ex_mid_receiving : receiving 1 "/d" ex_files ex_contents 0 [1; 2; 3] ex_mid.1.2 ex_mid.2.
Proof.
  destruct (write_block ex_all ex_id 0 ex_json) with (jid := 1) (dst := "/d") (fl := ex_files)
    (contents := ex_contents) (k := 0%nat) (w := @nil Z) (j := ex_rjob) (fs := fs_empty)
    (e := mkFileEntry File "a.txt" false 3 100) (b := ex_block) (d := [1; 2; 3])
    as (j' & fs' & Hw & Hr); try reflexivity.
  - apply ex_slots.
  - left. split; [|done]. constructor; [repeat split|reflexivity..|apply fs_wf_empty].
  - unfold ex_mid. rewrite Hw. exact (proj1 Hr).
Qed.

Lemma failed_create_misdirects_witness :
  exists j1 fs1 j2 fs2,
    write ex_only_a ex_id 0 ex_json ex_mid.1.2 (mkBlock 1 1 [7] false) ex_mid.2 = (Err "create", j1, fs1) /\
    file_done "/d" ex_files ex_contents fs1 0 /\
    write ex_only_a ex_id 0 ex_json j1 (mkBlock 1 1 [8; 9] false) fs1 = (Ok tt, j2, fs2) /\
    fs_get fs2 (rpath "/d" (mkFileEntry File "a.txt" false 3 100)) = Some (mkFileNode ([1; 2; 3] ++ [8; 9]) 0).
Proof.
  eapply (failed_create_misdirects ex_only_a ex_id 0 ex_json) with
    (jid := 1) (fl := ex_files) (contents := ex_contents) (k := 0%nat)
    (e' := mkFileEntry File "b.txt" false 0 200)
    (b1 := mkBlock 1 1 [7] false) (b2 := mkBlock 1 1 [8; 9] false);
    try reflexivity; [apply ex_slots|apply ex_mid_receiving].
Defined.

Lemma retransfer_identical_witness :
  let rfs := fs_set_mtime (fs_write_file fs_empty "/d/a.txt" [1; 2; 3] 0) "/d/a.txt" (100 * 10 ^ 9) in
  is_write_need_confirmation (fun _ => None) false "/d/a.txt" (mkDigest 1 0 100 3 false 0 false) rfs =
  NeedConfirm (mkDigest 1 0 100 3 true 0 false).
Proof.
  intros rfs.
  apply (retransfer_identical "/d" ex_files ex_contents (fun _ => None) rfs 0
           (mkFileEntry File "a.txt" false 3 100) [1; 2; 3] (mkDigest 1 0 100 3 false 0 false));
    try reflexivity.
  intros e c [= <-] [= <-]. repeat split; vm_compute; reflexivity.
Defined.

Definition ex_open_job : TransferJob := with_stream ex_sjob (Some (FileStream 0 0)).

Lemma failed_compression_drops_block_witness :
  exists b j', read ex_read (fun _ => []) ex_open_job ex_sfs = (Ok (Some b), j') /\
    b_data b = [] /\ b_compressed b = true /\
    finished_size j' = u64 (0 + Z.min BUF_SIZE 3).
Proof.
  apply (failed_compression_drops_block ex_read (fun _ => []) ex_open_job ex_sfs "/s"
    (mkFileEntry File "a.txt" false 3 100) 0 0 ex_read_ok ex_read_total);
    first [reflexivity | discriminate | lia | idtac].
Defined.

Lemma unconfirmed_sends_no_block_witness :
  let j := new_job 1 Generic "" (FilePath "/s") 0 false false ex_files 3 true in
  Forall (fun m => match m with MsgBlock _ => False | _ => True end)
    (handle_read_jobs ex_read ex_id [j] ex_sfs).2.
Proof.
  intros j. eapply (unconfirmed_sends_no_block ex_read ex_id j ex_sfs); reflexivity.
Defined.

End Delivery.
