(* ===== verification/F32.v ===== *)
(** * [f32] arithmetic

    Rust's [f32] is IEEE binary32: the Standard Library's executable
    [spec_float] at precision 24 and maximal exponent 128, with round to
    nearest, ties to even.  The comparison, [min], [max], [clamp], [ceil] and
    the saturating cast [as u32] are Rust's.  The lemmas give the order of
    non-NaN floats and that products of finite floats are never NaN, which is
    what range arguments about clamped values need. *)

From S2P Require Import Prelude.
From Stdlib Require Export SpecFloat.

Abbreviation f32 := spec_float.

Definition fmul : f32 -> f32 -> f32 := SFmul 24 128.
Definition fadd : f32 -> f32 -> f32 := SFadd 24 128.
Definition fsub : f32 -> f32 -> f32 := SFsub 24 128.
Definition fdiv : f32 -> f32 -> f32 := SFdiv 24 128.

(** [z as f32] *)
Definition f32_of_Z (z : Z) : f32 := binary_normalize 24 128 z 0 false.

(** A decimal literal [n / d]: both parts are exact, so the quotient is the
    correctly rounded literal. *)
Definition f32_lit (n d : Z) : f32 := fdiv (f32_of_Z n) (f32_of_Z d).

Definition is_nan (x : f32) : bool := match x with S754_nan => true | _ => false end.

Definition is_finite (x : f32) : bool :=
  match x with S754_zero _ | S754_finite _ _ _ => true | _ => false end.

Abbreviation fltb := SFltb.
Abbreviation fleb := SFleb.

(** [f32::max], [f32::min]: a NaN argument is ignored. *)
Definition fmax (x y : f32) : f32 :=
  if is_nan x then y else if is_nan y then x else if fltb x y then y else x.
Definition fmin (x y : f32) : f32 :=
  if is_nan x then y else if is_nan y then x else if fltb y x then y else x.

(** [f32::clamp] panics unless [lo <= hi]. *)
Definition fclamp (v lo hi : f32) : outcome f32 :=
  if fleb lo hi then
    Done (let v := if fltb v lo then lo else v in if fltb hi v then hi else v)
  else Panic.

Definition fceil (x : f32) : f32 :=
  match x with
  | S754_finite s m e =>
    if 0 <=? e then x
    else
      let v := if s then - Z.pos m else Z.pos m in
      f32_of_Z (- ((- v) / 2 ^ (- e)))
  | _ => x
  end.

(** [x as u32]: truncation, saturating, NaN to 0. *)
Definition f32_as_u32 (x : f32) : Z :=
  match x with
  | S754_nan | S754_zero _ => 0
  | S754_infinity s => if s then 0 else 2 ^ 32 - 1
  | S754_finite true _ _ => 0
  | S754_finite false m e =>
    Z.min (2 ^ 32 - 1) (if 0 <=? e then Z.pos m * 2 ^ e else Z.pos m / 2 ^ (- e))
  end.

(** ** The order of floats *)

Definition lexcmp (a b : Z * Z * Z) : comparison :=
  match (a.1.1 ?= b.1.1) with
  | Eq => match (a.1.2 ?= b.1.2) with Eq => (a.2 ?= b.2) | c => c end
  | c => c
  end.

(** The position of a float in the order. *)
Definition fkey (x : f32) : option (Z * Z * Z) :=
  match x with
  | S754_nan => None
  | S754_infinity true => Some (-2, 0, 0)
  | S754_finite true m e => Some (-1, - e, - Z.pos m)
  | S754_zero _ => Some (0, 0, 0)
  | S754_finite false m e => Some (1, e, Z.pos m)
  | S754_infinity false => Some (2, 0, 0)
  end.

Lemma SFcompare_key x y :
  SFcompare x y =
  match fkey x, fkey y with Some a, Some b => Some (lexcmp a b) | _, _ => None end.
Proof.
  destruct x as [[]|[]| |[] m e], y as [[]|[]| |[] m' e']; try reflexivity; cbn; unfold lexcmp; cbn.
  rewrite Z.compare_opp, (Z.compare_antisym e e').
  change (Pos.compare_cont Eq m m') with (Pos.compare m m').
  rewrite <- ?(Pos.compare_antisym m m').
  rewrite (Z.compare_opp (Z.pos m)).
  by destruct (e ?= e').
Qed.

Lemma fleb_key x y :
  fleb x y = true <->
  exists a b, fkey x = Some a /\ fkey y = Some b /\ lexcmp a b <> Gt.
Proof.
  unfold fleb. rewrite SFcompare_key. destruct (fkey x) as [a|], (fkey y) as [b|];
    try (split; [done|intros (? & ? & ? & ? & ?); done]).
  split.
  - intros H. exists a, b. split; [done|]. split; [done|]. by destruct (lexcmp a b).
  - intros (? & ? & [= <-] & [= <-] & H). by destruct (lexcmp a b).
Qed.

Lemma lexcmp_le_trans a b c : lexcmp a b <> Gt -> lexcmp b c <> Gt -> lexcmp a c <> Gt.
Proof.
  destruct a as [[a1 a2] a3], b as [[b1 b2] b3], c as [[c1 c2] c3]. unfold lexcmp. cbn.
  destruct (Z.compare_spec a1 b1), (Z.compare_spec b1 c1), (Z.compare_spec a1 c1); try done; try lia;
  destruct (Z.compare_spec a2 b2), (Z.compare_spec b2 c2), (Z.compare_spec a2 c2); try done; try lia;
  destruct (Z.compare_spec a3 b3), (Z.compare_spec b3 c3), (Z.compare_spec a3 c3); try done; try lia.
Qed.

Lemma lexcmp_antisym a b : lexcmp b a = CompOpp (lexcmp a b).
Proof.
  destruct a as [[a1 a2] a3], b as [[b1 b2] b3]. unfold lexcmp. cbn.
  rewrite (Z.compare_antisym a1 b1), (Z.compare_antisym a2 b2), (Z.compare_antisym a3 b3).
  destruct (a1 ?= b1); cbn; try done. destruct (a2 ?= b2); cbn; done.
Qed.

Lemma fleb_trans x y z : fleb x y = true -> fleb y z = true -> fleb x z = true.
Proof.
  rewrite !fleb_key. intros (a & b & Ha & Hb & H1) (b' & c & Hb' & Hc & H2).
  simplify_eq. exists a, c. eauto using lexcmp_le_trans.
Qed.

Lemma fltb_false_fleb x y :
  is_nan x = false -> is_nan y = false -> fltb x y = false -> fleb y x = true.
Proof.
  intros Hx Hy. unfold fltb, fleb. rewrite !SFcompare_key.
  assert (forall z, is_nan z = false -> exists k, fkey z = Some k) as Hk.
  { intros [[]|[]| |[]]; cbn; eauto; done. }
  destruct (Hk x Hx) as [a ->], (Hk y Hy) as [b ->]. rewrite (lexcmp_antisym a b).
  by destruct (lexcmp a b).
Qed.

Lemma fltb_fleb x y : fltb x y = true -> fleb x y = true.
Proof. unfold fltb, fleb. by destruct (SFcompare x y) as [[]|]. Qed.

Lemma fleb_refl x : is_nan x = false -> fleb x x = true.
Proof.
  intros H. apply fltb_false_fleb; [done|done|]. unfold fltb. rewrite SFcompare_key.
  destruct (fkey x) as [a|]; [|done]. pose proof (lexcmp_antisym a a) as E.
  by destruct (lexcmp a a).
Qed.

Lemma fleb_nan x y : fleb x y = true -> is_nan x = false /\ is_nan y = false.
Proof. unfold fleb. by destruct x as [[]|[]| |[]], y as [[]|[]| |[]]. Qed.

Lemma fltb_nan x y : fltb x y = true -> is_nan x = false /\ is_nan y = false.
Proof. intros H. by apply fleb_nan, fltb_fleb. Qed.

(** A float between two finite floats is finite. *)
Lemma fleb_finite lo x hi :
  is_finite lo = true -> is_finite hi = true ->
  fleb lo x = true -> fleb x hi = true -> is_finite x = true.
Proof.
  destruct x as [|[]| |]; try done.
  - destruct lo as [[]|[]| |[]]; done.
  - destruct hi as [[]|[]| |[]]; done.
Qed.

(** ** Products of finite floats are never NaN *)

Lemma shr_1_nonneg r : 0 <= shr_m r -> 0 <= shr_m (shr_1 r).
Proof. destruct r as [[|[]|] ? ?]; cbn; lia. Qed.

Lemma iter_pos_nonneg p r : 0 <= shr_m r -> 0 <= shr_m (iter_pos shr_1 p r).
Proof.
  revert r. induction p as [p IH|p IH|]; intros r H; cbn [iter_pos]; auto using shr_1_nonneg.
Qed.

Lemma shr_fexp_nonneg prec emax m e l : 0 <= m -> 0 <= shr_m (shr_fexp prec emax m e l).1.
Proof.
  intros H. unfold shr_fexp, shr.
  assert (0 <= shr_m (shr_record_of_loc m l)) by (destruct l as [|[]]; done).
  destruct (_ - e); cbn; auto using iter_pos_nonneg.
Qed.

Lemma binary_round_aux_not_nan prec emax s m e l :
  0 <= m -> is_nan (binary_round_aux prec emax s m e l) = false.
Proof.
  intros H. unfold binary_round_aux.
  pose proof (shr_fexp_nonneg prec emax m e l H) as H1.
  destruct (shr_fexp prec emax m e l) as [r1 e1]. cbn in H1.
  set (m2 := round_nearest_even _ _).
  assert (0 <= m2) as H2.
  { unfold m2, round_nearest_even. destruct (loc_of_shr_record r1) as [|[]]; try lia.
    destruct (Z.even _); lia. }
  pose proof (shr_fexp_nonneg prec emax m2 e1 loc_Exact H2) as H3.
  destruct (shr_fexp prec emax m2 e1 loc_Exact) as [r2 e2]. cbn in H3.
  destruct (shr_m r2) as [|p|p]; [done| |lia]. by destruct (e2 <=? _).
Qed.

Lemma fmul_not_nan x y : is_finite x = true -> is_finite y = true -> is_nan (fmul x y) = false.
Proof.
  destruct x, y; try done. intros _ _. cbn. by apply binary_round_aux_not_nan.
Qed.

(** ** [clamp] *)

Lemma fclamp_range v lo hi :
  fleb lo hi = true -> is_nan v = false ->
  exists r, fclamp v lo hi = Done r /\ fleb lo r = true /\ fleb r hi = true.
Proof.
  intros Hle Hv. destruct (fleb_nan _ _ Hle) as [Hl Hh]. unfold fclamp. rewrite Hle.
  eexists. split; [done|]. cbv zeta.
  destruct (fltb v lo) eqn:E1.
  - destruct (fltb hi lo) eqn:E2.
    + split; [done|by apply fleb_refl].
    + split; [by apply fleb_refl|done].
  - apply fltb_false_fleb in E1; [|done|done]. destruct (fltb hi v) eqn:E2.
    + split; [done|by apply fleb_refl].
    + apply fltb_false_fleb in E2; done.
Qed.

Lemma fclamp_done v lo hi : fleb lo hi = true -> exists r, fclamp v lo hi = Done r.
Proof. intros H. unfold fclamp. rewrite H. eauto. Qed.
