(* ===== verification/VideoQos.v ===== *)
(** * Video quality of service ([src/server/video_qos.rs])

    [VideoQoS] adapts the frame rate and the bitrate ratio of the shared
    screen to the network delay its viewers report.  The whole controller is
    modelled: every public operation, with [f32] arithmetic from [F32].

    Time is an argument: [now] is the monotonic clock in nanoseconds, [wall]
    the wall clock of [get_time].  A [HashMap] is a [gmap]; where the code
    iterates over it, the theorems do not depend on the order. [clamp] can
    panic in Rust, so operations that clamp return an [outcome]. *)

From S2P Require Import Prelude RustStr F32.

Module Qos.

#[local] Open Scope rust_scope.

(** ** Constants *)

Definition FPS : Z := 30.
Definition MIN_FPS : Z := 1.
Definition MAX_FPS : Z := 120.
Definition INIT_FPS : Z := 15.

Definition BR_MAX : f32 := Eval vm_compute in f32_of_Z 40.
Definition BR_MIN : f32 := Eval vm_compute in f32_lit 2 10.
Definition BR_MIN_HIGH_RESOLUTION : f32 := Eval vm_compute in f32_lit 1 10.
Definition MAX_BR_MULTIPLE : f32 := Eval vm_compute in f32_of_Z 1.
Definition BR_BEST : f32 := Eval vm_compute in f32_lit 15 10.
Definition BR_BALANCED : f32 := Eval vm_compute in f32_lit 67 100.
Definition BR_SPEED : f32 := Eval vm_compute in f32_lit 5 10.

Definition HISTORY_DELAY_LEN : Z := 2.
Definition ADJUST_RATIO_INTERVAL : Z := 3.
Definition DYNAMIC_SCREEN_THRESHOLD : Z := 2.
Definition DELAY_THRESHOLD_150MS : Z := 150.

(** ** [scrap::codec::Quality] *)

Inductive Quality : Type :=
| Best
| Balanced
| Low
| Custom (v : f32).

Definition quality_ratio (q : Quality) : f32 :=
  match q with
  | Best => BR_BEST
  | Balanced => BR_BALANCED
  | Low => BR_SPEED
  | Custom v => v
  end.

(** ** Iterator helpers: [min], [max] of an iterator of integers *)

Definition list_min (l : list Z) : option Z :=
  match l with [] => None | x :: l => Some (fold_left Z.min l x) end.
Definition list_max (l : list Z) : option Z :=
  match l with [] => None | x :: l => Some (fold_left Z.max l x) end.

(** [Ord::clamp] panics unless [lo <= hi]. *)
Definition zclamp (v lo hi : Z) : outcome Z :=
  if lo <=? hi then Done (Z.max lo (Z.min v hi)) else Panic.

(** ** [RttCalculator] *)

Record RttCalculator : Type := mkRtt {
  min_rtt : option Z;
  window_min_rtt : option Z;
  smoothed_rtt : option Z;
  samples : list Z
}.

Definition rtt_default : RttCalculator := mkRtt None None None [].

Definition WINDOW_SAMPLES : Z := 60.
Definition MIN_SAMPLES : Z := 10.
Definition ALPHA : f32 := Eval vm_compute in f32_lit 5 10.

Definition rtt_update (r : RttCalculator) (delay : Z) : RttCalculator :=
  let min_rtt :=
    match min_rtt r with
    | Some m => if delay <? m then Some delay else Some m
    | None => Some delay
    end in
  let samples := if WINDOW_SAMPLES <=? len (samples r) then tail (samples r) else samples r in
  let samples := samples ++ [delay] in
  let window_min_rtt := list_min samples in
  let smoothed_rtt :=
    if WINDOW_SAMPLES <=? len samples then
      match min_rtt, window_min_rtt with
      | Some m, Some w =>
        Some (f32_as_u32 (fadd (fmul (fsub (f32_of_Z 1) ALPHA) (f32_of_Z m))
                               (fmul ALPHA (f32_of_Z w))))
      | _, _ => smoothed_rtt r
      end
    else smoothed_rtt r in
  mkRtt min_rtt window_min_rtt smoothed_rtt samples.

Definition get_rtt (r : RttCalculator) : option Z :=
  match smoothed_rtt r with
  | Some rtt => Some rtt
  | None => if MIN_SAMPLES <=? len (samples r) then min_rtt r else None
  end.

(** ** Per-user state *)

Record UserDelay : Type := mkUserDelay {
  response_delayed : bool;
  delay_history : list Z;
  delay_fps : option Z;
  rtt_calculator : RttCalculator;
  quick_increase_fps_count : Z;
  increase_fps_count : Z
}.

Definition user_delay_default : UserDelay := mkUserDelay false [] None rtt_default 0 0.

Definition add_delay (d : UserDelay) (delay : Z) : UserDelay :=
  let h := if HISTORY_DELAY_LEN <? len (delay_history d) then tail (delay_history d)
           else delay_history d in
  mkUserDelay (response_delayed d) (h ++ [delay]) (delay_fps d)
    (rtt_update (rtt_calculator d) delay) (quick_increase_fps_count d) (increase_fps_count d).

Definition avg_delay (d : UserDelay) : Z :=
  let n := len (delay_history d) in
  if 0 <? n then
    let avg := u32 (fold_left Z.add (delay_history d) 0) / n in
    match get_rtt (rtt_calculator d) with
    | Some rtt => if rtt <? avg then avg - rtt else avg
    | None => avg
    end
  else DELAY_THRESHOLD_150MS.

Record UserData : Type := mkUserData {
  auto_adjust_fps : option Z;
  custom_fps : option Z;
  quality : option (Z * Quality);
  delay : UserDelay;
  record : bool
}.

Definition user_data_default : UserData := mkUserData None None None user_delay_default false.

Record DisplayData : Type := mkDisplayData {
  send_counter : Z;
  support_changing_quality : bool
}.

Definition display_data_default : DisplayData := mkDisplayData 0 false.

(** ** The controller *)

Record VideoQoS : Type := mkVideoQoS {
  fps : Z;
  ratio : f32;
  users : gmap Z UserData;
  displays : gmap string DisplayData;
  bitrate_store : Z;
  adjust_ratio_instant : Z;
  abr_config : bool;
  new_user_instant : Z
}.

Definition qos_default (now : Z) : VideoQoS :=
  mkVideoQoS FPS BR_BALANCED ∅ ∅ 0 now true now.

Definition with_fps (q : VideoQoS) (v : Z) : VideoQoS :=
  mkVideoQoS v (ratio q) (users q) (displays q) (bitrate_store q)
    (adjust_ratio_instant q) (abr_config q) (new_user_instant q).
Definition with_ratio (q : VideoQoS) (v : f32) : VideoQoS :=
  mkVideoQoS (fps q) v (users q) (displays q) (bitrate_store q)
    (adjust_ratio_instant q) (abr_config q) (new_user_instant q).
Definition with_users (q : VideoQoS) (v : gmap Z UserData) : VideoQoS :=
  mkVideoQoS (fps q) (ratio q) v (displays q) (bitrate_store q)
    (adjust_ratio_instant q) (abr_config q) (new_user_instant q).
Definition with_displays (q : VideoQoS) (v : gmap string DisplayData) : VideoQoS :=
  mkVideoQoS (fps q) (ratio q) (users q) v (bitrate_store q)
    (adjust_ratio_instant q) (abr_config q) (new_user_instant q).

(** The users and displays in iteration order. *)
Definition user_list (q : VideoQoS) : list UserData := snd <$> map_to_list (users q).
Definition display_list (q : VideoQoS) : list DisplayData := snd <$> map_to_list (displays q).

(** *** Basic functionality *)

Definition get_fps (q : VideoQoS) : Z :=
  if (MIN_FPS <=? fps q) && (fps q <=? MAX_FPS) then fps q else FPS.

(** The argument of [Duration::from_secs_f32] in [spf]. *)
Definition spf (q : VideoQoS) : f32 := fdiv (f32_of_Z 1) (f32_of_Z (get_fps q)).

Definition store_bitrate (q : VideoQoS) (b : Z) : VideoQoS :=
  mkVideoQoS (fps q) (ratio q) (users q) (displays q) b
    (adjust_ratio_instant q) (abr_config q) (new_user_instant q).

Definition bitrate (q : VideoQoS) : Z := bitrate_store q.

Definition get_ratio (q : VideoQoS) : f32 * VideoQoS :=
  let q := if fltb (ratio q) BR_MIN_HIGH_RESOLUTION || fltb BR_MAX (ratio q)
           then with_ratio q BR_BALANCED else q in
  (ratio q, q).

Definition any_record (q : VideoQoS) : bool := existsb record (user_list q).

Definition set_support_changing_quality (q : VideoQoS) (name : string) (support : bool) : VideoQoS :=
  match displays q !! name with
  | Some d => with_displays q (<[name := mkDisplayData (send_counter d) support]> (displays q))
  | None => q
  end.

Definition in_vbr_state (q : VideoQoS) : bool :=
  abr_config q && forallb support_changing_quality (display_list q).

(** *** Common adjust functions *)

Definition user_fps (u : UserData) : Z :=
  let fps := unwrap_or FPS (custom_fps u) in
  match auto_adjust_fps u with
  | Some a => if (fps =? 0) || (a <? fps) then a else fps
  | None => fps
  end.

Definition highest_fps (q : VideoQoS) : outcome Z :=
  let l := filter (fun f => MIN_FPS <= f) (user_fps <$> user_list q) in
  zclamp (unwrap_or FPS (list_min l)) MIN_FPS MAX_FPS.

(** [max_by] keeps the last of equal elements. *)
Definition max_by_time (l : list (Z * Quality)) : option (Z * Quality) :=
  fold_left (fun acc x =>
    match acc with
    | None => Some x
    | Some a => if a.1 <=? x.1 then Some x else Some a
    end) l None.

Definition latest_quality (q : VideoQoS) : Quality :=
  (unwrap_or (0, Balanced) (max_by_time (omap quality (user_list q)))).2.

(** The lower bound of the ratio for the target quality. *)
Definition min_ratio (target : Quality) (ratio_1mbps : option f32) : f32 :=
  let lower m := match ratio_1mbps with
                 | Some r => if fltb r m then r else m
                 | None => m
                 end in
  match target with
  | Best => fmax (lower (fdiv BR_BEST (f32_lit 25 10))) BR_MIN
  | Balanced =>
    fmax (lower (fmin (fdiv BR_BALANCED (f32_of_Z 2)) (f32_lit 4 10))) BR_MIN_HIGH_RESOLUTION
  | Low => BR_MIN_HIGH_RESOLUTION
  | Custom _ => BR_MIN_HIGH_RESOLUTION
  end.

(** The factor applied to the current ratio for a maximal delay. *)
Definition delay_factor (max_delay : Z) (dynamic_screen : bool) : option f32 :=
  if max_delay <? 50 then if dynamic_screen then Some (f32_lit 115 100) else None
  else if max_delay <? 100 then if dynamic_screen then Some (f32_lit 11 10) else None
  else if max_delay <? DELAY_THRESHOLD_150MS then
    if dynamic_screen then Some (f32_lit 105 100) else None
  else if max_delay <? 200 then Some (f32_lit 95 100)
  else if max_delay <? 300 then Some (f32_lit 9 10)
  else if max_delay <? 500 then Some (f32_lit 85 100)
  else Some (f32_lit 8 10).

Definition adjust_ratio (q : VideoQoS) (now : Z) (dynamic_screen : bool) : outcome VideoQoS :=
  if negb (in_vbr_state q) then Done q else
  match list_max ((fun u => avg_delay (delay u)) <$> user_list q) with
  | None => Done q
  | Some max_delay =>
    let target_quality := latest_quality q in
    let target_ratio := quality_ratio (latest_quality q) in
    let current_ratio := ratio q in
    let current_bitrate := bitrate q in
    let ratio_1mbps :=
      if 0 <? current_bitrate then
        Some (fmax (fdiv (fmul current_ratio (f32_of_Z 1000)) (f32_of_Z current_bitrate))
                   BR_MIN_HIGH_RESOLUTION)
      else None in
    let ratio_add_150kbps :=
      if 0 <? current_bitrate then
        Some (fdiv (fmul (f32_of_Z (u32 (current_bitrate + 150))) current_ratio)
                   (f32_of_Z current_bitrate))
      else None in
    let min := min_ratio target_quality ratio_1mbps in
    let max := fmul target_ratio MAX_BR_MULTIPLE in
    let v := match delay_factor max_delay dynamic_screen with
             | Some f => fmul current_ratio f
             | None => current_ratio
             end in
    let v := match ratio_add_150kbps with
             | Some r => if fltb r v && fltb current_ratio r && fleb BR_SPEED current_ratio
                         then r else v
             | None => v
             end in
    let! r := fclamp v min max in
    Done (mkVideoQoS (fps q) r (users q) (displays q) (bitrate_store q)
            now (abr_config q) (new_user_instant q))
  end.

(** [Instant::elapsed().as_secs()] *)
Definition elapsed_secs (now instant : Z) : Z := Z.max 0 (now - instant) / 10 ^ 9.

Definition adjust_fps (q : VideoQoS) (now : Z) : outcome VideoQoS :=
  let! highest := highest_fps q in
  let f := unwrap_or INIT_FPS
             (list_min ((fun u => unwrap_or INIT_FPS (delay_fps (delay u))) <$> user_list q)) in
  let f := if existsb (fun u => response_delayed (delay u)) (user_list q)
           then if MIN_FPS + 1 <? f then MIN_FPS + 1 else f else f in
  let f := if elapsed_secs now (new_user_instant q) <? 1
           then if INIT_FPS <? f then INIT_FPS else f else f in
  let! f := zclamp f MIN_FPS highest in
  Done (with_fps q f).

Definition new_display (q : VideoQoS) (name : string) : VideoQoS :=
  with_displays q (<[name := display_data_default]> (displays q)).

Definition remove_display (q : VideoQoS) (name : string) : VideoQoS :=
  with_displays q (delete name (displays q)).

Definition update_display_data (q : VideoQoS) (now : Z) (name : string) (counter : Z)
  : outcome VideoQoS :=
  let q := match displays q !! name with
           | Some d => with_displays q
               (<[name := mkDisplayData (u64 (send_counter d + counter)) (support_changing_quality d)]>
                  (displays q))
           | None => q
           end in
  let! q := adjust_fps q now in
  if in_vbr_state q then
    if ADJUST_RATIO_INTERVAL <=? elapsed_secs now (adjust_ratio_instant q) then
      let dynamic_screen :=
        existsb (fun d => ADJUST_RATIO_INTERVAL * DYNAMIC_SCREEN_THRESHOLD <=? send_counter d)
          (display_list q) in
      let q := with_displays q
        ((fun d => mkDisplayData 0 (support_changing_quality d)) <$> displays q) in
      adjust_ratio q now dynamic_screen
    else Done q
  else Done (with_ratio q (quality_ratio (latest_quality q))).

(** *** User session management *)

Definition on_connection_open (q : VideoQoS) (now : Z) (enable_abr : string) (id : Z) : VideoQoS :=
  mkVideoQoS (fps q) (ratio q) (<[id := user_data_default]> (users q)) (displays q)
    (bitrate_store q) (adjust_ratio_instant q) (negb (String.eqb enable_abr "N")) now.

Definition on_connection_close (q : VideoQoS) (now : Z) (id : Z) : VideoQoS :=
  let users' := delete id (users q) in
  if decide (users' = ∅) then qos_default now else with_users q users'.

Definition user_custom_fps (q : VideoQoS) (id f : Z) : VideoQoS :=
  if (f <? MIN_FPS) || (MAX_FPS <? f) then q else
  match users q !! id with
  | Some u => with_users q (<[id := mkUserData (auto_adjust_fps u) (Some f) (quality u) (delay u) (record u)]> (users q))
  | None => q
  end.

Definition user_auto_adjust_fps (q : VideoQoS) (id f : Z) : VideoQoS :=
  if (f <? MIN_FPS) || (MAX_FPS <? f) then q else
  match users q !! id with
  | Some u => with_users q (<[id := mkUserData (Some f) (custom_fps u) (quality u) (delay u) (record u)]> (users q))
  | None => q
  end.

(** [ImageQuality] of the protocol. *)
Definition ImageQuality_Low : Z := 2.
Definition ImageQuality_Balanced : Z := 3.
Definition ImageQuality_Best : Z := 4.

Definition convert_quality (q : Z) : outcome Quality :=
  if q =? ImageQuality_Balanced then Done Balanced
  else if q =? ImageQuality_Low then Done Low
  else if q =? ImageQuality_Best then Done Best
  else
    let b := fdiv (f32_of_Z (Z.land (Z.shiftr q 8) 0xFFF * 2)) (f32_of_Z 100) in
    let! v := fclamp b BR_MIN BR_MAX in Done (Custom v).

Definition user_image_quality (q : VideoQoS) (wall id image_quality : Z) : outcome VideoQoS :=
  let! c := convert_quality image_quality in
  match users q !! id with
  | Some u =>
    let q := with_users q
      (<[id := mkUserData (auto_adjust_fps u) (custom_fps u) (Some (wall, c)) (delay u) (record u)]>
         (users q)) in
    Done (with_ratio q (quality_ratio (latest_quality q)))
  | None => Done q
  end.

Definition user_record (q : VideoQoS) (id : Z) (v : bool) : VideoQoS :=
  match users q !! id with
  | Some u => with_users q (<[id := mkUserData (auto_adjust_fps u) (custom_fps u) (quality u) (delay u) v]> (users q))
  | None => q
  end.

(** [(min_fps, normal_fps)] for a target ratio. *)
Definition fps_targets (target_ratio : f32) : Z * Z :=
  if fleb BR_BEST target_ratio then (8, 16)
  else if fleb BR_BALANCED target_ratio then (10, 20)
  else (12, 24).

(** The delay-driven choice of a frame rate; also returns the new
    [quick_increase_fps_count]. *)
Definition network_fps (min_fps normal_fps fps old_avg avg quick : Z) : Z * Z :=
  let dividend_ms := DELAY_THRESHOLD_150MS * min_fps in
  if avg <? 50 then
    let quick := quick + 1 in
    let step := if fps <? normal_fps then 1 else 0 in
    let '(step, quick) := if 3 <=? quick then (5, 0) else (step, quick) in
    (Z.max min_fps (fps + step), quick)
  else if avg <? 100 then
    let step := if avg <? old_avg then if fps <? normal_fps then 1 else 0 else 0 in
    (Z.max min_fps (fps + step), quick)
  else if avg <? DELAY_THRESHOLD_150MS then (Z.max min_fps fps, quick)
  else
    let devide_fps :=
      f32_as_u32 (fceil (fdiv (f32_of_Z fps)
        (fdiv (f32_of_Z avg) (f32_of_Z DELAY_THRESHOLD_150MS)))) in
    if avg <? 200 then (Z.max min_fps devide_fps, quick)
    else if avg <? 300 then (Z.min min_fps devide_fps, quick)
    else if avg <? 600 then (dividend_ms / avg, quick)
    else (Z.min (dividend_ms / avg) devide_fps, quick).

(** The part of [user_network_delay] that updates one user. *)
Definition user_delay_step (qfps highest : Z) (targets : Z * Z) (u : UserData) (dl : Z)
  : outcome UserData :=
  let '(min_fps, normal_fps) := targets in
  let dl := Z.max dl 10 in
  let old_avg := avg_delay (delay u) in
  let d := add_delay (delay u) dl in
  let avg := Z.max (avg_delay d) 10 in
  let '(f, quick) := network_fps min_fps normal_fps qfps old_avg avg (quick_increase_fps_count d) in
  let inc := if avg <? DELAY_THRESHOLD_150MS then increase_fps_count d + 1 else 0 in
  let '(f, inc) := if 3 <=? inc then (f + 1, 0) else (f, inc) in
  let quick := if 50 <? avg then 0 else quick in
  let! f := zclamp f MIN_FPS highest in
  Done (mkUserData (auto_adjust_fps u) (custom_fps u) (quality u)
    (mkUserDelay (response_delayed d) (delay_history d) (Some f) (rtt_calculator d) quick inc)
    (record u)).

Definition user_network_delay (q : VideoQoS) (now : Z) (linux : bool) (id dl : Z) : outcome VideoQoS :=
  let! highest := highest_fps q in
  let targets := fps_targets (quality_ratio (latest_quality q)) in
  match users q !! id with
  | Some u =>
    let! u' := user_delay_step (fps q) highest targets u dl in
    let first := match delay_fps (delay u) with None => true | Some _ => false end in
    let! q := adjust_fps (with_users q (<[id := u']> (users q))) now in
    if first && negb linux then adjust_ratio q now false else Done q
  | None => adjust_fps q now
  end.

Definition user_delay_response_elapsed (q : VideoQoS) (now id elapsed : Z) : outcome VideoQoS :=
  match users q !! id with
  | Some u =>
    let delayed := 2000 <? elapsed in
    let d := delay u in
    let d := mkUserDelay delayed (delay_history d) (delay_fps d) (rtt_calculator d)
               (quick_increase_fps_count d) (increase_fps_count d) in
    let d := if delayed then add_delay d (u32 elapsed) else d in
    let u' := mkUserData (auto_adjust_fps u) (custom_fps u) (quality u) d (record u) in
    let q := with_users q (<[id := u']> (users q)) in
    if delayed then adjust_fps q now else Done q
  | None => Done q
  end.

(** ** The controller as a machine *)

Inductive Op : Type :=
| OpenConn (enable_abr : string) (id : Z)
| CloseConn (id : Z)
| CustomFps (id f : Z)
| AutoAdjustFps (id f : Z)
| SetImageQuality (wall id q : Z)
| SetRecord (id : Z) (v : bool)
| NetworkDelay (linux : bool) (id dl : Z)
| DelayResponse (id elapsed : Z)
| NewDisplay (name : string)
| RemoveDisplay (name : string)
| UpdateDisplay (name : string) (counter : Z)
| SetSupport (name : string) (b : bool)
| StoreBitrate (b : Z)
| ReadRatio.

Definition apply_op (now : Z) (op : Op) (q : VideoQoS) : outcome VideoQoS :=
  match op with
  | OpenConn abr id => Done (on_connection_open q now abr id)
  | CloseConn id => Done (on_connection_close q now id)
  | CustomFps id f => Done (user_custom_fps q id f)
  | AutoAdjustFps id f => Done (user_auto_adjust_fps q id f)
  | SetImageQuality wall id iq => user_image_quality q wall id iq
  | SetRecord id v => Done (user_record q id v)
  | NetworkDelay linux id dl => user_network_delay q now linux id dl
  | DelayResponse id e => user_delay_response_elapsed q now id e
  | NewDisplay n => Done (new_display q n)
  | RemoveDisplay n => Done (remove_display q n)
  | UpdateDisplay n c => update_display_data q now n c
  | SetSupport n b => Done (set_support_changing_quality q n b)
  | StoreBitrate b => Done (store_bitrate q b)
  | ReadRatio => Done (get_ratio q).2
  end.

Fixpoint run (ops : list (Z * Op)) (q : VideoQoS) : outcome VideoQoS :=
  match ops with
  | [] => Done q
  | (now, op) :: ops => let! q := apply_op now op q in run ops q
  end.

(** ** Invariant *)

Definition fps_ok (f : Z) : Prop := MIN_FPS <= f <= MAX_FPS.
Definition opt_fps_ok (o : option Z) : Prop := match o with Some f => fps_ok f | None => True end.

Definition ratio_ok (r : f32) : Prop :=
  fleb BR_MIN_HIGH_RESOLUTION r = true /\ fleb r BR_MAX = true.

(** The ratio of a custom quality, from the 12-bit field of the message. *)
Definition custom_ratio (k : Z) : outcome f32 :=
  fclamp (fdiv (f32_of_Z (k * 2)) (f32_of_Z 100)) BR_MIN BR_MAX.

Definition quality_ok (q : Quality) : Prop :=
  match q with
  | Custom v => exists k, 0 <= k < 4096 /\ custom_ratio k = Done v
  | _ => True
  end.

Definition user_ok (u : UserData) : Prop :=
  opt_fps_ok (custom_fps u) /\ opt_fps_ok (auto_adjust_fps u) /\
  opt_fps_ok (delay_fps (delay u)) /\
  match quality u with Some (_, q) => quality_ok q | None => True end /\
  len (delay_history (delay u)) <= HISTORY_DELAY_LEN + 1 /\
  len (samples (rtt_calculator (delay u))) <= WINDOW_SAMPLES.

Definition qos_ok (q : VideoQoS) : Prop :=
  fps_ok (fps q) /\ ratio_ok (ratio q) /\ map_Forall (fun _ => user_ok) (users q).

(** ** Lemmas *)

Lemma zclamp_ok v lo hi : lo <= hi -> zclamp v lo hi = Done (Z.max lo (Z.min v hi)).
Proof. intros H. unfold zclamp. by rewrite (proj2 (Z.leb_le _ _)). Qed.

Lemma fold_min_le l x : fold_left Z.min l x <= x.
Proof. revert x. induction l as [|y l IH]; intros x; cbn; [lia|]. specialize (IH (Z.min x y)). lia. Qed.

Lemma fold_min_in l x : fold_left Z.min l x = x \/ In (fold_left Z.min l x) l.
Proof.
  revert x. induction l as [|y l IH]; intros x; cbn; [by left|].
  destruct (IH (Z.min x y)) as [->|H]; [|auto]. destruct (Z.min_spec x y) as [[_ ->]|[_ ->]]; auto.
Qed.

Lemma fold_min_le_all l x y : In y l -> fold_left Z.min l x <= y.
Proof.
  revert x. induction l as [|z l IH]; intros x; [done|]. intros [->|H]; cbn; [|by apply IH].
  pose proof (fold_min_le l (Z.min x y)). lia.
Qed.

Lemma list_min_spec l m : list_min l = Some m -> In m l /\ forall y, In y l -> m <= y.
Proof.
  destruct l as [|x l]; [done|]. intros [= <-]. split.
  - destruct (fold_min_in l x) as [->|]; [by left|by right].
  - intros y [->|H]; [apply fold_min_le|by apply fold_min_le_all].
Qed.

Lemma list_min_none l : list_min l = None <-> l = [].
Proof. by destruct l. Qed.

(** All 4096 custom ratios lie in range and are unchanged by the factor 1.0. *)
Definition custom_check (k : Z) : bool :=
  match custom_ratio k with
  | Done v => fleb BR_MIN v && fleb v BR_MAX && is_finite v &&
              match SFcompare (fmul v MAX_BR_MULTIPLE) v with Some Eq => true | _ => false end
  | Panic => false
  end.

Lemma custom_check_all : forallb custom_check (seqZ 0 4096) = true.
Proof. vm_compute. reflexivity. Qed.

Lemma target_ratio_ok t :
  quality_ok t ->
  fleb BR_MIN (quality_ratio t) = true /\ fleb (quality_ratio t) BR_MAX = true /\
  fleb (fmul (quality_ratio t) MAX_BR_MULTIPLE) BR_MAX = true /\
  fleb (quality_ratio t) (fmul (quality_ratio t) MAX_BR_MULTIPLE) = true.
Proof.
  destruct t as [| | |v]; [intros _; by vm_compute..|].
  intros (k & Hk & Hv). pose proof custom_check_all as H. rewrite forallb_forall in H.
  specialize (H k). rewrite <- list_elem_of_In, elem_of_seqZ in H. specialize (H ltac:(lia)).
  unfold custom_check in H. rewrite Hv in H. cbn [quality_ratio].
  apply andb_true_iff in H as [H Hc]. apply andb_true_iff in H as [H _].
  apply andb_true_iff in H as [H1 H2]. split; [done|]. split; [done|].
  assert (fleb (fmul v MAX_BR_MULTIPLE) v = true /\ fleb v (fmul v MAX_BR_MULTIPLE) = true) as [Ha Hb].
  { unfold fleb. rewrite !SFcompare_key in *.
    destruct (fkey (fmul v MAX_BR_MULTIPLE)) as [a|], (fkey v) as [b|]; try done.
    rewrite (lexcmp_antisym a b). destruct (lexcmp a b); done. }
  split; [|done]. eauto using fleb_trans.
Qed.

Lemma ratio_ok_target t : quality_ok t -> ratio_ok (quality_ratio t).
Proof.
  intros H. destruct (target_ratio_ok t H) as (H1 & H2 & _). split; [|done].
  eapply fleb_trans; [|exact H1]. reflexivity.
Qed.

Lemma max_by_time_in l x : max_by_time l = Some x -> In x l.
Proof.
  unfold max_by_time.
  assert (forall l acc, fold_left (fun acc x =>
    match acc with None => Some x | Some a => if a.1 <=? x.1 then Some x else Some a end) l acc = Some x ->
    acc = Some x \/ In x l) as H.
  { clear l. induction l as [|y l IH]; intros acc H; cbn in *; [by left|].
    apply IH in H as [H|H]; [|by right; right].
    destruct acc as [a|]; [|by simplify_eq; right; left].
    destruct (a.1 <=? y.1); simplify_eq; [by right; left|by left]. }
  intros E. by apply H in E as [|].
Qed.

Lemma user_list_in q u : In u (user_list q) <-> exists i, users q !! i = Some u.
Proof.
  unfold user_list. rewrite <- list_elem_of_In, list_elem_of_fmap. split.
  - intros ([i u'] & -> & H). apply elem_of_map_to_list in H. eauto.
  - intros [i H]. exists (i, u). split; [done|]. by apply elem_of_map_to_list.
Qed.

Lemma latest_quality_ok q :
  map_Forall (fun _ => user_ok) (users q) -> quality_ok (latest_quality q).
Proof.
  intros Hu. unfold latest_quality.
  destruct (max_by_time _) as [[t ql]|] eqn:E; [|done]. cbn.
  apply max_by_time_in in E. rewrite <- list_elem_of_In in E.
  apply list_elem_of_omap in E as (u & Hin & Hq). rewrite list_elem_of_In in Hin.
  apply user_list_in in Hin as [i Hi]. destruct (Hu _ _ Hi) as (_ & _ & _ & Hq' & _).
  by rewrite Hq in Hq'.
Qed.

Lemma fmax_le x y z : fleb x z = true -> fleb y z = true -> fleb (fmax x y) z = true.
Proof.
  intros Hx Hy. unfold fmax. destruct (fleb_nan _ _ Hx) as [-> _], (fleb_nan _ _ Hy) as [-> _].
  by destruct (fltb x y).
Qed.

Lemma fmax_ge_r x y : is_nan y = false -> fleb y (fmax x y) = true.
Proof.
  intros Hy. unfold fmax. destruct (is_nan x) eqn:Hx; [by apply fleb_refl|]. rewrite Hy.
  destruct (fltb x y) eqn:E; [by apply fleb_refl|]. by apply fltb_false_fleb.
Qed.

Lemma lower_le (o : option f32) m z :
  fleb m z = true -> fleb (match o with Some r => if fltb r m then r else m | None => m end) z = true.
Proof.
  intros H. destruct o as [r|]; [|done]. destruct (fltb r m) eqn:E; [|done].
  eauto using fleb_trans, fltb_fleb.
Qed.

(** The bounds handed to [clamp] are always in order. *)
Lemma min_ratio_le_max t o :
  quality_ok t -> fleb (min_ratio t o) (fmul (quality_ratio t) MAX_BR_MULTIPLE) = true.
Proof.
  intros Hq. destruct t as [| | |v]; cbn [min_ratio].
  - apply fmax_le; [|reflexivity]. apply lower_le. reflexivity.
  - apply fmax_le; [|reflexivity]. apply lower_le. reflexivity.
  - reflexivity.
  - destruct (target_ratio_ok _ Hq) as (H1 & _ & _ & H4). eapply fleb_trans; [|exact H4].
    eapply fleb_trans; [|exact H1]. reflexivity.
Qed.

Lemma min_ratio_ge t o : fleb BR_MIN_HIGH_RESOLUTION (min_ratio t o) = true.
Proof.
  destruct t; cbn [min_ratio].
  - eapply fleb_trans; [|by apply fmax_ge_r]. reflexivity.
  - by apply fmax_ge_r.
  - reflexivity.
  - reflexivity.
Qed.

Lemma delay_factor_finite d b f : delay_factor d b = Some f -> is_finite f = true.
Proof. unfold delay_factor. intros H. repeat split_if; simplify_eq; reflexivity. Qed.

Lemma ratio_ok_finite r : ratio_ok r -> is_finite r = true.
Proof. intros [H1 H2]. by eapply fleb_finite; [| |exact H1|exact H2]. Qed.

Lemma adjust_ratio_ok q now dyn :
  qos_ok q -> exists q', adjust_ratio q now dyn = Done q' /\ qos_ok q' /\ fps q' = fps q /\ users q' = users q.
Proof.
  intros (Hf & Hr & Hu). unfold adjust_ratio.
  destruct (negb (in_vbr_state q)); [by exists q|].
  destruct (list_max _) as [md|]; [|by exists q]. cbv zeta.
  set (o1 := if 0 <? bitrate q then Some (fmax _ _) else None).
  set (o2 := if 0 <? bitrate q then Some (fdiv _ _) else None).
  set (v0 := match delay_factor md dyn with Some f => _ | None => _ end).
  assert (is_nan v0 = false) as Hv0.
  { pose proof (ratio_ok_finite _ Hr) as Hfin. unfold v0. destruct (delay_factor md dyn) as [f|] eqn:E.
    - apply fmul_not_nan; [done|]. by eapply delay_factor_finite.
    - by destruct (ratio q). }
  set (v1 := match o2 with Some r => _ | None => _ end).
  assert (is_nan v1 = false) as Hv1.
  { unfold v1. destruct o2 as [r|]; [|done]. destruct (fltb r v0) eqn:E; [|done].
    cbn [andb]. destruct (_ && _); [|done]. by apply fltb_nan in E as [? _]. }
  pose proof (latest_quality_ok q Hu) as Hq.
  pose proof (min_ratio_le_max _ o1 Hq) as Hle. pose proof (min_ratio_ge (latest_quality q) o1) as Hge.
  destruct (target_ratio_ok _ Hq) as (_ & _ & Hmax & _).
  destruct (fclamp_range v1 _ _ Hle Hv1) as (r & -> & H1 & H2). cbn.
  eexists. split; [done|]. split; [|done]. split; [done|]. split; [|done].
  split; cbn [ratio]; eauto using fleb_trans.
Qed.

Lemma highest_fps_ok q : exists h, highest_fps q = Done h /\ fps_ok h.
Proof.
  unfold highest_fps. rewrite zclamp_ok by (vm_compute; congruence).
  eexists. split; [done|]. unfold fps_ok, MIN_FPS, MAX_FPS. lia.
Qed.

Lemma adjust_fps_ok q now :
  qos_ok q -> exists q', adjust_fps q now = Done q' /\ qos_ok q' /\
    users q' = users q /\ displays q' = displays q /\ ratio q' = ratio q.
Proof.
  intros (Hf & Hr & Hu). unfold adjust_fps.
  destruct (highest_fps_ok q) as (h & -> & Hh). cbn.
  set (f := if _ <? 1 then _ else _). unfold fps_ok in *.
  rewrite zclamp_ok by lia. cbn. eexists. split; [done|].
  split; [|done]. split; [|split; done]. cbn. unfold fps_ok, MIN_FPS, MAX_FPS in *. lia.
Qed.

Lemma rtt_update_samples r d :
  len (samples r) <= WINDOW_SAMPLES -> len (samples (rtt_update r d)) <= WINDOW_SAMPLES.
Proof.
  intros H. unfold rtt_update, WINDOW_SAMPLES, len in *. cbn [samples].
  destruct (60 <=? _) eqn:E; zbool; rewrite length_app; cbn [length].
  - destruct (samples r); cbn [tail length] in *; lia.
  - lia.
Qed.

Lemma add_delay_ok u d :
  user_ok u -> user_ok (mkUserData (auto_adjust_fps u) (custom_fps u) (quality u) (add_delay (delay u) d) (record u)).
Proof.
  intros (H1 & H2 & H3 & H4 & H5 & H6). repeat split; try done; cbn.
  - unfold HISTORY_DELAY_LEN, len in *. destruct (2 <? _) eqn:E; zbool; rewrite length_app; cbn [length].
    + destruct (delay_history (delay u)); cbn [tail length] in *; lia.
    + lia.
  - by apply rtt_update_samples.
Qed.

Lemma user_delay_step_ok f h t u d :
  fps_ok h -> user_ok u -> exists u' g, user_delay_step f h t u d = Done u' /\ user_ok u' /\
    delay_fps (delay u') = Some g /\ MIN_FPS <= g <= h.
Proof.
  intros Hh Hu. unfold user_delay_step. destruct t as [mn nf].
  destruct (network_fps _ _ _ _ _ _) as [f1 quick].
  destruct (if 3 <=? _ then _ else _) as [f2 inc]. unfold fps_ok in Hh.
  rewrite zclamp_ok by lia. cbn. eexists _, _. split; [done|].
  pose proof (add_delay_ok u (Z.max d 10) Hu) as (H1 & H2 & H3 & H4 & H5 & H6).
  split; [|split; [done|unfold MIN_FPS, MAX_FPS in *; lia]].
  repeat split; try done; cbn; unfold MIN_FPS, MAX_FPS in *; lia.
Qed.

Lemma with_users_ok q m : qos_ok q -> map_Forall (fun _ => user_ok) m -> qos_ok (with_users q m).
Proof. intros (? & ? & ?) ?. done. Qed.

Lemma insert_user_ok q id u : qos_ok q -> user_ok u -> qos_ok (with_users q (<[id := u]> (users q))).
Proof. intros Hq Hu. apply with_users_ok; [done|]. apply map_Forall_insert_2; [done|apply Hq]. Qed.

Lemma user_ok_default : user_ok user_data_default.
Proof. repeat split; vm_compute; congruence. Qed.

Lemma qos_default_ok now : qos_ok (qos_default now).
Proof.
  split; [vm_compute; split; congruence|]. split; [vm_compute; done|]. apply map_Forall_empty.
Qed.

Lemma convert_quality_ok iq : exists c, convert_quality iq = Done c /\ quality_ok c.
Proof.
  unfold convert_quality. repeat (destruct (_ =? _); [eexists; split; done|]).
  set (k := Z.land (Z.shiftr iq 8) 0xFFF).
  assert (0 <= k < 4096) as Hk.
  { unfold k. change 0xFFF with (2 ^ 12 - 1). rewrite land_mask by lia. apply Z.mod_pos_bound. lia. }
  destruct (fclamp_done (fdiv (f32_of_Z (k * 2)) (f32_of_Z 100)) BR_MIN BR_MAX) as [v Hv]; [done|].
  rewrite Hv. cbn. eexists. split; [done|]. exists k. done.
Qed.

Lemma with_ratio_target_ok q :
  qos_ok q -> qos_ok (with_ratio q (quality_ratio (latest_quality q))).
Proof.
  intros (Hf & Hr & Hu). split; [done|]. split; [|done].
  apply ratio_ok_target, latest_quality_ok. done.
Qed.

#[local] Hint Resolve insert_user_ok with_users_ok with_ratio_target_ok qos_default_ok user_ok_default : qos.

(** Changing one field of a user that keeps it well formed. *)
Lemma update_user_ok q id u u' :
  qos_ok q -> users q !! id = Some u -> (user_ok u -> user_ok u') ->
  qos_ok (with_users q (<[id := u']> (users q))).
Proof.
  intros Hq Hl H. apply insert_user_ok; [done|]. apply H. destruct Hq as (_ & _ & Hu). by eapply Hu.
Qed.

Lemma set_fps_in_range f : (f <? MIN_FPS) || (MAX_FPS <? f) = false -> fps_ok f.
Proof. intros H. zbool. unfold fps_ok. lia. Qed.

Lemma user_image_quality_ok q wall id iq :
  qos_ok q -> exists q', user_image_quality q wall id iq = Done q' /\ qos_ok q'.
Proof.
  intros Hq. unfold user_image_quality. destruct (convert_quality_ok iq) as (c & -> & Hc). cbn [outcome_bind].
  destruct (users q !! id) as [u|] eqn:Hu; [|by exists q].
  eexists. split; [done|]. apply with_ratio_target_ok. eapply update_user_ok; [done..|].
  intros (H1 & H2 & H3 & H4 & H5 & H6). done.
Qed.

Lemma user_network_delay_ok q now linux id dl :
  qos_ok q -> exists q', user_network_delay q now linux id dl = Done q' /\ qos_ok q'.
Proof.
  intros Hq. unfold user_network_delay. destruct (highest_fps_ok q) as (h & -> & Hh). cbn [outcome_bind].
  destruct (users q !! id) as [u|] eqn:Hu; cycle 1.
  { destruct (adjust_fps_ok q now Hq) as (q' & -> & Hq' & _). eauto. }
  assert (user_ok u) as Huk by (destruct Hq as (_ & _ & H); by eapply H).
  destruct (user_delay_step_ok (fps q) h (fps_targets (quality_ratio (latest_quality q))) u dl Hh Huk)
    as (u' & g & -> & Hu' & _). cbn [outcome_bind].
  destruct (adjust_fps_ok (with_users q (<[id := u']> (users q))) now) as (q' & -> & Hq' & _);
    [auto with qos|]. cbn [outcome_bind].
  destruct (_ && _); [|eauto]. destruct (adjust_ratio_ok q' now false Hq') as (q2 & -> & ? & _). eauto.
Qed.

Lemma user_delay_response_ok q now id e :
  qos_ok q -> exists q', user_delay_response_elapsed q now id e = Done q' /\ qos_ok q'.
Proof.
  intros Hq. unfold user_delay_response_elapsed.
  destruct (users q !! id) as [u|] eqn:Hu; [|eauto].
  assert (user_ok u) as Huk by (destruct Hq as (_ & _ & H); by eapply H).
  set (u1 := mkUserData (auto_adjust_fps u) (custom_fps u) (quality u)
    (mkUserDelay (2000 <? e) (delay_history (delay u)) (delay_fps (delay u)) (rtt_calculator (delay u))
       (quick_increase_fps_count (delay u)) (increase_fps_count (delay u))) (record u)).
  assert (user_ok u1) as Hu1 by done.
  destruct (2000 <? e) eqn:E; cbn [outcome_bind].
  - match goal with |- context [adjust_fps ?x _] => destruct (adjust_fps_ok x now) as (q' & -> & ? & _) end; [|eauto].
    apply insert_user_ok; [done|]. apply (add_delay_ok u1 (u32 e) Hu1).
  - eexists. split; [done|]. by apply insert_user_ok.
Qed.

Lemma update_display_ok q now n c :
  qos_ok q -> exists q', update_display_data q now n c = Done q' /\ qos_ok q'.
Proof.
  intros Hq. unfold update_display_data.
  set (q0 := match displays q !! n with Some d => _ | None => q end).
  assert (qos_ok q0) as Hq0 by (unfold q0; destruct (displays q !! n); done).
  destruct (adjust_fps_ok q0 now Hq0) as (q1 & -> & Hq1 & _). cbn [outcome_bind].
  destruct (in_vbr_state q1); [|eexists; split; [done|by apply with_ratio_target_ok]].
  destruct (_ <=? _); [|eauto].
  match goal with |- context [adjust_ratio ?x _ ?b] => destruct (adjust_ratio_ok x now b) as (q' & -> & ? & _) end;
    [done|eauto].
Qed.

Lemma apply_op_ok now op q : qos_ok q -> exists q', apply_op now op q = Done q' /\ qos_ok q'.
Proof.
  intros Hq. destruct op; cbn [apply_op];
    auto using user_image_quality_ok, user_network_delay_ok, user_delay_response_ok, update_display_ok;
    eexists; (split; [reflexivity|]).
  - destruct Hq as (? & ? & ?). split; [done|]. split; [done|].
    cbn [users on_connection_open]. apply map_Forall_insert_2; auto with qos.
  - unfold on_connection_close. case_decide; [auto with qos|].
    apply with_users_ok; [done|]. apply map_Forall_delete. apply Hq.
  - unfold user_custom_fps. destruct (_ || _) eqn:E; [done|].
    destruct (users q !! id) eqn:Hu; [|done]. eapply update_user_ok; [done..|].
    intros (? & ? & ? & ? & ? & ?). apply set_fps_in_range in E. done.
  - unfold user_auto_adjust_fps. destruct (_ || _) eqn:E; [done|].
    destruct (users q !! id) eqn:Hu; [|done]. eapply update_user_ok; [done..|].
    intros (? & ? & ? & ? & ? & ?). apply set_fps_in_range in E. done.
  - unfold user_record. destruct (users q !! id) eqn:Hu; [|done]. by eapply update_user_ok.
  - done.
  - done.
  - unfold set_support_changing_quality. by destruct (displays q !! name).
  - done.
  - unfold get_ratio. destruct (_ || _); [|done]. by destruct Hq as (? & ? & ?).
Qed.

Lemma run_ok ops q : qos_ok q -> exists q', run ops q = Done q' /\ qos_ok q'.
Proof.
  revert q. induction ops as [|[now op] ops IH]; intros q Hq; cbn [run]; [eauto|].
  destruct (apply_op_ok now op q Hq) as (q1 & -> & Hq1). cbn. auto.
Qed.

(** ** Properties *)

(** C6. The controller never panics and stays in range: after any sequence of
    operations from its initial state, at any clock readings and with any
    reported delays, every [clamp] has ordered bounds, the frame rate is in
    [1, 120], the ratio is a number in [0.1, 40], and every user's limits,
    delay history (at most 3) and sample window (at most 60) are in bounds. *)
Theorem qos_never_panics now0 ops :
  exists q, run ops (qos_default now0) = Done q /\ qos_ok q.
Proof. apply run_ok, qos_default_ok. Qed.

(** The delay bands: for an average delay below 200 ms the chosen frame rate
    is at least the minimum for the image quality, from 200 ms on it is at most
    that minimum, and from 300 ms on at most half of it. *)
Theorem network_fps_bands min_fps normal_fps f old avg quick :
  0 <= min_fps -> 0 <= avg ->
  let g := (network_fps min_fps normal_fps f old avg quick).1 in
  (avg < 200 -> min_fps <= g) /\ (200 <= avg -> g <= min_fps) /\
  (300 <= avg -> 2 * g <= min_fps).
Proof.
  intros Hm Ha. unfold network_fps, DELAY_THRESHOLD_150MS.
  set (dv := f32_as_u32 _). cbv zeta.
  assert (300 <= avg -> 2 * (150 * min_fps / avg) <= min_fps) as Hdiv.
  { intros H. assert (150 * min_fps / avg <= 150 * min_fps / 300) as Hle
      by (apply Z.div_le_compat_l; lia).
    pose proof (Z.mul_div_le (150 * min_fps) 300 ltac:(lia)). lia. }
  repeat split_if; zbool; cbn [fst]; split_and!; intros; try lia;
    assert (300 <= avg) as H3 by lia; specialize (Hdiv H3);
    assert (0 <= 150 * min_fps / avg) by (apply Z.div_pos; lia); lia.
Qed.

Lemma network_fps_bands_witness :
  let g := (network_fps 8 16 2 0 170 0).1 in
  (170 < 200 -> 8 <= g) /\ (200 <= 170 -> g <= 8) /\ (300 <= 170 -> 2 * g <= 8).
Proof. apply (network_fps_bands 8 16 2 0 170 0); lia. Defined.

(** [adjust_fps] serves the slowest viewer: the new rate exceeds neither any
    viewer's requested maximum nor any viewer's delay-based rate (floored at
    1); with a viewer whose response is overdue it is at most 2, and within
    the first second after a connection at most [INIT_FPS]. *)
Theorem adjust_fps_slowest q now q' h :
  adjust_fps q now = Done q' -> highest_fps q = Done h ->
  fps q' <= h /\
  (forall i u, users q !! i = Some u -> fps q' <= Z.max 1 (unwrap_or INIT_FPS (delay_fps (delay u)))) /\
  (forall i u, users q !! i = Some u -> response_delayed (delay u) = true -> fps q' <= 2) /\
  (elapsed_secs now (new_user_instant q) < 1 -> fps q' <= INIT_FPS).
Proof.
  intros Ha Hh. unfold adjust_fps in Ha. rewrite Hh in Ha. cbn [outcome_bind] in Ha.
  set (l := (fun u => unwrap_or INIT_FPS (delay_fps (delay u))) <$> user_list q) in Ha.
  set (f0 := unwrap_or INIT_FPS (list_min l)) in Ha.
  set (f1 := if existsb _ _ then _ else f0) in Ha.
  set (f2 := if _ <? 1 then _ else f1) in Ha.
  unfold zclamp in Ha. destruct (MIN_FPS <=? h) eqn:Eh; [|done]. cbn [outcome_bind] in Ha. zbool.
  injection Ha as <-. cbn [fps with_fps]. unfold MIN_FPS, INIT_FPS in *.
  assert (f1 <= f0) as H1 by (unfold f1; destruct (existsb _ _); [destruct (_ <? f0) eqn:?|]; zbool; lia).
  assert (f2 <= f1) as H2 by (unfold f2; destruct (_ <? 1); [destruct (_ <? f1) eqn:?|]; zbool; lia).
  split; [lia|]. split_and!.
  - intros i u Hu. assert (f0 <= unwrap_or 15 (delay_fps (delay u))); [|lia].
    assert (In (unwrap_or 15 (delay_fps (delay u))) l) as Hin.
    { unfold l. rewrite <- list_elem_of_In. apply list_elem_of_fmap. exists u. split; [done|].
      rewrite list_elem_of_In. apply user_list_in. eauto. }
    unfold f0. destruct (list_min l) as [m|] eqn:Em.
    + cbn. apply list_min_spec in Em as [_ Em]. auto.
    + apply list_min_none in Em. rewrite Em in Hin. done.
  - intros i u Hu Hd. assert (f1 <= 2); [|lia]. unfold f1.
    assert (existsb (fun u => response_delayed (delay u)) (user_list q) = true) as ->.
    { apply existsb_exists. exists u. split; [apply user_list_in; eauto|done]. }
    destruct (_ <? f0) eqn:?; zbool; lia.
  - intros He. assert (f2 <= 15); [|lia]. unfold f2. rewrite (proj2 (Z.ltb_lt _ _)) by done.
    destruct (_ <? f1) eqn:?; zbool; lia.
Qed.

Lemma adjust_fps_slowest_witness :
  let q := on_connection_open (qos_default 0) 0 "Y" 7 in
  exists q', adjust_fps q 5 = Done q' /\ fps q' <= 30 /\
    (elapsed_secs 5 (new_user_instant q) < 1 -> fps q' <= INIT_FPS).
Proof.
  intros q. eexists. split; [vm_compute; reflexivity|].
  destruct (adjust_fps_slowest q 5 _ 30 ltac:(vm_compute; reflexivity) ltac:(vm_compute; reflexivity))
    as (H1 & _ & _ & H4). split; [exact H1|exact H4].
Defined.

Lemma max_by_time_max l x : max_by_time l = Some x -> forall y, In y l -> y.1 <= x.1.
Proof.
  unfold max_by_time.
  assert (forall l acc, fold_left (fun acc x =>
    match acc with None => Some x | Some a => if a.1 <=? x.1 then Some x else Some a end) l acc = Some x ->
    (forall a, acc = Some a -> a.1 <= x.1) /\ forall y, In y l -> y.1 <= x.1) as H.
  { clear l. induction l as [|y l IH]; intros acc H; cbn in *.
    - split; [|done]. intros a ->. by simplify_eq.
    - apply IH in H as [H1 H2]. destruct acc as [a|].
      + destruct (a.1 <=? y.1) eqn:E; zbool; specialize (H1 _ eq_refl); split; intros.
        * simplify_eq. lia.
        * destruct H as [->|]; auto.
        * by simplify_eq.
        * destruct H as [->|]; [lia|auto].
      + specialize (H1 _ eq_refl). split; [done|]. intros z [->|]; auto. }
  intros E. by apply H in E as [_ ?].
Qed.

(** [latest_quality] is the most recent choice: when some viewer has chosen
    a quality, it is one viewer's choice, and no viewer chose later. *)
Theorem latest_quality_latest q i u t c :
  users q !! i = Some u -> quality u = Some (t, c) ->
  exists j w t', users q !! j = Some w /\ quality w = Some (t', latest_quality q) /\
    forall k v tv cv, users q !! k = Some v -> quality v = Some (tv, cv) -> tv <= t'.
Proof.
  intros Hu Hq. unfold latest_quality.
  assert (forall k v tv cv, users q !! k = Some v -> quality v = Some (tv, cv) ->
            In (tv, cv) (omap quality (user_list q))) as Hin.
  { intros k v tv cv Hk Hv. rewrite <- list_elem_of_In. apply list_elem_of_omap. exists v.
    split; [|done]. rewrite list_elem_of_In. apply user_list_in. eauto. }
  destruct (max_by_time _) as [[t' c']|] eqn:E.
  - pose proof (max_by_time_max _ _ E) as Hmax. apply max_by_time_in in E.
    rewrite <- list_elem_of_In in E. apply list_elem_of_omap in E as (w & Hw & Hwq).
    rewrite list_elem_of_In in Hw. apply user_list_in in Hw as [j Hj].
    exists j, w, t'. split; [done|]. split; [done|].
    intros k v tv cv Hk Hv. apply (Hmax (tv, cv)). eauto.
  - specialize (Hin _ _ _ _ Hu Hq). exfalso. revert E Hin.
    generalize (omap quality (user_list q)). intros l. unfold max_by_time.
    assert (forall (l : list (Z * Quality)) a, fold_left (fun acc x =>
      match acc with None => Some x | Some a => if a.1 <=? x.1 then Some x else Some a end) l (Some a) <> None) as H.
    { clear. induction l as [|y l IH]; intros a; cbn; [done|]. destruct (_ <=? _); apply IH. }
    destruct l; [done|]. cbn. intros E. by apply H in E.
Qed.

Lemma latest_quality_latest_witness :
  let u1 := mkUserData None None (Some (5, Low)) user_delay_default false in
  let u2 := mkUserData None None (Some (9, Best)) user_delay_default false in
  let q := with_users (qos_default 0) (<[1 := u1]> (<[2 := u2]> ∅)) in
  exists j w t', users q !! j = Some w /\ quality w = Some (t', latest_quality q) /\
    forall k v tv cv, users q !! k = Some v -> quality v = Some (tv, cv) -> tv <= t'.
Proof.
  intros u1 u2 q. apply (latest_quality_latest q 1 u1 5 Low); reflexivity.
Defined.

(** ** The RTT estimator against its specification *)

Definition last_n (n : nat) (l : list Z) : list Z := drop (length l - n) l.

Lemma list_min_app_one l d :
  list_min (l ++ [d]) = Some (match list_min l with Some m => Z.min m d | None => d end).
Proof. destruct l as [|x l]; [done|]. cbn. by rewrite fold_left_app. Qed.

Lemma last_n_app_one n l d : (0 < n)%nat ->
  last_n n (l ++ [d]) = (if (n <=? length (last_n n l))%nat then tail (last_n n l) else last_n n l) ++ [d].
Proof.
  intros Hn. unfold last_n. rewrite length_app, length_drop. cbn [length].
  destruct (Nat.leb_spec n (length l - (length l - n))).
  - replace (length l + 1 - n)%nat with (S (length l - n)) by lia.
    rewrite drop_app_le by lia. f_equal.
    assert (length l - n < length l)%nat as Hlt by lia.
    destruct (lookup_lt_is_Some_2 l (length l - n) Hlt) as [x Hx].
    by rewrite (drop_S _ _ _ Hx).
  - rewrite drop_app_le by lia. f_equal.
    replace (length l + 1 - n)%nat with 0%nat by lia. by replace (length l - n)%nat with 0%nat by lia.
Qed.

(** The RTT estimator implements its specification: after any history of
    delays the window holds exactly the last 60 of them, [window_min_rtt] is
    their minimum and [min_rtt] the minimum of the whole history. *)
Theorem rtt_refines ds :
  let r := fold_left rtt_update ds rtt_default in
  samples r = last_n 60 ds /\ min_rtt r = list_min ds /\ window_min_rtt r = list_min (last_n 60 ds).
Proof.
  induction ds as [|d ds IH] using rev_ind; [done|].
  rewrite fold_left_app. cbn [fold_left]. set (r := fold_left rtt_update ds rtt_default) in *.
  cbv zeta in *. destruct IH as (Hs & Hm & Hw).
  assert (samples (rtt_update r d) = last_n 60 (ds ++ [d])) as Hs'.
  { rewrite last_n_app_one by lia. cbn [samples rtt_update]. rewrite Hs. f_equal.
    unfold WINDOW_SAMPLES, len.
    destruct (Nat.leb_spec 60 (length (last_n 60 ds))), (Z.leb_spec 60 (Z.of_nat (length (last_n 60 ds))));
      done || lia. }
  split; [done|]. split; [|by rewrite <- Hs'].
  rewrite list_min_app_one. cbn [min_rtt rtt_update]. rewrite Hm.
  destruct (list_min ds) as [m|]; [|done]. destruct (d <? m) eqn:E; zbool; f_equal; lia.
Qed.

End Qos.
