(* ===== verification/Messages.v ===== *)
(** * The peer messages the server side handles

    The unions of [libs/hbb_common/protos/message.proto] as inductive types
    (the Rust structs are generated from that file by the build).  A message
    is its union; fields no modelled handler looks at are dropped, and a field
    that is only carried through is kept as it is.  A proto3 enum field that
    arrives as an [EnumOrUnknown] is an [option]: [None] is a number the
    receiver does not know ([enum_value()] is [Err]).

    The types are in a module so that their short names ([File], [Audio], ...)
    do not shadow those of other components. *)

From S2P Require Import Prelude FileTransfer.

Module Msg.

(** Bytes that are carried but not looked into. *)
Abbreviation blob := (list Z).

Inductive BoolOption : Type := NotSet | No | Yes.

#[global] Instance BoolOption_eq_dec : EqDecision BoolOption.
Proof. solve_decision. Defined.

(** [ImageQuality]: the numeric values are those of the proto file. *)
Inductive ImageQuality : Type := IQ_NotSet | IQ_Low | IQ_Balanced | IQ_Best.

Definition ImageQuality_value (q : ImageQuality) : Z :=
  match q with IQ_NotSet => 0 | IQ_Low => 2 | IQ_Balanced => 3 | IQ_Best => 4 end.

Inductive PreferCodec : Type := PC_Auto | PC_VP9 | PC_H264 | PC_H265 | PC_VP8 | PC_AV1.

#[global] Instance PreferCodec_eq_dec : EqDecision PreferCodec.
Proof. solve_decision. Defined.

Inductive Chroma : Type := I420 | I444.

#[global] Instance Chroma_eq_dec : EqDecision Chroma.
Proof. solve_decision. Defined.

Record CodecAbility : Type := mkCodecAbility {
  ca_vp8 : bool; ca_vp9 : bool; ca_av1 : bool; ca_h264 : bool; ca_h265 : bool }.

Record SupportedDecoding : Type := mkSupportedDecoding {
  ability_vp9 : Z; ability_h264 : Z; ability_h265 : Z; prefer : option PreferCodec;
  ability_vp8 : Z; ability_av1 : Z; i444 : option CodecAbility;
  prefer_chroma : option Chroma }.

Record OptionMessage : Type := mkOptionMessage {
  o_image_quality : option ImageQuality;
  o_lock_after_session_end : option BoolOption;
  o_show_remote_cursor : option BoolOption;
  o_privacy_mode : option BoolOption;
  o_block_input : option BoolOption;
  o_custom_image_quality : Z;
  o_disable_audio : option BoolOption;
  o_disable_clipboard : option BoolOption;
  o_enable_file_transfer : option BoolOption;
  o_supported_decoding : option SupportedDecoding;
  o_custom_fps : Z;
  o_disable_keyboard : option BoolOption;
  o_follow_remote_cursor : option BoolOption;
  o_follow_remote_window : option BoolOption;
  o_terminal_persistent : option BoolOption;
  o_show_my_cursor : option BoolOption }.

Record PortForward : Type := mkPortForward { pf_host : string; pf_port : Z }.

Inductive LoginUnion : Type :=
| LFileTransfer (dir : string) (show_hidden : bool)
| LPortForward (pf : PortForward)
| LViewCamera
| LTerminal (service_id : string).

Record OSLogin : Type := mkOSLogin { os_username : string; os_password : string }.

Record LoginRequest : Type := mkLoginRequest {
  lr_username : string; lr_password : blob; lr_my_id : string; lr_my_name : string;
  lr_option : option OptionMessage; lr_union : option LoginUnion;
  lr_video_ack_required : bool; lr_session_id : Z; lr_version : string;
  lr_os_login : option OSLogin; lr_my_platform : string; lr_hwid : blob }.

Definition default_lr : LoginRequest :=
  mkLoginRequest "" [] "" "" None None false 0 "" None "" [].

Inductive Permission : Type := Keyboard | Clipboard | Audio | File | Restart | Recording | BlockInput.

#[global] Instance Permission_eq_dec : EqDecision Permission.
Proof. solve_decision. Defined.

Inductive PrivacyModeState : Type :=
| PrvStateUnknown | PrvOnByOther | PrvNotSupported | PrvOnSucceeded | PrvOnFailedDenied
| PrvOnFailedPlugin | PrvOnFailed | PrvOffSucceeded | PrvOffByPeer | PrvOffFailed | PrvOffUnknown.

Inductive BlockInputState : Type :=
| BlkStateUnknown | BlkOnSucceeded | BlkOnFailed | BlkOffSucceeded | BlkOffFailed.

(** The scale is 1 unless the platform scales displays. *)
Record DisplayInfo : Type := mkDisplayInfo {
  di_x : Z; di_y : Z; di_width : Z; di_height : Z; di_name : string; di_online : bool; di_cursor_embedded : bool;
  di_original_resolution : Z * Z; di_scale : Z }.

#[global] Instance DisplayInfo_eq_dec : EqDecision DisplayInfo.
Proof. solve_decision. Defined.

Record SwitchDisplay : Type := mkSwitchDisplay {
  sd_display : Z; sd_x : Z; sd_y : Z; sd_width : Z; sd_height : Z; sd_cursor_embedded : bool;
  sd_resolutions : list (Z * Z); sd_original_resolution : Z * Z }.

Inductive Misc : Type :=
| ChatMessage (text : string)
| MSwitchDisplay (s : SwitchDisplay)
| PermissionInfo (p : Permission) (enabled : bool)
| Option (o : OptionMessage)
| AudioFormat (sample_rate channels : Z)
| CloseReason (s : string)
| RefreshVideo (r : bool)
| VideoReceived
| BackPrivacyMode (s : PrivacyModeState) (details impl_key : string)
| BackBlockInput (s : BlockInputState) (details : string)
| RestartRemoteDevice
| StopService
| SwitchSidesRequest (uuid : blob)
| SwitchBack
| ChangeResolution (w h : Z)
| ChangeDisplayResolution (display w h : Z)
| AutoAdjustFps (fps : Z)
| ClientRecordStatus (status : bool)
| CaptureDisplays (add sub set_ : list Z)
| RefreshVideoDisplay (display : Z)
| TogglePrivacyMode (impl_key : string) (on : bool)
| MessageQuery (switch_display : Z)
| FollowCurrentDisplay (display : Z)
| MiscOther (tag : Z).

(** *** The clipboard channel *)

Record CliprdrFile : Type := mkCliprdrFile { cf_name : list Z; cf_size : Z }.

Inductive Cliprdr : Type :=
| Ready
| FormatList (formats : list (Z * string))
| FormatListResponse (msg_flags : Z)
| FormatDataRequest (requested_format_id : Z)
| FormatDataResponse (msg_flags : Z) (format_data : blob)
| FileContentsRequest (stream_id list_index dw_flags n_position_low n_position_high cb_requested : Z)
                      (have_clip_data_id : bool) (clip_data_id : Z)
| FileContentsResponse (msg_flags stream_id : Z) (requested_data : blob)
| TryEmpty
| Files (files : list CliprdrFile).

Record MessageBox : Type := mkMessageBox {
  mb_msgtype : string; mb_title : string; mb_text : string; mb_link : string }.

(** *** Keyboard events *)

Inductive KeyboardMode : Type := Legacy | Map | Translate | AutoMode.

Inductive KeyUnion : Type :=
| ControlKey (k : Z) | Chr (code : Z) | Unicode (code : Z) | Seq (s : string) | Win2Win (code : Z).

Record KeyEvent : Type := mkKeyEvent {
  k_down : bool; k_press : bool; k_union : option KeyUnion; k_mode : option KeyboardMode;
  k_modifiers : list Z }.

Record MouseEvent : Type := mkMouseEvent {
  me_mask : Z; me_x : Z; me_y : Z; me_modifiers : list Z }.

(** *** File management *)

Inductive FileAction : Type :=
| ReadDir (path : string) (include_hidden : bool)
| Send (id : Z) (path : string) (include_hidden : bool) (file_num : Z) (file_type : Z)
| Receive (id : Z) (path : string) (files : list Transfer.FileEntry) (file_num total_size : Z)
| Create (id : Z) (path : string)
| RemoveDir (id : Z) (path : string) (recursive : bool)
| RemoveFile (id : Z) (path : string) (file_num : Z)
| AllFiles (id : Z) (path : string) (include_hidden : bool)
| Cancel (id : Z)
| SendConfirm (r : Transfer.FileTransferSendConfirmRequest)
| Rename (id : Z) (path new_name : string)
| ReadEmptyDirs (path : string) (include_hidden : bool).

Inductive FileResponse : Type :=
| FrBlock (id file_num : Z) (data : blob) (compressed : bool)
| FrError (id : Z) (error : string) (file_num : Z)
| FrDone (id file_num : Z)
| FrDigest (d : Transfer.FileTransferDigest) (is_upload : bool)
| FrDir (id : Z) (path : string) (entries : list Transfer.FileEntry)
| FrEmptyDirs (path : string).

Record TestDelay : Type := mkTestDelay {
  td_time : Z; td_from_client : bool; td_last_delay : Z; td_target_bitrate : Z }.

(** *** The message union *)

Inductive LoginResponse : Type :=
| LrError (error : string) (enable_trusted_devices : bool)
| LrPeerInfo (current_display : Z).

Inductive Message : Type :=
| MTestDelay (t : TestDelay)
| MVideoFrame (display : Z) (data : blob)
| MLoginRequest (lr : LoginRequest)
| MLoginResponse (r : LoginResponse)
| MHash (salt challenge : blob)
| MMouseEvent (me : MouseEvent)
| MAudioFrame (data : blob)
| MCursorData (id : Z)
| MCursorPosition (x y : Z)
| MKeyEvent (k : KeyEvent)
| MClipboard (content : blob)
| MFileAction (a : FileAction)
| MFileResponse (r : FileResponse)
| MMisc (m : Misc)
| MCliprdr (c : Cliprdr)
| MMessageBox (b : MessageBox)
| MSwitchSidesResponse (uuid : blob) (lr : option LoginRequest)
| MVoiceCallRequest (req_timestamp : Z) (is_connect : bool)
| MVoiceCallResponse (accepted : bool) (req_timestamp ack_timestamp : Z)
| MPointerDeviceEvent (payload : Z)
| MAuth2fa (code : string) (hwid : blob)
| MMultiClipboards (contents : list blob)
| MScreenshotRequest (display : Z) (sid : string)
| MTerminalAction (terminal_id : Z) (payload : blob)
| MTerminalResponse (terminal_id : Z) (payload : blob)
| MPeerInfo (displays : list DisplayInfo)
| MOther (tag : Z).

End Msg.
