(* ===== verification/Enigo.v ===== *)
(** * Simulating keys and the mouse ([libs/enigo])

    The names of the keys, the traits a keyboard and a mouse implement
    ([KeyboardControllable], [MouseControllable]) and the implementation for
    Linux: with X11 through libxdo and tfc, else through a keyboard and a mouse
    that were set.  libxdo and tfc are third-party: the classes [Libxdo] and
    [Tfc].  Characters are code points. *)

From S2P Require Import Prelude RustStr.

#[local] Open Scope rust_scope.

(** ** Keys ([enum Key]) *)

Module Key.

Inductive t : Type :=
| Alt | Backspace | CapsLock | Command | Control | Delete | DownArrow | End | Escape | F1 | F10 | F11 | F12
| F2 | F3 | F4 | F5 | F6 | F7 | F8 | F9 | Home | LeftArrow | Meta | Option | PageDown | PageUp | Return
| RightArrow | Shift | Space | Super | Tab | UpArrow | Windows | Numpad0 | Numpad1 | Numpad2 | Numpad3
| Numpad4 | Numpad5 | Numpad6 | Numpad7 | Numpad8 | Numpad9 | Cancel | Clear | Pause | Kana | Hangul
| Junja | Final | Hanja | Kanji | Convert | Select | Print | Execute | Snapshot | Insert | Help | Sleep
| Separator | VolumeUp | VolumeDown | Mute | Scroll | NumLock | RWin | Apps | Multiply | Add | Subtract
| Decimal | Divide | Equals | NumpadEnter | RightShift | RightControl | RightAlt | Layout (c : Z)
| Raw (k : Z).

#[global] Instance t_eq_dec : EqDecision t.
Proof. solve_decision. Defined.

End Key.

Inductive MouseButton : Type :=
| BLeft | BMiddle | BRight | BBack | BForward | ScrollUp | ScrollDown | ScrollLeft | ScrollRight.

(** ** The traits

    [D] is the state of the machine's input devices; a method takes and returns
    it.  [key_down] also tells whether it succeeded. *)

Class KeyboardControllable (D : Type) := {
  get_key_state : Key.t -> D -> bool;
  key_sequence : list Z -> D -> D;
  key_down : Key.t -> D -> bool * D;
  key_up : Key.t -> D -> D;
  key_click : Key.t -> D -> D }.

Class MouseControllable (D : Type) := {
  mouse_move_to : Z -> Z -> D -> D;
  mouse_move_relative : Z -> Z -> D -> D;
  mouse_down : MouseButton -> D -> bool * D;
  mouse_up : MouseButton -> D -> D;
  mouse_click : MouseButton -> D -> D;
  mouse_scroll_x : Z -> D -> D;
  mouse_scroll_y : Z -> D -> D }.

(** ** libxdo ([linux/xdo.rs]) *)

Class Libxdo (D : Type) := {
  xdo_available : bool;                                  (* the pointer is not null *)
  xdo_move_mouse : Z -> Z -> D -> D;
  xdo_move_mouse_relative : Z -> Z -> D -> D;
  xdo_mouse_down : Z -> D -> D;
  xdo_mouse_up : Z -> D -> D;
  xdo_click_window : Z -> D -> D;
  xdo_get_input_state : D -> Z;
  xdo_enter_text_window : list Z -> D -> D;
  xdo_send_keysequence_window_down : string -> D -> D;
  xdo_send_keysequence_window_up : string -> D -> D;
  xdo_send_keysequence_window : string -> D -> D }.

Definition mousebutton (button : MouseButton) : Z :=
  match button with
  | BLeft => 1 | BMiddle => 2 | BRight => 3 | ScrollUp => 4 | ScrollDown => 5 | ScrollLeft => 6
  | ScrollRight => 7 | BBack => 8 | BForward => 9
  end.

Definition hex_char (d : Z) : ascii := ascii_of_nat (Z.to_nat (if d <? 10 then 48 + d else 55 + d)).

(** [format!] with [X]: a code point has at most six digits. *)
Fixpoint hex_upper_n (fuel : nat) (z : Z) (acc : string) : string :=
  match fuel with
  | O => acc
  | Datatypes.S fuel =>
    let acc := String (hex_char (z mod 16)) acc in
    if z <? 16 then acc else hex_upper_n fuel (z / 16) acc
  end.
Definition hex_upper (z : Z) : string := hex_upper_n 8 z "".

Definition keysequence (key : Key.t) : string :=
  match key with
  | Key.Layout c => "U" +:+ hex_upper c
  | Key.Raw k => show k
  | Key.Alt => "Alt" | Key.Backspace => "BackSpace" | Key.CapsLock => "Caps_Lock"
  | Key.Control => "Control" | Key.Delete => "Delete" | Key.DownArrow => "Down" | Key.End => "End"
  | Key.Escape => "Escape" | Key.F1 => "F1" | Key.F10 => "F10" | Key.F11 => "F11" | Key.F12 => "F12"
  | Key.F2 => "F2" | Key.F3 => "F3" | Key.F4 => "F4" | Key.F5 => "F5" | Key.F6 => "F6" | Key.F7 => "F7"
  | Key.F8 => "F8" | Key.F9 => "F9" | Key.Home => "Home" | Key.LeftArrow => "Left" | Key.Option => "Option"
  | Key.PageDown => "Page_Down" | Key.PageUp => "Page_Up" | Key.Return => "Return"
  | Key.RightArrow => "Right" | Key.Shift => "Shift" | Key.Space => "space" | Key.Tab => "Tab"
  | Key.UpArrow => "Up" | Key.Numpad0 => "U30" | Key.Numpad1 => "U31" | Key.Numpad2 => "U32"
  | Key.Numpad3 => "U33" | Key.Numpad4 => "U34" | Key.Numpad5 => "U35" | Key.Numpad6 => "U36"
  | Key.Numpad7 => "U37" | Key.Numpad8 => "U38" | Key.Numpad9 => "U39" | Key.Decimal => "U2E"
  | Key.Cancel => "Cancel" | Key.Clear => "Clear" | Key.Pause => "Pause" | Key.Kana => "Kana"
  | Key.Hangul => "Hangul" | Key.Junja => "" | Key.Final => "" | Key.Hanja => "Hanja"
  | Key.Kanji => "Kanji" | Key.Convert => "" | Key.Select => "Select" | Key.Print => "Print"
  | Key.Execute => "Execute" | Key.Snapshot => "3270_PrintScreen" | Key.Insert => "Insert"
  | Key.Help => "Help" | Key.Sleep => "" | Key.Separator => "KP_Separator" | Key.VolumeUp => ""
  | Key.VolumeDown => "" | Key.Mute => "" | Key.Scroll => "Scroll_Lock" | Key.NumLock => "Num_Lock"
  | Key.RWin => "Super_R" | Key.Apps => "Menu" | Key.Multiply => "KP_Multiply" | Key.Add => "KP_Add"
  | Key.Subtract => "KP_Subtract" | Key.Divide => "KP_Divide" | Key.Equals => "KP_Equal"
  | Key.NumpadEnter => "KP_Enter" | Key.RightShift => "Shift_R" | Key.RightControl => "Control_R"
  | Key.RightAlt => "Alt_R" | Key.Command | Key.Super | Key.Windows | Key.Meta => "Super"
  end.

Section Xdo.
Context {D : Type} `{Libxdo D}.

Definition when_available (f : D -> D) (d : D) : D := if xdo_available then f d else d.

(** [mouse_scroll_x], [mouse_scroll_y]: one click per unit.  [-length] wraps for
    [i32::MIN] and the loop does not run. *)
Definition scroll_length (length : Z) : Z := if length <? 0 then swrap 32 (- length) else length.

Definition scroll (back forth : MouseButton) (length : Z) (d : D) : D :=
  let button := if length <? 0 then back else forth in
  Nat.iter (Z.to_nat (scroll_length length)) (when_available (xdo_click_window (mousebutton button))) d.

Definition xdo_key_state (key : Key.t) (d : D) : bool :=
  if negb xdo_available then false
  else
    let mask := xdo_get_input_state d in
    match key with
    | Key.Shift => negb (Z.land mask 1 =? 0)
    | Key.CapsLock => negb (Z.land mask 2 =? 0)
    | Key.Control => negb (Z.land mask 4 =? 0)
    | Key.Alt => negb (Z.land mask 8 =? 0)
    | Key.NumLock => negb (Z.land mask 16 =? 0)
    | Key.Meta => negb (Z.land mask 64 =? 0)
    | _ => false
    end.

(** [CString::new] refuses a text with a zero. *)
Definition has_nul (s : list Z) : bool := existsb (Z.eqb 0) s.

#[local] Instance EnigoXdo_keyboard : KeyboardControllable D := {|
  get_key_state := xdo_key_state;
  key_sequence s d := if has_nul s then d else when_available (xdo_enter_text_window s) d;
  key_down key d := (true, when_available (xdo_send_keysequence_window_down (keysequence key)) d);
  key_up key := when_available (xdo_send_keysequence_window_up (keysequence key));
  key_click key := when_available (xdo_send_keysequence_window (keysequence key)) |}.

#[local] Instance EnigoXdo_mouse : MouseControllable D := {|
  mouse_move_to x y := when_available (xdo_move_mouse x y);
  mouse_move_relative x y := when_available (xdo_move_mouse_relative x y);
  mouse_down b d := (true, when_available (xdo_mouse_down (mousebutton b)) d);
  mouse_up b := when_available (xdo_mouse_up (mousebutton b));
  mouse_click b := when_available (xdo_click_window (mousebutton b));
  mouse_scroll_x := scroll ScrollLeft ScrollRight;
  mouse_scroll_y := scroll ScrollUp ScrollDown |}.

End Xdo.

(** ** The implementation for Linux ([linux/nix_impl.rs]) *)

(** The context of tfc; each operation tells whether it succeeded. *)
Class Tfc (D : Type) := {
  unicode_char : Z -> D -> bool * D;
  unicode_char_down : Z -> D -> bool * D;
  unicode_char_up : Z -> D -> bool * D;
  tfc_click : string -> D -> bool * D;
  tfc_down : string -> D -> bool * D;
  tfc_up : string -> D -> bool * D;
  recover_remapped_keycodes : D -> D }.

(** [convert_to_tfc_key]; the keys of tfc by their names *)
Definition convert_to_tfc_key (key : Key.t) : option string :=
  match key with
  | Key.Alt => Some "Alt" | Key.Backspace => Some "DeleteOrBackspace" | Key.CapsLock => Some "CapsLock"
  | Key.Control => Some "Control" | Key.Delete => Some "ForwardDelete" | Key.DownArrow => Some "DownArrow"
  | Key.End => Some "End" | Key.Escape => Some "Escape" | Key.F1 => Some "F1" | Key.F10 => Some "F10"
  | Key.F11 => Some "F11" | Key.F12 => Some "F12" | Key.F2 => Some "F2" | Key.F3 => Some "F3"
  | Key.F4 => Some "F4" | Key.F5 => Some "F5" | Key.F6 => Some "F6" | Key.F7 => Some "F7"
  | Key.F8 => Some "F8" | Key.F9 => Some "F9" | Key.Home => Some "Home" | Key.LeftArrow => Some "LeftArrow"
  | Key.PageDown => Some "PageDown" | Key.PageUp => Some "PageUp" | Key.Return => Some "ReturnOrEnter"
  | Key.RightArrow => Some "RightArrow" | Key.Shift => Some "Shift" | Key.Space => Some "Space"
  | Key.Tab => Some "Tab" | Key.UpArrow => Some "UpArrow" | Key.Numpad0 => Some "N0"
  | Key.Numpad1 => Some "N1" | Key.Numpad2 => Some "N2" | Key.Numpad3 => Some "N3"
  | Key.Numpad4 => Some "N4" | Key.Numpad5 => Some "N5" | Key.Numpad6 => Some "N6"
  | Key.Numpad7 => Some "N7" | Key.Numpad8 => Some "N8" | Key.Numpad9 => Some "N9"
  | Key.Decimal => Some "NumpadDecimal" | Key.Clear => Some "NumpadClear" | Key.Pause => Some "Pause"
  | Key.Print => Some "Print" | Key.Snapshot => Some "PrintScreen" | Key.Insert => Some "Insert"
  | Key.Scroll => Some "ScrollLock" | Key.NumLock => Some "NumLock" | Key.RWin => Some "Meta"
  | Key.Apps => Some "Apps" | Key.Multiply => Some "NumpadMultiply" | Key.Add => Some "NumpadPlus"
  | Key.Subtract => Some "NumpadMinus" | Key.Divide => Some "NumpadDivide"
  | Key.Equals => Some "NumpadEquals" | Key.NumpadEnter => Some "NumpadEnter"
  | Key.RightShift => Some "RightShift" | Key.RightControl => Some "RightControl"
  | Key.RightAlt => Some "RightAlt" | Key.Command | Key.Super | Key.Windows | Key.Meta => Some "Meta"
  | _ => None
  end.

(** [struct Enigo]: the keyboard and the mouse that were set are trait objects. *)
Record Enigo (D : Type) : Type := mkEnigo {
  is_x11 : bool;
  tfc : option (Tfc D);
  custom_keyboard : option (KeyboardControllable D);
  custom_mouse : option (MouseControllable D) }.
Arguments is_x11 {D}.
Arguments tfc {D}.
Arguments custom_keyboard {D}.
Arguments custom_mouse {D}.

Section Nix.
Context {D : Type} `{Libxdo D} (en : Enigo D).

Definition tfc_clear_remapped (d : D) : D :=
  match tfc en with Some t => recover_remapped_keycodes d | None => d end.

Definition tfc_key_click (key : Key.t) (d : D) : bool * D :=
  match tfc en with
  | Some t =>
    match key with
    | Key.Layout chr => unicode_char chr d
    | _ => match convert_to_tfc_key key with Some k => tfc_click k d | None => (false, d) end
    end
  | None => (false, d)
  end.

(** [first], and [second] when it succeeded. *)
Definition try_then (first second : D -> bool * D) (d : D) : bool * D :=
  let '(ok, d) := first d in if ok then second d else (false, d).
Definition when_asked (b : bool) (f : D -> bool * D) (d : D) : bool * D := if b then f d else (true, d).

Definition tfc_key_down_or_up (key : Key.t) (down up : bool) (d : D) : bool * D :=
  match tfc en with
  | None => (false, d)
  | Some t =>
    match key with
    | Key.Layout chr => try_then (when_asked down (unicode_char_down chr)) (when_asked up (unicode_char_up chr)) d
    | _ =>
      match convert_to_tfc_key key with
      | None => (false, d)
      | Some k => try_then (when_asked down (tfc_down k)) (when_asked up (tfc_up k)) d
      end
    end
  end.

(** The lights of the keyboard: [get_led_state]. *)
Context (led : string -> option Z).
Definition get_led_state (key : Key.t) : bool :=
  match key with
  | Key.CapsLock => unwrap_or 0 (led "/sys/class/leds/input1::capslock/brightness") =? 1
  | Key.NumLock => unwrap_or 0 (led "/sys/class/leds/input1::numlock/brightness") =? 1
  | _ => false
  end.

Definition en_key_down (key : Key.t) (d : D) : bool * D :=
  if is_x11 en then
    let '(has_down, d) := tfc_key_down_or_up key true false d in
    if has_down then (true, d) else @key_down D EnigoXdo_keyboard key d
  else match custom_keyboard en with Some k => @key_down D k key d | None => (true, d) end.

Definition en_key_up (key : Key.t) (d : D) : D :=
  if is_x11 en then
    let '(has_up, d) := tfc_key_down_or_up key false true d in
    if has_up then d else @key_up D EnigoXdo_keyboard key d
  else match custom_keyboard en with Some k => @key_up D k key d | None => d end.

Definition Enigo_keyboard : KeyboardControllable D := {|
  get_key_state key d :=
    if is_x11 en then @get_key_state D EnigoXdo_keyboard key d
    else match custom_keyboard en with Some k => @get_key_state D k key d | None => get_led_state key end;
  key_sequence s d :=
    if is_x11 en then @key_sequence D EnigoXdo_keyboard s d
    else match custom_keyboard en with Some k => @key_sequence D k s d | None => d end;
  key_down := en_key_down;
  key_up := en_key_up;
  key_click key d :=
    let '(ok, d) := tfc_key_click key d in
    if ok then d else en_key_up key (en_key_down key d).2 |}.

(** The mouse: libxdo with X11, else the one that was set. *)
Definition Enigo_mouse : MouseControllable D :=
  if is_x11 en then EnigoXdo_mouse
  else match custom_mouse en with
       | Some m => m
       | None => {| mouse_move_to _ _ d := d; mouse_move_relative _ _ d := d; mouse_down _ d := (true, d);
                    mouse_up _ d := d; mouse_click _ d := d; mouse_scroll_x _ d := d; mouse_scroll_y _ d := d |}
       end.

End Nix.
