(* ===== verification/Keys.v ===== *)
(** * Keys in messages and of the system

    The values of [ControlKey] in messages, the table from them to the keys that
    are simulated ([KEY_MAP] of [src/server/input_service.rs]), and the
    predicates of [src/keyboard.rs] on the keys of the third-party crate rdev,
    which stand here under the names of its enum. *)

From S2P Require Import Prelude RustStr Messages Enigo.

#[local] Open Scope rust_scope.

(** ** [ControlKey] ([message.proto]) *)

Module CK.

Definition Unknown : Z := 0.
Definition Alt : Z := 1.
Definition Backspace : Z := 2.
Definition CapsLock : Z := 3.
Definition Control : Z := 4.
Definition Delete : Z := 5.
Definition DownArrow : Z := 6.
Definition End : Z := 7.
Definition Escape : Z := 8.
Definition F1 : Z := 9.
Definition F10 : Z := 10.
Definition F11 : Z := 11.
Definition F12 : Z := 12.
Definition F2 : Z := 13.
Definition F3 : Z := 14.
Definition F4 : Z := 15.
Definition F5 : Z := 16.
Definition F6 : Z := 17.
Definition F7 : Z := 18.
Definition F8 : Z := 19.
Definition F9 : Z := 20.
Definition Home : Z := 21.
Definition LeftArrow : Z := 22.
Definition Meta : Z := 23.
Definition Option : Z := 24.
Definition PageDown : Z := 25.
Definition PageUp : Z := 26.
Definition Return : Z := 27.
Definition RightArrow : Z := 28.
Definition Shift : Z := 29.
Definition Space : Z := 30.
Definition Tab : Z := 31.
Definition UpArrow : Z := 32.
Definition Numpad0 : Z := 33.
Definition Numpad1 : Z := 34.
Definition Numpad2 : Z := 35.
Definition Numpad3 : Z := 36.
Definition Numpad4 : Z := 37.
Definition Numpad5 : Z := 38.
Definition Numpad6 : Z := 39.
Definition Numpad7 : Z := 40.
Definition Numpad8 : Z := 41.
Definition Numpad9 : Z := 42.
Definition Cancel : Z := 43.
Definition Clear : Z := 44.
Definition Menu : Z := 45.
Definition Pause : Z := 46.
Definition Kana : Z := 47.
Definition Hangul : Z := 48.
Definition Junja : Z := 49.
Definition Final : Z := 50.
Definition Hanja : Z := 51.
Definition Kanji : Z := 52.
Definition Convert : Z := 53.
Definition Select : Z := 54.
Definition Print : Z := 55.
Definition Execute : Z := 56.
Definition Snapshot : Z := 57.
Definition Insert : Z := 58.
Definition Help : Z := 59.
Definition Sleep : Z := 60.
Definition Separator : Z := 61.
Definition Scroll : Z := 62.
Definition NumLock : Z := 63.
Definition RWin : Z := 64.
Definition Apps : Z := 65.
Definition Multiply : Z := 66.
Definition Add : Z := 67.
Definition Subtract : Z := 68.
Definition Decimal : Z := 69.
Definition Divide : Z := 70.
Definition Equals : Z := 71.
Definition NumpadEnter : Z := 72.
Definition RShift : Z := 73.
Definition RControl : Z := 74.
Definition RAlt : Z := 75.
Definition VolumeMute : Z := 76.
Definition VolumeUp : Z := 77.
Definition VolumeDown : Z := 78.
Definition Power : Z := 79.
Definition CtrlAltDel : Z := 100.
Definition LockScreen : Z := 101.

End CK.

(** [KEY_MAP] *)
Definition KEY_MAP_ENTRIES : list (Z * Key.t) :=
  [(1, Key.Alt); (2, Key.Backspace); (3, Key.CapsLock); (4, Key.Control); (5, Key.Delete);
   (6, Key.DownArrow); (7, Key.End); (8, Key.Escape); (9, Key.F1); (10, Key.F10); (11, Key.F11);
   (12, Key.F12); (13, Key.F2); (14, Key.F3); (15, Key.F4); (16, Key.F5); (17, Key.F6); (18, Key.F7);
   (19, Key.F8); (20, Key.F9); (21, Key.Home); (22, Key.LeftArrow); (23, Key.Meta); (24, Key.Option);
   (25, Key.PageDown); (26, Key.PageUp); (27, Key.Return); (28, Key.RightArrow); (29, Key.Shift);
   (30, Key.Space); (31, Key.Tab); (32, Key.UpArrow); (33, Key.Numpad0); (34, Key.Numpad1);
   (35, Key.Numpad2); (36, Key.Numpad3); (37, Key.Numpad4); (38, Key.Numpad5); (39, Key.Numpad6);
   (40, Key.Numpad7); (41, Key.Numpad8); (42, Key.Numpad9); (43, Key.Cancel); (44, Key.Clear);
   (45, Key.Alt); (46, Key.Pause); (47, Key.Kana); (48, Key.Hangul); (49, Key.Junja); (50, Key.Final);
   (51, Key.Hanja); (52, Key.Kanji); (53, Key.Convert); (54, Key.Select); (55, Key.Print);
   (56, Key.Execute); (57, Key.Snapshot); (58, Key.Insert); (59, Key.Help); (60, Key.Sleep);
   (61, Key.Separator); (62, Key.Scroll); (63, Key.NumLock); (64, Key.RWin); (65, Key.Apps);
   (66, Key.Multiply); (67, Key.Add); (68, Key.Subtract); (69, Key.Decimal); (70, Key.Divide);
   (71, Key.Equals); (72, Key.NumpadEnter); (75, Key.RightAlt); (74, Key.RightControl);
   (73, Key.RightShift)].

Definition assoc {A} (k : Z) (l : list (Z * A)) : option A :=
  match list_find (fun x => x.1 = k) l with Some (_, (_, a)) => Some a | None => None end.
Definition KEY_MAP (value : Z) : option Key.t := assoc value KEY_MAP_ENTRIES.
Definition control_key_value_to_key : Z -> option Key.t := KEY_MAP.

(** [char::from_u32], [char::try_from] *)
Definition char_from_u32 (v : Z) : option Z :=
  if (v <? 55296) || ((57344 <=? v) && (v <? 1114112)) then Some v else None.
Definition char_value_to_key (value : Z) : Key.t := Key.Layout (unwrap_or 0 (char_from_u32 value)).

(** [str::chars] of text in UTF-8 *)
Fixpoint utf8_chars (l : list Z) : list Z :=
  match l with
  | [] => []
  | b0 :: l1 =>
    if b0 <? 128 then b0 :: utf8_chars l1
    else match l1 with
         | [] => []
         | b1 :: l2 =>
           if b0 <? 224 then ((b0 - 192) * 64 + (b1 - 128)) :: utf8_chars l2
           else match l2 with
                | [] => []
                | b2 :: l3 =>
                  if b0 <? 240 then ((b0 - 224) * 4096 + (b1 - 128) * 64 + (b2 - 128)) :: utf8_chars l3
                  else match l3 with
                       | [] => []
                       | b3 :: l4 =>
                         ((b0 - 240) * 262144 + (b1 - 128) * 4096 + (b2 - 128) * 64 + (b3 - 128)) :: utf8_chars l4
                       end
                end
         end
  end.
Definition chars (s : string) : list Z := utf8_chars (map ascii_code (String.list_ascii_of_string s)).

(** ** Keys of rdev, by their names *)

Definition RdevKey : Type := string.

Definition is_rdev_modifier (key : RdevKey) : bool :=
  existsb (String.eqb key)
    ["ShiftLeft"; "ShiftRight"; "ControlLeft"; "ControlRight"; "MetaLeft"; "MetaRight"; "Alt"; "AltGr"].

Definition is_numpad_rdev_key (key : RdevKey) : bool :=
  existsb (String.eqb key)
    ["Kp0"; "Kp1"; "Kp2"; "Kp3"; "Kp4"; "Kp5"; "Kp6"; "Kp7"; "Kp8"; "Kp9"; "KpMinus"; "KpMultiply"; "KpDivide";
     "KpPlus"; "KpDecimal"].

Definition is_letter_rdev_key (key : RdevKey) : bool :=
  existsb (String.eqb key)
    ["KeyA"; "KeyB"; "KeyC"; "KeyD"; "KeyE"; "KeyF"; "KeyG"; "KeyH"; "KeyI"; "KeyJ"; "KeyK"; "KeyL"; "KeyM"; "KeyN";
     "KeyO"; "KeyP"; "KeyQ"; "KeyR"; "KeyS"; "KeyT"; "KeyU"; "KeyV"; "KeyW"; "KeyX"; "KeyY"; "KeyZ"].

Definition is_letter_rdev_key_ex (key : RdevKey) : bool :=
  existsb (String.eqb key) ["LeftBracket"; "RightBracket"; "SemiColon"; "Quote"; "Comma"; "Dot"].
