(* ===== verification/FileManager.v ===== *)
(** * The file manager of an incoming connection

    [src/server/connection.rs]: what [Connection] does with the file actions and
    file responses of its peer.  Reading is done by the connection itself with
    jobs of [FileTransfer]; everything that changes the disk is handed to the
    connection manager as an order ([ipc::FS], component [CmFiles]).  On Windows
    the connection manager reads too ([need_fs_cm_send_files]) and sends the
    blocks back; the handlers for these are here as well.

    [Fm] has the fields of [Connection] this code uses.  An [FmOut] is a
    message to the peer, an order or log line for the connection manager, or a
    file audit. *)

From S2P Require Import Prelude RustStr NetUtil FileTransfer FileTransferProofs Messages.

#[local] Open Scope rust_scope.

Module FileMgr.

Import Msg.

Module T := FileTransfer.Transfer.

(** ** Orders to the connection manager: [ipc::FS] *)

Inductive FS : Type :=
| FsReadEmptyDirs (dir : string) (include_hidden : bool)
| FsReadDir (dir : string) (include_hidden : bool)
| FsRemoveDir (path : string) (id : Z) (recursive : bool)
| FsRemoveFile (path : string) (id file_num : Z)
| FsCreateDir (path : string) (id : Z)
| FsNewWrite (path : string) (id file_num : Z) (files : list (string * Z)) (overwrite_detection : bool)
    (total_size conn_id : Z)
| FsCancelWrite (id : Z)
| FsWriteBlock (id file_num : Z) (data : list Z) (compressed : bool)
| FsWriteDone (id file_num : Z)
| FsWriteError (id file_num : Z) (err : string)
| FsWriteOffset (id file_num offset_blk : Z)
| FsCheckDigest (id file_num file_size last_modified : Z) (is_upload is_resume : bool)
| FsSendConfirm (r : T.FileTransferSendConfirmRequest)
| FsRename (id : Z) (path new_name : string)
| FsReadFile (path : string) (id file_num : Z) (include_hidden : bool) (conn_id : Z) (overwrite_detection : bool)
| FsCancelRead (id conn_id : Z)
| FsSendConfirmForRead (id file_num : Z) (skip : bool) (offset_blk conn_id : Z)
| FsReadAllFiles (path : string) (id : Z) (include_hidden : bool) (conn_id : Z).

Inductive FmLog : Type :=
| LogJob (j : T.TransferJob) (done_ cancel : bool) (error : string)  (* [serialize_transfer_job] *)
| LogJobs (jobs : list T.TransferJob)
| LogAction (id conn_id : Z) (path : string) (dir : bool)
| LogRename (conn_id : Z) (path new_name : string).

Inductive FmOut : Type :=
| FoSend (m : Message)
| FoFs (f : FS)
| FoLog (action : string) (log : FmLog)
| FoAudit (remote_receive : bool) (path : string) (files : list (string * Z)).

(** ** The log of removals *)

Record FileRemoveLogControl : Type := mkRemoveLog {
  instant : Z;
  removed_files : list (Z * string * Z);   (* id, path, file number *)
  removed_dirs : list (Z * string * bool) }.

(** [Path::components]: empty components are skipped, and ["."] unless it comes
    first; the root directory is the component ["/"]. *)
Definition keep_parts (parts : list string) : list string := filter (fun w => w <> "" /\ w <> ".") parts.

Definition components_of (parts : list string) : list string :=
  match parts with
  | [] => []
  | w :: ws =>
    if decide (w = "" /\ ws <> []) then "/"%string :: keep_parts ws
    else if decide (w = ".") then w :: keep_parts ws
    else keep_parts parts
  end.

Definition path_components (p : string) : list string := components_of (split_char "/" p).

(** The parent of a path; ["a"] has the parent [""]. *)
Definition path_parent (p : list string) : option (list string) :=
  match p with
  | [] => None
  | _ => if decide (p = ["/"%string]) then None else Some (removelast p)
  end.

Definition direct_child (parent child : string) : bool :=
  bool_decide (path_parent (path_components child) = Some (path_components parent)).

Definition on_remove_file (now : Z) (id : Z) (path : string) (file_num : Z) (c : FileRemoveLogControl)
  : FileRemoveLogControl :=
  mkRemoveLog now (removed_files c ++ [(id, path, file_num)]) (removed_dirs c).

Definition on_remove_dir (now : Z) (id : Z) (path : string) (recursive : bool) (c : FileRemoveLogControl)
  : FileRemoveLogControl :=
  let fl := filter (fun f => direct_child f.1.2 path = false) (removed_files c) in
  let dirs := filter (fun x => direct_child path x.1.2 = false) (removed_dirs c) in
  let dirs := if existsb (fun x => direct_child x.1.2 path) dirs then dirs
              else dirs ++ [(id, path, recursive)] in
  mkRemoveLog now fl dirs.

(** [on_timer]: nothing within a second of the last removal. *)
Definition on_timer (now conn_id : Z) (c : FileRemoveLogControl) : list FmOut * FileRemoveLogControl :=
  if (now - instant c) / 1000 <? 1 then ([], c)
  else (map (fun f => FoLog "remove" (LogAction f.1.1 conn_id f.1.2 false)) (removed_files c)
        ++ map (fun d => FoLog "remove" (LogAction d.1.1 conn_id d.1.2 true)) (removed_dirs c),
        mkRemoveLog (instant c) [] []).

(** ** State and surroundings *)

Record Fm : Type := mkFm {
  read_jobs : list T.TransferJob;
  delayed_read_dir : option (string * bool);
  printer_data : list (Z * string * list Z);
  cm_read_job_ids : gset Z;
  file_remove_log_control : FileRemoveLogControl;
  file_transferred : bool }.

Record FmEnv : Type := mkFmEnv {
  fm_now : Z;
  fm_conn_id : Z;
  disk : T.FS;
  get_recursive_files : string -> bool -> result (list T.FileEntry) string;
  need_fs_cm_send_files : bool;
  one_way_file_transfer : bool;      (* the built-in option is ["Y"] *)
  max_validated_files : Z;           (* [get_max_validated_files()] *)
  peer_version : string }.

Definition DEFAULT_MAX_VALIDATED_FILES : Z := 10000.

(** From the text of the option ["file-transfer-max-files"]; the process
    computes it once. *)
Definition get_max_validated_files (option_text : string) : Z :=
  let c := unwrap_or usize_MAX (parse_int 0 usize_MAX (trim option_text)) in
  if c =? 0 then DEFAULT_MAX_VALIDATED_FILES else c.

Definition check_file_count_limit (max_files file_count : Z) : result unit string :=
  if max_files <? file_count
  then Err ("file transfer rejected: too many files (" +:+ show file_count +:+ " files exceeds limit of "
            +:+ show max_files +:+ "). Adjust 'file-transfer-max-files' option to increase limit.")
  else Ok tt.

Definition can_enable_overwrite_detection (version : Z) : bool :=
  Version.get_version_number "1.1.10" <=? version.

Definition new_error (id : Z) (err : string) (file_num : Z) : Message := MFileResponse (FrError id err file_num).
Definition new_dir (id : Z) (path : string) (fl : list T.FileEntry) : Message := MFileResponse (FrDir id path fl).
Definition new_done (id file_num : Z) : Message := MFileResponse (FrDone id file_num).

Definition with_jobs (jobs : list T.TransferJob) (s : Fm) : Fm :=
  mkFm jobs (delayed_read_dir s) (printer_data s) (cm_read_job_ids s) (file_remove_log_control s) (file_transferred s).
Definition with_delayed (d : option (string * bool)) (s : Fm) : Fm :=
  mkFm (read_jobs s) d (printer_data s) (cm_read_job_ids s) (file_remove_log_control s) (file_transferred s).
Definition with_printer (d : list (Z * string * list Z)) (s : Fm) : Fm :=
  mkFm (read_jobs s) (delayed_read_dir s) d (cm_read_job_ids s) (file_remove_log_control s) (file_transferred s).
Definition with_cm_ids (d : gset Z) (s : Fm) : Fm :=
  mkFm (read_jobs s) (delayed_read_dir s) (printer_data s) d (file_remove_log_control s) (file_transferred s).
Definition with_remove_log (d : FileRemoveLogControl) (s : Fm) : Fm :=
  mkFm (read_jobs s) (delayed_read_dir s) (printer_data s) (cm_read_job_ids s) d (file_transferred s).
Definition with_transferred (b : bool) (s : Fm) : Fm :=
  mkFm (read_jobs s) (delayed_read_dir s) (printer_data s) (cm_read_job_ids s) (file_remove_log_control s) b.

Section Handlers.
Context (e : FmEnv).

(** ** Read jobs *)

Definition get_files_for_audit (t : T.JobType) (fl : list T.FileEntry) : list (string * Z) :=
  map (fun f => (if decide (t = T.Printer) then "Remote print" else T.name f, i64 (T.size f))) fl.

Definition set_owner (conn_id : Z) (j : T.TransferJob) : T.TransferJob :=
  T.mkTransferJob (T.id j) (T.type j) (T.remote j) (T.data_source j) (T.show_hidden j) true
    (T.is_last_job j) (T.is_resume j) (T.file_num j) (T.files j) conn_id (T.data_stream j) (T.total_size j)
    (T.finished_size j) (T.transferred j) (T.enable_overwrite_detection j) (T.file_confirmed j)
    (T.file_skipped j) (T.file_is_waiting j) (T.default_overwrite_strategy j) (T.digest j).

Definition process_new_read_job (j : T.TransferJob) (path : string) (s : Fm) : list FmOut * Fm :=
  ([FoSend (new_dir (T.id j) path (T.files j));
    FoAudit false (if decide (T.type j = T.Printer) then "Remote print" else path)
      (get_files_for_audit (T.type j) (T.files j))],
   with_jobs (read_jobs s ++ [set_owner (fm_conn_id e) j]) s).

Definition create_and_start_read_job (id : Z) (t : T.JobType) (src : T.DataSource) (file_num : Z)
  (include_hidden overwrite_detection : bool) (path : string) (check_file_limit : bool) (s : Fm)
  : list FmOut * Fm :=
  match T.new_read (get_recursive_files e) id t "" src file_num include_hidden false overwrite_detection with
  | Err err => ([FoSend (new_error id err 0)], s)
  | Ok job =>
    match (if check_file_limit then check_file_count_limit (max_validated_files e) (len (T.files job)) else Ok tt) with
    | Err msg => ([FoSend (new_error id msg (-1))], s)
    | Ok _ => process_new_read_job job path s
    end
  end.

(** ** File actions *)

(** What a one-way transfer refuses, by the id of the job. *)
Definition one_way_job_id (fa : FileAction) : option Z :=
  match fa with
  | Send id _ _ _ _ => Some id
  | RemoveFile id _ _ => Some id
  | Rename id _ _ => Some id
  | Create id _ => Some id
  | RemoveDir id _ _ => Some id
  | _ => None
  end.

Fixpoint take_printer_data (path : string) (l : list (Z * string * list Z))
  : option (list Z * list (Z * string * list Z)) :=
  match l with
  | [] => None
  | (t, p, d) :: l =>
    if String.eqb p path then Some (d, l)
    else match take_printer_data path l with
         | Some (d', l) => Some (d', (t, p, d) :: l)
         | None => None
         end
  end.

Fixpoint confirm_job (r : T.FileTransferSendConfirmRequest) (jobs : list T.TransferJob)
  : outcome (list T.TransferJob) :=
  match jobs with
  | [] => Done []
  | j :: jobs =>
    if T.id j =? T.c_id r then let! j := T.confirm j r (disk e) in Done (j :: jobs)
    else let! jobs := confirm_job r jobs in Done (j :: jobs)
  end.

Definition r_skip (r : T.FileTransferSendConfirmRequest) : bool :=
  match T.c_union r with Some (T.Skip b) => b | _ => false end.
Definition r_offset_blk (r : T.FileTransferSendConfirmRequest) : Z :=
  match T.c_union r with Some (T.OffsetBlk o) => o | _ => 0 end.

(** The action itself, once it is allowed. *)
Definition do_file_action (fa : FileAction) (s : Fm) : outcome (list FmOut * Fm) :=
  let od := can_enable_overwrite_detection (Version.get_version_number (peer_version e)) in
  match fa with
  | ReadEmptyDirs path include_hidden => Done ([FoFs (FsReadEmptyDirs path include_hidden)], s)
  | ReadDir path include_hidden => Done ([FoFs (FsReadDir path include_hidden)], s)
  | AllFiles id path include_hidden =>
    if need_fs_cm_send_files e
    then Done ([FoFs (FsReadAllFiles path id include_hidden (fm_conn_id e))], s)
    else match get_recursive_files e path include_hidden with
         | Err err => Done ([FoSend (new_error id err (-1))], s)
         | Ok fl =>
           match check_file_count_limit (max_validated_files e) (len fl) with
           | Err msg => Done ([FoSend (new_error id msg (-1))], s)
           | Ok _ => Done ([FoSend (new_dir id path fl)], s)
           end
         end
  | Send id path include_hidden file_num file_type =>
    match T.JobType_from_i32 file_type with
    | T.Generic =>
      let '(outs, s) :=
        if need_fs_cm_send_files e
        then ([FoFs (FsReadFile path id file_num include_hidden (fm_conn_id e) od)],
              with_cm_ids ({[ id ]} ∪ cm_read_job_ids s) s)
        else create_and_start_read_job id T.Generic (T.FilePath path) file_num include_hidden od path true s in
      Done (outs, with_transferred true s)
    | T.Printer =>
      match take_printer_data path (printer_data s) with
      | Some (data, rest) =>
        let '(outs, s) := create_and_start_read_job id T.Printer (T.MemoryCursor data 0) file_num include_hidden
                            true path false (with_printer rest s) in
        Done (outs, with_transferred true s)
      | None => Done ([], s)
      end
    end
  | Receive id path fl file_num total_size =>
    Done ([FoFs (FsNewWrite path id file_num (map (fun f => (T.name f, T.modified_time f)) fl) od total_size (fm_conn_id e));
           FoAudit true path (get_files_for_audit T.Generic fl)], with_transferred true s)
  | RemoveDir id path recursive =>
    Done ([FoFs (FsRemoveDir path id recursive)],
          with_remove_log (on_remove_dir (fm_now e) id path recursive (file_remove_log_control s)) s)
  | RemoveFile id path file_num =>
    Done ([FoFs (FsRemoveFile path id file_num)],
          with_remove_log (on_remove_file (fm_now e) id path file_num (file_remove_log_control s)) s)
  | Create id path =>
    Done ([FoFs (FsCreateDir path id); FoLog "create_dir" (LogAction id (fm_conn_id e) path true)], s)
  | Cancel id =>
    let s := with_cm_ids (cm_read_job_ids s ∖ {[ id ]}) s in
    let '(job, jobs) := T.remove_job id (read_jobs s) in
    Done ([FoFs (FsCancelWrite id); FoFs (FsCancelRead id (fm_conn_id e))]
          ++ match job with Some j => [FoLog "transfer" (LogJob j false true "")] | None => [] end,
          with_jobs jobs s)
  | SendConfirm r =>
    match T.get_job (T.c_id r) (read_jobs s) with
    | Some _ => let! jobs := confirm_job r (read_jobs s) in Done ([], with_jobs jobs s)
    | None =>
      if decide (T.c_id r ∈ cm_read_job_ids s)
      then Done ([FoFs (FsSendConfirmForRead (T.c_id r) (T.c_file_num r) (r_skip r) (r_offset_blk r) (fm_conn_id e))], s)
      else Done ([FoFs (FsSendConfirm r)], s)
    end
  | Rename id path new_name =>
    Done ([FoFs (FsRename id path new_name); FoLog "rename" (LogRename (fm_conn_id e) path new_name)], s)
  end.

(** [message::Union::FileAction]; [is_file_transfer] is
    [self.file_transfer.is_some()]. *)
Definition on_file_action (is_file_transfer : bool) (fa : FileAction) (s : Fm) : outcome (list FmOut * Fm) :=
  let handle_fa := is_file_transfer
                   || match fa with
                      | Send _ _ _ _ t => bool_decide (T.JobType_from_i32 t = T.Printer)
                      | _ => false
                      end in
  if negb handle_fa then Done ([], s)
  else
    match delayed_read_dir s with
    | Some _ => Done ([], match fa with
                          | ReadDir path include_hidden => with_delayed (Some (path, include_hidden)) s
                          | _ => s
                          end)
    | None =>
      match (if one_way_file_transfer e then one_way_job_id fa else None) with
      | Some job_id => Done ([FoSend (new_error job_id "one-way-file-transfer-tip" 0)], s)
      | None => do_file_action fa s
      end
    end.

(** [message::Union::FileResponse]: the peer's side of an upload. *)
Definition on_file_response (fr : FileResponse) : list FmOut :=
  match fr with
  | FrBlock id file_num data compressed => [FoFs (FsWriteBlock id file_num data compressed)]
  | FrDone id file_num => [FoFs (FsWriteDone id file_num)]
  | FrDigest d _ =>
    [FoFs (FsCheckDigest (T.td_id d) (T.td_file_num d) (T.td_file_size d) (T.td_last_modified d) true (T.td_is_resume d))]
  | FrError id err file_num => [FoFs (FsWriteError id file_num err)]
  | FrDir _ _ _ | FrEmptyDirs _ => []
  end.

(** ** What the connection manager sends to the connection *)

Inductive FromCm : Type :=
| ReadJobInitResult (id : Z) (r : result (string * list T.FileEntry) string)  (* path and entries *)
| FileBlockFromCM (id file_num : Z) (data : list Z) (compressed : bool)
| FileReadDone (id file_num : Z)
| FileReadError (id file_num : Z) (err : string)
| FileDigestFromCM (id file_num last_modified file_size : Z) (is_resume : bool)
| AllFilesResult (id : Z) (path : string) (r : result (list T.FileEntry) string)
| RawMessage (m : Message).       (* for the peer, as it is: all other answers of the connection manager *)

(** All but a raw message name their connection. *)
Definition for_connection (own conn_id : Z) (m : FromCm) : bool :=
  match m with RawMessage _ => true | _ => conn_id =? own end.

Definition on_from_cm (m : FromCm) (s : Fm) : list FmOut * Fm :=
  match m with
  | ReadJobInitResult id r =>
    if decide (id ∈ cm_read_job_ids s) then
      match r with
      | Err err => ([FoSend (new_error id err 0)], with_cm_ids (cm_read_job_ids s ∖ {[ id ]}) s)
      | Ok (path, entries) =>
        ([FoSend (new_dir id path entries); FoAudit false path (get_files_for_audit T.Generic entries)],
         with_transferred true s)
      end
    else ([], s)
  | FileBlockFromCM id file_num data compressed =>
    if decide (id ∈ cm_read_job_ids s)
    then ([FoSend (MFileResponse (FrBlock id file_num data compressed))], s) else ([], s)
  | FileReadDone id file_num =>
    if decide (id ∈ cm_read_job_ids s)
    then ([FoSend (new_done id file_num)], with_cm_ids (cm_read_job_ids s ∖ {[ id ]}) s) else ([], s)
  | FileReadError id file_num err =>
    if decide (id ∈ cm_read_job_ids s)
    then ([FoSend (new_error id err file_num)], with_cm_ids (cm_read_job_ids s ∖ {[ id ]}) s) else ([], s)
  | FileDigestFromCM id file_num last_modified file_size is_resume =>
    if decide (id ∈ cm_read_job_ids s)
    then ([FoSend (MFileResponse (FrDigest
             (T.mkDigest id file_num last_modified file_size false 0 is_resume) false))], s)
    else ([], s)
  | AllFilesResult id path r =>
    match r with
    | Err err => ([FoSend (new_error id err (-1))], s)
    | Ok entries => ([FoSend (new_dir id path entries)], s)
    end
  | RawMessage m => ([FoSend m], s)
  end.

(** ** The file timer *)

(** The messages of the read jobs on the wire. *)
Definition of_job_msg (m : T.Msg) : Message :=
  match m with
  | T.MsgError id err file_num => new_error id err file_num
  | T.MsgBlock b => MFileResponse (FrBlock (T.b_id b) (T.b_file_num b) (T.b_data b) (T.b_compressed b))
  | T.MsgDone id file_num => new_done id file_num
  | T.MsgDigest d => MFileResponse (FrDigest d false)
  end.

(** One tick of [file_timer]; how much a [read] returns and zstd are as in
    [FileTransfer]. The log of a finished job, which comes last, is left out. *)
Definition on_file_timer (os_read : list Z -> Z -> result nat string) (zcompress : list Z -> list Z) (s : Fm)
  : list FmOut * Fm :=
  match read_jobs s with
  | [] => ([], s)
  | jobs =>
    let '(jobs', msgs) := T.handle_read_jobs os_read zcompress jobs (disk e) in
    ([FoLog "transfer" (LogJobs jobs)] ++ map (fun m => FoSend (of_job_msg m)) msgs, with_jobs jobs' s)
  end.

End Handlers.

(** ** What can happen to the file manager of a connection *)

Inductive FmEvent : Type :=
| EvAction (is_file_transfer : bool) (fa : FileAction)
| EvResponse (fr : FileResponse)
| EvFromCm (m : FromCm)
| EvFileTimer (os_read : list Z -> Z -> result nat string) (zcompress : list Z -> list Z)
| EvSecondTimer.

Definition fm_step (e : FmEnv) (ev : FmEvent) (s : Fm) : outcome (list FmOut * Fm) :=
  match ev with
  | EvAction is_ft fa => on_file_action e is_ft fa s
  | EvResponse fr => Done (on_file_response fr, s)
  | EvFromCm m => Done (on_from_cm m s)
  | EvFileTimer os_read zcompress => Done (on_file_timer e os_read zcompress s)
  | EvSecondTimer =>
    let '(outs, c) := on_timer (fm_now e) (fm_conn_id e) (file_remove_log_control s) in
    Done (outs, with_remove_log c s)
  end.

(** Events with the surroundings in which each of them is handled. *)
Fixpoint fm_run (evs : list (FmEnv * FmEvent)) (s : Fm) : outcome (list FmOut * Fm) :=
  match evs with
  | [] => Done ([], s)
  | (e, ev) :: evs =>
    let! (outs, s) := fm_step e ev s in
    let! (outs', s) := fm_run evs s in
    Done (outs ++ outs', s)
  end.

(** ** One-way transfer *)

(** Outputs that take a file from this machine or change its disk other than by
    receiving a file.  The digest of a file to be overwritten by an upload is
    not among them. *)
Definition outgoing (o : FmOut) : bool :=
  match o with
  | FoSend (MFileResponse (FrBlock _ _ _ _)) | FoSend (MFileResponse (FrDigest _ false)) => true
  | FoFs (FsRemoveDir _ _ _) | FoFs (FsRemoveFile _ _ _) | FoFs (FsCreateDir _ _) | FoFs (FsRename _ _ _)
  | FoFs (FsReadFile _ _ _ _ _ _) => true
  | FoFs (FsCheckDigest _ _ _ _ is_upload _) => negb is_upload
  | FoAudit false _ _ => true
  | _ => false
  end.

Definition idle (s : Fm) : Prop := read_jobs s = [] /\ cm_read_job_ids s = ∅.

Lemma remove_job_nil i : T.remove_job i [] = (None, []).
Proof. done. Qed.

Ltac quiet := eexists _, _; split; [reflexivity|split; [repeat constructor|split; cbn; try done; set_solver]].

Lemma one_way_action e is_ft fa s :
  one_way_file_transfer e = true -> idle s ->
  exists outs s', on_file_action e is_ft fa s = Done (outs, s')
    /\ Forall (fun o => outgoing o = false) outs /\ idle s'.
Proof.
  intros He [Hj Hc]. unfold on_file_action. destruct (negb _); [quiet|].
  destruct (delayed_read_dir s); [destruct fa; quiet|]. rewrite He.
  destruct fa; cbn [one_way_job_id do_file_action]; try quiet.
  - destruct (need_fs_cm_send_files e); [quiet|].
    destruct (get_recursive_files e path include_hidden); [|quiet].
    destruct (check_file_count_limit _ _); quiet.
  - cbn [with_cm_ids read_jobs]. rewrite Hj, remove_job_nil. quiet.
  - rewrite Hj. cbn [T.get_job list_find]. rewrite decide_False by (rewrite Hc; set_solver). quiet.
Qed.

(** Not a raw message with a file or its digest. *)
Definition harmless (ev : FmEvent) : Prop :=
  match ev with EvFromCm (RawMessage m) => outgoing (FoSend m) = false | _ => True end.

Lemma one_way_step e ev s :
  one_way_file_transfer e = true -> idle s -> harmless ev ->
  exists outs s', fm_step e ev s = Done (outs, s')
    /\ Forall (fun o => outgoing o = false) outs /\ idle s'.
Proof.
  intros He Hi Hh. destruct ev as [is_ft fa|fr|m|os zc|]; cbn [fm_step].
  - by apply one_way_action.
  - destruct Hi. destruct fr; quiet.
  - destruct Hi as [Hj Hc]. destruct m as [i r|i|i|i|i|i path r|m]; cbn [on_from_cm];
      try (rewrite decide_False by (rewrite Hc; set_solver); quiet); [destruct r; quiet|].
    eexists _, _. split; [reflexivity|]. split; [|done]. by constructor.
  - destruct Hi as [Hj Hc]. unfold on_file_timer. rewrite Hj. quiet.
  - destruct Hi as [Hj Hc]. unfold on_timer. destruct (_ <? _); [quiet|]. eexists _, _.
    split; [reflexivity|]. split; [|done].
    apply Forall_app; split; apply Forall_forall; intros x (y & -> & _)%list_elem_of_fmap; done.
Qed.

(** ** Connections that are not for files *)

Definition is_order (o : FmOut) : bool :=
  match o with FoFs _ | FoLog _ _ => true | _ => false end.

(** Without [file_transfer] only a printer job can be asked for, which gives no
    order to the connection manager. *)
Lemma no_orders_without_file_transfer e fa s outs s' :
  on_file_action e false fa s = Done (outs, s') -> Forall (fun o => is_order o = false) outs.
Proof.
  unfold on_file_action. cbn [orb]. intros H.
  destruct fa as [|i path hidden n t| | | | | | | | |]; cbn [negb] in H;
    try (injection H as <- _; constructor).
  case_bool_decide as Hp; cbn [negb] in H; [|injection H as <- _; constructor].
  destruct (delayed_read_dir s); [injection H as <- _; constructor|].
  destruct (one_way_file_transfer e); cbn [one_way_job_id do_file_action] in H;
    [injection H as <- _; repeat constructor|].
  rewrite Hp in H. destruct (take_printer_data path (printer_data s)) as [[d rest]|];
    [|injection H as <- _; constructor].
  unfold create_and_start_read_job, process_new_read_job in H.
  destruct (T.new_read _ _ _ _ _ _ _ _ _); injection H as <- _; repeat constructor.
Qed.

(** ** When a file action panics *)

(** The confirmation of a job that stands at a file the job does not have. *)
Definition confirms_missing_file (r : T.FileTransferSendConfirmRequest) (s : Fm) : Prop :=
  exists j, T.get_job (T.c_id r) (read_jobs s) = Some j
    /\ T.file_num j = T.c_file_num r /\ (exists off, T.c_union r = Some (T.OffsetBlk off) /\ 0 < off)
    /\ (exists p, T.data_source j = T.FilePath p) /\ T.files j !! Z.to_nat (u64 (T.c_file_num r)) = None.

Lemma confirm_job_panics_iff e r jobs :
  confirm_job e r jobs = Panic <->
  exists j, T.get_job (T.c_id r) jobs = Some j /\ T.confirm j r (disk e) = Panic.
Proof.
  induction jobs as [|j jobs IH]; cbn [confirm_job].
  { split; [done|]. by intros (j & H & _). }
  unfold T.get_job in *. cbn [list_find]. destruct (Z.eqb_spec (T.id j) (T.c_id r)) as [Hi|Hi].
  - rewrite decide_True by done. cbn [mbind option_bind snd].
    destruct (T.confirm j r (disk e)) eqn:Ec; cbn [outcome_bind].
    + split; [done|]. intros (j' & [= <-] & H). congruence.
    + split; [|done]. intros _. by exists j.
  - rewrite decide_False by done.
    destruct (list_find _ jobs) as [[k j']|] eqn:Ef; cbn [mbind option_bind fmap option_fmap option_map snd prod_map fst] in *;
      destruct (confirm_job e r jobs) eqn:Ej; cbn [outcome_bind]; split; try done; intros H.
    all: try (apply IH in H; done); try (by apply IH).
Qed.

(** The panics of the file manager.  The only file action that panics is the
    confirmation, with a positive offset, of a read job that stands at a file
    number it has no file for (indexing [files] out of range).  Since the peer
    chooses the file number a job starts at, two messages are enough, and the
    release profile aborts the process on a panic. *)
Theorem file_action_panics_iff e is_ft fa s :
  on_file_action e is_ft fa s = Panic <->
  is_ft = true /\ delayed_read_dir s = None
  /\ exists r, fa = SendConfirm r /\ confirms_missing_file r s.
Proof.
  unfold on_file_action. destruct fa as [| | | | | | | |r| |]; cbn [do_file_action one_way_job_id].
  all: try solve [split; [|intros (_ & _ & r & H & _); discriminate H];
                  repeat (case_match; try done)].
  rewrite orb_false_r. destruct is_ft; cbn [negb]; [|split; [done|by intros (? & _)]].
  destruct (delayed_read_dir s) as [d|]; [split; [done|by intros (_ & ? & _)]|].
  assert (Hiff : (match T.get_job (T.c_id r) (read_jobs s) with
                  | Some _ => outcome_bind (confirm_job e r (read_jobs s)) (fun jobs => Done ([] : list FmOut, with_jobs jobs s))
                  | None => if decide (T.c_id r ∈ cm_read_job_ids s)
                            then Done ([FoFs (FsSendConfirmForRead (T.c_id r) (T.c_file_num r) (r_skip r) (r_offset_blk r) (fm_conn_id e))], s)
                            else Done ([FoFs (FsSendConfirm r)], s)
                  end = Panic) <-> confirms_missing_file r s).
  { unfold confirms_missing_file. destruct (T.get_job (T.c_id r) (read_jobs s)) as [j|] eqn:Eg.
    - assert (confirm_job e r (read_jobs s) = Panic <-> T.confirm j r (disk e) = Panic) as Hc.
      { rewrite confirm_job_panics_iff, Eg. split; [by intros (? & [= <-] & ?)|]. intros. by exists j. }
      rewrite Delivery.confirm_panics_iff in Hc. destruct (confirm_job e r (read_jobs s)); cbn [outcome_bind].
      + split; [done|]. intros (j' & [= <-] & H). by discriminate (proj2 Hc H).
      + split; [|done]. intros _. exists j. split; [done|]. by apply Hc.
    - split; [by destruct (decide _)|]. by intros (j & H & _). }
  destruct (one_way_file_transfer e); rewrite Hiff;
    (split; [intros H; split; [done|]; split; [done|]; by exists r|by intros (_ & _ & r' & [= <-] & H)]).
Qed.

(** *** Witnesses *)

Definition demo_env (one_way : bool) : FmEnv :=
  mkFmEnv 5000 1001 T.fs_empty (fun _ _ => Ok [T.mkFileEntry T.File "" false 3 7]) false one_way 10 "1.3.9".

Definition demo_fm : Fm := mkFm [] None [] ∅ (mkRemoveLog 0 [] []) false.

(** A peer asks for file number 7 of a one-file job and confirms it. *)
Lemma file_action_panics_iff_witness :
  exists outs s, on_file_action (demo_env false) true (Send 1 "/etc/passwd" false 7 0) demo_fm = Done (outs, s)
    /\ on_file_action (demo_env false) true
         (SendConfirm (T.mkConfirm 1 7 (Some (T.OffsetBlk 1)))) s = Panic.
Proof.
  eexists _, _. split; [vm_compute; reflexivity|]. apply file_action_panics_iff.
  split; [done|]. split; [done|]. eexists. split; [done|]. eexists.
  split; [vm_compute; reflexivity|]. split; [reflexivity|]. split; [by exists 1|]. split; [by eexists|reflexivity].
Defined.

End FileMgr.
