(* ===== verification/CmFiles.v ===== *)
(** * The connection manager's file operations ([src/ui_cm_interface.rs])

    The connection manager runs as the logged-in user and carries out the file
    orders of the connections ([FileManager]): it validates the names of an
    upload, keeps the write jobs, answers digests, and on Windows reads files
    for the connection.

    The disk is the one of [FileTransfer], on which only regular files are
    represented, under the texts of their paths.  A directory is there when a
    file is below it; the directories without files, the errors of the operating
    system that do not follow from the files (permissions, other devices, a
    missing directory) and its answers to the orders that make or remove
    directories are parameters.  Messages to the peer travel through the connection
    unchanged ([send_raw], [Data::RawMessage]). *)

From S2P Require Import Prelude RustStr FileTransfer FileTransferProofs Messages FileManager.

#[local] Open Scope rust_scope.

Module CmFs.

Import Msg FileMgr.

(** ** Validation of file names *)

(** [split(|c| c == '/' || c == '\\')] *)
Fixpoint split_sep (s : string) : list string :=
  match s with
  | EmptyString => [""]
  | String a s' =>
    if Ascii.eqb a "/" || Ascii.eqb a "\" then "" :: split_sep s'
    else match split_sep s' with
         | [] => [String a ""]
         | w :: ws => String a w :: ws
         end
  end.

Definition validate_file_name_no_traversal (name : string) : result unit string :=
  if contains_char "000"%char name then Err "file name contains null bytes"
  else if existsb (String.eqb "..") (filter (fun w => w <> "") (split_sep name))
  then Err "path traversal detected in file name"
  else if starts_with "/" name || starts_with "\" name
  then Err "absolute path detected in file name"
  else Ok tt.

Definition is_single_file_with_empty_name (files : list (string * Z)) : bool :=
  match files with [(name, _)] => String.eqb name "" | _ => false end.

Fixpoint validate_names (files : list (string * Z)) : result unit string :=
  match files with
  | [] => Ok tt
  | (name, _) :: files =>
    if String.eqb name "" then Err "empty file name in multi-file transfer"
    else let? _ := validate_file_name_no_traversal name in validate_names files
  end.

Definition validate_transfer_file_names (files : list (string * Z)) : result unit string :=
  if is_single_file_with_empty_name files then Ok tt else validate_names files.

(** ** The operations of [fs.rs] on paths *)

(** The text of a path from its components. *)
Definition path_text (p : list string) : string :=
  match p with
  | w :: p => if decide (w = "/"%string) then "/" +:+ String.concat "/" p else String.concat "/" (w :: p)
  | [] => ""
  end.

Definition dir_of (path : string) : option string := path_text <$> path_parent (path_components path).

(** [format!("{path:?}")] of a path without quotes and control characters. *)
Definition debug_path (path : string) : string := String "034" (path +:+ String "034" "").

(** What the operating system knows besides the files. *)
Record Os : Type := mkOs {
  other_dir : string -> bool;                           (* a directory, perhaps without files *)
  unlink_refused : string -> option string;             (* the error of [std::fs::remove_file] *)
  rename_refused : string -> string -> option string    (* the error of [std::fs::rename] *) }.

Definition has {A} (o : option A) : bool := match o with Some _ => true | None => false end.

Fixpoint rest_of (a p : list string) : option (list string) :=
  match a, p with
  | [], _ => Some p
  | x :: a, y :: p => if decide (x = y) then rest_of a p else None
  | _ :: _, [] => None
  end.

(** The names by which one gets from [a] down to [p]. *)
Definition down (rest : list string) : Prop :=
  rest <> [] /\ Forall (fun w => w ∉ [""; "."; ".."; "/"]%string) rest.

Definition below (a p : string) : option (list string) :=
  match rest_of (path_components a) (path_components p) with
  | Some rest => if decide (down rest) then Some rest else None
  | None => None
  end.

Definition has_files (d : T.FS) (p : string) : bool :=
  negb (String.eqb p "") && existsb (fun kv => has (below p kv.1)) (map_to_list (T.paths d)).

Definition is_dir (o : Os) (d : T.FS) (p : string) : bool := other_dir o p || has_files d p.

(** [Path::exists] *)
Definition path_exists (o : Os) (d : T.FS) (p : string) : bool := has (T.paths d !! p) || is_dir o d p.

Definition moved_path (a b p : string) : string :=
  match below a p with Some rest => b +:+ String "/" (String.concat "/" rest) | None => p end.

(** A directory goes with everything below it. *)
Definition move_dir (d : T.FS) (a b : string) : T.FS :=
  T.mkFS (list_to_map (map (fun kv => (moved_path a b kv.1, kv.2)) (map_to_list (T.paths d))))
    (T.nodes d) (T.next_ino d).

(** [std::fs::rename], which replaces a file but not a directory with files. *)
Definition os_rename (o : Os) (d : T.FS) (a b : string) : result T.FS string :=
  match rename_refused o a b with
  | Some err => Err err
  | None =>
    if decide (path_components a = path_components b) then Ok d
    else match T.paths d !! a with
         | Some _ => if is_dir o d b then Err "Is a directory (os error 21)" else Ok (T.fs_rename d a b)
         | None =>
           if has (below a b) then Err "Invalid argument (os error 22)"
           else if has (T.paths d !! b) then Err "Not a directory (os error 20)"
           else if has_files d b then Err "Directory not empty (os error 39)"
           else Ok (move_dir d a b)
         end
  end.

Definition fs_remove_file (o : Os) (path : string) (d : T.FS) : result T.FS string :=
  match unlink_refused o path with
  | Some err => Err err
  | None =>
    match T.paths d !! path with
    | Some _ => Ok (T.fs_unlink d path)
    | None => Err (if is_dir o d path then "Is a directory (os error 21)" else "No such file or directory (os error 2)")
    end
  end.

Definition fs_rename_file (o : Os) (path new_name : string) (d : T.FS) : result T.FS string :=
  if path_exists o d path then
    match dir_of path with
    | Some dir => os_rename o d path (T.path_join dir new_name)
    | None => Err ("Parent directoy of " +:+ debug_path path +:+ " not exists")
    end
  else Err (debug_path path +:+ " not exists").

(** ** State and surroundings *)

Record Cm : Type := mkCm {
  write_jobs : list T.TransferJob;
  cm_read_jobs : list T.TransferJob;
  cm_disk : T.FS }.

(** What goes back to the connection ([tx]) or to the log. *)
Inductive CmOut : Type :=
| CoRaw (m : Message)
| CoData (conn_id : Z) (m : FromCm)
| CoLog (l : FmLog).

Record CmEnv : Type := mkCmEnv {
  os_read : list Z -> Z -> result nat string;
  can_create : string -> bool;
  zcompress : list Z -> list Z;
  zdecompress : list Z -> list Z;
  cm_now : Z;
  digest_json : T.FileDigest -> list Z;
  parse_digest : list Z -> option T.FileDigest;
  cm_recursive_files : string -> bool -> result (list T.FileEntry) string;
  cm_max_files : Z;
  home_dir : string;
  list_dir : string -> bool -> option (list T.FileEntry);    (* [fs::read_dir] *)
  empty_dirs : string -> bool -> bool;                       (* whether [get_empty_dirs_recursive] succeeds *)
  os_remove_dir : string -> bool -> result unit string;
  os_create_dir : string -> result unit string;
  os : Os }.

Section Handle.
Context (e : CmEnv).

Definition handle_result (r : result unit string) (id file_num : Z) : list CmOut :=
  match r with
  | Err err => [CoRaw (new_error id err file_num)]
  | Ok _ => [CoRaw (new_done id file_num)]
  end.

Definition set_write_jobs (jobs : list T.TransferJob) (s : Cm) : Cm := mkCm jobs (cm_read_jobs s) (cm_disk s).
Definition set_read_jobs (jobs : list T.TransferJob) (s : Cm) : Cm := mkCm (write_jobs s) jobs (cm_disk s).
Definition set_disk (d : T.FS) (s : Cm) : Cm := mkCm (write_jobs s) (cm_read_jobs s) d.

Definition on_disk (r : result T.FS string) (s : Cm) : result unit string * Cm :=
  match r with Ok d => (Ok tt, set_disk d s) | Err err => (Err err, s) end.

Definition remove_file (path : string) (s : Cm) : result unit string * Cm :=
  on_disk (fs_remove_file (os e) path (cm_disk s)) s.

Definition rename_file (path new_name : string) (s : Cm) : result unit string * Cm :=
  if String.eqb new_name "" then (Err "new file name cannot be empty", s)
  else match validate_file_name_no_traversal new_name with
       | Err err => (Err err, s)
       | Ok _ => on_disk (fs_rename_file (os e) path new_name (cm_disk s)) s
       end.

(** [get_job] and an operation on it; the other jobs stay. *)
Fixpoint on_job {A} (id : Z) (f : T.TransferJob -> A * T.TransferJob) (jobs : list T.TransferJob)
  : option A * list T.TransferJob :=
  match jobs with
  | [] => (None, [])
  | j :: jobs =>
    if T.id j =? id then let '(a, j) := f j in (Some a, j :: jobs)
    else let '(a, jobs) := on_job id f jobs in (a, j :: jobs)
  end.

Definition with_total (total conn_id : Z) (j : T.TransferJob) : T.TransferJob :=
  T.mkTransferJob (T.id j) (T.type j) (T.remote j) (T.data_source j) (T.show_hidden j) (T.is_remote j)
    (T.is_last_job j) (T.is_resume j) (T.file_num j) (T.files j) conn_id (T.data_stream j) total
    (T.finished_size j) (T.transferred j) (T.enable_overwrite_detection j) (T.file_confirmed j)
    (T.file_skipped j) (T.file_is_waiting j) (T.default_overwrite_strategy j) (T.digest j).

Definition new_write_job (path : string) (id file_num : Z) (files : list (string * Z)) (od : bool)
  (total_size conn_id : Z) : T.TransferJob :=
  let entries := map (fun f => T.mkFileEntry T.Dir (fst f) false 0 (snd f)) files in
  with_total total_size conn_id
    (T.new_write id T.Generic "" (T.FilePath path) file_num false false entries od).

Definition write_block (id file_num : Z) (data : list Z) (compressed : bool) (s : Cm) : list CmOut * Cm :=
  match on_job id (fun j =>
          let '(r, j, d) := T.write (can_create e) (zdecompress e) (cm_now e) (digest_json e) j
                              (T.mkBlock id file_num data compressed) (cm_disk s) in
          ((r, d), j)) (write_jobs s) with
  | (None, _) => ([], s)
  | (Some (r, d), jobs) =>
    (match r with Err err => [CoRaw (new_error id err file_num)] | Ok _ => [] end,
     mkCm jobs (cm_read_jobs s) d)
  end.

Definition check_digest (id file_num file_size last_modified : Z) (is_upload is_resume : bool) (s : Cm)
  : list CmOut * Cm :=
  match T.get_job id (write_jobs s) with
  | None => ([], s)
  | Some job =>
    match T.entry_at job (u64 file_num), T.data_source job with
    | Some file, T.FilePath p =>
      let path := T.join p (T.name file) in
      let digest := T.mkDigest id file_num last_modified file_size false 0 false in
      let r := T.is_write_need_confirmation (parse_digest e) is_resume path digest (cm_disk s) in
      let '(_, jobs) := on_job id (fun j => (tt, T.set_digest j file_size last_modified)) (write_jobs s) in
      let confirm u := [CoRaw (MFileAction (SendConfirm (T.mkConfirm id file_num (Some u))))] in
      (match r with
       | T.IsSame => confirm (T.Skip true)
       | T.NeedConfirm d => [CoRaw (MFileResponse (FrDigest d is_upload))]
       | T.NoSuchFile => confirm (T.OffsetBlk 0)
       end, set_write_jobs jobs s)
    | _, _ => ([], s)
    end
  end.

(** [job.confirm] on the job with the request's id. *)
Definition confirm_in (r : T.FileTransferSendConfirmRequest) (jobs : list T.TransferJob) (d : T.FS)
  : outcome (list T.TransferJob) :=
  match on_job (T.c_id r) (fun j => match T.confirm j r d with Done j' => (true, j') | Panic => (false, j) end) jobs with
  | (Some false, _) => Panic
  | (_, jobs) => Done jobs
  end.

(** *** Reading for the connection *)

Definition start_read_job (path : string) (file_num : Z) (include_hidden : bool) (id conn_id : Z) (od : bool) (s : Cm)
  : list CmOut * Cm :=
  match T.new_read (cm_recursive_files e) id T.Generic "" (T.FilePath path) file_num include_hidden true od with
  | Err err => ([CoData conn_id (ReadJobInitResult id (Err ("validation failed: " +:+ err)))], s)
  | Ok job =>
    match check_file_count_limit (cm_max_files e) (len (T.files job)) with
    | Err msg => ([CoData conn_id (ReadJobInitResult id (Err msg))], s)
    | Ok _ =>
      ([CoData conn_id (ReadJobInitResult id (Ok (path, T.files job)))],
       set_read_jobs (cm_read_jobs s ++ [with_total (T.total_size job) conn_id job]) s)
    end
  end.

Definition read_all_files (path : string) (include_hidden : bool) (id conn_id : Z) : CmOut :=
  CoData conn_id (AllFilesResult id path
    (match cm_recursive_files e path include_hidden with
     | Err err => Err err
     | Ok fl => match check_file_count_limit (cm_max_files e) (len fl) with
                | Err msg => Err msg
                | Ok _ => Ok fl
                end
     end)).

(** [handle_read_jobs_tick]: jobs of earlier sessions are skipped, a job that
    cannot be opened is finished and the next one tried, then one job is
    served.  The last component has the ids of the finished jobs. *)
Fixpoint serve_tick (conn_id : Z) (jobs : list T.TransferJob) (d : T.FS)
  : list T.TransferJob * list CmOut * list Z :=
  match jobs with
  | [] => ([], [], [])
  | j :: jobs =>
    if T.is_last_job j then
      let '(jobs, outs, fin) := serve_tick conn_id jobs d in (j :: jobs, outs, fin)
    else
      match T.init_data_stream_for_cm j d with
      | (Err err, j) =>
        let '(jobs, outs, fin) := serve_tick conn_id jobs d in
        (j :: jobs, CoData conn_id (FileReadError (T.id j) (T.file_num j) err) :: outs, T.id j :: fin)
      | (Ok dg, j) =>
        let digest := match dg with
                      | Some (last_modified, file_size) =>
                        [CoData conn_id (FileDigestFromCM (T.id j) (T.file_num j) last_modified file_size (T.is_resume j))]
                      | None => []
                      end in
        match T.read (os_read e) (zcompress e) j d with
        | (Err err, j) =>
          (j :: jobs, digest ++ [CoData conn_id (FileReadError (T.id j) (T.file_num j) err)], [T.id j])
        | (Ok (Some b), j) =>
          (j :: jobs, digest ++ [CoData conn_id (FileBlockFromCM (T.b_id b) (T.b_file_num b) (T.b_data b) (T.b_compressed b))], [])
        | (Ok None, j) =>
          if T.job_completed j then
            (j :: jobs,
             digest ++ [CoData conn_id (match T.job_error j with
                                        | Some err => FileReadError (T.id j) (T.file_num j) err
                                        | None => FileReadDone (T.id j) (T.file_num j)
                                        end)], [T.id j])
          else (j :: jobs, digest, [])
        end
      end
  end.

Definition handle_read_jobs_tick (conn_id : Z) (s : Cm) : list CmOut * Cm :=
  let '(jobs, outs, finished) := serve_tick conn_id (cm_read_jobs s) (cm_disk s) in
  (outs, set_read_jobs (fold_left (fun jobs i => (T.remove_job i jobs).2) finished jobs) s).

(** ** [handle_fs] *)

Definition handle_fs (f : FS) (s : Cm) : outcome (list CmOut * Cm) :=
  match f with
  | FsReadEmptyDirs dir include_hidden =>
    Done (if empty_dirs e dir include_hidden then [CoRaw (MFileResponse (FrEmptyDirs dir))] else [], s)
  | FsReadDir dir include_hidden =>
    let path := if String.eqb dir "" then home_dir e else dir in
    Done (match list_dir e path include_hidden with
          | Some entries => [CoRaw (MFileResponse (FrDir 0 path entries))]
          | None => []
          end, s)
  | FsRemoveDir path id recursive => Done (handle_result (os_remove_dir e path recursive) id 0, s)
  | FsRemoveFile path id file_num =>
    let '(r, s) := remove_file path s in Done (handle_result r id file_num, s)
  | FsCreateDir path id => Done (handle_result (os_create_dir e path) id 0, s)
  | FsNewWrite path id file_num files od total_size conn_id =>
    match validate_transfer_file_names files with
    | Err err => Done ([CoRaw (new_error id err file_num)], s)
    | Ok _ => Done ([], set_write_jobs (write_jobs s ++ [new_write_job path id file_num files od total_size conn_id]) s)
    end
  | FsCancelWrite id =>
    match T.remove_job id (write_jobs s) with
    | (Some j, jobs) =>
      Done ([CoLog (LogJob j false true "")], mkCm jobs (cm_read_jobs s) (T.remove_download_file j (cm_disk s)))
    | (None, _) => Done ([], s)
    end
  | FsWriteDone id file_num =>
    match T.remove_job id (write_jobs s) with
    | (Some j, jobs) =>
      Done ([CoRaw (new_done id file_num); CoLog (LogJob j true false "")],
            mkCm jobs (cm_read_jobs s) (T.modify_time j (cm_disk s)))
    | (None, _) => Done ([], s)
    end
  | FsWriteError id file_num err =>
    match T.remove_job id (write_jobs s) with
    | (Some j, jobs) =>
      Done ([CoLog (LogJob j false false err); CoRaw (new_error (T.id j) err file_num)], set_write_jobs jobs s)
    | (None, _) => Done ([], s)
    end
  | FsWriteBlock id file_num data compressed => Done (write_block id file_num data compressed s)
  | FsCheckDigest id file_num file_size last_modified is_upload is_resume =>
    Done (check_digest id file_num file_size last_modified is_upload is_resume s)
  | FsSendConfirm r =>
    let! jobs := confirm_in r (write_jobs s) (cm_disk s) in Done ([], set_write_jobs jobs s)
  | FsRename id path new_name =>
    let '(r, s) := rename_file path new_name s in Done (handle_result r id 0, s)
  | FsReadFile path id file_num include_hidden conn_id od =>
    Done (start_read_job path file_num include_hidden id conn_id od s)
  | FsCancelRead id _ =>
    match T.remove_job id (cm_read_jobs s) with
    | (Some j, jobs) => Done ([CoLog (LogJob j false true "")], set_read_jobs jobs s)
    | (None, _) => Done ([], s)
    end
  | FsSendConfirmForRead id _ skip offset_blk _ =>
    match T.get_job id (cm_read_jobs s) with
    | Some j =>
      let r := T.mkConfirm id (T.file_num j) (Some (if skip then T.Skip true else T.OffsetBlk offset_blk)) in
      let! jobs := confirm_in r (cm_read_jobs s) (cm_disk s) in Done ([], set_read_jobs jobs s)
    | None => Done ([], s)
    end
  | FsReadAllFiles path id include_hidden conn_id => Done ([read_all_files path include_hidden id conn_id], s)
  | FsWriteOffset _ _ _ => Done ([], s)
  end.

Fixpoint handle_all (fs : list FS) (s : Cm) : outcome (list CmOut * Cm) :=
  match fs with
  | [] => Done ([], s)
  | f :: fs =>
    let! (outs, s) := handle_fs f s in
    let! (outs', s) := handle_all fs s in
    Done (outs ++ outs', s)
  end.

End Handle.

(** ** Validated names stay below their directory *)

(** [q] is below [base], going down only. *)
Definition beneath (base q : string) : Prop :=
  exists rest, path_components q = path_components base ++ rest /\ ".."%string ∉ rest.

(** How the first part of a path is read when others follow. *)
Definition first_part (a : string) : list string :=
  if decide (a = "") then ["/"%string] else if decide (a = ".") then ["."%string] else [a].

Lemma keep_parts_app l1 l2 : keep_parts (l1 ++ l2) = keep_parts l1 ++ keep_parts l2.
Proof. apply filter_app. Qed.

Lemma components_of_cons a l : a <> "" \/ l <> [] -> components_of (a :: l) = first_part a ++ keep_parts l.
Proof.
  intros H. unfold components_of, first_part.
  destruct (decide (a = "")) as [->|Ha]; destruct (decide _) as [[? ?]|Hn]; try done.
  - destruct H; [done|]. by destruct Hn.
  - destruct (decide (a = ".")) as [->|Hd]; [done|]. unfold keep_parts. by rewrite filter_cons_True.
Qed.

Lemma components_app l1 l2 a :
  a <> "" \/ l1 <> [] -> components_of (a :: l1 ++ l2) = components_of (a :: l1) ++ keep_parts l2.
Proof.
  intros H. rewrite !components_of_cons; [by rewrite keep_parts_app, app_assoc|done|].
  destruct H as [?|?]; [by left|right]. by destruct l1.
Qed.

Definition clean (w : string) : Prop := contains_char "\" w = false.

Lemma split_sep_cons s : exists w ws, split_sep s = w :: ws.
Proof.
  induction s as [|a s (w & ws & IH)]; cbn; [eauto|]. rewrite IH.
  destruct (Ascii.eqb a "/" || Ascii.eqb a "\"); eauto.
Qed.

(** A part between slashes that has no backslash is a part of the finer split. *)
Lemma split_sep_finer s :
  exists w ws v vs, split_char "/" s = w :: ws /\ split_sep s = v :: vs
    /\ (clean w -> v = w) /\ forall x, x ∈ ws -> clean x -> x ∈ vs.
Proof.
  induction s as [|a s (w & ws & v & vs & E1 & E2 & Hh & Ht)].
  - exists "", [], "", []. split; [done|]. split; [done|]. split; [done|]. intros x Hx. by apply not_elem_of_nil in Hx.
  - cbn [split_char split_sep]. rewrite E1, E2. destruct (Ascii.eqb a "/") eqn:Ea; cbn [orb].
    + exists "", (w :: ws), "", (v :: vs). split; [done|]. split; [done|]. split; [done|].
      intros x Hx Hc. apply elem_of_cons in Hx as [->|Hx]; [rewrite (Hh Hc); left|right; auto].
    + destruct (Ascii.eqb a "\") eqn:Eb.
      * exists (String a w), ws, "", (v :: vs). split; [done|]. split; [done|]. split.
        -- unfold clean. cbn. by rewrite Eb.
        -- intros x Hx Hc. right. auto.
      * exists (String a w), ws, (String a v), vs. split; [done|]. split; [done|]. split; [|done].
        unfold clean. cbn. rewrite Eb. cbn. intros Hc. by rewrite Hh.
Qed.

Lemma validated_parts nm :
  is_ok (validate_file_name_no_traversal nm) = true ->
  ".."%string ∉ split_char "/" nm /\ starts_with "/" nm = false.
Proof.
  unfold validate_file_name_no_traversal. destruct (contains_char _ nm); [done|].
  destruct (existsb _ _) eqn:Ex; [done|]. destruct (starts_with "/" nm); [done|]. cbn [orb].
  intros _. split; [|done]. intros Hin.
  destruct (split_sep_finer nm) as (w & ws & v & vs & E1 & E2 & Hh & Ht). rewrite E1 in Hin.
  assert (".."%string ∈ split_sep nm) as H.
  { rewrite E2. apply elem_of_cons in Hin as [<-|Hin]; [rewrite (Hh eq_refl); left|right; by apply Ht]. }
  apply Bool.not_true_iff_false in Ex. apply Ex. apply existsb_exists. exists ".."%string. split; [|done].
  apply list_elem_of_In, list_elem_of_filter. by split.
Qed.

(** The same with the suffix of a temporary file. *)
Lemma validated_suffix nm sfx :
  is_ok (validate_file_name_no_traversal nm) = true ->
  contains_char "/" sfx = false -> sfx = "" \/ (2 < String.length sfx)%nat ->
  ".."%string ∉ split_char "/" (nm +:+ sfx).
Proof.
  intros Hv Hs Hl. destruct (validated_parts nm Hv) as [Hp _].
  destruct (split_char_suffix "/" nm sfx Hs) as (l & w & E1 & E2). rewrite E2. rewrite E1 in Hp.
  intros Hin. apply elem_of_app in Hin as [Hin|Hin]; [apply Hp, elem_of_app; by left|].
  apply list_elem_of_singleton in Hin. destruct Hl as [->|Hl].
  - apply Hp, elem_of_app. right. rewrite append_empty in Hin. subst. left.
  - apply (f_equal String.length) in Hin. rewrite length_append in Hin. cbn in Hin. lia.
Qed.

Lemma components_elem x l : x ∈ components_of l -> x = "/"%string \/ x ∈ l.
Proof.
  assert (forall l, x ∈ keep_parts l -> x ∈ l) as Hk by (intros l'; by intros [_ ?]%list_elem_of_filter).
  destruct l as [|w ws]; [by right|]. unfold components_of.
  destruct (decide (w = "" /\ ws <> [])); [intros [->|H]%elem_of_cons; [by left|right; right; auto]|].
  destruct (decide (w = ".")); [|right; auto]. intros [->|H]%elem_of_cons; right; [left|right; auto].
Qed.

Lemma keep_parts_elem x l : x ∈ keep_parts l -> x ∈ l.
Proof. by intros [_ ?]%list_elem_of_filter. Qed.

(** What is joined to a directory lies below it. *)
Lemma split_join_beneath base b' x tail :
  split_char "/" base = split_char "/" b' ++ tail -> keep_parts tail = [] ->
  tail <> [] \/ b' <> "" -> ".."%string ∉ split_char "/" x ->
  beneath base (b' +:+ String "/" x).
Proof.
  intros Hb Ht Hne Hx. exists (keep_parts (split_char "/" x)). split; [|by intros ?%keep_parts_elem].
  unfold path_components. rewrite split_char_join, Hb.
  destruct (split_char_cons "/" b') as (a & l & E). rewrite E.
  destruct (split_char_cons "/" x) as (v & vs & Ex). rewrite <- !app_comm_cons.
  rewrite (components_of_cons a (l ++ split_char "/" x)) by (right; rewrite Ex; by destruct l).
  rewrite components_of_cons.
  - by rewrite !keep_parts_app, Ht, app_nil_r, app_assoc.
  - destruct Hne as [Hne|Hne]; [right; by destruct l, tail|].
    destruct (decide (a = "")) as [->|]; [|by left]. right. destruct l; [|done].
    by apply split_char_empty in E.
Qed.

Lemma join_beneath base nm sfx :
  nm <> "" -> is_ok (validate_file_name_no_traversal nm) = true ->
  contains_char "/" sfx = false -> sfx = "" \/ (2 < String.length sfx)%nat ->
  beneath base (T.join base nm +:+ sfx).
Proof.
  intros Hne Hv Hs Hl. pose proof (validated_suffix nm sfx Hv Hs Hl) as Hx.
  destruct (validated_parts nm Hv) as [_ Hst]. unfold T.join, T.path_join.
  destruct (String.eqb_spec nm ""); [done|]. rewrite Hst.
  destruct (String.eqb_spec base "") as [->|Hbase].
  - exists (path_components (nm +:+ sfx)). split; [done|]. intros [?|?]%components_elem; done.
  - unfold T.ends_with_slash. destruct (after_last "/" base) as [r|] eqn:Ea; [destruct r as [|? ?]|].
    + apply after_last_Some in Ea as [b' ->]. rewrite <- !append_assoc.
      change ("/" +:+ nm +:+ sfx) with (String "/" (nm +:+ sfx)).
      apply (split_join_beneath _ _ _ [""]); [by rewrite split_char_join|done|by left|done].
    + rewrite <- !append_assoc. change ("/" +:+ nm +:+ sfx) with (String "/" (nm +:+ sfx)).
      apply (split_join_beneath _ _ _ []); [by rewrite app_nil_r|done|by right|done].
    + rewrite <- !append_assoc. change ("/" +:+ nm +:+ sfx) with (String "/" (nm +:+ sfx)).
      apply (split_join_beneath _ _ _ []); [by rewrite app_nil_r|done|by right|done].
Qed.

(** ** Moving a directory *)

Lemma rest_of_spec k l :
  match rest_of k l with Some r => l = k ++ r | None => forall r, l <> k ++ r end.
Proof.
  revert l. induction k as [|x k IH]; intros l; [done|]. destruct l as [|y l]; cbn [rest_of]; [done|].
  destruct (decide (x = y)) as [->|Hne]; [|intros r; cbn; congruence].
  specialize (IH l). destruct (rest_of k l) as [r|]; [by subst|]. intros r. cbn. intros [= ->]. by eapply IH.
Qed.

Lemma below_spec a p rest :
  below a p = Some rest <-> path_components p = path_components a ++ rest /\ down rest.
Proof.
  unfold below. pose proof (rest_of_spec (path_components a) (path_components p)) as H.
  destruct (rest_of _ _) as [r|]; [|split; [done|]; intros [E _]; by destruct (H rest)].
  destruct (decide (down r)) as [Hd|Hd]; split; try done.
  - intros [= ->]. done.
  - intros [E _]. rewrite H in E. by apply app_inv_head in E as ->.
  - intros [E Hr]. rewrite H in E. by apply app_inv_head in E as ->.
Qed.

Lemma below_is_beneath a p : is_Some (below a p) -> beneath a p.
Proof.
  intros [rest [E [_ H]]%below_spec]. exists rest. split; [done|]. intros Hin.
  apply (proj1 (Forall_forall _ _) H _ Hin). set_solver.
Qed.

Lemma beneath_trans a b q : beneath a b -> beneath b q -> beneath a q.
Proof.
  intros (r1 & E1 & H1) (r2 & E2 & H2). exists (r1 ++ r2). split; [by rewrite E2, E1, app_assoc|].
  rewrite elem_of_app. tauto.
Qed.

Lemma split_char_parts c s w : w ∈ split_char c s -> contains_char c w = false.
Proof.
  revert w. induction s as [|a s IH]; intros w; cbn [split_char].
  - by intros ->%list_elem_of_singleton.
  - destruct (Ascii.eqb a c) eqn:E; [intros [->|Hw]%elem_of_cons; [done|by apply IH]|].
    destruct (split_char_cons c s) as (v & vs & Es). rewrite Es in *.
    intros [->|Hw]%elem_of_cons; [|apply IH; by right]. cbn [contains_char]. rewrite E. apply IH. by left.
Qed.

Lemma split_concat_slash ws :
  ws <> [] -> Forall (fun w => contains_char "/" w = false) ws -> split_char "/" (String.concat "/" ws) = ws.
Proof.
  intros Hne H. induction H as [|w ws Hw H IH]; [done|]. destruct ws as [|v ws]; [by apply split_char_none|].
  change (String.concat "/" (w :: v :: ws)) with (w +:+ String "/" (String.concat "/" (v :: ws))).
  rewrite split_char_app by done. by rewrite IH.
Qed.

Lemma keep_parts_names ws : Forall (fun w => w ∉ [""; "."; ".."; "/"]%string) ws -> keep_parts ws = ws.
Proof.
  unfold keep_parts. induction 1 as [|w ws Hw _ IH]; [done|]. rewrite filter_cons_True by set_solver. by rewrite IH.
Qed.

(** A moved file keeps its place below the directory. *)
Lemma below_moved a b p rest : b <> "" -> below a p = Some rest -> below b (moved_path a b p) = Some rest.
Proof.
  intros Hb Hp. unfold moved_path. rewrite Hp. apply below_spec in Hp as [E [Hne Hd]]. apply below_spec.
  split; [|done].
  assert (Forall (fun w => contains_char "/" w = false) rest) as Hs.
  { apply Forall_forall. intros w Hw. pose proof (proj1 (Forall_forall _ _) Hd _ Hw) as Hx.
    assert (w ∈ path_components p) as [->|Hin]%components_elem by (rewrite E; apply elem_of_app; by right).
    - set_solver.
    - by apply split_char_parts in Hin. }
  unfold path_components. rewrite split_char_join, split_concat_slash by done.
  destruct (split_char_cons "/" b) as (x & l & Ex). rewrite Ex. rewrite <- app_comm_cons.
  rewrite components_app.
  - by rewrite keep_parts_names.
  - destruct l; [left|by right]. intros ->. by apply split_char_empty in Ex.
Qed.

Lemma moved_elem d a b q i :
  (q, i) ∈ map (fun kv => (moved_path a b kv.1, kv.2)) (map_to_list (T.paths d)) <->
  exists p, q = moved_path a b p /\ T.paths d !! p = Some i.
Proof.
  rewrite list_elem_of_In, in_map_iff. split.
  - intros ([p k] & [= <- <-] & Hin%list_elem_of_In%elem_of_map_to_list). by exists p.
  - intros (p & -> & Hp). exists (p, i). split; [done|]. by apply list_elem_of_In, elem_of_map_to_list.
Qed.

Lemma fs_wf_move d a b : fs_wf d -> fs_wf (move_dir d a b).
Proof.
  intros [H1 H2]. split; cbn.
  - intros p i (p' & _ & Hp)%elem_of_list_to_map_2%moved_elem. by eapply H1.
  - intros p q i (p' & -> & Hp)%elem_of_list_to_map_2%moved_elem (q' & -> & Hq)%elem_of_list_to_map_2%moved_elem.
    by rewrite (H2 _ _ _ Hp Hq).
Qed.

Lemma move_dir_other q d a b :
  b <> "" -> below a q = None -> below b q = None -> T.paths (move_dir d a b) !! q = T.paths d !! q.
Proof.
  intros Hb Ha Hq. assert (forall p, q = moved_path a b p -> p = q) as Hp.
  { intros p E. destruct (below a p) as [rest|] eqn:Ep.
    - apply (below_moved a b) in Ep; [|done]. rewrite <- E in Ep. congruence.
    - unfold moved_path in E. by rewrite Ep in E. }
  cbn. destruct (T.paths d !! q) as [i|] eqn:E.
  - apply elem_of_list_to_map_1'.
    + intros k (p & ->%Hp & Hk)%moved_elem. congruence.
    + apply moved_elem. exists q. split; [|done]. unfold moved_path. by rewrite Ha.
  - apply not_elem_of_list_to_map_1. intros ((q' & k) & -> & Hin)%list_elem_of_fmap.
    apply moved_elem in Hin as (p & E' & Hk). cbn in *. apply Hp in E' as ->. congruence.
Qed.

Lemma path_join_nonempty dir nm : nm <> "" -> T.path_join dir nm <> "".
Proof.
  unfold T.path_join. intros Hn. destruct (starts_with "/" nm); [done|]. destruct (String.eqb dir ""); [done|].
  destruct (T.ends_with_slash dir); intros H%(f_equal String.length); rewrite !length_append in H;
    destruct nm; try done; cbn in H; lia.
Qed.

(** ** What the upload orders can touch *)

(** The disk looks the same at [q]: the same inode, the same contents. *)
Definition same_at (q : string) (d d' : T.FS) : Prop :=
  fs_wf d' /\ T.fs_get d' q = T.fs_get d q /\ T.paths d' !! q = T.paths d !! q.

Lemma same_at_refl q d : fs_wf d -> same_at q d d.
Proof. done. Qed.

Lemma same_at_trans q d1 d2 d3 : same_at q d1 d2 -> same_at q d2 d3 -> same_at q d1 d3.
Proof. intros (_ & H1 & H2) (H3 & H4 & H5). split; [done|]. split; congruence. Qed.

Lemma same_at_unlink q d p : fs_wf d -> q <> p -> same_at q d (T.fs_unlink d p).
Proof.
  intros Hw Hq. split; [by apply fs_wf_unlink|]. split.
  - rewrite fs_get_unlink. by rewrite decide_False.
  - cbn. by rewrite lookup_delete_ne.
Qed.

Lemma same_at_rename q d a b : fs_wf d -> q <> a -> q <> b -> same_at q d (T.fs_rename d a b).
Proof.
  intros Hw Ha Hb. split; [by apply fs_wf_rename|]. split; [by apply fs_get_rename_ne|].
  unfold T.fs_rename. destruct (T.paths d !! a); [|done]. cbn.
  by rewrite lookup_insert_ne, lookup_delete_ne.
Qed.

Lemma same_at_move q d a b :
  fs_wf d -> b <> "" -> below a q = None -> below b q = None -> same_at q d (move_dir d a b).
Proof.
  intros Hw Hb Ha Hq. pose proof (move_dir_other q d a b Hb Ha Hq) as H. split; [by apply fs_wf_move|].
  split; [|done]. unfold T.fs_get. by rewrite H.
Qed.

(** What the operating system renames changes only the two names and what is
    below them. *)
Lemma same_at_os_rename o q d a b d' :
  fs_wf d -> b <> "" -> q <> a -> q <> b -> below a q = None -> below b q = None ->
  os_rename o d a b = Ok d' -> same_at q d d'.
Proof.
  intros Hw Hb Ha Hq Hba Hbb. unfold os_rename. destruct (rename_refused o a b); [done|].
  destruct (decide _); [by intros [= <-]|]. destruct (T.paths d !! a).
  - destruct (is_dir o d b); [done|]. intros [= <-]. by apply same_at_rename.
  - destruct (has (below a b)); [done|]. destruct (has _); [done|]. destruct (has_files d b); [done|].
    intros [= <-]. by apply same_at_move.
Qed.

Lemma same_at_set_mtime q d p t : fs_wf d -> q <> p -> same_at q d (T.fs_set_mtime d p t).
Proof.
  intros Hw Hq. split; [by apply fs_wf_set_mtime|]. split; [by apply fs_get_set_mtime_ne|].
  unfold T.fs_set_mtime. destruct (T.paths d !! p) as [i|]; [|done]. by destruct (T.nodes d !! i).
Qed.

Lemma same_at_create q d p t : fs_wf d -> q <> p ->
  same_at q d (T.fs_create d p t).1 /\ T.paths (T.fs_create d p t).1 !! q <> Some (T.fs_create d p t).2.
Proof.
  intros Hw Hq. pose proof (fs_wf_create d p t Hw) as Hw'. pose proof (fs_create_path d p t) as Hp. split.
  - split; [done|]. split; [by apply fs_get_create_ne|]. unfold T.fs_create.
    destruct (T.paths d !! p); [done|]. cbn. by rewrite lookup_insert_ne.
  - intros H. apply Hq. by apply (proj2 Hw' _ _ _ H Hp).
Qed.

Lemma same_at_write_file q d p x t : fs_wf d -> q <> p -> same_at q d (T.fs_write_file d p x t).
Proof.
  intros Hw Hq. split; [by apply fs_wf_write_file|]. split; [by apply fs_get_write_file_ne|].
  by apply fs_write_file_path_ne.
Qed.

Lemma same_at_update q d i n : fs_wf d -> T.paths d !! q <> Some i -> same_at q d (T.fs_update d i n).
Proof.
  intros Hw Hq. split; [done|]. split; [|done]. unfold T.fs_get. cbn.
  destruct (T.paths d !! q) as [k|]; [|done]. cbn. rewrite lookup_insert_ne; [done|]. congruence.
Qed.

(** The three names a file of an upload can have. *)
Definition slots (base nm : string) : list string :=
  let p := T.join base nm in [p; T.download_path p; T.digest_path p].

(** A write job that stays away from [q]. *)
Definition stream_clear (q : string) (d : T.FS) (st : option T.DataStream) : Prop :=
  match st with
  | Some (T.FileStream i _) => T.paths d !! q <> Some i
  | _ => True
  end.

Definition clear_of (q : string) (d : T.FS) (j : T.TransferJob) : Prop :=
  T.type j = T.Generic
  /\ (exists base, T.data_source j = T.FilePath base
                    /\ Forall (fun e => q ∉ slots base (T.name e)) (T.files j))
  /\ stream_clear q d (T.data_stream j).

Lemma clear_of_same q d d' j : same_at q d d' -> clear_of q d j -> clear_of q d' j.
Proof.
  intros (_ & _ & Hp) (H1 & H2 & H3). split; [done|]. split; [done|]. unfold stream_clear in *.
  by rewrite Hp.
Qed.

Lemma entry_slots q d j base n en :
  clear_of q d j -> T.data_source j = T.FilePath base -> T.entry_at j n = Some en ->
  q <> T.join base (T.name en) /\ q <> T.download_path (T.join base (T.name en))
  /\ q <> T.digest_path (T.join base (T.name en)).
Proof.
  intros (_ & (base' & Hb & Hn) & _) Hb' He. assert (base' = base) as -> by congruence.
  apply not_in3. by apply (Forall_lookup_1 _ _ _ _ Hn He).
Qed.

Lemma modify_time_same q d j : fs_wf d -> clear_of q d j -> same_at q d (T.modify_time j d).
Proof.
  intros Hw Hj. unfold T.modify_time. destruct (decide _); [done|].
  destruct (T.data_source j) as [base|] eqn:Hb; [|done]. destruct (_ <? _); [|done].
  destruct (T.entry_at j (u64 (T.file_num j))) as [en|] eqn:He; [|done].
  destruct (entry_slots q d j base _ en Hj Hb He) as (H1 & H2 & H3).
  assert (fs_wf (T.fs_unlink d (T.digest_path (T.join base (T.name en))))) by (by apply fs_wf_unlink).
  set (p := T.join base (T.name en)) in *.
  eapply same_at_trans; [by apply (same_at_unlink q d (T.digest_path p))|].
  eapply same_at_trans; [by apply (same_at_rename q _ (T.download_path p) p)|].
  apply same_at_set_mtime; [by apply fs_wf_rename|done].
Qed.

Lemma remove_download_same q d j : fs_wf d -> clear_of q d j -> same_at q d (T.remove_download_file j d).
Proof.
  intros Hw Hj. unfold T.remove_download_file. destruct (decide _); [done|].
  destruct (T.data_source j) as [base|] eqn:Hb; [|done]. destruct (_ <? _); [|done].
  destruct (T.entry_at j (u64 (T.file_num j))) as [en|] eqn:He; [|done].
  destruct (entry_slots q d j base _ en Hj Hb He) as (H1 & H2 & H3).
  set (p := T.join base (T.name en)) in *.
  eapply same_at_trans; [by apply (same_at_unlink q d (T.download_path p))|].
  apply same_at_unlink; [by apply fs_wf_unlink|done].
Qed.

(** A path other than [q] has another inode. *)
Lemma other_inode q d p i : fs_wf d -> q <> p -> T.paths d !! p = Some i -> T.paths d !! q <> Some i.
Proof. intros [_ Hinj] Hq Hp H. apply Hq. by apply (Hinj _ _ _ H Hp). Qed.

Lemma confirm_clear q d j r j' :
  fs_wf d -> clear_of q d j -> T.confirm j r d = Done j' -> clear_of q d j'.
Proof.
  intros Hw Hj. unfold T.confirm. destruct (negb _); [by intros [= <-]|].
  destruct (T.c_union r) as [[[]|off]|]; [intros [= <-]; by destruct Hj as (? & ? & ?)| | |by intros [= <-]].
  - intros [= <-]. by destruct Hj as (? & ? & ?).
  - assert (clear_of q d (T.set_file_confirmed j true)) as Hj' by (by destruct Hj as (? & ? & ?)).
    destruct (0 <? off); [|by intros [= <-]]. unfold T.set_stream_offset.
    set (j1 := T.set_file_confirmed j true) in *. destruct (T.data_source j1) as [base|] eqn:Hb; [|by intros [= <-]].
    destruct (T.entry_at j1 _) as [en|] eqn:He; [|done].
    destruct (entry_slots q d j1 base _ en Hj' Hb He) as (H1 & H2 & H3).
    assert (forall p i, q <> p -> T.paths d !! p = Some i ->
              clear_of q d (T.with_counts (T.with_stream j1 (Some (T.FileStream i off)))
                 (u64 (T.finished_size (T.with_stream j1 (Some (T.FileStream i off))) + off))
                 (u64 (T.transferred (T.with_stream j1 (Some (T.FileStream i off))) + off)))) as Hopen.
    { intros p i Hp Hi. destruct Hj' as (Ht & Hbase & _). split; [done|]. split; [done|].
      cbn. by eapply other_inode. }
    destruct (T.paths d !! T.download_path _) as [i|] eqn:E1;
      [destruct (T.paths d !! T.digest_path _)|];
      try (destruct (T.paths d !! T.join base (T.name en)) as [k|] eqn:E2);
      intros [= <-]; eauto.
Qed.

Section Clear.
Context (e : CmEnv).

Lemma write_clear q d j b r j' d' :
  fs_wf d -> clear_of q d j ->
  T.write (can_create e) (zdecompress e) (cm_now e) (digest_json e) j b d = (r, j', d') ->
  same_at q d d' /\ clear_of q d' j'.
Proof.
  intros Hw Hj. unfold T.write. destruct (negb _); [by intros [= <- <- <-]|].
  pose proof Hj as (Ht & (base & Hb & Hn) & Hs). rewrite Hb.
  destruct (T.write_open _ _ _ j base _ d) as [[r1 j1] d1] eqn:Eo.
  assert (same_at q d d1 /\ clear_of q d1 j1) as [Hsame Hj1].
  { unfold T.write_open in Eo. destruct (_ <=? _); [by injection Eo as <- <- <-|].
    destruct (_ || _); [|by injection Eo as <- <- <-].
    pose proof (modify_time_same q d j Hw Hj) as Hm. set (d0 := T.modify_time j d) in *.
    pose proof (clear_of_same q d d0 j Hm Hj) as Hj0. set (jn := T.with_file_num j _) in *.
    assert (clear_of q d0 jn) as Hjn by (by destruct Hj0 as (? & ? & ?)).
    destruct (T.entry_at jn _) as [en|] eqn:He; [|by injection Eo as <- <- <-].
    destruct (entry_slots q d0 jn base _ en Hjn Hb He) as (H1 & H2 & H3).
    change (T.type jn) with (T.type j) in Eo. rewrite decide_False in Eo by congruence.
    pose proof Hm as (Hw0 & _).
    pose proof (same_at_unlink q d0 _ Hw0 H3) as Hu. set (du := T.fs_unlink d0 _) in *. pose proof Hu as (Hwu & _).
    destruct (can_create e _); [|injection Eo as <- <- <-;
      split; [by eapply same_at_trans|by eapply clear_of_same]].
    destruct (same_at_create q du (T.download_path (T.join base (T.name en))) (cm_now e) Hwu H2) as [Hc Hi].
    destruct (T.fs_create du _ _) as [dc i]. cbn [fst snd] in *. pose proof Hc as (Hwc & _).
    injection Eo as <- <- <-.
    pose proof (same_at_write_file q dc _ (digest_json e (T.digest (T.with_stream jn (Some (T.FileStream i 0)))))
      (cm_now e) Hwc H3) as Hf.
    split; [by eapply same_at_trans; [|eapply same_at_trans; [|eapply same_at_trans]]|].
    destruct Hjn as (Ht' & Hbase' & _). split; [done|]. split; [done|].
    destruct Hf as (_ & _ & Hf). intros Hq. apply Hi. rewrite <- Hf. exact Hq. }
  destruct r1 as [|err]; [|by intros [= <- <- <-]].
  pose proof Hsame as (Hw1 & _). pose proof Hj1 as (Ht1 & Hb1 & Hs1).
  destruct (T.data_stream j1) as [st|] eqn:Est; [|by intros [= <- <- <-]].
  destruct st as [i pos|buf pos]; cbn [T.stream_write].
  - intros [= <- <- <-]. cbn in Hs1.
    match goal with |- same_at _ _ (T.fs_update d1 i ?n) /\ _ =>
      pose proof (same_at_update q d1 i n Hw1 Hs1) as Hup end.
    split; [by eapply same_at_trans|]. split; [done|]. split; [done|]. exact Hs1.
  - intros [= <- <- <-]. split; [done|]. by split.
Qed.

Lemma on_job_spec {A} id (f : T.TransferJob -> A * T.TransferJob) jobs o jobs' :
  on_job id f jobs = (o, jobs') ->
  (o = None /\ jobs' = jobs)
  \/ exists l j r, jobs = l ++ j :: r /\ o = Some (f j).1 /\ jobs' = l ++ (f j).2 :: r.
Proof.
  revert o jobs'. induction jobs as [|j jobs IH]; intros o jobs'; cbn [on_job].
  - intros [= <- <-]. by left.
  - destruct (T.id j =? id).
    + destruct (f j) as [a j'] eqn:E. intros [= <- <-]. right. exists [], j, jobs. by rewrite E.
    + destruct (on_job id f jobs) as [o1 jobs1] eqn:E. intros [= <- <-].
      destruct (IH o1 jobs1 eq_refl) as [[-> ->]|(l & j0 & r & -> & -> & ->)]; [by left|].
      right. by exists (j :: l), j0, r.
Qed.

Lemma remove_job_Forall (P : T.TransferJob -> Prop) i jobs o jobs' :
  T.remove_job i jobs = (o, jobs') -> Forall P jobs ->
  Forall P jobs' /\ match o with Some j => P j | None => True end.
Proof.
  revert o jobs'. induction jobs as [|j jobs IH]; intros o jobs'; cbn [T.remove_job].
  - by intros [= <- <-].
  - destruct (T.id j =? i); [intros [= <- <-]; by inversion 1|].
    destruct (T.remove_job i jobs) as [o1 jobs1]. intros [= <- <-]. inversion 1; subst.
    destruct (IH o1 jobs1 eq_refl) as [??]; [done|]. by split; [constructor|].
Qed.

(** ** Which order can change the file at [q] *)

Definition may_touch (q : string) (f : FS) : Prop :=
  match f with
  | FsNewWrite path _ _ files _ _ _ =>
    is_ok (validate_transfer_file_names files) = true /\ Exists (fun nm => q ∈ slots path nm) files.*1
  | FsRemoveFile path _ _ => q = path
  | FsRename _ path new_name =>
    new_name <> "" /\ is_ok (validate_file_name_no_traversal new_name) = true
    /\ match dir_of path with
       | Some dir =>
         let new := T.path_join dir new_name in
         q = path \/ q = new \/ is_Some (below path q) \/ is_Some (below new q)
       | None => False
       end
  | _ => False
  end.

#[global] Instance may_touch_dec q f : Decision (may_touch q f).
Proof. destruct f; cbn; try destruct (dir_of path); cbn zeta; apply _. Defined.

Definition cm_clear (q : string) (s : Cm) : Prop :=
  fs_wf (cm_disk s) /\ Forall (clear_of q (cm_disk s)) (write_jobs s).

Lemma cm_clear_disk q s jobs d :
  cm_clear q s -> Forall (clear_of q (cm_disk s)) jobs -> same_at q (cm_disk s) d ->
  cm_clear q (mkCm jobs (cm_read_jobs s) d).
Proof.
  intros _ Hj Hs. split; [by destruct Hs|]. eapply Forall_impl; [exact Hj|].
  intros j. by apply clear_of_same.
Qed.

Lemma write_block_clear q id n data z s outs s' :
  cm_clear q s -> write_block e id n data z s = (outs, s') ->
  same_at q (cm_disk s) (cm_disk s') /\ cm_clear q s'.
Proof.
  intros [Hw Hj]. unfold write_block. destruct (on_job _ _ _) as [o jobs] eqn:E. apply on_job_spec in E.
  destruct E as [[-> ->]|(l & j & r & Hl & -> & ->)]; [by intros [= <- <-]|].
  rewrite Hl in Hj. apply Forall_app in Hj as [Hjl Hjr]. inversion Hjr as [|? ? Hj Hjr']; subst.
  destruct (T.write _ _ _ _ j _ _) as [[res j'] d'] eqn:Ew.
  destruct (write_clear q _ _ _ _ _ _ Hw Hj Ew) as [Hs Hj']. cbn [fst snd]. intros [= <- <-]. cbn [cm_disk].
  split; [done|]. split; [by destruct Hs|]. cbn.
  apply Forall_app. split; [|constructor; [done|]]; (eapply Forall_impl; [eassumption|]); intros k; by apply clear_of_same.
Qed.

Lemma confirm_in_clear q r jobs d jobs' :
  fs_wf d -> Forall (clear_of q d) jobs -> confirm_in r jobs d = Done jobs' -> Forall (clear_of q d) jobs'.
Proof.
  intros Hw Hj. unfold confirm_in. destruct (on_job _ _ _) as [o jobs1] eqn:E. apply on_job_spec in E.
  destruct E as [[-> ->]|(l & j & rest & -> & -> & ->)]; [by intros [= <-]|].
  apply Forall_app in Hj as [Hjl Hjr]. inversion Hjr as [|? ? Hj Hjr']; subst.
  destruct (T.confirm j r d) as [j'|] eqn:Ec; [|done]. cbn. intros [= <-].
  apply Forall_app. split; [done|]. constructor; [by eapply confirm_clear|done].
Qed.

Lemma check_digest_clear q id n fsz lm up res s outs s' :
  cm_clear q s -> check_digest e id n fsz lm up res s = (outs, s') -> cm_disk s' = cm_disk s /\ cm_clear q s'.
Proof.
  intros [Hw Hj]. unfold check_digest. destruct (T.get_job id (write_jobs s)) as [job|]; [|by intros [= <- <-]].
  destruct (T.entry_at job _) as [file|]; [|by intros [= <- <-]].
  destruct (T.data_source job) as [base|]; [|by intros [= <- <-]].
  destruct (on_job _ _ _) as [o jobs] eqn:E. apply on_job_spec in E. intros [= <- <-].
  split; [done|]. split; [done|]. cbn.
  destruct E as [[_ ->]|(l & j & r & Hl & _ & ->)]; [done|].
  rewrite Hl in Hj. apply Forall_app in Hj as [Hjl Hjr]. inversion Hjr as [|? ? Hj Hjr']; subst.
  apply Forall_app. split; [done|]. constructor; [|done]. by destruct Hj as (? & ? & ?).
Qed.

Lemma new_write_clear q d path id n files od total conn :
  Forall (fun nm => q ∉ slots path nm) files.*1 -> clear_of q d (new_write_job path id n files od total conn).
Proof.
  intros H. split; [done|]. split; [|done]. exists path. split; [done|]. cbn.
  apply Forall_forall. intros en Hen. apply list_elem_of_In, in_map_iff in Hen as ((nm & t) & <- & Hin). cbn.
  apply (proj1 (Forall_forall _ _) H). apply list_elem_of_fmap. exists (nm, t). split; [done|]. by apply list_elem_of_In.
Qed.

Lemma handle_fs_clear q f s outs s' :
  cm_clear q s -> ~ may_touch q f -> handle_fs e f s = Done (outs, s') ->
  same_at q (cm_disk s) (cm_disk s') /\ cm_clear q s'.
Proof.
  intros Hc Ht. pose proof Hc as [Hw Hj].
  destruct f; cbn [handle_fs may_touch] in *;
    try (intros [= <- <-]; by split).
  - (* RemoveFile *) unfold remove_file, fs_remove_file, on_disk.
    destruct (unlink_refused _ _); [by intros [= <- <-]|].
    destruct (T.paths (cm_disk s) !! path); intros [= <- <-]; [|done].
    pose proof (same_at_unlink q (cm_disk s) path Hw Ht). split; [done|]. by apply (cm_clear_disk q s).
  - (* NewWrite *) destruct (validate_transfer_file_names files) as [[]|] eqn:Ev; intros [= <- <-]; [|done].
    split; [done|]. split; [done|]. apply Forall_app. split; [done|]. constructor; [|constructor].
    apply new_write_clear. apply not_Exists_Forall; [intros; apply _|]. intros Hex. by apply Ht.
  - (* CancelWrite *) destruct (T.remove_job id (write_jobs s)) as [[j|] jobs] eqn:Er; intros [= <- <-]; [|done].
    destruct (remove_job_Forall _ _ _ _ _ Er Hj) as [Hjs Hj1].
    pose proof (remove_download_same q (cm_disk s) j Hw Hj1). split; [done|]. by apply (cm_clear_disk q s).
  - (* WriteBlock *) intros H. injection H as H. by apply (write_block_clear q) in H.
  - (* WriteDone *) destruct (T.remove_job id (write_jobs s)) as [[j|] jobs] eqn:Er; intros [= <- <-]; [|done].
    destruct (remove_job_Forall _ _ _ _ _ Er Hj) as [Hjs Hj1].
    pose proof (modify_time_same q (cm_disk s) j Hw Hj1). split; [done|]. by apply (cm_clear_disk q s).
  - (* WriteError *) destruct (T.remove_job id (write_jobs s)) as [[j|] jobs] eqn:Er; intros [= <- <-]; [|done].
    destruct (remove_job_Forall _ _ _ _ _ Er Hj) as [Hjs _]. split; [done|]. by split.
  - (* CheckDigest *) intros H. injection H as H. apply (check_digest_clear q) in H as [-> H]; done.
  - (* SendConfirm *) destruct (confirm_in r (write_jobs s) (cm_disk s)) as [jobs|] eqn:Ec; [|done].
    intros [= <- <-]. split; [done|]. split; [done|]. by eapply confirm_in_clear.
  - (* Rename *) unfold rename_file. destruct (String.eqb_spec new_name ""); [by intros [= <- <-]|].
    destruct (validate_file_name_no_traversal new_name); [|by intros [= <- <-]].
    unfold fs_rename_file, on_disk. destruct (path_exists _ _ _); [|by intros [= <- <-]].
    destruct (dir_of path) as [dir|]; [|by intros [= <- <-]].
    destruct (os_rename _ _ _ _) as [d'|] eqn:Er; intros [= <- <-]; [|done].
    assert (same_at q (cm_disk s) d').
    { eapply same_at_os_rename; [done| | | | | |exact Er].
      - by apply path_join_nonempty.
      - intros ->. apply Ht. split; [done|]. split; [done|]. by left.
      - intros ->. apply Ht. split; [done|]. split; [done|]. right. by left.
      - apply eq_None_not_Some. intros Hb. apply Ht. do 2 (split; [done|]). right. right. by left.
      - apply eq_None_not_Some. intros Hb. apply Ht. do 2 (split; [done|]). right. right. by right. }
    split; [done|]. by apply (cm_clear_disk q s).
  - (* ReadFile *) unfold start_read_job. destruct (T.new_read _ _ _ _ _ _ _ _ _); [|by intros [= <- <-]].
    destruct (check_file_count_limit _ _); by intros [= <- <-].
  - (* CancelRead *) destruct (T.remove_job id (cm_read_jobs s)) as [[j|] jobs]; by intros [= <- <-].
  - (* SendConfirmForRead *) destruct (T.get_job id (cm_read_jobs s)); [|by intros [= <- <-]].
    destruct (confirm_in _ _ _); [|done]. by intros [= <- <-].
Qed.

Lemma handle_all_clear q fs s outs s' :
  cm_clear q s -> Forall (fun f => ~ may_touch q f) fs -> handle_all e fs s = Done (outs, s') ->
  same_at q (cm_disk s) (cm_disk s').
Proof.
  intros Hc Hf. revert s outs Hc. induction Hf as [|f fs Hf _ IH]; intros s outs Hc; cbn [handle_all].
  - intros [= <- <-]. by destruct Hc.
  - destruct (handle_fs e f s) as [[o1 s1]|] eqn:E1; [|done]. cbn [outcome_bind].
    destruct (handle_all e fs s1) as [[o2 s2]|] eqn:E2; [|done]. cbn [outcome_bind]. intros [= <- <-].
    destruct (handle_fs_clear q f s o1 s1 Hc Hf E1) as [H1 Hc1].
    eapply same_at_trans; [exact H1|]. by eapply IH.
Qed.

End Clear.

Lemma slots_beneath base nm q :
  nm <> "" -> is_ok (validate_file_name_no_traversal nm) = true -> q ∈ slots base nm -> beneath base q.
Proof.
  intros Hn Hv. unfold slots. intros Hq.
  apply elem_of_cons in Hq as [->|Hq]; [rewrite <- (append_empty (T.join base nm)); apply join_beneath; auto|].
  apply elem_of_cons in Hq as [->|Hq]; [apply join_beneath; auto; right; cbn; lia|].
  apply list_elem_of_singleton in Hq as ->. apply join_beneath; auto; right; cbn; lia.
Qed.

Lemma validate_names_elem files nm :
  is_ok (validate_names files) = true -> nm ∈ files.*1 ->
  nm <> "" /\ is_ok (validate_file_name_no_traversal nm) = true.
Proof.
  induction files as [|[n t] files IH]; cbn [validate_names fmap list_fmap]; [intros _ H; by apply not_elem_of_nil in H|].
  destruct (String.eqb_spec n ""); [done|].
  destruct (validate_file_name_no_traversal n) as [[]|] eqn:Ev; [|done]. cbn [result_bind].
  intros Hok Hin. apply elem_of_cons in Hin as [Hn|Hin]; [|by apply IH].
  cbn in Hn. subst nm. split; [done|]. by rewrite Ev.
Qed.

Lemma path_join_beneath dir nm :
  nm <> "" -> is_ok (validate_file_name_no_traversal nm) = true -> beneath dir (T.path_join dir nm).
Proof.
  intros Hn Hv. rewrite <- (append_empty (T.path_join dir nm)).
  replace (T.path_join dir nm) with (T.join dir nm); [by apply join_beneath; auto|].
  unfold T.join. by destruct (String.eqb_spec nm "").
Qed.

(** When an order allows the file at [q] to change. *)
Definition authorised (q : string) (f : FS) : Prop :=
  match f with
  | FsNewWrite base _ _ files _ _ _ =>
    is_ok (validate_transfer_file_names files) = true
    /\ Exists (fun nm => q ∈ slots base nm) files.*1
    /\ (is_single_file_with_empty_name files = false -> beneath base q)
  | FsRemoveFile path _ _ => q = path
  | FsRename _ path new_name =>
    new_name <> "" /\ is_ok (validate_file_name_no_traversal new_name) = true
    /\ exists dir, dir_of path = Some dir
       /\ (q = path \/ is_Some (below path q)
           \/ beneath dir q /\ (q = T.path_join dir new_name \/ is_Some (below (T.path_join dir new_name) q)))
  | _ => False
  end.

Lemma may_touch_authorised q f : may_touch q f -> authorised q f.
Proof.
  destruct f; cbn; try done.
  - intros [Hv Hex]. split; [done|]. split; [done|]. intros Es.
    apply Exists_exists in Hex as (nm & Hnm & Hq). unfold validate_transfer_file_names in Hv. rewrite Es in Hv.
    destruct (validate_names_elem files nm Hv Hnm) as [Hn Hok]. by eapply slots_beneath.
  - intros (Hn & Hv & H). destruct (dir_of path) as [dir|]; [|done]. do 2 (split; [done|]). exists dir.
    split; [done|]. pose proof (path_join_beneath dir new_name Hn Hv) as Hb.
    destruct H as [->|[->|[H|H]]]; [by left|right; right; auto|right; by left|right; right].
    split; [|by right]. eapply beneath_trans; [exact Hb|by apply below_is_beneath].
Qed.

(** C12. The connection manager writes only where it was told to.  Whatever orders
    a connection sends, in any sequence, a file whose contents are different
    afterwards is one of these: a file listed by an accepted upload (or its
    [.download] or [.digest]), and then it lies below the target directory,
    reached without any [".."], unless the upload is of a single file, whose
    target was named in full; a file named in a removal; a file that was
    renamed, or was in a renamed directory; or a file at the new name (or in the
    directory of that name), which was validated and lies below the directory of
    what was renamed.  In particular a file name with a [".."] component, an
    absolute name or one with backslashes in place of slashes never escapes. *)
Theorem cm_writes_confined e orders s outs s' q :
  write_jobs s = [] -> fs_wf (cm_disk s) -> handle_all e orders s = Done (outs, s') ->
  T.fs_get (cm_disk s') q <> T.fs_get (cm_disk s) q ->
  Exists (authorised q) orders.
Proof.
  intros Hj Hw Hrun Hne. destruct (decide (Exists (may_touch q) orders)) as [Hex|Hno].
  - eapply Exists_impl; [exact Hex|]. apply may_touch_authorised.
  - exfalso. apply Hne. apply not_Exists_Forall in Hno; [|intros; apply _].
    destruct (handle_all_clear e q orders s outs s') as (_ & H & _); [|done|done|done].
    split; [done|]. rewrite Hj. constructor.
Qed.

(** A peer uploads ["sub/a"] into ["/home/u"] and tries to write outside. *)
Definition demo_env : CmEnv :=
  mkCmEnv (fun _ _ => Ok 0%nat) (fun _ => true) (fun x => x) (fun x => x) 5 (fun _ => [123; 125])
    (fun _ => None) (fun _ _ => Ok []) 10 "/home/u" (fun _ _ => None) (fun _ _ => false)
    (fun _ _ => Ok tt) (fun _ => Ok tt) (mkOs (fun _ => false) (fun _ => None) (fun _ _ => None)).

(** A renamed directory takes its file along; one cannot be moved onto another. *)
Example directory_renamed :
  let d := T.fs_write_file (T.fs_write_file T.fs_empty "/d/sub/a" [1] 1) "/d/b" [2] 1 in
  let '(r, s) := rename_file demo_env "/d/sub" "new" (mkCm [] [] d) in
  r = Ok tt /\ T.fs_get (cm_disk s) "/d/new/a" = Some (T.mkFileNode [1] 1) /\ T.fs_get (cm_disk s) "/d/sub/a" = None
  /\ T.fs_get (cm_disk s) "/d/b" = Some (T.mkFileNode [2] 1)
  /\ (rename_file demo_env "/d/new" "b" s).1 = Err "Not a directory (os error 20)".
Proof. vm_compute. repeat split. Qed.

Definition demo_orders : list FS :=
  [FsNewWrite "/home/u" 1 0 [("../../etc/passwd", 7)] false 3 1001;
   FsNewWrite "/home/u" 2 0 [("sub/a", 7)] false 3 1001;
   FsWriteBlock 1 0 [1; 2; 3] false; FsWriteBlock 2 0 [1; 2; 3] false; FsWriteDone 2 0].

Lemma cm_writes_confined_witness :
  Exists (authorised "/home/u/sub/a") demo_orders
  /\ (exists s', handle_all demo_env demo_orders (mkCm [] [] T.fs_empty)
                 = Done ([CoRaw (new_error 1 "path traversal detected in file name" 0);
                          CoRaw (new_done 2 0); CoLog (LogJob (T.with_counts (T.with_stream
                            (new_write_job "/home/u" 2 0 [("sub/a", 7)] false 3 1001) (Some (T.FileStream 0 3))) 3 3)
                            true false "")], s')
      /\ T.fs_get (cm_disk s') "/home/u/sub/a" = Some (T.mkFileNode [1; 2; 3] 7000000000)).
Proof.
  assert (exists outs s', handle_all demo_env demo_orders (mkCm [] [] T.fs_empty) = Done (outs, s')
    /\ T.fs_get (cm_disk s') "/home/u/sub/a" = Some (T.mkFileNode [1; 2; 3] 7000000000)) as (outs & s' & E & H)
    by (eexists _, _; split; vm_compute; reflexivity).
  split.
  - apply (cm_writes_confined demo_env demo_orders (mkCm [] [] T.fs_empty) outs s' "/home/u/sub/a");
      [reflexivity|split; intros *; cbn; by rewrite lookup_empty|exact E|]. rewrite H. discriminate.
  - eexists. split; vm_compute; reflexivity.
Defined.

End CmFs.
