(* ===== verification/OneWay.v ===== *)
(** * One-way file transfer

    The option ["one-way-file-transfer"] is tested by the connection
    ([FileManager]), while the files are read and written by the connection
    manager ([CmFiles]), whose answers go to the peer through the connection.
    Here the two processes run together: orders and answers travel in queues,
    and each process serves its queue when it gets to it. *)

From S2P Require Import Prelude RustStr FileTransfer Messages FileManager CmFiles.

#[local] Open Scope rust_scope.

Module OneWay.

Import Msg FileMgr CmFs.

(** ** The two processes *)

Record Sys : Type := mkSys {
  conn_fm : Fm;
  manager : option Cm;                 (* [None]: it has panicked *)
  orders : list FS;                    (* to the connection manager *)
  answers : list (Z * FromCm) }.       (* to the connection *)

Inductive SysEvent : Type :=
| ConnEvent (ev : FmEvent)             (* the peer or a timer of the connection *)
| ConnReads                            (* the connection takes an answer *)
| ManagerServes (ce : CmEnv)           (* the connection manager takes an order *)
| ManagerTicks (ce : CmEnv).           (* its timer of the read jobs *)

Definition order_of (o : FmOut) : option FS := match o with FoFs f => Some f | _ => None end.

(** [send_raw] and the other results; a log entry is not for the connection. *)
Definition answer_of (o : CmOut) : option (Z * FromCm) :=
  match o with
  | CoRaw m => Some (0, RawMessage m)
  | CoData conn_id m => Some (conn_id, m)
  | CoLog _ => None
  end.

Definition in_connection (e : FmEnv) (ev : FmEvent) (s : Sys) : outcome (list FmOut * Sys) :=
  let! (outs, fm) := fm_step e ev (conn_fm s) in
  Done (outs, mkSys fm (manager s) (orders s ++ omap order_of outs) (answers s)).

Definition sys_step (e : FmEnv) (ev : SysEvent) (s : Sys) : outcome (list FmOut * Sys) :=
  match ev with
  | ConnEvent ev => in_connection e ev s
  | ConnReads =>
    match answers s with
    | (conn_id, m) :: rest =>
      let s := mkSys (conn_fm s) (manager s) (orders s) rest in
      if for_connection (fm_conn_id e) conn_id m then in_connection e (EvFromCm m) s else Done ([], s)
    | [] => Done ([], s)
    end
  | ManagerServes ce =>
    match manager s, orders s with
    | Some cm, f :: rest =>
      match handle_fs ce f cm with
      | Done (outs, cm) => Done ([], mkSys (conn_fm s) (Some cm) rest (answers s ++ omap answer_of outs))
      | Panic => Done ([], mkSys (conn_fm s) None rest (answers s))
      end
    | _, _ => Done ([], s)
    end
  | ManagerTicks ce =>
    match manager s with
    | Some cm =>
      let '(outs, cm) := handle_read_jobs_tick ce (fm_conn_id e) cm in
      Done ([], mkSys (conn_fm s) (Some cm) (orders s) (answers s ++ omap answer_of outs))
    | None => Done ([], s)
    end
  end.

Fixpoint sys_run (evs : list (FmEnv * SysEvent)) (s : Sys) : outcome (list FmOut * Sys) :=
  match evs with
  | [] => Done ([], s)
  | (e, ev) :: evs =>
    let! (outs, s) := sys_step e ev s in
    let! (outs', s) := sys_run evs s in
    Done (outs ++ outs', s)
  end.

(** ** What holds of both *)

(** An event of the peer or of a timer; answers are read by [ConnReads]. *)
Definition from_outside (ev : SysEvent) : Prop := match ev with ConnEvent (EvFromCm _) => False | _ => True end.

Definition quiet_answer (a : Z * FromCm) : Prop := harmless (EvFromCm a.2).

Record one_way (s : Sys) : Prop := mkOneWay {
  ow_idle : idle (conn_fm s);
  ow_manager : forall cm, manager s = Some cm -> cm_read_jobs cm = [];
  ow_orders : Forall (fun f => outgoing (FoFs f) = false) (orders s);
  ow_answers : Forall quiet_answer (answers s) }.

Ltac settle :=
  repeat match goal with
  | |- (_, _) = (_, _) -> _ => intros [= <- <-]
  | |- Done _ = Done _ -> _ => intros [= <- <-]
  | |- _ /\ _ => split
  | |- Forall _ _ => repeat constructor
  end; try done.

Lemma handle_result_quiet r id n : Forall quiet_answer (omap answer_of (handle_result r id n)).
Proof. destruct r; repeat constructor. Qed.

(** The connection manager answers an order that takes no file with nothing
    that gives one. *)
Lemma manager_quiet ce f s outs s' :
  cm_read_jobs s = [] -> outgoing (FoFs f) = false -> handle_fs ce f s = Done (outs, s') ->
  Forall quiet_answer (omap answer_of outs) /\ cm_read_jobs s' = [].
Proof.
  intros Hj Ho. destruct f; cbn [handle_fs outgoing] in *; try discriminate Ho.
  - destruct (empty_dirs _ _ _); settle.
  - destruct (list_dir _ _ _); settle.
  - destruct (validate_transfer_file_names files); settle.
  - destruct (T.remove_job id (write_jobs s)) as [[j|] jobs]; settle.
  - unfold write_block. destruct (on_job _ _ _) as [[[[u|err] d]|] jobs]; settle.
  - destruct (T.remove_job id (write_jobs s)) as [[j|] jobs]; settle.
  - destruct (T.remove_job id (write_jobs s)) as [[j|] jobs]; settle.
  - settle.
  - apply negb_false_iff in Ho as ->. unfold check_digest.
    destruct (T.get_job id (write_jobs s)) as [job|]; [|settle].
    destruct (T.entry_at job _) as [file|]; [|settle]. destruct (T.data_source job) as [p|]; [|settle].
    destruct (on_job _ _ _) as [o jobs]. destruct (T.is_write_need_confirmation _ _ _ _ _); settle.
  - destruct (confirm_in r (write_jobs s) (cm_disk s)); cbn [outcome_bind]; [settle|done].
  - destruct (T.remove_job id (cm_read_jobs s)) as [[j|] jobs] eqn:Er; rewrite Hj in Er; [done|]. settle.
  - rewrite Hj. cbn. settle.
  - settle.
Qed.

Lemma manager_tick_quiet ce conn_id s :
  cm_read_jobs s = [] ->
  let '(outs, s') := handle_read_jobs_tick ce conn_id s in outs = [] /\ cm_read_jobs s' = [].
Proof. intros Hj. unfold handle_read_jobs_tick. rewrite Hj. done. Qed.

Lemma orders_quiet outs :
  Forall (fun o => outgoing o = false) outs -> Forall (fun f => outgoing (FoFs f) = false) (omap order_of outs).
Proof. induction 1 as [|o outs Ho _ IH]; [constructor|]. destruct o; cbn; try exact IH. by constructor. Qed.

Lemma connection_one_way e ev s :
  one_way_file_transfer e = true -> one_way s -> harmless ev ->
  exists outs s', in_connection e ev s = Done (outs, s') /\ Forall (fun o => outgoing o = false) outs /\ one_way s'.
Proof.
  intros He [H1 H2 H3 H4] Hh. unfold in_connection.
  destruct (one_way_step e ev (conn_fm s) He H1 Hh) as (outs & fm & E & Ho & Hi). rewrite E. cbn [outcome_bind].
  eexists _, _. split; [reflexivity|]. split; [done|]. split; try done. cbn. apply Forall_app. split; [done|].
  by apply orders_quiet.
Qed.

Lemma step_one_way e ev s :
  one_way_file_transfer e = true -> one_way s -> from_outside ev ->
  exists outs s', sys_step e ev s = Done (outs, s') /\ Forall (fun o => outgoing o = false) outs /\ one_way s'.
Proof.
  intros He Hs Hf. pose proof Hs as [H1 H2 H3 H4]. destruct ev as [ev| |ce|ce]; cbn [sys_step].
  - apply connection_one_way; [done..|]. by destruct ev as [| |[]| |].
  - destruct (answers s) as [|[c m] rest] eqn:Ea; [eexists _, _; split; [reflexivity|]; split; [constructor|done]|].
    inversion H4 as [|? ? Hm Hr]; subst. destruct (for_connection _ _ _).
    + apply connection_one_way; [done| |exact Hm]. by split.
    + eexists _, _. split; [reflexivity|]. split; [constructor|]. by split.
  - destruct (manager s) as [cm|] eqn:Em; [|eexists _, _; split; [reflexivity|]; split; [constructor|done]].
    destruct (orders s) as [|f rest] eqn:Eo; [eexists _, _; split; [reflexivity|]; split; [constructor|done]|].
    inversion H3 as [|? ? Hfo Hr]; subst.
    destruct (handle_fs ce f cm) as [[outs cm']|] eqn:Eh; eexists _, _; (split; [reflexivity|]); (split; [constructor|]).
    + destruct (manager_quiet ce f cm outs cm' (H2 cm eq_refl) Hfo Eh) as [Ha Hj].
      split; cbn; [done|by intros ? [= <-]|done|by apply Forall_app].
    + by split.
  - destruct (manager s) as [cm|] eqn:Em; [|eexists _, _; split; [reflexivity|]; split; [constructor|done]].
    pose proof (manager_tick_quiet ce (fm_conn_id e) cm (H2 cm eq_refl)) as Ht.
    destruct (handle_read_jobs_tick _ _ _) as [outs cm']. destruct Ht as [-> Hj].
    eexists _, _. split; [reflexivity|]. split; [constructor|].
    split; cbn; [done|by intros ? [= <-]|done|by rewrite app_nil_r].
Qed.

(** C20. One-way transfer holds for the connection and the connection manager
    together.  While the built-in option ["one-way-file-transfer"] is set, from
    a state without read jobs and with empty queues, whatever the peer sends,
    whatever the timers do and in whatever order the two processes serve their
    queues: the handlers of the connection do not panic; no block of a file
    leaves, and no digest of a file that is to be sent; no read job exists in
    either process; and no removal, renaming or creation of a directory is
    ordered.  What the connection manager does send through the connection are
    listings, errors, confirmations, and the digest of a file that an upload
    would overwrite. *)
Theorem one_way_blocks evs s :
  Forall (fun x => one_way_file_transfer x.1 = true /\ from_outside x.2) evs ->
  idle (conn_fm s) -> (forall cm, manager s = Some cm -> cm_read_jobs cm = []) -> orders s = [] -> answers s = [] ->
  exists outs s', sys_run evs s = Done (outs, s') /\ Forall (fun o => outgoing o = false) outs
    /\ idle (conn_fm s') /\ (forall cm, manager s' = Some cm -> cm_read_jobs cm = [])
    /\ Forall (fun f => outgoing (FoFs f) = false) (orders s').
Proof.
  intros Hev Hi Hm Ho Ha. assert (one_way s) as Hs by (split; [done..|by rewrite Ho|by rewrite Ha]).
  clear Hi Hm Ho Ha. revert s Hs. induction Hev as [|[e ev] evs [He Hf] _ IH]; intros s Hs.
  { destruct Hs. by exists [], s. }
  destruct (step_one_way e ev s He Hs Hf) as (o1 & s1 & E1 & F1 & I1).
  destruct (IH s1 I1) as (o2 & s2 & E2 & F2 & I2).
  exists (o1 ++ o2), s2. cbn [sys_run]. rewrite E1. cbn [outcome_bind]. rewrite E2. split; [done|].
  split; [by apply Forall_app|done].
Qed.

(** ** A run

    The peer asks for a file and for its removal, which is refused; then it
    announces an upload over the same file and says what it would send. *)
Definition demo_disk : T.FS := T.fs_write_file T.fs_empty "/home/u/key" [7; 7; 7; 7; 7] (1700000000 * 10 ^ 9).

Definition demo_sys : Sys := mkSys demo_fm (Some (mkCm [] [] demo_disk)) [] [].

Definition demo_evs : list (FmEnv * SysEvent) :=
  map (pair (FileMgr.demo_env true))
   [ConnEvent (EvAction true (Send 1 "/home/u/key" false 0 0));
    ConnEvent (EvAction true (RemoveFile 2 "/home/u/key" 0));
    ConnEvent (EvAction true (Receive 3 "/home/u" [T.mkFileEntry T.File "key" false 1 1] 0 1));
    ConnEvent (EvResponse (FrDigest (T.mkDigest 3 0 1 1 false 0 false) false));
    ManagerServes CmFs.demo_env; ManagerServes CmFs.demo_env; ConnReads].

Definition sent (o : FmOut) : option Message := match o with FoSend m => Some m | _ => None end.

Lemma one_way_blocks_witness :
  exists outs s', sys_run demo_evs demo_sys = Done (outs, s') /\ Forall (fun o => outgoing o = false) outs
    /\ idle (conn_fm s') /\ (forall cm, manager s' = Some cm -> cm_read_jobs cm = [])
    /\ Forall (fun f => outgoing (FoFs f) = false) (orders s').
Proof.
  apply one_way_blocks; [repeat constructor|by split|by intros cm [= <-]|reflexivity|reflexivity].
Defined.

(** The last answer tells the peer the size and the time of the file. *)
Example upload_tells_size_and_time :
  exists outs s', sys_run demo_evs demo_sys = Done (outs, s')
    /\ omap sent outs = [new_error 1 "one-way-file-transfer-tip" 0; new_error 2 "one-way-file-transfer-tip" 0;
                         MFileResponse (FrDigest (T.mkDigest 3 0 1700000000 5 false 0 false) true)].
Proof. eexists _, _. split; vm_compute; reflexivity. Qed.

End OneWay.
