(* ===== verification/ClientFiles.v ===== *)
(** * The file manager of a controlling session ([src/client/io_loop.rs])

    [Remote] runs the jobs of the user's file window: uploads are read jobs,
    downloads are write jobs (both of [FileTransfer]), removals of directories
    are lists of files that are removed one after the other.  The orders come
    from the window ([handle_msg_from_ui]), the answers from the peer
    ([handle_msg_from_peer]), and [handle_job_status] sends the next order of a
    removal to the session itself.

    [Remote] here has the fields of the struct that concern files; the rest of
    the session is the component [ClientLoop].  The orders that change
    directories are parameters, as in [CmFiles]. *)

From S2P Require Import Prelude RustStr NetUtil FileTransfer FileTransferProofs Messages FileManager CmFiles.

#[local] Open Scope rust_scope.

Module ClientFiles.

Import Msg FileMgr.

(** ** State *)

Set Primitive Projections.

Record RemoveJob : Type := mkRemoveJob {
  rj_files : list T.FileEntry;
  rj_path : string;
  rj_sep : string;
  rj_is_remote : bool;
  no_confirm : bool;
  last_update_job_status : Z }.

Record Files : Type := mkFiles {
  read_jobs : list T.TransferJob;
  write_jobs : list T.TransferJob;
  remove_jobs : gmap Z RemoveJob;
  last_update_jobs_status : Z;
  last_transferred : gmap Z Z;          (* the map of [last_update_jobs_status] *)
  fast_timer : bool;                    (* the timer ticks every millisecond, else every 30 s *)
  disk : T.FS }.

Unset Primitive Projections.

(** Surroundings; [instant] is in milliseconds. *)
Record FEnv : Type := mkFEnv {
  os_read : list Z -> Z -> result nat string;
  can_create : string -> bool;
  zcompress : list Z -> list Z;
  zdecompress : list Z -> list Z;
  wall : Z;
  instant : Z;
  digest_json : T.FileDigest -> list Z;
  parse_digest : list Z -> option T.FileDigest;
  recursive_files : string -> bool -> result (list T.FileEntry) string;
  os_create_dir : string -> result unit string;
  platform : string;                    (* [whoami::platform()] *)
  peer_platform : string;               (* of the last [PeerInfo] *)
  peer_version : Z;
  os : CmFs.Os                          (* errors and directories of the own disk *) }.

(** What the handlers do besides changing the state. *)
Inductive FOut : Type :=
| ToPeer (m : Message)
| LaterRemoveFile (id : Z) (path : string) (file_num : Z) (is_remote : bool)   (* [self.sender] *)
| JobError (id : Z) (err : string) (file_num : Z)
| JobDone (id file_num : Z)
| JobProgress (id file_num speed elapsed finished : Z)   (* bytes in so many milliseconds *)
| UpdateFolderFiles (id : Z) (entries : list T.FileEntry) (path : string) (is_local only_count : bool)
| UpdateEmptyDirs (path : string)
| ConfirmDelete (id file_num : Z) (name : string)
| OverrideConfirm (id file_num : Z) (to : string) (is_upload is_identical : bool).

Definition RemoveJob_new (e : FEnv) (files : list T.FileEntry) (path sep : string) (is_remote : bool) : RemoveJob :=
  mkRemoveJob files path sep is_remote false (instant e).

Definition PLATFORM_WINDOWS : string := "Windows".

Definition get_path_sep (e : FEnv) (is_remote : bool) : string :=
  if String.eqb (if is_remote then peer_platform e else platform e) PLATFORM_WINDOWS then "\" else "/".

Definition is_support_file_transfer_resume_num (v : Z) : bool := Version.get_version_number "1.4.2" <=? v.

Definition new_send (id : Z) (t : T.JobType) (path : string) (file_num : Z) (include_hidden : bool) : Message :=
  MFileAction (Send id path include_hidden file_num (T.JobType_into_i32 t)).
Definition new_receive (id : Z) (path : string) (file_num : Z) (files : list T.FileEntry) (total : Z) : Message :=
  MFileAction (Receive id path files file_num total).
Definition new_send_confirm (r : T.FileTransferSendConfirmRequest) : Message := MFileAction (SendConfirm r).

(** Fields of a job the session sets directly. *)
Definition set_resume (last_job resume : bool) (j : T.TransferJob) : T.TransferJob :=
  T.mkTransferJob (T.id j) (T.type j) (T.remote j) (T.data_source j) (T.show_hidden j) (T.is_remote j)
    last_job resume (T.file_num j) (T.files j) (T.conn_id j) (T.data_stream j) (T.total_size j)
    (T.finished_size j) (T.transferred j) (T.enable_overwrite_detection j) (T.file_confirmed j)
    (T.file_skipped j) (T.file_is_waiting j) (T.default_overwrite_strategy j) (T.digest j).

(** An operation on the first job with the id, if there is one. *)
Definition upd_job (id : Z) (f : T.TransferJob -> T.TransferJob) (jobs : list T.TransferJob) : list T.TransferJob :=
  (CmFs.on_job id (fun j => (tt, f j)) jobs).2.

(** ** The progress of jobs *)

(** The next order of a removal that is not confirmed file by file; the sum
    wraps as in a release build. *)
Definition handle_job_status (e : FEnv) (id file_num : Z) (err : option string) (s : Files) : list FOut * Files :=
  let report := match err with Some err => [JobError id err file_num] | None => [JobDone id file_num] end in
  match remove_jobs s !! id with
  | Some job =>
    if no_confirm job then
      let n := u64 (i32 (file_num + 1)) in
      match (if n <? len (rj_files job) then rj_files job !! Z.to_nat n else None) with
      | Some f =>
        let order := LaterRemoveFile id (rj_path job +:+ rj_sep job +:+ T.name f) (i32 n) (rj_is_remote job) in
        if 1000 <=? i32 (instant e - last_update_job_status job)
        then (order :: report,
              s <| remove_jobs := <[ id := job <| last_update_job_status := instant e |> ]> (remove_jobs s) |>)
        else ([order], s)
      | None => (report, s <| remove_jobs := delete id (remove_jobs s) |>)
      end
    else (report, s)
  | None => (report, s)
  end.

(** The difference of two [u64] wraps in a release build. *)
Definition update_job_status (elapsed : Z) (job : T.TransferJob) (last : gmap Z Z) : list FOut * gmap Z Z :=
  if elapsed <=? 0 then ([], last)
  else
    let before := unwrap_or 0 (last !! T.id job) in
    ([JobProgress (T.id job) (i32 (T.file_num job - 1)) (u64 (T.transferred job - before)) elapsed (T.finished_size job)],
     <[ T.id job := T.transferred job ]> last).

Fixpoint update_each (elapsed : Z) (jobs : list T.TransferJob) (last : gmap Z Z) : list FOut * gmap Z Z :=
  match jobs with
  | [] => ([], last)
  | j :: jobs =>
    let '(o, last) := update_job_status elapsed j last in
    let '(os, last) := update_each elapsed jobs last in (o ++ os, last)
  end.

Definition update_jobs_status (e : FEnv) (s : Files) : list FOut * Files :=
  let elapsed := i32 (instant e - last_update_jobs_status s) in
  if 1000 <=? elapsed then
    let '(outs, last) := update_each elapsed (read_jobs s ++ write_jobs s) (last_transferred s) in
    (outs, s <| last_transferred := last |> <| last_update_jobs_status := instant e |>)
  else ([], s).

(** ** Orders of the window *)

Definition new_read (e : FEnv) (id : Z) (t : T.JobType) (path to : string) (file_num : Z)
  (include_hidden is_remote od : bool) : result T.TransferJob string :=
  T.new_read (recursive_files e) id t to (T.FilePath path) file_num include_hidden is_remote od.

Definition send_files (e : FEnv) (id : Z) (t : T.JobType) (path to : string) (file_num : Z)
  (include_hidden is_remote : bool) (s : Files) : list FOut * Files :=
  let od := can_enable_overwrite_detection (peer_version e) in
  if is_remote then
    let src := match t with T.Generic => T.FilePath to | T.Printer => T.MemoryCursor [] 0 end in
    let job := T.new_write id t path src file_num include_hidden is_remote [] od in
    ([ToPeer (new_send id t path file_num include_hidden)], s <| write_jobs := write_jobs s ++ [job] |>)
  else
    match new_read e id t path to file_num include_hidden is_remote od with
    | Err err => handle_job_status e id (-1) (Some err) s
    | Ok job =>
      ([UpdateFolderFiles (T.id job) (T.files job) path (negb is_remote) true;
        ToPeer (new_receive id to file_num (T.files job) (T.total_size job))],
       s <| read_jobs := read_jobs s ++ [job] |> <| fast_timer := true |>)
    end.

Definition add_job (e : FEnv) (id : Z) (t : T.JobType) (path to : string) (file_num : Z)
  (include_hidden is_remote : bool) (s : Files) : list FOut * Files :=
  let od := can_enable_overwrite_detection (peer_version e) in
  if is_remote then
    let job := T.new_write id t path (T.FilePath to) file_num include_hidden is_remote [] od in
    ([], s <| write_jobs := write_jobs s ++ [set_resume true (T.is_resume job) job] |>)
  else
    match new_read e id t path to file_num include_hidden is_remote od with
    | Err err => handle_job_status e id (-1) (Some err) s
    | Ok job =>
      ([UpdateFolderFiles (T.id job) (T.files job) path (negb is_remote) true],
       s <| read_jobs := read_jobs s ++ [set_resume true (T.is_resume job) job] |> <| fast_timer := true |>)
    end.

Definition resume_job (id : Z) (is_remote : bool) (s : Files) : list FOut * Files :=
  if is_remote then
    match T.get_job id (write_jobs s) with
    | Some job =>
      ([ToPeer (new_send id T.Generic (T.remote job) (T.file_num job) (T.show_hidden job))],
       s <| write_jobs := upd_job id (set_resume false true) (write_jobs s) |>)
    | None => ([], s)
    end
  else
    match T.get_job id (read_jobs s) with
    | Some job =>
      match T.data_source job with
      | T.FilePath _ =>
        ([ToPeer (new_receive id (T.remote job) (T.file_num job) (T.files job) (T.total_size job))],
         s <| read_jobs := upd_job id (fun j => T.set_finished_size_on_resume (set_resume false true j)) (read_jobs s) |>)
      | T.MemoryCursor _ _ => ([], s)
      end
    | None => ([], s)
    end.

Definition set_no_confirm (id : Z) (s : Files) : Files :=
  match remove_jobs s !! id with
  | Some job => s <| remove_jobs := <[ id := job <| no_confirm := true |> ]> (remove_jobs s) |>
  | None => s
  end.

Definition confirm_delete_files (id file_num : Z) (s : Files) : list FOut :=
  match remove_jobs s !! id with
  | Some job =>
    let i := u64 file_num in
    match (if i <? len (rj_files job) then rj_files job !! Z.to_nat i else None) with
    | Some f => [ConfirmDelete id file_num (T.name f)]
    | None => []
    end
  | None => []
  end.

(** [job.confirm] on the first job with the id. *)
Definition confirm_jobs (r : T.FileTransferSendConfirmRequest) (jobs : list T.TransferJob) (d : T.FS)
  : outcome (list T.TransferJob) := CmFs.confirm_in r jobs d.

Definition override_union (need_override : bool) : T.SendConfirmUnion :=
  if need_override then T.OffsetBlk 0 else T.Skip true.

Definition set_confirm_override_file (id file_num : Z) (need_override remember is_upload : bool) (s : Files)
  : outcome (list FOut * Files) :=
  let req := T.mkConfirm id file_num (Some (override_union need_override)) in
  let strategy j := if remember then T.set_overwrite_strategy j (Some need_override) else j in
  if is_upload then
    match T.get_job id (read_jobs s) with
    | Some _ =>
      let! jobs := confirm_jobs req (upd_job id strategy (read_jobs s)) (disk s) in
      Done ([], s <| read_jobs := jobs |>)
    | None => Done ([], s)
    end
  else
    match T.get_job id (write_jobs s) with
    | Some _ =>
      let! jobs := confirm_jobs req (upd_job id strategy (write_jobs s)) (disk s) in
      Done ([ToPeer (new_send_confirm req)], s <| write_jobs := jobs |>)
    | None => Done ([], s)
    end.

Definition remove_dir_all (e : FEnv) (id : Z) (path : string) (is_remote include_hidden : bool) (s : Files)
  : list FOut * Files :=
  let sep := get_path_sep e is_remote in
  if is_remote then
    ([ToPeer (MFileAction (AllFiles id path include_hidden))],
     s <| remove_jobs := <[ id := RemoveJob_new e [] path sep is_remote ]> (remove_jobs s) |>)
  else
    match recursive_files e path include_hidden with
    | Ok entries =>
      ([UpdateFolderFiles id entries path (negb is_remote) false],
       s <| remove_jobs := <[ id := RemoveJob_new e entries path sep is_remote ]> (remove_jobs s) |>)
    | Err err => handle_job_status e id (-1) (Some err) s
    end.

Definition cancel_job (id : Z) (s : Files) : list FOut * Files :=
  let '(job, jobs) := T.remove_job id (write_jobs s) in
  let d := match job with Some j => T.remove_download_file j (disk s) | None => disk s end in
  ([ToPeer (MFileAction (Cancel id))],
   s <| write_jobs := jobs |> <| disk := d |> <| read_jobs := (T.remove_job id (read_jobs s)).2 |>
     <| remove_jobs := delete id (remove_jobs s) |>).

Definition remove_file (e : FEnv) (id : Z) (path : string) (file_num : Z) (is_remote : bool) (s : Files)
  : list FOut * Files :=
  if is_remote then ([ToPeer (MFileAction (RemoveFile id path file_num))], s)
  else
    match CmFs.fs_remove_file (os e) path (disk s) with
    | Err err => handle_job_status e id file_num (Some err) s
    | Ok d => handle_job_status e id file_num None (s <| disk := d |>)
    end.

Definition create_dir (e : FEnv) (id : Z) (path : string) (is_remote : bool) (s : Files) : list FOut * Files :=
  if is_remote then ([ToPeer (MFileAction (Create id path))], s)
  else handle_job_status e id (-1) (match os_create_dir e path with Err err => Some err | Ok _ => None end) s.

Definition rename_file (e : FEnv) (id : Z) (path new_name : string) (is_remote : bool) (s : Files)
  : list FOut * Files :=
  if is_remote then ([ToPeer (MFileAction (Rename id path new_name))], s)
  else
    match CmFs.fs_rename_file (os e) path new_name (disk s) with
    | Err err => handle_job_status e id (-1) (Some err) s
    | Ok d => handle_job_status e id (-1) None (s <| disk := d |>)
    end.

(** ** Answers of the peer *)

Definition on_dir (e : FEnv) (id : Z) (path : string) (entries : list T.FileEntry) (s : Files) : list FOut * Files :=
  let entries := if String.eqb (peer_platform e) PLATFORM_WINDOWS then T.transform_windows_path entries else entries in
  ([UpdateFolderFiles id entries path false false],
   match T.get_job id (write_jobs s) with
   | Some _ =>
     s <| write_jobs := upd_job id (fun j => T.set_finished_size_on_resume (T.set_files j entries)) (write_jobs s) |>
   | None =>
     match remove_jobs s !! id with
     | Some job => s <| remove_jobs := <[ id := job <| rj_files := entries |> ]> (remove_jobs s) |>
     | None => s
     end
   end).

(** The answer to a digest when the question need not be asked, else the
    question. *)
Definition answer_digest (d : T.FileTransferDigest) (strategy : option bool) (offset : Z) (path : string)
  (is_upload is_identical : bool) : FOut + T.FileTransferSendConfirmRequest :=
  match strategy with
  | Some overwrite =>
    inr (T.mkConfirm (T.td_id d) (T.td_file_num d) (Some (if overwrite then T.OffsetBlk offset else T.Skip true)))
  | None => inl (OverrideConfirm (T.td_id d) (T.td_file_num d) path is_upload is_identical)
  end.

(** A digest of an upload: the peer has the file already. *)
Definition on_digest_upload (d : T.FileTransferDigest) (s : Files) : outcome (list FOut * Files) :=
  match T.get_job (T.td_id d) (read_jobs s) with
  | None => Done ([], s)
  | Some job =>
    match T.entry_at job (u64 (T.td_file_num d)), T.data_source job with
    | Some file, T.FilePath p =>
      let path := T.join p (T.name file) in
      let resume := T.td_is_identical d && T.is_resume job && (0 <? T.td_transferred_size d) in
      let strategy := if resume then Some true else T.default_overwrite_strategy job in
      let offset := if resume then u32 (T.td_transferred_size d) else 0 in
      match answer_digest d strategy offset path true (T.td_is_identical d) with
      | inr req =>
        let! jobs := confirm_jobs req (read_jobs s) (disk s) in
        Done ([ToPeer (new_send_confirm req)], s <| read_jobs := jobs |>)
      | inl ask => Done ([ask], s)
      end
    | _, _ => Done ([], s)
    end
  end.

(** A digest of a download: compared with what is on the own disk. *)
Definition on_digest_download (e : FEnv) (d : T.FileTransferDigest) (s : Files) : outcome (list FOut * Files) :=
  match T.get_job (T.td_id d) (write_jobs s) with
  | None => Done ([], s)
  | Some job =>
    match T.entry_at job (u64 (T.td_file_num d)), T.data_source job with
    | Some file, T.FilePath p =>
      let path := T.join p (T.name file) in
      let jobs := upd_job (T.td_id d) (fun j => T.set_digest j (T.td_file_size d) (T.td_last_modified d)) (write_jobs s) in
      let s := s <| write_jobs := jobs |> in
      let resume := is_support_file_transfer_resume_num (peer_version e) && T.is_resume job in
      let reply (req : T.FileTransferSendConfirmRequest) :=
        let! jobs := confirm_jobs req (write_jobs s) (disk s) in
        Done ([ToPeer (new_send_confirm req)], s <| write_jobs := jobs |>) in
      match T.is_write_need_confirmation (parse_digest e) resume path d (disk s) with
      | T.IsSame => reply (T.mkConfirm (T.td_id d) (T.td_file_num d) (Some (T.Skip true)))
      | T.NeedConfirm d' =>
        let resume := T.td_is_identical d' && T.is_resume job && (0 <? T.td_transferred_size d') in
        let strategy := if resume then Some true else T.default_overwrite_strategy job in
        let offset := if resume then u32 (T.td_transferred_size d') else 0 in
        match answer_digest d' strategy offset path false (T.td_is_identical d') with
        | inr req => reply req
        | inl ask => Done ([ask], s)
        end
      | T.NoSuchFile => reply (T.mkConfirm (T.td_id d) (T.td_file_num d) (Some (T.OffsetBlk 0)))
      end
    | _, _ => Done ([], s)
    end
  end.

Definition on_block (e : FEnv) (b : T.FileTransferBlock) (s : Files) : list FOut * Files :=
  match T.get_job (T.b_id b) (write_jobs s) with
  | None => ([], s)
  | Some job =>
    let '(jobs, d) := T.on_block (can_create e) (zdecompress e) (wall e) (digest_json e) (write_jobs s) b (disk s) in
    let s := s <| write_jobs := jobs |> <| disk := d |> in
    if decide (T.type job = T.Generic) then update_jobs_status e s else ([], s)
  end.

(** On Linux a finished print job goes nowhere. *)
Definition on_done (e : FEnv) (id file_num : Z) (s : Files) : list FOut * Files :=
  let '(job, jobs, d) := T.on_done (write_jobs s) id (disk s) in
  let s := s <| write_jobs := jobs |> <| disk := d |> in
  match job with
  | Some j => match T.type j with
              | T.Generic => handle_job_status e id file_num (T.job_error j) s
              | T.Printer => ([], s)
              end
  | None => handle_job_status e id file_num None s
  end.

Definition on_error (e : FEnv) (id : Z) (err : string) (file_num : Z) (s : Files) : list FOut * Files :=
  let '(job, s) :=
    match T.remove_job id (write_jobs s) with
    | (Some j, jobs) => (Some j, s <| write_jobs := jobs |>)
    | (None, _) => let '(j, jobs) := T.remove_job id (read_jobs s) in (j, s <| read_jobs := jobs |>)
    end in
  match job with
  | Some j => match T.type j with
              | T.Generic => handle_job_status e id file_num (Some err) s
              | T.Printer => ([], s)
              end
  | None => handle_job_status e id file_num (Some err) s
  end.

Definition on_file_response (e : FEnv) (fr : FileResponse) (s : Files) : outcome (list FOut * Files) :=
  match fr with
  | FrEmptyDirs path => Done ([UpdateEmptyDirs path], s)
  | FrDir id path entries => Done (on_dir e id path entries s)
  | FrDigest d is_upload => if is_upload then on_digest_upload d s else on_digest_download e d s
  | FrBlock id file_num data compressed => Done (on_block e (T.mkBlock id file_num data compressed) s)
  | FrDone id file_num => Done (on_done e id file_num s)
  | FrError id err file_num => Done (on_error e id err file_num s)
  end.

(** File actions of the peer: only the confirmation of an upload counts. *)
Definition on_file_action (fa : FileAction) (s : Files) : outcome Files :=
  match fa with
  | SendConfirm r =>
    match T.get_job (T.c_id r) (read_jobs s) with
    | Some _ => let! jobs := confirm_jobs r (read_jobs s) (disk s) in Done (s <| read_jobs := jobs |>)
    | None => Done s
    end
  | _ => Done s
  end.

(** ** The timer, and what is kept of the jobs *)

Definition on_timer (e : FEnv) (s : Files) : list FOut * Files :=
  match read_jobs s with
  | [] => ([], s <| fast_timer := false |>)
  | jobs =>
    let '(jobs, msgs) := T.handle_read_jobs (os_read e) (zcompress e) jobs (disk s) in
    let '(outs, s) := update_jobs_status e (s <| read_jobs := jobs |>) in
    (map (fun m => ToPeer (of_job_msg m)) msgs ++ outs, s)
  end.

(** ** Orders, answers and ticks *)

Inductive FEvent : Type :=
| UiSendFiles (id : Z) (t : T.JobType) (path to : string) (file_num : Z) (include_hidden is_remote : bool)
| UiAddJob (id : Z) (t : T.JobType) (path to : string) (file_num : Z) (include_hidden is_remote : bool)
| UiResumeJob (id : Z) (is_remote : bool)
| UiSetNoConfirm (id : Z)
| UiConfirmDeleteFiles (id file_num : Z)
| UiSetConfirmOverrideFile (id file_num : Z) (need_override remember is_upload : bool)
| UiRemoveDirAll (id : Z) (path : string) (is_remote include_hidden : bool)
| UiCancelJob (id : Z)
| UiRemoveDir (id : Z) (path : string)
| UiRemoveFile (id : Z) (path : string) (file_num : Z) (is_remote : bool)
| UiCreateDir (id : Z) (path : string) (is_remote : bool)
| UiRenameFile (id : Z) (path new_name : string) (is_remote : bool)
| PeerResponse (fr : FileResponse)
| PeerAction (fa : FileAction)
| Tick.

Definition step (e : FEnv) (ev : FEvent) (s : Files) : outcome (list FOut * Files) :=
  match ev with
  | UiSendFiles id t path to n hidden remote => Done (send_files e id t path to n hidden remote s)
  | UiAddJob id t path to n hidden remote => Done (add_job e id t path to n hidden remote s)
  | UiResumeJob id remote => Done (resume_job id remote s)
  | UiSetNoConfirm id => Done ([], set_no_confirm id s)
  | UiConfirmDeleteFiles id n => Done (confirm_delete_files id n s, s)
  | UiSetConfirmOverrideFile id n need remember upload => set_confirm_override_file id n need remember upload s
  | UiRemoveDirAll id path remote hidden => Done (remove_dir_all e id path remote hidden s)
  | UiCancelJob id => Done (cancel_job id s)
  | UiRemoveDir id path => Done ([ToPeer (MFileAction (RemoveDir id path true))], s)
  | UiRemoveFile id path n remote => Done (remove_file e id path n remote s)
  | UiCreateDir id path remote => Done (create_dir e id path remote s)
  | UiRenameFile id path new_name remote => Done (rename_file e id path new_name remote s)
  | PeerResponse fr => on_file_response e fr s
  | PeerAction fa => let! s := on_file_action fa s in Done ([], s)
  | Tick => Done (on_timer e s)
  end.

Fixpoint run (e : FEnv) (evs : list FEvent) (s : Files) : outcome (list FOut * Files) :=
  match evs with
  | [] => Done ([], s)
  | ev :: evs =>
    let! (o, s) := step e ev s in
    let! (os, s) := run e evs s in Done (o ++ os, s)
  end.

(** The orders the session sends to itself. *)
Definition later (o : FOut) : list FEvent :=
  match o with LaterRemoveFile id path n remote => [UiRemoveFile id path n remote] | _ => [] end.

(** Events are served in order, and the orders a handler sends to the session
    come after those that wait; [fuel] bounds the number of events. *)
Fixpoint serve (fuel : nat) (e : FEnv) (queue : list FEvent) (s : Files) : outcome (list FOut * list FEvent * Files) :=
  match fuel, queue with
  | S fuel, ev :: queue =>
    let! (o, s) := step e ev s in
    let! (os, rest, s) := serve fuel e (queue ++ flat_map later o) s in Done (o ++ os, rest, s)
  | _, _ => Done ([], queue, s)
  end.

End ClientFiles.
