(* ===== verification/ClientFilesProofs.v ===== *)
(** * Theorems about the file manager of a controlling session

    - [Removal]: a directory that is removed without confirmations loses every
      file of its list, and then the job is gone; and a peer can replace the
      list while a local removal runs.
    - [Download]: a peer that answers a download with a list of its own choice
      writes any path of the controlling side. *)

From S2P Require Import Prelude RustStr NetUtil FileTransfer FileTransferProofs Messages FileManager CmFiles ClientFiles.

#[local] Open Scope rust_scope.

Module ClientFileFacts.

Import Msg FileMgr ClientFiles.

(** ** Lists of jobs *)

Definition unused (id : Z) (jobs : list T.TransferJob) : Prop := Forall (fun j => T.id j <> id) jobs.

Lemma get_job_none id jobs : unused id jobs <-> T.get_job id jobs = None.
Proof.
  unfold T.get_job, unused. destruct (list_find _ jobs) as [[i j]|] eqn:E; cbn.
  - split; [|done]. intros H. apply list_find_Some in E as (E1 & E2 & _).
    rewrite Forall_lookup in H. by apply (H _ _ E1) in E2.
  - split; [done|]. intros _. apply list_find_None in E. done.
Qed.

Lemma get_job_new id jobs j : unused id jobs -> T.id j = id -> T.get_job id (jobs ++ [j]) = Some j.
Proof.
  intros H Hj. unfold T.get_job. rewrite list_find_app_r by (by apply list_find_None).
  cbn. by rewrite decide_True.
Qed.

Lemma upd_job_new id f jobs j : unused id jobs -> T.id j = id -> upd_job id f (jobs ++ [j]) = jobs ++ [f j].
Proof.
  intros H Hj. unfold upd_job. induction H as [|x jobs Hx _ IH]; cbn.
  - by rewrite (proj2 (Z.eqb_eq _ _) Hj).
  - rewrite (proj2 (Z.eqb_neq _ _) Hx). destruct (CmFs.on_job id _ (jobs ++ [j])) as [a l]. cbn in *. by rewrite IH.
Qed.

Lemma on_block_new cc zd now dj jobs j b fs : unused (T.b_id b) jobs -> T.id j = T.b_id b ->
  T.on_block cc zd now dj (jobs ++ [j]) b fs =
  let '(_, j, fs) := T.write cc zd now dj j b fs in (jobs ++ [j], fs).
Proof.
  intros H Hj. induction H as [|x jobs Hx _ IH]; cbn [app T.on_block].
  - rewrite (proj2 (Z.eqb_eq _ _) Hj). by destruct (T.write cc zd now dj j b fs) as [[? ?] ?].
  - rewrite (proj2 (Z.eqb_neq _ _) Hx), IH. by destruct (T.write cc zd now dj j b fs) as [[? ?] ?].
Qed.

Lemma remove_job_new id jobs j : unused id jobs -> T.id j = id -> T.remove_job id (jobs ++ [j]) = (Some j, jobs).
Proof.
  intros H Hj. induction H as [|x jobs Hx _ IH]; cbn [app T.remove_job].
  - by rewrite (proj2 (Z.eqb_eq _ _) Hj).
  - by rewrite (proj2 (Z.eqb_neq _ _) Hx), IH.
Qed.

(** One event of the queue. *)
Lemma serve_step fuel e ev queue s o s' : step e ev s = Done (o, s') ->
  serve (S fuel) e (ev :: queue) s
  = let! (os, rest, s) := serve fuel e (queue ++ flat_map later o) s' in Done (o ++ os, rest, s).
Proof. intros H. cbn [serve]. by rewrite H. Qed.

(** ** Removing a directory *)

Section Removal.
Context (e : FEnv) (id : Z) (path sep : string) (fl : list T.FileEntry).
Hypothesis few : len fl < 2 ^ 31.

Definition path_of (f : T.FileEntry) : string := path +:+ sep +:+ T.name f.

(** A local removal of these files runs without confirmations. *)
Definition removing (s : Files) : Prop :=
  exists t, remove_jobs s !! id = Some (mkRemoveJob fl path sep false true t).

Lemma removing_disk s d : removing s -> removing (s <| disk := d |>).
Proof using. done. Qed.

Definition not_to_peer (o : FOut) : Prop := match o with ToPeer _ => False | _ => True end.

(** After a file the next one is ordered. *)
Lemma status_next s k f err : removing s -> fl !! k = Some f ->
  exists o s', handle_job_status e id (Z.of_nat k - 1) err s = (o, s')
    /\ flat_map later o = [UiRemoveFile id (path_of f) (Z.of_nat k) false]
    /\ removing s' /\ disk s' = disk s /\ read_jobs s' = read_jobs s /\ write_jobs s' = write_jobs s
    /\ delete id (remove_jobs s') = delete id (remove_jobs s) /\ Forall not_to_peer o.
Proof using few.
  intros [t Ht] Hf. apply lookup_lt_Some in Hf as Hk. unfold len in few.
  unfold handle_job_status. rewrite Ht. cbn [no_confirm rj_files rj_path rj_sep rj_is_remote last_update_job_status].
  rewrite Z.sub_add, (swrap_small 32 (Z.of_nat k)) by lia. rewrite (wrap_small 64) by lia.
  rewrite (swrap_small 32 (Z.of_nat k)) by lia.
  rewrite (proj2 (Z.ltb_lt _ _)) by (unfold len; lia).
  rewrite Nat2Z.id, Hf. fold (path_of f).
  destruct (1000 <=? _).
  - eexists _, _. split; [reflexivity|]. split; [by destruct err|].
    split; [eexists; cbn; apply lookup_insert_eq|]. do 3 (split; [done|]).
    split; [cbn; apply delete_insert_eq|]. by destruct err; repeat constructor.
  - eexists _, _. split; [reflexivity|]. split; [done|]. split; [by exists t|]. do 4 (split; [done|]). by repeat constructor.
Qed.

(** After the last file the removal is forgotten. *)
Lemma status_last s err : removing s ->
  exists o, handle_job_status e id (len fl - 1) err s = (o, s <| remove_jobs := delete id (remove_jobs s) |>)
    /\ flat_map later o = [] /\ Forall not_to_peer o.
Proof using few.
  intros [t Ht]. unfold handle_job_status. rewrite Ht. cbn [no_confirm rj_files].
  pose proof (len_nonneg fl).
  rewrite Z.sub_add, (swrap_small 32 (len fl)) by lia. rewrite wrap_small by lia. rewrite Z.ltb_irrefl.
  eexists. split; [reflexivity|]. by destruct err; repeat constructor.
Qed.

Lemma remove_file_disk s p k : exists err d,
  remove_file e id p k false s = handle_job_status e id k err (s <| disk := d |>)
  /\ forall q, T.paths d !! q
       = if decide (q = p /\ CmFs.unlink_refused (os e) q = None) then None else T.paths (disk s) !! q.
Proof using.
  unfold remove_file, CmFs.fs_remove_file. destruct (CmFs.unlink_refused (os e) p) as [err|] eqn:Hu.
  { exists (Some err), (disk s). split; [done|]. intros q. case_decide as H; [|done]. destruct H as [-> H]. congruence. }
  destruct (T.paths (disk s) !! p) as [i|] eqn:Hp.
  - exists None, (T.fs_unlink (disk s) p). split; [done|]. intros q. cbn.
    case_decide as Hq; [destruct Hq as [-> _]; apply lookup_delete_eq|].
    rewrite lookup_delete_ne; [done|]. intros ->. by apply Hq.
  - eexists _, (disk s). split; [reflexivity|]. intros q. case_decide as Hq; [by destruct Hq as [-> _]|done].
Qed.

Lemma removal_from m : forall k s f, length fl = (k + S m)%nat -> fl !! k = Some f -> removing s ->
  exists o s', serve (S m) e [UiRemoveFile id (path_of f) (Z.of_nat k) false] s = Done (o, [], s')
    /\ remove_jobs s' = delete id (remove_jobs s) /\ Forall not_to_peer o
    /\ read_jobs s' = read_jobs s /\ write_jobs s' = write_jobs s
    /\ forall q, T.paths (disk s') !! q
                 = if decide (q ∈ map path_of (drop k fl) /\ CmFs.unlink_refused (os e) q = None) then None
                   else T.paths (disk s) !! q.
Proof using few.
  induction m as [|m IH]; intros k s f Hlen Hf Hr.
  - destruct (remove_file_disk s (path_of f) (Z.of_nat k)) as (err & d & E & Hd).
    assert (Z.of_nat k = len fl - 1) as Hk by (unfold len; lia).
    destruct (status_last (s <| disk := d |>) err) as (o & Eo & Ho & Hn); [done|].
    exists o. eexists. cbn [serve step]. rewrite E, Hk, Eo. cbn [outcome_bind]. rewrite Ho. cbn [serve app].
    split; [by rewrite app_nil_r|]. do 4 (split; [done|]). intros q. cbn [disk set_field].
    change (T.paths d !! q = if decide (q ∈ map path_of (drop k fl) /\ CmFs.unlink_refused (os e) q = None) then None
                             else T.paths (disk s) !! q).
    rewrite Hd, (drop_S _ _ _ Hf), drop_ge by lia. cbn [map]. repeat case_decide; set_solver.
  - destruct (lookup_lt_is_Some_2 fl (S k) ltac:(lia)) as [f' Hf'].
    destruct (remove_file_disk s (path_of f) (Z.of_nat k)) as (err & d & E & Hd).
    destruct (status_next (s <| disk := d |>) (S k) f' err) as (o & s1 & Eo & Ho & Hr1 & Hd1 & Hj1 & Hw1 & Hdel & Hn1);
      [by apply removing_disk|done|].
    destruct (IH (S k) s1 f') as (o' & s' & Es & Hrem & Hn & Hj & Hw & Hq); [lia|done|done|].
    exists (o ++ o'), s'. split.
    { replace (Z.of_nat (S k) - 1) with (Z.of_nat k) in Eo by lia.
      erewrite serve_step by (cbn [step]; rewrite E, Eo; reflexivity). rewrite Ho. cbn [app]. by rewrite Es. }
    split; [by rewrite Hrem, Hdel|]. split; [by apply Forall_app|]. split; [by rewrite Hj|]. split; [by rewrite Hw|].
    intros q. rewrite Hq, Hd1. change (disk (s <| disk := d |>)) with d. rewrite Hd.
    rewrite (drop_S _ _ _ Hf). cbn [map]. repeat case_decide; set_solver.
Qed.

End Removal.

(** C26. A directory of the controlling side that is removed without
    confirmations loses every file of its list that the operating system lets
    go, and nothing else: from the first order on, the session works through the
    list by itself, as many orders as there are files, and a file that cannot be
    removed (it is not there, is a directory, or the system refuses) does not
    stop it; then the queue is empty, the removal is forgotten, and the peer has
    been told nothing. *)
Theorem removal_clears_directory e id path sep f fl s :
  len (f :: fl) < 2 ^ 31 -> removing id path sep (f :: fl) s ->
  exists o s', serve (length (f :: fl)) e [UiRemoveFile id (path +:+ sep +:+ T.name f) 0 false] s = Done (o, [], s')
    /\ remove_jobs s' = delete id (remove_jobs s) /\ Forall not_to_peer o
    /\ forall q, T.paths (disk s') !! q
                 = if decide (q ∈ map (fun f => path +:+ sep +:+ T.name f) (f :: fl)
                              /\ CmFs.unlink_refused (os e) q = None)
                   then None else T.paths (disk s) !! q.
Proof.
  intros Hlen Hr.
  destruct (removal_from e id path sep (f :: fl) Hlen (length fl) 0 s f) as (o & s' & Hs & H1 & H2 & _ & _ & H3);
    [done|done|done|].
  exists o, s'. done.
Qed.

Definition demo_file (n : string) : T.FileEntry := T.mkFileEntry T.File n false 3 0.

Definition demo_env : FEnv :=
  mkFEnv (fun rest cap => Ok (Nat.min (length rest) (Z.to_nat cap))) (fun _ => true) (fun d => d) (fun d => d) 5 0
    (fun _ => []) (fun _ => None) (fun _ _ => Err "none") (fun _ => Ok tt) "Linux" "Linux" 1004000
    (CmFs.mkOs (fun _ => false)
       (fun p => if String.eqb p "/d/kept" then Some "Permission denied (os error 13)" else None) (fun _ _ => None)).

Definition demo_disk : T.FS :=
  T.fs_write_file (T.fs_write_file (T.fs_write_file T.fs_empty "/d/a" [1; 2; 3] 1) "/d/b" [4] 1) "/d/kept" [5] 1.

Definition demo_files (jobs : gmap Z RemoveJob) : Files := mkFiles [] [] jobs 0 ∅ false demo_disk.

Definition demo_removal : Files :=
  demo_files {[ 7 := mkRemoveJob [demo_file "a"; demo_file "kept"; demo_file "b"] "/d" "/" false true 0 ]}.

Lemma removal_clears_directory_witness :
  exists o s', serve 3 demo_env [UiRemoveFile 7 "/d/a" 0 false] demo_removal = Done (o, [], s')
    /\ remove_jobs s' = delete 7 (remove_jobs demo_removal) /\ Forall not_to_peer o
    /\ T.paths (disk s') !! "/d/a" = None /\ T.paths (disk s') !! "/d/b" = None
    /\ T.paths (disk s') !! "/d/kept" = Some 2%nat.
Proof.
  destruct (removal_clears_directory demo_env 7 "/d" "/" (demo_file "a") [demo_file "kept"; demo_file "b"] demo_removal)
    as (o & s' & H & H1 & H2 & H3); [vm_compute; reflexivity|by exists 0|].
  exists o, s'. split; [exact H|]. split; [exact H1|]. split; [exact H2|].
  rewrite !H3. repeat split; vm_compute; reflexivity.
Defined.

(** A peer can direct a removal on the controlling side: the answer with
    the list of a remote directory is accepted for a local removal of the same
    number as well.  While a local removal runs without confirmations, two
    messages of the peer, a list with one name of its choice and a report that
    order -1 is done, make the session remove the file with that name below (or
    above) the directory. *)
Theorem peer_redirects_removal e id path sep fl name s dir :
  removing id path sep fl s -> unused id (write_jobs s) -> peer_platform e <> "Windows"%string ->
  CmFs.unlink_refused (os e) (path +:+ sep +:+ name) = None ->
  exists o s',
    serve 3 e [PeerResponse (FrDir id dir [demo_file name]); PeerResponse (FrDone id (-1))] s = Done (o, [], s')
    /\ T.paths (disk s') !! (path +:+ sep +:+ name) = None.
Proof.
  intros [t Ht] Hu Hp Hos.
  assert (on_dir e id dir [demo_file name] s
          = ([UpdateFolderFiles id [demo_file name] dir false false],
             s <| remove_jobs := <[ id := mkRemoveJob [demo_file name] path sep false true t ]> (remove_jobs s) |>)) as Ed.
  { unfold on_dir, PLATFORM_WINDOWS. rewrite (proj2 (String.eqb_neq _ _) Hp), (proj1 (get_job_none _ _) Hu), Ht. reflexivity. }
  set (s1 := s <| remove_jobs := _ |>) in Ed.
  assert (removing id path sep [demo_file name] s1) as Hr by (exists t; apply lookup_insert_eq).
  assert (T.remove_job id (write_jobs s) = (None, write_jobs s)) as Erm.
  { clear - Hu. induction Hu as [|j jobs Hj _ IH]; [done|]. cbn [T.remove_job].
    by rewrite (proj2 (Z.eqb_neq _ _) Hj), IH. }
  destruct (status_next e id path sep [demo_file name] ltac:(vm_compute; reflexivity) s1 0 (demo_file name) None)
    as (o & s2 & Eo & Ho & Hr2 & _); [done|done|].
  assert (on_done e id (-1) s1 = (o, s2)) as Ed2.
  { unfold on_done, T.on_done. change (write_jobs s1) with (write_jobs s). rewrite Erm. exact Eo. }
  destruct (removal_from e id path sep [demo_file name] ltac:(vm_compute; reflexivity) 0 0 s2 (demo_file name))
    as (o' & s' & Es & _ & _ & _ & _ & Hq); [done|done|done|].
  exists ([UpdateFolderFiles id [demo_file name] dir false false] ++ o ++ o'), s'. split.
  - erewrite serve_step by (cbn [step on_file_response]; rewrite Ed; reflexivity). cbn [flat_map later app].
    erewrite serve_step by (cbn [step on_file_response]; rewrite Ed2; reflexivity). rewrite Ho. cbn [app].
    by rewrite Es.
  - rewrite Hq. unfold path_of. cbn. case_decide as H; [done|]. exfalso. apply H. split; [by apply list_elem_of_singleton|done].
Qed.

Lemma peer_redirects_removal_witness :
  exists o s', serve 3 demo_env [PeerResponse (FrDir 7 "" [demo_file "../home/key"]); PeerResponse (FrDone 7 (-1))]
                 demo_removal = Done (o, [], s')
    /\ T.paths (disk s') !! ("/d" +:+ "/" +:+ "../home/key") = None.
Proof.
  apply (peer_redirects_removal demo_env 7 "/d" "/" [demo_file "a"; demo_file "kept"; demo_file "b"] "../home/key" demo_removal "");
    [by exists 0|constructor|by vm_compute|reflexivity].
Defined.

(** ** Downloads *)

Lemma longer (p s : string) : s <> "" -> p <> p +:+ s.
Proof.
  intros Hs H. apply (f_equal String.length) in H. rewrite length_append in H.
  destruct s; [done|]. cbn in H. lia.
Qed.

Lemma three_paths p : NoDup [p; T.download_path p; T.digest_path p].
Proof.
  unfold T.download_path, T.digest_path. apply NoDup_cons. split.
  { intros H. apply elem_of_cons in H as [H|H]; [by apply (longer p ".download") in H|].
    apply list_elem_of_singleton in H. by apply (longer p ".digest") in H. }
  apply NoDup_cons. split; [|apply NoDup_singleton]. intros H. apply list_elem_of_singleton in H.
  apply (f_equal String.length) in H. rewrite !length_append in H. cbn in H. lia.
Qed.

Definition question (o : FOut) : Prop :=
  match o with OverrideConfirm _ _ _ _ _ | ConfirmDelete _ _ _ => True | _ => False end.

Ltac quiet := repeat first [apply Forall_nil_2 | apply Forall_cons_2; [by cbn; tauto|]].

Lemma status_quiet e id n err s : Forall (fun o => ~ question o) (handle_job_status e id n err s).1
  /\ disk (handle_job_status e id n err s).2 = disk s.
Proof.
  unfold handle_job_status. destruct (remove_jobs s !! id) as [job|]; [|by destruct err; split; quiet].
  destruct (no_confirm job); [|by destruct err; split; quiet].
  destruct (if _ <? _ then _ else _); [|by destruct err; split; quiet].
  destruct (1000 <=? _); by destruct err; split; quiet.
Qed.

Lemma each_quiet el jobs last : Forall (fun o => ~ question o) (update_each el jobs last).1.
Proof.
  revert last. induction jobs as [|j jobs IH]; intros last; [constructor|]. cbn [update_each].
  assert (Forall (fun o => ~ question o) (update_job_status el j last).1) as H
    by (unfold update_job_status; case_match; quiet).
  destruct (update_job_status el j last) as [o l]. specialize (IH l). destruct (update_each el jobs l). cbn in *.
  by apply Forall_app.
Qed.

Lemma jobs_status_quiet e s : Forall (fun o => ~ question o) (update_jobs_status e s).1
  /\ disk (update_jobs_status e s).2 = disk s /\ write_jobs (update_jobs_status e s).2 = write_jobs s.
Proof.
  unfold update_jobs_status. case_match; [|by split; [constructor|]].
  pose proof (each_quiet (i32 (instant e - last_update_jobs_status s)) (read_jobs s ++ write_jobs s) (last_transferred s)) as Hq.
  by destruct (update_each _ _ _).
Qed.

Lemma on_done_new e id n s jobs j : write_jobs s = jobs ++ [j] -> unused id jobs -> T.id j = id -> T.type j = T.Generic ->
  exists o s', on_done e id n s = (o, s') /\ disk s' = T.modify_time j (disk s) /\ Forall (fun o => ~ question o) o.
Proof.
  intros Hw Hu Hi Ht. unfold on_done, T.on_done. rewrite Hw, remove_job_new, Ht by done.
  set (s' := s <| write_jobs := _ |> <| disk := _ |>).
  pose proof (status_quiet e id n (T.job_error j) s') as [H1 H2].
  destruct (handle_job_status e id n (T.job_error j) s'). eauto.
Qed.

Lemma join_absolute dest victim : starts_with "/" victim = true -> T.join dest victim = victim.
Proof.
  intros Hv. assert (victim <> ""%string) as Hne by (by intros ->).
  unfold T.join, T.path_join. by rewrite (proj2 (String.eqb_neq _ _) Hne), Hv.
Qed.

(** ** Digests: the handler answers as in [Delivery] *)

Lemma digest_answer_id parse cr j d fs req :
  Delivery.digest_answer parse cr j d fs = Some req -> T.c_id req = T.td_id d.
Proof.
  unfold Delivery.digest_answer, T.is_write_need_confirmation. intros H.
  repeat (case_match; simplify_eq/=; try done).
Qed.

Lemma on_digest_split parse cr jobs d fs jobs' req :
  Delivery.on_digest parse cr jobs d fs = Done (jobs', [req]) ->
  exists j, T.get_job (T.td_id d) jobs = Some j /\ Delivery.digest_answer parse cr j d fs = Some req
    /\ confirm_jobs req (upd_job (T.td_id d) (fun j => T.set_digest j (T.td_file_size d) (T.td_last_modified d)) jobs) fs
       = Done jobs'.
Proof.
  revert jobs'. unfold confirm_jobs, CmFs.confirm_in, upd_job, T.get_job.
  induction jobs as [|x jobs IH]; intros jobs'; cbn [Delivery.on_digest CmFs.on_job list_find]; [done|].
  destruct (Z.eqb_spec (T.id x) (T.td_id d)) as [Hx|Hx].
  - destruct (Delivery.digest_answer parse cr x d fs) as [r|] eqn:Ea; [|done]. intros H.
    destruct (T.confirm _ r fs) as [j'|] eqn:Ec; [|done]. injection H as <- <-.
    exists x. rewrite decide_True by done. split; [done|]. split; [done|].
    pose proof (digest_answer_id _ _ _ _ _ _ Ea) as Hid. cbn [snd CmFs.on_job T.id T.set_digest].
    rewrite Hid, (proj2 (Z.eqb_eq _ _) Hx). by rewrite Ec.
  - destruct (Delivery.on_digest parse cr jobs d fs) as [[jobs1 r1]|] eqn:Ed; [|done]. intros [= <- ->].
    destruct (IH jobs1 eq_refl) as (j & Hj & Ha & Hc). exists j. rewrite decide_False by done.
    split; [by destruct (list_find _ jobs) as [[? ?]|]|]. split; [done|].
    pose proof (digest_answer_id _ _ _ _ _ _ Ha) as Hid. rewrite Hid in *.
    destruct (CmFs.on_job (T.td_id d) _ jobs) as [a1 l1]. cbn [snd CmFs.on_job] in *.
    rewrite (proj2 (Z.eqb_neq _ _) Hx). destruct (CmFs.on_job (T.td_id d) _ l1) as [[[|]|] l2]; congruence.
Qed.

(** [Delivery.on_digest] is what the handler of the session does: the request
    is sent to the peer and followed by the own job. *)
Lemma digest_handled e d s jobs req :
  Delivery.on_digest (parse_digest e) (is_support_file_transfer_resume_num (peer_version e)) (write_jobs s) d (disk s)
  = Done (jobs, [req]) ->
  on_digest_download e d s = Done ([ToPeer (new_send_confirm req)], s <| write_jobs := jobs |>).
Proof.
  intros (j & Hj & Ha & Hc)%on_digest_split. unfold on_digest_download. rewrite Hj.
  set (f := fun j => T.set_digest j (T.td_file_size d) (T.td_last_modified d)) in *.
  assert (run_confirm : forall r, confirm_jobs r (upd_job (T.td_id d) f (write_jobs s)) (disk s)
    = confirm_jobs r (write_jobs (s <| write_jobs := upd_job (T.td_id d) f (write_jobs s) |>))
        (disk (s <| write_jobs := upd_job (T.td_id d) f (write_jobs s) |>))) by done.
  unfold Delivery.digest_answer in Ha. destruct (T.entry_at j (u64 (T.td_file_num d))) as [fe|]; [|done].
  destruct (T.data_source j) as [p|]; [|done]. cbv zeta in *.
  destruct (T.is_write_need_confirmation _ _ _ _ _) as [|d'|].
  - injection Ha as <-; by rewrite <- run_confirm, Hc.
  - unfold answer_digest. destruct (if _ && _ && _ then Some true else _) as [[|]|]; [| |done];
      injection Ha as <-; by rewrite <- run_confirm, Hc.
  - injection Ha as <-; by rewrite <- run_confirm, Hc.
Qed.

(** C5. The controlling side trusts the names in the answer to a download.
    When the user downloads anything into any directory, the peer can answer
    with a list of one entry named by an absolute path, one block and "done":
    the data is then the content of exactly that file of the controlling side,
    whether or not it existed, and the user has been asked nothing. *)
Theorem peer_writes_anywhere e id path dest hidden s victim size mtime data :
  unused id (write_jobs s) -> fs_wf (disk s) -> peer_platform e <> "Windows"%string ->
  starts_with "/" victim = true -> can_create e (T.download_path victim) = true ->
  exists o s',
    run e [UiSendFiles id T.Generic path dest 0 hidden true;
           PeerResponse (FrDir id "" [T.mkFileEntry T.File victim false size mtime]);
           PeerResponse (FrBlock id 0 data false);
           PeerResponse (FrDone id 0)] s = Done (o, s')
    /\ T.fs_get (disk s') victim = Some (T.mkFileNode data (mtime * 10 ^ 9))
    /\ Forall (fun o => ~ question o) o.
Proof.
  intros Hu Hwf Hp Hv Hc. set (f := T.mkFileEntry T.File victim false size mtime).
  pose proof (join_absolute dest victim Hv) as Hj.
  set (od := can_enable_overwrite_detection (peer_version e)).
  set (j0 := T.new_write id T.Generic path (T.FilePath dest) 0 hidden true [] od).
  set (j1 := T.set_finished_size_on_resume (T.set_files j0 [f])).
  set (b := T.mkBlock id 0 data false).
  assert (NoDup ([f] ≫= Delivery.slots dest)) as Hslots.
  { cbn. unfold Delivery.slots, Delivery.rpath. cbn [T.name f]. rewrite Hj. apply three_paths. }
  assert (forall x, x ∈ [f] -> can_create e (T.download_path (Delivery.rpath dest x)) = true) as Hcc.
  { intros x Hx. apply list_elem_of_singleton in Hx as ->. unfold Delivery.rpath. cbn [T.name f]. by rewrite Hj. }
  assert (Delivery.ready id dest [f] [data] 0 j1 (disk s)) as Hr by (apply Delivery.ready_first; done).
  destruct (Delivery.write_block (can_create e) (zdecompress e) (wall e) (digest_json e) id dest [f] [data]
    ltac:(vm_compute; reflexivity) Hslots Hcc 0 [] j1 (disk s) f b data
    ltac:(by left) eq_refl eq_refl eq_refl eq_refl)
    as (j2 & d2 & Ew & Hrec & _).
  destruct (Delivery.modify_time_done id dest [f] [data] ltac:(vm_compute; reflexivity) Hslots 0 data j2 d2 Hrec eq_refl)
    as [_ Hdone].
  destruct (Hdone 0%nat ltac:(lia) f data eq_refl eq_refl) as (Hget & _ & _).
  unfold Delivery.rpath in Hget. cbn [T.name f T.modified_time] in Hget. rewrite Hj in Hget.
  destruct (Delivery.rc_job _ _ _ _ _ _ _ _ Hrec) as (Hid2 & Hty2 & _ & _).
  set (s1 := s <| write_jobs := write_jobs s ++ [j0] |>).
  set (s2 := s <| write_jobs := write_jobs s ++ [j1] |>).
  assert (on_dir e id "" [f] s1 = ([UpdateFolderFiles id [f] "" false false], s2)) as E2.
  { unfold on_dir, PLATFORM_WINDOWS. rewrite (proj2 (String.eqb_neq _ _) Hp).
    change (write_jobs s1) with (write_jobs s ++ [j0]). rewrite get_job_new, upd_job_new by done. reflexivity. }
  set (s3 := s <| write_jobs := write_jobs s ++ [j2] |> <| disk := d2 |>).
  assert (on_block e b s2 = update_jobs_status e s3) as E3.
  { unfold on_block. change (write_jobs s2) with (write_jobs s ++ [j1]). rewrite get_job_new by done.
    rewrite on_block_new by done. change (disk s2) with (disk s). rewrite Ew. reflexivity. }
  destruct (jobs_status_quiet e s3) as (Hq3 & Hd3 & Hw3).
  destruct (update_jobs_status e s3) as [o3 s4]. cbn [fst snd] in *.
  destruct (on_done_new e id 0 s4 (write_jobs s) j2) as (o5 & s5 & E5 & Hd5 & Hq5); [by rewrite Hw3|done..|].
  rewrite Hd3 in Hd5. change (disk s3) with d2 in Hd5.
  exists (ToPeer (new_send id T.Generic path 0 hidden) :: UpdateFolderFiles id [f] "" false false :: o3 ++ o5), s5.
  split; [|split].
  - cbn [run step outcome_bind]. change (send_files e id T.Generic path dest 0 hidden true s)
      with ([ToPeer (new_send id T.Generic path 0 hidden)], s1). cbn [outcome_bind on_file_response].
    rewrite E2. cbn [outcome_bind]. fold b. rewrite E3. cbn [outcome_bind]. rewrite E5. cbn [outcome_bind app].
    by rewrite app_nil_r.
  - by rewrite Hd5.
  - do 2 (apply Forall_cons_2; [by cbn; tauto|]). by apply Forall_app.
Qed.

Lemma peer_writes_anywhere_witness :
  exists o s',
    run demo_env [UiSendFiles 3 T.Generic "/peer/report" "/home/u/Downloads/report" 0 false true;
           PeerResponse (FrDir 3 "" [T.mkFileEntry T.File "/home/u/.profile" false 2 9]);
           PeerResponse (FrBlock 3 0 [104; 105] false);
           PeerResponse (FrDone 3 0)] (demo_files ∅) = Done (o, s')
    /\ T.fs_get (disk s') "/home/u/.profile" = Some (T.mkFileNode [104; 105] (9 * 10 ^ 9))
    /\ Forall (fun o => ~ question o) o.
Proof.
  apply (peer_writes_anywhere demo_env 3 "/peer/report" "/home/u/Downloads/report" false (demo_files ∅)
           "/home/u/.profile" 2 9 [104; 105]); [constructor| |by vm_compute|reflexivity|reflexivity].
  apply fs_wf_write_file, fs_wf_write_file, fs_wf_write_file, Delivery.fs_wf_empty.
Defined.

End ClientFileFacts.
