(* ===== verification/VideoPlayer.v ===== *)
(** * Playing the video of a display

    [src/client/io_loop.rs] [VideoThread] and [src/client.rs]
    [start_video_thread], [VideoHandler], [fps_calculate].  The session hands
    the frames of a display to a player thread: key frames through a channel,
    other frames through a bounded queue with one token in the channel for each.

    [VideoThread] is what the two share (the receiving end of the channel
    included), [Player] the variables of the thread.  The session's half is
    [on_video_frame], the player's half [player_step]; the theorems interleave
    them.  The queue of the crate [crossbeam_queue] is the class [ArrayQueue],
    the decoders of [libs/scrap] are parameters. *)

From S2P Require Import Prelude RustStr.

Module Player.

(** ** Frames *)

(** [EncodedVideoFrame], as far as it is looked at: whether it is a key frame. *)
Record Encoded : Type := mkEncoded { key : bool; payload : list Z }.

Inductive VfUnion : Type :=
| Vp8s (frames : list Encoded) | Vp9s (frames : list Encoded) | Av1s (frames : list Encoded)
| H264s (frames : list Encoded) | H265s (frames : list Encoded) | RgbOrYuv.

Record VideoFrame : Type := mkVideoFrame { vf_display : Z; vf_union : option VfUnion }.

Inductive CodecFormat : Type := Unknown | VP8 | VP9 | AV1 | H264 | H265.

#[global] Instance CodecFormat_eq_dec : EqDecision CodecFormat.
Proof. solve_decision. Defined.

Definition format_of (vf : VideoFrame) : CodecFormat :=
  match vf_union vf with
  | Some (Vp8s _) => VP8 | Some (Vp9s _) => VP9 | Some (Av1s _) => AV1
  | Some (H264s _) => H264 | Some (H265s _) => H265 | _ => Unknown
  end.

Definition contains_key_frame (vf : VideoFrame) : bool :=
  match vf_union vf with
  | Some (Vp8s f) | Some (Vp9s f) | Some (Av1s f) | Some (H264s f) | Some (H265s f) => existsb key f
  | _ => false
  end.

(** ** The bounded queue *)

(** [force_push] replaces the oldest element of a full queue and returns it. *)
Class ArrayQueue (Q : Type) : Type := {
  aq_new : nat -> Q;
  aq_force_push : VideoFrame -> Q -> option VideoFrame * Q;
  aq_pop : Q -> option VideoFrame * Q;
  aq_len : Q -> nat;
  aq_capacity : Q -> nat }.

(** What the crate documents, in terms of the elements in their order. *)
Class ArrayQueueLaws (Q : Type) {A : ArrayQueue Q} : Type := {
  aq_elems : Q -> list VideoFrame;
  aq_new_elems n : aq_elems (aq_new n) = [];
  aq_new_capacity n : aq_capacity (aq_new n) = n;
  aq_len_elems q : aq_len q = length (aq_elems q);
  aq_push_room x q : (length (aq_elems q) < aq_capacity q)%nat ->
    exists q', aq_force_push x q = (None, q') /\ aq_elems q' = aq_elems q ++ [x] /\ aq_capacity q' = aq_capacity q;
  aq_push_full x q y l : aq_elems q = y :: l -> length (y :: l) = aq_capacity q ->
    exists q', aq_force_push x q = (Some y, q') /\ aq_elems q' = l ++ [x] /\ aq_capacity q' = aq_capacity q;
  aq_pop_cons q y l : aq_elems q = y :: l ->
    exists q', aq_pop q = (Some y, q') /\ aq_elems q' = l /\ aq_capacity q' = aq_capacity q;
  aq_pop_nil q : aq_elems q = [] -> aq_pop q = (None, q) }.

#[export] Instance list_queue : ArrayQueue (nat * list VideoFrame) := {
  aq_new n := (n, []);
  aq_force_push x q := match q with
                       | (n, y :: l) => if (length (y :: l) <? n)%nat then (None, (n, y :: l ++ [x])) else (Some y, (n, l ++ [x]))
                       | (n, []) => (None, (n, [x]))
                       end;
  aq_pop q := match q with (n, y :: l) => (Some y, (n, l)) | (n, []) => (None, (n, [])) end;
  aq_len q := length q.2;
  aq_capacity q := q.1 }.

#[export] Program Instance list_queue_laws : ArrayQueueLaws (nat * list VideoFrame) := { aq_elems q := q.2 }.
Next Obligation. done. Qed.
Next Obligation. done. Qed.
Next Obligation. done. Qed.
Next Obligation.
  intros x [n [|y l]] H; [by eexists|].
  assert ((length (y :: l) <? n)%nat = true) as E by (by apply Nat.ltb_lt).
  eexists. unfold aq_force_push, list_queue. rewrite E. done.
Qed.
Next Obligation.
  intros x [n l'] y l E H. change (l' = y :: l) in E. subst l'.
  assert ((length (y :: l) <? n)%nat = false) as E by (apply Nat.ltb_ge; change n with (aq_capacity (n, y :: l)); lia).
  eexists. unfold aq_force_push, list_queue. rewrite E. done.
Qed.
Next Obligation. intros [n l'] y l E; cbn in *. subst l'. by eexists. Qed.
Next Obligation. intros [n l'] E; cbn in *. by subst l'. Qed.

Definition VIDEO_QUEUE_SIZE : nat := 120.
Definition MAX_DECODE_FAIL_COUNTER : Z := 3.

(** ** What the session and the player share *)

Inductive MediaData : Type :=
| VideoQueue
| KeyFrame (vf : VideoFrame)        (* [MediaData::VideoFrame] *)
| Reset
| RecordScreen (start : bool).

Record FpsControl : Type := mkFpsControl {
  refresh_times : Z; last_refresh_instant : option Z; idle_counter : Z; inactive_counter : Z }.

Section Play.
Context {Q : Type} `{AQ : ArrayQueue Q}.

Set Primitive Projections.

Record VideoThread : Type := mkVideoThread {
  video_queue : Q;
  video_sender : list MediaData;      (* what waits in the channel *)
  decode_fps : option Z;
  frame_count : Z;
  discard_queue : bool;
  fps_control : FpsControl }.

Unset Primitive Projections.

(** [new_video_thread], without the thread itself. *)
Definition new_thread : VideoThread :=
  mkVideoThread (aq_new VIDEO_QUEUE_SIZE) [] None 0 false (mkFpsControl 0 None 0 0).

Definition send (d : MediaData) (t : VideoThread) : VideoThread :=
  t <| video_sender := video_sender t ++ [d] |>.

(** A frame arrives; the flag asks for a refresh of the display. *)
Definition on_video_frame (vf : VideoFrame) (t : VideoThread) : bool * VideoThread :=
  if contains_key_frame vf then (false, send (KeyFrame vf) t)
  else
    let '(old, q) := aq_force_push vf (video_queue t) in
    let t := t <| video_queue := q |> in
    match old with
    | Some _ => (true, t)
    | None => (false, send VideoQueue t)
    end.

(** ** The player *)

Section Decoder.

(** The decoders: what a new decoder of a format is, whether it could be made,
    and what it makes of a frame (an image, no image, or an error), and the
    chroma it reports. *)
Context {Dec Chroma : Type} `{EqDecision Chroma}.
Context (dec_new : CodecFormat -> Dec) (dec_format : Dec -> CodecFormat) (dec_valid : Dec -> bool).
Context (dec_frame : Dec -> VfUnion -> result bool string * option Chroma * Dec).
(** Whether a recorder can be made. *)
Context (recorder_new : bool).

Record VideoHandler : Type := mkVideoHandler {
  decoder : Dec;
  recorder : bool;
  record : bool;
  fail_counter : Z;
  first_frame : bool }.

Definition handler_new (f : CodecFormat) : VideoHandler := mkVideoHandler (dec_new f) false false 0 true.

(** [VideoHandler::reset] *)
Definition reset (format : option CodecFormat) (h : VideoHandler) : VideoHandler :=
  let f := unwrap_or (dec_format (decoder h)) format in
  mkVideoHandler (dec_new f) (recorder h) (record h) 0 true.

(** [VideoHandler::record_screen] *)
Definition record_screen (start : bool) (h : VideoHandler) : VideoHandler :=
  mkVideoHandler (decoder h) (start && recorder_new) start (fail_counter h) (first_frame h).

(** [VideoHandler::handle_frame]: the result, the chroma and whether the frame
    was written to a recording. *)
Definition handle_frame (vf : VideoFrame) (h : VideoHandler) : result bool string * option Chroma * bool * VideoHandler :=
  let f := format_of vf in
  let h := if decide (f = dec_format (decoder h)) then h else reset (Some f) h in
  match vf_union vf with
  | Some frame =>
    let '(res, chroma, d) := dec_frame (decoder h) frame in
    let ok := match res with Ok true => true | _ => false end in
    let fails :=
      if ok then 0
      else if fail_counter h <? usize_MAX then
        if first_frame h && (fail_counter h <? MAX_DECODE_FAIL_COUNTER) then MAX_DECODE_FAIL_COUNTER
        else fail_counter h + 1
      else fail_counter h in
    (res, chroma, record h && recorder h, mkVideoHandler d (recorder h) (record h) fails false)
  | None => (Ok false, None, false, h)
  end.

(** [fps_calculate]; the duration is in nanoseconds. *)
Record Rate : Type := mkRate { skip_beginning : Z; count : Z; duration : Z }.

Definition fps_calculate (format_changed : bool) (elapsed : Z) (r : Rate) (fps : option Z) : Rate * option Z :=
  let r := if format_changed then mkRate 0 0 0 else r in
  if skip_beginning r <? 3 then (mkRate (skip_beginning r + 1) (count r) (duration r), fps)
  else
    let d := duration r + elapsed in
    let c := count r + 1 in
    let ms := d / 10 ^ 6 in
    let fps := if (c mod 10 =? 0) && (0 <? ms) then Some (c * 1000 / ms) else fps in
    (if 30 <=? c then mkRate (skip_beginning r) 0 0 else mkRate (skip_beginning r) c d, fps).

Record Player : Type := mkPlayer {
  video_handler : option VideoHandler;
  last_chroma : option Chroma;
  rate : Rate }.

Definition player_new : Player := mkPlayer None None (mkRate 0 0 0).

(** What a step of the player shows to the rest of the session. *)
Inductive PlayerOut : Type :=
| Handled (vf : VideoFrame)           (* the frame was given to the handler *)
| Shown (display : Z)                 (* [video_callback] *)
| ChromaChanged (c : option Chroma)
| Recorded
| RefreshVideo (display : Z)
| MarkUnsupported (f : CodecFormat).

(** What the player reads of the session's settings, and how long decoding
    takes in nanoseconds. *)
Record PlayerEnv : Type := mkPlayerEnv {
  record_state : bool; record_permission : bool; unsupported : list CodecFormat; elapsed : Z }.

(** A frame is decoded and shown. *)
Definition play (e : PlayerEnv) (vf : VideoFrame) (t : VideoThread) (p : Player)
  : list PlayerOut * VideoThread * Player :=
  let display := u64 (vf_display vf) in
  let h := match video_handler p with
           | Some h => h
           | None => let h := handler_new (format_of vf) in
                     if record_state e && record_permission e then record_screen true h else h
           end in
  let format_changed := negb (bool_decide (dec_format (decoder h) = format_of vf)) in
  let '(res, chroma, recorded, h) := handle_frame vf h in
  let '(outs, t, p) :=
    match res with
    | Ok true =>
      let new_chroma := match chroma with Some _ => negb (bool_decide (last_chroma p = chroma)) | None => false end in
      let '(r, fps) := fps_calculate format_changed (elapsed e) (rate p) (decode_fps t) in
      (Shown display :: (if new_chroma then [ChromaChanged chroma] else []),
       t <| frame_count := frame_count t + 1 |> <| decode_fps := fps |>,
       mkPlayer (Some h) (if new_chroma then chroma else last_chroma p) r)
    | Err _ => ([RefreshVideo display], t, mkPlayer (Some h) (last_chroma p) (rate p))
    | Ok false => ([], t, mkPlayer (Some h) (last_chroma p) (rate p))
    end in
  let bad := negb (dec_valid (decoder h)) || (MAX_DECODE_FAIL_COUNTER <=? fail_counter h) in
  let f := dec_format (decoder h) in
  let mark := if bad && negb (bool_decide (f ∈ unsupported e)) then [MarkUnsupported f] else [] in
  (Handled vf :: (if recorded then [Recorded] else []) ++ outs ++ mark, t, p).

(** The player takes the next item of its channel; [None] while it waits. *)
Definition player_step (e : PlayerEnv) (t : VideoThread) (p : Player) : option (list PlayerOut * VideoThread * Player) :=
  match video_sender t with
  | [] => None
  | d :: rest =>
    let t := t <| video_sender := rest |> in
    Some (match d with
          | KeyFrame vf => play e vf (t <| discard_queue := false |>) p
          | VideoQueue =>
            let '(vf, q) := aq_pop (video_queue t) in
            let t := t <| video_queue := q |> in
            match vf with
            | Some vf => if discard_queue t then ([], t, p) else play e vf t p
            | None => ([], t, p)
            end
          | Reset =>
            ([], t, mkPlayer (reset None <$> video_handler p) (last_chroma p) (rate p))
          | RecordScreen start =>
            ([], t, mkPlayer (record_screen start <$> video_handler p) (last_chroma p) (rate p))
          end)
  end.

End Decoder.
End Play.
End Player.
