(* ===== verification/VideoPlayerProofs.v ===== *)
(** * Theorems about playing video

    The session and the player of a display interleaved in any way: each token
    in the channel stands for one frame of the queue, and the frames are played
    in the order in which they arrived as long as the queue does not overflow. *)

From S2P Require Import Prelude RustStr VideoPlayer.

Module PlayerFacts.

Import Player.

Section Facts.
Context {Q : Type} {AQ : ArrayQueue Q} {AQL : ArrayQueueLaws Q}.
Context {Dec Chroma : Type} `{EqDecision Chroma}.
Context (dec_new : CodecFormat -> Dec) (dec_format : Dec -> CodecFormat) (dec_valid : Dec -> bool).
Context (dec_frame : Dec -> VfUnion -> result bool string * option Chroma * Dec) (recorder_new : bool).

Abbreviation PlayerT := (Player (Dec := Dec) (Chroma := Chroma)).
Abbreviation OutT := (PlayerOut (Chroma := Chroma)).
Abbreviation step_player := (player_step dec_new dec_format dec_valid dec_frame recorder_new).

(** ** The two sides interleaved *)

Inductive Event : Type :=
| Arrives (vf : VideoFrame)
| Discard                          (* the user asks for a refresh *)
| AskReset
| AskRecord (start : bool)
| Plays (e : PlayerEnv).

(** One event: whether the session asks for a refresh, and what the player does. *)
Definition happen (ev : Event) (t : VideoThread (Q := Q)) (p : PlayerT) : bool * list OutT * VideoThread * PlayerT :=
  match ev with
  | Arrives vf => let '(r, t) := on_video_frame vf t in (r, [], t, p)
  | Discard => (false, [], t <| discard_queue := true |>, p)
  | AskReset => (false, [], send Reset t, p)
  | AskRecord b => (false, [], send (RecordScreen b) t, p)
  | Plays e => match step_player e t p with
               | Some (o, t, p) => (false, o, t, p)
               | None => (false, [], t, p)
               end
  end.

(** The third component tells whether the queue overflowed. *)
Fixpoint watch (evs : list Event) (t : VideoThread (Q := Q)) (p : PlayerT) : list OutT * bool * VideoThread * PlayerT :=
  match evs with
  | [] => ([], false, t, p)
  | ev :: evs =>
    let '(r, o, t, p) := happen ev t p in
    let '(os, b, t, p) := watch evs t p in (o ++ os, r || b, t, p)
  end.

Definition handled (o : list OutT) : list VideoFrame :=
  omap (fun x => match x with Handled vf => Some vf | _ => None end) o.

Definition arrived (evs : list Event) : list VideoFrame :=
  omap (fun x => match x with Arrives vf => Some vf | _ => None end) evs.

Definition is_discard (ev : Event) : bool := match ev with Discard => true | _ => false end.

(** ** What waits *)

(** The frames in the order in which the player will take them. *)
Fixpoint expand (ch : list MediaData) (q : list VideoFrame) : list VideoFrame :=
  match ch with
  | [] => []
  | KeyFrame vf :: ch => vf :: expand ch q
  | VideoQueue :: ch => match q with x :: q => x :: expand ch q | [] => expand ch [] end
  | _ :: ch => expand ch q
  end.

Definition tokens (ch : list MediaData) : nat :=
  length (List.filter (fun d => match d with VideoQueue => true | _ => false end) ch).

Definition waiting (t : VideoThread) : list VideoFrame := expand (video_sender t) (aq_elems (video_queue t)).

Record sound (t : VideoThread) : Prop := mkSound {
  sound_tokens : tokens (video_sender t) = length (aq_elems (video_queue t));
  sound_room : (length (aq_elems (video_queue t)) <= aq_capacity (video_queue t))%nat;
  sound_capacity : aq_capacity (video_queue t) = VIDEO_QUEUE_SIZE }.

Lemma tokens_app a b : tokens (a ++ b) = (tokens a + tokens b)%nat.
Proof using. unfold tokens. by rewrite List.filter_app, length_app. Qed.

Lemma expand_app a b q1 q2 : tokens a = length q1 -> expand (a ++ b) (q1 ++ q2) = expand a q1 ++ expand b q2.
Proof using.
  revert q1. induction a as [|d a IH]; intros q1 H.
  - destruct q1; [done|discriminate].
  - destruct d; cbn [app expand].
    + destruct q1 as [|x q1]; [discriminate|]. cbn. f_equal. apply IH. by injection H.
    + cbn. f_equal. by apply IH.
    + by apply IH.
    + by apply IH.
Qed.

Lemma expand_key a vf q : expand (a ++ [KeyFrame vf]) q = expand a q ++ [vf].
Proof using.
  revert q. induction a as [|d a IH]; intros q; [done|].
  destruct d; [destruct q|..]; cbn; by rewrite IH.
Qed.

Lemma expand_control a d q : match d with Reset | RecordScreen _ => True | _ => False end ->
  expand (a ++ [d]) q = expand a q.
Proof using.
  intros Hd. revert q. induction a as [|x a IH]; intros q; [by destruct d|].
  destruct x; [destruct q|..]; cbn; by rewrite IH.
Qed.

Lemma expand_token a q x : tokens a = length q -> expand (a ++ [VideoQueue]) (q ++ [x]) = expand a q ++ [x].
Proof using. intros H. by rewrite expand_app. Qed.

Lemma sound_send t d : match d with VideoQueue => False | _ => True end -> sound t -> sound (send d t).
Proof using.
  intros Hd [H1 H2 H3]. split; [|done..]. unfold send. cbn [video_sender video_queue set_field].
  change (tokens (video_sender t ++ [d]) = length (aq_elems (video_queue t))). rewrite tokens_app, H1.
  destruct d; [done|cbn; lia..].
Qed.

(** ** One step of each side *)

Lemma frame_arrives vf t : sound t ->
  exists r t', on_video_frame vf t = (r, t') /\ sound t' /\ discard_queue t' = discard_queue t
    /\ (r = false -> waiting t' = waiting t ++ [vf]).
Proof using.
  intros Hs. pose proof Hs as [H1 H2 H3]. unfold on_video_frame. destruct (contains_key_frame vf).
  - eexists _, _. split; [reflexivity|]. split; [by apply sound_send|]. split; [done|]. intros _.
    unfold waiting, send. apply expand_key.
  - destruct (decide (length (aq_elems (video_queue t)) < aq_capacity (video_queue t))%nat) as [Hlt|Hge].
    + destruct (aq_push_room vf _ Hlt) as (q & Eq & He & Hc). rewrite Eq.
      eexists _, _. split; [reflexivity|]. split; [|split; [done|]].
      * split; unfold send; cbn [video_sender video_queue set_field].
        -- change (tokens (video_sender t ++ [VideoQueue]) = length (aq_elems q)).
           rewrite tokens_app, H1, He, length_app. done.
        -- change ((length (aq_elems q) <= aq_capacity q)%nat). rewrite He, Hc, length_app. cbn. lia.
        -- change (aq_capacity q = VIDEO_QUEUE_SIZE). by rewrite Hc.
      * intros _. unfold waiting, send. change (expand (video_sender t ++ [VideoQueue]) (aq_elems q) = waiting t ++ [vf]).
        rewrite He. by apply expand_token.
    + destruct (aq_elems (video_queue t)) as [|y l] eqn:El.
      * exfalso. apply Hge. rewrite H3. cbn. unfold VIDEO_QUEUE_SIZE. lia.
      * destruct (aq_push_full vf _ y l El) as (q & Eq & He & Hc); [cbn in *; lia|]. rewrite Eq.
        eexists _, _. split; [reflexivity|]. split; [|split; [done|done]].
        split; cbn [video_sender video_queue set_field].
        -- change (tokens (video_sender t) = length (aq_elems q)). rewrite He, H1, length_app. cbn. lia.
        -- change ((length (aq_elems q) <= aq_capacity q)%nat). rewrite He, Hc, length_app. cbn in *. lia.
        -- change (aq_capacity q = VIDEO_QUEUE_SIZE). by rewrite Hc.
Qed.

Lemma handled_quiet (o : list OutT) :
  Forall (fun x => match x with Handled _ => False | _ => True end) o -> handled o = [].
Proof using. induction 1 as [|x o Hx _ IH]; [done|]. by destruct x. Qed.

Lemma play_frame e vf (t : VideoThread (Q := Q)) (p : PlayerT) :
  exists (o : list OutT) (t' : VideoThread (Q := Q)) (p' : PlayerT),
    play dec_new dec_format dec_valid dec_frame recorder_new e vf t p = (o, t', p')
    /\ handled o = [vf] /\ video_queue t' = video_queue t /\ video_sender t' = video_sender t
    /\ discard_queue t' = discard_queue t.
Proof using.
  unfold play. destruct (handle_frame _ _ _ _ _) as [[[res ch] rec] h].
  assert (forall a b : list OutT, handled a = [] -> handled b = [] -> handled (a ++ b) = []) as Happ
    by (intros a b Ha Hb; unfold handled in *; by rewrite omap_app, Ha, Hb).
  destruct res as [[]|]; [destruct (fps_calculate _ _ _ _) as [r fps]|..]; eexists _, _, _; (split; [reflexivity|]);
    (split; [|done]); cbn [handled omap list_omap]; f_equal; apply Happ; try apply Happ;
    apply handled_quiet; repeat case_match; repeat constructor.
Qed.

(** The player takes the next waiting frame, plays it or throws it away. *)
Lemma player_takes e t p : sound t ->
  match step_player e t p with
  | None => video_sender t = []
  | Some (o, t', _) =>
    sound t' /\ length (video_sender t) = S (length (video_sender t'))
    /\ (discard_queue t = false -> discard_queue t' = false)
    /\ (handled o = [] /\ waiting t' = waiting t
        \/ exists vf, waiting t = vf :: waiting t'
             /\ (handled o = [vf] \/ handled o = [] /\ discard_queue t = true))
  end.
Proof using AQL.
  intros [H1 H2 H3]. unfold player_step, waiting. destruct (video_sender t) as [|d ch] eqn:Ech; [done|].
  destruct d as [|vf| |b].
  - change (tokens (VideoQueue :: ch)) with (S (tokens ch)) in H1.
    change (video_queue (t <| video_sender := ch |>)) with (video_queue t).
    destruct (aq_elems (video_queue t)) as [|x l] eqn:El; [discriminate|].
    destruct (aq_pop_cons _ x l El) as (q & Eq & He & Hc). rewrite Eq.
    assert (tokens ch = length l) as Ht by (by injection H1).
    assert (length l <= aq_capacity (video_queue t))%nat as Hr by (cbn in H2; lia).
    change (discard_queue (t <| video_sender := ch |> <| video_queue := q |>)) with (discard_queue t).
    destruct (discard_queue t) eqn:Ed.
    + split; [split; cbn; rewrite ?He, ?Hc; done|]. split; [done|]. split; [done|]. right. exists x.
      cbn. rewrite He. split; [done|by right].
    + destruct (play_frame e x (t <| video_sender := ch |> <| video_queue := q |>) p) as (o & t' & p' & Ep & Ho & Hq & Hs & Hd).
      rewrite Ep. cbn in Hq, Hs, Hd. split; [split; rewrite ?Hq, ?Hs, ?He, ?Hc; done|]. rewrite Hs, Hd.
      split; [done|]. split; [done|]. right. exists x. rewrite Hq, He. split; [done|by left].
  - change (tokens (KeyFrame vf :: ch)) with (tokens ch) in H1.
    destruct (play_frame e vf (t <| video_sender := ch |> <| discard_queue := false |>) p) as (o & t' & p' & Ep & Ho & Hq & Hs & Hd).
    rewrite Ep. cbn in Hq, Hs, Hd. split; [split; rewrite ?Hq, ?Hs; done|]. rewrite Hs, Hd. split; [done|]. split; [done|].
    right. exists vf. rewrite Hq. split; [done|by left].
  - split; [by split|]. split; [done|]. split; [done|]. by left.
  - split; [by split|]. split; [done|]. split; [done|]. by left.
Qed.

Lemma watch_waits evs : forall t p o t' p',
  sound t -> watch evs t p = (o, false, t', p') ->
  sound t' /\ handled o ++ waiting t' `sublist_of` waiting t ++ arrived evs
  /\ (discard_queue t = false -> existsb is_discard evs = false ->
      handled o ++ waiting t' = waiting t ++ arrived evs).
Proof using AQL.
  induction evs as [|ev evs IH]; intros t p o t' p' Hs Hw.
  - injection Hw as <- <- <-. cbn. rewrite app_nil_r. done.
  - cbn [watch] in Hw. destruct (happen ev t p) as [[[r o1] t1] p1] eqn:E1.
    destruct (watch evs t1 p1) as [[[o2 b] t2] p2] eqn:E2. injection Hw as <- Hb <- <-.
    apply orb_false_iff in Hb as [-> ->].
    assert (handled (o1 ++ o2) = handled o1 ++ handled o2) as Ho by apply omap_app. rewrite Ho.
    rewrite <- app_assoc.
    destruct ev as [vf| | |st|e]; cbn [happen] in E1.
    + destruct (frame_arrives vf t Hs) as (r & t1' & Ea & Hs1 & Hd & Hwait). rewrite Ea in E1.
      injection E1 as -> <- <- <-. destruct (IH _ _ _ _ _ Hs1 E2) as (H1 & H2 & H3). specialize (Hwait eq_refl).
      cbn [arrived omap list_omap handled app]. fold (arrived evs).
      rewrite Hwait, <- app_assoc in H2, H3. rewrite Hd in H3. done.
    + injection E1 as <- <- <-. assert (sound (t <| discard_queue := true |>)) as Hs1 by (by destruct Hs).
      destruct (IH _ _ _ _ _ Hs1 E2) as (H1 & H2 & _). split; [done|]. split; [done|]. intros _ H. discriminate H.
    + injection E1 as <- <- <-. assert (sound (send Reset t)) as Hs1 by (by apply sound_send).
      destruct (IH _ _ _ _ _ Hs1 E2) as (H1 & H2 & H3).
      assert (waiting (send Reset t) = waiting t) as Hw by (by apply (expand_control _ Reset)). rewrite Hw in H2, H3. done.
    + injection E1 as <- <- <-. assert (sound (send (RecordScreen st) t)) as Hs1 by (by apply sound_send).
      destruct (IH _ _ _ _ _ Hs1 E2) as (H1 & H2 & H3).
      assert (waiting (send (RecordScreen st) t) = waiting t) as Hw by (by apply (expand_control _ (RecordScreen st))).
      rewrite Hw in H2, H3. done.
    + pose proof (player_takes e t p Hs) as Ht. destruct (step_player e t p) as [[[o' t1'] p1']|]; cycle 1.
      { injection E1 as <- <- <-. exact (IH _ _ _ _ _ Hs E2). }
      injection E1 as <- <- <-. destruct Ht as (Hs1 & _ & Hd & [[Hh Hwt]|(vf & Hwt & Hh)]).
      all: destruct (IH _ _ _ _ _ Hs1 E2) as (H1 & H2 & H3); split; [done|].
      * rewrite Hh, <- Hwt. cbn [app]. split; [done|]. intros Hd0. apply H3. by apply Hd.
      * change (arrived (Plays e :: evs)) with (arrived evs). rewrite Hwt.
        destruct Hh as [->|[-> Hdis]]; cbn [app].
        -- split; [by apply sublist_skip|]. intros Hd0 Hn. f_equal. apply H3; [by apply Hd|done].
        -- split; [by apply sublist_cons|]. congruence.
Qed.

Lemma drains es : forall t p, sound t -> (length (video_sender t) <= length es)%nat ->
  exists o t' p', watch (map Plays es) t p = (o, false, t', p') /\ waiting t' = [].
Proof using AQL.
  induction es as [|e es IH]; intros t p Hs Hl; cbn [map watch happen].
  - eexists _, _, _. split; [reflexivity|]. unfold waiting. destruct (video_sender t); [done|cbn in Hl; lia].
  - pose proof (player_takes e t p Hs) as Ht. destruct (step_player e t p) as [[[o t1] p1]|].
    + destruct Ht as (Hs1 & Hlen & _). destruct (IH t1 p1 Hs1) as (o' & t' & p' & E & Hw); [cbn in Hl; lia|].
      rewrite E. eexists _, _, _. done.
    + destruct (IH t p Hs) as (o' & t' & p' & E & Hw); [by rewrite Ht; cbn; lia|]. rewrite E. eexists _, _, _. done.
Qed.

Lemma sound_new : sound new_thread.
Proof using AQL.
  split; unfold new_thread; cbn [video_sender video_queue].
  - by rewrite aq_new_elems.
  - rewrite aq_new_elems. cbn. lia.
  - apply aq_new_capacity.
Qed.

(** C24. Video is played in the order in which it arrives.  However the arrival
    of frames, refreshes, resets and recording interleave with the player, as
    long as the queue does not overflow, the frames given to the decoder
    together with those that still wait are frames that arrived, in their order
    and each once; without a refresh they are all of them; and the player has
    nothing left to play after as many steps as there are items in its channel. *)
Theorem frames_in_order evs o t p :
  watch evs new_thread player_new = (o, false, t, p) ->
  handled o ++ waiting t `sublist_of` arrived evs
  /\ (existsb is_discard evs = false -> handled o ++ waiting t = arrived evs)
  /\ forall es, (length (video_sender t) <= length es)%nat ->
       exists o' t' p', watch (map Plays es) t p = (o', false, t', p') /\ waiting t' = [].
Proof using AQL.
  intros H. destruct (watch_waits evs _ _ _ _ _ sound_new H) as (Hs & H1 & H2).
  assert (waiting new_thread = []) as Hn by done. rewrite Hn in H1, H2.
  split; [done|]. split; [by apply H2|]. intros es. by apply drains.
Qed.

End Facts.

(** ** A player whose decoder accepts every frame *)

Definition demo_key (n : Z) : VideoFrame := mkVideoFrame 0 (Some (Vp9s [mkEncoded true [n]])).
Definition demo_delta (n : Z) : VideoFrame := mkVideoFrame 0 (Some (Vp9s [mkEncoded false [n]])).
Definition demo_env : PlayerEnv := mkPlayerEnv false true [] (10 ^ 7).

Definition demo_watch (evs : list Event) :=
  watch (Q := nat * list VideoFrame) (Dec := CodecFormat) (Chroma := bool)
    (fun f => f) (fun f => f) (fun _ => true) (fun d _ => (Ok true, None, d)) true evs new_thread player_new.

Lemma frames_in_order_witness :
  let evs := [Arrives (demo_key 1); Arrives (demo_delta 2); Plays demo_env; Arrives (demo_delta 3); Plays demo_env] in
  let '(o, b, t, p) := demo_watch evs in
  b = false /\ handled o ++ waiting t = [demo_key 1; demo_delta 2; demo_delta 3].
Proof.
  cbn zeta. destruct (demo_watch _) as [[[o b] t] p] eqn:E.
  assert (b = false) as -> by (apply (f_equal (fun x => x.1.1.2)) in E; by vm_compute in E).
  split; [done|]. by apply (frames_in_order _ _ _ _ _ _ o t p E).
Defined.

(** When the queue overflows a token is missing, and a frame that came after a
    key frame is played before it (unless the refresh that is asked for has set
    [discard_queue] by then). *)
Example overflow_reorders :
  let deltas := map (fun n => demo_delta (Z.of_nat n)) (seq 1 120) in
  let evs := map Arrives deltas ++ [Arrives (demo_key 121); Arrives (demo_delta 122)] ++ repeat (Plays demo_env) 121 in
  let '(o, b, _, _) := demo_watch evs in
  b = true /\ handled o = tail deltas ++ [demo_delta 122; demo_key 121].
Proof. vm_compute. done. Qed.

End PlayerFacts.
