(* ===== verification/Codec.v ===== *)
(** * Choosing the codec ([libs/scrap/src/common/codec.rs])

    [Encoder::update] negotiates one codec for all viewers from what each can
    decode and would like; [Decoder::supported_decodings] is what a viewer says.
    [Negotiation] is the process-wide state [PEER_DECODINGS],
    [ENCODE_CODEC_FORMAT], [USABLE_ENCODING].  The video memory encoders are
    Windows only; the hardware encoders are what [HwRamEncoder::try_get] finds
    (nothing in a build without [hwcodec]).  The codec libraries are the class
    [VideoLib].

    - [Negotiation]: the updates, the fallback, the chroma.
    - [Decode]: what a decoder says and does.
    - [Size]: bit rate and threads. *)

From S2P Require Import Prelude RustStr F32 VideoQos Messages VideoPlayer.

Module Codec.

Import Msg.

Module P := VideoPlayer.Player.

(** ** Negotiation *)

Record SupportedEncoding : Type := mkSupportedEncoding {
  se_h264 : bool; se_h265 : bool; se_vp8 : bool; se_av1 : bool; se_i444 : option CodecAbility }.

Inductive EncodingUpdate : Type :=
| Update (id : Z) (d : SupportedDecoding)
| Remove (id : Z)
| NewOnlyVP9 (id : Z)
| Check_.

Record Negotiation : Type := mkNegotiation {
  peer_decodings : gmap Z SupportedDecoding;
  encode_codec_format : P.CodecFormat;
  usable_encoding : option SupportedEncoding }.

Definition negotiation_default : Negotiation := mkNegotiation ∅ P.VP9 None.

(** Surroundings: a 32 bit platform, the hardware encoders, the option
    [av1-test], the memory, and the order in which the hash map of the peers is
    walked, which is arbitrary. *)
Record CodecEnv : Type := mkCodecEnv {
  disable_av1 : bool;
  hw_encoder : P.CodecFormat -> option string;
  av1_test : string;
  total_memory : Z;
  iter : gmap Z SupportedDecoding -> list (Z * SupportedDecoding) }.

Definition fair_iter (e : CodecEnv) : Prop := forall m, iter e m ≡ₚ map_to_list m.

Definition decoding_default : SupportedDecoding := mkSupportedDecoding 0 0 0 (Some PC_Auto) 0 0 None (Some I420).

(** The peers after the update. *)
Definition apply_update (u : EncodingUpdate) (m : gmap Z SupportedDecoding) : gmap Z SupportedDecoding :=
  match u with
  | Update id d => <[ id := d ]> m
  | Remove id => delete id m
  | NewOnlyVP9 id =>
    <[ id := mkSupportedDecoding 1 0 0 (Some PC_Auto) 0 0 None (Some I420) ]> m
  | Check_ => m
  end.

Definition all_peers (e : CodecEnv) (m : gmap Z SupportedDecoding) (ability : SupportedDecoding -> Z) : bool :=
  negb (Nat.eqb (stdpp.base.size m) 0) && forallb (fun x => 0 <? ability x.2) (iter e m).

Definition vp8_useable (e : CodecEnv) (m : gmap Z SupportedDecoding) : bool := all_peers e m ability_vp8.
Definition av1_useable (e : CodecEnv) (m : gmap Z SupportedDecoding) : bool :=
  all_peers e m ability_av1 && negb (disable_av1 e).
(** [h264hw_encoding], [h265hw_encoding] *)
Definition h264hw_encoding (e : CodecEnv) (m : gmap Z SupportedDecoding) : option string :=
  if all_peers e m ability_h264 then hw_encoder e P.H264 else None.
Definition h265hw_encoding (e : CodecEnv) (m : gmap Z SupportedDecoding) : option string :=
  if all_peers e m ability_h265 then hw_encoder e P.H265 else None.

Definition h264_useable (e : CodecEnv) (m : gmap Z SupportedDecoding) : bool :=
  all_peers e m ability_h264 && bool_decide (is_Some (h264hw_encoding e m)).
Definition h265_useable (e : CodecEnv) (m : gmap Z SupportedDecoding) : bool :=
  all_peers e m ability_h265 && bool_decide (is_Some (h265hw_encoding e m)).

(** Whether a preference can be followed. *)
Definition followable (e : CodecEnv) (m : gmap Z SupportedDecoding) (p : option PreferCodec) : bool :=
  match p with
  | Some PC_VP9 => true
  | Some PC_VP8 => vp8_useable e m
  | Some PC_AV1 => av1_useable e m
  | Some PC_H264 => h264_useable e m
  | Some PC_H265 => h265_useable e m
  | _ => false
  end.

Definition preferences (e : CodecEnv) (m : gmap Z SupportedDecoding) : list (option PreferCodec) :=
  map (fun x => prefer x.2) (List.filter (fun x => followable e m (prefer x.2)) (iter e m)).

(** The occurrences of each preference, in the order of their first ones. *)
Fixpoint count_one (p : option PreferCodec) (counts : list (option PreferCodec * Z)) : list (option PreferCodec * Z) :=
  match counts with
  | [] => [(p, 1)]
  | (q, n) :: l => if decide (q = p) then (q, n + 1) :: l else (q, n) :: count_one p l
  end.

Definition count_all (l : list (option PreferCodec)) : list (option PreferCodec * Z) :=
  fold_left (fun counts p => count_one p counts) l [].

Definition max_count (counts : list (option PreferCodec * Z)) : Z := foldr Z.max 0 (map snd counts).

Definition most_frequent (l : list (option PreferCodec)) : option PreferCodec :=
  let counts := count_all l in
  match List.find (fun x => snd x =? max_count counts) counts with
  | Some (p, _) => p
  | None => Some PC_Auto
  end.

Definition auto_codec (e : CodecEnv) (m : gmap Z SupportedDecoding) : P.CodecFormat :=
  let c := if av1_useable e m && negb (String.eqb (av1_test e) "N") then P.AV1 else P.VP9 in
  let c := if h264_useable e m then P.H264 else c in
  let c := if h265_useable e m then P.H265 else c in
  if bool_decide (c = P.VP9) || bool_decide (c = P.AV1) then
    if vp8_useable e m && (total_memory e <=? 4 * 1024 * 1024 * 1024) then P.VP8 else c
  else c.

Definition chosen (e : CodecEnv) (m : gmap Z SupportedDecoding) : P.CodecFormat :=
  match unwrap_or PC_Auto (most_frequent (preferences e m)) with
  | PC_VP8 => P.VP8
  | PC_VP9 => P.VP9
  | PC_AV1 => P.AV1
  | PC_H264 => if bool_decide (is_Some (h264hw_encoding e m)) then P.H264 else auto_codec e m
  | PC_H265 => if bool_decide (is_Some (h265hw_encoding e m)) then P.H265 else auto_codec e m
  | PC_Auto => auto_codec e m
  end.

(** [Encoder::update] *)
Definition update (e : CodecEnv) (u : EncodingUpdate) (s : Negotiation) : Negotiation :=
  let m := apply_update u (peer_decodings s) in
  mkNegotiation m (chosen e m)
    (Some (mkSupportedEncoding (h264_useable e m) (h265_useable e m) (vp8_useable e m) (av1_useable e m) None)).

Fixpoint updates (e : CodecEnv) (us : list EncodingUpdate) (s : Negotiation) : Negotiation :=
  match us with [] => s | u :: us => updates e us (update e u s) end.

Definition negotiated_codec (s : Negotiation) : P.CodecFormat := encode_codec_format s.

Definition all_i444 : CodecAbility := mkCodecAbility false true true false false.

Definition supported_encoding (e : CodecEnv) : SupportedEncoding :=
  mkSupportedEncoding (bool_decide (is_Some (hw_encoder e P.H264))) (bool_decide (is_Some (hw_encoder e P.H265)))
    true (negb (disable_av1 e)) (Some all_i444).

(** The configuration of an encoder. *)
Inductive VpxVideoCodecId : Type := IdVP8 | IdVP9.
Record EncoderSize : Type := mkEncoderSize { e_width : Z; e_height : Z; e_quality : f32; keyframe_interval : option Z }.
Inductive EncoderCfg : Type :=
| VPX (codec : VpxVideoCodecId) (c : EncoderSize)
| AOM (c : EncoderSize)
| HWRAM (name : string) (c : EncoderSize).

Definition cfg_format (c : EncoderCfg) : P.CodecFormat :=
  match c with
  | VPX IdVP8 _ => P.VP8
  | VPX IdVP9 _ => P.VP9
  | AOM _ => P.AV1
  | HWRAM n _ =>
    let n := to_lowercase n in
    if contains_str "vp8" n then P.VP8
    else if contains_str "vp9" n then P.VP9
    else if contains_str "av1" n then P.AV1
    else if contains_str "h264" n then P.H264
    else P.H265
  end.

Definition set_fallback (c : EncoderCfg) (s : Negotiation) : Negotiation :=
  mkNegotiation (peer_decodings s) (cfg_format c) (usable_encoding s).

Definition ability_i444 (f : CodecAbility -> bool) (d : SupportedDecoding) : bool :=
  match i444 d with Some a => f a | None => false end.

Definition use_i444 (e : CodecEnv) (c : EncoderCfg) (s : Negotiation) : bool :=
  let l := iter e (peer_decodings s) in
  let prefer_i444 := forallb (fun d => bool_decide (prefer_chroma d.2 = Some I444)) l in
  let i444_useable := match c with
                      | VPX IdVP8 _ => false
                      | VPX IdVP9 _ => forallb (fun d => ability_i444 ca_vp9 d.2) l
                      | AOM _ => forallb (fun d => ability_i444 ca_av1 d.2) l
                      | HWRAM _ _ => false
                      end in
  prefer_i444 && i444_useable && negb (Nat.eqb (stdpp.base.size (peer_decodings s)) 0).

(** ** Decoders *)

(** [Decoder::preference], on the options stored for the peer. *)
Definition preference (id : option string) (options : gmap string string) : PreferCodec * Chroma :=
  if String.eqb (unwrap_or "" id) "" then (PC_Auto, I420)
  else
    let codec := unwrap_or "" (options !! "codec-preference") in
    (if String.eqb codec "vp8" then PC_VP8
     else if String.eqb codec "vp9" then PC_VP9
     else if String.eqb codec "av1" then PC_AV1
     else if String.eqb codec "h264" then PC_H264
     else if String.eqb codec "h265" then PC_H265
     else PC_Auto,
     if bool_decide (options !! "i444" = Some "Y") then I444 else I420).

Definition mark (d : SupportedDecoding) (f : P.CodecFormat) : SupportedDecoding :=
  let '(mkSupportedDecoding vp9 h264 h265 p vp8 av1 i c) := d in
  match f with
  | P.VP8 => mkSupportedDecoding vp9 h264 h265 p 0 av1 i c
  | P.VP9 => mkSupportedDecoding 0 h264 h265 p vp8 av1 i c
  | P.AV1 => mkSupportedDecoding vp9 h264 h265 p vp8 0 i c
  | P.H264 => mkSupportedDecoding vp9 0 h265 p vp8 av1 i c
  | P.H265 => mkSupportedDecoding vp9 h264 0 p vp8 av1 i c
  | P.Unknown => d
  end.

(** [Decoder::supported_decodings]; [hw_decoder] is what [HwRamDecoder::try_get]
    finds. *)
Definition supported_decodings (e : CodecEnv) (hw_decoder : P.CodecFormat -> bool) (id : option string)
  (options : gmap string string) (mark_unsupported : list P.CodecFormat) : SupportedDecoding :=
  let '(p, c) := preference id options in
  fold_left mark mark_unsupported
    (mkSupportedDecoding 1 (Z.b2z (hw_decoder P.H264)) (Z.b2z (hw_decoder P.H265)) (Some p) 1
       (if disable_av1 e then 0 else 1) (Some all_i444) (Some c)).

(** The decoders of libvpx and libaom: a new one of a format, one packet, the
    frames still inside, and the chroma of an image. *)
Class VideoLib : Type := {
  RawDecoder : Type;
  Image : Type;
  vl_new : P.CodecFormat -> option RawDecoder;
  vl_decode : RawDecoder -> list Z -> result (list Image) string * RawDecoder;
  vl_flush : RawDecoder -> result (list Image) string * RawDecoder;
  vl_chroma : Image -> Chroma }.

Section Decode.
Context {VL : VideoLib}.

Record Decoder : Type := mkDecoder {
  vp8 : option RawDecoder; vp9 : option RawDecoder; av1 : option RawDecoder;
  d_format : P.CodecFormat; d_valid : bool }.

(** [Decoder::new] *)
Definition decoder_new (f : P.CodecFormat) : Decoder :=
  match f with
  | P.VP8 => let d := vl_new f in mkDecoder d None None f (bool_decide (is_Some d))
  | P.VP9 => let d := vl_new f in mkDecoder None d None f (bool_decide (is_Some d))
  | P.AV1 => let d := vl_new f in mkDecoder None None d f (bool_decide (is_Some d))
  | _ => mkDecoder None None None f false
  end.

(** The packets of a message, keeping the last image. *)
Fixpoint decode_packets (d : RawDecoder) (l : list P.Encoded) (last_frame : option Image)
  : result (option Image) string * RawDecoder :=
  match l with
  | [] =>
    match vl_flush d with
    | (Ok fs, d) => (Ok (match last fs with Some f => Some f | None => last_frame end), d)
    | (Err e, d) => (Err e, d)
    end
  | p :: l =>
    match vl_decode d (P.payload p) with
    | (Ok fs, d) => decode_packets d l (match last fs with Some f => Some f | None => last_frame end)
    | (Err e, d) => (Err e, d)
    end
  end.

(** [handle_vpxs_video_frame], [handle_av1s_video_frame]: the image is what
    is written to [rgb]. *)
Definition handle_packets (d : RawDecoder) (l : list P.Encoded)
  : result (option Image) string * RawDecoder := decode_packets d l None.

(** [Decoder::handle_video_frame] *)
Definition handle_video_frame (d : Decoder) (frame : P.VfUnion)
  : result bool string * option Chroma * option Image * Decoder :=
  let run raw l put missing :=
    match raw with
    | Some r =>
      match handle_packets r l with
      | (Ok (Some img), r) => (Ok true, Some (vl_chroma img), Some img, put (Some r))
      | (Ok None, r) => (Ok false, None, None, put (Some r))
      | (Err e, r) => (Err e, None, None, put (Some r))
      end
    | None => (Err missing, None, None, d)
    end in
  match frame with
  | P.Vp8s l => run (vp8 d) l (fun r => mkDecoder r (vp9 d) (av1 d) (d_format d) (d_valid d)) "vp8 decoder not available"
  | P.Vp9s l => run (vp9 d) l (fun r => mkDecoder (vp8 d) r (av1 d) (d_format d) (d_valid d)) "vp9 decoder not available"
  | P.Av1s l => run (av1 d) l (fun r => mkDecoder (vp8 d) (vp9 d) r (d_format d) (d_valid d)) "av1 decoder not available"
  | _ => (Err "unsupported video frame type!", None, None, d)
  end.

End Decode.

(** ** Bit rate and threads *)

Definition RESOLUTION_PRESETS : list (Z * Z * Z) :=
  [(640, 480, 400); (800, 600, 500); (1024, 768, 800); (1280, 720, 1000); (1366, 768, 1100); (1440, 900, 1300);
   (1600, 900, 1500); (1920, 1080, 2073); (2048, 1080, 2200); (2560, 1440, 3000); (3440, 1440, 4000);
   (3840, 2160, 5000); (7680, 4320, 12000)].

(** [min_by_key]: the first of the least. *)
Fixpoint min_by_key {A} (key : A -> Z) (l : list A) : option A :=
  match l with
  | [] => None
  | x :: l =>
    match min_by_key key l with
    | Some y => if key x <=? key y then Some x else Some y
    | None => Some x
    end
  end.

(** [f32::round]: half away from zero. *)
Definition fround (x : f32) : f32 :=
  match x with
  | S754_finite s m e =>
    if 0 <=? e then x
    else
      let r := (2 * Z.pos m + 2 ^ (- e)) / (2 * 2 ^ (- e)) in
      f32_of_Z (if s then - r else r)
  | _ => x
  end.

Definition base_bitrate (width height : Z) : Z :=
  let pixels := u32 (width * height) in
  let '(preset_pixels, preset_bitrate) :=
    unwrap_or (1920 * 1080, 2073)
      (min_by_key (fun x => Z.abs (fst x - pixels)) (map (fun '(w, h, b) => (w * h, b)) RESOLUTION_PRESETS)) in
  f32_as_u32 (fround (fmul (f32_of_Z preset_bitrate) (fdiv (f32_of_Z pixels) (f32_of_Z preset_pixels)))).

(** [codec_thread_num]: [idle] is half of the idle processors, rounded, and
    [memory] the available memory in gibibytes. *)
Definition codec_thread_num (max idle memory limit : Z) : Z :=
  let res := Z.min (Z.min idle (max / 2)) (memory / 2) in
  let res := if 64 <=? res then 64 else if 32 <=? res then 32 else if 16 <=? res then 16
             else if 8 <=? res then 8 else if 4 <=? res then 4 else if 2 <=? res then 2 else 1 in
  Z.min res limit.

End Codec.
