(* ===== verification/CodecProofs.v ===== *)
(** * Theorems about the choice of the codec

    - every viewer can decode the codec chosen, unless it is VP9;
    - the most wanted codec among those everybody can decode is chosen;
    - a codec a viewer has marked as not working is not used, except VP9;
    - VP9 is chosen without asking whether anybody can decode it. *)

From S2P Require Import Prelude RustStr F32 VideoQos Messages VideoPlayer Codec.

Module CodecFacts.

Import Msg Codec.

Module P := VideoPlayer.Player.

(** The ability a format needs. *)
Definition ability (f : P.CodecFormat) : SupportedDecoding -> Z :=
  match f with
  | P.VP8 => ability_vp8 | P.VP9 => ability_vp9 | P.AV1 => ability_av1
  | P.H264 => ability_h264 | P.H265 => ability_h265 | P.Unknown => fun _ => 0
  end.

Definition encodable (e : CodecEnv) (f : P.CodecFormat) : Prop :=
  match f with
  | P.H264 | P.H265 => is_Some (hw_encoder e f)
  | P.AV1 => disable_av1 e = false
  | P.VP8 | P.VP9 => True
  | P.Unknown => False
  end.

(** Every viewer decodes it and this machine encodes it. *)
Definition usable (e : CodecEnv) (m : gmap Z SupportedDecoding) (f : P.CodecFormat) : Prop :=
  m <> ∅ /\ map_Forall (fun _ d => 0 < ability f d) m /\ encodable e f.

(** ** Counting preferences *)

Definition votes (p : option PreferCodec) (l : list (option PreferCodec)) : Z :=
  len (List.filter (fun q => bool_decide (q = p)) l).

Definition entry (p : option PreferCodec) (counts : list (option PreferCodec * Z)) : Z :=
  foldr Z.add 0 (map snd (List.filter (fun x => bool_decide (fst x = p)) counts)).

Lemma entry_cons p q n c : entry p ((q, n) :: c) = (if decide (q = p) then n else 0) + entry p c.
Proof. unfold entry. cbn [List.filter fst]. case_bool_decide; case_decide; try done; cbn; lia. Qed.

Lemma votes_cons p q l : votes p (q :: l) = (if decide (q = p) then 1 else 0) + votes p l.
Proof.
  unfold votes. cbn [List.filter]. case_bool_decide; case_decide; try done; unfold len; cbn [length]; lia.
Qed.

Lemma entry_count_one p q c : entry p (count_one q c) = entry p c + (if decide (q = p) then 1 else 0).
Proof.
  induction c as [|[r n] c IH]; cbn [count_one].
  - rewrite entry_cons. unfold entry. cbn. lia.
  - destruct (decide (r = q)) as [->|Hr]; rewrite !entry_cons; [|rewrite IH]; repeat case_decide; try lia; congruence.
Qed.

Definition proper (c : list (option PreferCodec * Z)) : Prop := NoDup (map fst c) /\ Forall (fun x => 0 < snd x) c.

Lemma keys_count_one q c : map fst (count_one q c) = if bool_decide (q ∈ map fst c) then map fst c else map fst c ++ [q].
Proof.
  induction c as [|[r n] c IH]; cbn [count_one map fst]; [by rewrite bool_decide_false by apply not_elem_of_nil|].
  destruct (decide (r = q)) as [->|Hr]; cbn [map fst]; [by rewrite bool_decide_true by (by left)|].
  rewrite IH. case_bool_decide as H1; case_bool_decide as H2; try done.
  - destruct H2. by right.
  - apply elem_of_cons in H2 as [->|]; done.
Qed.

Lemma proper_count_one q c : proper c -> proper (count_one q c).
Proof.
  intros [H1 H2]. split.
  - rewrite keys_count_one. case_bool_decide as H; [done|]. apply NoDup_app. split; [done|]. split; [|apply NoDup_singleton].
    intros x Hx Hy. apply list_elem_of_singleton in Hy as ->. done.
  - clear H1. induction c as [|[r n] c IH]; cbn [count_one]; [by repeat constructor|].
    apply Forall_cons in H2 as [H2 H3]. cbn in H2. destruct (decide (r = q)); constructor; cbn; auto; lia.
Qed.

Lemma count_all_spec l : proper (count_all l) /\ forall p, entry p (count_all l) = votes p l.
Proof.
  unfold count_all. assert (proper []) as H0 by (split; constructor).
  assert (forall p, entry p (fold_left (fun c q => count_one q c) l []) = entry p [] + votes p l) as H.
  { intros p. generalize (@nil (option PreferCodec * Z)). induction l as [|q l IH]; intros c; cbn [fold_left].
    - unfold votes, len. cbn. lia.
    - rewrite IH, entry_count_one, votes_cons. lia. }
  split; [|exact H]. clear H. revert H0. generalize (@nil (option PreferCodec * Z)).
  induction l as [|q l IH]; intros c Hc; [done|]. apply IH. by apply proper_count_one.
Qed.

Lemma proper_entry c p n : proper c -> (p, n) ∈ c -> entry p c = n.
Proof.
  intros [H _]. revert H. induction c as [|[q k] c IH]; intros Hn Hin; [by apply elem_of_nil in Hin|].
  cbn in Hn. apply NoDup_cons in Hn as [Hq Hn]. rewrite entry_cons. apply elem_of_cons in Hin as [[= <- <-]|Hin].
  - rewrite decide_True by done. assert (entry p c = 0) as ->; [|lia].
    clear IH Hn. induction c as [|[r j] c IH]; [done|]. cbn in Hq. rewrite entry_cons.
    rewrite decide_False by (intros ->; apply Hq; by left). rewrite IH; [lia|]. intros H. apply Hq. by right.
  - rewrite decide_False; [rewrite (IH Hn Hin); lia|]. intros ->. apply Hq. apply list_elem_of_In, in_map_iff.
    exists (p, n). split; [done|]. by apply list_elem_of_In.
Qed.

Lemma max_count_spec c : c <> [] -> Forall (fun x => 0 < snd x) c ->
  (exists x, x ∈ c /\ snd x = max_count c) /\ forall x, x ∈ c -> snd x <= max_count c.
Proof.
  intros Hc Hp. split.
  - induction Hp as [|x c Hx Hp IH]; [done|]. unfold max_count in *. cbn [map foldr].
    destruct c as [|y c]; [exists x; split; [by left|cbn; lia]|].
    destruct (IH ltac:(done)) as (z & Hz & Hm). destruct (Z.max_dec (snd x) (foldr Z.max 0 (map snd (y :: c)))) as [->| ->].
    + exists x. split; [by left|done].
    + exists z. split; [by right|done].
  - clear. induction c as [|y c IH]; intros x Hx; [by apply elem_of_nil in Hx|].
    unfold max_count in *. cbn [map foldr]. apply elem_of_cons in Hx as [->|Hx]; [lia|]. specialize (IH x Hx). lia.
Qed.

Lemma votes_in p l : 0 < votes p l -> p ∈ l.
Proof.
  unfold votes, len. intros H. destruct (List.filter _ l) as [|q r] eqn:E; [cbn in H; lia|].
  assert (In q (List.filter (fun q => bool_decide (q = p)) l)) as Hq by (rewrite E; by left).
  apply filter_In in Hq as [Hq Hb]. apply bool_decide_eq_true in Hb as ->. by apply list_elem_of_In.
Qed.

Lemma in_votes p l : p ∈ l -> 0 < votes p l.
Proof.
  induction l as [|q l IH]; intros H; [by apply elem_of_nil in H|]. rewrite votes_cons.
  assert (0 <= votes p l) by (unfold votes, len; lia).
  apply elem_of_cons in H as [->|H]; [rewrite decide_True by done; lia|specialize (IH H); destruct (decide _); lia].
Qed.

Lemma most_frequent_spec l : l <> [] ->
  most_frequent l ∈ l /\ forall q, votes q l <= votes (most_frequent l) l.
Proof.
  intros Hl. destruct (count_all_spec l) as [Hp He]. unfold most_frequent.
  assert (count_all l <> []) as Hne.
  { destruct l as [|q l]; [done|]. intros H. specialize (He q). rewrite H in He.
    assert (0 < votes q (q :: l)) by (apply in_votes; by left). unfold entry in He. cbn in He. lia. }
  destruct (max_count_spec _ Hne (proj2 Hp)) as [(x & Hx & Hmx) Hmax].
  destruct (List.find _ _) as [[p n]|] eqn:E.
  - apply find_some in E as [Hin Hn]. apply list_elem_of_In in Hin. apply Z.eqb_eq in Hn. cbn in Hn.
    pose proof (proper_entry _ _ _ Hp Hin) as Hen. rewrite He in Hen.
    pose proof (proj1 (Forall_forall _ _) (proj2 Hp) _ Hin) as Hpos. cbn in Hpos.
    split; [apply votes_in; lia|]. intros q. rewrite Hen.
    destruct (Z.le_gt_cases (votes q l) 0) as [H|H]; [lia|].
    assert (exists k, (q, k) ∈ count_all l) as [k Hk].
    { rewrite <-(He q) in H. unfold entry in H.
      destruct (List.filter _ (count_all l)) as [|[r k] rest] eqn:Ef; [cbn in H; lia|].
      assert (In (r, k) (List.filter (fun x => bool_decide (fst x = q)) (count_all l))) as Hr by (rewrite Ef; by left).
      apply filter_In in Hr as [Hr Hb]. apply bool_decide_eq_true in Hb. cbn in Hb. subst r. exists k. by apply list_elem_of_In. }
    pose proof (proper_entry _ _ _ Hp Hk) as Hek. rewrite He in Hek. specialize (Hmax _ Hk). cbn in Hmax. lia.
  - exfalso. apply list_elem_of_In in Hx. pose proof (find_none _ _ E _ Hx) as H. cbn in H. rewrite Hmx, Z.eqb_refl in H. done.
Qed.

(** ** The choice *)

Section Choice.
Context (e : CodecEnv) (fair : fair_iter e).

Lemma all_peers_spec m a : all_peers e m a = true <-> m <> ∅ /\ map_Forall (fun _ d => 0 < a d) m.
Proof using fair.
  unfold all_peers. rewrite andb_true_iff, negb_true_iff, Nat.eqb_neq, forallb_forall.
  rewrite map_size_empty_iff, map_Forall_to_list, Forall_forall.
  assert (forall x, In x (iter e m) <-> x ∈ map_to_list m) as Hin
    by (intros x; rewrite <-list_elem_of_In; by rewrite (fair m)).
  split; intros [H1 H2]; (split; [exact H1|]); intros [i d] Hx; apply Hin in Hx; specialize (H2 _ Hx); cbn in *; lia.
Qed.

Lemma h264_spec m : h264_useable e m = true <-> usable e m P.H264.
Proof using fair.
  unfold h264_useable, h264hw_encoding, usable. destruct (all_peers e m ability_h264) eqn:E.
  - apply all_peers_spec in E. cbn [andb]. rewrite bool_decide_eq_true. cbn. tauto.
  - split; [done|]. intros (H1 & H2 & _). rewrite (proj2 (all_peers_spec m ability_h264)) in E; [done|by split].
Qed.

Lemma h265_spec m : h265_useable e m = true <-> usable e m P.H265.
Proof using fair.
  unfold h265_useable, h265hw_encoding, usable. destruct (all_peers e m ability_h265) eqn:E.
  - apply all_peers_spec in E. cbn [andb]. rewrite bool_decide_eq_true. cbn. tauto.
  - split; [done|]. intros (H1 & H2 & _). rewrite (proj2 (all_peers_spec m ability_h265)) in E; [done|by split].
Qed.

Lemma vp8_spec m : vp8_useable e m = true <-> usable e m P.VP8.
Proof using fair. unfold vp8_useable, usable. rewrite all_peers_spec. cbn. tauto. Qed.

Lemma av1_spec m : av1_useable e m = true <-> usable e m P.AV1.
Proof using fair. unfold av1_useable, usable. rewrite andb_true_iff, all_peers_spec, negb_true_iff. cbn. tauto. Qed.

(** The codec a preference stands for. *)
Definition codec_of (p : option PreferCodec) : P.CodecFormat :=
  match p with
  | Some PC_VP9 => P.VP9 | Some PC_VP8 => P.VP8 | Some PC_AV1 => P.AV1
  | Some PC_H264 => P.H264 | Some PC_H265 => P.H265 | _ => P.Unknown
  end.

Lemma followable_spec m p : followable e m p = true <-> codec_of p = P.VP9 \/ usable e m (codec_of p).
Proof using fair.
  assert (~ usable e m P.Unknown) as Hu by (intros (_ & _ & []); done).
  destruct p as [[]|]; cbn [followable codec_of]; rewrite ?vp8_spec, ?av1_spec, ?h264_spec, ?h265_spec;
    (split; [intros H|intros [H|H]]); try done; auto.
Qed.

Lemma auto_usable m : auto_codec e m = P.VP9 \/ usable e m (auto_codec e m).
Proof using fair.
  unfold auto_codec.
  destruct (h265_useable e m) eqn:E5; [right; by apply h265_spec|].
  destruct (h264_useable e m) eqn:E4; [right; by apply h264_spec|].
  destruct (av1_useable e m && negb (String.eqb (av1_test e) "N")) eqn:E1; cbn [orb bool_decide];
    rewrite ?(bool_decide_true (P.AV1 = P.AV1)), ?(bool_decide_true (P.VP9 = P.VP9)), ?orb_true_r by done; cbn [orb];
    (destruct (vp8_useable e m && _) eqn:E8; [right; apply andb_true_iff in E8 as [E8 _]; by apply vp8_spec|]).
  - right. apply andb_true_iff in E1 as [E1 _]. by apply av1_spec.
  - by left.
Qed.

(** What the preferences come to. *)
Lemma chosen_spec m :
  (preferences e m = [] /\ chosen e m = auto_codec e m)
  \/ (most_frequent (preferences e m) ∈ preferences e m /\ chosen e m = codec_of (most_frequent (preferences e m))
      /\ followable e m (most_frequent (preferences e m)) = true).
Proof using fair.
  destruct (preferences e m) as [|p0 l] eqn:E.
  - left. split; [done|]. unfold chosen. by rewrite E.
  - right. destruct (most_frequent_spec (p0 :: l)) as [Hin _]; [done|]. split; [done|].
    assert (followable e m (most_frequent (p0 :: l)) = true) as Hf.
    { rewrite <-E in Hin at 2. apply list_elem_of_In, in_map_iff in Hin as ([i d] & <- & Hx).
      by apply filter_In in Hx as [_ Hx]. }
    split; [|done]. unfold chosen. rewrite E. destruct (most_frequent (p0 :: l)) as [[]|]; try done; cbn [unwrap_or codec_of].
    + cbn [followable] in Hf. unfold h264_useable in Hf. apply andb_true_iff in Hf as [_ Hf]. by rewrite Hf.
    + cbn [followable] in Hf. unfold h265_useable in Hf. apply andb_true_iff in Hf as [_ Hf]. by rewrite Hf.
Qed.

Lemma chosen_usable m : chosen e m = P.VP9 \/ usable e m (chosen e m).
Proof using fair.
  destruct (chosen_spec m) as [[_ ->]|(_ & -> & Hf)]; [apply auto_usable|]. by apply followable_spec.
Qed.

(** The state is the choice for its peers. *)
Lemma updates_chosen us s : encode_codec_format s = P.VP9 \/ usable e (peer_decodings s) (encode_codec_format s) ->
  let s' := updates e us s in
  encode_codec_format s' = P.VP9 \/ usable e (peer_decodings s') (encode_codec_format s').
Proof using fair.
  revert s. induction us as [|u us IH]; intros s H; [exact H|]. apply IH. apply chosen_usable.
Qed.

(** C16. What is sent can be watched: whatever viewers come, go and change their
    minds, and in whatever order the hash map is walked, the codec negotiated
    is VP9, or there are viewers, every one of them has said that it decodes
    that codec, and this machine has an encoder for it. *)
Theorem negotiated_is_decodable us :
  let s := updates e us negotiation_default in
  negotiated_codec s <> P.VP9 ->
  peer_decodings s <> ∅
  /\ map_Forall (fun _ d => 0 < ability (negotiated_codec s) d) (peer_decodings s)
  /\ encodable e (negotiated_codec s).
Proof using fair.
  intros s H. destruct (updates_chosen us negotiation_default (or_introl eq_refl)) as [Hs|Hs]; [by destruct H|exact Hs].
Qed.

(** The majority decides: after an update, if some viewer wishes a codec
    that can be used (VP9, or one everybody decodes and this machine encodes),
    the codec is one that a greatest number of viewers wishes among those;
    otherwise it is the automatic choice. *)
Theorem majority_decides u s :
  let m := apply_update u (peer_decodings s) in
  let f := negotiated_codec (update e u s) in
  ((forall i d, m !! i = Some d -> ~ (codec_of (prefer d) = P.VP9 \/ usable e m (codec_of (prefer d)))) /\ f = auto_codec e m)
  \/ exists p, f = codec_of p /\ (f = P.VP9 \/ usable e m f) /\ 0 < votes p (preferences e m)
       /\ forall q, votes q (preferences e m) <= votes p (preferences e m).
Proof using fair.
  intros m f. change f with (chosen e m). destruct (chosen_spec m) as [[Hn ->]|(Hin & -> & Hf)].
  - left. split; [|done]. intros i d Hd Hp. apply followable_spec in Hp.
    assert (prefer d ∈ preferences e m) as H; [|by rewrite Hn in H; apply elem_of_nil in H].
    apply list_elem_of_In, in_map_iff. exists (i, d). split; [done|]. apply filter_In. split; [|done].
    apply list_elem_of_In. rewrite (fair m). by apply elem_of_map_to_list.
  - right. exists (most_frequent (preferences e m)). split; [done|]. split; [by apply followable_spec|].
    split; [by apply in_votes|]. destruct (most_frequent_spec (preferences e m)) as [_ H]; [|done].
    intros H. rewrite H in Hin. by apply elem_of_nil in Hin.
Qed.

(** ** What a viewer says *)

Lemma mark_ability f g d : ability f (mark d g) = if decide (f = g) then 0 else ability f d.
Proof. destruct d, f, g; reflexivity. Qed.

Lemma marks_keep_zero f marks d : ability f d = 0 -> ability f (fold_left mark marks d) = 0.
Proof.
  revert d. induction marks as [|g marks IH]; intros d H; [done|]. apply IH. rewrite mark_ability. by case_decide.
Qed.

Lemma marked_ability f marks d : f ∈ marks -> ability f (fold_left mark marks d) = 0.
Proof.
  revert d. induction marks as [|g marks IH]; intros d H; [by apply elem_of_nil in H|]. cbn [fold_left].
  destruct (decide (f = g)) as [<-|Hne].
  - apply marks_keep_zero. rewrite mark_ability. by rewrite decide_True.
  - apply IH. by apply elem_of_cons in H as [H|H].
Qed.

(** The updates that concern other viewers. *)
Definition concerns (id : Z) (u : EncodingUpdate) : bool :=
  match u with Update i _ | Remove i | NewOnlyVP9 i => i =? id | Check_ => false end.

Lemma other_updates id us s : forallb (fun u => negb (concerns id u)) us = true ->
  peer_decodings (updates e us s) !! id = peer_decodings s !! id.
Proof using.
  revert s. induction us as [|u us IH]; intros s H; [done|]. cbn [forallb] in H. apply andb_true_iff in H as [Hu H].
  cbn [updates]. rewrite IH by done. unfold update. cbn [peer_decodings].
  destruct u; cbn [concerns apply_update] in *; try done.
  all: apply negb_true_iff, Z.eqb_neq in Hu; by rewrite ?lookup_insert_ne, ?lookup_delete_ne.
Qed.

(** A codec that failed is not used again: once a viewer has told which
    codecs it has marked as not working, the machine it watches negotiates none
    of them other than VP9, whatever the viewer prefers, and whatever the other
    viewers say, until this viewer leaves or says otherwise. *)
Theorem marked_codec_avoided ce hw pid opts marks id us s f :
  f ∈ marks -> f <> P.VP9 -> forallb (fun u => negb (concerns id u)) us = true ->
  negotiated_codec (updates e us (update e (Update id (supported_decodings ce hw pid opts marks)) s)) <> f.
Proof using fair.
  intros Hf Hne Hus Heq. set (s1 := update e _ s) in *.
  destruct (updates_chosen us s1) as [H|H]; [apply chosen_usable|..]; unfold negotiated_codec in Heq; rewrite Heq in H; [done|].
  destruct H as (_ & H & _).
  specialize (H id (supported_decodings ce hw pid opts marks)). rewrite other_updates in H by done.
  unfold s1, update in H. cbn [peer_decodings apply_update] in H. rewrite lookup_insert_eq in H.
  specialize (H eq_refl). unfold supported_decodings in H. destruct (preference pid opts) as [p c].
  rewrite marked_ability in H by done. lia.
Qed.

(** VP9 is not asked about: a single viewer whose stored preference for the
    machine is VP9 gets VP9, also when its VP9 decoder has failed, it has
    marked VP9 as not working and has said that it cannot decode it. *)
Theorem vp9_regardless ce hw pid opts marks id s :
  peer_decodings s = ∅ -> pid <> ""%string -> opts !! "codec-preference"%string = Some "vp9"%string ->
  P.VP9 ∈ marks ->
  let d := supported_decodings ce hw (Some pid) opts marks in
  ability_vp9 d = 0 /\ negotiated_codec (update e (Update id d) s) = P.VP9.
Proof using fair.
  intros Hs Hp Ho Hm d.
  assert (preference (Some pid) opts = (PC_VP9, if bool_decide (opts !! "i444"%string = Some "Y"%string) then I444 else I420)) as Hpref.
  { unfold preference. cbn [unwrap_or]. rewrite (proj2 (String.eqb_neq _ _) Hp), Ho. reflexivity. }
  split; [unfold d, supported_decodings; rewrite Hpref; by apply (marked_ability P.VP9)|].
  assert (prefer d = Some PC_VP9) as Hd.
  { unfold d, supported_decodings. rewrite Hpref. clear. generalize (if bool_decide (opts !! "i444"%string = Some "Y"%string) then I444 else I420).
    intros c. assert (forall x, prefer x = Some PC_VP9 -> prefer (fold_left mark marks x) = Some PC_VP9) as H.
    { induction marks as [|g marks IH]; intros x Hx; [done|]. apply IH. by destruct x, g. }
    by apply H. }
  clearbody d. unfold negotiated_codec, update. cbn [encode_codec_format apply_update]. rewrite Hs, insert_empty.
  set (m := {[ id := d ]}).
  assert (preferences e m = [Some PC_VP9]) as Hpr.
  { pose proof (fair m) as Hi. unfold m in Hi. rewrite map_to_list_singleton in Hi.
    apply Permutation_singleton_r in Hi. unfold preferences. unfold m. rewrite Hi. cbn [List.filter snd]. rewrite Hd. cbn [followable map snd]. by rewrite Hd. }
  unfold chosen. rewrite Hpr. reflexivity.
Qed.

End Choice.

(** ** A machine with two viewers *)

Definition demo_codec_env : CodecEnv :=
  mkCodecEnv false (fun f => if decide (f = P.H264) then Some "h264_vaapi"%string else None) "Y" (2 ^ 34) map_to_list.

Lemma demo_fair : fair_iter demo_codec_env.
Proof. intros m. reflexivity. Qed.

(** A viewer that prefers H264 and whose VP8 decoder has failed. *)
Definition demo_says : SupportedDecoding :=
  supported_decodings demo_codec_env (fun _ => true) (Some "123") {[ "codec-preference"%string := "h264"%string ]} [P.VP8].

Lemma negotiated_is_decodable_witness :
  negotiated_codec (updates demo_codec_env [Update 1 demo_says] negotiation_default) = P.H264
  /\ is_Some (hw_encoder demo_codec_env P.H264).
Proof.
  assert (negotiated_codec (updates demo_codec_env [Update 1 demo_says] negotiation_default) = P.H264) as H
    by (vm_compute; reflexivity).
  split; [exact H|].
  destruct (negotiated_is_decodable demo_codec_env demo_fair [Update 1 demo_says]) as (_ & _ & He).
  - rewrite H. discriminate.
  - rewrite H in He. exact He.
Defined.

Definition demo_prefers (p : PreferCodec) : SupportedDecoding := mkSupportedDecoding 1 0 0 (Some p) 1 1 None (Some I420).

Lemma majority_decides_witness :
  let s := updates demo_codec_env [Update 1 (demo_prefers PC_AV1); Update 2 (demo_prefers PC_VP9)] negotiation_default in
  let u := Update 3 (demo_prefers PC_AV1) in
  exists p, negotiated_codec (update demo_codec_env u s) = codec_of p
    /\ forall q, votes q (preferences demo_codec_env (apply_update u (peer_decodings s)))
                <= votes p (preferences demo_codec_env (apply_update u (peer_decodings s))).
Proof.
  intros s u. destruct (majority_decides demo_codec_env demo_fair u s) as [[H _]|(p & H1 & _ & _ & H2)].
  - exfalso. apply (H 2 (demo_prefers PC_VP9)); [vm_compute; reflexivity|left; reflexivity].
  - exists p. split; assumption.
Defined.

Lemma marked_codec_avoided_witness :
  negotiated_codec (updates demo_codec_env [NewOnlyVP9 2; Remove 2]
    (update demo_codec_env (Update 1 (supported_decodings demo_codec_env (fun _ => true) (Some "123"%string)
      {[ "codec-preference"%string := "av1"%string ]} [P.AV1])) negotiation_default)) <> P.AV1.
Proof.
  apply (marked_codec_avoided demo_codec_env demo_fair); [by left|discriminate|reflexivity].
Defined.

Lemma vp9_regardless_witness :
  let d := supported_decodings demo_codec_env (fun _ => true) (Some "123"%string)
             {[ "codec-preference"%string := "vp9"%string ]} [P.AV1; P.VP9] in
  ability_vp9 d = 0 /\ negotiated_codec (update demo_codec_env (Update 7 d) negotiation_default) = P.VP9.
Proof.
  apply (vp9_regardless demo_codec_env demo_fair); [reflexivity|discriminate|reflexivity|right; left].
Defined.

(** The rate for each preset is the preset's; a size whose product does not fit
    32 bits is taken for a small one. *)
Example preset_bitrates : map (fun '(w, h, b) => base_bitrate w h =? b) RESOLUTION_PRESETS = repeat true 13.
Proof. vm_compute. reflexivity. Qed.

Example bitrate_wraps : base_bitrate 65536 65536 = 0.
Proof. vm_compute. reflexivity. Qed.

End CodecFacts.
