(* ===== verification/ClipFiles.v ===== *)
(** * Copied files: descriptions and contents

    [libs/clipboard/src/platform/unix]: the side that owns the copied files
    ([local_file.rs], [serv_files.rs]) describes them in a list of 592-byte
    records and serves ranges of their contents; the side that pastes
    ([filetype.rs]) parses the list.  The FUSE file system that asks for the
    ranges is in [FusePaste].

    Text is a list of Unicode scalar values.  A path is kept as its list of
    components, the form in which [std::path] compares paths, strips prefixes
    and takes parents; the root directory is the component ["/"].  UTF-16 comes
    from the crate [utf16string]: the class [Utf16] has its two conversions,
    [Utf16Laws] what the code relies on, and [utf16le] is the encoding itself.
    The files of the disk are an argument of the operations that look at them;
    a file does not change while it is open.  Arithmetic on [u64] wraps, as in
    a release build, and a vector of more than [isize::MAX] bytes panics. *)

From S2P Require Import Prelude RustStr.

#[local] Open Scope rust_scope.

Module ClipFiles.

Abbreviation text := (list Z).

(** ** UTF-16 *)

Class Utf16 : Type := {
  to_utf16le : text -> list Z;
  from_utf16le : list Z -> option text }.

Definition scalar (c : Z) : Prop := 0 <= c < 0xD800 \/ 0xE000 <= c < 0x110000.

Class Utf16Laws (U : Utf16) : Prop := {
  to_utf16le_app a b : to_utf16le (a ++ b) = to_utf16le a ++ to_utf16le b;
  to_utf16le_nul : to_utf16le [0] = [0; 0];
  to_utf16le_even s : (length (to_utf16le s) mod 2 = 0)%nat;
  from_to_utf16le s : Forall scalar s -> from_utf16le (to_utf16le s) = Some s }.

(** ** Paths *)

Abbreviation Path := (list text).

Definition SLASH : Z := 47.
Definition BACKSLASH : Z := 92.
Definition DOT : Z := 46.
Definition ROOT : text := [SLASH].

Fixpoint split_slash (s : text) : list text :=
  match s with
  | [] => [[]]
  | c :: s =>
    if c =? SLASH then [] :: split_slash s
    else match split_slash s with
         | w :: ws => (c :: w) :: ws
         | [] => [[c]]
         end
  end.

(** [Path::components]: empty components are skipped, and ["."] unless it comes
    first. *)
Definition components (s : text) : Path :=
  let parts := split_slash s in
  let keep := filter (fun w => w <> [] /\ w <> [DOT]) in
  match parts with
  | [] :: _ :: _ => ROOT :: keep parts
  | w :: ws => if decide (w = [DOT]) then [DOT] :: keep ws else keep parts
  | [] => []
  end.

Fixpoint join_slash (p : Path) : text :=
  match p with
  | [] => []
  | [w] => w
  | w :: p => w ++ [SLASH] ++ join_slash p
  end.

Definition to_string_lossy (p : Path) : text :=
  match p with
  | w :: p => if decide (w = ROOT) then ROOT ++ join_slash p else join_slash (w :: p)
  | [] => []
  end.

Definition parent (p : Path) : option Path :=
  match p with
  | [] => None
  | _ => if decide (p = [ROOT]) then None else Some (removelast p)
  end.

(** [file_name] of a path that ends in [".."] or is the root is [None]. *)
Definition file_name (p : Path) : option text :=
  match last p with
  | Some w => if decide (w = ROOT \/ w = [DOT; DOT] \/ w = [DOT]) then None else Some w
  | None => None
  end.

Fixpoint strip_prefix (p root : Path) : option Path :=
  match root, p with
  | [], _ => Some p
  | r :: root, w :: p => if decide (r = w) then strip_prefix p root else None
  | _ :: _, [] => None
  end.

(** ** Errors and clipboard messages ([libs/clipboard/src/lib.rs]) *)

Inductive CliprdrError : Type :=
| CliprdrInit
| ClipboardInternalError
| ConversionFailure
| FileError (path : text)
| InvalidRequest (description : string).

Inductive ClipboardFile : Type :=
| NotifyCallback (type title txt : string)
| MonitorReady
| FormatList (format_list : list (Z * string))
| FormatListResponse (msg_flags : Z)
| FormatDataRequest (requested_format_id : Z)
| FormatDataResponse (msg_flags : Z) (format_data : list Z)
| FileContentsRequest (stream_id list_index dw_flags n_position_low n_position_high cb_requested : Z)
    (have_clip_data_id : bool) (clip_data_id : Z)
| FileContentsResponse (msg_flags stream_id : Z) (requested_data : list Z)
| TryEmpty
| Files (files : list (text * Z)).

Definition is_stopping_allowed (c : ClipboardFile) : bool :=
  match c with MonitorReady | FormatList _ | FormatDataRequest _ => true | _ => false end.

Definition is_beginning_message (c : ClipboardFile) : bool :=
  match c with MonitorReady | FormatList _ => true | _ => false end.

(** ** Constants of [unix/mod.rs] *)

Definition FLAGS_FD_ATTRIBUTES : Z := 0x04.
Definition FLAGS_FD_SIZE : Z := 0x40.
Definition FLAGS_FD_LAST_WRITE : Z := 0x20.
Definition FLAGS_FD_PROGRESSUI : Z := 0x4000.
Definition FLAGS_FD_UNIX_MODE : Z := 0x08.
Definition LDAP_EPOCH_DELTA : Z := 116444772610000000.

(** ** A local file *)

(** [handle] is the open file: its bytes and the position of the reader.
    [last_write_time] is in nanoseconds since the epoch. *)
Record LocalFile : Type := mkLocalFile {
  relative_root : Path;
  path : Path;
  handle : option (list Z * Z);
  offset : Z;
  size : Z;
  last_write_time : Z;
  is_dir : bool;
  perm : Z;
  read_only : bool;
  hidden : bool;
  system : bool;
  archive : bool;
  normal : bool }.

(** What [std::fs::metadata] reports. *)
Record Metadata : Type := mkMetadata {
  mt_len : Z; mt_is_dir : bool; mt_is_file : bool; mt_readonly : bool; mt_modified : Z; mt_mode : Z }.

(** The disk: metadata (following links), the entries of a directory and the
    bytes of a file that can be opened. *)
Record Disk : Type := mkDisk {
  metadata : Path -> option Metadata;
  read_dir : Path -> option (list Path);
  open_file : Path -> option (list Z) }.

Definition try_open (d : Disk) (relative_root path : Path) : result LocalFile CliprdrError :=
  match metadata d path with
  | None => Err (FileError (to_string_lossy path))
  | Some mt =>
    let hidden := match to_string_lossy path with c :: _ => c =? DOT | [] => false end in
    Ok (mkLocalFile relative_root path None 0 (mt_len mt) (mt_modified mt) (mt_is_dir mt) (mt_mode mt)
          (mt_readonly mt) hidden false false
          (negb (mt_is_dir mt || mt_readonly mt || false || hidden || false)))
  end.

Section Encoding.
Context {U : Utf16}.

(** [as_bin]; [520 - name_len] underflows for a long name, which panics
    (the wrapped length exceeds any vector). *)
Definition as_bin (f : LocalFile) : outcome (list Z) :=
  let flag (b : bool) (v : Z) := if b then v else 0 in
  let file_attributes :=
    Z.lor (Z.lor (Z.lor (Z.lor (Z.lor (flag (read_only f) 0x1) (flag (hidden f) 0x2)) (flag (system f) 0x4))
      (flag (is_dir f) 0x10)) (flag (archive f) 0x20)) (flag (normal f) 0x80) in
  let win32_time := u64 (u64 (Z.max 0 (last_write_time f)) / 100 + LDAP_EPOCH_DELTA) in
  let size_high := u32 (Z.shiftr (size f) 32) in
  let size_low := u32 (Z.land (size f) (2 ^ 32 - 1)) in
  let rel := to_string_lossy (unwrap_or (path f) (strip_prefix (path f) (relative_root f))) in
  let name := to_utf16le rel in
  let flags := Z.lor (Z.lor (Z.lor (Z.lor FLAGS_FD_SIZE FLAGS_FD_LAST_WRITE) FLAGS_FD_ATTRIBUTES)
                 FLAGS_FD_PROGRESSUI) FLAGS_FD_UNIX_MODE in
  if 520 <? len name then Panic
  else Done (to_le_bytes 4 flags ++ replicate 32 0 ++ to_le_bytes 4 file_attributes ++ replicate 12 0
             ++ to_le_bytes 4 (perm f) ++ to_le_bytes 8 win32_time ++ to_le_bytes 4 size_high
             ++ to_le_bytes 4 size_low ++ name ++ replicate (520 - length name) 0).

End Encoding.

Definition with_handle (f : LocalFile) (h : option (list Z * Z)) (o : Z) : LocalFile :=
  mkLocalFile (relative_root f) (path f) h o (size f) (last_write_time f) (is_dir f) (perm f)
    (read_only f) (hidden f) (system f) (archive f) (normal f).

Definition load_handle (d : Disk) (f : LocalFile) : result LocalFile CliprdrError :=
  if negb (is_dir f) && match handle f with None => true | Some _ => false end then
    match open_file d (path f) with
    | None => Err (FileError (to_string_lossy (path f)))
    | Some content => Ok (with_handle f (Some (content, 0)) (offset f))
    end
  else Ok f.

(** [read_exact_at]: the bytes read, or the error, with the file afterwards.
    When [read_exact] meets the end of the file the reader is left there. *)
Definition read_exact_at (d : Disk) (f : LocalFile) (n off : Z)
  : result (list Z) CliprdrError * LocalFile :=
  match load_handle d f with
  | Err e => (Err e, f)
  | Ok f =>
    match handle f with
    | None => (Err (FileError (to_string_lossy (path f))), f)
    | Some (content, pos) =>
      let pos := if off =? offset f then pos else off in
      if pos + n <=? len content then
        let buf := take (Z.to_nat n) (drop (Z.to_nat pos) content) in
        let new_offset := u64 (off + n) in
        let f := with_handle f (Some (content, pos + n)) new_offset in
        let f := if size f <=? new_offset then with_handle f None 0 else f in
        (Ok buf, f)
      else (Err (FileError (to_string_lossy (path f))),
            with_handle f (Some (content, Z.max pos (len content))) (offset f))
    end
  end.

(** ** The list of copied files *)

(** [constr_file_lst]: the path and, for a directory, everything below it.
    [fuel] bounds the depth; a directory that is nested deeper is reported
    as [None]. *)
Fixpoint constr_file_lst (fuel : nat) (d : Disk) (root path : Path) (acc : list LocalFile * list Path)
  : option (result (list LocalFile * list Path) CliprdrError) :=
  match fuel with
  | O => None
  | S fuel =>
    let '(file_list, visited) := acc in
    if decide (path ∈ visited) then Some (Ok acc)
    else
      let visited := path :: visited in
      match try_open d root path with
      | Err e => Some (Err e)
      | Ok f =>
        let acc := (file_list ++ [f], visited) in
        if is_dir f then
          match read_dir d path with
          | None => Some (Err (FileError (to_string_lossy path)))
          | Some entries =>
            fold_left (fun r p =>
              match r with
              | Some (Ok acc) => constr_file_lst fuel d root p acc
              | r => r
              end) entries (Some (Ok acc))
          end
        else Some (Ok acc)
      end
  end.

Definition construct_file_list (fuel : nat) (d : Disk) (paths : list Path)
  : option (result (list LocalFile) CliprdrError) :=
  match paths with
  | [] => Some (Err (InvalidRequest "empty file list"))
  | p :: _ =>
    match parent p with
    | None => Some (Err (InvalidRequest "empty parent"))
    | Some root =>
      match fold_left (fun r p =>
              match r with
              | Some (Ok acc) => constr_file_lst fuel d root p acc
              | r => r
              end) paths (Some (Ok ([], []))) with
      | Some (Ok (l, _)) => Some (Ok l)
      | Some (Err e) => Some (Err e)
      | None => None
      end
    end
  end.

(** ** The served files: [CLIP_FILES] *)

(** [slice.get(i)] for a [usize] index. *)
Definition get {A} (l : list A) (i : Z) : option A := if i <? len l then l !! Z.to_nat i else None.

Inductive Request : Type :=
| Size (stream_id file_idx : Z)
| Range (stream_id file_idx offset length : Z).

Record ClipFiles : Type := mkClipFiles {
  files : list text;
  file_list : list LocalFile;
  first_file_index : Z;
  files_pdu : list Z }.

Definition default_ClipFiles : ClipFiles := mkClipFiles [] [] 0 [].

(** [clear_files] *)
Definition clear (c : ClipFiles) : ClipFiles := mkClipFiles [] [] usize_MAX [].

Definition path_is_dir (d : Disk) (p : Path) : bool :=
  match metadata d p with Some mt => mt_is_dir mt | None => false end.
Definition path_is_file (d : Disk) (p : Path) : bool :=
  match metadata d p with Some mt => mt_is_file mt | None => false end.

(** The method [sync_files]. *)
Definition sync_files_m (fuel : nat) (d : Disk) (clipboard_files : list text) (c : ClipFiles)
  : option (result ClipFiles CliprdrError) :=
  match construct_file_list fuel d (components <$> clipboard_files) with
  | Some (Ok l) =>
    let first := match list_find (fun f => path_is_dir d (path f) = false) l with
                 | Some (i, _) => Z.of_nat i
                 | None => usize_MAX
                 end in
    Some (Ok (mkClipFiles clipboard_files l first (files_pdu c)))
  | Some (Err e) => Some (Err e)
  | None => None
  end.

Fixpoint concat_bins (l : list (outcome (list Z))) : outcome (list Z) :=
  match l with
  | [] => Done []
  | Done b :: l => let! r := concat_bins l in Done (b ++ r)
  | Panic :: _ => Panic
  end.

Definition build_file_list_pdu `{U : Utf16} (c : ClipFiles) : outcome ClipFiles :=
  let! body := concat_bins (as_bin <$> file_list c) in
  Done (mkClipFiles (files c) (file_list c) (first_file_index c)
          (to_le_bytes 4 (u32 (len (file_list c))) ++ body)).

(** The function [sync_files]; on an error the list is left as it was. *)
Definition sync_files `{U : Utf16} (fuel : nat) (d : Disk) (fl : list text) (c : ClipFiles)
  : option (outcome (result unit CliprdrError * ClipFiles)) :=
  if decide (files c = fl) then Some (Done (Ok tt, c))
  else match sync_files_m fuel d fl c with
       | Some (Ok c) => Some (let! c := build_file_list_pdu c in Done (Ok tt, c))
       | Some (Err e) => Some (Done (Err e, c))
       | None => None
       end.

Definition get_files_for_audit (d : Disk) (c : ClipFiles) (r : Request) : option ClipboardFile :=
  match r with
  | Range _ file_idx off _ =>
    if (file_idx =? first_file_index c) && (off =? 0) then
      match omap (fun f => if path_is_file d (path f)
                           then Some (to_string_lossy (path f), size f) else None) (file_list c) with
      | [] => None
      | fl => Some (Files fl)
      end
    else None
  | Size _ _ => None
  end.

Definition with_list (c : ClipFiles) (l : list LocalFile) : ClipFiles :=
  mkClipFiles (files c) l (first_file_index c) (files_pdu c).

(** The hot reload: the first file after [idx] that is no directory is opened
    in advance. *)
Fixpoint load_next (d : Disk) (l : list LocalFile) : result (list LocalFile) CliprdrError :=
  match l with
  | [] => Ok []
  | f :: l =>
    if is_dir f then let? l := load_next d l in Ok (f :: l)
    else let? f := load_handle d f in Ok (f :: l)
  end.

Definition hot_reload (d : Disk) (idx : nat) (l : list LocalFile) : result (list LocalFile) CliprdrError :=
  let? rest := load_next d (drop (S idx) l) in Ok (take (S idx) l ++ rest).

Definition isize_MAX : Z := 2 ^ 63 - 1.

Definition invalid_index (idx conn_id : Z) : CliprdrError :=
  InvalidRequest ("invalid file index " +:+ show idx +:+ " requested from conn: " +:+ show conn_id).

Definition finish_serve (d : Disk) (c : ClipFiles) (idx : nat) (resp : ClipboardFile)
  : result ClipboardFile CliprdrError * ClipFiles :=
  match hot_reload d idx (file_list c) with
  | Ok l => (Ok resp, with_list c l)
  | Err e => (Err e, c)
  end.

Definition serve_file_contents (d : Disk) (c : ClipFiles) (conn_id : Z) (r : Request)
  : outcome (result ClipboardFile CliprdrError * ClipFiles) :=
  match r with
  | Size stream_id file_idx =>
    match get (file_list c) file_idx with
    | None => Done (Err (invalid_index file_idx conn_id), c)
    | Some f => Done (finish_serve d c (Z.to_nat file_idx)
                        (FileContentsResponse 1 stream_id (to_le_bytes 8 (size f))))
    end
  | Range stream_id file_idx off length =>
    match get (file_list c) file_idx with
    | None => Done (Err (invalid_index file_idx conn_id), c)
    | Some f =>
      if size f <? off
      then Done (Err (InvalidRequest ("invalid reading offset requested from conn: " +:+ show conn_id)), c)
      else
        let read_size := if size f <? u64 (off + length) then size f - off else length in
        if isize_MAX <? read_size then Panic
        else
          let '(res, f) := read_exact_at d f read_size off in
          let c := with_list c (<[ Z.to_nat file_idx := f ]> (file_list c)) in
          match res with
          | Err e => Done (Err e, c)
          | Ok buf => Done (finish_serve d c (Z.to_nat file_idx) (FileContentsResponse 1 stream_id buf))
          end
    end
  end.

(** [i32 as u64] extends the sign. *)
Definition request_of (stream_id list_index dw_flags n_position_low n_position_high cb_requested : Z)
  : option Request :=
  if dw_flags =? 1 then Some (Size stream_id (u64 list_index))
  else if dw_flags =? 2 then
    let off := Z.lor (u64 (Z.shiftl (u64 n_position_high) 32)) (u64 n_position_low) in
    Some (Range stream_id (u64 list_index) off (u64 cb_requested))
  else None.

Definition read_file_contents (d : Disk) (conn_id stream_id list_index dw_flags n_position_low
    n_position_high cb_requested : Z) (c : ClipFiles)
  : outcome (list (result ClipboardFile CliprdrError) * ClipFiles) :=
  match request_of stream_id list_index dw_flags n_position_low n_position_high cb_requested with
  | None => Done ([Err (InvalidRequest ("got invalid FileContentsRequest, dw_flats: " +:+ show dw_flags))], c)
  | Some fcr =>
    let audit := match get_files_for_audit d c fcr with Some f => [Ok f] | None => [] end in
    let! (r, c) := serve_file_contents d c conn_id fcr in
    Done (audit ++ [r], c)
  end.

Definition get_file_list_pdu (c : ClipFiles) : list Z := files_pdu c.

(** ** Parsing the descriptions ([filetype.rs]) *)

Inductive FileType : Type := File | Directory | Symlink.

#[global] Instance FileType_eq_dec : EqDecision FileType.
Proof. solve_decision. Defined.

Record FileDescription : Type := mkDescription {
  conn_id : Z;
  name : Path;
  kind : FileType;
  last_modified : Z;   (* and the three other times, which are equal to it *)
  d_size : Z;
  d_perm : Z }.

Definition PERM_READ : Z := 292.     (* 0o444 *)
Definition PERM_RW : Z := 420.       (* 0o644 *)
Definition PERM_SELF_RO : Z := 256.  (* 0o400 *)
Definition PERM_RWX : Z := 493.      (* 0o755 *)

(** [trim_end_matches(NUL)] *)
Fixpoint trim_nul (s : text) : text :=
  match s with
  | [] => []
  | c :: s => match trim_nul s with
              | [] => if c =? 0 then [] else [c]
              | t => c :: t
              end
  end.

Definition field (off n : nat) (bs : list Z) : Z := from_le_bytes (take n (drop off bs)).

(** [parse_file_descriptor] of a record that is there in full. *)
Definition parse_file_descriptor `{U : Utf16} (bs : list Z) (conn : Z) : result FileDescription CliprdrError :=
  let flags := field 0 4 bs in
  let attributes := field 36 4 bs in
  let perm := u16 (field 52 4 bs) in
  let last_write_time := field 56 8 bs in
  let file_size_high := field 64 4 bs in
  let file_size_low := field 68 4 bs in
  match from_utf16le (take 520 (drop 72 bs)) with
  | None => Err ConversionFailure
  | Some wstr =>
    let has (b : Z) := negb (Z.land flags b =? 0) in
    if negb (has FLAGS_FD_ATTRIBUTES)
    then Err (InvalidRequest "file description must have valid attributes")
    else
      let directory := negb (Z.land attributes 0x10 =? 0) in
      let normal := attributes =? 0x80 in
      let hidden := negb (Z.land attributes 0x02 =? 0) in
      let readonly := negb (Z.land attributes 0x01 =? 0) in
      let perm := if has FLAGS_FD_UNIX_MODE then perm
                  else if normal then PERM_RWX
                  else if readonly then PERM_READ
                  else if hidden then PERM_SELF_RO
                  else if directory then PERM_RWX
                  else PERM_RW in
      let size := u64 (u64 (Z.shiftl file_size_high 32) + file_size_low) in
      let last_modified :=
        if has FLAGS_FD_LAST_WRITE && (LDAP_EPOCH_DELTA <=? last_write_time)
        then u64 ((last_write_time - LDAP_EPOCH_DELTA) * 100) else 0 in
      let name := (fun c => if c =? BACKSLASH then SLASH else c) <$> wstr in
      Ok (mkDescription conn (components (trim_nul name)) (if directory then Directory else File)
            last_modified size perm)
  end.

Fixpoint parse_records `{U : Utf16} (count : nat) (bs : list Z) (conn : Z)
  : result (list FileDescription) CliprdrError :=
  match count with
  | O => Ok []
  | S count =>
    let? desc := parse_file_descriptor (take 592 bs) conn in
    let? rest := parse_records count (drop 592 bs) conn in
    Ok (desc :: rest)
  end.

Definition parse_file_descriptors `{U : Utf16} (pdu : list Z) (conn : Z)
  : result (list FileDescription) CliprdrError :=
  if len pdu <? 4 then Err (InvalidRequest "file descriptor request with infficient length")
  else
    let count := field 0 4 pdu in
    let data := drop 4 pdu in
    if (len data =? 0) && (count =? 0) then Ok []
    else if negb (len data =? u64 (592 * count))
    then Err (InvalidRequest "file descriptor request with invalid length")
    else parse_records (Z.to_nat count) data conn.

(** ** The round trip of the file list *)

(** A component of a file's relative path: what a Linux file name can be, but
    without a backslash, which the receiver takes for a separator. *)
Definition plain_char (c : Z) : Prop := scalar c /\ c <> 0 /\ c <> SLASH /\ c <> BACKSLASH.
Definition plain_name (w : text) : Prop := w <> [] /\ w <> [DOT] /\ Forall plain_char w.

Lemma split_slash_plain w : Forall plain_char w -> split_slash w = [w].
Proof.
  induction 1 as [|c w (_ & _ & Hc & _) _ IH]; [done|]. cbn [split_slash].
  destruct (c =? SLASH) eqn:E; [zbool; done|]. by rewrite IH.
Qed.

Lemma split_slash_app w s : Forall plain_char w ->
  split_slash (w ++ [SLASH] ++ s) = w :: split_slash s.
Proof.
  induction 1 as [|c w (_ & _ & Hc & _) _ IH]; [done|]. cbn [app split_slash].
  destruct (c =? SLASH) eqn:E; [zbool; done|]. cbn [app] in IH. by rewrite IH.
Qed.

Lemma split_slash_join p : p <> [] -> Forall plain_name p -> split_slash (join_slash p) = p.
Proof.
  intros Hne H. induction H as [|w p (_ & _ & Hw) Hp IH]; [done|].
  destruct p as [|w' p]; [by apply split_slash_plain|].
  change (join_slash (w :: w' :: p)) with (w ++ [SLASH] ++ join_slash (w' :: p)).
  rewrite split_slash_app by done. by rewrite IH.
Qed.

Lemma keep_plain p : Forall plain_name p -> filter (fun w : text => w <> [] /\ w <> [DOT]) p = p.
Proof.
  induction 1 as [|w p (Hn & Hd & _) _ IH]; [done|]. by rewrite filter_cons_True, IH.
Qed.

Lemma components_join p : Forall plain_name p -> components (join_slash p) = p.
Proof.
  intros H. destruct p as [|w p]; [done|]. unfold components.
  rewrite split_slash_join by done. pose proof (keep_plain _ H) as Hk.
  inversion H as [|? ? (Hn & Hd & _) _]; subst. destruct w as [|c w]; [done|].
  destruct (decide (c :: w = [DOT])); [done|]. exact Hk.
Qed.

Lemma join_plain_ne_root p : Forall plain_name p -> head p <> Some ROOT.
Proof.
  intros H. destruct p as [|w p]; [done|]. intros [= ->].
  inversion H as [|? ? (_ & _ & Hw) _]; subst. inversion Hw as [|? ? (_ & _ & Hc & _) _]; subst. done.
Qed.

Lemma to_string_lossy_rel p : Forall plain_name p -> to_string_lossy p = join_slash p.
Proof.
  intros H. destruct p as [|w p]; [done|]. unfold to_string_lossy.
  destruct (decide (w = ROOT)) as [->|]; [|done]. by destruct (join_plain_ne_root _ H).
Qed.

Lemma join_slash_chars (P : Z -> Prop) p :
  P SLASH -> Forall (Forall P) p -> Forall P (join_slash p).
Proof.
  intros Hs H. induction H as [|w p Hw Hp IH]; [constructor|].
  destruct p as [|w' p]; [done|].
  change (join_slash (w :: w' :: p)) with (w ++ [SLASH] ++ join_slash (w' :: p)).
  apply Forall_app. split; [done|]. constructor; done.
Qed.

Lemma trim_nul_zeros s n : Forall (fun c => c <> 0) s -> trim_nul (s ++ replicate n 0) = s.
Proof.
  intros H. induction H as [|c s Hc Hs IH].
  - induction n as [|n IH]; [done|]. cbn [replicate app trim_nul] in *. by rewrite IH.
  - cbn [app trim_nul]. rewrite IH. destruct s as [|c' s]; [|done].
    destruct (c =? 0) eqn:E; [zbool; done|done].
Qed.

Lemma field_app l1 m l2 off n :
  length l1 = off -> length m = n -> field off n (l1 ++ m ++ l2) = from_le_bytes m.
Proof.
  intros <- <-. unfold field. by rewrite drop_app_length, take_app_length.
Qed.

Definition file_attributes (f : LocalFile) : Z :=
  let flag (b : bool) (v : Z) := if b then v else 0 in
  Z.lor (Z.lor (Z.lor (Z.lor (Z.lor (flag (read_only f) 0x1) (flag (hidden f) 0x2)) (flag (system f) 0x4))
    (flag (is_dir f) 0x10)) (flag (archive f) 0x20)) (flag (normal f) 0x80).

Lemma file_attributes_dir f :
  0 <= file_attributes f < 2 ^ 32 /\ negb (Z.land (file_attributes f) 0x10 =? 0) = is_dir f.
Proof.
  unfold file_attributes.
  destruct (read_only f), (hidden f), (system f), (is_dir f), (archive f), (normal f); vm_compute; intuition discriminate.
Qed.

(** The relative path under which a file is announced. *)
Definition rel_path (f : LocalFile) : Path := unwrap_or (path f) (strip_prefix (path f) (relative_root f)).

(** A file whose description arrives unharmed. *)
Record describable `{U : Utf16} (f : LocalFile) : Prop := {
  rel_plain : Forall plain_name (rel_path f);
  rel_short : len (to_utf16le (join_slash (rel_path f))) <= 520;
  size_u64 : 0 <= size f < 2 ^ 64;
  perm_u32 : 0 <= perm f < 2 ^ 32;
  time_u64 : 0 <= last_write_time f < 2 ^ 64 }.

(** What arrives: the mode without its upper half, the time in steps of 100 ns. *)
Definition describe (conn : Z) (f : LocalFile) : FileDescription :=
  mkDescription conn (rel_path f) (if is_dir f then Directory else File)
    (last_write_time f / 100 * 100) (size f) (u16 (perm f)).

Lemma size_split s : 0 <= s < 2 ^ 64 ->
  u64 (u64 (Z.shiftl (u32 (Z.shiftr s 32)) 32) + u32 (Z.land s (2 ^ 32 - 1))) = s.
Proof.
  intros Hs. rewrite shiftr_div, land_mask, Z.shiftl_mul_pow2 by lia.
  pose proof (Z.div_mod s (2 ^ 32)). pose proof (Z.mod_pos_bound s (2 ^ 32)).
  assert (0 <= s / 2 ^ 32 < 2 ^ 32) by (split; [apply Z.div_pos|apply Z.div_lt_upper_bound]; lia).
  rewrite !(wrap_small 32) by lia. rewrite (wrap_small 64 (_ * _)) by lia. rewrite wrap_small; lia.
Qed.

Section RoundTrip.
Context {U : Utf16} `{!Utf16Laws U}.

Lemma to_utf16le_zeros n : to_utf16le (replicate n 0) = replicate (2 * n) 0.
Proof.
  induction n as [|n IH].
  - pose proof (to_utf16le_app [] []) as H. cbn [app replicate] in *.
    apply (f_equal length) in H. rewrite length_app in H. by destruct (to_utf16le []); [|cbn in H; lia].
  - change (replicate (S n) 0) with ([0] ++ replicate n 0).
    rewrite to_utf16le_app, to_utf16le_nul, IH. by replace (2 * S n)%nat with (S (S (2 * n))) by lia.
Qed.

(** A padded name decodes to the name and NULs. *)
Lemma padded_name s k :
  Forall scalar s -> (length (to_utf16le s) + k = 520)%nat ->
  from_utf16le (to_utf16le s ++ replicate k 0) = Some (s ++ replicate (k / 2) 0).
Proof.
  intros Hs Hk. pose proof (to_utf16le_even s) as He.
  assert (k = 2 * (k / 2))%nat as ->.
  { pose proof (Nat.div_mod_eq k 2). pose proof (Nat.mod_upper_bound k 2).
    pose proof (Nat.div_mod_eq (length (to_utf16le s)) 2). lia. }
  rewrite <- to_utf16le_zeros, <- to_utf16le_app.
  rewrite from_to_utf16le.
  - by rewrite (Nat.mul_comm 2), Nat.div_mul by done.
  - apply Forall_app. split; [done|]. apply Forall_replicate. unfold scalar. lia.
Qed.

Lemma rel_chars p : Forall plain_name p ->
  Forall scalar (join_slash p) /\ Forall (fun c => c <> 0) (join_slash p)
  /\ (fun c => if c =? BACKSLASH then SLASH else c) <$> join_slash p = join_slash p.
Proof.
  intros H.
  assert (forall P : Z -> Prop, P SLASH -> (forall c, plain_char c -> P c) -> Forall P (join_slash p)) as HP.
  { intros P Hs Hc. apply join_slash_chars; [done|]. eapply Forall_impl; [exact H|].
    intros w (_ & _ & Hw). eapply Forall_impl; [exact Hw|exact Hc]. }
  split; [apply HP; [unfold scalar, SLASH; lia|by intros c (? & _)]|].
  split; [apply HP; [done|by intros c (_ & ? & _)]|].
  assert (Forall (fun c => c <> BACKSLASH) (join_slash p)) as Hb
    by (apply HP; [done|by intros c (_ & _ & _ & ?)]).
  clear HP H. induction Hb as [|c l Hc _ IH]; [done|]. rewrite fmap_cons, IH.
  destruct (c =? BACKSLASH) eqn:E; [zbool; done|done].
Qed.

Lemma as_bin_length f bs : as_bin f = Done bs -> length bs = 592%nat.
Proof.
  unfold as_bin. destruct (520 <? len _) eqn:E; [done|]. intros H.
  match type of H with Done ?x = Done _ => replace bs with x by congruence end.
  rewrite !length_app, !to_le_bytes_length, !length_replicate. unfold len in E. zbool. lia.
Qed.

(** One record. *)
Lemma record_roundtrip f conn :
  describable f -> exists bs, as_bin f = Done bs /\ parse_file_descriptor bs conn = Ok (describe conn f).
Proof.
  intros [Hrel Hshort Hsize Hperm Htime]. destruct (rel_chars _ Hrel) as (Hsc & Hnz & Hbs).
  destruct (file_attributes_dir f) as [Hattr Hdir].
  unfold as_bin. fold (file_attributes f) (rel_path f). rewrite to_string_lossy_rel by done.
  set (name := to_utf16le (join_slash (rel_path f))) in *.
  rewrite (proj2 (Z.ltb_ge 520 (len name))) by done. eexists. split; [reflexivity|].
  set (t := u64 (u64 (Z.max 0 (last_write_time f)) / 100 + LDAP_EPOCH_DELTA)).
  assert (0 <= last_write_time f / 100 <= 184467440737095516) as Ht1
    by (split; [apply Z.div_pos; lia|apply (Z.div_le_mono _ (2 ^ 64) 100); lia]).
  assert (t = last_write_time f / 100 + LDAP_EPOCH_DELTA) as Ht.
  { unfold t. rewrite Z.max_r by lia. rewrite (wrap_small 64 (last_write_time f)) by lia.
    apply wrap_small. unfold LDAP_EPOCH_DELTA. lia. }
  set (flags := Z.lor _ FLAGS_FD_UNIX_MODE). unfold parse_file_descriptor.
  set (bs := to_le_bytes 4 flags ++ _).
  change (field 0 4 bs) with (from_le_bytes (to_le_bytes 4 flags)).
  change (field 36 4 bs) with (from_le_bytes (to_le_bytes 4 (file_attributes f))).
  change (field 52 4 bs) with (from_le_bytes (to_le_bytes 4 (perm f))).
  change (field 56 8 bs) with (from_le_bytes (to_le_bytes 8 t)).
  change (field 64 4 bs) with (from_le_bytes (to_le_bytes 4 (u32 (Z.shiftr (size f) 32)))).
  change (field 68 4 bs) with (from_le_bytes (to_le_bytes 4 (u32 (Z.land (size f) (2 ^ 32 - 1))))).
  change (drop 72 bs) with (name ++ replicate (520 - length name) 0).
  rewrite take_ge by (rewrite length_app, length_replicate; unfold len in Hshort; lia).
  pose proof (padded_name (join_slash (rel_path f)) (520 - length name) Hsc
                ltac:(fold name; unfold len in Hshort; lia)) as Hname. fold name in Hname. rewrite Hname.
  rewrite fmap_app, Hbs, fmap_replicate. change (if 0 =? BACKSLASH then SLASH else 0) with 0.
  rewrite trim_nul_zeros, components_join by done.
  rewrite (from_to_le_bytes 4 (file_attributes f)), Hdir by done.
  rewrite (from_to_le_bytes 4 (perm f)) by done.
  rewrite !(from_to_le_bytes 4 (u32 _)) by (apply (wrap_range 32); lia). rewrite size_split by done.
  rewrite (from_to_le_bytes 8 t) by (cbn; unfold LDAP_EPOCH_DELTA in Ht; lia). rewrite Ht.
  rewrite (proj2 (Z.leb_le LDAP_EPOCH_DELTA _)) by lia.
  replace (last_write_time f / 100 + LDAP_EPOCH_DELTA - LDAP_EPOCH_DELTA)
    with (last_write_time f / 100) by lia.
  by rewrite (wrap_small 64 (_ * 100)) by lia.
Qed.

(** The records one after the other. *)
Lemma records_roundtrip l conn :
  Forall describable l ->
  exists bs, concat_bins (as_bin <$> l) = Done bs /\ length bs = (592 * length l)%nat
             /\ parse_records (length l) bs conn = Ok (describe conn <$> l).
Proof.
  induction 1 as [|f l Hf _ (bs & Hb & Hlen & IH)]; [by exists []|].
  destruct (record_roundtrip f conn Hf) as (b & Eb & Hp). pose proof (as_bin_length f b Eb) as Hl.
  exists (b ++ bs). cbn [fmap list_fmap concat_bins length]. rewrite Eb. cbn [concat_bins].
  change (as_bin <$> l) with (as_bin <$> l) in Hb. rewrite Hb. cbn [outcome_bind].
  split; [done|]. split; [rewrite length_app; lia|]. cbn [parse_records].
  by rewrite <- Hl, take_app_length, drop_app_length, Hp; cbn [result_bind]; rewrite IH.
Qed.

Lemma pdu_announces c conn :
  len (file_list c) < 2 ^ 32 -> Forall describable (file_list c) ->
  exists c', build_file_list_pdu c = Done c' /\ file_list c' = file_list c
    /\ parse_file_descriptors (files_pdu c') conn = Ok (describe conn <$> file_list c).
Proof.
  intros Hlen H. destruct (records_roundtrip _ conn H) as (bs & Hb & Hl & Hp).
  unfold build_file_list_pdu. rewrite Hb. cbn [outcome_bind]. eexists. split; [reflexivity|].
  split; [done|]. cbn [files_pdu]. pose proof (len_nonneg (file_list c)).
  rewrite (wrap_small 32) by lia. unfold parse_file_descriptors.
  set (h := to_le_bytes 4 (len (file_list c))).
  assert (length h = 4%nat) as Hh by apply to_le_bytes_length.
  rewrite (proj2 (Z.ltb_ge (len (h ++ bs)) 4)) by (rewrite len_app; unfold len; lia).
  change (drop 4 (h ++ bs)) with bs.
  change (field 0 4 (h ++ bs)) with (from_le_bytes h). unfold h at 1 2 3.
  rewrite from_to_le_bytes by (cbn; lia). unfold len in *.
  destruct ((Z.of_nat (length bs) =? 0) && (Z.of_nat (length (file_list c)) =? 0)) eqn:E.
  - zbool. destruct (file_list c); [done|cbn in *; lia].
  - rewrite (wrap_small 64) by lia. rewrite (proj2 (Z.eqb_eq _ _)) by lia.
    cbn [negb]. by rewrite Nat2Z.id.
Qed.

(** The file list survives the wire.  For copied files with plain relative
    names of at most 260 UTF-16 units, [build_file_list_pdu] does not panic and
    [parse_file_descriptors] of its result gives, in the same order, each
    file's relative path, kind, size, the lower sixteen bits of its mode and its
    time rounded down to 100 ns.  A single longer name makes it panic. *)
Theorem pdu_roundtrip c conn :
  len (file_list c) < 2 ^ 32 ->
  (Forall describable (file_list c) ->
   exists c', build_file_list_pdu c = Done c' /\ file_list c' = file_list c
     /\ parse_file_descriptors (files_pdu c') conn = Ok (describe conn <$> file_list c))
  /\ (Exists (fun f => 520 < len (to_utf16le (to_string_lossy (rel_path f)))) (file_list c) ->
      build_file_list_pdu c = Panic).
Proof.
  intros Hlen. split; [by apply pdu_announces|].
  clear Hlen. intros H. unfold build_file_list_pdu.
  assert (concat_bins (as_bin <$> file_list c) = Panic) as ->; [|done].
  induction H as [f l Hf|f l _ IH]; cbn [fmap list_fmap concat_bins].
  - unfold as_bin. fold (rel_path f). by rewrite (proj2 (Z.ltb_lt _ _)).
  - destruct (as_bin f); [|done]. change (list_fmap _ _ as_bin l) with (as_bin <$> l). by rewrite IH.
Qed.

End RoundTrip.

(** ** UTF-16, little endian *)

Definition enc_char (c : Z) : list Z :=
  if c <? 0x10000 then to_le_bytes 2 c
  else to_le_bytes 2 (0xD800 + (c - 0x10000) / 0x400) ++ to_le_bytes 2 (0xDC00 + (c - 0x10000) mod 0x400).

Fixpoint dec_units (bs : list Z) : option text :=
  match bs with
  | [] => Some []
  | a :: b :: rest =>
    let u := from_le_bytes [a; b] in
    if (0xD800 <=? u) && (u <? 0xDC00) then
      match rest with
      | c :: d :: rest =>
        let l := from_le_bytes [c; d] in
        if (0xDC00 <=? l) && (l <? 0xE000)
        then cons (0x10000 + (u - 0xD800) * 0x400 + (l - 0xDC00)) <$> dec_units rest else None
      | _ => None
      end
    else if (0xDC00 <=? u) && (u <? 0xE000) then None
    else cons u <$> dec_units rest
  | _ => None
  end.

Definition utf16le : Utf16 := {| to_utf16le s := s ≫= enc_char; from_utf16le := dec_units |}.

Lemma dec_enc_char c rest : scalar c -> dec_units (enc_char c ++ rest) = cons c <$> dec_units rest.
Proof.
  intros Hc. unfold enc_char. destruct (c <? 0x10000) eqn:E; zbool.
  - change (to_le_bytes 2 c) with [c mod 256; c / 256 mod 256]. cbn [app dec_units].
    change [c mod 256; c / 256 mod 256] with (to_le_bytes 2 c).
    rewrite from_to_le_bytes by (unfold scalar in Hc; cbn; lia).
    destruct ((0xD800 <=? c) && (c <? 0xDC00)) eqn:E1; [zbool; unfold scalar in Hc; lia|].
    destruct ((0xDC00 <=? c) && (c <? 0xE000)) eqn:E2; [zbool; unfold scalar in Hc; lia|done].
  - set (h := 0xD800 + (c - 0x10000) / 0x400). set (l := 0xDC00 + (c - 0x10000) mod 0x400).
    pose proof (Z.div_mod (c - 0x10000) 0x400 ltac:(lia)).
    pose proof (Z.mod_pos_bound (c - 0x10000) 0x400 ltac:(lia)).
    assert (0xD800 <= h < 0xDC00) by (subst h; unfold scalar in Hc; lia).
    assert (0xDC00 <= l < 0xE000) by (subst l; lia).
    change (to_le_bytes 2 h) with [h mod 256; h / 256 mod 256].
    change (to_le_bytes 2 l) with [l mod 256; l / 256 mod 256]. cbn [app dec_units].
    change [h mod 256; h / 256 mod 256] with (to_le_bytes 2 h).
    change [l mod 256; l / 256 mod 256] with (to_le_bytes 2 l).
    rewrite !from_to_le_bytes by (cbn; lia).
    rewrite (proj2 (Z.leb_le 0xD800 h)), (proj2 (Z.ltb_lt h 0xDC00)) by lia.
    rewrite (proj2 (Z.leb_le 0xDC00 l)), (proj2 (Z.ltb_lt l 0xE000)) by lia. cbn [andb].
    do 2 f_equal. subst h l. lia.
Qed.

Lemma utf16le_laws : Utf16Laws utf16le.
Proof.
  split.
  - intros a b. apply bind_app.
  - reflexivity.
  - intros s. cbn [to_utf16le utf16le]. induction s as [|c s IH]; [done|]. cbn [mbind list_bind]. rewrite length_app.
    assert (exists k, length (enc_char c) = (k * 2)%nat) as [k ->]
      by (unfold enc_char; destruct (c <? 0x10000); [exists 1%nat|exists 2%nat]; done).
    by rewrite Nat.add_comm, Nat.Div0.mod_add.
  - intros s Hs. cbn. induction Hs as [|c s Hc _ IH]; [done|]. cbn [mbind list_bind].
    rewrite dec_enc_char by done. change (list_bind _ _ enc_char s) with (s ≫= enc_char). by rewrite IH.
Qed.

(** Two copied files: a directory and a file in it. *)
Definition demo_root : Path := [ROOT; [104]].
Definition demo_file (rel : Path) (dir : bool) (sz : Z) : LocalFile :=
  mkLocalFile demo_root (demo_root ++ rel) None 0 sz 1700000000123456789 dir 33188 false false false false (negb dir).
Definition demo_files : ClipFiles :=
  mkClipFiles [] [demo_file [[100]] true 4096; demo_file [[100]; [128196; 51]] false 5000000000] 1 [].

Lemma pdu_roundtrip_witness :
  exists c', build_file_list_pdu (U := utf16le) demo_files = Done c'
    /\ parse_file_descriptors (U := utf16le) (files_pdu c') 1001
       = Ok [mkDescription 1001 [[100]] Directory 1700000000123456700 4096 33188;
             mkDescription 1001 [[100]; [128196; 51]] File 1700000000123456700 5000000000 33188].
Proof.
  pose proof utf16le_laws.
  destruct (proj1 (pdu_roundtrip (U := utf16le) demo_files 1001 ltac:(vm_compute; reflexivity))) as (c' & H1 & H2 & H3).
  - repeat constructor; try done; try (vm_compute; discriminate); unfold scalar; cbn; lia.
  - exists c'. split; [exact H1|exact H3].
Defined.

(** ** Serving the contents *)

(** A file that can be served: what is open is the file on the disk, and the
    reader stands at the recorded offset. *)
Definition ready (d : Disk) (f : LocalFile) : Prop :=
  if is_dir f then handle f = None
  else exists content, open_file d (path f) = Some content /\ size f = len content
       /\ ((handle f = None /\ offset f = 0) \/ handle f = Some (content, offset f)).

(** The fields the contents depend on. *)
Definition static (f : LocalFile) : Path * Z * bool := (path f, size f, is_dir f).

Definition slice (off n : Z) (l : list Z) : list Z := take (Z.to_nat n) (drop (Z.to_nat off) l).

Lemma load_handle_ready d f :
  ready d f -> exists f', load_handle d f = Ok f' /\ ready d f' /\ static f' = static f /\ offset f' = offset f
    /\ (is_dir f = false -> exists content, open_file d (path f) = Some content /\ size f = len content
                             /\ handle f' = Some (content, offset f)).
Proof.
  unfold ready, load_handle. destruct (is_dir f) eqn:Ed; cbn [negb andb].
  - intros H. exists f. by rewrite Ed.
  - intros (content & Ho & Hs & [[Hh H0]|Hh]); rewrite Hh.
    + rewrite Ho. exists (with_handle f (Some (content, 0)) (offset f)). split; [done|]. cbn. rewrite Ed, H0.
      split; [by eauto 8|]. split; [done|]. split; [done|]. intros _. by exists content.
    + exists f. split; [done|]. rewrite Ed. split; [by eauto 8|]. split; [done|]. split; [done|]. intros _. by exists content.
Qed.

Lemma read_exact_at_ready d f n off content :
  ready d f -> is_dir f = false -> open_file d (path f) = Some content ->
  0 <= off -> 0 <= n -> off + n <= size f < 2 ^ 64 ->
  exists f', read_exact_at d f n off = (Ok (slice off n content), f') /\ ready d f' /\ static f' = static f.
Proof.
  intros Hr Hd Hc Ho Hn Hle. destruct (load_handle_ready d f Hr) as (f1 & Hl & Hr1 & Hst & Hoff & Hh).
  destruct (Hh Hd) as (content' & Hc' & Hsz & Hh1). assert (content' = content) as -> by congruence.
  assert (path f1 = path f /\ size f1 = size f /\ is_dir f1 = is_dir f) as (Hp1 & Hs1 & Hd1)
    by (unfold static in Hst; split; [|split]; congruence).
  unfold read_exact_at. rewrite Hl, Hh1.
  assert ((if off =? offset f1 then offset f else off) = off) as ->.
  { rewrite Hoff. destruct (off =? offset f) eqn:E; [zbool; done|done]. }
  rewrite (proj2 (Z.leb_le (off + n) (len content))) by lia. rewrite wrap_small by lia.
  eexists. split; [reflexivity|]. cbn [size with_handle].
  destruct (size f1 <=? off + n); (split; [|done]); unfold ready; cbn; rewrite Hd1, Hd, Hp1, Hs1; eauto 10.
Qed.

Lemma load_next_ready d l :
  Forall (ready d) l -> exists l', load_next d l = Ok l' /\ Forall (ready d) l' /\ static <$> l' = static <$> l.
Proof.
  induction 1 as [|f l Hf Hl (l' & E & Hl' & Hs)]; [by exists []|]. cbn [load_next].
  destruct (is_dir f).
  - rewrite E. eexists. split; [reflexivity|]. split; [by constructor|]. by rewrite !fmap_cons, Hs.
  - destruct (load_handle_ready d f Hf) as (f' & -> & Hr & Hst & _). eexists. split; [reflexivity|].
    split; [by constructor|]. by rewrite !fmap_cons, Hst.
Qed.

Lemma hot_reload_ready d i l :
  Forall (ready d) l ->
  exists l', hot_reload d i l = Ok l' /\ Forall (ready d) l' /\ static <$> l' = static <$> l.
Proof.
  intros H. unfold hot_reload.
  destruct (load_next_ready d (drop (S i) l)) as (r & E & Hr & Hs); [by apply Forall_drop|].
  rewrite E. eexists. split; [reflexivity|]. split.
  - apply Forall_app. split; [by apply Forall_take|done].
  - by rewrite fmap_app, Hs, <- fmap_app, take_drop.
Qed.

Lemma get_Some {A} (l : list A) i x : get l i = Some x -> l !! Z.to_nat i = Some x.
Proof. unfold get. by destruct (i <? len l). Qed.

Lemma serve_range d c conn sid idx off n f content :
  Forall (ready d) (file_list c) -> get (file_list c) idx = Some f -> is_dir f = false ->
  open_file d (path f) = Some content -> 0 <= off <= size f -> size f < 2 ^ 62 -> 0 <= n < 2 ^ 32 ->
  exists c', serve_file_contents d c conn (Range sid idx off n)
      = Done (Ok (FileContentsResponse 1 sid (slice off n content)), c')
    /\ Forall (ready d) (file_list c') /\ static <$> file_list c' = static <$> file_list c.
Proof.
  intros Hall Hg Hd Hc Ho Hsz Hn. unfold serve_file_contents. rewrite Hg.
  rewrite (proj2 (Z.ltb_ge (size f) off)) by lia. rewrite wrap_small by lia.
  pose proof (get_Some _ _ _ Hg) as Hg'. pose proof (Forall_lookup_1 _ _ _ _ Hall Hg') as Hf.
  assert (size f = len content) as Hlen.
  { unfold ready in Hf. rewrite Hd in Hf. destruct Hf as (content' & Hc' & ? & _). congruence. }
  set (rs := if size f <? off + n then size f - off else n).
  assert (0 <= rs /\ off + rs <= size f /\ slice off rs content = slice off n content) as (Hrs & Hle & Hsl).
  { subst rs. destruct (size f <? off + n) eqn:E; zbool; [|split; [lia|split; [lia|done]]].
    split; [lia|]. split; [lia|]. unfold slice, len in *.
    rewrite !take_ge by (rewrite length_drop; lia). done. }
  rewrite (proj2 (Z.ltb_ge isize_MAX rs)) by (unfold isize_MAX; lia).
  destruct (read_exact_at_ready d f rs off content) as (f' & -> & Hr & Hst); [done..|lia|lia|lia|].
  set (l' := <[Z.to_nat idx := f']> (file_list c)).
  assert (Forall (ready d) l' /\ static <$> l' = static <$> file_list c) as [Hl' Hs'].
  { split; [by apply Forall_insert|]. unfold l'. rewrite list_fmap_insert, Hst.
    apply list_insert_id. by rewrite list_lookup_fmap, Hg'. }
  cbn [with_list file_list]. unfold finish_serve. cbn [file_list with_list].
  destruct (hot_reload_ready d (Z.to_nat idx) l' Hl') as (l2 & -> & H2 & Hs2).
  rewrite Hsl. eexists. split; [reflexivity|]. cbn [with_list file_list]. split; [done|]. by rewrite Hs2.
Qed.

(** A request of the peer makes the answering task panic exactly when it
    names an existing file and a position inside it and asks for a negative
    number of bytes that the position can absorb: [offset + length] wraps and
    the buffer would have more than [isize::MAX] bytes. *)
Theorem request_panics_iff d c conn sid idx lo hi cb :
  Forall (fun f => 0 <= size f < 2 ^ 62) (file_list c) -> - 2 ^ 31 <= cb < 2 ^ 31 ->
  let off := Z.lor (u64 (Z.shiftl (u64 hi) 32)) (u64 lo) in
  read_file_contents d conn sid idx 2 lo hi cb c = Panic
  <-> exists f, get (file_list c) (u64 idx) = Some f /\ off <= size f /\ cb < 0 /\ - cb <= off.
Proof.
  intros Hall Hcb off. unfold read_file_contents, request_of.
  change (2 =? 1) with false. change (2 =? 2) with true. cbv iota zeta. fold off.
  assert (0 <= off) as Hoff0 by (apply Z.lor_nonneg; split; apply (wrap_range 64); lia).
  unfold serve_file_contents. destruct (get (file_list c) (u64 idx)) as [f|] eqn:Eg;
    [|split; [done|by intros (f & ? & _)]].
  pose proof (Forall_lookup_1 _ _ _ _ Hall (get_Some _ _ _ Eg)) as Hsz. cbn in Hsz.
  assert (forall g, ((exists f0, Some f = Some f0 /\ off <= size f0 /\ g) <-> (off <= size f /\ g))) as Hex.
  { intros g. split; [intros (f0 & E & ?); by injection E as <-|eauto]. }
  rewrite Hex. destruct (size f <? off) eqn:E1; zbool; [cbn; split; [done|lia]|].
  assert (u64 cb = if cb <? 0 then cb + 2 ^ 64 else cb) as Hu.
  { destruct (cb <? 0) eqn:E; zbool; [|apply wrap_small; lia]. symmetry. apply (Z.mod_unique _ _ (-1)); lia. }
  assert (u64 (off + u64 cb) = if (cb <? 0) && (off <? - cb) then off + cb + 2 ^ 64 else off + cb) as Hs.
  { rewrite Hu. destruct (cb <? 0) eqn:E; cbn [andb]; [|apply wrap_small; zbool; lia].
    destruct (off <? - cb) eqn:E'; zbool; [rewrite wrap_small; lia|].
    symmetry. apply (Z.mod_unique _ _ 1); lia. }
  rewrite Hs. set (rs := if size f <? _ then _ else _).
  assert (isize_MAX < rs <-> cb < 0 /\ - cb <= off) as Hrs.
  { subst rs. rewrite Hu. unfold isize_MAX. zcases. }
  destruct (isize_MAX <? rs) eqn:E2; zbool; [cbn; intuition|].
  destruct (read_exact_at d f rs off) as [[buf|e] f'].
  - unfold finish_serve. destruct (hot_reload _ _ _); cbn; (split; [done|lia]).
  - cbn. split; [done|lia].
Qed.

(** One unreadable file spoils its neighbour: while the next file of the list
    that is no directory cannot be opened, every request for the file before
    it is answered with an error, although its own bytes were read. *)
Theorem unreadable_next_file d c conn sid f content off n g before between rest :
  file_list c = before ++ f :: between ++ g :: rest ->
  ready d f -> is_dir f = false -> open_file d (path f) = Some content ->
  0 <= off <= size f -> size f < 2 ^ 62 -> 0 <= n < 2 ^ 32 ->
  Forall (fun h => is_dir h = true) between -> is_dir g = false -> handle g = None ->
  open_file d (path g) = None ->
  exists c', serve_file_contents d c conn (Range sid (len before) off n)
             = Done (Err (FileError (to_string_lossy (path g))), c').
Proof.
  intros Hl Hr Hd Hc Ho Hsz Hn Hb Hg Hh Hopen. unfold serve_file_contents. set (k := length before).
  assert (file_list c !! k = Some f) as Hlk.
  { rewrite Hl, lookup_app_r by lia. by rewrite Nat.sub_diag. }
  change (len before) with (Z.of_nat k). unfold get. rewrite Nat2Z.id, (proj2 (Z.ltb_lt _ _)), Hlk by (apply lookup_lt_Some in Hlk; unfold len; lia).
  rewrite (proj2 (Z.ltb_ge (size f) off)) by lia. rewrite wrap_small by lia.
  assert (size f = len content) as Hlen.
  { unfold ready in Hr. rewrite Hd in Hr. destruct Hr as (content' & Hc' & ? & _). congruence. }
  set (rs := if size f <? off + n then size f - off else n).
  assert (0 <= rs /\ off + rs <= size f) as [Hrs Hle] by (subst rs; zcases).
  rewrite (proj2 (Z.ltb_ge isize_MAX rs)) by (unfold isize_MAX; lia).
  destruct (read_exact_at_ready d f rs off content) as (f' & -> & _ & _); [done..|lia|lia|lia|].
  unfold finish_serve, hot_reload. cbn [file_list with_list].
  assert (drop (S k) (<[k:=f']> (file_list c)) = between ++ g :: rest) as ->.
  { rewrite drop_insert_lt by lia. rewrite Hl, drop_app_ge by lia.
    by replace (S k - length before)%nat with 1%nat by lia. }
  assert (load_next d (between ++ g :: rest) = Err (FileError (to_string_lossy (path g)))) as ->.
  { clear Hl. induction Hb as [|h between Hh' _ IH]; cbn [app load_next].
    - rewrite Hg. unfold load_handle. by rewrite Hg, Hh, Hopen.
    - by rewrite Hh', IH. }
  by eexists.
Qed.

(** A disk on which only the file ["/h/a"] can be opened. *)
Definition demo_disk : Disk :=
  mkDisk (fun _ => None) (fun _ => None)
    (fun p => if decide (p = demo_root ++ [[97]]) then Some [1; 2; 3] else None).
Definition demo_two : ClipFiles :=
  mkClipFiles [] [demo_file [[97]] false 3; demo_file [[100]] true 4096; demo_file [[98]] false 9] 0 [].

Lemma request_panics_iff_witness :
  read_file_contents demo_disk 1001 5 0 2 1 0 (-1) demo_two = Panic
  /\ read_file_contents demo_disk 1001 5 0 2 0 0 (-1) demo_two <> Panic.
Proof.
  split.
  - apply (request_panics_iff demo_disk demo_two 1001 5 0 1 0 (-1));
      [repeat constructor; cbn; lia|lia|]. eexists. split; [reflexivity|]. vm_compute. split; [|split]; discriminate || reflexivity.
  - intros H. apply (request_panics_iff demo_disk demo_two 1001 5 0 0 0 (-1)) in H;
      [|repeat constructor; cbn; lia|lia]. destruct H as (f & _ & _ & _ & H). vm_compute in H. by apply H.
Defined.

Lemma unreadable_next_file_witness :
  exists c', serve_file_contents demo_disk demo_two 1001 (Range 5 0 0 3)
             = Done (Err (FileError (to_string_lossy (demo_root ++ [[98]]))), c').
Proof.
  apply (unreadable_next_file demo_disk demo_two 1001 5 (demo_file [[97]] false 3) [1; 2; 3] 0 3
           (demo_file [[98]] false 9) [] [demo_file [[100]] true 4096] []);
    try reflexivity; try (cbn; lia).
  - exists [1; 2; 3]. split; [reflexivity|]. split; [reflexivity|]. by left.
  - by repeat constructor.
Defined.

End ClipFiles.
