(* ===== verification/FusePaste.v ===== *)
(** * Pasting files through FUSE

    [libs/clipboard/src/platform/unix/fuse]: the pasting side shows the files
    the peer announced as a read-only file system.  [cs.rs] builds a tree from
    the announced list and answers the kernel's requests; a read asks the
    owner of the files for a range ([FuseServer::read_node]) and waits for the
    reply.  [mod.rs] keeps the mounted context and loads a new list.

    The kernel's replies are values; random stream ids are an argument; the
    channel on which replies arrive is the list of what arrives before the
    timeout.  Times other than the modification time, which are clock readings,
    are left out. *)

From S2P Require Import Prelude RustStr ClipFiles.

#[local] Open Scope rust_scope.

Module Fuse.

Import ClipFiles.

(** ** Handles of an open node *)

(** [Condvar] and the never-set gc mark aside, the vector of handles. *)
Record FileHandles : Type := mkHandles { handlers : list Z; gc : bool }.

Definition handles_new : FileHandles := mkHandles [] false.

Definition add_handler (fh : Z) (h : FileHandles) : outcome FileHandles :=
  if gc h then Panic else Done (mkHandles (handlers h ++ [fh]) (gc h)).

(** [slice::binary_search] between [lo] and [hi]. *)
Fixpoint binary_search_n (fuel : nat) (l : list Z) (lo hi : nat) (x : Z) : option nat :=
  match fuel with
  | O => None
  | S fuel =>
    if (hi <=? lo)%nat then None
    else
      let mid := (lo + (hi - lo) / 2)%nat in
      match l !! mid with
      | None => None
      | Some v => if v =? x then Some mid
                  else if v <? x then binary_search_n fuel l (S mid) hi x
                  else binary_search_n fuel l lo mid x
      end
  end.

Definition binary_search (l : list Z) (x : Z) : option nat :=
  binary_search_n (S (length l)) l 0 (length l) x.

Definition have_handler (fh : Z) (h : FileHandles) : bool :=
  match binary_search (handlers h) fh with Some _ => true | None => false end.

Definition unregister (fh : Z) (h : FileHandles) : option FileHandles :=
  match binary_search (handlers h) fh with
  | Some i => Some (mkHandles (delete i (handlers h)) (gc h))
  | None => None
  end.

(** ** Nodes *)

Record InodeAttributes : Type := mkAttributes {
  inode : Z; a_size : Z; a_modified : Z; a_kind : FileType; a_perm : Z }.

Record FuseNode : Type := mkNode {
  n_conn_id : Z; n_stream_id : Z; index : Z; n_parent : option Z; n_name : text;
  attributes : InodeAttributes; children : list Z; file_handlers : FileHandles }.

Definition FUSE_ROOT_ID : Z := 1.

Section Server.

(** The random stream id of the node with a given inode. *)
Context (rand : Z -> Z).

Definition from_description (ino : Z) (desc : FileDescription) (base_name : text) : FuseNode :=
  mkNode (conn_id desc) (rand ino) (ino - 2) None base_name
    (mkAttributes ino (d_size desc) (last_modified desc) (kind desc) (d_perm desc)) [] handles_new.

Definition new_root (now : Z) : FuseNode :=
  mkNode 0 (rand FUSE_ROOT_ID) 0 None [SLASH]
    (mkAttributes FUSE_ROOT_ID 0 now Directory PERM_RWX) [] handles_new.

Definition add_child (ino : Z) (n : FuseNode) : FuseNode :=
  mkNode (n_conn_id n) (n_stream_id n) (index n) (n_parent n) (n_name n) (attributes n)
    (children n ++ [ino]) (file_handlers n).

Definition with_parent (p : Z) (n : FuseNode) : FuseNode :=
  mkNode (n_conn_id n) (n_stream_id n) (index n) (Some p) (n_name n) (attributes n) (children n)
    (file_handlers n).

(** One file of the list is added to the tree. *)
Definition add_file (desc : FileDescription) (st : list FuseNode * gmap Path Z)
  : result (list FuseNode * gmap Path Z) CliprdrError :=
  let '(tree, dirs) := st in
  let ino := len tree + FUSE_ROOT_ID in
  let parent_inode := match parent (name desc) with
                      | Some p => unwrap_or FUSE_ROOT_ID (dirs !! p)
                      | None => FUSE_ROOT_ID
                      end in
  let tree := alter (add_child ino) (Z.to_nat (parent_inode - 1)) tree in
  match file_name (name desc) with
  | None => Err (FileError (to_string_lossy (name desc)))
  | Some base_name =>
    let dirs := if decide (kind desc = Directory) then <[ name desc := ino ]> dirs else dirs in
    Ok (tree ++ [with_parent parent_inode (from_description ino desc base_name)], dirs)
  end.

Fixpoint add_files (l : list FileDescription) (st : list FuseNode * gmap Path Z)
  : result (list FuseNode * gmap Path Z) CliprdrError :=
  match l with
  | [] => Ok st
  | desc :: l => let? st := add_file desc st in add_files l st
  end.

Definition build_tree (now : Z) (l : list FileDescription) : result (list FuseNode) CliprdrError :=
  let? (tree, _) := add_files l ([new_root now], <[ [] := FUSE_ROOT_ID ]> {[ [ROOT] := FUSE_ROOT_ID ]}) in
  Ok tree.

(** ** The server *)

Record FuseServer : Type := mkServer {
  generation : Z; nodes : list FuseNode; file_handle_counter : Z }.

Definition server_new : FuseServer := mkServer 0 [] 0.

Definition load_file_list (now : Z) (l : list FileDescription) (s : FuseServer)
  : result FuseServer CliprdrError :=
  let? tree := build_tree now l in
  Ok (mkServer (u64 (generation s + 1)) tree (file_handle_counter s)).

Definition init (now : Z) (s : FuseServer) : FuseServer :=
  match nodes s with
  | [] => mkServer (generation s) [new_root now] (file_handle_counter s)
  | _ => s
  end.

Inductive errno : Type := ENOENT | ENOTDIR | ENAMETOOLONG | EBUSY | EBADF | ENFILE | EIO.

Definition node_at (s : FuseServer) (ino : Z) : option FuseNode := get (nodes s) (u64 (ino - 1)).

Definition MAX_NAME_LEN : Z := 255.

(** [name] is an [OsStr]: its bytes, compared with the UTF-8 form of the node's
    name ([utf8]). *)
Definition lookup (utf8 : text -> list Z) (parent_ : Z) (nm : list Z) (s : FuseServer)
  : result InodeAttributes errno :=
  if MAX_NAME_LEN <? len nm then Err ENAMETOOLONG
  else match node_at s parent_ with
       | None => Err ENOENT
       | Some p =>
         if decide (a_kind (attributes p) = Directory) then
           let found := omap (fun ino => node_at s ino ≫= fun n =>
                          if decide (utf8 (n_name n) = nm) then Some (attributes n) else None) (children p) in
           match found with
           | a :: _ => Ok a
           | [] => Err ENOENT
           end
         else Err ENOTDIR
       end.

Definition with_handlers (h : FileHandles) (n : FuseNode) : FuseNode :=
  mkNode (n_conn_id n) (n_stream_id n) (index n) (n_parent n) (n_name n) (attributes n) (children n) h.

Definition set_handlers (ino : Z) (h : FileHandles) (s : FuseServer) : FuseServer :=
  mkServer (generation s) (alter (with_handlers h) (Z.to_nat (ino - 1)) (nodes s)) (file_handle_counter s).

Definition alloc_fd (s : FuseServer) : Z * FuseServer :=
  (file_handle_counter s, mkServer (generation s) (nodes s) (u64 (file_handle_counter s + 1))).

(** [open] of files and [opendir] of directories. *)
Definition open_node (k : FileType) (wrong_kind : errno) (ino : Z) (s : FuseServer)
  : outcome (result Z errno * FuseServer) :=
  match node_at s ino with
  | None => Done (Err ENOENT, s)
  | Some n =>
    if decide (a_kind (attributes n) = k) then
      if gc (file_handlers n) then Done (Err EBUSY, s)
      else
        let '(fh, s) := alloc_fd s in
        let! h := add_handler fh (file_handlers n) in
        Done (Ok fh, set_handlers ino h s)
    else Done (Err wrong_kind, s)
  end.

Definition open : Z -> FuseServer -> outcome (result Z errno * FuseServer) := open_node File ENFILE.
Definition opendir : Z -> FuseServer -> outcome (result Z errno * FuseServer) := open_node Directory ENOTDIR.

(** [readdir]: the entries from [offset] on; the kernel takes as many as fit. *)
Definition readdir (ino fh offset : Z) (s : FuseServer) : result (list (Z * FileType * text)) errno :=
  match node_at s ino with
  | None => Err ENOENT
  | Some n =>
    if negb (have_handler fh (file_handlers n)) then Err EBADF
    else if decide (a_kind (attributes n) = Directory) then
      let entries := [(ino, Directory, [DOT])]
        ++ match n_parent n with Some p => [(p, Directory, [DOT; DOT])] | None => [] end
        ++ omap (fun c => (fun m => (c, a_kind (attributes m), n_name m)) <$> node_at s c) (children n) in
      Ok (drop (Z.to_nat offset) entries)
    else Err ENOTDIR
  end.

Definition releasedir (ino fh : Z) (s : FuseServer) : result unit errno * FuseServer :=
  match node_at s ino with
  | None => (Err ENOENT, s)
  | Some n =>
    if decide (a_kind (attributes n) = Directory) then
      match unregister fh (file_handlers n) with
      | None => (Err EBADF, s)
      | Some h => (Ok tt, set_handlers ino h s)
      end
    else (Err ENOTDIR, s)
  end.

Definition release (ino fh : Z) (s : FuseServer) : result unit errno * FuseServer :=
  match node_at s ino with
  | None => (Err ENOENT, s)
  | Some n =>
    match unregister fh (file_handlers n) with
    | None => (Err EBADF, s)
    | Some h => (Ok tt, set_handlers ino h s)
    end
  end.

Definition getattr (ino : Z) (s : FuseServer) : result InodeAttributes errno :=
  match node_at s ino with None => Err ENOENT | Some n => Ok (attributes n) end.

Definition list_root (s : FuseServer) : list text :=
  match nodes s with
  | root :: _ => omap (fun ino => n_name <$> node_at s ino) (children root)
  | [] => []
  end.

(** *** Reading *)

Definition READ_RETRY : Z := 3.

Definition read_request (n : FuseNode) (offset size : Z) : ClipboardFile :=
  FileContentsRequest (n_stream_id n) (i32 (index n)) 2
    (i32 (Z.land offset (2 ^ 32 - 1))) (i32 (Z.shiftr offset 32)) (i32 size) false 0.

(** The replies in the order they arrive, up to the timeout; the result, the
    number of requests that were sent again, and the replies not looked at. *)
Fixpoint await (stream_id retry_times : Z) (rx : list ClipboardFile)
  : result (list Z) string * Z * list ClipboardFile :=
  match rx with
  | [] => (Err "timed out", retry_times, [])
  | FileContentsResponse msg_flags sid requested_data :: rx =>
    if negb (sid =? stream_id) then await stream_id retry_times rx
    else if Z.land msg_flags 1 =? 0 then
      let retry_times := retry_times + 1 in
      if READ_RETRY <? retry_times then (Err "failure request", retry_times, rx)
      else await stream_id retry_times rx
    else (Ok requested_data, retry_times, rx)
  | _ :: rx => (Err "invalid reply", retry_times, rx)
  end.

Definition read_node (n : FuseNode) (rx : list ClipboardFile) : result (list Z) string * list ClipboardFile :=
  let '(r, _, rx) := await (n_stream_id n) 0 rx in (r, rx).

Definition read (ino fh : Z) (rx : list ClipboardFile) (s : FuseServer)
  : result (list Z) errno * list ClipboardFile :=
  match node_at s ino with
  | None => (Err ENOENT, rx)
  | Some n =>
    if negb (have_handler fh (file_handlers n)) then (Err EBADF, rx)
    else if decide (a_kind (attributes n) = File) then
      if gc (file_handlers n) then (Err EBUSY, rx)
      else match read_node n rx with
           | (Ok b, rx) => (Ok b, rx)
           | (Err _, rx) => (Err EIO, rx)
           end
    else (Err ENFILE, rx)
  end.

(** ** The mounted context ([mod.rs]) *)

Record FuseContext : Type := mkContext { server : FuseServer; ctx_conn_id : Z }.

Definition empty_local_files (now : Z) (conn : Z) (c : FuseContext) : bool * FuseContext :=
  if negb (conn =? 0) && negb (ctx_conn_id c =? conn) then (false, c)
  else (true, match load_file_list now [] (server c) with
              | Ok s => mkContext s (ctx_conn_id c)
              | Err _ => c
              end).

(** [format_data_response_to_urls], without the mount point in front of the
    names. *)
Definition format_data_response_to_urls `{U : Utf16} (now : Z) (format_data : list Z) (conn : Z) (c : FuseContext)
  : result (list text) CliprdrError * FuseContext :=
  match parse_file_descriptors format_data conn with
  | Err e => (Err e, c)
  | Ok files =>
    match load_file_list now files (server c) with
    | Err e => (Err e, c)
    | Ok s => let c := mkContext s conn in (Ok (list_root s), c)
    end
  end.

(** ** The tree of the announced files *)

(** The node of the [k]th announced file. *)
Definition node_of (k : nat) (desc : FileDescription) (n : FuseNode) : Prop :=
  n_conn_id n = conn_id desc /\ n_stream_id n = rand (Z.of_nat k + 2) /\ index n = Z.of_nat k
  /\ file_name (name desc) = Some (n_name n)
  /\ attributes n = mkAttributes (Z.of_nat k + 2) (d_size desc) (last_modified desc) (kind desc) (d_perm desc)
  /\ file_handlers n = handles_new.

Definition tree_of (l : list FileDescription) (tree : list FuseNode) : Prop :=
  length tree = S (length l)
  /\ forall k desc, l !! k = Some desc -> exists n, tree !! S k = Some n /\ node_of k desc n.

Lemma node_of_add_child k desc n ino : node_of k desc n -> node_of k desc (add_child ino n).
Proof. done. Qed.

Lemma tree_of_alter l tree ino i : tree_of l tree -> tree_of l (alter (add_child ino) i tree).
Proof.
  intros [Hlen H]. split; [by rewrite length_alter|]. intros k desc Hk.
  destruct (H k desc Hk) as (n & Hn & Hnode). destruct (decide (i = S k)) as [->|Hne].
  - exists (add_child ino n). rewrite list_lookup_alter_eq, Hn. by split.
  - exists n. by rewrite list_lookup_alter_ne.
Qed.

Lemma add_file_tree l desc tree dirs tree' dirs' :
  tree_of l tree -> add_file desc (tree, dirs) = Ok (tree', dirs') -> tree_of (l ++ [desc]) tree'.
Proof.
  intros Ht. unfold add_file. set (p := match parent (name desc) with Some p => unwrap_or FUSE_ROOT_ID (dirs !! p) | None => FUSE_ROOT_ID end).
  pose proof (tree_of_alter l tree (len tree + FUSE_ROOT_ID) (Z.to_nat (p - 1)) Ht) as [Hlen Hn].
  destruct Ht as [Hlen0 _]. destruct (file_name (name desc)) as [base|] eqn:Eb; [|done].
  intros H. injection H as <- _. set (tree1 := alter _ _ tree) in *. split.
  - rewrite !length_app. cbn. lia.
  - intros k desc' Hk. destruct (decide (k < length l)%nat) as [Hlt|Hge].
    + rewrite lookup_app_l in Hk by done. destruct (Hn k desc' Hk) as (n & E & Hnode).
      exists n. split; [|done]. rewrite lookup_app_l; [done|]. apply lookup_lt_Some in E. lia.
    + rewrite lookup_app_r in Hk by lia. destruct (k - length l)%nat as [|m] eqn:Ek; [|by destruct m].
      injection Hk as <-. assert (k = length l) as -> by lia. eexists. split.
      * rewrite lookup_app_r by lia. rewrite Hlen, Nat.sub_diag. reflexivity.
      * unfold node_of. cbn. unfold len, FUSE_ROOT_ID. rewrite Hlen0.
        replace (Z.of_nat (S (length l)) + 1) with (Z.of_nat (length l) + 2) by lia.
        split; [done|]. split; [done|]. split; [lia|]. done.
Qed.

Lemma add_files_tree l0 l tree dirs tree' dirs' :
  tree_of l0 tree -> add_files l (tree, dirs) = Ok (tree', dirs') -> tree_of (l0 ++ l) tree'.
Proof.
  revert l0 tree dirs. induction l as [|desc l IH]; intros l0 tree dirs Ht H.
  - injection H as <- _. by rewrite app_nil_r.
  - cbn [add_files] in H. destruct (add_file desc (tree, dirs)) as [[tree1 dirs1]|] eqn:E; [|done].
    apply (add_file_tree l0) in E; [|done]. cbn [result_bind] in H.
    rewrite (cons_middle desc l0 l), app_assoc. by apply (IH _ tree1 dirs1).
Qed.

(** The list is rejected exactly when a name has no last component. *)
Lemma add_files_ok l st :
  Forall (fun desc => is_Some (file_name (name desc))) l <-> exists st', add_files l st = Ok st'.
Proof.
  revert st. induction l as [|desc l IH]; intros [tree dirs].
  - split; [by eexists|constructor].
  - cbn [add_files]. rewrite Forall_cons. unfold add_file at 1.
    destruct (file_name (name desc)) as [b|].
    + cbn [result_bind]. rewrite <- IH. split; [by intros []|]. intros H. split; [by eexists|done].
    + cbn [result_bind]. split; [by intros [[] _]|by intros []].
Qed.

Lemma build_tree_nodes now l tree : build_tree now l = Ok tree -> tree_of l tree.
Proof.
  unfold build_tree. destruct (add_files _ _) as [[tree1 dirs]|] eqn:E; [|done].
  cbn [result_bind]. intros H. injection H as <-.
  apply (add_files_tree []) in E; [done|]. split; [done|]. by intros [] ?.
Qed.

Lemma build_tree_ok now l :
  Forall (fun desc => is_Some (file_name (name desc))) l -> exists tree, build_tree now l = Ok tree.
Proof.
  intros H. unfold build_tree.
  destruct (proj1 (add_files_ok l ([new_root now], <[ [] := FUSE_ROOT_ID ]> {[ [ROOT] := FUSE_ROOT_ID ]})) H)
    as [[tree dirs] ->]. by eexists.
Qed.

(** ** The handles of a node are sorted *)

Definition increasing (l : list Z) : Prop :=
  forall i j a b, (i < j)%nat -> l !! i = Some a -> l !! j = Some b -> a < b.

Lemma binary_search_n_spec fuel l lo hi x :
  increasing l -> (hi <= length l)%nat -> (hi - lo < fuel)%nat ->
  match binary_search_n fuel l lo hi x with
  | Some i => l !! i = Some x
  | None => forall i, (lo <= i < hi)%nat -> l !! i <> Some x
  end.
Proof.
  intros Hinc. revert lo hi. induction fuel as [|fuel IH]; intros lo hi Hhi Hf; [lia|].
  cbn [binary_search_n]. destruct (Nat.leb_spec hi lo); [intros i Hi; lia|].
  set (mid := (lo + (hi - lo) / 2)%nat).
  assert (lo <= mid < hi)%nat as Hmid.
  { subst mid. pose proof (Nat.div_lt (hi - lo) 2 ltac:(lia) ltac:(lia)). lia. }
  destruct (l !! mid) as [v|] eqn:Ev; [|apply lookup_ge_None in Ev; lia].
  destruct (v =? x) eqn:E1; [zbool; by subst|]. zbool.
  destruct (v <? x) eqn:E2; zbool.
  - specialize (IH (S mid) hi Hhi ltac:(lia)). destruct (binary_search_n fuel l (S mid) hi x); [done|].
    intros i Hi Hx. destruct (decide (S mid <= i)%nat) as [|Hn]; [by apply (IH i); [lia|]|].
    destruct (decide (i = mid)) as [->|]; [congruence|].
    pose proof (Hinc i mid x v ltac:(lia) Hx Ev). lia.
  - specialize (IH lo mid ltac:(lia) ltac:(lia)). destruct (binary_search_n fuel l lo mid x); [done|].
    intros i Hi Hx. destruct (decide (i < mid)%nat) as [|Hn]; [by apply (IH i); [lia|]|].
    destruct (decide (i = mid)) as [->|]; [congruence|].
    pose proof (Hinc mid i v x ltac:(lia) Ev Hx). lia.
Qed.

Lemma binary_search_spec l x :
  increasing l ->
  match binary_search l x with Some i => l !! i = Some x | None => x ∉ l end.
Proof.
  intros H. pose proof (binary_search_n_spec (S (length l)) l 0 (length l) x H ltac:(lia) ltac:(lia)) as Hs.
  unfold binary_search. destruct (binary_search_n _ l 0 (length l) x); [done|].
  intros Hin. apply list_elem_of_lookup in Hin as [i Hi]. apply (Hs i); [|done].
  apply lookup_lt_Some in Hi. lia.
Qed.

(** Sorted, below the counter, and not marked for collection. *)
Definition handles_ok (bound : Z) (h : FileHandles) : Prop :=
  increasing (handlers h) /\ Forall (fun fh => 0 <= fh < bound) (handlers h) /\ gc h = false.

Lemma handles_ok_mono b b' h : b <= b' -> handles_ok b h -> handles_ok b' h.
Proof.
  intros Hb (Hi & Hf & Hg). split; [done|]. split; [|done]. eapply Forall_impl; [exact Hf|]. cbn. lia.
Qed.

Lemma increasing_snoc l x : increasing l -> Forall (fun y => y < x) l -> increasing (l ++ [x]).
Proof.
  intros Hl Hx i j a b Hij Ha Hb. destruct (decide (j < length l)%nat) as [Hj|Hj].
  - rewrite lookup_app_l in Ha, Hb by lia. by apply (Hl i j).
  - rewrite lookup_app_r in Hb by lia. destruct (j - length l)%nat as [|m] eqn:Ej; [|by destruct m].
    injection Hb as <-. rewrite lookup_app_l in Ha by lia. by apply (Forall_lookup_1 _ _ _ _ Hx Ha).
Qed.

Lemma increasing_delete l i : increasing l -> increasing (delete i l).
Proof.
  intros Hl j k a b Hjk Ha Hb.
  destruct (decide (j < i)%nat), (decide (k < i)%nat);
    rewrite ?list_lookup_delete_lt, ?list_lookup_delete_ge in Ha by lia;
    rewrite ?list_lookup_delete_lt, ?list_lookup_delete_ge in Hb by lia;
    eapply Hl; [|exact Ha|exact Hb| |exact Ha|exact Hb| |exact Ha|exact Hb| |exact Ha|exact Hb]; lia.
Qed.

Lemma handles_ok_add b h : 0 <= b -> handles_ok b h ->
  exists h', add_handler b h = Done h' /\ handles_ok (b + 1) h'.
Proof.
  intros Hb (Hi & Hf & Hg). unfold add_handler. rewrite Hg. eexists. split; [done|].
  split; [|split; [|done]]; cbn.
  - apply increasing_snoc; [done|]. eapply Forall_impl; [exact Hf|]. cbn. lia.
  - apply Forall_app. split; [eapply Forall_impl; [exact Hf|]; cbn; lia|]. constructor; [lia|constructor].
Qed.

Lemma handles_ok_unregister b fh h h' : handles_ok b h -> unregister fh h = Some h' -> handles_ok b h'.
Proof.
  intros (Hi & Hf & Hg). unfold unregister. destruct (binary_search _ _) as [i|]; [|done].
  intros H. injection H as <-. split; [by apply increasing_delete|]. split; [by apply Forall_delete|done].
Qed.

(** Everything that changes the handles or the tree. *)
Inductive FuseOp : Type :=
| OOpen (ino : Z) | OOpendir (ino : Z) | ORelease (ino fh : Z) | OReleasedir (ino fh : Z)
| OLoad (now : Z) (l : list FileDescription) | OInit (now : Z).

Definition fuse_step (op : FuseOp) (s : FuseServer) : outcome FuseServer :=
  match op with
  | OOpen ino => let! (_, s) := open ino s in Done s
  | OOpendir ino => let! (_, s) := opendir ino s in Done s
  | ORelease ino fh => Done (release ino fh s).2
  | OReleasedir ino fh => Done (releasedir ino fh s).2
  | OLoad now l => Done (match load_file_list now l s with Ok s => s | Err _ => s end)
  | OInit now => Done (init now s)
  end.

Fixpoint fuse_run (ops : list FuseOp) (s : FuseServer) : outcome FuseServer :=
  match ops with
  | [] => Done s
  | op :: ops => let! s := fuse_step op s in fuse_run ops s
  end.

Definition server_ok (s : FuseServer) : Prop :=
  0 <= file_handle_counter s
  /\ Forall (fun n => handles_ok (file_handle_counter s) (file_handlers n)) (nodes s).

Lemma server_ok_set ino h s b :
  file_handle_counter s <= b -> server_ok s -> handles_ok b h ->
  Forall (fun n => handles_ok b (file_handlers n)) (nodes (set_handlers ino h s)).
Proof.
  intros Hb [_ Hs] Hh. apply Forall_alter; [|done].
  eapply Forall_impl; [exact Hs|]. intros n. by apply handles_ok_mono.
Qed.

Lemma open_node_ok k err ino s :
  server_ok s -> file_handle_counter s < 2 ^ 64 - 1 ->
  exists r s', open_node k err ino s = Done (r, s') /\ server_ok s'
    /\ file_handle_counter s <= file_handle_counter s' <= file_handle_counter s + 1.
Proof.
  intros Hs Hc. pose proof Hs as [H0 Hn]. unfold open_node.
  destruct (node_at s ino) as [n|] eqn:En; [|eexists _, _; split; [done|]; split; [done|lia]].
  assert (handles_ok (file_handle_counter s) (file_handlers n)) as Hh.
  { apply get_Some in En. by apply (Forall_lookup_1 _ _ _ _ Hn En). }
  destruct (decide (a_kind (attributes n) = k)); [|eexists _, _; split; [done|]; split; [done|lia]].
  destruct (gc (file_handlers n)); [eexists _, _; split; [done|]; split; [done|lia]|]. cbn [alloc_fd].
  destruct (handles_ok_add _ _ H0 Hh) as (h' & -> & Hh'). cbn [outcome_bind].
  rewrite wrap_small by lia. eexists _, _. split; [done|]. split; [|cbn; lia].
  split; [cbn; lia|]. cbn [file_handle_counter set_handlers].
  apply (server_ok_set ino h' (mkServer (generation s) (nodes s) (file_handle_counter s))); cbn; [lia|by split|done].
Qed.

Lemma release_ok ino fh h s n :
  server_ok s -> node_at s ino = Some n -> unregister fh (file_handlers n) = Some h ->
  server_ok (set_handlers ino h s).
Proof.
  intros Hs En Hu. pose proof Hs as [H0 Hn]. split; [done|].
  apply server_ok_set; [cbn; lia|done|]. apply get_Some in En.
  eapply handles_ok_unregister; [|exact Hu]. by apply (Forall_lookup_1 _ _ _ _ Hn En).
Qed.

Lemma handles_new_ok b : handles_ok b handles_new.
Proof. split; [by intros ? ? ? ?|]. by split. Qed.

(** Building the tree leaves every node without handles. *)
Lemma add_files_handles l st tree dirs :
  Forall (fun n => file_handlers n = handles_new) st.1 -> add_files l st = Ok (tree, dirs) ->
  Forall (fun n => file_handlers n = handles_new) tree.
Proof.
  revert st. induction l as [|desc l IH]; intros [t0 d0] H0 H.
  - by injection H as <- _.
  - cbn [add_files] in H. unfold add_file at 1 in H. destruct (file_name (name desc)); [|done].
    cbn [result_bind] in H. eapply IH; [|exact H]. cbn [fst].
    apply Forall_app. split; [|by repeat constructor].
    apply Forall_alter; [done|]. intros n _. done.
Qed.

Lemma load_ok now l s s' : server_ok s -> load_file_list now l s = Ok s' ->
  server_ok s' /\ file_handle_counter s' = file_handle_counter s.
Proof.
  intros [H0 _]. unfold load_file_list, build_tree.
  destruct (add_files l _) as [[tree dirs]|] eqn:E; [|done]. cbn [result_bind].
  intros H. injection H as <-. split; [|done]. split; [done|]. cbn.
  apply add_files_handles in E; [|by repeat constructor].
  eapply Forall_impl; [exact E|]. intros n ->. apply handles_new_ok.
Qed.

Lemma fuse_step_ok op s :
  server_ok s -> file_handle_counter s < 2 ^ 64 - 1 ->
  exists s', fuse_step op s = Done s' /\ server_ok s'
    /\ file_handle_counter s <= file_handle_counter s' <= file_handle_counter s + 1.
Proof.
  intros Hs Hc. destruct op as [ino|ino|ino fh|ino fh|now l|now]; cbn [fuse_step].
  - destruct (open_node_ok File ENFILE ino s Hs Hc) as (r & s' & E & H). unfold open. rewrite E. eauto.
  - destruct (open_node_ok Directory ENOTDIR ino s Hs Hc) as (r & s' & E & H). unfold opendir. rewrite E. eauto.
  - eexists. split; [done|]. unfold release. destruct (node_at s ino) as [n|] eqn:En; [|split; [done|cbn; lia]].
    destruct (unregister fh (file_handlers n)) eqn:Eu; [|split; [done|cbn; lia]].
    split; [by eapply release_ok|cbn; lia].
  - eexists. split; [done|]. unfold releasedir. destruct (node_at s ino) as [n|] eqn:En; [|split; [done|cbn; lia]].
    destruct (decide _); [|split; [done|cbn; lia]].
    destruct (unregister fh (file_handlers n)) eqn:Eu; [|split; [done|cbn; lia]].
    split; [by eapply release_ok|cbn; lia].
  - eexists. split; [done|]. destruct (load_file_list now l s) as [s'|] eqn:El; [|split; [done|lia]].
    apply load_ok in El as [? ->]; [|done]. split; [done|lia].
  - eexists. split; [done|]. unfold init. destruct (nodes s) eqn:En; [|split; [done|lia]].
    split; [|cbn; lia]. destruct Hs as [H0 _]. split; [done|]. repeat constructor; cbn; by intros ? ? ? ?.
Qed.

Lemma fuse_run_ok ops s :
  server_ok s -> file_handle_counter s + len ops < 2 ^ 64 ->
  exists s', fuse_run ops s = Done s' /\ server_ok s'.
Proof.
  revert s. induction ops as [|op ops IH]; intros s Hs Hc; [by exists s|]. unfold len in *. cbn [length] in Hc.
  destruct (fuse_step_ok op s Hs) as (s1 & E & Hs1 & Hc1); [lia|]. cbn [fuse_run]. rewrite E.
  cbn [outcome_bind]. apply IH; [done|lia].
Qed.

(** The claim in [FileHandles::new]: "the vector in handlers is sorted".
    After any sequence of opens, releases and newly loaded file lists, on any
    tree, no operation has panicked and the handles of every node are strictly
    increasing, so that the binary search of [have_handler] finds a handle
    exactly when it is registered.  (The handle counter must not have wrapped:
    fewer than 2^64 operations.) *)
Theorem handles_sorted ops :
  len ops < 2 ^ 64 ->
  exists s, fuse_run ops server_new = Done s
    /\ forall ino n, node_at s ino = Some n ->
         increasing (handlers (file_handlers n))
         /\ forall fh, have_handler fh (file_handlers n) = true <-> fh ∈ handlers (file_handlers n).
Proof.
  intros Hl. destruct (fuse_run_ok ops server_new) as (s & E & _ & Hn); [split; [done|constructor]|cbn; lia|].
  exists s. split; [done|]. intros ino n Hnode. apply get_Some in Hnode.
  destruct (Forall_lookup_1 _ _ _ _ Hn Hnode) as (Hi & _ & _). split; [done|]. intros fh.
  pose proof (binary_search_spec _ fh Hi) as Hb. unfold have_handler.
  destruct (binary_search _ fh) as [i|].
  - split; [|done]. intros _. by apply list_elem_of_lookup_2 in Hb.
  - split; [done|]. by intros ?%Hb.
Qed.

End Server.

Definition demo_desc (nm : text) : FileDescription := mkDescription 7 [nm] File 0 10 420.

Lemma handles_sorted_witness :
  exists s, fuse_run (fun i => i) [OInit 0; OLoad 0 [demo_desc [97]; demo_desc [98]]; OOpen 2; OOpen 3; OOpen 2; ORelease 2 0; OOpen 2]
              server_new = Done s
    /\ (handlers ∘ file_handlers) <$> node_at s 2 = Some [2; 3]
    /\ forall n, node_at s 2 = Some n -> have_handler 2 (file_handlers n) = true.
Proof.
  destruct (handles_sorted (fun i => i)
    [OInit 0; OLoad 0 [demo_desc [97]; demo_desc [98]]; OOpen 2; OOpen 3; OOpen 2; ORelease 2 0; OOpen 2]
    ltac:(vm_compute; reflexivity)) as (s & E & H).
  exists s. split; [exact E|]. assert ((handlers ∘ file_handlers) <$> node_at s 2 = Some [2; 3]) as Hh.
  { vm_compute in E. injection E as <-. reflexivity. }
  split; [exact Hh|]. intros n Hn. destruct (H 2 n Hn) as [_ Hi]. apply Hi.
  rewrite Hn in Hh. cbn in Hh. injection Hh as ->. left.
Defined.

End Fuse.
