(* ===== verification/ClipMsg.v ===== *)
(** * The file clipboard on the wire

    [src/clipboard_file.rs]: the translation between clipboard orders and
    protocol messages in both directions, and [serve_clip_messages], which
    answers the peer's clipboard messages; [libs/clipboard/src/lib.rs]: the
    table of channels through which local orders reach a connection.

    The last part puts the whole path of a paste together: the request of the
    pasting side's FUSE read ([FusePaste]), the two message translations, the
    answer of the side that owns the files ([ClipFiles]) and the reply that the
    read is waiting for. *)

From S2P Require Import Prelude RustStr ClipFiles FusePaste Messages.

#[local] Open Scope rust_scope.

Module ClipMsg.

Import Msg Fuse.

Module C := ClipFiles.ClipFiles.

(** ** Translations *)

(** [metadata_len] is the size [std::fs::metadata] reports, if any. *)
Definition clip_2_msg (metadata_len : C.text -> option Z) (clip : C.ClipboardFile) : Message :=
  match clip with
  | C.NotifyCallback type title txt => MMessageBox (mkMessageBox type title txt "")
  | C.MonitorReady => MCliprdr Ready
  | C.FormatList format_list => MCliprdr (FormatList format_list)
  | C.FormatListResponse msg_flags => MCliprdr (FormatListResponse msg_flags)
  | C.FormatDataRequest requested_format_id => MCliprdr (FormatDataRequest requested_format_id)
  | C.FormatDataResponse msg_flags format_data => MCliprdr (FormatDataResponse msg_flags format_data)
  | C.FileContentsRequest stream_id list_index dw_flags lo hi cb have_clip_data_id clip_data_id =>
    MCliprdr (FileContentsRequest stream_id list_index dw_flags lo hi cb have_clip_data_id clip_data_id)
  | C.FileContentsResponse msg_flags stream_id requested_data =>
    MCliprdr (FileContentsResponse msg_flags stream_id requested_data)
  | C.TryEmpty => MCliprdr TryEmpty
  | C.Files files =>
    MCliprdr (Files (omap (fun '(f, s) =>
      if s =? 0 then (fun n => mkCliprdrFile f n) <$> metadata_len f else Some (mkCliprdrFile f s)) files))
  end.

Definition msg_2_clip (m : Cliprdr) : option C.ClipboardFile :=
  match m with
  | Ready => Some C.MonitorReady
  | FormatList formats => Some (C.FormatList formats)
  | FormatListResponse msg_flags => Some (C.FormatListResponse msg_flags)
  | FormatDataRequest requested_format_id => Some (C.FormatDataRequest requested_format_id)
  | FormatDataResponse msg_flags format_data => Some (C.FormatDataResponse msg_flags format_data)
  | FileContentsRequest stream_id list_index dw_flags lo hi cb have_clip_data_id clip_data_id =>
    Some (C.FileContentsRequest stream_id list_index dw_flags lo hi cb have_clip_data_id clip_data_id)
  | FileContentsResponse msg_flags stream_id requested_data =>
    Some (C.FileContentsResponse msg_flags stream_id requested_data)
  | TryEmpty => Some C.TryEmpty
  | Files _ => None
  end.

(** ** Answering the peer *)

Definition FILEDESCRIPTOR_FORMAT_ID : Z := 49334.
Definition FILEDESCRIPTORW_FORMAT_NAME : string := "FileGroupDescriptorW".
Definition FILECONTENTS_FORMAT_ID : Z := 49267.
Definition FILECONTENTS_FORMAT_NAME : string := "FileContents".

(** [REMOTE_FORMAT_MAP] is never written. *)
Definition get_local_format (remote_id : Z) : option string :=
  if remote_id =? FILEDESCRIPTOR_FORMAT_ID then Some FILEDESCRIPTORW_FORMAT_NAME
  else if remote_id =? FILECONTENTS_FORMAT_ID then Some FILECONTENTS_FORMAT_NAME
  else None.

Definition get_format_list : C.ClipboardFile :=
  C.FormatList
    [(FILEDESCRIPTOR_FORMAT_ID, unwrap_or FILEDESCRIPTORW_FORMAT_NAME (get_local_format FILEDESCRIPTOR_FORMAT_ID));
     (FILECONTENTS_FORMAT_ID, unwrap_or FILECONTENTS_FORMAT_NAME (get_local_format FILECONTENTS_FORMAT_ID))].

Inductive ClipboardSide : Type := Host | Client.

Definition is_client (s : ClipboardSide) : bool := match s with Client => true | Host => false end.

(** The clipboard state of a process: the files it serves and the FUSE contexts
    of its two sides. *)
Record ClipState : Type := mkClipState {
  served : C.ClipFiles; ctx_client : option FuseContext; ctx_server : option FuseContext }.

Definition context (client : bool) (s : ClipState) : option FuseContext :=
  if client then ctx_client s else ctx_server s.
Definition set_context (client : bool) (c : option FuseContext) (s : ClipState) : ClipState :=
  if client then mkClipState (served s) c (ctx_server s) else mkClipState (served s) (ctx_client s) c.
Definition set_served (c : C.ClipFiles) (s : ClipState) : ClipState :=
  mkClipState c (ctx_client s) (ctx_server s).

(** What else happens: urls put on the system clipboard, a reply handed to the
    FUSE read that waits for it, the thread that empties the clipboard. *)
Inductive ClipEffect : Type :=
| UpdateClipboardFiles (names : list C.text) (side : ClipboardSide)
| ToFuse (client : bool) (clip : C.ClipboardFile)
| EmptyClipboardThread (side : ClipboardSide) (conn_id : Z).

Section Serve.
Context {U : C.Utf16}.
Context (disk : C.Disk) (metadata_len : C.text -> option Z).
(** Whether mounting succeeds, the clock, and the random stream ids. *)
Context (mount_ok : bool) (now : Z) (rand : Z -> Z).

(** A mounted server starts with the root only ([Filesystem::init]). *)
Definition init_fuse_context (client : bool) (s : ClipState) : bool * ClipState :=
  match context client s with
  | Some _ => (true, s)
  | None => if mount_ok
            then (true, set_context client (Some (mkContext (init rand now server_new) 0)) s)
            else (false, s)
  end.

Definition uninit_fuse_context (client : bool) (s : ClipState) : ClipState := set_context client None s.

Definition msg_resp_format_data_failure : Message := clip_2_msg metadata_len (C.FormatDataResponse 2 []).
Definition resp_file_contents_fail (stream_id : Z) : Message :=
  clip_2_msg metadata_len (C.FileContentsResponse 2 stream_id []).

Definition serve_clip_messages (side : ClipboardSide) (clip : C.ClipboardFile) (conn_id : Z) (s : ClipState)
  : outcome (list Message * list ClipEffect * ClipState) :=
  match clip with
  | C.MonitorReady => Done ([], [], s)
  | C.FormatList format_list =>
    if negb (existsb (fun f => String.eqb (snd f) FILECONTENTS_FORMAT_NAME) format_list) then Done ([], [], s)
    else match find (fun f => String.eqb (snd f) FILEDESCRIPTORW_FORMAT_NAME) format_list with
         | Some (file_descriptor_id, _) =>
           Done ([clip_2_msg metadata_len (C.FormatDataRequest file_descriptor_id)], [], s)
         | None => Done ([], [], s)
         end
  | C.FormatListResponse _ => Done ([], [], s)
  | C.FormatDataRequest _ =>
    match C.get_file_list_pdu (served s) with
    | [] => Done ([msg_resp_format_data_failure], [], s)
    | format_data => Done ([clip_2_msg metadata_len (C.FormatDataResponse 1 format_data)], [], s)
    end
  | C.FormatDataResponse _ format_data =>
    let '(ok, s) := init_fuse_context true s in
    if ok then
      match context (is_client side) s with
      | None => Done ([], [], s)
      | Some ctx =>
        match format_data_response_to_urls rand now format_data conn_id ctx with
        | (Ok [], ctx) => Done ([], [], set_context (is_client side) (Some ctx) s)
        | (Ok names, ctx) =>
          Done ([], [UpdateClipboardFiles names side], set_context (is_client side) (Some ctx) s)
        | (Err _, ctx) => Done ([], [], set_context (is_client side) (Some ctx) s)
        end
      end
    else Done ([], [], s)
  | C.FileContentsRequest stream_id list_index dw_flags lo hi cb _ _ =>
    let! (res, c) := C.read_file_contents disk conn_id stream_id list_index dw_flags lo hi cb (served s) in
    Done (map (fun r => match r with
                        | Ok data => clip_2_msg metadata_len data
                        | Err _ => resp_file_contents_fail stream_id
                        end) res, [], set_served c s)
  | C.FileContentsResponse _ _ _ =>
    let '(ok, s) := init_fuse_context true s in
    if ok then
      match context (is_client side) s with
      | None => Done ([], [], s)
      | Some _ => Done ([], [ToFuse (is_client side) clip], s)
      end
    else Done ([], [], s)
  | C.TryEmpty => Done ([], [EmptyClipboardThread side conn_id], s)
  | C.NotifyCallback _ _ _ | C.Files _ => Done ([], [], s)
  end.

End Serve.

(** ** The connection's handling of a clipboard message

    ([Connection::on_message], branch [Cliprdr]): the peer's list of files is
    only audited; anything else is answered when the peer's version supports
    it, and lists of files among the answers are audited instead of sent. *)

Inductive ClipOut : Type :=
| COAudit (remote_receive : bool) (files : list CliprdrFile)
| COSend (m : Message)
| COEffect (e : ClipEffect).

Definition clip_out (m : Message) : ClipOut :=
  match m with
  | MCliprdr (Files files) => COAudit false files
  | m => COSend m
  end.

Definition on_cliprdr `{U : C.Utf16} (disk : C.Disk) (metadata_len : C.text -> option Z) (mount_ok : bool)
  (now : Z) (rand : Z -> Z) (supported : bool) (clip : Cliprdr) (conn_id : Z) (s : ClipState)
  : outcome (list ClipOut * ClipState) :=
  match clip with
  | Files files => Done ([COAudit true files], s)
  | _ =>
    match msg_2_clip clip with
    | Some c =>
      if supported then
        let! (out_msgs, effects, s) :=
          serve_clip_messages disk metadata_len mount_ok now rand Host c conn_id s in
        Done (map COEffect effects ++ map clip_out out_msgs, s)
      else Done ([], s)
    | None => Done ([], s)
    end
  end.

(** ** Channels of local orders ([VEC_MSG_CHANNEL]) *)

(** A channel is its peer, its connection and the orders waiting in it; a
    server's channel has no peer. *)
Record MsgChannel : Type := mkChannel { ch_peer : string; ch_conn : Z; queue : list C.ClipboardFile }.

Record Channels : Type := mkChannels { channels : list MsgChannel; CLIENT_CONN_ID_COUNTER : Z }.

Definition get_client_conn_id (peer : string) (c : Channels) : option Z :=
  ch_conn <$> find (fun x => String.eqb (ch_peer x) peer) (channels c).

Definition get_rx_cliprdr_client (peer : string) (c : Channels) : Z * Channels :=
  match find (fun x => String.eqb (ch_peer x) peer) (channels c) with
  | Some x => (ch_conn x, c)
  | None =>
    let id := i32 (CLIENT_CONN_ID_COUNTER c + 1) in
    (id, mkChannels (channels c ++ [mkChannel peer id []]) id)
  end.

Definition get_rx_cliprdr_server (conn : Z) (c : Channels) : Channels :=
  match find (fun x => ch_conn x =? conn) (channels c) with
  | Some _ => c
  | None => mkChannels (channels c ++ [mkChannel "" conn []]) (CLIENT_CONN_ID_COUNTER c)
  end.

Fixpoint remove_first (conn : Z) (l : list MsgChannel) : list MsgChannel :=
  match l with
  | [] => []
  | x :: l => if ch_conn x =? conn then l else x :: remove_first conn l
  end.

Definition remove_channel_by_conn_id (conn : Z) (c : Channels) : Channels :=
  mkChannels (remove_first conn (channels c)) (CLIENT_CONN_ID_COUNTER c).

Definition push (data : C.ClipboardFile) (x : MsgChannel) : MsgChannel :=
  mkChannel (ch_peer x) (ch_conn x) (queue x ++ [data]).

Fixpoint send_first (conn : Z) (data : C.ClipboardFile) (l : list MsgChannel) : option (list MsgChannel) :=
  match l with
  | [] => None
  | x :: l => if ch_conn x =? conn then Some (push data x :: l) else cons x <$> send_first conn data l
  end.

Definition send_data_to_channel (conn : Z) (data : C.ClipboardFile) (c : Channels)
  : result unit C.CliprdrError * Channels :=
  match send_first conn data (channels c) with
  | Some l => (Ok tt, mkChannels l (CLIENT_CONN_ID_COUNTER c))
  | None => (Err (C.InvalidRequest "conn_id not found"), c)
  end.

Definition send_data_to_all (data : C.ClipboardFile) (c : Channels) : Channels :=
  mkChannels (push data <$> channels c) (CLIENT_CONN_ID_COUNTER c).

(** Outside Windows, connection 0 stands for all. *)
Definition send_data (conn : Z) (data : C.ClipboardFile) (c : Channels)
  : result unit C.CliprdrError * Channels :=
  if conn =? 0 then (Ok tt, send_data_to_all data c) else send_data_to_channel conn data c.

(** ** The translations are inverse to each other *)

(** Every clipboard order other than the notification and the audit list
    survives the translation to a protocol message and back; and every clipboard
    message other than the audit list is the translation of the order it is
    read as. *)
Lemma clip_msg_roundtrip metadata_len :
  (forall clip, match clip with C.NotifyCallback _ _ _ | C.Files _ => False | _ => True end ->
     exists m, clip_2_msg metadata_len clip = MCliprdr m /\ msg_2_clip m = Some clip)
  /\ (forall m clip, msg_2_clip m = Some clip -> clip_2_msg metadata_len clip = MCliprdr m).
Proof.
  split.
  - intros [] H; try done; eexists; split; done.
  - intros [] clip H; try discriminate H; injection H as <-; reflexivity.
Qed.

(** ** A paste from end to end *)

Section Paste.
Context {U : C.Utf16} `{!C.Utf16Laws U}.
Context (disk : C.Disk) (metadata_len : C.text -> option Z) (mount_ok : bool) (now : Z) (rand : Z -> Z).

(** A FUSE read of the pasting side: the request travels to the owner of the
    files, which answers for its connection [conn]; what it sends back is what
    the read gets to see. *)
Definition replies (outs : list ClipOut) : list C.ClipboardFile :=
  omap (fun o => match o with COSend (MCliprdr m) => msg_2_clip m | _ => None end) outs.

Definition remote_read (n : FuseNode) (off size conn : Z) (owner : ClipState)
  : outcome (result (list Z) string * ClipState) :=
  match clip_2_msg metadata_len (read_request n off size) with
  | MCliprdr m =>
    let! (outs, owner) := on_cliprdr disk metadata_len mount_ok now rand true m conn owner in
    Done (fst (read_node n (replies outs)), owner)
  | _ => Done (Err "not a clipboard message", owner)
  end.

(** The owner has announced its files. *)
Record announced (c : C.ClipFiles) : Prop := {
  an_pdu : C.build_file_list_pdu c = Done c;
  an_count : len (C.file_list c) < 2 ^ 31;
  an_desc : Forall C.describable (C.file_list c);
  an_named : Forall (fun f => is_Some (C.file_name (C.rel_path f))) (C.file_list c);
  an_size : Forall (fun f => C.size f < 2 ^ 62) (C.file_list c) }.

Lemma request_index k : (Z.of_nat k < 2 ^ 31) -> u64 (i32 (Z.of_nat k)) = Z.of_nat k.
Proof. intros Hk. rewrite swrap_small by lia. apply wrap_small. lia. Qed.

(** The position survives exactly when its bit 31 is clear: [i32 as u64]
    extends the sign of the lower half. *)
Lemma position_roundtrip off :
  0 <= off < 2 ^ 63 ->
  let lo := i32 (Z.land off (2 ^ 32 - 1)) in
  let hi := i32 (Z.shiftr off 32) in
  let off' := Z.lor (u64 (Z.shiftl (u64 hi) 32)) (u64 lo) in
  (off mod 2 ^ 32 < 2 ^ 31 -> off' = off) /\ (2 ^ 31 <= off mod 2 ^ 32 -> 2 ^ 64 - 2 ^ 31 <= off').
Proof.
  intros Hoff lo hi off'. pose proof (Z.div_mod off (2 ^ 32)) as Hdm.
  pose proof (Z.mod_pos_bound off (2 ^ 32)) as Hmod.
  assert (0 <= off / 2 ^ 32 < 2 ^ 31) as Hdiv by (split; [apply Z.div_pos|apply Z.div_lt_upper_bound]; lia).
  assert (u64 (Z.shiftl (u64 hi) 32) = off / 2 ^ 32 * 2 ^ 32) as Hh.
  { unfold hi. rewrite shiftr_div by lia. rewrite swrap_small by lia.
    rewrite (wrap_small 64 (off / 2 ^ 32)) by lia. rewrite Z.shiftl_mul_pow2 by lia. apply wrap_small. lia. }
  split; intros Hlo; unfold off'; rewrite Hh; unfold lo; rewrite land_mask by lia.
  - rewrite swrap_small, wrap_small by lia. rewrite Z.lor_comm, <- Z.shiftl_mul_pow2 by lia.
    rewrite lor_shiftl by lia. lia.
  - assert (i32 (off mod 2 ^ 32) = off mod 2 ^ 32 - 2 ^ 32) as ->.
    { unfold swrap. change (2 ^ (32 - 1)) with (2 ^ 31).
      rewrite <- (Z.mod_unique (off mod 2 ^ 32 + 2 ^ 31) (2 ^ 32) 1 (off mod 2 ^ 32 - 2 ^ 31)); lia. }
    assert (u64 (off mod 2 ^ 32 - 2 ^ 32) = off mod 2 ^ 32 - 2 ^ 32 + 2 ^ 64) as ->.
    { symmetry. apply (Z.mod_unique _ _ (-1)); lia. }
    pose proof (lor_ge_r (off / 2 ^ 32 * 2 ^ 32) (off mod 2 ^ 32 - 2 ^ 32 + 2 ^ 64)). lia.
Qed.

(** The answer to a read whose position survives. *)
Lemma remote_read_ok n k f content off size conn owner :
  let l := C.file_list (served owner) in
  Forall (C.ready disk) l -> l !! k = Some f -> Z.of_nat k < 2 ^ 31 -> index n = Z.of_nat k ->
  C.is_dir f = false -> C.open_file disk (C.path f) = Some content -> C.size f < 2 ^ 62 ->
  0 <= off <= C.size f -> off mod 2 ^ 32 < 2 ^ 31 -> 0 <= size < 2 ^ 31 ->
  exists owner', remote_read n off size conn owner = Done (Ok (C.slice off size content), owner')
    /\ Forall (C.ready disk) (C.file_list (served owner'))
    /\ C.static <$> C.file_list (served owner') = C.static <$> l.
Proof.
  intros l Hr Hk Hk31 Hidx Hd Hc Hs Hoff Hbit Hsize. unfold remote_read, read_request, clip_2_msg.
  cbn [on_cliprdr msg_2_clip serve_clip_messages]. unfold C.read_file_contents, C.request_of.
  change (2 =? 1) with false. change (2 =? 2) with true. cbv iota. rewrite Hidx, request_index by done.
  rewrite (proj1 (position_roundtrip off ltac:(lia))) by done.
  rewrite (swrap_small 32 size), (wrap_small 64 size) by lia.
  assert (C.get l (Z.of_nat k) = Some f) as Hg.
  { unfold C.get. rewrite Nat2Z.id, (proj2 (Z.ltb_lt _ _)); [done|].
    apply lookup_lt_Some in Hk. unfold len. lia. }
  destruct (C.serve_range disk (served owner) conn (n_stream_id n) (Z.of_nat k) off size f content)
    as (c' & E & Hr' & Hst); [done..|lia|lia|lia|]. rewrite E. cbn [outcome_bind].
  exists (set_served c' owner). split; [|split; [exact Hr'|exact Hst]].
  rewrite map_app. destruct (C.get_files_for_audit _ _ _) as [a|] eqn:Ea.
  - unfold C.get_files_for_audit in Ea. destruct (_ && _); [|done]. destruct (omap _ _); [done|].
    injection Ea as <-. cbn. unfold read_node. cbn. by rewrite Z.eqb_refl.
  - cbn. unfold read_node. cbn. by rewrite Z.eqb_refl.
Qed.

(** The answer to a read whose position does not survive. *)
Lemma remote_read_lost n k f off size conn owner :
  let l := C.file_list (served owner) in
  l !! k = Some f -> Z.of_nat k < 2 ^ 31 -> index n = Z.of_nat k ->
  C.size f < 2 ^ 62 -> 0 <= off <= C.size f -> 2 ^ 31 <= off mod 2 ^ 32 -> 0 <= size < 2 ^ 31 ->
  exists m, clip_2_msg metadata_len (read_request n off size) = MCliprdr m
    /\ on_cliprdr disk metadata_len mount_ok now rand true m conn owner
       = Done ([COSend (resp_file_contents_fail metadata_len (n_stream_id n))], owner).
Proof.
  intros l Hk Hk31 Hidx Hs Hoff Hbit Hsize. eexists. split; [reflexivity|].
  cbn [on_cliprdr msg_2_clip serve_clip_messages]. unfold C.read_file_contents, C.request_of.
  change (2 =? 1) with false. change (2 =? 2) with true. cbv iota. rewrite Hidx, request_index by done.
  pose proof (proj2 (position_roundtrip off ltac:(lia)) Hbit) as Hoff'. cbv zeta in Hoff'.
  set (off' := Z.lor _ _) in *. unfold C.get_files_for_audit.
  rewrite (proj2 (Z.eqb_neq off' 0)) by lia. rewrite andb_false_r. unfold C.serve_file_contents.
  assert (C.get l (Z.of_nat k) = Some f) as Hg.
  { unfold C.get. rewrite Nat2Z.id, (proj2 (Z.ltb_lt _ _)); [done|].
    apply lookup_lt_Some in Hk. unfold len. lia. }
  fold l. rewrite Hg. rewrite (proj2 (Z.ltb_lt (C.size f) off')) by lia. cbn.
  by destruct owner.
Qed.

(** Failed replies never make a read succeed, however many arrive. *)
Lemma await_failures sid r k : exists e, (await sid r (replicate k (C.FileContentsResponse 2 sid []))).1.1 = Err e.
Proof.
  revert r. induction k as [|k IH]; intros r; [by eexists|]. cbn [replicate await].
  rewrite Z.eqb_refl. cbn [negb]. change (Z.land 2 1 =? 0) with true. cbv iota zeta.
  destruct (READ_RETRY <? r + 1); [by eexists|apply IH].
Qed.

(** The pasting side's tree has the owner's files in the owner's order. *)
Lemma announced_tree c conn ctx :
  announced c ->
  exists urls ctx', format_data_response_to_urls rand now (C.files_pdu c) conn ctx = (Ok urls, ctx')
    /\ forall k f, C.file_list c !! k = Some f ->
       exists n, node_at (server ctx') (Z.of_nat k + 2) = Some n /\ node_of rand k (C.describe conn f) n.
Proof.
  intros [Hpdu Hcount Hdesc Hnamed _].
  destruct (C.pdu_announces c conn ltac:(lia) Hdesc) as (c' & Hc' & _ & Hparse).
  assert (c' = c) as -> by congruence. unfold format_data_response_to_urls. rewrite Hparse.
  destruct (build_tree_ok rand now (C.describe conn <$> C.file_list c)) as [tree Ht].
  { apply Forall_fmap. exact Hnamed. }
  unfold load_file_list. rewrite Ht. cbn [result_bind]. eexists _, _. split; [reflexivity|].
  intros k f Hk. destruct (build_tree_nodes _ _ _ _ Ht) as [Hlen Hn]. rewrite length_fmap in Hlen.
  destruct (Hn k (C.describe conn f)) as (n & En & Hnode); [by rewrite list_lookup_fmap, Hk|].
  exists n. split; [|done]. unfold node_at, C.get. cbn [server nodes].
  apply lookup_lt_Some in Hk as Hlt. unfold len in *.
  rewrite wrap_small by lia. rewrite (proj2 (Z.ltb_lt _ _)) by lia.
  by replace (Z.to_nat (Z.of_nat k + 2 - 1)) with (S k) by lia.
Qed.

(** C25. A pasted file has the bytes of the copied file.  Once the owner's file
    list was announced and loaded by the pasting side, the inode of every
    copied file has the file's size, and a FUSE read at any position below 2 GiB
    (more generally, whose bit 31 is clear) returns exactly the bytes of that
    range, cut off at the end of the file; this holds for reads in any order,
    of any of the files, one after the other. *)
Theorem paste_reads owner conn_p conn_o ctx :
  announced (served owner) -> Forall (C.ready disk) (C.file_list (served owner)) ->
  exists urls ctx',
    format_data_response_to_urls rand now (C.files_pdu (served owner)) conn_p ctx = (Ok urls, ctx')
    /\ forall owner1 k f content,
       Forall (C.ready disk) (C.file_list (served owner1)) ->
       C.static <$> C.file_list (served owner1) = C.static <$> C.file_list (served owner) ->
       C.file_list (served owner) !! k = Some f -> C.is_dir f = false ->
       C.open_file disk (C.path f) = Some content ->
       exists n, node_at (server ctx') (Z.of_nat k + 2) = Some n /\ a_size (attributes n) = len content
         /\ a_kind (attributes n) = C.File
         /\ forall off size, 0 <= off <= len content -> off mod 2 ^ 32 < 2 ^ 31 -> 0 <= size < 2 ^ 31 ->
            exists owner2, remote_read n off size conn_o owner1 = Done (Ok (C.slice off size content), owner2)
              /\ Forall (C.ready disk) (C.file_list (served owner2))
              /\ C.static <$> C.file_list (served owner2) = C.static <$> C.file_list (served owner).
Proof.
  intros Ha Har. destruct (announced_tree _ conn_p ctx Ha) as (urls & ctx' & E & Hn).
  exists urls, ctx'. split; [done|]. intros owner1 k f content Hr1 Hst1 Hk Hd Hc.
  destruct (Hn k f Hk) as (n & En & _ & _ & Hidx & _ & Hattr & _). exists n. split; [done|]. rewrite Hattr. cbn [a_size a_kind C.describe C.d_size C.kind].
  pose proof (Forall_lookup_1 _ _ _ _ Har Hk) as Hready. unfold C.ready in Hready. rewrite Hd in Hready.
  destruct Hready as (content' & Hc' & Hsz & _). assert (content' = content) as -> by congruence.
  pose proof (Forall_lookup_1 _ _ _ _ (an_size _ Ha) Hk) as Hs. cbn in Hs.
  assert (Z.of_nat k < 2 ^ 31) as Hk31.
  { apply lookup_lt_Some in Hk. pose proof (an_count _ Ha). unfold len in *. lia. }
  assert (exists f1, C.file_list (served owner1) !! k = Some f1 /\ C.static f1 = C.static f) as (f1 & Hf1 & Hsf).
  { apply (f_equal (fun l => l !! k)) in Hst1. rewrite !list_lookup_fmap, Hk in Hst1.
    destruct (C.file_list (served owner1) !! k) as [f1|]; [|done]. exists f1. split; [done|].
    apply (inj Some) in Hst1. exact Hst1. }
  assert (C.path f1 = C.path f /\ C.size f1 = C.size f /\ C.is_dir f1 = C.is_dir f) as (Hp1 & Hs1 & Hd1)
    by (unfold C.static in Hsf; split; [|split]; congruence).
  split; [by rewrite Hsz|]. split; [by rewrite Hd|]. intros off size Hoff Hbit Hsize.
  destruct (remote_read_ok n k f1 content off size conn_o owner1) as (owner2 & E2 & Hr2 & Hst2);
    [done..|congruence|congruence|lia|lia|done|done|].
  exists owner2. split; [done|]. split; [done|]. by rewrite Hst2.
Qed.

(** Pasting stops at 2 GiB.  For a copied file larger than that, a FUSE read
    at a position between 2 GiB and 4 GiB (or, in general, whose bit 31 is set)
    is refused by the owner although the range exists, and since every repeated
    request is refused in the same way the read fails with EIO. *)
Theorem paste_fails_beyond_2gib owner conn_p conn_o ctx :
  announced (served owner) ->
  exists urls ctx',
    format_data_response_to_urls rand now (C.files_pdu (served owner)) conn_p ctx = (Ok urls, ctx')
    /\ forall k f, C.file_list (served owner) !! k = Some f ->
       exists n, node_at (server ctx') (Z.of_nat k + 2) = Some n
         /\ forall off size, 0 <= off < C.size f -> 2 ^ 31 <= off mod 2 ^ 32 -> 0 <= size < 2 ^ 31 ->
            exists m fail, clip_2_msg metadata_len (read_request n off size) = MCliprdr m
              /\ on_cliprdr disk metadata_len mount_ok now rand true m conn_o owner = Done ([COSend (MCliprdr fail)], owner)
              /\ msg_2_clip fail = Some (C.FileContentsResponse 2 (n_stream_id n) [])
              /\ forall times, exists e,
                   fst (read_node n (replicate times (C.FileContentsResponse 2 (n_stream_id n) []))) = Err e.
Proof.
  intros Ha. destruct (announced_tree _ conn_p ctx Ha) as (urls & ctx' & E & Hn).
  exists urls, ctx'. split; [done|]. intros k f Hk.
  destruct (Hn k f Hk) as (n & En & _ & _ & Hidx & _). exists n. split; [done|].
  intros off size Hoff Hbit Hsize.
  pose proof (Forall_lookup_1 _ _ _ _ (an_size _ Ha) Hk) as Hs. cbn in Hs.
  assert (Z.of_nat k < 2 ^ 31) as Hk31.
  { apply lookup_lt_Some in Hk. pose proof (an_count _ Ha). unfold len in *. lia. }
  destruct (remote_read_lost n k f off size conn_o owner) as (m & Em & Eo); [done..|lia|done|done|].
  eexists m, _. split; [done|]. split; [exact Eo|]. split; [done|]. intros times.
  destruct (await_failures (n_stream_id n) 0 times) as [e He]. exists e. unfold read_node.
  by destruct (await _ _ _) as [[] ?].
Qed.

End Paste.

(** ** A concrete paste *)

Definition demo_content : list Z := [72; 105; 98; 116; 33].
Definition demo_disk : C.Disk := C.mkDisk (fun _ => None) (fun _ => None) (fun _ => Some demo_content).

(** One copied file of the given size, announced. *)
Definition demo_owner (size : Z) : ClipState :=
  let c := C.mkClipFiles [] [C.demo_file [[97]] false size] 0 [] in
  mkClipState (match C.build_file_list_pdu (U := C.utf16le) c with Done c => c | Panic => c end) None None.

Lemma demo_announced size : 0 <= size < 2 ^ 62 -> announced (U := C.utf16le) (served (demo_owner size)).
Proof.
  intros Hs. pose proof C.utf16le_laws.
  assert (Forall (C.describable (U := C.utf16le)) [C.demo_file [[97]] false size]) as Hd.
  { constructor; [|constructor]. split.
    - repeat constructor; [done|done|..]; unfold C.scalar, C.SLASH, C.BACKSLASH; lia.
    - vm_compute. discriminate.
    - cbn [C.size C.demo_file]. lia.
    - cbn. lia.
    - cbn. lia. }
  set (c := C.mkClipFiles [] [C.demo_file [[97]] false size] 0 []).
  destruct (C.pdu_announces (U := C.utf16le) c 1 eq_refl Hd) as (c' & Hc & Hl & _).
  unfold demo_owner. fold c. rewrite Hc. cbn [served].
  split; try (rewrite Hl; cbn).
  - unfold C.build_file_list_pdu in Hc |- *. rewrite Hl.
    destruct (C.concat_bins (C.as_bin <$> C.file_list c)) as [b|]; [|done]. cbn [outcome_bind] in *.
    injection Hc as <-. done.
  - done.
  - exact Hd.
  - repeat constructor; by eexists.
  - repeat constructor. cbn. lia.
Qed.

Definition demo_context : FuseContext := mkContext server_new 0.

Lemma paste_reads_witness :
  exists n owner2, remote_read (U := C.utf16le) demo_disk (fun _ => None) true 0 (fun i => i) n 1 100 1001 (demo_owner 5)
                   = Done (Ok [105; 98; 116; 33], owner2)
    /\ a_size (attributes n) = 5.
Proof.
  pose proof C.utf16le_laws.
  assert (Forall (C.ready demo_disk) (C.file_list (served (demo_owner 5)))) as Hr.
  { constructor; [|constructor]. exists demo_content. split; [done|]. split; [done|]. by left. }
  destruct (paste_reads (U := C.utf16le) demo_disk (fun _ => None) true 0 (fun i => i) (demo_owner 5) 1 1001 demo_context
    (demo_announced 5 ltac:(lia)) Hr) as (urls & ctx' & _ & Hn).
  destruct (Hn (demo_owner 5) 0%nat (C.demo_file [[97]] false 5) demo_content Hr eq_refl eq_refl eq_refl eq_refl)
    as (n & _ & Hsz & _ & Hread).
  destruct (Hread 1 100) as (owner2 & E & _); [vm_compute; split; discriminate|reflexivity|lia|].
  exists n, owner2. split; [exact E|exact Hsz].
Defined.

(** A file of 3,000,000,000 bytes, read at 2,500,000,000. *)
Lemma paste_fails_beyond_2gib_witness :
  exists n, index n = 0 /\ forall times, exists e,
    fst (read_node n (replicate times (C.FileContentsResponse 2 (n_stream_id n) []))) = Err e.
Proof.
  pose proof C.utf16le_laws.
  destruct (paste_fails_beyond_2gib (U := C.utf16le) demo_disk (fun _ => None) true 0 (fun i => i)
    (demo_owner 3000000000) 1 1001 demo_context (demo_announced 3000000000 ltac:(lia)))
    as (urls & ctx' & E & Hn).
  destruct (Hn 0%nat (C.demo_file [[97]] false 3000000000) eq_refl) as (n & En & Hread).
  destruct (Hread 2500000000 4096) as (m & fail & _ & _ & _ & Hf); [cbn; lia|vm_compute; discriminate|lia|].
  exists n. split; [|exact Hf]. vm_compute in E. injection E as <- <-. vm_compute in En. injection En as <-. reflexivity.
Defined.

End ClipMsg.
