(* ===== verification/TerminalBuffer.v ===== *)
(** * The output buffer of a terminal ([OutputBuffer] of [src/server/terminal_service.rs])

    What a shell printed is kept in lines, the oldest of which are thrown away
    when there are too many or too many bytes.  The size is counted in
    [total_size], a [usize]: in a release build its arithmetic wraps around.

    The loop that throws lines away is written as a structural recursion over
    the lines; it has no result when the loop of the code does not end, which
    [trim_forever] justifies against the single rounds of the loop. *)

From S2P Require Import Prelude RustStr.

Module Buffer.

Definition MAX_OUTPUT_BUFFER_SIZE : Z := 1024 * 1024.
Definition MAX_BUFFER_LINES : Z := 10000.

Definition line := list Z.

Record OutputBuffer : Type := mkBuffer {
  lines : list line;
  total_size : Z;
  last_line_incomplete : bool }.

Definition new : OutputBuffer := mkBuffer [] 0 false.

Definition NL : Z := 10.

(** The bytes up to and with the first newline, and the rest. *)
Fixpoint split_newline (data : list Z) : option (list Z * list Z) :=
  match data with
  | [] => None
  | b :: rest =>
    if b =? NL then Some ([b], rest)
    else match split_newline rest with
         | Some (l, r) => Some (b :: l, r)
         | None => None
         end
  end.

(** [slice::split] at newlines: always one piece more than newlines. *)
Fixpoint split_lines (data : list Z) : list line :=
  match data with
  | [] => [[]]
  | b :: rest =>
    if b =? NL then [] :: split_lines rest
    else match split_lines rest with
         | l :: ls => (b :: l) :: ls
         | [] => [[b]]
         end
  end.

Definition ends_with_newline (data : list Z) : bool :=
  match last data with Some b => b =? NL | None => false end.

(** The loop over the pieces of [remaining]: all but the last get their
    newline back. *)
Fixpoint push_lines (ends : bool) (pieces : list line) (b : OutputBuffer) : OutputBuffer :=
  match pieces with
  | [] => b
  | [l] =>
    let b := if negb ends && negb (match l with [] => true | _ => false end)
             then mkBuffer (lines b) (total_size b) true else b in
    match l with
    | [] => b
    | _ => let l := if ends then l ++ [NL] else l in
           mkBuffer (lines b ++ [l]) (u64 (total_size b + len l)) (last_line_incomplete b)
    end
  | l :: rest =>
    let l := l ++ [NL] in
    push_lines ends rest (mkBuffer (lines b ++ [l]) (u64 (total_size b + len l)) (last_line_incomplete b))
  end.

(** ** Throwing old lines away *)

Definition too_large (ls : list line) (total : Z) : bool :=
  (MAX_OUTPUT_BUFFER_SIZE <? total) || (MAX_BUFFER_LINES <? len ls).

(** One round of the [while] loop; [None] when its condition is false. *)
Definition trim_round (st : list line * Z) : option (list line * Z) :=
  let '(ls, total) := st in
  if too_large ls total then
    match ls with
    | removed :: ls => Some (ls, u64 (total - len removed))
    | [] => Some ([], total)
    end
  else None.

(** The loop; [None] when it does not end. *)
Fixpoint trim (ls : list line) (total : Z) : option (list line * Z) :=
  if too_large ls total then
    match ls with
    | removed :: ls => trim ls (u64 (total - len removed))
    | [] => None
    end
  else Some (ls, total).

(** [OutputBuffer::append]; [None] when it does not return. *)
Definition append (data : list Z) (b : OutputBuffer) : option OutputBuffer :=
  match data with
  | [] => Some b
  | _ =>
    let resume : OutputBuffer * list Z + OutputBuffer :=
      match last_line_incomplete b, last (lines b) with
      | true, Some last_line =>
        let but_last := removelast (lines b) in
        match split_newline data with
        | Some (l, rest) => inl (mkBuffer (but_last ++ [last_line ++ l]) (total_size b) false, rest)
        | None => inr (mkBuffer (but_last ++ [last_line ++ data]) (u64 (total_size b + len data)) true)
        end
      | _, _ => inl (b, data)
      end in
    match resume with
    | inr b => Some b
    | inl (b, remaining) =>
      let b := push_lines (ends_with_newline remaining) (split_lines remaining) b in
      match trim (lines b) (total_size b) with
      | Some (ls, total) => Some (mkBuffer ls total (last_line_incomplete b))
      | None => None
      end
    end
  end.

(** [get_recent]: whole lines from the end, as long as they fit. *)
Fixpoint recent_lines (max_bytes size : Z) (rev_lines : list line) (result : list Z) : list Z :=
  match rev_lines with
  | [] => result
  | l :: ls => if max_bytes <? size + len l then result else recent_lines max_bytes (size + len l) ls (l ++ result)
  end.

Definition get_recent (max_bytes : Z) (b : OutputBuffer) : list Z :=
  recent_lines max_bytes 0 (rev (lines b)) [].

(** What the buffer holds, and its real size. *)
Definition contents (b : OutputBuffer) : list Z := concat (lines b).

Definition append_all (chunks : list (list Z)) (b : OutputBuffer) : option OutputBuffer :=
  fold_left (fun b d => match b with Some b => append d b | None => None end) chunks (Some b).

(** ** The loop *)

Definition rounds (n : nat) (st : list line * Z) : option (list line * Z) :=
  Nat.iter n (fun s => match s with Some st => trim_round st | None => None end) (Some st).

Lemma rounds_S n st :
  rounds (S n) st = match trim_round st with Some st' => rounds n st' | None => None end.
Proof.
  unfold rounds. rewrite Nat.iter_succ_r. destruct (trim_round st); [done|].
  induction n as [|n IH]; [done|]. by rewrite Nat.iter_succ, IH.
Qed.

(** [trim] has no result exactly when the loop goes on for ever. *)
Lemma trim_forever ls total : trim ls total = None <-> forall n, rounds n (ls, total) <> None.
Proof.
  revert total. induction ls as [|l ls IH]; intros total; cbn [trim].
  - destruct (too_large [] total) eqn:E; (split; [intros H|done || intros H]); try done.
    + intros n. induction n as [|n IHn]; [done|]. rewrite rounds_S. cbn [trim_round]. by rewrite E.
    + exfalso. apply (H 1%nat). rewrite rounds_S. cbn [trim_round]. by rewrite E.
  - destruct (too_large (l :: ls) total) eqn:E.
    + rewrite IH. split; intros H n.
      * destruct n as [|n]; [done|]. rewrite rounds_S. cbn [trim_round]. rewrite E. apply H.
      * specialize (H (S n)). rewrite rounds_S in H. cbn [trim_round] in H. by rewrite E in H.
    + split; [done|]. intros H. exfalso. apply (H 1%nat). rewrite rounds_S. cbn [trim_round]. by rewrite E.
Qed.

Lemma trim_suffix ls total ls' total' :
  trim ls total = Some (ls', total') -> exists pre, ls = pre ++ ls'.
Proof.
  revert total. induction ls as [|l ls IH]; intros total; cbn [trim]; (destruct (too_large _ _); [|intros [= <- _]; by exists []]).
  - done.
  - intros H. destruct (IH _ H) as [pre ->]. by exists (l :: pre).
Qed.

Lemma trim_len ls total ls' total' : trim ls total = Some (ls', total') -> len ls' <= MAX_BUFFER_LINES.
Proof.
  revert total. induction ls as [|l ls IH]; intros total; cbn [trim].
  - destruct (too_large _ _); [done|]. intros [= <- _]. done.
  - destruct (too_large _ _) eqn:E; [apply IH|]. intros [= <- _].
    apply orb_false_iff in E as [_ E]. apply Z.ltb_ge in E. done.
Qed.

(** A counted size that has wrapped around is never reached by the lines that
    are left. *)
Lemma trim_wrapped ls total :
  total < 2 ^ 64 -> MAX_OUTPUT_BUFFER_SIZE + len (concat ls) < total -> trim ls total = None.
Proof.
  revert total. induction ls as [|l ls IH]; intros total Hm Ht; cbn [trim].
  - unfold too_large. change (len (concat [])) with 0 in Ht.
    destruct (Z.ltb_spec MAX_OUTPUT_BUFFER_SIZE total); [done|lia].
  - cbn [concat] in Ht. unfold len in *. rewrite length_app in Ht. unfold too_large.
    destruct (Z.ltb_spec MAX_OUTPUT_BUFFER_SIZE total); [|lia]. cbn [orb].
    rewrite wrap_small by (unfold MAX_OUTPUT_BUFFER_SIZE in *; lia). apply IH; unfold len; lia.
Qed.

(** ** Lines and pieces *)

Lemma split_newline_app data l r : split_newline data = Some (l, r) -> data = l ++ r.
Proof.
  revert l r. induction data as [|b data IH]; intros l r; cbn [split_newline]; [done|].
  destruct (b =? NL); [by intros [= <- <-]|].
  destruct (split_newline data) as [[l' r']|]; [|done]. intros [= <- <-]. cbn. f_equal. by apply IH.
Qed.

Fixpoint join_nl (pieces : list line) : list Z :=
  match pieces with
  | [] => []
  | [l] => l
  | l :: rest => l ++ NL :: join_nl rest
  end.

Lemma split_lines_cons data : exists l ls, split_lines data = l :: ls.
Proof.
  destruct data as [|b data]; cbn [split_lines]; [eauto|]. destruct (b =? NL); [eauto|].
  destruct (split_lines data); eauto.
Qed.

Lemma join_split data : join_nl (split_lines data) = data.
Proof.
  induction data as [|b data IH]; cbn [split_lines]; [done|].
  destruct (split_lines_cons data) as (l & ls & E). rewrite E in *.
  destruct (Z.eqb_spec b NL) as [->|]; cbn [join_nl] in *.
  - by rewrite IH.
  - destruct ls; cbn [app]; by rewrite IH.
Qed.

Lemma ends_last_empty data : ends_with_newline data = true -> last (split_lines data) = Some [].
Proof.
  unfold ends_with_newline. induction data as [|b data IH]; [done|]. rewrite last_cons. cbn [split_lines].
  destruct (split_lines_cons data) as (l & ls & E). rewrite E in *.
  destruct (last data) as [x|] eqn:El.
  - intros H. specialize (IH H). destruct (b =? NL); [by rewrite last_cons_cons|].
    rewrite last_cons in IH. rewrite last_cons. destruct (last ls) eqn:Els; [done|].
    injection IH as ->. destruct data as [|c data]; [done|]. cbn [split_lines] in E.
    apply last_None in Els as ->. destruct (Z.eqb_spec c NL) as [->|].
    + destruct (split_lines_cons data) as (l' & ls' & E'). congruence.
    + destruct (split_lines data); congruence.
  - intros ->. by rewrite last_cons_cons, <-E, (proj1 (last_None data) El).
Qed.

Lemma contents_snoc ls l t i : contents (mkBuffer (ls ++ [l]) t i) = concat ls ++ l.
Proof. unfold contents. cbn [lines]. rewrite concat_app. cbn [concat]. by rewrite app_nil_r. Qed.

Lemma push_lines_contents ends pieces b :
  pieces <> [] -> (ends = true -> last pieces = Some []) ->
  contents (push_lines ends pieces b) = contents b ++ join_nl pieces.
Proof.
  revert b. induction pieces as [|l pieces IH]; intros b Hne Hl; [done|].
  destruct pieces as [|l2 pieces].
  - cbn [push_lines join_nl]. destruct ends.
    + specialize (Hl eq_refl). injection Hl as ->. by rewrite app_nil_r.
    + destruct l as [|c l]; cbn [negb andb]; [by rewrite app_nil_r|]. by rewrite contents_snoc.
  - change (push_lines ends (l :: l2 :: pieces) b) with (push_lines ends (l2 :: pieces)
      (mkBuffer (lines b ++ [l ++ [NL]]) (u64 (total_size b + len (l ++ [NL]))) (last_line_incomplete b))).
    rewrite IH; [|done|by rewrite last_cons_cons in Hl].
    rewrite contents_snoc. change (join_nl (l :: l2 :: pieces)) with (l ++ NL :: join_nl (l2 :: pieces)).
    by rewrite <-!app_assoc.
Qed.

Lemma push_split_contents data b :
  contents (push_lines (ends_with_newline data) (split_lines data) b) = contents b ++ data.
Proof.
  rewrite push_lines_contents; [by rewrite join_split| |apply ends_last_empty].
  destruct (split_lines_cons data) as (l & ls & ->). done.
Qed.

(** ** One append *)

Lemma last_decompose {A} (l : list A) x : last l = Some x -> l = removelast l ++ [x].
Proof.
  intros H. destruct (exists_last (l := l)) as (l' & y & ->); [by intros ->|].
  rewrite last_snoc in H. injection H as ->. by rewrite removelast_app, app_nil_r by done.
Qed.

(** What is kept is a suffix of what was kept before and the new data. *)
Lemma append_suffix data b b' :
  append data b = Some b' -> exists pre, contents b ++ data = pre ++ contents b'.
Proof.
  destruct data as [|d data]; [intros [= <-]; exists []; by rewrite app_nil_r|].
  unfold append. cbv zeta. set (all := d :: data).
  match goal with |- match ?r with inl _ => _ | inr _ => _ end = _ -> _ => set (resume := r) end.
  assert (Hr : match resume with
               | inl (b1, remaining) => contents b1 ++ remaining = contents b ++ all
               | inr b1 => contents b1 = contents b ++ all
               end).
  { unfold resume. destruct (last_line_incomplete b); [|done].
    destruct (last (lines b)) as [ll|] eqn:El; [|done]. apply last_decompose in El.
    assert (contents b = concat (removelast (lines b)) ++ ll) as Hb.
    { unfold contents. rewrite El at 1. rewrite concat_app. cbn [concat]. by rewrite app_nil_r. }
    destruct (split_newline all) as [[l r]|] eqn:Es.
    - rewrite contents_snoc, Hb, (split_newline_app _ _ _ Es). by rewrite <-!app_assoc.
    - rewrite contents_snoc, Hb. by rewrite <-!app_assoc. }
  clearbody resume. destruct resume as [[b1 remaining]|b1].
  - cbv zeta. rewrite <-Hr, <-push_split_contents. set (b2 := push_lines _ _ b1).
    destruct (trim (lines b2) (total_size b2)) as [[ls t]|] eqn:Et; [|done]. intros [= <-].
    apply trim_suffix in Et as [pre Et]. exists (concat pre). unfold contents. by rewrite Et, concat_app.
  - intros [= <-]. exists []. by rewrite Hr.
Qed.

Lemma append_all_cons d ds b :
  append_all (d :: ds) b = match append d b with Some b' => append_all ds b' | None => None end.
Proof.
  unfold append_all. cbn [fold_left]. destruct (append d b); [done|].
  induction ds as [|x ds IH]; [done|]. exact IH.
Qed.

Lemma append_all_suffix chunks b b' :
  append_all chunks b = Some b' -> exists pre, contents b ++ concat chunks = pre ++ contents b'.
Proof.
  revert b. induction chunks as [|d ds IH]; intros b.
  - intros [= <-]. exists []. by rewrite app_nil_r.
  - rewrite append_all_cons. destruct (append d b) as [b1|] eqn:E; [|done]. intros H.
    apply append_suffix in E as [p1 E]. apply IH in H as [p2 H]. exists (p1 ++ p2).
    cbn [concat]. by rewrite app_assoc, E, <-!app_assoc, H.
Qed.

(** ** Output that fits *)

Definition newlines (data : list Z) : Z := len (List.filter (Z.eqb NL) data).

Lemma newlines_app x y : newlines (x ++ y) = newlines x + newlines y.
Proof. unfold newlines, len. rewrite List.filter_app, length_app. lia. Qed.

Lemma newlines_nonneg x : 0 <= newlines x.
Proof. unfold newlines, len. lia. Qed.

(** While nothing has been thrown away: the counted size is at most the real
    one, there is a newline for every complete line, and an incomplete line is
    there. *)
Record whole (b : OutputBuffer) : Prop := mkWhole {
  whole_size : 0 <= total_size b <= len (contents b);
  whole_lines : len (lines b) <= newlines (contents b) + (if last_line_incomplete b then 1 else 0);
  whole_last : last_line_incomplete b = true -> lines b <> [] }.

Lemma whole_snoc b l i :
  whole b -> len (contents b ++ l) < 2 ^ 64 -> last_line_incomplete b = false ->
  (i = true \/ newlines l = 1) ->
  whole (mkBuffer (lines b ++ [l]) (u64 (total_size b + len l)) i).
Proof.
  intros [Hs Hl _] Hm Hf Hi. rewrite Hf in Hl. rewrite len_app in Hm.
  pose proof (Nat2Z.is_nonneg (length l)) as Hn. fold (len l) in Hn.
  pose proof (newlines_nonneg l).
  split; cbn [lines total_size last_line_incomplete]; rewrite ?contents_snoc; fold (contents b).
  - rewrite wrap_small by lia. rewrite len_app. lia.
  - rewrite newlines_app, len_app. change (len [l]) with 1. destruct Hi as [->| ->]; [lia|]. destruct i; lia.
  - intros _. by destruct (lines b).
Qed.

Lemma newlines_piece d : Forall (fun l => newlines l = 0) (split_lines d).
Proof.
  induction d as [|b d IH]; cbn [split_lines]; [by repeat constructor|].
  destruct (split_lines_cons d) as (l & ls & E). rewrite E in *.
  destruct (Z.eqb_spec b NL) as [->|Hne]; [by constructor|].
  apply Forall_cons in IH as [Hl IH]. constructor; [|done]. unfold newlines in *. cbn [List.filter].
  by rewrite (proj2 (Z.eqb_neq NL b)) by done.
Qed.

Lemma push_lines_whole ends pieces b :
  whole b -> last_line_incomplete b = false -> len (contents b ++ join_nl pieces) < 2 ^ 64 ->
  Forall (fun l => newlines l = 0) pieces -> (ends = true -> last pieces = Some []) ->
  whole (push_lines ends pieces b).
Proof.
  revert b. induction pieces as [|l pieces IH]; intros b Hw Hf Hm Hz Hl; [done|].
  apply Forall_cons in Hz as [Hz0 Hz]. destruct pieces as [|l2 pieces].
  - cbn [push_lines]. destruct ends.
    + specialize (Hl eq_refl). by injection Hl as ->.
    + destruct l as [|c l]; [done|]. cbn [negb andb lines total_size last_line_incomplete].
      apply whole_snoc; [done|done|done|by left].
  - change (push_lines ends (l :: l2 :: pieces) b) with (push_lines ends (l2 :: pieces)
      (mkBuffer (lines b ++ [l ++ [NL]]) (u64 (total_size b + len (l ++ [NL]))) (last_line_incomplete b))).
    change (join_nl (l :: l2 :: pieces)) with (l ++ [NL] ++ join_nl (l2 :: pieces)) in Hm.
    rewrite !app_assoc in Hm. apply IH; [|done| |done|by rewrite last_cons_cons in Hl].
    + rewrite Hf. apply whole_snoc; [done| |done|].
      * rewrite app_assoc. rewrite len_app in Hm. unfold len in *. lia.
      * right. rewrite newlines_app, Hz0. done.
    + by rewrite contents_snoc, app_assoc.
Qed.

Lemma trim_small ls total :
  total <= MAX_OUTPUT_BUFFER_SIZE -> len ls <= MAX_BUFFER_LINES -> trim ls total = Some (ls, total).
Proof.
  intros H1 H2. assert (too_large ls total = false) as E.
  { unfold too_large. apply orb_false_iff. split; apply Z.ltb_ge; done. }
  destruct ls; cbn [trim]; by rewrite E.
Qed.

(** The room left by what is already there. *)
Definition fits (data : list Z) : Prop :=
  len data <= MAX_OUTPUT_BUFFER_SIZE /\ newlines data < MAX_BUFFER_LINES.

Lemma whole_trim b : whole b -> fits (contents b) -> trim (lines b) (total_size b) = Some (lines b, total_size b).
Proof.
  intros [Hs Hl _] [H1 H2]. apply trim_small; [lia|]. destruct (last_line_incomplete b); lia.
Qed.

(** The rest of a line: counted only when no newline comes. *)
Lemma whole_resume b ll l r :
  whole b -> last_line_incomplete b = true -> last (lines b) = Some ll -> newlines l = 1 ->
  whole (mkBuffer (removelast (lines b) ++ [ll ++ l]) (total_size b) false)
  /\ contents (mkBuffer (removelast (lines b) ++ [ll ++ l]) (total_size b) false) ++ r = contents b ++ l ++ r.
Proof.
  intros [Hs Hl _] Hf El Hn. apply last_decompose in El.
  assert (Hb : contents b = concat (removelast (lines b)) ++ ll).
  { unfold contents. rewrite El at 1. rewrite concat_app. cbn [concat]. by rewrite app_nil_r. }
  assert (Hc : contents (mkBuffer (removelast (lines b) ++ [ll ++ l]) (total_size b) false) = contents b ++ l).
  { by rewrite contents_snoc, Hb, app_assoc. }
  assert (Hlen : len (lines b) = len (removelast (lines b)) + 1).
  { rewrite El at 1. by rewrite len_app. }
  rewrite Hc. split; [|by rewrite app_assoc].
  rewrite Hf in Hl. split; cbn [lines total_size last_line_incomplete]; rewrite ?Hc; [| |done].
  - rewrite len_app. unfold len in *. lia.
  - rewrite newlines_app, len_app, Hn. change (len [ll ++ l]) with 1. lia.
Qed.

Lemma split_newline_newlines data l r : split_newline data = Some (l, r) -> newlines l = 1.
Proof.
  revert l r. induction data as [|b data IH]; intros l r; cbn [split_newline]; [done|].
  destruct (Z.eqb_spec b NL) as [->|Hne]; [by intros [= <- <-]|].
  destruct (split_newline data) as [[l' r']|] eqn:E; [|done]. intros [= <- <-].
  change (b :: l') with ([b] ++ l'). rewrite newlines_app, (IH _ _ eq_refl). unfold newlines. cbn [List.filter].
  by rewrite (proj2 (Z.eqb_neq NL b)) by done.
Qed.

Lemma append_fits data b :
  whole b -> fits (contents b ++ data) ->
  exists b', append data b = Some b' /\ whole b' /\ contents b' = contents b ++ data.
Proof.
  intros Hw Hfit. destruct data as [|d data].
  { exists b. by rewrite app_nil_r. }
  unfold append. cbv zeta. set (all := d :: data) in *.
  match goal with |- exists b', match ?r with inl _ => _ | inr _ => _ end = _ /\ _ => set (resume := r) end.
  assert (Hr : match resume with
               | inl (b1, remaining) =>
                 whole b1 /\ last_line_incomplete b1 = false /\ contents b1 ++ remaining = contents b ++ all
               | inr b1 => whole b1 /\ contents b1 = contents b ++ all
               end).
  { unfold resume. destruct (last_line_incomplete b) eqn:Hf; [|done].
    destruct (last (lines b)) as [ll|] eqn:El.
    2:{ apply last_None in El. by apply (whole_last b Hw) in Hf. }
    destruct (split_newline all) as [[l r]|] eqn:Es.
    - pose proof (split_newline_newlines _ _ _ Es) as Hn.
      destruct (whole_resume b ll l r Hw Hf El Hn) as [H1 H2]. by rewrite (split_newline_app _ _ _ Es).
    - apply last_decompose in El.
      assert (Hb : contents b = concat (removelast (lines b)) ++ ll).
      { unfold contents. rewrite El at 1. rewrite concat_app. cbn [concat]. by rewrite app_nil_r. }
      assert (Hc : forall t, contents (mkBuffer (removelast (lines b) ++ [ll ++ all]) t true) = contents b ++ all).
      { intros t. by rewrite contents_snoc, Hb, app_assoc. }
      rewrite Hc. split; [|done]. destruct Hw as [Hs Hl _], Hfit as [Hfit _]. rewrite Hf in Hl.
      assert (Hlen : len (lines b) = len (removelast (lines b)) + 1).
      { rewrite El at 1. by rewrite len_app. }
      rewrite len_app in Hfit. unfold MAX_OUTPUT_BUFFER_SIZE in Hfit.
      pose proof (Nat2Z.is_nonneg (length all)) as Ha. fold (len all) in Ha. pose proof (newlines_nonneg all).
      split; cbn [lines total_size last_line_incomplete]; rewrite ?Hc.
      + rewrite wrap_small by lia. rewrite len_app. lia.
      + rewrite newlines_app, len_app. change (len [ll ++ all]) with 1. lia.
      + intros _. by destruct (removelast (lines b)). }
  clearbody resume. destruct resume as [[b1 remaining]|b1]; [|by exists b1]. cbv zeta.
  destruct Hr as (Hw1 & Hf1 & Hc1).
  pose proof (push_split_contents remaining b1) as Hc2. set (b2 := push_lines _ _ b1) in *.
  assert (Hw2 : whole b2).
  { apply push_lines_whole; [done|done| |apply newlines_piece|apply ends_last_empty].
    rewrite join_split, Hc1. destruct Hfit as [Hfit _]. unfold MAX_OUTPUT_BUFFER_SIZE in Hfit. lia. }
  rewrite whole_trim by (try done; by rewrite Hc2, Hc1). eexists. split; [reflexivity|].
  split; [by destruct Hw2; split|]. unfold contents at 1. cbn [lines]. fold (contents b2). by rewrite Hc2.
Qed.

Lemma append_all_fits chunks b :
  whole b -> fits (contents b ++ concat chunks) ->
  exists b', append_all chunks b = Some b' /\ contents b' = contents b ++ concat chunks.
Proof.
  revert b. induction chunks as [|d ds IH]; intros b Hw Hf.
  { exists b. by rewrite app_nil_r. }
  cbn [concat] in *. rewrite app_assoc in *.
  assert (Hf1 : fits (contents b ++ d)).
  { destruct Hf as [H1 H2]. rewrite (len_app (contents b ++ d)) in H1. rewrite (newlines_app (contents b ++ d)) in H2.
    pose proof (newlines_nonneg (concat ds)). split; [unfold len in *; lia|lia]. }
  destruct (append_fits d b Hw Hf1) as (b1 & E & Hw1 & Hc1). rewrite append_all_cons, E, <-Hc1.
  apply IH; [done|]. by rewrite Hc1.
Qed.

Lemma whole_new : whole new.
Proof. split; cbn; done. Qed.

(** What a terminal buffer holds is the end of what was printed: after any
    sequence of outputs that the buffer has taken in, its contents are a suffix
    of the whole output; and every sequence of outputs, however it is cut into
    pieces, of at most a megabyte and less than ten thousand lines is taken in
    and kept completely. *)
Theorem buffer_keeps_output chunks :
  (forall b, append_all chunks new = Some b -> exists pre, concat chunks = pre ++ contents b)
  /\ (fits (concat chunks) -> exists b, append_all chunks new = Some b /\ contents b = concat chunks).
Proof.
  split.
  - intros b H. by apply append_all_suffix in H.
  - intros H. by apply (append_all_fits chunks new whole_new).
Qed.

Lemma buffer_keeps_output_witness :
  exists b, append_all [[104; 105]; [10; 36]; [32; 10; 10]] new = Some b /\ contents b = [104; 105; 10; 36; 32; 10; 10].
Proof. apply (buffer_keeps_output [[104; 105]; [10; 36]; [32; 10; 10]]). by split. Defined.

(** ** Output that arrives in halves of lines

    A shell that prints ["a"] and then the rest of the line, ["b\n"]. *)

Definition half_lines : list (list Z) := [[97]; [98; NL]].
Definition typed (n : nat) : list (list Z) := concat (replicate n half_lines).
Definition typed_line : line := [97; 98; NL].

(** [k] of these lines, of which the code has counted [t] bytes. *)
Definition counted (k : nat) (t : Z) : OutputBuffer := mkBuffer (replicate k typed_line) t false.

Lemma len_replicate {A} n (x : A) : len (replicate n x) = Z.of_nat n.
Proof. unfold len. by rewrite length_replicate. Qed.

Lemma second_half k t :
  append [98; NL] (mkBuffer (replicate k typed_line ++ [[97]]) t true) =
  match trim (replicate (S k) typed_line) t with
  | Some (ls, t) => Some (mkBuffer ls t false)
  | None => None
  end.
Proof.
  unfold append. cbn [last_line_incomplete lines total_size]. rewrite last_snoc, removelast_last.
  change (split_newline [98; NL]) with (Some ([98; NL], @nil Z)). cbv iota zeta.
  change (push_lines _ _ ?b) with b. cbn [lines total_size last_line_incomplete].
  change ([97] ++ [98; NL]) with typed_line. by rewrite replicate_S_end.
Qed.

Lemma first_half k t :
  append [97] (counted k t) =
  match trim (replicate k typed_line ++ [[97]]) (u64 (t + 1)) with
  | Some (ls, t) => Some (mkBuffer ls t true)
  | None => None
  end.
Proof. reflexivity. Qed.

Lemma append_typed k t :
  append_all half_lines (counted k t) =
  match trim (replicate k typed_line ++ [[97]]) (u64 (t + 1)) with
  | Some (ls, t) => append [98; NL] (mkBuffer ls t true)
  | None => None
  end.
Proof.
  unfold half_lines. rewrite append_all_cons, first_half. destruct (trim _ _) as [[ls t']|]; [|done].
  rewrite append_all_cons. by destruct (append _ _).
Qed.

(** While there is room, a line is counted with one byte instead of three. *)
Lemma typed_room k t :
  Z.of_nat k < MAX_BUFFER_LINES -> 0 <= t <= MAX_BUFFER_LINES ->
  append_all half_lines (counted k t) = Some (counted (S k) (t + 1)).
Proof.
  intros Hk Ht. rewrite append_typed. unfold MAX_BUFFER_LINES in *. rewrite wrap_small by lia.
  rewrite trim_small.
  - rewrite second_half, trim_small; [done|unfold MAX_OUTPUT_BUFFER_SIZE; lia|].
    rewrite len_replicate. unfold MAX_BUFFER_LINES. lia.
  - unfold MAX_OUTPUT_BUFFER_SIZE. lia.
  - rewrite len_app, len_replicate. change (len [[97]]) with 1. unfold MAX_BUFFER_LINES. lia.
Qed.

(** When the lines are many, each new one throws an old one away: one byte is
    counted in and three are counted out. *)
Lemma trim_first_typed k t :
  Z.of_nat (S k) = MAX_BUFFER_LINES -> 0 <= t <= MAX_BUFFER_LINES ->
  trim (replicate (S k) typed_line ++ [[97]]) (u64 (t + 1)) = trim (replicate k typed_line ++ [[97]]) (u64 (t - 2)).
Proof.
  intros Hk Ht. unfold MAX_BUFFER_LINES in *. rewrite (wrap_small 64 (t + 1)) by lia.
  cbn [replicate app trim].
  assert (too_large (typed_line :: replicate k typed_line ++ [[97]]) (t + 1) = true) as ->.
  { unfold too_large. apply orb_true_iff. right. apply Z.ltb_lt.
    change (typed_line :: ?l ++ [[97]]) with ([typed_line] ++ l ++ [[97]]).
    rewrite !len_app, len_replicate. change (len [typed_line]) with 1. change (len [[97]]) with 1.
    unfold MAX_BUFFER_LINES. lia. }
  change (len typed_line) with 3. by replace (t + 1 - 3) with (t - 2) by lia.
Qed.

Lemma typed_full k t :
  Z.of_nat k = MAX_BUFFER_LINES -> 2 <= t <= MAX_BUFFER_LINES ->
  append_all half_lines (counted k t) = Some (counted k (t - 2)).
Proof.
  intros Hk Ht. destruct k as [|k]; [done|]. rewrite append_typed, trim_first_typed by lia.
  unfold MAX_BUFFER_LINES in *. rewrite wrap_small by lia. rewrite trim_small.
  - rewrite second_half, trim_small; [done|unfold MAX_OUTPUT_BUFFER_SIZE; lia|].
    rewrite len_replicate. unfold MAX_BUFFER_LINES. lia.
  - unfold MAX_OUTPUT_BUFFER_SIZE. lia.
  - rewrite len_app, len_replicate. change (len [[97]]) with 1. unfold MAX_BUFFER_LINES. lia.
Qed.

Lemma len_concat_typed k : len (concat (replicate k typed_line ++ [[97]])) = 3 * Z.of_nat k + 1.
Proof.
  rewrite concat_app, len_app. change (len (concat [[97]])) with 1. induction k as [|k IH]; [done|].
  cbn [replicate concat]. rewrite len_app. change (len typed_line) with 3. lia.
Qed.

Lemma typed_hang k t :
  Z.of_nat k = MAX_BUFFER_LINES -> 0 <= t < 2 -> append_all half_lines (counted k t) = None.
Proof.
  intros Hk Ht. destruct k as [|k]; [done|].
  rewrite append_typed, trim_first_typed by (unfold MAX_BUFFER_LINES in *; lia).
  rewrite trim_wrapped; [done| |].
  - unfold wrap. pose proof (Z.mod_pos_bound (t - 2) (2 ^ 64)). lia.
  - rewrite len_concat_typed. unfold MAX_BUFFER_LINES, MAX_OUTPUT_BUFFER_SIZE in *.
    unfold wrap. replace ((t - 2) `mod` 2 ^ 64) with (t - 2 + 2 ^ 64); [lia|].
    rewrite <-(Z.mod_small (t - 2 + 2 ^ 64) (2 ^ 64)) by lia.
    rewrite <-(Z.mul_1_l (2 ^ 64)) at 1. by rewrite Z.mod_add.
Qed.

Lemma append_all_app c1 c2 b :
  append_all (c1 ++ c2) b = match append_all c1 b with Some b' => append_all c2 b' | None => None end.
Proof.
  revert b. induction c1 as [|d c1 IH]; intros b; [done|]. cbn [app]. rewrite !append_all_cons.
  destruct (append d b); [apply IH|done].
Qed.

Lemma typed_S n : typed (S n) = typed n ++ half_lines.
Proof. unfold typed. rewrite replicate_S_end, concat_app. cbn [concat]. by rewrite app_nil_r. Qed.

Lemma typed_add n m : typed (n + m) = typed n ++ typed m.
Proof. unfold typed. by rewrite replicate_add, concat_app. Qed.

Lemma run_room n : Z.of_nat n <= MAX_BUFFER_LINES -> append_all (typed n) new = Some (counted n (Z.of_nat n)).
Proof.
  induction n as [|n IH]; [done|]. intros H. rewrite typed_S, append_all_app, IH by lia.
  rewrite typed_room by lia. f_equal. f_equal. lia.
Qed.

Lemma run_full m k :
  Z.of_nat k = MAX_BUFFER_LINES -> 2 * Z.of_nat m <= MAX_BUFFER_LINES ->
  append_all (typed m) (counted k MAX_BUFFER_LINES) = Some (counted k (MAX_BUFFER_LINES - 2 * Z.of_nat m)).
Proof.
  intros Hk. induction m as [|m IH]; [done|]. intros H. rewrite typed_S, append_all_app, IH by lia.
  rewrite typed_full by lia. f_equal. f_equal. lia.
Qed.

(** C14. A terminal that prints its lines in two pieces comes to a stop: the
    rest of a line is not counted when it arrives but subtracted when the line
    is thrown away.  The counted size falls below zero, in a release build it
    wraps around, and the loop that throws lines away goes on with no lines
    left: with two bytes per line it takes exactly 15001 lines, after which
    [append] never returns. *)
Theorem interactive_output_hangs n : append_all (typed n) new = None <-> 15000 < Z.of_nat n.
Proof.
  set (k := Z.to_nat MAX_BUFFER_LINES).
  assert (Hk : Z.of_nat k = MAX_BUFFER_LINES) by (apply Z2Nat.id; done). clearbody k.
  assert (Hrun : forall m, 2 * Z.of_nat m <= MAX_BUFFER_LINES ->
            append_all (typed (k + m)) new = Some (counted k (MAX_BUFFER_LINES - 2 * Z.of_nat m))).
  { intros m Hm. rewrite typed_add, append_all_app, run_room by lia. rewrite Hk. by apply run_full. }
  unfold MAX_BUFFER_LINES in *. split.
  - intros H. destruct (Z.lt_ge_cases 15000 (Z.of_nat n)) as [|Hle]; [done|]. exfalso.
    destruct (Z.le_gt_cases (Z.of_nat n) 10000) as [Hn|Hn]; [by rewrite run_room in H|].
    replace n with (k + (n - k))%nat in H by lia. by rewrite Hrun in H by lia.
  - intros H. assert (exists m, Z.of_nat m = 5000) as [m Hm] by (exists (Z.to_nat 5000); apply Z2Nat.id; done).
    replace n with (k + m + (1 + (n - k - m - 1)))%nat by lia.
    rewrite typed_add, append_all_app, Hrun by lia. rewrite typed_add, append_all_app.
    change (typed 1) with half_lines. by rewrite typed_hang by (unfold MAX_BUFFER_LINES; lia).
Qed.

(** Output without newlines is never thrown away: a second piece of such output
    is added to the last line before the sizes are looked at. *)
Lemma endless_line_kept n d : Forall (fun b => b <> NL) d -> d <> [] -> 
  exists b, append_all ([120] :: replicate n d) new = Some b /\ contents b = 120 :: concat (replicate n d).
Proof.
  intros Hd Hne.
  assert (Hs : split_newline d = None).
  { induction Hd as [|x d Hx Hd IH]; [done|]. cbn [split_newline]. rewrite (proj2 (Z.eqb_neq x NL)) by done.
    destruct d as [|y d]; [done|]. by rewrite IH. }
  assert (Hstep : forall l t, exists t', append d (mkBuffer [l] t true) = Some (mkBuffer [l ++ d] t' true)).
  { intros l t. unfold append. destruct d as [|x d]; [done|]. cbn [last_line_incomplete lines last removelast].
    rewrite Hs. by eexists. }
  assert (Hrun : forall l t, exists t', append_all (replicate n d) (mkBuffer [l] t true)
                                       = Some (mkBuffer [l ++ concat (replicate n d)] t' true)).
  { clear Hd Hne Hs. induction n as [|n IH]; intros l t; [exists t; by rewrite app_nil_r|].
    cbn [replicate]. rewrite append_all_cons. destruct (Hstep l t) as [t1 ->]. cbv iota beta.
    destruct (IH (l ++ d) t1) as [t2 H2]. exists t2. etransitivity; [exact H2|].
    cbn [concat]. by rewrite app_assoc. }
  destruct (Hrun [120] 1) as [t Ht]. exists (mkBuffer [[120] ++ concat (replicate n d)] t true).
  split; [|unfold contents; cbn [concat lines]; by rewrite app_nil_r].
  rewrite append_all_cons. exact Ht.
Qed.

End Buffer.
