(* ===== verification/Terminal.v ===== *)
(** * The terminal service ([src/server/terminal_service.rs], [connection.rs])

    Shells on pseudo terminals that a peer can leave and come back to.  A
    service has sessions (one shell each); the process-wide table keeps the
    services by their id, and one thread per connection reads the outputs of
    its service and sends them to the peer.

    - [TerminalSession], [PersistentTerminalService] are the structs; the shell
      of a session is the handle of its child process, a reader thread is known
      by whether it has ended, the channel from it by the chunks that wait in it.
    - [Terms] is the process-wide state with the list of children to be reaped;
      what happens to the shells is a list of [TermOut]s in order.
    - Each operation is one step under the locks it takes.  [read_outputs] has
      no result when a buffer never returns ([Buffer.append]).

    The kernel (opening a terminal, spawning, killing and waiting for a child),
    the clock, zstd and the generation of ids are parameters ([TEnv]). *)

From S2P Require Import Prelude RustStr TerminalBuffer.

Module Term.

Import Buffer.

Inductive TermOut : Type :=
| Spawned (child : Z)
| ToShell (service_id : string) (terminal_id : Z) (data : list Z)
| ResizePty (service_id : string) (terminal_id : Z) (rows cols : Z)
| Kill (child : Z)
| Reaped (child : Z)
| Dropped (child : Z).        (* its handle is gone, the process was neither killed nor waited for *)

(** The terminal and the shell of an open request: a failure before the shell
    was started, one of [take_writer] or [try_clone_reader] after it, or the
    child and its process id. *)
Inductive SpawnResult : Type :=
| NotSpawned (err : string)
| SpawnedUnusable (child : Z) (err : string)
| SpawnOk (child : Z) (process_id : option Z).

(** [child.try_wait()] *)
Inductive WaitResult : Type := Exited (code : Z) | StillRunning | WaitErr.

Record TEnv : Type := mkTEnv {
  now : Z;                                        (* ms *)
  spawn : Z -> Z -> SpawnResult;                  (* rows, cols *)
  try_wait : Z -> WaitResult;
  kill : Z -> result unit string;
  resize_pty : Z -> Z -> result unit string;
  writer_alive : bool;                            (* the writer thread has not ended *)
  compress : list Z -> list Z }.

Definition MAX_SERVICES : Z := 100.
Definition SERVICE_IDLE_TIMEOUT : Z := 3600000.
Definition CHANNEL_BUFFER_SIZE : Z := 100.
Definition COMPRESS_THRESHOLD : Z := 512.

Set Primitive Projections.
Record TerminalSession : Type := mkSession {
  created_at : Z;
  s_last_activity : Z;
  pty_pair : bool;
  child : option Z;
  input_tx : bool;
  output_rx : option (list (list Z));
  exiting : bool;
  reader_thread : option bool;                    (* has it finished? *)
  writer_thread : bool;
  output_buffer : OutputBuffer;
  title : string;
  pid : Z;
  rows : Z;
  cols : Z;
  closed_message_sent : bool;
  is_opened : bool }.

Definition new_session (e : TEnv) (terminal_id rows cols : Z) : TerminalSession :=
  mkSession (now e) (now e) false None false None false None false Buffer.new
    ("Terminal " +:+ show terminal_id) 0 rows cols false false.

Record PersistentTerminalService : Type := mkService {
  service_id : string;
  sessions : gmap Z TerminalSession;
  ps_created_at : Z;
  last_activity : Z;
  is_persistent : bool;
  needs_session_sync : bool;
  is_specified_user : bool }.

Record Terms : Type := mkTerms {
  TERMINAL_SERVICES : gmap string PersistentTerminalService;
  TERMINAL_TASKS : list Z;
  CLEANUP_TASK : bool;
  outs : list TermOut }.
Unset Primitive Projections.

Definition emit (o : TermOut) (t : Terms) : Terms := t <| outs := outs t ++ [o] |>.
Definition upd_service (sid : string) (f : PersistentTerminalService -> PersistentTerminalService) (t : Terms) : Terms :=
  t <| TERMINAL_SERVICES := alter f sid (TERMINAL_SERVICES t) |>.
Definition upd_session (sid : string) (tid : Z) (f : TerminalSession -> TerminalSession) : Terms -> Terms :=
  upd_service sid (fun p => p <| sessions := alter f tid (sessions p) |>).

(** ** Children *)

Definition add_to_reaper (c : Z) (t : Terms) : Terms := t <| TERMINAL_TASKS := TERMINAL_TASKS t ++ [c] |>.

Definition running (e : TEnv) (c : Z) : bool :=
  match try_wait e c with StillRunning => true | _ => false end.

Definition check_zombie_terminals (e : TEnv) (t : Terms) : Terms :=
  let ended := List.filter (fun c => negb (running e c)) (TERMINAL_TASKS t) in
  (t <| TERMINAL_TASKS := List.filter (running e) (TERMINAL_TASKS t) |>)
    <| outs := outs t ++ map Reaped ended |>.

(** ** Sessions *)

(** [TerminalSession::stop], which its [drop] calls too: the session and what
    happens to the shell.  Joining the threads ends them. *)
Definition stopped (s : TerminalSession) : TerminalSession :=
  s <| is_opened := false |> <| exiting := true |> <| input_tx := false |> <| output_rx := None |>
    <| pty_pair := false |> <| reader_thread := None |> <| writer_thread := false |> <| child := None |>.

Definition stop (e : TEnv) (sid : string) (tid : Z) (s : TerminalSession) (t : Terms) : Terms :=
  let t := if input_tx s && writer_alive e then emit (ToShell sid tid [13; 10]) t else t in
  match child s with
  | Some c => add_to_reaper c (emit (Kill c) t)
  | None => t
  end.

(** A step of the reader thread. *)
Inductive ReadEvent : Type := REof | RData (data : list Z) | RWouldBlock | RErr.

Definition on_read (ev : ReadEvent) (s : TerminalSession) : TerminalSession :=
  let finish := s <| reader_thread := Some true |> in
  match reader_thread s with
  | Some false =>
    match ev with
    | REof | RErr => finish
    | RWouldBlock => if exiting s then finish else s
    | RData data =>
      if exiting s then finish
      else match output_rx s with
           | None => finish
           | Some chunks => if CHANNEL_BUFFER_SIZE <=? len chunks then s
                            else s <| output_rx := Some (chunks ++ [data]) |>
           end
    end
  | _ => s
  end.

(** ** Services *)

Definition new_service (e : TEnv) (sid : string) (persistent specified_user : bool) : PersistentTerminalService :=
  mkService sid ∅ (now e) (now e) persistent false specified_user.

Definition list_terminals (p : PersistentTerminalService) : list (Z * string * Z * Z) :=
  map (fun x => (x.1, title x.2, pid x.2, created_at x.2)) (map_to_list (sessions p)).

Definition get_terminal_buffer (tid max_bytes : Z) (p : PersistentTerminalService) : option (list Z) :=
  (fun s => get_recent max_bytes (output_buffer s)) <$> sessions p !! tid.

Definition get_terminal_info (tid : Z) (p : PersistentTerminalService) : option (Z * Z * list Z) :=
  (fun s => (rows s, cols s, get_recent 4096 (output_buffer s))) <$> sessions p !! tid.

Definition has_active_terminals (p : PersistentTerminalService) : bool := negb (bool_decide (sessions p = ∅)).

Definition reset_status (persistent : bool) (p : PersistentTerminalService) : PersistentTerminalService :=
  p <| is_persistent := persistent |> <| needs_session_sync := true |>
    <| sessions := (fun s => s <| is_opened := false |>) <$> sessions p |>.

(** ** The table of services *)

Definition get_service (sid : string) (t : Terms) : option PersistentTerminalService := TERMINAL_SERVICES t !! sid.

Definition is_service_specified_user (sid : string) (t : Terms) : option bool :=
  is_specified_user <$> get_service sid t.

Definition get_or_create_service (e : TEnv) (sid : string) (persistent specified_user : bool) (t : Terms)
  : result unit string * Terms :=
  let services := TERMINAL_SERVICES t in
  match services !! sid with
  | None =>
    if MAX_SERVICES <=? Z.of_nat (size services)
    then (Err ("Maximum number of terminal services (" +:+ show MAX_SERVICES +:+ ") reached"), t)
    else
      let p := reset_status persistent (new_service e sid persistent specified_user) in
      (Ok tt, t <| TERMINAL_SERVICES := <[ sid := p ]> services |> <| CLEANUP_TASK := true |>)
  | Some p =>
    (Ok tt, t <| TERMINAL_SERVICES := <[ sid := reset_status persistent p ]> services |> <| CLEANUP_TASK := true |>)
  end.

(** The sessions are stopped one after the other and dropped. *)
Definition stop_all (e : TEnv) (sid : string) (l : list (Z * TerminalSession)) (t : Terms) : Terms :=
  fold_left (fun t x => stop e sid x.1 x.2 t) l t.

Definition remove_service (e : TEnv) (sid : string) (t : Terms) : Terms :=
  match TERMINAL_SERVICES t !! sid with
  | Some p => stop_all e sid (map_to_list (sessions p)) (t <| TERMINAL_SERVICES := delete sid (TERMINAL_SERVICES t) |>)
  | None => t
  end.

Definition list_services (t : Terms) : list (string * Z * Z * bool) :=
  map (fun x => (x.1, ps_created_at x.2, Z.of_nat (size (sessions x.2)), is_persistent x.2))
    (map_to_list (TERMINAL_SERVICES t)).

(** A service that [cleanup_inactive_services] takes away. *)
Definition idle (e : TEnv) (p : PersistentTerminalService) : bool :=
  let since := now e - last_activity p in
  if negb (is_persistent p) && (SERVICE_IDLE_TIMEOUT <? since) then true
  else is_persistent p && negb (has_active_terminals p) && (SERVICE_IDLE_TIMEOUT * 2 <? since).

Definition cleanup_inactive_services (e : TEnv) (t : Terms) : Terms :=
  let to_remove := map fst (List.filter (fun x => idle e x.2) (map_to_list (TERMINAL_SERVICES t))) in
  fold_left (fun t sid => remove_service e sid t) to_remove t.

Definition get_terminal_session_count (include_zombie_tasks : bool) (t : Terms) : Z :=
  Z.of_nat (size (TERMINAL_SERVICES t)) + (if include_zombie_tasks then len (TERMINAL_TASKS t) else 0).

Definition set_persistent (sid : string) (persistent : bool) (t : Terms) : result unit string * Terms :=
  match get_service sid t with
  | Some _ => (Ok tt, upd_service sid (fun p => p <| is_persistent := persistent |>) t)
  | None => (Err ("Service " +:+ sid +:+ " not found"), t)
  end.

(** ** Actions of the peer *)

Inductive TerminalAction : Type :=
| Open (terminal_id rows cols : Z)
| Resize (terminal_id rows cols : Z)
| Data (terminal_id : Z) (data : list Z)
| Close (terminal_id : Z)
| NoAction.

Inductive TerminalResponse : Type :=
| Opened (terminal_id : Z) (success : bool) (message : string) (pid : Z) (service_id : string)
    (persistent_sessions : list Z)
| Output (terminal_id : Z) (data : list Z) (compressed : bool)
| Closed (terminal_id exit_code : Z)
| TermError (message : string).

Definition u16 (z : Z) : Z := wrap 16 z.

Definition session_ids (p : PersistentTerminalService) : list Z := map fst (map_to_list (sessions p)).

Definition handle_open (e : TEnv) (sid : string) (tid r c : Z) (p : PersistentTerminalService) (t : Terms)
  : result (option TerminalResponse) string * Terms :=
  let sync := needs_session_sync p in
  match sessions p !! tid with
  | Some s =>
    let others := if sync && (1 <? Z.of_nat (size (sessions p)))
                  then List.filter (fun i => negb (i =? tid)) (session_ids p) else [] in
    let t := upd_session sid tid (fun s => s <| is_opened := true |>) t in
    let t := upd_service sid (fun p => p <| needs_session_sync := false |>) t in
    (Ok (Some (Opened tid true "Reconnected to existing terminal" (pid s) sid others)), t)
  | None =>
    match spawn e (u16 r) (u16 c) with
    | NotSpawned err => (Err err, t)
    | SpawnedUnusable ch err => (Err err, emit (Dropped ch) (emit (Spawned ch) t))
    | SpawnOk ch process_id =>
      let s := new_session e tid (u16 r) (u16 c) in
      let s := s <| pid := unwrap_or 0 process_id |> <| pty_pair := true |> <| child := Some ch |>
                 <| input_tx := true |> <| output_rx := Some [] |> <| reader_thread := Some false |>
                 <| writer_thread := true |> <| is_opened := true |> in
      let others := if sync then session_ids p else [] in
      let t := emit (Spawned ch) t in
      let t := upd_service sid (fun p => p <| needs_session_sync := false |>
                                           <| sessions := <[ tid := s ]> (sessions p) |>) t in
      (Ok (Some (Opened tid true "Terminal opened" (pid s) (service_id p) others)), t)
    end
  end.

Definition handle_resize (e : TEnv) (sid : string) (tid r c : Z) (p : PersistentTerminalService) (t : Terms)
  : result (option TerminalResponse) string * Terms :=
  match sessions p !! tid with
  | Some s =>
    let t := upd_session sid tid (fun s => s <| s_last_activity := now e |> <| rows := u16 r |> <| cols := u16 c |>) t in
    if pty_pair s then
      match resize_pty e (u16 r) (u16 c) with
      | Ok _ => (Ok None, emit (ResizePty sid tid (u16 r) (u16 c)) t)
      | Err err => (Err err, t)
      end
    else (Ok None, t)
  | None => (Ok None, t)
  end.

Definition handle_data (e : TEnv) (sid : string) (tid : Z) (data : list Z) (p : PersistentTerminalService) (t : Terms)
  : result (option TerminalResponse) string * Terms :=
  match sessions p !! tid with
  | Some s =>
    let t := upd_session sid tid (fun s => s <| s_last_activity := now e |>) t in
    (Ok None, if input_tx s && writer_alive e then emit (ToShell sid tid data) t else t)
  | None => (Ok None, t)
  end.

(** The session is taken out of the service and dropped at the end. *)
Definition handle_close (e : TEnv) (sid : string) (tid : Z) (p : PersistentTerminalService) (t : Terms)
  : result (option TerminalResponse) string * Terms :=
  match sessions p !! tid with
  | Some s =>
    let t := upd_service sid (fun p => p <| sessions := delete tid (sessions p) |>) t in
    match child s with
    | Some c =>
      match kill e c with
      | Ok _ =>
        let t := add_to_reaper c (emit (Kill c) t) in
        (Ok (Some (Closed tid (-1))), stop e sid tid (s <| child := None |>) t)
      | Err err => (Err err, stop e sid tid (s <| child := None |>) (emit (Dropped c) t))
      end
    | None => (Ok (Some (Closed tid 0)), stop e sid tid s t)
    end
  | None => (Ok None, t)
  end.

Definition handle_action (e : TEnv) (sid : string) (a : TerminalAction) (t : Terms)
  : result (option TerminalResponse) string * Terms :=
  match get_service sid t with
  | None => (Ok (Some (TermError ("Terminal service " +:+ sid +:+ " not found"))), t)
  | Some p =>
    let t := upd_service sid (fun p => p <| last_activity := now e |>) t in
    match a with
    | Open tid r c => handle_open e sid tid r c p t
    | Resize tid r c => handle_resize e sid tid r c p t
    | Data tid data => handle_data e sid tid data p t
    | Close tid => handle_close e sid tid p t
    | NoAction => (Ok None, t)
    end
  end.

(** [Connection::handle_terminal_action]: what is sent to the peer. *)
Definition handle_terminal_action (e : TEnv) (sid : string) (a : TerminalAction) (t : Terms)
  : list TerminalResponse * Terms :=
  match handle_action e sid a t with
  | (Ok (Some r), t) => ([r], t)
  | (Ok None, t) => ([], t)
  | (Err err, t) => ([TermError ("Failed to handle action: " +:+ err)], t)
  end.

(** ** Reading the outputs *)

Definition output_of (e : TEnv) (tid : Z) (data : list Z) : TerminalResponse :=
  if COMPRESS_THRESHOLD <? len data then
    let compressed := compress e data in
    if len compressed <? len data then Output tid compressed true else Output tid data false
  else Output tid data false.

(** One session of a pass: the session, its responses, and whether its shell
    is found to have ended. *)
Definition read_session (e : TEnv) (tid : Z) (s : TerminalSession)
  : option (TerminalSession * list TerminalResponse * bool) :=
  let should_send_closed := negb (closed_message_sent s)
                            && match reader_thread s with Some true => true | _ => false end in
  let s := if should_send_closed then s <| closed_message_sent := true |> else s in
  if negb (is_opened s) then Some (s, [], should_send_closed)
  else
    let received := unwrap_or [] (output_rx s) in
    match append_all received (output_buffer s) with
    | None => None
    | Some b =>
      let s := s <| output_rx := (fun _ => []) <$> output_rx s |> <| output_buffer := b |> in
      let s := match received with [] => s | _ => s <| s_last_activity := now e |> end in
      Some (s, map (output_of e tid) received, should_send_closed)
    end.

(** The sessions of a pass, in the order of the table. *)
Fixpoint read_sessions (e : TEnv) (sid : string) (l : list (Z * TerminalSession)) (t : Terms)
  : option (list TerminalResponse * list Z * Terms) :=
  match l with
  | [] => Some ([], [], t)
  | (tid, s) :: l =>
    match read_session e tid s with
    | None => None
    | Some (s, rs, closed) =>
      match read_sessions e sid l (upd_session sid tid (fun _ => s) t) with
      | None => None
      | Some (rs', tids, t) => Some (rs ++ rs', (if closed then tid :: tids else tids), t)
      end
    end
  end.

Definition exit_code_of (e : TEnv) (c : Z) : Z := match try_wait e c with Exited code => code | _ => 0 end.

(** The end of one shell: [persistent] is what the proxy read before. *)
Definition close_terminal (e : TEnv) (sid : string) (persistent : bool) (tid : Z) (t : Terms) : TerminalResponse * Terms :=
  match get_service sid t with
  | Some p =>
    match sessions p !! tid with
    | Some s =>
      let exit_code := match child s with Some c => exit_code_of e c | None => 0 end in
      let t := match child s with Some c => add_to_reaper c t | None => t end in
      let t := if persistent then upd_session sid tid (fun s => s <| child := None |>) t
               else stop e sid tid (s <| child := None |>)
                      (upd_service sid (fun p => p <| sessions := delete tid (sessions p) |>) t) in
      (Closed tid exit_code, t)
    | None => (Closed tid 0, t)
    end
  | None => (Closed tid 0, t)
  end.

Fixpoint close_terminals (e : TEnv) (sid : string) (persistent : bool) (tids : list Z) (t : Terms)
  : list TerminalResponse * Terms :=
  match tids with
  | [] => ([], t)
  | tid :: tids =>
    let '(r, t) := close_terminal e sid persistent tid t in
    let '(rs, t) := close_terminals e sid persistent tids t in
    (r :: rs, t)
  end.

Definition read_outputs (e : TEnv) (sid : string) (t : Terms) : option (list TerminalResponse * Terms) :=
  match get_service sid t with
  | None => Some ([], t)
  | Some p =>
    match read_sessions e sid (map_to_list (sessions p)) t with
    | None => None
    | Some (rs, tids, t) =>
      let '(closed, t) := close_terminals e sid (is_persistent p) tids t in
      Some (rs ++ closed, t)
    end
  end.

(** [run] after its loop has ended. *)
Definition run_end (e : TEnv) (sid : string) (t : Terms) : Terms :=
  match get_service sid t with
  | Some p => if negb (is_persistent p) then remove_service e sid t else t
  | None => t
  end.

(** [TerminalServiceProxy::on_disconnect] *)
Definition on_disconnect (e : TEnv) (sid : string) (persistent : bool) (t : Terms) : Terms :=
  if negb persistent then remove_service e sid t else t.

End Term.
