(* ===== verification/TerminalProofs.v ===== *)
(** * What the terminal service guarantees

    - [outputs_in_order]: what the reader thread put into the channel is sent to
      the peer once, in order, and the end of the shell after it;
    - [no_child_lost]: the invariant of all operations: every shell that was
      started belongs to a session or waits for its reaper or has been reaped,
      but for those dropped by a failed open or close, and the table of services
      keeps its limit;
    - [dead_terminal_reconnects], [output_is_no_activity]: two ways in which a
      session ends differently from what the peer sees. *)

From S2P Require Import Prelude RustStr TerminalBuffer Terminal.

Module TermFacts.

Import Buffer Term.

(** ** Sessions and services under the operations *)

Definition session (sid : string) (tid : Z) (t : Terms) : option TerminalSession :=
  p ← get_service sid t; sessions p !! tid.

Lemma get_upd_service sid sid' f t :
  get_service sid (upd_service sid' f t) = if decide (sid = sid') then f <$> get_service sid t else get_service sid t.
Proof.
  unfold get_service, upd_service, set_field. cbn [TERMINAL_SERVICES]. destruct (decide (sid = sid')) as [->|Hne].
  - apply lookup_alter_eq.
  - by apply lookup_alter_ne.
Qed.

Lemma session_upd sid tid sid' tid' f t :
  session sid tid (upd_session sid' tid' f t) =
  if decide (sid = sid' /\ tid = tid') then f <$> session sid tid t else session sid tid t.
Proof.
  unfold session, upd_session. rewrite get_upd_service. destruct (decide (sid = sid')) as [->|Hne].
  - destruct (get_service sid' t) as [p|]; cbn [fmap option_fmap option_map mbind option_bind];
      [|by destruct (decide _)].
    unfold set_field. cbn [sessions]. destruct (decide (tid = tid')) as [->|Ht].
    + rewrite lookup_alter_eq, decide_True by done. done.
    + rewrite lookup_alter_ne by done. rewrite decide_False by naive_solver. done.
  - rewrite decide_False by naive_solver. done.
Qed.

(** ** A pass over the sessions *)

Definition about (tid : Z) (r : TerminalResponse) : bool :=
  match r with
  | Opened i _ _ _ _ _ | Output i _ _ | Closed i _ => i =? tid
  | TermError _ => false
  end.

Definition of_terminal (tid : Z) (rs : list TerminalResponse) : list TerminalResponse := List.filter (about tid) rs.

Lemma of_terminal_app tid x y : of_terminal tid (x ++ y) = of_terminal tid x ++ of_terminal tid y.
Proof. apply List.filter_app. Qed.

Lemma output_of_about e tid i d : about i (output_of e tid d) = (tid =? i).
Proof. unfold output_of. repeat case_match; done. Qed.

Lemma of_outputs e tid i l : of_terminal i (map (output_of e tid) l) = if tid =? i then map (output_of e tid) l else [].
Proof.
  unfold of_terminal. induction l as [|d l IH]; cbn [map List.filter]; [by case_match|].
  rewrite output_of_about, IH. by destruct (tid =? i).
Qed.

Lemma read_session_about e tid s s' rs c i :
  read_session e tid s = Some (s', rs, c) -> of_terminal i rs = if tid =? i then rs else [].
Proof.
  unfold read_session. cbv zeta. destruct (negb (is_opened _)).
  - intros [= _ <- _]. by case_match.
  - destruct (append_all _ _); [|done]. intros [= _ <- _]. apply of_outputs.
Qed.

(** What a pass does to the sessions of the list does not depend on the rest of
    the state. *)
Lemma read_sessions_spec e sid l t rs tids t' :
  NoDup l.*1 -> read_sessions e sid l t = Some (rs, tids, t') ->
  NoDup tids /\ (forall i, i ∈ tids -> i ∈ l.*1)
  /\ (forall i s, (i, s) ∈ l -> exists s1 rs1 c, read_session e i s = Some (s1, rs1, c)
        /\ of_terminal i rs = rs1 /\ (i ∈ tids <-> c = true)
        /\ session sid i t' = (fun _ => s1) <$> session sid i t)
  /\ (forall sid' i, (sid' <> sid \/ i ∉ l.*1) -> session sid' i t' = session sid' i t)
  /\ (forall i, i ∉ l.*1 -> of_terminal i rs = []).
Proof.
  revert t rs tids t'. induction l as [|[i s] l IH]; intros t rs tids t' Hnd; cbn [read_sessions].
  { intros [= <- <- <-]. split; [constructor|]. split; [by intros i ?%not_elem_of_nil|].
    split; [by intros i s ?%not_elem_of_nil|]. done. }
  cbn in Hnd. apply NoDup_cons in Hnd as [Hi Hnd].
  destruct (read_session e i s) as [[[s1 rs1] c]|] eqn:E; [|done].
  set (t1 := upd_session sid i (fun _ => s1) t).
  destruct (read_sessions e sid l t1) as [[[rs2 tids2] t2]|] eqn:E2; [|done].
  intros [= <- <- <-]. destruct (IH _ _ _ _ Hnd E2) as (H1 & H2 & H3 & H4 & H5).
  assert (Hnt : i ∉ tids2) by (intros ?%H2; done).
  split; [by destruct c; [apply NoDup_cons|]|].
  split; [intros j Hj; cbn; destruct c; [apply elem_of_cons in Hj as [->|Hj]; [by left|]|]; right; auto|].
  split; [|split].
  - intros j s' [[= -> ->]|Hj]%elem_of_cons.
    + exists s1, rs1, c. split; [done|]. rewrite of_terminal_app, (H5 i Hi), app_nil_r.
      rewrite (read_session_about _ _ _ _ _ _ i E), Z.eqb_refl. split; [done|].
      split; [destruct c; split; intros; try done; by left|].
      rewrite (H4 sid i) by auto. unfold t1. rewrite session_upd, decide_True by done. done.
    + assert (j ∈ l.*1) as Hjl by (apply list_elem_of_fmap; by exists (j, s')).
      assert (Hne : i <> j) by (intros ->; done).
      destruct (H3 j s' Hj) as (s2 & rs3 & c2 & A1 & A2 & A3 & A4). exists s2, rs3, c2. split; [done|].
      rewrite of_terminal_app, (read_session_about _ _ _ _ _ _ j E), (proj2 (Z.eqb_neq i j)) by done.
      split; [done|]. split.
      * rewrite <-A3. destruct c; [|done]. rewrite elem_of_cons. naive_solver.
      * rewrite A4. unfold t1. rewrite session_upd, decide_False by naive_solver. done.
  - intros sid' j Hj. rewrite H4 by (cbn in Hj; rewrite not_elem_of_cons in Hj; naive_solver).
    unfold t1. rewrite session_upd, decide_False; [done|]. cbn in Hj. rewrite not_elem_of_cons in Hj. naive_solver.
  - intros j Hj. cbn in Hj. apply not_elem_of_cons in Hj as [Hne Hj].
    rewrite of_terminal_app, (H5 j Hj), app_nil_r, (read_session_about _ _ _ _ _ _ j E).
    by rewrite (proj2 (Z.eqb_neq i j)) by done.
Qed.

(** ** The end of shells *)

Lemma stop_services e sid tid s t : TERMINAL_SERVICES (stop e sid tid s t) = TERMINAL_SERVICES t.
Proof. unfold stop. by destruct (input_tx s && writer_alive e), (child s). Qed.

Lemma session_stop sid' i e sid tid s t : session sid' i (stop e sid tid s t) = session sid' i t.
Proof. unfold session, get_service. by rewrite stop_services. Qed.

Lemma session_reaper sid i c t : session sid i (add_to_reaper c t) = session sid i t.
Proof. reflexivity. Qed.

Lemma session_delete sid tid sid' tid' t :
  session sid tid (upd_service sid' (fun p => p <| sessions := delete tid' (sessions p) |>) t) =
  if decide (sid = sid' /\ tid = tid') then None else session sid tid t.
Proof.
  unfold session. rewrite get_upd_service. destruct (decide (sid = sid')) as [->|Hne].
  - destruct (get_service sid' t) as [p|]; cbn [fmap option_fmap option_map mbind option_bind];
      [|by destruct (decide _)].
    unfold set_field. cbn [sessions]. destruct (decide (tid = tid')) as [->|Ht].
    + rewrite lookup_delete_eq, decide_True by done. done.
    + rewrite lookup_delete_ne by done. rewrite decide_False by naive_solver. done.
  - rewrite decide_False by naive_solver. done.
Qed.

(** The session of a shell that has ended: gone, or kept without its child. *)
Definition after_close (persistent : bool) (o : option TerminalSession) : option TerminalSession :=
  if persistent then (fun s => s <| child := None |>) <$> o else None.

Lemma close_terminal_spec e sid persistent tid t :
  let '(r, t') := close_terminal e sid persistent tid t in
  (exists code, r = Closed tid code)
  /\ session sid tid t' = after_close persistent (session sid tid t)
  /\ (forall i, i <> tid -> session sid i t' = session sid i t).
Proof.
  unfold close_terminal, session at 2. destruct (get_service sid t) as [p|] eqn:Ep.
  2:{ split; [eauto|]. unfold session. rewrite Ep. by destruct persistent. }
  cbn [mbind option_bind]. destruct (sessions p !! tid) as [s|] eqn:Es.
  2:{ split; [eauto|]. unfold session. rewrite Ep. cbn. rewrite Es. by destruct persistent. }
  cbv zeta. set (t1 := match child s with Some c => add_to_reaper c t | None => t end).
  assert (H1 : forall i, session sid i t1 = session sid i t) by (intros i; unfold t1; by destruct (child s)).
  assert (Hs : session sid tid t = Some s) by (unfold session; by rewrite Ep).
  clearbody t1. split; [eauto|]. destruct persistent; cbn [after_close].
  - split.
    + rewrite session_upd, decide_True, H1, Hs by done. done.
    + intros i Hi. rewrite session_upd, decide_False, H1 by naive_solver. done.
  - split.
    + rewrite session_stop, session_delete, decide_True by done. done.
    + intros i Hi. rewrite session_stop, session_delete, decide_False, H1 by naive_solver. done.
Qed.

Lemma close_terminals_spec e sid persistent tids t :
  NoDup tids ->
  let '(rs, t') := close_terminals e sid persistent tids t in
  (forall i, exists code, of_terminal i rs = if bool_decide (i ∈ tids) then [Closed i code] else [])
  /\ (forall i, session sid i t' = if bool_decide (i ∈ tids) then after_close persistent (session sid i t)
                                   else session sid i t).
Proof.
  revert t. induction tids as [|tid tids IH]; intros t Hnd; cbn [close_terminals].
  { split; [intros i; by exists 0|done]. }
  apply NoDup_cons in Hnd as [Hn Hnd].
  pose proof (close_terminal_spec e sid persistent tid t) as Hc.
  destruct (close_terminal e sid persistent tid t) as [r t1]. destruct Hc as ((code & ->) & H1 & H2).
  specialize (IH t1 Hnd). destruct (close_terminals e sid persistent tids t1) as [rs t2]. destruct IH as [H3 H4].
  split; intros i; (destruct (decide (i = tid)) as [->|Hi]).
  - destruct (H3 tid) as [code' H]. rewrite bool_decide_false in H by done.
    rewrite bool_decide_true by by left. exists code. cbn [of_terminal List.filter about].
    rewrite Z.eqb_refl. f_equal. exact H.
  - destruct (H3 i) as [code' H]. exists code'. cbn [of_terminal List.filter about].
    rewrite (proj2 (Z.eqb_neq tid i)) by done. fold (of_terminal i rs). rewrite H.
    erewrite bool_decide_ext; [reflexivity|]. rewrite elem_of_cons. naive_solver.
  - rewrite H4, bool_decide_false by done. by rewrite bool_decide_true by by left.
  - rewrite H4, (H2 i Hi). erewrite bool_decide_ext; [reflexivity|]. rewrite elem_of_cons. naive_solver.
Qed.

(** A whole pass, seen from one session. *)
Lemma read_outputs_spec e sid t p tid s rs t' :
  get_service sid t = Some p -> sessions p !! tid = Some s -> read_outputs e sid t = Some (rs, t') ->
  exists s1 rs1 c code, read_session e tid s = Some (s1, rs1, c)
    /\ of_terminal tid rs = rs1 ++ (if c : bool then [Closed tid code] else [])
    /\ session sid tid t' = if c then after_close (is_persistent p) (Some s1) else Some s1.
Proof.
  intros Ep Es. unfold read_outputs. rewrite Ep.
  destruct (read_sessions e sid (map_to_list (sessions p)) t) as [[[rs0 tids] t1]|] eqn:E; [|done].
  pose proof (NoDup_fst_map_to_list (sessions p)) as Hnd.
  destruct (read_sessions_spec _ _ _ _ _ _ _ Hnd E) as (H1 & H2 & H3 & _).
  destruct (H3 tid s) as (s1 & rs1 & c & A1 & A2 & A3 & A4); [by apply elem_of_map_to_list|].
  pose proof (close_terminals_spec e sid (is_persistent p) tids t1 H1) as Hc.
  destruct (close_terminals e sid (is_persistent p) tids t1) as [closed t2]. intros [= <- <-].
  destruct Hc as [H4 H5]. destruct (H4 tid) as [code H6]. exists s1, rs1, c, code. split; [done|].
  assert (Hs : session sid tid t1 = Some s1).
  { rewrite A4. unfold session. rewrite Ep. cbn. by rewrite Es. }
  rewrite of_terminal_app, A2, H6, H5, Hs. destruct c.
  - rewrite bool_decide_true by by apply A3. done.
  - rewrite bool_decide_false by (intros ?%A3; done). done.
Qed.

(** The bytes a response carries, for a peer that decompresses with [dz]. *)
Definition text_of (dz : list Z -> list Z) (r : TerminalResponse) : list Z :=
  match r with Output _ d z => if z then dz d else d | _ => [] end.

(** The output of a shell reaches the peer once, completely and in order:
    one pass over an opened session sends exactly the chunks that were in its
    channel, compressed or not, then, if the shell has ended and this was not
    reported before, the message that it is closed; the channel is empty
    afterwards, so that the next pass does not send them again. *)
Theorem outputs_in_order e dz sid t p tid s chunks rs t' :
  get_service sid t = Some p -> sessions p !! tid = Some s ->
  is_opened s = true -> output_rx s = Some chunks ->
  (forall d, d ∈ chunks -> COMPRESS_THRESHOLD < len d -> dz (compress e d) = d) ->
  read_outputs e sid t = Some (rs, t') ->
  exists outputs closed, of_terminal tid rs = outputs ++ closed
    /\ map (text_of dz) outputs = chunks
    /\ (if negb (closed_message_sent s) && bool_decide (reader_thread s = Some true)
        then exists code, closed = [Closed tid code] else closed = [])
    /\ (forall s', session sid tid t' = Some s' -> output_rx s' = Some []).
Proof.
  intros Ep Es Ho Hc Hz Hr.
  destruct (read_outputs_spec _ _ _ _ _ _ _ _ Ep Es Hr) as (s1 & rs1 & c & code & H1 & H2 & H3).
  assert (Hc' : c = negb (closed_message_sent s) && bool_decide (reader_thread s = Some true)
                /\ rs1 = map (output_of e tid) chunks /\ output_rx s1 = Some []).
  { revert H1. unfold read_session. cbv zeta.
    set (cl := negb (closed_message_sent s) && match reader_thread s with Some true => true | _ => false end).
    assert (Hcl : cl = negb (closed_message_sent s) && bool_decide (reader_thread s = Some true)).
    { unfold cl. f_equal. by destruct (reader_thread s) as [[]|]. }
    set (s0 := if cl then s <| closed_message_sent := true |> else s).
    assert (H0 : is_opened s0 = true /\ output_rx s0 = Some chunks) by (unfold s0; by destruct cl).
    destruct H0 as [-> H0]. rewrite H0. cbn [negb unwrap_or fmap option_fmap option_map].
    destruct (append_all chunks (output_buffer s0)); [|done].
    intros [= <- <- <-]. split; [done|]. split; [done|]. by destruct chunks. }
  destruct Hc' as (-> & -> & Hrx). rewrite H2. eexists _, _. split; [reflexivity|]. split; [|split].
  - rewrite map_map. rewrite <-map_id. apply map_ext_in. intros d Hd%list_elem_of_In. unfold output_of.
    destruct (Z.ltb_spec COMPRESS_THRESHOLD (len d)); [|done].
    destruct (len (compress e d) <? len d); [|done]. cbn. by apply Hz.
  - case_match; [by exists code|done].
  - intros s'. rewrite H3. case_match; [|by intros [= <-]]. unfold after_close.
    destruct (is_persistent p); [|done]. by intros [= <-].
Qed.

(** ** All operations *)

Inductive TermOp : Type :=
| OpAction (sid : string) (a : TerminalAction)                 (* of the peer *)
| OpPass (sid : string)                                        (* the thread of the service *)
| OpAttach (sid : string) (persistent specified_user : bool)   (* a connection starts *)
| OpDetach (sid : string)                                      (* its thread ends *)
| OpPersist (sid : string) (persistent : bool)
| OpCleanup | OpReap                                           (* the cleanup task *)
| OpReader (sid : string) (tid : Z) (ev : ReadEvent).          (* a reader thread *)

Definition run_op (e : TEnv) (op : TermOp) (t : Terms) : option (list TerminalResponse * Terms) :=
  match op with
  | OpAction sid a => Some (handle_terminal_action e sid a t)
  | OpPass sid => read_outputs e sid t
  | OpAttach sid persistent user => Some ([], snd (get_or_create_service e sid persistent user t))
  | OpDetach sid => Some ([], run_end e sid t)
  | OpPersist sid persistent => Some ([], snd (set_persistent sid persistent t))
  | OpCleanup => Some ([], cleanup_inactive_services e t)
  | OpReap => Some ([], check_zombie_terminals e t)
  | OpReader sid tid ev => Some ([], upd_session sid tid (on_read ev) t)
  end.

Fixpoint run_ops (ops : list (TEnv * TermOp)) (t : Terms) : option (list TerminalResponse * Terms) :=
  match ops with
  | [] => Some ([], t)
  | (e, op) :: ops =>
    match run_op e op t with
    | Some (rs, t) => match run_ops ops t with Some (rs', t) => Some (rs ++ rs', t) | None => None end
    | None => None
    end
  end.

(** ** No shell is lost *)

Definition is_spawn (o : TermOut) : bool := match o with Spawned _ | Dropped _ => true | _ => false end.

(** A shell in a session, in the list of the reaper, or reaped. *)
Definition alive (t : Terms) (c : Z) : Prop :=
  (exists sid tid s, session sid tid t = Some s /\ child s = Some c)
  \/ c ∈ TERMINAL_TASKS t \/ Reaped c ∈ outs t.

Definition accounted (t : Terms) (c : Z) : Prop :=
  (exists sid tid s, session sid tid t = Some s /\ child s = Some c)
  \/ c ∈ TERMINAL_TASKS t \/ Reaped c ∈ outs t \/ Dropped c ∈ outs t.

(** How an operation drops a shell. *)
Definition lost_by (e : TEnv) (op : TermOp) (c : Z) : Prop :=
  match op with
  | OpAction _ (Open _ r cs) => exists err, spawn e (u16 r) (u16 cs) = SpawnedUnusable c err
  | OpAction _ (Close _) => exists err, kill e c = Err err
  | _ => False
  end.

Section Lost.
Context (lost : Z -> Prop).

(** [t'] comes after [t] and has dropped no shells but those in [lost]. *)
Definition grows (t t' : Terms) : Prop :=
  (forall c, accounted t c -> accounted t' c)
  /\ (forall c, Spawned c ∈ outs t' -> Spawned c ∈ outs t \/ accounted t' c)
  /\ (forall c, Dropped c ∈ outs t' -> Dropped c ∈ outs t \/ lost c).

Lemma grows_refl t : grows t t.
Proof. repeat split; auto. Qed.

Lemma grows_trans t1 t2 t3 : grows t1 t2 -> grows t2 t3 -> grows t1 t3.
Proof.
  intros (A1 & A2 & A3) (B1 & B2 & B3). split; [auto|]. split.
  - intros c [Hc|Hc]%B2; [|auto]. apply A2 in Hc as [Hc|Hc]; auto.
  - intros c [Hc|Hc]%B3; [|auto]. by apply A3.
Qed.

(** A step that writes [l] to the shells and keeps the reaper's list. *)
Lemma grows_step t t' l k :
  outs t' = outs t ++ l -> Forall (fun o => is_spawn o = false) l -> TERMINAL_TASKS t' = TERMINAL_TASKS t ++ k ->
  (forall sid tid s c, session sid tid t = Some s -> child s = Some c -> accounted t' c) -> grows t t'.
Proof.
  intros Ho Hl Ht Hs. split.
  - intros c [(sid & tid & s & H1 & H2)|[H|[H|H]]]; [by eapply Hs| | |].
    + right. left. rewrite Ht. apply elem_of_app. by left.
    + right. right. left. rewrite Ho. apply elem_of_app. by left.
    + right. right. right. rewrite Ho. apply elem_of_app. by left.
  - split; intros c; rewrite Ho, elem_of_app; (intros [H|H]; [by left|]);
      rewrite Forall_forall in Hl; by apply Hl in H.
Qed.

(** A step that changes neither the children of the sessions nor the rest. *)
Lemma grows_quiet t t' l :
  outs t' = outs t ++ l -> Forall (fun o => is_spawn o = false) l -> TERMINAL_TASKS t' = TERMINAL_TASKS t ->
  (forall sid tid, (s ← session sid tid t; child s) = (s ← session sid tid t'; child s)) -> grows t t'.
Proof.
  intros Ho Hl Ht Hs. apply (grows_step t t' l []); [done|done|by rewrite app_nil_r|].
  intros sid tid s c H1 H2. specialize (Hs sid tid). rewrite H1 in Hs. cbn in Hs. rewrite H2 in Hs.
  symmetry in Hs. apply bind_Some in Hs as (s' & H3 & H4). left. eauto 6.
Qed.

Definition child_list (s : TerminalSession) : list Z := match child s with Some c => [c] | None => [] end.

Lemma stop_spec e sid tid s t :
  TERMINAL_TASKS (stop e sid tid s t) = TERMINAL_TASKS t ++ child_list s
  /\ exists l, outs (stop e sid tid s t) = outs t ++ l /\ Forall (fun o => is_spawn o = false) l.
Proof.
  unfold stop, child_list. cbv zeta.
  destruct (input_tx s && writer_alive e), (child s); cbn; (split; [by rewrite ?app_nil_r|]).
  - eexists [_; _]. rewrite <-app_assoc. split; [reflexivity|by repeat constructor].
  - eexists [_]. split; [reflexivity|by repeat constructor].
  - eexists [_]. split; [reflexivity|by repeat constructor].
  - exists []. rewrite app_nil_r. split; [done|constructor].
Qed.

Lemma accounted_task t c : c ∈ TERMINAL_TASKS t -> accounted t c.
Proof. right. by left. Qed.

Lemma upd_service_rest sid f t :
  outs (upd_service sid f t) = outs t /\ TERMINAL_TASKS (upd_service sid f t) = TERMINAL_TASKS t.
Proof. done. Qed.

(** Changing sessions without touching their children. *)
Lemma grows_upd_session sid tid f t :
  (forall s, child (f s) = child s) -> grows t (upd_session sid tid f t).
Proof.
  intros Hf. apply (grows_quiet _ _ []); [by rewrite app_nil_r|constructor|done|].
  intros sid' tid'. rewrite session_upd. destruct (decide _); [|done].
  destruct (session sid' tid' t); [|done]. cbn. by rewrite Hf.
Qed.

Lemma session_upd_service sid tid sid' f t :
  (forall p, sessions (f p) = sessions p) -> session sid tid (upd_service sid' f t) = session sid tid t.
Proof.
  intros Hf. unfold session. rewrite get_upd_service. destruct (decide (sid = sid')); [|done].
  destruct (get_service sid t); [|done]. cbn. by rewrite Hf.
Qed.

Lemma grows_upd_service sid f t : (forall p, sessions (f p) = sessions p) -> grows t (upd_service sid f t).
Proof.
  intros Hf. apply (grows_quiet _ _ []); [by rewrite app_nil_r|constructor|done|].
  intros sid' tid'. by rewrite session_upd_service.
Qed.

Lemma grows_out o t : is_spawn o = false -> grows t (emit o t).
Proof. intros Ho. by apply (grows_quiet _ _ [o]); [|repeat constructor| |]. Qed.

(** Taking a session out and stopping it. *)
Lemma grows_drop e sid tid s s' t :
  session sid tid t = Some s -> (forall c, child s = Some c -> child s' = Some c \/ c ∈ TERMINAL_TASKS t) ->
  grows t (stop e sid tid s' (upd_service sid (fun p => p <| sessions := delete tid (sessions p) |>) t)).
Proof.
  intros Hs Hc. set (t1 := upd_service sid _ t).
  destruct (stop_spec e sid tid s' t1) as (Ht & l & Ho & Hl).
  apply (grows_step _ _ l (child_list s')); [exact Ho|exact Hl|exact Ht|].
  intros sid2 tid2 s2 c H1 H2. destruct (decide (sid2 = sid /\ tid2 = tid)) as [[-> ->]|Hne].
  - rewrite Hs in H1. injection H1 as <-. apply accounted_task. rewrite Ht. apply elem_of_app.
    destruct (Hc c H2) as [H|H]; [|by left]. right. unfold child_list. rewrite H. by left.
  - left. exists sid2, tid2, s2. split; [|done]. unfold t1. rewrite session_stop, session_delete, decide_False; done.
Qed.

(** *** Each operation *)

Lemma session_insert sid tid sid' tid' s f t p :
  get_service sid' t = Some p -> (forall q, sessions (f q) = <[ tid' := s ]> (sessions q)) ->
  session sid tid (upd_service sid' f t) = if decide (sid = sid' /\ tid = tid') then Some s else session sid tid t.
Proof.
  intros Hp Hf. unfold session. rewrite get_upd_service. destruct (decide (sid = sid')) as [->|Hne].
  - rewrite Hp. cbn [fmap option_fmap option_map mbind option_bind]. rewrite Hf.
    destruct (decide (tid = tid')) as [->|Ht].
    + rewrite lookup_insert_eq, decide_True by done. done.
    + rewrite lookup_insert_ne by done. rewrite decide_False by naive_solver. done.
  - rewrite decide_False by naive_solver. done.
Qed.

Lemma grows_open e sid tid r c p q t :
  get_service sid t = Some q -> (sessions p !! tid = None -> session sid tid t = None) ->
  (forall ch err, spawn e (u16 r) (u16 c) = SpawnedUnusable ch err -> lost ch) ->
  grows t (snd (handle_open e sid tid r c p t)).
Proof.
  intros Hp Hn Hlost. unfold handle_open. cbv zeta. destruct (sessions p !! tid) as [s|] eqn:Es; cbn [snd].
  - eapply grows_trans; [apply grows_upd_session|apply grows_upd_service]; done.
  - destruct (spawn e (u16 r) (u16 c)) as [err|ch err|ch pr] eqn:Esp; cbn [snd]; [apply grows_refl| |].
    { assert (outs (emit (Dropped ch) (emit (Spawned ch) t)) = outs t ++ [Spawned ch; Dropped ch]) as Ho.
      { cbn. by rewrite <-app_assoc. }
      split; [|split].
      - intros c0 [H|[H|[H|H]]]; [by left|by right; left|right; right; left|right; right; right];
          rewrite Ho; apply elem_of_app; by left.
      - intros c0. rewrite Ho, elem_of_app, elem_of_cons, list_elem_of_singleton.
        intros [H|[[= ->]|?]]; [by left| |done]. right. right. right. right. rewrite Ho. apply elem_of_app. right.
        right. left.
      - intros c0. rewrite Ho, elem_of_app, elem_of_cons, list_elem_of_singleton.
        intros [H|[?|[= ->]]]; [by left|done|right]. by eapply Hlost. }
    match goal with |- grows t (upd_service sid ?f ?t1) => set (f0 := f) end.
    split; [|split].
    + intros c0 [(sid2 & tid2 & s2 & H1 & H2)|[H|H]]; [|right; by left|right; right].
      * left. exists sid2, tid2, s2. split; [|done].
        unfold f0. erewrite (session_insert sid2 tid2 sid tid); [|exact Hp|reflexivity].
        rewrite decide_False; [done|]. intros [-> ->]. by rewrite (Hn eq_refl) in H1.
      * change (Reaped c0 ∈ outs t ++ [Spawned ch] \/ Dropped c0 ∈ outs t ++ [Spawned ch]).
        rewrite !elem_of_app. destruct H; auto.
    + intros c0 H. change (Spawned c0 ∈ outs t ++ [Spawned ch]) in H.
      apply elem_of_app in H as [H|H%list_elem_of_singleton]; [by left|]. injection H as ->. right. left.
      exists sid, tid. eexists. split.
      * unfold f0. erewrite (session_insert sid tid sid tid); [|exact Hp|reflexivity].
        rewrite decide_True by done. reflexivity.
      * reflexivity.
    + intros c0 H. change (Dropped c0 ∈ outs t ++ [Spawned ch]) in H.
      apply elem_of_app in H as [H|H%list_elem_of_singleton]; [by left|done].
Qed.

(** A shell that cannot be killed is dropped. *)
Lemma grows_unkilled e sid tid s c t :
  session sid tid t = Some s -> child s = Some c -> lost c ->
  grows t (stop e sid tid (s <| child := None |>)
             (emit (Dropped c) (upd_service sid (fun p => p <| sessions := delete tid (sessions p) |>) t))).
Proof.
  intros Hs Hc Hlost. set (t1 := upd_service sid _ t).
  destruct (stop_spec e sid tid (s <| child := None |>) (emit (Dropped c) t1)) as (Ht & l & Ho & Hl).
  assert (outs (stop e sid tid (s <| child := None |>) (emit (Dropped c) t1)) = outs t ++ Dropped c :: l) as Ho'.
  { rewrite Ho. change (outs (emit (Dropped c) t1)) with (outs t ++ [Dropped c]). by rewrite <-app_assoc. }
  clear Ho. rewrite Forall_forall in Hl. split; [|split].
  - intros c0 [(sid2 & tid2 & s2 & H1 & H2)|[H|[H|H]]].
    + destruct (decide (sid2 = sid /\ tid2 = tid)) as [[-> ->]|Hne].
      * right. right. right. rewrite Ho'. rewrite Hs in H1. injection H1 as <-. rewrite Hc in H2. injection H2 as <-.
        apply elem_of_app. right. left.
      * left. exists sid2, tid2, s2. split; [|done]. rewrite session_stop.
        change (session sid2 tid2 (emit (Dropped c) t1)) with (session sid2 tid2 t1).
        unfold t1. rewrite session_delete, decide_False; done.
    + right. left. rewrite Ht. apply elem_of_app. by left.
    + right. right. left. rewrite Ho'. apply elem_of_app. by left.
    + right. right. right. rewrite Ho'. apply elem_of_app. by left.
  - intros c0. rewrite Ho', elem_of_app, elem_of_cons. intros [H|[?|H]]; [by left|done|by apply Hl in H].
  - intros c0. rewrite Ho', elem_of_app, elem_of_cons. intros [H|[[= ->]|H]]; [by left|by right|by apply Hl in H].
Qed.

Lemma grows_close e sid tid p t :
  (forall c err, kill e c = Err err -> lost c) -> (forall s, sessions p !! tid = Some s -> session sid tid t = Some s) ->
  grows t (snd (handle_close e sid tid p t)).
Proof.
  intros Hk Hp. unfold handle_close. cbv zeta. destruct (sessions p !! tid) as [s|] eqn:Es; [|apply grows_refl].
  specialize (Hp s eq_refl). destruct (child s) as [c|] eqn:Ec; [destruct (kill e c) as [[]|err] eqn:Ek|]; cbn [snd].
  - apply (grows_trans _ (add_to_reaper c (emit (Kill c) t))).
    { apply (grows_step _ _ [Kill c] [c]); [done|by repeat constructor|done|].
      intros sid2 tid2 s2 c2 H1 H2. left. exists sid2, tid2, s2. done. }
    apply (grows_drop e sid tid s (s <| child := None |>) (add_to_reaper c (emit (Kill c) t))); [exact Hp|].
    intros c2 H2. right. apply elem_of_app. right. rewrite Ec in H2. injection H2 as <-. by left.
  - eapply grows_unkilled; [exact Hp|exact Ec|by eapply Hk].
  - apply (grows_drop e sid tid s s t); [exact Hp|by left].
Qed.

Lemma grows_action e sid a t : (forall c, lost_by e (OpAction sid a) c -> lost c) -> grows t (snd (handle_terminal_action e sid a t)).
Proof.
  intros Hk. assert (Hh : grows t (snd (handle_action e sid a t))).
  { unfold handle_action. destruct (get_service sid t) as [p|] eqn:Ep; [|apply grows_refl].
    set (t1 := upd_service sid _ t).
    assert (H1 : grows t t1) by by apply grows_upd_service.
    assert (Hs : forall i, session sid i t1 = sessions p !! i).
    { intros i. unfold t1. rewrite session_upd_service by done. unfold session. by rewrite Ep. }
    assert (Hg : exists p1, get_service sid t1 = Some p1 /\ sessions p1 = sessions p).
    { unfold t1. rewrite get_upd_service, decide_True, Ep by done. by eexists. }
    clearbody t1. eapply grows_trans; [exact H1|]. destruct Hg as (p1 & Hp1 & Hsp).
    destruct a as [tid r c|tid r c|tid data|tid|]; cbn [snd]; [| | | |apply grows_refl].
    - apply (grows_open _ _ _ _ _ _ p1); [done|by rewrite Hs|]. intros ch err H. apply Hk. by exists err.
    - unfold handle_resize. destruct (sessions p !! tid); [|apply grows_refl]. cbv zeta.
      destruct (pty_pair _); [destruct (resize_pty _ _ _)|]; cbn [snd];
        try (eapply grows_trans; [|by apply grows_out]); by apply grows_upd_session.
    - unfold handle_data. destruct (sessions p !! tid); [|apply grows_refl]. cbv zeta. cbn [snd].
      destruct (_ && _); try (eapply grows_trans; [|by apply grows_out]); by apply grows_upd_session.
    - apply grows_close; [intros c err H; apply Hk; by exists err|]. intros s' H'. by rewrite Hs. }
  unfold handle_terminal_action. by destruct (handle_action e sid a t) as [[[]|] t'].
Qed.

Lemma stop_all_spec e sid l t :
  TERMINAL_SERVICES (stop_all e sid l t) = TERMINAL_SERVICES t
  /\ TERMINAL_TASKS (stop_all e sid l t) = TERMINAL_TASKS t ++ concat (map (fun x => child_list x.2) l)
  /\ exists k, outs (stop_all e sid l t) = outs t ++ k /\ Forall (fun o => is_spawn o = false) k.
Proof.
  revert t. induction l as [|[i s] l IH]; intros t.
  { split; [done|]. cbn. rewrite app_nil_r. split; [done|]. exists []. by rewrite app_nil_r. }
  change (stop_all e sid ((i, s) :: l) t) with (stop_all e sid l (stop e sid i s t)).
  destruct (stop_spec e sid i s t) as (A1 & k1 & A2 & A3).
  destruct (IH (stop e sid i s t)) as (B1 & B2 & k2 & B3 & B4).
  split; [by rewrite B1, stop_services|]. split.
  - rewrite B2, A1. cbn [map concat snd]. by rewrite app_assoc.
  - exists (k1 ++ k2). rewrite B3, A2. split; [by rewrite app_assoc|]. by apply Forall_app.
Qed.

Lemma get_remove e sid sid' t :
  get_service sid (remove_service e sid' t) = if decide (sid = sid') then None else get_service sid t.
Proof.
  unfold remove_service, get_service. destruct (TERMINAL_SERVICES t !! sid') as [p|] eqn:Ep.
  - rewrite (proj1 (stop_all_spec _ _ _ _)). destruct (decide (sid = sid')) as [->|].
    + apply lookup_delete_eq.
    + by apply lookup_delete_ne.
  - destruct (decide (sid = sid')) as [->|]; done.
Qed.

Lemma grows_remove e sid t : grows t (remove_service e sid t).
Proof.
  unfold remove_service. destruct (TERMINAL_SERVICES t !! sid) as [p|] eqn:Ep; [|apply grows_refl].
  pose proof (fun sid2 => get_remove e sid2 sid t) as Hg. unfold remove_service in Hg. rewrite Ep in Hg.
  destruct (stop_all_spec e sid (map_to_list (sessions p))
              (t <| TERMINAL_SERVICES := delete sid (TERMINAL_SERVICES t) |>)) as (A1 & A2 & k & A3 & A4).
  change (outs (t <| TERMINAL_SERVICES := _ |>)) with (outs t) in A3.
  change (TERMINAL_TASKS (t <| TERMINAL_SERVICES := _ |>)) with (TERMINAL_TASKS t) in A2.
  apply (grows_step _ _ k (concat (map (fun x => child_list x.2) (map_to_list (sessions p))))); [exact A3|exact A4|exact A2|].
  intros sid2 tid2 s c H1 H2. destruct (decide (sid2 = sid)) as [->|Hne].
  - apply accounted_task. rewrite A2. apply elem_of_app. right.
    unfold session, get_service in H1. rewrite Ep in H1. cbn in H1.
    apply list_elem_of_In, in_concat. exists [c]. split; [|by left].
    apply in_map_iff. exists (tid2, s). split; [unfold child_list; cbn; by rewrite H2|].
    by apply list_elem_of_In, elem_of_map_to_list.
  - left. exists sid2, tid2, s. split; [|done]. unfold session in *.
    specialize (Hg sid2). rewrite decide_False in Hg by done. by rewrite Hg.
Qed.

Lemma grows_attach e sid b u t : grows t (snd (get_or_create_service e sid b u t)).
Proof.
  unfold get_or_create_service. cbv zeta. destruct (TERMINAL_SERVICES t !! sid) as [p|] eqn:Ep.
  - cbn [snd]. apply (grows_quiet _ _ []); [by rewrite app_nil_r|constructor|done|]. intros sid2 tid2.
    unfold session, get_service. change (TERMINAL_SERVICES ((t <| TERMINAL_SERVICES := ?x |>) <| CLEANUP_TASK := _ |>)) with x.
    destruct (decide (sid2 = sid)) as [->|Hne]; [|by rewrite lookup_insert_ne].
    rewrite lookup_insert_eq, Ep. cbn. rewrite lookup_fmap. by destruct (sessions p !! tid2).
  - destruct (MAX_SERVICES <=? _); cbn [snd]; [apply grows_refl|].
    apply (grows_quiet _ _ []); [by rewrite app_nil_r|constructor|done|]. intros sid2 tid2.
    unfold session, get_service. change (TERMINAL_SERVICES ((t <| TERMINAL_SERVICES := ?x |>) <| CLEANUP_TASK := _ |>)) with x.
    destruct (decide (sid2 = sid)) as [->|Hne]; [|by rewrite lookup_insert_ne].
    rewrite lookup_insert_eq, Ep. cbn. by rewrite lookup_fmap, lookup_empty.
Qed.

Lemma grows_reap e t : grows t (check_zombie_terminals e t).
Proof.
  assert (forall o, o ∈ outs (check_zombie_terminals e t) <->
            o ∈ outs t \/ exists c, o = Reaped c /\ c ∈ List.filter (fun c => negb (running e c)) (TERMINAL_TASKS t)) as Ho.
  { intros o. change (outs (check_zombie_terminals e t))
      with (outs t ++ map Reaped (List.filter (fun c => negb (running e c)) (TERMINAL_TASKS t))).
    rewrite elem_of_app. apply or_iff_compat_l, list_elem_of_fmap. }
  split; [|split].
  - intros c [H|[H|[H|H]]]; [by left| |right; right; left; apply Ho; by left|right; right; right; apply Ho; by left].
    destruct (running e c) eqn:Er.
    + right. left. apply list_elem_of_In, List.filter_In. split; [by apply list_elem_of_In|done].
    + right. right. left. apply Ho. right. exists c. split; [done|].
      apply list_elem_of_In, List.filter_In. split; [by apply list_elem_of_In|]. by rewrite Er.
  - intros c [H|(c' & ? & _)]%Ho; [by left|done].
  - intros c [H|(c' & ? & _)]%Ho; [by left|done].
Qed.

Lemma on_read_child ev s : child (on_read ev s) = child s.
Proof. unfold on_read. cbv zeta. repeat case_match; done. Qed.

Lemma read_session_child e tid s s' rs c : read_session e tid s = Some (s', rs, c) -> child s' = child s.
Proof.
  unfold read_session. cbv zeta. set (s0 := if _ && _ then _ else s).
  assert (Hs : child s0 = child s) by (unfold s0; by case_match). clearbody s0.
  destruct (negb (is_opened s0)); [by intros [= <- _ _]|].
  destruct (append_all _ _); [|done]. intros [= <- _ _]. rewrite <-Hs. by case_match.
Qed.

Lemma read_sessions_rest e sid l t rs tids t' :
  read_sessions e sid l t = Some (rs, tids, t') ->
  outs t' = outs t /\ TERMINAL_TASKS t' = TERMINAL_TASKS t.
Proof.
  revert t rs tids. induction l as [|[i s] l IH]; intros t rs tids; cbn [read_sessions]; [by intros [= _ _ <-]|].
  destruct (read_session e i s) as [[[s1 rs1] c]|]; [|done].
  destruct (read_sessions e sid l _) as [[[rs2 tids2] t2]|] eqn:E; [|done]. intros [= _ _ <-].
  by destruct (IH _ _ _ E).
Qed.

Lemma grows_close_terminal e sid b tid t : grows t (snd (close_terminal e sid b tid t)).
Proof.
  unfold close_terminal. destruct (get_service sid t) as [p|] eqn:Ep; [|apply grows_refl].
  destruct (sessions p !! tid) as [s|] eqn:Es; [|apply grows_refl]. cbv zeta. cbn [snd].
  assert (Hs : session sid tid t = Some s) by (unfold session; by rewrite Ep).
  set (t1 := match child s with Some c => add_to_reaper c t | None => t end).
  assert (Hs1 : session sid tid t1 = Some s) by (unfold t1; by destruct (child s)).
  assert (H1 : grows t t1).
  { unfold t1. destruct (child s) as [c|]; [|apply grows_refl].
    apply (grows_step _ _ [] [c]); [by rewrite app_nil_r|constructor|done|].
    intros sid2 tid2 s2 c2 A B. left. by exists sid2, tid2, s2. }
  assert (Ht : forall c, child s = Some c -> c ∈ TERMINAL_TASKS t1).
  { intros c Hc. unfold t1. rewrite Hc. apply elem_of_app. right. by left. }
  clearbody t1. eapply grows_trans; [exact H1|]. destruct b.
  - apply (grows_step _ _ [] []); [by rewrite app_nil_r|constructor|by rewrite app_nil_r|].
    intros sid2 tid2 s2 c2 A B. destruct (decide (sid2 = sid /\ tid2 = tid)) as [[-> ->]|Hne].
    + rewrite Hs1 in A. injection A as <-. right. left. by apply Ht.
    + left. exists sid2, tid2, s2. split; [|done]. by rewrite session_upd, decide_False.
  - apply (grows_drop e sid tid s (s <| child := None |>)); [exact Hs1|]. right. by apply Ht.
Qed.

Lemma grows_pass e sid t rs t' : read_outputs e sid t = Some (rs, t') -> grows t t'.
Proof.
  unfold read_outputs. destruct (get_service sid t) as [p|] eqn:Ep; [|intros [= _ <-]; apply grows_refl].
  destruct (read_sessions _ _ _ _) as [[[rs0 tids] t1]|] eqn:E; [|done].
  assert (H1 : grows t t1).
  { destruct (read_sessions_rest _ _ _ _ _ _ _ E) as [Ho Ht].
    destruct (read_sessions_spec _ _ _ _ _ _ _ (NoDup_fst_map_to_list _) E) as (_ & _ & H3 & H4 & _).
    apply (grows_quiet _ _ []); [by rewrite app_nil_r|constructor|done|]. intros sid2 i.
    destruct (decide (sid2 = sid)) as [->|Hne]; [|by rewrite (H4 sid2 i) by auto].
    destruct (sessions p !! i) as [s|] eqn:Es.
    - destruct (H3 i s) as (s1 & rs1 & c & A1 & _ & _ & A4); [by apply elem_of_map_to_list|].
      assert (Hs : session sid i t = Some s) by (unfold session; by rewrite Ep).
      rewrite A4, Hs. cbn. symmetry. by apply read_session_child in A1.
    - rewrite (H4 sid i); [done|]. right. intros ((j, s) & -> & Hj)%list_elem_of_fmap.
      apply elem_of_map_to_list in Hj. cbn in Es. congruence. }
  clear E. revert t1 H1 rs t'. induction tids as [|tid tids IH]; intros t1 H1 rs t'; cbn [close_terminals].
  { intros [= _ <-]. done. }
  pose proof (grows_close_terminal e sid (is_persistent p) tid t1) as Hc.
  destruct (close_terminal e sid (is_persistent p) tid t1) as [r t2]. cbn [snd] in Hc.
  specialize (IH t2 (grows_trans _ _ _ H1 Hc)).
  destruct (close_terminals e sid (is_persistent p) tids t2) as [rs2 t3]. intros [= _ <-]. by eapply IH.
Qed.

(** *** The table of services *)

Definition bounded (t : Terms) : Prop := Z.of_nat (size (TERMINAL_SERVICES t)) <= MAX_SERVICES.

Definition names (t : Terms) : gset string := dom (TERMINAL_SERVICES t).

Lemma names_upd_service sid f t : names (upd_service sid f t) = names t.
Proof. apply dom_alter_L. Qed.

Lemma names_upd_session sid tid f t : names (upd_session sid tid f t) = names t.
Proof. apply names_upd_service. Qed.

Lemma names_stop e sid tid s t : names (stop e sid tid s t) = names t.
Proof. unfold names. by rewrite stop_services. Qed.

Lemma names_emit o t : names (emit o t) = names t.
Proof. done. Qed.

Lemma names_reaper c t : names (add_to_reaper c t) = names t.
Proof. done. Qed.

Create HintDb names.
#[local] Hint Rewrite names_upd_service names_upd_session names_stop names_emit names_reaper : names.

Lemma names_action e sid a t : names (snd (handle_terminal_action e sid a t)) = names t.
Proof.
  assert (Hh : names (snd (handle_action e sid a t)) = names t).
  { unfold handle_action, handle_open, handle_resize, handle_data, handle_close. cbv zeta.
    repeat case_match; cbn [snd]; by autorewrite with names. }
  unfold handle_terminal_action. by destruct (handle_action e sid a t) as [[[]|] t'].
Qed.

Lemma names_read_sessions e sid l t rs tids t' :
  read_sessions e sid l t = Some (rs, tids, t') -> names t' = names t.
Proof.
  revert t rs tids. induction l as [|[i s] l IH]; intros t rs tids; cbn [read_sessions]; [by intros [= _ _ <-]|].
  destruct (read_session e i s) as [[[s1 rs1] c]|]; [|done].
  destruct (read_sessions e sid l _) as [[[rs2 tids2] t2]|] eqn:E; [|done]. intros [= _ _ <-].
  rewrite (IH _ _ _ E). by autorewrite with names.
Qed.

Lemma names_close e sid b tids t : names (snd (close_terminals e sid b tids t)) = names t.
Proof.
  revert t. induction tids as [|tid tids IH]; intros t; cbn [close_terminals]; [done|].
  assert (H1 : names (snd (close_terminal e sid b tid t)) = names t).
  { unfold close_terminal. cbv zeta. repeat case_match; cbn [snd]; by autorewrite with names. }
  destruct (close_terminal e sid b tid t) as [r t1]. cbn [snd] in H1. specialize (IH t1).
  destruct (close_terminals e sid b tids t1) as [rs t2]. cbn [snd] in *. by rewrite IH.
Qed.

Lemma names_pass e sid t rs t' : read_outputs e sid t = Some (rs, t') -> names t' = names t.
Proof.
  unfold read_outputs. destruct (get_service sid t) as [p|]; [|by intros [= _ <-]].
  destruct (read_sessions _ _ _ _) as [[[rs0 tids] t1]|] eqn:E; [|done].
  pose proof (names_close e sid (is_persistent p) tids t1) as Hc.
  destruct (close_terminals _ _ _ _ _) as [rs2 t2]. cbn [snd] in Hc. intros [= _ <-].
  by rewrite Hc, (names_read_sessions _ _ _ _ _ _ _ E).
Qed.

Lemma names_remove e sid t : names (remove_service e sid t) ⊆ names t.
Proof.
  intros x. unfold names. rewrite !elem_of_dom. change (TERMINAL_SERVICES t !! x) with (get_service x t).
  change (TERMINAL_SERVICES (remove_service e sid t) !! x) with (get_service x (remove_service e sid t)).
  rewrite get_remove. case_decide; [by intros []|done].
Qed.

Lemma names_remove_all e sids t : names (fold_left (fun t sid => remove_service e sid t) sids t) ⊆ names t.
Proof.
  revert t. induction sids as [|sid sids IH]; intros t; [done|]. cbn [fold_left].
  rewrite (IH (remove_service e sid t)). apply names_remove.
Qed.

Lemma grows_remove_all e sids t : grows t (fold_left (fun t sid => remove_service e sid t) sids t).
Proof.
  revert t. induction sids as [|sid sids IH]; intros t; [apply grows_refl|].
  eapply grows_trans; [apply grows_remove|apply IH].
Qed.

Lemma bounded_names t t' : names t' ⊆ names t -> bounded t -> bounded t'.
Proof.
  intros H%subseteq_size. unfold bounded, names in *. rewrite !size_dom in H. lia.
Qed.

(** The children of all operations; the limit of the table. *)
Lemma run_op_spec e op t rs t' :
  (forall c, lost_by e op c -> lost c) -> run_op e op t = Some (rs, t') -> grows t t' /\ (bounded t -> bounded t').
Proof.
  intros Hk. destruct op as [sid a|sid|sid b u|sid|sid b| | |sid tid ev]; cbn [run_op].
  - pose proof (grows_action e sid a t Hk) as H1. pose proof (names_action e sid a t) as H2.
    destruct (handle_terminal_action e sid a t) as [rs1 t1]. cbn [snd] in *. intros [= _ <-].
    split; [done|]. apply bounded_names. by rewrite H2.
  - intros H. split; [by eapply grows_pass|]. apply bounded_names. by rewrite (names_pass _ _ _ _ _ H).
  - intros [= _ <-]. split; [apply grows_attach|]. unfold get_or_create_service, bounded. cbv zeta.
    destruct (TERMINAL_SERVICES t !! sid) as [p|] eqn:Ep; cbn [snd].
    + change (TERMINAL_SERVICES ((t <| TERMINAL_SERVICES := ?x |>) <| CLEANUP_TASK := _ |>)) with x.
      rewrite map_size_insert_Some by by eexists. done.
    + destruct (Z.leb_spec MAX_SERVICES (Z.of_nat (size (TERMINAL_SERVICES t)))); cbn [snd]; [done|]. intros _.
      change (TERMINAL_SERVICES ((t <| TERMINAL_SERVICES := ?x |>) <| CLEANUP_TASK := _ |>)) with x.
      rewrite map_size_insert_None by done. lia.
  - intros [= _ <-]. unfold run_end. destruct (get_service sid t) as [p|]; [|split; [apply grows_refl|done]].
    destruct (negb _); [|split; [apply grows_refl|done]].
    split; [apply grows_remove|apply bounded_names, names_remove].
  - intros [= _ <-]. unfold set_persistent. destruct (get_service sid t); cbn [snd]; [|split; [apply grows_refl|done]].
    split; [by apply grows_upd_service|apply bounded_names; by rewrite names_upd_service].
  - intros [= _ <-]. split; [apply grows_remove_all|apply bounded_names, names_remove_all].
  - intros [= _ <-]. split; [apply grows_reap|done].
  - intros [= _ <-]. split; [apply grows_upd_session, on_read_child|].
    apply bounded_names. by rewrite names_upd_session.
Qed.

Lemma run_ops_spec ops rs t t' :
  (forall c, Exists (fun x => lost_by x.1 x.2 c) ops -> lost c) -> run_ops ops t = Some (rs, t') ->
  grows t t' /\ (bounded t -> bounded t').
Proof.
  revert rs t. induction ops as [|[e op] ops IH]; intros rs t Hl; cbn [run_ops].
  { intros [= _ <-]. split; [apply grows_refl|done]. }
  destruct (run_op e op t) as [[rs1 t1]|] eqn:E; [|done].
  destruct (run_ops ops t1) as [[rs2 t2]|] eqn:E2; [|done]. intros [= _ <-].
  destruct (run_op_spec e op t rs1 t1) as [A1 A2]; [intros c Hc; apply Hl; by left|done|].
  destruct (IH rs2 t1) as [B1 B2]; [intros c Hc; apply Hl; by right|done|].
  split; [by eapply grows_trans|auto].
Qed.

End Lost.

Definition no_terms : Terms := mkTerms ∅ [] false [].

(** C23. Which shells are lost, and that the table does not overflow: for every
    sequence of actions of peers, passes of the reading threads, connections
    that come and go, cleanups and reaps, from the start of the process, every
    shell that was ever started belongs to a session, waits in the list of the
    reaper, has been reaped, or was dropped; a shell is dropped in two cases
    only, by an open request that fails after the shell was started (its writer
    or reader cannot be had) and by a close request whose killing fails; and
    there are never more than one hundred services. *)
Theorem no_child_lost ops rs t :
  run_ops ops no_terms = Some (rs, t) ->
  (forall c, Spawned c ∈ outs t -> alive t c \/ Dropped c ∈ outs t)
  /\ (forall c, Dropped c ∈ outs t -> Exists (fun x => lost_by x.1 x.2 c) ops)
  /\ Z.of_nat (size (TERMINAL_SERVICES t)) <= MAX_SERVICES.
Proof.
  intros Hr. destruct (run_ops_spec (fun c => Exists (fun x => lost_by x.1 x.2 c) ops) ops rs no_terms t)
    as [(_ & H1 & H2) H3]; [done|done|].
  split; [|split; [|by apply H3]].
  - intros c [Hc|Hc]%H1; [by apply not_elem_of_nil in Hc|]. destruct Hc as [?|[?|[?|?]]]; [left|left|left|by right].
    + by left.
    + right. by left.
    + right. by right.
  - intros c [Hc|Hc]%H2; [by apply not_elem_of_nil in Hc|done].
Qed.

(** ** What the passes leave alone *)

(** Whether a service is persistent, and its last activity. *)
Definition meta (sid : string) (t : Terms) : option (bool * Z) :=
  (fun p => (is_persistent p, last_activity p)) <$> get_service sid t.

Lemma meta_upd_service sid sid' f t :
  (forall p, is_persistent (f p) = is_persistent p /\ last_activity (f p) = last_activity p) ->
  meta sid (upd_service sid' f t) = meta sid t.
Proof.
  intros Hf. unfold meta. rewrite get_upd_service. case_decide; [|done].
  destruct (get_service sid t) as [p|]; [|done]. cbn. by destruct (Hf p) as [-> ->].
Qed.

Lemma meta_upd_session sid sid' tid f t : meta sid (upd_session sid' tid f t) = meta sid t.
Proof. by apply meta_upd_service. Qed.

Lemma meta_stop sid e sid' tid s t : meta sid (stop e sid' tid s t) = meta sid t.
Proof. unfold meta, get_service. by rewrite stop_services. Qed.

Lemma meta_read_sessions sid0 e sid l t rs tids t' :
  read_sessions e sid l t = Some (rs, tids, t') -> meta sid0 t' = meta sid0 t.
Proof.
  revert t rs tids. induction l as [|[i s] l IH]; intros t rs tids; cbn [read_sessions]; [by intros [= _ _ <-]|].
  destruct (read_session e i s) as [[[s1 rs1] c]|]; [|done].
  destruct (read_sessions e sid l _) as [[[rs2 tids2] t2]|] eqn:E; [|done]. intros [= _ _ <-].
  by rewrite (IH _ _ _ E), meta_upd_session.
Qed.

Lemma meta_close_terminal sid0 e sid b tid t : meta sid0 (snd (close_terminal e sid b tid t)) = meta sid0 t.
Proof.
  unfold close_terminal. cbv zeta. destruct (get_service sid t) as [p|]; [|done].
  destruct (sessions p !! tid) as [s|]; [|done]. cbn [snd].
  set (t1 := match child s with Some c => add_to_reaper c t | None => t end).
  assert (H1 : meta sid0 t1 = meta sid0 t) by (unfold t1; by destruct (child s)). clearbody t1. rewrite <-H1.
  destruct b; [apply meta_upd_session|]. rewrite meta_stop. by apply meta_upd_service.
Qed.

Lemma meta_close sid0 e sid b tids t : meta sid0 (snd (close_terminals e sid b tids t)) = meta sid0 t.
Proof.
  revert t. induction tids as [|tid tids IH]; intros t; cbn [close_terminals]; [done|].
  pose proof (meta_close_terminal sid0 e sid b tid t) as H1.
  destruct (close_terminal e sid b tid t) as [r t1]. cbn [snd] in H1. specialize (IH t1).
  destruct (close_terminals e sid b tids t1) as [rs t2]. cbn [snd] in *. by rewrite IH.
Qed.

Lemma meta_pass sid0 e sid t rs t' : read_outputs e sid t = Some (rs, t') -> meta sid0 t' = meta sid0 t.
Proof.
  unfold read_outputs. destruct (get_service sid t) as [p|]; [|by intros [= _ <-]].
  destruct (read_sessions _ _ _ _) as [[[rs0 tids] t1]|] eqn:E; [|done].
  pose proof (meta_close sid0 e sid (is_persistent p) tids t1) as Hc.
  destruct (close_terminals _ _ _ _ _) as [rs2 t2]. cbn [snd] in Hc. intros [= _ <-].
  by rewrite Hc, (meta_read_sessions _ _ _ _ _ _ _ _ E).
Qed.

(** ** Cleaning up *)

Lemma get_remove_all e sids sid t :
  get_service sid (fold_left (fun t i => remove_service e i t) sids t) =
  if bool_decide (sid ∈ sids) then None else get_service sid t.
Proof.
  revert t. induction sids as [|i sids IH]; intros t; [done|]. cbn [fold_left]. rewrite IH, get_remove.
  destruct (decide (sid = i)) as [<-|Hi].
  - rewrite (bool_decide_true (sid ∈ sid :: sids)) by by left. by destruct (bool_decide _).
  - rewrite (bool_decide_ext (sid ∈ i :: sids) (sid ∈ sids)); [done|]. rewrite elem_of_cons. naive_solver.
Qed.

Lemma cleanup_get e sid t :
  get_service sid (cleanup_inactive_services e t) =
  match get_service sid t with Some p => if idle e p then None else Some p | None => None end.
Proof.
  unfold cleanup_inactive_services. rewrite get_remove_all. set (l := map fst _).
  assert (Hl : sid ∈ l <-> exists p, get_service sid t = Some p /\ idle e p = true).
  { unfold l. rewrite list_elem_of_fmap. split.
    - intros ((i, p) & -> & Hi). apply list_elem_of_In, List.filter_In in Hi as [Hi Hidle].
      exists p. split; [by apply elem_of_map_to_list, list_elem_of_In|done].
    - intros (p & Hp & Hi). exists (sid, p). split; [done|]. apply list_elem_of_In, List.filter_In.
      split; [by apply list_elem_of_In, elem_of_map_to_list|done]. }
  clearbody l. case_bool_decide as Hd.
  - apply Hl in Hd as (p & -> & ->). done.
  - destruct (get_service sid t) as [p|] eqn:Ep; [|done]. destruct (idle e p) eqn:Ei; [|done].
    exfalso. apply Hd, Hl. eauto.
Qed.

Lemma remove_outs e sid t : exists k, outs (remove_service e sid t) = outs t ++ k.
Proof.
  unfold remove_service. destruct (TERMINAL_SERVICES t !! sid) as [p|]; [|exists []; by rewrite app_nil_r].
  destruct (stop_all_spec e sid (map_to_list (sessions p))
              (t <| TERMINAL_SERVICES := delete sid (TERMINAL_SERVICES t) |>)) as (_ & _ & k & Hk & _). by exists k.
Qed.

Lemma stop_all_kills e sid l t tid s c :
  (tid, s) ∈ l -> child s = Some c -> Kill c ∈ outs (stop_all e sid l t).
Proof.
  revert t. induction l as [|[i x] l IH]; intros t; [by intros ?%not_elem_of_nil|].
  intros [[= -> ->]|Hl]%elem_of_cons Hc; [|by apply (IH (stop e sid i x t))].
  change (stop_all e sid ((i, x) :: l) t) with (stop_all e sid l (stop e sid i x t)).
  destruct (stop_all_spec e sid l (stop e sid i x t)) as (_ & _ & k & -> & _).
  apply elem_of_app. left. unfold stop. cbv zeta. rewrite Hc. apply elem_of_app. right. by left.
Qed.

Lemma remove_kills e sid t tid s c : session sid tid t = Some s -> child s = Some c -> Kill c ∈ outs (remove_service e sid t).
Proof.
  unfold session, get_service, remove_service. destruct (TERMINAL_SERVICES t !! sid) as [p|]; [|done]. cbn.
  intros Hs Hc. eapply stop_all_kills; [|exact Hc]. by apply elem_of_map_to_list.
Qed.

Lemma remove_all_kills e sids sid t tid s c :
  sid ∈ sids -> session sid tid t = Some s -> child s = Some c ->
  Kill c ∈ outs (fold_left (fun t i => remove_service e i t) sids t).
Proof.
  intros Hin Hs Hc.
  assert (Hmono : forall l t o, o ∈ outs t -> o ∈ outs (fold_left (fun t i => remove_service e i t) l t)).
  { clear. induction l as [|i l IH]; intros t o Ho; [done|]. cbn [fold_left]. apply IH.
    destruct (remove_outs e i t) as [k ->]. apply elem_of_app. by left. }
  revert t Hs. induction sids as [|i sids IH]; intros t Hs; [by apply not_elem_of_nil in Hin|]. cbn [fold_left].
  destruct (decide (sid = i)) as [->|Hne]; [apply Hmono; by eapply remove_kills|].
  apply elem_of_cons in Hin as [->|Hin]; [done|]. apply IH; [done|].
  unfold session in *. by rewrite get_remove, decide_False.
Qed.

(** Steps in which only the shells are active. *)
Definition only_output (op : TermOp) : Prop :=
  match op with OpPass _ | OpReader _ _ _ | OpReap => True | _ => False end.

(** Output is no activity: however much a shell prints and however much of
    it is sent to a connected peer, the service of a peer that types nothing
    stays as old as the last input; one hour after it the cleanup removes a
    service that is not persistent and kills its shells under the peer's eyes. *)
Theorem output_is_no_activity ops t rs t' sid p e :
  Forall (fun x => only_output x.2) ops -> run_ops ops t = Some (rs, t') ->
  get_service sid t = Some p -> is_persistent p = false -> last_activity p + SERVICE_IDLE_TIMEOUT < now e ->
  get_service sid (cleanup_inactive_services e t') = None
  /\ forall tid s c, session sid tid t' = Some s -> child s = Some c -> Kill c ∈ outs (cleanup_inactive_services e t').
Proof.
  intros Ho Hr Hp Hn Ht.
  assert (Hm : meta sid t' = meta sid t).
  { clear Hp. revert t rs Hr. induction ops as [|[e0 op] ops IH]; intros t rs; cbn [run_ops]; [by intros [= _ <-]|].
    apply Forall_cons in Ho as [Ho1 Ho]. destruct (run_op e0 op t) as [[rs1 t1]|] eqn:E; [|done].
    destruct (run_ops ops t1) as [[rs2 t2]|] eqn:E2; [|done]. intros [= _ <-].
    rewrite (IH Ho _ _ E2). destruct op; try done; cbn [run_op] in E.
    - by rewrite (meta_pass _ _ _ _ _ _ E).
    - by injection E as _ <-.
    - injection E as _ <-. by rewrite meta_upd_session. }
  unfold meta in Hm. rewrite Hp in Hm. destruct (get_service sid t') as [p'|] eqn:Ep'; [|done].
  cbn in Hm. injection Hm as Hm1 Hm2.
  assert (Hidle : idle e p' = true).
  { unfold idle. cbv zeta. rewrite Hm1, Hn, Hm2. cbn [negb andb].
    destruct (Z.ltb_spec SERVICE_IDLE_TIMEOUT (now e - last_activity p)); [done|lia]. }
  split; [by rewrite cleanup_get, Ep', Hidle|].
  intros tid s c Hs Hc. eapply remove_all_kills; [|exact Hs|exact Hc].
  apply list_elem_of_fmap. exists (sid, p'). split; [done|]. apply list_elem_of_In, List.filter_In.
  split; [by apply list_elem_of_In, elem_of_map_to_list|done].
Qed.

(** ** Shells that have ended in a persistent service *)

(** The end was reported and all output was read. *)
Definition dead (s : TerminalSession) : Prop :=
  closed_message_sent s = true /\ reader_thread s = Some true /\ unwrap_or [] (output_rx s) = [].

Definition dead_in (sid : string) (tid : Z) (t : Terms) : Prop :=
  (fst <$> meta sid t) = Some true /\ exists s, session sid tid t = Some s /\ dead s.

(** The peer uses this service, and it stays persistent; nobody closes the
    terminal by hand. *)
Definition stays (sid : string) (tid : Z) (op : TermOp) : Prop :=
  match op with
  | OpAction sid' a => sid' = sid /\ a <> Close tid
  | OpPass sid' => sid' = sid
  | OpAttach sid' b _ | OpPersist sid' b => sid' = sid -> b = true
  | _ => True
  end.

(** All a peer hears of the terminal: that it was opened. *)
Definition opened_only (r : TerminalResponse) : Prop :=
  match r with Opened _ success _ _ _ _ => success = true | _ => False end.

Lemma dead_keep sid tid t t' :
  dead_in sid tid t -> (fst <$> meta sid t') = (fst <$> meta sid t) ->
  (forall s, session sid tid t = Some s -> dead s -> exists s', session sid tid t' = Some s' /\ dead s') ->
  dead_in sid tid t'.
Proof. intros [Hm (s & Hs & Hd)] Hm' Hk. split; [by rewrite Hm'|]. by apply (Hk s). Qed.

Lemma dead_upd sid tid sid' tid' f t :
  (forall s, dead s -> dead (f s)) -> dead_in sid tid t -> dead_in sid tid (upd_session sid' tid' f t).
Proof.
  intros Hf H. apply (dead_keep _ _ t); [done|by rewrite meta_upd_session|]. intros s Hs Hd.
  rewrite session_upd, Hs. destruct (decide _); [|by exists s]. exists (f s). auto.
Qed.

Lemma dead_upd_service sid tid sid' f t :
  (forall p, is_persistent (f p) = is_persistent p) -> (forall p, sessions (f p) = sessions p) ->
  dead_in sid tid t -> dead_in sid tid (upd_service sid' f t).
Proof.
  intros Hf Hs H. apply (dead_keep _ _ t); [done| |].
  - unfold meta. rewrite get_upd_service. destruct (decide _); [|done].
    destruct (get_service sid t) as [p|]; [|done]. cbn. by rewrite Hf.
  - intros s H1 H2. rewrite session_upd_service by done. eauto.
Qed.

Lemma dead_open e sid tid i r c p q t rs t' :
  dead_in sid tid t -> get_service sid t = Some q -> sessions p = sessions q ->
  handle_open e sid i r c p t = (rs, t') ->
  dead_in sid tid t' /\ match rs with Ok (Some x) => Forall opened_only (of_terminal tid [x]) | Ok None => False | _ => True end.
Proof.
  intros Hd Hq Hpq. unfold handle_open. cbv zeta. destruct (sessions p !! i) as [s|] eqn:Es.
  - intros [= <- <-]. split.
    + apply dead_upd_service; [done|done|]. by apply dead_upd.
    + cbn. destruct (i =? tid); by repeat constructor.
  - destruct (spawn e (u16 r) (u16 c)) as [err|ch err|ch pr]; [by intros [= <- <-]| |].
    { intros [= <- <-]. split; [|done]. exact Hd. }
    intros [= <- <-]. split.
    + apply (dead_keep _ _ t); [done| |].
      * unfold meta. rewrite get_upd_service, decide_True by done.
        change (get_service sid (emit (Spawned ch) t)) with (get_service sid t). by rewrite Hq.
      * intros s Hs Hds. exists s. split; [|done].
        erewrite (session_insert sid tid sid i); [|exact Hq|reflexivity].
        rewrite decide_False; [done|]. intros [_ ->]. unfold session in Hs. rewrite Hq in Hs. cbn in Hs. congruence.
    + cbn. destruct (i =? tid); by repeat constructor.
Qed.

Lemma dead_action e sid tid a t :
  dead_in sid tid t -> a <> Close tid ->
  dead_in sid tid (snd (handle_terminal_action e sid a t))
  /\ Forall opened_only (of_terminal tid (fst (handle_terminal_action e sid a t))).
Proof.
  intros Hd Ha. unfold handle_terminal_action.
  assert (Hh : forall rs t', handle_action e sid a t = (rs, t') ->
    dead_in sid tid t' /\ match rs with Ok (Some x) => Forall opened_only (of_terminal tid [x]) | _ => True end).
  { intros rs t'. unfold handle_action. destruct (get_service sid t) as [p|] eqn:Ep.
    2:{ intros [= <- <-]. split; [done|]. by constructor. }
    set (t1 := upd_service sid _ t). assert (Hd1 : dead_in sid tid t1) by by apply dead_upd_service.
    assert (Hg : exists p1, get_service sid t1 = Some p1 /\ sessions p = sessions p1).
    { unfold t1. rewrite get_upd_service, decide_True, Ep by done. by eexists. }
    clearbody t1. destruct Hg as (p1 & Hp1 & Hsp).
    destruct a as [i r c|i r c|i data|i|]; [| | | |by intros [= <- <-]].
    - intros H. destruct (dead_open _ _ _ _ _ _ _ _ _ _ _ Hd1 Hp1 Hsp H) as [H1 H2]. split; [done|].
      by destruct rs as [[]|].
    - unfold handle_resize. destruct (sessions p !! i); [|by intros [= <- <-]]. cbv zeta.
      set (t2 := upd_session _ _ _ _). assert (Hd2 : dead_in sid tid t2) by by apply dead_upd. clearbody t2.
      destruct (pty_pair _); [destruct (resize_pty _ _ _)|]; by intros [= <- <-].
    - unfold handle_data. destruct (sessions p !! i); [|by intros [= <- <-]]. cbv zeta.
      set (t2 := upd_session _ _ _ _). assert (Hd2 : dead_in sid tid t2) by by apply dead_upd. clearbody t2.
      intros [= <- <-]. by destruct (_ && _).
    - assert (Hi : i <> tid) by congruence. unfold handle_close. destruct (sessions p !! i) as [s|]; [|by intros [= <- <-]].
      cbv zeta. set (t2 := upd_service _ _ _).
      assert (Hd2 : dead_in sid tid t2).
      { apply (dead_keep _ _ t1); [done|by unfold t2; rewrite meta_upd_service|]. intros s0 Hs0 Hd0. exists s0. split; [|done].
        unfold t2. rewrite session_delete, decide_False by naive_solver. done. }
      clearbody t2.
      assert (Hst : forall s' t3, dead_in sid tid t3 -> dead_in sid tid (stop e sid i s' t3)).
      { intros s' t3 H3. apply (dead_keep _ _ t3); [done|by rewrite meta_stop|]. intros s0 H4 H5.
        rewrite session_stop. eauto. }
      destruct (child s) as [c|]; [destruct (kill e c)|]; intros [<- <-]%pair_equal_spec;
        (split; [by apply Hst|]); try done; cbn; by rewrite (proj2 (Z.eqb_neq i tid)) by done. }
  destruct (handle_action e sid a t) as [[[x|]|err] t'] eqn:E; destruct (Hh _ _ eq_refl) as [H1 H2]; cbn [fst snd];
    (split; [done|]); [done|by constructor|by constructor].
Qed.

Lemma dead_pass e sid tid t rs t' :
  dead_in sid tid t -> read_outputs e sid t = Some (rs, t') -> dead_in sid tid t' /\ of_terminal tid rs = [].
Proof.
  intros Hd Hr. pose proof Hd as [Hm (s & Hs & (D1 & D2 & D3))].
  unfold session in Hs. destruct (get_service sid t) as [p|] eqn:Ep; [|done]. cbn in Hs.
  destruct (read_outputs_spec _ _ _ _ _ _ _ _ Ep Hs Hr) as (s1 & rs1 & c & code & A1 & A2 & A3).
  assert (H1 : c = false /\ rs1 = [] /\ dead s1).
  { revert A1. unfold read_session. cbv zeta. rewrite D1. cbn [negb andb].
    destruct (negb (is_opened s)); [by intros [= <- <- <-]|]. rewrite D3. cbn [append_all fold_left map].
    intros H%(inj Some). apply pair_equal_spec in H as [H <-]. apply pair_equal_spec in H as [<- <-]. split; [done|]. split; [done|].
    split; [done|]. split; [done|]. cbn. by destruct (output_rx s). }
  destruct H1 as (-> & -> & H1). rewrite A2. split; [|done].
  apply (dead_keep _ _ t); [done|by rewrite (meta_pass _ _ _ _ _ _ Hr)|]. eauto.
Qed.

Lemma dead_cleanup e sid tid t : dead_in sid tid t -> dead_in sid tid (cleanup_inactive_services e t).
Proof.
  intros Hd. pose proof Hd as [Hm (s & Hs & _)].
  assert (Hg : get_service sid (cleanup_inactive_services e t) = get_service sid t).
  { rewrite cleanup_get. unfold meta in Hm. unfold session in Hs. destruct (get_service sid t) as [p|]; [|done].
    cbn in Hm, Hs. injection Hm as Hp. unfold idle, has_active_terminals. cbv zeta. rewrite Hp. cbn [negb andb].
    rewrite bool_decide_false; [done|]. intros He. by rewrite He in Hs. }
  apply (dead_keep _ _ t); [done|unfold meta; by rewrite Hg|]. intros s0 H1 H2. exists s0. split; [|done].
  unfold session. by rewrite Hg.
Qed.

Lemma dead_op e op sid tid t rs t' :
  stays sid tid op -> dead_in sid tid t -> run_op e op t = Some (rs, t') ->
  dead_in sid tid t' /\ Forall opened_only (of_terminal tid rs).
Proof.
  intros Hst Hd. destruct op as [i a|i|i b u|i|i b| | |i j ev]; cbn [run_op stays] in *.
  - destruct Hst as [-> Ha]. destruct (dead_action e sid tid a t Hd Ha) as [H1 H2].
    destruct (handle_terminal_action e sid a t). by intros [= <- <-].
  - subst i. intros H. destruct (dead_pass _ _ _ _ _ _ Hd H) as [H1 ->]. by split.
  - intros [= <- <-]. split; [|constructor]. unfold get_or_create_service. cbv zeta.
    destruct (TERMINAL_SERVICES t !! i) as [p|] eqn:Ep; cbn [snd].
    + apply (dead_keep _ _ t); [done| |].
      * unfold meta, get_service. change (TERMINAL_SERVICES ((t <| TERMINAL_SERVICES := ?x |>) <| CLEANUP_TASK := _ |>)) with x.
        destruct (decide (sid = i)) as [<-|]; [|by rewrite lookup_insert_ne].
        rewrite lookup_insert_eq. cbn. rewrite (Hst eq_refl). symmetry. apply Hd.
      * intros s Hs Hds. unfold session, get_service in *.
        change (TERMINAL_SERVICES ((t <| TERMINAL_SERVICES := ?x |>) <| CLEANUP_TASK := _ |>)) with x.
        destruct (decide (sid = i)) as [<-|]; [|rewrite lookup_insert_ne by done; eauto].
        rewrite Ep in Hs. rewrite lookup_insert_eq. cbn in *. rewrite lookup_fmap, Hs. by eexists.
    + destruct (MAX_SERVICES <=? _); cbn [snd]; [done|].
      assert (Hne : sid <> i).
      { intros <-. destruct Hd as [Hm _]. unfold meta, get_service in Hm. by rewrite Ep in Hm. }
      destruct Hd as [Hm Hs]. split; unfold meta, session, get_service in *;
        change (TERMINAL_SERVICES ((t <| TERMINAL_SERVICES := ?x |>) <| CLEANUP_TASK := _ |>)) with x;
        by rewrite lookup_insert_ne.
  - intros [= <- <-]. split; [|constructor]. unfold run_end. destruct (get_service i t) as [p|] eqn:Ep; [|done].
    destruct (is_persistent p) eqn:Ei; cbn [negb]; [done|].
    assert (Hne : sid <> i).
    { intros <-. destruct Hd as [Hm _]. unfold meta in Hm. rewrite Ep in Hm. cbn in Hm. congruence. }
    destruct Hd as [Hm Hs]. split; unfold meta, session in *; by rewrite get_remove, decide_False.
  - intros [= <- <-]. split; [|constructor]. unfold set_persistent. destruct (get_service i t); cbn [snd]; [|done].
    destruct (decide (sid = i)) as [<-|Hne].
    + rewrite (Hst eq_refl). destruct Hd as [Hm (s & Hs & Hds)]. split.
      * unfold meta in *. rewrite get_upd_service, decide_True by done. by destruct (get_service sid t).
      * exists s. by rewrite session_upd_service.
    + destruct Hd as [Hm Hs]. split; [|by setoid_rewrite session_upd_service].
      unfold meta in *. by rewrite get_upd_service, decide_False.
  - intros [= <- <-]. split; [by apply dead_cleanup|constructor].
  - intros [= <- <-]. by split.
  - intros [= <- <-]. split; [|constructor]. apply dead_upd; [|done]. intros s (D1 & D2 & D3).
    unfold on_read. rewrite D2. by split.
Qed.

(** A terminal whose shell has ended comes back as an empty shell: in a
    persistent service, once the end of a shell was reported, the peer may
    leave, come back, open the terminal, type into it and resize it as often
    as it likes: it is told every time that the terminal was opened with
    success and hears nothing else of it, neither output nor that it is closed;
    and the service is never cleaned up, so that it counts for ever against the
    limit of one hundred. *)
Theorem dead_terminal_reconnects ops sid tid t rs t' e :
  Forall (fun x => stays sid tid x.2) ops -> dead_in sid tid t -> run_ops ops t = Some (rs, t') ->
  Forall opened_only (of_terminal tid rs)
  /\ (forall r c, exists process others t'', handle_terminal_action e sid (Open tid r c) t'
        = ([Opened tid true "Reconnected to existing terminal" process sid others], t''))
  /\ get_service sid (cleanup_inactive_services e t') <> None.
Proof.
  intros Hst Hd Hr.
  assert (H : dead_in sid tid t' /\ Forall opened_only (of_terminal tid rs)).
  { revert t rs Hd Hr. induction ops as [|[e0 op] ops IH]; intros t rs Hd; cbn [run_ops]; [intros [= <- <-]; by split|].
    apply Forall_cons in Hst as [Hst1 Hst]. destruct (run_op e0 op t) as [[rs1 t1]|] eqn:E; [|done].
    destruct (run_ops ops t1) as [[rs2 t2]|] eqn:E2; [|done]. intros [= <- <-].
    destruct (dead_op _ _ _ _ _ _ _ Hst1 Hd E) as [H1 H2]. destruct (IH Hst _ _ H1 E2) as [H3 H4].
    split; [done|]. rewrite of_terminal_app. by apply Forall_app. }
  destruct H as [Hd' Hrs]. split; [done|]. split.
  - intros r c. unfold handle_terminal_action, handle_action. destruct Hd' as [_ (s & Hs & _)].
    unfold session in Hs. destruct (get_service sid t') as [p|]; [|done]. cbn in Hs. cbv zeta.
    unfold handle_open. rewrite Hs. by eexists _, _, _.
  - apply (dead_cleanup e) in Hd' as [Hm _]. intros Hn. unfold meta in Hm. by rewrite Hn in Hm.
Qed.

(** ** A concrete machine *)

Definition demo_tenv (t : Z) : TEnv :=
  mkTEnv t (fun _ cols => if cols =? 0 then SpawnedUnusable 9 "Failed to get writer" else SpawnOk 7 (Some 77)) (fun _ => Exited 3) (fun _ => Ok tt) (fun _ _ => Ok tt) true
    (fun d => take 100 d).

(** A shell that prints twice and ends. *)
Definition demo_ops (persistent : bool) : list (TEnv * TermOp) :=
  map (fun op => (demo_tenv 1000, op))
    [OpAttach "ts_1" persistent false; OpAction "ts_1" (Open 1 24 80); OpReader "ts_1" 1 (RData [104; 105]);
     OpReader "ts_1" 1 (RData [10; 36]); OpReader "ts_1" 1 REof].

Definition demo_terms (persistent : bool) : Terms :=
  match run_ops (demo_ops persistent) no_terms with Some (_, t) => t | None => no_terms end.

Lemma outputs_in_order_witness :
  exists rs t', read_outputs (demo_tenv 2000) "ts_1" (demo_terms false) = Some (rs, t')
  /\ exists outputs closed, of_terminal 1 rs = outputs ++ closed
     /\ map (text_of (fun d => d)) outputs = [[104; 105]; [10; 36]] /\ exists code, closed = [Closed 1 code].
Proof.
  eexists _, _. split; [vm_compute; reflexivity|].
  match goal with |- exists o c, of_terminal 1 ?r = _ /\ _ => set (rs := r) end.
  destruct (get_service "ts_1" (demo_terms false)) as [p|] eqn:Ep; [|by vm_compute in Ep].
  destruct (sessions p !! 1) as [s|] eqn:Es; [|vm_compute in Ep; injection Ep as <-; by vm_compute in Es].
  assert (Hs : is_opened s = true /\ output_rx s = Some [[104; 105]; [10; 36]]
               /\ closed_message_sent s = false /\ reader_thread s = Some true).
  { vm_compute in Ep. injection Ep as <-. vm_compute in Es. injection Es as <-. by repeat split. }
  destruct Hs as (S1 & S2 & S3 & S4).
  edestruct (outputs_in_order (demo_tenv 2000) (fun d => d) "ts_1" (demo_terms false) p 1 s
               [[104; 105]; [10; 36]] rs) as (o & c & H1 & H2 & H3 & _);
    [exact Ep|exact Es|exact S1|exact S2| |vm_compute; reflexivity|].
  all: swap 1 2. { rewrite S3, S4 in H3. exists o, c. split; [exact H1|]. split; [exact H2|exact H3]. }
  - intros d Hd Hl. exfalso. repeat (apply elem_of_cons in Hd as [->|Hd]; [by vm_compute in Hl|]).
    by apply not_elem_of_nil in Hd.
Defined.

(** The peer also asks for a terminal that cannot be set up. *)
Definition demo_lost : list (TEnv * TermOp) :=
  demo_ops true ++ [(demo_tenv 1500, OpAction "ts_1" (Open 2 24 0))].

Lemma no_child_lost_witness : exists rs t, run_ops demo_lost no_terms = Some (rs, t)
  /\ (alive t 7 \/ Dropped 7 ∈ outs t) /\ Dropped 9 ∈ outs t /\ Exists (fun x => lost_by x.1 x.2 9) demo_lost.
Proof.
  destruct (run_ops demo_lost no_terms) as [[rs t]|] eqn:E; [|vm_compute in E; discriminate].
  exists rs, t. split; [reflexivity|].
  destruct (no_child_lost demo_lost rs t E) as (H1 & H2 & _).
  assert (Spawned 7 ∈ outs t /\ Dropped 9 ∈ outs t) as [H7 H9].
  { vm_compute in E. injection E as _ <-. cbn. split; [left|right; right; left]. }
  split; [by apply H1|]. split; [exact H9|by apply H2].
Defined.

Lemma output_is_no_activity_witness :
  let ops := [(demo_tenv 3000000, OpReader "ts_1" 1 (RData [46]));
              (demo_tenv 3000030, OpPass "ts_1")] in
  exists rs t', run_ops ops (demo_terms false) = Some (rs, t')
  /\ get_service "ts_1" (cleanup_inactive_services (demo_tenv 3700000) t') = None.
Proof.
  eexists _, _. split; [vm_compute; reflexivity|].
  eapply (output_is_no_activity
            [(demo_tenv 3000000, OpReader "ts_1" 1 (RData [46])); (demo_tenv 3000030, OpPass "ts_1")] (demo_terms false));
    [by repeat constructor|vm_compute; reflexivity|vm_compute; reflexivity|reflexivity|vm_compute; reflexivity].
Defined.

Definition demo_dead : Terms :=
  match read_outputs (demo_tenv 2000) "ts_1" (demo_terms true) with Some (_, t) => t | None => no_terms end.

Lemma dead_terminal_reconnects_witness :
  let ops := [(demo_tenv 9000, OpAttach "ts_1" true false); (demo_tenv 9001, OpAction "ts_1" (Open 1 24 80));
              (demo_tenv 9030, OpPass "ts_1")] in
  exists rs t', run_ops ops demo_dead = Some (rs, t')
  /\ Forall opened_only (of_terminal 1 rs) /\ get_service "ts_1" (cleanup_inactive_services (demo_tenv 99999999) t') <> None.
Proof.
  eexists _, _. split; [vm_compute; reflexivity|].
  match goal with |- Forall _ (of_terminal 1 ?r) /\ get_service _ (cleanup_inactive_services _ ?x) <> None =>
    destruct (dead_terminal_reconnects
                [(demo_tenv 9000, OpAttach "ts_1" true false); (demo_tenv 9001, OpAction "ts_1" (Open 1 24 80));
                 (demo_tenv 9030, OpPass "ts_1")] "ts_1" 1 demo_dead r x (demo_tenv 99999999)) as (H1 & _ & H3) end.
  - by repeat constructor.
  - split; [vm_compute; reflexivity|]. eexists. split; [vm_compute; reflexivity|]. by repeat split.
  - vm_compute. reflexivity.
  - split; [exact H1|exact H3].
Defined.

End TermFacts.
