(* ===== verification/Service.v ===== *)
(** * Services and their subscribers

    [src/server/service.rs] (the [Service] trait, [ServiceInner], [ServiceTmpl],
    [ServiceSwap] and the two thread loops) and the [Server] of
    [src/server.rs] that owns the services and the connections.

    - [Service]: one service.  [subscribes] and [new_subscribes] are the two
      hash maps of the code; a service that needs a snapshot keeps a new
      subscriber aside until the snapshot has been sent to it.  Sending
      produces the list of deliveries, one per subscriber and message.
    - [Loop]: one iteration of [repeat] and of [run], with the callback's
      result as an input.
    - [Server]: the map of services, the subscription operations and
      [capture_displays].

    An operation here is what the code does between taking the service's lock
    and releasing it, so an interleaving of threads is a list of operations.
    All methods of the code are one operation, except for [snapshot]: it takes
    the lock for the test, for every message of its callback and for the swap,
    and other threads may run between these. *)

From S2P Require Import Prelude RustStr Messages.

Module Service.

Import Msg.

(** ** Subscribers: [ConnInner]

    [tx] and [tx_video] are handles of unbounded channels. *)
Record ConnInner : Type := mkConnInner { id : Z; tx : option Z; tx_video : option Z }.

(** A message put on a channel on behalf of a subscriber. *)
Record Delivery : Type := mkDelivery { d_to : Z; d_chan : Z; d_msg : Message }.

(** [ConnInner::send]: video frames and display switches share a channel. *)
Definition conn_send (c : ConnInner) (msg : Message) : list Delivery :=
  let tx_by_video :=
    match msg with
    | MVideoFrame _ _ => true
    | MMisc misc => match misc with MSwitchDisplay _ => true | _ => false end
    | _ => false
    end in
  let tx := if tx_by_video then tx_video c else tx c in
  match tx with
  | Some ch => [mkDelivery (id c) ch msg]
  | None => []
  end.

(** ** One service *)

Record ServiceInner : Type := mkServiceInner {
  name : string;
  handle : bool;                      (* [Option<JoinHandle>]: a thread was started *)
  subscribes : gmap Z ConnInner;
  new_subscribes : gmap Z ConnInner;
  active : bool;
  need_snapshot : bool;
  options : gmap string string }.

Definition with_subs (s n : gmap Z ConnInner) (sv : ServiceInner) : ServiceInner :=
  mkServiceInner (name sv) (handle sv) s n (active sv) (need_snapshot sv) (options sv).

Definition new (name : string) (need_snapshot : bool) : ServiceInner :=
  mkServiceInner name false ∅ ∅ true need_snapshot ∅.

(** The values of a hash map in some order. *)
Definition values (m : gmap Z ConnInner) : list ConnInner := (map_to_list m).*2.

Definition send_new_subscribes (sv : ServiceInner) (msg : Message) : list Delivery :=
  values (new_subscribes sv) ≫= fun s => conn_send s msg.

Definition swap_new_subscribes (sv : ServiceInner) : ServiceInner :=
  with_subs
    (map_fold (fun _ s acc => <[ id s := s ]> acc) (subscribes sv) (new_subscribes sv))
    ∅ sv.

Definition has_subscribes (sv : ServiceInner) : bool :=
  (0 <? Z.of_nat (size (subscribes sv))) || (0 <? Z.of_nat (size (new_subscribes sv))).

Definition is_subed (i : Z) (sv : ServiceInner) : bool :=
  bool_decide (is_Some (subscribes sv !! i)) || bool_decide (is_Some (new_subscribes sv !! i)).

Definition on_subscribe (sub : ConnInner) (sv : ServiceInner) : ServiceInner :=
  match subscribes sv !! id sub with
  | Some _ => sv
  | None =>
    if need_snapshot sv
    then with_subs (subscribes sv) (<[ id sub := sub ]> (new_subscribes sv)) sv
    else with_subs (<[ id sub := sub ]> (subscribes sv)) (new_subscribes sv) sv
  end.

Definition on_unsubscribe (i : Z) (sv : ServiceInner) : ServiceInner :=
  match subscribes sv !! i with
  | Some _ => with_subs (delete i (subscribes sv)) (new_subscribes sv) sv
  | None => with_subs (subscribes sv) (delete i (new_subscribes sv)) sv
  end.

Definition join (sv : ServiceInner) : ServiceInner :=
  mkServiceInner (name sv) false (subscribes sv) (new_subscribes sv) false
                 (need_snapshot sv) (options sv).

Definition get_option (opt : string) (sv : ServiceInner) : option string := options sv !! opt.

Definition set_option (opt val : string) (sv : ServiceInner) : option string * ServiceInner :=
  (options sv !! opt,
   mkServiceInner (name sv) (handle sv) (subscribes sv) (new_subscribes sv) (active sv)
                  (need_snapshot sv) (<[ opt := val ]> (options sv))).

Definition ok (sv : ServiceInner) : bool := active sv && has_subscribes sv.

Definition SERVICE_OPTION_VALUE_TRUE : string := "1".
Definition SERVICE_OPTION_VALUE_FALSE : string := "0".

Definition is_option_true (opt : string) (sv : ServiceInner) : bool :=
  match get_option opt sv with
  | Some v => String.eqb v SERVICE_OPTION_VALUE_TRUE
  | None => false
  end.

Definition set_option_bool (opt : string) (val : bool) (sv : ServiceInner) : ServiceInner :=
  if val then snd (set_option opt SERVICE_OPTION_VALUE_TRUE sv)
  else snd (set_option opt SERVICE_OPTION_VALUE_FALSE sv).

Definition has_new_subscribes (sv : ServiceInner) : bool := 0 <? Z.of_nat (size (new_subscribes sv)).

(** [snapshot]: if there are new subscribers, the callback runs; then the drop
    of its [ServiceSwap] moves the new subscribers over, also when the callback
    failed.  The argument is all that happens to the service from the test to
    the swap: what the callback sends to the new subscribers, and what other
    threads do in between ([during] is a callback that sends messages). *)
Definition snapshot (callback : ServiceInner -> result unit string * list Delivery * ServiceInner) (sv : ServiceInner)
  : result unit string * list Delivery * ServiceInner :=
  if has_new_subscribes sv then
    let '(res, ds, sv) := callback sv in (res, ds, swap_new_subscribes sv)
  else (Ok tt, [], sv).

Definition send_shared (msg : Message) (sv : ServiceInner) : list Delivery :=
  values (subscribes sv) ≫= fun s => conn_send s msg.

Definition send (msg : Message) (sv : ServiceInner) : list Delivery := send_shared msg sv.

Definition send_to (msg : Message) (i : Z) (sv : ServiceInner) : list Delivery :=
  match subscribes sv !! i with
  | Some s => conn_send s msg
  | None => []
  end.

Definition send_to_others (msg : Message) (i : Z) (sv : ServiceInner) : list Delivery :=
  map_to_list (subscribes sv) ≫= fun '(sid, s) =>
    if negb (Z.eqb sid i) then conn_send s msg else [].

Definition send_video_frame_shared (msg : Message) (sv : ServiceInner)
  : gset Z * list Delivery :=
  (foldr (fun s ids => {[ id s ]} ∪ ids) ∅ (values (subscribes sv)),
   values (subscribes sv) ≫= fun s => conn_send s msg).

Definition send_video_frame (msg : Message) (sv : ServiceInner) : gset Z * list Delivery :=
  send_video_frame_shared msg sv.

Definition send_without (msg : Message) (sub : Z) (sv : ServiceInner) : list Delivery :=
  values (subscribes sv) ≫= fun s =>
    if negb (Z.eqb sub (id s)) then conn_send s msg else [].

(** ** Well-formedness: entries are filed under their own id, nobody is in
    both maps, and only a service with snapshots keeps new subscribers. *)

Record wf (sv : ServiceInner) : Prop := mkWf {
  wf_subs : map_Forall (fun i s => id s = i) (subscribes sv);
  wf_new : map_Forall (fun i s => id s = i) (new_subscribes sv);
  wf_disj : subscribes sv ##ₘ new_subscribes sv;
  wf_plain : need_snapshot sv = false -> new_subscribes sv = ∅ }.

(** The operations as a type, for sequences of them. *)
Inductive Op : Type :=
| OSubscribe (c : ConnInner)
| OUnsubscribe (i : Z)
| OSendNew (msg : Message)            (* [ServiceSwap::send] *)
| OSwap                               (* [ServiceSwap::drop] *)
| OSend (msg : Message)
| OSendTo (msg : Message) (i : Z)
| OSendToOthers (msg : Message) (i : Z)
| OSendVideoFrame (msg : Message)
| OSendWithout (msg : Message) (i : Z)
| OSetOption (opt val : string)
| OJoin.

Definition step (op : Op) (sv : ServiceInner) : list Delivery * ServiceInner :=
  match op with
  | OSubscribe c => ([], on_subscribe c sv)
  | OUnsubscribe i => ([], on_unsubscribe i sv)
  | OSendNew m => (send_new_subscribes sv m, sv)
  | OSwap => ([], swap_new_subscribes sv)
  | OSend m => (send m sv, sv)
  | OSendTo m i => (send_to m i sv, sv)
  | OSendToOthers m i => (send_to_others m i sv, sv)
  | OSendVideoFrame m => (snd (send_video_frame m sv), sv)
  | OSendWithout m i => (send_without m i sv, sv)
  | OSetOption o v => ([], snd (set_option o v sv))
  | OJoin => ([], join sv)
  end.

Fixpoint run_ops (ops : list Op) (sv : ServiceInner) : list Delivery * ServiceInner :=
  match ops with
  | [] => ([], sv)
  | op :: ops =>
    let '(ds, sv) := step op sv in
    let '(ds', sv) := run_ops ops sv in
    (ds ++ ds', sv)
  end.

Definition during (ops : list Op) (res : result unit string) (sv : ServiceInner)
  : result unit string * list Delivery * ServiceInner :=
  let '(ds, sv) := run_ops ops sv in (res, ds, sv).

(** ** What one subscriber sees: the abstract specification

    From a subscriber's side a service is three states: not subscribed,
    waiting for the snapshot, and live.  Who waits gets the messages of the
    snapshots that run meanwhile, and the next swap makes it live, whether it
    came in time for the messages of that snapshot or not. *)
Inductive View : Type := Off | Pending (c : ConnInner) | Live (c : ConnInner).

Definition view_step (snap : bool) (i : Z) (op : Op) (v : View) : list Delivery * View :=
  match op, v with
  | OSubscribe c, Live _ => ([], v)
  | OSubscribe c, _ =>
    if Z.eqb (id c) i then ([], if snap then Pending c else Live c) else ([], v)
  | OUnsubscribe j, _ => ([], if Z.eqb j i then Off else v)
  | OSendNew m, Pending c => (conn_send c m, v)
  | OSwap, Pending c => ([], Live c)
  | OSend m, Live c => (conn_send c m, v)
  | OSendTo m j, Live c => (if Z.eqb j i then conn_send c m else [], v)
  | OSendToOthers m j, Live c => (if Z.eqb j i then [] else conn_send c m, v)
  | OSendVideoFrame m, Live c => (conn_send c m, v)
  | OSendWithout m j, Live c => (if Z.eqb j i then [] else conn_send c m, v)
  | _, _ => ([], v)
  end.

Fixpoint view_run (snap : bool) (i : Z) (ops : list Op) (v : View) : list Delivery * View :=
  match ops with
  | [] => ([], v)
  | op :: ops =>
    let '(ds, v) := view_step snap i op v in
    let '(ds', v) := view_run snap i ops v in
    (ds ++ ds', v)
  end.

Definition view (i : Z) (sv : ServiceInner) : View :=
  match subscribes sv !! i with
  | Some c => Live c
  | None => match new_subscribes sv !! i with Some c => Pending c | None => Off end
  end.

(** The deliveries to one subscriber, in order. *)
Definition deliveries_to (i : Z) (ds : list Delivery) : list Delivery :=
  filter (fun d => d_to d = i) ds.

(** ** Deliveries to one subscriber *)

Lemma conn_send_to c m : Forall (fun d => d_to d = id c) (conn_send c m).
Proof. unfold conn_send. repeat case_match; repeat constructor. Qed.

Lemma deliveries_to_app i a b : deliveries_to i (a ++ b) = deliveries_to i a ++ deliveries_to i b.
Proof. apply filter_app. Qed.

Lemma deliveries_to_self i ds : Forall (fun d => d_to d = i) ds -> deliveries_to i ds = ds.
Proof.
  induction 1 as [|d ds Hd _ IH]; [done|].
  unfold deliveries_to in *. rewrite filter_cons_True by done. by rewrite IH.
Qed.

Lemma deliveries_to_other i j ds : i <> j -> Forall (fun d => d_to d = j) ds -> deliveries_to i ds = [].
Proof.
  intros Hij. induction 1 as [|d ds Hd _ IH]; [done|].
  unfold deliveries_to in *. by rewrite filter_cons_False by congruence.
Qed.

Section Fanout.
  (** A fan-out sends, for every entry of a map, something addressed to it. *)
Context (f : Z * ConnInner -> list Delivery).
Context (f_to : forall i c, id c = i -> Forall (fun d => d_to d = i) (f (i, c))).

Lemma deliveries_to_fanout (m : gmap Z ConnInner) i :
  map_Forall (fun i s => id s = i) m ->
  deliveries_to i (map_to_list m ≫= f) =
  match m !! i with Some c => f (i, c) | None => [] end.
Proof using f_to.
  induction m as [|j c m Hj IHf IH] using map_first_key_ind; intros Hids; [done|].
  rewrite map_to_list_insert_first_key by done. cbn [mbind list_bind].
  apply map_Forall_insert in Hids as [Hc Hids]; [|done].
  rewrite deliveries_to_app, IH by done.
  destruct (decide (i = j)) as [->|Hij].
  - rewrite lookup_insert_eq, Hj, app_nil_r. by apply deliveries_to_self, f_to.
  - rewrite lookup_insert_ne by done.
    by rewrite (deliveries_to_other i j) by eauto.
Qed.
End Fanout.

Lemma values_bind {A} (m : gmap Z ConnInner) (f : ConnInner -> list A) :
  values m ≫= f = map_to_list m ≫= fun p => f p.2.
Proof.
  unfold values. induction (map_to_list m) as [|p l IH]; [done|]. cbn in *. by rewrite IH.
Qed.

Lemma deliveries_to_values (m : gmap Z ConnInner) i (f : ConnInner -> list Delivery) :
  (forall c, Forall (fun d => d_to d = id c) (f c)) ->
  map_Forall (fun i s => id s = i) m ->
  deliveries_to i (values m ≫= f) = match m !! i with Some c => f c | None => [] end.
Proof.
  intros Hf Hm. rewrite values_bind.
  apply (deliveries_to_fanout (fun p => f p.2)); [|done]. by intros ? ? <-.
Qed.

Lemma swap_lookup (new subs : gmap Z ConnInner) i :
  map_Forall (fun i s => id s = i) new ->
  map_fold (fun _ s acc => <[ id s := s ]> acc) subs new !! i =
  match new !! i with Some c => Some c | None => subs !! i end.
Proof.
  intros Hnew. revert i.
  eapply (map_fold_weak_ind (fun acc m => map_Forall (fun i s => id s = i) m ->
    forall i, acc !! i = match m !! i with Some c => Some c | None => subs !! i end)
    (fun _ s acc => <[ id s := s ]> acc) subs); [by intros; rewrite lookup_empty| |done].
  intros j c m acc Hj IH Hids i.
  apply map_Forall_insert in Hids as [Hc Hids]; [|done]. rewrite Hc.
  destruct (decide (i = j)) as [->|Hij]; [by rewrite !lookup_insert_eq|].
  rewrite !lookup_insert_ne by done. by apply IH.
Qed.

(** ** The invariant *)

Lemma wf_new_service n b : wf (new n b).
Proof. split; cbn; [apply map_Forall_empty|apply map_Forall_empty|apply map_disjoint_empty_l|done]. Qed.

Lemma wf_on_subscribe c sv : wf sv -> wf (on_subscribe c sv).
Proof.
  intros [H1 H2 H3 H4]. unfold on_subscribe.
  destruct (subscribes sv !! id c) as [x|] eqn:Hs; [by split|].
  destruct (need_snapshot sv) eqn:Hn; split; cbn; try done.
  - by apply map_Forall_insert_2.
  - by apply map_disjoint_insert_r.
  - congruence.
  - by apply map_Forall_insert_2.
  - rewrite H4 by done. apply map_disjoint_empty_r.
  - intros _. by apply H4.
Qed.

Lemma wf_on_unsubscribe i sv : wf sv -> wf (on_unsubscribe i sv).
Proof.
  intros [H1 H2 H3 H4]. unfold on_unsubscribe.
  destruct (subscribes sv !! i) as [x|] eqn:Hs; split; cbn; try done.
  - by apply map_Forall_delete.
  - by apply map_disjoint_delete_l.
  - by apply map_Forall_delete.
  - by apply map_disjoint_delete_r.
  - intros Hn. rewrite H4 by done. by rewrite delete_empty.
Qed.

Lemma wf_swap sv : wf sv -> wf (swap_new_subscribes sv).
Proof.
  intros [H1 H2 H3 H4]. split; cbn; try done.
  - intros i c. rewrite swap_lookup by done.
    destruct (new_subscribes sv !! i) as [y|] eqn:E; intros Hc.
    + simplify_eq. by apply (H2 i).
    + by apply (H1 i).
  - apply map_disjoint_empty_r.
Qed.

Lemma wf_step op sv : wf sv -> wf (snd (step op sv)).
Proof.
  destruct op; cbn; intros H; try done.
  - by apply wf_on_subscribe.
  - by apply wf_on_unsubscribe.
  - by apply wf_swap.
  - by destruct H.
  - by destruct H.
Qed.

Lemma need_snapshot_step op sv : need_snapshot (snd (step op sv)) = need_snapshot sv.
Proof.
  destruct op; cbn; try done.
  - unfold on_subscribe. by repeat case_match.
  - unfold on_unsubscribe. by repeat case_match.
Qed.

(** ** The views of the operations *)

Lemma view_on_subscribe c sv i :
  wf sv -> view i (on_subscribe c sv) = snd (view_step (need_snapshot sv) i (OSubscribe c) (view i sv)).
Proof.
  intros H. unfold view, on_subscribe, view_step.
  destruct (Z.eqb_spec (id c) i) as [<-|Hi].
  - destruct (subscribes sv !! id c) as [x|] eqn:Hs; [by rewrite Hs|].
    destruct (need_snapshot sv) eqn:Hn; cbn.
    + rewrite Hs, lookup_insert_eq. by destruct (new_subscribes sv !! id c).
    + rewrite lookup_insert_eq. by destruct (new_subscribes sv !! id c).
  - destruct (subscribes sv !! id c) as [x|] eqn:Hs; cbn.
    + by destruct (subscribes sv !! i), (new_subscribes sv !! i).
    + destruct (need_snapshot sv) eqn:Hn; cbn; rewrite lookup_insert_ne by done;
        by destruct (subscribes sv !! i), (new_subscribes sv !! i).
Qed.

Lemma view_on_unsubscribe j sv i :
  wf sv -> view i (on_unsubscribe j sv) = if Z.eqb j i then Off else view i sv.
Proof.
  intros H. unfold view, on_unsubscribe.
  destruct (Z.eqb_spec j i) as [->|Hi].
  - destruct (subscribes sv !! i) as [x|] eqn:Hs; cbn.
    + rewrite lookup_delete_eq.
      destruct (new_subscribes sv !! i) as [y|] eqn:Hn; [|done].
      exfalso. eapply map_disjoint_spec; [apply (wf_disj _ H)|done|done].
    + by rewrite Hs, lookup_delete_eq.
  - destruct (subscribes sv !! j) as [x|] eqn:Hs; cbn; by rewrite lookup_delete_ne by done.
Qed.

Lemma size_pos_nonempty {A} (m : gmap Z A) : (0 <? Z.of_nat (size m)) = false -> m = ∅.
Proof. intros H. apply map_size_empty_inv. apply Z.ltb_ge in H. lia. Qed.

Lemma view_swap sv i :
  wf sv -> view i (swap_new_subscribes sv) =
           match view i sv with Pending c => Live c | v => v end.
Proof.
  intros H. unfold view. cbn. rewrite swap_lookup by apply (wf_new _ H).
  destruct (new_subscribes sv !! i) as [c|] eqn:Hn.
  - destruct (subscribes sv !! i) as [x|] eqn:Hs; [|done].
    exfalso. eapply map_disjoint_spec; [apply (wf_disj _ H)|done|done].
  - rewrite lookup_empty. by destruct (subscribes sv !! i).
Qed.

Lemma new_deliveries sv m i :
  wf sv ->
  deliveries_to i (send_new_subscribes sv m) =
  match new_subscribes sv !! i with Some c => conn_send c m | None => [] end.
Proof.
  intros H. unfold send_new_subscribes.
  apply deliveries_to_values; [intros; apply conn_send_to|apply (wf_new _ H)].
Qed.

Lemma others_deliveries sv m j i :
  wf sv ->
  deliveries_to i (send_to_others m j sv) =
  match subscribes sv !! i with
  | Some c => if Z.eqb j i then [] else conn_send c m
  | None => []
  end.
Proof.
  intros H. unfold send_to_others.
  rewrite (deliveries_to_fanout
             (fun '(sid, s) => if negb (Z.eqb sid j) then conn_send s m else []));
    [|intros k c <-; case_match; [apply conn_send_to|done]|apply (wf_subs _ H)].
  case_match; [|done]. rewrite Z.eqb_sym. by destruct (j =? i).
Qed.

Lemma without_deliveries sv m j i :
  wf sv ->
  deliveries_to i (send_without m j sv) =
  match subscribes sv !! i with
  | Some c => if Z.eqb j i then [] else conn_send c m
  | None => []
  end.
Proof.
  intros H. unfold send_without.
  rewrite deliveries_to_values;
    [|intros c; case_match; [apply conn_send_to|done]|apply (wf_subs _ H)].
  destruct (subscribes sv !! i) as [c|] eqn:E; [|done].
  rewrite (wf_subs _ H i c E). by destruct (j =? i).
Qed.

Lemma send_deliveries sv m i :
  wf sv ->
  deliveries_to i (send m sv) =
  match subscribes sv !! i with Some c => conn_send c m | None => [] end.
Proof.
  intros H. unfold send, send_shared.
  apply deliveries_to_values; [intros; apply conn_send_to|apply (wf_subs _ H)].
Qed.

Lemma send_to_deliveries sv m j i :
  wf sv ->
  deliveries_to i (send_to m j sv) =
  match subscribes sv !! i with Some c => if Z.eqb j i then conn_send c m else [] | None => [] end.
Proof.
  intros H. unfold send_to. destruct (Z.eqb_spec j i) as [->|Hij].
  - destruct (subscribes sv !! i) as [c|] eqn:E; [|done].
    apply deliveries_to_self. rewrite <-(wf_subs _ H i c E). apply conn_send_to.
  - destruct (subscribes sv !! j) as [c|] eqn:E; [|by case_match].
    rewrite (deliveries_to_other i j); [by case_match|done|].
    rewrite <-(wf_subs _ H j c E). apply conn_send_to.
Qed.

Ltac view_cases sv i :=
  unfold view; cbn;
  destruct (subscribes sv !! i) as [?|] eqn:?, (new_subscribes sv !! i) as [?|] eqn:?; cbn;
  repeat match goal with |- context [Z.eqb ?a ?b] => destruct (Z.eqb a b) end.

(** One operation of the service is one step of every subscriber's view. *)
Lemma view_simulation op sv i :
  wf sv ->
  view_step (need_snapshot sv) i op (view i sv) =
  (deliveries_to i (fst (step op sv)), view i (snd (step op sv))).
Proof.
  intros H. destruct op; cbn [step fst snd].
  - rewrite view_on_subscribe by done. cbn.
    by destruct (view i sv), (id c =? i).
  - rewrite view_on_unsubscribe by done. done.
  - rewrite new_deliveries by done. unfold view.
    destruct (subscribes sv !! i) as [x|] eqn:Hs; cbn.
    + destruct (new_subscribes sv !! i) as [y|] eqn:Hn; [|done].
      exfalso. eapply map_disjoint_spec; [apply (wf_disj _ H)|done|done].
    + by destruct (new_subscribes sv !! i).
  - rewrite view_swap by done. by destruct (view i sv).
  - rewrite send_deliveries by done. by view_cases sv i.
  - rewrite send_to_deliveries by done. by view_cases sv i.
  - rewrite others_deliveries by done. by view_cases sv i.
  - cbn [send_video_frame send_video_frame_shared snd].
    change (values (subscribes sv) ≫= (fun s => conn_send s msg)) with (send msg sv).
    rewrite send_deliveries by done. by view_cases sv i.
  - rewrite without_deliveries by done. by view_cases sv i.
  - by view_cases sv i.
  - by view_cases sv i.
Qed.

Lemma run_ops_wf ops sv : wf sv -> wf (snd (run_ops ops sv)).
Proof.
  revert sv. induction ops as [|op ops IH]; intros sv H; [done|]. cbn.
  pose proof (wf_step op sv H) as Hw. destruct (step op sv) as [ds sv']. cbn in Hw.
  specialize (IH _ Hw). by destruct (run_ops ops sv').
Qed.

Lemma run_ops_simulates ops sv i :
  wf sv ->
  view_run (need_snapshot sv) i ops (view i sv) =
  (deliveries_to i (fst (run_ops ops sv)), view i (snd (run_ops ops sv))).
Proof.
  revert sv. induction ops as [|op ops IH]; intros sv H; [done|]. cbn.
  rewrite view_simulation by done.
  pose proof (wf_step op sv H) as Hw. pose proof (need_snapshot_step op sv) as Hn.
  destruct (step op sv) as [ds sv']. cbn in Hw, Hn |- *. rewrite <-Hn, IH by done.
  destruct (run_ops ops sv') as [ds' sv'']. cbn [fst snd]. by rewrite deliveries_to_app.
Qed.

Lemma run_ops_app ops ops' sv :
  run_ops (ops ++ ops') sv =
  let '(ds, sv) := run_ops ops sv in let '(ds', sv) := run_ops ops' sv in (ds ++ ds', sv).
Proof.
  revert sv. induction ops as [|op ops IH]; intros sv; cbn [app run_ops].
  - by destruct (run_ops ops' sv).
  - destruct (step op sv) as [d sv1]. rewrite IH. destruct (run_ops ops sv1) as [d1 sv2].
    destruct (run_ops ops' sv2) as [d2 sv3]. by rewrite app_assoc.
Qed.

Lemma need_snapshot_run ops sv : need_snapshot (snd (run_ops ops sv)) = need_snapshot sv.
Proof.
  revert sv. induction ops as [|op ops IH]; intros sv; [done|]. cbn. pose proof (need_snapshot_step op sv) as H.
  destruct (step op sv) as [ds sv1]. specialize (IH sv1). destruct (run_ops ops sv1). cbn in *. congruence.
Qed.

(** A snapshot is the operations of its callback and of the other threads, and
    the swap. *)
Lemma snapshot_is_ops ops res sv :
  snapshot (during ops res) sv =
  if has_new_subscribes sv then (res, (run_ops (ops ++ [OSwap]) sv).1, (run_ops (ops ++ [OSwap]) sv).2)
  else (Ok tt, [], sv).
Proof.
  unfold snapshot, during. destruct (has_new_subscribes sv); [|done]. rewrite run_ops_app.
  destruct (run_ops ops sv) as [ds sv1]. cbn. by rewrite app_nil_r.
Qed.

(** C17. A service refines the per-subscriber specification.  For every sequence
    of steps that threads perform on a fresh service, each step being what is
    done under one taking of the service's lock (a subscription, a sending, a
    message of a snapshot, the swap at a snapshot's end), what subscriber [i]
    receives, in order, is what the three-state specification ([Off],
    [Pending], [Live]) emits for it, whatever the other subscribers do.  And a
    whole snapshot, with any steps of other threads between its test and its
    swap, is such a sequence; it does nothing if nobody waits. *)
Theorem service_refines_view n snap ops i during_ops res :
  view_run snap i ops Off =
  (deliveries_to i (fst (run_ops ops (new n snap))), view i (snd (run_ops ops (new n snap))))
  /\ let sv := snd (run_ops ops (new n snap)) in
     let '(r, ds, sv') := snapshot (during during_ops res) sv in
     view_run snap i (if has_new_subscribes sv then during_ops ++ [OSwap] else []) (view i sv)
     = (deliveries_to i ds, view i sv')
     /\ r = if has_new_subscribes sv then res else Ok tt.
Proof.
  split; [apply (run_ops_simulates ops (new n snap) i (wf_new_service n snap))|].
  cbv zeta. rewrite snapshot_is_ops. pose proof (run_ops_wf ops _ (wf_new_service n snap)) as Hw.
  assert (need_snapshot (snd (run_ops ops (new n snap))) = snap) as Hn by apply need_snapshot_run.
  destruct (has_new_subscribes _); [|done]. split; [|done].
  rewrite <- Hn at 1. by apply run_ops_simulates.
Qed.

(** A subscriber that comes between the message of a snapshot and its swap is
    made live without having got the message. *)
Lemma late_subscriber_misses_snapshot n c1 c2 m m' :
  id c1 <> id c2 ->
  let ops := [OSubscribe c1; OSendNew m; OSubscribe c2; OSwap; OSend m'] in
  deliveries_to (id c1) (run_ops ops (new n true)).1 = conn_send c1 m ++ conn_send c1 m'
  /\ deliveries_to (id c2) (run_ops ops (new n true)).1 = conn_send c2 m'.
Proof.
  intros Hne ops.
  assert (forall i, deliveries_to i (run_ops ops (new n true)).1 = (view_run true i ops Off).1) as H.
  { intros i. change true with (need_snapshot (new n true)) at 2. change Off with (view i (new n true)).
    rewrite run_ops_simulates by apply wf_new_service. done. }
  rewrite !H. unfold ops. cbn.
  rewrite !Z.eqb_refl, !(proj2 (Z.eqb_neq _ _)) by congruence. cbn. by rewrite !app_nil_r.
Qed.

End Service.

(** ** The service threads *)
Module Loop.

Definition HIBERNATE_TIMEOUT : Z := 30.
Definition MAX_ERROR_TIMEOUT : Z := 1000.

(** One pass of the [run] loop: the callback is called when somebody is
    subscribed; it takes [elapsed] milliseconds and may fail.  The result is
    the sleeps of the pass and the next [error_timeout]. *)
Definition run_iter (subscribed : bool) (res : result unit string) (elapsed error_timeout : Z)
  : list Z * Z :=
  if subscribed then
    match res with
    | Err _ =>
      let t := if MAX_ERROR_TIMEOUT <? elapsed then HIBERNATE_TIMEOUT else u64 (error_timeout * 2) in
      let t := if MAX_ERROR_TIMEOUT <? t then MAX_ERROR_TIMEOUT else t in
      ([t; HIBERNATE_TIMEOUT], t)
    | Ok _ => ([HIBERNATE_TIMEOUT], error_timeout)
    end
  else ([HIBERNATE_TIMEOUT], error_timeout).

Fixpoint run_loop (passes : list (bool * result unit string * Z)) (error_timeout : Z) : list Z * Z :=
  match passes with
  | [] => ([], error_timeout)
  | (sub, res, el) :: ps =>
    let '(sl, t) := run_iter sub res el error_timeout in
    let '(sl', t) := run_loop ps t in (sl ++ sl', t)
  end.

(** One pass of the [repeat] loop over a user state with [init] and [reset]:
    the calls made, the sleeps, and the [may_reset] flag. *)
Inductive Call : Type := Init | Callback | ResetState.

Definition repeat_iter (subscribed : bool) (res : result unit string) (elapsed interval : Z)
  (may_reset : bool) : list Call * list Z * bool :=
  let '(calls, sleeps, may_reset) :=
    if subscribed then
      ((if may_reset then [] else [Init]) ++ [Callback],
       match res with Err _ => [MAX_ERROR_TIMEOUT] | Ok _ => [] end, true)
    else if may_reset then ([ResetState], [], false)
    else ([], [], may_reset) in
  (calls, sleeps ++ (if elapsed <? interval then [interval - elapsed] else []), may_reset).

Fixpoint repeat_loop (interval : Z) (passes : list (bool * result unit string * Z)) (may_reset : bool)
  : list Call * bool :=
  match passes with
  | [] => ([], may_reset)
  | (sub, res, el) :: ps =>
    let '(cs, _, mr) := repeat_iter sub res el interval may_reset in
    let '(cs', mr) := repeat_loop interval ps mr in (cs ++ cs', mr)
  end.

Lemma run_iter_bounds sub res el t :
  HIBERNATE_TIMEOUT <= t <= MAX_ERROR_TIMEOUT ->
  HIBERNATE_TIMEOUT <= snd (run_iter sub res el t) <= MAX_ERROR_TIMEOUT /\
  Forall (fun s => HIBERNATE_TIMEOUT <= s <= MAX_ERROR_TIMEOUT) (fst (run_iter sub res el t)).
Proof.
  unfold run_iter, HIBERNATE_TIMEOUT, MAX_ERROR_TIMEOUT. intros H.
  rewrite (wrap_small 64 (t * 2)) by lia.
  destruct sub, res; cbn; zcases; repeat constructor; lia.
Qed.

Lemma run_loop_bounds ps t :
  HIBERNATE_TIMEOUT <= t <= MAX_ERROR_TIMEOUT ->
  HIBERNATE_TIMEOUT <= snd (run_loop ps t) <= MAX_ERROR_TIMEOUT /\
  Forall (fun s => HIBERNATE_TIMEOUT <= s <= MAX_ERROR_TIMEOUT) (fst (run_loop ps t)).
Proof.
  revert t. induction ps as [|[[sub res] el] ps IH]; intros t Ht; [done|].
  cbn [run_loop]. destruct (run_iter_bounds sub res el t Ht) as [H1 H2].
  destruct (run_iter sub res el t) as [sl t']. cbn in H1, H2.
  destruct (IH t' H1) as [H3 H4]. destruct (run_loop ps t') as [sl' t'']. cbn in *.
  split; [done|]. by apply Forall_app.
Qed.

Lemma run_loop_backoff ps t :
  HIBERNATE_TIMEOUT <= t <= MAX_ERROR_TIMEOUT ->
  Forall (fun '(sub, res, el) => sub = true /\ (exists e, res = Err e) /\ el <= MAX_ERROR_TIMEOUT) ps ->
  snd (run_loop ps t) = Z.min MAX_ERROR_TIMEOUT (t * 2 ^ Z.of_nat (length ps)).
Proof.
  unfold MAX_ERROR_TIMEOUT, HIBERNATE_TIMEOUT. intros Ht Hps. revert t Ht.
  induction Hps as [|[[sub res] el] ps (-> & (e & ->) & Hel) Hps IH]; intros t Ht.
  - cbn. lia.
  - cbn [run_loop run_iter length]. unfold MAX_ERROR_TIMEOUT, HIBERNATE_TIMEOUT.
    rewrite (proj2 (Z.ltb_ge 1000 el)) by lia.
    rewrite (wrap_small 64 (t * 2)) by lia.
    rewrite Nat2Z.inj_succ, Z.pow_succ_r by lia.
    pose proof (Z.pow_pos_nonneg 2 (Z.of_nat (length ps)) ltac:(lia) ltac:(lia)).
    destruct (Z.ltb_spec 1000 (t * 2)).
    + specialize (IH 1000 ltac:(lia)). destruct (run_loop ps 1000). cbn in *. rewrite IH. nia.
    + specialize (IH (t * 2) ltac:(lia)). destruct (run_loop ps (t * 2)). cbn in *. rewrite IH. nia.
Qed.

(** The [run] loop of a service backs off exponentially and within bounds:
    starting from 30 ms, after [k] quick failures in a row the error timeout is
    [min 1000 (30 * 2^k)] ms, and over any sequence of passes every sleep lies
    between 30 ms and 1 s, so the doubling never overflows. *)
Theorem error_backoff ps qs :
  Forall (fun '(sub, res, el) => sub = true /\ (exists e, res = Err e) /\ el <= MAX_ERROR_TIMEOUT) ps ->
  snd (run_loop ps HIBERNATE_TIMEOUT) = Z.min MAX_ERROR_TIMEOUT (HIBERNATE_TIMEOUT * 2 ^ Z.of_nat (length ps))
  /\ Forall (fun s => HIBERNATE_TIMEOUT <= s <= MAX_ERROR_TIMEOUT) (fst (run_loop qs HIBERNATE_TIMEOUT)).
Proof.
  intros H. split; [by apply run_loop_backoff|].
  apply run_loop_bounds. unfold HIBERNATE_TIMEOUT, MAX_ERROR_TIMEOUT. lia.
Qed.

Lemma error_backoff_witness :
  snd (run_loop [(true, Err "capture", 5); (true, Err "capture", 7)] HIBERNATE_TIMEOUT) = 120.
Proof.
  destruct (error_backoff [(true, Err "capture", 5); (true, Err "capture", 7)] []) as [H _];
    [|exact H].
  repeat constructor; eauto; unfold MAX_ERROR_TIMEOUT; lia.
Defined.

(** The user state of a [repeat] loop is initialised before the first callback
    after each reset, and reset at most once in between. *)
Fixpoint alternates (inited : bool) (cs : list Call) : option bool :=
  match cs with
  | [] => Some inited
  | Init :: cs => if inited then None else alternates true cs
  | Callback :: cs => if inited then alternates true cs else None
  | ResetState :: cs => if inited then alternates false cs else None
  end.

Lemma alternates_app b cs1 cs2 b' :
  alternates b cs1 = Some b' -> alternates b (cs1 ++ cs2) = alternates b' cs2.
Proof.
  revert b. induction cs1 as [|c cs1 IH]; intros b H; cbn in *; [by simplify_eq|].
  destruct c, b; try done; by apply IH.
Qed.

Lemma repeat_alternates interval ps b :
  alternates b (fst (repeat_loop interval ps b)) = Some (snd (repeat_loop interval ps b)).
Proof.
  revert b. induction ps as [|[[sub res] el] ps IH]; intros b; [done|].
  cbn [repeat_loop].
  assert (exists cs sl b', repeat_iter sub res el interval b = (cs, sl, b') /\ alternates b cs = Some b')
    as (cs & sl & b' & -> & Ha).
  { unfold repeat_iter. by destruct sub, b; eexists _, _, _. }
  specialize (IH b'). destruct (repeat_loop interval ps b') as [cs' b'']. cbn [fst snd] in *.
  by rewrite (alternates_app _ _ _ b').
Qed.

End Loop.
