(* ===== verification/DisplayService.v ===== *)
(** * Displays ([src/server/display_service.rs])

    [Displays] is the process-wide list of displays that is kept in step with
    the system and with the viewers ([SYNC_DISPLAYS]), the flag that suppresses
    updates while a resolution is changed, and the resolutions to restore
    ([CHANGED_RESOLUTIONS]).  The displays of the system and the change of a
    resolution are inputs; the session is X11 unless [is_x11] says otherwise, in
    which case the displays do not change.  [run_pass] is one round of the
    thread of the service. *)

From S2P Require Import Prelude RustStr Messages Service.

Module Display.

Import Msg.
Module S := Service.Service.

(** What [scrap::Display] tells of a display of the system. *)
Record RawDisplay : Type := mkRawDisplay {
  raw_name : string; raw_x : Z; raw_y : Z; raw_width : Z; raw_height : Z; raw_online : bool; raw_primary : bool }.

Record ChangedResolution : Type := mkChangedResolution { original : Z * Z; changed : Z * Z }.

Record Displays : Type := mkDisplays {
  displays : list DisplayInfo;
  is_synced : bool;
  temp_ignore : bool;                       (* [TEMP_IGNORE_DISPLAYS_CHANGED] *)
  changed_resolutions : gmap string ChangedResolution }.

Definition displays_default : Displays := mkDisplays [] false false ∅.

(** [SyncDisplaysInfo::check_changed] *)
Definition check_changed (l : list DisplayInfo) (s : Displays) : Displays :=
  let replace := mkDisplays l (if temp_ignore s then is_synced s else false) (temp_ignore s) (changed_resolutions s) in
  if negb (Nat.eqb (length (displays s)) (length l)) then replace
  else if existsb (fun '(a, b) => negb (bool_decide (a = b))) (zip l (displays s)) then replace
  else s.

(** [SyncDisplaysInfo::get_update_sync_displays] *)
Definition get_update_sync_displays (s : Displays) : option (list DisplayInfo) * Displays :=
  if is_synced s then (None, s)
  else (Some (displays s), mkDisplays (displays s) true (temp_ignore s) (changed_resolutions s)).

(** [temp_ignore_displays_changed] and the end of its guard, a second after. *)
Definition temp_ignore_displays_changed (s : Displays) : Displays :=
  mkDisplays (displays s) (is_synced s) true (changed_resolutions s).
Definition temp_ignore_end (s : Displays) : Displays :=
  mkDisplays (displays s) false false (changed_resolutions s).

(** [check_display_changed] *)
Definition check_display_changed (is_x11 : bool) (ndisplay idx x y w h : Z) (s : Displays) : option DisplayInfo :=
  if negb is_x11 then None
  else
    match displays s !! Z.to_nat idx with
    | None => None
    | Some d =>
      if negb (ndisplay =? len (displays s)) then Some d
      else if negb ((di_x d =? x) && (di_y d =? y) && (di_width d =? i32 w) && (di_height d =? i32 h)) then Some d
      else None
    end.

Definition set_last_changed_resolution (name : string) (orig chg : Z * Z) (s : Displays) : Displays :=
  mkDisplays (displays s) (is_synced s) (temp_ignore s)
    (<[ name := match changed_resolutions s !! name with
                | Some r => mkChangedResolution (original r) chg
                | None => mkChangedResolution orig chg
                end ]> (changed_resolutions s)).

(** The changes [restore_resolutions] asks the system for. *)
Definition restore_resolutions (s : Displays) : list (string * (Z * Z)) * Displays :=
  (map (fun '(n, r) => (n, original r)) (map_to_list (changed_resolutions s)),
   mkDisplays (displays s) (is_synced s) (temp_ignore s) ∅).

Definition get_original_resolution (name : string) (w h : Z) (s : Displays) : Z * Z :=
  match changed_resolutions s !! name with Some r => original r | None => (i32 w, i32 h) end.

(** One [DisplayInfo] of [check_update_displays]. *)
Definition display_info (s : Displays) (d : RawDisplay) : DisplayInfo :=
  mkDisplayInfo (i32 (raw_x d)) (i32 (raw_y d)) (i32 (raw_width d)) (i32 (raw_height d)) (raw_name d) (raw_online d) false
    (get_original_resolution (raw_name d) (raw_width d) (raw_height d) s) 1.

Definition check_update_displays (all : list RawDisplay) (s : Displays) : Displays :=
  check_changed (map (display_info s) all) s.

Definition displays_to_msg (l : list DisplayInfo) : Message := MPeerInfo l.

Definition get_displays_msg (s : Displays) : option Message * Displays :=
  let '(o, s) := get_update_sync_displays s in (displays_to_msg <$> o, s).

(** [all] is the answer of [try_get_displays]. *)
Definition check_get_displays_changed_msg (is_x11 : bool) (all : result (list RawDisplay) string) (s : Displays)
  : option Message * Displays :=
  if negb is_x11 then get_displays_msg s
  else match all with
       | Ok l => get_displays_msg (check_update_displays l s)
       | Err _ => (None, s)
       end.

Definition check_displays_changed (is_x11 : bool) (all : result (list RawDisplay) string) (s : Displays)
  : result unit string * Displays :=
  if negb is_x11 then (Ok tt, s)
  else match all with
       | Ok l => (Ok tt, check_update_displays l s)
       | Err e => (Err e, s)
       end.

Definition get_sync_displays (s : Displays) : list DisplayInfo := displays s.
Definition get_display_info (idx : Z) (s : Displays) : option DisplayInfo := displays s !! Z.to_nat idx.

Definition update_get_sync_displays_on_login (all : result (list RawDisplay) string) (s : Displays)
  : result (list DisplayInfo) string * Displays :=
  match all with
  | Ok l => let s := check_update_displays l s in (Ok (displays s), s)
  | Err e => (Err e, s)
  end.

Fixpoint position (l : list RawDisplay) : option Z :=
  match l with
  | [] => None
  | d :: l => if raw_primary d then Some 0 else Z.succ <$> position l
  end.

Definition get_primary_2 (all : list RawDisplay) : Z := unwrap_or 0 (position all).

(** ** The service

    One round of [run]: [Some] is the error that ends it.  [found] and [checked]
    are what other threads do to the service between the steps of the snapshot:
    before its callback looks for old subscribers, and before the new ones are
    moved over. *)
Definition has_old_subscribes (sv : S.ServiceInner) : bool := 0 <? Z.of_nat (size (S.subscribes sv)).

Definition run_pass (is_x11 : bool) (all : result (list RawDisplay) string) (found checked : list S.Op)
  (sv : S.ServiceInner) (s : Displays) : option string * list S.Delivery * S.ServiceInner * Displays :=
  let callback sv :=
    let '(ds, sv) := S.run_ops found sv in
    let fresh := negb (temp_ignore s) && has_old_subscribes sv in
    let '(ds', sv) := S.run_ops checked sv in
    (if fresh then Err "new subscriber" else Ok tt, ds ++ ds', sv) in
  let '(res, ds, sv) := S.snapshot callback sv in
  match res with
  | Err e => (Some e, ds, sv, mkDisplays (displays s) false (temp_ignore s) (changed_resolutions s))
  | Ok _ =>
    let '(m, s) := check_get_displays_changed_msg is_x11 all s in
    (None, ds ++ match m with Some m => S.send m sv | None => [] end, sv, s)
  end.

(** What happens to the displays and the subscribers meanwhile. *)
Inductive DisplayEvent : Type :=
| Round (all : result (list RawDisplay) string) (found checked : list S.Op)
                                                      (* a round of the thread, while somebody is subscribed *)
| Subscribes (c : S.ConnInner)
| Unsubscribes (i : Z)
| Updates (all : list RawDisplay)                     (* [check_update_displays] by a login or the video service *)
| IgnoreBegins | IgnoreEnds
| Changes (name : string) (orig chg : Z * Z)
| Restores.

Definition event_step (is_x11 : bool) (ev : DisplayEvent) (sv : S.ServiceInner) (s : Displays)
  : list S.Delivery * S.ServiceInner * Displays :=
  match ev with
  | Round all found checked =>
    if S.ok sv then let '(_, ds, sv, s) := run_pass is_x11 all found checked sv s in (ds, sv, s) else ([], sv, s)
  | Subscribes c => ([], S.on_subscribe c sv, s)
  | Unsubscribes i => ([], S.on_unsubscribe i sv, s)
  | Updates all => ([], sv, check_update_displays all s)
  | IgnoreBegins => ([], sv, temp_ignore_displays_changed s)
  | IgnoreEnds => ([], sv, temp_ignore_end s)
  | Changes n o c => ([], sv, set_last_changed_resolution n o c s)
  | Restores => ([], sv, snd (restore_resolutions s))
  end.

Fixpoint events (is_x11 : bool) (evs : list DisplayEvent) (sv : S.ServiceInner) (s : Displays)
  : list S.Delivery * S.ServiceInner * Displays :=
  match evs with
  | [] => ([], sv, s)
  | ev :: evs =>
    let '(ds, sv, s) := event_step is_x11 ev sv s in
    let '(ds', sv, s) := events is_x11 evs sv s in (ds ++ ds', sv, s)
  end.

End Display.
