(* ===== verification/Server.v ===== *)
(** * The server: services, connections and who is subscribed to what

    The [Server] of [src/server.rs].  [services] and [connections] are its hash
    maps; the iteration order of the hash map never matters, because every
    operation treats the services one by one, and the theorems say so.  The
    index of the primary display and the presence of a camera come from the
    platform and are arguments. *)

From S2P Require Import Prelude RustStr Messages Service.

Module Server.

Import Msg Service.

Inductive VideoSource : Type := Monitor | Camera.

Definition service_name_prefix (s : VideoSource) : string :=
  match s with Monitor => "monitor" | Camera => "camera" end.

Definition is_monitor (s : VideoSource) : bool := match s with Monitor => true | Camera => false end.

Definition get_service_name (source : VideoSource) (idx : Z) : string :=
  service_name_prefix source +:+ show idx.

(** [video_service::new]: a snapshot service whose thread is started. *)
Definition new_video_service (source : VideoSource) (idx : Z) : ServiceInner :=
  mkServiceInner (get_service_name source idx) true ∅ ∅ true true ∅.

Record Server : Type := mkServer {
  connections : gmap Z ConnInner;
  services : gmap string ServiceInner;
  id_count : Z }.

Definition PRIMARY_CAMERA_IDX : Z := 0.

Definition is_video_service_name (n : string) : bool :=
  starts_with (service_name_prefix Monitor) n || starts_with (service_name_prefix Camera) n.

Definition with_services (f : gmap string ServiceInner) (s : Server) : Server :=
  mkServer (connections s) f (id_count s).

Definition add_service (sv : ServiceInner) (s : Server) : Server :=
  with_services (<[ name sv := sv ]> (services s)) s.

Definition contains (n : string) (s : Server) : bool := bool_decide (is_Some (services s !! n)).

Definition try_add_primary_camera_service (primary_camera_exists : bool) (s : Server) : Server :=
  if negb primary_camera_exists then s
  else if negb (contains (get_service_name Camera PRIMARY_CAMERA_IDX) s)
       then add_service (new_video_service Camera PRIMARY_CAMERA_IDX) s
       else s.

Definition try_add_primay_video_service (primary : Z) (s : Server) : Server :=
  if negb (contains (get_service_name Monitor primary) s)
  then add_service (new_video_service Monitor primary) s
  else s.

Definition add_camera_connection (primary_camera_exists : bool) (conn : ConnInner) (s : Server) : Server :=
  let svs :=
    if primary_camera_exists
    then alter (on_subscribe conn) (get_service_name Camera PRIMARY_CAMERA_IDX) (services s)
    else services s in
  mkServer (<[ id conn := conn ]> (connections s)) svs (id_count s).

Definition add_connection (primary : Z) (conn : ConnInner) (noperms : list string) (s : Server) : Server :=
  let primary_video_service_name := get_service_name Monitor primary in
  let visit (sv : ServiceInner) :=
    if is_video_service_name (name sv) && negb (String.eqb (name sv) primary_video_service_name)
    then sv
    else if negb (bool_decide (name sv ∈ noperms)) then on_subscribe conn sv else sv in
  mkServer (<[ id conn := conn ]> (connections s)) (visit <$> services s) (id_count s).

Definition remove_connection (conn : ConnInner) (s : Server) : Server :=
  mkServer (delete (id conn) (connections s)) (on_unsubscribe (id conn) <$> services s) (id_count s).

Definition close_connections (s : Server) : list Delivery :=
  values (connections s) ≫= fun c => conn_send c (MMisc StopService).

Definition subscribe (n : string) (conn : ConnInner) (sub : bool) (s : Server) : Server :=
  match services s !! n with
  | None => s
  | Some sv =>
    if Bool.eqb (is_subed (id conn) sv) sub then s
    else with_services
           (<[ n := if sub then on_subscribe conn sv else on_unsubscribe (id conn) sv ]> (services s)) s
  end.

Definition get_new_id (s : Server) : Z * Server :=
  let i := i32 (id_count s + 1) in (i, mkServer (connections s) (services s) i).

Definition set_video_service_opt (display : option (VideoSource * Z)) (opt value : string) (s : Server)
  : Server :=
  let visit (k : string) (v : ServiceInner) :=
    let skip := match display with
                | Some (source, d) => negb (String.eqb k (get_service_name source d))
                | None => false
                end in
    if skip then Some v
    else if is_video_service_name k then Some (snd (set_option opt value v)) else Some v in
  with_services (map_imap visit (services s)) s.

Definition get_subbed_displays_count (conn_id : Z) (s : Server) : Z :=
  Z.of_nat (length (filter
    (fun k => is_video_service_name k &&
              match services s !! k with Some sv => is_subed conn_id sv | None => false end)
    (map_to_list (services s)).*1)).

Definition capture_displays (conn : ConnInner) (source : VideoSource) (displays : list Z)
  (include exclude : bool) (s : Server) : Server :=
  let names := map (get_service_name source) displays in
  let keys := (map_to_list (services s)).*1 in
  fold_left
    (fun s n =>
       if is_video_service_name n then
         if bool_decide (n ∈ names)
         then if include then subscribe n conn true s else s
         else if exclude then subscribe n conn false s else s
       else s)
    keys s.

(** [impl Drop for Server]: the service threads are joined. *)
Definition drop (s : Server) : Server := with_services (join <$> services s) s.

(** ** The invariant and the abstract state

    A service is filed under its own name and is well formed.  What a client
    of the server can observe is the relation "connection [i] is subscribed
    to service [n]". *)

Definition wf_server (s : Server) : Prop :=
  map_Forall (fun n sv => name sv = n /\ wf sv) (services s).

Definition subbed (s : Server) (n : string) (i : Z) : bool :=
  match services s !! n with Some sv => is_subed i sv | None => false end.

Lemma is_subed_on_subscribe c sv i :
  is_subed i (on_subscribe c sv) = Z.eqb i (id c) || is_subed i sv.
Proof.
  unfold is_subed, on_subscribe.
  destruct (subscribes sv !! id c) as [x|] eqn:E.
  - destruct (Z.eqb_spec i (id c)) as [->|]; [|done]. by rewrite E.
  - destruct (need_snapshot sv); cbn; destruct (Z.eqb_spec i (id c)) as [->|Hne].
    + rewrite lookup_insert_eq. by rewrite (bool_decide_true (is_Some (Some c))), orb_true_r by eauto.
    + by rewrite lookup_insert_ne.
    + rewrite lookup_insert_eq. by rewrite (bool_decide_true (is_Some (Some c))) by eauto.
    + by rewrite lookup_insert_ne.
Qed.

Lemma is_subed_on_unsubscribe j sv i :
  wf sv -> is_subed i (on_unsubscribe j sv) = negb (Z.eqb i j) && is_subed i sv.
Proof.
  intros H. unfold is_subed, on_unsubscribe.
  destruct (Z.eqb_spec i j) as [->|Hne]; cbn [negb andb].
  - destruct (subscribes sv !! j) as [x|] eqn:E; cbn; rewrite ?E, lookup_delete_eq.
    + destruct (new_subscribes sv !! j) as [y|] eqn:E2; [|done].
      exfalso. eapply map_disjoint_spec; [apply (wf_disj _ H)|done|done].
    + done.
  - destruct (subscribes sv !! j) as [x|] eqn:E; cbn; by rewrite lookup_delete_ne.
Qed.

Lemma on_subscribe_name c sv : name (on_subscribe c sv) = name sv.
Proof. unfold on_subscribe. by repeat case_match. Qed.

Lemma on_unsubscribe_name i sv : name (on_unsubscribe i sv) = name sv.
Proof. unfold on_unsubscribe. by repeat case_match. Qed.

#[local] Hint Resolve wf_on_subscribe wf_on_unsubscribe : rust.

Lemma wf_subscribe n c b s : wf_server s -> wf_server (subscribe n c b s).
Proof.
  intros H. unfold subscribe. destruct (services s !! n) as [sv|] eqn:E; [|done].
  destruct (Bool.eqb _ _); [done|]. unfold wf_server; cbn.
  destruct (H n sv E) as [Hn Hw].
  apply map_Forall_insert_2; [|done]. destruct b;
    rewrite ?on_subscribe_name, ?on_unsubscribe_name; auto with rust.
Qed.

(** [subscribe] sets one entry of the relation, if the service exists. *)
Lemma subbed_subscribe n c b s m i :
  wf_server s ->
  subbed (subscribe n c b s) m i =
  if bool_decide (m = n) && Z.eqb i (id c) && contains n s then b else subbed s m i.
Proof.
  intros H. unfold subscribe, contains, subbed.
  destruct (services s !! n) as [sv|] eqn:E.
  2:{ rewrite (bool_decide_false (is_Some None)) by (intros [? ?]; done). by rewrite andb_false_r. }
  rewrite (bool_decide_true (is_Some (Some sv))) by eauto. rewrite andb_true_r.
  destruct (H n sv E) as [Hn Hw].
  destruct (Bool.eqb (is_subed (id c) sv) b) eqn:Eb.
  - apply eqb_prop in Eb. case_bool_decide; subst; [|done]. rewrite E.
    destruct (Z.eqb_spec i (id c)) as [->|]; by subst.
  - apply eqb_false_iff in Eb. case_bool_decide as Hm; subst; cbn [services with_services].
    + rewrite lookup_insert_eq, E. destruct b.
      * rewrite is_subed_on_subscribe. by destruct (Z.eqb i (id c)).
      * rewrite is_subed_on_unsubscribe by done. by destruct (Z.eqb i (id c)).
    + by rewrite lookup_insert_ne.
Qed.

Lemma contains_subscribe n c b s m : contains m (subscribe n c b s) = contains m s.
Proof.
  unfold contains, subscribe. destruct (services s !! n) eqn:E; [|done].
  destruct (Bool.eqb _ _); [done|]. cbn [services with_services]. apply bool_decide_ext.
  destruct (decide (m = n)) as [->|]; [rewrite lookup_insert_eq, E|by rewrite lookup_insert_ne].
  split; eauto.
Qed.

(** ** [capture_displays] *)

Definition capture_step (conn : ConnInner) (names : list string) (include exclude : bool)
  (s : Server) (n : string) : Server :=
  if is_video_service_name n then
    if bool_decide (n ∈ names)
    then if include then subscribe n conn true s else s
    else if exclude then subscribe n conn false s else s
  else s.

Lemma capture_displays_fold conn source ds include exclude s :
  capture_displays conn source ds include exclude s =
  fold_left (capture_step conn (map (get_service_name source) ds) include exclude)
            (map_to_list (services s)).*1 s.
Proof. done. Qed.

Lemma capture_step_wf conn names inc exc s n :
  wf_server s -> wf_server (capture_step conn names inc exc s n).
Proof. intros. unfold capture_step. repeat case_match; auto using wf_subscribe. Qed.

Lemma capture_step_contains conn names inc exc s n m :
  contains m (capture_step conn names inc exc s n) = contains m s.
Proof. unfold capture_step. repeat case_match; auto using contains_subscribe. Qed.

(** What a step makes of the subscription of [m]. *)
Definition captured (names : list string) (include exclude : bool) (m : string) (old : bool) : bool :=
  if is_video_service_name m then
    if bool_decide (m ∈ names) then include || old else negb exclude && old
  else old.

Lemma capture_step_subbed conn names inc exc s n m i :
  wf_server s -> contains n s = true ->
  subbed (capture_step conn names inc exc s n) m i =
  if bool_decide (m = n) && Z.eqb i (id conn) then captured names inc exc m (subbed s m i)
  else subbed s m i.
Proof.
  intros H Hn. unfold capture_step, captured.
  destruct (decide (m = n)) as [->|Hm].
  - rewrite (bool_decide_true (n = n)) by done. cbn [andb].
    destruct (is_video_service_name n); [|by destruct (i =? id conn)].
    case_bool_decide; [destruct inc|destruct exc]; cbn [negb orb andb];
      rewrite ?subbed_subscribe by done; rewrite ?Hn, ?bool_decide_true by done;
      by destruct (i =? id conn).
  - rewrite (bool_decide_false (m = n)) by done. cbn [andb].
    repeat case_match; rewrite ?subbed_subscribe by done;
      rewrite ?(bool_decide_false (m = n)) by done; done.
Qed.

Lemma capture_fold_subbed conn names inc exc keys s m i :
  wf_server s -> NoDup keys -> Forall (fun n => contains n s = true) keys ->
  subbed (fold_left (capture_step conn names inc exc) keys s) m i =
  if bool_decide (m ∈ keys) && Z.eqb i (id conn) then captured names inc exc m (subbed s m i)
  else subbed s m i.
Proof.
  revert s. induction keys as [|n keys IH]; intros s H Hnd Hc; [done|].
  apply NoDup_cons in Hnd as [Hn Hnd]. apply Forall_cons in Hc as [Hcn Hc]. cbn [fold_left].
  rewrite IH; [|by apply capture_step_wf|done|].
  2:{ eapply Forall_impl; [exact Hc|]. intros x Hx. by rewrite capture_step_contains. }
  rewrite capture_step_subbed by done.
  destruct (decide (m = n)) as [->|Hne].
  - rewrite (bool_decide_false (n ∈ keys)) by done.
    rewrite (bool_decide_true (n ∈ n :: keys)) by set_solver.
    by rewrite bool_decide_true.
  - rewrite (bool_decide_false (m = n)) by done. cbn [andb].
    assert (bool_decide (m ∈ n :: keys) = bool_decide (m ∈ keys)) as ->; [|done].
    apply bool_decide_ext. set_solver.
Qed.

Lemma keys_contains s n : n ∈ (map_to_list (services s)).*1 <-> contains n s = true.
Proof.
  unfold contains. rewrite bool_decide_eq_true, list_elem_of_fmap. split.
  - intros ([k v] & -> & Hk). apply elem_of_map_to_list in Hk. eauto.
  - intros [v Hv]. exists (n, v). split; [done|]. by apply elem_of_map_to_list.
Qed.

Lemma subbed_not_contains s n i : contains n s = false -> subbed s n i = false.
Proof.
  unfold contains, subbed. intros H. apply bool_decide_eq_false in H.
  destruct (services s !! n); [|done]. exfalso. eauto.
Qed.

Lemma subbed_capture_displays conn source ds inc exc s m i :
  wf_server s ->
  subbed (capture_displays conn source ds inc exc s) m i =
  if contains m s && Z.eqb i (id conn)
  then captured (map (get_service_name source) ds) inc exc m (subbed s m i)
  else subbed s m i.
Proof.
  intros H. rewrite capture_displays_fold, capture_fold_subbed; [|done| |].
  - destruct (contains m s) eqn:E.
    + by rewrite bool_decide_true by by apply keys_contains.
    + rewrite bool_decide_false; [done|]. intros Hm. apply keys_contains in Hm. congruence.
  - apply NoDup_fst_map_to_list.
  - apply Forall_forall. intros x. apply keys_contains.
Qed.

(** ** Names of video services *)

Lemma show_inj a b : 0 <= a -> 0 <= b -> show a = show b -> a = b.
Proof.
  intros Ha Hb H.
  pose proof (parse_show_nonneg 0 (Z.max a b) a ltac:(lia) ltac:(lia)) as Pa.
  pose proof (parse_show_nonneg 0 (Z.max a b) b ltac:(lia) ltac:(lia)) as Pb.
  rewrite H in Pa. congruence.
Qed.

Lemma append_inj_l (p a b : string) : p +:+ a = p +:+ b -> a = b.
Proof. induction p as [|c p IH]; cbn; [done|]. intros H. apply IH. by injection H. Qed.

Lemma get_service_name_inj src i src' j :
  0 <= i -> 0 <= j -> get_service_name src i = get_service_name src' j -> src = src' /\ i = j.
Proof.
  intros Hi Hj H. assert (src = src') as <-.
  { destruct src, src'; [done|discriminate H|discriminate H|done]. }
  split; [done|]. apply (show_inj i j Hi Hj). by apply append_inj_l in H.
Qed.

Lemma prefix_append p t : String.prefix p (p +:+ t) = true.
Proof.
  induction p as [|c p IH]; [by destruct t|].
  change (String c p +:+ t) with (String c (p +:+ t)). cbn [String.prefix].
  destruct (ascii_dec c c); [apply IH|done].
Qed.

Lemma get_service_name_video src i : is_video_service_name (get_service_name src i) = true.
Proof.
  unfold is_video_service_name, starts_with, get_service_name. apply orb_true_iff.
  destruct src; [left|right]; apply prefix_append.
Qed.

(** ** The remaining operations keep the invariant *)

Lemma wf_add_service sv s : wf sv -> wf_server s -> wf_server (add_service sv s).
Proof. intros Hw H. unfold wf_server; cbn. by apply map_Forall_insert_2. Qed.

Lemma wf_new_video_service src i : wf (new_video_service src i).
Proof. split; cbn; [apply map_Forall_empty|apply map_Forall_empty|apply map_disjoint_empty_l|done]. Qed.

Lemma wf_server_fmap (f : ServiceInner -> ServiceInner) conns s k :
  (forall sv, wf sv -> name (f sv) = name sv /\ wf (f sv)) ->
  wf_server s -> wf_server (mkServer conns (f <$> services s) k).
Proof.
  intros Hf H n sv'. cbn. rewrite lookup_fmap_Some. intros (sv & <- & E).
  destruct (H n sv E) as [Hn Hw]. destruct (Hf sv Hw) as [-> ?]. done.
Qed.

Lemma wf_add_connection primary c noperms s :
  wf_server s -> wf_server (add_connection primary c noperms s).
Proof.
  apply wf_server_fmap. intros sv Hw. repeat case_match;
    rewrite ?on_subscribe_name; auto with rust.
Qed.

Lemma wf_remove_connection c s : wf_server s -> wf_server (remove_connection c s).
Proof. apply wf_server_fmap. intros sv Hw. rewrite on_unsubscribe_name. auto with rust. Qed.

Lemma wf_add_camera_connection b c s : wf_server s -> wf_server (add_camera_connection b c s).
Proof.
  intros H n sv. cbn. destruct b; [|apply H].
  destruct (decide (n = get_service_name Camera PRIMARY_CAMERA_IDX)) as [->|Hne].
  - rewrite lookup_alter_eq, fmap_Some. intros (sv' & E & ->).
    destruct (H _ _ E). rewrite on_subscribe_name. auto with rust.
  - rewrite lookup_alter_ne by done. apply H.
Qed.

Lemma wf_try_add_primary primary s : wf_server s -> wf_server (try_add_primay_video_service primary s).
Proof.
  intros H. unfold try_add_primay_video_service. case_match; [|done].
  apply wf_add_service; [apply wf_new_video_service|done].
Qed.

Lemma wf_capture_displays c src ds inc exc s :
  wf_server s -> wf_server (capture_displays c src ds inc exc s).
Proof.
  intros H. rewrite capture_displays_fold.
  generalize ((map_to_list (services s)).*1). intros keys. revert s H.
  induction keys as [|k keys IH]; intros s H; [done|]. cbn. apply IH. by apply capture_step_wf.
Qed.

Lemma wf_set_video_service_opt d o v s : wf_server s -> wf_server (set_video_service_opt d o v s).
Proof.
  intros H n sv. cbn. rewrite map_lookup_imap. intros E.
  destruct (services s !! n) as [sv'|] eqn:E'; cbn in E; [|done].
  destruct (H n sv' E') as [Hn Hw].
  repeat case_match; simplify_eq/=; split; try done; by destruct Hw.
Qed.

(** [add_connection] subscribes the connection to exactly the services it
    may use: every service that is not listed in [noperms] and is not a video
    service other than the primary display's.  A connection that was new to
    the server therefore receives from no service of [noperms], whatever the
    order in which the hash map is walked; other connections keep their
    subscriptions. *)
Theorem add_connection_grants primary conn noperms s n i :
  wf_server s ->
  subbed (add_connection primary conn noperms s) n i =
  subbed s n i
  || (Z.eqb i (id conn) && contains n s && bool_decide (n ∉ noperms)
      && (negb (is_video_service_name n) || String.eqb n (get_service_name Monitor primary))).
Proof.
  intros H. unfold subbed, contains. cbn [services add_connection].
  rewrite lookup_fmap. destruct (services s !! n) as [sv|] eqn:E; cbn [fmap option_fmap option_map].
  2:{ rewrite (bool_decide_false (is_Some None)) by (intros [? ?]; done). by rewrite andb_false_r. }
  rewrite (bool_decide_true (is_Some (Some sv))), andb_true_r by eauto.
  destruct (H n sv E) as [-> Hw].
  destruct (is_video_service_name n), (String.eqb n (get_service_name Monitor primary));
    cbn [negb andb orb];
    destruct (decide (n ∈ noperms)) as [Hin|Hin];
    rewrite ?(bool_decide_true (n ∈ noperms)), ?(bool_decide_false (n ∈ noperms)),
            ?(bool_decide_true (n ∉ noperms)), ?(bool_decide_false (n ∉ noperms)) by tauto;
    cbn [negb]; rewrite ?is_subed_on_subscribe, ?andb_false_r, ?orb_false_r, ?andb_true_r;
    try done; apply orb_comm.
Qed.

Lemma subbed_remove_connection conn s n i :
  wf_server s -> subbed (remove_connection conn s) n i = negb (Z.eqb i (id conn)) && subbed s n i.
Proof.
  intros H. unfold subbed, remove_connection; cbn [services]. rewrite lookup_fmap.
  destruct (services s !! n) as [sv|] eqn:E; cbn [fmap option_fmap option_map]; [|by rewrite andb_false_r].
  destruct (H n sv E) as [_ Hw]. by apply is_subed_on_unsubscribe.
Qed.

(** [remove_connection] leaves no trace: whatever subscriptions, display
    switches and snapshots happened before, no service delivers to the
    connection any more, it is gone from the table, and nobody else's
    subscription changes.  (The two subscriber maps of a service are disjoint,
    without which one removal could leave a second entry.) *)
Theorem remove_connection_clears conn s n i :
  wf_server s ->
  subbed (remove_connection conn s) n i = negb (Z.eqb i (id conn)) && subbed s n i
  /\ connections (remove_connection conn s) !! id conn = None
  /\ (forall sv m, services (remove_connection conn s) !! n = Some sv ->
        deliveries_to (id conn) (send m sv) = []).
Proof.
  intros H. split; [|split].
  - by apply subbed_remove_connection.
  - apply lookup_delete_eq.
  - intros sv m E. destruct (wf_remove_connection conn s H n sv E) as [_ Hw].
    rewrite send_deliveries by done.
    cbn in E. rewrite lookup_fmap_Some in E. destruct E as (sv0 & <- & E0).
    destruct (H n sv0 E0) as [_ Hw0].
    pose proof (is_subed_on_unsubscribe (id conn) sv0 (id conn) Hw0) as Hs.
    rewrite Z.eqb_refl in Hs. unfold is_subed in Hs. apply orb_false_iff in Hs as [Hs _].
    apply bool_decide_eq_false in Hs. destruct (subscribes _ !! id conn); [|done].
    exfalso. eauto.
Qed.

(** A small server with an audio service, the clipboard and two displays. *)
Definition demo_server : Server :=
  add_service (new_video_service Monitor 1)
    (add_service (new_video_service Monitor 0)
       (add_service (Service.new "clipboard" false)
          (add_service (Service.new "audio" true) (mkServer ∅ ∅ 1000)))).

Lemma demo_server_wf : wf_server demo_server.
Proof.
  repeat apply wf_add_service; try apply wf_new_video_service; try apply wf_new_service.
  apply map_Forall_empty.
Qed.

Definition demo_conn : ConnInner := mkConnInner 1001 (Some 1) (Some 2).

Lemma add_connection_grants_witness :
  subbed (add_connection 0 demo_conn ["clipboard"] demo_server) "clipboard" 1001 = false
  /\ subbed (add_connection 0 demo_conn ["clipboard"] demo_server) "audio" 1001 = true.
Proof.
  split.
  - by rewrite (add_connection_grants 0 demo_conn ["clipboard"] demo_server "clipboard" 1001 demo_server_wf).
  - by rewrite (add_connection_grants 0 demo_conn ["clipboard"] demo_server "audio" 1001 demo_server_wf).
Defined.

Lemma remove_connection_clears_witness :
  subbed (remove_connection demo_conn (subscribe "audio" demo_conn true demo_server)) "audio" 1001 = false.
Proof.
  apply (remove_connection_clears demo_conn (subscribe "audio" demo_conn true demo_server) "audio" 1001).
  apply wf_subscribe, demo_server_wf.
Defined.

End Server.
