(* ===== verification/VideoService.v ===== *)
(** * The video service ([src/server/video_service.rs])

    The thread that captures a display, encodes the frames and sends them to the
    viewers.  It composes the service and its subscribers ([Service]), the
    control of rate and quality ([VideoQos]), the choice of the codec ([Codec])
    and the displays ([DisplayService]).

    - [Pacing]: the notifications of fetched frames and the wait for them.
    - [Screenshots].
    - [Run]: [begin] is the start of [run], [pass] one round of its loop, [run]
      the rounds until it ends.

    The state shared with other threads is [World]; what they do to the
    subscribers at the points where the service holds no lock is part of the
    inputs.  The capturer's frames are inputs; the encoders are the class
    [EncoderApi]; the session is X11 on Linux. *)

From S2P Require Import Prelude RustStr F32 VideoQos Messages VideoPlayer Service DisplayService Server Codec.

#[local] Open Scope rust_scope.

Module VideoSvc.

Import Msg.

Module S := Service.Service.
Module Q := VideoQos.Qos.
Module C := Codec.Codec.
Module D := DisplayService.Display.
Module P := VideoPlayer.Player.

(** ** Notifications of fetched frames *)

(** [FRAME_FETCHED_NOTIFIERS] (what is in the channel of each display) and
    [DISPLAY_CONN_IDS]. *)
Record Fetches : Type := mkFetches { notifiers : gmap Z (list Z); display_conn_ids : gmap Z (gset Z) }.

(** [new] *)
Definition new_notifier (idx : Z) (f : Fetches) : Fetches :=
  mkFetches (match notifiers f !! idx with Some _ => notifiers f | None => <[ idx := [] ]> (notifiers f) end)
    (display_conn_ids f).

Definition notify_video_frame_fetched (display_idx conn_id : Z) (f : Fetches) : Fetches :=
  mkFetches (alter (fun l => l ++ [conn_id]) display_idx (notifiers f)) (display_conn_ids f).

Definition notify_video_frame_fetched_by_conn_id (conn_id : Z) (f : Fetches) : Fetches :=
  foldr (fun d => notify_video_frame_fetched d conn_id) f
    (omap (fun x : Z * gset Z => if bool_decide (conn_id ∈ x.2) then Some x.1 else None) (map_to_list (display_conn_ids f))).

Definition remove_display_conn_ids (idx : Z) (f : Fetches) : Fetches :=
  mkFetches (notifiers f) (delete idx (display_conn_ids f)).

(** [VideoFrameController], without the time it does not read. *)
Record VideoFrameController : Type := mkController { display_idx : Z; send_conn_ids : gset Z }.

Definition controller_reset (c : VideoFrameController) : VideoFrameController := mkController (display_idx c) ∅.

Definition set_send (ids : gset Z) (c : VideoFrameController) (f : Fetches) : VideoFrameController * Fetches :=
  if bool_decide (ids = ∅) then (c, f)
  else (mkController (display_idx c) ids, mkFetches (notifiers f) (<[ display_idx c := ids ]> (display_conn_ids f))).

(** [try_wait_next]: waits at most 300 milliseconds for a notification and
    takes all that are there; [arrivals] come while it waits. *)
Definition try_wait_next (arrivals : list Z) (c : VideoFrameController) (fetched : gset Z) (f : Fetches)
  : gset Z * Fetches :=
  let f := foldl (fun f i => notify_video_frame_fetched (display_idx c) i f) f arrivals in
  if bool_decide (send_conn_ids c = ∅) then (fetched, f)
  else
    match notifiers f !! display_idx c with
    | None => (fetched, f)
    | Some l => (fetched ∪ list_to_set l, mkFetches (<[ display_idx c := [] ]> (notifiers f)) (display_conn_ids f))
    end.

(** ** Screenshots *)

Record Screenshot : Type := mkScreenshot { sid : string; tx : Z; restore_vram : bool }.

Record PixelBuffer : Type := mkPixelBuffer { pb_width : Z; pb_height : Z; pb_stride : list Z; pb_data : list Z }.

(** One pixel, with the bounds checks of the indexing. *)
Definition pixel (bgra : list Z) (i : Z) : outcome (list Z) :=
  match bgra !! Z.to_nat (i + 2), bgra !! Z.to_nat (i + 1), bgra !! Z.to_nat i, bgra !! Z.to_nat (i + 3) with
  | Some r, Some g, Some b, Some a => Done [r; g; b; a]
  | _, _, _, _ => Panic
  end.

Fixpoint pixels (bgra : list Z) (l : list Z) : outcome (list Z) :=
  match l with
  | [] => Done []
  | i :: l => let! p := pixel bgra i in let! ps := pixels bgra l in Done (p ++ ps)
  end.

Definition range (n : Z) : list Z := map Z.of_nat (seq 0 (Z.to_nat n)).

(** [get_rgba_from_pixelbuf]; [convert] is libyuv's. *)
Definition get_rgba_from_pixelbuf (convert : PixelBuffer -> result (list Z) string) (pb : PixelBuffer)
  : outcome (result (list Z) string) :=
  match pb_stride pb with
  | [] => Done (Err "Invalid pixel buf stride.")
  | s :: _ =>
    if s =? pb_width pb * 4 then Done (convert pb)
    else
      let! l := pixels (pb_data pb) (range (pb_height pb) ≫= fun y => map (fun x => s * y + 4 * x) (range (pb_width pb))) in
      Done (Ok l)
  end.

(** The answer to a screenshot request: its text and its data. *)
Definition handle_screenshot (encode_png : Z -> Z -> list Z -> result (list Z) string) (msg : string) (w h : Z) (data : list Z)
  : string * list Z :=
  if String.eqb msg "" then
    match data with
    | [] => ("Failed to take screenshot, please try again later.", [])
    | _ => match encode_png w h data with
           | Ok png => ("", png)
           | Err e => ("Error encoding png: " +:+ e, [])
           end
    end
  else (msg, []).

(** ** The thread *)

(** [EncoderApi] *)
Class EncoderApi (E : Type) : Type := {
  enc_new : C.EncoderCfg -> bool -> result E string;
  encode_to_message : E -> list Z -> Z -> result (list Z) string * E;     (* a frame in the encoder's format *)
  set_quality : f32 -> E -> E;
  enc_bitrate : E -> Z;
  enc_support_changing_quality : E -> bool;
  latency_free : E -> bool;
  is_hardware : E -> bool }.

Definition ENCODE_NEED_SWITCH : string := "ENCODE_NEED_SWITCH".
Definition OPTION_REFRESH : string := "refresh".
Definition INVALID_PRIVACY_MODE_CONN_ID : Z := 0.

Record CapturerInfo : Type := mkCapturerInfo {
  c_x : Z; c_y : Z; c_width : Z; c_height : Z; ndisplay : Z; current : Z; privacy_mode_id : Z }.

(** The state shared with other threads. *)
Record World : Type := mkWorld {
  sv : S.ServiceInner;
  qos : Q.VideoQoS;
  negotiation : C.Negotiation;
  dsp : D.Displays;
  fetches : Fetches;
  screenshots : gmap Z Screenshot }.

Definition with_sv (s : S.ServiceInner) (w : World) : World := mkWorld s (qos w) (negotiation w) (dsp w) (fetches w) (screenshots w).
Definition with_qos (q : Q.VideoQoS) (w : World) : World := mkWorld (sv w) q (negotiation w) (dsp w) (fetches w) (screenshots w).
Definition with_neg (n : C.Negotiation) (w : World) : World := mkWorld (sv w) (qos w) n (dsp w) (fetches w) (screenshots w).
Definition with_dsp (d : D.Displays) (w : World) : World := mkWorld (sv w) (qos w) (negotiation w) d (fetches w) (screenshots w).
Definition with_fetches (f : Fetches) (w : World) : World := mkWorld (sv w) (qos w) (negotiation w) (dsp w) f (screenshots w).
Definition with_shots (s : gmap Z Screenshot) (w : World) : World := mkWorld (sv w) (qos w) (negotiation w) (dsp w) (fetches w) s.

(** What other threads do to the subscribers and the codec. *)
Inductive Other : Type :=
| Subscribe (c : S.ConnInner) | Unsubscribe (i : Z) | SetOption (k v : string) | Negotiate (u : C.EncodingUpdate).

Definition other (e : C.CodecEnv) (o : Other) (w : World) : World :=
  match o with
  | Subscribe c => with_sv (S.on_subscribe c (sv w)) w
  | Unsubscribe i => with_sv (S.on_unsubscribe i (sv w)) w
  | SetOption k v => with_sv (snd (S.set_option k v (sv w))) w
  | Negotiate u => with_neg (C.update e u (negotiation w)) w
  end.

(** What the thread does, in order; [FrameSent] names the receivers of an
    encoded frame, [Others] is what other threads did. *)
Inductive VOut : Type :=
| Others (o : Other)
| NewEncoder (c : C.EncoderCfg) (i444 : bool)
| FrameSent (ids : gset Z) (data : list Z)
| Deliver (l : list S.Delivery)
| DisableEncoder
| ScreenshotSent (tx : Z) (sid msg : string) (data : list Z).

Definition others (e : C.CodecEnv) (l : list Other) (w : World) : list VOut * World :=
  (map Others l, foldl (fun w o => other e o w) w l).

Section Thread.
Context {E : Type} {EA : EncoderApi E}.

Record RunState : Type := mkRunState {
  enc : E;
  encoder_cfg : C.EncoderCfg;
  codec_format : P.CodecFormat;
  r_use_i444 : bool;
  quality : f32;
  client_record : bool;
  cap : CapturerInfo;
  controller : VideoFrameController;
  last_check_displays : Z;
  start : Z;
  yuv : list Z;                        (* the last converted frame *)
  repeat_encode_counter : Z;
  encode_fail_counter : Z;
  first_frame : bool;
  second_instant : Z;
  r_send_counter : Z }.

(** Constants of the service. *)
Record Svc : Type := mkSvc {
  source : Server.VideoSource;
  idx : Z;
  cenv : C.CodecEnv;
  resolutions : string -> list (Z * Z);
  is_cursor_embedded : bool;
  convert : PixelBuffer -> result (list Z) string;
  encode_png : Z -> Z -> list Z -> result (list Z) string }.

Context (v : Svc).

Definition name : string := Server.get_service_name (source v) (idx v).

(** *** The encoder *)

Definition get_encoder_config (c : CapturerInfo) (q : f32) (record : bool) (w : World) : C.EncoderCfg :=
  let size := C.mkEncoderSize (c_width c) (c_height c) q (if record then Some 240 else None) in
  let n := C.negotiated_codec (negotiation w) in
  match n with
  | P.H264 | P.H265 =>
    match C.hw_encoder (cenv v) n with
    | Some hw => C.HWRAM hw size
    | None => C.VPX C.IdVP9 size
    end
  | P.VP8 => C.VPX C.IdVP8 size
  | P.VP9 => C.VPX C.IdVP9 size
  | P.AV1 => C.AOM size
  | P.Unknown => C.VPX C.IdVP9 size
  end.

(** [Encoder::new]: a hardware encoder that cannot be made sets the codec back. *)
Definition encoder_new (c : C.EncoderCfg) (i444 : bool) (w : World) : result E string * World :=
  match enc_new c i444 with
  | Ok e => (Ok e, w)
  | Err err =>
    (Err err,
     match c with
     | C.HWRAM _ _ => with_neg (C.mkNegotiation (C.peer_decodings (negotiation w)) P.VP9 (C.usable_encoding (negotiation w))) w
     | _ => w
     end)
  end.

Definition setup_encoder (c : CapturerInfo) (q : f32) (record record_incoming : bool) (w : World)
  : result (E * C.EncoderCfg * P.CodecFormat * bool) string * World :=
  let cfg := get_encoder_config c q (record || record_incoming) w in
  let w := with_neg (C.set_fallback cfg (negotiation w)) w in
  let codec_format := C.negotiated_codec (negotiation w) in
  let i444 := C.use_i444 (cenv v) cfg (negotiation w) in
  match encoder_new cfg i444 w with
  | (Ok e, w) => (Ok (e, cfg, codec_format, i444), w)
  | (Err err, w) => (Err err, w)
  end.

(** *** The start of [run] *)

Definition raii_new (w : World) : World := with_qos (Q.new_display (qos w) name) w.
Definition raii_drop (w : World) : World :=
  with_fetches (remove_display_conn_ids (idx v) (fetches w)) (with_qos (Q.remove_display (qos w) name) w).

Record BeginEnv : Type := mkBeginEnv {
  b_now : Z;
  b_capturer : result CapturerInfo string;
  allow_auto_record_incoming : bool }.

Definition begin (e : BeginEnv) (w : World) : result (list VOut * RunState) string * World :=
  let w := raii_new w in
  match b_capturer e with
  | Err err => (Err err, w)
  | Ok c =>
    let '(q, qos') := Q.get_ratio (qos w) in
    let w := with_qos qos' w in
    let record := Q.any_record (qos w) in
    let '(res, w) :=
      match setup_encoder c q record (allow_auto_record_incoming e) w with
      | (Ok r, w) => (Ok r, w)
      | (Err _, w) =>
        let w := with_neg (C.set_fallback (C.VPX C.IdVP9 (C.mkEncoderSize (c_width c) (c_height c) q None)) (negotiation w)) w in
        setup_encoder c q record (allow_auto_record_incoming e) w
      end in
    match res with
    | Err err => (Err err, w)
    | Ok (en, cfg, f, i444) =>
      let w := with_qos (Q.set_support_changing_quality (Q.store_bitrate (qos w) (enc_bitrate en)) name
                           (enc_support_changing_quality en)) w in
      let w := if S.is_option_true OPTION_REFRESH (sv w) then with_sv (S.set_option_bool OPTION_REFRESH false (sv w)) w else w in
      (Ok ([NewEncoder cfg i444],
           mkRunState en cfg f i444 q record c (mkController (idx v) ∅) (b_now e) (b_now e) [] 0 0 true (b_now e) 0), w)
    end
  end.

(** *** One round *)

Inductive Captured : Type :=
| Frame (pb : option PixelBuffer) (yuv : result (list Z) string)   (* [None]: not valid; and its conversion *)
| WouldBlock
| CapError (err : string).

Record PassEnv : Type := mkPassEnv {
  now : Z;                                 (* milliseconds *)
  qos_now : Z;                             (* the clock of the controller *)
  privacy_conn_id : option Z;
  all_displays : result (list D.RawDisplay) string;
  captured : Captured;
  others_found : list Other;               (* between the test of a snapshot and its callback *)
  others_checked : list Other;             (* between the callback and the swap *)
  others_mid : list Other;                 (* between the snapshot and the sending of the frame *)
  others_end : list Other;                 (* during the wait *)
  wait_begin : Z;
  waits : list (Z * option Z * list Z) }.  (* time, connection in privacy mode, notifications *)

(** The rest of a round: it goes on, or [run] ends with an error. *)
Inductive Flow (A : Type) : Type := Go (a : A) | Bail (err : string).
#[global] Arguments Go {A} a.
#[global] Arguments Bail {A} err.

Definition M (A : Type) : Type := World -> outcome (list VOut * Flow A * World).
Definition mret {A} (a : A) : M A := fun w => Done ([], Go a, w).
Definition bail {A} (err : string) : M A := fun w => Done ([], Bail err, w).
Definition mbind {A B} (m : M A) (k : A -> M B) : M B := fun w =>
  let! (o, f, w) := m w in
  match f with
  | Go a => let! (o', g, w) := k a w in Done (o ++ o', g, w)
  | Bail err => Done (o, Bail err, w)
  end.
Definition upd (f : World -> World) : M unit := fun w => Done ([], Go tt, f w).
Definition get {A} (f : World -> A) : M A := fun w => Done ([], Go (f w), w).
Definition say (o : list VOut) : M unit := fun w => Done (o, Go tt, w).

Notation "x <- m ;; k" := (mbind m (fun x => k)) (at level 90, m at next level, right associativity).

Definition SWITCH : string := "SWITCH".

Definition feqb (x y : f32) : bool := SFeqb x y.

(** The first half of [check_qos]: a new quality is given to the encoder, or
    the run must end ([true]). *)
Definition adjust_quality (r : RunState) (q0 : Q.VideoQoS) : E * f32 * Q.VideoQoS * bool :=
  let '(q, q1) := Q.get_ratio q0 in
  if feqb (quality r) q then (enc r, quality r, q1, false)
  else if enc_support_changing_quality (enc r)
  then let en := set_quality q (enc r) in (en, q, Q.store_bitrate q1 (enc_bitrate en), false)
  else (enc r, q, q1,
        negb (Q.in_vbr_state q1) && negb (match Q.latest_quality q1 with Q.Custom _ => true | _ => false end)).

Definition check_qos (e : PassEnv) (r : RunState) : M RunState := fun w =>
  let '(en, q, q2, stop) := adjust_quality r (qos w) in
  if stop then Done ([], Bail SWITCH, with_qos q2 w)
  else if negb (Bool.eqb (client_record r) (Q.any_record q2)) then Done ([], Bail SWITCH, with_qos q2 w)
  else
    let due := 1000 <? now e - second_instant r in
    let! q3 := if due then Q.update_display_data q2 (qos_now e) name (r_send_counter r) else Done q2 in
    Done ([], Go (mkRunState en (encoder_cfg r) (codec_format r) (r_use_i444 r) q (client_record r) (cap r)
                    (controller r) (last_check_displays r) (start r) (yuv r) (repeat_encode_counter r)
                    (encode_fail_counter r) (first_frame r) (if due then now e else second_instant r)
                    (if due then 0 else r_send_counter r)), with_qos q3 w).

(** [make_display_changed_msg] of a monitor, for a known display. *)
Definition make_display_changed_msg (d : DisplayInfo) : Message :=
  MMisc (MSwitchDisplay (mkSwitchDisplay (i32 (idx v)) (di_x d) (di_y d) (di_width d) (di_height d) (is_cursor_embedded v)
    (if String.eqb (di_name d) "" then [] else resolutions v (di_name d)) (di_original_resolution d))).

(** [.ok()] of a step that may bail. *)
Definition attempt (m : M unit) : M unit := fun w =>
  let! (o, _, w) := m w in Done (o, Go tt, w).

Definition run_others (l : list Other) : M unit := fun w => let '(o, w) := others (cenv v) l w in Done (o, Go tt, w).

(** [sp.snapshot]: the swap happens also when the callback bails. *)
Definition service_snapshot (e : PassEnv) (callback : M unit) : M unit := fun w =>
  if S.has_new_subscribes (sv w) then
    let! (o1, _, w) := run_others (others_found e) w in
    let! (o2, f, w) := callback w in
    let! (o3, _, w) := run_others (others_checked e) w in
    Done (o1 ++ o2 ++ o3, f, with_sv (S.swap_new_subscribes (sv w)) w)
  else Done ([], Go tt, w).

Definition try_broadcast_display_changed (e : PassEnv) (c : CapturerInfo) (refresh : bool) : M unit := fun w =>
  let w := if refresh then with_dsp (snd (D.check_displays_changed true (all_displays e) (dsp w))) w else w in
  match D.check_display_changed true (ndisplay c) (current c) (c_x c) (c_y c) (c_width c) (c_height c) (dsp w) with
  | None => Done ([], Go tt, w)
  | Some d =>
    let m := make_display_changed_msg d in
    (_ <- say [Deliver (S.send_shared m (sv w))] ;;
     _ <- service_snapshot e (fun w => Done ([Deliver (S.send_new_subscribes (sv w) m)], Go tt, w)) ;;
     bail SWITCH) w
  end.

Definition check_privacy_mode_changed (e : PassEnv) (conn : option Z) (c : CapturerInfo) : M unit :=
  let id2 := unwrap_or INVALID_PRIVACY_MODE_CONN_ID conn in
  if privacy_mode_id c =? id2 then mret tt
  else
    _ <- (if id2 =? INVALID_PRIVACY_MODE_CONN_ID then mret tt
          else fun w => Done ([Deliver (S.send_to_others (MMisc (BackPrivacyMode PrvOnByOther "" "")) id2 (sv w))], Go tt, w)) ;;
    _ <- attempt (try_broadcast_display_changed e c true) ;;
    bail SWITCH.

(** [handle_one_frame]: the snapshot for new subscribers, then the frame. *)
Definition with_encoder (en : E) (fails : Z) (r : RunState) : RunState :=
  mkRunState en (encoder_cfg r) (codec_format r) (r_use_i444 r) (quality r) (client_record r) (cap r)
    (controller r) (last_check_displays r) (start r) (yuv r) (repeat_encode_counter r) fails false
    (second_instant r) (r_send_counter r).

Definition snapshot_for_new (e : PassEnv) : M unit :=
  service_snapshot e (fun w => if D.has_old_subscribes (sv w) then bail SWITCH w else mret tt w).

Definition send_frame (data : list Z) : M (gset Z) := fun w =>
  let '(ids, ds) := S.send_video_frame (MVideoFrame (idx v) data) (sv w) in
  Done ([FrameSent ids data; Deliver ds], Go ids, w).

Definition handle_one_frame (e : PassEnv) (frame : list Z) (ms : Z) (r : RunState) : M (gset Z * RunState) :=
  _ <- snapshot_for_new e ;;
  _ <- run_others (others_mid e) ;;
  let first := first_frame r in
  match encode_to_message (enc r) frame ms with
  | (Ok data, en) =>
    ids <- send_frame data ;;
    mret (ids, with_encoder en 0 r)
  | (Err err, en) =>
    let fails := encode_fail_counter r + 1 in
    let limit := (first && latency_free en) || (3 <=? fails) in
    let fails' := if limit then 0 else fails in
    if limit && is_hardware en then _ <- say [DisableEncoder] ;; bail SWITCH
    else if String.eqb err ENCODE_NEED_SWITCH then _ <- say [DisableEncoder] ;; bail SWITCH
    else mret (∅, with_encoder en fails' r)
  end.

Definition sent_to (ids : gset Z) (r : RunState) : M RunState := fun w =>
  let '(c, f) := set_send ids (controller r) (fetches w) in
  Done ([], Go (mkRunState (enc r) (encoder_cfg r) (codec_format r) (r_use_i444 r) (quality r) (client_record r) (cap r)
                  c (last_check_displays r) (start r) (yuv r) (repeat_encode_counter r)
                  (encode_fail_counter r) (first_frame r) (second_instant r) (u64 (r_send_counter r + 1))), with_fetches f w).

(** The pending screenshot of this display is answered from the frame. *)
Definition answer_screenshot (pb : PixelBuffer) : M unit := fun w =>
  match screenshots w !! idx v with
  | None => Done ([], Go tt, w)
  | Some s =>
    let w := with_shots (delete (idx v) (screenshots w)) w in
    let! rgba := get_rgba_from_pixelbuf (convert v) pb in
    let '(msg, wd, h, data) := match rgba with
                               | Ok l => ("", pb_width pb, pb_height pb, l)
                               | Err err => ("Convert pixfmt: " +:+ err, 0, 0, [])
                               end in
    let '(msg, data) := handle_screenshot (encode_png v) msg wd h data in
    Done ([ScreenshotSent (tx s) (sid s) msg data], if restore_vram s then Bail SWITCH else Go tt, w)
  end.

Definition set_yuv (l : list Z) (repeat : Z) (r : RunState) : RunState :=
  mkRunState (enc r) (encoder_cfg r) (codec_format r) (r_use_i444 r) (quality r) (client_record r) (cap r)
    (controller r) (last_check_displays r) (start r) l repeat
    (encode_fail_counter r) (first_frame r) (second_instant r) (r_send_counter r).

Definition repeat_encode_max : Z := 10.

Definition on_captured (e : PassEnv) (r : RunState) : M RunState :=
  let ms := now e - start r in
  match captured e with
  | Frame None _ => mret (set_yuv (yuv r) 0 r)
  | Frame (Some pb) conv =>
    _ <- answer_screenshot pb ;;
    match conv with
    | Err err => bail err
    | Ok y =>
      x <- handle_one_frame e y ms (set_yuv y 0 r) ;;
      sent_to x.1 x.2
    end
  | WouldBlock =>
    if negb (latency_free (enc r)) && negb (bool_decide (yuv r = [])) && (repeat_encode_counter r <? repeat_encode_max) then
      x <- handle_one_frame e (yuv r) ms (set_yuv (yuv r) (repeat_encode_counter r + 1) r) ;;
      sent_to x.1 x.2
    else mret r
  | CapError err =>
    _ <- (if Server.is_monitor (source v) then try_broadcast_display_changed e (cap r) true else mret tt) ;;
    bail err
  end.

Definition timeout_millis : Z := 3000.

(** The wait for the viewers; a list of rounds that is used up means that the
    thread still waits. *)
Fixpoint wait_fetched (e : PassEnv) (begin_ : Z) (ws : list (Z * option Z * list Z)) (r : RunState) (fetched : gset Z)
  : M (option (gset Z)) :=
  match ws with
  | [] => mret None
  | (t, conn, arrivals) :: ws =>
    if timeout_millis <=? t - begin_ then mret (Some fetched)
    else
      _ <- (if Server.is_monitor (source v) then check_privacy_mode_changed e conn (cap r) else mret tt) ;;
      fetched <- (fun w => let '(s, f) := try_wait_next arrivals (controller r) fetched (fetches w) in
                           Done ([], Go s, with_fetches f w)) ;;
      if (stdpp.base.size (send_conn_ids (controller r)) <=? stdpp.base.size fetched)%nat then mret (Some fetched)
      else wait_fetched e begin_ ws r fetched
  end.

(** One round of the loop of [run], for a service that has subscribers. *)
Definition pass (e : PassEnv) (r : RunState) : M (RunState * option (gset Z)) :=
  r <- check_qos e r ;;
  refresh <- get (fun w => S.is_option_true OPTION_REFRESH (sv w)) ;;
  if (refresh : bool) then
    _ <- (if Server.is_monitor (source v) then attempt (try_broadcast_display_changed e (cap r) true) else mret tt) ;;
    bail SWITCH
  else
    neg <- get negotiation ;;
    if negb (bool_decide (codec_format r = C.negotiated_codec neg)) then bail SWITCH
    else if negb (Bool.eqb (C.use_i444 (cenv v) (encoder_cfg r) neg) (r_use_i444 r)) then bail SWITCH
    else
      _ <- (if Server.is_monitor (source v) then check_privacy_mode_changed e (privacy_conn_id e) (cap r) else mret tt) ;;
      let due := Server.is_monitor (source v) && (1000 <? now e - last_check_displays r) in
      _ <- (if due then try_broadcast_display_changed e (cap r) false else mret tt) ;;
      let r := mkRunState (enc r) (encoder_cfg r) (codec_format r) (r_use_i444 r) (quality r) (client_record r) (cap r)
                 (controller_reset (controller r)) (if due then now e else last_check_displays r) (start r) (yuv r)
                 (repeat_encode_counter r) (encode_fail_counter r) (first_frame r) (second_instant r) (r_send_counter r) in
      r <- on_captured e r ;;
      _ <- run_others (others_end e) ;;
      fetched <- wait_fetched e (wait_begin e) (waits e) r ∅ ;;
      _ <- upd (fun w => with_fetches (remove_display_conn_ids (idx v) (fetches w)) w) ;;
      mret (r, fetched).

(** How a run stands after some rounds. *)
Inductive Ending : Type := Running (r : RunState) | Ended (res : result unit string).

Fixpoint rounds (es : list PassEnv) (r : RunState) (w : World) : outcome (list VOut * Ending * World) :=
  if negb (S.ok (sv w)) then Done ([], Ended (Ok tt), raii_drop w)
  else
    match es with
    | [] => Done ([], Running r, w)
    | e :: es =>
      let! (o, f, w) := pass e r w in
      match f with
      | Bail err => Done (o, Ended (Err err), raii_drop w)
      | Go (r, None) => Done (o, Running r, w)
      | Go (r, Some _) => let! (o', x, w) := rounds es r w in Done (o ++ o', x, w)
      end
    end.

(** [run] *)
Definition run (b : BeginEnv) (es : list PassEnv) (w : World) : outcome (list VOut * Ending * World) :=
  match begin b w with
  | (Err err, w) => Done ([], Ended (Err err), raii_drop w)
  | (Ok (o, r), w) => let! (o', x, w) := rounds es r w in Done (o ++ o', x, w)
  end.

End Thread.

Definition set_take_screenshot (display : Z) (s : string) (tx_ : Z) (w : World) : World :=
  with_shots (<[ display := mkScreenshot s tx_ false ]> (screenshots w)) w.

End VideoSvc.
