(* ===== verification/VideoServiceProofs.v ===== *)
(** * Theorems about the video service

    - who gets the frames of an encoder: only viewers that have got them from
      its first frame on, as long as the viewers do not change completely
      between two frames; and what happens when they do;
    - the frames are sent in the codec negotiated at that time;
    - a run that ends leaves nothing behind. *)

From S2P Require Import Prelude RustStr F32 VideoQos Messages VideoPlayer Service DisplayService Server Codec VideoService.

Module VideoFacts.

Import Msg VideoSvc.

(** ** Frames and their receivers *)

(** Every frame goes to viewers that also got the previous one, unless all who
    got the previous one have left since. *)
Fixpoint continuous (prev : option (gset Z)) (gone : gset Z) (l : list VOut) : Prop :=
  match l with
  | [] => True
  | FrameSent ids _ :: l =>
    match prev with Some p => ids ⊆ p \/ p ⊆ gone | None => True end /\ continuous (Some ids) ∅ l
  | Others (Unsubscribe i) :: l => continuous prev ({[ i ]} ∪ gone) l
  | _ :: l => continuous prev gone l
  end.

(** The last receivers and those who have left, after some steps. *)
Fixpoint after (prev : option (gset Z)) (gone : gset Z) (l : list VOut) : option (gset Z) * gset Z :=
  match l with
  | [] => (prev, gone)
  | FrameSent ids _ :: l => after (Some ids) ∅ l
  | Others (Unsubscribe i) :: l => after prev ({[ i ]} ∪ gone) l
  | _ :: l => after prev gone l
  end.

Lemma continuous_app prev gone l l' :
  continuous prev gone (l ++ l')
  <-> continuous prev gone l /\ let '(p, g) := after prev gone l in continuous p g l'.
Proof.
  revert prev gone. induction l as [|x l IH]; intros prev gone; cbn [app continuous after]; [tauto|].
  destruct x as [[]| | | | |]; rewrite IH; tauto.
Qed.

Lemma after_app prev gone l l' :
  after prev gone (l ++ l') = let '(p, g) := after prev gone l in after p g l'.
Proof.
  revert prev gone. induction l as [|x l IH]; intros prev gone; cbn [app after]; [done|].
  destruct x as [[]| | | | |]; apply IH.
Qed.

(** Outputs that are neither frames nor departures. *)
Definition plain (o : VOut) : Prop :=
  match o with FrameSent _ _ | Others (Unsubscribe _) => False | _ => True end.

Lemma plain_after prev gone l : Forall plain l -> continuous prev gone l /\ after prev gone l = (prev, gone).
Proof.
  revert prev gone. induction l as [|x l IH]; intros prev gone H; [done|]. apply Forall_cons in H as [Hx H].
  destruct x as [[]| | | | |]; try done; by apply IH.
Qed.

(** Only a frame can interrupt. *)
Definition frameless (o : VOut) : Prop := match o with FrameSent _ _ => False | _ => True end.

Lemma frameless_continuous prev gone l : Forall frameless l -> continuous prev gone l.
Proof.
  intros H. revert prev gone. induction H as [|x l Hx _ IH]; intros prev gone; [done|].
  destruct x as [[]| | | | |]; try done; apply IH.
Qed.

Lemma plain_frameless l : Forall plain l -> Forall frameless l.
Proof. intros H. eapply Forall_impl; [exact H|]. by intros [[]| | | | |]. Qed.

(** How the subscribers stand to the last receivers. *)
Record tracked (prev : option (gset Z)) (gone : gset Z) (s : S.ServiceInner) : Prop := mkTracked {
  tr_wf : S.wf s;
  tr_snap : S.need_snapshot s = true;
  tr_prev : forall p, prev = Some p ->
              p ⊆ dom (S.subscribes s) ∪ gone /\ (dom (S.subscribes s) ⊆ p \/ p ⊆ gone) }.

Lemma tracked_subscribe prev gone c s : tracked prev gone s -> tracked prev gone (S.on_subscribe c s).
Proof.
  intros [H1 H2 H3]. split; [by apply S.wf_on_subscribe|..]; unfold S.on_subscribe; destruct (_ !! _); rewrite ?H2; try done.
Qed.

Lemma tracked_unsubscribe prev gone i s :
  tracked prev gone s -> tracked prev ({[ i ]} ∪ gone) (S.on_unsubscribe i s).
Proof.
  intros [H1 H2 H3]. split; [by apply S.wf_on_unsubscribe|by unfold S.on_unsubscribe; destruct (_ !! _)|].
  intros p Hp. destruct (H3 p Hp) as [H4 H5]. unfold S.on_unsubscribe.
  destruct (S.subscribes s !! i) as [c|] eqn:E; cbn [S.subscribes S.with_subs].
  - rewrite dom_delete_L. split; [|destruct H5; set_solver].
    intros x Hx. specialize (H4 x Hx). destruct (decide (x = i)); set_solver.
  - split; [set_solver|destruct H5; set_solver].
Qed.

Lemma tracked_frame prev gone s :
  tracked prev gone s ->
  match prev with Some p => dom (S.subscribes s) ⊆ p \/ p ⊆ gone | None => True end
  /\ tracked (Some (dom (S.subscribes s))) ∅ s.
Proof.
  intros [H1 H2 H3]. split.
  - destruct prev as [p|]; [|done]. by destruct (H3 p eq_refl).
  - split; [done..|]. intros p [= <-]. split; [set_solver|by left].
Qed.

Lemma old_subscribes_none s : D.has_old_subscribes s = false -> S.subscribes s = ∅.
Proof. apply S.size_pos_nonempty. Qed.

Lemma tracked_swap prev gone s :
  tracked prev gone s -> S.subscribes s = ∅ -> tracked prev gone (S.swap_new_subscribes s).
Proof.
  intros [H1 H2 H3] Ho. split; [by apply S.wf_swap|done|].
  intros p Hp. destruct (H3 p Hp) as [H4 _]. rewrite Ho, dom_empty_L in H4.
  assert (p ⊆ gone) by set_solver. split; [set_solver|by right].
Qed.

Lemma frame_receivers s : S.wf s -> forall m, (S.send_video_frame m s).1 = dom (S.subscribes s).
Proof.
  intros [Hf _ _ _] m. unfold S.send_video_frame, S.send_video_frame_shared, S.values. cbn [fst].
  apply set_eq. intros i. rewrite elem_of_dom.
  transitivity (exists c, c ∈ (map_to_list (S.subscribes s)).*2 /\ S.id c = i).
  - generalize ((map_to_list (S.subscribes s)).*2). intros l. induction l as [|c l IH]; cbn [foldr].
    + split; [by intros H%elem_of_empty|]. intros (c & H & _). by apply elem_of_nil in H.
    + rewrite elem_of_union, elem_of_singleton, IH. setoid_rewrite elem_of_cons. naive_solver.
  - split.
    + intros (c & Hc & <-). apply list_elem_of_fmap in Hc as ([j c'] & -> & Hj). apply elem_of_map_to_list in Hj.
      cbn. rewrite (Hf _ _ Hj). eauto.
    + intros [c Hc]. exists c. split; [|by apply (Hf _ _ Hc)]. apply list_elem_of_fmap. exists (i, c). split; [done|].
      by apply elem_of_map_to_list.
Qed.

Section Thread.
Context {E : Type} {EA : EncoderApi E}.
Context (v : Svc).

(** A step that keeps frames continuous and, if the run goes on, the relation. *)
Definition steady {A} (m : M A) : Prop := forall prev gone w o f w',
  tracked prev gone (sv w) -> m w = Done (o, f, w') ->
  continuous prev gone o
  /\ match f with Go _ => let '(p, g) := after prev gone o in tracked p g (sv w') | Bail _ => True end.

Lemma steady_bind {A B} (m : M A) (k : A -> M B) : steady m -> (forall a, steady (k a)) -> steady (mbind m k).
Proof using.
  intros Hm Hk prev gone w o f w' Ht. unfold mbind, outcome_bind.
  destruct (m w) as [[[o1 f1] w1]|] eqn:E1; [|done]. destruct (Hm _ _ _ _ _ _ Ht E1) as [H1 H2].
  destruct f1 as [a|err].
  - destruct (k a w1) as [[[o2 f2] w2]|] eqn:E2; [|done]. intros [= <- <- <-].
    rewrite continuous_app, after_app. destruct (after prev gone o1) as [p g].
    destruct (Hk a _ _ _ _ _ _ H2 E2) as [H3 H4]. split; [by split|exact H4].
  - intros [= <- <- <-]. by split.
Qed.

(** A step that leaves the subscribers alone. *)
Lemma steady_same {A} (m : M A) :
  (forall w o f w', m w = Done (o, f, w') -> Forall plain o /\ sv w' = sv w) -> steady m.
Proof using.
  intros H prev gone w o f w' Ht E1. destruct (H _ _ _ _ E1) as [Hp Hs].
  destruct (plain_after prev gone o Hp) as [Hc Ha]. split; [done|]. rewrite Ha, Hs. by destruct f.
Qed.

(** A step that always ends the run. *)
Lemma steady_bail {A} (m : M A) :
  (forall w o f w', m w = Done (o, f, w') -> Forall frameless o /\ exists err, f = Bail err) -> steady m.
Proof using.
  intros H prev gone w o f w' Ht E1. destruct (H _ _ _ _ E1) as [Hp [err ->]].
  split; [by apply frameless_continuous|done].
Qed.

Lemma steady_ret {A} (a : A) : steady (mret a).
Proof using. apply steady_same. intros w o f w' [= <- <- <-]. by split. Qed.

Lemma steady_stop {A} err : steady (@bail A err).
Proof using. apply steady_bail. intros w o f w' [= <- <- <-]. eauto. Qed.

Lemma steady_get {A} (f : World -> A) : steady (get f).
Proof using. apply steady_same. intros w o g w' [= <- <- <-]. by split. Qed.

Lemma steady_say o : Forall plain o -> steady (say o).
Proof using. intros H. apply steady_same. intros w o' f w' [= <- <- <-]. by split. Qed.

Lemma qos_shape e r w o f w' : check_qos v e r w = Done (o, f, w') ->
  o = [] /\ exists q, w' = with_qos q w.
Proof using.
  unfold check_qos. destruct (adjust_quality r (qos w)) as [[[en q] q2] stop].
  destruct stop; [intros [= <- _ <-]; eauto|]. destruct (negb _); [intros [= <- _ <-]; eauto|].
  unfold outcome_bind. destruct (if 1000 <? _ then _ else _) as [q3|]; [|done]. intros [= <- _ <-]. eauto.
Qed.

Lemma steady_qos e r : steady (check_qos v e r).
Proof using. apply steady_same. intros w o f w' H. apply qos_shape in H as (-> & q & ->). by split. Qed.

Lemma others_frameless l w o f w' : run_others v l w = Done (o, f, w') -> Forall frameless o.
Proof using.
  unfold run_others, others. intros [= <- _ _]. induction l as [|x l IH]; constructor; [by destruct x|done].
Qed.

Lemma snapshot_frameless e callback w o f w' :
  (forall w o f w', callback w = Done (o, f, w') -> Forall frameless o) ->
  service_snapshot v e callback w = Done (o, f, w') -> Forall frameless o.
Proof using.
  intros Hc. unfold service_snapshot, outcome_bind. destruct (S.has_new_subscribes _); [|by intros [= <- _ _]].
  destruct (run_others v (others_found e) w) as [[[o1 f1] w1]|] eqn:E1; [|done].
  destruct (callback w1) as [[[o2 f2] w2]|] eqn:E2; [|done].
  destruct (run_others v (others_checked e) w2) as [[[o3 f3] w3]|] eqn:E3; [|done]. intros [= <- _ _].
  apply others_frameless in E1, E3. apply Hc in E2. by rewrite !Forall_app.
Qed.

(** A broadcast ends the run if it sends anything. *)
Lemma broadcast_shape e c b w o f w' : try_broadcast_display_changed v e c b w = Done (o, f, w') ->
  Forall frameless o /\ (o = [] /\ sv w' = sv w \/ exists err, f = Bail err).
Proof using.
  unfold try_broadcast_display_changed.
  destruct b; (destruct (D.check_display_changed _ _ _ _ _ _ _ _) as [d|];
    [|intros [= <- _ <-]; split; [constructor|by left]]);
    (unfold mbind, say, outcome_bind, bail;
     destruct (service_snapshot _ _ _ _) as [[[o1 f1] w1]|] eqn:E1; [|done];
     apply snapshot_frameless in E1; [|intros ? ? ? ? [= <- _ _]; by repeat constructor];
     destruct f1; intros [= <- <- <-]; rewrite ?app_nil_r; (split; [by constructor|right; eauto])).
Qed.

Lemma steady_broadcast e c b : steady (try_broadcast_display_changed v e c b).
Proof using.
  intros prev gone w o f w' Ht E1. destruct (broadcast_shape _ _ _ _ _ _ _ E1) as [Hp Hs].
  split; [by apply frameless_continuous|].
  destruct Hs as [[-> ->] |[err ->]]; [by destruct f|done].
Qed.

(** A broadcast whose result is ignored, before the run ends. *)
Lemma steady_attempt_stop {A} e c b err :
  steady (mbind (attempt (try_broadcast_display_changed v e c b)) (fun _ => @bail A err)).
Proof using.
  apply steady_bail. intros w o f w'. unfold mbind, attempt, outcome_bind.
  destruct (try_broadcast_display_changed v e c b w) as [[[o1 f1] w1]|] eqn:E1; [|done].
  intros [= <- <- <-]. rewrite app_nil_r. split; [by eapply broadcast_shape|eauto].
Qed.

Lemma steady_privacy e conn c : steady (check_privacy_mode_changed v e conn c).
Proof using.
  unfold check_privacy_mode_changed. destruct (_ =? _); [apply steady_ret|]. apply steady_bind.
  - destruct (_ =? _); [apply steady_ret|]. apply steady_same. intros w o f w' [= <- _ <-]. by repeat constructor.
  - intros _. apply steady_attempt_stop.
Qed.

Lemma steady_others l : steady (run_others v l).
Proof using.
  intros prev gone w o f w' Ht. unfold run_others, others. intros [= <- <- <-].
  revert prev gone w Ht. induction l as [|x l IH]; intros prev gone w Ht; cbn [map continuous after foldl]; [done|].
  destruct x as [c|i|k x|u]; apply IH; cbn [other sv with_sv with_neg]; try done.
  - by apply tracked_subscribe.
  - by apply tracked_unsubscribe.
  - destruct Ht as [H1 H2 H3]. split; [|done..]. by destruct H1.
Qed.

Lemma others_no_old l w o f w' prev gone :
  tracked prev gone (sv w) -> S.subscribes (sv w) = ∅ -> run_others v l w = Done (o, f, w') ->
  S.subscribes (sv w') = ∅.
Proof using.
  intros [_ Hn _] Hs. unfold run_others, others. intros [= _ _ <-].
  assert (forall l w, S.need_snapshot (sv w) = true -> S.subscribes (sv w) = ∅ ->
            S.subscribes (sv (foldl (fun w x => other (cenv v) x w) w l)) = ∅) as H; [|by apply H].
  clear. induction l as [|x l IH]; intros w Hn Hs; [done|]. cbn [foldl].
  apply IH; destruct x as [c|i|k x|u]; cbn [other sv with_sv with_neg]; try done.
  - unfold S.on_subscribe. rewrite Hs, lookup_empty, Hn. done.
  - unfold S.on_unsubscribe. by rewrite Hs, lookup_empty.
  - unfold S.on_subscribe. by rewrite Hs, lookup_empty, Hn.
  - unfold S.on_unsubscribe. by rewrite Hs, lookup_empty.
Qed.

Lemma steady_snapshot e : steady (snapshot_for_new v e).
Proof using.
  intros prev gone w o f w' Ht E0. split.
  { apply frameless_continuous. eapply snapshot_frameless; [|exact E0]. cbn.
    intros w1 o1 f1 w1'. destruct (D.has_old_subscribes _); intros [= <- _ _]; constructor. }
  revert E0. unfold snapshot_for_new, service_snapshot, outcome_bind.
  destruct (S.has_new_subscribes _); [|by intros [= <- <- <-]].
  destruct (run_others v (others_found e) w) as [[[o1 f1] w1]|] eqn:E1; [|done].
  destruct (steady_others _ _ _ _ _ _ _ Ht E1) as [_ H1].
  assert (f1 = Go tt) as -> by (unfold run_others, others in E1; by injection E1 as _ <- _).
  destruct (D.has_old_subscribes (sv w1)) eqn:Eo; cbn [bail mret].
  { destruct (run_others v (others_checked e) w1) as [[[o3 f3] w3]|]; [|done]. by intros [= _ <- _]. }
  destruct (run_others v (others_checked e) w1) as [[[o3 f3] w3]|] eqn:E3; [|done]. intros [= <- <- <-]. cbn [app].
  rewrite after_app. destruct (after prev gone o1) as [p g]. apply old_subscribes_none in Eo.
  destruct (steady_others _ _ _ _ _ _ _ H1 E3) as [_ H3].
  assert (f3 = Go tt) as -> by (unfold run_others, others in E3; by injection E3 as _ <- _).
  destruct (after p g o3) as [p3 g3]. cbn [sv with_sv]. apply tracked_swap; [done|].
  eapply others_no_old; [exact H1|exact Eo|exact E3].
Qed.

Lemma steady_frame data : steady (send_frame v data).
Proof using.
  intros prev gone w o f w' Ht. unfold send_frame.
  pose proof (frame_receivers (sv w) (tr_wf _ _ _ Ht) (MVideoFrame (idx v) data)) as Hr.
  destruct (S.send_video_frame _ _) as [ids ds]. cbn [fst] in Hr. subst ids. intros [= <- <- <-].
  destruct (tracked_frame _ _ _ Ht) as [H1 H2]. split; [by split|done].
Qed.

Lemma steady_one_frame e frame ms r : steady (handle_one_frame v e frame ms r).
Proof using.
  apply steady_bind; [apply steady_snapshot|]. intros _. apply steady_bind; [apply steady_others|]. intros _.
  destruct (encode_to_message _ _ _) as [[data|err] en].
  - apply steady_bind; [apply steady_frame|]. intros ids. apply steady_ret.
  - cbv zeta. assert (steady (mbind (say [DisableEncoder]) (fun _ => @bail (gset Z * RunState (E := E)) SWITCH))) as Hd.
    { apply steady_bind; [by apply steady_say; repeat constructor|]. intros _. apply steady_stop. }
    destruct (_ && is_hardware en); [exact Hd|]. destruct (String.eqb _ _); [exact Hd|apply steady_ret].
Qed.

Lemma steady_sent ids (r : RunState (E := E)) : steady (sent_to ids r).
Proof using.
  apply steady_same. intros w o f w'. unfold sent_to. destruct (set_send _ _ _) as [c f1]. intros [= <- _ <-]. by split.
Qed.

Lemma steady_shot pb : steady (answer_screenshot v pb).
Proof using.
  apply steady_same. intros w o f w'. unfold answer_screenshot. destruct (_ !! _) as [s|]; [|intros [= <- _ <-]; by split].
  unfold outcome_bind. destruct (get_rgba_from_pixelbuf _ _) as [rgba|]; [|done].
  destruct (match rgba with Ok l => _ | Err err => _ end) as [[[msg wd] h] data].
  destruct (handle_screenshot _ _ _ _ _) as [m d]. intros [= <- _ <-]. by repeat constructor.
Qed.

Lemma steady_captured e (r : RunState (E := E)) : steady (on_captured v e r).
Proof using.
  unfold on_captured. destruct (captured e) as [[pb|] conv| |err].
  - apply steady_bind; [apply steady_shot|]. intros _. destruct conv as [y|err]; [|apply steady_stop].
    apply steady_bind; [apply steady_one_frame|]. intros x. apply steady_sent.
  - apply steady_ret.
  - destruct (_ && _); [|apply steady_ret]. apply steady_bind; [apply steady_one_frame|]. intros x. apply steady_sent.
  - apply steady_bind; [|intros _; apply steady_stop]. destruct (Server.is_monitor (source v)); [apply steady_broadcast|apply steady_ret].
Qed.

Lemma steady_wait e b ws (r : RunState (E := E)) fetched : steady (wait_fetched v e b ws r fetched).
Proof using.
  revert fetched. induction ws as [|[[t conn] arr] ws IH]; intros fetched; cbn [wait_fetched]; [apply steady_ret|].
  destruct (_ <=? _); [apply steady_ret|]. apply steady_bind.
  - destruct (Server.is_monitor (source v)); [apply steady_privacy|apply steady_ret].
  - intros _. apply steady_bind.
    + apply steady_same. intros w o f w'. destruct (try_wait_next _ _ _ _) as [s f1]. intros [= <- _ <-]. by split.
    + intros s. destruct (_ <=? _)%nat; [apply steady_ret|apply IH].
Qed.

Lemma steady_pass e (r : RunState (E := E)) : steady (pass v e r).
Proof using.
  apply steady_bind; [apply steady_qos|]. intros r1. apply steady_bind; [apply steady_get|]. intros refresh.
  destruct refresh.
  { destruct (Server.is_monitor (source v)); [apply steady_attempt_stop|]. apply steady_bind; [apply steady_ret|]. intros _. apply steady_stop. }
  apply steady_bind; [apply steady_get|]. intros n.
  destruct (negb _); [apply steady_stop|]. destruct (negb _); [apply steady_stop|].
  apply steady_bind; [destruct (Server.is_monitor (source v)); [apply steady_privacy|apply steady_ret]|]. intros _.
  apply steady_bind; [destruct (Server.is_monitor (source v) && _); [apply steady_broadcast|apply steady_ret]|]. intros _.
  apply steady_bind; [apply steady_captured|]. intros r2. apply steady_bind; [apply steady_others|]. intros _.
  apply steady_bind; [apply steady_wait|]. intros fetched. apply steady_bind; [|intros _; apply steady_ret].
  apply steady_same. intros w o f w' [= <- _ <-]. by split.
Qed.

Lemma rounds_continuous es (r : RunState (E := E)) w o x w' prev gone :
  tracked prev gone (sv w) -> rounds v es r w = Done (o, x, w') -> continuous prev gone o.
Proof using.
  revert r w o x w' prev gone. induction es as [|e es IH]; intros r w o x w' prev gone Ht; cbn [rounds].
  - destruct (negb _); by intros [= <- _ _].
  - destruct (negb _); [by intros [= <- _ _]|]. unfold outcome_bind.
    destruct (pass v e r w) as [[[o1 f] w1]|] eqn:E1; [|done].
    destruct (steady_pass e r _ _ _ _ _ _ Ht E1) as [H1 H2]. destruct f as [[r1 fetched]|err]; [|by intros [= <- _ _]].
    destruct fetched as [got|]; [|by intros [= <- _ _]].
    destruct (rounds v es r1 w1) as [[[o2 y] w2]|] eqn:E2; [|done]. intros Hd. injection Hd as <- _ _.
    rewrite continuous_app. revert H2. destruct (after prev gone o1) as [p1 g1]. intros H2. split; [done|]. by eapply IH.
Qed.

Lemma begin_shape b w o (r : RunState (E := E)) w' : begin v b w = (Ok (o, r), w') ->
  (exists c i, o = [NewEncoder c i])
  /\ (sv w' = sv w \/ sv w' = S.set_option_bool OPTION_REFRESH false (sv w)).
Proof using.
  assert (forall c q rec inc w, sv (setup_encoder v c q rec inc w).2 = sv w) as Hsetup.
  { intros c q rec inc w0. unfold setup_encoder, encoder_new.
    destruct (enc_new _ _); [done|]. by destruct (get_encoder_config _ _ _ _ _). }
  unfold begin. destruct (b_capturer b) as [c|err]; [|done].
  destruct (Q.get_ratio _) as [q q1]. set (w1 := with_qos q1 (raii_new v w)).
  destruct (setup_encoder v c q (Q.any_record (qos w1)) (allow_auto_record_incoming b) w1) as [[x|err] w2] eqn:E1.
  - pose proof (Hsetup c q (Q.any_record (qos w1)) (allow_auto_record_incoming b) w1) as H. rewrite E1 in H. cbn [snd] in H.
    destruct x as [[[en cfg] f] i]. destruct (S.is_option_true _ _); intros [= <- _ <-]; cbn [sv with_sv with_qos];
      (split; [eauto|]); [right; by rewrite H|left; exact H].
  - pose proof (Hsetup c q (Q.any_record (qos w1)) (allow_auto_record_incoming b) w1) as H. rewrite E1 in H. cbn [snd] in H.
    match goal with |- context [setup_encoder v c q ?rr ?ii ?ww] => pose proof (Hsetup c q rr ii ww) as H';
      destruct (setup_encoder v c q rr ii ww) as [[x|err'] w3] end; [|done]. cbn [snd sv with_neg] in H'. rewrite H in H'.
    destruct x as [[[en cfg] f] i]. destruct (S.is_option_true _ _); intros [= <- _ <-]; cbn [sv with_sv with_qos];
      (split; [eauto|]); [right; by rewrite H'|left; exact H'].
Qed.

(** C18. Viewers start with the first frame of an encoder.  However subscribing,
    unsubscribing, options and the negotiation of the codec interleave with the
    thread, in a run each frame goes only to viewers that also got the previous
    frame of this encoder, so that each has them all from the first on (before
    it, a new viewer makes the run end and an encoder start afresh); except
    where all who got the previous frame have left since. *)
Theorem viewers_start_at_key_frame b es w o (x : Ending (E := E)) w' :
  S.wf (sv w) -> S.need_snapshot (sv w) = true -> run v b es w = Done (o, x, w') ->
  continuous None ∅ o.
Proof using.
  intros Hwf Hsn. unfold run. destruct (begin v b w) as [[[o0 r]|err] w0] eqn:E0; [|by intros [= <- _ _]].
  destruct (begin_shape _ _ _ _ _ E0) as [(c & i & ->) Hsv]. unfold outcome_bind.
  destruct (rounds v es r w0) as [[[o1 y] w1]|] eqn:E1; [|done]. intros Hd. injection Hd as <- _ _. cbn [app continuous].
  eapply rounds_continuous; [|exact E1]. destruct Hsv as [-> | ->].
  - by split.
  - split; [|done|done]. by destruct Hwf.
Qed.

(** A complete change of viewers is missed.  If the only viewer leaves
    after another one has come, with no frame between (a screen that does not
    change sends none), the thread goes on with its encoder: the next frame,
    which is not the encoder's first, is sent to the new viewer. *)
Theorem takeover_mid_stream e frame ms (r : RunState (E := E)) w ca cb data en :
  S.wf (sv w) -> S.need_snapshot (sv w) = true -> S.subscribes (sv w) = {[ S.id ca := ca ]} ->
  S.new_subscribes (sv w) = ∅ -> S.id cb <> S.id ca -> others_found e = [] -> others_checked e = [] -> others_mid e = [] ->
  encode_to_message (enc r) frame ms = (Ok data, en) ->
  let w1 := snd (others (cenv v) [Subscribe cb; Unsubscribe (S.id ca)] w) in
  S.ok (sv w1) = S.active (sv w)
  /\ exists ds r' w2, handle_one_frame v e frame ms r w1
                     = Done ([FrameSent {[ S.id cb ]} data; Deliver ds], Go ({[ S.id cb ]}, r'), w2)
                     /\ ds = S.conn_send cb (MVideoFrame (idx v) data) /\ enc r' = en.
Proof using.
  intros Hwf Hsn Hsub Hnew Hne Hf Hch Hmid Henc w1.
  assert (sv w1 = S.with_subs ∅ {[ S.id cb := cb ]} (sv w)) as Hw1.
  { unfold w1, others. cbn [snd foldl other sv with_sv]. unfold S.on_subscribe. rewrite Hsub.
    rewrite lookup_singleton_ne by done. rewrite Hsn. unfold S.on_unsubscribe. cbn [S.subscribes S.with_subs S.new_subscribes].
    rewrite lookup_singleton_eq, delete_singleton_eq, Hnew, insert_empty. done. }
  clearbody w1. split; [rewrite Hw1; unfold S.ok, S.has_subscribes; cbn; by rewrite map_size_singleton, andb_true_r|].
  unfold handle_one_frame, mbind, snapshot_for_new, service_snapshot, run_others, others, S.has_new_subscribes.
  rewrite Hf, Hch, Hmid. unfold D.has_old_subscribes. rewrite Hw1.
  cbn [S.subscribes S.with_subs S.new_subscribes]. rewrite map_size_singleton. change (0 <? Z.of_nat 1) with true.
  cbn [outcome_bind map foldl]. rewrite Hw1. cbn [S.subscribes S.with_subs]. rewrite map_size_empty.
  change (0 <? Z.of_nat 0) with false. cbn [mret outcome_bind]. rewrite Hw1.
  cbn [map foldl outcome_bind app]. rewrite Henc. unfold send_frame, S.send_video_frame, S.send_video_frame_shared.
  cbn [sv with_sv]. unfold S.swap_new_subscribes. cbn [S.subscribes S.with_subs S.new_subscribes].
  assert (map_fold (fun _ s acc => <[ S.id s := s ]> acc) ∅ {[ S.id cb := cb ]} = ({[ S.id cb := cb ]} : gmap Z S.ConnInner)) as ->.
  { by rewrite map_fold_singleton, insert_empty. }
  unfold S.values. rewrite map_to_list_singleton. cbn [fmap list_fmap snd foldr mbind list_bind app].
  rewrite union_empty_r_L. cbn [outcome_bind app mret].
  eexists _, _, _. split; [reflexivity|]. split; [apply app_nil_r|done].
Qed.

(** Frames are sent in the codec of the moment: a round of the thread that
    sends a frame found, after checking the quality, that the codec negotiated
    and the chroma of all viewers are those its encoder was made for, and that no
    refresh was asked for. *)
Theorem frames_in_negotiated_codec e (r : RunState (E := E)) w o f w' ids data :
  pass v e r w = Done (o, f, w') -> FrameSent ids data ∈ o ->
  codec_format r = C.negotiated_codec (negotiation w)
  /\ C.use_i444 (cenv v) (encoder_cfg r) (negotiation w) = r_use_i444 r
  /\ S.is_option_true OPTION_REFRESH (sv w) = false.
Proof using.
  unfold pass. unfold mbind at 1. unfold outcome_bind at 1.
  destruct (check_qos v e r w) as [[[o1 f1] w1]|] eqn:E1; [|done].
  pose proof (qos_shape _ _ _ _ _ _ E1) as [-> [q ->]].
  destruct f1 as [r1|err]; [|intros [= <- _ _] H; by apply elem_of_nil in H].
  assert (codec_format r1 = codec_format r /\ encoder_cfg r1 = encoder_cfg r /\ r_use_i444 r1 = r_use_i444 r) as (<- & <- & <-).
  { revert E1. unfold check_qos. destruct (adjust_quality r (qos w)) as [[[en qq] q2] stop].
    destruct stop; [done|]. destruct (negb _); [done|]. unfold outcome_bind.
    destruct (if 1000 <? _ then _ else _); [|done]. intros [= <- _]. done. }
  clear E1. unfold mbind at 1, get at 1. cbn [outcome_bind sv with_qos].
  destruct (S.is_option_true OPTION_REFRESH (sv w)).
  { unfold mbind, outcome_bind. intros Hd Hin. exfalso. revert Hd Hin. destruct (Server.is_monitor (source v)).
    - unfold attempt, outcome_bind. destruct (try_broadcast_display_changed v e _ true _) as [[[o2 f2] w2]|] eqn:E2; [|done].
      destruct (broadcast_shape _ _ _ _ _ _ _ E2) as [Hp _]. cbn [bail]. rewrite !app_nil_r.
      intros [= <- _ _] H. rewrite Forall_forall in Hp. by apply Hp in H.
    - cbn. intros [= <- _ _] H. by apply elem_of_nil in H. }
  unfold mbind at 1, get at 1. cbn [outcome_bind negotiation with_qos].
  destruct (bool_decide_reflect (codec_format r1 = C.negotiated_codec (negotiation w))) as [Hc|Hc]; cbn [negb];
    [|intros [= <- _ _] H; by apply elem_of_nil in H].
  destruct (Bool.eqb _ (r_use_i444 r1)) eqn:Ei; cbn [negb]; [|intros [= <- _ _] H; by apply elem_of_nil in H].
  intros _ _. split; [done|]. split; [by apply Bool.eqb_prop|done].
Qed.

(** A run that ends, however it ends, leaves no trace of its display in the
    controller of the rate and among the connections to be notified. *)
Theorem ended_run_cleans_up b es w o res w' :
  run v b es w = Done (o, Ended (E := E) res, w') ->
  Q.displays (qos w') !! name v = None /\ display_conn_ids (fetches w') !! idx v = None.
Proof using.
  assert (forall w, Q.displays (qos (raii_drop v w)) !! name v = None
                    /\ display_conn_ids (fetches (raii_drop v w)) !! idx v = None) as Hd.
  { intros w0. unfold raii_drop. cbn. by rewrite !lookup_delete_eq. }
  assert (forall es r w o, rounds v es r w = Done (o, Ended (E := E) res, w') ->
            Q.displays (qos w') !! name v = None /\ display_conn_ids (fetches w') !! idx v = None) as Hr.
  { intros es0. induction es0 as [|e es0 IH]; intros r w0 o0; cbn [rounds].
    - destruct (negb _); intros [= _ _ <-]; apply Hd.
    - destruct (negb _); [intros [= _ _ <-]; apply Hd|]. unfold outcome_bind.
      destruct (pass v e r w0) as [[[o1 f] w1]|]; [|done]. destruct f as [[r1 [got|]]|err].
      + destruct (rounds v es0 r1 w1) as [[[o2 y] w2]|] eqn:E2; [|done]. intros H. injection H as _ -> ->. by eapply IH.
      + done.
      + intros [= _ _ <-]. apply Hd. }
  unfold run. destruct (begin v b w) as [[[o0 r]|err] w0]; [|intros [= _ _ <-]; apply Hd].
  unfold outcome_bind. destruct (rounds v es r w0) as [[[o1 y] w1]|] eqn:E1; [|done].
  intros H. injection H as _ -> ->. by eapply Hr.
Qed.

End Thread.

(** ** A display and its viewers *)

(** An encoder that numbers its frames. *)
#[local] Instance demo_encoder : EncoderApi Z := {|
  enc_new _ _ := Ok 0;
  encode_to_message n frame _ := (Ok (n :: frame), n + 1);
  set_quality _ n := n;
  enc_bitrate _ := 2000;
  enc_support_changing_quality _ := true;
  latency_free _ := false;
  is_hardware _ := false |}.

Definition demo_svc : Svc :=
  mkSvc Server.Monitor 0 (C.mkCodecEnv false (fun _ => None) "Y" (2 ^ 34) map_to_list) (fun _ => []) false
    (fun _ => Ok []) (fun _ _ d => Ok d).

Definition demo_viewer (i : Z) : S.ConnInner := S.mkConnInner i (Some i) (Some (100 + i)).

Definition demo_service : S.ServiceInner := S.on_subscribe (demo_viewer 1) (S.new "monitor0" true).

Definition demo_world : World :=
  mkWorld demo_service (Q.qos_default 0) (C.update (cenv demo_svc) (C.NewOnlyVP9 1) C.negotiation_default)
    D.displays_default (new_notifier 0 (mkFetches ∅ ∅)) ∅.

Definition demo_begin : BeginEnv := mkBeginEnv 0 (Ok (mkCapturerInfo 0 0 2 1 1 0 0)) false.

(** A round with a frame at the given time; [others] act while it waits. *)
Definition demo_pass (t : Z) (y : Z) (others : list Other) (arrivals : list Z) : PassEnv :=
  mkPassEnv t 0 None (Ok []) (Frame (Some (mkPixelBuffer 2 1 [8] [])) (Ok [y])) [] [] [] others t [(t, None, arrivals)].

(** The first viewer gets two frames; while the second is waited for it leaves
    and another comes; a third frame. *)
Definition demo_passes : list PassEnv :=
  [demo_pass 10 7 [] [1]; demo_pass 20 8 [Subscribe (demo_viewer 2); Unsubscribe 1] [1]; demo_pass 30 9 [] [2]].

Definition demo_outs : list VOut :=
  match run demo_svc demo_begin demo_passes demo_world with Done (o, _, _) => o | Panic => [] end.

(** The frames and their receivers. *)
Definition sent (o : list VOut) : list (list Z * list Z) :=
  omap (fun x => match x with FrameSent ids d => Some (elements ids, d) | _ => None end) o.

Example demo_sent : sent demo_outs = [([1], [0; 7]); ([1], [1; 8]); ([2], [2; 9])].
Proof. vm_compute. reflexivity. Qed.

Lemma demo_wf : S.wf demo_service.
Proof. apply S.wf_on_subscribe, S.wf_new_service. Qed.

Lemma viewers_start_at_key_frame_witness : continuous None ∅ demo_outs /\ length (sent demo_outs) = 3%nat.
Proof.
  split; [|vm_compute; reflexivity]. unfold demo_outs.
  destruct (run demo_svc demo_begin demo_passes demo_world) as [[[o x] w']|] eqn:H; [|exact I].
  exact (viewers_start_at_key_frame demo_svc demo_begin demo_passes demo_world o x w' demo_wf eq_refl H).
Defined.

(** The state of the thread after two frames. *)
Definition demo_running : RunState (E := Z) :=
  mkRunState 2 (C.VPX C.IdVP9 (C.mkEncoderSize 2 1 Q.BR_BALANCED None)) P.VP9 false Q.BR_BALANCED false
    (mkCapturerInfo 0 0 2 1 1 0 0) (mkController 0 ∅) 0 0 [8] 0 0 false 0 2.

Definition demo_one_viewer : World := with_sv (S.swap_new_subscribes demo_service) demo_world.

Lemma takeover_mid_stream_witness :
  let w1 := snd (others (cenv demo_svc) [Subscribe (demo_viewer 2); Unsubscribe 1] demo_one_viewer) in
  S.ok (sv w1) = true
  /\ exists ds r' w2, handle_one_frame demo_svc (demo_pass 30 9 [] []) [9] 30 demo_running w1
                     = Done ([FrameSent {[ 2 ]} [2; 9]; Deliver ds], Go ({[ 2 ]}, r'), w2)
                     /\ ds = S.conn_send (demo_viewer 2) (MVideoFrame 0 [2; 9]) /\ enc r' = 3.
Proof.
  apply (takeover_mid_stream demo_svc (demo_pass 30 9 [] []) [9] 30 demo_running demo_one_viewer
           (demo_viewer 1) (demo_viewer 2) [2; 9] 3).
  - apply S.wf_swap, demo_wf.
  - reflexivity.
  - reflexivity.
  - reflexivity.
  - discriminate.
  - reflexivity.
  - reflexivity.
  - reflexivity.
  - reflexivity.
Defined.

Lemma frames_in_negotiated_codec_witness :
  codec_format demo_running = C.negotiated_codec (negotiation demo_one_viewer)
  /\ (exists ids d o f w', pass demo_svc (demo_pass 30 9 [] [1]) demo_running demo_one_viewer = Done (o, f, w')
                          /\ FrameSent ids d ∈ o).
Proof.
  assert (exists o f w', pass demo_svc (demo_pass 30 9 [] [1]) demo_running demo_one_viewer = Done (o, f, w')
            /\ FrameSent {[ 1 ]} [2; 9] ∈ o) as (o & f & w' & H & Hin).
  { eexists _, _, _. split; [vm_compute; reflexivity|]. left. }
  split; [|exists {[ 1 ]}, [2; 9], o, f, w'; by split].
  exact (proj1 (frames_in_negotiated_codec demo_svc _ demo_running demo_one_viewer o f w' _ _ H Hin)).
Defined.

(** The only viewer leaves and the run ends. *)
Lemma ended_run_cleans_up_witness :
  exists o w', run demo_svc demo_begin [demo_pass 10 7 [Unsubscribe 1] [1]] demo_world = Done (o, Ended (E := Z) (Ok tt), w')
    /\ Q.displays (qos w') !! "monitor0"%string = None /\ display_conn_ids (fetches w') !! 0 = None.
Proof.
  destruct (run demo_svc demo_begin [demo_pass 10 7 [Unsubscribe 1] [1]] demo_world) as [[[o x] w']|] eqn:H.
  2:{ vm_compute in H. discriminate H. }
  assert (x = Ended (Ok tt)) as -> by (vm_compute in H; injection H as _ <- _; reflexivity).
  exists o, w'. split; [reflexivity|].
  exact (ended_run_cleans_up demo_svc demo_begin [demo_pass 10 7 [Unsubscribe 1] [1]] demo_world o (Ok tt) w' H).
Defined.

End VideoFacts.
