(* ===== verification/Password.v ===== *)
(** * Stored secrets ([libs/hbb_common/src/password_security.rs])

    Passwords and keys are kept in the configuration files sealed under a key
    derived from the machine's uuid, with a two-character version in front.  A
    Rust [String] is its UTF-8 bytes here, so [chars().count()] and
    [from_utf8_lossy] are written out on bytes.  [secretbox] is the class
    [SecretBox] of [SecureStream]; sodiumoxide's base64 is the class [Base64].

    - [Utf8]: validation, lossy decoding and character count;
    - [Vault]: the versioned encryption of strings and byte vectors. *)

From S2P Require Import Prelude SecureStream.

(** ** UTF-8 *)
Module Utf8.

Definition between (lo hi b : Z) : bool := (lo <=? b) && (b <=? hi).
Definition continuation (b : Z) : bool := Z.land b 192 =? 128.

(** The first sequence of a byte string: [inl n], a valid character of [n]
    bytes, or [inr n], [n] bytes to be replaced ([core::str::lossy]). *)
Definition first_char (b : Z) (l : list Z) : nat + nat :=
  let nth i := nth i l 0 in
  if b <? 128 then inl 1%nat
  else if between 194 223 b then
    if continuation (nth 0%nat) then inl 2%nat else inr 1%nat
  else if between 224 239 b then
    let ok := if b =? 224 then between 160 191 (nth 0%nat)
              else if b =? 237 then between 128 159 (nth 0%nat)
              else between 128 191 (nth 0%nat) in
    if negb ok then inr 1%nat
    else if continuation (nth 1%nat) then inl 3%nat else inr 2%nat
  else if between 240 244 b then
    let ok := if b =? 240 then between 144 191 (nth 0%nat)
              else if b =? 244 then between 128 143 (nth 0%nat)
              else between 128 191 (nth 0%nat) in
    if negb ok then inr 1%nat
    else if negb (continuation (nth 1%nat)) then inr 2%nat
    else if continuation (nth 2%nat) then inl 4%nat else inr 3%nat
  else inr 1%nat.

(** [U+FFFD] in UTF-8. *)
Definition REPLACEMENT : list Z := [239; 191; 189].

(** [fuel] bounds the number of sequences; the length is enough. *)
Fixpoint lossy_n (fuel : nat) (l : list Z) : list Z :=
  match fuel, l with
  | S fuel, b :: r =>
    match first_char b r with
    | inl n => take n l ++ lossy_n fuel (drop n l)
    | inr n => REPLACEMENT ++ lossy_n fuel (drop n l)
    end
  | _, _ => []
  end.

Definition from_utf8_lossy (l : list Z) : list Z := lossy_n (length l) l.

Fixpoint valid_n (fuel : nat) (l : list Z) : bool :=
  match fuel, l with
  | S fuel, b :: r =>
    match first_char b r with
    | inl n => valid_n fuel (drop n l)
    | inr _ => false
    end
  | O, _ :: _ => false
  | _, [] => true
  end.

(** What makes a byte string a Rust [str]. *)
Definition is_utf8 (l : list Z) : bool := valid_n (length l) l.

(** [chars().count()] of a [str]: bytes that start a character. *)
Definition chars_count (l : list Z) : Z := len (filter (fun b => negb (continuation b)) l).

Lemma lossy_n_valid fuel l : valid_n fuel l = true -> lossy_n fuel l = l.
Proof.
  revert l. induction fuel as [|fuel IH]; intros [|b r]; cbn [valid_n lossy_n]; try done.
  destruct (first_char b r) as [n|n]; [|done]. intros H.
  rewrite IH by done. apply take_drop.
Qed.

Lemma from_utf8_lossy_valid l : is_utf8 l = true -> from_utf8_lossy l = l.
Proof. apply lossy_n_valid. Qed.

End Utf8.

(** ** What the vault needs from [sodiumoxide::base64] (the original variant) *)
Class Base64 := {
  b64_encode : list Z -> list Z;
  b64_decode : list Z -> option (list Z)
}.

(** Decoding inverts encoding, only the empty string encodes to nothing, and
    the encoding is text. *)
Class Base64Laws `(B : Base64) : Prop := {
  b64_decode_encode : forall v, b64_decode (b64_encode v) = Some v;
  b64_encode_nonempty : forall v, v <> [] -> b64_encode v <> [];
  b64_encode_bytes : forall v, bytes v -> bytes (b64_encode v)
}.

Module Vault.

Import Utf8.

Definition VERSION_LEN : Z := 2.

(** The bytes of ["00"], the only version there is. *)
Definition V00 : list Z := [48; 48].

Section Vault.
Context `{SB : SecretBox} `{B64 : Base64}.
(** [crate::get_uuid()] *)
Context (get_uuid : list Z).

(** [Vec::resize] *)
Definition resize (n : nat) (v : Z) (l : list Z) : list Z := take n l ++ replicate (n - length l) v.

Definition symmetric_crypt (data : list Z) (encrypt : bool) : option (list Z) :=
  let key := resize KEYBYTES 0 get_uuid in
  let nonce := replicate NONCEBYTES 0 in
  if encrypt then Some (seal data nonce key) else open_box data nonce key.

Definition encrypt (v : list Z) : option (list Z) :=
  match v with
  | [] => None
  | _ => b64_encode <$> symmetric_crypt v true
  end.

Definition decrypt (v : list Z) : option (list Z) :=
  match v with
  | [] => None
  | _ => b64_decode v ≫= fun v => symmetric_crypt v false
  end.

Definition is_v00 (l : list Z) : bool := bool_decide (l = V00).

(** The triple: text, whether it was decrypted, whether it should be stored
    again. *)
Definition decrypt_str_or_original (s current_version : list Z) : list Z * bool * bool :=
  let original := (s, false, negb (bool_decide (s = []))) in
  if VERSION_LEN <? len s then
    if is_v00 (take 2 s) then
      match decrypt (drop 2 s) with
      | Some v => (from_utf8_lossy v, true, negb (bool_decide (V00 = current_version)))
      | None => original
      end
    else original
  else original.

Definition encrypt_str_or_original (s version : list Z) (max_len : Z) : list Z :=
  if snd (fst (decrypt_str_or_original s version)) then s
  else if max_len <? chars_count s then []
  else
    let original := s in
    if is_v00 version then
      match encrypt s with Some e => version ++ e | None => original end
    else original.

Definition decrypt_vec_or_original (v current_version : list Z) : list Z * bool * bool :=
  let original := (v, false, negb (bool_decide (v = []))) in
  if VERSION_LEN <? len v then
    let version := from_utf8_lossy (take 2 v) in
    if is_v00 version then
      match decrypt (drop 2 v) with
      | Some v => (v, true, negb (bool_decide (version = current_version)))
      | None => original
      end
    else original
  else original.

Definition encrypt_vec_or_original (v version : list Z) (max_len : Z) : list Z :=
  if snd (fst (decrypt_vec_or_original v version)) then v
  else if max_len <? len v then []
  else
    if is_v00 version then
      match encrypt v with Some e => version ++ e | None => v end
    else v.

Section Laws.
Context {SBL : SecretBoxLaws SB} {B64L : Base64Laws B64}.

Lemma seal_nonempty m n k : seal m n k <> [].
Proof using SBL.
  intros H. pose proof (seal_length m n k) as Hl. rewrite H in Hl.
  unfold MACBYTES in Hl. cbn in Hl. lia.
Qed.

Lemma encrypt_some v e : encrypt v = Some e -> v <> [] /\ e <> [] /\ decrypt e = Some v.
Proof using SBL B64L.
  unfold encrypt. destruct v as [|b v]; [done|].
  cbn [symmetric_crypt fmap option_fmap option_map]. intros [= <-].
  set (c := seal _ _ _).
  pose proof (b64_encode_nonempty c (seal_nonempty _ _ _)) as Hne.
  split; [done|]. split; [done|].
  unfold decrypt. destruct (b64_encode c) as [|x e] eqn:E; [done|].
  rewrite <-E, b64_decode_encode. cbn [mbind option_bind symmetric_crypt].
  apply open_seal.
Qed.

Lemma encrypt_total v : v <> [] -> exists e, encrypt v = Some e.
Proof. destruct v; [done|]. eauto. Qed.

Lemma versioned_head e : e <> [] ->
  (VERSION_LEN <? len (V00 ++ e)) = true /\ take 2 (V00 ++ e) = V00 /\ drop 2 (V00 ++ e) = e.
Proof.
  intros He. split; [|done]. unfold VERSION_LEN, len.
  destruct e; [done|]. cbn [app length V00]. apply Z.ltb_lt. lia.
Qed.

Lemma decrypt_str_versioned e v cv :
  e <> [] -> decrypt e = Some v ->
  decrypt_str_or_original (V00 ++ e) cv
  = (from_utf8_lossy v, true, negb (bool_decide (V00 = cv))).
Proof.
  intros He Hd. destruct (versioned_head e He) as (H1 & H2 & H3).
  unfold decrypt_str_or_original. by rewrite H1, H2, H3, Hd.
Qed.

Lemma decrypt_vec_versioned e v cv :
  e <> [] -> decrypt e = Some v ->
  decrypt_vec_or_original (V00 ++ e) cv = (v, true, negb (bool_decide (V00 = cv))).
Proof.
  intros He Hd. destruct (versioned_head e He) as (H1 & H2 & H3).
  unfold decrypt_vec_or_original. by rewrite H1, H2, H3, Hd.
Qed.

(** A password survives the round trip through the configuration file: a
    non-empty UTF-8 string of at most [max_len] characters that is not itself
    a stored ciphertext decrypts, after encryption, to itself, with success
    and no need to store it again; encrypting the result a second time changes
    nothing (no double encryption); and a later version of the program
    decrypts it too but asks to store it again. *)
Theorem password_roundtrip s max_len :
  s <> [] -> is_utf8 s = true -> chars_count s <= max_len ->
  snd (fst (decrypt_str_or_original s V00)) = false ->
  let e := encrypt_str_or_original s V00 max_len in
  decrypt_str_or_original e V00 = (s, true, false)
  /\ encrypt_str_or_original e V00 max_len = e
  /\ (forall cv, cv <> V00 -> decrypt_str_or_original e cv = (s, true, true)).
Proof using SBL B64L.
  intros Hne Hu Hlen Hplain. cbv zeta.
  destruct (encrypt_total s Hne) as [e He].
  destruct (encrypt_some s e He) as (_ & Hee & Hd).
  assert (encrypt_str_or_original s V00 max_len = V00 ++ e) as ->.
  { unfold encrypt_str_or_original. rewrite Hplain.
    rewrite (proj2 (Z.ltb_ge max_len (chars_count s)) Hlen).
    change (is_v00 V00) with true. cbn match. by rewrite He. }
  pose proof (fun cv => decrypt_str_versioned e s cv Hee Hd) as Hdec.
  rewrite from_utf8_lossy_valid in Hdec by done.
  split; [by rewrite Hdec|]. split.
  - unfold encrypt_str_or_original. by rewrite Hdec.
  - intros cv Hcv. rewrite Hdec. by rewrite bool_decide_false by congruence.
Qed.

(** The same for byte vectors (the key pair and the socks password), where
    no UTF-8 condition is needed; a vector longer than [max_len] is replaced
    by the empty one, and an empty vector is left as it is. *)
Theorem vec_roundtrip v max_len :
  snd (fst (decrypt_vec_or_original v V00)) = false ->
  (v <> [] -> len v <= max_len ->
     decrypt_vec_or_original (encrypt_vec_or_original v V00 max_len) V00 = (v, true, false)
     /\ encrypt_vec_or_original (encrypt_vec_or_original v V00 max_len) V00 max_len
        = encrypt_vec_or_original v V00 max_len)
  /\ (max_len < len v -> encrypt_vec_or_original v V00 max_len = [])
  /\ (v = [] -> 0 <= max_len -> encrypt_vec_or_original v V00 max_len = []).
Proof using SBL B64L.
  intros Hplain.
  assert (encrypt_vec_or_original v V00 max_len =
          if max_len <? len v then []
          else match encrypt v with Some e => V00 ++ e | None => v end) as Heq.
  { unfold encrypt_vec_or_original. by rewrite Hplain. }
  split; [|split].
  - intros Hne Hlen. rewrite Heq, (proj2 (Z.ltb_ge max_len (len v)) Hlen).
    destruct (encrypt_total v Hne) as [e He]. rewrite He.
    destruct (encrypt_some v e He) as (_ & Hee & Hd).
    pose proof (decrypt_vec_versioned e v V00 Hee Hd) as Hdec.
    split; [done|]. unfold encrypt_vec_or_original. by rewrite Hdec.
  - intros Hlen. by rewrite Heq, (proj2 (Z.ltb_lt max_len (len v)) Hlen).
  - intros -> Hm. rewrite Heq. by destruct (max_len <? @len Z []).
Qed.

End Laws.
End Vault.

(** A toy cipher and encoding that satisfy the laws, for the witnesses: the
    "ciphertext" is sixteen zeros and the plaintext, the "encoding" prefixes a
    letter. *)
Definition toy_box : SecretBox :=
  {| seal m _ _ := replicate MACBYTES 0 ++ m;
     open_box c _ _ := if bool_decide (take MACBYTES c = replicate MACBYTES 0)
                       then Some (drop MACBYTES c) else None |}.

Lemma toy_box_laws : SecretBoxLaws toy_box.
Proof.
  split.
  - intros m n k. cbn [seal open_box toy_box].
    rewrite take_app_length' by done. rewrite bool_decide_true by done.
    by rewrite drop_app_length'.
  - intros m n k. cbn [seal toy_box]. by rewrite length_app, length_replicate.
  - intros m n k Hm _ _. cbn [seal toy_box]. apply Forall_app_2; [|done]. by apply Forall_replicate.
Qed.

Definition toy_b64 : Base64 :=
  {| b64_encode v := 65 :: v;
     b64_decode v := match v with 65 :: r => Some r | _ => None end |}.

Lemma toy_b64_laws : Base64Laws toy_b64.
Proof.
  split; [done|done|]. intros v Hv. constructor; [|done]. unfold is_byte. lia.
Qed.

(** ["1ü1111"], the string of the repository's own test. *)
Definition demo_password : list Z := [49; 195; 188; 49; 49; 49; 49].

Lemma password_roundtrip_witness :
  @decrypt_str_or_original toy_box toy_b64 [7]
    (@encrypt_str_or_original toy_box toy_b64 [7] demo_password V00 128) V00
  = (demo_password, true, false).
Proof.
  pose proof toy_box_laws. pose proof toy_b64_laws.
  apply (@password_roundtrip toy_box toy_b64 [7] _ _ demo_password 128).
  - done.
  - reflexivity.
  - vm_compute. discriminate.
  - reflexivity.
Defined.

Lemma vec_roundtrip_witness :
  @decrypt_vec_or_original toy_box toy_b64 [7]
    (@encrypt_vec_or_original toy_box toy_b64 [7] [1; 2; 3] V00 128) V00
  = ([1; 2; 3], true, false).
Proof.
  pose proof toy_box_laws. pose proof toy_b64_laws.
  destruct (@vec_roundtrip toy_box toy_b64 [7] _ _ [1; 2; 3] 128) as [H1 _]; [reflexivity|].
  apply H1; [done|]. vm_compute. discriminate.
Defined.

End Vault.
