(* ===== verification/Config.v ===== *)
(** * The configuration ([libs/hbb_common/src/config.rs])

    The process-wide configuration: [CONFIG] (identity, password, salt) and
    [CONFIG2] (options, rendezvous server, proxy, pin, trusted devices), the
    files they are stored in, the read-only settings of a customised client
    ([OVERWRITE_SETTINGS], [DEFAULT_SETTINGS], [HARD_SETTINGS],
    [BUILTIN_SETTINGS]) and the access rules of [password_security.rs] that
    are derived from options.

    A file is modelled by the structure serialized into it, after the
    encryption [store] applies; a load reads it back and undoes it.  TOML and
    JSON text are serde's: the JSON of the trusted devices is a pair of
    functions with a round-trip law.  Each lock is held over the whole
    operation, so operations are functions on the state. *)

From S2P Require Import Prelude RustStr SecureStream Password.

Module Config.

Import Utf8 Vault.

(** A Rust [String] that is encrypted or hashed: its UTF-8 bytes. *)
Abbreviation text := (list Z).

Definition str_bytes (s : string) : text := map ascii_code (String.list_ascii_of_string s).

Record Socks5Server : Type := mkSocks { proxy : string; username : string; socks_password : text }.

Record TrustedDevice : Type := mkDevice {
  hwid : list Z; time : Z; dev_id : string; dev_name : string; platform : string }.

#[global] Instance Socks5Server_eq_dec : EqDecision Socks5Server.
Proof. solve_decision. Defined.
#[global] Instance TrustedDevice_eq_dec : EqDecision TrustedDevice.
Proof. solve_decision. Defined.

(** ** The two configuration structures and the process state *)

Record Config : Type := mkConfig {
  id : text;  (* in use *)
  enc_id : text;  (* as stored *)
  password : text;
  salt : text;
  key_confirmed : bool;
  keys_confirmed : gmap string bool }.

Definition with_id (v : text) (c : Config) : Config :=
  mkConfig v (enc_id c) (password c) (salt c) (key_confirmed c) (keys_confirmed c).
Definition with_enc_id (v : text) (c : Config) : Config :=
  mkConfig (id c) v (password c) (salt c) (key_confirmed c) (keys_confirmed c).
Definition with_password (v : text) (c : Config) : Config :=
  mkConfig (id c) (enc_id c) v (salt c) (key_confirmed c) (keys_confirmed c).
Definition with_salt (v : text) (c : Config) : Config :=
  mkConfig (id c) (enc_id c) (password c) v (key_confirmed c) (keys_confirmed c).
Definition with_key_confirmed (v : bool) (c : Config) : Config :=
  mkConfig (id c) (enc_id c) (password c) (salt c) v (keys_confirmed c).
Definition with_keys_confirmed (v : gmap string bool) (c : Config) : Config :=
  mkConfig (id c) (enc_id c) (password c) (salt c) (key_confirmed c) v.

Record Config2 : Type := mkConfig2 {
  rendezvous_server : string;
  nat_type : Z;
  serial : Z;
  unlock_pin : text;
  trusted_devices : text;
  socks : option Socks5Server;
  options : gmap string string }.

Definition with_rendezvous_server (v : string) (c : Config2) : Config2 :=
  mkConfig2 v (nat_type c) (serial c) (unlock_pin c) (trusted_devices c) (socks c) (options c).
Definition with_nat_type (v : Z) (c : Config2) : Config2 :=
  mkConfig2 (rendezvous_server c) v (serial c) (unlock_pin c) (trusted_devices c) (socks c)
    (options c).
Definition with_serial (v : Z) (c : Config2) : Config2 :=
  mkConfig2 (rendezvous_server c) (nat_type c) v (unlock_pin c) (trusted_devices c) (socks c)
    (options c).
Definition with_unlock_pin (v : text) (c : Config2) : Config2 :=
  mkConfig2 (rendezvous_server c) (nat_type c) (serial c) v (trusted_devices c) (socks c)
    (options c).
Definition with_trusted_devices (v : text) (c : Config2) : Config2 :=
  mkConfig2 (rendezvous_server c) (nat_type c) (serial c) (unlock_pin c) v (socks c) (options c).
Definition with_socks (v : option Socks5Server) (c : Config2) : Config2 :=
  mkConfig2 (rendezvous_server c) (nat_type c) (serial c) (unlock_pin c) (trusted_devices c) v
    (options c).
Definition with_options (v : gmap string string) (c : Config2) : Config2 :=
  mkConfig2 (rendezvous_server c) (nat_type c) (serial c) (unlock_pin c) (trusted_devices c)
    (socks c) v.

Record State : Type := mkState {
  CONFIG : Config;
  CONFIG2 : Config2;
  file : Config;  (* what [Config::store] last wrote *)
  file2 : Config2;  (* what [Config2::store] last wrote *)
  TRUSTED_DEVICES : list TrustedDevice * bool;  (* cache, and whether it is in sync *)
  ONLINE : gmap string Z }.  (* latency of each server *)

Definition with_CONFIG (v : Config) (st : State) : State :=
  mkState v (CONFIG2 st) (file st) (file2 st) (TRUSTED_DEVICES st) (ONLINE st).
Definition with_CONFIG2 (v : Config2) (st : State) : State :=
  mkState (CONFIG st) v (file st) (file2 st) (TRUSTED_DEVICES st) (ONLINE st).
Definition with_file (v : Config) (st : State) : State :=
  mkState (CONFIG st) (CONFIG2 st) v (file2 st) (TRUSTED_DEVICES st) (ONLINE st).
Definition with_file2 (v : Config2) (st : State) : State :=
  mkState (CONFIG st) (CONFIG2 st) (file st) v (TRUSTED_DEVICES st) (ONLINE st).
Definition with_TRUSTED_DEVICES (v : list TrustedDevice * bool) (st : State) : State :=
  mkState (CONFIG st) (CONFIG2 st) (file st) (file2 st) v (ONLINE st).
Definition with_ONLINE (v : gmap string Z) (st : State) : State :=
  mkState (CONFIG st) (CONFIG2 st) (file st) (file2 st) (TRUSTED_DEVICES st) v.

(** The settings a customised client is built with. *)
Record Settings : Type := mkSettings {
  OVERWRITE_SETTINGS : gmap string string;
  DEFAULT_SETTINGS : gmap string string;
  HARD_SETTINGS : gmap string string;
  BUILTIN_SETTINGS : gmap string string }.

(** ** Options *)

Definition get_or (a b c : gmap string string) (k : string) : option string :=
  match a !! k with
  | Some v => Some v
  | None => match b !! k with Some v => Some v | None => c !! k end
  end.

Definition is_option_can_save (overwrite : gmap string string) (k : string)
  (defaults : gmap string string) (v : string) : bool :=
  if String.eqb k "employee_id" || String.eqb k "verification-method"
     || String.eqb k "access-mode" || String.eqb k "password" then true
  else if bool_decide (is_Some (overwrite !! k))
          || match defaults !! k with Some x => String.eqb x v | None => false end
  then false else true.

(** [keys::OPTION_DIRECT_SERVER] *)
Definition OPTION_DIRECT_SERVER : string := "direct-server".

Definition option2bool (option value : string) : bool :=
  if starts_with "enable-" option then negb (String.eqb value "N")
  else if starts_with "allow-" option || String.eqb option "stop-service"
          || String.eqb option OPTION_DIRECT_SERVER || String.eqb option "force-always-relay"
  then String.eqb value "Y"
  else negb (String.eqb value "N").

Section Options.
Context (S : Settings).

Definition get_options (st : State) : gmap string string :=
  OVERWRITE_SETTINGS S ∪ (options (CONFIG2 st) ∪ DEFAULT_SETTINGS S).

Definition purify_options (v : gmap string string) : gmap string string :=
  filter (fun kv => is_option_can_save (OVERWRITE_SETTINGS S) kv.1 (DEFAULT_SETTINGS S) kv.2) v.

Definition get_option (k : string) (st : State) : string :=
  unwrap_or "" (get_or (OVERWRITE_SETTINGS S) (options (CONFIG2 st)) (DEFAULT_SETTINGS S) k).

Definition get_bool_option (k : string) (st : State) : bool := option2bool k (get_option k st).

Definition get_builtin_option (k : string) : string := unwrap_or "" (BUILTIN_SETTINGS S !! k).

Definition is_some_hard_opton (name : string) : bool :=
  match HARD_SETTINGS S !! name with Some x => String.eqb x "Y" | None => false end.

Definition is_incoming_only : bool :=
  match HARD_SETTINGS S !! "conn-type" with Some x => String.eqb x "incoming" | None => false end.

Definition is_outgoing_only : bool :=
  match HARD_SETTINGS S !! "conn-type" with Some x => String.eqb x "outgoing" | None => false end.

Definition builtin_is (k v : string) : bool :=
  match BUILTIN_SETTINGS S !! k with Some x => String.eqb x v | None => false end.

Definition is_disable_change_permanent_password : bool :=
  builtin_is "disable-change-permanent-password" "Y".
Definition is_disable_unlock_pin : bool := builtin_is "disable-unlock-pin" "Y".
End Options.

(** ** Storing and loading *)

Definition PASSWORD_ENC_VERSION : text := V00.
Definition ENCRYPT_MAX_LEN : Z := 128.

Section Persist.
Context `{SB : SecretBox} `{B64 : Base64}.
Context (get_uuid : list Z).

Abbreviation enc_str := (encrypt_str_or_original get_uuid).
Abbreviation dec_str := (decrypt_str_or_original get_uuid).

Definition Config_store (c : Config) : Config :=
  let c := with_password (enc_str (password c) PASSWORD_ENC_VERSION ENCRYPT_MAX_LEN) c in
  let c := with_enc_id (enc_str (id c) PASSWORD_ENC_VERSION ENCRYPT_MAX_LEN) c in
  with_id [] c.

(** [Config::load] on the parsed file; [gen_id] is the result of the id
    generator on each of its (at most three) calls.  The boolean says whether
    the configuration is stored again. *)
Definition Config_load (f : Config) (gen_id : list (option text)) : Config * bool :=
  let '(pw, _, store1) := dec_str (password f) PASSWORD_ENC_VERSION in
  let c := with_password pw f in
  let '(i, encrypted, store2) := dec_str (enc_id c) PASSWORD_ENC_VERSION in
  let '(c, id_valid, store) :=
    if encrypted then (with_id i c, true, store1 || store2)
    else if negb (bool_decide (id c = [])) && bool_decide (enc_id c = [])
            && negb (snd (fst (dec_str (id c) PASSWORD_ENC_VERSION)))
    then (c, true, true)
    else (c, false, store1) in
  if id_valid then (c, store)
  else
    match omap (fun x => x) (take 3 gen_id) with
    | i :: _ => (with_id i c, true)
    | [] => (c, store)
    end.

Definition Config2_store (c : Config2) : Config2 :=
  let c := match socks c with
           | Some s => with_socks (Some (mkSocks (proxy s) (username s)
                         (enc_str (socks_password s) PASSWORD_ENC_VERSION ENCRYPT_MAX_LEN))) c
           | None => c
           end in
  with_unlock_pin (enc_str (unlock_pin c) PASSWORD_ENC_VERSION ENCRYPT_MAX_LEN) c.

Definition Config2_load (f : Config2) : Config2 * bool :=
  let '(c, store) :=
    match socks f with
    | Some s =>
      let '(pw, _, store2) := dec_str (socks_password s) PASSWORD_ENC_VERSION in
      (with_socks (Some (mkSocks (proxy s) (username s) pw)) f, store2)
    | None => (f, false)
    end in
  let '(pin, _, store2) := dec_str (unlock_pin c) PASSWORD_ENC_VERSION in
  (with_unlock_pin pin c, store || store2).

(** [config.store()] of the two global structures. *)
Definition store1 (st : State) : State := with_file (Config_store (CONFIG st)) st.
Definition store2 (st : State) : State := with_file2 (Config2_store (CONFIG2 st)) st.

Definition upd1 (f : Config -> Config) (st : State) : State := store1 (with_CONFIG (f (CONFIG st)) st).
Definition upd2 (f : Config2 -> Config2) (st : State) : State := store2 (with_CONFIG2 (f (CONFIG2 st)) st).

Context (S : Settings).

Definition set_options (v : gmap string string) (st : State) : State :=
  let v := purify_options S v in
  if bool_decide (options (CONFIG2 st) = v) then st else upd2 (with_options v) st.

Definition set_option (k v : string) (st : State) : State :=
  if negb (is_option_can_save (OVERWRITE_SETTINGS S) k (DEFAULT_SETTINGS S) v) then
    match options (CONFIG2 st) !! k with
    | Some _ => upd2 (fun c => with_options (delete k (options c)) c) st
    | None => st
    end
  else
    let v2 := if String.eqb v "" then None else Some v in
    if negb (bool_decide (v2 = options (CONFIG2 st) !! k)) then
      match v2 with
      | None => upd2 (fun c => with_options (delete k (options c)) c) st
      | Some v => upd2 (fun c => with_options (<[ k := v ]> (options c)) c) st
      end
    else st.

(** ** Rendezvous servers and latencies *)

Definition SERIAL : Z := 3.
Definition RENDEZVOUS_PORT : Z := 21116.
Definition RENDEZVOUS_SERVERS : list string := ["rs-ny.rustdesk.com"].

Definition get_rendezvous_servers (exe prod : string) (st : State) : list string :=
  if negb (String.eqb exe "") then [exe]
  else
    let s := get_option S "custom-rendezvous-server" st in
    if negb (String.eqb s "") then [s]
    else if negb (String.eqb prod "") then [prod]
    else
      let ss := if SERIAL <? serial (CONFIG2 st)
                then filter (fun x => contains_char "." x)
                       (split_char "," (get_option S "rendezvous-servers" st))
                else [] in
      match ss with [] => RENDEZVOUS_SERVERS | _ => ss end.

Definition get_rendezvous_server (exe prod : string) (st : State) : string :=
  let s := exe in
  let s := if String.eqb s "" then get_option S "custom-rendezvous-server" st else s in
  let s := if String.eqb s "" then prod else s in
  let s := if String.eqb s "" then rendezvous_server (CONFIG2 st) else s in
  let s := if String.eqb s "" then
             match get_rendezvous_servers exe prod st with x :: _ => x | [] => "" end
           else s in
  if negb (contains_char ":" s) then s +:+ ":" +:+ show RENDEZVOUS_PORT else s.

Definition reset_online (st : State) : State := with_ONLINE ∅ st.

(** The scan for the smallest positive latency, over the entries in some order. *)
Definition fastest (l : list (string * Z)) : string * Z :=
  fold_left (fun '(host, delay) '(h, d) => if (0 <? d) && (d <? delay) then (h, d) else (host, delay))
            l ("", 2 ^ 63 - 1).

Definition update_latency (host : string) (latency : Z) (st : State) : State :=
  let st := with_ONLINE (<[ host := latency ]> (ONLINE st)) st in
  let host := fst (fastest (map_to_list (ONLINE st))) in
  if negb (String.eqb host "") then
    if negb (String.eqb host (rendezvous_server (CONFIG2 st)))
    then upd2 (with_rendezvous_server host) st
    else st
  else st.

(** ** Identity, password, salt *)

Definition set_id (i : text) (st : State) : State :=
  if bool_decide (i = id (CONFIG st)) then st else upd1 (with_id i) st.

Definition set_nat_type (n : Z) (st : State) : State :=
  if n =? nat_type (CONFIG2 st) then st else upd2 (with_nat_type n) st.

Definition set_serial (n : Z) (st : State) : State :=
  if n =? serial (CONFIG2 st) then st else upd2 (with_serial n) st.

Definition get_serial (st : State) : Z := Z.max (serial (CONFIG2 st)) SERIAL.

Definition set_key_confirmed (v : bool) (st : State) : State :=
  if Bool.eqb (key_confirmed (CONFIG st)) v then st
  else upd1 (fun c => let c := with_key_confirmed v c in
                      if negb v then with_keys_confirmed ∅ c else c) st.

Definition get_host_key_confirmed (host : string) (st : State) : bool :=
  bool_decide (keys_confirmed (CONFIG st) !! host = Some true).

Definition set_host_key_confirmed (host : string) (v : bool) (st : State) : State :=
  if Bool.eqb (get_host_key_confirmed host st) v then st
  else upd1 (fun c => with_keys_confirmed (<[ host := v ]> (keys_confirmed c)) c) st.

(** [get_auto_password_with_chars] with the random numbers as input. *)
Definition CHARS : list Z := str_bytes "23456789abcdefghijkmnpqrstuvwxyz".
Definition NUM_CHARS : list Z := str_bytes "0123456789".

Definition get_auto_password_with_chars (length_ : nat) (chars : list Z) (rng : nat -> Z) : text :=
  map (fun i => nth (Z.to_nat (rng i mod len chars)) chars 0) (seq 0 length_).

Definition get_auto_password (length_ : nat) (rng : nat -> Z) : text :=
  get_auto_password_with_chars length_ CHARS rng.
Definition get_auto_numeric_password (length_ : nat) (rng : nat -> Z) : text :=
  get_auto_password_with_chars length_ NUM_CHARS rng.

Definition set_salt (s : text) (st : State) : State :=
  if bool_decide (s = salt (CONFIG st)) then st else upd1 (with_salt s) st.

Definition get_salt (rng : nat -> Z) (st : State) : text * State :=
  match salt (CONFIG st) with
  | [] => let s := get_auto_password 6 rng in (s, set_salt s st)
  | s => (s, st)
  end.

Definition get_permanent_password (st : State) : text :=
  match password (CONFIG st) with
  | [] => match HARD_SETTINGS S !! "password" with Some v => str_bytes v | None => [] end
  | p => p
  end.

(** ** Trusted devices *)

Definition DAYS_90 : Z := 90 * 24 * 60 * 60 * 1000.

(** [outdate]: [time + 90 days] in [i64]. *)
Definition outdate (now : Z) (d : TrustedDevice) : bool := i64 (time d + DAYS_90) <? now.

Context (to_json : list TrustedDevice -> text) (from_json : text -> option (list TrustedDevice)).
Context (get_time : Z).

Definition MAX_DEVICES_LEN : Z := 1024 * 1024.

Definition set_trusted_devices (ds : list TrustedDevice) (st : State) : State :=
  let ds := filter (fun d => negb (outdate get_time d)) ds in
  let json := to_json ds in
  if MAX_DEVICES_LEN <? len json then st
  else
    let enc := enc_str json PASSWORD_ENC_VERSION MAX_DEVICES_LEN in
    with_TRUSTED_DEVICES (ds, true) (upd2 (with_trusted_devices enc) st).

Definition get_trusted_devices (st : State) : list TrustedDevice * State :=
  let '(devices, synced) := TRUSTED_DEVICES st in
  if synced then (devices, st)
  else
    let '(json, succ, store) := dec_str (trusted_devices (CONFIG2 st)) PASSWORD_ENC_VERSION in
    if succ then
      let ds := unwrap_or [] (from_json json) in
      let kept := filter (fun d => negb (outdate get_time d)) ds in
      let st := if store || negb (len kept =? len ds) then set_trusted_devices kept st else st in
      (kept, with_TRUSTED_DEVICES (kept, true) st)
    else ([], st).

Definition add_trusted_device (device : TrustedDevice) (st : State) : State :=
  let '(ds, st) := get_trusted_devices st in
  let ds := filter (fun d => negb (bool_decide (hwid d = hwid device))) ds in
  set_trusted_devices (ds ++ [device]) st.

Definition remove_trusted_devices (hwids : list (list Z)) (st : State) : State :=
  let '(ds, st) := get_trusted_devices st in
  set_trusted_devices (filter (fun d => negb (bool_decide (hwid d ∈ hwids))) ds) st.

Definition clear_trusted_devices (st : State) : State := set_trusted_devices [] st.

Definition set_permanent_password (pw : text) (st : State) : State :=
  if is_disable_change_permanent_password S then st
  else if match HARD_SETTINGS S !! "password" with
          | Some v => bool_decide (str_bytes v = pw) | None => false end
          && bool_decide (password (CONFIG st) = []) then st
  else if bool_decide (pw = password (CONFIG st)) then st
  else clear_trusted_devices (upd1 (with_password pw) st).

Definition get_unlock_pin (st : State) : text :=
  if is_disable_unlock_pin S then [] else unlock_pin (CONFIG2 st).

Definition set_unlock_pin (pin : text) (st : State) : State :=
  if is_disable_unlock_pin S then st
  else if bool_decide (pin = unlock_pin (CONFIG2 st)) then st
  else upd2 (with_unlock_pin pin) st.

(** ** Provisioning of a device by its employer *)

Record ProvisionConfig : Type := mkProvision { employee_id : string; prov_password : text }.

Definition check_and_provision (p : ProvisionConfig) (st : State) : State * bool :=
  if String.eqb (employee_id p) "" && bool_decide (prov_password p = []) then (st, false)
  else
    let needs_eid := match options (CONFIG2 st) !! "employee_id" with
                     | Some v => String.eqb v "" | None => true end in
    let st := if needs_eid
              then with_CONFIG2 (with_options (<[ "employee_id" := employee_id p ]> (options (CONFIG2 st)))
                                              (CONFIG2 st)) st
              else st in
    let needs_pw := bool_decide (password (CONFIG st) = []) && negb (bool_decide (prov_password p = [])) in
    let st := if needs_pw then with_CONFIG (with_password (prov_password p) (CONFIG st)) st else st in
    let changed := needs_eid || needs_pw in
    (if changed then store2 (store1 st) else st, changed).

End Persist.

(** ** Who may log in ([password_security.rs]) *)

Inductive VerificationMethod : Type :=
| OnlyUseTemporaryPassword | OnlyUsePermanentPassword | UseBothPasswords.

Inductive ApproveMode : Type := Both | Password | Click.

#[global] Instance ApproveMode_eq_dec : EqDecision ApproveMode.
Proof. solve_decision. Defined.

Section Access.
(** [Config::get_option] *)
Context (get_option : string -> string).

Definition verification_method : VerificationMethod :=
  let method := get_option "verification-method" in
  if String.eqb method "use-temporary-password" then OnlyUseTemporaryPassword
  else if String.eqb method "use-permanent-password" then OnlyUsePermanentPassword
  else UseBothPasswords.

Definition temporary_password_length : nat :=
  let length := get_option "temporary-password-length" in
  if String.eqb length "8" then 8 else if String.eqb length "10" then 10 else 6.

Definition temporary_enabled : bool :=
  match verification_method with OnlyUsePermanentPassword => false | _ => true end.

Definition permanent_enabled : bool :=
  match verification_method with OnlyUseTemporaryPassword => false | _ => true end.

Definition has_valid_password (temporary_password permanent_password : text) : bool :=
  (temporary_enabled && negb (bool_decide (temporary_password = [])))
  || (permanent_enabled && negb (bool_decide (permanent_password = []))).

Definition approve_mode : ApproveMode :=
  let mode := get_option "approve-mode" in
  if String.eqb mode "password" then Password
  else if String.eqb mode "click" then Click
  else Both.

Definition hide_cm : bool :=
  bool_decide (approve_mode = Password)
  && match verification_method with OnlyUsePermanentPassword => true | _ => false end
  && option2bool "allow-hide-cm" (get_option "allow-hide-cm").
End Access.

Definition get_auto_password_by_options (get_option : string -> string) (rng : nat -> Z) : text :=
  let len := temporary_password_length get_option in
  if option2bool "allow-numeric-one-time-password" (get_option "allow-numeric-one-time-password")
  then get_auto_numeric_password len rng
  else get_auto_password len rng.

End Config.
