(* ===== verification/ConfigProofs.v ===== *)
(** * Properties of the configuration

    - [Options]: precedence of the option layers and what a write does;
    - [Persistence]: what survives a restart, and what does not;
    - [Misc]: rendezvous servers, passwords, provisioning. *)

From S2P Require Import Prelude RustStr SecureStream Password Config.

Module ConfigFacts.

Import Utf8 Vault Config.

(** ** Options *)

Section OptionFacts.
Context `{SB : SecretBox} `{B64 : Base64} (get_uuid : list Z) (S : Settings).

Lemma get_options_get_or st k :
  get_options S st !! k = get_or (OVERWRITE_SETTINGS S) (options (CONFIG2 st)) (DEFAULT_SETTINGS S) k.
Proof.
  unfold get_options, get_or. rewrite !lookup_union.
  by destruct (OVERWRITE_SETTINGS S !! k), (options (CONFIG2 st) !! k), (DEFAULT_SETTINGS S !! k).
Qed.

(** The options after a write: one entry at most is changed. *)
Lemma set_option_options k v st :
  options (CONFIG2 (set_option get_uuid S k v st)) =
  if is_option_can_save (OVERWRITE_SETTINGS S) k (DEFAULT_SETTINGS S) v && negb (String.eqb v "")
  then <[ k := v ]> (options (CONFIG2 st))
  else delete k (options (CONFIG2 st)).
Proof.
  unfold set_option.
  destruct (is_option_can_save (OVERWRITE_SETTINGS S) k (DEFAULT_SETTINGS S) v); cbn [negb andb].
  - destruct (String.eqb v "") eqn:Ev; cbn [negb].
    + case_bool_decide as H; cbn [negb]; [|done]. symmetry. by apply delete_id.
    + case_bool_decide as H; cbn [negb]; [|done]. symmetry. by apply insert_id.
  - destruct (options (CONFIG2 st) !! k) eqn:E; [done|]. symmetry. by apply delete_id.
Qed.

(** Reading an option after writing it: an overwritten option keeps the
    value the client was built with; otherwise the value just written is read
    back, also when it equals the default and is therefore not stored, and
    writing the empty string restores the default.  No other option changes,
    and the merged map [get_options] agrees with [get_option] on every key. *)
Theorem set_get_option k v st :
  get_option S k (set_option get_uuid S k v st) =
    match OVERWRITE_SETTINGS S !! k with
    | Some o => o
    | None => if String.eqb v "" then unwrap_or "" (DEFAULT_SETTINGS S !! k) else v
    end
  /\ (forall k', k' <> k -> get_option S k' (set_option get_uuid S k v st) = get_option S k' st)
  /\ (forall k', get_option S k' st = unwrap_or "" (get_options S st !! k')).
Proof.
  split; [|split].
  - unfold get_option, get_or. rewrite set_option_options.
    destruct (OVERWRITE_SETTINGS S !! k) as [o|] eqn:Eo; [done|].
    unfold is_option_can_save. rewrite Eo, (bool_decide_false (is_Some None)) by (intros [? ?]; done).
    cbn [orb]. destruct (_ || _); cbn [andb].
    + destruct (String.eqb v ""); cbn [negb]; [by rewrite lookup_delete_eq|by rewrite lookup_insert_eq].
    + destruct (DEFAULT_SETTINGS S !! k) as [d|] eqn:Ed.
      * destruct (String.eqb_spec d v) as [->|Hd]; cbn [andb].
        -- rewrite lookup_delete_eq. by destruct (String.eqb_spec v "").
        -- destruct (String.eqb v ""); cbn [negb]; [by rewrite lookup_delete_eq|by rewrite lookup_insert_eq].
      * destruct (String.eqb v ""); cbn [andb negb]; [by rewrite lookup_delete_eq|by rewrite lookup_insert_eq].
  - intros k' Hk. unfold get_option, get_or. rewrite set_option_options.
    destruct (_ && _); [by rewrite lookup_insert_ne|by rewrite lookup_delete_ne].
  - intros k'. by rewrite get_options_get_or.
Qed.

End OptionFacts.

(** ** Persistence *)

Section Persistence.
Context `{SB : SecretBox} `{B64 : Base64} {SBL : SecretBoxLaws SB} {B64L : Base64Laws B64}.
Context (get_uuid : list Z).

Abbreviation enc_str := (encrypt_str_or_original get_uuid).
Abbreviation dec_str := (decrypt_str_or_original get_uuid).

(** A text [store] can keep: UTF-8, at most [max] characters, and not the
    encryption of something. *)
Definition storable (max : Z) (s : text) : Prop :=
  is_utf8 s = true /\ chars_count s <= max /\ snd (fst (dec_str s V00)) = false.

Lemma reload_text max s :
  0 <= max -> storable max s ->
  dec_str (enc_str s V00 max) V00 = (s, negb (bool_decide (s = [])), false).
Proof using SBL B64L.
  intros Hmax (Hu & Hl & Hp). destruct (decide (s = [])) as [->|Hne].
  - rewrite (bool_decide_true ([] = [])) by done.
    unfold enc_str. rewrite Hp. by destruct (max <? chars_count []).
  - rewrite (bool_decide_false (s = [])) by done.
    by destruct (password_roundtrip get_uuid s max Hne Hu Hl Hp).
Qed.

Lemma enc_too_long max s :
  max < chars_count s -> snd (fst (dec_str s V00)) = false -> enc_str s V00 max = [].
Proof.
  intros Hl Hp. unfold encrypt_str_or_original. rewrite Hp.
  by rewrite (proj2 (Z.ltb_lt max (chars_count s)) Hl).
Qed.

(** A stored configuration is read back unchanged: with a non-empty id,
    and id and password that fit in 128 characters, [load] after [store]
    returns the same id, password, salt and key flags, regardless of the id
    generator, and does not ask to store the file again. *)
Theorem config_reload c gen :
  id c <> [] -> storable ENCRYPT_MAX_LEN (id c) -> storable ENCRYPT_MAX_LEN (password c) ->
  Config_load get_uuid (Config_store get_uuid c) gen =
  (with_enc_id (enc_str (id c) V00 ENCRYPT_MAX_LEN) c, false).
Proof using SBL B64L.
  intros Hid Hsid Hspw. unfold Config_load, Config_store, PASSWORD_ENC_VERSION.
  cbn [password enc_id id salt key_confirmed keys_confirmed with_password with_enc_id with_id].
  rewrite (reload_text ENCRYPT_MAX_LEN _ ltac:(done) Hspw), (reload_text ENCRYPT_MAX_LEN _ ltac:(done) Hsid).
  rewrite (bool_decide_false (id c = [])) by done. cbn [negb]. by destruct c.
Qed.

(** A permanent password of more than 128 characters is lost at the next
    start: [set_permanent_password] accepts it and the running process checks
    logins against it, but [store] writes the empty string in its place, so
    the reloaded configuration has no password and the preset password of the
    client, if any, is in force again. *)
Theorem long_password_lost S to_json now pw st gen :
  is_disable_change_permanent_password S = false ->
  HARD_SETTINGS S !! "password" = None ->
  ENCRYPT_MAX_LEN < chars_count pw -> snd (fst (dec_str pw V00)) = false ->
  pw <> password (CONFIG st) ->
  let st' := set_permanent_password get_uuid S to_json now pw st in
  get_permanent_password S st' = pw
  /\ password (fst (Config_load get_uuid (file st') gen)) = [].
Proof.
  intros Hd Hh Hl Hp Hne. cbv zeta.
  assert (pw <> []) as Hpw. { intros ->. vm_compute in Hl. discriminate. }
  assert (exists st2, set_permanent_password get_uuid S to_json now pw st = st2
            /\ CONFIG st2 = with_password pw (CONFIG st)
            /\ file st2 = Config_store get_uuid (with_password pw (CONFIG st))) as (st2 & -> & Hc & Hf).
  { eexists. split; [reflexivity|]. unfold set_permanent_password. rewrite Hd, Hh. cbn [andb].
    rewrite bool_decide_false by done. unfold clear_trusted_devices, set_trusted_devices.
    by destruct (MAX_DEVICES_LEN <? _). }
  split.
  - unfold get_permanent_password. rewrite Hc. cbn. by destruct pw.
  - rewrite Hf. unfold Config_load, Config_store.
    cbn [password enc_id id salt key_confirmed keys_confirmed with_password with_enc_id with_id].
    rewrite enc_too_long by done.
    change (dec_str [] PASSWORD_ENC_VERSION) with ([] : text, false, false).
    cbn match. destruct (dec_str (enc_str _ _ _) _) as [[i e] s2]. destruct e; [done|].
    cbn. by destruct (omap _ (take 3 gen)).
Qed.

(** *** Trusted devices *)

Context (to_json : list TrustedDevice -> text) (from_json : text -> option (list TrustedDevice)).
(** serde: parsing inverts printing, and the text is UTF-8. *)
Hypothesis json_roundtrip : forall ds, from_json (to_json ds) = Some ds.
Hypothesis json_utf8 : forall ds, is_utf8 (to_json ds) = true.
(** The JSON of a list starts with a bracket. *)
Hypothesis json_bracket : forall ds, exists r, to_json ds = 91 :: r.

Lemma json_storable ds :
  len (to_json ds) <= MAX_DEVICES_LEN -> storable MAX_DEVICES_LEN (to_json ds).
Proof using json_utf8 json_bracket.
  intros Hl. split; [apply json_utf8|]. split.
  - unfold chars_count. pose proof (length_filter (fun b => negb (continuation b)) (to_json ds)).
    unfold len in *. lia.
  - destruct (json_bracket ds) as [r ->]. unfold decrypt_str_or_original.
    destruct (VERSION_LEN <? _); [|done]. by destruct r as [|x r].
Qed.

(** The next start of the process: both files are loaded, the cache is empty. *)
Definition restart (st : State) : State :=
  mkState (fst (Config_load get_uuid (file st) [])) (fst (Config2_load get_uuid (file2 st)))
          (file st) (file2 st) ([], false) ∅.

Lemma Config2_load_devices f : trusted_devices (fst (Config2_load get_uuid f)) = trusted_devices f.
Proof.
  unfold Config2_load. destruct (socks f) as [s|].
  - destruct (dec_str (socks_password s) _) as [[pw a] b].
    by destruct (dec_str (unlock_pin _) _) as [[pin a'] b'].
  - by destruct (dec_str (unlock_pin _) _) as [[pin a'] b'].
Qed.

Lemma set_trusted_devices_effect now ds st :
  let kept := filter (fun d => negb (outdate now d)) ds in
  len (to_json kept) <= MAX_DEVICES_LEN ->
  let st' := set_trusted_devices get_uuid to_json now ds st in
  TRUSTED_DEVICES st' = (kept, true)
  /\ trusted_devices (file2 st') = enc_str (to_json kept) V00 MAX_DEVICES_LEN.
Proof.
  cbv zeta. intros Hl. unfold set_trusted_devices.
  rewrite (proj2 (Z.ltb_ge MAX_DEVICES_LEN _) Hl). split; [done|].
  cbn. unfold Config2_store. by destruct (socks (CONFIG2 st)).
Qed.

Lemma get_after_restart now ds st :
  let kept := filter (fun d => negb (outdate now d)) ds in
  len (to_json kept) <= MAX_DEVICES_LEN ->
  fst (get_trusted_devices get_uuid to_json from_json now
         (restart (set_trusted_devices get_uuid to_json now ds st))) = kept.
Proof using SBL B64L json_roundtrip json_utf8 json_bracket.
  cbv zeta. intros Hl. destruct (set_trusted_devices_effect now ds st Hl) as [_ Hf].
  unfold get_trusted_devices, restart. cbn [TRUSTED_DEVICES CONFIG2].
  rewrite Config2_load_devices, Hf. unfold PASSWORD_ENC_VERSION.
  rewrite (reload_text MAX_DEVICES_LEN _ ltac:(done) (json_storable _ Hl)).
  rewrite bool_decide_false by (destruct (json_bracket (filter (fun d => negb (outdate now d)) ds)) as [r ->]; done).
  cbn [negb]. rewrite json_roundtrip. cbn [unwrap_or fst].
  rewrite list_filter_filter. apply list_filter_iff. intros d. tauto.
Qed.

(** Trusting a device: after [add_trusted_device] the device is in the
    list exactly once (no second entry with its hardware id), the other
    devices that are younger than 90 days stay, and the list read at the next
    start of the process is the same, as long as it fits in 1 MiB. *)
Theorem trusted_device_added now d st :
  outdate now d = false ->
  let '(ds, st1) := get_trusted_devices get_uuid to_json from_json now st in
  let kept := filter (fun x => negb (outdate now x))
                (filter (fun x => negb (bool_decide (hwid x = hwid d))) ds) ++ [d] in
  let st' := add_trusted_device get_uuid to_json from_json now d st in
  len (to_json kept) <= MAX_DEVICES_LEN ->
  fst (get_trusted_devices get_uuid to_json from_json now st') = kept
  /\ fst (get_trusted_devices get_uuid to_json from_json now (restart st')) = kept
  /\ filter (fun x => hwid x = hwid d) kept = [d].
Proof using SBL B64L json_roundtrip json_utf8 json_bracket.
  intros Hd. destruct (get_trusted_devices get_uuid to_json from_json now st) as [ds st1] eqn:E.
  cbv zeta. unfold add_trusted_device. rewrite E.
  set (others := filter (fun x => negb (bool_decide (hwid x = hwid d))) ds).
  assert (filter (fun x => negb (outdate now x)) (others ++ [d])
          = filter (fun x => negb (outdate now x)) others ++ [d]) as Hk.
  { rewrite filter_app. f_equal. by rewrite filter_cons_True by by rewrite Hd. }
  intros Hl. rewrite <-Hk in *. split; [|split].
  - destruct (set_trusted_devices_effect now (others ++ [d]) st1 Hl) as [Hc _].
    unfold get_trusted_devices at 1. by rewrite Hc.
  - by apply get_after_restart.
  - rewrite Hk, filter_app. rewrite (filter_cons_True _ d []) by done.
    rewrite (list_filter_none (fun x => hwid x = hwid d)); [done|].
    apply Forall_forall. intros x Hx.
    apply list_elem_of_filter in Hx as [_ Hx]. apply list_elem_of_filter in Hx as [Hx _].
    intros Heq. rewrite bool_decide_true in Hx by done. done.
Qed.

End Persistence.

(** ** Witnesses of persistence *)

(** A printer for lists of devices that satisfies the laws. *)
Definition demo_device : TrustedDevice := mkDevice [1; 2] 1700000000000 "123456789" "laptop" "Linux".

Definition no_settings : Settings := mkSettings ∅ ∅ ∅ ∅.

Definition demo_config : Config := mkConfig (str_bytes "123456789") [] demo_password [] false ∅.

Definition demo_state : State :=
  mkState demo_config (mkConfig2 "" 0 0 [] [] None ∅) demo_config (mkConfig2 "" 0 0 [] [] None ∅)
          ([], true) ∅.

Lemma config_reload_witness :
  password (fst (@Config_load toy_box toy_b64 [7] (@Config_store toy_box toy_b64 [7] demo_config) []))
  = demo_password.
Proof.
  pose proof toy_box_laws. pose proof toy_b64_laws.
  rewrite (@config_reload toy_box toy_b64 _ _ [7] demo_config []).
  - reflexivity.
  - done.
  - repeat split; vm_compute; done.
  - repeat split; vm_compute; done.
Defined.

Definition long_password : text := replicate 129 97.

Lemma long_password_lost_witness :
  password (fst (@Config_load toy_box toy_b64 [7]
    (file (@set_permanent_password toy_box toy_b64 [7] no_settings (fun _ => [91; 93]) 0 long_password demo_state))
    [])) = [].
Proof.
  apply (@long_password_lost toy_box toy_b64 [7] no_settings (fun _ => [91; 93]) 0 long_password demo_state []);
    vm_compute; done.
Defined.

(** A printer and parser of device lists that satisfy the laws assumed of
    serde: a bracket and the binary digits of a numbering. *)
#[global] Instance TrustedDevice_countable : Countable TrustedDevice.
Proof.
  refine (inj_countable'
    (fun d => (hwid d, time d, dev_id d, dev_name d, platform d))
    (fun '(h, t, i, n, p) => mkDevice h t i n p) _). by intros [].
Defined.

Fixpoint digits (p : positive) : text :=
  match p with xH => [] | xO p => 48 :: digits p | xI p => 49 :: digits p end.

Fixpoint undigits (l : text) : positive :=
  match l with [] => xH | d :: l => if d =? 48 then xO (undigits l) else xI (undigits l) end.

Definition toy_json (ds : list TrustedDevice) : text := 91 :: digits (encode ds).
Definition toy_parse (l : text) : option (list TrustedDevice) :=
  match l with 91 :: l => decode (undigits l) | _ => None end.

Lemma undigits_digits p : undigits (digits p) = p.
Proof. induction p as [p IH|p IH|]; cbn; by rewrite ?IH. Qed.

Lemma toy_json_roundtrip ds : toy_parse (toy_json ds) = Some ds.
Proof. unfold toy_parse, toy_json. cbn match. by rewrite undigits_digits, decode_encode. Qed.

Lemma valid_ascii l : Forall (fun b => b < 128) l -> is_utf8 l = true.
Proof.
  unfold is_utf8. induction 1 as [|b l Hb _ IH]; [done|]. cbn [length valid_n].
  unfold first_char. rewrite (proj2 (Z.ltb_lt b 128) Hb). cbn [drop]. done.
Qed.

Lemma toy_json_utf8 ds : is_utf8 (toy_json ds) = true.
Proof.
  apply valid_ascii. constructor; [lia|]. induction (encode ds) as [p IH|p IH|]; cbn; by constructor.
Qed.

Lemma trusted_device_added_witness :
  let st' := @add_trusted_device toy_box toy_b64 [7] toy_json toy_parse 1700000000000 demo_device demo_state in
  fst (@get_trusted_devices toy_box toy_b64 [7] toy_json toy_parse 1700000000000
         (@restart toy_box toy_b64 [7] st')) = [demo_device].
Proof.
  pose proof toy_box_laws. pose proof toy_b64_laws.
  pose proof (@trusted_device_added toy_box toy_b64 _ _ [7] toy_json toy_parse toy_json_roundtrip
    toy_json_utf8 (fun ds => ex_intro _ _ eq_refl) 1700000000000 demo_device demo_state eq_refl) as H1.
  cbn in H1 |- *. apply H1. vm_compute. discriminate.
Defined.

(** ** Rendezvous servers *)

Lemma fastest_spec l :
  let '(h, d) := fastest l in
  (h = "" /\ d = 2 ^ 63 - 1 \/ (h, d) ∈ l /\ 0 < d)
  /\ Forall (fun '(_, x) => 0 < x < 2 ^ 63 - 1 -> d <= x) l.
Proof.
  induction l as [|[h d] l IH] using rev_ind.
  - split; [by left|constructor].
  - unfold fastest in *. rewrite fold_left_app. cbn [fold_left].
    destruct (fold_left _ l ("", 2 ^ 63 - 1)) as [h0 d0]. destruct IH as [Hin Hle].
    destruct ((0 <? d) && (d <? d0)) eqn:E.
    + apply andb_true_iff in E as [E1 E2]. apply Z.ltb_lt in E1, E2. split.
      * right. split; [|done]. apply elem_of_app. right. by constructor.
      * apply Forall_app. split; [|repeat constructor; lia].
        eapply Forall_impl; [exact Hle|]. intros [h' x]. lia.
    + split.
      * destruct Hin as [?|[Hin ?]]; [by left|right]. split; [|done]. apply elem_of_app. by left.
      * apply Forall_app. split; [done|]. repeat constructor. intros Hd.
        apply andb_false_iff in E as [E|E]; apply Z.ltb_ge in E; lia.
Qed.

(** [update_latency] selects a fastest server: when some server has a
    measured (positive) latency, the server kept in the configuration is one
    with the smallest positive latency, in whatever order the map of
    measurements is walked. *)
Theorem update_latency_fastest `{SB : SecretBox} `{B64 : Base64} uuid host latency st :
  let online := <[ host := latency ]> (ONLINE st) in
  "" ∉ dom online ->
  (exists h x, online !! h = Some x /\ 0 < x < 2 ^ 63 - 1) ->
  exists d, online !! rendezvous_server (CONFIG2 (update_latency uuid host latency st)) = Some d
    /\ 0 < d /\ (forall h x, online !! h = Some x -> 0 < x < 2 ^ 63 - 1 -> d <= x).
Proof.
  cbv zeta. intros Hempty (h & x & Hx & Hpos).
  set (online := <[ host := latency ]> (ONLINE st)) in *.
  pose proof (fastest_spec (map_to_list online)) as Hf.
  destruct (fastest (map_to_list online)) as [h0 d] eqn:E. destruct Hf as [Hin Hle].
  rewrite Forall_forall in Hle.
  assert (Hmin : forall h x, online !! h = Some x -> 0 < x < 2 ^ 63 - 1 -> d <= x).
  { intros h' x' Hx'. apply (Hle (h', x')). by apply elem_of_map_to_list. }
  destruct Hin as [[-> ->]|[Hin Hd]].
  { specialize (Hmin h x Hx Hpos). lia. }
  apply elem_of_map_to_list in Hin.
  assert (h0 <> "") as Hne. { intros ->. apply Hempty. by apply elem_of_dom_2 in Hin. }
  exists d. split; [|done]. unfold update_latency. cbn [ONLINE with_ONLINE].
  fold online. rewrite E. cbn [fst]. rewrite (proj2 (String.eqb_neq h0 "") Hne). cbn [negb].
  destruct (String.eqb_spec h0 (rendezvous_server (CONFIG2 (with_ONLINE online st)))) as [->|Hneq];
    cbn [negb]; [by rewrite <-Hin|done].
Qed.

Lemma update_latency_fastest_witness :
  exists d, (<[ "b" := 20 ]> {[ "a" := 35 ]} : gmap string Z) !!
    rendezvous_server (CONFIG2 (@update_latency toy_box toy_b64 [7] "b" 20
      (with_ONLINE {[ "a" := 35 ]} demo_state))) = Some d /\ 0 < d.
Proof.
  destruct (@update_latency_fastest toy_box toy_b64 [7] "b" 20 (with_ONLINE {[ "a" := 35 ]} demo_state))
    as (d & H1 & H2 & _).
  - vm_compute. done.
  - exists "a", 35. split; [reflexivity|lia].
  - by exists d.
Defined.

(** The server name that is used always carries a port. *)
Lemma get_rendezvous_server_port S exe prod st :
  contains_char ":" (get_rendezvous_server S exe prod st) = true.
Proof.
  unfold get_rendezvous_server. cbv zeta.
  match goal with |- context [negb (contains_char ":" ?x)] => destruct (contains_char ":" x) eqn:E end;
    cbn [negb]; [done|]. rewrite !contains_char_app, E. done.
Qed.

(** ** Generated passwords *)

Lemma get_auto_password_chars n chars rng :
  chars <> [] ->
  length (get_auto_password_with_chars n chars rng) = n
  /\ Forall (fun c => c ∈ chars) (get_auto_password_with_chars n chars rng).
Proof.
  intros Hc. unfold get_auto_password_with_chars. rewrite length_map, length_seq. split; [done|].
  apply Forall_forall. intros c Hin. apply list_elem_of_fmap in Hin as (i & -> & _).
  apply list_elem_of_In, nth_In. unfold len.
  assert (0 < Z.of_nat (length chars)) by (destruct chars; [done|cbn; lia]).
  pose proof (Z.mod_pos_bound (rng i) (Z.of_nat (length chars)) ltac:(lia)). lia.
Qed.

(** ** Provisioning *)

Section Provision.
Context `{SB : SecretBox} `{B64 : Base64} (uuid : list Z).

Lemma provision_eid p st :
  employee_id p <> "" ->
  exists e, options (CONFIG2 (fst (check_and_provision uuid p st))) !! "employee_id" = Some e /\ e <> "".
Proof.
  intros Hp. unfold check_and_provision. rewrite (proj2 (String.eqb_neq _ "") Hp). cbn [andb].
  destruct (options (CONFIG2 st) !! "employee_id") as [v|] eqn:E.
  - destruct (String.eqb_spec v "") as [->|Hv].
    + exists (employee_id p). split; [|done].
      destruct (_ && _); cbn; by rewrite lookup_insert_eq.
    + exists v. split; [|done]. destruct (_ && _); cbn; done.
  - exists (employee_id p). split; [|done].
    destruct (_ && _); cbn; by rewrite lookup_insert_eq.
Qed.

(** Provisioning heals once: when the provisioning file names an employee,
    a second run of [check_and_provision] changes nothing and writes nothing.
    Without an employee name (only a password), every run inserts an empty
    [employee_id] again and rewrites both configuration files. *)
Theorem provision_settles p st :
  (employee_id p <> "" ->
     check_and_provision uuid p (fst (check_and_provision uuid p st))
     = (fst (check_and_provision uuid p st), false))
  /\ (employee_id p = "" -> prov_password p <> [] ->
      options (CONFIG2 st) !! "employee_id" = None ->
      snd (check_and_provision uuid p (fst (check_and_provision uuid p st))) = true).
Proof.
  split.
  - intros Hp. destruct (provision_eid p st Hp) as (e & He & Hne).
    set (st1 := fst (check_and_provision uuid p st)) in *.
    assert (bool_decide (password (CONFIG st1) = []) && negb (bool_decide (prov_password p = [])) = false)
      as Hpw.
    { apply andb_false_iff. destruct (decide (prov_password p = [])) as [Hn|Hn].
      - right. by rewrite bool_decide_true.
      - left. apply bool_decide_eq_false. unfold st1, check_and_provision.
        rewrite (proj2 (String.eqb_neq _ "") Hp). cbn [andb].
        match goal with |- context [if ?b then with_CONFIG2 _ _ else _] => destruct b end; cbn;
          destruct (decide (password (CONFIG st) = [])) as [Hq|Hq];
          rewrite ?(bool_decide_true (password (CONFIG st) = [])),
                  ?(bool_decide_false (password (CONFIG st) = [])),
                  ?(bool_decide_false (prov_password p = [])) by done; cbn; done. }
    unfold check_and_provision. rewrite (proj2 (String.eqb_neq _ "") Hp). cbn [andb].
    rewrite He, (proj2 (String.eqb_neq e "") Hne), Hpw. done.
  - intros Hp Hw Hn. unfold check_and_provision.
    rewrite Hp, (bool_decide_false (prov_password p = [])) by done. cbn [String.eqb andb negb].
    rewrite Hn. cbn [orb fst snd].
    destruct (bool_decide (password _ = []) && true); cbn; by rewrite lookup_insert_eq.
Qed.
End Provision.

Lemma provision_settles_witness :
  snd (@check_and_provision toy_box toy_b64 [7] (mkProvision "" [49])
        (fst (@check_and_provision toy_box toy_b64 [7] (mkProvision "" [49]) demo_state))) = true
  /\ snd (@check_and_provision toy_box toy_b64 [7] (mkProvision "e1" [49])
        (fst (@check_and_provision toy_box toy_b64 [7] (mkProvision "e1" [49]) demo_state))) = false.
Proof.
  split.
  - apply (@provision_settles toy_box toy_b64 [7] (mkProvision "" [49]) demo_state); done.
  - by rewrite (proj1 (@provision_settles toy_box toy_b64 [7] (mkProvision "e1" [49]) demo_state)).
Defined.

End ConfigFacts.
