(* ===== verification/ConfigMore.v ===== *)
(** * Identity, key pair, proxy and the smaller configuration files ([config.rs])

    The part of [libs/hbb_common/src/config.rs] around the two structures of
    [Config]: reading and writing a file with retries, the generated and the
    updated identity, the signing key pair with its cache and the thread that
    stores it, the proxy and its layers of settings, [LocalConfig], [Status],
    and the sealed caches of the address book and the group.

    A parsed file is a value; the text of TOML and JSON is a parameter where a
    function depends on it.  The host name, the hardware address, random
    numbers and generated keys are inputs. *)

From S2P Require Import Prelude RustStr SecureStream Password Config.

Module ConfigMore.

Import Config Utf8 Vault.

(** ** Reading and writing a file *)

(** What [confy::load_path] gives: a value, a missing file, another I/O error,
    or text that does not parse. *)
Inductive Attempt (T : Type) : Type :=
| Loaded (c : T)
| NotFound
| GeneralLoadError
| BadData.
Arguments Loaded {T} c.
Arguments NotFound {T}.
Arguments GeneralLoadError {T}.
Arguments BadData {T}.

(** [load_path]: [left] attempts remain. *)
Fixpoint load_path_n {T} (dflt : T) (left : nat) (read : nat -> Attempt T) : T :=
  match left with
  | O => dflt
  | S left' =>
    match read left with
    | Loaded c => c
    | NotFound => dflt
    | GeneralLoadError => match left' with O => dflt | _ => load_path_n dflt left' read end
    | BadData => dflt
    end
  end.

Definition load_path {T} (dflt : T) (read : nat -> Attempt T) : T := load_path_n dflt 5 read.

(** [store_path]: whether one of five attempts succeeds; the last error. *)
Fixpoint store_path_n (left : nat) (write : nat -> result unit string) : result unit string :=
  match left with
  | O => Err "Unknown error during store_path"
  | S left' =>
    match write left with
    | Ok _ => Ok tt
    | Err e => match left' with O => Err e | _ => store_path_n left' write end
    end
  end.

Definition store_path (write : nat -> result unit string) : result unit string := store_path_n 5 write.

(** ** The identity *)

Definition OPTION_ALLOW_HOSTNAME_AS_ID : string := "allow-hostname-as-id".
Definition OPTION_DISABLE_CHANGE_ID : string := "disable-change-id".
Definition OPTION_REGISTER_DEVICE : string := "register-device".
Definition OPTION_LANGUAGE : string := "lang".
Definition OPTION_PROXY_URL : string := "proxy-url".
Definition OPTION_PROXY_USERNAME : string := "proxy-username".
Definition OPTION_PROXY_PASSWORD : string := "proxy-password".
Definition OPTION_ALLOW_WEBSOCKET : string := "allow-websocket".
Definition OPTION_ALLOW_INSECURE_TLS_FALLBACK : string := "allow-insecure-tls-fallback".

(** The machine: its host name if it can be read, the address of a network
    card if it has one. *)
Record Machine : Type := mkMachine { hostname : result text string; mac_address : option (list Z) }.

(** The number in [get_auto_id]: the last four bytes, 29 bits of them. *)
Definition mac_id (ma : list Z) : Z :=
  Z.land (fold_left (fun i x => Z.lor (u32 (Z.shiftl i 8)) x) (drop 2 ma) 0) 0x1FFFFFFF.

Definition get_auto_id (mach : Machine) : option text :=
  match mac_address mach with Some ma => Some (str_bytes (show (mac_id ma))) | None => None end.

Definition gen_id (S : Settings) (mach : Machine) : option text :=
  let hostname_as_id :=
    match BUILTIN_SETTINGS S !! OPTION_ALLOW_HOSTNAME_AS_ID with
    | Some v => option2bool OPTION_ALLOW_HOSTNAME_AS_ID v
    | None => false
    end in
  if hostname_as_id then
    match hostname mach with
    | Ok h => Some (map (fun b => if b =? 32 then 45 else b) h)
    | Err _ => get_auto_id mach
    end
  else get_auto_id mach.

(** The number [update_id] draws: [gen_range(1_000_000_000..2_000_000_000)]. *)
Definition in_id_range (n : Z) : Prop := 1000000000 <= n < 2000000000.

#[global] Instance Config2_eq_dec : EqDecision Config2.
Proof. solve_decision. Defined.

Section Ids.
Context `{SB : SecretBox} `{B64 : Base64}.
Context (get_uuid : list Z).

Definition get_id (S : Settings) (mach : Machine) (st : State) : text * State :=
  match id (CONFIG st) with
  | [] => match gen_id S mach with
          | Some tmp => (tmp, set_id get_uuid tmp st)
          | None => ([], st)
          end
  | i => (i, st)
  end.

Definition get_id_or (b : text) (st : State) : text :=
  match id (CONFIG st) with [] => b | a => a end.

(** [draw] is the random number. *)
Definition update_id (S : Settings) (mach : Machine) (draw : Z) (st : State) : State :=
  let '(_, st) := get_id S mach st in
  set_id get_uuid (str_bytes (show draw)) st.

(** [Config2::set]: whether something changed. *)
Definition Config2_set (cfg : Config2) (st : State) : bool * State :=
  if bool_decide (CONFIG2 st = cfg) then (false, st) else (true, store2 get_uuid (with_CONFIG2 cfg st)).

End Ids.

(** [get_online_state] *)
Definition get_online_state (st : State) : Z :=
  match map_to_list (ONLINE st) with
  | [] => 0
  | x :: l => fold_left (fun m y => Z.max m y.2) l x.2
  end.

(** ** Built-in switches *)

Definition no_register_device (S : Settings) : bool := builtin_is S OPTION_REGISTER_DEVICE "N".
Definition is_disable_change_id (S : Settings) : bool := builtin_is S OPTION_DISABLE_CHANGE_ID "Y".
Definition is_disable_tcp_listen (S : Settings) : bool := is_some_hard_opton S "disable-tcp-listen".
Definition is_disable_settings (S : Settings) : bool := is_some_hard_opton S "disable-settings".
Definition is_disable_ab (S : Settings) : bool := is_some_hard_opton S "disable-ab".
Definition is_disable_account (S : Settings) : bool := is_some_hard_opton S "disable-account".
Definition is_disable_installation (S : Settings) : bool := is_some_hard_opton S "disable-installation".

Definition use_ws (S : Settings) (st : State) : bool :=
  option2bool OPTION_ALLOW_WEBSOCKET (get_option S OPTION_ALLOW_WEBSOCKET st).
Definition allow_insecure_tls_fallback (S : Settings) (st : State) : bool :=
  option2bool OPTION_ALLOW_INSECURE_TLS_FALLBACK (get_option S OPTION_ALLOW_INSECURE_TLS_FALLBACK st).

(** ** The signing key pair

    [KEY_PAIR] is the cache of the process, [mem] the pair in [CONFIG], [disk]
    the pair in the file; a secret key that is empty stands for no pair.
    [pending] are the threads that will put the new pair into [CONFIG] and
    store it. *)
Abbreviation KeyPair := (list Z * list Z)%type.

Record KeyState : Type := mkKeyState {
  KEY_PAIR : option KeyPair; mem : KeyPair; disk : KeyPair; pending : list KeyPair }.

(** [get_key_pair]; [gen] is what [sign::gen_keypair] would give (secret key
    first). *)
Definition get_key_pair (gen : KeyPair) (k : KeyState) : KeyPair * KeyState :=
  match KEY_PAIR k with
  | Some p => (p, k)
  | None =>
    match fst (disk k) with
    | [] => (gen, mkKeyState (Some gen) (mem k) (disk k) (pending k ++ [gen]))
    | _ => (disk k, mkKeyState (Some (disk k)) (mem k) (disk k) (pending k))
    end
  end.

(** What happens to the pairs in a process: a request for the pair, a thread of
    [get_key_pair] that runs, any other function that stores [CONFIG]. *)
Inductive KeyEvent : Type :=
| Ask (gen : KeyPair)
| ThreadRuns
| StoreConfig.

Definition key_step (ev : KeyEvent) (k : KeyState) : option KeyPair * KeyState :=
  match ev with
  | Ask gen => let '(p, k) := get_key_pair gen k in (Some p, k)
  | ThreadRuns =>
    match pending k with
    | p :: rest => (None, mkKeyState (KEY_PAIR k) p p rest)
    | [] => (None, k)
    end
  | StoreConfig => (None, mkKeyState (KEY_PAIR k) (mem k) (mem k) (pending k))
  end.

Fixpoint key_run (evs : list KeyEvent) (k : KeyState) : list KeyPair * KeyState :=
  match evs with
  | [] => ([], k)
  | ev :: evs =>
    let '(o, k) := key_step ev k in
    let '(l, k) := key_run evs k in
    (match o with Some p => p :: l | None => l end, k)
  end.

(** A process starts with the pair of the file in [CONFIG]. *)
Definition key_start (d : KeyPair) : KeyState := mkKeyState None d d [].

(** ** The proxy *)

Inductive NetworkType : Type := Direct | ProxySocks.

#[global] Instance NetworkType_eq_dec : EqDecision NetworkType.
Proof. solve_decision. Defined.

Section Proxy.
Context `{SB : SecretBox} `{B64 : Base64}.
Context (get_uuid : list Z) (S : Settings).

Definition text_of (o : option string) : text := match o with Some v => str_bytes v | None => [] end.

Definition set_socks (sk : option Socks5Server) (st : State) : State :=
  if bool_decide (is_Some (OVERWRITE_SETTINGS S !! OPTION_PROXY_URL)) then st
  else if bool_decide (socks (CONFIG2 st) = sk) then st
  else
    let d := DEFAULT_SETTINGS S in
    let s := match sk with Some s => s | None => mkSocks "" "" [] end in
    let url := bool_decide (d !! OPTION_PROXY_URL = Some (proxy s)) in
    let user := bool_decide (d !! OPTION_PROXY_USERNAME = Some (username s)) in
    let pass := match d !! OPTION_PROXY_PASSWORD with
                | Some x => bool_decide (str_bytes x = socks_password s) | None => false end in
    if match socks (CONFIG2 st) with None => true | _ => false end
       && (bool_decide (is_Some (d !! OPTION_PROXY_URL)) && url && user && pass)
    then st
    else upd2 get_uuid (with_socks sk) st.

Definition get_socks_from_custom_client_advanced_settings (settings : gmap string string) : option Socks5Server :=
  match settings !! OPTION_PROXY_URL with
  | None => None
  | Some url => Some (mkSocks url (unwrap_or "" (settings !! OPTION_PROXY_USERNAME))
                        (text_of (settings !! OPTION_PROXY_PASSWORD)))
  end.

Definition get_socks (st : State) : option Socks5Server :=
  match get_socks_from_custom_client_advanced_settings (OVERWRITE_SETTINGS S) with
  | Some s => Some s
  | None =>
    match socks (CONFIG2 st) with
    | Some s => Some s
    | None => get_socks_from_custom_client_advanced_settings (DEFAULT_SETTINGS S)
    end
  end.

Definition get_network_type (st : State) : NetworkType :=
  if bool_decide (is_Some (OVERWRITE_SETTINGS S !! OPTION_PROXY_URL)) then ProxySocks
  else if bool_decide (is_Some (socks (CONFIG2 st))) then ProxySocks
  else if bool_decide (is_Some (DEFAULT_SETTINGS S !! OPTION_PROXY_URL)) then ProxySocks
  else Direct.

Definition is_proxy (st : State) : bool := negb (bool_decide (get_network_type st = Direct)).

End Proxy.

(** ** [LocalConfig]: settings of the user interface

    [lfile] is what the last [store] wrote. *)
Record LocalConfig : Type := mkLocal {
  remote_id : string; kb_layout_type : string; size : Z * Z * Z * Z; fav : list string;
  l_options : gmap string string; ui_flutter : gmap string string }.

Record LocalState : Type := mkLocalState { LOCAL_CONFIG : LocalConfig; lfile : LocalConfig }.

(** [OVERWRITE_LOCAL_SETTINGS], [DEFAULT_LOCAL_SETTINGS] *)
Record LocalSettings : Type := mkLocalSettings {
  OVERWRITE_LOCAL_SETTINGS : gmap string string; DEFAULT_LOCAL_SETTINGS : gmap string string }.

Definition l_store (c : LocalConfig) : LocalState := mkLocalState c c.

Definition with_l_options (o : gmap string string) (c : LocalConfig) : LocalConfig :=
  mkLocal (remote_id c) (kb_layout_type c) (size c) (fav c) o (ui_flutter c).
Definition with_ui_flutter (o : gmap string string) (c : LocalConfig) : LocalConfig :=
  mkLocal (remote_id c) (kb_layout_type c) (size c) (fav c) (l_options c) o.

Definition set_kb_layout_type (t : string) (s : LocalState) : LocalState :=
  let c := LOCAL_CONFIG s in
  l_store (mkLocal (remote_id c) t (size c) (fav c) (l_options c) (ui_flutter c)).

Definition set_size (x y w h : Z) (s : LocalState) : LocalState :=
  let c := LOCAL_CONFIG s in
  if bool_decide ((x, y, w, h) = size c) || (w <? 300) || (h <? 300) then s
  else l_store (mkLocal (remote_id c) (kb_layout_type c) (x, y, w, h) (fav c) (l_options c) (ui_flutter c)).

Definition set_remote_id (r : string) (s : LocalState) : LocalState :=
  let c := LOCAL_CONFIG s in
  if String.eqb r (remote_id c) then s
  else l_store (mkLocal r (kb_layout_type c) (size c) (fav c) (l_options c) (ui_flutter c)).

Definition set_fav (f : list string) (s : LocalState) : LocalState :=
  let c := LOCAL_CONFIG s in
  if bool_decide (fav c = f) then s
  else l_store (mkLocal (remote_id c) (kb_layout_type c) (size c) f (l_options c) (ui_flutter c)).

Section Local.
Context (L : LocalSettings).

Definition l_get_option (k : string) (s : LocalState) : string :=
  unwrap_or "" (get_or (OVERWRITE_LOCAL_SETTINGS L) (l_options (LOCAL_CONFIG s)) (DEFAULT_LOCAL_SETTINGS L) k).

Definition get_option_from_file (k : string) (s : LocalState) : string :=
  unwrap_or "" (get_or (OVERWRITE_LOCAL_SETTINGS L) (l_options (lfile s)) (DEFAULT_LOCAL_SETTINGS L) k).

Definition l_get_bool_option (k : string) (s : LocalState) : bool := option2bool k (l_get_option k s).

Definition l_set_option (k v : string) (s : LocalState) : LocalState :=
  let c := LOCAL_CONFIG s in
  if negb (is_option_can_save (OVERWRITE_LOCAL_SETTINGS L) k (DEFAULT_LOCAL_SETTINGS L) v) then
    match l_options c !! k with
    | Some _ => l_store (with_l_options (delete k (l_options c)) c)
    | None => s
    end
  else if String.eqb k OPTION_LANGUAGE && String.eqb v "default" then
    l_store (with_l_options (<[ k := "" ]> (l_options c)) c)
  else
    let v2 := if String.eqb v "" then None else Some v in
    if negb (bool_decide (v2 = l_options c !! k)) then
      l_store (with_l_options (match v2 with None => delete k (l_options c) | Some v => <[ k := v ]> (l_options c) end) c)
    else s.

Definition get_flutter_option (k : string) (s : LocalState) : string :=
  unwrap_or "" (get_or (OVERWRITE_LOCAL_SETTINGS L) (ui_flutter (LOCAL_CONFIG s)) (DEFAULT_LOCAL_SETTINGS L) k).

Definition set_flutter_option (k v : string) (s : LocalState) : LocalState :=
  let c := LOCAL_CONFIG s in
  let v2 := if String.eqb v "" then None else Some v in
  if negb (bool_decide (v2 = ui_flutter c !! k)) then
    l_store (with_ui_flutter (match v2 with None => delete k (ui_flutter c) | Some v => <[ k := v ]> (ui_flutter c) end) c)
  else s.

End Local.

(** ** [Status] *)
Definition status_get (k : string) (s : gmap string string) : string := unwrap_or "" (s !! k).
Definition status_set (k v : string) (s : gmap string string) : gmap string string :=
  if String.eqb (status_get k s) v then s else <[ k := v ]> s.

(** ** The caches of the address book and of the group

    [Ab] and [Group] have the same functions: the JSON text compressed, sealed
    and written to one file, [None] when there is none.  [zstd] and the parser
    are parameters; a file that cannot be created stays as it is. *)
Section Cache.
Context `{SB : SecretBox}.
Context (get_uuid : list Z) (zcompress zdecompress : list Z -> list Z).
Context {T : Type} (from_str : text -> option T) (dflt : T).

Definition MAX_LEN : Z := 64 * 1024 * 1024.

(** [store]: [create] says whether the file can be opened for writing, which
    empties it. *)
Definition cache_store (create : bool) (json : text) (f : option (list Z)) : option (list Z) :=
  if create then
    let data := zcompress json in
    if MAX_LEN <? len data then Some []
    else match symmetric_crypt get_uuid data true with
         | Some data => Some data
         | None => Some []
         end
  else f.

Definition cache_remove (f : option (list Z)) : option (list Z) := None.

(** [load]: the value and the file. *)
Definition cache_load (f : option (list Z)) : T * option (list Z) :=
  let opened := match f with Some data => symmetric_crypt get_uuid data false | None => None end in
  let parsed := match opened with
                | Some data => from_str (from_utf8_lossy (zdecompress data))
                | None => None
                end in
  match parsed with
  | Some v => (v, f)
  | None => (dflt, cache_remove f)
  end.

End Cache.

End ConfigMore.
