(* ===== verification/ConfigMoreProofs.v ===== *)
(** * Properties of the identity, the key pair, the proxy and the caches *)

From S2P Require Import Prelude RustStr SecureStream Password Config ConfigMore.

Module ConfigMoreFacts.

Import Config Utf8 Vault ConfigMore.

(** ** The key pair *)

(** Once a pair [p] is in use, what is to be stored is [p]. *)
Definition keyed (p : KeyPair) (k : KeyState) : Prop :=
  KEY_PAIR k = Some p /\ Forall (eq p) (pending k) /\ (pending k = [] -> mem k = p /\ disk k = p).

Definition unasked (k : KeyState) : Prop := KEY_PAIR k = None /\ pending k = [] /\ mem k = disk k.

Lemma unasked_step ev k : unasked k ->
  (exists gen p k', ev = Ask gen /\ key_step ev k = (Some p, k') /\ keyed p k') \/
  (exists k', key_step ev k = (None, k') /\ unasked k').
Proof.
  intros (Hk & Hp & Hm). destruct ev as [gen| |]; cbn [key_step].
  - left. unfold get_key_pair. rewrite Hk. destruct (fst (disk k)) eqn:E; rewrite Hp; cbn [app].
    + eexists _, gen, _. split; [done|]. split; [done|]. split_and!; [done|by constructor|done].
    + eexists _, (disk k), _. split; [done|]. split; [done|]. split_and!; [done|by constructor|]. intros _.
      cbn. by rewrite Hm.
  - right. rewrite Hp. by exists k.
  - right. eexists. split; [done|]. by unfold unasked.
Qed.

Lemma keyed_step p ev k : keyed p k ->
  exists o k', key_step ev k = (o, k') /\ (o = None \/ o = Some p) /\ keyed p k'.
Proof.
  intros (Hk & Hp & Hm). destruct ev as [gen| |]; cbn [key_step].
  - unfold get_key_pair. rewrite Hk. eexists _, _. split; [done|]. split; [by right|]. done.
  - destruct (pending k) as [|q l] eqn:E.
    + eexists _, _. split; [done|]. split; [by left|]. unfold keyed. by rewrite E.
    + apply Forall_cons in Hp as [-> Hl]. eexists _, _. split; [done|]. split; [by left|].
      split_and!; [done|done|done].
  - eexists _, _. split; [done|]. split; [by left|]. split_and!; [done|done|]. intros E. by destruct (Hm E).
Qed.

Lemma keyed_run p evs k l k' : keyed p k -> key_run evs k = (l, k') -> Forall (eq p) l /\ keyed p k'.
Proof.
  revert k l. induction evs as [|ev evs IH]; intros k l Hk; cbn [key_run].
  - intros [= <- <-]. split; [constructor|done].
  - destruct (keyed_step p ev k Hk) as (o & k1 & -> & Ho & Hk1).
    destruct (key_run evs k1) as [l1 k2] eqn:E. intros [= <- <-].
    destruct (IH k1 l1 Hk1 E) as [Hl Hk2]. split; [|done]. destruct Ho as [-> | ->]; [done|by constructor].
Qed.

(** A process has one key pair: whatever is asked and stored in whatever
    order, every request gets the same pair, and as soon as the threads that
    store a new pair have run the file holds it, so that the next process
    starts with it. *)
Theorem one_key_pair d evs l k :
  key_run evs (key_start d) = (l, k) ->
  exists p, Forall (eq p) l /\ (l <> [] -> pending k = [] -> disk k = p /\ mem k = p).
Proof.
  enough (G : forall k0, unasked k0 -> key_run evs k0 = (l, k) ->
            exists p, Forall (eq p) l /\ (l <> [] -> pending k = [] -> disk k = p /\ mem k = p)).
  { intros E. by apply (G (key_start d)). }
  revert l. induction evs as [|ev evs IH]; intros l k0 Hu; cbn [key_run].
  - intros [= <- <-]. exists ([], []). split; [constructor|done].
  - destruct (unasked_step ev k0 Hu) as [(gen & p & k1 & -> & -> & Hk1)|(k1 & -> & Hu1)];
      destruct (key_run evs k1) as [l1 k2] eqn:E; intros [= <- <-].
    + destruct (keyed_run p evs k1 l1 k2 Hk1 E) as [Hl (_ & _ & Hd)]. exists p. split; [by constructor|].
      intros _ Hp. destruct (Hd Hp). done.
    + by apply (IH l1 k1).
Qed.

Lemma one_key_pair_witness :
  exists p, Forall (eq p) [([1], [2]); ([1], [2])]
    /\ ([([1], [2]); ([1], [2])] <> [] -> ([] : list KeyPair) = [] -> ([1], [2]) = p /\ ([1], [2]) = p).
Proof.
  exact (one_key_pair ([], []) [StoreConfig; Ask ([1], [2]); ThreadRuns; Ask ([3], [4])]
           [([1], [2]); ([1], [2])] (mkKeyState (Some ([1], [2])) ([1], [2]) ([1], [2]) []) eq_refl).
Defined.

(** ** Identities *)

Lemma mac_id_small ma : 0 <= mac_id ma < 2 ^ 29.
Proof.
  unfold mac_id. change 0x1FFFFFFF with (Z.ones 29). rewrite Z.land_ones by done.
  apply Z.mod_pos_bound. done.
Qed.

Lemma str_bytes_inj a b : str_bytes a = str_bytes b -> a = b.
Proof.
  unfold str_bytes. revert b. induction a as [|x a IH]; intros [|y b]; cbn [String.list_ascii_of_string map]; try done.
  intros [= Hxy Hab]. f_equal; [|by apply IH].
  unfold ascii_code in Hxy. rewrite <-(ascii_nat_embedding x), <-(ascii_nat_embedding y).
  f_equal. lia.
Qed.

(** An identity that is updated after a conflict is not one that the hardware
    address of any machine gives. *)
Lemma updated_id_new mach draw : in_id_range draw -> get_auto_id mach <> Some (str_bytes (show draw)).
Proof.
  unfold in_id_range, get_auto_id. intros Hd. destruct (mac_address mach) as [ma|]; [|done].
  intros [= H%str_bytes_inj]. pose proof (mac_id_small ma) as Hm.
  pose proof (parse_show_nonneg 0 (2 ^ 62) (mac_id ma)) as H1.
  pose proof (parse_show_nonneg 0 (2 ^ 62) draw) as H2.
  rewrite H in H1. rewrite H1 in H2 by lia. assert (Some (mac_id ma) = Some draw) as [= E] by (apply H2; lia). lia.
Qed.

(** ** The proxy *)

(** The two readings of the proxy agree: there is a proxy to use exactly
    when the network type says so, whatever the layers of settings hold. *)
Theorem network_type_is_socks S st :
  get_network_type S st = ProxySocks <-> get_socks S st <> None.
Proof.
  unfold get_network_type, get_socks, get_socks_from_custom_client_advanced_settings.
  destruct (OVERWRITE_SETTINGS S !! OPTION_PROXY_URL); [done|].
  rewrite (bool_decide_false (is_Some None)) by (intros [? ?]; done).
  destruct (socks (CONFIG2 st)); [done|].
  rewrite (bool_decide_false (is_Some None)) by (intros [? ?]; done).
  destruct (DEFAULT_SETTINGS S !! OPTION_PROXY_URL); [done|].
  rewrite (bool_decide_false (is_Some None)) by (intros [? ?]; done). done.
Qed.

(** ** The caches *)

Section Caches.
Context `{SB : SecretBox} {SBL : SecretBoxLaws SB}.
Context (get_uuid : list Z) (zcompress zdecompress : list Z -> list Z).
Context {T : Type} (from_str : text -> option T) (dflt : T).
Hypothesis zip : forall l, zdecompress (zcompress l) = l.

Lemma crypt_roundtrip data :
  exists c, symmetric_crypt get_uuid data true = Some c /\ symmetric_crypt get_uuid c false = Some data.
Proof using SBL. eexists. split; [done|]. cbn [symmetric_crypt]. apply open_seal. Qed.

(** The address book that is stored is the one that is loaded, unless it is
    too large compressed: then storing it empties the file, and the next load
    gives the default and removes the file, so the copy that was there before
    is lost as well. *)
Theorem cache_roundtrip json v f :
  is_utf8 json = true -> from_str json = Some v -> symmetric_crypt get_uuid [] false = None ->
  let f' := cache_store get_uuid zcompress true json f in
  if MAX_LEN <? len (zcompress json)
  then cache_load get_uuid zdecompress from_str dflt f' = (dflt, None)
  else cache_load get_uuid zdecompress from_str dflt f' = (v, f').
Proof using SBL zip.
  intros Hu Hv Hc. unfold cache_store. destruct (MAX_LEN <? len (zcompress json)).
  - unfold cache_load. by rewrite Hc.
  - destruct (crypt_roundtrip (zcompress json)) as (c & -> & Hd). unfold cache_load.
    by rewrite Hd, zip, from_utf8_lossy_valid, Hv.
Qed.

End Caches.

End ConfigMoreFacts.
