(* ===== verification/Rendezvous.v ===== *)
(** * Registration with the rendezvous server ([src/rendezvous_mediator.rs])

    A mediator keeps this machine registered with a rendezvous server, over UDP
    or TCP, and answers the requests the server forwards from controlling
    sides: a hole to punch, an address of the local network, a relay.  Also
    here: [create_relay_connection] and [accept_connection] of
    [src/server.rs], the test of the NAT ([test_nat_type] of [src/common.rs]),
    and the server for direct access.

    Messages are values, a datagram that does not parse is [None].  The sockets
    are inputs: the result of each send, connection and rebinding comes from
    the event or from [TaskEnv].  Tasks that the code spawns are effects; the
    body of a task is a function from what it reads to what it does.  The two
    locks a task takes to recognise a repeated message are two steps; after
    them a task reads the configuration at one moment.  The constant version of
    the program is left out of the messages.  Instants are in nanoseconds. *)

From S2P Require Import Prelude RustStr NetUtil SecureStream Password Config ConfigMore.

Module Rendezvous.

Import AddrMangle HostPort Config ConfigMore.

#[global] Instance SocketAddr_eq_dec : EqDecision SocketAddr.
Proof. solve_decision. Defined.

(** ** Messages *)

(** The bits of [ControlPermissions], if the field is there. *)
Abbreviation Perms := (option Z).

Record PunchHole : Type := mkPunchHole {
  ph_socket_addr : list Z; ph_relay_server : string; ph_nat_type : Z; ph_udp_port : Z; ph_force_relay : bool;
  ph_socket_addr_v6 : list Z; ph_control_permissions : Perms }.

Record RequestRelay : Type := mkRequestRelay {
  rr_uuid : string; rr_socket_addr : list Z; rr_relay_server : string; rr_secure : bool;
  rr_control_permissions : Perms }.

Record FetchLocalAddr : Type := mkFetchLocalAddr {
  fla_socket_addr : list Z; fla_relay_server : string; fla_socket_addr_v6 : list Z;
  fla_control_permissions : Perms }.

Inductive PkResult : Type := PkOk | UUID_MISMATCH | PkOther.

(** The part of [RendezvousMessage] the mediator handles. *)
Inductive RzMsg : Type :=
| RegisterPeerResponse (request_pk : bool)
| RegisterPkResponse (res : PkResult) (keep_alive : Z)
| MPunchHole (ph : PunchHole)
| MRequestRelay (rr : RequestRelay)
| MFetchLocalAddr (fla : FetchLocalAddr)
| ConfigureUpdate (serial : Z) (rendezvous_servers : list string)
| OtherMsg.

(** What is sent. *)
Inductive RzOut : Type :=
| RegisterPk (id uuid pk : list Z) (no_register_device : bool)
| RegisterPeer (id : list Z) (serial : Z)
| RelayResponse (socket_addr socket_addr_v6 : list Z) (initiate : option (string * string * list Z))
| LocalAddr (id socket_addr local_addr : list Z) (relay_server : string) (socket_addr_v6 : list Z)
| PunchHoleSent (socket_addr id : list Z) (relay_server : string) (nat_type : Z) (socket_addr_v6 : list Z)
| ORequestRelay (licence_key uuid : string)
| TestNatRequest (serial : Z).

(** ** The state *)

Inductive TargetAddr : Type :=
| Ip (a : SocketAddr)
| Domain (host : string) (port : Z).

(** [socket_client::is_ipv4] *)
Definition is_ipv4 (t : TargetAddr) : bool := match t with Ip (V6 _ _ _ _) => false | _ => true end.

Set Primitive Projections.
Record RendezvousMediator : Type := mkRz {
  addr : TargetAddr; host : string; host_prefix : string; keep_alive : Z }.
Unset Primitive Projections.

(** The statics of the file and the configuration. *)
Set Primitive Projections.
Record Glob : Type := mkGlob {
  cfg : State;
  keys : KeyState;
  SOLVING_PK_MISMATCH : string;
  LAST_MSG : SocketAddr * Z;
  LAST_RELAY_MSG : SocketAddr * Z;
  SHOULD_EXIT : bool;
  MANUAL_RESTARTED : bool }.
Unset Primitive Projections.

(** What a mediator asks for besides its own state. *)
Inductive Task : Type :=
| HandlePunchHole (ph : PunchHole)
| HandleRequestRelay (rr : RequestRelay)
| HandleIntranet (fla : FetchLocalAddr).

Inductive Out : Type :=
| Send (m : RzOut)
| Heartbeat
| Spawn (rz : RendezvousMediator) (t : Task).

(** How a step ends: the loop goes on, or the function returns. *)
Inductive Flow (A : Type) : Type :=
| Go (a : A)
| Exit
| Bail (e : string).
Arguments Go {A} a.
Arguments Exit {A}.
Arguments Bail {A} e.

Definition RENDEZVOUS_PORT : Z := 21116.
Definition RELAY_PORT : Z := 21117.
Definition CONNECT_TIMEOUT : Z := 18000.
Definition REG_INTERVAL : Z := 15000.
Definition DEFAULT_KEEP_ALIVE : Z := 60000.
Definition MIN_REG_TIMEOUT : Z := 3000.
Definition MAX_REG_TIMEOUT : Z := 30000.
Definition MAX_FAILS1 : Z := 2.
Definition MAX_FAILS2 : Z := 4.
Definition DNS_INTERVAL : Z := 60000.

(** [NatType] *)
Definition UNKNOWN_NAT : Z := 0.
Definition ASYMMETRIC : Z := 1.
Definition SYMMETRIC : Z := 2.

(** [Duration::as_millis], [as_micros] of nanoseconds *)
Definition as_millis (d : Z) : Z := d / 1000000.
Definition as_micros (d : Z) : Z := d / 1000.

Definition get_host_prefix (host : string) : string :=
  match split_char "." host with
  | x :: _ => match parse_i32 x with Some _ => host | None => x end
  | [] => host
  end.

(** [RendezvousMediator::restart] *)
Definition restart (g : Glob) : Glob := g <| SHOULD_EXIT := true |> <| MANUAL_RESTARTED := true |>.

Section Mediator.
Context `{SB : SecretBox} `{B64 : Base64}.
Context (get_uuid : list Z) (S : Settings) (mach : Machine).
(** [EXE_RENDEZVOUS_SERVER], [PROD_RENDEZVOUS_SERVER] *)
Context (exe prod : string).
Context (is_ipv6_str is_ipv4_str : string -> bool).

Abbreviation check_port := (check_port is_ipv6_str).
Abbreviation increase_port := (increase_port is_ipv6_str).
Abbreviation get_option k g := (get_option S k (cfg g)).

Definition with_cfg (f : State -> State) (g : Glob) : Glob := g <| cfg := f (cfg g) |>.

(** [common.rs] *)
Definition get_custom_rendezvous_server (custom : string) : string :=
  if negb (String.eqb custom "") then custom
  else if negb (String.eqb prod "") then prod else "".

(** [using_public_server]; [env_server] is the server the build was given. *)
Definition using_public_server (env_server : string) (g : Glob) : bool :=
  String.eqb env_server "" && String.eqb (get_custom_rendezvous_server (get_option "custom-rendezvous-server" g)) "".

Definition is_udp_disabled (g : Glob) : bool := String.eqb (get_option "disable-udp" g) "Y".

Definition RS_PUB_KEY : string := "OeVuKk5nlHiXp+APNn0Y3pC1Iwpwn44JGqrQCsWqmBw=".

(** [get_key(true)] *)
Definition get_key (g : Glob) : string :=
  let key := get_option "key" g in if String.eqb key "" then RS_PUB_KEY else key.

(** What a step on the socket of a mediator needs from outside: the instant,
    the results of its sends, a generated key pair and a random number. *)
Record StepEnv : Type := mkStepEnv {
  now : Z;
  send_res : result unit string;
  gen : KeyPair;
  draw : Z }.

(** ** Registering *)

Definition sent (e : StepEnv) (m : RzOut) (g : Glob) : list Out * Flow unit * Glob :=
  ([Send m], match send_res e with Ok _ => Go tt | Err err => Bail err end, g).

Definition register_pk (e : StepEnv) (g : Glob) : list Out * Flow unit * Glob :=
  let '((_, pk), ks) := get_key_pair (gen e) (keys g) in
  let '(i, c) := get_id get_uuid S mach (cfg g) in
  sent e (RegisterPk i get_uuid pk (no_register_device S)) (g <| keys := ks |> <| cfg := c |>).

Definition may_solve (rz : RendezvousMediator) (g : Glob) : bool :=
  String.eqb (SOLVING_PK_MISMATCH g) "" || String.eqb (SOLVING_PK_MISMATCH g) (host rz).

Definition handle_uuid_mismatch (e : StepEnv) (rz : RendezvousMediator) (g : Glob)
  : list Out * Flow unit * Glob :=
  if may_solve rz g then
    let g := with_cfg (set_key_confirmed get_uuid false) g in
    let g := with_cfg (update_id get_uuid S mach (draw e)) g in
    register_pk e (g <| SOLVING_PK_MISMATCH := host rz |>)
  else ([], Go tt, g).

Definition register_peer (e : StepEnv) (rz : RendezvousMediator) (g : Glob) : list Out * Flow unit * Glob :=
  if negb (may_solve rz g) then ([], Go tt, g)
  else if negb (key_confirmed (CONFIG (cfg g))) || negb (get_host_key_confirmed (host_prefix rz) (cfg g)) then
    register_pk e g
  else
    let '(i, c) := get_id get_uuid S mach (cfg g) in
    let g := g <| cfg := c |> in
    sent e (RegisterPeer i (get_serial (cfg g))) g.

(** ** [handle_resp]; [upd] is [update_latency] on the state [L] of the loop *)
Definition handle_resp {L} (e : StepEnv) (upd : L -> Glob -> L * Glob) (msg : option RzMsg)
  (rz : RendezvousMediator) (l : L) (g : Glob) : list Out * Flow (RendezvousMediator * L) * Glob :=
  match msg with
  | Some (RegisterPeerResponse request_pk) =>
    let '(l, g) := upd l g in
    if request_pk then
      let '(o, f, g) := register_pk e g in
      (o, match f with Go _ => Go (rz, l) | Exit => Exit | Bail err => Bail err end, g)
    else ([], Go (rz, l), g)
  | Some (RegisterPkResponse res ka) =>
    let '(l, g) := upd l g in
    let '(o, f, g) :=
      match res with
      | PkOk =>
        let g := with_cfg (set_key_confirmed get_uuid true) g in
        let g := with_cfg (set_host_key_confirmed get_uuid (host_prefix rz) true) g in
        ([], Go tt, g <| SOLVING_PK_MISMATCH := "" |>)
      | UUID_MISMATCH => handle_uuid_mismatch e rz g
      | PkOther => ([], Go tt, g)
      end in
    (o, match f with
        | Go _ => Go (if 0 <? ka then rz <| keep_alive := i32 (ka * 1000) |> else rz, l)
        | Exit => Exit
        | Bail err => Bail err
        end, g)
  | Some (MPunchHole ph) => ([Spawn rz (HandlePunchHole ph)], Go (rz, l), g)
  | Some (MRequestRelay rr) => ([Spawn rz (HandleRequestRelay rr)], Go (rz, l), g)
  | Some (MFetchLocalAddr fla) => ([Spawn rz (HandleIntranet fla)], Go (rz, l), g)
  | Some (ConfigureUpdate serial servers) =>
    let v0 := get_rendezvous_servers S exe prod (cfg g) in
    let g := with_cfg (set_option get_uuid S "rendezvous-servers" (String.concat "," servers)) g in
    let g := with_cfg (set_serial get_uuid serial) g in
    let g := if negb (bool_decide (v0 = get_rendezvous_servers S exe prod (cfg g))) then restart g else g in
    ([], Go (rz, l), g)
  | _ => ([], Go (rz, l), g)
  end.

(** ** The loop over UDP *)

Set Primitive Projections.
Record UdpLoop : Type := mkUdpLoop {
  reg_timeout : Z; fails : Z;
  last_register_resp : option Z; last_register_sent : option Z; last_dns_check : Z;
  old_latency : Z; ema_latency : Z }.
Unset Primitive Projections.

Definition udp_start (t : Z) : UdpLoop := mkUdpLoop MIN_REG_TIMEOUT 0 None None t 0 0.

(** The closure [update_latency] of [start_udp]. *)
Definition udp_update_latency (t : Z) (h : string) (l : UdpLoop) (g : Glob) : UdpLoop * Glob :=
  let latency := match last_register_sent l with Some x => as_micros (t - x) | None => 0 end in
  let l := l <| last_register_resp := Some t |> <| fails := 0 |> <| reg_timeout := MIN_REG_TIMEOUT |>
             <| last_register_sent := None |> in
  if (latency <? 0) || (1000000 <? latency) then (l, g)
  else
    let '(ema, latency) :=
      if ema_latency l =? 0 then (latency, latency)
      else let ema := Z.quot latency 30 + Z.quot (ema_latency l * 29) 30 in (ema, ema) in
    let l := l <| ema_latency := ema |> in
    let n := Z.max 3000 (Z.quot latency 5) in
    if (n <? Z.abs (latency - old_latency l)) || (old_latency l <=? 0) then
      (l <| old_latency := latency |>, with_cfg (update_latency get_uuid h latency) g)
    else (l, g).

Inductive UdpEvent : Type :=
| Datagram (from : SocketAddr) (msg : option (option RzMsg))
| SocketError (e : string)
| SocketNone
| Tick (rebind : result (option TargetAddr) string).

(** The tick of the timer once [SHOULD_EXIT] is not set. *)
Definition udp_tick (env_server : string) (e : StepEnv) (rebind : result (option TargetAddr) string)
  (rz : RendezvousMediator) (l : UdpLoop) (g : Glob) : list Out * Flow (RendezvousMediator * UdpLoop) * Glob :=
  let expired := match last_register_resp l with Some x => REG_INTERVAL <=? as_millis (now e - x) | None => true end in
  let timeout := match last_register_sent l with Some x => reg_timeout l <=? as_millis (now e - x) | None => false end in
  let l := if using_public_server env_server g && (timeout && (reg_timeout l <? MAX_REG_TIMEOUT))
           then l <| reg_timeout := reg_timeout l + MIN_REG_TIMEOUT |> else l in
  if timeout || (match last_register_sent l with None => true | _ => false end && expired) then
    let failed :=
      if timeout then
        let l := l <| fails := fails l + 1 |> in
        if MAX_FAILS2 <=? fails l then
          let g := with_cfg (update_latency get_uuid (host rz) (-1)) g in
          let l := l <| old_latency := 0 |> in
          if DNS_INTERVAL <? as_millis (now e - last_dns_check l) then
            match rebind with
            | Err err => (Bail err, g)
            | Ok a => (Go (match a with Some a => rz <| addr := a |> | None => rz end,
                           l <| last_dns_check := now e |>), g)
            end
          else (Go (rz, l), g)
        else if MAX_FAILS1 <=? fails l then
          (Go (rz, l <| old_latency := 0 |>), with_cfg (update_latency get_uuid (host rz) 0) g)
        else (Go (rz, l), g)
      else (Go (rz, l), g) in
    match failed with
    | (Go (rz, l), g) =>
      let '(o, f, g) := register_peer e rz g in
      (o, match f with
          | Go _ => Go (rz, l <| last_register_sent := Some (now e) |>)
          | Exit => Exit
          | Bail err => Bail err
          end, g)
    | (Exit, g) => ([], Exit, g)
    | (Bail err, g) => ([], Bail err, g)
    end
  else ([], Go (rz, l), g).

(** One turn of the loop of [start_udp]. *)
Definition udp_step (env_server : string) (e : StepEnv) (ev : UdpEvent) (rz : RendezvousMediator) (l : UdpLoop)
  (g : Glob) : list Out * Flow (RendezvousMediator * UdpLoop) * Glob :=
  match ev with
  | Datagram _ (Some msg) => handle_resp e (udp_update_latency (now e) (host rz)) msg rz l g
  | Datagram _ None => ([], Go (rz, l), g)
  | SocketError err => ([], Bail ("Failed to receive next: " +:+ err), g)
  | SocketNone => ([], Bail "Socket receive none. Maybe socks5 server is down.", g)
  | Tick rebind => if SHOULD_EXIT g then ([], Exit, g) else udp_tick env_server e rebind rz l g
  end.

(** The mediator [start_udp] makes; [a] is the address [new_udp_for] found. *)
Definition new_mediator (a : TargetAddr) (h : string) : RendezvousMediator :=
  mkRz a h (get_host_prefix h) DEFAULT_KEEP_ALIVE.

Definition start_udp (h : string) (t : Z) (bound : result TargetAddr string)
  : result (RendezvousMediator * UdpLoop) string :=
  match bound with
  | Err e => Err e
  | Ok a => Ok (new_mediator a (check_port h RENDEZVOUS_PORT), udp_start t)
  end.

(** ** The loop over TCP *)

Set Primitive Projections.
Record TcpLoop : Type := mkTcpLoop { t_last_register_sent : option Z; last_recv_msg : Z }.
Unset Primitive Projections.

Definition tcp_update_latency (t : Z) (h : string) (l : TcpLoop) (g : Glob) : TcpLoop * Glob :=
  let latency := match t_last_register_sent l with Some x => as_micros (t - x) | None => 0 end in
  (l, with_cfg (update_latency get_uuid h latency) g).

(** [Received None]: the connection ended; [Some (Ok None)]: bytes that do not
    parse; [Some (Ok (Some None))]: an empty frame; the innermost option is the
    union of the message. *)
Inductive TcpEvent : Type :=
| Received (res : option (result (option (option (option RzMsg))) string))
| TcpTick.

Definition register_if_unconfirmed (e : StepEnv) (rz : RendezvousMediator) (l : TcpLoop) (g : Glob)
  : list Out * Flow (RendezvousMediator * TcpLoop) * Glob :=
  if (negb (key_confirmed (CONFIG (cfg g))) || negb (get_host_key_confirmed (host_prefix rz) (cfg g)))
     && (REG_INTERVAL <=? match t_last_register_sent l with Some x => as_millis (now e - x) | None => REG_INTERVAL end)
  then
    let '(o, f, g) := register_pk e g in
    (o, match f with
        | Go _ => Go (rz, l <| t_last_register_sent := Some (now e) |>)
        | Exit => Exit
        | Bail err => Bail err
        end, g)
  else ([], Go (rz, l), g).

(** [as u64 * 3 / 2] *)
Definition keep_alive_limit (rz : RendezvousMediator) : Z := u64 (u64 (keep_alive rz) * 3) / 2.

Definition tcp_step (e : StepEnv) (ev : TcpEvent) (rz : RendezvousMediator) (l : TcpLoop) (g : Glob)
  : list Out * Flow (RendezvousMediator * TcpLoop) * Glob :=
  match ev with
  | Received res =>
    let l := l <| last_recv_msg := now e |> in
    match res with
    | None => ([], Bail "Rendezvous connection is reset by the peer", g)
    | Some (Err err) => ([], Bail err, g)
    | Some (Ok (Some None)) =>
      ([Heartbeat], match send_res e with Ok _ => Go (rz, l) | Err err => Bail err end, g)
    | Some (Ok None) => ([], Bail "parse", g)
    | Some (Ok (Some (Some msg))) => handle_resp e (tcp_update_latency (now e) (host rz)) msg rz l g
    end
  | TcpTick =>
    if SHOULD_EXIT g then ([], Exit, g)
    else if keep_alive_limit rz <? u64 (as_millis (now e - last_recv_msg l)) then
      ([], Bail "Rendezvous connection is timeout", g)
    else register_if_unconfirmed e rz l g
  end.

(** [connected] is the local address after the key exchange of [secure_tcp]. *)
Definition start_tcp (h : string) (t : Z) (connected : result TargetAddr string) (g : Glob)
  : result (RendezvousMediator * TcpLoop) string * Glob :=
  match connected with
  | Err e => (Err e, g)
  | Ok a =>
    let rz := new_mediator a (check_port h RENDEZVOUS_PORT) in
    (Ok (rz, mkTcpLoop None t), with_cfg (set_host_key_confirmed get_uuid (host_prefix rz) false) g)
  end.

(** [start]: whether the mediator uses TCP; [test_tcp] is the debugging
    variable of a debug build. *)
Definition start_uses_tcp (test_tcp : bool) (g : Glob) : bool :=
  test_tcp || is_proxy S (cfg g) || use_ws S (cfg g) || is_udp_disabled g.

(** ** All mediators: the loop of [start_all] *)

Inductive Action : Type :=
| StartMediator (host : string)
| CloseConnections
| Sleep (ms : Z).

(** The first half of a round: what it starts. *)
Definition round_begin (installing : bool) (g : Glob) : list Action * Glob :=
  let g := g <| SOLVING_PK_MISMATCH := "" |> in
  if negb (option2bool "stop-service" (get_option "stop-service" g)) && negb installing then
    (map StartMediator (get_rendezvous_servers S exe prod (cfg g)),
     g <| SHOULD_EXIT := false |> <| MANUAL_RESTARTED := false |>)
  else ([CloseConnections], g).

(** A mediator that ends makes the others end; [timeout] is what the round
    waits for at its end. *)
Definition mediator_ended (res : result unit string) (timeout : Z) (g : Glob) : Z * Glob :=
  let timeout := match res with
                 | Err e =>
                   let err := "rendezvous mediator error: " +:+ e in
                   if contains_str "10054" err || contains_str "11001" err then 3000 else timeout
                 | Ok _ => timeout
                 end in
  (timeout, g <| SHOULD_EXIT := true |>).

Definition round_end (timeout elapsed : Z) (g : Glob) : list Action * Glob :=
  let g := with_cfg reset_online g in
  (if negb (MANUAL_RESTARTED g) then
     if elapsed <? timeout then [Sleep ((timeout - elapsed) / 1000 * 1000)] else []
   else [Sleep 33], g).

(** ** The tasks

    [recent] is the check for repeated messages: the first step reads the last
    message, the second writes this one, stamped with the instant [written]
    when it began to wait for the lock; [checked] is the instant of the test. *)
Definition recent (a : SocketAddr) (last : SocketAddr * Z) (checked : Z) : bool :=
  bool_decide (fst last = a) && (as_millis (checked - snd last) <? 100).

(** What a task does, in order. *)
Inductive Effect : Type :=
| ConnectTo (host : string)                          (* [connect_tcp] *)
| SendOn (m : RzOut)                                 (* on that connection *)
| ConnectPeer (peer : SocketAddr) (ms : Z)           (* [connect_tcp_local] from its port *)
| AcceptConnection (peer : SocketAddr) (secure : bool) (perms : Perms)
| CreateRelay (relay_server uuid : string) (peer : SocketAddr) (secure ipv4 : bool) (perms : Perms)
| TestIpv6
| UdpNatListen (peer peer_v4 : SocketAddr) (perms : Perms)
| UdpSend (m : RzOut)
| UdpResend (m : RzOut) (times : Z).

(** What the network and the system answer to a task. *)
Record TaskEnv : Type := mkTaskEnv {
  connect : nat -> result SocketAddr string;          (* the local address of the n-th connection *)
  send_ok : nat -> result unit string;                (* the send on it *)
  ipv6_socket : option (list Z);                      (* [get_ipv6_socket] *)
  new_uuid : string;
  udp_socket : result unit string;                    (* [new_direct_udp_for] *)
  micros : Z }.

Definition get_relay_server (rz : RendezvousMediator) (provided_by_rendezvous_server : string) (g : Glob) : string :=
  let relay_server := get_option "relay-server" g in
  let relay_server := if String.eqb relay_server "" then provided_by_rendezvous_server else relay_server in
  if String.eqb relay_server "" then increase_port (host rz) 1 else relay_server.

(** [Config::get_id] in a task: the identity, and the configuration after. *)
Definition task_id (g : Glob) : list Z * Glob :=
  let '(i, c) := get_id get_uuid S mach (cfg g) in (i, g <| cfg := c |>).

Definition create_relay (te : TaskEnv) (rz : RendezvousMediator) (socket_addr : list Z) (relay_server uuid : string)
  (secure initiate : bool) (socket_addr_v6 : list Z) (perms : Perms) (g : Glob) : list Effect * Glob :=
  let peer_addr := decode socket_addr in
  match connect te 1%nat with
  | Err _ => ([ConnectTo (host rz)], g)
  | Ok _ =>
    let '(init, g) := if initiate then let '(i, g) := task_id g in (Some (uuid, relay_server, i), g)
                      else (None, g) in
    ([ConnectTo (host rz); SendOn (RelayResponse socket_addr socket_addr_v6 init)]
     ++ match send_ok te 1%nat with
        | Ok _ => [CreateRelay relay_server uuid peer_addr secure (is_ipv4 (addr rz)) perms]
        | Err _ => []
        end, g)
  end.

Definition handle_request_relay (te : TaskEnv) (rz : RendezvousMediator) (rr : RequestRelay) (g : Glob)
  : list Effect * Glob :=
  create_relay te rz (rr_socket_addr rr) (rr_relay_server rr) (rr_uuid rr) (rr_secure rr) false []
    (rr_control_permissions rr) g.

Definition start_ipv6 (te : TaskEnv) (peer_v6 peer_v4 : SocketAddr) (perms : Perms) : list Effect * list Z :=
  match ipv6_socket te with
  | Some local => ([TestIpv6; UdpNatListen peer_v6 peer_v4 perms], local)
  | None => ([TestIpv6], [])
  end.

Definition port_of (a : SocketAddr) : Z := match a with V4 _ p => p | V6 _ p _ _ => p end.

(** [format!] of address and port without brackets, parsed again: an IPv6
    address does not parse. *)
Definition reparse (a : SocketAddr) : option SocketAddr := match a with V4 _ _ => Some a | V6 _ _ _ _ => None end.

Definition handle_intranet_ (te : TaskEnv) (rz : RendezvousMediator) (fla : FetchLocalAddr) (relay_server : string)
  (socket_addr_v6 : list Z) (g : Glob) : list Effect * bool * Glob :=
  let peer_addr := decode (fla_socket_addr fla) in
  match connect te 0%nat with
  | Err _ => ([ConnectTo (host rz)], false, g)
  | Ok local =>
    match reparse local with
    | None => ([ConnectTo (host rz)], false, g)
    | Some local =>
      let '(i, g) := task_id g in
      let m := LocalAddr i (encode (micros te) peer_addr) (encode (micros te) local) relay_server socket_addr_v6 in
      match send_ok te 0%nat with
      | Ok _ => ([ConnectTo (host rz); SendOn m; AcceptConnection peer_addr true (fla_control_permissions fla)], true, g)
      | Err _ => ([ConnectTo (host rz); SendOn m], false, g)
      end
    end
  end.

Definition handle_intranet (te : TaskEnv) (rz : RendezvousMediator) (fla : FetchLocalAddr) (g : Glob)
  : list Effect * Glob :=
  let a := decode (fla_socket_addr fla) in
  let peer_addr_v6 := decode (fla_socket_addr_v6 fla) in
  let relay_server := get_relay_server rz (fla_relay_server fla) g in
  let relay := use_ws S (cfg g) || is_proxy S (cfg g) in
  let '(o6, v6) := if (0 <? port_of peer_addr_v6) && negb relay
                   then start_ipv6 te peer_addr_v6 a (fla_control_permissions fla) else ([], []) in
  let '(o1, done, g) :=
    if is_ipv4 (addr rz) && negb relay && negb (is_disable_tcp_listen S)
    then handle_intranet_ te rz fla relay_server v6 g else ([], false, g) in
  if done then (o6 ++ o1, g)
  else
    let '(o2, g) := create_relay te rz (fla_socket_addr fla) relay_server (new_uuid te) true true v6
                      (fla_control_permissions fla) g in
    (o6 ++ o1 ++ o2, g).

(** [NatType::from_i32(..).unwrap_or(UNKNOWN_NAT)] *)
Definition known_nat_type (n : Z) : Z := if (0 <=? n) && (n <=? 2) then n else UNKNOWN_NAT.

Definition set_port (a : SocketAddr) (p : Z) : SocketAddr :=
  match a with V4 ip _ => V4 ip p | V6 ip _ f s => V6 ip p f s end.

Definition punch_udp_hole (te : TaskEnv) (rz : RendezvousMediator) (peer_addr : SocketAddr) (m : RzOut) (perms : Perms)
  : list Effect :=
  match udp_socket te with
  | Err _ => []
  | Ok _ =>
    UdpSend m :: match send_ok te 0%nat with
                 | Ok _ => [UdpResend m 2; UdpNatListen peer_addr peer_addr perms]
                 | Err _ => []
                 end
  end.

Definition handle_punch_hole (te : TaskEnv) (rz : RendezvousMediator) (ph : PunchHole) (g : Glob)
  : list Effect * Glob :=
  let peer_addr := decode (ph_socket_addr ph) in
  let peer_addr_v6 := decode (ph_socket_addr_v6 ph) in
  let relay := use_ws S (cfg g) || is_proxy S (cfg g) || ph_force_relay ph in
  let perms := ph_control_permissions ph in
  let '(o6, v6) := if (0 <? port_of peer_addr_v6) && negb relay
                   then start_ipv6 te peer_addr_v6 peer_addr perms else ([], []) in
  let relay_server := get_relay_server rz (ph_relay_server ph) g in
  if (ph_nat_type ph =? SYMMETRIC) || (nat_type (CONFIG2 (cfg g)) =? SYMMETRIC) || relay
     || (is_disable_tcp_listen S && (ph_udp_port ph <=? 0)) then
    let '(o, g) := create_relay te rz (ph_socket_addr ph) relay_server (new_uuid te) true true v6 perms g in
    (o6 ++ o, g)
  else
    let '(i, g) := task_id g in
    let m := PunchHoleSent (ph_socket_addr ph) i relay_server (known_nat_type (nat_type (CONFIG2 (cfg g)))) v6 in
    if 0 <? ph_udp_port ph then
      (o6 ++ punch_udp_hole te rz (set_port peer_addr (u16 (ph_udp_port ph))) m perms, g)
    else
      match connect te 0%nat with
      | Err _ => (o6 ++ [ConnectTo (host rz)], g)
      | Ok _ =>
        (o6 ++ [ConnectTo (host rz); ConnectPeer peer_addr 30; SendOn m]
         ++ match send_ok te 0%nat with Ok _ => [AcceptConnection peer_addr true perms] | Err _ => [] end, g)
      end.

(** A spawned task: it reads the last message, writes its own, and goes on
    unless the message it read was the same less than 100 ms ago. *)
Inductive TaskState : Type :=
| Spawned (rz : RendezvousMediator) (t : Task)
| HasRead (rz : RendezvousMediator) (t : Task) (last : SocketAddr * Z)
| Finished.

Definition task_addr (t : Task) : SocketAddr :=
  decode match t with
         | HandlePunchHole ph => ph_socket_addr ph
         | HandleRequestRelay rr => rr_socket_addr rr
         | HandleIntranet fla => fla_socket_addr fla
         end.

Definition last_of (t : Task) (g : Glob) : SocketAddr * Z :=
  match t with HandleRequestRelay _ => LAST_RELAY_MSG g | _ => LAST_MSG g end.

Definition set_last (t : Task) (v : SocketAddr * Z) (g : Glob) : Glob :=
  match t with HandleRequestRelay _ => g <| LAST_RELAY_MSG := v |> | _ => g <| LAST_MSG := v |> end.

Definition task_body (te : TaskEnv) (rz : RendezvousMediator) (t : Task) (g : Glob) : list Effect * Glob :=
  match t with
  | HandlePunchHole ph => handle_punch_hole te rz ph g
  | HandleRequestRelay rr => handle_request_relay te rz rr g
  | HandleIntranet fla => handle_intranet te rz fla g
  end.

Definition task_step (te : TaskEnv) (written checked : Z) (s : TaskState) (g : Glob)
  : list Effect * TaskState * Glob :=
  match s with
  | Spawned rz t => ([], HasRead rz t (last_of t g), g)
  | HasRead rz t last =>
    let g := set_last t (task_addr t, written) g in
    if recent (task_addr t) last checked then ([], Finished, g)
    else let '(o, g) := task_body te rz t g in (o, Finished, g)
  | Finished => ([], Finished, g)
  end.

(** ** Connections of the server ([src/server.rs]) *)

Inductive ServerAction : Type :=
| SConnect (target : string)
| SSend (m : RzOut)
| Listen (local : SocketAddr)
| CreateTcpConnection (peer : SocketAddr) (secure : bool) (perms : Perms).

(** [create_relay_connection_] *)
Definition create_relay_connection_ (connected sent_ok : result unit string) (relay_server uuid : string)
  (peer : SocketAddr) (secure ipv4 : bool) (perms : Perms) (g : Glob) : list ServerAction :=
  let target := ipv4_to_ipv6 is_ipv4_str (check_port relay_server RELAY_PORT) ipv4 in
  SConnect target ::
  match connected with
  | Err _ => []
  | Ok _ => SSend (ORequestRelay (get_key g) uuid) ::
            match sent_ok with Ok _ => [CreateTcpConnection peer secure perms] | Err _ => [] end
  end.

(** [accept_connection_]: [accepted] is [None] when nobody came in time. *)
Definition accept_connection_ (local : SocketAddr) (listening : result unit string)
  (accepted : option (result SocketAddr string)) (secure : bool) (perms : Perms) : list ServerAction :=
  Listen local ::
  match listening, accepted with
  | Ok _, Some (Ok a) => [CreateTcpConnection a secure perms]
  | _, _ => []
  end.

(** ** Direct access *)

Definition get_direct_port (g : Glob) : Z :=
  let port := unwrap_or 0 (parse_i32 (get_option "direct-access-port" g)) in
  if port <=? 0 then RENDEZVOUS_PORT + 2 else port.

Definition direct_disabled (g : Glob) : bool :=
  negb (option2bool OPTION_DIRECT_SERVER (get_option OPTION_DIRECT_SERVER g))
  || option2bool "stop-service" (get_option "stop-service" g).

Inductive DirectAction : Type :=
| DListen (port : Z)
| WaitForPort (port : Z)      (* until [get_direct_port] differs *)
| DSession (peer : SocketAddr) (secure : bool) (perms : Perms)
| DSleep (ms : Z).

(** One pass of [direct_server]: the listener is [Some] of the port it was
    opened for. *)
Definition direct_pass (listening : result unit string) (accepted : option (result SocketAddr string))
  (listener : option Z) (g : Glob) : list DirectAction * option Z :=
  let disabled := direct_disabled g in
  let '(o, listener) :=
    match listener with
    | None =>
      if negb disabled then
        let port := get_direct_port g in
        match listening with
        | Ok _ => ([DListen (u16 port)], Some port)
        | Err _ => ([DListen (u16 port); WaitForPort port], None)
        end
      else ([], None)
    | Some _ => ([], listener)
    end in
  match listener with
  | Some port =>
    if disabled || negb (port =? get_direct_port g) then (o, None)
    else match accepted with
         | Some (Ok a) => (o ++ [DSession a false None], listener)
         | _ => (o ++ [DSleep 100], listener)
         end
  | None => (o ++ [DSleep 1000], None)
  end.

(** ** The test of the NAT ([src/common.rs]) *)

(** The answer of one of the two servers: a failed connection or send (whether
    the connection was made), nothing
    that answers, another message, or the port it saw, with an update of the
    configuration. *)
Inductive NatAnswer : Type :=
| NatFailed (connected : bool) (e : string)
| NatSilent
| NatOther
| NatResponse (port : Z) (cu : option (Z * list string)).

Definition apply_cu (cu : option (Z * list string)) (g : Glob) : Glob :=
  match cu with
  | Some (serial, servers) =>
    with_cfg (set_serial get_uuid serial)
      (with_cfg (set_option get_uuid S "rendezvous-servers" (String.concat "," servers)) g)
  | None => g
  end.

(** [test_nat_type_]; [local_ip] is the address of the first connection. *)
Definition test_nat_type_ (local_ip : string) (a1 a2 : NatAnswer) (g : Glob) : result bool string * Glob :=
  let finish port1 port2 g :=
    let ok := (0 <? port1) && (0 <? port2) in
    (Ok ok, if ok then with_cfg (set_nat_type get_uuid (if port1 =? port2 then ASYMMETRIC else SYMMETRIC)) g else g) in
  let local g := with_cfg (set_option get_uuid S "local-ip-addr" local_ip) g in
  let second port1 g :=
    match a2 with
    | NatFailed _ e => (Err e, g)
    | NatSilent | NatOther => finish port1 0 g
    | NatResponse p cu => finish port1 p (apply_cu cu g)
    end in
  match a1 with
  | NatFailed connected e => (Err e, if connected then local g else g)
  | NatSilent => finish 0 0 (local g)
  | NatOther => second 0 (local g)
  | NatResponse p cu => second p (apply_cu cu (local g))
  end.

(** [test_nat_type]: behind a proxy the NAT counts as symmetric; otherwise the
    test is repeated, with growing pauses, until it succeeds or an earlier run
    had. [runs] are the answers of the tests. *)
Fixpoint nat_rounds (i : Z) (runs : list (string * NatAnswer * NatAnswer)) (g : Glob) : list Z * Glob :=
  match runs with
  | [] => ([], g)
  | (ip, a1, a2) :: runs =>
    let '(res, g) := test_nat_type_ ip a1 a2 g in
    match res with
    | Ok true => ([], g)
    | _ =>
      if negb (nat_type (CONFIG2 (cfg g)) =? 0) then ([], g)
      else
        let i := i * 2 + 1 in
        let i := if 300 <? i then 300 else i in
        let '(l, g) := nat_rounds i runs g in (i :: l, g)
    end
  end.

Definition test_nat_type (runs : list (string * NatAnswer * NatAnswer)) (g : Glob) : list Z * Glob :=
  if match get_socks S (cfg g) with None => true | _ => false end && negb (use_ws S (cfg g))
  then nat_rounds 0 runs g
  else ([], with_cfg (set_nat_type get_uuid SYMMETRIC) g).

End Mediator.

End Rendezvous.
