(* ===== verification/RendezvousProofs.v ===== *)
(** * Properties of the rendezvous mediator

    - what a task may do behind a proxy, and which sessions are encrypted;
    - registering: a silent server is noticed, a conflict renews the identity;
    - repeated messages, and two tasks that race for the same message. *)

From S2P Require Import Prelude RustStr NetUtil SecureStream Password Config ConfigMore Rendezvous ConfigProofs.

Module RzFacts.

Import AddrMangle HostPort Config ConfigMore Rendezvous.

Section Rz.
Context `{SB : SecretBox} `{B64 : Base64}.
Context (get_uuid : list Z) (S : Settings) (mach : Machine).
Context (exe prod : string) (is_ipv6_str : string -> bool).

Abbreviation task_body := (task_body get_uuid S mach is_ipv6_str).
Abbreviation udp_tick := (udp_tick get_uuid S mach prod).
Abbreviation udp_step := (udp_step get_uuid S mach exe prod).
Abbreviation register_peer := (register_peer get_uuid S mach).
Abbreviation register_pk := (register_pk get_uuid S mach).

(** ** What a task does *)

(** Through the rendezvous server [h] and a relay only. *)
Definition relayed (h : string) (o : Effect) : Prop :=
  match o with
  | ConnectTo h' => h' = h
  | SendOn _ | CreateRelay _ _ _ _ _ _ => True
  | _ => False
  end.

Lemma create_relay_relayed te rz sa rs u sec i v6 p g :
  Forall (relayed (host rz)) (fst (create_relay get_uuid S mach te rz sa rs u sec i v6 p g)).
Proof.
  unfold create_relay. destruct (connect te 1%nat); cbn [fst]; [|by repeat constructor].
  destruct i; [destruct (task_id _ _ _ g)|]; cbn [fst]; destruct (send_ok te 1%nat); by repeat constructor.
Qed.

(** Behind a proxy or with web sockets enabled this machine shows its own
    address to nobody: registration goes over TCP through the proxy, and
    whatever the server asks of it, a task connects to the rendezvous server
    and to relays only; it never listens, sends a datagram, opens an IPv6 hole
    or connects to the peer. *)
Theorem relay_only_behind_proxy te rz t g test_tcp :
  use_ws S (cfg g) || is_proxy S (cfg g) = true ->
  start_uses_tcp S test_tcp g = true
  /\ Forall (relayed (host rz)) (fst (task_body te rz t g)).
Proof.
  intros Hp. split.
  { unfold start_uses_tcp. apply orb_true_iff in Hp as [-> | ->]; by rewrite !orb_true_r. }
  destruct t as [ph|rr|fla]; cbn [Rendezvous.task_body].
  - unfold handle_punch_hole. rewrite Hp. cbn [orb negb]. rewrite andb_false_r, orb_true_r. cbn [orb app].
    pose proof (create_relay_relayed te rz (ph_socket_addr ph) (get_relay_server S is_ipv6_str rz (ph_relay_server ph) g)
      (new_uuid te) true true [] (ph_control_permissions ph) g) as H.
    by destruct (create_relay _ _ _ _ _ _ _ _ _ _ _ _ g).
  - apply create_relay_relayed.
  - unfold handle_intranet. rewrite Hp. cbn [negb]. rewrite !andb_false_r. cbn [andb app].
    pose proof (create_relay_relayed te rz (fla_socket_addr fla) (get_relay_server S is_ipv6_str rz (fla_relay_server fla) g)
      (new_uuid te) true true [] (fla_control_permissions fla) g) as H.
    by destruct (create_relay _ _ _ _ _ _ _ _ _ _ _ _ g).
Qed.

(** The sessions an effect opens, with whether they are encrypted. *)
Definition session_secure (o : Effect) : option bool :=
  match o with
  | AcceptConnection _ s _ => Some s
  | CreateRelay _ _ _ s _ _ => Some s
  | _ => None
  end.

(** All sessions of a list of effects have [b] for their encryption. *)
Definition all_secure (b : bool) (os : list Effect) : Prop :=
  Forall (fun o => session_secure o = None \/ session_secure o = Some b) os.

Lemma create_relay_secure te rz sa rs u sec i v6 p g :
  all_secure sec (fst (create_relay get_uuid S mach te rz sa rs u sec i v6 p g)).
Proof.
  unfold create_relay, all_secure. destruct (connect te 1%nat); cbn [fst]; [|repeat constructor; by left].
  destruct i; [destruct (task_id _ _ _ g)|]; cbn [fst]; destruct (send_ok te 1%nat);
    repeat constructor; first [by left | by right].
Qed.

Lemma start_ipv6_secure te a b p : all_secure true (fst (start_ipv6 te a b p)).
Proof. unfold start_ipv6, all_secure. destruct (ipv6_socket te); repeat constructor; by left. Qed.

Lemma ipv6_secure (c : bool) te a b p :
  all_secure true (fst (if c then start_ipv6 te a b p else ([], []))).
Proof. destruct c; [apply start_ipv6_secure|constructor]. Qed.

Lemma punch_udp_secure te rz a m p : all_secure true (punch_udp_hole te rz a m p).
Proof.
  unfold punch_udp_hole, all_secure. destruct (udp_socket te); [|constructor].
  destruct (send_ok te 0%nat); repeat constructor; by left.
Qed.

Lemma intranet_secure te rz fla rs v6 g :
  all_secure true (fst (fst (handle_intranet_ get_uuid S mach te rz fla rs v6 g))).
Proof.
  unfold handle_intranet_, all_secure. destruct (connect te 0%nat) as [l|]; cbn [fst]; [|repeat constructor; by left].
  destruct (reparse l); [|repeat constructor; by left].
  destruct (task_id _ _ _ g). destruct (send_ok te 0%nat); repeat constructor; first [by left | by right].
Qed.

(** A session that starts through the rendezvous server is encrypted unless
    the server itself asks for a relay without encryption: the flag of its
    request is obeyed, so the one party the key exchange protects against can
    switch it off. *)
Theorem server_decides_encryption te rz t g :
  all_secure (match t with HandleRequestRelay rr => rr_secure rr | _ => true end) (fst (task_body te rz t g)).
Proof.
  destruct t as [ph|rr|fla]; cbn [Rendezvous.task_body].
  - unfold handle_punch_hole.
    pose proof (ipv6_secure ((0 <? port_of (decode (ph_socket_addr_v6 ph))) &&
      negb (use_ws S (cfg g) || is_proxy S (cfg g) || ph_force_relay ph)) te
      (decode (ph_socket_addr_v6 ph)) (decode (ph_socket_addr ph)) (ph_control_permissions ph)) as H6.
    destruct (if _ && _ then start_ipv6 _ _ _ _ else _) as [o6 v6]. cbn [fst] in H6.
    set (rs := get_relay_server _ _ _ _ _). destruct (_ || _).
    { pose proof (create_relay_secure te rz (ph_socket_addr ph) rs (new_uuid te) true true v6 (ph_control_permissions ph) g) as H.
      destruct (create_relay _ _ _ _ _ _ _ _ _ _ _ _ g). by apply Forall_app. }
    destruct (task_id _ _ _ g) as [i g']. destruct (0 <? ph_udp_port ph).
    { apply Forall_app. split; [done|apply punch_udp_secure]. }
    destruct (connect te 0%nat); cbn [fst].
    + apply Forall_app. split; [done|]. destruct (send_ok te 0%nat); repeat constructor; first [by left | by right].
    + apply Forall_app. split; [done|]. repeat constructor; by left.
  - apply create_relay_secure.
  - unfold handle_intranet. set (rs := get_relay_server _ _ _ _ _).
    pose proof (ipv6_secure ((0 <? port_of (decode (fla_socket_addr_v6 fla))) &&
      negb (use_ws S (cfg g) || is_proxy S (cfg g))) te
      (decode (fla_socket_addr_v6 fla)) (decode (fla_socket_addr fla)) (fla_control_permissions fla)) as H6.
    destruct (if (0 <? _) && _ then start_ipv6 _ _ _ _ else _) as [o6 v6]. cbn [fst] in H6.
    pose proof (intranet_secure te rz fla rs v6 g) as H1.
    destruct (is_ipv4 _ && _ && _); [destruct (handle_intranet_ _ _ _ _ _ _ _ _ g) as [[o1 done_] g1]|];
      cbn [fst] in *.
    + destruct done_; [by apply Forall_app|].
      pose proof (create_relay_secure te rz (fla_socket_addr fla) rs (new_uuid te) true true v6 (fla_control_permissions fla) g1) as H.
      destruct (create_relay _ _ _ _ _ _ _ _ _ _ _ _ g1). apply Forall_app. split; [done|]. by apply Forall_app.
    + pose proof (create_relay_secure te rz (fla_socket_addr fla) rs (new_uuid te) true true v6 (fla_control_permissions fla) g) as H.
      destruct (create_relay _ _ _ _ _ _ _ _ _ _ _ _ g). by apply Forall_app.
Qed.

(** ** Registering over UDP *)

Lemma store1_online st : ONLINE (store1 get_uuid st) = ONLINE st.
Proof. done. Qed.

Lemma upd1_online f st : ONLINE (upd1 get_uuid f st) = ONLINE st.
Proof. done. Qed.

Lemma set_id_online i st : ONLINE (set_id get_uuid i st) = ONLINE st.
Proof. unfold set_id. by case_bool_decide. Qed.

Lemma get_id_online st : ONLINE (snd (get_id get_uuid S mach st)) = ONLINE st.
Proof.
  unfold get_id. destruct (id (CONFIG st)); [|done]. destruct (gen_id S mach); [|done]. apply set_id_online.
Qed.

Lemma update_latency_online h n st : ONLINE (update_latency get_uuid h n st) = <[ h := n ]> (ONLINE st).
Proof. unfold update_latency. destruct (negb _); [destruct (negb _)|]; done. Qed.

(** A registration: it is sent or it is not, and then the loop goes on or not;
    the latencies and the wish to exit stay. *)
Lemma register_pk_frame e g o f g' : register_pk e g = (o, f, g') ->
  ONLINE (cfg g') = ONLINE (cfg g) /\ SHOULD_EXIT g' = SHOULD_EXIT g /\ (is_ok (send_res e) = true -> f = Go tt).
Proof.
  unfold Rendezvous.register_pk, sent. destruct (get_key_pair _ _) as [[sk pk] ks].
  pose proof (get_id_online (cfg g)) as Ho. destruct (get_id get_uuid S mach (cfg g)) as [i c]. cbn [snd] in Ho.
  intros [= <- <- <-]. split; [exact Ho|]. split; [reflexivity|]. intros H. by destruct (send_res e).
Qed.

Lemma register_peer_frame e rz g o f g' : register_peer e rz g = (o, f, g') ->
  ONLINE (cfg g') = ONLINE (cfg g) /\ SHOULD_EXIT g' = SHOULD_EXIT g /\ (is_ok (send_res e) = true -> f = Go tt).
Proof.
  unfold Rendezvous.register_peer. destruct (negb _); [by intros [= <- <- <-]|].
  destruct (_ || _); [apply register_pk_frame|].
  pose proof (get_id_online (cfg g)) as Ho. destruct (get_id get_uuid S mach (cfg g)) as [i c]. cbn [snd] in Ho.
  unfold sent. intros [= <- <- <-]. split; [exact Ho|]. split; [reflexivity|]. intros H. by destruct (send_res e).
Qed.

Definition udp_bounds (l : UdpLoop) : Prop :=
  (MIN_REG_TIMEOUT <= reg_timeout l <= MAX_REG_TIMEOUT /\ reg_timeout l mod MIN_REG_TIMEOUT = 0) /\ 0 <= fails l.

(** A tick while the server is silent and the sends succeed. *)
Lemma silent_tick env_server e rebind rz l g :
  SHOULD_EXIT g = false -> is_ok (send_res e) = true -> is_ok rebind = true -> udp_bounds l ->
  (match last_register_sent l with
   | Some x => x + 30000 * 1000000 <= now e
   | None => match last_register_resp l with Some x => x + 15000 * 1000000 <= now e | None => True end
   end) ->
  exists o rz' l' g', udp_step env_server e (Tick rebind) rz l g = (o, Go (rz', l'), g')
    /\ host rz' = host rz /\ SHOULD_EXIT g' = false /\ udp_bounds l'
    /\ last_register_sent l' = Some (now e)
    /\ fails l' = fails l + match last_register_sent l with Some _ => 1 | None => 0 end
    /\ (MAX_FAILS2 <= fails l' -> last_register_sent l <> None -> ONLINE (cfg g') !! host rz = Some (-1)).
Proof using get_uuid S mach exe prod SB B64.
  clear is_ipv6_str.
  intros Hx Hs Hr [Hb Hf] Ht. unfold Rendezvous.udp_step, Rendezvous.udp_tick. rewrite Hx.
  unfold REG_INTERVAL, MIN_REG_TIMEOUT, MAX_REG_TIMEOUT, MAX_FAILS1, MAX_FAILS2, as_millis in *.
  destruct rebind as [rb|]; [|done].
  destruct (last_register_sent l) as [x|] eqn:El.
  - rewrite (proj2 (Z.leb_le (reg_timeout l) _)) by (Z.to_euclidean_division_equations; lia).
    cbn [andb orb].
    set (l1 := if _ && _ then _ else l).
    assert (Hl1 : (3000 <= reg_timeout l1 <= 30000 /\ reg_timeout l1 mod 3000 = 0) /\ fails l1 = fails l).
    { unfold l1. destruct (_ && _) eqn:E; [|done]. apply andb_true_iff in E as [_ E].
      apply Z.ltb_lt in E. cbn. destruct Hb as [Hb Hm]. apply Z.mod_divide in Hm as [k Hk]; [|done].
      rewrite Hk in *. replace (k * 3000 + 3000) with ((k + 1) * 3000) by lia. rewrite Z.mod_mul by done. split_and!; first [lia|done]. }
    clearbody l1. destruct Hl1 as [Hb1 Hf1].
    set (out := if 4 <=? _ then _ else _).
    assert (Ho : exists rz1 l2 g1, out = (Go (rz1, l2), g1) /\ host rz1 = host rz /\ SHOULD_EXIT g1 = false
      /\ (3000 <= reg_timeout l2 <= 30000 /\ reg_timeout l2 mod 3000 = 0) /\ fails l2 = fails l + 1
      /\ (4 <= fails l2 -> ONLINE (cfg g1) !! host rz = Some (-1))).
    { unfold out. cbn. destruct (4 <=? fails l1 + 1) eqn:E4.
      - destruct (DNS_INTERVAL <? _); [destruct rb|]; eexists _, _, _;
          (split; [reflexivity|]); cbn; rewrite update_latency_online, lookup_insert_eq; split_and!; try done; destruct Hb1 as [[? ?] ?]; rewrite ?Hf1; first [done|lia].
      - apply Z.leb_gt in E4. destruct (2 <=? _); eexists _, _, _; (split; [reflexivity|]); cbn; split_and!; try done; destruct Hb1 as [[? ?] ?]; rewrite ?Hf1; first [done|lia]. }
    clearbody out. destruct Ho as (rz1 & l2 & g1 & -> & Hh & Hx1 & Hb2 & Hf2 & Hon).
    destruct (register_peer e rz1 g1) as [[o f] g2] eqn:E.
    apply register_peer_frame in E as (Ho & Hx2 & Hgo). rewrite (Hgo Hs).
    destruct Hb2 as [[? ?] ?].
    eexists _, _, _, _. split; [reflexivity|]. cbn. rewrite Ho, Hx2. split_and!; try done; try lia.
    + split; [done|]. change (0 <= fails l2). lia.
    + intros H4 _. by apply Hon.
  - assert (He : (match last_register_resp l with Some x => 15000 <=? (now e - x) / 1000000 | None => true end) = true).
    { destruct (last_register_resp l); [|done]. apply Z.leb_le. Z.to_euclidean_division_equations; lia. }
    rewrite He, ?El. cbn [andb orb]. rewrite andb_false_r, ?El. cbn [andb].
    destruct (register_peer e rz g) as [[o f] g2] eqn:E.
    apply register_peer_frame in E as (Ho & Hx2 & Hgo). rewrite (Hgo Hs).
    destruct Hb as [[? ?] ?].
    eexists _, _, _, _. split; [reflexivity|]. cbn. rewrite Hx2, Z.add_0_r. split_and!; done || by split.
Qed.

(** The ticks of a silent server. *)
Fixpoint ticks (env_server : string) (es : list (StepEnv * result (option TargetAddr) string)) (rz : RendezvousMediator)
  (l : UdpLoop) (g : Glob) : list Out * Flow (RendezvousMediator * UdpLoop) * Glob :=
  match es with
  | [] => ([], Go (rz, l), g)
  | (e, rb) :: es =>
    let '(o, f, g) := udp_step env_server e (Tick rb) rz l g in
    match f with
    | Go (rz, l) => let '(o', f, g) := ticks env_server es rz l g in (o ++ o', f, g)
    | Exit => (o, Exit, g)
    | Bail err => (o, Bail err, g)
    end
  end.

(** Ticks at least 30 seconds apart, the first after the instant [t], all of
    whose sends succeed. *)
Fixpoint spaced (t : Z) (es : list (StepEnv * result (option TargetAddr) string)) : Prop :=
  match es with
  | [] => True
  | (e, rb) :: es =>
    t + 30000 * 1000000 <= now e /\ is_ok (send_res e) = true /\ is_ok rb = true /\ spaced (now e) es
  end.

Lemma ticks_sent env_server es rz l g x :
  SHOULD_EXIT g = false -> udp_bounds l -> last_register_sent l = Some x -> spaced x es ->
  exists o rz' l' g', ticks env_server es rz l g = (o, Go (rz', l'), g') /\ host rz' = host rz
    /\ fails l' = fails l + Z.of_nat (length es)
    /\ (es <> [] -> MAX_FAILS2 <= fails l' -> ONLINE (cfg g') !! host rz = Some (-1)).
Proof using get_uuid S mach exe prod SB B64.
  clear is_ipv6_str.
  revert rz l g x. induction es as [|[e rb] es IH]; intros rz l g x Hx Hb Hl Hs; cbn [ticks length].
  - eexists _, _, _, _. split; [done|]. split_and!; [done|lia|done].
  - destruct Hs as (Ht & Hok & Hrb & Hs).
    destruct (silent_tick env_server e rb rz l g) as (o & rz1 & l1 & g1 & -> & Hh & Hx1 & Hb1 & Hl1 & Hf1 & Hon); try done.
    { by rewrite Hl. }
    rewrite Hl in Hf1, Hon.
    destruct (IH rz1 l1 g1 (now e)) as (o' & rz2 & l2 & g2 & E & Hh2 & Hf2 & Hon2); try done.
    rewrite E. eexists _, _, _, _. split; [done|]. split_and!; [by rewrite Hh2|lia|].
    intros _ Hge. rewrite Hh in Hon2. destruct es as [|e' es].
    + cbn [ticks] in E. cbn [length] in Hf2. injection E as <- <- <- <-. apply Hon; [lia|done].
    + apply Hon2; [done|lia].
Qed.

(** A server that falls silent is noticed: in whatever state the loop is,
    after five ticks half a minute apart without an answer the server counts as
    unreachable, and the mediator still runs and still registers. *)
Theorem silent_server_noticed env_server es rz l g t :
  SHOULD_EXIT g = false -> udp_bounds l ->
  (forall x, last_register_sent l = Some x -> x <= t) -> (forall x, last_register_resp l = Some x -> x <= t) ->
  length es = 5%nat -> spaced t es ->
  exists o rz' l' g', ticks env_server es rz l g = (o, Go (rz', l'), g')
    /\ ONLINE (cfg g') !! host rz = Some (-1).
Proof using get_uuid S mach exe prod SB B64.
  clear is_ipv6_str. intros Hx Hb Hsent Hresp Hlen Hs. destruct es as [|[e rb] es]; [done|]. cbn [ticks].
  destruct Hs as (Ht & Hok & Hrb & Hs).
  destruct (silent_tick env_server e rb rz l g) as (o & rz1 & l1 & g1 & -> & Hh & Hx1 & Hb1 & Hl1 & Hf1 & Hon); try done.
  { destruct (last_register_sent l) as [x|]; [specialize (Hsent x eq_refl); lia|].
    destruct (last_register_resp l) as [x|]; [specialize (Hresp x eq_refl); lia|done]. }
  destruct (ticks_sent env_server es rz1 l1 g1 (now e)) as (o' & rz2 & l2 & g2 & E & Hh2 & Hf2 & Hon2); try done.
  rewrite E. eexists _, _, _, _. split; [done|]. rewrite <-Hh. injection Hlen as Hlen. apply Hon2.
  - intros ->. done.
  - rewrite Hf2, Hlen. destruct Hb as [_ Hb]. unfold MAX_FAILS2. destruct (last_register_sent l); lia.
Qed.

(** ** A conflict of identities *)

Lemma set_id_id i st : id (CONFIG (set_id get_uuid i st)) = i.
Proof. unfold set_id. case_bool_decide as H; [by rewrite H|done]. Qed.

Lemma set_id_confirmed i st : key_confirmed (CONFIG (set_id get_uuid i st)) = key_confirmed (CONFIG st).
Proof. unfold set_id. by case_bool_decide. Qed.

Lemma get_id_confirmed st : key_confirmed (CONFIG (snd (get_id get_uuid S mach st))) = key_confirmed (CONFIG st).
Proof.
  unfold get_id. destruct (id (CONFIG st)); [|done]. destruct (gen_id S mach); [|done]. apply set_id_confirmed.
Qed.

Lemma update_id_id draw st : id (CONFIG (update_id get_uuid S mach draw st)) = str_bytes (show draw).
Proof. unfold update_id. destruct (get_id _ _ _ st). apply set_id_id. Qed.

Lemma update_id_confirmed draw st :
  key_confirmed (CONFIG (update_id get_uuid S mach draw st)) = key_confirmed (CONFIG st).
Proof.
  unfold update_id. pose proof (get_id_confirmed st) as H. destruct (get_id _ _ _ st) as [i st'].
  rewrite set_id_confirmed. exact H.
Qed.

Lemma show_nonempty z : str_bytes (show z) <> [].
Proof.
  assert (H : forall n x acc, show_nonneg (Datatypes.S n) x acc <> "").
  { intros n. induction n as [|n IH]; intros x acc; cbn [show_nonneg]; destruct (x <? 10); try done. apply IH. }
  unfold show. destruct (z <? 0); [done|]. intros E. eapply H. by destruct (show_nonneg _ _ _) eqn:E'.
Qed.

(** When the server says that the identity belongs to another machine, the
    mediator that may solve the conflict draws a new one, forgets that its key
    was confirmed, and registers the key it had under the new identity; a
    mediator that may not changes nothing and sends nothing. *)
Theorem conflict_renews_identity e rz l g (upd : unit -> Glob -> unit * Glob) ka o f g' :
  (forall g, upd tt g = (tt, g)) -> is_ok (send_res e) = true ->
  handle_resp get_uuid S mach exe prod e upd (Some (RegisterPkResponse UUID_MISMATCH ka)) rz l g = (o, f, g') ->
  (exists rz', f = Go (rz', tt)) /\
  if may_solve rz g then
    id (CONFIG (cfg g')) = str_bytes (show (draw e))
    /\ key_confirmed (CONFIG (cfg g')) = false
    /\ SOLVING_PK_MISMATCH g' = host rz
    /\ o = [Send (RegisterPk (str_bytes (show (draw e))) get_uuid (snd (fst (get_key_pair (gen e) (keys g))))
              (no_register_device S))]
  else o = [] /\ g' = g.
Proof.
  intros Hu Hs. unfold handle_resp. destruct l. rewrite Hu. unfold handle_uuid_mismatch.
  destruct (may_solve rz g) eqn:Em.
  2: { intros [= <- <- <-]. split; [by eexists|done]. }
  set (g1 := (with_cfg (update_id _ _ _ _) _) <| SOLVING_PK_MISMATCH := host rz |>).
  assert (Hi : id (CONFIG (cfg g1)) = str_bytes (show (draw e))) by apply update_id_id.
  assert (Hk : key_confirmed (CONFIG (cfg g1)) = false).
  { unfold g1. cbn. rewrite update_id_confirmed. unfold set_key_confirmed.
    destruct (key_confirmed (CONFIG (cfg g))) eqn:E; cbn [Bool.eqb]; done. }
  assert (Hy : keys g1 = keys g) by done. assert (Hv : SOLVING_PK_MISMATCH g1 = host rz) by done. clearbody g1.
  unfold Rendezvous.register_pk, sent. rewrite Hy.
  destruct (get_key_pair (gen e) (keys g)) as [[sk pk] ks].
  unfold get_id. rewrite Hi. destruct (str_bytes (show (draw e))) as [|b t] eqn:E.
  { by apply show_nonempty in E. }
  destruct (send_res e); [|done]. intros [= <- <- <-]. split; [by eexists|]. done.
Qed.

(** ** Repeated messages *)

(** Tasks that do not overlap: each takes its two steps in turn. *)
Fixpoint one_by_one (ts : list (TaskEnv * Z * Z * RendezvousMediator * Task)) (g : Glob) : list (list Effect) * Glob :=
  match ts with
  | [] => ([], g)
  | (te, written, checked, rz, t) :: ts =>
    let '(_, s, g) := task_step get_uuid S mach is_ipv6_str te written checked (Spawned rz t) g in
    let '(o, _, g) := task_step get_uuid S mach is_ipv6_str te written checked s g in
    let '(os, g) := one_by_one ts g in (o :: os, g)
  end.

(** Copies of a message that come within 100 ms of each other. *)
Fixpoint repeats (t : Task) (since : Z) (ts : list (TaskEnv * Z * Z * RendezvousMediator * Task)) : Prop :=
  match ts with
  | [] => True
  | (_, written, checked, _, t') :: ts => t' = t /\ checked < since + 100 * 1000000 /\ repeats t written ts
  end.

Lemma last_set t v g : last_of t (set_last t v g) = v.
Proof. by destruct t. Qed.

(** A message that is repeated, with pauses shorter than 100 ms, is handled
    once, however often it comes and however long that lasts; as long as the
    tasks do not overlap. *)
Theorem repeats_handled_once t since ts g :
  last_of t g = (task_addr t, since) -> repeats t since ts ->
  fst (one_by_one ts g) = replicate (length ts) [].
Proof.
  revert since g. induction ts as [|[[[[te written] checked] rz] t'] ts IH]; intros since g Hl Hr; [done|].
  destruct Hr as (-> & Hc & Hr). cbn [one_by_one task_step]. rewrite Hl. unfold recent. cbn [fst snd].
  rewrite bool_decide_true by done. cbn [andb].
  rewrite (proj2 (Z.ltb_lt _ _)) by (unfold as_millis; Z.to_euclidean_division_equations; lia).
  specialize (IH written (set_last t (task_addr t, written) g) (last_set t _ g) Hr).
  destruct (one_by_one ts _). cbn [fst length replicate] in *. by rewrite IH.
Qed.

(** Two tasks for the same message that overlap both read before either
    writes, and then both are carried out. *)
Lemma overlapping_repeats te written checked rz t g :
  recent (task_addr t) (last_of t g) checked = false ->
  let run := task_step get_uuid S mach is_ipv6_str te written checked in
  let '(_, s1, g) := run (Spawned rz t) g in
  let '(_, s2, g) := run (Spawned rz t) g in
  let '(o1, _, g1) := run s1 g in
  let '(o2, _, _) := run s2 g1 in
  exists ga gb, o1 = fst (task_body te rz t ga) /\ o2 = fst (task_body te rz t gb).
Proof.
  intros Hr. cbn. rewrite Hr. destruct (task_body te rz t _) as [o1 g1] eqn:E1.
  destruct (task_body te rz t (set_last t (task_addr t, written) g1)) as [o2 g2] eqn:E2.
  eexists _, _. split; [by rewrite E1|by rewrite E2].
Qed.

(** ** An update of the configuration by datagram *)

Lemma split_concat ss : ss <> [] -> Forall (fun s => contains_char "," s = false) ss ->
  split_char "," (String.concat "," ss) = ss.
Proof.
  intros Hne H. induction H as [|x l Hx Hl IH]; [done|]. destruct l as [|y l].
  - cbn [String.concat]. by rewrite split_char_none.
  - change (String.concat "," (x :: y :: l)) with (x +:+ String "," (String.concat "," (y :: l))).
    rewrite split_char_join, split_char_none by done. by rewrite IH.
Qed.

Lemma set_serial_options n st : options (CONFIG2 (set_serial get_uuid n st)) = options (CONFIG2 st).
Proof. unfold set_serial. by destruct (_ =? _). Qed.

Lemma set_serial_serial n st : serial (CONFIG2 (set_serial get_uuid n st)) = n.
Proof. unfold set_serial. destruct (n =? _) eqn:E; [|done]. by apply Z.eqb_eq in E. Qed.

(** On a machine without a configured server, a datagram from any address
    replaces the list of rendezvous servers: [start_udp] does not look at the
    sender, and the message carries no signature.  The mediators are restarted
    with the new servers. *)
Theorem any_datagram_moves_servers env_server e from serial_ servers rz l g :
  exe = "" -> prod = "" -> get_option S "custom-rendezvous-server" (cfg g) = "" ->
  OVERWRITE_SETTINGS S !! "rendezvous-servers" = None -> DEFAULT_SETTINGS S !! "rendezvous-servers" = None ->
  SERIAL < serial_ -> servers <> [] ->
  Forall (fun s => contains_char "." s = true /\ contains_char "," s = false) servers ->
  get_rendezvous_servers S exe prod (cfg g) <> servers ->
  exists g', udp_step env_server e (Datagram from (Some (Some (ConfigureUpdate serial_ servers)))) rz l g
      = ([], Go (rz, l), g')
    /\ get_rendezvous_servers S exe prod (cfg g') = servers
    /\ SHOULD_EXIT g' = true /\ MANUAL_RESTARTED g' = true.
Proof.
  intros -> -> Hcu Ho Hd Hs Hne Hall Hold.
  set (v := String.concat "," servers).
  assert (Hv : String.eqb v "" = false).
  { destruct servers as [|x [|y t]]; [done|..]; apply Forall_cons in Hall as [[Hx _] _]; by destruct x. }
  set (c1 := set_option get_uuid S "rendezvous-servers" v (cfg g)).
  assert (H1 : options (CONFIG2 c1) = <[ "rendezvous-servers" := v ]> (options (CONFIG2 (cfg g)))).
  { unfold c1. rewrite ConfigFacts.set_option_options, Hv. unfold is_option_can_save.
    rewrite Ho, Hd, (bool_decide_false (is_Some None)) by (intros [? ?]; done). done. }
  set (c2 := set_serial get_uuid serial_ c1).
  assert (H2 : get_rendezvous_servers S "" "" c2 = servers).
  { unfold get_rendezvous_servers. cbn [String.eqb negb].
    assert (Hc : get_option S "custom-rendezvous-server" c2 = "").
    { etrans; [|exact Hcu]. unfold get_option, get_or, c2. rewrite set_serial_options, H1.
      by rewrite lookup_insert_ne by done. }
    rewrite Hc. cbn [String.eqb negb].
    assert (Hser : (SERIAL <? serial (CONFIG2 c2)) = true).
    { unfold c2. rewrite set_serial_serial. by apply Z.ltb_lt. }
    rewrite Hser.
    assert (Hg : get_option S "rendezvous-servers" c2 = v).
    { unfold get_option, get_or, c2. rewrite Ho, set_serial_options, H1. by rewrite lookup_insert_eq. }
    rewrite Hg. unfold v. rewrite split_concat; [|done|].
    2: { eapply Forall_impl; [exact Hall|]. by intros x [_ ?]. }
    assert (Hf : filter (fun x => contains_char "." x) servers = servers).
    { clear -Hall. induction Hall as [|x l [Hx _] _ IH]; [done|]. rewrite filter_cons_True by (by rewrite Hx). by rewrite IH. }
    rewrite Hf. clear -Hne. by destruct servers. }
  set (g1 := g <| cfg := c1 |> <| cfg := c2 |>). exists (restart g1). split; [|done].
  unfold Rendezvous.udp_step, handle_resp.
  assert (Hg : with_cfg (set_serial get_uuid serial_) (with_cfg (set_option get_uuid S "rendezvous-servers" v) g) = g1) by done.
  fold v. rewrite Hg. change (cfg g1) with c2. rewrite H2, bool_decide_false by done. done.
Qed.

End Rz.

(** ** Witnesses *)

#[local] Instance plain_box : SecretBox := { seal m _ _ := m; open_box c _ _ := Some c }.
#[local] Instance plain_b64 : Base64 := { b64_encode v := v; b64_decode v := Some v }.

Definition demo_settings : Settings := mkSettings ∅ ∅ ∅ ∅.
Definition demo_machine : Machine := mkMachine (Err "") None.

Definition demo_config (sk : option Socks5Server) : State :=
  let c := mkConfig [49] [] [] [] true ∅ in
  let c2 := mkConfig2 "" 0 0 [] [] sk ∅ in
  mkState c c2 c c2 ([], false) ∅.

Definition demo_glob (sk : option Socks5Server) : Glob :=
  mkGlob (demo_config sk) (key_start ([1], [2])) "" (V4 [0; 0; 0; 0] 0, 0) (V4 [0; 0; 0; 0] 0, 0) false false.

Definition demo_rz : RendezvousMediator := new_mediator (Ip (V4 [1; 2; 3; 4] 21116)) "rs.example.com:21116".
Definition demo_env (t : Z) : StepEnv := mkStepEnv t (Ok tt) ([3], [4]) 1234567890.
Definition demo_net : TaskEnv :=
  mkTaskEnv (fun _ => Ok (V4 [10; 0; 0; 1] 4000)) (fun _ => Ok tt) (Some [1; 2]) "uuid" (Ok tt) 5.
Definition demo_hole : Task := HandlePunchHole (mkPunchHole [1; 2; 3] "" 1 0 false [] None).

Lemma relay_only_behind_proxy_witness :
  let g := demo_glob (Some (mkSocks "127.0.0.1:1080" "" [])) in
  start_uses_tcp demo_settings false g = true
  /\ Forall (relayed (host demo_rz))
      (fst (task_body [7] demo_settings demo_machine (fun _ => false) demo_net demo_rz demo_hole g)).
Proof.
  apply (relay_only_behind_proxy [7] demo_settings demo_machine (fun _ => false) demo_net demo_rz demo_hole).
  vm_compute. reflexivity.
Defined.

Definition demo_ticks : list (StepEnv * result (option TargetAddr) string) :=
  map (fun i => (demo_env (i * 31000 * 1000000), Ok None)) [1; 2; 3; 4; 5].

Lemma silent_server_noticed_witness :
  exists o rz' l' g',
    ticks [7] demo_settings demo_machine "" "" "" demo_ticks demo_rz (udp_start 0) (demo_glob None) = (o, Go (rz', l'), g')
    /\ ONLINE (cfg g') !! host demo_rz = Some (-1).
Proof.
  apply (silent_server_noticed [7] demo_settings demo_machine "" "" "" demo_ticks demo_rz (udp_start 0) (demo_glob None) 0);
    try reflexivity; try done.
Defined.

Lemma conflict_renews_identity_witness :
  exists o f g',
    handle_resp [7] demo_settings demo_machine "" "" (demo_env 1) (fun l g => (l, g))
      (Some (RegisterPkResponse UUID_MISMATCH 0)) demo_rz tt (demo_glob None) = (o, f, g')
    /\ id (CONFIG (cfg g')) = str_bytes "1234567890".
Proof.
  destruct (handle_resp [7] demo_settings demo_machine "" "" (demo_env 1) (fun l g => (l, g))
      (Some (RegisterPkResponse UUID_MISMATCH 0)) demo_rz tt (demo_glob None)) as [[o f] g'] eqn:E.
  exists o, f, g'. split; [reflexivity|].
  exact (proj1 (proj2 (conflict_renews_identity [7] demo_settings demo_machine "" "" (demo_env 1) demo_rz tt
    (demo_glob None) (fun l g => (l, g)) 0 o f g' (fun g => eq_refl) eq_refl E))).
Defined.

Lemma repeats_handled_once_witness :
  let run i := (demo_net, i * 1000000, i * 1000000, demo_rz, demo_hole) in
  fst (one_by_one [7] demo_settings demo_machine (fun _ => false) (map run [50; 120; 190])
    (set_last demo_hole (task_addr demo_hole, 0) (demo_glob None))) = [[]; []; []].
Proof.
  intros run. apply (repeats_handled_once [7] demo_settings demo_machine (fun _ => false) demo_hole 0 (map run [50; 120; 190]));
    [reflexivity|]. repeat split; reflexivity.
Defined.

Lemma any_datagram_moves_servers_witness :
  exists g',
    udp_step [7] demo_settings demo_machine "" "" "" (demo_env 1)
      (Datagram (V4 [6; 6; 6; 6] 666) (Some (Some (ConfigureUpdate 4 ["evil.example"])))) demo_rz (udp_start 0) (demo_glob None)
      = ([], Go (demo_rz, udp_start 0), g')
    /\ get_rendezvous_servers demo_settings "" "" (cfg g') = ["evil.example"]
    /\ SHOULD_EXIT g' = true /\ MANUAL_RESTARTED g' = true.
Proof.
  apply (any_datagram_moves_servers [7] demo_settings demo_machine "" ""); try reflexivity; try done.
  repeat constructor.
Defined.

(** Two overlapping tasks for one message both open a session. *)
Example one_message_two_sessions :
  let run := task_step [7] demo_settings demo_machine (fun _ => false) demo_net 1000000000 1000000000 in
  let '(_, s1, g) := run (Spawned demo_rz demo_hole) (demo_glob None) in
  let '(_, s2, g) := run (Spawned demo_rz demo_hole) g in
  let '(o1, _, g) := run s1 g in
  let '(o2, _, _) := run s2 g in
  o1 = o2 /\ omap session_secure o1 = [true].
Proof. vm_compute. split; reflexivity. Qed.

End RzFacts.
