(* ===== verification/Dial.v ===== *)
(** * Dialling a peer ([src/client.rs], [Client::start])

    How a controlling side reaches a peer: the rendezvous server is asked to
    punch a hole, the direct and relayed attempts race, and the connection is
    secured with the key exchange of [Handshake].  Also here: the loops that
    punch UDP holes and test the UDP port ([punch_udp], [test_udp_uat]), the
    health check connection, the query for the peers that are online, and the
    choice of the server ([get_rendezvous_server] of [src/common.rs]).

    What dialling does to the outside is the type [Op]: each operation has a
    type of answers, a function is a [Prog], a tree of operations and what
    follows each answer.  [run] gives the operations a program performs and its
    result when a [Handler] answers.  [select_ok] is an operation, [Race]: it
    answers with the attempt that succeeded first.  Instants are in
    nanoseconds; logs and the version of the program are left out. *)

From S2P Require Import Prelude RustStr BytesCodec SecureStream Handshake NetUtil Rendezvous.

Module Dial.

Import AddrMangle HostPort Secure.

Abbreviation HsPublicKey := Handshake.PublicKey.

(** ** Connections and messages *)

Record Conn : Type := mkConn { c_target : string; c_local : SocketAddr; c_fs : FramedStream }.

Definition keyed (c : Conn) : bool := match encrypt (c_fs c) with Some _ => true | None => false end.

Record PunchHoleResponse : Type := mkPunchHoleResponse {
  phr_socket_addr : list Z; phr_other_failure : string; phr_failure : Z; phr_nat_type : Z; phr_is_local : bool;
  phr_pk : list Z; phr_relay_server : string; phr_feedback : Z; phr_is_udp : bool; phr_socket_addr_v6 : list Z }.

Record RelayResponseIn : Type := mkRelayResponseIn {
  rri_uuid : string; rri_relay_server : string; rri_pk : list Z; rri_feedback : Z; rri_socket_addr_v6 : list Z;
  rri_refuse_reason : string }.

(** The unions dialling looks at. *)
Inductive DIn : Type :=
| InPunchHole (ph : PunchHoleResponse)
| InRelay (rr : RelayResponseIn)
| InOther.

Inductive DOut : Type :=
| PunchHoleRequest (id token : string) (nat_type : Z) (licence_key : string) (conn_type udp_port : Z)
    (force_relay : bool) (socket_addr_v6 : list Z)
| DRequestRelay (licence_key id token uuid relay_server : string) (conn_type : Z) (secure : bool).

(** One of the attempts that race. *)
Inductive Attempt : Type :=
| TcpDirect (peer local : SocketAddr) (ms : Z)
| UdpNat (typ : string) (ms : Z)                  (* [udp_nat_connect] *)
| ByRelay (target : string) (m : DOut).           (* [create_relay] *)

Definition attempt_type (use_ws : bool) (a : Attempt) : string :=
  match a with
  | TcpDirect _ _ _ => "TCP"
  | UdpNat typ _ => typ
  | ByRelay _ _ => if use_ws then "WebSocket" else "Relay"
  end.

Inductive Op : Type -> Type :=
| ConnectTcp (host : string) : Op (result Conn string)
| SendMsg (c : Conn) (m : DOut) : Op (result unit string)
| NextMsg (c : Conn) (ms : Z) : Op (option DIn)                         (* [get_next_nonkeyexchange_msg] *)
| ReadFrame (c : Conn) : Op (result (option (result (list Z) error)) string)  (* [timeout(.., next())] *)
| Flush (c : Conn) : Op (result unit string)
| NewKeys : Op (list Z * list Z)                                        (* a box secret key, a symmetric key *)
| NewUuid : Op string
| GetNatType : Op Z
| DirectFailures : Op Z
| UpdateDirect (d : option bool) : Op unit
| UpdateReceived (b : bool) : Op unit
| SetDirectFailure (n : Z) : Op unit
| RefreshRendezvousServer : Op unit
| WaitUdpPort : Op unit                                                  (* at most half a round trip *)
| UdpPort : Op Z
| Ipv6Socket : Op (option (list Z))
| UdpConnect (typ : string) (a : SocketAddr) : Op bool
| ElapsedMs : Op Z                                                      (* since [start] *)
| Race (l : list Attempt) : Op (result (nat * Conn) string).

Inductive Prog (A : Type) : Type :=
| Ret (a : A)
| Bail (e : string)
| Do {X : Type} (op : Op X) (k : X -> Prog A).
Arguments Ret {A} a.
Arguments Bail {A} e.
Arguments Do {A X} op k.

Fixpoint bind {A B} (p : Prog A) (k : A -> Prog B) : Prog B :=
  match p with
  | Ret a => k a
  | Bail e => Bail e
  | Do op f => Do op (fun x => bind (f x) k)
  end.

(** A failure of [p] as a value. *)
Fixpoint try_ {A} (p : Prog A) : Prog (result A string) :=
  match p with
  | Ret a => Ret (Ok a)
  | Bail e => Ret (Err e)
  | Do op f => Do op (fun x => try_ (f x))
  end.

Declare Scope dial_scope.
Delimit Scope dial_scope with dial.
#[local] Open Scope dial_scope.
Notation "'let*' x ':=' p 'in' k" := (bind p (fun x => k)) (at level 10, x pattern, p at level 100, k at level 200) : dial_scope.
Notation "'ask' x ':=' o 'in' k" := (Do o (fun x => k)) (at level 10, x pattern, o at level 100, k at level 200) : dial_scope.

(** [?] *)
#[local] Open Scope rust_scope.
#[local] Open Scope dial_scope.

Definition ok_or {A} (r : result A string) : Prog A := match r with Ok a => Ret a | Err e => Bail e end.

(** ** Running a program *)

Inductive Event : Type := | Ev {X : Type} (op : Op X).

(** The answer to the n-th operation. *)
Definition Handler : Type := nat -> forall X, Op X -> X.

Fixpoint run {A} (h : Handler) (n : nat) (p : Prog A) : list Event * result A string :=
  match p with
  | Ret a => ([], Ok a)
  | Bail e => ([], Err e)
  | Do op k => let '(t, r) := run h (S n) (k (h n _ op)) in (Ev op :: t, r)
  end.

(** ** What dialling is called with *)

Record Session : Type := mkSession {
  s_force_relay : bool;
  s_other_server : option (string * string * string) }.

Definition PUBLIC_SERVER : string := "public".
Definition RENDEZVOUS_SERVER : string := "rs-ny.rustdesk.com".  (* the only element of [RENDEZVOUS_SERVERS] *)
Definition RENDEZVOUS_PORT : Z := 21116.
Definition RELAY_PORT : Z := 21117.
Definition CONNECT_TIMEOUT : Z := 18000.
Definition MIN : Z := 1000.

(** A connection as [start] returns it: the stream, whether it is direct, the
    peer's key, its type. *)
Record Dialled : Type := mkDialled { d_conn : Conn; d_direct : bool; d_pk : option (list Z); d_typ : string }.

Section Dial.
Context `{SB : SecretBox} `{SO : Sodium} `{PR : Proto} (decode64 : string -> option (list Z)).
Context (RS_PUB_KEY : string) (use_ws : bool).
Context (is_ip_str is_domain_port_str is_ipv6_str is_ipv4_str : string -> bool).

Abbreviation check_port := (check_port is_ipv6_str).

(** ** The server to use ([get_rendezvous_server] of [common.rs])

    [a] and [b] come from the server process. *)
Definition get_rendezvous_server (a : string) (b : list string) : string * list string * bool :=
  let b := map (fun x => check_port x RENDEZVOUS_PORT) b in
  if bool_decide (a ∈ b) then (a, filter (fun x => x <> a) b, true)
  else match last b with
       | Some x => (x, take (length b - 1) b, false)
       | None => (a, [], false)
       end.

(** ** Securing a stream *)

Definition error_text (e : error) : string := match e with Handshake m => m | DecryptionError => "decryption" | Io _ => "io" end.

Definition flushed (c : Conn) : Prog Conn :=
  match wbuf (c_fs c) with
  | [] => Ret c
  | _ => ask r := Flush c in let* _ := ok_or r in Ret (mkConn (c_target c) (c_local c) (snd (Handshake.flush (c_fs c))))
  end.

Definition with_fs (c : Conn) (r : result FramedStream error) : Prog Conn :=
  match r with
  | Ok fs => flushed (mkConn (c_target c) (c_local c) fs)
  | Err e => Bail (error_text e)
  end.

Definition secure_tcp (c : Conn) (key : string) : Prog Conn :=
  if use_ws then Ret c
  else
    match Handshake.get_rs_pk decode64 key with
    | None => with_fs c (Handshake.secure_tcp decode64 use_ws key [] [] None (c_fs c))
    | Some _ =>
      ask r := ReadFrame c in let* got := ok_or r in
      ask (sk, sym) := NewKeys in
      with_fs c (Handshake.secure_tcp decode64 use_ws key sk sym got (c_fs c))
    end.

Definition secure_connection (peer_id : string) (signed_id_pk : list Z) (key : string) (c : Conn)
  : Prog (Conn * option (list Z)) :=
  match Handshake.client_hello decode64 peer_id signed_id_pk RS_PUB_KEY key (c_fs c) with
  | Err e => Bail (error_text e)
  | Ok (inl fs) => let* c := flushed (mkConn (c_target c) (c_local c) fs) in Ret (c, None)
  | Ok (inr sign_pk) =>
    ask r := ReadFrame c in let* got := ok_or r in
    ask (sk, sym) := NewKeys in
    let* c := with_fs c (Handshake.client_key peer_id sign_pk sk sym got (c_fs c)) in
    Ret (c, Some sign_pk)
  end.

(** ** Relays *)

Definition relay_target (relay_server : string) (ipv4 : bool) : string :=
  ipv4_to_ipv6 is_ipv4_str (check_port relay_server RELAY_PORT) ipv4.

Definition relay_request (peer uuid key : string) (conn_type : Z) : DOut :=
  DRequestRelay key peer "" uuid "" conn_type false.

Definition create_relay (peer uuid relay_server key : string) (conn_type : Z) (ipv4 : bool) : Prog Conn :=
  ask r := ConnectTcp (relay_target relay_server ipv4) in
  match r with
  | Err _ => Bail "Failed to connect to relay server"
  | Ok c => ask r := SendMsg c (relay_request peer uuid key conn_type) in let* _ := ok_or r in Ret c
  end.

Definition ipv4_of (a : SocketAddr) : bool := match a with V4 _ _ => true | V6 _ _ _ _ => false end.

(** The loop of [request_relay]: [more] attempts remain. *)
Fixpoint request_relay_n (more : nat) (peer relay_server rendezvous_server : string) (secure : bool)
  (key token : string) (conn_type : Z) : Prog Conn :=
  match more with
  | O => Bail "Timeout"
  | S more =>
    ask r := ConnectTcp rendezvous_server in
    match r with
    | Err _ => Bail "Failed to connect to rendezvous server"
    | Ok c =>
      let* c := (if negb (String.eqb key "") && negb (String.eqb token "") then secure_tcp c key else Ret c) in
      let ipv4 := ipv4_of (c_local c) in
      ask uuid := NewUuid in
      ask r := SendMsg c (DRequestRelay "" peer token uuid relay_server 0 secure) in
      let* _ := ok_or r in
      ask m := NextMsg c CONNECT_TIMEOUT in
      match m with
      | Some (InRelay rs) =>
        if negb (String.eqb (rri_refuse_reason rs) "") then Bail (rri_refuse_reason rs)
        else create_relay peer uuid relay_server key conn_type ipv4
      | _ => request_relay_n more peer relay_server rendezvous_server secure key token conn_type
      end
    end
  end.

Definition request_relay := request_relay_n 3.

(** ** [connect] *)

Definition UNKNOWN_NAT : Z := 0.
Definition ASYMMETRIC : Z := 1.
Definition SYMMETRIC : Z := 2.

(** The time a direct attempt gets; [my_nat] is the type of the own NAT after
    it was asked for again if it was unknown. *)
Definition connect_timeout (is_local : bool) (peer_nat_type : Z) (relay_empty : bool) (my_nat punch_time_used
  direct_failures : Z) : Z :=
  if is_local || (peer_nat_type =? SYMMETRIC) then MIN
  else
    let t :=
      if relay_empty then CONNECT_TIMEOUT
      else
        let t := if peer_nat_type =? ASYMMETRIC then
                   if my_nat =? ASYMMETRIC then
                     if 0 <? direct_failures then u64 (punch_time_used * 6) else CONNECT_TIMEOUT
                   else if my_nat =? SYMMETRIC then MIN else 0
                 else 0 in
        if t =? 0 then u64 (punch_time_used * (if 0 <? direct_failures then 3 else 6)) else t in
    Z.max t MIN.

(** Whether [connect] asks for the type of the own NAT. *)
Definition asks_nat (is_local : bool) (peer_nat_type : Z) (relay_empty : bool) (my_nat_type : Z) : bool :=
  negb (is_local || (peer_nat_type =? SYMMETRIC)) && negb relay_empty && (peer_nat_type =? ASYMMETRIC)
  && (my_nat_type =? UNKNOWN_NAT).

(** The attempt the race answered with; there is no answer beyond the list. *)
Definition winner (l : list Attempt) (i : nat) : string := attempt_type use_ws (nth i l (UdpNat "" 0)).

Definition connect (local_addr peer : SocketAddr) (peer_id : string) (signed_id_pk : list Z)
  (relay_server rendezvous_server : string) (punch_time_used peer_nat_type my_nat_type : Z) (is_local : bool)
  (key token : string) (conn_type : Z) (s : Session) (udp_nat udp_v6 : bool) : Prog Dialled :=
  ask direct_failures := DirectFailures in
  let* my_nat := (if asks_nat is_local peer_nat_type (String.eqb relay_server "") my_nat_type
              then Do GetNatType Ret else Ret my_nat_type) in
  let ms := connect_timeout is_local peer_nat_type (String.eqb relay_server "") my_nat punch_time_used direct_failures in
  let attempts := [TcpDirect peer local_addr ms] ++ (if udp_nat then [UdpNat "UDP" ms] else [])
                  ++ (if udp_v6 then [UdpNat "IPv6" ms] else []) in
  ask won := Race attempts in
  let direct := is_ok won in
  let* (c, direct, typ) :=
    (if s_force_relay s || negb direct then
       if negb (String.eqb relay_server "") then
         let* r := try_ (request_relay peer_id relay_server rendezvous_server (negb (len signed_id_pk =? 0)) key token conn_type) in
         match r with
         | Err e => ask _ := UpdateDirect (Some false) in Bail ("Failed to connect via relay server: " +:+ e)
         | Ok c => Ret (c, false, "Relay")
         end
       else Bail "Failed to make direct connection to remote desktop"
     else match won with
          | Err e => Bail e
          | Ok (i, c) => Ret (c, true, winner attempts i)
          end) in
  let* r := try_ (secure_connection peer_id signed_id_pk key c) in
  match r with
  | Err e => ask _ := UpdateDirect (Some direct) in Bail e
  | Ok (c, pk) => Ret (mkDialled c direct pk typ)
  end.

(** ** [_start_inner] *)

(** The result of [start_]: the connection, the feedback and the server, and
    whether [direct_failures] is to be updated. *)
Abbreviation Started := (Dialled * (Z * string) * bool)%type.

Inductive Punched : Type :=
| Hole (ph : PunchHoleResponse) (peer_addr : SocketAddr) (udp ipv6 : bool)
| Finished (r : Started)
| Nothing.

Definition failure_text (f : Z) : string :=
  if f =? 0 then "ID does not exist"
  else if f =? 2 then "Remote desktop is offline"
  else if f =? 3 then "Key mismatch"
  else if f =? 4 then "Key overuse"
  else "other punch hole failure".

Definition port_of (a : SocketAddr) : Z := match a with V4 _ p => p | V6 _ p _ _ => p end.

Definition hole_punched (ph : PunchHoleResponse) (udp ipv6 : bool) : Prog Punched :=
  let peer_addr := decode (phr_socket_addr ph) in
  let* _ := (if phr_is_udp ph && udp then Do (UdpConnect "UDP" peer_addr) (fun _ => Ret tt) else Ret tt) in
  let addr := decode (phr_socket_addr_v6 ph) in
  let v6 := ipv6 && negb (len (phr_socket_addr_v6 ph) =? 0) && (0 <? port_of addr) in
  let* _ := (if v6 then Do (UdpConnect "IPv6" addr) (fun _ => Ret tt) else Ret tt) in
  Ret (Hole ph peer_addr (phr_is_udp ph && udp) v6).

Definition relay_requested (peer key : string) (conn_type : Z) (my_addr : SocketAddr) (rendezvous_server : string)
  (ipv6 : bool) (rr : RelayResponseIn) : Prog Punched :=
  let addr := decode (rri_socket_addr_v6 rr) in
  let* v6 := (if ipv6 && (0 <? port_of addr) then Do (UdpConnect "IPv6" addr) Ret else Ret false) in
  let attempts := (if v6 : bool then [UdpNat "IPv6" CONNECT_TIMEOUT] else [])
    ++ [ByRelay (relay_target (rri_relay_server rr) (ipv4_of my_addr)) (relay_request peer (rri_uuid rr) key conn_type)] in
  ask won := Race attempts in
  let* (i, c) := ok_or won in
  let typ := winner attempts i in
  let* (c, pk) := secure_connection peer (rri_pk rr) key c in
  Ret (Finished (mkDialled c (String.eqb typ "IPv6") pk typ, (rri_feedback rr, rendezvous_server), false)).

(** The loop [for i in 1..=3]: [more] attempts remain. *)
Fixpoint punch_n (more : nat) (i : Z) (c : Conn) (request : DOut) (peer key : string) (conn_type : Z)
  (rendezvous_server : string) (udp ipv6 : bool) : Prog Punched :=
  match more with
  | O => Ret Nothing
  | S more =>
    ask r := SendMsg c request in let* _ := ok_or r in
    ask m := NextMsg c (i * 3000) in
    match m with
    | Some (InPunchHole ph) =>
      if len (phr_socket_addr ph) =? 0 then
        if negb (String.eqb (phr_other_failure ph) "") then Bail (phr_other_failure ph)
        else Bail (failure_text (phr_failure ph))
      else hole_punched ph udp ipv6
    | Some (InRelay rr) => relay_requested peer key conn_type (c_local c) rendezvous_server ipv6 rr
    | _ => punch_n more (i + 1) c request peer key conn_type rendezvous_server udp ipv6
    end
  end.

(** The first server that answers, and the connection to it. *)
Fixpoint try_servers (servers : list string) (last : result Conn string) (rendezvous_server : string)
  : Prog (result Conn string * string) :=
  match servers with
  | [] => Ret (last, rendezvous_server)
  | sv :: servers =>
    let sv := check_port sv RENDEZVOUS_PORT in
    ask r := ConnectTcp sv in
    match r with
    | Ok c => Ret (Ok c, sv)
    | Err e => try_servers servers (Err e) rendezvous_server
    end
  end.

Definition dial_server (rendezvous_server : string) (servers : list string) (contained : bool) : Prog (Conn * string) :=
  ask r := ConnectTcp rendezvous_server in
  let* (r, sv) :=
    (if negb (is_ok r) && negb (match servers with [] => true | _ => false end) then
       let* x := try_servers servers r rendezvous_server in ask _ := RefreshRendezvousServer in Ret x
     else if negb contained then ask _ := RefreshRendezvousServer in Ret (r, rendezvous_server)
     else Ret (r, rendezvous_server)) in
  let* c := ok_or r in Ret (c, sv).

Definition known_nat (n : Z) : Z := if (0 <=? n) && (n <=? 2) then n else UNKNOWN_NAT.

Definition start_inner (ipv6_enabled : bool) (peer key token : string) (conn_type : Z) (s : Session) (udp : bool)
  (rendezvous_server : string) (servers : list string) (contained : bool) : Prog Started :=
  let* (c, sv) := dial_server rendezvous_server servers contained in
  let my_addr := c_local c in
  ask my_nat := GetNatType in
  let nat_type := if s_force_relay s then SYMMETRIC else known_nat my_nat in
  let* c := (if negb (String.eqb key "") && negb (String.eqb token "") then
           let* r := try_ (secure_tcp c key) in
           match r with Ok c => Ret c | Err e => Bail ("Failed to secure tcp: " +:+ e) end
         else if udp then ask _ := WaitUdpPort in Ret c
         else Ret c) in
  let* v6 := (if ipv6_enabled then Do Ipv6Socket Ret else Ret None) in
  let* udp_port := (if udp then Do UdpPort Ret else Ret 0) in
  let request := PunchHoleRequest peer token nat_type key conn_type udp_port (s_force_relay s)
                   (match v6 with Some a => a | None => [] end) in
  let* p := punch_n 3 1 c request peer key conn_type sv udp (match v6 with Some _ => true | None => false end) in
  match p with
  | Finished r => Ret r
  | Nothing => Bail "Failed to connect via rendezvous server"
  | Hole ph peer_addr udp v6 =>
    if port_of peer_addr =? 0 then Bail "Failed to connect via rendezvous server"
    else
      ask time_used := ElapsedMs in
      let* d := connect my_addr peer_addr peer (phr_pk ph) (phr_relay_server ph) sv time_used (phr_nat_type ph) my_nat
              (phr_is_local ph) key token conn_type s udp v6 in
      Ret (d, (phr_feedback ph, sv), true)
  end.

(** ** [start] *)

(** What [_start] decides before it dials: to fail, a connection to an address,
    or the arguments of [start_inner] and whether it also runs with a UDP
    socket. *)
Inductive Plan : Type :=
| PFail (e : string)
| PAddress (target : string)
| PInner (peer key token rendezvous_server : string) (servers : list string) (contained udp : bool).

(** [server_process] is the answer of [crate::get_rendezvous_server],
    [udp_socket] whether a UDP socket could be made for a server. *)
Definition plan (incoming_only udp_punch_enabled : bool) (server_process : string * list string)
  (udp_socket : string -> bool) (peer key token : string) (s : Session) : Plan :=
  if incoming_only then PFail "Incoming only mode"
  else if is_ip_str peer then PAddress (check_port peer (RELAY_PORT + 1))
  else if is_domain_port_str peer then PAddress peer
  else
    let '(peer, other_server, key, token) :=
      match s_other_server s with Some (a, b, c) => (a, b, c, "") | None => (peer, "", key, token) end in
    let '(server, servers, contained) :=
      if String.eqb other_server "" then get_rendezvous_server (fst server_process) (snd server_process)
      else if String.eqb other_server PUBLIC_SERVER then (check_port RENDEZVOUS_SERVER RENDEZVOUS_PORT, [], true)
      else (check_port other_server RENDEZVOUS_PORT, [], true) in
    PInner peer key token server servers contained
      (udp_punch_enabled && negb (s_force_relay s) && udp_socket server).

(** The programs that run at the same time; the first to succeed gives the
    result ([select_ok]). *)
Definition start_ (ipv6_enabled : bool) (conn_type : Z) (s : Session) (p : Plan) : list (Prog Started) :=
  match p with
  | PFail e => [Bail e]
  | PAddress target =>
    [ask r := ConnectTcp target in let* c := ok_or r in Ret (mkDialled c true None "TCP", (0, ""), false)]
  | PInner peer key token server servers contained udp =>
    (if udp then [start_inner ipv6_enabled peer key token conn_type s true server servers contained] else [])
    ++ [start_inner ipv6_enabled peer key token conn_type s false server servers contained]
  end.

(** [select_ok]: the results in the order in which they come. *)
Fixpoint select_ok {A} (rs : list (result A string)) : result A string :=
  match rs with
  | [] => Err ""
  | [r] => r
  | Ok a :: _ => Ok a
  | Err _ :: rs => select_ok rs
  end.

Definition begin_start : Prog unit := ask _ := UpdateDirect None in ask _ := UpdateReceived false in Ret tt.

(** The end of [start], given the result of [_start]. *)
Definition finish_start (s : Session) (r : result Started string) : Prog (Dialled * (Z * string)) :=
  match r with
  | Err err => if starts_with "Failed" err then Bail (err +:+ ": Please try later") else Bail err
  | Ok (d, fb, update) =>
    if update then
      ask direct_failures := DirectFailures in
      if negb (s_force_relay s) && negb (Bool.eqb (direct_failures =? 0) (d_direct d)) then
        ask _ := SetDirectFailure (if d_direct d then 0 else 1) in Ret (d, fb)
      else Ret (d, fb)
    else Ret (d, fb)
  end.

End Dial.

(** ** Punching a UDP hole ([punch_udp] of [src/common.rs])

    In each turn of the loop a new sleep races with the socket: it can end only
    when nothing arrives for [retry_interval] since the turn began. *)
Record PunchState : Type := mkPunch {
  retry_interval : Z;  (* ms *)
  packets_sent : Z; last_send_time : Z; tm : Z; turn : Z }.

Inductive PunchEvent : Type :=
| Slept (t : Z)
| Arrived (t : Z) (n : Z)          (* [n] bytes *)
| RecvFailed (t : Z) (e : string).

(** The three ways a turn ends. *)
Inductive PunchEnd : Type :=
| Running (s : PunchState)
| Punched_ (data : option Z)
| PunchFailed (e : string).

Definition MAX_INTERVAL : Z := 200.
Definition MAX_TIME : Z := 20 * 1000000000.

Definition punch_start (t : Z) : PunchState := mkPunch 20 1 t t t.

(** [min (1.5 * retry, MAX_INTERVAL)] *)
Definition next_interval (r : Z) : Z := Z.min (r * 3 / 2) MAX_INTERVAL.

Definition enabled (ev : PunchEvent) (s : PunchState) : bool :=
  match ev with
  | Slept t => turn s + retry_interval s * 1000000 <=? t
  | Arrived t _ | RecvFailed t _ => turn s <=? t
  end.

Definition punch_step (listen : bool) (ev : PunchEvent) (s : PunchState) : PunchEnd :=
  match ev with
  | Slept t =>
    if MAX_TIME <? t - tm s then PunchFailed "UDP punch is timed out"
    else if retry_interval s * 1000000 <=? t - last_send_time s then
      Running (mkPunch (next_interval (retry_interval s)) (packets_sent s + 1) t (tm s) t)
    else Running (mkPunch (retry_interval s) (packets_sent s) (last_send_time s) (tm s) t)
  | RecvFailed _ e => PunchFailed e
  | Arrived t n =>
    if listen then
      if n =? 0 then Running (mkPunch (retry_interval s) (packets_sent s) (last_send_time s) (tm s) t)
      else Punched_ (Some n)
    else Punched_ None
  end.

(** A run of the loop; [None] if an event could not happen when it does. *)
Fixpoint punch_run (listen : bool) (evs : list PunchEvent) (s : PunchState) : option PunchEnd :=
  match evs with
  | [] => Some (Running s)
  | ev :: evs =>
    if enabled ev s then
      match punch_step listen ev s with
      | Running s => punch_run listen evs s
      | e => Some e
      end
    else None
  end.

(** ** The test of the UDP port ([test_udp_uat]) *)

Inductive UatEvent : Type :=
| Stun (port : Z)
| Stop
| UatSlept (t : Z)
| TestNatResponse (port : Z)
| OtherData.

(** The shared port, the retry interval, the time of the last packet, the
    number of packets. *)
Record UatState : Type := mkUat { udp_port : Z; uat_retry : Z; uat_last : Z; uat_sent : Z }.

(** The boolean says whether the loop goes on. *)
Definition uat_step (send_ok : bool) (ev : UatEvent) (s : UatState) : UatState * bool :=
  match ev with
  | Stun port => (mkUat port (uat_retry s) (uat_last s) (uat_sent s), false)
  | Stop => (s, false)
  | UatSlept t =>
    if uat_retry s * 1000000 <=? t - uat_last s then
      (mkUat (udp_port s) (next_interval (uat_retry s)) t (if send_ok then uat_sent s + 1 else uat_sent s), true)
    else (s, true)
  | TestNatResponse port => (mkUat (u16 port) (uat_retry s) (uat_last s) (uat_sent s), false)
  | OtherData => (s, true)
  end.

(** ** The health check of a session ([hc_connection_]) *)

Record HcState : Type := mkHc { hc_keep_alive : Z; hc_last_recv_msg : Z }.

Inductive HcEvent : Type :=
| SessionSignal (closed : bool)
| HcFrame (t : Z) (res : option (result (option (option (option Z))) string)) (send_ok : result unit string)
| HcTick (t : Z).

Inductive HcOut : Type := HcHeartbeat.

(** [hc_connection] starts it only with feedback, a server and a token. *)
Definition hc_wanted (feedback : Z) (rendezvous_server token : string) : bool :=
  negb ((feedback =? 0) || String.eqb rendezvous_server "" || String.eqb token "").

(** A frame: nothing more, an error, bytes that do not parse, the empty frame,
    or a message, with the [keep_alive] of a [RegisterPkResponse]. *)
Definition hc_step (ev : HcEvent) (s : HcState) : list HcOut * Rendezvous.Flow HcState :=
  match ev with
  | SessionSignal closed => ([], if closed then Rendezvous.Exit else Rendezvous.Go s)
  | HcFrame t res send_ok =>
    let s := mkHc (hc_keep_alive s) t in
    match res with
    | None => ([], Rendezvous.Bail "Rendezvous connection is reset by the peer")
    | Some (Err e) => ([], Rendezvous.Bail e)
    | Some (Ok None) => ([], Rendezvous.Bail "parse")
    | Some (Ok (Some None)) =>
      ([HcHeartbeat], match send_ok with Ok _ => Rendezvous.Go s | Err e => Rendezvous.Bail e end)
    | Some (Ok (Some (Some (Some ka)))) =>
      ([], Rendezvous.Go (if 0 <? ka then mkHc (i32 (ka * 1000)) t else s))
    | Some (Ok (Some (Some None))) => ([], Rendezvous.Go s)
    end
  | HcTick t =>
    if u64 (u64 (hc_keep_alive s) * 3) / 2 <? u64 ((t - hc_last_recv_msg s) / 1000000)
    then ([], Rendezvous.Bail "HC connection is timeout") else ([], Rendezvous.Go s)
  end.

(** ** Which peers are online ([peer_online]) *)

(** [create_online_stream]: the address asked, one port below the server's. *)
Definition online_server (rendezvous_server : string) : result string string :=
  match split_char ":" rendezvous_server with
  | [h; p] =>
    match parse_u16 p with
    | None => Err "parse"
    | Some port => if port =? 0 then Err ("Invalid server address: " +:+ rendezvous_server)
                   else Ok (h +:+ ":" +:+ show (port - 1))
    end
  | _ => Err ("Invalid server address: " +:+ rendezvous_server)
  end.

(** The bit of the i-th peer; reading beyond [states] panics. *)
Definition online_bit (states : list Z) (i : nat) : outcome bool :=
  match states !! (i / 8)%nat with
  | None => Panic
  | Some b => let bit_value := Z.shiftl 1 (7 - Z.of_nat i mod 8) in Done (Z.land b bit_value =? bit_value)
  end.

(** The loop over [ids], from the [i]-th on. *)
Fixpoint online_from (i : nat) (ids : list string) (states : list Z) : outcome (list string * list string) :=
  match ids with
  | [] => Done ([], [])
  | id :: ids =>
    let! on := online_bit states i in
    let! (onlines, offlines) := online_from (S i) ids states in
    Done (if on : bool then (id :: onlines, offlines) else (onlines, id :: offlines))
  end.

Inductive OnlineMsg : Type := OnlineResponse (states : list Z) | NotOnline.

(** The answers to the two waits; [stream]: the connection and the send. *)
Definition query_online_states_ (ids : list string) (stream : result unit string) (answers : list (option OnlineMsg))
  : outcome (result (list string * list string) string) :=
  match stream with
  | Err _ => Done (Ok ([], ids))
  | Ok _ =>
    match answers with
    | None :: _ => Done (Err "Online stream receives None")
    | Some (OnlineResponse states) :: _ => let! r := online_from 0 ids states in Done (Ok r)
    | Some NotOnline :: None :: _ => Done (Err "Online stream receives None")
    | Some NotOnline :: Some (OnlineResponse states) :: _ => let! r := online_from 0 ids states in Done (Ok r)
    | _ => Done (Err "Failed to query online states, no online response")
    end
  end.

End Dial.
