(* ===== verification/DialProofs.v ===== *)
(** * Properties of dialling

    - [keyed_means_vouched]: an encrypted session is with the peer the
      rendezvous server vouched for in this run, which has proved to hold the
      key it was vouched with; an address is dialled in clear;
    - the UDP punching loop: it ends when nothing arrives, and can be held open;
    - the query for online peers. *)

From S2P Require Import Prelude RustStr BytesCodec SecureStream Handshake NetUtil Rendezvous Dial.

Module DialFacts.

Import AddrMangle HostPort Secure Dial.

(** ** All results of a program *)

Section Results.
(** The answers that are possible. *)
Context (ok : forall X, Op X -> X -> Prop).

Fixpoint gives {A} (P : A -> Prop) (p : Prog A) : Prop :=
  match p with
  | Ret a => P a
  | Bail _ => True
  | Do op k => forall x, ok _ op x -> gives P (k x)
  end.

Lemma gives_bind {A B} (P : B -> Prop) (p : Prog A) (k : A -> Prog B) :
  gives (fun a => gives P (k a)) p -> gives P (bind p k).
Proof. induction p as [a|e|X op f IH]; cbn; [done|done|]. intros H x Hx. by apply IH, H. Qed.

Lemma gives_mono {A} (P Q : A -> Prop) (p : Prog A) : (forall a, P a -> Q a) -> gives P p -> gives Q p.
Proof. intros HPQ. induction p as [a|e|X op f IH]; cbn; auto. Qed.

Lemma gives_try {A} (P : A -> Prop) (p : Prog A) :
  gives P p -> gives (fun r => match r with Ok a => P a | Err _ => True end) (try_ p).
Proof. induction p as [a|e|X op f IH]; cbn; auto. Qed.

Lemma gives_any {A} (p : Prog A) : gives (fun _ => True) p.
Proof. induction p as [a|e|X op f IH]; cbn; auto. Qed.

Lemma gives_ok_or {A} (P : A -> Prop) (r : result A string) :
  (forall a, r = Ok a -> P a) -> gives P (ok_or r).
Proof. destruct r; cbn; auto. Qed.

(** The answers of a handler in a run; if they are possible ones, the result
    is one of these. *)
Lemma run_gives {A} (P : A -> Prop) (h : Handler) n (p : Prog A) t a :
  run h n p = (t, Ok a) ->
  (forall i X (op : Op X), t !! i = Some (Ev op) -> ok X op (h (n + i)%nat X op)) ->
  gives P p -> P a.
Proof.
  revert n t. induction p as [b|e|X op f IH]; intros n t; cbn [run]; [by intros [= _ <-] _|done|].
  destruct (run h (S n) (f (h n X op))) as [t' r] eqn:E. intros [= <- ->] Hok HP.
  apply (IH (h n X op) (S n) t'); [done| |].
  - intros i Y op' Hi. specialize (Hok (S i) Y op' Hi). by replace (S n + i)%nat with (n + S i)%nat by lia.
  - apply HP. specialize (Hok 0%nat X op eq_refl). by replace n with (n + 0)%nat by lia.
Qed.
End Results.

(** ** Which sessions are encrypted *)

(** New connections have no key. *)
Definition fresh (X : Type) (op : Op X) : X -> Prop :=
  match op in Op Y return Y -> Prop with
  | ConnectTcp _ => fun r => forall c, r = Ok c -> keyed c = false
  | Race _ => fun r => forall i c, r = Ok (i, c) -> keyed c = false
  | _ => fun _ => True
  end.

(** Operation [op] was made in the run [t] and answered with [x]. *)
Definition answered (h : Handler) (n : nat) (t : list Event) (X : Type) (op : Op X) (x : X) : Prop :=
  exists i, t !! i = Some (Ev op) /\ x = h (n + i)%nat X op.

(** The identity in an answer of the rendezvous server. *)
Definition identity_in (m : DIn) : option (list Z) :=
  match m with InPunchHole ph => Some (phr_pk ph) | InRelay rr => Some (rri_pk rr) | InOther => None end.

Section Vouched.
Context `{SB : SecretBox} `{SO : Sodium} `{PR : Proto} (decode64 : string -> option (list Z)).
Context (RS_PUB_KEY : string) (use_ws : bool).
Context (is_ip_str is_domain_port_str is_ipv6_str is_ipv4_str : string -> bool).

Section Answers.
(** The answers of the run. *)
Context (ok : forall X, Op X -> X -> Prop) (Hok : forall X op x, ok X op x -> fresh X op x).

(** An answer of the rendezvous server gave this identity. *)
Definition told (signed : list Z) : Prop :=
  exists c ms m, ok _ (NextMsg c ms) (Some m) /\ identity_in m = Some signed.

(** A connection with a key: the server told an identity of exactly this peer,
    signed under the server's key, with the key that is reported; on the
    connection itself a message arrived that is signed under that key, with
    the same identity; and the stream's key is the one that was made for it. *)
Definition vouched (peer key : string) (c : Conn) (pk : option (list Z)) : Prop :=
  keyed c = true -> exists signed rs_pk sign_pk c0 bytes si their_pk sk sym,
    told signed
    /\ Handshake.get_rs_pk decode64 (if String.eqb key "" then RS_PUB_KEY else key) = Some rs_pk
    /\ Handshake.decode_id_pk signed rs_pk = Ok (peer, sign_pk) /\ pk = Some sign_pk
    /\ c_target c0 = c_target c /\ c_local c0 = c_local c /\ ok _ (ReadFrame c0) (Ok (Some (Ok bytes)))
    /\ parse_from_bytes bytes = Some (Handshake.SignedId si) /\ Handshake.decode_id_pk si sign_pk = Ok (peer, their_pk)
    /\ ok _ NewKeys (sk, sym) /\ encrypt (c_fs c) = Some (Encrypt_new sym).

Abbreviation secure_connection := (secure_connection decode64 RS_PUB_KEY).
Abbreviation start_inner := (start_inner decode64 RS_PUB_KEY use_ws is_ipv6_str is_ipv4_str).
Abbreviation request_relay_n := (request_relay_n decode64 use_ws is_ipv6_str is_ipv4_str).

Lemma send_encrypt m fs fs' : encrypt fs = None -> Handshake.send m fs = Ok fs' -> encrypt fs' = None.
Proof using.
  intros E. unfold Handshake.send, send_raw, send_bytes. rewrite E.
  destruct (Codec.encode _ _ _); cbn [result_bind]; [|done]. by intros [= <-].
Qed.

Lemma flushed_keeps c : gives ok (fun c' => c_target c' = c_target c /\ c_local c' = c_local c
  /\ encrypt (c_fs c') = encrypt (c_fs c)) (flushed c).
Proof using.
  unfold flushed. destruct (wbuf (c_fs c)); [done|]. intros r _. apply gives_bind, gives_ok_or.
  intros [] _. done.
Qed.

Lemma not_keyed c : keyed c = false -> encrypt (c_fs c) = None.
Proof using. unfold keyed. by destruct (encrypt (c_fs c)). Qed.

(** What the client key exchange promises is [Handshake.secured_means_signed]. *)
Lemma secure_connection_vouched peer signed key c : keyed c = false -> told signed ->
  gives ok (fun x => vouched peer key (fst x) (snd x)) (secure_connection peer signed key c).
Proof using.
  intros Hk%not_keyed Ht. unfold Dial.secure_connection.
  destruct (Handshake.client_hello decode64 peer signed RS_PUB_KEY key (c_fs c)) as [[fs|sign_pk]|] eqn:Eh; [| |done].
  - apply gives_bind. eapply gives_mono; [|apply flushed_keeps]. intros c' (_ & _ & He) Hkc. exfalso.
    unfold Handshake.client_hello in Eh. destruct (Handshake.peer_sign_pk _ _ _ _ _); [done|].
    destruct (Handshake.send Empty (c_fs c)) as [fs'|] eqn:E; cbn [result_bind] in Eh; [|done]. injection Eh as ->.
    cbn [fst] in Hkc. unfold keyed in Hkc. rewrite He in Hkc. cbn in Hkc. by rewrite (send_encrypt _ _ _ Hk E) in Hkc.
  - intros r Hr. apply gives_bind, gives_ok_or. intros got -> [sk sym] Hn. apply gives_bind.
    destruct (Handshake.client_key peer sign_pk sk sym got (c_fs c)) as [fs|] eqn:Ek; cbn [with_fs]; [|done].
    eapply gives_mono; [|apply flushed_keeps]. intros c' (H1 & H2 & H3) Hkc. cbn in H1, H2, H3, Hkc.
    assert (is_secured fs = true) as Hs.
    { unfold keyed in Hkc. rewrite H3 in Hkc. unfold is_secured. by destruct (encrypt fs). }
    destruct (Handshake.secured_means_signed decode64 _ _ _ _ _ _ _ _ _ _ Hk Eh Ek Hs)
      as (rs_pk & bytes & si & their & Hrs & Hid & -> & Hp & Hd & He & _).
    exists signed, rs_pk, sign_pk, c, bytes, si, their, sk, sym. cbn [fst snd]. rewrite H1, H2, H3. done.
Qed.

Lemma create_relay_fresh peer uuid rs key ct ipv4 :
  gives ok (fun c => keyed c = false) (create_relay is_ipv6_str is_ipv4_str peer uuid rs key ct ipv4).
Proof using Hok.
  intros r Hr%Hok. destruct r as [c|]; [|done]. intros r' _. apply gives_bind, gives_ok_or. intros [] _. by apply Hr.
Qed.

Lemma request_relay_fresh n peer rs sv sec key token ct :
  gives ok (fun c => keyed c = false) (request_relay_n n peer rs sv sec key token ct).
Proof using Hok.
  induction n as [|n IH]; [done|]. intros r Hr. destruct r as [c|]; [|done].
  apply gives_bind. eapply gives_mono; [|apply gives_any]. intros c' _ uuid _ r _.
  apply gives_bind, gives_ok_or. intros [] _ m _. destruct m as [[ph|rr|]|]; try apply IH.
  destruct (negb _); [done|]. apply create_relay_fresh.
Qed.

Lemma connect_vouched la pa peer signed rs sv tu pn mn loc key token ct s udp v6 : told signed ->
  gives ok (fun d => vouched peer key (d_conn d) (d_pk d))
    (connect decode64 RS_PUB_KEY use_ws is_ipv6_str is_ipv4_str la pa peer signed rs sv tu pn mn loc key token ct s udp v6).
Proof using Hok.
  intros Ht. unfold connect. intros df _. apply gives_bind. eapply gives_mono; [|apply gives_any]. intros nat _ won Hwon%Hok.
  apply gives_bind. eapply (gives_mono ok (fun x => keyed (fst (fst x)) = false)).
  - intros [[c direct] typ] Hc. cbn [fst] in Hc. apply gives_bind.
    eapply gives_mono; [|apply gives_try, (secure_connection_vouched peer signed key c Hc Ht)].
    intros [[c' pk]|e] H; [exact H|]. by intros [] _.
  - destruct (_ || _).
    + destruct (negb _); [|done]. apply gives_bind. eapply gives_mono; [|apply gives_try, request_relay_fresh].
      intros [c|e] H; [exact H|]. by intros [] _.
    + destruct won as [[i c]|]; [|done]. cbn. by apply (Hwon i c).
Qed.

Lemma punch_vouched n i c req peer key ct sv udp v6 :
  gives ok (fun p => match p with
                     | Finished (d, _, _) => vouched peer key (d_conn d) (d_pk d)
                     | Hole ph _ _ _ => told (phr_pk ph)
                     | Nothing => True
                     end) (punch_n decode64 RS_PUB_KEY use_ws is_ipv6_str is_ipv4_str n i c req peer key ct sv udp v6).
Proof using Hok.
  revert i. induction n as [|n IH]; intros i; [done|]. intros r _. apply gives_bind, gives_ok_or.
  intros [] _ m Hm. destruct m as [[ph|rr|]|]; try apply IH.
  - assert (told (phr_pk ph)) as Ht by (by eexists _, _, _).
    destruct (_ =? _); [by destruct (negb _)|]. unfold hole_punched.
    apply gives_bind. eapply gives_mono; [|apply gives_any]. intros _ _.
    apply gives_bind. eapply gives_mono; [|apply gives_any]. done.
  - assert (told (rri_pk rr)) as Ht by (by eexists _, _, _).
    unfold relay_requested. apply gives_bind. eapply gives_mono; [|apply gives_any]. intros b _ won Hwon%Hok.
    apply gives_bind, gives_ok_or. intros [j c'] ->. apply gives_bind.
    eapply gives_mono; [|apply secure_connection_vouched; [by eapply Hwon|done]]. intros [c2 pk] H. exact H.
Qed.

Lemma start_inner_vouched v6 peer key token ct s udp sv servers contained :
  gives ok (fun x => vouched peer key (d_conn (fst (fst x))) (d_pk (fst (fst x))))
    (start_inner v6 peer key token ct s udp sv servers contained).
Proof using Hok.
  unfold Dial.start_inner.
  apply gives_bind. eapply gives_mono; [|apply gives_any]. intros [c sv'] _ nat _.
  apply gives_bind. eapply gives_mono; [|apply gives_any]. intros c' _.
  apply gives_bind. eapply gives_mono; [|apply gives_any]. intros a6 _.
  apply gives_bind. eapply gives_mono; [|apply gives_any]. intros port _.
  apply gives_bind. eapply gives_mono; [|apply punch_vouched].
  intros [ph pa u6 h6|[[d fb] b]|] H; [|exact H|done].
  destruct (_ =? _); [done|]. intros ms _. apply gives_bind.
  eapply gives_mono; [|by apply connect_vouched]. intros d Hd. exact Hd.
Qed.

End Answers.

(** C9. Dialling by identity returns an encrypted connection only when, in this
    run, the rendezvous server gave an identity of exactly that peer signed
    under the key of the server, and a message arrived on that very connection
    with the same identity signed under the peer's key that the server gave
    and that is reported; its key is then the one made for it in this run;
    whatever servers, relays and attempts were involved.  A connection to an
    address is never encrypted and no key exchange is tried on it. *)
Theorem keyed_means_vouched (h : Handler) n v6 ct s p prog t d fb u :
  (forall m X (op : Op X), fresh X op (h m X op)) ->
  prog ∈ start_ decode64 RS_PUB_KEY use_ws is_ipv6_str is_ipv4_str v6 ct s p ->
  run h n prog = (t, Ok (d, fb, u)) ->
  match p with
  | PFail _ => False
  | PAddress target => t = [Ev (ConnectTcp target)] /\ keyed (d_conn d) = false /\ d_pk d = None
  | PInner peer key _ _ _ _ _ => vouched (answered h n t) peer key (d_conn d) (d_pk d)
  end.
Proof.
  intros Hh Hin Hrun. destruct p as [e|target|peer key token sv servers contained udp]; cbn [start_] in Hin.
  - apply list_elem_of_singleton in Hin as ->. done.
  - apply list_elem_of_singleton in Hin as ->. cbn [run] in Hrun.
    pose proof (Hh n _ (ConnectTcp target)) as Hf. cbn [fresh] in Hf.
    destruct (h n _ (ConnectTcp target)) as [c|e]; cbn in Hrun; [|done].
    injection Hrun as <- <- <- <-. split_and!; [done| |done]. by apply Hf.
  - assert (exists b, prog = start_inner decode64 RS_PUB_KEY use_ws is_ipv6_str is_ipv4_str v6 peer key token ct s b sv
      servers contained) as [b ->].
    { apply elem_of_app in Hin as [Hin|Hin].
      - destruct udp; [|by apply elem_of_nil in Hin]. apply list_elem_of_singleton in Hin as ->. by eexists.
      - apply list_elem_of_singleton in Hin as ->. by eexists. }
    refine (run_gives (answered h n t) _ h n _ t (d, fb, u) Hrun _
      (start_inner_vouched _ _ v6 peer key token ct s b sv servers contained)).
    + intros i X op Hi. by exists i.
    + intros X op x (i & _ & ->). apply Hh.
Qed.

(** The direct attempt comes first whatever the session is forced to: a session
    that is to use relays only still connects to the peer's address. *)
Lemma forced_relay_still_dials h n la pa peer signed rs sv tu pn mn loc key token ct s udp v6 :
  exists ms l,
    Ev (Race (TcpDirect pa la ms :: l)) ∈
      fst (run h n (connect decode64 RS_PUB_KEY use_ws is_ipv6_str is_ipv4_str la pa peer signed rs sv tu pn mn loc key token ct s udp v6)).
Proof.
  unfold connect. destruct (asks_nat _ _ _ _); cbn [bind run];
    repeat (match goal with |- context [run h ?n ?p] => destruct (run h n p) end); cbn [fst];
    eexists _, _; repeat econstructor.
Qed.

End Vouched.

(** ** Punching UDP holes *)

Definition punch_ok (s : PunchState) : Prop := 20 <= retry_interval s <= MAX_INTERVAL.

Lemma next_interval_ok r : 20 <= r <= MAX_INTERVAL -> 20 <= next_interval r <= MAX_INTERVAL.
Proof. unfold next_interval, MAX_INTERVAL. intros H. Z.to_euclidean_division_equations. lia. Qed.

Lemma punch_step_ok listen ev s s' : punch_ok s -> punch_step listen ev s = Running s' -> punch_ok s' /\ tm s' = tm s.
Proof.
  unfold punch_ok. intros H. destruct ev as [t|t n|t e]; cbn [punch_step]; [| |done].
  - destruct (_ <? _); [done|]. destruct (_ <=? _); intros [= <-]; cbn; [|done].
    split; [by apply next_interval_ok|done].
  - destruct listen; [|done]. destruct (n =? 0); [|done]. by intros [= <-].
Qed.

(** Empty datagrams that come less than 20 ms after each other, the first less
    than 20 ms after [t]. *)
Fixpoint steady (t : Z) (ts : list Z) : Prop :=
  match ts with [] => True | t' :: ts => t <= t' < t + 20 * 1000000 /\ steady t' ts end.

(** A side that listens for a hole is kept listening for as long as the
    other side likes: while empty datagrams come less than 20 ms apart, the
    loop neither ends nor can it look at its time limit, since every datagram
    starts the sleep anew; the limit of 20 seconds does not hold. *)
Theorem punch_held_open ts s : punch_ok s -> steady (turn s) ts ->
  exists s', punch_run true (map (fun t => Arrived t 0) ts) s = Some (Running s')
    /\ turn s' = default (turn s) (last ts) /\ tm s' = tm s
    /\ forall t', t' < turn s' + 20 * 1000000 -> enabled (Slept t') s' = false.
Proof.
  revert s. induction ts as [|t ts IH]; intros s Hok Hs; cbn [map punch_run].
  - exists s. split_and!; try done. intros t' Ht. cbn. apply Z.leb_gt. unfold punch_ok in Hok. lia.
  - destruct Hs as [Ht Hs]. cbn [enabled]. rewrite (proj2 (Z.leb_le _ _)) by lia. cbn [punch_step Z.eqb].
    set (s1 := mkPunch _ _ _ _ _). destruct (IH s1 Hok Hs) as (s' & E & Hl & Htm & Hen).
    exists s'. split; [exact E|]. split_and!; [|exact Htm|exact Hen]. rewrite Hl.
    rewrite last_cons. by destruct (last ts).
Qed.

(** When nothing arrives the loop ends with an error, within 1001 turns. *)
Theorem silent_punch_ends listen evs s r :
  punch_ok s -> tm s <= turn s -> Forall (fun ev => match ev with Slept _ => True | _ => False end) evs ->
  (1001 <= length evs)%nat -> punch_run listen evs s = Some r ->
  exists e, r = PunchFailed e.
Proof.
  intros Hok Ht Hev Hlen Hrun.
  assert (H : forall k evs s, punch_ok s -> tm s + k * (20 * 1000000) <= turn s ->
    Forall (fun ev => match ev with Slept _ => True | _ => False end) evs ->
    1001 <= k + len evs -> (1 <= length evs)%nat -> punch_run listen evs s = Some r -> exists e, r = PunchFailed e).
  { clear. intros k evs. revert k. induction evs as [|ev evs IH]; intros k s Hok Ht Hev Hk Hne; [cbn in Hne; lia|].
    apply Forall_cons in Hev as [He Hev]. destruct ev as [t| |]; [|done|done]. clear He.
    cbn [punch_run enabled]. destruct (_ <=? t) eqn:Een; [|done]. apply Z.leb_le in Een. unfold punch_ok in Hok.
    destruct (punch_step listen (Slept t) s) as [s'|d|e] eqn:E.
    - destruct (punch_step_ok listen (Slept t) s s' Hok E) as [Hok' Htm].
      assert (Ht' : turn s' = t /\ t - tm s <= MAX_TIME).
      { revert E. cbn [punch_step]. destruct (_ <? _) eqn:El; [done|]. apply Z.ltb_ge in El.
        destruct (_ <=? _); by intros [= <-]. }
      destruct Ht' as [Hturn Hmax]. unfold MAX_TIME in Hmax. unfold len in *. cbn [length] in *.
      apply (IH (k + 1) s'); [done| |done|lia|lia]. rewrite Htm, Hturn. lia.
    - exfalso. revert E. cbn [punch_step]. destruct (_ <? _); [done|]. by destruct (_ <=? _).
    - intros [= <-]. by eexists. }
  apply (H 0 evs s); [done|lia|done|unfold len; lia|lia|done].
Qed.

(** ** Which peers are online *)

(** Whether the bit of the [i]-th peer is set. *)
Definition bit_set (states : list Z) (i : nat) : bool :=
  Z.testbit (nth (i / 8) states 0) (7 - Z.of_nat i mod 8).

Lemma online_bit_spec states i :
  online_bit states i = if decide (i / 8 < length states)%nat then Done (bit_set states i) else Panic.
Proof.
  unfold online_bit. destruct (states !! (i / 8)%nat) as [b|] eqn:E.
  - rewrite decide_True by (by eapply lookup_lt_Some). f_equal. unfold bit_set.
    rewrite (nth_lookup_Some _ _ _ _ E). set (j := 7 - Z.of_nat i mod 8).
    assert (0 <= j) as Hj by (unfold j; pose proof (Z.mod_pos_bound (Z.of_nat i) 8); lia).
    rewrite Z.shiftl_1_l.
    assert (Z.land b (2 ^ j) = if Z.testbit b j then 2 ^ j else 0) as ->.
    { apply Z.bits_inj'. intros n Hn. rewrite Z.land_spec, Z.pow2_bits_eqb by done.
      destruct (Z.testbit b j) eqn:Eb; [rewrite Z.pow2_bits_eqb by done|rewrite Z.bits_0];
        destruct (Z.eqb_spec j n) as [->|]; by rewrite ?Eb, ?andb_false_r, ?andb_true_r. }
    destruct (Z.testbit b j); [apply Z.eqb_refl|]. apply Z.eqb_neq. pose proof (Z.pow_pos_nonneg 2 j). lia.
  - rewrite decide_False; [done|]. apply lookup_ge_None in E. lia.
Qed.

Lemma online_from_spec ids states i :
  online_from i ids states =
  if decide (ids = [] \/ ((i + length ids - 1) / 8 < length states)%nat)
  then Done (map snd (filter (fun p => bit_set states (fst p) = true) (zip (seq i (length ids)) ids)),
             map snd (filter (fun p => bit_set states (fst p) = false) (zip (seq i (length ids)) ids)))
  else Panic.
Proof.
  revert i. induction ids as [|id ids IH]; intros i; cbn [online_from].
  { by rewrite decide_True by (by left). }
  rewrite online_bit_spec, IH. cbn [length seq zip zip_with].
  case_decide as Hi; cbn [outcome_bind].
  - destruct ids as [|id' ids].
    + rewrite (decide_True (P := [] = [] \/ _)) by (by left). cbn [outcome_bind length seq zip zip_with].
      rewrite decide_True. 2: { right. by replace (i + 1 - 1)%nat with i by lia. }
      rewrite !(filter_cons _ (i, id)), !filter_nil. cbn [fst]. by destruct (bit_set states i).
    + assert ((i + length (id :: id' :: ids) - 1 = S i + length (id' :: ids) - 1)%nat) as Hn by (cbn; lia).
      destruct (decide (((S i + length (id' :: ids) - 1) / 8 < length states)%nat)) as [Hd|Hd].
      * rewrite decide_True by (by right). cbn [outcome_bind]. rewrite decide_True by (right; cbn [length] in *; by rewrite Hn).
        rewrite !(filter_cons _ (i, id)). cbn [fst]. destruct (bit_set states i); done.
      * rewrite decide_False by (intros [?|?]; done). cbn [outcome_bind].
        rewrite decide_False; [done|]. intros [?|Hx]; [done|]. apply Hd. cbn [length] in *. by rewrite <-Hn.
  - rewrite decide_False; [done|]. intros [?|Hx]; [done|]. apply Hi.
    eapply Nat.le_lt_trans; [|exact Hx]. apply Nat.Div0.div_le_mono. cbn. lia.
Qed.

(** The answer to the query for online peers is read bit by bit: with a bit
    for every peer each is reported as online exactly when its bit is set, in
    order; an answer with fewer bytes than that makes the program panic, so the
    server can end it by one short message. *)
Theorem online_query_exact ids states rest :
  query_online_states_ ids (Ok tt) (Some (OnlineResponse states) :: rest) =
  if decide (ids = [] \/ ((length ids - 1) / 8 < length states)%nat)
  then Done (Ok (map snd (filter (fun p => bit_set states (fst p) = true) (zip (seq 0 (length ids)) ids)),
                 map snd (filter (fun p => bit_set states (fst p) = false) (zip (seq 0 (length ids)) ids))))
  else Panic.
Proof.
  unfold query_online_states_. rewrite online_from_spec. cbn [Nat.add].
  by destruct (decide _).
Qed.

Example short_answer_panics : query_online_states_ ["a"] (Ok tt) [Some (OnlineResponse [])] = Panic.
Proof. reflexivity. Qed.

Example nine_peers :
  query_online_states_ ["1"; "2"; "3"; "4"; "5"; "6"; "7"; "8"; "9"] (Ok tt) [Some (OnlineResponse [0xA1; 0x80])]
  = Done (Ok (["1"; "3"; "8"; "9"], ["2"; "4"; "5"; "6"; "7"])).
Proof. reflexivity. Qed.

(** ** Witnesses *)

#[local] Instance plain_box : SecretBox := { seal m _ _ := m; open_box c _ _ := Some c }.
#[local] Existing Instance Handshake.toy_sodium.
#[local] Existing Instance Handshake.toy_proto.

(** The server's key is [[1]] and the peer's [[2]]: the rendezvous server
    answers with a relay and the identity it has signed, and the peer signs
    its box key [[3]]; every connection is accepted. *)
Definition demo_signed : list Z :=
  Handshake.sign (Handshake.write_id_pk "123456789" (Handshake.sign_pk [2])) [1].
Definition demo_hello : list Z :=
  Handshake.write_to_bytes (Handshake.SignedId (Handshake.sign (Handshake.write_id_pk "123456789" (Handshake.box_pk [3])) [2])).
Definition demo_decode64 : string -> option (list Z) := fun _ => Some (Handshake.sign_pk [1]).

Definition demo_handler : Handler := fun _ X op =>
  match op in Op Y return Y with
  | ConnectTcp h => Ok (mkConn h (V4 [10; 0; 0; 2] 5000) from_stream)
  | SendMsg _ _ | Flush _ => Ok tt
  | NextMsg _ _ => Some (InRelay (mkRelayResponseIn "uuid" "relay.example.com" demo_signed 7 [] ""))
  | ReadFrame _ => Ok (Some (Ok demo_hello))
  | NewKeys => ([1], [2])
  | NewUuid => "uuid"
  | GetNatType => 1
  | DirectFailures => 0
  | UpdateDirect _ | UpdateReceived _ | SetDirectFailure _ | RefreshRendezvousServer | WaitUdpPort => tt
  | UdpPort => 0
  | Ipv6Socket => None
  | UdpConnect _ _ => true
  | ElapsedMs => 20
  | Race l => Ok (0%nat, mkConn "relay.example.com:21117" (V4 [10; 0; 0; 2] 5001) from_stream)
  end.

Definition demo_plan : Plan := PInner "123456789" "" "" "hbbs.example.com:21116" [] true false.

Lemma keyed_means_vouched_witness :
  exists t d fb u,
    map (fun p => run demo_handler 0 p)
      (start_ demo_decode64 "key" false (fun _ => false) (fun _ => false) false 0 (mkSession false None) demo_plan)
    = [(t, Ok (d, fb, u))]
    /\ keyed (d_conn d) = true
    /\ vouched demo_decode64 "key" (answered demo_handler 0 t) "123456789" "" (d_conn d) (d_pk d).
Proof.
  eexists _, _, _, _. split; [vm_compute; reflexivity|]. split; [reflexivity|].
  refine (keyed_means_vouched demo_decode64 "key" false (fun _ => false) (fun _ => false)
    demo_handler 0 false 0 (mkSession false None) demo_plan _ _ _ _ _ _ _ _).
  - intros m X op. destruct op; cbn; try done; [by intros c [= <-]|by intros i c [= _ <-]].
  - apply list_elem_of_singleton. reflexivity.
  - vm_compute. reflexivity.
Defined.

Lemma punch_held_open_witness :
  exists s', punch_run true (map (fun i => Arrived (Z.of_nat i * 19 * 1000000) 0) (seq 1 1200)) (punch_start 0) = Some (Running s')
    /\ MAX_TIME < turn s' - tm s'.
Proof.
  destruct (punch_held_open (map (fun i => Z.of_nat i * 19 * 1000000) (seq 1 1200)) (punch_start 0)) as (s' & E & Ht & Hm & _).
  - unfold punch_ok. cbn. unfold MAX_INTERVAL. lia.
  - vm_compute. repeat split; discriminate.
  - exists s'. rewrite map_map in E. split; [exact E|]. rewrite Ht, Hm. vm_compute. reflexivity.
Defined.

Lemma silent_punch_ends_witness :
  exists e, punch_run false (map (fun i => Slept (Z.of_nat i * 200 * 1000000)) (seq 1 1001)) (punch_start 0) = Some (PunchFailed e).
Proof.
  destruct (silent_punch_ends false (map (fun i => Slept (Z.of_nat i * 200 * 1000000)) (seq 1 1001)) (punch_start 0)
    (PunchFailed "UDP punch is timed out")) as [e He].
  - unfold punch_ok. cbn. unfold MAX_INTERVAL. lia.
  - cbn. lia.
  - apply Forall_map, Forall_true. done.
  - rewrite length_map, length_seq. lia.
  - vm_compute. reflexivity.
  - exists e. rewrite <-He. vm_compute. reflexivity.
Defined.

End DialFacts.
