(* ===== verification/PeerConfig.v ===== *)
(** * Settings of the peers ([libs/hbb_common/src/config.rs])

    What the controlling side remembers of each peer ([PeerConfig]), the
    user's defaults for new peers ([UserDefaultConfig]) and the local options
    ([LocalConfig]), with the files they are kept in.

    - A settings file is modelled by its TOML table: each field is missing,
      present with a value of another type, or present with a value
      ([Field]); writing and reading a [PeerConfig] apply the [serde]
      attributes of the struct field by field.  A file that is no TOML is
      [None].
    - [Store] is the file tree below the configuration directory, as far as
      peers are concerned, and the cached user defaults.
    - [f64] text conversions are the class [F64Text]; the sealing of the
      secrets is the component [Password]. *)

From S2P Require Import Prelude RustStr SecureStream Password Config.

(** ** What [get_num_string] and its callers use of [f64] *)
Class F64Text := {
  f64 : Type;
  f64_parse : string -> option f64;
  f64_show : f64 -> string;
  f64_le : f64 -> f64 -> bool;
  f64_of_Z : Z -> f64;
  f64_as_i32 : f64 -> Z
}.

(** A printed number reads back as itself, and a number between two small
    integers is converted to an integer between them. *)
Class F64TextLaws `(F : F64Text) : Prop := {
  f64_parse_show : forall v, f64_parse (f64_show v) = Some v;
  f64_as_i32_between : forall a b v, 0 <= a <= b -> b <= 65535 ->
    f64_le (f64_of_Z a) v = true -> f64_le v (f64_of_Z b) = true -> a <= f64_as_i32 v <= b;
  f64_le_of_Z : forall a b, 0 <= a <= 65535 -> 0 <= b <= 65535 ->
    f64_le (f64_of_Z a) (f64_of_Z b) = (a <=? b)
}.

Module PeerCfg.

Import Utf8 Vault.

Abbreviation smap := (gmap string string).

(** ** The user's defaults *)

(** [OVERWRITE_DISPLAY_SETTINGS] and [DEFAULT_DISPLAY_SETTINGS] *)
Record DisplaySettings : Type := mkDisplaySettings { overwrite : smap; defaults : smap }.

Section UserDefault.
Context `{F : F64Text} (ds : DisplaySettings).

Definition get_after (options : smap) (k : string) : option string :=
  Config.get_or (overwrite ds) options (defaults ds) k.

Definition get_string (options : smap) (key default : string) (others : list string) : string :=
  match get_after options key with
  | Some option => if existsb (String.eqb option) others then option else default
  | None => default
  end.

(** [get_num_string] at [i32] ... *)
Definition get_num_string_i32 (options : smap) (key : string) (default min max : Z) : string :=
  match get_after options key with
  | Some option =>
    let v := unwrap_or default (parse_i32 option) in
    if (min <=? v) && (v <=? max) then show v else show default
  | None => show default
  end.

(** ... and at [f64], where the arguments are whole numbers. *)
Definition get_num_string_f64 (options : smap) (key : string) (default min max : Z) : string :=
  let default := f64_of_Z default in
  match get_after options key with
  | Some option =>
    let v := unwrap_or default (f64_parse option) in
    if f64_le (f64_of_Z min) v && f64_le v (f64_of_Z max) then f64_show v else f64_show default
  | None => f64_show default
  end.

(** [UserDefaultConfig::get] *)
Definition ud_get (options : smap) (key : string) : string :=
  if String.eqb key "view_style" then get_string options key "original" ["adaptive"]
  else if String.eqb key "scroll_style" then get_string options key "scrollauto" ["scrolledge"; "scrollbar"]
  else if String.eqb key "image_quality" then get_string options key "balanced" ["best"; "low"; "custom"]
  else if String.eqb key "codec-preference"
  then get_string options key "auto" ["vp8"; "vp9"; "av1"; "h264"; "h265"]
  else if String.eqb key "custom_image_quality" then get_num_string_f64 options key 50 10 4095
  else if String.eqb key "custom-fps" then get_num_string_f64 options key 30 5 120
  else if String.eqb key "enable-file-copy-paste" then get_string options key "Y" [""; "N"]
  else if String.eqb key "edge-scroll-edge-thickness" then get_num_string_i32 options key 100 20 150
  else if String.eqb key "trackpad-speed" then get_num_string_i32 options key 100 10 1000
  else unwrap_or "" (get_after options key).

(** [UserDefaultConfig::set]: the new options, which are also what is stored. *)
Definition ud_set (key value : string) (options : smap) : smap :=
  if negb (Config.is_option_can_save (overwrite ds) key (defaults ds) value) then delete key options
  else if String.eqb value "" then delete key options
  else <[ key := value ]> options.

End UserDefault.

(** ** The settings of one peer *)

Abbreviation Size := (Z * Z * Z * Z)%type.

Set Primitive Projections.

Record Resolution : Type := mkResolution { r_w : Z; r_h : Z }.
Record PeerInfoSerde : Type := mkPeerInfoSerde { username : string; hostname : string; platform : string }.
Record TransferSerde : Type := mkTransferSerde { write_jobs : list string; read_jobs : list string }.

Record PeerConfig : Type := mkPeerConfig {
  password : list Z;
  size : Size;
  size_ft : Size;
  size_pf : Size;
  view_style : string;
  scroll_style : string;
  edge_scroll_edge_thickness : Z;
  image_quality : string;
  custom_image_quality : list Z;
  show_remote_cursor : bool;
  lock_after_session_end : bool;
  terminal_persistent : bool;
  privacy_mode : bool;
  allow_swap_key : bool;
  port_forwards : list (Z * string * Z);
  direct_failures : Z;
  disable_audio : bool;
  disable_clipboard : bool;
  enable_file_copy_paste : bool;
  show_quality_monitor : bool;
  follow_remote_cursor : bool;
  follow_remote_window : bool;
  keyboard_mode : string;
  view_only : bool;
  show_my_cursor : bool;
  sync_init_clipboard : bool;
  reverse_mouse_wheel : string;
  displays_as_individual_windows : string;
  use_all_my_displays_for_the_remote_session : string;
  trackpad_speed : Z;
  custom_resolutions : gmap string Resolution;
  options : smap;
  ui_flutter : smap;
  info : PeerInfoSerde;
  transfer : TransferSerde }.

(** ** The TOML table of a peer *)

Inductive Field (A : Type) : Type := Missing | Invalid | Value (v : A).

Record RawInfo : Type := mkRawInfo {
  f_username : Field string; f_hostname : Field string; f_platform : Field string }.
Record RawTransfer : Type := mkRawTransfer {
  f_write_jobs : Field (list string); f_read_jobs : Field (list string) }.

Record Raw : Type := mkRaw {
  f_password : Field (list Z);
  f_size : Field Size;
  f_size_ft : Field Size;
  f_size_pf : Field Size;
  f_view_style : Field string;
  f_scroll_style : Field string;
  f_edge_scroll_edge_thickness : Field Z;
  f_image_quality : Field string;
  f_custom_image_quality : Field (list Z);
  f_show_remote_cursor : Field bool;
  f_lock_after_session_end : Field bool;
  f_terminal_persistent : Field bool;
  f_privacy_mode : Field bool;
  f_allow_swap_key : Field bool;
  f_port_forwards : Field (list (Z * string * Z));
  f_direct_failures : Field Z;
  f_disable_audio : Field bool;
  f_disable_clipboard : Field bool;
  f_enable_file_copy_paste : Field bool;
  f_show_quality_monitor : Field bool;
  f_follow_remote_cursor : Field bool;
  f_follow_remote_window : Field bool;
  f_keyboard_mode : Field string;
  f_view_only : Field bool;
  f_show_my_cursor : Field bool;
  f_sync_init_clipboard : Field bool;
  f_reverse_mouse_wheel : Field string;
  f_displays_as_individual_windows : Field string;
  f_use_all_my_displays_for_the_remote_session : Field string;
  f_trackpad_speed : Field Z;
  f_custom_resolutions : Field (gmap string Resolution);
  f_options : Field smap;
  f_ui_flutter : Field smap;
  f_info : Field RawInfo;
  f_transfer : Field RawTransfer }.

Unset Primitive Projections.

Arguments Missing {A}.
Arguments Invalid {A}.
Arguments Value {A} v.

(** [#[serde(default, deserialize_with = "deserialize_...")]] with the rule of
    [deserialize_default!]: a value of another type is the type's default. *)
Definition de {A} (missing invalid : A) (f : Field A) : A :=
  match f with Missing => missing | Invalid => invalid | Value v => v end.

(** The rule of [serde_field_string!]. *)
Definition de_string (default : string) (f : Field string) : string :=
  match f with
  | Missing | Invalid => default
  | Value s => if String.eqb s "" then default else s
  end.

(** The rule of the three [deserialize_...] functions that check a value; one
    of another type is an error. *)
Definition de_checked {A} (default : A) (ok : A -> bool) (f : Field A) : option A :=
  match f with
  | Missing => Some default
  | Invalid => None
  | Value v => Some (if ok v then v else default)
  end.

Definition skip_if {A} (empty : A -> bool) (v : A) : Field A := if empty v then Missing else Value v.
Definition is_empty_str (s : string) : bool := String.eqb s "".
Definition is_empty_list {A} (l : list A) : bool := match l with [] => true | _ => false end.

Section Serde.
(** What [UserDefaultConfig::read] answers while the table is read. *)
Context `{F : F64Text} (read : string -> string).

Definition default_custom_image_quality : list Z :=
  [f64_as_i32 (unwrap_or (f64_of_Z 50) (f64_parse (read "custom_image_quality")))].
Definition deserialize_custom_image_quality : Field (list Z) -> option (list Z) :=
  de_checked default_custom_image_quality
    (fun v => match v with [q] => (10 <=? q) && (q <=? 4095) | _ => false end).

Definition default_trackpad_speed : Z := unwrap_or 100 (parse_i32 (read "trackpad-speed")).
Definition deserialize_trackpad_speed : Field Z -> option Z :=
  de_checked default_trackpad_speed (fun v => (10 <=? v) && (v <=? 1000)).

Definition default_edge_scroll_edge_thickness : Z :=
  unwrap_or 100 (parse_i32 (read "edge-scroll-edge-thickness")).
Definition deserialize_edge_scroll_edge_thickness : Field Z -> option Z :=
  de_checked default_edge_scroll_edge_thickness (fun v => (20 <=? v) && (v <=? 150)).

Definition default_option_keys : list string :=
  ["codec-preference"; "custom-fps"; "zoom-cursor"; "i444"; "swap-left-right-mouse"; "collapse_toolbar"].
Definition default_options : smap :=
  fold_left (fun mp key => <[ key := read key ]> mp) default_option_keys ∅.

(** [Self::$func()] of [serde_field_bool!] *)
Definition default_bool (field_name : string) : bool := String.eqb (read field_name) "Y".
Definition de_bool (field_name : string) : Field bool -> bool := de (default_bool field_name) false.

(** [impl Default for PeerConfig] *)
Definition PeerConfig_default : PeerConfig :=
  {| password := []; size := (0, 0, 0, 0); size_ft := (0, 0, 0, 0); size_pf := (0, 0, 0, 0);
     view_style := read "view_style"; scroll_style := read "scroll_style";
     edge_scroll_edge_thickness := default_edge_scroll_edge_thickness;
     image_quality := read "image_quality"; custom_image_quality := default_custom_image_quality;
     show_remote_cursor := default_bool "show_remote_cursor";
     lock_after_session_end := default_bool "lock_after_session_end";
     terminal_persistent := default_bool "terminal-persistent";
     privacy_mode := default_bool "privacy_mode"; allow_swap_key := default_bool "allow_swap_key";
     port_forwards := []; direct_failures := 0; disable_audio := default_bool "disable_audio";
     disable_clipboard := default_bool "disable_clipboard";
     enable_file_copy_paste := default_bool "enable-file-copy-paste";
     show_quality_monitor := default_bool "show_quality_monitor";
     follow_remote_cursor := default_bool "follow_remote_cursor";
     follow_remote_window := default_bool "follow_remote_window"; keyboard_mode := "";
     view_only := default_bool "view_only"; show_my_cursor := default_bool "show_my_cursor";
     sync_init_clipboard := default_bool "sync-init-clipboard";
     reverse_mouse_wheel := read "reverse_mouse_wheel";
     displays_as_individual_windows := read "displays_as_individual_windows";
     use_all_my_displays_for_the_remote_session := read "use_all_my_displays_for_the_remote_session";
     trackpad_speed := default_trackpad_speed; custom_resolutions := ∅; options := default_options;
     ui_flutter := ∅; info := mkPeerInfoSerde "" "" ""; transfer := mkTransferSerde [] [] |}.

Definition de_info (f : Field RawInfo) : option PeerInfoSerde :=
  match f with
  | Missing => Some (mkPeerInfoSerde "" "" "")
  | Invalid => None
  | Value r => Some (mkPeerInfoSerde (de "" "" (f_username r)) (de "" "" (f_hostname r)) (de "" "" (f_platform r)))
  end.

Definition de_transfer (f : Field RawTransfer) : option TransferSerde :=
  match f with
  | Missing => Some (mkTransferSerde [] [])
  | Invalid => None
  | Value r => Some (mkTransferSerde (de [] [] (f_write_jobs r)) (de [] [] (f_read_jobs r)))
  end.

(** The derived [Deserialize]. *)
Definition deserialize (r : Raw) : option PeerConfig :=
  edge ← deserialize_edge_scroll_edge_thickness (f_edge_scroll_edge_thickness r);
  quality ← deserialize_custom_image_quality (f_custom_image_quality r);
  speed ← deserialize_trackpad_speed (f_trackpad_speed r);
  info_ ← de_info (f_info r);
  transfer_ ← de_transfer (f_transfer r);
  Some {| password := de [] [] (f_password r); size := de (0, 0, 0, 0) (0, 0, 0, 0) (f_size r);
     size_ft := de (0, 0, 0, 0) (0, 0, 0, 0) (f_size_ft r);
     size_pf := de (0, 0, 0, 0) (0, 0, 0, 0) (f_size_pf r);
     view_style := de_string (read "view_style") (f_view_style r);
     scroll_style := de_string (read "scroll_style") (f_scroll_style r);
     edge_scroll_edge_thickness := edge;
     image_quality := de_string (read "image_quality") (f_image_quality r);
     custom_image_quality := quality;
     show_remote_cursor := de_bool "show_remote_cursor" (f_show_remote_cursor r);
     lock_after_session_end := de_bool "lock_after_session_end" (f_lock_after_session_end r);
     terminal_persistent := de_bool "terminal-persistent" (f_terminal_persistent r);
     privacy_mode := de_bool "privacy_mode" (f_privacy_mode r);
     allow_swap_key := de_bool "allow_swap_key" (f_allow_swap_key r);
     port_forwards := de [] [] (f_port_forwards r); direct_failures := de 0 0 (f_direct_failures r);
     disable_audio := de_bool "disable_audio" (f_disable_audio r);
     disable_clipboard := de_bool "disable_clipboard" (f_disable_clipboard r);
     enable_file_copy_paste := de_bool "enable-file-copy-paste" (f_enable_file_copy_paste r);
     show_quality_monitor := de_bool "show_quality_monitor" (f_show_quality_monitor r);
     follow_remote_cursor := de_bool "follow_remote_cursor" (f_follow_remote_cursor r);
     follow_remote_window := de_bool "follow_remote_window" (f_follow_remote_window r);
     keyboard_mode := de "" "" (f_keyboard_mode r);
     view_only := de_bool "view_only" (f_view_only r);
     show_my_cursor := de_bool "show_my_cursor" (f_show_my_cursor r);
     sync_init_clipboard := de_bool "sync-init-clipboard" (f_sync_init_clipboard r);
     reverse_mouse_wheel := de_string (read "reverse_mouse_wheel") (f_reverse_mouse_wheel r);
     displays_as_individual_windows :=
       de_string (read "displays_as_individual_windows") (f_displays_as_individual_windows r);
     use_all_my_displays_for_the_remote_session :=
       de_string (read "use_all_my_displays_for_the_remote_session")
         (f_use_all_my_displays_for_the_remote_session r);
     trackpad_speed := speed; custom_resolutions := de ∅ ∅ (f_custom_resolutions r);
     options := de ∅ ∅ (f_options r); ui_flutter := de ∅ ∅ (f_ui_flutter r);
     info := info_; transfer := transfer_ |}.

End Serde.

(** The derived [Serialize] with its [skip_serializing_if]s. *)
Definition serialize (c : PeerConfig) : Raw :=
  {| f_password := Value (password c); f_size := Value (size c); f_size_ft := Value (size_ft c);
     f_size_pf := Value (size_pf c); f_view_style := skip_if is_empty_str (view_style c);
     f_scroll_style := skip_if is_empty_str (scroll_style c);
     f_edge_scroll_edge_thickness := Value (edge_scroll_edge_thickness c);
     f_image_quality := skip_if is_empty_str (image_quality c);
     f_custom_image_quality := skip_if is_empty_list (custom_image_quality c);
     f_show_remote_cursor := Value (show_remote_cursor c);
     f_lock_after_session_end := Value (lock_after_session_end c);
     f_terminal_persistent := Value (terminal_persistent c); f_privacy_mode := Value (privacy_mode c);
     f_allow_swap_key := Value (allow_swap_key c); f_port_forwards := Value (port_forwards c);
     f_direct_failures := Value (direct_failures c); f_disable_audio := Value (disable_audio c);
     f_disable_clipboard := Value (disable_clipboard c);
     f_enable_file_copy_paste := Value (enable_file_copy_paste c);
     f_show_quality_monitor := Value (show_quality_monitor c);
     f_follow_remote_cursor := Value (follow_remote_cursor c);
     f_follow_remote_window := Value (follow_remote_window c);
     f_keyboard_mode := skip_if is_empty_str (keyboard_mode c); f_view_only := Value (view_only c);
     f_show_my_cursor := Value (show_my_cursor c); f_sync_init_clipboard := Value (sync_init_clipboard c);
     f_reverse_mouse_wheel := skip_if is_empty_str (reverse_mouse_wheel c);
     f_displays_as_individual_windows := skip_if is_empty_str (displays_as_individual_windows c);
     f_use_all_my_displays_for_the_remote_session :=
       skip_if is_empty_str (use_all_my_displays_for_the_remote_session c);
     f_trackpad_speed := Value (trackpad_speed c);
     f_custom_resolutions := skip_if (fun m => bool_decide (m = ∅)) (custom_resolutions c);
     f_options := skip_if (fun m => bool_decide (m = ∅)) (options c);
     f_ui_flutter := Value (ui_flutter c);
     f_info := Value (mkRawInfo (Value (username (info c))) (Value (hostname (info c)))
                        (Value (platform (info c))));
     f_transfer := Value (mkRawTransfer (Value (write_jobs (transfer c))) (Value (read_jobs (transfer c)))) |}.

(** ** File names *)

(** A path below the configuration directory. *)
Abbreviation Path := (list string).

Definition forbidden (c : ascii) : bool :=
  existsb (Ascii.eqb c) ["<"; ">"; ":"; "/"; "\"; "|"; "?"; "*"]%char.

Fixpoint has_forbidden (s : string) : bool :=
  match s with EmptyString => false | String c s => forbidden c || has_forbidden s end.

(** A file name at its last dot; a leading dot does not count
    ([rsplit_file_at_dot]).  [seen] says that a character precedes. *)
Fixpoint split_at_dot (seen : bool) (s : string) : option (string * string) :=
  match s with
  | EmptyString => None
  | String c r =>
    match split_at_dot true r with
    | Some (stem, ext) => Some (String c stem, ext)
    | None => if seen && Ascii.eqb c "." then Some ("", r) else None
    end
  end.

Definition extension (name : string) : option string :=
  if String.eqb name ".." then None else snd <$> split_at_dot false name.

Definition file_stem (name : string) : string :=
  if String.eqb name ".." then name
  else match split_at_dot false name with Some (stem, _) => stem | None => name end.

(** [Config::with_extension] on the last component; [".."] is no file name. *)
Definition with_extension_name (name : string) : string :=
  if String.eqb name ".." then name
  else match extension name with
       | Some ext => file_stem name +:+ "." +:+ (ext +:+ ".toml")
       | None => file_stem name +:+ "." +:+ "toml"
       end.

Definition with_extension (p : Path) : Path :=
  match last p with
  | Some name => removelast p ++ [with_extension_name name]
  | None => p
  end.

(** The components a relative path of the file system stands for. *)
Definition components (s : string) : Path :=
  filter (fun c => c <> "" /\ c <> ".") (split_char "/" s).

Definition PEERS : string := "peers".

Section Files.
Context `{SB : SecretBox} `{B64 : Base64} `{F : F64Text}.
Context (get_uuid : list Z) (ds : DisplaySettings).

Definition base64_str (s : string) : string := bytes_string (b64_encode (Config.str_bytes s)).

Definition encoded_id (id : string) : string :=
  if has_forbidden id then "base64_" +:+ base64_str id else id.

(** [PeerConfig::path] *)
Definition path (id : string) : Path := with_extension (PEERS :: components (encoded_id id)).

(** What the name of a file says of the peer ([get_vec_id_modified_time_path]). *)
Definition decoded_id (name : string) : string :=
  let id := file_stem name in
  if starts_with "base64_" id && negb (str_len id =? 7)
  then bytes_string (from_utf8_lossy (unwrap_or []
         (b64_decode (Config.str_bytes (String.substring 7 (String.length id - 7) id)))))
  else id.

(** ** The files of the peers *)

(** Time of last modification, and the table when the file is TOML. *)
Record File : Type := mkFile { mtime : Z; toml : option Raw }.

Set Primitive Projections.
Record Store : Type := mkStore {
  files : gmap Path File;
  default_file : smap;  (* the file of [UserDefaultConfig] *)
  USER_DEFAULT_CONFIG : smap * Z;  (* what was read of it, and when *)
  NEW_STORED_PEER_CONFIG : gset string }.
Unset Primitive Projections.

(** [now] is the clock of [Instant], [time] that of the file system, and
    [writable] says where files can be written. *)
Record FsEnv : Type := mkFsEnv { now : Z; time : Z; writable : Path -> bool }.

(** The re-reading in [UserDefaultConfig::read]. *)
Definition refresh (e : FsEnv) (st : Store) : Store :=
  if 1000 <? now e - snd (USER_DEFAULT_CONFIG st)
  then st <| USER_DEFAULT_CONFIG := (default_file st, now e) |> else st.

Definition read (st : Store) (key : string) : string := ud_get ds (fst (USER_DEFAULT_CONFIG st)) key.

(** [set_user_default_option] of [src/ui_interface.rs] *)
Definition set_user_default_option (key value : string) (st : Store) : Store :=
  st <| default_file := ud_set ds key value (default_file st) |>.

Definition secret_options : list string := ["rdp_password"; "os-username"; "os-password"].

(** [options.get_mut(opt)] and an assignment, for the three secrets. *)
Definition map_secrets (f : string -> string) (m : smap) : smap :=
  fold_left (fun m opt => alter f opt m) secret_options m.

Definition enc_text (s : string) : string :=
  bytes_string (encrypt_str_or_original get_uuid (Config.str_bytes s)
                  Config.PASSWORD_ENC_VERSION Config.ENCRYPT_MAX_LEN).
Definition dec_text (s : string) : string :=
  bytes_string (fst (fst (decrypt_str_or_original get_uuid (Config.str_bytes s) Config.PASSWORD_ENC_VERSION))).
Definition dec_stores (s : string) : bool :=
  snd (decrypt_str_or_original get_uuid (Config.str_bytes s) Config.PASSWORD_ENC_VERSION).

(** The settings as they are written. *)
Definition encrypted (c : PeerConfig) : PeerConfig :=
  c <| password := encrypt_vec_or_original get_uuid (password c) Config.PASSWORD_ENC_VERSION Config.ENCRYPT_MAX_LEN |>
    <| options := map_secrets enc_text (options c) |>.

(** [PeerConfig::store_] and [store] *)
Definition store (e : FsEnv) (id : string) (c : PeerConfig) (st : Store) : Store :=
  let st := if writable e (path id)
            then st <| files := <[ path id := mkFile (time e) (Some (serialize (encrypted c))) ]> (files st) |>
            else st in
  st <| NEW_STORED_PEER_CONFIG := {[ id ]} ∪ NEW_STORED_PEER_CONFIG st |>.

(** Decrypting what was read, and whether it is to be stored again. *)
Definition decrypted (c : PeerConfig) : PeerConfig * bool :=
  let '(pw, _, store1) := decrypt_vec_or_original get_uuid (password c) Config.PASSWORD_ENC_VERSION in
  (c <| password := pw |> <| options := map_secrets dec_text (options c) |>,
   store1 || existsb (fun opt => match options c !! opt with Some v => dec_stores v | None => false end)
               secret_options).

(** [confy::load_path]: [None] when there is no file, it is not TOML or the
    table is refused. *)
Definition load_path (st : Store) (p : Path) : option PeerConfig :=
  f ← files st !! p; r ← toml f; deserialize (read st) r.

(** [PeerConfig::load] *)
Definition load (e : FsEnv) (id : string) (st : Store) : PeerConfig * Store :=
  let st := refresh e st in
  match load_path st (path id) with
  | Some c =>
    let '(c, again) := decrypted c in
    (c, if again then store e id c st else st)
  | None => (PeerConfig_default (read st), st)
  end.

(** [PeerConfig::remove] and [exists] *)
Definition remove (id : string) (st : Store) : Store := st <| files := delete (path id) (files st) |>.
Definition exists_ (id : string) (st : Store) : bool := bool_decide (is_Some (files st !! path id)).

(** ** The list of known peers *)

Abbreviation Entry := (string * Z * Path)%type.

(** A file of the directory of the peers: its id, time and path. *)
Definition peer_entry (pf : Path * File) : option Entry :=
  match pf with
  | ([dir; name], f) =>
    if String.eqb dir PEERS && bool_decide (extension name = Some "toml")
    then Some (decoded_id name, mtime f, [dir; name]) else None
  | _ => None
  end.

(** [sort_unstable_by] on the time, latest first. *)
Fixpoint insert_entry (x : Entry) (l : list Entry) : list Entry :=
  match l with
  | [] => [x]
  | y :: r => if y.1.2 <=? x.1.2 then x :: l else y :: insert_entry x r
  end.
Definition sort_entries (l : list Entry) : list Entry := fold_right insert_entry [] l.

Definition passes (id_filters : option (list string)) (x : Entry) : bool :=
  match id_filters with None => true | Some l => existsb (String.eqb x.1.1) l end.

Definition get_vec_id_modified_time_path (id_filters : option (list string)) (st : Store) : list Entry :=
  sort_entries
    (filter (fun x => passes id_filters x) (omap peer_entry (map_to_list (files st)))).

Definition BATCH_LOADING_COUNT : Z := 100.

(** Loading one listed peer; one without a platform is forgotten. *)
Definition load_entry (e : FsEnv) (x : Entry) (st : Store) : option (string * Z * PeerConfig) * Store :=
  let '(id, t, p) := x in
  let '(c, st) := load e id st in
  if String.eqb (platform (info c)) ""
  then (None, st <| files := delete p (files st) |>)
  else (Some (id, t, c), st).

Fixpoint load_entries (e : FsEnv) (l : list Entry) (st : Store) : list (string * Z * PeerConfig) * Store :=
  match l with
  | [] => ([], st)
  | x :: l =>
    let '(r, st) := load_entry e x st in
    let '(rs, st) := load_entries e l st in
    (match r with Some p => p :: rs | None => rs end, st)
  end.

Definition batch_peers (e : FsEnv) (all : list Entry) (from : Z) (to : option Z) (st : Store)
  : list (string * Z * PeerConfig) * Z * Store :=
  if len all <=? from then ([], 0, st)
  else
    let to := match to with
              | Some to => Z.min to (len all)
              | None => Z.min (from + BATCH_LOADING_COUNT) (len all)
              end in
    if to <=? from then ([], from, st)
    else
      let '(ps, st) := load_entries e (take (Z.to_nat (to - from)) (drop (Z.to_nat from) all)) st in
      (ps, to, st).

Definition peers (e : FsEnv) (id_filters : option (list string)) (st : Store)
  : list (string * Z * PeerConfig) * Store :=
  let all := get_vec_id_modified_time_path id_filters st in
  let '(ps, _, st) := batch_peers e all 0 (Some (len all)) st in
  (ps, st).

End Files.
End PeerCfg.
