(* ===== verification/PeerConfigProofs.v ===== *)
(** * Facts about the settings of the peers

    - file names: a peer's file is found under its id again, and where not;
    - whatever a file holds, the settings that are loaded are in range;
    - settings that are stored load back unchanged, secrets included;
    - a peer that was stored is in the list of peers, and the two ways in
      which one is not. *)

From S2P Require Import Prelude RustStr SecureStream Password Config PeerConfig.

Module PeerCfgFacts.

Import Utf8 Vault PeerCfg.

(** ** Text and bytes *)

Lemma bytes_string_str_bytes s : bytes_string (Config.str_bytes s) = s.
Proof.
  unfold Config.str_bytes, bytes_string.
  induction s as [|c s IH]; [done|]. cbn [String.list_ascii_of_string map fold_right].
  unfold ascii_code at 1. by rewrite Nat2Z.id, ascii_nat_embedding, IH.
Qed.

Lemma str_bytes_bytes_string l : bytes l -> Config.str_bytes (bytes_string l) = l.
Proof.
  unfold Config.str_bytes, bytes_string.
  induction 1 as [|b l Hb _ IH]; [done|]. cbn [String.list_ascii_of_string map fold_right].
  unfold is_byte in Hb. unfold ascii_code at 1. rewrite nat_ascii_embedding by lia. f_equal; [lia|done].
Qed.

Lemma str_bytes_bytes s : bytes (Config.str_bytes s).
Proof.
  unfold Config.str_bytes. apply Forall_map, Forall_forall. intros c _. cbn.
  unfold is_byte, ascii_code. pose proof (nat_ascii_bounded c). lia.
Qed.

(** ** File names *)

Lemma split_at_dot_app seen s t :
  (seen = true \/ s <> "") -> contains_char "." t = false ->
  split_at_dot seen (s +:+ String "." t) = Some (s, t).
Proof.
  intros Hs Ht.
  assert (forall b, split_at_dot b t = None) as Hnone.
  { revert Ht. clear. induction t as [|c t IH]; [done|]. cbn [contains_char split_at_dot].
    intros [Hc Ht]%orb_false_elim b. rewrite IH by done. by rewrite Hc, andb_false_r. }
  revert seen Hs. induction s as [|c s IH]; intros seen Hs.
  - destruct Hs as [->|Hs]; [|done]. change ("" +:+ String "." t) with (String "." t). cbn [split_at_dot]. by rewrite Hnone.
  - change (String c s +:+ String "." t) with (String c (s +:+ String "." t)).
    cbn [split_at_dot]. by rewrite IH by auto.
Qed.

Lemma split_at_dot_Some seen s stem ext :
  split_at_dot seen s = Some (stem, ext) -> s = stem +:+ String "." ext.
Proof.
  revert seen stem. induction s as [|c s IH]; intros seen stem; [done|]. cbn [split_at_dot].
  destruct (split_at_dot true s) as [[st ex]|] eqn:E.
  - intros [= <- <-]. by rewrite (IH _ _ E) at 1.
  - destruct (seen && Ascii.eqb c ".") eqn:Ec; [|done]. intros [= <- <-].
    apply andb_true_iff in Ec as [_ ->%Ascii.eqb_eq]. done.
Qed.

(** The name of a settings file ends in [.toml] and nothing of the id is
    lost. *)
Lemma with_extension_name_toml n : n <> ".." -> with_extension_name n = n +:+ ".toml".
Proof.
  intros Hn. unfold with_extension_name, extension, file_stem.
  rewrite (proj2 (String.eqb_neq n "..") Hn).
  destruct (split_at_dot false n) as [[stem ext]|] eqn:E; cbn [fmap option_fmap option_map snd]; [|done].
  rewrite (split_at_dot_Some _ _ _ _ E). by rewrite <-append_assoc.
Qed.

Lemma toml_name n : n <> "" ->
  extension (n +:+ ".toml") = Some "toml" /\ file_stem (n +:+ ".toml") = n.
Proof.
  intros Hn. unfold extension, file_stem.
  assert (String.eqb (n +:+ ".toml") ".." = false) as ->.
  { apply String.eqb_neq. intros H. apply (f_equal String.length) in H.
    rewrite length_append in H. cbn in H. lia. }
  by rewrite (split_at_dot_app false n "toml") by auto.
Qed.

Lemma components_plain s : s <> "" -> s <> "." -> contains_char "/" s = false -> components s = [s].
Proof.
  intros H1 H2 H3. unfold components. rewrite split_char_none by done.
  rewrite filter_cons_True by done. done.
Qed.

Lemma has_forbidden_slash s : has_forbidden s = false -> contains_char "/" s = false.
Proof.
  induction s as [|c s IH]; [done|]. cbn [has_forbidden contains_char].
  intros [Hc Hs]%orb_false_elim. rewrite IH by done.
  unfold forbidden in Hc. cbn [existsb] in Hc.
  repeat (apply orb_false_elim in Hc as [? Hc]). by rewrite orb_false_r.
Qed.

Section Paths.
Context `{B64 : Base64} {B64L : Base64Laws B64}.

(** The id can be read off the file name again. *)
Definition plain_id (id : string) : Prop :=
  id <> "" /\ id <> "." /\ id <> ".." /\ starts_with "base64_" id = false.

Lemma encoded_id_plain id : plain_id id ->
  encoded_id id <> "" /\ encoded_id id <> "." /\ encoded_id id <> "..".
Proof.
  intros (H1 & H2 & H3 & _). unfold encoded_id. by destruct (has_forbidden id).
Qed.

Lemma path_plain id : plain_id id -> contains_char "/" (encoded_id id) = false ->
  path id = [PEERS; encoded_id id +:+ ".toml"].
Proof.
  intros (H1 & H2 & H3)%encoded_id_plain Hs. unfold path.
  rewrite components_plain by done. unfold with_extension. cbn [last removelast app].
  by rewrite with_extension_name_toml.
Qed.

Lemma decoded_encoded id : plain_id id -> is_utf8 (Config.str_bytes id) = true ->
  decoded_id (encoded_id id +:+ ".toml") = id.
Proof using B64L.
  intros Hid Hu. pose proof (encoded_id_plain id Hid) as (He & _).
  unfold decoded_id. destruct (toml_name _ He) as [_ ->].
  unfold encoded_id. destruct (has_forbidden id) eqn:Ef.
  - set (t := base64_str id).
    assert (starts_with "base64_" ("base64_" +:+ t) = true) as -> by (by destruct t).
    assert (t <> "") as Ht.
    { unfold t, base64_str. intros H. apply (f_equal Config.str_bytes) in H.
      rewrite str_bytes_bytes_string in H by apply b64_encode_bytes, str_bytes_bytes.
      apply (b64_encode_nonempty (Config.str_bytes id)); [|done].
      destruct id; [by destruct Hid|done]. }
    assert ((str_len ("base64_" +:+ t) =? 7) = false) as ->.
    { apply Z.eqb_neq. unfold str_len. rewrite length_append. cbn [String.length].
      destruct t; [done|]. cbn [String.length]. lia. }
    cbn [negb andb].
    assert (String.substring 7 (String.length ("base64_" +:+ t) - 7) ("base64_" +:+ t) = t) as ->.
    { cbn [String.append String.substring]. apply substring_all. rewrite length_append. cbn. lia. }
    unfold t, base64_str. rewrite str_bytes_bytes_string by apply b64_encode_bytes, str_bytes_bytes.
    rewrite b64_decode_encode. cbn [unwrap_or]. rewrite from_utf8_lossy_valid by done.
    apply bytes_string_str_bytes.
  - destruct Hid as (_ & _ & _ & ->). done.
Qed.

End Paths.

(** ** Secrets *)

Lemma lookup_map_secrets f m k :
  map_secrets f m !! k = if decide (k ∈ secret_options) then f <$> m !! k else m !! k.
Proof.
  unfold map_secrets, secret_options. cbn [fold_left].
  destruct (decide (k ∈ _)) as [Hk|Hk].
  - set_unfold in Hk. destruct Hk as [->|[->|[->|[]]]];
      repeat first [rewrite lookup_alter_ne by done | rewrite lookup_alter_eq]; done.
  - rewrite !lookup_alter_ne; set_solver.
Qed.

(** ** The list of peers *)

Lemma elem_of_insert_entry x y l : x ∈ insert_entry y l <-> x = y \/ x ∈ l.
Proof.
  induction l as [|z l IH]; cbn; [set_solver|].
  destruct (z.1.2 <=? y.1.2); [set_solver|]. rewrite !elem_of_cons, IH. naive_solver.
Qed.

Lemma elem_of_sort_entries x l : x ∈ sort_entries l <-> x ∈ l.
Proof.
  induction l as [|y l IH]; [done|]. cbn [sort_entries fold_right]. fold (sort_entries l).
  rewrite elem_of_insert_entry, IH. by rewrite elem_of_cons.
Qed.

Section Listing.
Context `{B64 : Base64}.

Lemma elem_of_peer_list filters st x :
  x ∈ get_vec_id_modified_time_path filters st <->
  passes filters x = true /\ exists p f, files st !! p = Some f /\ peer_entry (p, f) = Some x.
Proof.
  unfold get_vec_id_modified_time_path. rewrite elem_of_sort_entries, list_elem_of_filter.
  rewrite list_elem_of_omap. split.
  - intros (Hp & [p f] & Hin%elem_of_map_to_list & He). split; [by apply Is_true_true|]. eauto.
  - intros (Hp & p & f & Hf & He). split; [by apply Is_true_true|].
    exists (p, f). split; [by apply elem_of_map_to_list|done].
Qed.

Lemma peer_entry_path p f x : peer_entry (p, f) = Some x -> x.2 = p.
Proof.
  unfold peer_entry. destruct p as [|d [|n [|]]]; try done.
  destruct (String.eqb d PEERS && _); [|done]. by intros [= <-].
Qed.

End Listing.

Section Load.
Context `{SB : SecretBox} `{B64 : Base64} `{F : F64Text}.
Context {SBL : SecretBoxLaws SB} {B64L : Base64Laws B64} {FL : F64TextLaws F}.
Context (get_uuid : list Z) (ds : DisplaySettings).

(** The uuid of the machine is a byte string. *)
Hypothesis uuid_bytes : bytes get_uuid.

Abbreviation enc_text := (enc_text get_uuid).
Abbreviation dec_text := (dec_text get_uuid).

(** A secret the file can hold: text of at most 128 characters that is not
    itself a ciphertext of this machine. *)
Definition storable_text (s : string) : Prop :=
  is_utf8 (Config.str_bytes s) = true /\ chars_count (Config.str_bytes s) <= Config.ENCRYPT_MAX_LEN
  /\ snd (fst (decrypt_str_or_original get_uuid (Config.str_bytes s) V00)) = false.

Definition storable_vec (v : list Z) : Prop :=
  len v <= Config.ENCRYPT_MAX_LEN /\ snd (fst (decrypt_vec_or_original get_uuid v V00)) = false.

Definition storable (c : PeerConfig) : Prop :=
  storable_vec (password c)
  /\ Forall (fun opt => forall v, options c !! opt = Some v -> storable_text v) secret_options.

Lemma str_secret s : is_utf8 s = true -> chars_count s <= Config.ENCRYPT_MAX_LEN -> bytes s ->
  snd (fst (decrypt_str_or_original get_uuid s V00)) = false ->
  exists flag, decrypt_str_or_original get_uuid
    (encrypt_str_or_original get_uuid s V00 Config.ENCRYPT_MAX_LEN) V00 = (s, flag, false).
Proof using SBL B64L.
  intros Hu Hl Hb Hp. destruct (decide (s = [])) as [->|Hne]; [by exists false|]. exists true.
  destruct (encrypt_total get_uuid s Hne) as [e He].
  destruct (encrypt_some get_uuid s e He) as (_ & Hee & Hd).
  unfold encrypt_str_or_original. rewrite Hp, (proj2 (Z.ltb_ge _ _) Hl).
  change (is_v00 V00) with true. cbn match. rewrite He.
  rewrite (decrypt_str_versioned get_uuid e s V00 Hee Hd).
  by rewrite from_utf8_lossy_valid.
Qed.

Lemma vec_secret v : storable_vec v ->
  exists flag, decrypt_vec_or_original get_uuid
    (encrypt_vec_or_original get_uuid v V00 Config.ENCRYPT_MAX_LEN) V00 = (v, flag, false).
Proof using SBL B64L.
  intros [Hl Hp]. destruct (decide (v = [])) as [->|Hne]; [by exists false|]. exists true.
  destruct (encrypt_total get_uuid v Hne) as [e He].
  destruct (encrypt_some get_uuid v e He) as (_ & Hee & Hd).
  unfold encrypt_vec_or_original. rewrite Hp, (proj2 (Z.ltb_ge _ _) Hl).
  change (is_v00 V00) with true. cbn match. rewrite He.
  by rewrite (decrypt_vec_versioned get_uuid e v V00 Hee Hd).
Qed.

Lemma zero_bytes n : bytes (replicate n 0).
Proof. apply Forall_replicate. unfold is_byte. lia. Qed.

Lemma encrypt_bytes v e : bytes v -> encrypt get_uuid v = Some e -> bytes e.
Proof using SBL B64L uuid_bytes.
  intros Hv. unfold encrypt. destruct v as [|b v]; [done|]. cbn [symmetric_crypt fmap option_fmap option_map].
  intros H. apply (inj Some) in H as <-. apply b64_encode_bytes, seal_bytes; [done|apply zero_bytes|].
  unfold resize. apply Forall_app_2; [by apply Forall_take|apply zero_bytes].
Qed.

Lemma encrypt_str_bytes s v n : bytes s -> bytes v -> bytes (encrypt_str_or_original get_uuid s v n).
Proof using SBL B64L uuid_bytes.
  intros Hs Hv. unfold encrypt_str_or_original. destruct (snd (fst _)); [done|]. destruct (n <? _); [done|].
  destruct (is_v00 v); [|done]. destruct (encrypt get_uuid s) eqn:E; [|done].
  apply Forall_app_2; [done|]. eapply encrypt_bytes; [|done]. done.
Qed.

Lemma dec_enc_text s : storable_text s -> dec_text (enc_text s) = s /\ dec_stores get_uuid (enc_text s) = false.
Proof using SBL B64L uuid_bytes.
  intros (Hu & Hl & Hp). unfold PeerCfg.dec_text, PeerCfg.enc_text, dec_stores.
  rewrite str_bytes_bytes_string.
  - destruct (str_secret _ Hu Hl (str_bytes_bytes s) Hp) as [flag Hf].
    change Config.PASSWORD_ENC_VERSION with V00. rewrite Hf. split; [|done]. apply bytes_string_str_bytes.
  - apply encrypt_str_bytes; [apply str_bytes_bytes|]. repeat constructor; unfold is_byte; lia.
Qed.

(** Reading back what [store_] wrote gives the settings, with no reason to
    write them again. *)
Lemma decrypted_encrypted c : storable c -> decrypted get_uuid (encrypted get_uuid c) = (c, false).
Proof using SBL B64L uuid_bytes.
  intros [Hv Ho]. destruct (vec_secret _ Hv) as [flag Hf].
  unfold decrypted, encrypted, set_field. cbn [password options].
  change Config.PASSWORD_ENC_VERSION with V00. rewrite Hf. f_equal.
  - assert (map_secrets dec_text (map_secrets enc_text (options c)) = options c) as Hm.
    { apply map_eq. intros k. rewrite !lookup_map_secrets. destruct (decide (k ∈ _)) as [Hk|]; [|done].
      destruct (options c !! k) as [v|] eqn:Ek; [|done]. cbn [fmap option_fmap option_map]. f_equal.
      rewrite Forall_forall in Ho. by apply dec_enc_text, (Ho k Hk). }
    by rewrite Hm.
  - cbn [orb]. apply not_true_is_false. intros (k & Hk & Hs)%existsb_exists.
    apply list_elem_of_In in Hk. rewrite lookup_map_secrets, decide_True in Hs by done.
    destruct (options c !! k) as [v|] eqn:Ek; cbn [fmap option_fmap option_map] in Hs; [|done].
    rewrite Forall_forall in Ho. destruct (dec_enc_text v (Ho k Hk v Ek)) as [_ Hd]. congruence.
Qed.

(** ** Settings in range *)

(** An empty text of a field with a user default stands for that default. *)
Definition text_ok (default s : string) : Prop := s = "" -> default = "".

Record normal (rd : string -> string) (c : PeerConfig) : Prop := mkNormal {
  normal_view : view_style c <> "";
  normal_scroll : scroll_style c <> "";
  normal_image : image_quality c <> "";
  normal_wheel : text_ok (rd "reverse_mouse_wheel") (reverse_mouse_wheel c);
  normal_windows : text_ok (rd "displays_as_individual_windows") (displays_as_individual_windows c);
  normal_displays : text_ok (rd "use_all_my_displays_for_the_remote_session")
                      (use_all_my_displays_for_the_remote_session c);
  normal_quality : exists q, custom_image_quality c = [q] /\ 10 <= q <= 4095;
  normal_speed : 10 <= trackpad_speed c <= 1000;
  normal_edge : 20 <= edge_scroll_edge_thickness c <= 150 }.

Lemma get_string_nonempty opts key default others :
  default <> "" -> Forall (fun s => s <> "") others -> get_string ds opts key default others <> "".
Proof.
  intros Hd Ho. unfold get_string. destruct (get_after ds opts key) as [s|]; [|done].
  destruct (existsb _ others) eqn:E; [|done].
  apply existsb_exists in E as (x & Hx & ->%String.eqb_eq).
  rewrite Forall_forall in Ho. by apply Ho, list_elem_of_In.
Qed.

Lemma num_string_i32 opts key d lo hi : 0 <= lo <= d -> d <= hi -> hi < 2 ^ 31 ->
  exists v, parse_i32 (get_num_string_i32 ds opts key d lo hi) = Some v /\ lo <= v <= hi.
Proof.
  intros H1 H2 H3. unfold get_num_string_i32.
  assert (forall v, lo <= v <= hi -> parse_i32 (show v) = Some v) as Hp.
  { intros v Hv. unfold parse_i32. apply parse_show_nonneg; lia. }
  destruct (get_after ds opts key) as [s|]; [|exists d; split; [apply Hp|]; lia].
  set (v := unwrap_or d _). destruct ((lo <=? v) && (v <=? hi)) eqn:E.
  - apply andb_true_iff in E as [E1%Z.leb_le E2%Z.leb_le]. exists v. split; [apply Hp|]; lia.
  - exists d. split; [apply Hp|]; lia.
Qed.

Lemma num_string_f64 opts key d lo hi : 0 <= lo <= d -> d <= hi -> hi <= 65535 ->
  exists v, f64_parse (get_num_string_f64 ds opts key d lo hi) = Some v /\ lo <= f64_as_i32 v <= hi.
Proof using FL.
  intros H1 H2 H3. unfold get_num_string_f64.
  assert (lo <= f64_as_i32 (f64_of_Z d) <= hi) as Hd.
  { apply f64_as_i32_between; [lia|lia| |]; rewrite f64_le_of_Z by lia; apply Z.leb_le; lia. }
  destruct (get_after ds opts key) as [s|]; [|by exists (f64_of_Z d); rewrite f64_parse_show].
  set (v := unwrap_or _ _). destruct (f64_le _ v && _) eqn:E.
  - apply andb_true_iff in E as [E1 E2]. exists v. rewrite f64_parse_show.
    split; [done|]. by apply f64_as_i32_between; [lia|lia|..].
  - by exists (f64_of_Z d); rewrite f64_parse_show.
Qed.

Abbreviation rd st := (read ds st).

Lemma read_texts st : rd st "view_style" <> "" /\ rd st "scroll_style" <> "" /\ rd st "image_quality" <> "".
Proof.
  unfold read, ud_get. cbn [String.eqb Ascii.eqb Bool.eqb].
  split; [|split]; apply get_string_nonempty; try done; repeat constructor; done.
Qed.

Lemma default_quality_ok st : exists q, default_custom_image_quality (rd st) = [q] /\ 10 <= q <= 4095.
Proof using FL.
  unfold default_custom_image_quality.
  change (rd st "custom_image_quality")
    with (get_num_string_f64 ds (fst (USER_DEFAULT_CONFIG st)) "custom_image_quality" 50 10 4095).
  destruct (num_string_f64 (fst (USER_DEFAULT_CONFIG st)) "custom_image_quality" 50 10 4095) as (v & -> & Hv);
    [lia|lia|lia|]. cbn [unwrap_or]. eauto.
Qed.

Lemma default_speed_ok st : 10 <= default_trackpad_speed (rd st) <= 1000.
Proof.
  unfold default_trackpad_speed.
  change (rd st "trackpad-speed")
    with (get_num_string_i32 ds (fst (USER_DEFAULT_CONFIG st)) "trackpad-speed" 100 10 1000).
  destruct (num_string_i32 (fst (USER_DEFAULT_CONFIG st)) "trackpad-speed" 100 10 1000) as (v & -> & Hv);
    [lia|lia|lia|]. done.
Qed.

Lemma default_edge_ok st : 20 <= default_edge_scroll_edge_thickness (rd st) <= 150.
Proof.
  unfold default_edge_scroll_edge_thickness.
  change (rd st "edge-scroll-edge-thickness")
    with (get_num_string_i32 ds (fst (USER_DEFAULT_CONFIG st)) "edge-scroll-edge-thickness" 100 20 150).
  destruct (num_string_i32 (fst (USER_DEFAULT_CONFIG st)) "edge-scroll-edge-thickness" 100 20 150)
    as (v & -> & Hv); [lia|lia|lia|]. done.
Qed.

Lemma de_string_ok d f : (d <> "" -> de_string d f <> "") /\ text_ok d (de_string d f).
Proof.
  unfold text_ok, de_string. destruct f as [| |s]; [done|done|].
  destruct (String.eqb_spec s ""); done.
Qed.

Lemma default_normal st : normal (rd st) (PeerConfig_default (rd st)).
Proof using FL.
  destruct (read_texts st) as (H1 & H2 & H3).
  split; try done; try (by intros ?);
    [apply default_quality_ok|apply default_speed_ok|apply default_edge_ok].
Qed.

Lemma deserialize_normal st r c : deserialize (rd st) r = Some c -> normal (rd st) c.
Proof using FL.
  destruct (read_texts st) as (H1 & H2 & H3). unfold deserialize.
  destruct (deserialize_edge_scroll_edge_thickness _ _) as [edge|] eqn:Ee; [|done]. cbn [mbind option_bind].
  destruct (deserialize_custom_image_quality _ _) as [q|] eqn:Eq; [|done]. cbn [mbind option_bind].
  destruct (deserialize_trackpad_speed _ _) as [speed|] eqn:Es; [|done]. cbn [mbind option_bind].
  destruct (de_info _) as [i|]; [|done]. destruct (de_transfer _) as [t|]; [|done]. cbn [mbind option_bind].
  intros [= <-]. split; cbn; try (by apply de_string_ok).
  - pose proof (default_quality_ok st) as Hq. revert Eq.
    unfold deserialize_custom_image_quality, de_checked. destruct (f_custom_image_quality r) as [| |v].
    + by intros [= <-].
    + done.
    + destruct v as [|x [|y v]]; try (by intros [= <-]).
      destruct ((10 <=? x) && (x <=? 4095)) eqn:E; intros [= <-]; [|done].
      apply andb_true_iff in E as [E1%Z.leb_le E2%Z.leb_le]. by exists x.
  - pose proof (default_speed_ok st) as Hs. revert Es. unfold deserialize_trackpad_speed, de_checked.
    destruct (f_trackpad_speed r) as [| |v]; [by intros [= <-]|done|].
    destruct ((10 <=? v) && _) eqn:E; intros [= <-]; [|done]. zbool. lia.
  - pose proof (default_edge_ok st) as He. revert Ee. unfold deserialize_edge_scroll_edge_thickness, de_checked.
    destruct (f_edge_scroll_edge_thickness r) as [| |v]; [by intros [= <-]|done|].
    destruct ((20 <=? v) && _) eqn:E; intros [= <-]; [|done]. zbool. lia.
Qed.

Lemma decrypted_normal r c : normal r c -> normal r (fst (decrypted get_uuid c)).
Proof.
  intros H. unfold decrypted. destruct (decrypt_vec_or_original _ _ _) as [[pw flag] again].
  by destruct H.
Qed.

Lemma load_is_normal e id st : normal (rd (refresh e st)) (fst (load get_uuid ds e id st)).
Proof using FL.
  unfold load. destruct (load_path ds (refresh e st) (path id)) as [c|] eqn:E.
  - pose proof (decrypted_normal (rd (refresh e st)) c) as Hd.
    destruct (decrypted get_uuid c) as [c' again]. apply Hd. clear Hd.
    unfold load_path in E. destruct (files (refresh e st) !! path id) as [f|]; [|done].
    cbn [mbind option_bind] in E. destruct (toml f) as [r|]; [|done].
    by eapply deserialize_normal.
  - apply default_normal.
Qed.

(** ** Storing and loading *)

Lemma de_string_skip d s : text_ok d s -> de_string d (skip_if is_empty_str s) = s.
Proof.
  unfold text_ok, skip_if, is_empty_str. intros H. destruct (String.eqb_spec s "") as [->|Hs]; cbn.
  - by apply H.
  - by rewrite (proj2 (String.eqb_neq _ _) Hs).
Qed.

Lemma de_skip_map {A} (m : gmap string A) `{forall m : gmap string A, Decision (m = ∅)} :
  de ∅ ∅ (skip_if (fun m => bool_decide (m = ∅)) m) = m.
Proof. unfold skip_if. by case_bool_decide. Qed.

Lemma deserialize_serialize r c : normal r c -> deserialize r (serialize c) = Some c.
Proof.
  intros [Hv Hs Hi Hw Hd Hu (q & Hq & Hqr) Hsp He]. unfold deserialize, serialize. cbn [f_edge_scroll_edge_thickness
    f_custom_image_quality f_trackpad_speed f_info f_transfer].
  unfold deserialize_edge_scroll_edge_thickness, deserialize_custom_image_quality, deserialize_trackpad_speed.
  rewrite Hq. cbn [skip_if is_empty_list de_checked].
  rewrite !(proj2 (andb_true_iff _ _)) by (split; apply Z.leb_le; lia).
  cbn [mbind option_bind de_info de_transfer f_username f_hostname f_platform f_write_jobs f_read_jobs de].
  rewrite <-Hq. unfold de_bool. cbn.
  rewrite !de_string_skip by first [done | by intros ?].
  rewrite !de_skip_map.
  assert (de "" "" (skip_if is_empty_str (keyboard_mode c)) = keyboard_mode c) as ->.
  { unfold skip_if, is_empty_str. by destruct (String.eqb_spec (keyboard_mode c) "") as [->|]. }
  done.
Qed.

Abbreviation store := (store get_uuid).
Abbreviation load := (load get_uuid ds).

Lemma refresh_files e st : files (refresh e st) = files st.
Proof. unfold refresh. by destruct (1000 <? _). Qed.

Lemma refresh_read e st st' :
  default_file st = default_file st' -> USER_DEFAULT_CONFIG st = USER_DEFAULT_CONFIG st' ->
  rd (refresh e st) = rd (refresh e st').
Proof.
  unfold refresh, read. intros H1 H2. rewrite H2. destruct (1000 <? _); cbn; [by rewrite H1|by rewrite H2].
Qed.

Lemma store_files e id c st : writable e (path id) = true ->
  files (store e id c st) !! path id = Some (mkFile (time e) (Some (serialize (encrypted get_uuid c)))).
Proof using. intros Hw. unfold PeerCfg.store. rewrite Hw. cbn. apply lookup_insert_eq. Qed.

Lemma store_defaults e id c st : default_file (store e id c st) = default_file st
  /\ USER_DEFAULT_CONFIG (store e id c st) = USER_DEFAULT_CONFIG st.
Proof. unfold PeerCfg.store. by destruct (writable e (path id)). Qed.

Lemma encrypted_normal r c : normal r c -> normal r (encrypted get_uuid c).
Proof. intros []. done. Qed.

Lemma load_store e e' id c st : writable e (path id) = true ->
  normal (rd (refresh e' st)) c -> storable c ->
  load e' id (store e id c st) = (c, refresh e' (store e id c st)).
Proof using SBL B64L uuid_bytes.
  intros Hw Hn Hs. unfold PeerCfg.load, load_path.
  rewrite refresh_files, store_files by done. cbn [mbind option_bind toml].
  destruct (store_defaults e id c st) as [H1 H2].
  rewrite (refresh_read e' _ _ H1 H2), deserialize_serialize by (by apply encrypted_normal).
  by rewrite decrypted_encrypted.
Qed.

Lemma stored_entry e id c st : plain_id id -> is_utf8 (Config.str_bytes id) = true ->
  contains_char "/" (encoded_id id) = false -> writable e (path id) = true ->
  (id, time e, path id) ∈ get_vec_id_modified_time_path None (store e id c st).
Proof using B64L.
  intros Hid Hu Hs Hw. apply elem_of_peer_list. split; [done|].
  exists (path id). eexists. split; [by apply store_files|].
  rewrite path_plain by done. unfold peer_entry. rewrite String.eqb_refl.
  destruct (toml_name (encoded_id id)) as [-> _]; [by apply encoded_id_plain|].
  rewrite bool_decide_true by done. cbn [andb mtime]. by rewrite decoded_encoded.
Qed.

(** ** The properties *)

(** C33. Whatever a settings file holds (missing, foreign or ill-typed
    fields, no file at all) and whatever the user's defaults are, the settings
    [PeerConfig::load] returns are in range: the view, scroll and quality
    styles are not empty, the custom quality is one number from 10 to 4095, the
    trackpad speed from 10 to 1000, the edge thickness from 20 to 150, and a
    text is empty only where the user's default is. *)
Theorem load_normal e id st : normal (read ds (refresh e st)) (fst (PeerCfg.load get_uuid ds e id st)).
Proof using FL. apply load_is_normal. Qed.

(** C29. Settings in range whose secrets (the password and the three
    credentials among the options) can be stored load back unchanged after
    [PeerConfig::store], whatever the file held before; the load does not
    write them again, and storing them a second time and loading leaves the
    same file. *)
Theorem peer_roundtrip e e' id c st : writable e (path id) = true ->
  normal (read ds (refresh e' st)) c -> storable c ->
  let st1 := PeerCfg.store get_uuid e id c st in
  PeerCfg.load get_uuid ds e' id st1 = (c, refresh e' st1)
  /\ files (PeerCfg.store get_uuid e id (fst (PeerCfg.load get_uuid ds e' id st1)) st1) = files st1.
Proof using SBL B64L uuid_bytes.
  intros Hw Hn Hs. cbv zeta. rewrite load_store by done. split; [done|]. cbn [fst].
  unfold PeerCfg.store. rewrite Hw. cbn. by rewrite insert_insert_eq.
Qed.

(** A peer that is stored is found again by the list of peers: its id is
    read back from the name of its file, and loading the entry gives the
    stored settings, for an id that is not ["."], [".."] or empty, does not
    itself look like an encoded id, and whose encoded form (when it has
    characters a file name must not have) has no slash. *)
Theorem stored_peer_listed e e' id c st :
  plain_id id -> is_utf8 (Config.str_bytes id) = true -> contains_char "/" (encoded_id id) = false ->
  writable e (path id) = true -> normal (read ds (refresh e' st)) c -> storable c ->
  platform (info c) <> "" ->
  let st1 := PeerCfg.store get_uuid e id c st in
  let x := (id, time e, path id) in
  x ∈ get_vec_id_modified_time_path None st1
  /\ load_entry get_uuid ds e' x st1 = (Some (id, time e, c), refresh e' st1).
Proof using SBL B64L uuid_bytes.
  intros Hid Hu Hs Hw Hn Hst Hp. cbv zeta. split; [by apply stored_entry|].
  unfold load_entry. rewrite load_store by done. by rewrite (proj2 (String.eqb_neq _ _) Hp).
Qed.

Lemma deep_no_entry id f : (2 <= length (components (encoded_id id)))%nat -> peer_entry (path id, f) = None.
Proof using.
  intros Hl. unfold path, with_extension.
  destruct (components (encoded_id id)) as [|a [|b l]]; cbn [length] in Hl; [lia|lia|].
  assert (exists n, last (PEERS :: a :: b :: l) = Some n) as [n ->].
  { destruct (last (PEERS :: a :: b :: l)) eqn:E; [eauto|]. by apply last_None in E. }
  change (removelast (PEERS :: a :: b :: l)) with (PEERS :: a :: removelast (b :: l)).
  cbn [app]. by destruct (removelast (b :: l) ++ [with_extension_name n]) eqn:E;
    [apply app_eq_nil in E as [_ E]|].
Qed.

(** When the base64 form of an id contains a slash (the encoding's
    standard alphabet has one), the settings are written into a subdirectory
    and can be loaded by id, but storing them changes nothing in the list of
    peers: the peer is never listed. *)
Theorem deep_peer_unlisted e e' id c st :
  (2 <= length (components (encoded_id id)))%nat ->
  writable e (path id) = true -> normal (read ds (refresh e' st)) c -> storable c ->
  let st1 := PeerCfg.store get_uuid e id c st in
  fst (PeerCfg.load get_uuid ds e' id st1) = c
  /\ forall filters x, x ∈ get_vec_id_modified_time_path filters st1
                       <-> x ∈ get_vec_id_modified_time_path filters st.
Proof using SBL B64L uuid_bytes.
  intros Hl Hw Hn Hs. cbv zeta. rewrite load_store by done. split; [done|].
  intros filters x. rewrite !elem_of_peer_list. unfold PeerCfg.store, set_field. rewrite Hw.
  cbn [files].
  split; intros (Hp & p & f & Hf & He); (split; [done|]); exists p, f; (split; [|done]);
    (destruct (decide (p = path id)) as [->|Hne]; [by rewrite deep_no_entry in He|]).
  - by rewrite lookup_insert_ne in Hf.
  - by rewrite lookup_insert_ne.
Qed.

(** One number of another type in a settings file (the trackpad speed,
    the edge thickness or the custom quality) makes the whole file unreadable,
    although every other ill-typed field is replaced by its default: the load
    returns the defaults of a new peer, and building the list of peers deletes
    the file with all its other settings. *)
Theorem ill_typed_number_forgets e id st t r :
  files st !! path id = Some (mkFile t (Some r)) ->
  f_trackpad_speed r = Invalid \/ f_edge_scroll_edge_thickness r = Invalid
    \/ f_custom_image_quality r = Invalid ->
  let st1 := refresh e st in
  PeerCfg.load get_uuid ds e id st = (PeerConfig_default (read ds st1), st1)
  /\ load_entry get_uuid ds e (id, t, path id) st = (None, st1 <| files := delete (path id) (files st1) |>).
Proof using.
  intros Hf Hbad. cbv zeta.
  assert (PeerCfg.load get_uuid ds e id st = (PeerConfig_default (rd (refresh e st)), refresh e st)) as Hload.
  { unfold PeerCfg.load, load_path. rewrite refresh_files, Hf. cbn [mbind option_bind toml].
    assert (deserialize (rd (refresh e st)) r = None) as ->; [|done].
    unfold deserialize, deserialize_edge_scroll_edge_thickness, deserialize_custom_image_quality,
      deserialize_trackpad_speed.
    destruct Hbad as [H|[H|H]]; rewrite H; unfold de_checked;
      by destruct (f_edge_scroll_edge_thickness r), (f_custom_image_quality r). }
  split; [done|]. unfold load_entry. by rewrite Hload.
Qed.

End Load.

(** ** Witnesses *)

(** Natural numbers in unary as [f64]. *)
Fixpoint unary (n : nat) : string := match n with O => "" | S n => String "1" (unary n) end.

#[local] Instance toy_f64 : F64Text := {
  f64 := nat; f64_parse s := Some (String.length s); f64_show := unary;
  f64_le := Nat.leb; f64_of_Z := Z.to_nat; f64_as_i32 := Z.of_nat }.

#[local] Instance toy_f64_laws : F64TextLaws toy_f64.
Proof.
  split; cbn.
  - intros v. f_equal. induction v as [|v IH]; cbn; [done|]. by rewrite IH.
  - intros a b v Ha Hb H1%Nat.leb_le H2%Nat.leb_le. lia.
  - intros a b Ha Hb. destruct (Z.leb_spec a b); [apply Nat.leb_le|apply Nat.leb_gt]; lia.
Qed.

(** A machine, its settings and an empty store. *)
Definition demo_ds : DisplaySettings := mkDisplaySettings ∅ {[ "reverse_mouse_wheel" := "Y" ]}.
Definition demo_env : FsEnv := mkFsEnv 5000 77 (fun _ => true).
Definition demo_store : Store := mkStore ∅ {[ "trackpad-speed" := "250" ]} (∅, 0) ∅.

(** The settings of a new peer, with a password and credentials. *)
Definition demo_peer : PeerConfig :=
  (PeerConfig_default (read demo_ds (refresh demo_env demo_store)))
    <| password := [1; 2; 3] |> <| options := {[ "os-password" := "secret"; "other" := "v" ]} |>
    <| info := mkPeerInfoSerde "me" "box" "Linux" |>.

Lemma demo_normal : normal (read demo_ds (refresh demo_env demo_store)) demo_peer.
Proof. pose proof (default_normal demo_ds (refresh demo_env demo_store)) as []. by split. Qed.

Lemma demo_storable : storable (SB := toy_box) (B64 := toy_b64) [7] demo_peer.
Proof.
  split.
  - split; vm_compute; [discriminate|reflexivity].
  - unfold secret_options. repeat (apply Forall_cons_2; [intros v Hv|]); [..|by apply Forall_nil].
    + by vm_compute in Hv.
    + by vm_compute in Hv.
    + assert (v = "secret") as -> by (vm_compute in Hv; congruence).
      split; [reflexivity|]. split; vm_compute; [discriminate|reflexivity].
Qed.

Lemma peer_roundtrip_witness :
  fst (load (SB := toy_box) (B64 := toy_b64) [7] demo_ds demo_env "1234"
         (store (SB := toy_box) (B64 := toy_b64) [7] demo_env "1234" demo_peer demo_store)) = demo_peer.
Proof.
  destruct (@peer_roundtrip toy_box toy_b64 toy_f64 toy_box_laws toy_b64_laws [7] demo_ds
              ltac:(repeat constructor; unfold is_byte; lia) demo_env demo_env "1234" demo_peer demo_store)
    as [-> _].
  - reflexivity.
  - exact demo_normal.
  - exact demo_storable.
  - reflexivity.
Defined.

Lemma stored_peer_listed_witness :
  ("a:b", 77, [PEERS; "base64_Aa:b.toml"]) ∈ get_vec_id_modified_time_path (B64 := toy_b64) None
    (store (SB := toy_box) (B64 := toy_b64) [7] demo_env "a:b" demo_peer demo_store).
Proof.
  apply (@stored_peer_listed toy_box toy_b64 toy_f64 toy_box_laws toy_b64_laws [7] demo_ds
           ltac:(repeat constructor; unfold is_byte; lia) demo_env demo_env "a:b" demo_peer demo_store).
  - repeat split; done.
  - reflexivity.
  - reflexivity.
  - reflexivity.
  - exact demo_normal.
  - exact demo_storable.
  - discriminate.
Defined.

Lemma deep_peer_unlisted_witness :
  path (B64 := toy_b64) "a/b" = [PEERS; "base64_Aa"; "b.toml"]
  /\ forall x, x ∉ get_vec_id_modified_time_path (B64 := toy_b64) None
       (store (SB := toy_box) (B64 := toy_b64) [7] demo_env "a/b" demo_peer demo_store).
Proof.
  split; [reflexivity|]. intros x Hx.
  apply (@deep_peer_unlisted toy_box toy_b64 toy_f64 toy_box_laws toy_b64_laws [7] demo_ds
           ltac:(repeat constructor; unfold is_byte; lia) demo_env demo_env "a/b" demo_peer demo_store) in Hx.
  - vm_compute in Hx. by apply not_elem_of_nil in Hx.
  - vm_compute. lia.
  - reflexivity.
  - exact demo_normal.
  - exact demo_storable.
Defined.

(** A file whose only fault is the text ["fast"] as trackpad speed. *)
Definition demo_bad : Raw := (serialize demo_peer) <| f_trackpad_speed := Invalid |>.

Lemma ill_typed_number_forgets_witness :
  let st := demo_store <| files := {[ path (B64 := toy_b64) "1" := mkFile 5 (Some demo_bad) ]} |> in
  fst (load_entry (SB := toy_box) (B64 := toy_b64) [7] demo_ds demo_env ("1", 5, path (B64 := toy_b64) "1") st) = None
  /\ files (snd (load_entry (SB := toy_box) (B64 := toy_b64) [7] demo_ds demo_env
                  ("1", 5, path (B64 := toy_b64) "1") st)) = ∅.
Proof.
  cbv zeta. set (st := demo_store <| files := _ |>).
  destruct (@ill_typed_number_forgets toy_box toy_b64 toy_f64 [7] demo_ds demo_env "1" st 5 demo_bad) as [_ ->].
  - reflexivity.
  - left. reflexivity.
  - split; reflexivity.
Defined.

(** A file that asks for a trackpad speed of 5000. *)
Definition demo_fast : Store :=
  demo_store <| files := {[ path (B64 := toy_b64) "1" :=
    mkFile 5 (Some ((serialize demo_peer) <| f_trackpad_speed := Value 5000 |>)) ]} |>.

Lemma load_normal_witness :
  let c := fst (load (SB := toy_box) (B64 := toy_b64) [7] demo_ds demo_env "1" demo_fast) in
  hostname (info c) = "box" /\ 10 <= trackpad_speed c <= 1000.
Proof.
  split; [reflexivity|].
  destruct (@load_normal toy_box toy_b64 toy_f64 toy_f64_laws [7] demo_ds demo_env "1" demo_fast); assumption.
Defined.

End PeerCfgFacts.
