(* ===== verification/Connection.v ===== *)
(** * An incoming connection ([src/server/connection.rs])

    The controlled side's state of one connection and its handlers, for a
    Linux desktop build with the features [flutter] and
    [unix-file-copy-paste]: opening, the login request with its checks, the
    second factor, switching sides, the messages of an authorized peer, the
    orders of the connection manager, and closing.

    - [Conn.Connection] is the struct, without its channel ends and timers; the
      fields of its file manager are one field [fm] (component [FileManager]);
    - [Global] is the process-wide state the handlers lock: the failure
      counters, the sessions with their shared receive-time cells, the list of
      authorized connections, the switch-sides table, the state of the file
      clipboard (component [ClipMsg]) and the server;
    - [Env] is what a handler reads from its surroundings: the clocks, the
      options (component [Config]), the platform and the operations of
      third-party crates;
    - an [Effect] is everything a handler sends or calls outside this state,
      in order.

    A handler runs to its end before the connection's task handles the next
    message, so it is a function on [World]. *)

From S2P Require Import Prelude RustStr Messages NetUtil FileTransfer FileManager ClipFiles FusePaste ClipMsg.
From S2P Require Import Service Server Config.

Module Conn.

Import Msg Service Server.

(** ** Addresses and failure counters *)

(** [IpAddr]: 32 or 128 bits. *)
Inductive IpAddr : Type := V4 (a : Z) | V6 (a : Z).

#[global] Instance IpAddr_eq_dec : EqDecision IpAddr.
Proof. solve_decision. Defined.

(** The keys of [LOGIN_FAILURES]: the text of an address, or the text of a
    masked IPv6 address with ["/64"] and the like behind it.  The textual form
    of an address is injective and has no slash, so the keys are kept as
    values. *)
Inductive FailKey : Type := KIp (ip : option IpAddr) | KPrefix (addr : Z) (prefix : Z).

#[global] Instance FailKey_eq_dec : EqDecision FailKey.
Proof. solve_decision. Defined.

#[global] Instance FailKey_countable : Countable FailKey.
Proof.
  refine (inj_countable'
    (fun k => match k with
              | KIp None => inl None
              | KIp (Some (V4 a)) => inl (Some (inl a))
              | KIp (Some (V6 a)) => inl (Some (inr a))
              | KPrefix a p => inr (a, p)
              end)
    (fun t => match t with
              | inl None => KIp None
              | inl (Some (inl a)) => KIp (Some (V4 a))
              | inl (Some (inr a)) => KIp (Some (V6 a))
              | inr (a, p) => KPrefix a p
              end) _).
  by intros [[[]|]|].
Defined.

(** Minute of the last failure, failures in that minute, failures in total. *)
Abbreviation Failure := (Z * Z * Z)%type.
Abbreviation Failures := (gmap FailKey Failure).

Definition mask_u128 (addr prefix : Z) : Z :=
  let mask := if (prefix =? 0) || (128 <? prefix) then 0
              else u128 (Z.shiftl (2 ^ 128 - 1) (128 - prefix)) in
  Z.land addr mask.

Definition get_ipv6_prefixes (ip : option IpAddr) : option (FailKey * FailKey * FailKey) :=
  match ip with
  | Some (V6 a) => Some (KPrefix (mask_u128 a 64) 64, KPrefix (mask_u128 a 56) 56, KPrefix (mask_u128 a 48) 48)
  | _ => None
  end.

Definition bump (cur : Failure) (time : Z) : Failure :=
  let '(t, n, total) := cur in
  if t =? time then (t, i32 (n + 1), i32 (total + 1)) else (time, 1, i32 (total + 1)).

Definition failure_of (k : FailKey) (m : Failures) : Failure :=
  match m !! k with Some f => f | None => (0, 0, 0) end.

(** [update_failure] on one map. *)
Definition update_failure (ip : option IpAddr) (failure : Failure) (time : Z) (remove : bool) (m : Failures)
  : Failures :=
  if remove then
    if negb (fst (fst failure) =? 0) then
      match get_ipv6_prefixes ip with
      | Some (p64, p56, p48) => delete (KIp ip) (delete p48 (delete p56 (delete p64 m)))
      | None => delete (KIp ip) m
      end
    else m
  else
    match get_ipv6_prefixes ip with
    | Some (p64, p56, p48) =>
      let m := <[ p64 := bump (failure_of p64 m) time ]> m in
      let m := <[ p56 := bump (failure_of p56 m) time ]> m in
      let m := <[ p48 := bump (failure_of p48 m) time ]> m in
      <[ KIp ip := bump failure time ]> m
    | None => <[ KIp ip := bump failure time ]> m
    end.

Inductive AlarmAuditType : Type :=
| IpWhitelist | ExceedThirtyAttempts | SixAttemptsWithinOneMinute | ExceedIPv6PrefixAttempts.

(** [check_failure_ipv6_prefix]: the error and alarm when the prefix is over
    its threshold. *)
Definition check_failure_ipv6_prefix (m : Failures) (time : Z) (prefix : FailKey) (prefix_num thresh : Z)
  : option (Failure * string * AlarmAuditType) :=
  let f := failure_of prefix m in
  if thresh <? snd f
  then Some (f, "Too many wrong attempts for IPv6 prefix /" +:+ show prefix_num, ExceedIPv6PrefixAttempts)
  else None.

(** [check_failure] on one map: the failure record and, when the attempt is
    refused, the login error and the alarm. *)
Definition check_failure (ip : option IpAddr) (time : Z) (m : Failures)
  : Failure * option (string * AlarmAuditType) :=
  let blocked :=
    match get_ipv6_prefixes ip with
    | Some (p64, p56, p48) =>
      match check_failure_ipv6_prefix m time p64 64 60 with
      | Some r => Some r
      | None =>
        match check_failure_ipv6_prefix m time p56 56 80 with
        | Some r => Some r
        | None => check_failure_ipv6_prefix m time p48 48 100
        end
      end
    | None => None
    end in
  match blocked with
  | Some (f, msg, alarm) => (f, Some (msg, alarm))
  | None =>
    let failure := failure_of (KIp ip) m in
    let '(t, n, total) := failure in
    if 30 <? total then (failure, Some ("Too many wrong attempts", ExceedThirtyAttempts))
    else if (time =? t) && (6 <? n)
    then (failure, Some ("Please try 1 minute later", SixAttemptsWithinOneMinute))
    else (failure, None)
  end.

(** ** Sessions and authorized connections *)

Record SessionKey : Type := mkSessionKey { peer_id : string; sk_name : string; session_id : Z }.

#[global] Instance SessionKey_eq_dec : EqDecision SessionKey.
Proof. solve_decision. Defined.

#[global] Instance SessionKey_countable : Countable SessionKey.
Proof.
  refine (inj_countable' (fun k => (peer_id k, sk_name k, session_id k))
                         (fun '(a, b, c) => mkSessionKey a b c) _). by intros [].
Defined.

(** [last_recv_time] is an [Arc<Mutex<Instant>>]: the number of a cell. *)
Record Session : Type := mkSession { last_recv_time : nat; random_password : list Z; tfa : bool }.

Inductive AuthConnType : Type := Remote | FileTransfer | PortForward | ViewCamera | Terminal.

#[global] Instance AuthConnType_eq_dec : EqDecision AuthConnType.
Proof. solve_decision. Defined.

Record AuthedConn : Type := mkAuthedConn {
  ac_conn_id : Z; ac_conn_type : AuthConnType; ac_session_key : SessionKey }.

(** On Linux there is only one kind of token. *)
Inductive TerminalUserToken : Type := SelfUser.

Definition to_terminal_service_token (t : TerminalUserToken) : option Z :=
  match t with SelfUser => None end.

(** ** What happens outside the state *)

Record CmLogin : Type := mkCmLogin {
  cm_is_file_transfer : bool; cm_is_view_camera : bool; cm_is_terminal : bool;
  cm_port_forward : string; cm_peer_id : string; cm_name : string; cm_authorized : bool;
  cm_keyboard : bool; cm_clipboard : bool; cm_audio : bool; cm_file : bool; cm_restart : bool;
  cm_recording : bool; cm_block_input : bool; cm_from_switch : bool }.

Inductive CmData : Type :=
| Login (l : CmLogin)
| CmChatMessage (text : string)
| CmClose | CmDisconnected
| VoiceCallIncoming | StartVoiceCall | CloseVoiceCall.

Inductive MessageInput : Type :=
| Mouse (msg : MouseEvent) (simulate show_cursor : bool)
| Key (k : KeyEvent) (press : bool)
| Pointer (payload : Z)
| BlockOn | BlockOff.

Inductive Effect : Type :=
| Peer (m : Message)                                  (* [self.send] *)
| Video (m : Message)                                 (* through [self.inner.send] *)
| Cm (d : CmData)                                     (* [self.send_to_cm] *)
| StartCmIpc                                          (* [try_start_cm_ipc] *)
| Alarm (t : AlarmAuditType)                          (* [post_alarm_audit] *)
| ConnAudit (action : string)                         (* [post_conn_audit] *)
| Input (i : MessageInput)                            (* [tx_input.send] *)
| ClickTime | MouseMoveTime
| UpdateClipboard (contents : list (list Z))
| EmptyFileClipboard
| QosOpen | QosDelay (d : Z) | QosImageQuality (q : Z) | QosCustomFps (f : Z) | QosAutoFps (f : Z)
| QosRecord (b : bool)
| EncoderUpdate (d : option SupportedDecoding)        (* [None]: [NewOnlyVP9] *)
| RemoveWallpaper | ActivateScreen | WakeLock
| TelegramCode
| AddTrustedDevice (d : Config.TrustedDevice)
| RefreshVideoEffect | VideoFetched | Screenshot (display : Z)
| ChangeResolutionEffect (display w h : Z)
| DisplayChanged (display : Z)
| AudioThread | AudioFormatTo (rate channels : Z) | AudioFrameTo (data : list Z)
| VoiceInputDevice (set_ : bool)
| WhiteboardOn | WhiteboardOff
| LockScreen | ForceReboot | Reboot
| RunConnect (id : string) (uuid : list Z)
| TerminalPersist (service_id : string) (b : bool)
| TerminalService (service_id : string) (b : bool)
| Files (o : FileMgr.FmOut)                            (* of the file manager *)
| FileClipboard (o : ClipMsg.ClipOut)
| TerminalRequest (terminal_id : Z) (payload : list Z)
| RawToPeer (data : list Z)                           (* [stream.send_raw] *)
| QosElapsed (ms : Z)                                 (* [user_delay_response_elapsed] *)
| NewTemporaryPassword
| EncoderRemove | QosClose                            (* of a video connection that ends *)
| ReleaseKey (k : Z) | TerminalJoin
| RestoreDesktop                                      (* wallpaper, resolutions, screen-cast session *)
| Forward (addr : string)                             (* the raw copying of a tunnel begins *)
| Panicked.                                           (* the process aborts *)

(** ** The environment of a handler *)

Record Env : Type := mkEnv {
  now : Z;                                      (* [Instant::now()], ms *)
  get_time : Z;                                 (* [get_time()], ms since the epoch *)
  sha256 : list Z -> list Z;
  totp_check : string -> string -> Z -> option bool;  (* [check_current]: secret, code, time *)
  uuid_from_slice : list Z -> option (list Z);
  is_ip_str : string -> bool;                   (* regular expressions *)
  is_domain_port_str : string -> bool;
  cidr_contains : string -> IpAddr -> bool;     (* [IpCidr::from_str(x)] and [contains] *)
  get_option : string -> string;
  get_builtin_option : string -> string;
  get_id : list Z;
  temporary_password : list Z;
  permanent_password : list Z;
  trusted_devices : list Config.TrustedDevice;
  is_in_privacy_mode : bool;
  is_logon : bool;                              (* [is_prelogin() || is_locked()] *)
  main_window_closed : bool;                    (* server process without a main window *)
  tcp_connect : string -> bool;                 (* within three seconds *)
  try_start_desktop : option OSLogin -> string;
  unsupported_display_server : string;          (* empty when supported *)
  sync_displays : result Z string;              (* number of displays, or the error *)
  primary_display : Z;
  primary_camera_exists : bool;
  is_service_specified_user : string -> option bool;
  generate_service_id : string;
  whiteboard_supported : bool;
  path_is_dir : string -> bool;
  rdev_modifier : Z -> option Z;                (* key code to rdev key, if a modifier *)
  display_exists : Z -> bool;
  fs_disk : Transfer.FS;                        (* what the read jobs see *)
  fs_list : string -> bool -> result (list Transfer.FileEntry) string;  (* [fs::get_recursive_files] *)
  utf16 : ClipFiles.Utf16;
  clip_disk : ClipFiles.Disk;
  metadata_len : ClipFiles.text -> option Z;
  mount_ok : bool;                              (* whether FUSE can be mounted *)
  stream_id : Z -> Z }.                         (* random *)

Set Primitive Projections.

(** ** The connection *)

Record Connection : Type := mkConnection {
  inner : ConnInner;
  display_idx : Z;
  salt : list Z;  (* the [hash] message *)
  challenge : list Z;
  file_transfer : option (string * bool);
  view_camera : bool;
  terminal : bool;
  port_forward_socket : option string;  (* the address it is connected to *)
  port_forward_address : string;
  authorized : bool;
  require_2fa : option string;  (* the secret of the [TOTP] *)
  keyboard : bool;
  clipboard : bool;
  audio : bool;
  file : bool;
  restart : bool;
  recording : bool;
  block_input : bool;
  control_permissions : option Z;
  last_test_delay : option Z;
  network_delay : Z;
  lock_after_session_end : bool;
  show_remote_cursor : bool;
  follow_remote_cursor : bool;
  follow_remote_window : bool;
  multi_ui_session : bool;
  ip : option IpAddr;
  disable_keyboard : bool;  (* by peer, as the next four *)
  show_my_cursor : bool;
  disable_clipboard : bool;
  disable_audio : bool;
  enable_file_transfer : bool;
  audio_sender : bool;
  video_ack_required : bool;
  lr : LoginRequest;
  session_last_recv_time : option nat;  (* a shared cell *)
  chat_unanswered : bool;
  fm : FileMgr.Fm;  (* the file manager *)
  from_switch : bool;
  voice_call_request_timestamp : option Z;
  voice_calling : bool;
  options_in_login : option OptionMessage;
  pressed_modifiers : gset Z;
  closed : bool;
  start_cm_ipc_para : bool;  (* [Some] until the channel to the connection manager is started *)
  auto_disconnect_timer : option (Z * Z);
  authed_conn_id : option AuthConnType;
  services_subed : bool;
  terminal_service_id : string;
  terminal_persistent : bool;
  terminal_user_token : option TerminalUserToken;
  terminal_generic_service : bool }.

(** ** The process-wide state *)

Record Global : Type := mkGlobal {
  LOGIN_FAILURES : list Failures;  (* one map per kind of check *)
  SESSIONS : gmap SessionKey Session;
  cells : gmap nat Z;  (* the shared [last_recv_time] cells *)
  next_cell : nat;
  AUTHED_CONNS : list AuthedConn;
  SWITCH_SIDES_UUID : gmap string (Z * list Z);
  clip_state : ClipMsg.ClipState;
  server : Server;
  ALIVE_CONNS : list Z;
  CONTROL_PERMISSIONS_ARRAY : list (Z * Z);
  RECORD_CURSOR_POS_RUNNING : bool }.  (* the thread that follows the cursor *)

Record World : Type := mkWorld { conn : Connection; glob : Global; out : list Effect }.

Unset Primitive Projections.

Definition emit (e : Effect) (w : World) : World := w <| out := out w ++ [e] |>.
Definition upd (f : Connection -> Connection) (w : World) : World := w <| conn := f (conn w) |>.
Definition updg (f : Global -> Global) (w : World) : World := w <| glob := f (glob w) |>.

(** [self.server.upgrade()] followed by a write lock: the server outlives its
    connections, so the upgrade succeeds. *)
Definition on_server (f : Server -> Server) (w : World) : World :=
  updg (fun g => g <| server := f (server g) |>) w.

Definition send (m : Message) : World -> World := emit (Peer m).
Definition send_to_cm (d : CmData) : World -> World := emit (Cm d).

(** ** Permissions *)

(** [ControlPermissions::Permission] *)
Inductive ControlPermission : Type :=
| CpKeyboard | CpRemotePrinter | CpClipboard | CpFile | CpAudio | CpCamera | CpTerminal | CpTunnel
| CpRestart | CpRecording | CpBlockInput | CpRemoteModify.

Definition ControlPermission_value (p : ControlPermission) : Z :=
  match p with
  | CpKeyboard => 0 | CpRemotePrinter => 1 | CpClipboard => 2 | CpFile => 3 | CpAudio => 4
  | CpCamera => 5 | CpTerminal => 6 | CpTunnel => 7 | CpRestart => 8 | CpRecording => 9
  | CpBlockInput => 10 | CpRemoteModify => 11
  end.

Definition get_control_permission (permissions : Z) (p : ControlPermission) : option bool :=
  let index := ControlPermission_value p in
  if (0 <=? index) && (index <? 32) then
    let shift := index * 2 in
    let value := Z.land (Z.shiftr permissions shift) 3 in
    if value =? 1 then Some false else if value =? 2 then Some true else None
  else None.

Definition is_permission_enabled_locally (e : Env) (enable_prefix_option : string) : bool :=
  let access_mode := get_option e "access-mode" in
  if String.eqb access_mode "full" then true
  else if String.eqb access_mode "view" then false
  else Config.option2bool enable_prefix_option (get_option e enable_prefix_option).

Definition permission_of_option (o : string) : option ControlPermission :=
  if String.eqb o "enable-keyboard" then Some CpKeyboard
  else if String.eqb o "enable-remote-printer" then Some CpRemotePrinter
  else if String.eqb o "enable-clipboard" then Some CpClipboard
  else if String.eqb o "enable-file-transfer" then Some CpFile
  else if String.eqb o "enable-audio" then Some CpAudio
  else if String.eqb o "enable-camera" then Some CpCamera
  else if String.eqb o "enable-terminal" then Some CpTerminal
  else if String.eqb o "enable-tunnel" then Some CpTunnel
  else if String.eqb o "enable-remote-restart" then Some CpRestart
  else if String.eqb o "enable-record-session" then Some CpRecording
  else if String.eqb o "enable-block-input" then Some CpBlockInput
  else None.

Definition permission (e : Env) (enable_prefix_option : string) (cp : option Z) : bool :=
  match cp with
  | Some permissions =>
    match permission_of_option enable_prefix_option with
    | Some p =>
      match get_control_permission permissions p with
      | Some enabled => enabled
      | None => is_permission_enabled_locally e enable_prefix_option
      end
    | None => is_permission_enabled_locally e enable_prefix_option
    end
  | None => is_permission_enabled_locally e enable_prefix_option
  end.

Definition peer_keyboard_enabled (c : Connection) : bool := keyboard c && negb (disable_keyboard c).
Definition clipboard_enabled (c : Connection) : bool := clipboard c && negb (disable_clipboard c).
Definition audio_enabled (c : Connection) : bool := audio c && negb (disable_audio c).
Definition file_transfer_enabled (c : Connection) : bool := file c && enable_file_transfer c.

Definition can_sub_clipboard_service (e : Env) (c : Connection) : bool :=
  clipboard_enabled c && peer_keyboard_enabled c
  && negb (String.eqb (get_builtin_option e "one-way-clipboard-redirection") "Y").

Definition can_sub_file_clipboard_service (e : Env) (c : Connection) : bool :=
  clipboard_enabled c && file_transfer_enabled c
  && negb (String.eqb (get_builtin_option e "one-way-file-transfer") "Y").

Definition is_remote (c : Connection) : bool :=
  match file_transfer c with None => true | Some _ => false end
  && match port_forward_socket c with None => true | Some _ => false end
  && negb (view_camera c) && negb (terminal c).

Definition is_authed_remote_conn (c : Connection) : bool :=
  bool_decide (authed_conn_id c = Some Remote).
Definition is_authed_view_camera_conn (c : Connection) : bool :=
  bool_decide (authed_conn_id c = Some ViewCamera).

Definition send_permission (p : Permission) (enabled : bool) : World -> World :=
  send (MMisc (PermissionInfo p enabled)).

(** ** Login errors *)

Definition REQUIRE_2FA : string := "2FA Required".
Definition LOGIN_MSG_DESKTOP_SESSION_NOT_READY : string := "Desktop session not ready".
Definition LOGIN_MSG_DESKTOP_SESSION_NOT_READY_PASSWORD_EMPTY : string :=
  "Desktop session not ready, password empty".
Definition LOGIN_MSG_DESKTOP_SESSION_NOT_READY_PASSWORD_WRONG : string :=
  "Desktop session not ready, password wrong".
Definition LOGIN_MSG_PASSWORD_WRONG : string := "Wrong Password".
Definition LOGIN_MSG_2FA_WRONG : string := "Wrong 2FA Code".
Definition LOGIN_MSG_NO_PASSWORD_ACCESS : string := "No Password Access".
Definition LOGIN_MSG_OFFLINE : string := "Offline".

Definition enable_trusted_devices (e : Env) : bool :=
  Config.option2bool "enable-trusted-devices" (get_option e "enable-trusted-devices").

Definition send_login_error (e : Env) (err : string) : World -> World :=
  send (MLoginResponse (LrError err (if String.eqb err REQUIRE_2FA then enable_trusted_devices e else false))).

(** ** Opening *)

Definition check_whitelist (e : Env) (addr : IpAddr) (w : World) : bool * World :=
  let whitelist := filter (fun x => negb (String.eqb x "")) (split_char "," (get_option e "whitelist")) in
  if negb (match whitelist with [] => true | _ => false end)
     && negb (existsb (fun x => String.eqb x "0.0.0.0") whitelist)
     && negb (existsb (fun x => cidr_contains e x addr) whitelist)
  then (false, emit (Alarm IpWhitelist) (send_login_error e "Your ip is blocked by the peer" w))
  else (true, w).

Definition on_open (e : Env) (addr : IpAddr) (w : World) : bool * World :=
  let '(ok, w) := check_whitelist e addr w in
  if negb ok then (false, w)
  else if main_window_closed e && String.eqb (get_option e "allow-only-conn-window-open") "Y"
  then (false, send_login_error e "The main window is not open" w)
  else
    let w := upd (fun c => c <| ip := Some addr |>) w in
    let w := send (MHash (salt (conn w)) (challenge (conn w))) w in
    (true, emit (ConnAudit "new") w).

(** ** Passwords and sessions *)

Definition session_key (c : Connection) : SessionKey :=
  mkSessionKey (lr_my_id (lr c)) (lr_my_name (lr c)) (lr_session_id (lr c)).

Definition validate_one_password (e : Env) (c : Connection) (password : list Z) : bool :=
  match password with
  | [] => false
  | _ =>
    let h1 := sha256 e (password ++ salt c) in
    bool_decide (sha256 e (h1 ++ challenge c) = lr_password (lr c))
  end.

Definition new_cell (e : Env) (g : Global) : nat * Global :=
  (next_cell g, g <| cells := <[ next_cell g := now e ]> (cells g) |> <| next_cell := S (next_cell g) |>).

(** [AuthedConnID::update_or_insert_session] *)
Definition update_or_insert_session (e : Env) (key : SessionKey) (password : option (list Z)) (tfa_ : option bool)
  (g : Global) : Global :=
  match SESSIONS g !! key with
  | Some s =>
    let s := mkSession (last_recv_time s)
               (match password with Some p => p | None => random_password s end)
               (match tfa_ with Some b => b | None => tfa s end) in
    g <| SESSIONS := <[ key := s ]> (SESSIONS g) |>
  | None =>
    let '(cell, g) := new_cell e g in
    let s := mkSession cell (unwrap_or [] password) (unwrap_or false tfa_) in
    g <| SESSIONS := <[ key := s ]> (SESSIONS g) |>
  end.

(** [AuthedConnID::set_session_2fa] *)
Definition set_session_2fa (e : Env) (key : SessionKey) (g : Global) : Global :=
  match SESSIONS g !! key with
  | Some s => g <| SESSIONS := <[ key := mkSession (last_recv_time s) (random_password s) true ]> (SESSIONS g) |>
  | None =>
    let '(cell, g) := new_cell e g in
    g <| SESSIONS := <[ key := mkSession cell [] true ]> (SESSIONS g) |>
  end.

(** [AuthedConnID::check_remove_session] *)
Definition check_remove_session (conn_id : Z) (key : SessionKey) (g : Global) : Global :=
  match SESSIONS g !! key with
  | None => g
  | Some _ =>
    let is_remote := existsb (fun c => (ac_conn_id c =? conn_id) && bool_decide (ac_conn_type c = Remote))
                       (AUTHED_CONNS g) in
    let another_remote := existsb (fun c => negb (ac_conn_id c =? conn_id)
                            && bool_decide (ac_session_key c = key)
                            && bool_decide (ac_conn_type c = Remote)) (AUTHED_CONNS g) in
    if is_remote || negb another_remote
    then g <| SESSIONS := delete key (SESSIONS g) |> else g
  end.

Definition validate_password (e : Env) (w : World) : bool * World :=
  let temp := Config.temporary_enabled (get_option e)
              && validate_one_password e (conn w) (temporary_password e) in
  if temp
  then (true, updg (update_or_insert_session e (session_key (conn w)) (Some (temporary_password e)) (Some false)) w)
  else (Config.permanent_enabled (get_option e)
        && validate_one_password e (conn w) (permanent_password e), w).

Definition SESSION_TIMEOUT : Z := 30000.

Definition retain_sessions (e : Env) (g : Global) : Global :=
  g <| SESSIONS := filter (fun ks => now e - unwrap_or 0 (cells g !! last_recv_time ks.2) < SESSION_TIMEOUT)
                          (SESSIONS g) |>.

Definition is_recent_session (e : Env) (tfa_ : bool) (w : World) : bool * World :=
  let w := updg (retain_sessions e) w in
  match SESSIONS (glob w) !! session_key (conn w) with
  | Some s =>
    (negb (bool_decide (lr_password (lr (conn w)) = []))
     && ((tfa_ && tfa s) || (negb tfa_ && validate_one_password e (conn w) (random_password s))), w)
  | None => (false, w)
  end.

(** The clock of the failure counters, in minutes. *)
Definition minute (e : Env) : Z := i32 (Z.quot (get_time e) 60000).

Definition failures (i : nat) (g : Global) : Failures := nth i (LOGIN_FAILURES g) ∅.

Definition set_failures (i : nat) (m : Failures) (g : Global) : Global :=
  g <| LOGIN_FAILURES := <[ i := m ]> (LOGIN_FAILURES g) |>.

(** [self.check_failure(i)]: the record to pass to [update_failure], and
    whether to go on. *)
Definition check_failure_w (e : Env) (i : nat) (w : World) : Failure * bool * World :=
  match check_failure (ip (conn w)) (minute e) (failures i (glob w)) with
  | (f, Some (msg, alarm)) => (f, false, emit (Alarm alarm) (send_login_error e msg w))
  | (f, None) => (f, true, w)
  end.

Definition update_failure_w (e : Env) (f : Failure) (remove : bool) (i : nat) (w : World) : World :=
  updg (fun g => set_failures i (update_failure (ip (conn w)) f (minute e) remove (failures i g)) g) w.

(** ** Subscriptions of the connection *)

Definition NAME_AUDIO : string := "audio".
Definition NAME_CLIPBOARD : string := "clipboard".
Definition NAME_FILE_CLIPBOARD : string := "file-clipboard".
Definition NAME_CURSOR : string := "mouse_cursor".
Definition NAME_POS : string := "mouse_pos".
Definition NAME_WINDOW_FOCUS : string := "window_focus".

Definition subscribe_w (n : string) (sub : bool) (w : World) : World :=
  on_server (Server.subscribe n (inner (conn w)) sub) w.

Definition video_source (c : Connection) : VideoSource := if view_camera c then Camera else Monitor.

Definition try_sub_camera_displays (e : Env) (w : World) : World :=
  on_server (fun s => add_camera_connection (primary_camera_exists e) (inner (conn w))
                        (try_add_primary_camera_service (primary_camera_exists e) s)) w.

Definition get_auto_disconenct_timer (e : Env) : option (Z * Z) :=
  if String.eqb (get_option e "allow-auto-disconnect") "Y" then
    let minute := unwrap_or 10 (parse_int 0 (2 ^ 64 - 1) (get_option e "auto-disconnect-timeout")) in
    let minute := if minute =? 0 then 10 else minute in
    Some (now e, minute)
  else None.

Definition update_auto_disconnect_timer (e : Env) (w : World) : World :=
  upd (fun c => match auto_disconnect_timer c with
                | Some (_, m) => c <| auto_disconnect_timer := Some (now e, m) |>
                | None => c
                end) w.

Definition noperms_of (e : Env) (c : Connection) : list string :=
  (if negb (peer_keyboard_enabled c) && negb (show_remote_cursor c) then [NAME_CURSOR] else [])
  ++ (if negb (show_remote_cursor c) then [NAME_POS] else [])
  ++ (if negb (follow_remote_window c) then [NAME_WINDOW_FOCUS] else [])
  ++ (if negb (can_sub_clipboard_service e c) then [NAME_CLIPBOARD] else [])
  ++ (if negb (can_sub_file_clipboard_service e c) then [NAME_FILE_CLIPBOARD] else [])
  ++ (if negb (audio_enabled c) then [NAME_AUDIO] else []).

Definition try_sub_monitor_services (e : Env) (w : World) : World :=
  if is_remote (conn w) && negb (services_subed (conn w)) then
    let w := upd (fun c => c <| services_subed := true |>) w in
    let noperms := noperms_of e (conn w) in
    let w := updg (fun g => g <| RECORD_CURSOR_POS_RUNNING := true |>) w in
    let w := upd (fun c => c <| auto_disconnect_timer := get_auto_disconenct_timer e |>) w in
    on_server (fun s => add_connection (primary_display e) (inner (conn w)) noperms
                          (try_add_primay_video_service (primary_display e) s)) w
  else w.

(** ** Privacy mode: no implementation is registered on Linux *)

Definition PRIVACY_UNSUPPORTED : string :=
  "Unsupported. 1 Multi-screen is not supported. 2 Please confirm the license is activated.".

Definition turn_on_privacy (impl_key : string) : World -> World :=
  send (MMisc (BackPrivacyMode PrvNotSupported PRIVACY_UNSUPPORTED impl_key)).

Definition turn_off_privacy (impl_key : string) : World -> World :=
  send (MMisc (BackPrivacyMode PrvNotSupported PRIVACY_UNSUPPORTED impl_key)).

(** ** [update_options] *)

(** [if let Ok(q) = o.enum_value() { if q != NotSet { ... } }] *)
Definition when_set (o : option BoolOption) (k : bool -> World -> World) (w : World) : World :=
  match o with
  | Some Yes => k true w
  | Some No => k false w
  | Some NotSet | None => w
  end.

Definition opt_image_quality (o : OptionMessage) (w : World) : World :=
  match o_image_quality o with
  | Some q =>
    let image_quality :=
      match q with
      | IQ_NotSet => if 0 <? o_custom_image_quality o then o_custom_image_quality o else -1
      | _ => ImageQuality_value q
      end in
    if 0 <? image_quality then emit (QosImageQuality image_quality) w else w
  | None => w
  end.

(** The audio subscription; a camera connection has audio only in a call. *)
Definition subscribe_audio (w : World) : World :=
  let c := conn w in
  if is_authed_view_camera_conn c then
    if voice_calling c || negb (audio_enabled c) then subscribe_w NAME_AUDIO (audio_enabled c) w else w
  else subscribe_w NAME_AUDIO (audio_enabled c) w.

Definition opt_block_input (o : OptionMessage) (w : World) : World :=
  match o_block_input o with
  | None => w
  | Some q =>
    if keyboard (conn w) && block_input (conn w) then
      match q with
      | Yes => emit (Input BlockOn) w
      | No => emit (Input BlockOff) w
      | NotSet => w
      end
    else
      match q with
      | NotSet => w
      | _ =>
        let state := match q with Yes => BlkOnFailed | _ => BlkOffFailed end in
        match tx (inner (conn w)) with
        | Some _ => send (MMisc (BackBlockInput state "No permission")) w
        | None => w
        end
      end
  end.

Definition opt_privacy_mode (o : OptionMessage) (w : World) : World :=
  if Version.get_version_number (lr_version (lr (conn w))) <? Version.get_version_number "1.2.4" then
    match o_privacy_mode o with
    | Some q =>
      if keyboard (conn w) then
        match q with
        | Yes => turn_on_privacy "" w
        | No => turn_off_privacy "" w
        | NotSet => w
        end
      else w
    | None => w
    end
  else w.

Definition opt_show_my_cursor (e : Env) (on : bool) (w : World) : World :=
  let w := upd (fun c => c <| show_my_cursor := on |>) w in
  if on then
    if whiteboard_supported e then emit WhiteboardOn w
    else send (MMessageBox (mkMessageBox "nook-nocancel-hasclose" "Show my cursor"
           "This feature is not supported on native Wayland, please install XWayland or switch to X11." "")) w
  else if whiteboard_supported e then emit WhiteboardOff w else w.

Definition update_options (e : Env) (o : OptionMessage) (w : World) : World :=
  let w := opt_image_quality o w in
  let w := if 0 <? o_custom_fps o then emit (QosCustomFps (u32 (o_custom_fps o))) w else w in
  let w := match o_supported_decoding o with Some d => emit (EncoderUpdate (Some d)) w | None => w end in
  let w := when_set (o_lock_after_session_end o) (fun b => upd (fun c => c <| lock_after_session_end := b |>)) w in
  let w := when_set (o_show_remote_cursor o) (fun b w =>
    let w := upd (fun c => c <| show_remote_cursor := b |>) w in
    let w := subscribe_w NAME_CURSOR (peer_keyboard_enabled (conn w) || show_remote_cursor (conn w)) w in
    subscribe_w NAME_POS (show_remote_cursor (conn w)) w) w in
  let w := when_set (o_follow_remote_cursor o) (fun b => upd (fun c => c <| follow_remote_cursor := b |>)) w in
  let w := when_set (o_follow_remote_window o) (fun b w =>
    let w := upd (fun c => c <| follow_remote_window := b |>) w in
    subscribe_w NAME_WINDOW_FOCUS (follow_remote_window (conn w)) w) w in
  let w := when_set (o_disable_audio o) (fun b w =>
    subscribe_audio (upd (fun c => c <| disable_audio := b |>) w)) w in
  let w := when_set (o_enable_file_transfer o) (fun b w =>
    let w := upd (fun c => c <| enable_file_transfer := b |>) w in
    let w := if negb (enable_file_transfer (conn w)) then emit EmptyFileClipboard w else w in
    subscribe_w NAME_FILE_CLIPBOARD (can_sub_file_clipboard_service e (conn w)) w) w in
  let w := when_set (o_disable_clipboard o) (fun b w =>
    let w := upd (fun c => c <| disable_clipboard := b |>) w in
    subscribe_w NAME_CLIPBOARD (can_sub_clipboard_service e (conn w)) w) w in
  let w := when_set (o_disable_keyboard o) (fun b w =>
    let w := upd (fun c => c <| disable_keyboard := b |>) w in
    let w := subscribe_w NAME_CLIPBOARD (can_sub_clipboard_service e (conn w)) w in
    let w := subscribe_w NAME_FILE_CLIPBOARD (can_sub_file_clipboard_service e (conn w)) w in
    subscribe_w NAME_CURSOR (peer_keyboard_enabled (conn w) || show_remote_cursor (conn w)) w) w in
  let w := opt_privacy_mode o w in
  let w := opt_block_input o w in
  let w := when_set (o_terminal_persistent o) (fun b w =>
    let w := upd (fun c => c <| terminal_persistent := b |>) w in
    emit (TerminalPersist (terminal_service_id (conn w)) b) w) w in
  when_set (o_show_my_cursor o) (opt_show_my_cursor e) w.

(** ** Granting the login: [send_logon_response] *)

Definition update_codec_on_login (w : World) : World :=
  match lr_option (lr (conn w)) with
  | Some o => match o_supported_decoding o with
              | Some q => emit (EncoderUpdate (Some q)) w
              | None => emit (EncoderUpdate None) w
              end
  | None => emit (EncoderUpdate None) w
  end.

Definition on_remote_authorized (e : Env) (w : World) : World :=
  let w := update_codec_on_login w in
  if Config.option2bool "allow-remove-wallpaper" (get_option e "allow-remove-wallpaper")
  then emit RemoveWallpaper w else w.

Definition init_terminal_service (e : Env) (w : World) : World :=
  match terminal_user_token (conn w) with
  | None => w
  | Some _ =>
    let w := if String.eqb (terminal_service_id (conn w)) ""
             then upd (fun c => c <| terminal_service_id := generate_service_id e |>) w else w in
    let w := emit (TerminalService (terminal_service_id (conn w)) (terminal_persistent (conn w))) w in
    upd (fun c => c <| terminal_generic_service := true |>) w
  end.

Definition auth_conn_type (c : Connection) : AuthConnType :=
  match file_transfer c with
  | Some _ => FileTransfer
  | None =>
    match port_forward_socket c with
    | Some _ => PortForward
    | None => if view_camera c then ViewCamera else if terminal c then Terminal else Remote
    end
  end.

(** [AuthedConnID::new] and the session's receive-time cell. *)
Definition register_authed (w : World) : World :=
  let t := auth_conn_type (conn w) in
  let key := session_key (conn w) in
  let w := updg (fun g => g <| AUTHED_CONNS := AUTHED_CONNS g ++ [mkAuthedConn (id (inner (conn w))) t key] |>) w in
  let w := emit WakeLock w in
  let w := match t with Remote | ViewCamera => emit QosOpen w | _ => w end in
  let w := upd (fun c => c <| authed_conn_id := Some t |>) w in
  upd (fun c => c <| session_last_recv_time := last_recv_time <$> SESSIONS (glob w) !! key |>) w.

(** What follows the answer to the login request: the options that came with
    it and the services the kind of connection uses. *)
Definition start_services (e : Env) (sub_service : bool) (w : World) : World :=
  let w := match options_in_login (conn w) with
           | Some o => update_options e o (upd (fun c => c <| options_in_login := None |>) w)
           | None => w
           end in
  match file_transfer (conn w) with
  | Some (dir, show_hidden) =>
    let dir := if negb (String.eqb dir "") && path_is_dir e dir then dir else "" in
    emit (Files (FileMgr.FoFs (FileMgr.FsReadDir dir show_hidden))) w
  | None =>
    if terminal (conn w) then init_terminal_service e (upd (fun c => c <| keyboard := false |>) w)
    else if view_camera (conn w) then
      let w := try_sub_camera_displays e w in
      let w := upd (fun c => c <| keyboard := false |>) w in
      send_permission Keyboard false w
    else if sub_service then try_sub_monitor_services e w
    else w
  end.

Definition send_logon_response (e : Env) (w : World) : World :=
  if authorized (conn w) then w
  else
    let '(needs_2fa, w) :=
      match require_2fa (conn w) with
      | Some _ =>
        let '(recent, w) := is_recent_session e true w in
        (negb recent && negb (from_switch (conn w)), w)
      | None => (false, w)
      end in
    if needs_2fa then send_login_error e REQUIRE_2FA (emit TelegramCode w)
    else
      let w := upd (fun c => c <| authorized := true |>) w in
      let w := register_authed w in
      let w := emit (ConnAudit "authorized") w in
      match port_forward_socket (conn w) with
      | Some _ => send (MLoginResponse (LrPeerInfo 0)) w
      | None =>
        if is_remote (conn w) && negb (String.eqb (unsupported_display_server e) "") then
          send (MLoginResponse (LrError (unsupported_display_server e) false)) w
        else
          let '(res, sub_service, w) :=
            match file_transfer (conn w), terminal (conn w) with
            | Some _, _ | _, true => (LrPeerInfo 0, false, w)
            | None, false =>
              if view_camera (conn w)
              then (LrPeerInfo PRIMARY_CAMERA_IDX, false, update_codec_on_login w)
              else
                let w := emit ActivateScreen w in
                let '(res, sub) :=
                  match sync_displays e with
                  | Err err => (LrError err false, false)
                  | Ok _ => (LrPeerInfo (display_idx (conn w)), true)
                  end in
                (res, sub, on_remote_authorized e w)
            end in
          start_services e sub_service (send (MLoginResponse res) w)
      end.

(** ** Handing over to the connection manager *)

Definition try_start_cm (peer_id name : string) (authorized_ : bool) (w : World) : World :=
  let c := conn w in
  send_to_cm (Login (mkCmLogin
    (match file_transfer c with Some _ => true | None => false end) (view_camera c) (terminal c)
    (port_forward_address c) peer_id name authorized_ (keyboard c) (clipboard c) (audio c) (file c)
    (restart c) (recording c) (block_input c) (from_switch c))) w.

Definition try_start_cm_ipc (w : World) : World :=
  if start_cm_ipc_para (conn w)
  then emit StartCmIpc (upd (fun c => c <| start_cm_ipc_para := false |>) w)
  else w.

(** ** The login request *)

Definition trusted (e : Env) (r : LoginRequest) : bool :=
  match find (fun d => bool_decide (Config.hwid d = lr_hwid r)) (trusted_devices e) with
  | Some d => negb (Config.outdate (get_time e) d)
              && String.eqb (Config.dev_id d) (lr_my_id r)
              && String.eqb (Config.dev_name d) (lr_my_name r)
              && String.eqb (Config.platform d) (lr_my_platform r)
  | None => false
  end.

Definition handle_login_request_without_validation (e : Env) (r : LoginRequest) (w : World) : World :=
  let w := upd (fun c => c <| lr := r |>) w in
  let w := match lr_option r with
           | Some o => upd (fun c => c <| options_in_login := Some o |>) w
           | None => w
           end in
  let w := if match require_2fa (conn w) with Some _ => true | None => false end
              && negb (bool_decide (lr_hwid r = [])) && enable_trusted_devices e && trusted e r
           then upd (fun c => c <| require_2fa := None |>) w else w in
  upd (fun c => c <| video_ack_required := lr_video_ack_required r |>) w.

Definition check_privacy_mode_on (e : Env) (w : World) : bool * World :=
  if is_in_privacy_mode e
  then (false, send_login_error e "Someone turns on privacy mode, exit" w)
  else (true, w).

(** [fill_terminal_user_token] on Linux. *)
Definition fill_terminal_user_token (w : World) : World :=
  upd (fun c => c <| terminal_user_token := Some SelfUser |>) w.

(** The kind of connection that is asked for; [false] when the request is
    refused and the connection ends. *)
Definition login_kind (e : Env) (r : LoginRequest) (w : World) : bool * World :=
  let cp := control_permissions (conn w) in
  match lr_union r with
  | Some (LFileTransfer dir show_hidden) =>
    if negb (permission e "enable-file-transfer" cp)
    then (false, send_login_error e "No permission of file transfer" w)
    else (true, upd (fun c => c <| file_transfer := Some (dir, show_hidden) |>) w)
  | Some LViewCamera =>
    if negb (permission e "enable-camera" cp)
    then (false, send_login_error e "No permission of viewing camera" w)
    else (true, upd (fun c => c <| view_camera := true |>) w)
  | Some (LTerminal service_id) =>
    if negb (permission e "enable-terminal" cp)
    then (false, send_login_error e "No permission of terminal" w)
    else
      let w := upd (fun c => c <| terminal := true |>) w in
      let w := match options_in_login (conn w) with
               | Some o => upd (fun c => c <| terminal_persistent := bool_decide (o_terminal_persistent o = Some Yes) |>) w
               | None => w
               end in
      let w := upd (fun c => c <| terminal_service_id := service_id |>) w in
      let w := fill_terminal_user_token w in
      match is_service_specified_user e (terminal_service_id (conn w)) with
      | Some is_user =>
        match terminal_user_token (conn w) with
        | Some token =>
          let has_service_token := match to_terminal_service_token token with Some _ => true | None => false end in
          if negb (Bool.eqb is_user has_service_token)
          then (false, send_login_error e "Terminal service user mismatch detected." w)
          else (true, w)
        | None => (true, w)
        end
      | None => (true, w)
      end
  | Some (LPortForward pf) =>
    if negb (permission e "enable-tunnel" cp)
    then (false, send_login_error e "No permission of IP tunneling" w)
    else
      let is_rdp := String.eqb (pf_host pf) "RDP" && (pf_port pf =? 0) in
      let host := if is_rdp then "localhost" else pf_host pf in
      let port := if is_rdp then 3389 else pf_port pf in
      let host := if String.eqb host "" then "localhost" else host in
      let addr := host +:+ ":" +:+ show port in
      let w := upd (fun c => c <| port_forward_address := addr |>) w in
      if tcp_connect e addr
      then (true, upd (fun c => c <| port_forward_socket := Some addr |>) w)
      else
        let addr := if is_rdp then "RDP" else addr in
        (false, send_login_error e ("Failed to access remote " +:+ addr +:+ ", please make sure if it is open") w)
  | None => check_privacy_mode_on e w
  end.

(** Only a click on the controlled side can let the peer in. *)
Definition click_only (e : Env) : bool :=
  (bool_decide (Config.approve_mode (get_option e) = Config.Click)
   && negb (String.eqb (get_builtin_option e "allow-logon-screen-password") "Y" && is_logon e))
  || (bool_decide (Config.approve_mode (get_option e) = Config.Both)
      && negb (Config.has_valid_password (get_option e) (temporary_password e) (permanent_password e))).

(** The password attempt, after the desktop session was prepared with
    [err_msg] as its result. *)
Definition login_password (e : Env) (r : LoginRequest) (err_msg : string) (w : World) : bool * World :=
  let ready := String.eqb err_msg "" in
  let '(failure, res, w) := check_failure_w e 0 w in
  if negb res then (true, w)
  else
    let '(valid, w) := validate_password e w in
    if negb valid then
      let w := update_failure_w e failure false 0 w in
      if ready then
        let w := send_login_error e LOGIN_MSG_PASSWORD_WRONG w in
        (true, try_start_cm (lr_my_id r) (lr_my_name r) false w)
      else (true, send_login_error e LOGIN_MSG_DESKTOP_SESSION_NOT_READY_PASSWORD_WRONG w)
    else
      let w := update_failure_w e failure true 0 w in
      if ready then
        let w := send_logon_response e w in
        (true, try_start_cm (lr_my_id r) (lr_my_name r) (authorized (conn w)) w)
      else (true, send_login_error e err_msg w).

Definition on_login_request (e : Env) (r : LoginRequest) (w : World) : bool * World :=
  let w := handle_login_request_without_validation e r w in
  if authorized (conn w) then (true, w)
  else
    let '(go_on, w) := login_kind e r w in
    if negb go_on then (false, w)
    else
      let w := try_start_cm_ipc w in
      let err_msg := try_start_desktop e (lr_os_login r) in
      let ready := String.eqb err_msg "" in
      if negb ready && negb (String.eqb err_msg LOGIN_MSG_DESKTOP_SESSION_NOT_READY)
      then (true, send_login_error e err_msg w)
      else if negb (is_ip_str e (lr_username r)) && negb (is_domain_port_str e (lr_username r))
              && negb (bool_decide (Config.str_bytes (lr_username r) = get_id e))
      then (false, send_login_error e LOGIN_MSG_OFFLINE w)
      else if click_only e then
        let w := try_start_cm (lr_my_id r) (lr_my_name r) false w in
        let w := if Version.get_version_number "1.2.0" <=? Version.get_version_number (lr_version r)
                 then send_login_error e LOGIN_MSG_NO_PASSWORD_ACCESS w else w in
        (true, w)
      else
        let '(recent, w) := is_recent_session e false w in
        if recent then
          if ready then
            let w := send_logon_response e w in
            (true, try_start_cm (lr_my_id r) (lr_my_name r) (authorized (conn w)) w)
          else (true, send_login_error e err_msg w)
        else if bool_decide (lr_password r = []) then
          if ready then (true, try_start_cm (lr_my_id r) (lr_my_name r) false w)
          else (true, send_login_error e LOGIN_MSG_DESKTOP_SESSION_NOT_READY_PASSWORD_EMPTY w)
        else login_password e r err_msg w.

(** ** The second factor *)

Definition on_auth_2fa (e : Env) (code : string) (hwid : list Z) (w : World) : bool * World :=
  let '(failure, res, w) := check_failure_w e 1 w in
  if negb res then (true, w)
  else
    match require_2fa (conn w) with
    | None => (true, w)
    | Some totp =>
      match totp_check e totp code (get_time e) with
      | None => (true, w)
      | Some true =>
        let w := update_failure_w e failure true 1 w in
        let w := upd (fun c => c <| require_2fa := None |>) w in
        let w := updg (set_session_2fa e (session_key (conn w))) w in
        let w := send_logon_response e w in
        let w := try_start_cm (lr_my_id (lr (conn w))) (lr_my_name (lr (conn w))) (authorized (conn w)) w in
        let l := lr (conn w) in
        let w := if negb (bool_decide (hwid = [])) && enable_trusted_devices e
                 then emit (AddTrustedDevice (Config.mkDevice hwid (get_time e) (lr_my_id l) (lr_my_name l)
                                                (lr_my_platform l))) w
                 else w in
        (true, w)
      | Some false =>
        let w := update_failure_w e failure false 1 w in
        (true, send_login_error e LOGIN_MSG_2FA_WRONG w)
      end
    end.

(** ** Switching sides *)

Definition insert_switch_sides_uuid (e : Env) (peer : string) (uuid : list Z) (g : Global) : Global :=
  g <| SWITCH_SIDES_UUID := <[ peer := (now e, uuid) ]> (SWITCH_SIDES_UUID g) |>.

Definition on_switch_sides_response (e : Env) (uuid : list Z) (r : option LoginRequest) (w : World)
  : bool * World :=
  match r with
  | None => (true, w)
  | Some r =>
    let w := handle_login_request_without_validation e r w in
    let w := updg (fun g => g <| SWITCH_SIDES_UUID :=
                     filter (fun kv => now e - kv.2.1 < 10000) (SWITCH_SIDES_UUID g) |>) w in
    let uuid_old := SWITCH_SIDES_UUID (glob w) !! lr_my_id r in
    let w := updg (fun g => g <| SWITCH_SIDES_UUID := delete (lr_my_id r) (SWITCH_SIDES_UUID g) |>) w in
    match uuid_from_slice e uuid, uuid_old with
    | Some u, Some (_, old) =>
      if bool_decide (u = old) then
        let w := upd (fun c => c <| from_switch := true |>) w in
        let w := send_logon_response e w in
        let w := try_start_cm (lr_my_id r) (lr_my_name r) (authorized (conn w)) w in
        (true, try_start_cm_ipc w)
      else (true, w)
    | _, _ => (true, w)
    end
  end.

(** ** Network delay *)

Definition on_test_delay (e : Env) (t : TestDelay) (w : World) : bool * World :=
  if td_from_client t then (true, emit (Video (MTestDelay t)) w)
  else
    match last_test_delay (conn w) with
    | Some tm =>
      let w := upd (fun c => c <| last_test_delay := None |>) w in
      let new_delay := u32 (now e - tm) in
      let w := emit (QosDelay new_delay) w in
      (true, upd (fun c => c <| network_delay := new_delay |>) w)
    | None => (true, w)
    end.

(** ** Closing *)

Definition on_close (lock : bool) (w : World) : World :=
  if closed (conn w) then w
  else
    let w := upd (fun c => c <| closed := true |>) w in
    let w := emit (VoiceInputDevice false) w in
    let w := if lock && lock_after_session_end (conn w) && keyboard (conn w) then emit LockScreen w else w in
    let w := send_to_cm (if chat_unanswered (conn w) || FileMgr.file_transferred (fm (conn w)) then CmDisconnected else CmClose) w in
    upd (fun c => c <| port_forward_socket := None |>) w.

Definition send_close_reason_no_retry (reason : string) (w : World) : World :=
  let reason := if String.eqb reason "" then "Closed manually by the peer" else reason in
  let w := send (MMisc (CloseReason reason)) w in
  updg (check_remove_session (id (inner (conn w))) (session_key (conn w))) w.

Definition on_close_reason (w : World) : bool * World :=
  let w := on_close true w in
  (false, updg (check_remove_session (id (inner (conn w))) (session_key (conn w))) w).

(** ** Displays *)

Definition refresh_video_display (display : option Z) (w : World) : World :=
  let w := emit RefreshVideoEffect w in
  on_server (set_video_service_opt ((fun d => (video_source (conn w), d)) <$> display) "refresh"
               SERVICE_OPTION_VALUE_TRUE) w.

Definition change_resolution (e : Env) (d : option Z) (width height : Z) (w : World) : World :=
  if keyboard (conn w) then
    let display_idx := unwrap_or (display_idx (conn w)) d in
    if display_exists e display_idx then emit (ChangeResolutionEffect display_idx width height) w else w
  else w.

Definition MIN_VER_MULTI_UI_SESSION : string := "1.2.4".
Definition is_support_multi_ui_session (ver : string) : bool :=
  Version.get_version_number MIN_VER_MULTI_UI_SESSION <=? Version.get_version_number ver.

Definition switch_display_to (e : Env) (display : Z) (w : World) : World :=
  let src := video_source (conn w) in
  let new_service_name := get_service_name src display in
  let old_service_name := get_service_name src (display_idx (conn w)) in
  let w := on_server (fun s =>
             if negb (display =? primary_display e) && negb (contains new_service_name s)
             then add_service (new_video_service src display) s else s) w in
  let w := if negb (is_support_multi_ui_session (lr_version (lr (conn w))))
           then subscribe_w old_service_name false w else w in
  let w := subscribe_w new_service_name true w in
  upd (fun c => c <| display_idx := display |>) w.

Definition handle_switch_display (e : Env) (s : SwitchDisplay) (w : World) : World :=
  let display := u64 (sd_display s) in
  if negb (display_idx (conn w) =? display) then
    let w := switch_display_to e display w in
    let w := if negb (sd_width s =? 0) && negb (sd_height s =? 0)
             then change_resolution e None (sd_width s) (sd_height s) w else w in
    emit (DisplayChanged (display_idx (conn w))) w
  else w.

Definition ensure_video_services (src : VideoSource) (displays : list Z) (s : Server) : Server :=
  fold_left (fun s d => if negb (contains (get_service_name src d) s)
                        then add_service (new_video_service src d) s else s) displays s.

Definition capture_displays (add sub set_ : list Z) (w : World) : World :=
  let src := video_source (conn w) in
  let w := on_server (ensure_video_services src add) w in
  let w := on_server (ensure_video_services src set_) w in
  let ci := inner (conn w) in
  let w := on_server (fun s =>
    match add, sub with
    | _ :: _, _ => Server.capture_displays ci src add true false s
    | [], _ :: _ => Server.capture_displays ci src sub false true s
    | [], [] => Server.capture_displays ci src set_ true true s
    end) w in
  let w := upd (fun c => c <| multi_ui_session := 1 <? get_subbed_displays_count (id ci) (server (glob w)) |>) w in
  if follow_remote_window (conn w)
  then subscribe_w NAME_WINDOW_FOCUS (negb (multi_ui_session (conn w))) w
  else w.

(** ** Voice calls *)

Definition handle_voice_call (e : Env) (accepted : bool) (w : World) : World :=
  match voice_call_request_timestamp (conn w) with
  | Some ts =>
    let w := upd (fun c => c <| voice_call_request_timestamp := None |>) w in
    let w := if accepted then send_to_cm StartVoiceCall (emit (VoiceInputDevice true) w)
             else send_to_cm CloseVoiceCall w in
    let w := send (MVoiceCallResponse accepted ts (get_time e)) w in
    let w := upd (fun c => c <| voice_calling := accepted |>) w in
    if is_authed_view_camera_conn (conn w)
    then subscribe_w NAME_AUDIO (audio_enabled (conn w) && accepted) w else w
  | None => w
  end.

Definition close_voice_call (w : World) : World :=
  let w := emit (VoiceInputDevice false) w in
  let w := send_to_cm CloseVoiceCall w in
  let w := upd (fun c => c <| voice_calling := false |>) w in
  if is_authed_view_camera_conn (conn w) then subscribe_w NAME_AUDIO false w else w.

(** ** Input events *)

Definition MOUSE_TYPE_MASK : Z := 7.
Definition MOUSE_TYPE_UP : Z := 2.
Definition MOUSE_BUTTON_LEFT : Z := 1.

Definition is_left_up (m : MouseEvent) : bool :=
  (Z.shiftr (me_mask m) 3 =? MOUSE_BUTTON_LEFT) && (Z.land (me_mask m) MOUSE_TYPE_MASK =? MOUSE_TYPE_UP).

(** [ControlKey] values: Alt, Control, Meta, Shift, RWin, RShift, RControl, RAlt. *)
Definition is_modifier (k : KeyEvent) : bool :=
  match k_union k with
  | Some (ControlKey v) => existsb (Z.eqb v) [1; 29; 4; 23; 75; 73; 74; 64]
  | _ => false
  end.

(** [ControlKey::Return] and [NumpadEnter] *)
Definition is_enter (k : KeyEvent) : bool :=
  match k_union k with Some (ControlKey v) => (v =? 27) || (v =? 72) | _ => false end.

Definition on_mouse_event (e : Env) (m : MouseEvent) (w : World) : bool * World :=
  if is_authed_view_camera_conn (conn w) then (true, w)
  else
    let w :=
      if peer_keyboard_enabled (conn w) then
        let w := emit (if is_left_up m then ClickTime else MouseMoveTime) w in
        emit (Input (Mouse m true (show_my_cursor (conn w)))) w
      else if show_my_cursor (conn w) then emit (Input (Mouse m false true)) w
      else w in
    (true, update_auto_disconnect_timer e w).

Definition on_pointer_event (e : Env) (payload : Z) (w : World) : bool * World :=
  if is_authed_view_camera_conn (conn w) then (true, w)
  else
    let w := if peer_keyboard_enabled (conn w)
             then emit (Input (Pointer payload)) (emit MouseMoveTime w) else w in
    (true, update_auto_disconnect_timer e w).

(** [me.chr()] of an event whose union is something else is 0. *)
Definition key_chr (k : KeyEvent) : Z := match k_union k with Some (Chr c) => c | _ => 0 end.

Definition modifier_key (e : Env) (k : KeyEvent) : option Z :=
  match k_mode k with
  | Some Map => rdev_modifier e (key_chr k)
  | Some Translate => match k_union k with
                      | Some (Chr code) => rdev_modifier e (Z.land code 65535)
                      | _ => None
                      end
  | _ => None
  end.

Definition on_key_event (e : Env) (k : KeyEvent) (w : World) : bool * World :=
  if is_authed_view_camera_conn (conn w) then (true, w)
  else
    let w :=
      if peer_keyboard_enabled (conn w) then
        let w := if is_enter k then emit ClickTime w else w in
        let w := emit MouseMoveTime w in
        let key := modifier_key e k in
        let is_press := (k_press k || k_down k)
                        && negb (is_modifier k || match key with Some _ => true | None => false end) in
        let w := match key with
                 | Some m => upd (fun c => c <| pressed_modifiers :=
                               if is_press then {[ m ]} ∪ pressed_modifiers c
                               else pressed_modifiers c ∖ {[ m ]} |>) w
                 | None => w
                 end in
        if is_press then
          match k_union k with
          | Some (Unicode _) | Some (Seq _) => emit (Input (Key k false)) w
          | _ => emit (Input (Key k true)) w
          end
        else emit (Input (Key k false)) w
      else w in
    (true, update_auto_disconnect_timer e w).

(** ** [Misc] messages of an authorized peer *)

Definition on_misc (e : Env) (m : Misc) (w : World) : bool * World :=
  match m with
  | MSwitchDisplay s => (true, handle_switch_display e s w)
  | CaptureDisplays add sub set_ => (true, capture_displays (map u64 add) (map u64 sub) (map u64 set_) w)
  | TogglePrivacyMode impl_key on =>
    (true, if on then turn_on_privacy impl_key w else turn_off_privacy impl_key w)
  | ChatMessage text =>
    let w := send_to_cm (CmChatMessage text) w in
    let w := upd (fun c => c <| chat_unanswered := true |>) w in
    (true, update_auto_disconnect_timer e w)
  | Option o => (true, update_options e o w)
  | RefreshVideo r =>
    let w := if r then refresh_video_display None w else w in
    (true, update_auto_disconnect_timer e w)
  | RefreshVideoDisplay d =>
    (true, update_auto_disconnect_timer e (refresh_video_display (Some (u64 d)) w))
  | VideoReceived => (true, emit VideoFetched w)
  | RestartRemoteDevice =>
    (true, if restart (conn w) then emit Reboot (emit ForceReboot w) else w)
  | AudioFormat rate channels =>
    if negb (disable_audio (conn w)) then
      let w := emit AudioThread (upd (fun c => c <| audio_sender := true |>) w) in
      (true, emit (AudioFormatTo rate channels) w)
    else (true, w)
  | SwitchSidesRequest uuid =>
    match uuid_from_slice e uuid with
    | Some u => (false, on_close false (emit (RunConnect (lr_my_id (lr (conn w))) u) w))
    | None => (true, w)
    end
  | ChangeResolution width height => (true, change_resolution e None width height w)
  | ChangeDisplayResolution d width height => (true, change_resolution e (Some (u64 d)) width height w)
  | AutoAdjustFps fps => (true, emit (QosAutoFps fps) w)
  | ClientRecordStatus status => (true, emit (QosRecord status) w)
  | MessageQuery d => (true, emit (DisplayChanged (u64 d)) w)
  | CloseReason _ | PermissionInfo _ _ | BackPrivacyMode _ _ _ | BackBlockInput _ _ | StopService
  | SwitchBack | FollowCurrentDisplay _ | MiscOther _ => (true, w)
  end.

(** ** Files *)

Definition emit_all (l : list Effect) (w : World) : World := w <| out := out w ++ l |>.

(** The surroundings of the file manager: on Linux the connection reads files
    itself ([need_fs_cm_send_files]). *)
Definition fm_env (e : Env) (c : Connection) : FileMgr.FmEnv :=
  FileMgr.mkFmEnv (now e) (id (inner c)) (fs_disk e) (fs_list e) false
    (String.eqb (get_builtin_option e "one-way-file-transfer") "Y")
    (FileMgr.get_max_validated_files (get_builtin_option e "file-transfer-max-files"))
    (lr_version (lr c)).

(** The result of a file handler; a panic ends the process. *)
Definition after_files (r : outcome (list FileMgr.FmOut * FileMgr.Fm)) (w : World) : bool * World :=
  match r with
  | Done (outs, s) => (true, emit_all (map Files outs) (upd (fun c => c <| fm := s |>) w))
  | Panic => (false, emit Panicked w)
  end.

Definition on_file_action (e : Env) (a : FileAction) (w : World) : bool * World :=
  let c := conn w in
  after_files (FileMgr.on_file_action (fm_env e c)
                 match file_transfer c with Some _ => true | None => false end a (fm c)) w.

Definition is_support_file_copy_paste (ver : string) : bool :=
  Version.get_version_number "1.3.8" <=? Version.get_version_number ver.

Definition on_cliprdr (e : Env) (clip : Cliprdr) (w : World) : bool * World :=
  match ClipMsg.on_cliprdr (U := utf16 e) (clip_disk e) (metadata_len e) (mount_ok e) (now e) (stream_id e)
          (is_support_file_copy_paste (lr_version (lr (conn w)))) clip (id (inner (conn w)))
          (clip_state (glob w)) with
  | Done (outs, s) => (true, emit_all (map FileClipboard outs) (updg (fun g => g <| clip_state := s |>) w))
  | Panic => (false, emit Panicked w)
  end.

(** The messages of an authorized peer; terminal actions are handed to the
    terminal service. *)
Definition on_authorized_message (e : Env) (m : Message) (w : World) : bool * World :=
  match m with
  | MMouseEvent me => on_mouse_event e me w
  | MPointerDeviceEvent p => on_pointer_event e p w
  | MKeyEvent k => on_key_event e k w
  | MClipboard content =>
    (true, if clipboard (conn w) then emit (UpdateClipboard [content]) w else w)
  | MMultiClipboards contents =>
    (true, if clipboard (conn w) then emit (UpdateClipboard contents) w else w)
  | MCliprdr c => on_cliprdr e c w
  | MFileAction a => on_file_action e a w
  | MFileResponse r => (true, emit_all (map Files (FileMgr.on_file_response r)) w)
  | MMisc m => on_misc e m w
  | MAudioFrame data =>
    (true, if negb (disable_audio (conn w)) && audio_sender (conn w) then emit (AudioFrameTo data) w else w)
  | MVoiceCallRequest ts is_connect =>
    if is_connect then
      let ts := if ts =? 0 then get_time e else ts in
      (true, send_to_cm VoiceCallIncoming (upd (fun c => c <| voice_call_request_timestamp := Some ts |>) w))
    else (true, close_voice_call w)
  | MScreenshotRequest display sid =>
    match tx (inner (conn w)) with
    | Some _ => (true, refresh_video_display (Some (u64 display)) (emit (Screenshot (u64 display)) w))
    | None => (true, w)
    end
  | MTerminalAction i p =>
    match terminal_user_token (conn w) with
    | Some _ => (true, emit (TerminalRequest i p) w)
    | None => (true, w)
    end
  | _ => (true, w)
  end.

(** ** [on_message]: [false] ends the connection *)

Definition on_message (e : Env) (m : Message) (w : World) : bool * World :=
  match m with
  | MMisc (CloseReason _) => on_close_reason w
  | MLoginRequest r => on_login_request e r w
  | MAuth2fa code hwid => on_auth_2fa e code hwid w
  | MTestDelay t => on_test_delay e t w
  | MSwitchSidesResponse uuid r => on_switch_sides_response e uuid r w
  | _ =>
    if authorized (conn w) then
      match port_forward_socket (conn w) with
      | Some _ => (true, w)
      | None => on_authorized_message e m w
      end
    else (true, w)
  end.

(** ** Orders of the connection manager *)

Inductive CmOrder : Type :=
| Authorize
| Close
| CmErr (err : string)
| FromCmChat (text : string)
| SwitchPermission (name : string) (enabled : bool)
| SwitchSidesBack
| VoiceCallResponse (accepted : bool)
| FromCmCloseVoiceCall.

Definition switch_permission (e : Env) (name : string) (enabled : bool) (w : World) : World :=
  if String.eqb name "keyboard" then
    let w := upd (fun c => c <| keyboard := enabled |>) w in
    let w := send_permission Keyboard enabled w in
    let w := subscribe_w NAME_CLIPBOARD (can_sub_clipboard_service e (conn w)) w in
    let w := subscribe_w NAME_FILE_CLIPBOARD (can_sub_file_clipboard_service e (conn w)) w in
    subscribe_w NAME_CURSOR (enabled || show_remote_cursor (conn w)) w
  else if String.eqb name "clipboard" then
    let w := upd (fun c => c <| clipboard := enabled |>) w in
    let w := send_permission Clipboard enabled w in
    subscribe_w NAME_CLIPBOARD (can_sub_clipboard_service e (conn w)) w
  else if String.eqb name "audio" then
    let w := upd (fun c => c <| audio := enabled |>) w in
    let w := send_permission Audio enabled w in
    if authorized (conn w) then subscribe_audio w else w
  else if String.eqb name "file" then
    let w := upd (fun c => c <| file := enabled |>) w in
    let w := send_permission File enabled w in
    let w := if negb enabled then emit EmptyFileClipboard w else w in
    subscribe_w NAME_FILE_CLIPBOARD (can_sub_file_clipboard_service e (conn w)) w
  else if String.eqb name "restart" then
    send_permission Restart enabled (upd (fun c => c <| restart := enabled |>) w)
  else if String.eqb name "recording" then
    send_permission Recording enabled (upd (fun c => c <| recording := enabled |>) w)
  else if String.eqb name "block_input" then
    send_permission BlockInput enabled (upd (fun c => c <| block_input := enabled |>) w)
  else w.

Definition on_cm (e : Env) (o : CmOrder) (w : World) : bool * World :=
  match o with
  | Authorize =>
    let w := upd (fun c => c <| require_2fa := None |>) w in
    let w := send_logon_response e w in
    (match port_forward_socket (conn w) with Some _ => false | None => true end, w)
  | Close =>
    let w := upd (fun c => c <| chat_unanswered := false |> <| fm := FileMgr.with_transferred false (fm c) |>) w in
    let w := send_close_reason_no_retry "" w in
    (false, on_close true w)
  | CmErr err =>
    if negb (String.eqb err "expected") then (false, on_close false w) else (true, w)
  | FromCmChat text =>
    let w := send (MMisc (ChatMessage text)) w in
    (true, upd (fun c => c <| chat_unanswered := false |>) w)
  | SwitchPermission name enabled => (true, switch_permission e name enabled w)
  | SwitchSidesBack => (true, send (MMisc SwitchBack) w)
  | VoiceCallResponse accepted => (true, handle_voice_call e accepted w)
  | FromCmCloseVoiceCall =>
    let w := close_voice_call w in
    (true, send (MVoiceCallRequest (get_time e) false) w)
  end.

(** ** The receive branch of the connection loop *)

Definition on_recv (e : Env) (m : Message) (w : World) : bool * World :=
  let w := match session_last_recv_time (conn w) with
           | Some cell => updg (fun g => g <| cells := <[ cell := now e ]> (cells g) |>) w
           | None => w
           end in
  let '(go_on, w) := on_message e m w in
  if negb go_on then (false, w)
  else
    let forwarding := match port_forward_socket (conn w) with Some _ => true | None => false end in
    (negb (forwarding && authorized (conn w)
           && match last_test_delay (conn w) with None => true | Some _ => false end), w).

(** A new connection: [Connection::start] up to the loop. *)
Definition new_connection (e : Env) (ci : ConnInner) (salt challenge : list Z) (twofa : option string)
  (cp : option Z) : Connection :=
  {| inner := ci; display_idx := primary_display e; salt := salt; challenge := challenge;
     file_transfer := None; view_camera := false; terminal := false; port_forward_socket := None;
     port_forward_address := ""; authorized := false; require_2fa := twofa;
     keyboard := permission e "enable-keyboard" cp; clipboard := permission e "enable-clipboard" cp;
     audio := permission e "enable-audio" cp; file := permission e "enable-file-transfer" cp;
     restart := permission e "enable-remote-restart" cp;
     recording := permission e "enable-record-session" cp;
     block_input := permission e "enable-block-input" cp; control_permissions := cp;
     last_test_delay := None; network_delay := 0; lock_after_session_end := false;
     show_remote_cursor := false; follow_remote_cursor := false; follow_remote_window := false;
     multi_ui_session := false; ip := None; disable_keyboard := false; show_my_cursor := false;
     disable_clipboard := false; disable_audio := false; enable_file_transfer := false;
     audio_sender := false; video_ack_required := false; lr := default_lr;
     session_last_recv_time := None; chat_unanswered := false; fm := FileMgr.mkFm [] None [] ∅ (FileMgr.mkRemoveLog (now e) [] []) false;
     from_switch := false; voice_call_request_timestamp := None; voice_calling := false;
     options_in_login := None; pressed_modifiers := ∅; closed := false; start_cm_ipc_para := true;
     auto_disconnect_timer := None; authed_conn_id := None; services_subed := false;
     terminal_service_id := ""; terminal_persistent := false; terminal_user_token := None;
     terminal_generic_service := false |}.

(** Everything that can happen to an open connection: a message of the peer, an
    order of the connection manager, or another task changing the shared
    state. *)
Inductive Event : Type :=
| EPeer (m : Message)
| ECm (o : CmOrder)
| EGlobal (g : Global).

Definition step (e : Env) (ev : Event) (w : World) : World :=
  match ev with
  | EPeer m => snd (on_recv e m w)
  | ECm o => snd (on_cm e o w)
  | EGlobal g => w <| glob := g |>
  end.

End Conn.
