(* ===== verification/LoginLimits.v ===== *)
(** * How often a peer may guess ([check_failure] and [update_failure])

    The failure counters of [Conn], run over sequences of wrong attempts: the
    bounds that hold when attempts are made one after the other, and what the
    two separate lock acquisitions of an attempt allow when they are not. *)

From S2P Require Import Prelude RustStr Connection.

Module Limits.

Import Conn.

(** A wrong attempt: from an address, in a minute. *)
Abbreviation Attempt := (option IpAddr * Z)%type.

(** One attempt as [on_message] makes it: check, and if allowed (the password
    was wrong) count it. *)
Definition attempt (a : Attempt) (m : Failures) : bool * Failures :=
  match check_failure a.1 a.2 m with
  | (f, None) => (true, update_failure a.1 f a.2 false m)
  | (_, Some _) => (false, m)
  end.

(** How many of the attempts of interest get as far as the password check. *)
Fixpoint tried (P : Attempt -> bool) (l : list Attempt) (m : Failures) : Z :=
  match l with
  | [] => 0
  | a :: l =>
    let '(ok, m') := attempt a m in
    (if ok && P a then 1 else 0) + tried P l m'
  end.

Definition run_attempts (l : list Attempt) (m : Failures) : Failures :=
  fold_left (fun m a => snd (attempt a m)) l m.

(** ** A counter that blocks at a limit bounds the number of attempts *)

Section Counter.
Context (P : Attempt -> bool) (mu : Failures -> Z) (L : Z) (Q : Attempt -> Prop).
Context (HL : 0 <= L < 1000).
(** An allowed attempt of interest finds the counter at most [L] and raises it;
    another attempt leaves it alone. *)
Context (Hinc : forall a m, Q a -> P a = true -> fst (attempt a m) = true ->
                 0 <= mu m -> mu m <= L /\ mu (snd (attempt a m)) = mu m + 1).
Context (Hkeep : forall a m, Q a -> fst (attempt a m) = false \/ P a = false ->
                 mu (snd (attempt a m)) = mu m).

Lemma tried_bound l m :
  Forall Q l -> 0 <= mu m <= L + 1 -> tried P l m <= L + 1 - mu m.
Proof using HL Hinc Hkeep.
  intros Hq. revert m. induction Hq as [|a l Ha Hq IH]; intros m Hm; cbn [tried]; [lia|].
  specialize (Hinc a m Ha). specialize (Hkeep a m Ha).
  destruct (attempt a m) as [ok m'] eqn:E. cbn [fst snd] in *.
  destruct (ok && P a) eqn:Eb.
  - apply andb_true_iff in Eb as [-> HP]. destruct (Hinc HP eq_refl ltac:(lia)) as [H1 H2].
    specialize (IH m' ltac:(lia)). lia.
  - assert (mu m' = mu m) as Hmu.
    { apply Hkeep. apply andb_false_iff in Eb. naive_solver. }
    specialize (IH m' ltac:(lia)). lia.
Qed.
End Counter.

(** ** The counters of an address and of a prefix *)

Lemma failure_of_insert_eq k f (m : Failures) : failure_of k (<[ k := f ]> m) = f.
Proof. unfold failure_of. by rewrite lookup_insert_eq. Qed.

Lemma failure_of_insert_ne k k' f (m : Failures) : k <> k' -> failure_of k (<[ k' := f ]> m) = failure_of k m.
Proof. intros. unfold failure_of. by rewrite lookup_insert_ne. Qed.

Lemma attempt_allowed a m :
  fst (attempt a m) = true ->
  check_failure a.1 a.2 m = (failure_of (KIp a.1) m, None)
  /\ snd (attempt a m) = update_failure a.1 (failure_of (KIp a.1) m) a.2 false m
  /\ (let '(t, n, total) := failure_of (KIp a.1) m in total <= 30 /\ ~ (a.2 = t /\ 6 < n)).
Proof.
  unfold attempt. destruct (check_failure a.1 a.2 m) as [f [p|]] eqn:E; [done|]. intros _.
  unfold check_failure in E.
  destruct (match get_ipv6_prefixes a.1 with Some _ => _ | None => None end) as [[[? ?] ?]|]; [done|].
  destruct (failure_of (KIp a.1) m) as [[t n] total] eqn:Ef.
  destruct (30 <? total) eqn:E1; [done|]. destruct ((a.2 =? t) && (6 <? n)) eqn:E2; [done|].
  assert (f = (t, n, total)) as -> by congruence. split; [done|]. split; [done|].
  split; [by apply Z.ltb_ge|]. intros [Heq Hn]. rewrite Heq, Z.eqb_refl in E2. cbn in E2. apply Z.ltb_ge in E2. lia.
Qed.

Lemma attempt_blocked a m : fst (attempt a m) = false -> snd (attempt a m) = m.
Proof. unfold attempt. by destruct (check_failure a.1 a.2 m) as [f [p|]]. Qed.

Lemma update_failure_ip x ip f t m :
  failure_of (KIp x) (update_failure ip f t false m) =
  if bool_decide (ip = x) then bump f t else failure_of (KIp x) m.
Proof.
  unfold update_failure. case_bool_decide as Hx.
  - subst x. destruct (get_ipv6_prefixes ip) as [[[? ?] ?]|]; apply failure_of_insert_eq.
  - destruct ip as [[a|a]|]; cbn [get_ipv6_prefixes];
      rewrite failure_of_insert_ne by congruence; [done| |done].
    by rewrite !failure_of_insert_ne by congruence.
Qed.

Lemma update_failure_prefix p x f t m :
  failure_of (KPrefix p 64) (update_failure x f t false m) =
  match x with
  | Some (V6 b) => if bool_decide (mask_u128 b 64 = p) then bump (failure_of (KPrefix p 64) m) t
                   else failure_of (KPrefix p 64) m
  | _ => failure_of (KPrefix p 64) m
  end.
Proof.
  unfold update_failure. destruct x as [[b|b]|]; cbn [get_ipv6_prefixes];
    rewrite failure_of_insert_ne by congruence; [done| |done].
  rewrite !(failure_of_insert_ne (KPrefix p 64) (KPrefix _ 48)),
          !(failure_of_insert_ne (KPrefix p 64) (KPrefix _ 56)) by congruence.
  case_bool_decide as Hp; [subst p; by rewrite failure_of_insert_eq|].
  by rewrite failure_of_insert_ne by congruence.
Qed.

Lemma bump_total f t : 0 <= snd f < 1000 -> snd (bump f t) = snd f + 1.
Proof.
  destruct f as [[t0 n] total]. cbn [snd]. intros H. unfold bump.
  destruct (t0 =? t); cbn [snd]; apply swrap_small; cbn; lia.
Qed.

(** Failures counted in minute [t]. *)
Definition in_minute (t : Z) (f : Failure) : Z := let '(t0, n, _) := f in if t0 =? t then n else 0.

Lemma bump_in_minute f t : 0 <= in_minute t f < 1000 -> in_minute t (bump f t) = in_minute t f + 1.
Proof.
  destruct f as [[t0 n] total]. unfold in_minute, bump.
  destruct (t0 =? t) eqn:E; intros H.
  - rewrite E. apply swrap_small; cbn; lia.
  - by rewrite Z.eqb_refl.
Qed.

(** *** The three bounds *)

Definition from (x : option IpAddr) (a : Attempt) : bool := bool_decide (a.1 = x).

Lemma tried_ip_bound x l m :
  0 <= snd (failure_of (KIp x) m) <= 31 -> tried (from x) l m <= 31 - snd (failure_of (KIp x) m).
Proof.
  intros Hm.
  apply (tried_bound (from x) (fun m => snd (failure_of (KIp x) m)) 30 (fun _ => True)); try lia.
  - clear. intros a m _ HP Hok Hnn. unfold from in HP. apply bool_decide_eq_true in HP as <-.
    destruct (attempt_allowed a m Hok) as (_ & -> & Hlim).
    destruct (failure_of (KIp a.1) m) as [[t n] total] eqn:E. cbn [snd] in *. destruct Hlim as [Hlim _].
    rewrite update_failure_ip, bool_decide_true by done.
    rewrite bump_total by (cbn [snd]; lia). cbn [snd]. lia.
  - clear. intros a m _ Hor. destruct (fst (attempt a m)) eqn:E.
    + destruct Hor as [?|HP]; [done|]. unfold from in HP.
      destruct (attempt_allowed a m E) as (_ & -> & _). by rewrite update_failure_ip, HP.
    + by rewrite attempt_blocked.
  - by apply Forall_forall.
Qed.

Lemma tried_minute_bound x t l m :
  Forall (fun a => a.2 = t) l -> 0 <= in_minute t (failure_of (KIp x) m) <= 7 ->
  tried (from x) l m <= 7.
Proof.
  intros Hl Hm. transitivity (7 - in_minute t (failure_of (KIp x) m)); [|lia].
  apply (tried_bound (from x) (fun m => in_minute t (failure_of (KIp x) m)) 6 (fun a => a.2 = t)); try lia.
  - clear. intros a m Ht HP Hok Hnn. unfold from in HP. apply bool_decide_eq_true in HP as <-.
    destruct (attempt_allowed a m Hok) as (_ & -> & Hlim).
    rewrite update_failure_ip, bool_decide_true by done. rewrite Ht in *.
    assert (in_minute t (failure_of (KIp a.1) m) <= 6).
    { destruct (failure_of (KIp a.1) m) as [[t0 n] total]. unfold in_minute.
      destruct (Z.eqb_spec t0 t) as [->|]; [|lia]. lia. }
    rewrite bump_in_minute by lia. lia.
  - clear. intros a m Ht Hor. destruct (fst (attempt a m)) eqn:E.
    + destruct Hor as [?|HP]; [done|]. unfold from in HP.
      destruct (attempt_allowed a m E) as (_ & -> & _). by rewrite update_failure_ip, HP.
    + by rewrite attempt_blocked.
  - done.
Qed.

(** Attempts from one IPv6 /64 network. *)
Definition from64 (p : Z) (a : Attempt) : bool :=
  match a.1 with Some (V6 b) => bool_decide (mask_u128 b 64 = p) | _ => false end.

Lemma allowed_prefix p a m :
  from64 p a = true -> fst (attempt a m) = true -> snd (failure_of (KPrefix p 64) m) <= 60.
Proof.
  unfold from64, attempt. destruct a as [[[b|b]|] t]; cbn [fst snd]; try done.
  intros Hp. apply bool_decide_eq_true in Hp as <-.
  unfold check_failure. cbn [get_ipv6_prefixes]. unfold check_failure_ipv6_prefix at 1.
  destruct (Z.ltb_spec 60 (snd (failure_of (KPrefix (mask_u128 b 64) 64) m))); [done|lia].
Qed.

Lemma tried_prefix_bound p l m :
  0 <= snd (failure_of (KPrefix p 64) m) <= 61 -> tried (from64 p) l m <= 61 - snd (failure_of (KPrefix p 64) m).
Proof.
  intros Hm.
  apply (tried_bound (from64 p) (fun m => snd (failure_of (KPrefix p 64) m)) 60 (fun _ => True)); try lia.
  - clear. intros a m _ HP Hok Hnn. pose proof (allowed_prefix p a m HP Hok) as Hle.
    split; [done|]. destruct (attempt_allowed a m Hok) as (_ & -> & _).
    rewrite update_failure_prefix. unfold from64 in HP. destruct (a.1) as [[b|b]|]; try done.
    rewrite HP. apply bump_total. lia.
  - clear. intros a m _ Hor. destruct (fst (attempt a m)) eqn:E.
    + destruct Hor as [?|HP]; [done|].
      destruct (attempt_allowed a m E) as (_ & -> & _). rewrite update_failure_prefix.
      unfold from64 in HP. destruct (a.1) as [[b|b]|]; try done. by rewrite HP.
    + by rewrite attempt_blocked.
  - by apply Forall_forall.
Qed.

(** The minute counter stays between 0 and 7. *)
Lemma run_in_minute x l m :
  Forall (fun a => 0 < a.2 < 2 ^ 31) l ->
  (let '(_, n, _) := failure_of (KIp x) m in 0 <= n <= 7) ->
  let '(_, n, _) := failure_of (KIp x) (run_attempts l m) in 0 <= n <= 7.
Proof.
  intros Hl. revert m. induction Hl as [|a l Ha Hl IH]; intros m Hm; [done|]. cbn [run_attempts fold_left].
  apply IH. destruct (fst (attempt a m)) eqn:E; [|by rewrite attempt_blocked].
  destruct (attempt_allowed a m E) as (_ & -> & Hlim). rewrite update_failure_ip.
  case_bool_decide as Hx; [|done]. subst x.
  destruct (failure_of (KIp a.1) m) as [[t0 n] total]. unfold bump.
  destruct (Z.eqb_spec t0 a.2) as [->|Hne]; [|lia].
  rewrite swrap_small by (cbn; lia). lia.
Qed.

Lemma failure_of_empty k : failure_of k ∅ = (0, 0, 0).
Proof. unfold failure_of. by rewrite lookup_empty. Qed.

(** ** Parallel attempts

    An attempt takes the lock twice, to read the record and, after the
    password was compared, to write it back.  Here the two halves of several
    attempts from one IPv4 address are steps of their own. *)
Inductive Half : Type := Check (k : nat) | Count (k : nat).

(** The records the attempts under way have read. *)
Definition half_step (ip : option IpAddr) (t : Z) (h : Half) (s : Failures * gmap nat Failure)
  : Failures * gmap nat Failure :=
  let '(m, pending) := s in
  match h with
  | Check k => match check_failure ip t m with
               | (f, None) => (m, <[ k := f ]> pending)
               | (_, Some _) => (m, pending)
               end
  | Count k => match pending !! k with
               | Some f => (update_failure ip f t false m, delete k pending)
               | None => (m, pending)
               end
  end.

Definition run_halves (ip : option IpAddr) (t : Z) (hs : list Half) (s : Failures * gmap nat Failure) :=
  fold_left (fun s h => half_step ip t h s) hs s.

Lemma checks_pending ip t f ks m pending :
  check_failure ip t m = (f, None) ->
  run_halves ip t (map Check ks) (m, pending) = (m, foldr (fun k p => <[ k := f ]> p) pending (rev ks)).
Proof.
  intros Hc. revert pending. induction ks as [|k ks IH]; intros pending; [done|].
  cbn [map run_halves fold_left half_step]. rewrite Hc.
  unfold run_halves in IH. rewrite IH. cbn [rev]. by rewrite foldr_app.
Qed.

Lemma pending_lookup f (pending : gmap nat Failure) ks k :
  foldr (fun k p => <[ k := f ]> p) pending ks !! k =
  if bool_decide (k ∈ ks) then Some f else pending !! k.
Proof.
  induction ks as [|k0 ks IH]; [done|]. cbn [foldr].
  destruct (decide (k = k0)) as [->|Hne].
  - rewrite lookup_insert_eq, bool_decide_true; [done|set_solver].
  - rewrite lookup_insert_ne, IH by done.
    rewrite (bool_decide_ext (k ∈ ks) (k ∈ k0 :: ks)); [done|]. set_solver.
Qed.

Lemma counts_undercount a t f ks m pending :
  ks <> [] -> NoDup ks -> Forall (fun k => pending !! k = Some f) ks ->
  failure_of (KIp (Some (V4 a))) (fst (run_halves (Some (V4 a)) t (map Count ks) (m, pending))) = bump f t.
Proof.
  revert m pending. induction ks as [|k ks IH]; intros m pending Hne Hnd Hp; [done|].
  apply Forall_cons in Hp as [Hk Hp]. apply NoDup_cons in Hnd as [Hnk Hnd].
  cbn [map run_halves fold_left half_step]. rewrite Hk.
  destruct ks as [|k' ks].
  - cbn [map fold_left fst]. by rewrite update_failure_ip, bool_decide_true.
  - apply IH; [done|done|]. apply Forall_forall. intros j Hj.
    rewrite lookup_delete_ne by (intros ->; done). rewrite Forall_forall in Hp. by apply Hp.
Qed.

(** The limit counts rounds, not guesses: when [n] attempts from an IPv4
    address are checked before any of them is counted, as connections served
    in parallel can be, all [n] passwords are compared and the counter goes up
    by one.  ([update_failure] bumps the record that [check_failure] read, not
    the one in the map.) *)
Lemma parallel_attempts_undercounted a t n m f :
  check_failure (Some (V4 a)) t m = (f, None) -> (0 < n)%nat ->
  let ks := seq 0 n in
  let s := run_halves (Some (V4 a)) t (map Check ks ++ map Count ks) (m, ∅) in
  (forall k, (k < n)%nat -> snd (run_halves (Some (V4 a)) t (map Check ks) (m, ∅)) !! k = Some f)
  /\ failure_of (KIp (Some (V4 a))) (fst s) = bump f t.
Proof.
  intros Hc Hn. cbv zeta. unfold run_halves. rewrite fold_left_app.
  change (fold_left _ (map Check (seq 0 n)) (m, ∅)) with (run_halves (Some (V4 a)) t (map Check (seq 0 n)) (m, ∅)).
  rewrite (checks_pending _ _ f) by done. cbn [snd]. split.
  - intros k Hk. rewrite pending_lookup, bool_decide_true; [done|].
    apply list_elem_of_In. rewrite <-in_rev. apply in_seq. lia.
  - apply counts_undercount.
    + destruct n; [lia|done].
    + apply NoDup_seq.
    + apply Forall_forall. intros k Hk. rewrite pending_lookup, bool_decide_true; [done|].
      apply list_elem_of_In. rewrite <-in_rev. by apply list_elem_of_In.
Qed.

(** ** The bound and its limit *)

(** C22. Guessing one after the other is bounded, guessing in parallel is not.
    As long as no attempt succeeds and each is counted before the next one is
    checked, whatever the counters are at first and whatever other peers do in
    between: an address whose count is [c] gets at most [31 - c] more attempts
    to the password check, at most 7 of them within one minute (if its record
    is of an earlier minute, or of this one with a count within the limit), and
    the addresses of one IPv6 /64 network with the count [c'] get at most
    [61 - c'].  But when [n] attempts from an IPv4 address that is not blocked
    are checked before any of them is counted, as connections served in
    parallel can be, then [n] passwords are compared and the count goes up by
    one. *)
Theorem bruteforce_bound pre block_ x t p m :
  Forall (fun a => 0 < a.2 < 2 ^ 31) pre -> Forall (fun a => a.2 = t) block_ ->
  0 <= snd (failure_of (KIp x) m) <= 31 -> 0 <= snd (failure_of (KPrefix p 64) m) <= 61 ->
  (let '(_, n, _) := failure_of (KIp x) m in 0 <= n <= 7) ->
  tried (from x) (pre ++ block_) m <= 31 - snd (failure_of (KIp x) m)
  /\ tried (from x) block_ (run_attempts pre m) <= 7
  /\ tried (from64 p) (pre ++ block_) m <= 61 - snd (failure_of (KPrefix p 64) m)
  /\ (forall a t' n m' f, check_failure (Some (V4 a)) t' m' = (f, None) -> (0 < n)%nat ->
      let compared := run_halves (Some (V4 a)) t' (map Check (seq 0 n)) (m', ∅) in
      let counted := run_halves (Some (V4 a)) t' (map Check (seq 0 n) ++ map Count (seq 0 n)) (m', ∅) in
      (forall k, (k < n)%nat -> snd compared !! k = Some f)
      /\ failure_of (KIp (Some (V4 a))) (fst counted) = bump f t').
Proof.
  intros Hpre Hblk Hx Hp Hn. split; [by apply tried_ip_bound|]. split; [|split; [by apply tried_prefix_bound|]].
  - apply (tried_minute_bound x t); [done|].
    pose proof (run_in_minute x pre m Hpre Hn) as H. revert H.
    destruct (failure_of (KIp x) (run_attempts pre m)) as [[t0 n] total]. unfold in_minute.
    destruct (t0 =? t); lia.
  - intros a t' n m' f. apply parallel_attempts_undercounted.
Qed.

Lemma bruteforce_bound_witness :
  tried (from (Some (V4 1))) (replicate 40 (Some (V4 1), 28000000)) ∅ <= 31
  /\ tried (from (Some (V4 1))) (replicate 40 (Some (V4 1), 28000000)) ∅ = 7
  /\ failure_of (KIp (Some (V4 1)))
      (fst (run_halves (Some (V4 1)) 5 (map Check (seq 0 100) ++ map Count (seq 0 100)) (∅, ∅))) = (5, 1, 1).
Proof.
  destruct (bruteforce_bound [] (replicate 40 (Some (V4 1), 28000000)) (Some (V4 1)) 28000000 0 ∅)
    as (H1 & _ & _ & H4).
  - constructor.
  - apply Forall_replicate. reflexivity.
  - rewrite failure_of_empty. cbn [snd]. lia.
  - rewrite failure_of_empty. cbn [snd]. lia.
  - rewrite failure_of_empty. lia.
  - split; [exact H1|]. split; [reflexivity|].
    apply (H4 1 5 100%nat ∅ (0, 0, 0)); [reflexivity|lia].
Defined.

End Limits.
