(* ===== verification/ConnectionAuth.v ===== *)
(** * Who is let in

    What it takes for a connection of [Conn] to become authorized: the
    evidence behind every transition, and the ways in which a single factor
    is enough. *)

From S2P Require Import Prelude RustStr Messages FileTransfer FileManager ClipFiles FusePaste ClipMsg Service Server Config.
From S2P Require Import Connection.

Module Auth.

Import Msg Conn.

(** ** The part of the world the decision reads *)

Definition auth_view (w : World) :=
  (lr (conn w), salt (conn w), challenge (conn w), authorized (conn w), from_switch (conn w),
   require_2fa (conn w), SESSIONS (glob w), cells (glob w)).

(** Case analysis that follows the code: split on the innermost scrutinee and
    compute. *)
Ltac follow :=
  repeat match goal with
         | |- context [match ?x with _ => _ end] =>
           lazymatch x with context [match _ with _ => _ end] => fail | _ => destruct x eqn:? end
         end; try reflexivity.

Lemma login_kind_view e r w : auth_view (snd (login_kind e r w)) = auth_view w.
Proof. unfold login_kind, check_privacy_mode_on. destruct (lr_union r) as [[| | |]|]; follow. Qed.

Lemma try_start_cm_ipc_view w : auth_view (try_start_cm_ipc w) = auth_view w.
Proof. unfold try_start_cm_ipc. follow. Qed.

Lemma check_failure_w_view e i w : auth_view (snd (check_failure_w e i w)) = auth_view w.
Proof. unfold check_failure_w. follow. Qed.

Lemma update_failure_w_view e f b i w : auth_view (update_failure_w e f b i w) = auth_view w.
Proof. reflexivity. Qed.

Lemma is_recent_session_conn e b w : conn (snd (is_recent_session e b w)) = conn w.
Proof. unfold is_recent_session. follow. Qed.

(** A session that is still alive: its cell was touched less than 30 s ago. *)
Definition live_session (e : Env) (w : World) (k : SessionKey) (s : Session) : Prop :=
  SESSIONS (glob w) !! k = Some s
  /\ now e - unwrap_or 0 (cells (glob w) !! last_recv_time s) < SESSION_TIMEOUT.

Lemma is_recent_session_sound e b w :
  fst (is_recent_session e b w) = true ->
  exists s, live_session e w (session_key (conn w)) s /\ lr_password (lr (conn w)) <> []
    /\ (if b then tfa s = true else validate_one_password e (conn w) (random_password s) = true).
Proof.
  unfold is_recent_session. cbn [conn glob updg set_field].
  destruct (SESSIONS (retain_sessions e (glob w)) !! session_key (conn w)) as [s|] eqn:E; [|done].
  cbn [fst]. intros H. apply andb_true_iff in H as [H1 H2].
  cbn in E. apply map_lookup_filter_Some in E as [E Hlive].
  exists s. split; [by split|]. split.
  - intros Hn. by rewrite bool_decide_true in H1.
  - destruct b; cbn [negb andb orb] in H2; [by rewrite orb_false_r in H2|done].
Qed.

Lemma is_recent_session_view e b w :
  exists ss, auth_view (snd (is_recent_session e b w)) =
    (lr (conn w), salt (conn w), challenge (conn w), authorized (conn w), from_switch (conn w),
     require_2fa (conn w), ss, cells (glob w))
    /\ (forall k s, ss !! k = Some s -> SESSIONS (glob w) !! k = Some s).
Proof.
  exists (SESSIONS (retain_sessions e (glob w))). split.
  - unfold is_recent_session. follow.
  - cbn. intros k s H. by apply map_lookup_filter_Some in H as [H _].
Qed.

(** ** [send_logon_response] *)

Lemma send_logon_response_sound e w :
  authorized (conn w) = false -> authorized (conn (send_logon_response e w)) = true ->
  require_2fa (conn w) = None \/ from_switch (conn w) = true
  \/ fst (is_recent_session e true w) = true.
Proof.
  intros Ha. unfold send_logon_response. rewrite Ha.
  destruct (require_2fa (conn w)) as [t|]; [|by left]. intros H. right.
  pose proof (is_recent_session_conn e true w) as Hc.
  destruct (is_recent_session e true w) as [recent w1]. cbn [fst snd] in *.
  rewrite Hc in H. destruct recent; [by right|]. destruct (from_switch (conn w)); [by left|].
  cbn in H. congruence.
Qed.

(** ** The evidence *)

Definition key_of (r : LoginRequest) : SessionKey := mkSessionKey (lr_my_id r) (lr_my_name r) (lr_session_id r).

(** The response in [r] is the right answer to the connection's challenge for
    the password [pw]. *)
Definition answers (e : Env) (w : World) (r : LoginRequest) (pw : list Z) : Prop :=
  pw <> [] /\ sha256 e (sha256 e (pw ++ salt (conn w)) ++ challenge (conn w)) = lr_password r.

Definition password_evidence (e : Env) (w : World) (r : LoginRequest) : Prop :=
  (Config.temporary_enabled (get_option e) = true /\ answers e w r (temporary_password e))
  \/ (Config.permanent_enabled (get_option e) = true /\ answers e w r (permanent_password e))
  \/ (exists s, live_session e w (key_of r) s /\ answers e w r (random_password s)).

Definition second_factor_evidence (e : Env) (w : World) (r : LoginRequest) : Prop :=
  require_2fa (conn w) = None
  \/ (enable_trusted_devices e = true /\ trusted e r = true)
  \/ (exists s, live_session e w (key_of r) s /\ tfa s = true)
  \/ from_switch (conn w) = true.

Lemma validate_answers e w r c pw :
  lr c = r -> salt c = salt (conn w) -> challenge c = challenge (conn w) ->
  validate_one_password e c pw = true -> answers e w r pw.
Proof.
  intros <- Hs Hc. unfold validate_one_password, answers. rewrite Hs, Hc.
  destruct pw; [done|]. intros H. apply bool_decide_eq_true in H. done.
Qed.

Lemma handle_login_request_view e r w :
  let w1 := handle_login_request_without_validation e r w in
  exists tf, auth_view w1 =
    (r, salt (conn w), challenge (conn w), authorized (conn w), from_switch (conn w), tf,
     SESSIONS (glob w), cells (glob w))
    /\ (tf = require_2fa (conn w)
        \/ tf = None /\ enable_trusted_devices e = true /\ trusted e r = true).
Proof.
  unfold handle_login_request_without_validation.
  set (w1 := match lr_option r with Some o => _ | None => _ end).
  assert (auth_view w1 = (r, salt (conn w), challenge (conn w), authorized (conn w), from_switch (conn w),
    require_2fa (conn w), SESSIONS (glob w), cells (glob w))) as Hv by (unfold w1; follow).
  clearbody w1. unfold auth_view in *.
  destruct (_ && trusted e r) eqn:E.
  - exists None. cbn. split; [congruence|]. right.
    apply andb_true_iff in E as [E E3]. apply andb_true_iff in E as [E E2]. done.
  - exists (require_2fa (conn w)). cbn. split; [done|]. by left.
Qed.

(** A view determines what the later checks say. *)
Lemma live_session_view e w w' k s :
  (forall k s, SESSIONS (glob w') !! k = Some s -> SESSIONS (glob w) !! k = Some s) ->
  cells (glob w') = cells (glob w) -> live_session e w' k s -> live_session e w k s.
Proof. intros Hs Hc [H1 H2]. split; [by apply Hs|]. by rewrite <-Hc. Qed.

(** After the password was accepted: the second factor of [r], read in a world
    whose sessions are among those of [w]. *)
Lemma grant_sound e w r w' tf :
  authorized (conn w') = false ->
  lr (conn w') = r -> from_switch (conn w') = from_switch (conn w) ->
  require_2fa (conn w') = tf ->
  (tf = require_2fa (conn w) \/ tf = None /\ enable_trusted_devices e = true /\ trusted e r = true) ->
  (forall s, live_session e w' (key_of r) s -> tfa s = true -> live_session e w (key_of r) s) ->
  authorized (conn (send_logon_response e w')) = true ->
  second_factor_evidence e w r.
Proof.
  intros Ha Hl Hf Ht Htf Hs Hg. apply send_logon_response_sound in Hg; [|done].
  rewrite Hf, Ht in Hg. unfold second_factor_evidence. destruct Hg as [->|[Hg|Hg]].
  - destruct Htf as [Htf|(_ & H1 & H2)]; [by left|by right; left].
  - by right; right; right.
  - apply is_recent_session_sound in Hg as (s & Hlive & _ & Htfa).
    right; right; left. exists s. split; [|done]. apply Hs; [|done].
    unfold key_of. rewrite <-Hl. exact Hlive.
Qed.


(** *** The password branch *)

Lemma update_session_tfa e k pw g s :
  SESSIONS (update_or_insert_session e k pw (Some false) g) !! k = Some s -> tfa s = false.
Proof.
  unfold update_or_insert_session, new_cell. destruct (SESSIONS g !! k) as [s0|];
    cbn [SESSIONS set_field]; rewrite lookup_insert_eq; by intros [= <-].
Qed.

Lemma validate_password_spec e w ok w' :
  validate_password e w = (ok, w') ->
  conn w' = conn w
  /\ (ok = true ->
      (Config.temporary_enabled (get_option e) = true
       /\ validate_one_password e (conn w) (temporary_password e) = true)
      \/ (Config.permanent_enabled (get_option e) = true
          /\ validate_one_password e (conn w) (permanent_password e) = true))
  /\ (forall s, live_session e w' (session_key (conn w)) s -> tfa s = true ->
        live_session e w (session_key (conn w)) s).
Proof.
  unfold validate_password.
  destruct (_ && validate_one_password e (conn w) (temporary_password e)) eqn:E; intros [= <- <-].
  - split; [done|]. split; [intros _; left; by apply andb_true_iff|].
    intros s [Hs _] Ht. apply update_session_tfa in Hs. congruence.
  - split; [done|]. split; [intros H; right; by apply andb_true_iff|done].
Qed.

Lemma authorized_try_start_cm a b c w : conn (try_start_cm a b c w) = conn w.
Proof. reflexivity. Qed.

Lemma login_password_sound e r msg w w0 tf :
  authorized (conn w) = false -> lr (conn w) = r ->
  salt (conn w) = salt (conn w0) -> challenge (conn w) = challenge (conn w0) ->
  from_switch (conn w) = from_switch (conn w0) -> require_2fa (conn w) = tf ->
  (tf = require_2fa (conn w0) \/ tf = None /\ enable_trusted_devices e = true /\ trusted e r = true) ->
  (forall k s, live_session e w k s -> live_session e w0 k s) ->
  authorized (conn (snd (login_password e r msg w))) = true ->
  password_evidence e w0 r /\ second_factor_evidence e w0 r.
Proof.
  intros Ha Hl Hs Hc Hf Ht Htf Hlive. unfold login_password.
  pose proof (check_failure_w_view e 0 w) as Hv.
  destruct (check_failure_w e 0 w) as [[f res] w1]. cbn [snd] in Hv. injection Hv as V1 V2 V3 V4 V5 V6 V7 V8.
  destruct res; [|cbn; congruence]. cbn [negb].
  destruct (validate_password e w1) as [ok w2] eqn:Evp.
  destruct (validate_password_spec e w1 ok w2 Evp) as (Hcn & Hok & Hses).
  destruct ok; cbn [negb].
  2:{ destruct (String.eqb msg ""); cbn; congruence. }
  destruct (String.eqb msg ""); [|cbn; congruence]. cbn [snd]. rewrite authorized_try_start_cm. intros Hg.
  assert (Hconn : conn (update_failure_w e f true 0 w2) = conn w1) by (cbn; congruence).
  split.
  - destruct (Hok eq_refl) as [[H1 H2]|[H1 H2]]; [left|right; left]; (split; [done|]);
      apply (validate_answers e w0 r (conn w1)) in H2; congruence.
  - apply (grant_sound e w0 r (update_failure_w e f true 0 w2) tf); rewrite ?Hconn; try congruence.
    intros s Hs1 Ht1. apply Hlive. assert (Hk : key_of r = session_key (conn w1)).
    { unfold session_key, key_of. congruence. }
    rewrite Hk in *. assert (Hs2 : live_session e w1 (session_key (conn w1)) s).
    { apply Hses; [|done]. exact Hs1. }
    destruct Hs2 as [Hs2 Hs3]. split; congruence.
Qed.

(** The same for the whole request. *)
Lemma on_login_request_sound e r w :
  authorized (conn w) = false ->
  authorized (conn (snd (on_login_request e r w))) = true ->
  click_only e = false /\ password_evidence e w r /\ second_factor_evidence e w r.
Proof.
  intros Ha. unfold on_login_request.
  destruct (handle_login_request_view e r w) as (tf & Hv1 & Htf).
  set (w1 := handle_login_request_without_validation e r w) in *. clearbody w1.
  injection Hv1 as A1 A2 A3 A4 A5 A6 A7 A8. rewrite A4, Ha.
  pose proof (login_kind_view e r w1) as Hv2.
  destruct (login_kind e r w1) as [go w2]. cbn [snd] in Hv2. injection Hv2 as B1 B2 B3 B4 B5 B6 B7 B8.
  destruct go; [|cbn; congruence]. cbn [negb].
  pose proof (try_start_cm_ipc_view w2) as Hv3. set (w3 := try_start_cm_ipc w2) in *. clearbody w3.
  injection Hv3 as C1 C2 C3 C4 C5 C6 C7 C8.
  set (msg := try_start_desktop e (lr_os_login r)).
  destruct (negb (String.eqb msg "") && _); [cbn; congruence|].
  destruct (negb (is_ip_str e (lr_username r)) && _ && _); [cbn; congruence|].
  destruct (click_only e); [destruct (_ <=? _); cbn; congruence|].
  intros Hg. split; [done|]. revert Hg.
  destruct (is_recent_session_view e false w3) as (ss & Hv4 & Hss).
  pose proof (is_recent_session_sound e false w3) as Hrec.
  destruct (is_recent_session e false w3) as [recent w4]. cbn [fst snd] in *.
  injection Hv4 as D1 D2 D3 D4 D5 D6 D7 D8.
  assert (Hlive : forall k s, live_session e w4 k s -> live_session e w k s).
  { intros k s. apply live_session_view; [|congruence]. intros k' s'. rewrite D7. intros Hx.
    apply Hss in Hx. congruence. }
  destruct recent.
  - destruct (String.eqb msg ""); [|cbn; congruence]. cbn [snd]. rewrite authorized_try_start_cm. intros Hg.
    destruct (Hrec eq_refl) as (s & Hs & _ & Hval). split.
    + right; right. exists s. split.
      * destruct Hs as [Hs1 Hs2]. replace (key_of r) with (session_key (conn w3)).
        -- split; congruence.
        -- unfold session_key, key_of. congruence.
      * apply (validate_answers e w r (conn w3)) in Hval; congruence.
    + apply (grant_sound e w r w4 tf); try congruence. intros s' Hs' _. by apply Hlive.
  - destruct (bool_decide (lr_password r = [])).
    { destruct (String.eqb msg ""); cbn; congruence. }
    apply (login_password_sound e r msg w4 w tf); congruence || done.
Qed.

(** *** The other two ways *)

Lemma on_auth_2fa_sound e code hw w :
  authorized (conn w) = false ->
  authorized (conn (snd (on_auth_2fa e code hw w))) = true ->
  exists totp, require_2fa (conn w) = Some totp /\ totp_check e totp code (get_time e) = Some true.
Proof.
  intros Ha. unfold on_auth_2fa. pose proof (check_failure_w_view e 1 w) as Hv.
  destruct (check_failure_w e 1 w) as [[f res] w1]. cbn [snd] in Hv. injection Hv as V1 V2 V3 V4 V5 V6 V7 V8.
  destruct res; [|cbn; congruence]. cbn [negb]. rewrite V6.
  destruct (require_2fa (conn w)) as [totp|]; [|cbn; congruence].
  destruct (totp_check e totp code (get_time e)) as [[]|] eqn:E; [|cbn; congruence|cbn; congruence].
  intros _. by exists totp.
Qed.

Lemma on_switch_sides_sound e uuid r w :
  authorized (conn w) = false ->
  authorized (conn (snd (on_switch_sides_response e uuid r w))) = true ->
  exists l u t, r = Some l /\ uuid_from_slice e uuid = Some u
    /\ SWITCH_SIDES_UUID (glob w) !! lr_my_id l = Some (t, u) /\ now e - t < 10000.
Proof.
  intros Ha. unfold on_switch_sides_response. destruct r as [l|]; [|cbn; congruence].
  destruct (handle_login_request_view e l w) as (tf & Hv & _).
  assert (Hg : glob (handle_login_request_without_validation e l w) = glob w).
  { unfold handle_login_request_without_validation. follow. }
  set (w1 := handle_login_request_without_validation e l w) in *. clearbody w1.
  injection Hv as A1 A2 A3 A4 A5 A6 A7 A8. cbn [glob updg set_field SWITCH_SIDES_UUID].
  rewrite Hg.
  destruct (uuid_from_slice e uuid) as [u|]; [|cbn; congruence].
  destruct (filter _ (SWITCH_SIDES_UUID (glob w)) !! lr_my_id l) as [[t old]|] eqn:E; [|cbn; congruence].
  case_bool_decide as Hu; [|cbn; congruence]. intros _. subst old.
  apply map_lookup_filter_Some in E as [E Ht]. cbn in Ht. eauto 10.
Qed.

(** Handlers that cannot grant anything. *)
Lemma on_close_authorized b w : authorized (conn (on_close b w)) = authorized (conn w).
Proof. unfold on_close. follow. Qed.

Lemma on_test_delay_authorized e t w : authorized (conn (snd (on_test_delay e t w))) = authorized (conn w).
Proof. unfold on_test_delay. follow. Qed.

(** C4. Nobody gets in without evidence: if handling a peer message turns an
    unauthorized connection into an authorized one, then the message is
    - a login request whose response answers the connection's challenge for the
      temporary password (if those are enabled), the permanent one (if those
      are enabled) or the password of a session alive less than 30 s ago, in a
      mode in which passwords are accepted at all, and whose second factor is
      not required, waived by a trusted device or given in the live session; or
    - a one-time code that the connection's TOTP secret accepts; or
    - the answer to a switch-sides request this machine made less than 10 s
      ago, with its uuid.
    Any other message leaves an unauthorized connection unauthorized. *)
Theorem authorized_has_evidence e m w :
  authorized (conn w) = false ->
  authorized (conn (snd (on_message e m w))) = true ->
  match m with
  | MLoginRequest r => click_only e = false /\ password_evidence e w r /\ second_factor_evidence e w r
  | MAuth2fa code _ => exists totp, require_2fa (conn w) = Some totp
                                    /\ totp_check e totp code (get_time e) = Some true
  | MSwitchSidesResponse uuid r =>
    exists l u t, r = Some l /\ uuid_from_slice e uuid = Some u
      /\ SWITCH_SIDES_UUID (glob w) !! lr_my_id l = Some (t, u) /\ now e - t < 10000
  | _ => False
  end.
Proof.
  intros Ha. unfold on_message. rewrite Ha.
  destruct m as [| | | | | | | | | | | | |mi| | | | | | | | | | | | |];
    try (cbn [snd]; congruence).
  - rewrite on_test_delay_authorized. congruence.
  - by apply on_login_request_sound.
  - destruct mi; cbn [snd]; try congruence. cbn [on_close_reason snd updg conn set_field].
    rewrite on_close_authorized. congruence.
  - by apply on_switch_sides_sound.
  - by apply on_auth_2fa_sound.
Qed.

(** ** Once granted, granted *)

Definition keeps (f : World -> World) : Prop := forall w, authorized (conn (f w)) = authorized (conn w).

Lemma keeps_when_set o k w :
  (forall b, keeps (k b)) -> authorized (conn (when_set o k w)) = authorized (conn w).
Proof. intros Hk. destruct o as [[]|]; cbn [when_set]; done || apply Hk. Qed.

Lemma keeps_subscribe_audio : keeps subscribe_audio.
Proof. intros w. unfold subscribe_audio. follow. Qed.

Lemma keeps_opt_image_quality o : keeps (opt_image_quality o).
Proof. intros w. unfold opt_image_quality. follow. Qed.

Lemma keeps_opt_privacy_mode o : keeps (opt_privacy_mode o).
Proof. intros w. unfold opt_privacy_mode. follow. Qed.

Lemma keeps_opt_block_input o : keeps (opt_block_input o).
Proof. intros w. unfold opt_block_input. follow. Qed.

Lemma keeps_opt_show_my_cursor e b : keeps (opt_show_my_cursor e b).
Proof. intros w. unfold opt_show_my_cursor. follow. Qed.

Lemma keeps_update_options e o : keeps (update_options e o).
Proof.
  intros w. unfold update_options.
  rewrite keeps_when_set by apply keeps_opt_show_my_cursor.
  rewrite keeps_when_set by (intros b w'; reflexivity).
  rewrite keeps_opt_block_input, keeps_opt_privacy_mode.
  rewrite keeps_when_set by (intros b w'; reflexivity).
  rewrite keeps_when_set by (intros b w'; reflexivity).
  rewrite keeps_when_set by (intros b w'; destruct b; reflexivity).
  rewrite keeps_when_set by (intros b w'; rewrite keeps_subscribe_audio; reflexivity).
  rewrite !keeps_when_set by (intros b w'; reflexivity).
  destruct (o_supported_decoding o), (0 <? o_custom_fps o); apply keeps_opt_image_quality.
Qed.

Lemma keeps_start_services e b : keeps (start_services e b).
Proof.
  intros w. unfold start_services.
  set (w1 := match options_in_login (conn w) with Some o => _ | None => _ end).
  assert (authorized (conn w1) = authorized (conn w)) as <-.
  { unfold w1. destruct (options_in_login (conn w)); [|done]. by rewrite keeps_update_options. }
  clearbody w1. destruct (file_transfer (conn w1)) as [[d h]|]; [done|].
  destruct (terminal (conn w1)).
  { unfold init_terminal_service. cbn [terminal_user_token conn upd set_field]. follow. }
  destruct (view_camera (conn w1)); [done|]. destruct b; [|done].
  unfold try_sub_monitor_services. follow.
Qed.

Lemma register_authed_authorized w : authorized (conn (register_authed w)) = authorized (conn w).
Proof. unfold register_authed. destruct (auth_conn_type (conn w)); reflexivity. Qed.

(** With no second factor pending, the login is granted. *)
Lemma send_logon_response_grants e w :
  require_2fa (conn w) = None -> authorized (conn (send_logon_response e w)) = true.
Proof.
  intros H. unfold send_logon_response. destruct (authorized (conn w)) eqn:Ha; [done|]. rewrite H.
  cbn [negb]. set (w1 := emit (ConnAudit "authorized") (register_authed _)).
  assert (authorized (conn w1) = true) as Hw1.
  { unfold w1. cbn [conn emit set_field]. by rewrite register_authed_authorized. }
  clearbody w1. destruct (port_forward_socket (conn w1)); [done|].
  destruct (is_remote (conn w1) && _); [done|].
  assert (Hk : forall res b w2, authorized (conn w2) = true ->
            authorized (conn (start_services e b (send (MLoginResponse res) w2))) = true).
  { intros res b w2 H2. by rewrite keeps_start_services. }
  destruct (file_transfer (conn w1)); [by apply Hk|].
  destruct (terminal (conn w1)); [by apply Hk|].
  destruct (view_camera (conn w1)).
  - apply Hk. unfold update_codec_on_login. follow; done.
  - destruct (sync_displays e); apply Hk; unfold on_remote_authorized, update_codec_on_login; follow; done.
Qed.

(** A one-time code alone opens the machine: on a connection of a device
    that has two-factor authentication set up, a peer that sends a valid code,
    without any login request before it, is authorized, whatever the passwords,
    the approve mode and the permissions of the machine are.  The code is not
    a second factor here but an alternative to the first. *)
Theorem totp_alone_authorizes e w code hw totp f :
  require_2fa (conn w) = Some totp -> totp_check e totp code (get_time e) = Some true ->
  check_failure (ip (conn w)) (minute e) (failures 1 (glob w)) = (f, None) ->
  authorized (conn (snd (on_message e (MAuth2fa code hw) w))) = true.
Proof.
  intros Ht Hc Hf. cbn [on_message]. unfold on_auth_2fa, check_failure_w. rewrite Hf. cbn [negb].
  rewrite Ht, Hc. cbn [snd].
  set (w1 := updg (set_session_2fa e _) _).
  assert (authorized (conn (send_logon_response e w1)) = true) as Hg.
  { apply send_logon_response_grants. reflexivity. }
  destruct (_ && enable_trusted_devices e); exact Hg.
Qed.

(** ** A concrete machine, for the witnesses *)

Definition demo_env : Env :=
  {| now := 1000000; get_time := 1700000000000; sha256 := fun x => 1 :: x;
     totp_check := fun secret code _ => Some (String.eqb secret code);
     uuid_from_slice := Some; is_ip_str := fun _ => false; is_domain_port_str := fun _ => false;
     cidr_contains := fun _ _ => false; get_option := fun _ => ""; get_builtin_option := fun _ => "";
     get_id := Config.str_bytes "123456789"; temporary_password := Config.str_bytes "k3xw9p";
     permanent_password := []; trusted_devices := []; is_in_privacy_mode := false; is_logon := false;
     main_window_closed := false; tcp_connect := fun _ => true; try_start_desktop := fun _ => "";
     unsupported_display_server := ""; sync_displays := Ok 1; primary_display := 0;
     primary_camera_exists := false; is_service_specified_user := fun _ => None;
     generate_service_id := "ts_1"; whiteboard_supported := true; path_is_dir := fun _ => true;
     rdev_modifier := fun _ => None; display_exists := fun _ => true;
     fs_disk := Transfer.fs_empty; fs_list := fun _ _ => Ok [Transfer.mkFileEntry Transfer.File "" false 3 7];
     utf16 := ClipFiles.utf16le; clip_disk := ClipFiles.mkDisk (fun _ => None) (fun _ => None) (fun _ => None);
     metadata_len := fun _ => None; mount_ok := true; stream_id := fun x => x |}.

Definition demo_world (twofa : option string) : World :=
  mkWorld (new_connection demo_env (Service.mkConnInner 1001 (Some 1) (Some 2)) [10] [20] twofa None)
             <| ip := Some (V4 1) |>
          (mkGlobal [∅; ∅] ∅ ∅ 0 [] ∅ (ClipMsg.mkClipState ClipFiles.default_ClipFiles None None) Server.demo_server [] [] false) [].

Definition demo_login : LoginRequest :=
  mkLoginRequest "123456789" (1 :: (1 :: Config.str_bytes "k3xw9p" ++ [10]) ++ [20]) "987654321" "peer" None None
    false 7 "1.3.9" None "Linux" [].

Lemma authorized_has_evidence_witness :
  authorized (conn (snd (on_message demo_env (MLoginRequest demo_login) (demo_world None)))) = true
  /\ password_evidence demo_env (demo_world None) demo_login.
Proof.
  split; [vm_compute; reflexivity|].
  apply (authorized_has_evidence demo_env (MLoginRequest demo_login) (demo_world None));
    vm_compute; reflexivity.
Defined.

Lemma totp_alone_authorizes_witness :
  authorized (conn (snd (on_message demo_env (MAuth2fa "secret" []) (demo_world (Some "secret"))))) = true.
Proof.
  apply (totp_alone_authorizes demo_env (demo_world (Some "secret")) "secret" [] "secret" (0, 0, 0));
    vm_compute; reflexivity.
Defined.

End Auth.
