(* ===== verification/ConnectionSafety.v ===== *)
(** * What an incoming connection can cause

    - [Gates]: which effects a peer message can have, and which permission
      each of them needs;
    - [Subs]: the subscriptions a connection holds, against its permissions;
    - [Keys]: the modifier keys the connection believes to be pressed. *)

From S2P Require Import Prelude RustStr Messages FileTransfer FileManager ClipFiles FusePaste ClipMsg Service Server Config.
From S2P Require Import Connection ConnectionAuth.

Module Gates.

Import Msg Conn Auth.

(** ** When each effect may happen *)

(** The messages that can let a peer in. *)
Definition is_login (m : Message) : bool :=
  match m with MLoginRequest _ | MAuth2fa _ _ | MSwitchSidesResponse _ _ => true | _ => false end.

Definition is_close_reason (m : Message) : bool := match m with MMisc (CloseReason _) => true | _ => false end.

(** The connection serves its peer: it is authorized and not a tunnel. *)
Definition serving (w : World) : Prop := authorized (conn w) = true /\ port_forward_socket (conn w) = None.

Section Permitted.
Context (e : Env) (m : Message) (w : World) (granted : Prop).

(** The message lets the peer in. *)
Definition entering : Prop := is_login m = true /\ authorized (conn w) = false /\ granted.

Definition session : Prop := serving w \/ entering.

(** What each effect of message [m] in state [w] needs; [granted] is that the
    connection is authorized afterwards.  Effects no message has are [False]. *)
Definition permitted (ef : Effect) : Prop :=
  match ef with
  | Peer (MLoginResponse _) => is_login m = true
  | Peer _ => session
  | Video p => p = m /\ exists t, m = MTestDelay t /\ td_from_client t = true
  | Cm (Login l) => is_login m = true /\ (cm_authorized l = true -> granted)
  | Cm (CmChatMessage text) => serving w /\ m = MMisc (ChatMessage text)
  | Cm CmClose | Cm CmDisconnected | VoiceInputDevice false =>
    closed (conn w) = false /\ is_close_reason m = true \/ serving w
  | Cm VoiceCallIncoming | Cm CloseVoiceCall => serving w
  | StartCmIpc => is_login m = true /\ start_cm_ipc_para (conn w) = true
  | Alarm _ => is_login m = true
  | ConnAudit action => action = "authorized" /\ entering
  | WakeLock | QosOpen | ActivateScreen | TerminalService _ _ => entering
  | RemoveWallpaper => entering
      /\ Config.option2bool "allow-remove-wallpaper" (get_option e "allow-remove-wallpaper") = true
  | TelegramCode => is_login m = true /\ authorized (conn w) = false /\ require_2fa (conn w) <> None
  | AddTrustedDevice d => exists code totp, m = MAuth2fa code (Config.hwid d) /\ require_2fa (conn w) = Some totp
      /\ totp_check e totp code (get_time e) = Some true /\ enable_trusted_devices e = true
  | Input (Key _ _) | Input (Pointer _) | Input (Mouse _ true _) | ClickTime | MouseMoveTime =>
    serving w /\ peer_keyboard_enabled (conn w) = true /\ is_authed_view_camera_conn (conn w) = false
  | Input (Mouse _ false _) =>
    serving w /\ show_my_cursor (conn w) = true /\ is_authed_view_camera_conn (conn w) = false
  | Input BlockOn | Input BlockOff => session /\ keyboard (conn w) = true /\ block_input (conn w) = true
  | UpdateClipboard _ => serving w /\ clipboard (conn w) = true
  | EmptyFileClipboard | QosImageQuality _ | QosCustomFps _ | EncoderUpdate _ | TerminalPersist _ _ => session
  | WhiteboardOn | WhiteboardOff => session /\ whiteboard_supported e = true
  | QosDelay d => exists t tm, m = MTestDelay t /\ td_from_client t = false
      /\ last_test_delay (conn w) = Some tm /\ d = u32 (now e - tm)
  | QosAutoFps f => serving w /\ m = MMisc (AutoAdjustFps f)
  | QosRecord b => serving w /\ m = MMisc (ClientRecordStatus b)
  | RefreshVideoEffect | VideoFetched | DisplayChanged _ => serving w
  | Screenshot _ => serving w /\ Service.tx (inner (conn w)) <> None
  | ChangeResolutionEffect d _ _ => serving w /\ keyboard (conn w) = true /\ display_exists e d = true
  | AudioThread | AudioFormatTo _ _ => serving w /\ disable_audio (conn w) = false
  | AudioFrameTo _ => serving w /\ disable_audio (conn w) = false /\ audio_sender (conn w) = true
  | LockScreen => is_close_reason m = true /\ closed (conn w) = false
      /\ lock_after_session_end (conn w) = true /\ keyboard (conn w) = true
  | ForceReboot | Reboot => serving w /\ restart (conn w) = true
  | RunConnect id uuid => serving w /\ id = lr_my_id (lr (conn w))
      /\ exists u, m = MMisc (SwitchSidesRequest u) /\ uuid_from_slice e u = Some uuid
  | Files (FileMgr.FoFs (FileMgr.FsReadDir _ _)) => serving w /\ file_transfer (conn w) <> None \/ entering
  | Files (FileMgr.FoFs (FileMgr.FsWriteBlock _ _ _ _)) | Files (FileMgr.FoFs (FileMgr.FsWriteDone _ _))
  | Files (FileMgr.FoFs (FileMgr.FsWriteError _ _ _)) | Files (FileMgr.FoFs (FileMgr.FsCheckDigest _ _ _ _ _ _)) =>
    serving w
  | Files (FileMgr.FoFs _) | Files (FileMgr.FoLog _ _) => serving w /\ file_transfer (conn w) <> None
  | Files (FileMgr.FoSend _) | Files (FileMgr.FoAudit _ _ _) | FileClipboard _ | Panicked => serving w
  | TerminalRequest _ _ => serving w /\ terminal_user_token (conn w) <> None
  | Cm StartVoiceCall | VoiceInputDevice true | RawToPeer _ | QosElapsed _ | NewTemporaryPassword | EncoderRemove
  | QosClose | ReleaseKey _ | TerminalJoin | RestoreDesktop | Forward _ => False
  end.

End Permitted.

Section Handlers.
Context (e : Env) (m : Message) (w0 : World) (granted : Prop).

Abbreviation permitted := (permitted e m w0 granted).
Abbreviation entering := (entering m w0 granted).
Abbreviation session := (session m w0 granted).

(** [w] is a later state of [w0] in which only permitted effects were added. *)
Definition grown (w : World) : Prop := exists l, out w = out w0 ++ l /\ Forall permitted l.

(** What the handlers test later and do not write before. *)
Definition same_perms (w : World) : Prop :=
  (keyboard (conn w) = true -> keyboard (conn w0) = true)
  /\ (block_input (conn w) = true -> block_input (conn w0) = true)
  /\ (require_2fa (conn w) <> None -> require_2fa (conn w) = require_2fa (conn w0))
  /\ (start_cm_ipc_para (conn w) = true -> start_cm_ipc_para (conn w0) = true).

(** Both: the state in the middle of a handler. *)
Definition going (w : World) : Prop := grown w /\ same_perms w.

Lemma grown_refl : grown w0.
Proof. exists []. by rewrite app_nil_r. Qed.

Lemma going_here : going w0.
Proof. split; [apply grown_refl|done]. Qed.

Lemma grown_emit_all l w : grown w -> Forall permitted l -> grown (emit_all l w).
Proof.
  intros (k & Hk & Hp) Hl. exists (k ++ l). cbn. rewrite Hk, app_assoc. split; [done|]. by apply Forall_app.
Qed.

Lemma grown_emit w ef : grown w -> permitted ef -> grown (emit ef w).
Proof. intros Hg He. apply (grown_emit_all [ef]); [done|]. by repeat constructor. Qed.

Lemma grown_upd w f : grown w -> grown (upd f w).
Proof. done. Qed.

Lemma grown_updg w f : grown w -> grown (updg f w).
Proof. done. Qed.

(** Follow the structure of a handler down to the effects it emits; what they
    need is among the hypotheses. *)
Ltac permit := cbn; repeat match goal with |- _ /\ _ => split end; try done; eauto.

Ltac grow :=
  cbv zeta;
  repeat match goal with
         | |- grown (emit _ _) => apply grown_emit; [|try solve [permit]]
         | |- grown (upd _ _) => apply grown_upd
         | |- grown (updg _ _) => apply grown_updg
         | |- grown (on_server _ _) => apply grown_updg
         | |- grown (send _ _) => apply grown_emit; [|try solve [permit]]
         | |- grown (send_to_cm _ _) => apply grown_emit; [|try solve [permit]]
         | |- grown (send_login_error _ _ _) => apply grown_emit; [|try solve [permit]]
         | |- grown (send_permission _ _ _) => apply grown_emit; [|try solve [permit]]
         | |- grown (subscribe_w _ _ _) => apply grown_updg
         | |- grown (turn_on_privacy _ _) => apply grown_emit; [|try solve [permit]]
         | |- grown (turn_off_privacy _ _) => apply grown_emit; [|try solve [permit]]
         | |- grown (if ?b then _ else _) => destruct b eqn:?
         | |- grown (match ?x with _ => _ end) => destruct x eqn:?
         | |- grown w0 => apply grown_refl
         | H : grown ?b |- grown ?b => exact H
         end.

(** A step of a handler keeps [going]: the effects by [grow], the permissions
    because the step does not write them. *)
Ltac go :=
  let Hg := fresh "Hg" in let Hp := fresh "Hp" in
  intros; match goal with H : going _ |- _ => destruct H as [Hg Hp] end;
  split; [grow|repeat first [exact Hp | match goal with
    |- context [match ?x with _ => _ end] =>
      lazymatch x with context [match _ with _ => _ end] => fail | _ => destruct x end end]].

Lemma going_when_set o k w :
  (forall b w, going w -> going (k b w)) -> going w -> going (when_set o k w).
Proof. intros Hk Hw. destruct o as [[]|]; cbn [when_set]; auto. Qed.

(** *** Options, for a connection that serves or will *)

Section Options.
Context (Hs : session).

Lemma going_subscribe_audio w : going w -> going (subscribe_audio w).
Proof. unfold subscribe_audio. go. Qed.

Lemma going_opt_image_quality o w : going w -> going (opt_image_quality o w).
Proof. unfold opt_image_quality. go. Qed.

Lemma going_opt_privacy_mode o w : going w -> going (opt_privacy_mode o w).
Proof. unfold opt_privacy_mode. go. Qed.

Lemma going_opt_block_input o w : going w -> going (opt_block_input o w).
Proof.
  intros H. assert (Hb : keyboard (conn w) && block_input (conn w) = true ->
                         keyboard (conn w0) = true /\ block_input (conn w0) = true).
  { destruct H as [_ (H1 & H2 & _)]. intros [? ?]%andb_true_iff. auto. }
  unfold opt_block_input. destruct (o_block_input o) as [q|]; [|done].
  destruct (keyboard (conn w) && block_input (conn w)).
  - specialize (Hb eq_refl). destruct q; [done| |]; destruct H as [Hg Hp]; split; try exact Hp;
      by apply grown_emit.
  - clear Hb. go.
Qed.

Lemma going_opt_show_my_cursor b w : going w -> going (opt_show_my_cursor e b w).
Proof. unfold opt_show_my_cursor. go. Qed.

Lemma going_update_options o w : going w -> going (update_options e o w).
Proof.
  intros H. unfold update_options.
  apply going_when_set; [apply going_opt_show_my_cursor|].
  apply going_when_set; [go|].
  apply going_opt_block_input, going_opt_privacy_mode.
  apply going_when_set; [go|].
  apply going_when_set; [go|].
  apply going_when_set; [go|].
  apply going_when_set; [intros; apply going_subscribe_audio; go|].
  do 4 (apply going_when_set; [go|]).
  apply (going_opt_image_quality o) in H.
  destruct (o_supported_decoding o), (0 <? o_custom_fps o); go.
Qed.

End Options.

(** *** The handlers that let a peer in *)

Section Login.
Context (Hl : is_login m = true).

Section Entering.
Context (He : entering).

Lemma session_in : session.
Proof using He. by right. Qed.

#[local] Hint Resolve session_in : core.

Lemma going_start_services b w : going w -> going (start_services e b w).
Proof using He.
  intros H. unfold start_services.
  set (w1 := match options_in_login (conn w) with Some o => _ | None => _ end).
  assert (H1 : going w1).
  { unfold w1. destruct (options_in_login (conn w)); [apply going_update_options|]; done. }
  clearbody w1. destruct H1 as [H1 (P1 & P2 & P3 & P4)].
  unfold init_terminal_service, try_sub_camera_displays, try_sub_monitor_services.
  split; [grow|]. cbv zeta. repeat case_match; cbn; split_and!; try done; follow.
Qed.

Lemma going_update_codec w : going w -> going (update_codec_on_login w).
Proof using He. unfold update_codec_on_login. go. Qed.

Lemma going_on_remote_authorized w : going w -> going (on_remote_authorized e w).
Proof using He. intros H. unfold on_remote_authorized. apply going_update_codec in H. go. Qed.

Lemma going_register_authed w : going w -> going (register_authed w).
Proof using He. unfold register_authed. go. Qed.

End Entering.

Lemma going_is_recent b w : going w -> going (snd (is_recent_session e b w)).
Proof using. unfold is_recent_session. intros [Hg Hp]. cbv zeta. follow; cbn [snd]; (split; [grow|exact Hp]). Qed.

(** [authorized] in [w] is what it is in [w0]: the login is not granted yet. *)
Lemma going_send_logon_response w : going w -> (authorized (conn w) = false -> authorized (conn w0) = false) ->
  (authorized (conn (send_logon_response e w)) = true -> granted) -> going (send_logon_response e w).
Proof using Hl.
  intros H Ha HG. destruct (authorized (conn w)) eqn:Haw; [unfold send_logon_response; by rewrite Haw|].
  specialize (Ha eq_refl). unfold send_logon_response in *. rewrite Haw in *.
  match goal with |- context [match require_2fa (conn w) with Some _ => ?a | None => ?b end] =>
    set (p := match require_2fa (conn w) with Some _ => a | None => b end) in * end.
  assert (Hp : going (snd p) /\ (fst p = true -> require_2fa (conn w0) <> None)).
  { destruct H as [Hg Hp]. pose proof Hp as (_ & _ & H2 & _). unfold p.
    destruct (require_2fa (conn w)); [|by split].
    pose proof (going_is_recent true w (conj Hg Hp)). destruct (is_recent_session e true w).
    split; [done|]. intros _. by rewrite <- H2. }
  destruct p as [need w1]. cbn [snd fst] in Hp. destruct Hp as [Hp Hn]. destruct need.
  { specialize (Hn eq_refl). go. }
  assert (He : entering).
  { split; [done|]. split; [done|]. apply HG. clear.
    set (w2 := emit (ConnAudit "authorized") (register_authed _)).
    assert (authorized (conn w2) = true) as Hw2.
    { unfold w2. cbn [conn emit set_field]. by rewrite register_authed_authorized. }
    clearbody w2. destruct (port_forward_socket (conn w2)); [done|].
    destruct (is_remote (conn w2) && _); [done|].
    assert (Hk : forall res b w3, authorized (conn w3) = true ->
              authorized (conn (start_services e b (send (MLoginResponse res) w3))) = true).
    { intros res b w3 H3. by rewrite keeps_start_services. }
    destruct (file_transfer (conn w2)); [by apply Hk|].
    destruct (terminal (conn w2)); [by apply Hk|].
    destruct (view_camera (conn w2)).
    - apply Hk. unfold update_codec_on_login. follow; done.
    - destruct (sync_displays e); apply Hk; unfold on_remote_authorized, update_codec_on_login; follow; done. }
  clear HG. set (w2 := emit (ConnAudit "authorized") (register_authed _)).
  assert (H2 : going w2).
  { unfold w2. assert (going (register_authed (upd (fun c => c <| authorized := true |>) w1))) as Hr.
    { apply going_register_authed; [done|]. destruct Hp. by split. }
    go. }
  clearbody w2. clear Hp H w1 Hn.
  destruct (port_forward_socket (conn w2)); [go|].
  destruct (is_remote (conn w2) && _); [go|].
  assert (Hk : forall res b w, going w -> going (start_services e b (send (MLoginResponse res) w))).
  { intros res b w3 H3. apply going_start_services; [done|]. go. }
  destruct (file_transfer (conn w2)); [by apply Hk|].
  destruct (terminal (conn w2)); [by apply Hk|].
  destruct (view_camera (conn w2)); [by apply Hk, going_update_codec|].
  destruct (sync_displays e); apply Hk, going_on_remote_authorized; try done; go.
Qed.

Lemma going_handle_login r w : going w -> going (handle_login_request_without_validation e r w).
Proof using.
  unfold handle_login_request_without_validation. intros [Hg (H1 & H2 & H3 & H4)].
  split; [grow|]. cbv zeta. repeat case_match; cbn; split_and!; done.
Qed.

Lemma going_login_kind r w : going w -> going (snd (login_kind e r w)).
Proof using Hl.
  intros H. unfold login_kind, check_privacy_mode_on, fill_terminal_user_token.
  destruct (lr_union r) as [[| | |]|]; destruct H as [Hg Hp]; cbv zeta; follow; cbn [snd]; (split; [grow|exact Hp]).
Qed.

Lemma going_check_failure i w : going w -> going (snd (check_failure_w e i w)).
Proof using Hl. unfold check_failure_w. intros [Hg Hp]. follow; cbn [snd]; (split; [grow|exact Hp]). Qed.

Lemma going_validate w : going w -> going (snd (validate_password e w)).
Proof using. unfold validate_password. intros [Hg Hp]. cbv zeta. follow; cbn [snd]; (split; [grow|exact Hp]). Qed.

Lemma grown_login_password r msg w : going w -> (authorized (conn w) = false -> authorized (conn w0) = false) ->
  (authorized (conn (snd (login_password e r msg w))) = true -> granted) -> grown (snd (login_password e r msg w)).
Proof using Hl.
  intros H Ha. unfold login_password.
  pose proof (check_failure_w_view e 0 w) as Hv. apply (going_check_failure 0) in H.
  destruct (check_failure_w e 0 w) as [[f res] w1]. cbn [snd] in H, Hv. injection Hv as _ _ _ Hv _ _ _ _.
  rewrite <- Hv in Ha. clear w Hv. destruct res; cbn [negb snd]; [|intros _; apply H].
  assert (Hv2 : authorized (conn (snd (validate_password e w1))) = authorized (conn w1)).
  { unfold validate_password. cbv zeta. follow. }
  apply going_validate in H. destruct (validate_password e w1) as [ok w2]. cbn [snd] in H, Hv2.
  rewrite <- Hv2 in Ha. clear w1 Hv2.
  destruct ok, (String.eqb msg ""); cbn [negb snd]; unfold update_failure_w, try_start_cm; intros HG.
  1:{ apply grown_emit; [|by cbn]. apply going_send_logon_response; [go|done|exact HG]. }
  all: destruct H as [Hg _]; grow.
Qed.

Lemma login_kind_authorized r w : authorized (conn (snd (login_kind e r w))) = authorized (conn w).
Proof using. by injection (login_kind_view e r w) as _ _ _ -> _ _ _ _. Qed.

Lemma is_recent_authorized b w : authorized (conn (snd (is_recent_session e b w))) = authorized (conn w).
Proof using. by rewrite is_recent_session_conn. Qed.

Lemma handle_login_authorized r w : authorized (conn (handle_login_request_without_validation e r w)) = authorized (conn w).
Proof using. destruct (handle_login_request_view e r w) as (tf & Hv & _). unfold auth_view in Hv. by simplify_eq. Qed.

Lemma grown_on_login_request r : (authorized (conn (snd (on_login_request e r w0))) = true -> granted) ->
  grown (snd (on_login_request e r w0)).
Proof using Hl.
  pose proof (going_here) as H. unfold on_login_request. apply (going_handle_login r) in H.
  pose proof (handle_login_authorized r w0) as Ha.
  set (w1 := handle_login_request_without_validation e r w0) in *. clearbody w1.
  destruct (authorized (conn w1)) eqn:Ha1; [intros _; apply H|]. apply (going_login_kind r) in H.
  rewrite <- login_kind_authorized with (r := r) in Ha1.
  destruct (login_kind e r w1) as [go_on w2]. cbn [snd] in H, Ha1. destruct go_on; [|intros _; apply H]. cbn [negb].
  assert (H3 : going (try_start_cm_ipc w2) /\ authorized (conn (try_start_cm_ipc w2)) = false).
  { unfold try_start_cm_ipc. destruct (start_cm_ipc_para (conn w2)) eqn:Es; [|done].
    destruct H as [Hg (P1 & P2 & P3 & P4)]. specialize (P4 Es). split; [|exact Ha1]. split; [grow|done]. }
  set (w3 := try_start_cm_ipc w2) in *. clearbody w3. clear H Ha1 w1 w2. destruct H3 as [H3 Ha3].
  destruct (_ && negb (String.eqb _ LOGIN_MSG_DESKTOP_SESSION_NOT_READY)); [destruct H3; cbn [snd]; intros _; grow|].
  destruct (_ && _ && _); [destruct H3; cbn [snd]; intros _; grow|].
  destruct (click_only e); [destruct H3; cbn [snd]; unfold try_start_cm; intros _; grow|].
  apply (going_is_recent false) in H3. rewrite <- is_recent_authorized with (b := false) in Ha3.
  destruct (is_recent_session e false w3) as [recent w4]. cbn [snd] in H3, Ha3.
  destruct recent.
  - destruct (String.eqb _ ""); cbn [snd]; [|destruct H3; intros _; grow].
    unfold try_start_cm. intros HG. apply grown_emit; [|by cbn].
    by apply going_send_logon_response.
  - destruct (bool_decide _); [|intros HG; by apply grown_login_password].
    destruct H3. destruct (String.eqb _ ""); cbn [snd]; unfold try_start_cm; intros _; grow.
Qed.

Lemma grown_on_auth_2fa code hw : m = MAuth2fa code hw ->
  (authorized (conn (snd (on_auth_2fa e code hw w0))) = true -> granted) -> grown (snd (on_auth_2fa e code hw w0)).
Proof using Hl.
  intros Hm. pose proof going_here as H. unfold on_auth_2fa.
  pose proof (check_failure_w_view e 1 w0) as Hv. apply (going_check_failure 1) in H.
  destruct (check_failure_w e 1 w0) as [[f res] w1]. cbn [snd] in H, Hv. injection Hv as _ _ _ Ha _ H2 _ _.
  destruct res; cbn [negb]; [|intros _; apply H]. rewrite H2.
  destruct (require_2fa (conn w0)) as [totp|] eqn:Ht; [|intros _; apply H].
  destruct (totp_check e totp code (get_time e)) as [[]|] eqn:Hc; cbn [snd];
    [|destruct H; unfold update_failure_w; intros _; grow|intros _; apply H].
  set (w2 := updg (set_session_2fa e _) _). intros HG.
  assert (HG2 : authorized (conn (send_logon_response e w2)) = true -> granted).
  { intros Hx. apply HG. by destruct (_ && enable_trusted_devices e). }
  assert (Hs : going (send_logon_response e w2)).
  { apply going_send_logon_response; [|by rewrite <- Ha|done].
    destruct H as [Hg (P1 & P2 & P3 & P4)]. split; [apply Hg|done]. }
  clear HG. destruct Hs as [Hs _]. unfold try_start_cm. destruct (_ && enable_trusted_devices e) eqn:Ed; grow.
  all: apply andb_true_iff in Ed as [_ Ed]. all: exists code, totp; done.
Qed.

Lemma grown_on_switch_sides uuid r : (authorized (conn (snd (on_switch_sides_response e uuid r w0))) = true -> granted) ->
  grown (snd (on_switch_sides_response e uuid r w0)).
Proof using Hl.
  pose proof going_here as H. unfold on_switch_sides_response. destruct r as [r|]; [|intros _; apply H].
  apply (going_handle_login r) in H. pose proof (handle_login_authorized r w0) as Ha.
  set (w1 := handle_login_request_without_validation e r w0) in *. clearbody w1.
  cbv zeta. destruct (uuid_from_slice e uuid); [|intros _; apply H].
  match goal with |- context [match ?x with Some _ => _ | None => _ end] => destruct x as [[t old]|] end; [|intros _; apply H].
  case_bool_decide; [|intros _; apply H]. cbn [snd]. unfold try_start_cm.
  match goal with |- context [send_logon_response e ?x] => set (w2 := x) end. intros HG.
  assert (HG2 : authorized (conn (send_logon_response e w2)) = true -> granted).
  { intros Hx. apply HG. unfold try_start_cm_ipc. destruct (start_cm_ipc_para _); exact Hx. }
  clear HG. assert (Hs : going (send_logon_response e w2)).
  { apply going_send_logon_response; [exact H|by rewrite <- Ha|exact HG2]. }
  destruct Hs as [Hs (_ & _ & _ & Hp)].
  unfold try_start_cm_ipc. destruct (start_cm_ipc_para _) eqn:Es; [|grow].
  specialize (Hp eq_refl). grow.
Qed.

End Login.

(** *** The handlers of a connection that serves its peer *)

Section Serving.
Context (Hsrv : serving w0).

Lemma session_serving : session.
Proof using Hsrv. by left. Qed.

#[local] Hint Resolve session_serving : core.

Lemma grown_timer w : grown w -> grown (update_auto_disconnect_timer e w).
Proof using. done. Qed.

Lemma grown_on_mouse_event me : grown (snd (on_mouse_event e me w0)).
Proof using Hsrv.
  unfold on_mouse_event. destruct (is_authed_view_camera_conn (conn w0)) eqn:Hc; [apply grown_refl|].
  cbn [snd]. apply grown_timer.
  destruct (peer_keyboard_enabled (conn w0)) eqn:Hk; [|destruct (show_my_cursor (conn w0)) eqn:Hs].
  - destruct (is_left_up me); grow.
  - grow.
  - apply grown_refl.
Qed.

Lemma grown_on_pointer_event p : grown (snd (on_pointer_event e p w0)).
Proof using Hsrv.
  unfold on_pointer_event. destruct (is_authed_view_camera_conn (conn w0)) eqn:Hc; [apply grown_refl|].
  cbn [snd]. apply grown_timer. destruct (peer_keyboard_enabled (conn w0)) eqn:Hk; grow.
Qed.

Lemma grown_on_key_event k : grown (snd (on_key_event e k w0)).
Proof using Hsrv.
  unfold on_key_event. destruct (is_authed_view_camera_conn (conn w0)) eqn:Hc; [apply grown_refl|].
  cbn [snd]. apply grown_timer.
  destruct (peer_keyboard_enabled (conn w0)) eqn:Hk; [|apply grown_refl].
  assert (Hin : forall b w1, grown w1 -> grown (emit (Input (Key k b)) w1)).
  { intros b w1 H1. by apply grown_emit. }
  destruct (modifier_key e k) as [mk|], (is_enter k); cbv zeta;
    destruct (_ && negb _); try destruct (k_union k) as [[]|]; apply Hin; grow.
Qed.

Lemma grown_refresh d w : grown w -> grown (refresh_video_display d w).
Proof using Hsrv. intros. unfold refresh_video_display. grow. Qed.

Lemma grown_change_resolution d x y w :
  grown w -> (keyboard (conn w) = true -> keyboard (conn w0) = true) -> grown (change_resolution e d x y w).
Proof using Hsrv.
  intros Hg Hk. unfold change_resolution. destruct (keyboard (conn w)) eqn:E; [|done].
  destruct (display_exists e _) eqn:Ed; grow.
Qed.

Lemma grown_handle_switch_display s : grown (handle_switch_display e s w0).
Proof using Hsrv.
  unfold handle_switch_display. destruct (negb _); [|apply grown_refl]. cbv zeta.
  apply grown_emit; [|done].
  set (w1 := switch_display_to e _ w0).
  assert (H1 : grown w1 /\ (keyboard (conn w1) = true -> keyboard (conn w0) = true)).
  { unfold w1, switch_display_to. cbv zeta.
    destruct (negb (is_support_multi_ui_session _)); (split; [grow|done]). }
  destruct H1 as [H1 H2]. clearbody w1. destruct (_ && _); [by apply grown_change_resolution|done].
Qed.

Lemma grown_capture_displays a b c : grown (capture_displays a b c w0).
Proof using. unfold capture_displays. grow. Qed.

(** The end of a connection that serves, without locking the screen. *)
Lemma grown_leave w : grown w -> grown (on_close false w).
Proof using Hsrv. intros. unfold on_close. grow. destruct (_ || _); by right. Qed.

Lemma grown_on_misc mi : m = MMisc mi -> grown (snd (on_misc e mi w0)).
Proof using Hsrv.
  intros Hm. destruct mi; cbn [on_misc snd]; try apply grown_refl.
  - apply grown_timer. grow.
  - apply grown_handle_switch_display.
  - apply going_update_options; [done|apply going_here].
  - destruct (negb _) eqn:Hd; cbn [snd]; [apply negb_true_iff in Hd|]; grow.
  - apply grown_timer. destruct r; [apply grown_refresh|]; apply grown_refl.
  - grow.
  - destruct (restart (conn w0)) eqn:Hr; grow.
  - destruct (uuid_from_slice e uuid) eqn:Hu; [|apply grown_refl]. cbn [snd]. apply grown_leave. grow.
  - apply grown_change_resolution; [apply grown_refl|done].
  - apply grown_change_resolution; [apply grown_refl|done].
  - grow.
  - grow.
  - apply grown_capture_displays.
  - apply grown_timer, grown_refresh, grown_refl.
  - destruct on; grow.
  - grow.
Qed.

Lemma grown_close_voice_call w : grown w -> grown (close_voice_call w).
Proof using Hsrv. intros. unfold close_voice_call. grow. Qed.

Lemma grown_on_file_action a : grown (snd (on_file_action e a w0)).
Proof using Hsrv.
  unfold on_file_action, after_files.
  destruct (FileMgr.on_file_action _ _ a _) as [[outs s]|] eqn:Ea; cbn [snd].
  2:{ apply grown_emit; [apply grown_refl|done]. }
  apply grown_emit_all; [apply grown_upd, grown_refl|]. apply Forall_forall.
  intros ef (o & -> & Ho)%list_elem_of_fmap. destruct (file_transfer (conn w0)) as [ft|] eqn:Hft.
  - destruct o as [|f| |]; cbn; rewrite ?Hft; try done. destruct f; try done. by left.
  - apply FileMgr.no_orders_without_file_transfer in Ea. rewrite Forall_forall in Ea.
    specialize (Ea o Ho). by destruct o.
Qed.

Lemma grown_on_file_response r : grown (emit_all (map Files (FileMgr.on_file_response r)) w0).
Proof using Hsrv. apply grown_emit_all; [apply grown_refl|]. destruct r; cbn; repeat constructor; apply Hsrv. Qed.

Lemma grown_on_cliprdr c : grown (snd (on_cliprdr e c w0)).
Proof using Hsrv.
  unfold on_cliprdr. destruct (ClipMsg.on_cliprdr _ _ _ _ _ _ _ _ _) as [[outs s]|]; cbn [snd].
  - apply grown_emit_all; [apply grown_updg, grown_refl|]. apply Forall_forall.
    by intros ef (o & -> & _)%list_elem_of_fmap.
  - apply grown_emit; [apply grown_refl|done].
Qed.

Lemma grown_on_authorized_message : grown (snd (on_authorized_message e m w0)).
Proof using Hsrv.
  destruct m eqn:Hm; cbn [on_authorized_message snd]; try apply grown_refl.
  - apply grown_on_mouse_event.
  - destruct (negb (disable_audio (conn w0))) eqn:Hd; [apply negb_true_iff in Hd|]; cbn [andb]; grow.
  - apply grown_on_key_event.
  - grow.
  - apply grown_on_file_action.
  - apply grown_on_file_response.
  - by apply grown_on_misc.
  - apply grown_on_cliprdr.
  - destruct is_connect; cbn [snd]; [grow|apply grown_close_voice_call, grown_refl].
  - apply grown_on_pointer_event.
  - grow.
  - destruct (Service.tx _) eqn:Et; cbn [snd]; [|apply grown_refl]. apply grown_refresh. grow. split; [done|by rewrite Et].
  - destruct (terminal_user_token (conn w0)) eqn:Et; cbn [snd]; [|apply grown_refl]. grow. split; [done|by rewrite Et].
Qed.

End Serving.

(** *** The other messages *)

Lemma grown_on_test_delay t : m = MTestDelay t -> grown (snd (on_test_delay e t w0)).
Proof.
  intros Hm. unfold on_test_delay. destruct (td_from_client t) eqn:Ht; cbn [snd]; [grow|].
  destruct (last_test_delay (conn w0)) eqn:Hd; cbn [snd]; [|apply grown_refl]. cbv zeta. grow.
  exists t. by eexists.
Qed.

Lemma grown_on_close_reason : is_close_reason m = true -> grown (snd (on_close_reason w0)).
Proof.
  intros Hm. cbn [on_close_reason snd]. apply grown_updg. unfold on_close.
  destruct (closed (conn w0)) eqn:Hc; [apply grown_refl|]. cbn [andb].
  destruct (lock_after_session_end _ && _) eqn:Hk; [apply andb_true_iff in Hk|]; grow.
  all: try match goal with |- permitted (Cm (if ?b then _ else _)) => destruct b end; naive_solver.
Qed.

End Handlers.

(** C7. Permissions are enforced on every message: whatever message a peer
    sends, in whatever state, the effects it has are [permitted], which gives
    for every kind of effect what it needs.  Only a login message can let the
    peer in, and it starts services only if the connection is authorized
    afterwards; everything else is done only for an authorized connection that
    is not a tunnel, except that a test of the delay is answered, a login
    refused or reported, and a close reason followed in any state.  Keys,
    pointer events and simulated mouse events need the keyboard permission, not
    disabled by the peer, and a connection that is not for the camera; blocking
    the local input the keyboard and block-input permissions; writing the
    clipboard the clipboard permission, restarting the restart permission, the
    resolution the keyboard permission; locking the screen at the end the
    keyboard permission and the option for it; sound from the peer that the
    peer has not disabled audio (the audio permission is not asked); orders to
    remove, rename, create, read or write files a file-transfer connection
    (blocks of an upload under way any authorized connection); terminals the
    token of a terminal connection.  The file clipboard and screenshots need no
    permission of their own (see [file_clipboard_ungated]). *)
Theorem effects_permitted e m w :
  exists l, out (snd (on_message e m w)) = out w ++ l
    /\ Forall (permitted e m w (authorized (conn (snd (on_message e m w))) = true)) l.
Proof.
  set (G := authorized (conn (snd (on_message e m w))) = true).
  change (grown e m w G (snd (on_message e m w))).
  assert (Hrest : grown e m w G (snd (if authorized (conn w)
            then match port_forward_socket (conn w) with Some _ => (true, w) | None => on_authorized_message e m w end
            else (true, w)))).
  { destruct (authorized (conn w)) eqn:Ha; [|apply grown_refl].
    destruct (port_forward_socket (conn w)) eqn:Hp; [apply grown_refl|]. by apply grown_on_authorized_message. }
  destruct m eqn:Hm; try exact Hrest.
  - by apply grown_on_test_delay.
  - by apply grown_on_login_request.
  - destruct m0; try exact Hrest. by apply grown_on_close_reason.
  - by apply grown_on_switch_sides.
  - by apply grown_on_auth_2fa.
Qed.

(** The file clipboard asks for no permission: the effects of a file
    clipboard message are the same whatever the keyboard, clipboard and
    file-transfer permissions of the connection are (on Windows the connection
    manager tests the file permission).  A peer whose permissions have been
    revoked still reads the files that are on the clipboard. *)
Theorem file_clipboard_ungated e c w k cb f :
  out (snd (on_message e (MCliprdr c) (upd (fun x => x <| keyboard := k |> <| clipboard := cb |> <| file := f |>) w)))
  = out (snd (on_message e (MCliprdr c) w)).
Proof.
  cbn [on_message on_authorized_message].
  change (authorized (conn (upd _ w))) with (authorized (conn w)).
  change (port_forward_socket (conn (upd _ w))) with (port_forward_socket (conn w)).
  destruct (authorized (conn w)); [|done]. destruct (port_forward_socket (conn w)); [done|].
  unfold on_cliprdr. by destruct (ClipMsg.on_cliprdr _ _ _ _ _ _ _ _ _) as [[outs s]|].
Qed.

(** All three permissions are off and the copied file is read. *)
Definition revoked_world : World :=
  let w := (demo_world None) <| glob := (glob (demo_world None)) <| clip_state := ClipMsg.demo_owner 5 |> |> in
  upd (fun c => c <| authorized := true |> <| lr := demo_login |>) w.

Lemma file_clipboard_ungated_witness :
  out (snd (on_message (demo_env <| clip_disk := ClipMsg.demo_disk |>)
              (MCliprdr (FileContentsRequest 4 0 2 0 0 100 false 0))
              (upd (fun x => x <| keyboard := false |> <| clipboard := false |> <| file := false |>) revoked_world)))
  = [FileClipboard (ClipMsg.COSend (MCliprdr (FileContentsResponse 1 4 ClipMsg.demo_content)))].
Proof. rewrite file_clipboard_ungated. vm_compute. reflexivity. Defined.

End Gates.

(** ** Subscriptions *)
Module Subs.

Import Msg Conn Server Auth.

(** The connection of [w] receives from service [n]. *)
Definition receives (w : World) (n : string) : bool :=
  subbed (server (glob w)) n (Service.id (inner (conn w))).

Definition offers (w : World) (n : string) : bool := contains n (server (glob w)).

Lemma receives_subscribe w n b m :
  wf_server (server (glob w)) ->
  receives (subscribe_w n b w) m = if bool_decide (m = n) && offers w n then b else receives w m.
Proof.
  intros H. unfold receives, offers. cbn [subscribe_w on_server updg conn glob set_field server].
  rewrite subbed_subscribe by done. rewrite Z.eqb_refl, andb_true_r. done.
Qed.

Lemma switch_permission_clipboard e b w :
  let w1 := send_permission Clipboard b (upd (fun c => c <| clipboard := b |>) w) in
  switch_permission e "clipboard" b w = subscribe_w NAME_CLIPBOARD (can_sub_clipboard_service e (conn w1)) w1.
Proof. reflexivity. Qed.

(** Revoking the clipboard stops text but not files: when the connection
    manager switches the clipboard permission off, the connection stops
    receiving from the clipboard service, but a subscription to the
    file-clipboard service stays in place although the connection no longer
    satisfies the condition for it. *)
Theorem revoked_clipboard_keeps_files e w :
  wf_server (server (glob w)) ->
  offers w NAME_CLIPBOARD = true -> receives w NAME_FILE_CLIPBOARD = true ->
  let w' := snd (on_cm e (SwitchPermission "clipboard" false) w) in
  receives w' NAME_CLIPBOARD = false
  /\ can_sub_file_clipboard_service e (conn w') = false
  /\ receives w' NAME_FILE_CLIPBOARD = true.
Proof.
  intros Hw Ho Hr. cbv zeta. cbn [on_cm snd]. rewrite switch_permission_clipboard.
  set (w1 := send_permission Clipboard false _).
  assert (Hw1 : wf_server (server (glob w1))) by done.
  rewrite !receives_subscribe by done.
  change (offers w1 NAME_CLIPBOARD) with (offers w NAME_CLIPBOARD). rewrite Ho.
  split; [reflexivity|]. split; [reflexivity|]. exact Hr.
Qed.

(** The clipboard can leave before the login: the connection manager's
    permission switch subscribes the connection to the clipboard service as
    soon as the permissions allow it, without asking whether the peer has been
    authorized (the switch for audio does ask), so an unauthorized peer starts
    to receive the clipboard. *)
Theorem switch_subscribes_unauthorized e w :
  wf_server (server (glob w)) -> offers w NAME_CLIPBOARD = true ->
  authorized (conn w) = false -> disable_clipboard (conn w) = false ->
  peer_keyboard_enabled (conn w) = true ->
  get_builtin_option e "one-way-clipboard-redirection" = "" ->
  let w' := snd (on_cm e (SwitchPermission "clipboard" true) w) in
  authorized (conn w') = false /\ receives w' NAME_CLIPBOARD = true.
Proof.
  intros Hw Ho Ha Hd Hk Hb. cbv zeta. cbn [on_cm snd]. rewrite switch_permission_clipboard.
  split; [exact Ha|].
  rewrite receives_subscribe by done.
  set (w1 := send_permission Clipboard true _).
  change (offers w1 NAME_CLIPBOARD) with (offers w NAME_CLIPBOARD).
  rewrite Ho, bool_decide_true by done. cbn [andb].
  unfold can_sub_clipboard_service, clipboard_enabled.
  change (peer_keyboard_enabled (conn w1)) with (peer_keyboard_enabled (conn w)).
  change (clipboard (conn w1)) with true. change (disable_clipboard (conn w1)) with (disable_clipboard (conn w)).
  by rewrite Hk, Hd, Hb.
Qed.

(** *** Capturing displays *)

Lemma ensure_video_services_spec src ds s :
  wf_server s ->
  wf_server (ensure_video_services src ds s)
  /\ (forall n i, subbed (ensure_video_services src ds s) n i = subbed s n i)
  /\ (forall n, contains n s = true -> contains n (ensure_video_services src ds s) = true)
  /\ Forall (fun d => contains (get_service_name src d) (ensure_video_services src ds s) = true) ds.
Proof.
  revert s. induction ds as [|d ds IH]; intros s Hw.
  { split; [done|]. split; [done|]. split; [done|constructor]. }
  cbn [ensure_video_services fold_left].
  set (s1 := if negb (contains (get_service_name src d) s) then _ else s).
  assert (H1 : wf_server s1 /\ (forall n i, subbed s1 n i = subbed s n i)
               /\ (forall n, contains n s = true -> contains n s1 = true)
               /\ contains (get_service_name src d) s1 = true).
  { unfold s1. destruct (contains (get_service_name src d) s) eqn:E; cbn [negb]; [done|].
    split; [apply wf_add_service; [apply wf_new_video_service|done]|].
    split; [|split].
    - intros n i. unfold subbed. cbn [services add_service with_services].
      destruct (decide (n = get_service_name src d)) as [->|Hne].
      + rewrite lookup_insert_eq. symmetry. by apply subbed_not_contains.
      + by rewrite lookup_insert_ne.
    - intros n Hn. unfold contains in *. cbn [services add_service with_services].
      apply bool_decide_eq_true in Hn. apply bool_decide_eq_true.
      apply lookup_insert_is_Some'. by right.
    - unfold contains. cbn [services add_service with_services].
      apply bool_decide_eq_true. apply lookup_insert_is_Some'. by left. }
  destruct H1 as (A1 & A2 & A3 & A4). clearbody s1. destruct (IH s1 A1) as (B1 & B2 & B3 & B4).
  fold (ensure_video_services src ds s1). split; [done|]. split; [|split].
  - intros n i. by rewrite B2.
  - intros n Hn. apply B3, A3, Hn.
  - constructor; [by apply B3|done].
Qed.

(** [d] is one of the displays of a list, by the name of its service. *)
Lemma name_in_list src d ds :
  0 <= d -> Forall (fun x => 0 <= x) ds ->
  bool_decide (get_service_name src d ∈ map (get_service_name src) ds) = bool_decide (d ∈ ds).
Proof.
  intros Hd Hds. apply bool_decide_ext. rewrite list_elem_of_fmap. split.
  - intros (x & Heq & Hx). rewrite Forall_forall in Hds.
    apply get_service_name_inj in Heq as [_ ->]; auto.
  - intros Hx. eauto.
Qed.

(** What [CaptureDisplays] does to the subscription of display [d]: with
    [add] it adds the listed displays, with [set] it makes the subscription
    exactly the listed ones, but with [sub] it does the opposite of its name:
    the listed displays are the ones that are kept, and every display that is
    not listed is unsubscribed. *)
Theorem capture_displays_effect add sub set_ w d :
  wf_server (server (glob w)) -> 0 <= d ->
  Forall (fun x => 0 <= x) (add ++ sub ++ set_) ->
  let n := get_service_name (video_source (conn w)) d in
  receives (Conn.capture_displays add sub set_ w) n =
  match add, sub with
  | _ :: _, _ => bool_decide (d ∈ add) || receives w n
  | [], _ :: _ => bool_decide (d ∈ sub) && receives w n
  | [], [] => bool_decide (d ∈ set_)
  end.
Proof.
  intros Hw Hd Hpos. cbv zeta. set (src := video_source (conn w)). set (n := get_service_name src d).
  apply Forall_app in Hpos as [Hpa Hpos]. apply Forall_app in Hpos as [Hpb Hpc].
  destruct (ensure_video_services_spec src add (server (glob w)) Hw) as (A1 & A2 & A3 & A4).
  set (s1 := ensure_video_services src add (server (glob w))) in *.
  destruct (ensure_video_services_spec src set_ s1 A1) as (B1 & B2 & B3 & B4).
  set (s2 := ensure_video_services src set_ s1) in *.
  set (ci := inner (conn w)).
  set (s3 := match add, sub with
             | _ :: _, _ => Server.capture_displays ci src add true false s2
             | [], _ :: _ => Server.capture_displays ci src sub false true s2
             | [], [] => Server.capture_displays ci src set_ true true s2
             end).
  assert (Hw3 : wf_server s3) by (unfold s3; repeat case_match; by apply wf_capture_displays).
  assert (receives (Conn.capture_displays add sub set_ w) n = subbed s3 n (Service.id ci)) as ->.
  { unfold Conn.capture_displays. cbv zeta. fold src.
    set (w3 := upd _ (on_server _ (on_server _ (on_server _ w)))).
    assert (Hs3 : server (glob w3) = s3) by (unfold s3; by destruct add, sub).
    assert (Hi3 : inner (conn w3) = ci) by done.
    clearbody w3. destruct (follow_remote_window (conn w3)).
    - rewrite receives_subscribe by by rewrite Hs3.
      rewrite bool_decide_false; [cbn [andb]; unfold receives; by rewrite Hs3, Hi3|].
      intros Heq. pose proof (get_service_name_video src d) as Hv. fold n in Hv. by rewrite Heq in Hv.
    - unfold receives. by rewrite Hs3, Hi3. }
  assert (Hbase : forall m, subbed s2 m (Service.id ci) = receives w m).
  { intros m. unfold receives. by rewrite B2, A2. }
  assert (Hnone : contains n s2 = false -> receives w n = false /\ d ∉ add /\ d ∉ set_).
  { intros Hn. split; [by rewrite <-Hbase; apply subbed_not_contains|].
    rewrite Forall_forall in A4, B4. split; intros Hin.
    - apply A4, B3 in Hin. unfold n in Hn. congruence.
    - apply B4 in Hin. unfold n in Hn. congruence. }
  unfold s3. destruct add as [|a add]; [destruct sub as [|b sub]|];
    rewrite subbed_capture_displays by done; rewrite Z.eqb_refl, andb_true_r, Hbase;
    unfold captured; unfold n; rewrite get_service_name_video, name_in_list by done; fold n;
    (destruct (contains n s2); [by case_bool_decide|]);
    destruct (Hnone eq_refl) as (Hr & Ha & Hs); rewrite Hr.
  - by rewrite bool_decide_false.
  - by rewrite andb_false_r.
  - by rewrite bool_decide_false.
Qed.

(** *** Witnesses *)

Definition subs_world : World :=
  let s := add_service (Service.new NAME_FILE_CLIPBOARD false)
             (add_service (new_video_service Monitor 2) demo_server) in
  let ci := inner (conn (demo_world None)) in
  let s := subscribe NAME_FILE_CLIPBOARD ci true (subscribe "monitor0" ci true (subscribe "monitor1" ci true s)) in
  (demo_world None) <| glob := (glob (demo_world None)) <| server := s |> |>.

Lemma subs_world_wf : wf_server (server (glob subs_world)).
Proof.
  apply wf_subscribe, wf_subscribe, wf_subscribe.
  apply wf_add_service; [apply Service.wf_new_service|].
  apply wf_add_service; [apply wf_new_video_service|]. apply demo_server_wf.
Qed.

Lemma revoked_clipboard_keeps_files_witness :
  receives (snd (on_cm demo_env (SwitchPermission "clipboard" false) subs_world)) NAME_FILE_CLIPBOARD = true.
Proof.
  apply (revoked_clipboard_keeps_files demo_env subs_world subs_world_wf); vm_compute; reflexivity.
Defined.

Lemma switch_subscribes_unauthorized_witness :
  receives (snd (on_cm demo_env (SwitchPermission "clipboard" true) subs_world)) NAME_CLIPBOARD = true.
Proof.
  apply (switch_subscribes_unauthorized demo_env subs_world subs_world_wf); vm_compute; reflexivity.
Defined.

Lemma capture_displays_effect_witness :
  receives (Conn.capture_displays [] [1] [] subs_world) "monitor1" = true
  /\ receives (Conn.capture_displays [] [1] [] subs_world) "monitor0" = false.
Proof.
  split.
  - change "monitor1" with (get_service_name (video_source (conn subs_world)) 1).
    rewrite (capture_displays_effect [] [1] [] subs_world 1 subs_world_wf); [vm_compute; reflexivity|lia|].
    repeat constructor; lia.
  - change "monitor0" with (get_service_name (video_source (conn subs_world)) 0).
    rewrite (capture_displays_effect [] [1] [] subs_world 0 subs_world_wf); [vm_compute; reflexivity|lia|].
    repeat constructor; lia.
Defined.

End Subs.

(** ** Modifier keys *)
Module Keys.

Import Msg Conn Auth.

Lemma timer_pressed e w :
  pressed_modifiers (conn (update_auto_disconnect_timer e w)) = pressed_modifiers (conn w).
Proof.
  unfold update_auto_disconnect_timer, upd. cbn [conn set_field].
  by destruct (auto_disconnect_timer (conn w)) as [[? ?]|].
Qed.

Lemma key_event_pressed e k w :
  pressed_modifiers (conn (snd (on_key_event e k w))) ⊆ pressed_modifiers (conn w).
Proof.
  unfold on_key_event. destruct (is_authed_view_camera_conn (conn w)); [done|].
  cbn [snd]. rewrite timer_pressed. destruct (peer_keyboard_enabled (conn w)); [|done].
  destruct (modifier_key e k) as [m|].
  - rewrite orb_true_r, andb_false_r. cbv zeta.
    destruct (is_enter k); apply subseteq_difference_l; reflexivity.
  - cbv zeta. destruct (_ && _); [destruct (k_union k) as [[]|]|]; destruct (is_enter k); reflexivity.
Qed.

(** The events of one connection, in order. *)
Definition run_keys (e : Env) (ks : list KeyEvent) (w : World) : World :=
  fold_left (fun w k => snd (on_key_event e k w)) ks w.

(** On Linux the set of pressed modifiers is dead: whatever key events a
    peer sends, a connection that starts with no pressed modifiers never
    records one (a modifier is never treated as a press, and only a press is
    recorded), so [release_pressed_modifiers] has nothing to release when the
    connection ends. *)
Theorem pressed_modifiers_never_recorded e ks w :
  pressed_modifiers (conn w) = ∅ -> pressed_modifiers (conn (run_keys e ks w)) = ∅.
Proof.
  revert w. induction ks as [|k ks IH]; intros w Hw; [done|]. cbn [run_keys fold_left]. apply IH.
  pose proof (key_event_pressed e k w) as H. rewrite Hw in H. by apply equiv_empty_L in H.
Qed.

Lemma pressed_modifiers_never_recorded_witness :
  pressed_modifiers (conn (run_keys demo_env [mkKeyEvent true false (Some (Chr 42)) (Some Map) []]
                             (demo_world None))) = ∅.
Proof. apply (pressed_modifiers_never_recorded demo_env _ (demo_world None)). reflexivity. Defined.

End Keys.
