(* ===== verification/ConnectionLoop.v ===== *)
(** * The loop of an incoming connection ([src/server/connection.rs])

    [Connection::start] from the opening to the end of the connection: the
    branches of the [select!] loop around the handlers of the component
    [Connection], the clean-up after it, and the loop that copies the bytes of
    a tunnel.

    - A [LoopEvent] is one branch of the [select!] with what it received;
      [loop_step] handles it and says whether the loop goes on.
    - [finish] is what follows the loop, [drop_connection] what Rust drops at
      the end of the function; [forward_step] is the tunnel.
    - [LEnv] adds to the surroundings of the handlers what the loop looks at:
      the display under a position and the bit rate of the video service.

    No privacy mode is implemented on Linux, so nobody holds it at the end. *)

From S2P Require Import Prelude RustStr Messages NetUtil FileTransfer FileManager ClipFiles FusePaste ClipMsg.
From S2P Require Import Service Server Config Connection ConnectionAuth.

Module Loop.

Import Msg Service Server Conn.

Record LEnv : Type := mkLEnv {
  le : Env;
  display_at : Z -> Z -> option Z;              (* the display a position is on *)
  qos_bitrate : Z }.

(** What the connection manager reports of the privacy mode. *)
Inductive PrivacyOff : Type := OffSucceeded | OffByPeer | OffUnknown.

(** The branches; the outcome of writing to the stream is an input.  When it
    fails the connection ends, whatever part of the tick was written. *)
Inductive LoopEvent : Type :=
| LCm (o : CmOrder)
| LCmRaw (data : list Z)                          (* a raw message that is not of the protocol *)
| LCmPrivacy (s : PrivacyOff) (impl_key : string)
| LCmFile (conn_id : Z) (m : FileMgr.FromCm)
| LStreamErr (err : string)
| LStreamEnd
| LStreamMsg (m : Message)
| LStreamGarbage                                (* bytes that are no message *)
| LFileTick (os_read : list Z -> Z -> result nat string) (zcompress : list Z -> list Z) (sent : result unit string)
| LWebConsole (conns : list Z)
| LVideo (m : Message) (sent : result unit string)
| LOut (sent_at : Z) (m : Message) (first_text : option (list Z)) (sent : result unit string)
| LSecond
| LTestDelay
| LClip (c : ClipFiles.ClipboardFile).

Set Primitive Projections.
Record LState : Type := mkLState { lw : World; last_recv_time : Z }.
Unset Primitive Projections.

Definition SEC30 : Z := 30000.
Definition H1 : Z := 3600000.
Definition SEND_TIMEOUT_VIDEO : Z := 12000.
Definition SEND_TIMEOUT_OTHER : Z := SEND_TIMEOUT_VIDEO * 10.

(** ** Before the loop *)

Definition send_timeout (c : Connection) : Z :=
  if match file_transfer c with Some _ => true | None => false end
     || match port_forward_socket c with Some _ => true | None => false end || terminal c
  then SEND_TIMEOUT_OTHER else SEND_TIMEOUT_VIDEO.

(** The permissions that are off are announced. *)
Definition send_disabled (w : World) : World :=
  let off (p : Permission) (enabled : bool) (w : World) := if enabled then w else send_permission p false w in
  let c := conn w in
  off BlockInput (block_input c) (off Recording (recording c) (off Restart (restart c) (off File (file c)
    (off Audio (audio c) (off Clipboard (clipboard c) (off Keyboard (keyboard c) w)))))).

(** *** The guards of [raii]: what a connection enters into the tables of the
    process, and takes out again when the guard is dropped *)

Definition ConnectionID_new (id : Z) (g : Global) : Global := g <| ALIVE_CONNS := ALIVE_CONNS g ++ [id] |>.

Definition ConnectionID_drop (id : Z) (g : Global) : Global :=
  g <| ALIVE_CONNS := List.filter (fun c => negb (c =? id)) (ALIVE_CONNS g) |>.

Definition ControlPermissionsID_new (id : Z) (cp : option Z) (g : Global) : Global :=
  match cp with
  | Some p => g <| CONTROL_PERMISSIONS_ARRAY := CONTROL_PERMISSIONS_ARRAY g ++ [(id, p)] |>
  | None => g
  end.

Definition ControlPermissionsID_drop (id : Z) (cp : option Z) (g : Global) : Global :=
  match cp with
  | Some _ => g <| CONTROL_PERMISSIONS_ARRAY :=
                     List.filter (fun x => negb (fst x =? id)) (CONTROL_PERMISSIONS_ARRAY g) |>
  | None => g
  end.

(** What the connections of the process say together about a permission. *)
Definition get_control_permission_state (p : ControlPermission) (disable_if_has_disabled : bool) (g : Global)
  : option bool :=
  let states := map (fun x => get_control_permission (snd x) p) (CONTROL_PERMISSIONS_ARRAY g) in
  let has_enable := existsb (fun s => bool_decide (s = Some true)) states in
  let has_disable := existsb (fun s => bool_decide (s = Some false)) states in
  if disable_if_has_disabled then
    if has_disable then Some false else if has_enable then Some true else None
  else
    if has_enable then Some true else if has_disable then Some false else None.

(** [Connection::start] up to the loop: the state in which the loop begins
    and the time-out of the stream, or [None] when the peer is turned away. *)
Definition start (e : Env) (addr : IpAddr) (w : World) : World * option (LState * Z) :=
  let w := updg (ConnectionID_new (id (inner (conn w)))) w in
  let w := updg (ControlPermissionsID_new (id (inner (conn w))) (control_permissions (conn w))) w in
  let '(ok, w) := on_open e addr w in
  if negb ok then (upd (fun c => c <| closed := true |>) w, None)
  else
    let w := send_disabled w in
    (w, Some (mkLState w (now e), send_timeout (conn w))).

(** ** The branches *)

Definition keep (s : LState) (r : bool * World) : bool * LState := (fst r, s <| lw := snd r |>).

(** [on_close] and [break] *)
Definition close (lock : bool) (w : World) : bool * World := (false, on_close lock w).

Definition privacy_state (s : PrivacyOff) : PrivacyModeState :=
  match s with OffSucceeded => PrvOffSucceeded | OffByPeer => PrvOffByPeer | OffUnknown => PrvOffUnknown end.

Definition on_cm_file (conn_id : Z) (m : FileMgr.FromCm) (w : World) : World :=
  if FileMgr.for_connection (id (inner (conn w))) conn_id m then
    let '(outs, s) := FileMgr.on_from_cm m (fm (conn w)) in
    emit_all (map Files outs) (upd (fun c => c <| fm := s |>) w)
  else w.

Definition handle_cursor_switch_display (e : LEnv) (x y : Z) (w : World) : World :=
  if multi_ui_session (conn w) then w
  else match display_at e x y with
       | Some d => if negb (display_idx (conn w) =? d) then send (MMisc (FollowCurrentDisplay d)) w else w
       | None => w
       end.

(** [is_support_multi_clipboard] of [src/clipboard.rs] *)
Definition is_support_multi_clipboard (peer_version peer_platform : string) : bool :=
  if Version.get_version_number peer_version <? Version.get_version_number "1.3.0" then false
  else if String.eqb peer_platform "" || String.eqb peer_platform "iOS" then false
  else if String.eqb peer_platform "Android"
          && (Version.get_version_number peer_version <? Version.get_version_number "1.3.3") then false
  else true.

(** [stream.send] and, when it fails, [on_close] and [break]. *)
Definition send_or_close (m : Message) (sent : result unit string) (w : World) : bool * World :=
  match sent with Ok _ => (true, send m w) | Err _ => close false w end.

Definition on_out (e : LEnv) (sent_at : Z) (m : Message) (first_text : option (list Z)) (sent : result unit string)
  (w : World) : bool * World :=
  match m with
  | MAudioFrame _ => if 1000 <? now (le e) - sent_at then (true, w) else send_or_close m sent w
  | MMisc StopService => close false (send_close_reason_no_retry "" w)
  | MPeerInfo _ => send_or_close m sent (refresh_video_display None w)
  | MCursorPosition x y =>
    send_or_close m sent (if follow_remote_cursor (conn w) then handle_cursor_switch_display e x y w else w)
  | MMultiClipboards _ =>
    if is_support_multi_clipboard (lr_version (lr (conn w))) (lr_my_platform (lr (conn w))) then send_or_close m sent w
    else match first_text with
         | Some text => send_or_close (MClipboard text) sent w
         | None => send_or_close m sent w
         end
  | _ => send_or_close m sent w
  end.

Definition on_second (e : LEnv) (w : World) : bool * World :=
  let expired := match auto_disconnect_timer (conn w) with
                 | Some (instant, minute) => minute * 60 <? (now (le e) - instant) / 1000
                 | None => false
                 end in
  if expired then close true (send_close_reason_no_retry "Connection failed due to inactivity" w)
  else
    let '(outs, c) := FileMgr.on_timer (now (le e)) (id (inner (conn w)))
                        (FileMgr.file_remove_log_control (fm (conn w))) in
    (true, emit_all (map Files outs) (upd (fun cn => cn <| fm := FileMgr.with_remove_log c (fm cn) |>) w)).

Definition on_test_delay_timer (e : LEnv) (last_recv : Z) (w : World) : bool * World :=
  if SEC30 <=? now (le e) - last_recv then close true w
  else
    let forwarding := match port_forward_socket (conn w) with Some _ => true | None => false end
                      && authorized (conn w) in
    let w := match last_test_delay (conn w) with
             | None => if negb forwarding then
                         send (MTestDelay (mkTestDelay 0 false (network_delay (conn w)) (qos_bitrate e)))
                           (upd (fun c => c <| last_test_delay := Some (now (le e)) |>) w)
                       else w
             | Some _ => w
             end in
    (true, if is_authed_remote_conn (conn w) || view_camera (conn w) then
             match last_test_delay (conn w) with
             | Some t => emit (QosElapsed (now (le e) - t)) w
             | None => w
             end
           else w).

(** [handle_file_clip] *)
Definition handle_file_clip (e : Env) (clip : ClipFiles.ClipboardFile) (w : World) : World :=
  let stop := ClipFiles.is_stopping_allowed clip && negb (file_transfer_enabled (conn w)) in
  if stop then w
  else if ClipFiles.is_beginning_message clip
          && String.eqb (get_builtin_option e "one-way-file-transfer") "Y" then w
  else send (ClipMsg.clip_2_msg (metadata_len e) clip) w.

(** [conn.video_ack_required] is off: a frame counts as fetched when it is sent. *)
Definition on_video (m : Message) (sent : result unit string) (w : World) : bool * World :=
  let w := if negb (video_ack_required (conn w))
           then match m with MVideoFrame _ _ => emit VideoFetched w | _ => w end else w in
  send_or_close m sent w.

Definition loop_step (e : LEnv) (ev : LoopEvent) (s : LState) : bool * LState :=
  let w := lw s in
  match ev with
  | LCm o => keep s (on_cm (le e) o w)
  | LCmRaw data => keep s (true, emit (RawToPeer data) w)
  | LCmPrivacy st key => keep s (true, send (MMisc (BackPrivacyMode (privacy_state st) "" key)) w)
  | LCmFile conn_id m => keep s (true, on_cm_file conn_id m w)
  | LStreamErr _ | LStreamEnd => keep s (close true w)
  | LStreamMsg m => keep (s <| last_recv_time := now (le e) |>) (on_recv (le e) m w)
  | LStreamGarbage =>
    keep (s <| last_recv_time := now (le e) |>)
      (true, match session_last_recv_time (conn w) with
             | Some cell => updg (fun g => g <| cells := <[ cell := now (le e) ]> (cells g) |>) w
             | None => w
             end)
  | LFileTick os_read zcompress sent =>
    match FileMgr.read_jobs (fm (conn w)) with
    | [] => (true, s)
    | _ =>
      let '(outs, f) := FileMgr.on_file_timer (fm_env (le e) (conn w)) os_read zcompress (fm (conn w)) in
      let w := emit_all (map Files outs) (upd (fun c => c <| fm := f |>) w) in
      keep s (match sent with Ok _ => (true, w) | Err _ => close false w end)
    end
  | LWebConsole conns =>
    keep s (if existsb (Z.eqb (id (inner (conn w)))) conns
            then close true (send_close_reason_no_retry "Closed manually by web console" w) else (true, w))
  | LVideo m sent => keep s (on_video m sent w)
  | LOut sent_at m first_text sent => keep s (on_out e sent_at m first_text sent w)
  | LSecond => keep s (on_second e w)
  | LTestDelay => keep s (on_test_delay_timer e (last_recv_time s) w)
  | LClip c => keep s (true, if is_support_file_copy_paste (lr_version (lr (conn w)))
                             then handle_file_clip (le e) c w else w)
  end.

(** The loop on the events it gets: still running, or left. *)
Inductive Run : Type := Running (s : LState) | Left (s : LState).

Fixpoint loop_run (evs : list (LEnv * LoopEvent)) (s : LState) : Run :=
  match evs with
  | [] => Running s
  | (e, ev) :: evs => let '(go_on, s) := loop_step e ev s in if go_on then loop_run evs s else Left s
  end.

(** ** The tunnel: [try_port_forward_loop] *)

Inductive FwdEvent : Type :=
| FCmClose | FCmErr (err : string) | FCmOther
| FTarget (r : option (result (list Z) string)) (sent : result unit string)  (* from the forwarded socket *)
| FStream (r : option (result (list Z) string)) (sent : result unit string)  (* from the peer *)
| FTimer
| FWebConsole (conns : list Z).

Inductive FwdOut : Type := ToTarget (data : list Z) | FwdToPeer (data : list Z).

(** One branch: the bytes that are passed on and the time of the last ones,
    or the error the loop ends with. *)
Definition forward_step (now conn_id : Z) (ev : FwdEvent) (last_recv : Z) : result (list FwdOut * Z) string :=
  let pass (wrap : list Z -> FwdOut) (reset : string) (r : option (result (list Z) string)) (sent : result unit string) :=
    match r with
    | None => Err reset
    | Some (Err err) => Err err
    | Some (Ok data) => match sent with Ok _ => Ok ([wrap data], now) | Err err => Err err end
    end in
  match ev with
  | FCmClose => Err "Close requested from connection manager"
  | FCmErr err => Err err
  | FCmOther => Ok ([], last_recv)
  | FTarget r sent => pass FwdToPeer "Forward reset by the peer" r sent
  | FStream r sent => pass ToTarget "Stream reset by the peer" r sent
  | FTimer => if H1 <=? now - last_recv then Err "Timeout" else Ok ([], last_recv)
  | FWebConsole conns =>
    if existsb (Z.eqb conn_id) conns then Err "Closed manually by the web console" else Ok ([], last_recv)
  end.

(** The whole loop; [inl] when the events run out first. *)
Fixpoint forward_run (conn_id : Z) (evs : list (Z * FwdEvent)) (last_recv : Z) (out : list FwdOut)
  : list FwdOut * (Z + string) :=
  match evs with
  | [] => (out, inl last_recv)
  | (now, ev) :: evs =>
    match forward_step now conn_id ev last_recv with
    | Ok (o, last_recv) => forward_run conn_id evs last_recv (out ++ o)
    | Err err => (out, inr err)
    end
  end.

(** ** After the loop *)

(** The authorized connections that show the desktop. *)
Definition remote_count (g : Global) : Z :=
  len (List.filter (fun c => bool_decide (ac_conn_type c = Remote)) (AUTHED_CONNS g)).

(** [try_stop_record_cursor_pos] of [input_service.rs] *)
Definition try_stop_record_cursor_pos (g : Global) : Global :=
  if 0 <? remote_count g then g else g <| RECORD_CURSOR_POS_RUNNING := false |>.

(** The copying loop of a tunnel ends with an error in every case. *)
Definition finish (w : World) : World :=
  let w := emit EmptyFileClipboard w in
  let w := emit VideoFetched w in
  let w := if authorized (conn w) then emit NewTemporaryPassword w else w in
  let w := match port_forward_socket (conn w) with
           | Some addr =>
             let w := emit (Forward addr) (upd (fun c => c <| port_forward_socket := None |>) w) in
             let w := on_close false w in
             updg (check_remove_session (id (inner (conn w))) (session_key (conn w))) w
           | None => w
           end in
  let w := emit (ConnAudit "close") w in
  let w := on_server (remove_connection (inner (conn w))) w in
  let w := updg try_stop_record_cursor_pos w in
  on_close true w.

(** ** Leaving [start]: the connection and its guards are dropped *)

(** [AuthedConnID::drop] *)
Definition authed_drop (conn_id : Z) (t : AuthConnType) (w : World) : World :=
  let w := match t with Remote | ViewCamera => emit QosClose (emit EncoderRemove w) | _ => w end in
  let w := updg (fun g => g <| AUTHED_CONNS :=
                   List.filter (fun c => negb (ac_conn_id c =? conn_id)) (AUTHED_CONNS g) |>) w in
  let w := if remote_count (glob w) =? 0 then emit RestoreDesktop w else w in
  emit WhiteboardOff (emit WakeLock w).

(** [Connection::drop], then its fields, then the locals of [start] in the
    reverse order of their declaration. *)
Definition drop_connection (w : World) : World :=
  let cid := id (inner (conn w)) in
  let w := emit_all (map ReleaseKey (elements (pressed_modifiers (conn w)))) w in
  let w := upd (fun c => c <| pressed_modifiers := ∅ |>) w in
  let w := if terminal_generic_service (conn w) then emit TerminalJoin w else w in
  let w := match authed_conn_id (conn w) with Some t => authed_drop cid t w | None => w end in
  let w := updg (ControlPermissionsID_drop cid (control_permissions (conn w))) w in
  updg (ConnectionID_drop cid) w.

End Loop.
