(* ===== verification/ConnectionLoopProofs.v ===== *)
(** * What the loop of a connection guarantees

    - [Life]: the invariant of a connection from its start to its end: the
      connection manager is told of the end exactly once, and no service
      delivers to a connection that has ended;
    - [Silence]: a peer that stops sending is dropped;
    - [Tunnel]: the tunnel that outlives a refused login. *)

From S2P Require Import Prelude RustStr Messages NetUtil FileTransfer FileManager ClipFiles FusePaste ClipMsg.
From S2P Require Import Service Server Config Connection ConnectionAuth ConnectionSafety ConnectionLoop.

Module Life.

Import Msg Service Server Conn Auth Loop.

(** What the connection manager is told when a connection ends. *)
Definition is_notice (ef : Effect) : bool :=
  match ef with Cm CmClose | Cm CmDisconnected => true | _ => false end.

Definition notices (l : list Effect) : nat := length (List.filter is_notice l).

(** The connection is in the table of authorized connections only while it
    holds the guard that takes it out. *)
Definition unlisted (ci : ConnInner) (g : Global) : Prop :=
  Forall (fun c => ac_conn_id c <> id ci) (AUTHED_CONNS g).

(** The invariant: one notice if and only if the connection is closed; the
    server is well formed; the connection keeps its identity; its entries in
    the tables have their guards. *)
Definition good (ci : ConnInner) (w : World) : Prop :=
  notices (out w) = (if closed (conn w) then 1 else 0)%nat
  /\ wf_server (server (glob w)) /\ inner (conn w) = ci
  /\ (authed_conn_id (conn w) = None -> unlisted ci (glob w))
  /\ (control_permissions (conn w) = None -> Forall (fun x => x.1 <> id ci) (CONTROL_PERMISSIONS_ARRAY (glob w))).

(** What the steps of a handler leave alone. *)
Definition kept_conn (c c' : Connection) : Prop :=
  closed c' = closed c /\ inner c' = inner c /\ authed_conn_id c' = authed_conn_id c
  /\ control_permissions c' = control_permissions c.
Definition kept_glob (g g' : Global) : Prop :=
  server g' = server g /\ AUTHED_CONNS g' = AUTHED_CONNS g
  /\ CONTROL_PERMISSIONS_ARRAY g' = CONTROL_PERMISSIONS_ARRAY g.

Lemma notices_app l k : notices (l ++ k) = (notices l + notices k)%nat.
Proof. unfold notices. by rewrite List.filter_app, length_app. Qed.

Lemma notices_none l : Forall (fun ef => is_notice ef = false) l -> notices l = 0%nat.
Proof. unfold notices. induction 1 as [|ef l H _ IH]; [done|]. cbn. by rewrite H. Qed.

Lemma notices_emit ef w :
  notices (out (emit ef w)) = (notices (out w) + if is_notice ef then 1 else 0)%nat.
Proof. etransitivity; [apply (notices_app (out w) [ef])|]. unfold notices. cbn. by destruct (is_notice ef). Qed.

Section Keep.
Context (ci : ConnInner).
Notation good := (good ci).

Lemma good_emit ef w : is_notice ef = false -> good w -> good (emit ef w).
Proof.
  intros He (Hn & Hw & Hi). split; [|done]. cbn [emit set_field out conn].
  rewrite notices_app, Hn, notices_none, Nat.add_0_r by by repeat constructor. done.
Qed.

Lemma good_emit_all l w : Forall (fun ef => is_notice ef = false) l -> good w -> good (emit_all l w).
Proof.
  intros Hl (Hn & Hw & Hi). split; [|done]. cbn [emit_all set_field out conn].
  rewrite notices_app, Hn, notices_none, Nat.add_0_r by done. done.
Qed.

Lemma good_upd f w : kept_conn (conn w) (f (conn w)) -> good w -> good (upd f w).
Proof.
  intros (Hc & Hi & Ha & Hp) (Hn & Hw & H & Hu & Hcp). unfold Life.good, upd. cbn [set_field out conn glob].
  by rewrite Hc, Hi, Ha, Hp.
Qed.

Lemma good_updg f w : kept_glob (glob w) (f (glob w)) -> good w -> good (updg f w).
Proof.
  intros (Hs & Ha & Hp) (Hn & Hw & H & Hu & Hcp). unfold Life.good, unlisted, updg. cbn [set_field out conn glob].
  by rewrite Hs, Ha, Hp.
Qed.

Lemma good_on_server f w : (wf_server (server (glob w)) -> wf_server (f (server (glob w)))) -> good w -> good (on_server f w).
Proof. intros Hf (Hn & Hw & H). split; [done|]. split; [by apply Hf|done]. Qed.

Lemma good_subscribe n b w : good w -> good (subscribe_w n b w).
Proof. intros H. apply good_on_server; [apply wf_subscribe|done]. Qed.

Lemma good_check_remove k key w : good w -> good (updg (check_remove_session k key) w).
Proof. intros H. apply good_updg; [|done]. unfold check_remove_session. case_match; [cbv zeta; by case_match|done]. Qed.

Lemma good_update_session e k p t w : good w -> good (updg (update_or_insert_session e k p t) w).
Proof. intros H. apply good_updg; [|done]. unfold update_or_insert_session, new_cell. by case_match. Qed.

Lemma good_set_2fa e k w : good w -> good (updg (set_session_2fa e k) w).
Proof. intros H. apply good_updg; [|done]. unfold set_session_2fa, new_cell. by case_match. Qed.

(** Closing is where the notice comes from. *)
Lemma good_on_close b w : good w -> good (on_close b w) /\ closed (conn (on_close b w)) = true.
Proof.
  intros H. unfold on_close. destruct (closed (conn w)) eqn:Hc; [done|]. cbv zeta.
  destruct H as (Hn & Hrest). rewrite Hc in Hn.
  set (w1 := if _ && _ && _ then _ else _).
  assert (H1 : notices (out w1) = 0%nat /\ closed (conn w1) = true
               /\ kept_glob (glob w) (glob w1) /\ inner (conn w1) = inner (conn w)
               /\ authed_conn_id (conn w1) = authed_conn_id (conn w)
               /\ control_permissions (conn w1) = control_permissions (conn w)).
  { unfold w1. case_match; (split; [|by repeat split]); rewrite !notices_emit; cbn [is_notice];
      rewrite !Nat.add_0_r; exact Hn. }
  clearbody w1. destruct H1 as (H1 & H2 & (H3 & H4 & H5) & H6 & H7 & H8). split; [|exact H2]. split.
  - etransitivity; [apply (notices_emit _ w1)|]. rewrite H1. change (closed (conn (upd _ _))) with (closed (conn w1)).
    rewrite H2. by destruct (chat_unanswered _ || _).
  - change (wf_server (server (glob w1)) /\ inner (conn w1) = ci
      /\ (authed_conn_id (conn w1) = None -> Forall (fun c => ac_conn_id c <> id ci) (AUTHED_CONNS (glob w1)))
      /\ (control_permissions (conn w1) = None ->
           Forall (fun x => x.1 <> id ci) (CONTROL_PERMISSIONS_ARRAY (glob w1)))).
    by rewrite H3, H4, H5, H6, H7, H8.
Qed.

Lemma good_close b w : good w -> good (on_close b w).
Proof. apply good_on_close. Qed.

End Keep.

(** Follow a handler down to the primitive steps. *)
Ltac tend_here :=
  cbv zeta; cbn [fst snd];
  repeat match goal with
         | H : good ?ci ?w |- good ?ci ?w => exact H
         | |- good _ (emit _ _) => apply good_emit; [reflexivity|]
         | |- good _ (send _ _) => apply good_emit; [reflexivity|]
         | |- good _ (send_to_cm _ _) => apply good_emit; [reflexivity|]
         | |- good _ (send_login_error _ _ _) => apply good_emit; [reflexivity|]
         | |- good _ (send_permission _ _ _) => apply good_emit; [reflexivity|]
         | |- good _ (turn_on_privacy _ _) => apply good_emit; [reflexivity|]
         | |- good _ (turn_off_privacy _ _) => apply good_emit; [reflexivity|]
         | |- good _ (try_start_cm _ _ _ _) => apply good_emit; [reflexivity|]
         | |- good _ (subscribe_w _ _ _) => apply good_subscribe
         | |- good _ (on_close _ _) => apply good_close
         | |- good _ (updg (check_remove_session _ _) _) => apply good_check_remove
         | |- good _ (updg (update_or_insert_session _ _ _ _) _) => apply good_update_session
         | |- good _ (updg (set_session_2fa _ _) _) => apply good_set_2fa
         | |- good _ (updg _ _) => apply good_updg; [by repeat split|]
         | |- good _ (update_failure_w _ _ _ _ _) => apply good_updg; [by repeat split|]
         | |- good _ (upd _ _) => apply good_upd; [by repeat split|]
         | |- good _ (if ?b then _ else _) => destruct b eqn:?
         | |- good _ (match ?x with _ => _ end) => destruct x eqn:?
         | |- good _ (snd (if ?b then _ else _)) => destruct b eqn:?; cbn [fst snd]
         | |- good _ (snd (match ?x with _ => _ end)) => destruct x eqn:?; cbn [fst snd]
         end.

Create HintDb life discriminated.
#[local] Hint Constants Opaque : life.
#[local] Hint Extern 5 (good _ _) => (progress tend_here) : life.

Ltac tend := tend_here; repeat (progress (eauto 10 with life); tend_here).

Section Handlers.
Context (e : Env) (ci : ConnInner).
Notation good := (good ci).

Lemma good_when_set o k w : (forall b w, good w -> good (k b w)) -> good w -> good (when_set o k w).
Proof. intros Hk Hw. destruct o as [[]|]; cbn [when_set]; auto. Qed.

Lemma good_subscribe_audio w : good w -> good (subscribe_audio w).
Proof. intros. unfold subscribe_audio. tend. Qed.
Hint Resolve good_subscribe_audio : life.

Lemma good_show_my_cursor b w : good w -> good (opt_show_my_cursor e b w).
Proof. intros. unfold opt_show_my_cursor. tend. Qed.
Hint Resolve good_show_my_cursor : life.

Lemma good_timer w : good w -> good (update_auto_disconnect_timer e w).
Proof. intros. apply good_upd; [|done]. by destruct (auto_disconnect_timer (conn w)) as [[]|]; repeat split. Qed.
Hint Resolve good_timer : life.

Lemma good_image_quality o w : good w -> good (opt_image_quality o w).
Proof. intros. unfold opt_image_quality. tend. Qed.
Hint Resolve good_image_quality : life.

Lemma good_block_input o w : good w -> good (opt_block_input o w).
Proof. intros. unfold opt_block_input. tend. Qed.
Hint Resolve good_block_input : life.

Lemma good_privacy_mode o w : good w -> good (opt_privacy_mode o w).
Proof. intros. unfold opt_privacy_mode. tend. Qed.
Hint Resolve good_privacy_mode : life.

Lemma good_update_options o w : good w -> good (update_options e o w).
Proof.
  intros H. unfold update_options. cbv zeta.
  do 2 (apply good_when_set; [intros; tend|]). apply good_block_input, good_privacy_mode.
  do 8 (apply good_when_set; [intros; tend|]). tend.
Qed.
Hint Resolve good_update_options : life.

Lemma good_sub_camera w : good w -> good (try_sub_camera_displays e w).
Proof.
  intros H. apply good_on_server; [|done]. intros Hw. apply wf_add_camera_connection.
  unfold try_add_primary_camera_service. repeat case_match; try done.
  apply wf_add_service; [apply wf_new_video_service|done].
Qed.
Hint Resolve good_sub_camera : life.

Lemma good_sub_monitor w : good w -> good (try_sub_monitor_services e w).
Proof.
  intros H. unfold try_sub_monitor_services. case_match; [|done]. cbv zeta.
  apply good_on_server; [intros; by apply wf_add_connection, wf_try_add_primary|]. tend.
Qed.
Hint Resolve good_sub_monitor : life.

Lemma good_start_services b w : good w -> good (start_services e b w).
Proof.
  intros H. unfold start_services. cbv zeta.
  set (w1 := match options_in_login (conn w) with Some o => _ | None => _ end).
  assert (H1 : good w1) by (unfold w1; tend). clearbody w1. unfold init_terminal_service. tend.
Qed.
Hint Resolve good_start_services : life.

Lemma good_codec w : good w -> good (update_codec_on_login w).
Proof. intros. unfold update_codec_on_login. tend. Qed.
Hint Resolve good_codec : life.

Lemma good_remote_authorized w : good w -> good (on_remote_authorized e w).
Proof. intros. unfold on_remote_authorized. tend. Qed.
Hint Resolve good_remote_authorized : life.

Lemma good_recent b w : good w -> good (snd (is_recent_session e b w)).
Proof. intros. unfold is_recent_session. tend. Qed.
Hint Resolve good_recent : life.

(** The guard and the entry come together. *)
Lemma good_register w : good w -> good (register_authed w).
Proof.
  intros (Hn & Hw & Hi & Ha & Hp). unfold register_authed. cbv zeta. apply good_upd; [by repeat split|].
  split; [|split; [|split; [|split; [done|]]]].
  - destruct (auth_conn_type (conn w)); (etransitivity; [|exact Hn]); cbn [upd set_field out];
      rewrite !notices_emit; cbn [is_notice]; rewrite !Nat.add_0_r; reflexivity.
  - by destruct (auth_conn_type (conn w)).
  - by destruct (auth_conn_type (conn w)).
  - by destruct (auth_conn_type (conn w)).
Qed.
Hint Resolve good_register : life.

Lemma good_logon w : good w -> good (send_logon_response e w).
Proof.
  intros H. unfold send_logon_response. destruct (authorized (conn w)); [done|].
  match goal with |- context [match require_2fa (conn w) with Some _ => ?a | None => ?b end] =>
    set (p := match require_2fa (conn w) with Some _ => a | None => b end) end.
  assert (Hp : good (snd p)).
  { unfold p. destruct (require_2fa (conn w)); [|done].
    pose proof (good_recent true w H). by destruct (is_recent_session e true w). }
  clearbody p. destruct p as [need w1]. cbn [snd] in Hp. destruct need; [tend|]. cbv zeta.
  set (w2 := emit (ConnAudit "authorized") (register_authed _)).
  assert (H2 : good w2) by (unfold w2; tend). clearbody w2.
  destruct (port_forward_socket (conn w2)); [tend|]. destruct (_ && negb _); [tend|].
  destruct (file_transfer (conn w2)); [tend|]. destruct (terminal (conn w2)); [tend|].
  destruct (view_camera (conn w2)); [tend|]. destruct (sync_displays e); tend.
Qed.
Hint Resolve good_logon : life.

(** *** Before authorization *)

Lemma good_handle_login r w : good w -> good (handle_login_request_without_validation e r w).
Proof. intros. unfold handle_login_request_without_validation. tend. Qed.
Hint Resolve good_handle_login : life.

Lemma good_login_kind r w : good w -> good (snd (login_kind e r w)).
Proof.
  intros. unfold login_kind, check_privacy_mode_on, fill_terminal_user_token.
  destruct (lr_union r) as [[| | |]|]; tend.
Qed.

Lemma good_check_failure i w : good w -> good (snd (check_failure_w e i w)).
Proof. intros. unfold check_failure_w. tend. Qed.

Lemma good_validate w : good w -> good (snd (validate_password e w)).
Proof. intros. unfold validate_password. tend. Qed.

Lemma good_login_password r msg w : good w -> good (snd (login_password e r msg w)).
Proof.
  intros H. unfold login_password. apply (good_check_failure 0) in H.
  destruct (check_failure_w e 0 w) as [[f res] w1]. cbn [snd] in H.
  destruct res; cbn [negb snd]; [|done]. apply good_validate in H.
  destruct (validate_password e w1) as [ok w2]. cbn [snd] in H. tend.
Qed.
Hint Resolve good_login_password : life.

Lemma good_cm_ipc w : good w -> good (try_start_cm_ipc w).
Proof. intros. unfold try_start_cm_ipc. tend. Qed.
Hint Resolve good_cm_ipc : life.

Lemma good_login_request r w : good w -> good (snd (on_login_request e r w)).
Proof.
  intros H. unfold on_login_request. apply (good_handle_login r) in H.
  set (w1 := handle_login_request_without_validation e r w) in *. clearbody w1.
  destruct (authorized (conn w1)); [done|]. apply (good_login_kind r) in H.
  destruct (login_kind e r w1) as [go_on w2]. cbn [snd] in H. destruct go_on; [|done]. cbn [negb].
  apply good_cm_ipc in H. set (w3 := try_start_cm_ipc w2) in *. clearbody w3.
  cbv zeta. destruct (negb _ && negb _); [tend|]. destruct (_ && _ && _); [tend|].
  destruct (click_only e); [tend|]. apply (good_recent false) in H.
  destruct (is_recent_session e false w3) as [recent w4]. cbn [snd] in H. tend.
Qed.

Lemma good_auth_2fa code hw w : good w -> good (snd (on_auth_2fa e code hw w)).
Proof.
  intros H. unfold on_auth_2fa. apply (good_check_failure 1) in H.
  destruct (check_failure_w e 1 w) as [[f res] w1]. cbn [snd] in H. tend.
Qed.

Lemma good_switch_sides uuid r w : good w -> good (snd (on_switch_sides_response e uuid r w)).
Proof. intros H. unfold on_switch_sides_response. tend. Qed.

(** *** An authorized peer *)

Lemma good_refresh d w : good w -> good (refresh_video_display d w).
Proof. intros. apply good_on_server; [intros; by apply wf_set_video_service_opt|]. tend. Qed.
Hint Resolve good_refresh : life.

Lemma good_resolution d x y w : good w -> good (change_resolution e d x y w).
Proof. intros. unfold change_resolution. tend. Qed.
Hint Resolve good_resolution : life.

Lemma good_switch_display_to d w : good w -> good (switch_display_to e d w).
Proof.
  intros H. unfold switch_display_to. cbv zeta.
  set (w1 := on_server _ w).
  assert (H1 : good w1).
  { apply good_on_server; [|done]. intros Hw. case_match; [|done].
    apply wf_add_service; [apply wf_new_video_service|done]. }
  clearbody w1. tend.
Qed.
Hint Resolve good_switch_display_to : life.

Lemma good_switch_display s w : good w -> good (handle_switch_display e s w).
Proof. intros H. unfold handle_switch_display. tend. Qed.
Hint Resolve good_switch_display : life.

Lemma good_capture a b c w : good w -> good (Conn.capture_displays a b c w).
Proof.
  intros H. unfold Conn.capture_displays. cbv zeta.
  match goal with |- context [on_server ?f (on_server ?g (on_server ?h w))] =>
    set (w1 := on_server f (on_server g (on_server h w))) end.
  assert (H1 : good w1).
  { apply good_on_server; [intros; repeat case_match; by apply wf_capture_displays|].
    do 2 (apply good_on_server; [intros Hw; by eapply Subs.ensure_video_services_spec|]). done. }
  clearbody w1. tend.
Qed.
Hint Resolve good_capture : life.

Lemma good_voice_call b w : good w -> good (handle_voice_call e b w).
Proof. intros. unfold handle_voice_call. tend. Qed.

Lemma good_close_voice w : good w -> good (close_voice_call w).
Proof. intros. unfold close_voice_call. tend. Qed.
Hint Resolve good_voice_call good_close_voice : life.

Lemma good_input w :
  good w -> (forall m, good (snd (on_mouse_event e m w))) /\ (forall p, good (snd (on_pointer_event e p w)))
            /\ (forall k, good (snd (on_key_event e k w))).
Proof.
  intros H. split; [|split].
  - intros m. unfold on_mouse_event. destruct (is_authed_view_camera_conn _); [done|]. cbn [snd].
    apply good_timer. destruct (is_left_up m); tend.
  - intros p. unfold on_pointer_event. tend.
  - intros k. unfold on_key_event. destruct (is_authed_view_camera_conn _); [done|]. cbn [snd].
    apply good_timer. tend.
Qed.

Lemma good_misc m w : good w -> good (snd (on_misc e m w)).
Proof. intros H. destruct m; cbn [on_misc]; tend. Qed.
Hint Resolve good_misc : life.

Lemma files_no_notice l : Forall (fun ef => is_notice ef = false) (map Files l).
Proof. apply Forall_forall. by intros ef (o & -> & _)%list_elem_of_fmap. Qed.

Lemma good_files l w : good w -> good (emit_all (map Files l) w).
Proof. apply good_emit_all, files_no_notice. Qed.
Hint Resolve good_files : life.

Lemma good_file_action a w : good w -> good (snd (on_file_action e a w)).
Proof. intros. unfold on_file_action, after_files. tend. Qed.
Hint Resolve good_file_action : life.

Lemma good_cliprdr c w : good w -> good (snd (on_cliprdr e c w)).
Proof.
  intros. unfold on_cliprdr. tend. apply good_emit_all; [|tend].
  apply Forall_forall. by intros ef (o & -> & _)%list_elem_of_fmap.
Qed.
Hint Resolve good_cliprdr : life.

Lemma good_authorized_message m w : good w -> good (snd (on_authorized_message e m w)).
Proof.
  intros H. destruct (good_input w H) as (Hm & Hp & Hk).
  destruct m; cbn [on_authorized_message]; auto; tend.
Qed.
Hint Resolve good_authorized_message : life.

Lemma good_message m w : good w -> good (snd (on_message e m w)).
Proof.
  intros H. unfold on_message, on_close_reason, on_test_delay.
  pose proof (good_login_request) as Hl. pose proof good_auth_2fa as Ha. pose proof good_switch_sides as Hs.
  destruct m; auto; tend.
Qed.

Lemma good_recv m w : good w -> good (snd (on_recv e m w)).
Proof.
  intros H. unfold on_recv. set (w1 := match session_last_recv_time (conn w) with Some c => _ | None => _ end).
  assert (H1 : good w1) by (unfold w1; tend). clearbody w1. apply (good_message m) in H1.
  destruct (on_message e m w1) as [go w2]. cbn [snd] in H1. tend.
Qed.

Lemma good_switch_permission n b w : good w -> good (switch_permission e n b w).
Proof. intros. unfold switch_permission. tend. Qed.
Hint Resolve good_switch_permission : life.

Lemma good_cm o w : good w -> good (snd (on_cm e o w)).
Proof. intros H. destruct o; cbn [on_cm]; unfold send_close_reason_no_retry; tend. Qed.

End Handlers.
(** ** The loop *)

Section TheLoop.
Context (ci : ConnInner).
Notation good := (good ci).
#[local] Hint Resolve good_files good_refresh : life.

Lemma good_send_or_close m sent w : good w -> good (snd (send_or_close m sent w)).
Proof. intros H. unfold send_or_close, close. tend. Qed.
Hint Resolve good_send_or_close : life.

Lemma good_out e t m x sent w : good w -> good (snd (on_out e t m x sent w)).
Proof.
  intros H. pose proof (good_send_or_close) as Hs. unfold on_out.
  destruct m; auto; unfold close, send_close_reason_no_retry, handle_cursor_switch_display; tend.
  all: apply Hs; tend.
Qed.

Lemma good_second e w : good w -> good (snd (on_second e w)).
Proof. intros H. unfold on_second, close, send_close_reason_no_retry. tend. Qed.

Lemma good_test_delay_timer e t w : good w -> good (snd (on_test_delay_timer e t w)).
Proof.
  intros H. unfold on_test_delay_timer, close. destruct (SEC30 <=? _); [tend|]. cbn [snd].
  set (w1 := match last_test_delay (conn w) with Some _ => _ | None => _ end).
  assert (H1 : good w1) by (unfold w1; tend). clearbody w1. tend.
Qed.

Lemma good_file_clip e c w : good w -> good (handle_file_clip e c w).
Proof. intros H. unfold handle_file_clip. tend. Qed.
Hint Resolve good_file_clip : life.

Lemma good_video m sent w : good w -> good (snd (on_video m sent w)).
Proof.
  intros H. unfold on_video. apply good_send_or_close. destruct (negb _); [|done]. destruct m; tend.
Qed.

Lemma good_cm_file i m w : good w -> good (on_cm_file i m w).
Proof. intros H. unfold on_cm_file. tend. Qed.

Lemma good_step e ev s : good (lw s) -> good (lw (snd (loop_step e ev s))).
Proof.
  intros H. destruct ev; cbn [loop_step].
  - by apply good_cm.
  - by apply good_emit.
  - by apply good_emit.
  - by apply good_cm_file.
  - by apply good_close.
  - by apply good_close.
  - by apply good_recv.
  - cbn [keep fst snd]. change (good (match session_last_recv_time (conn (lw s)) with
      Some cell => updg (fun g => g <| cells := <[ cell := now (le e) ]> (cells g) |>) (lw s) | None => lw s end)). tend.
  - destruct (FileMgr.read_jobs _); [done|]. destruct (FileMgr.on_file_timer _ _ _ _) as [outs f].
    cbv zeta. destruct sent; [apply good_files|apply good_close, good_files]; by apply good_upd.
  - unfold close, send_close_reason_no_retry. destruct (existsb _ conns); [|done].
    apply good_close, good_check_remove. by apply good_emit.
  - by apply good_video.
  - by apply good_out.
  - by apply good_second.
  - by apply good_test_delay_timer.
  - cbn [keep snd]. change (good (if is_support_file_copy_paste (lr_version (lr (conn (lw s))))
                             then handle_file_clip (le e) c (lw s) else lw s)). tend.
Qed.

Lemma good_run evs s :
  good (lw s) -> match loop_run evs s with Running s' | Left s' => good (lw s') end.
Proof.
  revert s. induction evs as [|[e ev] evs IH]; intros s H; [done|]. cbn [loop_run].
  pose proof (good_step e ev s H) as Hs. destruct (loop_step e ev s) as [go s1]. cbn [snd] in Hs.
  destruct go; [by apply IH|done].
Qed.

Lemma good_open e addr w : good w -> good (snd (on_open e addr w)).
Proof.
  intros H. unfold on_open, check_whitelist. destruct (_ && _ && _); cbn [negb]; tend.
Qed.

Lemma good_disabled w : good w -> good (send_disabled w).
Proof. intros H. unfold send_disabled. tend. Qed.

Lemma good_alive i w : good w -> good (updg (ConnectionID_new i) w).
Proof. intros H. tend. Qed.

Lemma good_permissions i w :
  good w -> good (updg (ControlPermissionsID_new i (control_permissions (conn w))) w).
Proof.
  intros H. unfold ControlPermissionsID_new. destruct (control_permissions (conn w)) eqn:E; [|tend].
  destruct H as (Hn & Hw & Hi & Ha & Hp). split; [done|]. split; [done|]. split; [done|]. split; [done|].
  intros Hnone. change (control_permissions (conn w) = None) in Hnone. congruence.
Qed.

Lemma good_start e addr w w1 s t : good w -> start e addr w = (w1, Some (s, t)) -> good (lw s).
Proof.
  intros H. unfold start. cbv zeta. apply (good_alive (id (inner (conn w)))), (good_permissions (id (inner (conn w)))),
    (good_open e addr), good_disabled in H.
  destruct (on_open e addr _) as [ok w2]. destruct ok; cbn [negb]; [|done]. cbn [snd] in H. cbv zeta.
  intros (_ & [= <- _])%pair_equal_spec. exact H.
Qed.

End TheLoop.

(** ** The end *)

Lemma on_close_glob b w : glob (on_close b w) = glob w.
Proof. unfold on_close. destruct (closed (conn w)); [done|]. cbv zeta. by destruct (b && _ && _). Qed.

Lemma stop_server g : server (try_stop_record_cursor_pos g) = server g.
Proof. unfold try_stop_record_cursor_pos. by case_match. Qed.

Lemma good_stop ci w : good ci w -> good ci (updg try_stop_record_cursor_pos w).
Proof. apply good_updg. unfold try_stop_record_cursor_pos. case_match; by repeat split. Qed.

Lemma finish_good ci w :
  good ci w ->
  good ci (finish w) /\ closed (conn (finish w)) = true
  /\ exists s, wf_server s /\ server (glob (finish w)) = remove_connection ci s.
Proof.
  intros H. unfold finish. cbv zeta.
  match goal with |- context [emit (ConnAudit "close") ?x] => set (w1 := emit (ConnAudit "close") x) end.
  assert (H1 : good ci w1) by (unfold w1; tend). clearbody w1. clear H w.
  assert (H2 : good ci (on_server (remove_connection (inner (conn w1))) w1)).
  { apply good_on_server; [apply wf_remove_connection|done]. }
  apply good_stop in H2. destruct (good_on_close ci true _ H2) as [H3 Hc]. split; [done|]. split; [done|].
  destruct H1 as (_ & Hw & <- & _). exists (server (glob w1)). split; [done|].
  rewrite on_close_glob. apply stop_server.
Qed.

(** *** Dropping the connection *)

Lemma filter_without (A : Type) (key : A -> Z) k (l : list A) :
  Forall (fun x => key x <> k) (List.filter (fun x => negb (key x =? k)) l).
Proof.
  apply Forall_forall. intros x Hx. apply list_elem_of_In, List.filter_In in Hx as [_ Hx].
  apply negb_true_iff, Z.eqb_neq in Hx. done.
Qed.

Lemma authed_drop_spec cid t w :
  let w' := authed_drop cid t w in
  notices (out w') = notices (out w) /\ conn w' = conn w /\ server (glob w') = server (glob w)
  /\ CONTROL_PERMISSIONS_ARRAY (glob w') = CONTROL_PERMISSIONS_ARRAY (glob w)
  /\ AUTHED_CONNS (glob w') = List.filter (fun c => negb (ac_conn_id c =? cid)) (AUTHED_CONNS (glob w)).
Proof.
  unfold authed_drop. cbv zeta.
  set (w1 := match t with Remote | ViewCamera => _ | _ => _ end).
  assert (H1 : notices (out w1) = notices (out w) /\ conn w1 = conn w /\ glob w1 = glob w).
  { unfold w1. destruct t; (split; [|done]); rewrite ?notices_emit; cbn [is_notice]; rewrite ?Nat.add_0_r; done. }
  destruct H1 as (H1 & H2 & H3). clearbody w1.
  rewrite <-H1, <-H2, <-H3. case_match; (split; [|done]); rewrite !notices_emit; cbn [is_notice];
    rewrite !Nat.add_0_r; reflexivity.
Qed.

Lemma drop_spec ci w :
  good ci w ->
  let w' := drop_connection w in
  notices (out w') = notices (out w) /\ closed (conn w') = closed (conn w) /\ server (glob w') = server (glob w)
  /\ unlisted ci (glob w') /\ Forall (fun x => x.1 <> id ci) (CONTROL_PERMISSIONS_ARRAY (glob w'))
  /\ Forall (fun x => x <> id ci) (ALIVE_CONNS (glob w')).
Proof.
  intros (Hn & Hw & Hi & Ha & Hp). unfold drop_connection. cbv zeta. rewrite Hi.
  match goal with |- context [match authed_conn_id (conn ?x) with _ => _ end] => set (w1 := x) end.
  assert (H1 : notices (out w1) = notices (out w) /\ glob w1 = glob w /\ closed (conn w1) = closed (conn w)
               /\ authed_conn_id (conn w1) = authed_conn_id (conn w)
               /\ control_permissions (conn w1) = control_permissions (conn w)).
  { unfold w1. set (l := map ReleaseKey _).
    assert (Hl : notices (out w ++ l) = notices (out w)).
    { rewrite notices_app, (notices_none l); [apply Nat.add_0_r|].
      apply Forall_forall. by intros ef (k & -> & _)%list_elem_of_fmap. }
    destruct (terminal_generic_service _); (split; [|done]); [rewrite notices_emit; cbn [is_notice]; rewrite Nat.add_0_r|]; exact Hl. }
  destruct H1 as (H1 & H2 & H3 & H4 & H5). clearbody w1.
  set (w2 := match authed_conn_id (conn w1) with Some t => _ | None => _ end).
  assert (H6 : notices (out w2) = notices (out w) /\ conn w2 = conn w1 /\ server (glob w2) = server (glob w)
               /\ CONTROL_PERMISSIONS_ARRAY (glob w2) = CONTROL_PERMISSIONS_ARRAY (glob w) /\ unlisted ci (glob w2)).
  { unfold w2. rewrite H4. destruct (authed_conn_id (conn w)) as [t|] eqn:Et.
    - destruct (authed_drop_spec (id ci) t w1) as (A1 & A2 & A3 & A4 & A5). unfold unlisted.
      rewrite A1, A3, A4, A5, H1, H2. split; [done|]. split; [exact A2|]. split; [done|]. split; [done|].
      apply (filter_without _ ac_conn_id).
    - rewrite H1, H2. split; [done|]. split; [done|]. split; [done|]. split; [done|]. by apply Ha. }
  destruct H6 as (B1 & B2 & B3 & B4 & B5). clearbody w2.
  assert (H8 : let g := ControlPermissionsID_drop (id ci) (control_permissions (conn w2)) (glob w2) in
               server g = server (glob w2) /\ AUTHED_CONNS g = AUTHED_CONNS (glob w2)).
  { unfold ControlPermissionsID_drop. by destruct (control_permissions (conn w2)). }
  destruct H8 as [H8 H9].
  split; [exact B1|]. split; [etransitivity; [|exact H3]; by rewrite <-B2|].
  split; [etransitivity; [exact H8|exact B3]|]. 
  split; [change (Forall (fun c => ac_conn_id c <> id ci) (AUTHED_CONNS
    (ControlPermissionsID_drop (id ci) (control_permissions (conn w2)) (glob w2)))); by rewrite H9|].
  split; [|apply (filter_without _ (fun x => x))].
  change (Forall (fun x => x.1 <> id ci)
    (CONTROL_PERMISSIONS_ARRAY (ControlPermissionsID_drop (id ci) (control_permissions (conn w2)) (glob w2)))).
  rewrite B2, H5. destruct (control_permissions (conn w)); [apply (filter_without _ fst)|].
  cbn [ControlPermissionsID_drop]. rewrite B4. by apply Hp.
Qed.

(** C15. A connection ends once and completely: whatever comes from the peer,
    the connection manager, the services and the timers, in whatever order,
    when the loop that a started connection runs is left, the code after it
    has run and the connection has been dropped, the connection is closed, the
    connection manager has been told so exactly once ([Close] or
    [Disconnected], never both, never twice), no service delivers to the
    connection any more, and it is gone from the server's table and from the
    tables of live connections, authorized connections and permissions. *)
Theorem connection_ends_once e addr w w1 s t evs s' :
  let ci := inner (conn w) in
  closed (conn w) = false -> notices (out w) = 0%nat -> wf_server (server (glob w)) ->
  unlisted ci (glob w) -> Forall (fun x => x.1 <> id ci) (CONTROL_PERMISSIONS_ARRAY (glob w)) ->
  start e addr w = (w1, Some (s, t)) -> loop_run evs s = Left s' ->
  let w' := drop_connection (finish (lw s')) in
  closed (conn w') = true /\ notices (out w') = 1%nat
  /\ (forall n, subbed (server (glob w')) n (id ci) = false)
  /\ connections (server (glob w')) !! id ci = None
  /\ unlisted ci (glob w') /\ Forall (fun x => x.1 <> id ci) (CONTROL_PERMISSIONS_ARRAY (glob w'))
  /\ Forall (fun x => x <> id ci) (ALIVE_CONNS (glob w')).
Proof.
  intros ci Hc Hn Hw Hu Hp Hs Hr.
  assert (H : good ci w) by (split; [by rewrite Hc|done]).
  apply (good_start _ e addr w w1 s t H) in Hs. pose proof (good_run ci evs s Hs) as H'. rewrite Hr in H'.
  destruct (finish_good ci (lw s') H') as (Hg & Hc' & srv & Hsrv & Heq).
  destruct (drop_spec ci _ Hg) as (D1 & D2 & D3 & D4). cbv zeta.
  split; [by rewrite D2|]. split; [rewrite D1, (proj1 Hg), Hc'; done|].
  rewrite D3, Heq. split; [|split; [apply lookup_delete_eq|done]].
  intros n. rewrite subbed_remove_connection by done. by rewrite Z.eqb_refl.
Qed.

Definition demo_lenv (t : Z) : LEnv := mkLEnv (demo_env <| now := t |>) (fun _ _ => None) 0.

Definition demo_start : LState := mkLState (fst (start demo_env (V4 1) (demo_world None))) 1000000.

(** A login, a permission switch and a broken stream. *)
Definition demo_events : list (LEnv * LoopEvent) :=
  [(demo_lenv 1000100, LStreamMsg (MLoginRequest demo_login));
   (demo_lenv 1000200, LCm (SwitchPermission "clipboard" true));
   (demo_lenv 1000300, LStreamEnd)].

Lemma connection_ends_once_witness :
  exists s', loop_run demo_events demo_start = Left s'
             /\ subbed (server (glob (lw s'))) "audio" 1001 = true
             /\ remote_count (glob (lw s')) = 1
             /\ notices (out (drop_connection (finish (lw s')))) = 1%nat
             /\ subbed (server (glob (drop_connection (finish (lw s'))))) "audio" 1001 = false.
Proof.
  eexists. split; [reflexivity|]. split; [vm_compute; reflexivity|]. split; [vm_compute; reflexivity|].
  match goal with |- notices (out (drop_connection (finish (lw ?x)))) = _ /\ _ => set (s' := x) end.
  destruct (connection_ends_once demo_env (V4 1) (demo_world None) _ demo_start 12000 demo_events s'
              eq_refl eq_refl demo_server_wf ltac:(by apply Forall_nil) ltac:(by apply Forall_nil)
              eq_refl eq_refl) as (_ & H1 & H2 & _).
  split; [exact H1|]. exact (H2 "audio").
Defined.

(** The thread that follows the cursor is stopped by the code after the loop
    only when no authorized connection shows the desktop, and the connection
    that ends still counts itself: it leaves the table when it is dropped,
    later.  So the thread goes on after the last of these connections. *)
Lemma cursor_thread_survives w c :
  c ∈ AUTHED_CONNS (glob w) -> ac_conn_type c = Remote ->
  RECORD_CURSOR_POS_RUNNING (try_stop_record_cursor_pos (glob w)) = RECORD_CURSOR_POS_RUNNING (glob w).
Proof.
  intros Hc Ht. unfold try_stop_record_cursor_pos. destruct (Z.ltb_spec 0 (remote_count (glob w))); [done|].
  unfold remote_count, len in *. destruct (List.filter _ _) eqn:E; cbn in *; [|lia].
  assert (c ∈ List.filter (fun c => bool_decide (ac_conn_type c = Remote)) (AUTHED_CONNS (glob w))) as Hin.
  { apply list_elem_of_In, List.filter_In. split; [by apply list_elem_of_In|]. by apply bool_decide_eq_true. }
  rewrite E in Hin. by apply not_elem_of_nil in Hin.
Qed.

Example cursor_thread_left_running :
  match loop_run demo_events demo_start with
  | Left s' => let w := drop_connection (finish (lw s')) in
               remote_count (glob w) = 0 /\ RECORD_CURSOR_POS_RUNNING (glob w) = true
  | Running _ => False
  end.
Proof. vm_compute. by split. Qed.

End Life.

(** ** Silent peers *)
Module Silence.

Import Msg Service Server Conn Auth Loop.

(** Nothing arrives from the peer. *)
Definition silent (ev : LoopEvent) : Prop :=
  match ev with LStreamMsg _ | LStreamGarbage => False | _ => True end.

(** No more than [d] milliseconds pass without a tick of the test-delay timer:
    whenever something happens, its last tick (at [tick] in the beginning) is
    not older.  The timer is set to one second, but a branch that waits for a
    message to be written or for an address to answer delays it. *)
Fixpoint punctual (d tick : Z) (evs : list (LEnv * LoopEvent)) : Prop :=
  match evs with
  | [] => True
  | (e, ev) :: evs =>
    now (le e) <= tick + d
    /\ punctual d (match ev with LTestDelay => now (le e) | _ => tick end) evs
  end.

Lemma keep_recv_time s r : last_recv_time (snd (keep s r)) = last_recv_time s.
Proof. reflexivity. Qed.

Lemma silent_recv_time e ev s : silent ev -> last_recv_time (snd (loop_step e ev s)) = last_recv_time s.
Proof.
  destruct ev; cbn [silent loop_step]; try done.
  intros _. destruct (FileMgr.read_jobs _); [done|]. by destruct (FileMgr.on_file_timer _ _ _ _).
Qed.

Lemma late_tick_closes e s :
  last_recv_time s + SEC30 <= now (le e) -> fst (loop_step e LTestDelay s) = false.
Proof.
  intros H. cbn [loop_step]. unfold on_test_delay_timer.
  destruct (Z.leb_spec SEC30 (now (le e) - last_recv_time s)); [done|lia].
Qed.

Lemma early_tick_stays e s :
  now (le e) < last_recv_time s + SEC30 -> fst (loop_step e LTestDelay s) = true.
Proof.
  intros H. cbn [loop_step]. unfold on_test_delay_timer.
  destruct (Z.leb_spec SEC30 (now (le e) - last_recv_time s)); [lia|done].
Qed.

Lemma silent_until_tick evs s :
  Forall (fun x => silent x.2) evs ->
  Exists (fun x => x.2 = LTestDelay /\ last_recv_time s + SEC30 <= now (le x.1)) evs ->
  exists s', loop_run evs s = Left s'.
Proof.
  revert s. induction evs as [|[e ev] evs IH]; intros s Hsil Hex; [by inversion Hex|].
  apply Forall_cons in Hsil as [Hs Hsil]. cbn [fst snd] in *.
  pose proof (silent_recv_time e ev s Hs) as Hrt. pose proof (late_tick_closes e s) as Hclose.
  cbn [loop_run]. destruct (loop_step e ev s) as [go s1] eqn:E. cbn [fst snd] in *.
  destruct go; [|by eexists]. apply Exists_cons in Hex as [[Hev Hex]|Hex]; [cbn in Hev; subst ev|].
  - rewrite E in Hclose. by specialize (Hclose Hex).
  - apply IH; [done|]. by rewrite Hrt.
Qed.

Lemma punctual_tick d evs last tick :
  tick < last + SEC30 -> punctual d tick evs ->
  Exists (fun x => last + SEC30 + d <= now (le x.1)) evs ->
  Exists (fun x => x.2 = LTestDelay /\ last + SEC30 <= now (le x.1)) evs.
Proof.
  revert tick. induction evs as [|[e ev] evs IH]; intros tick Ht Hp Hex; [by inversion Hex|].
  destruct Hp as [Hnow Hp]. cbn [fst snd] in *. apply Exists_cons in Hex as [Hex|Hex]; [cbn in Hex; lia|].
  destruct (decide (last + SEC30 <= now (le e))) as [Hle|Hlt].
  - destruct ev; try (apply Exists_cons; right; by eapply IH). apply Exists_cons. left. done.
  - apply Exists_cons. right. eapply IH; [|exact Hp|exact Hex]. destruct ev; lia.
Qed.

(** C21. A silent peer is dropped at the first tick of the test-delay timer that
    comes 30 seconds or more after the last message, if not before, whatever
    else the connection is busy with (video, clipboard, files, orders of the
    connection manager).  So if the timer is never more than [d] late, the loop
    has been left by the first event that comes [30 s + d] or more after the
    last message; the code sets [d] to one second but does not guarantee it.
    And an earlier tick does not end the loop. *)
Theorem silent_peer_dropped evs s :
  Forall (fun x => silent x.2) evs ->
  (Exists (fun x => x.2 = LTestDelay /\ last_recv_time s + SEC30 <= now (le x.1)) evs ->
   exists s', loop_run evs s = Left s')
  /\ (forall d tick, tick < last_recv_time s + SEC30 -> punctual d tick evs ->
      Exists (fun x => last_recv_time s + SEC30 + d <= now (le x.1)) evs ->
      exists s', loop_run evs s = Left s')
  /\ (forall e, now (le e) < last_recv_time s + SEC30 -> fst (loop_step e LTestDelay s) = true).
Proof.
  intros Hs. split; [by apply silent_until_tick|]. split.
  - intros d tick Ht Hp Hex. apply silent_until_tick; [done|]. by eapply punctual_tick.
  - intros e. apply early_tick_stays.
Qed.

(** Thirty-one ticks after the start; the last is never reached. *)
Definition demo_ticks : list (LEnv * LoopEvent) :=
  map (fun i => (Life.demo_lenv (1000000 + 1000 * Z.of_nat i), LTestDelay)) (seq 1 31).

Lemma punctual_demo : punctual 1000 1000000 demo_ticks.
Proof.
  unfold demo_ticks. generalize 31%nat as n. intros n.
  replace 1000000 with (1000000 + 1000 * Z.of_nat 0) at 1 by done.
  generalize 0%nat as k. induction n as [|n IH]; intros k; [done|]. cbn [seq map punctual].
  split; [change (now (le (Life.demo_lenv ?t))) with t; lia|apply (IH (S k))].
Qed.

Lemma silent_peer_dropped_witness : exists s', loop_run demo_ticks Life.demo_start = Left s'.
Proof.
  apply (proj1 (proj2 (silent_peer_dropped demo_ticks Life.demo_start ltac:(apply Forall_forall; by intros x (i & -> & _)%list_elem_of_fmap)))
           1000 1000000).
  - reflexivity.
  - apply punctual_demo.
  - apply Exists_exists. exists (Life.demo_lenv 1031000, LTestDelay). split; [|vm_compute; discriminate].
    apply list_elem_of_fmap. exists 31%nat. split; [reflexivity|]. apply elem_of_seq. lia.
Defined.

End Silence.

(** ** The tunnel *)
Module Tunnel.

Import Msg Service Server Conn Auth Loop.

Lemma disabled_conn w : conn (send_disabled w) = conn w.
Proof.
  unfold send_disabled. cbv zeta.
  by destruct (block_input (conn w)), (recording (conn w)), (restart (conn w)), (file (conn w)),
    (audio (conn w)), (clipboard (conn w)), (keyboard (conn w)).
Qed.

(** The time-out for sending is chosen when the connection starts, before the
    peer has said what kind of connection it wants: it is the short one of
    video connections for file transfers, tunnels and terminals, too. *)
Lemma timeout_of_video e ci salt challenge twofa cp addr g o w1 s t :
  start e addr (mkWorld (new_connection e ci salt challenge twofa cp) g o) = (w1, Some (s, t)) ->
  t = SEND_TIMEOUT_VIDEO.
Proof.
  unfold start, on_open, check_whitelist.
  destruct (_ && _ && _); cbn [negb]; [done|]. destruct (_ && _); cbn [negb]; [done|].
  cbv zeta. rewrite disabled_conn. by intros (_ & [= _ <-])%pair_equal_spec.
Qed.

(** The address a request for a tunnel asks for. *)
Definition tunnel_address (pf : Msg.PortForward) : string :=
  let is_rdp := String.eqb (pf_host pf) "RDP" && (pf_port pf =? 0) in
  let host := if is_rdp then "localhost" else pf_host pf in
  (if String.eqb host "" then "localhost" else host) +:+ ":" +:+ show (if is_rdp then 3389 else pf_port pf).

Lemma on_close_out b w : exists l, out (on_close b w) = out w ++ l.
Proof.
  unfold on_close. destruct (closed (conn w)); [exists []; by rewrite app_nil_r|].
  destruct (b && _ && _); cbn; eexists; by rewrite <- ?app_assoc.
Qed.

Lemma finish_forwards w addr : port_forward_socket (conn w) = Some addr -> Forward addr ∈ out (finish w).
Proof.
  intros H. unfold finish. cbv zeta.
  match goal with |- context [if authorized ?c then ?a else ?b] => set (w1 := if authorized c then a else b) end.
  assert (Hs : port_forward_socket (conn w1) = Some addr) by (unfold w1; by case_match).
  clearbody w1. rewrite Hs.
  match goal with |- context [on_close false ?x] => set (w2 := x) end.
  assert (H2 : Forward addr ∈ out w2) by (apply elem_of_app; right; by apply list_elem_of_singleton).
  clearbody w2. destruct (on_close_out false w2) as (l & Hl).
  match goal with |- context [on_close true ?x] => set (w3 := x) end.
  assert (H3 : Forward addr ∈ out w3).
  { apply elem_of_app. left. change (Forward addr ∈ out (on_close false w2)). rewrite Hl. apply elem_of_app. by left. }
  clearbody w3. destruct (on_close_out true w3) as (l' & ->). apply elem_of_app. by left.
Qed.

Lemma handle_login_conn e r w :
  let c := conn (handle_login_request_without_validation e r w) in
  authorized c = authorized (conn w) /\ control_permissions c = control_permissions (conn w).
Proof. unfold handle_login_request_without_validation. by repeat case_match. Qed.

(** C11. A tunnel needs no login: one login request for a tunnel, with any
    password or none, whose user name is neither an address nor the id of the
    machine, is answered with "Offline" and ends the loop, but the connection
    to the requested address was made before and is kept, and the code after
    the loop passes bytes between the peer and that address without asking
    whether the peer was ever authorized. *)
Theorem tunnel_without_login e r pf s :
  authorized (conn (lw s)) = false ->
  lr_union r = Some (LPortForward pf) ->
  permission (le e) "enable-tunnel" (control_permissions (conn (lw s))) = true ->
  tcp_connect (le e) (tunnel_address pf) = true ->
  try_start_desktop (le e) (lr_os_login r) = "" ->
  is_ip_str (le e) (lr_username r) = false -> is_domain_port_str (le e) (lr_username r) = false ->
  Config.str_bytes (lr_username r) <> get_id (le e) ->
  exists s', loop_run [(e, LStreamMsg (MLoginRequest r))] s = Left s'
             /\ authorized (conn (lw s')) = false
             /\ Forward (tunnel_address pf) ∈ out (finish (lw s')).
Proof.
  intros Ha Hu Hp Hc Hd Hi Hdp Hid.
  cbn [loop_run loop_step]. unfold on_recv.
  set (w1 := match session_last_recv_time (conn (lw s)) with Some c => _ | None => _ end).
  assert (H1 : conn w1 = conn (lw s)) by (unfold w1; by case_match). clearbody w1.
  cbn [on_message]. unfold on_login_request.
  pose proof (handle_login_conn (le e) r w1) as (Ha2 & Hp2). rewrite H1 in Ha2, Hp2.
  set (w2 := handle_login_request_without_validation (le e) r w1) in *. clearbody w2.
  rewrite Ha2, Ha. unfold login_kind. rewrite Hu, Hp2, Hp. cbn [negb]. cbv zeta.
  fold (tunnel_address pf). rewrite Hc, Hd. cbn [negb andb String.eqb].
  rewrite Hi, Hdp, bool_decide_false by done. cbn [negb andb].
  eexists. split; [reflexivity|]. cbn [keep fst snd].
  set (w3 := try_start_cm_ipc _).
  assert (H3 : authorized (conn w3) = false /\ port_forward_socket (conn w3) = Some (tunnel_address pf)).
  { unfold w3, try_start_cm_ipc. rewrite <-Ha, <-Ha2. by case_match. }
  destruct H3 as [H3 H4]. split; [exact H3|]. apply finish_forwards. exact H4.
Qed.

(** The mail server of the machine, for a peer that knows nothing. *)
Definition demo_tunnel : LoginRequest :=
  mkLoginRequest "nobody" [] "" "" None (Some (LPortForward (mkPortForward "" 25))) false 7 "1.3.9" None "Linux" [].

Lemma tunnel_without_login_witness :
  exists s', loop_run [(Life.demo_lenv 1000100, LStreamMsg (MLoginRequest demo_tunnel))] Life.demo_start = Left s'
             /\ authorized (conn (lw s')) = false /\ Forward "localhost:25" ∈ out (finish (lw s')).
Proof.
  apply (tunnel_without_login (Life.demo_lenv 1000100) demo_tunnel (mkPortForward "" 25) Life.demo_start);
    first [reflexivity | vm_compute; discriminate].
Defined.

End Tunnel.
