(* ===== verification/CmClients.v ===== *)
(** * The clients of the connection manager ([src/ui_cm_interface.rs])

    The window of the connection manager shows the connections of the server.
    Each connection talks to a task of its own over a local socket
    ([IpcTaskRunner]); all tasks and the window share the table [CLIENTS].  The
    window sends its orders through the channel of the task that a client
    belongs to.

    The state is the table, the tasks by number, and the disk the file orders
    work on ([CmFiles]).  A step is one turn of the loop of a task or one call
    of the window.  A task that has ended has no channel: what is sent to it is
    lost ([allow_err]).  The Windows branches are left out. *)

From S2P Require Import Prelude RustStr FileTransfer Messages FileManager CmFiles Connection.

#[local] Open Scope rust_scope.

Module CmClients.

Module T := FileTransfer.Transfer.

(** ** The table *)

Set Primitive Projections.

(** [login] has the fields copied from the message; the other fields are those
    that change.  [tx] is the number of the task. *)
Record Client : Type := mkClient {
  login : Conn.CmLogin;
  authorized : bool;
  disconnected : bool;
  in_voice_call : bool;
  incoming_voice_call : bool;
  tx : nat }.

(** What is sent through [tx]. *)
Inductive CmOrder : Type :=
| ClickTimeQuery | Authorize | Close | ChatMessage (text : string) | SwitchPermission (name : string) (enabled : bool)
| SwitchSidesBack | VoiceCallResponse (accept : bool) | CloseVoiceCall (reason : string)
| OfFiles (o : CmFs.CmOut).

Record TaskRunner : Type := mkTask {
  close : bool;
  conn_id : Z;
  write_jobs : list T.TransferJob;   (* local to [run] *)
  read_jobs : list T.TransferJob;
  rx : list CmOrder;
  rx_log : list FileMgr.FmLog;       (* local to [run] *)
  fast_timer : bool }.

Record World : Type := mkWorld {
  CLIENTS : gmap Z Client;
  CLICK_TIME : Z;
  tasks : gmap nat TaskRunner;
  next_task : nat;
  disk : T.FS }.

Unset Primitive Projections.

(** What the user sees, and what goes back to the connection. *)
Inductive Out : Type :=
| UiAdd (id : Z) | UiRemove (id : Z) (close : bool) | UiMessage (id : Z) (text : string)
| UiTheme (dark : string) | UiLanguage (lang : string) | UiElevation (show : bool)
| UiVoice (id : Z) (in_call incoming : bool)
| UiLogJobs (jobs : list T.TransferJob) | UiLog (l : FileMgr.FmLog) | UiFileLog (action log : string)
| ToConn (task : nat) (o : CmOrder)
| QuitGui.

(** [ipc_task] starts with this. *)
Definition new_task : TaskRunner := mkTask true 0 [] [] [] [] false.

(** ** [ConnectionManager] *)

Definition cm_add_connection (id : Z) (l : Conn.CmLogin) (t : nat) (w : World) : list Out * World :=
  let kept := filter (fun c => ~ (disconnected c.2 = true /\ Conn.cm_peer_id (login c.2) = Conn.cm_peer_id l)) (CLIENTS w) in
  ([UiAdd id], w <| CLIENTS := <[ id := mkClient l (Conn.cm_authorized l) false false false t ]> kept |>).

Definition cm_remove_connection (id : Z) (close : bool) (w : World) : list Out * World :=
  ([UiRemove id close],
   w <| CLIENTS := if close then delete id (CLIENTS w)
                   else alter (fun c => c <| disconnected := true |>) id (CLIENTS w) |>).

(** [voice_call_started], [voice_call_incoming], [voice_call_closed] *)
Definition set_voice (in_call incoming : bool) (id : Z) (w : World) : list Out * World :=
  match CLIENTS w !! id with
  | Some c =>
    ([UiVoice id in_call incoming],
     w <| CLIENTS := <[ id := c <| in_voice_call := in_call |> <| incoming_voice_call := incoming |> ]> (CLIENTS w) |>)
  | None => ([], w)
  end.
Definition voice_call_started : Z -> World -> list Out * World := set_voice true false.
Definition voice_call_incoming : Z -> World -> list Out * World := set_voice false true.
Definition voice_call_closed : Z -> World -> list Out * World := set_voice false false.

(** ** Calls of the window *)

(** [client.tx.send] *)
Definition to_task (t : nat) (o : CmOrder) (w : World) : World :=
  w <| tasks := alter (fun r => r <| rx := rx r ++ [o] |>) t (tasks w) |>.

Definition to_client (id : Z) (o : CmOrder) (w : World) : World :=
  match CLIENTS w !! id with Some c => to_task (tx c) o w | None => w end.

Inductive UiCall : Type :=
| CheckClickTime (id : Z) | UAuthorize (id : Z) | UClose (id : Z) | URemove (id : Z) | USendChat (id : Z) (text : string)
| USwitchPermission (id : Z) (name : string) (enabled : bool) | USwitchBack (id : Z)
| UHandleIncomingVoiceCall (id : Z) (accept : bool) | UCloseVoiceCall (id : Z) | UQuit.

Definition check_click_time (id : Z) : World -> World := to_client id ClickTimeQuery.

Definition authorize (id : Z) (w : World) : World :=
  match CLIENTS w !! id with
  | Some c => to_task (tx c) Authorize (w <| CLIENTS := <[ id := c <| authorized := true |> ]> (CLIENTS w) |>)
  | None => w
  end.

Definition close_ (id : Z) : World -> World := to_client id Close.
Definition remove (id : Z) (w : World) : World := w <| CLIENTS := delete id (CLIENTS w) |>.
Definition send_chat (id : Z) (text : string) : World -> World := to_client id (ChatMessage text).
Definition switch_permission (id : Z) (name : string) (enabled : bool) : World -> World :=
  to_client id (SwitchPermission name enabled).
Definition switch_back (id : Z) : World -> World := to_client id SwitchSidesBack.
Definition handle_incoming_voice_call (id : Z) (accept : bool) : World -> World := to_client id (VoiceCallResponse accept).
Definition close_voice_call (id : Z) : World -> World := to_client id (CloseVoiceCall "").
Definition quit_cm (w : World) : list Out * World := ([QuitGui], w <| CLIENTS := ∅ |>).

Definition get_clients_length (w : World) : nat := stdpp.base.size (CLIENTS w).

Definition ui_call (u : UiCall) (w : World) : list Out * World :=
  match u with
  | CheckClickTime id => ([], check_click_time id w)
  | UAuthorize id => ([], authorize id w)
  | UClose id => ([], close_ id w)
  | URemove id => ([], remove id w)
  | USendChat id text => ([], send_chat id text w)
  | USwitchPermission id name enabled => ([], switch_permission id name enabled w)
  | USwitchBack id => ([], switch_back id w)
  | UHandleIncomingVoiceCall id accept => ([], handle_incoming_voice_call id accept w)
  | UCloseVoiceCall id => ([], close_voice_call id w)
  | UQuit => quit_cm w
  end.

(** ** The loop of a task *)

(** What the connection sends. *)
Inductive CmIn : Type :=
| InLogin (id : Z) (l : Conn.CmLogin)
| InClose | InDisconnected
| InClickTime (ms : Z)
| InChat (text : string)
| InFs (f : FileMgr.FS)
| InFileTransferLog (action log : string)
| InTheme (dark : string) | InLanguage (lang : string) | InElevation (show : bool)
| InStartVoiceCall | InVoiceCallIncoming | InCloseVoiceCall (reason : string)
| InOther.

Inductive TaskEvent : Type :=
| StreamError
| FromConn (d : option CmIn)
| RxReady (send_ok : bool)
| LogReady
| FileTimer.

(** How a turn ends: the loop goes on, [run] returns and is called again, or
    the task ends. *)
Inductive Turn : Type := Continue | Again | End.

Section Run.
Context (e : CmFs.CmEnv).

Definition set_task (t : nat) (r : TaskRunner) (w : World) : World := w <| tasks := <[ t := r ]> (tasks w) |>.

(** Outputs of the file orders: messages go to [tx], logs to [tx_log]. *)
Definition log_of (o : CmFs.CmOut) : list FileMgr.FmLog := match o with CmFs.CoLog l => [l] | _ => [] end.
Definition order_of (o : CmFs.CmOut) : list CmOrder := match o with CmFs.CoLog _ => [] | o => [OfFiles o] end.

Definition with_files (outs : list CmFs.CmOut) (s : CmFs.Cm) (r : TaskRunner) : TaskRunner :=
  r <| write_jobs := CmFs.write_jobs s |> <| read_jobs := CmFs.cm_read_jobs s |>
    <| rx := rx r ++ flat_map order_of outs |> <| rx_log := rx_log r ++ flat_map log_of outs |>.

Definition on_fs (t : nat) (f : FileMgr.FS) (r : TaskRunner) (w : World) : outcome (list Out * World) :=
  let! (outs, s) := CmFs.handle_fs e f (CmFs.mkCm (write_jobs r) (read_jobs r) (disk w)) in
  let r := with_files outs s r in
  let r := match read_jobs r with [] => r | _ => r <| fast_timer := true |> end in
  Done ([UiLogJobs (write_jobs r)], set_task t r (w <| disk := CmFs.cm_disk s |>)).

Definition on_data (t : nat) (d : CmIn) (r : TaskRunner) (w : World) : outcome (list Out * Turn * World) :=
  let go '(o, w) := Done (o, Continue, w) in
  match d with
  | InLogin id l =>
    let '(o, w) := cm_add_connection id l t w in
    Done (o, Again, set_task t (r <| conn_id := id |>) w)
  | InClose => Done ([], End, w)
  | InDisconnected => Done ([], End, set_task t (r <| close := false |>) w)
  | InClickTime ms => go ([], w <| CLICK_TIME := ms |>)
  | InChat text => go ([UiMessage (conn_id r) text], w)
  | InFs f => let! x := on_fs t f r w in go x
  | InFileTransferLog action log => go ([UiFileLog action log], w)
  | InTheme dark => go ([UiTheme dark], w)
  | InLanguage lang => go ([UiLanguage lang], w)
  | InElevation show => go ([UiElevation show], w)
  | InStartVoiceCall => go (voice_call_started (conn_id r) w)
  | InVoiceCallIncoming => go (voice_call_incoming (conn_id r) w)
  | InCloseVoiceCall _ => go (voice_call_closed (conn_id r) w)
  | InOther => go ([], w)
  end.

(** An order taken from [rx]; a block of a file goes out in two frames. *)
Definition on_rx (t : nat) (send_ok : bool) (r : TaskRunner) (w : World) : list Out * Turn * World :=
  match rx r with
  | [] => ([], Continue, w)
  | o :: rest =>
    let w := set_task t (r <| rx := rest |>) w in
    if send_ok then ([ToConn t o], match o with Authorize => Again | _ => Continue end, w)
    else ([], End, w)
  end.

Definition on_log (t : nat) (r : TaskRunner) (w : World) : list Out * Turn * World :=
  match rx_log r with
  | [] => ([], Continue, w)
  | l :: rest => ([UiLog l], Continue, set_task t (r <| rx_log := rest |>) w)
  end.

Definition on_timer (t : nat) (r : TaskRunner) (w : World) : list Out * Turn * World :=
  match read_jobs r with
  | [] => ([], Continue, set_task t (r <| fast_timer := false |>) w)
  | _ =>
    let '(outs, s) := CmFs.handle_read_jobs_tick e (conn_id r) (CmFs.mkCm (write_jobs r) (read_jobs r) (disk w)) in
    let r := with_files outs s r in
    ([UiLogJobs (read_jobs r)], Continue, set_task t r (w <| disk := CmFs.cm_disk s |>))
  end.

(** The end of [ipc_task]. *)
Definition task_end (t : nat) (w : World) : list Out * World :=
  match tasks w !! t with
  | None => ([], w)
  | Some r =>
    let '(o, w) := if 0 <? conn_id r then cm_remove_connection (conn_id r) (close r) w else ([], w) in
    (o, w <| tasks := delete t (tasks w) |>)
  end.

(** [run] is entered anew: its local variables start over. *)
Definition run_again (t : nat) (w : World) : World :=
  w <| tasks := alter (fun r => r <| write_jobs := [] |> <| rx_log := [] |> <| fast_timer := false |>) t (tasks w) |>.

Definition finish_turn (t : nat) (x : list Out * Turn * World) : list Out * World :=
  let '(o, turn, w) := x in
  match turn with
  | Continue => (o, w)
  | Again => (o, run_again t w)
  | End => let '(o', w) := task_end t w in (o ++ o', w)
  end.

(** One turn of the loop of task [t]; a task that has ended does nothing. *)
Definition task_step (t : nat) (ev : TaskEvent) (w : World) : outcome (list Out * World) :=
  match tasks w !! t with
  | None => Done ([], w)
  | Some r =>
    let! x := match ev with
              | StreamError => Done ([], End, w)
              | FromConn None => Done ([], Continue, w)
              | FromConn (Some d) => on_data t d r w
              | RxReady send_ok => Done (on_rx t send_ok r w)
              | LogReady => Done (on_log t r w)
              | FileTimer => Done (on_timer t r w)
              end in
    Done (finish_turn t x)
  end.

(** ** The whole manager *)

Inductive Event : Type :=
| Accept                       (* [start_ipc]: a task under a new number *)
| Turns (t : nat) (ev : TaskEvent)
| Window (u : UiCall).

Definition step (ev : Event) (w : World) : outcome (list Out * World) :=
  match ev with
  | Accept => Done ([], set_task (next_task w) new_task w <| next_task := Datatypes.S (next_task w) |>)
  | Turns t ev => task_step t ev w
  | Window u => Done (ui_call u w)
  end.

Fixpoint run (evs : list Event) (w : World) : outcome (list Out * World) :=
  match evs with
  | [] => Done ([], w)
  | ev :: evs =>
    let! (o, w) := step ev w in
    let! (o', w) := run evs w in
    Done (o ++ o', w)
  end.

End Run.

End CmClients.
