(* ===== verification/CmClientsProofs.v ===== *)
(** * What holds of the clients of the connection manager

    The main result is an invariant of all runs: as long as every connection
    announces itself under its own identity, a client is shown as disconnected
    exactly when its task has ended, so an order of the window is never lost
    for a client that is shown as connected. *)

From S2P Require Import Prelude RustStr FileTransfer Messages FileManager CmFiles Connection CmClients.

#[local] Open Scope rust_scope.

Module CmFacts.

Import CmClients.

Section Owned.
Context (e : CmFs.CmEnv) (ident : nat -> Z).

(** Task [t] is the connection [ident t]. *)
Definition own_login (ev : Event) : Prop :=
  match ev with Turns t (FromConn (Some (InLogin id _))) => id = ident t | _ => True end.

Definition task_ok (w : World) : Prop :=
  forall t r, tasks w !! t = Some r -> (t < next_task w)%nat /\ (conn_id r = 0 \/ conn_id r = ident t).

Definition client_ok (w : World) : Prop :=
  forall id c, CLIENTS w !! id = Some c ->
    id = ident (tx c) /\ (tx c < next_task w)%nat /\
    (disconnected c = true -> tasks w !! tx c = None) /\
    (disconnected c = false -> exists r, tasks w !! tx c = Some r /\ conn_id r = id).

Definition good (w : World) : Prop := task_ok w /\ client_ok w.

(** ** Changes that keep it *)

(** A task is changed, but not whom it belongs to. *)
Lemma good_same_owner t r r' w w' :
  good w -> tasks w !! t = Some r -> conn_id r' = conn_id r ->
  CLIENTS w' = CLIENTS w -> next_task w' = next_task w -> tasks w' = <[t := r']> (tasks w) -> good w'.
Proof.
  intros [HT HC] Ht Eo EC EN ET. split.
  - intros t2 r2. rewrite ET, EN. destruct (decide (t2 = t)) as [->|N].
    + rewrite lookup_insert_eq. intros [= <-]. rewrite Eo. exact (HT t r Ht).
    + rewrite (lookup_insert_ne _ _ _ _ (not_eq_sym N)). apply HT.
  - intros id c. rewrite EC, EN, ET. intros Hc. destruct (HC id c Hc) as (Ei & Lt & Hd & Hl).
    split; [exact Ei|]. split; [exact Lt|]. destruct (decide (tx c = t)) as [Et|N].
    + rewrite Et in Hd, Hl |- *. rewrite lookup_insert_eq. split.
      * intros D. rewrite (Hd D) in Ht. discriminate.
      * intros D. destruct (Hl D) as (r2 & E2 & Ec). exists r'. split; [reflexivity|].
        rewrite Eo. congruence.
    + rewrite (lookup_insert_ne _ _ _ _ (not_eq_sym N)). auto.
Qed.

Lemma good_set_task t r r' w :
  good w -> tasks w !! t = Some r -> conn_id r' = conn_id r -> good (set_task t r' w).
Proof. intros G Ht E. eapply good_same_owner; eauto. Qed.

Lemma good_alter_task t (f : TaskRunner -> TaskRunner) w :
  (forall r, conn_id (f r) = conn_id r) -> good w -> good (w <| tasks := alter f t (tasks w) |>).
Proof.
  intros Hf G. destruct (tasks w !! t) as [r|] eqn:Ht.
  - eapply (good_same_owner t r (f r)); eauto. cbn. apply map_eq. intros k.
    destruct (decide (k = t)) as [->|N].
    + rewrite lookup_alter_eq, lookup_insert_eq, Ht. reflexivity.
    + rewrite (lookup_alter_ne _ _ _ _ (not_eq_sym N)), (lookup_insert_ne _ _ _ _ (not_eq_sym N)). reflexivity.
  - assert (E : alter f t (tasks w) = tasks w); [|destruct w; cbn in *; rewrite E; exact G].
    apply map_eq. intros k. destruct (decide (k = t)) as [->|N].
    + rewrite lookup_alter_eq, Ht. reflexivity.
    + rewrite (lookup_alter_ne _ _ _ _ (not_eq_sym N)). reflexivity.
Qed.

(** The table loses clients, or what it says of them besides owner and link. *)
Lemma good_clients (m : gmap Z Client) w :
  (forall id c, m !! id = Some c ->
     exists c0, CLIENTS w !! id = Some c0 /\ tx c = tx c0 /\ disconnected c = disconnected c0) ->
  good w -> good (w <| CLIENTS := m |>).
Proof.
  intros Hm [HT HC]. split; [exact HT|]. intros id c Hc. cbn in Hc. destruct (Hm id c Hc) as (c0 & H0 & -> & ->).
  exact (HC id c0 H0).
Qed.

Lemma good_insert_client id c c0 w :
  CLIENTS w !! id = Some c0 -> tx c = tx c0 -> disconnected c = disconnected c0 ->
  good w -> good (w <| CLIENTS := <[id := c]> (CLIENTS w) |>).
Proof.
  intros H0 Et Ed. apply good_clients. intros k c'. destruct (decide (k = id)) as [->|N].
  - rewrite lookup_insert_eq. intros [= <-]. eauto.
  - rewrite (lookup_insert_ne _ _ _ _ (not_eq_sym N)). eauto.
Qed.

Lemma good_disk f w : good w -> good (w <| disk := f |>).
Proof. intros G. exact G. Qed.

Lemma good_to_task t o w : good w -> good (to_task t o w).
Proof. apply good_alter_task. reflexivity. Qed.

Lemma good_to_client id o w : good w -> good (to_client id o w).
Proof. unfold to_client. destruct (CLIENTS w !! id); [apply good_to_task|auto]. Qed.

Lemma good_voice a b id w : good w -> good (set_voice a b id w).2.
Proof.
  unfold set_voice. destruct (CLIENTS w !! id) as [c|] eqn:E; [|auto].
  cbn. apply (good_insert_client id _ c); auto.
Qed.

Lemma good_ui u w : good w -> good (ui_call u w).2.
Proof.
  intros G. destruct u; cbn [ui_call snd]; try (apply good_to_client; exact G).
  - unfold authorize. destruct (CLIENTS w !! id) as [c|] eqn:E; [|exact G].
    apply good_to_task, (good_insert_client id _ c); auto.
  - apply good_clients; [|exact G]. intros k c. rewrite lookup_delete_Some. intros [_ H]. eauto.
  - apply good_clients; [|exact G]. intros k c H. rewrite lookup_empty in H. discriminate.
Qed.

(** ** Logging in and ending *)

Hypothesis ident_inj : forall a b, ident a = ident b -> a = b.
Hypothesis ident_pos : forall t, 0 < ident t.

Lemma good_login t r l w :
  good w -> tasks w !! t = Some r ->
  good (set_task t (r <| conn_id := ident t |>) (cm_add_connection (ident t) l t w).2).
Proof.
  intros [HT HC] Ht. split.
  - intros t2 r2. cbn. destruct (decide (t2 = t)) as [->|N].
    + rewrite lookup_insert_eq. intros [= <-]. split; [apply (HT t r Ht)|right; reflexivity].
    + rewrite (lookup_insert_ne _ _ _ _ (not_eq_sym N)). apply HT.
  - intros id c. cbn. destruct (decide (id = ident t)) as [->|N].
    + rewrite lookup_insert_eq. intros [= <-]. cbn. split; [reflexivity|]. split; [apply (HT t r Ht)|].
      split; [discriminate|]. intros _. rewrite lookup_insert_eq. eexists. split; reflexivity.
    + rewrite (lookup_insert_ne _ _ _ _ (not_eq_sym N)). intros Hc.
      apply map_lookup_filter_Some in Hc as [Hc _].
      destruct (HC id c Hc) as (Ei & Lt & Hd & Hl).
      assert (Ne : t <> tx c) by (intros ->; exact (N Ei)).
      rewrite (lookup_insert_ne _ _ _ _ Ne). auto.
Qed.

Lemma good_end t w : good w -> good (task_end t w).2.
Proof.
  intros [HT HC]. unfold task_end. destruct (tasks w !! t) as [r|] eqn:Ht; [|split; assumption].
  assert (HT2 : forall t2 r2, delete t (tasks w) !! t2 = Some r2 ->
            (t2 < next_task w)%nat /\ (conn_id r2 = 0 \/ conn_id r2 = ident t2)).
  { intros t2 r2. rewrite lookup_delete_Some. intros [_ H]. apply (HT t2 r2 H). }
  (* a client of another task is served as before *)
  assert (Other : forall id c, CLIENTS w !! id = Some c -> tx c <> t ->
            id = ident (tx c) /\ (tx c < next_task w)%nat /\
            (disconnected c = true -> delete t (tasks w) !! tx c = None) /\
            (disconnected c = false -> exists r, delete t (tasks w) !! tx c = Some r /\ conn_id r = id)).
  { intros id c Hc N. destruct (HC id c Hc) as (Ei & Lt & Hd & Hl).
    rewrite (lookup_delete_ne _ _ _ (not_eq_sym N)). auto. }
  destruct (HT t r Ht) as [Lt Own]. destruct (0 <? conn_id r) eqn:Pos; cbn; split; try exact HT2.
  - assert (Eo : conn_id r = ident t) by lia. intros id c Hc. cbn in Hc |- *. revert Hc.
    destruct (close r); rewrite Eo; intros Hc.
    + apply lookup_delete_Some in Hc as [N Hc]. apply Other; [exact Hc|].
      intros <-. destruct (HC id c Hc) as (Ei & _). congruence.
    + destruct (decide (id = ident t)) as [->|N].
      * rewrite lookup_alter_eq in Hc. destruct (CLIENTS w !! ident t) as [c0|] eqn:H0; [|discriminate].
        injection Hc as <-. destruct (HC _ c0 H0) as (Ei & Lt0 & _ & _). apply ident_inj in Ei.
        change (tx (c0 <| disconnected := true |>)) with (tx c0). rewrite <- Ei.
        rewrite lookup_delete_eq. repeat split; auto. discriminate.
      * rewrite (lookup_alter_ne _ _ _ _ (not_eq_sym N)) in Hc. apply Other; [exact Hc|].
        intros <-. destruct (HC id c Hc) as (Ei & _). congruence.
  - intros id c Hc. cbn in Hc |- *. apply Other; [exact Hc|]. intros <-.
    destruct (HC id c Hc) as (Ei & _ & Hd & Hl). pose proof (ident_pos (tx c)).
    destruct (disconnected c); [rewrite (Hd eq_refl) in Ht; discriminate|].
    destruct (Hl eq_refl) as (r2 & E2 & Ec). rewrite Ht in E2. injection E2 as <-. lia.
Qed.

(** ** The turns of a task *)

Lemma good_finish t o turn w : good w -> good (finish_turn t (o, turn, w)).2.
Proof.
  intros G. destruct turn; cbn.
  - exact G.
  - apply good_alter_task; [reflexivity|exact G].
  - pose proof (good_end t w G) as G'. destruct (task_end t w) as [o' w']. exact G'.
Qed.

Lemma good_fs t f r w o w' :
  good w -> tasks w !! t = Some r -> on_fs e t f r w = Done (o, w') -> good w'.
Proof.
  intros G Ht H. unfold on_fs in H. apply bind_Done in H as ([outs s] & E & H). injection H as <- <-.
  apply (good_set_task t r); [exact G|exact Ht|]. cbn [with_files read_jobs]. destruct (CmFs.cm_read_jobs s); reflexivity.
Qed.

Lemma good_data t d r w o turn w' :
  good w -> tasks w !! t = Some r -> own_login (Turns t (FromConn (Some d))) ->
  on_data e t d r w = Done (o, turn, w') -> good w'.
Proof.
  intros G Ht Own H.
  assert (Go : forall x, good x.2 -> (let '(o, w) := x in Done (o, Continue, w)) = Done (o, turn, w') -> good w').
  { intros [o1 w1] G1 E. injection E as <- <- <-. exact G1. }
  destruct d; cbn in Own, H.
  - subst id. injection H as <- <- <-. apply (good_login t r l w G Ht).
  - injection H as <- <- <-. exact G.
  - injection H as <- <- <-. apply (good_set_task t r); auto.
  - injection H as <- <- <-. exact G.
  - injection H as <- <- <-. exact G.
  - apply bind_Done in H as ([o1 w1] & E & H). injection H as <- <- <-. eapply good_fs; eauto.
  - injection H as <- <- <-. exact G.
  - injection H as <- <- <-. exact G.
  - injection H as <- <- <-. exact G.
  - injection H as <- <- <-. exact G.
  - exact (Go _ (good_voice _ _ _ _ G) H).
  - exact (Go _ (good_voice _ _ _ _ G) H).
  - exact (Go _ (good_voice _ _ _ _ G) H).
  - injection H as <- <- <-. exact G.
Qed.

Lemma good_rx t ok r w : good w -> tasks w !! t = Some r -> good (on_rx t ok r w).2.
Proof.
  intros G Ht. unfold on_rx. destruct (rx r) as [|o rest]; [exact G|].
  destruct ok; apply (good_set_task t r); auto.
Qed.

Lemma sound_timer t r w : good w -> tasks w !! t = Some r -> good (on_timer e t r w).2.
Proof.
  intros G Ht. unfold on_timer. destruct (read_jobs r) eqn:Er; [apply (good_set_task t r); auto|].
  destruct (CmFs.handle_read_jobs_tick _ _ _) as [outs s]. apply (good_set_task t r); auto.
Qed.

Lemma good_task_step t ev w o w' :
  good w -> own_login (Turns t ev) -> task_step e t ev w = Done (o, w') -> good w'.
Proof.
  intros G Own H. unfold task_step in H. destruct (tasks w !! t) as [r|] eqn:Ht; [|injection H as <- <-; exact G].
  apply bind_Done in H as ([[o1 turn] w1] & E & H).
  assert (G1 : good w1).
  { destruct ev as [|[d|]|ok| |]; try (injection E as <- <- <-; exact G).
    - eapply good_data; eauto.
    - injection E as E. pose proof (good_rx t ok r w G Ht) as G1. rewrite E in G1. exact G1.
    - injection E as E. revert E. unfold on_log. destruct (rx_log r); intros [= <- <- <-];
        [exact G|apply (good_set_task t r); auto].
    - injection E as E. pose proof (sound_timer t r w G Ht) as G1. rewrite E in G1. exact G1. }
  pose proof (good_finish t o1 turn w1 G1) as G2. cbv beta in H.
  destruct (finish_turn t (o1, turn, w1)) as [o2 w2]. injection H as <- <-. exact G2.
Qed.

Lemma good_accept w : good w -> good (set_task (next_task w) new_task w <| next_task := Datatypes.S (next_task w) |>).
Proof.
  intros [HT HC]. split.
  - intros t r. cbn. destruct (decide (t = next_task w)) as [->|N].
    + rewrite lookup_insert_eq. intros [= <-]. split; [lia|left; reflexivity].
    + rewrite (lookup_insert_ne _ _ _ _ (not_eq_sym N)). intros H. destruct (HT t r H). split; [lia|auto].
  - intros id c Hc. destruct (HC id c Hc) as (Ei & Lt & Hd & Hl). cbn.
    rewrite lookup_insert_ne by lia. repeat split; auto; lia.
Qed.

Lemma sound_step ev w o w' : good w -> own_login ev -> step e ev w = Done (o, w') -> good w'.
Proof.
  intros G Own H. destruct ev as [|t ev|u]; cbn [step] in H.
  - injection H as <- <-. apply good_accept, G.
  - eapply good_task_step; eauto.
  - injection H as H. pose proof (good_ui u w G) as G'. rewrite H in G'. exact G'.
Qed.

Lemma sound_run evs : forall w o w', good w -> Forall own_login evs -> run e evs w = Done (o, w') -> good w'.
Proof.
  induction evs as [|ev evs IH]; intros w o w' G Own H; [injection H as <- <-; exact G|].
  inversion_clear Own as [|? ? O1 O2]. cbn [run] in H.
  apply bind_Done in H as ([o1 w1] & E & H). apply bind_Done in H as ([o2 w2] & E2 & H).
  injection H as <- <-. eapply IH; [|exact O2|exact E2]. eapply sound_step; eauto.
Qed.

End Owned.

(** The manager starts without clients and tasks. *)
Definition start (d : FileTransfer.Transfer.FS) : World := mkWorld ∅ 0 ∅ 0 d.

Lemma sound_start ident d : good ident (start d).
Proof. split; intros k x H; cbn in H; rewrite lookup_empty in H; discriminate. Qed.

(** When every connection logs in under its own positive number, then after
    any run a client in the list is marked as disconnected exactly when its
    task has ended; a client that is not marked has a live task with its
    number, so what the window sends to it is not lost. *)
Theorem disconnected_iff_ended (e : CmFs.CmEnv) (ident : nat -> Z) (d : FileTransfer.Transfer.FS)
    (evs : list Event) (o : list Out) (w : World) (id : Z) (c : Client) :
  (forall a b, ident a = ident b -> a = b) -> (forall t, 0 < ident t) ->
  Forall (own_login ident) evs ->
  run e evs (start d) = Done (o, w) ->
  CLIENTS w !! id = Some c ->
  (disconnected c = true <-> tasks w !! tx c = None) /\
  (disconnected c = false -> exists r, tasks w !! tx c = Some r /\ conn_id r = id).
Proof.
  intros Inj Pos Own H Hc.
  destruct (sound_run e ident Inj Pos evs _ o w (sound_start ident d) Own H) as [_ HC].
  destruct (HC id c Hc) as (_ & _ & Hd & Hl). split; [|exact Hl]. split; [exact Hd|].
  intros N. destruct (disconnected c) eqn:Ed; [reflexivity|].
  destruct (Hl eq_refl) as (r & E & _). congruence.
Qed.

(** Authorising a client ends [run]: the files being received are forgotten and
    the files being sent wait for the slow timer. *)
Lemma authorizing_drops_uploads e id c r w :
  CLIENTS w !! id = Some c -> tasks w !! tx c = Some r -> rx r = [] ->
  exists o w' r',
    run e [Window (UAuthorize id); Turns (tx c) (RxReady true)] w = Done (o, w') /\
    o = [ToConn (tx c) Authorize] /\
    tasks w' !! tx c = Some r' /\ write_jobs r' = [] /\ fast_timer r' = false /\ read_jobs r' = read_jobs r.
Proof.
  intros Hc Ht Hrx. cbn [run step ui_call outcome_bind]. unfold authorize. rewrite Hc.
  set (w1 := to_task _ _ _).
  assert (H1 : tasks w1 !! tx c = Some (r <| rx := [Authorize] |>)).
  { change (tasks w1) with (alter (fun q => q <| rx := rx q ++ [Authorize] |>) (tx c) (tasks w)).
    rewrite lookup_alter_eq, Ht. cbn. rewrite Hrx. reflexivity. }
  unfold task_step. rewrite H1. do 3 eexists. split; [reflexivity|]. split; [reflexivity|].
  split; [cbn; rewrite lookup_alter_eq, lookup_insert_eq; reflexivity|]. cbn. auto.
Qed.

(** The connections 1 and 2 log in; the first is lost without being closed. *)
Definition demo_login : Conn.CmLogin :=
  Conn.mkCmLogin false false false "" "1" "" true true true true true true true true false.
Definition demo_events : list Event :=
  [Accept; Accept; Turns 0 (FromConn (Some (InLogin 1 demo_login)));
   Turns 1 (FromConn (Some (InLogin 2 demo_login))); Turns 0 (FromConn (Some InDisconnected))].

Definition demo_world (e : CmFs.CmEnv) : World :=
  match run e demo_events (start FileTransfer.Transfer.fs_empty) with Done (_, w) => w | Panic => start FileTransfer.Transfer.fs_empty end.

Lemma disconnected_iff_ended_witness :
  match CLIENTS (demo_world CmFs.demo_env) !! 1 with
  | Some c => tasks (demo_world CmFs.demo_env) !! tx c = None
  | None => False
  end.
Proof.
  destruct (CLIENTS (demo_world CmFs.demo_env) !! 1) as [c|] eqn:Hc; [|vm_compute in Hc; discriminate].
  refine (proj1 (proj1 (disconnected_iff_ended CmFs.demo_env (fun t => Z.of_nat t + 1) FileTransfer.Transfer.fs_empty demo_events
    _ (demo_world CmFs.demo_env) 1 c _ _ _ _ Hc)) _); [lia|lia| |reflexivity|].
  - repeat constructor.
  - vm_compute in Hc. injection Hc as <-. reflexivity.
Defined.

End CmFacts.
