(* ===== verification/InputService.v ===== *)
(** * Simulating the input of peers ([src/server/input_service.rs])

    The keys and mouse events a connection hands over are simulated on the
    machine, by the traits of [Enigo] and by rdev.  The program keeps a table of
    the keys it holds down ([KEYS_DOWN]); a timer, and the mouse cursor service
    when its last viewer is gone, release them.  The services that send the
    position and the picture of the cursor are here as well.

    Everything is for a Linux build, with X11 or Wayland.  Threads that are
    spawned and what goes to the whiteboard are effects.  A pause ([sleep]) has
    no effect here. *)

From S2P Require Import Prelude RustStr Messages Enigo Keys Connection.

#[local] Open Scope rust_scope.

Module InputService.

Import Msg.

Definition MOUSE_TYPE_MOVE : Z := 0.
Definition MOUSE_TYPE_DOWN : Z := 1.
Definition MOUSE_TYPE_UP : Z := 2.
Definition MOUSE_TYPE_WHEEL : Z := 3.
Definition MOUSE_TYPE_TRACKPAD : Z := 4.
Definition MOUSE_TYPE_MOVE_RELATIVE : Z := 5.
Definition MOUSE_TYPE_MASK : Z := 7.
Definition MOUSE_BUTTON_LEFT : Z := 1.
Definition KEY_CHAR_START : Z := 9999.
Definition INVALID_CURSOR_POS : Z := - 2 ^ 31.

(** A key of an X server by its code, or another key of rdev. *)
Inductive SimKey : Type := LinuxXorgKeycode (code : Z) | RdevNamed (k : RdevKey).

(** [rdev::simulate]; it tells whether it succeeded. *)
Class Rdev (D : Type) := {
  rdev_press : SimKey -> D -> bool * D;
  rdev_release : SimKey -> D -> bool * D }.

(** ** State *)

Inductive KeysDown : Type := RawCode (code : Z) | EnigoKey (key : Z).

#[export] Instance KeysDown_eq_dec : EqDecision KeysDown.
Proof. solve_decision. Defined.
#[export] Instance KeysDown_countable : Countable KeysDown.
Proof.
  refine (inj_countable' (fun k => match k with RawCode c => inl c | EnigoKey c => inr c end)
            (fun k => match k with inl c => RawCode c | inr c => EnigoKey c end) _).
  intros []; reflexivity.
Defined.

Set Primitive Projections.

Record Input : Type := mkInput { i_conn : Z; i_time : Z; i_x : Z; i_y : Z }.

Record State (D : Type) : Type := mkState {
  en : D;
  KEYS_DOWN : gmap KeysDown Z;          (* when it was pressed *)
  LATEST_PEER_INPUT_CURSOR : Input;
  RELATIVE_MOUSE_CONNS : gset Z;
  EXITING : bool }.

Unset Primitive Projections.

Arguments mkState {D}.
Arguments en {D}.
Arguments KEYS_DOWN {D}.
Arguments LATEST_PEER_INPUT_CURSOR {D}.
Arguments RELATIVE_MOUSE_CONNS {D}.
Arguments EXITING {D}.

(** The machine: what the process asks the system. *)
Record Machine (D : Type) : Type := mkMachine {
  is_x11 : bool;
  is_server : bool;
  get_cursor_pos : D -> option (Z * Z);
  linux_key_from_code : Z -> RdevKey;
  to_uppercase : list Z -> list Z;
  block_input : bool -> D -> bool * D }.
Arguments is_x11 {D}.
Arguments is_server {D}.
Arguments get_cursor_pos {D}.
Arguments linux_key_from_code {D}.
Arguments to_uppercase {D}.
Arguments block_input {D}.

Inductive Effect : Type :=
| SpawnLockScreen
| CursorOnWhiteboard (conn x y btns : Z)
| BlockInputError (on : bool).

Section Input.
Context {D : Type} `{KeyboardControllable D, MouseControllable D, Rdev D} (m : Machine D).

Definition wayland_use_uinput : bool := negb (is_x11 m) && is_server m.
Definition keycode_to_rdev_key : Z -> RdevKey := linux_key_from_code m.

(** ** Modifiers *)

Definition get_modifier_state (key : Key.t) (d : D) : bool :=
  let x := get_key_state key d in
  match key with
  | Key.Shift => x || get_key_state Key.RightShift d
  | Key.Control => x || get_key_state Key.RightControl d
  | Key.Alt => x || get_key_state Key.RightAlt d
  | Key.Meta => x || get_key_state Key.RWin d
  | Key.RightShift => x || get_key_state Key.Shift d
  | Key.RightControl => x || get_key_state Key.Control d
  | Key.RightAlt => x || get_key_state Key.Alt d
  | Key.RWin => x || get_key_state Key.Meta d
  | _ => x
  end.
Definition is_pressed : Key.t -> D -> bool := get_modifier_state.

Definition has_modifier (modifiers : list Z) (ck : Z) : bool := existsb (Z.eqb ck) modifiers.

Definition fix_modifier (modifiers : list Z) (key0 : Z) (key1 : Key.t) (d : D) : D :=
  if get_modifier_state key1 d && negb (has_modifier modifiers key0) then key_up key1 d else d.

(** The key that a call is left out for, the modifier of the message, the key to
    release. *)
Definition FIXED : list (Z * Z * Key.t) :=
  [(CK.Shift, CK.Shift, Key.Shift); (CK.RShift, CK.Shift, Key.RightShift);
   (CK.Alt, CK.Alt, Key.Alt); (CK.RAlt, CK.Alt, Key.RightAlt);
   (CK.Control, CK.Control, Key.Control); (CK.RControl, CK.Control, Key.RightControl);
   (CK.Meta, CK.Meta, Key.Meta); (CK.RWin, CK.Meta, Key.RWin)].

Definition fix_modifiers (modifiers : list Z) (ck : Z) (d : D) : D :=
  fold_left (fun d x => let '(own, key0, key1) := x in if ck =? own then d else fix_modifier modifiers key0 key1 d)
    FIXED d.

Definition release_device_modifiers (d : D) : D :=
  fold_left (fun d k => if get_modifier_state k d then key_up k d else d)
    [Key.Shift; Key.Control; Key.Alt; Key.Meta; Key.RightShift; Key.RightControl; Key.RightAlt; Key.RWin] d.

(** ** The table of pressed keys *)

Definition record_pressed_key (now : Z) (k : KeysDown) (down : bool) (s : State D) : State D :=
  s <| KEYS_DOWN := if down then <[ k := now ]> (KEYS_DOWN s) else delete k (KEYS_DOWN s) |>.

Definition record_key_is_control_key (record_key : Z) : bool := record_key <? KEY_CHAR_START.
Definition record_key_is_chr (record_key : Z) : bool := record_key <? KEY_CHAR_START.

Definition record_key_to_key (record_key : Z) : option Key.t :=
  if record_key_is_control_key record_key then control_key_value_to_key (swrap 32 record_key)
  else if record_key_is_chr record_key then Some (char_value_to_key (wrap 32 (record_key - KEY_CHAR_START)))
  else None.

(** [simulate_]: an error is logged. *)
Definition simulate_press (k : SimKey) (d : D) : D := (rdev_press k d).2.
Definition simulate_release (k : SimKey) (d : D) : D := (rdev_release k d).2.

Definition release_record_key (k : KeysDown) (d : D) : D :=
  match k with
  | RawCode c => simulate_release (LinuxXorgKeycode c) d
  | EnigoKey key => match record_key_to_key key with Some k => key_up k d | None => d end
  end.

(** [fix_key_down_timeout]; the table is walked in some order. *)
Definition fix_key (force : bool) (now : Z) (x : KeysDown * Z) (s : State D) : State D :=
  if force || (360000 <=? now - x.2) then
    let s := record_pressed_key now x.1 false s in
    s <| en := release_record_key x.1 (en s) |>
  else s.

Definition fix_key_down_timeout (force : bool) (now : Z) (s : State D) : State D :=
  fold_left (fun s x => fix_key force now x s) (map_to_list (KEYS_DOWN s)) s.

Definition fix_key_down_timeout_at_exit (now : Z) (s : State D) : State D :=
  if EXITING s then s else fix_key_down_timeout true now (s <| EXITING := true |>).

(** ** Lock keys ([LockModesHandler]) *)

Record LockModesHandler : Type := mkLockModes { caps_lock_changed : bool; num_lock_changed : bool }.

Definition is_legacy_mode (e : KeyEvent) : bool :=
  match k_mode e with Some Legacy | None => true | _ => false end.

Definition is_modifier_enabled (e : KeyEvent) (ck : Z) : bool := has_modifier (k_modifiers e) ck.

Definition lock_new (e : KeyEvent) (is_numpad_key : bool) (d : D) : LockModesHandler * D :=
  let caps := negb (Bool.eqb (is_modifier_enabled e CK.CapsLock) (get_key_state Key.CapsLock d)) in
  let d := if caps then key_click Key.CapsLock d else d in
  let num := is_numpad_key && negb (Bool.eqb (is_modifier_enabled e CK.NumLock) (get_key_state Key.NumLock d)) in
  let d := if num then key_click Key.NumLock d else d in
  (mkLockModes caps num, d).

Definition lock_drop (h : LockModesHandler) (d : D) : D :=
  if wayland_use_uinput then d
  else
    let d := if caps_lock_changed h then key_click Key.CapsLock d else d in
    if num_lock_changed h then key_click Key.NumLock d else d.

Definition skip_led_sync_control_key (ck : Z) : bool :=
  existsb (Z.eqb ck) [CK.Control; CK.RControl; CK.Meta; CK.Shift; CK.RShift; CK.Alt; CK.RAlt; CK.Tab; CK.Return].

Definition is_numpad_control_key (ck : Z) : bool :=
  existsb (Z.eqb ck)
    [CK.Numpad0; CK.Numpad1; CK.Numpad2; CK.Numpad3; CK.Numpad4; CK.Numpad5; CK.Numpad6; CK.Numpad7; CK.Numpad8;
     CK.Numpad9; CK.NumpadEnter].

Definition skip_led_sync_rdev_key (key : RdevKey) : bool :=
  existsb (String.eqb key)
    ["ControlLeft"; "ControlRight"; "MetaLeft"; "MetaRight"; "ShiftLeft"; "ShiftRight"; "Alt"; "AltGr"; "Tab";
     "Return"].

(** Whether [handle_key_] makes a handler, and for a key of the number pad. *)
Definition lock_wanted (e : KeyEvent) : option bool :=
  match k_union e with
  | Some (Unicode _) | Some (Seq _) => Some false
  | Some (ControlKey ck) => if skip_led_sync_control_key ck then None else Some (is_numpad_control_key ck)
  | Some (Chr code) =>
    if is_legacy_mode e then Some false
    else let key := keycode_to_rdev_key code in
         if skip_led_sync_rdev_key key then None else Some (is_numpad_rdev_key key)
  | _ => None
  end.

(** ** The modes *)

Definition key_chr (e : KeyEvent) : Z := match k_union e with Some (Chr c) => c | _ => 0 end.

Definition sim_rdev_rawkey_position (now code : Z) (keydown : bool) (s : State D) : State D :=
  let s := record_pressed_key now (RawCode code) keydown s in
  s <| en := (if keydown then simulate_press else simulate_release) (LinuxXorgKeycode code) (en s) |>.

Definition map_keyboard_mode (now : Z) (e : KeyEvent) (s : State D) : State D :=
  if negb (is_x11 m) then
    let key := Key.Raw (wrap 16 (key_chr e)) in
    s <| en := if k_down e then (key_down key (en s)).2 else key_up key (en s) |>
  else sim_rdev_rawkey_position now (key_chr e) (k_down e) s.

Definition get_control_key_value (e : KeyEvent) : Z :=
  match k_union e with Some (ControlKey ck) => ck | _ => -1 end.

Definition release_unpressed_modifiers (e : KeyEvent) : D -> D :=
  fix_modifiers (k_modifiers e) (get_control_key_value e).

(** The code compares with the value of [ControlKey::RAlt], not with a code of
    the X server. *)
Definition is_altgr_pressed (s : State D) : bool :=
  match KEYS_DOWN s !! RawCode CK.RAlt with Some _ => true | None => false end.

Definition press_modifier (altgr : bool) (ck : Z) (x : D * list Key.t) : D * list Key.t :=
  let '(d, to_release) := x in
  match control_key_value_to_key ck with
  | None => x
  | Some key =>
    if is_pressed key d then x
    else if bool_decide (key = Key.Alt) && altgr then x
    else ((key_down key d).2, to_release ++ [key])
  end.

Definition press_modifiers (altgr : bool) (e : KeyEvent) (x : D * list Key.t) : D * list Key.t :=
  fold_left (fun x ck => press_modifier altgr ck x) (k_modifiers e) x.

Definition sync_modifiers (altgr : bool) (e : KeyEvent) (x : D * list Key.t) : D * list Key.t :=
  if k_down e then
    let '(d, to_release) := x in
    press_modifiers altgr e (release_unpressed_modifiers e d, to_release)
  else x.

Definition process_control_key (ck : Z) (down : bool) (d : D) : D :=
  match control_key_value_to_key ck with
  | Some key => if down then (key_down key d).2 else key_up key d
  | None => d
  end.

Definition need_to_uppercase (d : D) : bool :=
  get_modifier_state Key.Shift d || get_modifier_state Key.CapsLock d.

Definition process_chr (chr : Z) (down : bool) (d : D) : D :=
  let key := char_value_to_key chr in
  if down then
    let '(ok, d) := key_down key d in
    if ok then d
    else match char_from_u32 chr with
         | Some c => key_sequence (if need_to_uppercase d then to_uppercase m [c] else [c]) d
         | None => d
         end
  else key_up key d.

Definition process_unicode (chr : Z) (d : D) : D :=
  match char_from_u32 chr with Some c => key_sequence [c] d | None => d end.

Definition release_keys (to_release : list Key.t) (d : D) : D := fold_left (fun d k => key_up k d) to_release d.

Definition is_function_key (ck : Z) : bool * list Effect :=
  if ck =? CK.CtrlAltDel then (true, [])
  else if ck =? CK.LockScreen then (true, [SpawnLockScreen])
  else (false, []).

Definition legacy_keyboard_mode (now : Z) (e : KeyEvent) (s : State D) : list Effect * State D :=
  let '(d, to_release) := sync_modifiers (is_altgr_pressed s) e (en s, []) in
  let s := s <| en := d |> in
  let down := k_down e in
  let finish s := ([], s <| en := release_keys to_release (en s) |>) in
  match k_union e with
  | Some (ControlKey ck) =>
    let '(special, effects) := is_function_key ck in
    if special then (effects, s)
    else
      let s := record_pressed_key now (EnigoKey (wrap 64 ck)) down s in
      finish (s <| en := process_control_key ck down (en s) |>)
  | Some (Chr chr) =>
    let s := record_pressed_key now (EnigoKey (chr + KEY_CHAR_START)) down s in
    finish (s <| en := process_chr chr down (en s) |>)
  | Some (Unicode chr) => finish (s <| en := process_unicode chr (en s) |>)
  | Some (Seq sq) => finish (s <| en := key_sequence (chars sq) (en s) |>)
  | _ => finish s
  end.

Definition translate_seq (sq : string) (d : D) : D :=
  let d := if get_modifier_state Key.Shift d then simulate_release (RdevNamed "ShiftLeft") d else d in
  let d := if get_modifier_state Key.RightShift d then simulate_release (RdevNamed "ShiftRight") d else d in
  fold_left (fun d c => key_click (Key.Layout c) d) (chars sq) d.

Definition translate_keyboard_mode (now : Z) (e : KeyEvent) (s : State D) : State D :=
  match k_union e with
  | Some (Seq sq) => s <| en := translate_seq sq (en s) |>
  | Some (Chr code) => sim_rdev_rawkey_position now code (k_down e) s
  | _ => s
  end.

Definition key_by_mode (now : Z) (e : KeyEvent) (s : State D) : list Effect * State D :=
  match k_mode e with
  | Some Map => ([], map_keyboard_mode now e s)
  | Some Translate => ([], translate_keyboard_mode now e s)
  | _ => legacy_keyboard_mode now e s
  end.

Definition handle_key_ (now : Z) (e : KeyEvent) (s : State D) : list Effect * State D :=
  if EXITING s then ([], s)
  else
    match lock_wanted e with
    | None => key_by_mode now e s
    | Some numpad =>
      let '(h, d) := lock_new e numpad (en s) in
      let '(o, s) := key_by_mode now e (s <| en := d |>) in
      (o, s <| en := lock_drop h (en s) |>)
    end.

(** The thread of [lock_screen] on Linux. *)
Definition lock_screen (now : Z) (s : State D) : list Effect * State D :=
  let key down := mkKeyEvent down false (Some (Chr 108)) (Some Legacy) [CK.Meta] in
  let '(o, s) := handle_key_ now (key true) s in
  let '(o', s) := handle_key_ now (key false) s in
  (o ++ o', s).

(** ** The mouse *)

Definition set_relative_mouse_active (conn : Z) (active : bool) (s : State D) : State D :=
  s <| RELATIVE_MOUSE_CONNS := if active then {[ conn ]} ∪ RELATIVE_MOUSE_CONNS s
                               else RELATIVE_MOUSE_CONNS s ∖ {[ conn ]} |>.
Definition clear_relative_mouse_active (conn : Z) : State D -> State D := set_relative_mouse_active conn false.

Definition press_for_mouse (ck : Z) (x : D * list Key.t) : D * list Key.t :=
  let '(d, to_release) := x in
  match KEY_MAP ck with
  | None => x
  | Some key =>
    if bool_decide (key = Key.CapsLock) || bool_decide (key = Key.NumLock) then x
    else if get_modifier_state key d then x
    else ((key_down key d).2, to_release ++ [key])
  end.

Definition button_of (buttons : Z) : option MouseButton :=
  if buttons =? MOUSE_BUTTON_LEFT then Some BLeft
  else if buttons =? 2 then Some BRight
  else if buttons =? 4 then Some BMiddle
  else if buttons =? 8 then Some BBack
  else if buttons =? 16 then Some BForward
  else None.

Definition MAX_RELATIVE_MOUSE_DELTA : Z := 10000.
Definition clamp_delta (v : Z) : Z := Z.max (- MAX_RELATIVE_MOUSE_DELTA) (Z.min MAX_RELATIVE_MOUSE_DELTA v).

(** Away from Windows [y] is negated too; [-x] wraps. *)
Definition wheel (e : MouseEvent) (d : D) : D :=
  let x := swrap 32 (- me_x e) in
  let y := swrap 32 (- me_y e) in
  let d := if y =? 0 then d else mouse_scroll_y y d in
  if x =? 0 then d else mouse_scroll_x x d.

Definition mouse_body (now conn evt_type buttons : Z) (e : MouseEvent) (s : State D) : State D :=
  if evt_type =? MOUSE_TYPE_MOVE then
    let s := set_relative_mouse_active conn false s in
    s <| en := mouse_move_to (me_x e) (me_y e) (en s) |>
      <| LATEST_PEER_INPUT_CURSOR := mkInput conn now (me_x e) (me_y e) |>
  else if evt_type =? MOUSE_TYPE_MOVE_RELATIVE then
    let s := set_relative_mouse_active conn true s in
    let s := s <| en := mouse_move_relative (clamp_delta (me_x e)) (clamp_delta (me_y e)) (en s) |> in
    match get_cursor_pos m (en s) with
    | Some (x, y) => s <| LATEST_PEER_INPUT_CURSOR := mkInput conn now x y |>
    | None => s
    end
  else if evt_type =? MOUSE_TYPE_DOWN then
    match button_of buttons with Some b => s <| en := (mouse_down b (en s)).2 |> | None => s end
  else if evt_type =? MOUSE_TYPE_UP then
    match button_of buttons with Some b => s <| en := mouse_up b (en s) |> | None => s end
  else if (evt_type =? MOUSE_TYPE_WHEEL) || (evt_type =? MOUSE_TYPE_TRACKPAD) then s <| en := wheel e (en s) |>
  else s.

Definition handle_mouse_simulation_ (now conn : Z) (e : MouseEvent) (s : State D) : State D :=
  if EXITING s then s
  else
    let buttons := Z.shiftr (me_mask e) 3 in
    let evt_type := Z.land (me_mask e) MOUSE_TYPE_MASK in
    let '(d, to_release) :=
      if evt_type =? MOUSE_TYPE_DOWN
      then fold_left (fun x ck => press_for_mouse ck x) (me_modifiers e) (fix_modifiers (me_modifiers e) 0 (en s), [])
      else (en s, []) in
    let s := mouse_body now conn evt_type buttons e (s <| en := d |>) in
    s <| en := release_keys to_release (en s) |>.

Definition handle_mouse_show_cursor_ (conn : Z) (e : MouseEvent) (s : State D) : list Effect :=
  let buttons := Z.shiftr (me_mask e) 3 in
  let evt_type := Z.land (me_mask e) MOUSE_TYPE_MASK in
  if evt_type =? MOUSE_TYPE_MOVE then [CursorOnWhiteboard conn (me_x e) (me_y e) 0]
  else if (evt_type =? MOUSE_TYPE_UP) && (buttons =? MOUSE_BUTTON_LEFT) then
    let latest := LATEST_PEER_INPUT_CURSOR s in
    if (me_x e =? 0) && (me_y e =? 0) then [CursorOnWhiteboard conn (i_x latest) (i_y latest) buttons]
    else [CursorOnWhiteboard conn (me_x e) (me_y e) buttons]
  else [].

Definition handle_mouse (now conn : Z) (e : MouseEvent) (simulate show_cursor : bool) (s : State D)
  : list Effect * State D :=
  let s := if simulate then handle_mouse_simulation_ now conn e s else s in
  let evt_type := Z.land (me_mask e) MOUSE_TYPE_MASK in
  let shown := show_cursor && negb (bool_decide (conn ∈ RELATIVE_MOUSE_CONNS s))
               && negb (evt_type =? MOUSE_TYPE_MOVE_RELATIVE) in
  (if shown then handle_mouse_show_cursor_ conn e s else [], s).

(** ** The thread of a connection ([handle_input] in [connection.rs]) *)

Definition set_down (e : KeyEvent) (down : bool) : KeyEvent :=
  mkKeyEvent down false (k_union e) (k_mode e) (k_modifiers e).

(** A touch event has no effect on Linux. *)
Definition handle_input (now conn : Z) (i : Conn.MessageInput) (s : State D) : list Effect * State D :=
  match i with
  | Conn.Mouse e simulate show_cursor => handle_mouse now conn e simulate show_cursor s
  | Conn.Key e press =>
    if press then
      let '(o, s) := handle_key_ now (set_down e true) s in
      let '(o', s) := handle_key_ now (set_down e false) s in
      (o ++ o', s)
    else handle_key_ now (set_down e (k_down e)) s
  | Conn.Pointer _ => ([], s)
  | Conn.BlockOn =>
    let '(ok, d) := block_input m true (en s) in
    (if ok then [] else [BlockInputError true], s <| en := d |>)
  | Conn.BlockOff =>
    let '(ok, d) := block_input m false (en s) in
    (if ok then [] else [BlockInputError false], s <| en := d |>)
  end.

(** What happens to the input of the machine, in order. *)
Inductive Step : Type :=
| FromConn (conn : Z) (i : Conn.MessageInput)
| LockScreenThread
| TimeoutLoop                                   (* [fix_key_down_timeout_loop] *)
| CursorReset                                   (* [StateCursor::reset] *)
| ConnDropped (conn : Z)
| AtExit.

Definition step (now : Z) (x : Step) (s : State D) : list Effect * State D :=
  match x with
  | FromConn conn i => handle_input now conn i s
  | LockScreenThread => lock_screen now s
  | TimeoutLoop => ([], fix_key_down_timeout false now s)
  | CursorReset => ([], fix_key_down_timeout true now s)
  | ConnDropped conn => ([], clear_relative_mouse_active conn s)
  | AtExit => ([], fix_key_down_timeout_at_exit now s)
  end.

Fixpoint steps (xs : list (Z * Step)) (s : State D) : list Effect * State D :=
  match xs with
  | [] => ([], s)
  | (now, x) :: xs => let '(o, s) := step now x s in let '(o', s) := steps xs s in (o ++ o', s)
  end.

Definition fresh (d : D) : State D := mkState d ∅ (mkInput 0 0 0 0) ∅ false.

End Input.

(** ** The services of the cursor *)

(** A subscriber of the picture of the cursor ([MouseCursorSub]): it keeps the
    pictures it has sent. *)
Inductive CursorMsg : Type := CursorData (id : Z) (colors : blob) | CursorId (id : Z) | CursorOther.

Definition sub_send (msg : CursorMsg) (cached : gset Z) : list CursorMsg * gset Z :=
  match msg with
  | CursorData id _ => if bool_decide (id ∈ cached) then ([CursorId id], cached) else ([msg], {[ id ]} ∪ cached)
  | _ => ([msg], cached)
  end.

Fixpoint sub_sends (msgs : list CursorMsg) (cached : gset Z) : list CursorMsg :=
  match msgs with
  | [] => []
  | msg :: msgs => let '(o, cached) := sub_send msg cached in o ++ sub_sends msgs cached
  end.

Record StateCursor : Type := mkCursor { hcursor : Z; cursor_data : CursorMsg; cached_cursor_data : gmap Z CursorMsg }.

(** [run_cursor]: what is sent to all, and to new subscribers. *)
Definition run_cursor (get_cursor : result (option Z) string) (get_cursor_data : Z -> result blob string)
    (compress : blob -> blob) (st : StateCursor) : result (list CursorMsg * CursorMsg * StateCursor) string :=
  let? cur := get_cursor in
  match cur with
  | Some h =>
    if h =? hcursor st then Ok ([], cursor_data st, st)
    else
      let? (msg, cache) :=
        match cached_cursor_data st !! h with
        | Some msg => Ok (msg, cached_cursor_data st)
        | None =>
          let? colors := get_cursor_data h in
          let msg := CursorData h (compress colors) in
          Ok (msg, <[ h := msg ]> (cached_cursor_data st))
        end in
      Ok ([msg], msg, mkCursor h msg cache)
  | None => Ok ([], cursor_data st, st)
  end.

(** [run_pos]: whom the position is not sent to, if it is sent. *)
Definition pos_is_moved (old : Z * Z) (x y : Z) : bool :=
  negb (old.1 =? INVALID_CURSOR_POS) && (negb (old.1 =? x) || negb (old.2 =? y)).

Definition run_pos (now : Z) (sys : Z * Z) (latest : Input) (old : Z * Z) : option (Z * (Z * Z)) * (Z * Z) :=
  let '(x, y) := sys in
  if (x =? INVALID_CURSOR_POS) || (y =? INVALID_CURSOR_POS) then (None, old)
  else
    let exclude := if now - i_time latest <? 300 then i_conn latest else 0 in
    (if pos_is_moved old x y then Some (exclude, (x, y)) else None, (x, y)).

(** [run_window_focus]: the display with the focus *)
Definition run_window_focus (displays : nat) (focused : option Z) (old : Z) : option Z * Z :=
  if (displays <=? 1)%nat then (None, old)
  else match focused with
       | Some idx => (if negb (old =? -1) && negb (old =? idx) then Some idx else None, idx)
       | None => (None, old)
       end.

(** The thread that records the position of the cursor runs while a remote
    connection is authorized ([try_stop_record_cursor_pos]). *)
Definition try_stop_record_cursor_pos (remote_count : nat) (running : bool) : bool :=
  if (0 <? remote_count)%nat then running else false.

End InputService.
