(* ===== verification/InputServiceProofs.v ===== *)
(** * What holds of the simulation of input

    - Keys sent by position: whatever the program holds down is in its table,
      so a forced release lets go of everything, and the timer of anything held
      for six minutes.
    - Typing in the legacy mode leaves no modifier behind.
    - A viewer gets the picture of a cursor before its number.
    - Two things that go wrong: characters are forgotten instead of released,
      and the keys for locking the screen leave the modifiers of the message
      down. *)

From S2P Require Import Prelude RustStr Messages Enigo Keys Connection InputService.

#[local] Open Scope rust_scope.

Module InputFacts.

Import Msg InputService.

(** ** Keys held through rdev

    [held] are the codes pressed through rdev and not released since.  A press
    may fail; a release does not; what enigo does adds nothing. *)
Class RdevLaws (D : Type) `{KeyboardControllable D, MouseControllable D, Rdev D} (m : Machine D) := {
  held : D -> gset Z;
  held_press c d : held (rdev_press (LinuxXorgKeycode c) d).2 ⊆ {[ c ]} ∪ held d;
  held_release c d : held (rdev_release (LinuxXorgKeycode c) d).2 = held d ∖ {[ c ]};
  held_release_named k d : held (rdev_release (RdevNamed k) d).2 ⊆ held d;
  held_key_down k d : held (key_down k d).2 ⊆ held d;
  held_key_up k d : held (key_up k d) ⊆ held d;
  held_key_click k d : held (key_click k d) ⊆ held d;
  held_key_sequence s d : held (key_sequence s d) ⊆ held d;
  held_mouse_move_to x y d : held (mouse_move_to x y d) ⊆ held d;
  held_mouse_move_relative x y d : held (mouse_move_relative x y d) ⊆ held d;
  held_mouse_down b d : held (mouse_down b d).2 ⊆ held d;
  held_mouse_up b d : held (mouse_up b d) ⊆ held d;
  held_scroll_x n d : held (mouse_scroll_x n d) ⊆ held d;
  held_scroll_y n d : held (mouse_scroll_y n d) ⊆ held d;
  held_block b d : held (block_input m b d).2 ⊆ held d }.

Create HintDb held.
#[export] Hint Resolve held_release_named held_key_down held_key_up held_key_click held_key_sequence
  held_mouse_move_to held_mouse_move_relative held_mouse_down held_mouse_up held_scroll_x held_scroll_y held_block
  : held.

Section Held.
Context {D : Type} `{KeyboardControllable D, MouseControllable D, Rdev D} (m : Machine D) `{!RdevLaws D m}.

Definition codes (t : gmap KeysDown Z) (c : Z) : Prop := is_Some (t !! RawCode c).

(** What is held is in the table. *)
Definition recorded (s : State D) : Prop := forall c, c ∈ held (en s) -> codes (KEYS_DOWN s) c.

(** Steps that hold nothing new. *)
Definition quiet (f : D -> D) : Prop := forall d, held (f d) ⊆ held d.

Lemma quiet_if (b : bool) f : quiet f -> quiet (fun d => if b then f d else d).
Proof. intros Q d. destruct b; [apply Q|reflexivity]. Qed.

Lemma quiet_fold {A} (f : D -> A -> D) l : (forall a, quiet (fun d => f d a)) -> quiet (fun d => fold_left f l d).
Proof.
  intros Q. induction l as [|a l IH]; intros d; [reflexivity|].
  cbn. etransitivity; [apply (IH (f d a))|apply (Q a)].
Qed.

Lemma quiet_fix_modifiers mods ck : quiet (fix_modifiers mods ck).
Proof.
  apply quiet_fold. intros [[own key0] key1] d. unfold fix_modifier.
  destruct (ck =? own); [reflexivity|]. destruct (_ && _); [apply held_key_up|reflexivity].
Qed.

Lemma quiet_release_keys l : quiet (release_keys l).
Proof. apply quiet_fold. intros k d. apply held_key_up. Qed.

Lemma quiet_press_modifiers altgr e d l : held (press_modifiers altgr e (d, l)).1 ⊆ held d.
Proof.
  unfold press_modifiers. revert d l. induction (k_modifiers e) as [|ck mods IH]; intros d l; [reflexivity|].
  cbn [fold_left]. unfold press_modifier at 2. repeat case_match; try apply IH.
  etransitivity; [apply IH|apply held_key_down].
Qed.

Lemma quiet_sync altgr e d : held (sync_modifiers altgr e (d, [])).1 ⊆ held d.
Proof.
  unfold sync_modifiers. destruct (k_down e); [|reflexivity].
  etransitivity; [apply quiet_press_modifiers|apply quiet_fix_modifiers].
Qed.

Lemma quiet_chr chr down : quiet (process_chr m chr down).
Proof.
  intros d. unfold process_chr. destruct down; [|apply held_key_up].
  pose proof (held_key_down (char_value_to_key chr) d) as Hd.
  destruct (key_down _ d) as [ok d']. cbn in Hd. destruct ok; [exact Hd|].
  destruct (char_from_u32 chr); [|exact Hd]. etransitivity; [apply held_key_sequence|exact Hd].
Qed.

Lemma quiet_control ck down : quiet (process_control_key ck down).
Proof. intros d. unfold process_control_key. repeat case_match; auto with held. Qed.

Lemma quiet_seq sq : quiet (translate_seq sq).
Proof.
  intros d. unfold translate_seq. etransitivity; [apply quiet_fold; intros c d'; apply held_key_click|].
  cbv zeta. unfold simulate_release.
  repeat (case_match; try (etransitivity; [apply held_release_named|])); reflexivity.
Qed.

Lemma quiet_lock_new e numpad d : held (lock_new e numpad d).2 ⊆ held d.
Proof.
  unfold lock_new. cbn.
  repeat (case_match; try (etransitivity; [apply held_key_click|])); reflexivity.
Qed.

Lemma quiet_lock_drop h : quiet (lock_drop m h).
Proof.
  intros d. unfold lock_drop. cbv zeta.
  repeat (case_match; try (etransitivity; [apply held_key_click|])); reflexivity.
Qed.

(** ** The table follows *)

Lemma recorded_quiet (s : State D) d :
  held d ⊆ held (en s) -> recorded s -> recorded (s <| en := d |>).
Proof. intros Q R c Hc. apply (R c), Q, Hc. Qed.

Lemma recorded_enigo (s : State D) t k down :
  recorded s -> recorded (record_pressed_key t (EnigoKey k) down s).
Proof.
  intros R c Hc. destruct (R c Hc) as [x Hx]. unfold codes, record_pressed_key. cbn. exists x.
  destruct down; [rewrite lookup_insert_ne by discriminate|rewrite lookup_delete_ne by discriminate]; exact Hx.
Qed.

Lemma recorded_position (s : State D) t code down :
  recorded s -> recorded (sim_rdev_rawkey_position t code down s).
Proof.
  intros R c. unfold recorded, codes, sim_rdev_rawkey_position, record_pressed_key, simulate_press, simulate_release.
  cbn. destruct down; intros Hc.
  - destruct (decide (code = c)) as [->|N].
    + rewrite lookup_insert_eq. eauto.
    + rewrite lookup_insert_ne by congruence. apply (R c).
      apply held_press in Hc. set_solver.
  - rewrite held_release in Hc. rewrite lookup_delete_ne by set_solver. apply (R c). set_solver.
Qed.

Hypothesis x11 : is_x11 m = true.

Lemma recorded_legacy t e s : recorded s -> recorded (legacy_keyboard_mode m t e s).2.
Proof using RdevLaws0.
  intros R. unfold legacy_keyboard_mode.
  pose proof (quiet_sync (is_altgr_pressed s) e (en s)) as Q.
  destruct (sync_modifiers _ _ _) as [d rel]. cbn in Q.
  pose proof (recorded_quiet s d Q R) as R1. clear R Q.
  set (s1 := s <| en := d |>) in *. clearbody s1.
  assert (F : forall s2, recorded s2 -> recorded (s2 <| en := release_keys rel (en s2) |>)).
  { intros s2 R2. apply recorded_quiet; [apply quiet_release_keys|exact R2]. }
  destruct (k_union e) as [[ck|chr|chr|sq|code]|]; cbn [snd].
  - unfold is_function_key. repeat case_match; simplify_eq/=; try exact R1.
    exact (F _ (recorded_quiet _ _ (quiet_control ck _ _) (recorded_enigo s1 t _ _ R1))).
  - exact (F _ (recorded_quiet _ _ (quiet_chr chr _ _) (recorded_enigo s1 t _ _ R1))).
  - refine (F _ (recorded_quiet _ _ _ R1)).
    unfold process_unicode. case_match; [apply held_key_sequence|reflexivity].
  - exact (F _ (recorded_quiet _ _ (held_key_sequence _ _) R1)).
  - apply F, R1.
  - apply F, R1.
Qed.

Lemma recorded_by_mode t e s : recorded s -> recorded (key_by_mode m t e s).2.
Proof using RdevLaws0 x11.
  intros R. unfold key_by_mode. destruct (k_mode e) as [[]|]; cbn [snd]; try (apply recorded_legacy; exact R).
  - unfold map_keyboard_mode. rewrite x11. cbn. apply recorded_position, R.
  - unfold translate_keyboard_mode. destruct (k_union e) as [[]|]; try exact R.
    + apply recorded_position, R.
    + apply recorded_quiet; [apply quiet_seq|exact R].
Qed.

Lemma recorded_key t e s : recorded s -> recorded (handle_key_ m t e s).2.
Proof using RdevLaws0 x11.
  intros R. unfold handle_key_. destruct (EXITING s); [exact R|].
  destruct (lock_wanted m e) as [numpad|]; [|apply recorded_by_mode, R].
  pose proof (quiet_lock_new e numpad (en s)) as Q. destruct (lock_new e numpad (en s)) as [h d]. cbn in Q.
  pose proof (recorded_by_mode t e _ (recorded_quiet s d Q R)) as R1.
  destruct (key_by_mode m t e (s <| en := d |>)) as [o s1]. cbn in *.
  apply recorded_quiet; [apply quiet_lock_drop|exact R1].
Qed.

Lemma held_press_for_mouse mods d l : held (fold_left (fun x ck => press_for_mouse ck x) mods (d, l)).1 ⊆ held d.
Proof.
  revert d l. induction mods as [|ck mods IH]; intros d l; [reflexivity|].
  cbn [fold_left]. unfold press_for_mouse at 2. repeat case_match; try apply IH.
  etransitivity; [apply IH|apply held_key_down].
Qed.

Lemma recorded_mouse_body t conn ty btns e s : recorded s -> recorded (mouse_body m t conn ty btns e s).
Proof.
  intros R. unfold mouse_body.
  assert (W : quiet (wheel e)).
  { intros d. unfold wheel. cbv zeta. repeat case_match; auto with held; try reflexivity;
      (etransitivity; [apply held_scroll_x|]); auto with held; reflexivity. }
  repeat case_match; try exact R; intros c Hc; apply (R c); cbn in Hc;
    first [apply held_mouse_move_to in Hc | apply held_mouse_move_relative in Hc | apply held_mouse_down in Hc
          | apply held_mouse_up in Hc | apply W in Hc]; exact Hc.
Qed.

Lemma recorded_mouse t conn e s : recorded s -> recorded (handle_mouse_simulation_ m t conn e s).
Proof.
  intros R. unfold handle_mouse_simulation_. destruct (EXITING s); [exact R|]. cbv zeta.
  destruct (if _ =? MOUSE_TYPE_DOWN then _ else _) as [d rel] eqn:E.
  apply recorded_quiet; [apply quiet_release_keys|]. apply recorded_mouse_body, recorded_quiet; [|exact R].
  destruct (_ =? MOUSE_TYPE_DOWN).
  - pose proof (held_press_for_mouse (me_modifiers e) (fix_modifiers (me_modifiers e) 0 (en s)) []) as Q.
    rewrite E in Q. etransitivity; [exact Q|apply quiet_fix_modifiers].
  - injection E as <- _. reflexivity.
Qed.

(** ** Releasing *)

Lemma recorded_fix_key force t x s : recorded s -> recorded (fix_key force t x s).
Proof.
  intros R. unfold fix_key. destruct (force || _); [|exact R]. destruct x as [[c|k] tm]; cbn [fst release_record_key].
  - apply (recorded_position s t c false R).
  - pose proof (recorded_enigo s t k false R) as R1. apply (recorded_quiet _ _); [|exact R1].
    cbn. destruct (record_key_to_key k); [apply held_key_up|reflexivity].
Qed.

Lemma recorded_fix force t s : recorded s -> recorded (fix_key_down_timeout force t s).
Proof.
  intros R. unfold fix_key_down_timeout. generalize (map_to_list (KEYS_DOWN s)). intros l. revert s R.
  induction l as [|x l IH]; intros s R; [exact R|]. cbn. apply IH, recorded_fix_key, R.
Qed.

(** Entries of the table the fix goes over are dropped when they are old. *)
Lemma fix_keys_lookup force t l : forall s k tm,
  KEYS_DOWN (fold_left (fun s x => fix_key force t x s) l s) !! k = Some tm ->
  KEYS_DOWN s !! k = Some tm /\
  Forall (fun x => x.1 = k -> force || (360000 <=? t - x.2) = false) l.
Proof.
  induction l as [|x l IH]; intros s k tm H2; [auto|]. cbn in H2. apply IH in H2 as [H2 Hl].
  unfold fix_key in H2. destruct (force || _) eqn:E.
  - cbn in H2. apply lookup_delete_Some in H2 as [N H2]. split; [exact H2|].
    constructor; [intros E2; congruence|exact Hl].
  - split; [exact H2|]. constructor; [intros _; exact E|exact Hl].
Qed.

Lemma fix_lookup force t s k tm :
  KEYS_DOWN (fix_key_down_timeout force t s) !! k = Some tm -> force = false /\ t - tm < 360000.
Proof.
  intros H2. apply fix_keys_lookup in H2 as [H2 Hl].
  rewrite Forall_forall in Hl. specialize (Hl (k, tm)). apply elem_of_map_to_list in H2.
  specialize (Hl H2 eq_refl). cbn in Hl. destruct force; [discriminate|]. split; [reflexivity|]. cbn in Hl. lia.
Qed.

Lemma recorded_step t x s : recorded s -> recorded (step m t x s).2.
Proof using RdevLaws0 x11.
  intros R. destruct x as [conn i| | | |conn|]; cbn [step snd].
  - destruct i as [e simulate show|e press|p| |]; cbn [handle_input].
    + unfold handle_mouse. cbn. destruct simulate; [apply recorded_mouse, R|exact R].
    + destruct press; [|apply recorded_key, R].
      pose proof (recorded_key t (set_down e true) s R) as R1.
      destruct (handle_key_ m t (set_down e true) s) as [o s1].
      pose proof (recorded_key t (set_down e false) s1 R1) as R2.
      destruct (handle_key_ m t (set_down e false) s1) as [o' s2]. exact R2.
    + exact R.
    + pose proof (held_block true (en s)) as Q. destruct (block_input m true (en s)).
      apply recorded_quiet; [exact Q|exact R].
    + pose proof (held_block false (en s)) as Q. destruct (block_input m false (en s)).
      apply recorded_quiet; [exact Q|exact R].
  - unfold lock_screen. cbv zeta.
    pose proof (recorded_key t (mkKeyEvent true false (Some (Chr 108)) (Some Legacy) [CK.Meta]) s R) as R1.
    destruct (handle_key_ m t _ s) as [o s1].
    pose proof (recorded_key t (mkKeyEvent false false (Some (Chr 108)) (Some Legacy) [CK.Meta]) s1 R1) as R2.
    destruct (handle_key_ m t _ s1) as [o' s2]. exact R2.
  - apply recorded_fix, R.
  - apply recorded_fix, R.
  - exact R.
  - unfold fix_key_down_timeout_at_exit. destruct (EXITING s); [exact R|].
    apply recorded_fix. exact R.
Qed.

Lemma recorded_steps xs : forall s, recorded s -> recorded (steps m xs s).2.
Proof using RdevLaws0 x11.
  induction xs as [|[t x] xs IH]; intros s R; [exact R|]. cbn [steps].
  pose proof (recorded_step t x s R) as R1. destruct (step m t x s) as [o s1].
  pose proof (IH s1 R1) as R2. destruct (steps m xs s1) as [o' s2]. exact R2.
Qed.

End Held.

(** With X11, for every sequence of inputs, timers and disconnections: what
    the program holds down by position is in its table, a forced release (the
    last viewer has gone, or the program ends) leaves nothing down and empties
    the table, and after a turn of the timer whatever is still down was pressed
    less than six minutes ago. *)
Theorem forced_release_complete {D} `{KeyboardControllable D, MouseControllable D, Rdev D} (m : Machine D)
    `{!RdevLaws D m} (xs : list (Z * Step)) (d : D) (t : Z) :
  is_x11 m = true -> held d = ∅ ->
  let s := (steps m xs (fresh d)).2 in
  (forall c, c ∈ held (en s) -> is_Some (KEYS_DOWN s !! RawCode c)) /\
  held (en (step m t CursorReset s).2) = ∅ /\ KEYS_DOWN (step m t CursorReset s).2 = ∅ /\
  (forall c, c ∈ held (en (step m t TimeoutLoop s).2) ->
     exists tm, KEYS_DOWN (step m t TimeoutLoop s).2 !! RawCode c = Some tm /\ t - tm < 360000).
Proof.
  intros x11 E0 s.
  assert (R : recorded m s).
  { apply recorded_steps; [exact x11|]. intros c Hc. cbn in Hc. rewrite E0 in Hc. set_solver. }
  assert (E : KEYS_DOWN (fix_key_down_timeout true t s) = ∅).
  { apply map_empty. intros k. destruct (KEYS_DOWN _ !! k) as [tm|] eqn:L; [|reflexivity].
    apply fix_lookup in L as [L _]. discriminate. }
  split; [exact R|]. cbn [step snd]. split; [|split; [exact E|]].
  - pose proof (recorded_fix m true t s R) as R1. apply set_eq. intros c. split; [|set_solver].
    intros Hc. destruct (R1 c Hc) as [tm L]. rewrite E in L. discriminate.
  - intros c Hc. destruct (recorded_fix m false t s R c Hc) as [tm L]. exists tm. split; [exact L|].
    apply fix_lookup in L as [_ L]. exact L.
Qed.

(** ** Characters are forgotten

    [record_key_is_chr] tests the same bound as [record_key_is_control_key], so
    no number of a character leads back to its key. *)
Lemma no_character_released {D} `{KeyboardControllable D, Rdev D} c (d : D) :
  0 <= c -> release_record_key (EnigoKey (c + KEY_CHAR_START)) d = d.
Proof.
  intros Hc. cbn. unfold record_key_to_key, record_key_is_control_key, record_key_is_chr, KEY_CHAR_START.
  destruct (c + 9999 <? 9999) eqn:E; [lia|reflexivity].
Qed.

(** When only characters are held, a forced release empties the table and
    touches no key. *)
Lemma characters_forgotten {D} `{KeyboardControllable D, Rdev D} t (s : State D) :
  map_Forall (fun k _ => exists c, 0 <= c /\ k = EnigoKey (c + KEY_CHAR_START)) (KEYS_DOWN s) ->
  en (fix_key_down_timeout true t s) = en s.
Proof.
  intros Ha. unfold fix_key_down_timeout.
  assert (Hl : Forall (fun x : KeysDown * Z => exists c, 0 <= c /\ x.1 = EnigoKey (c + KEY_CHAR_START))
                 (map_to_list (KEYS_DOWN s))).
  { apply Forall_forall. intros [k tm] Hx. apply elem_of_map_to_list in Hx. exact (Ha k tm Hx). }
  generalize dependent (map_to_list (KEYS_DOWN s)). intros l Hl. clear Ha. revert s.
  induction Hl as [|x l (c & Hc & E) _ IH]; intros s; [reflexivity|].
  cbn [fold_left]. rewrite IH. unfold fix_key. rewrite E. cbn [orb]. cbv zeta.
  change (release_record_key (EnigoKey (c + KEY_CHAR_START)) (en s) = en s). apply no_character_released, Hc.
Qed.

(** ** Typing leaves no modifier *)

Definition MODIFIERS : list Key.t :=
  [Key.Shift; Key.RightShift; Key.Alt; Key.RightAlt; Key.Control; Key.RightControl; Key.Meta; Key.RWin].

(** The modifier of a message that stands for a key. *)
Definition family (k : Key.t) : Z :=
  match k with
  | Key.Shift | Key.RightShift => CK.Shift
  | Key.Alt | Key.RightAlt => CK.Alt
  | Key.Control | Key.RightControl => CK.Control
  | _ => CK.Meta
  end.

(** [pressed] are keys that are down; a press adds the key at most, a release
    removes it, typing text and clicking locks leave the others alone, and a
    modifier that is down is reported. *)
Class KeyboardLaws (D : Type) `{KeyboardControllable D} := {
  pressed : Key.t -> D -> Prop;
  pressed_down k k' d : pressed k' (key_down k d).2 -> k' = k \/ pressed k' d;
  pressed_up k k' d : pressed k' (key_up k d) -> k' <> k /\ pressed k' d;
  pressed_click k k' d : pressed k' (key_click k d) -> pressed k' d;
  pressed_sequence s k' d : pressed k' (key_sequence s d) -> pressed k' d;
  pressed_state k d : k ∈ MODIFIERS -> pressed k d -> get_modifier_state k d = true }.

Section Typing.
Context {D : Type} `{KeyboardControllable D, MouseControllable D, Rdev D} `{!KeyboardLaws D} (m : Machine D).

Lemma fixed_pressed mods k d : pressed k (fix_modifiers mods (-1) d) -> pressed k d.
Proof.
  unfold fix_modifiers. generalize FIXED. intros l. revert d.
  induction l as [|[[own key0] key1] l IH]; intros d Hp; [exact Hp|].
  apply IH in Hp. unfold fix_modifier in Hp. repeat case_match; auto; apply pressed_up in Hp as [_ Hp]; exact Hp.
Qed.

Lemma fix_modifier_family mods key0 k d :
  k ∈ MODIFIERS -> pressed k (fix_modifier mods key0 k d) -> has_modifier mods key0 = true.
Proof.
  intros Hk Hp. unfold fix_modifier in Hp. destruct (get_modifier_state k d) eqn:Es; cbn in Hp.
  - destruct (has_modifier mods key0); [reflexivity|]. apply pressed_up in Hp as [N _]. contradiction.
  - pose proof (pressed_state k d Hk Hp). congruence.
Qed.

Lemma FIXED_own own key0 key1 : (own, key0, key1) ∈ FIXED -> own <> -1.
Proof.
  assert (Hall : Forall (fun x : Z * Z * Key.t => x.1.1 <> -1) FIXED) by (repeat constructor; discriminate).
  rewrite Forall_forall in Hall. intros Hx. exact (Hall _ Hx).
Qed.

Lemma fixed_family mods k d :
  k ∈ MODIFIERS -> pressed k (fix_modifiers mods (-1) d) -> has_modifier mods (family k) = true.
Proof.
  intros Hk.
  assert (Hf : exists own, (own, family k, k) ∈ FIXED).
  { assert (Hall : Forall (fun k => exists own, (own, family k, k) ∈ FIXED) MODIFIERS)
      by (repeat constructor; eexists; repeat econstructor).
    rewrite Forall_forall in Hall. exact (Hall k Hk). }
  destruct Hf as [own Hf]. unfold fix_modifiers. pose proof FIXED_own as Ho. revert Hf Ho d. generalize FIXED. intros l.
  induction l as [|[[own' key0] key1] l IH]; intros Hf Ho d Hp; [apply elem_of_nil in Hf; contradiction|].
  apply elem_of_cons in Hf as [Hf|Hf].
  - injection Hf as <- <- <-. cbn [fold_left] in Hp.
    destruct (-1 =? own) eqn:E; [exfalso; apply (Ho own _ _ (list_elem_of_here _ _)); lia|].
    assert (Hl : forall l d, pressed k (fold_left (fun d x => let '(own, key0, key1) := x in
               if -1 =? own then d else fix_modifier mods key0 key1 d) l d) -> pressed k d).
    { clear. intros l. induction l as [|[[own key0] key1] l IH]; intros d Hp; [exact Hp|].
      apply IH in Hp. unfold fix_modifier in Hp. repeat case_match; auto; apply pressed_up in Hp as [_ Hp]; exact Hp. }
    apply Hl in Hp. exact (fix_modifier_family mods _ k d Hk Hp).
  - refine (IH Hf _ _ Hp). intros own2 k0 k1 Hx. apply (Ho own2 k0 k1). set_solver.
Qed.

Lemma press_modifiers_keeps altgr mods k : forall d l,
  k ∈ l -> k ∈ (fold_left (fun x ck => press_modifier altgr ck x) mods (d, l)).2.
Proof.
  induction mods as [|ck mods IH]; intros d l Hin; [exact Hin|].
  cbn [fold_left]. unfold press_modifier at 2. repeat case_match; apply IH; set_solver.
Qed.

(** What is pressed for the message is to be released. *)
Lemma press_modifiers_listed altgr e k : forall d l,
  pressed k (press_modifiers altgr e (d, l)).1 -> pressed k d \/ k ∈ (press_modifiers altgr e (d, l)).2.
Proof.
  unfold press_modifiers. induction (k_modifiers e) as [|ck mods IH]; intros d l Hp; [left; exact Hp|].
  cbn [fold_left] in *. unfold press_modifier at 2 in Hp. unfold press_modifier at 2.
  destruct (control_key_value_to_key ck) as [key|]; [|apply IH; exact Hp].
  destruct (is_pressed key d); [apply IH; exact Hp|].
  destruct (bool_decide (key = Key.Alt) && altgr); [apply IH; exact Hp|].
  apply IH in Hp as [Hp|Hp]; [|right; exact Hp].
  apply pressed_down in Hp as [->|Hp]; [right|left; exact Hp].
  apply (press_modifiers_keeps altgr mods). set_solver.
Qed.

Lemma release_keys_pressed l k d : pressed k (release_keys l d) -> pressed k d /\ ~ k ∈ l.
Proof.
  unfold release_keys. revert d. induction l as [|k' l IH]; intros d Hp; [split; [exact Hp|set_solver]|].
  apply IH in Hp as [Hp N]. apply pressed_up in Hp as [N' Hp]. split; [exact Hp|set_solver].
Qed.

Lemma lock_new_pressed e numpad k d : pressed k (lock_new e numpad d).2 -> pressed k d.
Proof.
  unfold lock_new. cbn. repeat case_match; intros Hp; repeat apply pressed_click in Hp; exact Hp.
Qed.

Lemma lock_drop_pressed h k d : pressed k (lock_drop m h d) -> pressed k d.
Proof.
  unfold lock_drop. cbv zeta. repeat case_match; intros Hp; repeat apply pressed_click in Hp; exact Hp.
Qed.

(** The part of an event that types. *)
Definition types (e : KeyEvent) : bool :=
  match k_union e with Some (Chr _) | Some (Unicode _) | Some (Seq _) => true | _ => false end.

Lemma Layout_no_modifier c k : k ∈ MODIFIERS -> k <> Key.Layout c.
Proof. intros Hk ->. unfold MODIFIERS in Hk. set_solver. Qed.

Lemma process_chr_pressed chr down k d : k ∈ MODIFIERS -> pressed k (process_chr m chr down d) -> pressed k d.
Proof.
  intros Hk. unfold process_chr. destruct down; [|intros Hp; apply pressed_up in Hp as [_ Hp]; exact Hp].
  pose proof (pressed_down (char_value_to_key chr) k d) as Hd.
  destruct (key_down (char_value_to_key chr) d) as [ok d']. cbn in Hd.
  assert (Hd' : pressed k d' -> pressed k d).
  { intros Hp. destruct (Hd Hp) as [E|Hp']; [|exact Hp']. exfalso. exact (Layout_no_modifier _ k Hk E). }
  destruct ok; [exact Hd'|]. destruct (char_from_u32 chr); [|exact Hd'].
  intros Hp. apply pressed_sequence in Hp. exact (Hd' Hp).
Qed.

Lemma legacy_typing t e s k :
  k ∈ MODIFIERS -> k_down e = true -> types e = true ->
  pressed k (en (legacy_keyboard_mode m t e s).2) ->
  pressed k (en s) /\ has_modifier (k_modifiers e) (family k) = true.
Proof.
  intros Hk Hdown Ht. unfold legacy_keyboard_mode, sync_modifiers. rewrite Hdown. cbv zeta.
  unfold release_unpressed_modifiers.
  assert (Ec : get_control_key_value e = -1).
  { unfold types in Ht. unfold get_control_key_value. destruct (k_union e) as [[]|]; try discriminate; reflexivity. }
  rewrite Ec.
  pose proof (press_modifiers_listed (is_altgr_pressed s) e k (fix_modifiers (k_modifiers e) (-1) (en s)) []) as Hl.
  destruct (press_modifiers _ _ _) as [d rel]. cbn in Hl.
  assert (Done_ : forall d', (pressed k d' -> pressed k d) -> pressed k (release_keys rel d') ->
            pressed k (en s) /\ has_modifier (k_modifiers e) (family k) = true).
  { intros d' Hd Hp. apply release_keys_pressed in Hp as [Hp N]. apply Hd, Hl in Hp as [Hp|Hp]; [|contradiction].
    split; [exact (fixed_pressed _ _ _ Hp)|exact (fixed_family _ _ _ Hk Hp)]. }
  unfold types in Ht. destruct (k_union e) as [[ck|chr|chr|sq|code]|]; try discriminate; cbn; apply Done_.
  - intros Hp. exact (process_chr_pressed chr true k d Hk Hp).
  - unfold process_unicode. destruct (char_from_u32 chr); [apply pressed_sequence|auto].
  - apply pressed_sequence.
Qed.

End Typing.

(** In the legacy mode, pressing a character or typing text leaves no
    modifier down that the message does not name or that was not down before:
    modifiers the message does not name are released, those pressed for it are
    released after it. *)
Theorem typing_leaves_no_modifier {D} `{KeyboardControllable D, MouseControllable D, Rdev D} `{!KeyboardLaws D}
    (m : Machine D) (t : Z) (e : KeyEvent) (s : State D) (k : Key.t) :
  is_legacy_mode e = true -> k_down e = true -> types e = true -> EXITING s = false ->
  k ∈ MODIFIERS -> pressed k (en (handle_key_ m t e s).2) ->
  pressed k (en s) /\ has_modifier (k_modifiers e) (family k) = true.
Proof.
  intros Hm Hdown Ht He Hk. unfold handle_key_. rewrite He.
  assert (Em : forall s, key_by_mode m t e s = legacy_keyboard_mode m t e s).
  { intros s'. unfold key_by_mode. unfold is_legacy_mode in Hm. destruct (k_mode e) as [[]|]; try discriminate; reflexivity. }
  destruct (lock_wanted m e) as [numpad|].
  - pose proof (lock_new_pressed e numpad k (en s)) as Hn. destruct (lock_new e numpad (en s)) as [h d]. cbn in Hn.
    rewrite Em. pose proof (legacy_typing m t e (s <| en := d |>) k Hk Hdown Ht) as Hl.
    destruct (legacy_keyboard_mode m t e _) as [o s']. cbn in *. intros Hp. apply lock_drop_pressed in Hp.
    destruct (Hl Hp) as [Hp' Hf]. auto.
  - rewrite Em. apply legacy_typing; assumption.
Qed.

(** ** Keys that lock the screen

    The modifiers of the message were pressed for it; the early return leaves
    them down. *)
Lemma function_key_keeps_modifiers {D} `{KeyboardControllable D, Rdev D} (m : Machine D) t e (s : State D) ck :
  k_union e = Some (ControlKey ck) -> ck = CK.CtrlAltDel \/ ck = CK.LockScreen ->
  en (legacy_keyboard_mode m t e s).2 = (sync_modifiers (is_altgr_pressed s) e (en s, [])).1.
Proof.
  intros Eu Hck. unfold legacy_keyboard_mode. rewrite Eu.
  destruct (sync_modifiers _ _ _) as [d rel]. cbn. destruct Hck as [-> | ->]; reflexivity.
Qed.

(** ** Pictures of cursors *)

Lemma sub_sends_known msgs : forall cached pre id post,
  (forall i, CursorId i ∉ msgs) ->
  sub_sends msgs cached = pre ++ CursorId id :: post ->
  id ∈ cached \/ exists colors, CursorData id colors ∈ pre.
Proof.
  induction msgs as [|msg msgs IH]; intros cached pre id post Hn E; [destruct pre; discriminate|].
  assert (Hn' : forall i, CursorId i ∉ msgs) by (intros i; specialize (Hn i); set_solver).
  cbn [sub_sends] in E. destruct msg as [i colors|i|]; cbn [sub_send] in E.
  - destruct (bool_decide (i ∈ cached)) eqn:Eb; cbn in E.
    + apply bool_decide_eq_true in Eb. destruct pre as [|x pre]; injection E as E1 E2.
      * left. congruence.
      * destruct (IH _ _ _ _ Hn' E2) as [?|(cs & ?)]; [auto|]. right. exists cs. set_solver.
    + destruct pre as [|x pre]; injection E as E1 E2; [discriminate|].
      destruct (IH _ _ _ _ Hn' E2) as [Hi|(cs & ?)]; [|right; exists cs; set_solver].
      apply elem_of_union in Hi as [Hi|Hi]; [|auto]. apply elem_of_singleton in Hi as ->.
      right. exists colors. set_solver.
  - exfalso. apply (Hn i). set_solver.
  - destruct pre as [|x pre]; injection E as E1 E2; [discriminate|].
    destruct (IH _ _ _ _ Hn' E2) as [?|(cs & ?)]; [auto|]. right. exists cs. set_solver.
Qed.

(** Whatever the service sends, a viewer is sent the number of a cursor only
    after the picture of that cursor. *)
Theorem cursor_id_after_data (msgs pre post : list CursorMsg) (id : Z) :
  (forall i, CursorId i ∉ msgs) ->
  sub_sends msgs ∅ = pre ++ CursorId id :: post ->
  exists colors, CursorData id colors ∈ pre.
Proof.
  intros Hn E. destruct (sub_sends_known msgs ∅ pre id post Hn E) as [Hi|Hd]; [set_solver|exact Hd].
Qed.

Lemma cursor_id_after_data_witness : exists colors, CursorData 7 colors ∈ [CursorData 7 [1; 2]; CursorOther].
Proof.
  apply (cursor_id_after_data [CursorData 7 [1; 2]; CursorOther; CursorData 7 [1; 2]] _ [] 7).
  - intros i Hi. set_solver.
  - vm_compute. reflexivity.
Defined.

(** ** A machine that satisfies the laws

    It keeps the keys that are down; locks, scrolling and text change nothing. *)

Record Desk : Type := mkDesk { d_keys : list Key.t; d_codes : gset Z }.

Definition without (k : Key.t) (l : list Key.t) : list Key.t := filter (fun k' => k' <> k) l.

#[local] Instance desk_keyboard : KeyboardControllable Desk := {|
  get_key_state k d := bool_decide (k ∈ d_keys d);
  key_sequence _ d := d;
  key_down k d := (true, mkDesk (k :: d_keys d) (d_codes d));
  key_up k d := mkDesk (without k (d_keys d)) (d_codes d);
  key_click _ d := d |}.

#[local] Instance desk_mouse : MouseControllable Desk := {|
  mouse_move_to _ _ d := d; mouse_move_relative _ _ d := d; mouse_down _ d := (true, d); mouse_up _ d := d;
  mouse_click _ d := d; mouse_scroll_x _ d := d; mouse_scroll_y _ d := d |}.

#[local] Instance desk_rdev : Rdev Desk := {|
  rdev_press k d := match k with
                    | LinuxXorgKeycode c => (true, mkDesk (d_keys d) ({[ c ]} ∪ d_codes d))
                    | RdevNamed _ => (true, d)
                    end;
  rdev_release k d := match k with
                      | LinuxXorgKeycode c => (true, mkDesk (d_keys d) (d_codes d ∖ {[ c ]}))
                      | RdevNamed _ => (true, d)
                      end |}.

Definition desk : Machine Desk :=
  mkMachine Desk true true (fun _ => None)
    (fun c => if c =? 50 then "ShiftLeft" else if c =? 38 then "KeyA" else "Unknown") (fun s => s)
    (fun _ d => (true, d)).

#[local] Instance desk_rdev_laws : RdevLaws Desk desk.
Proof. refine (Build_RdevLaws Desk _ _ _ desk d_codes _ _ _ _ _ _ _ _ _ _ _ _ _ _); reflexivity || (intros []; reflexivity). Defined.

#[local] Instance desk_keyboard_laws : KeyboardLaws Desk.
Proof.
  refine (Build_KeyboardLaws Desk _ (fun k d => k ∈ d_keys d) _ _ _ _ _); cbn.
  - intros k k' d Hin. apply elem_of_cons in Hin. exact Hin.
  - intros k k' d Hin. apply list_elem_of_filter in Hin. exact Hin.
  - intros _ k' d Hin. exact Hin.
  - intros _ k' d Hin. exact Hin.
  - intros k d _ Hp. unfold get_modifier_state. cbn. apply (bool_decide_eq_true_2 (k ∈ d_keys d)) in Hp.
    rewrite Hp. destruct k; reflexivity.
Defined.

(** A peer presses shift by its position and stays away. *)
Definition shift_down : KeyEvent := mkKeyEvent true false (Some (Chr 50)) (Some Map) [].

Lemma forced_release_complete_witness :
  held (en (step desk 9 CursorReset (steps desk [(5, FromConn 1 (Conn.Key shift_down false))]
                                       (fresh (mkDesk [] ∅))).2).2) = ∅.
Proof.
  apply (forced_release_complete desk [(5, FromConn 1 (Conn.Key shift_down false))] (mkDesk [] ∅) 9);
    reflexivity.
Defined.

(** Control is down and named by the message; shift is down and is not. *)
Definition ctrl_a : KeyEvent := mkKeyEvent true false (Some (Chr 97)) (Some Legacy) [CK.Control].

Lemma typing_leaves_no_modifier_witness :
  pressed Key.Control (mkDesk [Key.Shift; Key.Control] ∅) /\ has_modifier [CK.Control] CK.Control = true.
Proof.
  apply (typing_leaves_no_modifier desk 0 ctrl_a (fresh (mkDesk [Key.Shift; Key.Control] ∅)) Key.Control);
    [reflexivity|reflexivity|reflexivity|reflexivity|repeat econstructor|].
  vm_compute. repeat econstructor.
Defined.

End InputFacts.
