(* ===== verification/Keyboard.v ===== *)
(** * The keyboard of the controlling side ([src/keyboard.rs])

    Events of the local keyboard become key events for the peer in one of three
    modes: by position ([map]), by what they type ([translate]) or by character
    and named key ([legacy]).  The process remembers which keys it has sent as
    pressed ([TO_RELEASE]) and the modifiers that are down
    ([MODIFIERS_STATE]); when the window is left, what is pressed is released.
    A session swaps Control and Meta on request ([swap_modifier_key] of
    [ui_session_interface.rs]).

    The model is a Linux build with the Flutter interface.  The keys and codes of
    rdev are parameters. *)

From S2P Require Import Prelude RustStr NetUtil Messages Enigo Keys.

#[local] Open Scope rust_scope.

Module Keyboard.

Import Msg.

(** ** Events of rdev *)

Inductive EventType : Type := KeyPress (k : RdevKey) | KeyRelease (k : RdevKey) | NoKey.

Record UnicodeInfo : Type := mkUnicode { u_name : option string; is_dead : bool }.

Set Primitive Projections.

Record Event : Type := mkEvent {
  event_type : EventType;
  position_code : Z;
  platform_code : Z;
  unicode : option UnicodeInfo }.

(** ** State of the process *)

Record State : Type := mkState {
  TO_RELEASE : gmap RdevKey Event;
  MODIFIERS_STATE : gmap RdevKey bool;
  KEYBOARD_HOOKED : bool;
  IS_RDEV_ENABLED : bool;
  EXIT_SHORTCUT_KEY_DOWN : bool;
  RELATIVE_MOUSE_MODE_ACTIVE : bool }.

Unset Primitive Projections.

Definition MODIFIERS_INIT : gmap RdevKey bool :=
  list_to_map (map (fun k => (k, false))
    ["ShiftLeft"; "ShiftRight"; "ControlLeft"; "ControlRight"; "Alt"; "AltGr"; "MetaLeft"; "MetaRight"]).

Definition initial : State := mkState ∅ MODIFIERS_INIT false false false false.

(** What the code asks of the system, of the session and of rdev. *)
Record Env : Type := mkEnv {
  get_key_state : Key.t -> bool;                    (* of the local keyboard *)
  peer_platform : string;
  kb_layout_type : string;
  linux_code_to_win_scancode : Z -> option Z;
  linux_code_to_macos_code : Z -> option Z;
  linux_code_to_macos_iso_code : Z -> option Z;
  linux_code_to_android_key_code : Z -> option Z;
  key_from_code : string -> Z -> RdevKey;           (* by platform *)
  code_from_key : string -> RdevKey -> option Z;
  swap_key : bool;                                  (* the option [allow_swap_key] *)
  session_can_exit_relative : option (bool * bool * bool * Z) }.
    (* of the current session: default kind, keyboard allowed, view only, version of the peer *)

Inductive Out : Type := Send (k : KeyEvent) | NotifyExitRelativeMouse | EnableGrab | DisableGrab.

(** [retain (not is_whitespace)] *)
Fixpoint retain_visible (fuel : nat) (s : string) : string :=
  match fuel with
  | O => s
  | Datatypes.S fuel =>
    match List.find (fun p => String.prefix p s) WHITE_SPACE with
    | Some p => retain_visible fuel (String.substring (String.length p) (String.length s) s)
    | None => match s with EmptyString => EmptyString | String c s => String c (retain_visible fuel s) end
    end
  end.
Definition without_whitespace (s : string) : string := retain_visible (String.length s) s.

Definition get_keyboard_mode_enum (keyboard_mode : string) : KeyboardMode :=
  if String.eqb keyboard_mode "map" then Map
  else if String.eqb keyboard_mode "translate" then Translate
  else if String.eqb keyboard_mode "legacy" then Legacy
  else Map.

Section Keyboard.
Context (e : Env).

(** ** Modifiers of a legacy event *)

Definition down_in (k : RdevKey) (s : State) : bool := unwrap_or false (MODIFIERS_STATE s !! k).

Definition get_modifiers_state (alt ctrl shift command : bool) (s : State) : bool * bool * bool * bool :=
  (down_in "Alt" s || down_in "AltGr" s || alt,
   down_in "ControlLeft" s || down_in "ControlRight" s || ctrl,
   down_in "ShiftLeft" s || down_in "ShiftRight" s || shift,
   down_in "MetaLeft" s || down_in "MetaRight" s || command).

Definition is_control_key (ev : KeyEvent) (ck : Z) : bool :=
  match k_union ev with Some (ControlKey k) => k =? ck | _ => false end.

Definition push_modifier (ck : Z) (ev : KeyEvent) : KeyEvent :=
  mkKeyEvent (k_down ev) (k_press ev) (k_union ev) (k_mode ev) (k_modifiers ev ++ [ck]).

Definition push_unless (b : bool) (ck1 ck2 : Z) (ev : KeyEvent) : KeyEvent :=
  if b && negb (is_control_key ev ck1) && negb (is_control_key ev ck2) then push_modifier ck1 ev else ev.

Definition legacy_modifiers (alt ctrl shift command : bool) (ev : KeyEvent) : KeyEvent :=
  let ev := push_unless alt CK.Alt CK.RAlt ev in
  let ev := push_unless shift CK.Shift CK.RShift ev in
  let ev := push_unless ctrl CK.Control CK.RControl ev in
  push_unless command CK.Meta CK.RWin ev.

Definition event_lock_screen : KeyEvent := mkKeyEvent true false (Some (ControlKey CK.LockScreen)) (Some Legacy) [].

Definition event_ctrl_alt_del : KeyEvent :=
  if String.eqb (peer_platform e) "Windows"
  then mkKeyEvent true false (Some (ControlKey CK.CtrlAltDel)) (Some Legacy) []
  else legacy_modifiers true true false false (mkKeyEvent false true (Some (ControlKey CK.Delete)) (Some Legacy) []).

(** ** Swapping Control and Meta ([Session::swap_modifier_key]) *)

Definition swap_control_key (ck : Z) : Z :=
  if ck =? CK.Control then CK.Meta
  else if ck =? CK.Meta then CK.Control
  else if ck =? CK.RControl then CK.Meta
  else if ck =? CK.RWin then CK.Control
  else if (ck <=? CK.Power) || (ck =? CK.CtrlAltDel) || (ck =? CK.LockScreen) then ck
  else CK.Unknown.

Definition swap_rdev_key (key : RdevKey) : RdevKey :=
  if String.eqb key "ControlLeft" then "MetaLeft"
  else if String.eqb key "MetaLeft" then "ControlLeft"
  else if String.eqb key "ControlRight" then "MetaLeft"
  else if String.eqb key "MetaRight" then "ControlLeft"
  else key.

(** The platform whose codes are used. *)
Definition swap_platform : string :=
  let peer := without_whitespace (to_lowercase (peer_platform e)) in
  if String.eqb peer "windows" || String.eqb peer "macos" then peer else "linux".

Definition swap_code (code : Z) : Z :=
  unwrap_or 0 (code_from_key e swap_platform (swap_rdev_key (key_from_code e swap_platform code))).

Definition msg_chr (ev : KeyEvent) : Z := match k_union ev with Some (Chr c) => c | _ => 0 end.

Definition swap_modifier_key (ev : KeyEvent) : KeyEvent :=
  if swap_key e then
    let union := match k_union ev with Some (ControlKey ck) => Some (ControlKey (swap_control_key ck)) | u => u end in
    let code := msg_chr ev in
    mkKeyEvent (k_down ev) (k_press ev) (if code =? 0 then union else Some (Chr (swap_code code))) (k_mode ev)
      (map swap_control_key (k_modifiers ev))
  else ev.

Definition swap_modifier_mouse (ev : MouseEvent) : MouseEvent :=
  if swap_key e then mkMouseEvent (me_mask ev) (me_x ev) (me_y ev) (map swap_control_key (me_modifiers ev)) else ev.

(** [Session::send_key_event] *)
Definition send_key_event (ev : KeyEvent) : Out := Send (swap_modifier_key ev).

(** ** Lock keys *)

Definition event_key (ev : Event) : option RdevKey :=
  match event_type ev with KeyPress k | KeyRelease k => Some k | NoKey => None end.

Definition is_numpad_key (ev : Event) : bool :=
  match event_key ev with Some k => is_numpad_rdev_key k | None => false end.
Definition is_letter_key_4_lock_modes (ev : Event) : bool :=
  match event_key ev with Some k => is_letter_rdev_key k || is_letter_rdev_key_ex k | None => false end.

Definition push_locks (caps num : bool) (ev : KeyEvent) : KeyEvent :=
  let ev := if caps then push_modifier CK.CapsLock ev else ev in
  if num then push_modifier CK.NumLock ev else ev.

Definition parse_add_lock_modes_modifiers (lock_modes : Z) (is_numpad is_letter : bool) : KeyEvent -> KeyEvent :=
  push_locks (is_letter && Z.testbit lock_modes 1) (is_numpad && Z.testbit lock_modes 2).

Definition add_lock_modes_modifiers (is_numpad is_letter : bool) : KeyEvent -> KeyEvent :=
  push_locks (is_letter && get_key_state e Key.CapsLock) (is_numpad && get_key_state e Key.NumLock).

(** ** By position *)

Definition is_press (ev : Event) : bool := match event_type ev with KeyPress _ => true | _ => false end.

(** The code for the peer's platform, in lower case and without white space. *)
Definition keycode_for (peer : string) (code : Z) : option Z :=
  if String.eqb peer "windows" then linux_code_to_win_scancode e code
  else if String.eqb peer "macos" then
    if String.eqb (kb_layout_type e) "ISO" then linux_code_to_macos_iso_code e code
    else linux_code_to_macos_code e code
  else if String.eqb peer "android" then linux_code_to_android_key_code e code
  else Some code.

Definition map_keyboard_mode (peer : string) (ev : Event) (mode : KeyboardMode) : list KeyEvent :=
  match event_type ev with
  | NoKey => []
  | _ =>
    match keycode_for peer (position_code ev) with
    | Some code => [mkKeyEvent (is_press ev) false (Some (Chr code)) (Some mode) []]
    | None => []
    end
  end.

(** ** By what is typed *)

Definition is_altgr (ev : Event) : bool := platform_code ev =? 65027.

Definition try_fill_unicode (ev : Event) (mode : KeyboardMode) : list KeyEvent :=
  match unicode ev with
  | Some u =>
    match u_name u with
    | Some name => if String.eqb name "" then [] else [mkKeyEvent true false (Some (Seq name)) (Some mode) []]
    | None => []
    end
  | None => []
  end.

Definition translate_keyboard_mode (peer : string) (ev : Event) (mode : KeyboardMode) : list KeyEvent :=
  if match unicode ev with Some u => is_dead u | None => false end then []
  else if is_numpad_key ev then map_keyboard_mode peer ev mode
  else if is_altgr ev then []
  else
    match (if is_press ev then try_fill_unicode ev mode else []) with
    | [] => map_keyboard_mode peer ev mode
    | evs => evs
    end.

(** ** By character *)

Definition convert_numpad_keys (key : RdevKey) : RdevKey :=
  if get_key_state e Key.NumLock then key
  else match List.find (fun x => String.eqb x.1 key)
               [("Kp0", "Insert"); ("KpDecimal", "Delete"); ("Kp1", "End"); ("Kp2", "DownArrow"); ("Kp3", "PageDown");
                ("Kp4", "LeftArrow"); ("Kp5", "Clear"); ("Kp6", "RightArrow"); ("Kp7", "Home"); ("Kp8", "UpArrow");
                ("Kp9", "PageUp")] with
       | Some (_, k) => k
       | None => key
       end.

Definition LEGACY_CONTROL_KEYS : list (RdevKey * Z) :=
  [("Alt", CK.Alt); ("AltGr", CK.RAlt); ("Backspace", CK.Backspace); ("ControlRight", CK.RControl);
   ("DownArrow", CK.DownArrow); ("Escape", CK.Escape); ("F1", CK.F1); ("F10", CK.F10); ("F11", CK.F11);
   ("F12", CK.F12); ("F2", CK.F2); ("F3", CK.F3); ("F4", CK.F4); ("F5", CK.F5); ("F6", CK.F6); ("F7", CK.F7);
   ("F8", CK.F8); ("F9", CK.F9); ("LeftArrow", CK.LeftArrow); ("MetaLeft", CK.Meta); ("MetaRight", CK.RWin);
   ("Return", CK.Return); ("RightArrow", CK.RightArrow); ("ShiftLeft", CK.Shift); ("ShiftRight", CK.RShift);
   ("Space", CK.Space); ("Tab", CK.Tab); ("UpArrow", CK.UpArrow); ("Apps", CK.Apps); ("Cancel", CK.Cancel);
   ("Clear", CK.Clear); ("Kana", CK.Kana); ("Hangul", CK.Hangul); ("Junja", CK.Junja); ("Final", CK.Final);
   ("Hanja", CK.Hanja); ("Hanji", CK.Hanja); ("Lang2", CK.Convert); ("Print", CK.Print);
   ("Select", CK.Select); ("Execute", CK.Execute); ("PrintScreen", CK.Snapshot); ("Help", CK.Help);
   ("Sleep", CK.Sleep); ("Separator", CK.Separator); ("KpReturn", CK.NumpadEnter); ("Kp0", CK.Numpad0);
   ("Kp1", CK.Numpad1); ("Kp2", CK.Numpad2); ("Kp3", CK.Numpad3); ("Kp4", CK.Numpad4); ("Kp5", CK.Numpad5);
   ("Kp6", CK.Numpad6); ("Kp7", CK.Numpad7); ("Kp8", CK.Numpad8); ("Kp9", CK.Numpad9);
   ("KpDivide", CK.Divide); ("KpMultiply", CK.Multiply); ("KpDecimal", CK.Decimal); ("KpMinus", CK.Subtract);
   ("KpPlus", CK.Add); ("Home", CK.Home); ("End", CK.End); ("Insert", CK.Insert); ("PageUp", CK.PageUp);
   ("PageDown", CK.PageDown); ("Pause", CK.Pause); ("ControlLeft", CK.Control)].

Definition LEGACY_CHARS : list (RdevKey * Z) :=
  [("Num1", 49); ("Num2", 50); ("Num3", 51); ("Num4", 52); ("Num5", 53); ("Num6", 54); ("Num7", 55);
   ("Num8", 56); ("Num9", 57); ("Num0", 48); ("KeyA", 97); ("KeyB", 98); ("KeyC", 99); ("KeyD", 100);
   ("KeyE", 101); ("KeyF", 102); ("KeyG", 103); ("KeyH", 104); ("KeyI", 105); ("KeyJ", 106); ("KeyK", 107);
   ("KeyL", 108); ("KeyM", 109); ("KeyN", 110); ("KeyO", 111); ("KeyP", 112); ("KeyQ", 113); ("KeyR", 114);
   ("KeyS", 115); ("KeyT", 116); ("KeyU", 117); ("KeyV", 118); ("KeyW", 119); ("KeyX", 120); ("KeyY", 121);
   ("KeyZ", 122); ("Comma", 44); ("Dot", 46); ("SemiColon", 59); ("Quote", 39); ("LeftBracket", 91);
   ("RightBracket", 93); ("Slash", 47); ("BackSlash", 92); ("Minus", 45); ("Equal", 61); ("BackQuote", 96)].

Definition find_key (key : RdevKey) (l : list (RdevKey * Z)) : option Z :=
  match List.find (fun x => String.eqb x.1 key) l with Some (_, v) => Some v | None => None end.

(** The character of the event, or of its key; 0 when there is none. *)
Definition legacy_chr (ev : Event) (key : RdevKey) : Z :=
  let chr := match unicode ev with
             | Some u =>
               match u_name u with
               | Some s => if (String.length s <=? 2)%nat then List.hd 0 (chars s) else 0
               | None => 0
               end
             | None => 0
             end in
  let chr := if chr =? 183 then 96 else chr in
  if chr =? 0 then unwrap_or 0 (find_key key LEGACY_CHARS) else chr.

(** What is sent at once, and the events. *)
Definition legacy_keyboard_mode (ev : Event) (mode : KeyboardMode) (s : State) : list KeyEvent * list KeyEvent :=
  match event_key ev with
  | None => ([], [])
  | Some key =>
    let is_win := String.eqb (peer_platform e) "Windows" in
    let key := if is_win then convert_numpad_keys key else key in
    let alt := get_key_state e Key.Alt in
    let ctrl := get_key_state e Key.Control || get_key_state e Key.RightControl in
    let shift := get_key_state e Key.Shift || get_key_state e Key.RightShift in
    let command := get_key_state e Key.Meta in
    let finish union :=
      let '(alt, ctrl, shift, command) := get_modifiers_state alt ctrl shift command s in
      ([], [legacy_modifiers alt ctrl shift command (mkKeyEvent (is_press ev) false (Some union) (Some mode) [])]) in
    if String.eqb key "Delete" && is_win && ctrl && alt then ([event_ctrl_alt_del], [])
    else if existsb (String.eqb key) ["CapsLock"; "NumLock"; "ScrollLock"] then ([], [])
    else
      match (if String.eqb key "Delete" then Some CK.Delete else find_key key LEGACY_CONTROL_KEYS) with
      | Some ck => finish (ControlKey ck)
      | None =>
        let chr := legacy_chr ev key in
        if chr =? 0 then ([], [])
        else if (chr =? 108) && is_win && command then ([event_lock_screen], [])
        else finish (Chr chr)
      end
  end.

(** ** Events of the local keyboard *)

Definition is_long_press (ev : Event) (s : State) : bool :=
  match event_type ev with KeyPress k => down_in k s | _ => false end.

Definition set_if_known (k : RdevKey) (b : bool) (t : gmap RdevKey bool) : gmap RdevKey bool :=
  match t !! k with Some _ => <[ k := b ]> t | None => t end.

Definition update_modifiers_state (ev : Event) (s : State) : State :=
  match event_type ev with
  | KeyPress k => s <| MODIFIERS_STATE := set_if_known k true (MODIFIERS_STATE s) |>
  | KeyRelease k => s <| MODIFIERS_STATE := set_if_known k false (MODIFIERS_STATE s) |>
  | NoKey => s
  end.

Definition note_to_release (ev : Event) (s : State) : State :=
  match event_type ev with
  | KeyPress k => s <| TO_RELEASE := <[ k := ev ]> (TO_RELEASE s) |>
  | KeyRelease k => s <| TO_RELEASE := delete k (TO_RELEASE s) |>
  | NoKey => s
  end.

Definition event_to_key_events (peer : string) (ev : Event) (mode : KeyboardMode) (lock_modes : option Z) (s : State)
  : list KeyEvent * list KeyEvent * State :=
  let peer := without_whitespace peer in
  let s := note_to_release ev (update_modifiers_state ev s) in
  let '(direct, evs) :=
    match mode with
    | Map => ([], map_keyboard_mode peer ev mode)
    | Translate => ([], translate_keyboard_mode peer ev mode)
    | _ => legacy_keyboard_mode ev mode s
    end in
  let numpad := is_numpad_key ev in
  let evs :=
    if negb (match mode with Translate => true | _ => false end) || numpad then
      let letter := is_letter_key_4_lock_modes ev in
      map (match lock_modes with
           | Some l => parse_add_lock_modes_modifiers l numpad letter
           | None => add_lock_modes_modifiers numpad letter
           end) evs
    else evs in
  (direct, evs, s).

Definition process_event (keyboard_mode : string) (ev : Event) (lock_modes : option Z) (s : State)
  : list Out * State :=
  let mode := get_keyboard_mode_enum keyboard_mode in
  if is_long_press ev s then ([], s)
  else
    let '(direct, evs, s) := event_to_key_events (to_lowercase (peer_platform e)) ev mode lock_modes s in
    (map send_key_event (direct ++ evs), s).

(** ** Releasing *)

Definition with_type (t : EventType) (ev : Event) : Event :=
  mkEvent t (position_code ev) (platform_code ev) (unicode ev).

Definition release_one (keyboard_mode : string) (x : RdevKey * Event) (s : State) : list Out * State :=
  let '(key, ev) := x in
  let '(o, s) := process_event keyboard_mode (with_type (KeyRelease key) ev) None s in
  if String.eqb key "Alt" || String.eqb key "AltGr" then
    let '(o1, s) := process_event keyboard_mode (with_type (KeyPress key) ev) None s in
    let '(o2, s) := process_event keyboard_mode (with_type (KeyRelease key) ev) None s in
    (o ++ o1 ++ o2, s)
  else (o, s).

Fixpoint release_all (keyboard_mode : string) (l : list (RdevKey * Event)) (s : State) : list Out * State :=
  match l with
  | [] => ([], s)
  | x :: l =>
    let '(o, s) := release_one keyboard_mode x s in
    let '(o', s) := release_all keyboard_mode l s in
    (o ++ o', s)
  end.

(** [release_remote_keys]; [order] is the order the table is walked in. *)
Definition release_remote_keys (order : gmap RdevKey Event -> list (RdevKey * Event)) (keyboard_mode : string)
    (s : State) : list Out * State :=
  release_all keyboard_mode (order (TO_RELEASE s)) (s <| TO_RELEASE := ∅ |>).

Inductive GrabState : Type := Ready | Run | Wait | Exit.

Definition change_grab_status (order : gmap RdevKey Event -> list (RdevKey * Event)) (g : GrabState)
    (keyboard_mode : string) (s : State) : list Out * State :=
  if negb (IS_RDEV_ENABLED s) then ([], s)
  else match g with
       | Run => ([EnableGrab], s <| KEYBOARD_HOOKED := true |>)
       | Wait =>
         let '(o, s) := release_remote_keys order keyboard_mode s in
         (o ++ [DisableGrab], s <| KEYBOARD_HOOKED := false |>)
       | Ready | Exit => ([], s)
       end.

(** ** Leaving the relative mouse mode *)

Definition set_relative_mouse_mode_state (active : bool) (s : State) : State :=
  let s := s <| RELATIVE_MOUSE_MODE_ACTIVE := active |> in
  if active then s else s <| EXIT_SHORTCUT_KEY_DOWN := false |>.

Definition is_ctrl_key (key : RdevKey) : bool := String.eqb key "ControlLeft" || String.eqb key "ControlRight".
Definition is_alt_key (key : RdevKey) : bool := String.eqb key "Alt" || String.eqb key "AltGr".

Definition is_exit_relative_mouse_shortcut (key : RdevKey) (s : State) : bool :=
  if negb (is_ctrl_key key) && negb (is_alt_key key) then false
  else
    let ctrl := down_in "ControlLeft" s || down_in "ControlRight" s in
    let alt := down_in "Alt" s || down_in "AltGr" s in
    (is_ctrl_key key && alt) || (is_alt_key key && ctrl).

Definition can_exit_relative_mouse_mode_from_grab_loop (s : State) : bool :=
  RELATIVE_MOUSE_MODE_ACTIVE s
  && match session_can_exit_relative e with
     | Some (default, keyboard_enabled, view_only, version) =>
       default && keyboard_enabled && negb view_only && (Version.get_version_number "1.4.5" <=? version)
     | None => false
     end.

Definition should_block_relative_mouse_shortcut (key : RdevKey) (press : bool) (s : State)
  : bool * list Out * State :=
  if negb (KEYBOARD_HOOKED s) then (false, [], s)
  else if (is_ctrl_key key || is_alt_key key) && negb press && EXIT_SHORTCUT_KEY_DOWN s
  then (true, [], s <| EXIT_SHORTCUT_KEY_DOWN := false |>)
  else
    let s := if (is_ctrl_key key || is_alt_key key) && negb press
             then s <| EXIT_SHORTCUT_KEY_DOWN := false |> else s in
    if is_exit_relative_mouse_shortcut key s then
      if negb (can_exit_relative_mouse_mode_from_grab_loop s) then (false, [], s)
      else if press
           then (true, if EXIT_SHORTCUT_KEY_DOWN s then [] else [NotifyExitRelativeMouse],
                 s <| EXIT_SHORTCUT_KEY_DOWN := true |>)
           else (true, [], s)
    else (false, [], s).

(** The callback of the grab loop on Linux; it keeps every key from the local
    system.  An unknown key has a name that starts with [Unknown]. *)
Definition grabbed (keyboard_mode : string) (ev : Event) (s : State) : list Out * State :=
  match event_key ev with
  | None => ([], s)
  | Some key =>
    if String.prefix "Unknown" key then ([], s)
    else
      let '(block, o, s) := should_block_relative_mouse_shortcut key (is_press ev) s in
      if block then (o, s)
      else let '(o', s) := process_event keyboard_mode ev None s in (o ++ o', s)
  end.

Fixpoint grab_loop (keyboard_mode : string) (evs : list Event) (s : State) : list Out * State :=
  match evs with
  | [] => ([], s)
  | ev :: evs =>
    let '(o, s) := grabbed keyboard_mode ev s in
    let '(o', s) := grab_loop keyboard_mode evs s in
    (o ++ o', s)
  end.

(** ** Keys of the window ([ui_session_interface.rs]) *)

Inductive NamedKey : Type := NChr (c : Z) | NControl (ck : Z) | NRaw (c : Z).

Definition KEY_NAMES : list (string * NamedKey) :=
  [("VK_A", NChr 97); ("VK_B", NChr 98); ("VK_C", NChr 99); ("VK_D", NChr 100); ("VK_E", NChr 101);
   ("VK_F", NChr 102); ("VK_G", NChr 103); ("VK_H", NChr 104); ("VK_I", NChr 105); ("VK_J", NChr 106);
   ("VK_K", NChr 107); ("VK_L", NChr 108); ("VK_M", NChr 109); ("VK_N", NChr 110); ("VK_O", NChr 111);
   ("VK_P", NChr 112); ("VK_Q", NChr 113); ("VK_R", NChr 114); ("VK_S", NChr 115); ("VK_T", NChr 116);
   ("VK_U", NChr 117); ("VK_V", NChr 118); ("VK_W", NChr 119); ("VK_X", NChr 120); ("VK_Y", NChr 121);
   ("VK_Z", NChr 122); ("VK_0", NChr 48); ("VK_1", NChr 49); ("VK_2", NChr 50); ("VK_3", NChr 51);
   ("VK_4", NChr 52); ("VK_5", NChr 53); ("VK_6", NChr 54); ("VK_7", NChr 55); ("VK_8", NChr 56);
   ("VK_9", NChr 57); ("VK_COMMA", NChr 44); ("VK_SLASH", NChr 47); ("VK_SEMICOLON", NChr 59);
   ("VK_QUOTE", NChr 39); ("VK_LBRACKET", NChr 91); ("VK_RBRACKET", NChr 93); ("VK_BACKSLASH", NChr 92);
   ("VK_MINUS", NChr 45); ("VK_PLUS", NChr 61); ("VK_DIVIDE", NControl CK.Divide);
   ("VK_MULTIPLY", NControl CK.Multiply); ("VK_SUBTRACT", NControl CK.Subtract); ("VK_ADD", NControl CK.Add);
   ("VK_DECIMAL", NControl CK.Decimal); ("VK_F1", NControl CK.F1); ("VK_F2", NControl CK.F2);
   ("VK_F3", NControl CK.F3); ("VK_F4", NControl CK.F4); ("VK_F5", NControl CK.F5);
   ("VK_F6", NControl CK.F6); ("VK_F7", NControl CK.F7); ("VK_F8", NControl CK.F8);
   ("VK_F9", NControl CK.F9); ("VK_F10", NControl CK.F10); ("VK_F11", NControl CK.F11);
   ("VK_F12", NControl CK.F12); ("VK_ENTER", NControl CK.Return); ("VK_CANCEL", NControl CK.Cancel);
   ("VK_BACK", NControl CK.Backspace); ("VK_TAB", NControl CK.Tab); ("VK_CLEAR", NControl CK.Clear);
   ("VK_RETURN", NControl CK.Return); ("VK_SHIFT", NControl CK.Shift); ("VK_CONTROL", NControl CK.Control);
   ("VK_MENU", NControl CK.Alt); ("VK_PAUSE", NControl CK.Pause); ("VK_CAPITAL", NControl CK.CapsLock);
   ("VK_KANA", NControl CK.Kana); ("VK_HANGUL", NControl CK.Hangul); ("VK_JUNJA", NControl CK.Junja);
   ("VK_FINAL", NControl CK.Final); ("VK_HANJA", NControl CK.Hanja); ("VK_KANJI", NControl CK.Kanji);
   ("VK_ESCAPE", NControl CK.Escape); ("VK_CONVERT", NControl CK.Convert); ("VK_SPACE", NControl CK.Space);
   ("VK_PRIOR", NControl CK.PageUp); ("VK_NEXT", NControl CK.PageDown); ("VK_END", NControl CK.End);
   ("VK_HOME", NControl CK.Home); ("VK_LEFT", NControl CK.LeftArrow); ("VK_UP", NControl CK.UpArrow);
   ("VK_RIGHT", NControl CK.RightArrow); ("VK_DOWN", NControl CK.DownArrow);
   ("VK_SELECT", NControl CK.Select); ("VK_PRINT", NControl CK.Print); ("VK_EXECUTE", NControl CK.Execute);
   ("VK_SNAPSHOT", NControl CK.Snapshot); ("VK_SCROLL", NControl CK.Scroll);
   ("VK_INSERT", NControl CK.Insert); ("VK_DELETE", NControl CK.Delete); ("VK_HELP", NControl CK.Help);
   ("VK_SLEEP", NControl CK.Sleep); ("VK_SEPARATOR", NControl CK.Separator);
   ("VK_NUMPAD0", NControl CK.Numpad0); ("VK_NUMPAD1", NControl CK.Numpad1);
   ("VK_NUMPAD2", NControl CK.Numpad2); ("VK_NUMPAD3", NControl CK.Numpad3);
   ("VK_NUMPAD4", NControl CK.Numpad4); ("VK_NUMPAD5", NControl CK.Numpad5);
   ("VK_NUMPAD6", NControl CK.Numpad6); ("VK_NUMPAD7", NControl CK.Numpad7);
   ("VK_NUMPAD8", NControl CK.Numpad8); ("VK_NUMPAD9", NControl CK.Numpad9); ("Apps", NControl CK.Apps);
   ("Meta", NControl CK.Meta); ("RAlt", NControl CK.RAlt); ("RWin", NControl CK.RWin);
   ("RControl", NControl CK.RControl); ("RShift", NControl CK.RShift);
   ("CTRL_ALT_DEL", NControl CK.CtrlAltDel); ("LOCK_SCREEN", NControl CK.LockScreen)].

Definition input_key_ (key : NamedKey) (down press alt ctrl shift command : bool) : Out :=
  let union := match key with NChr c | NRaw c => Chr c | NControl ck => ControlKey ck end in
  send_key_event (legacy_modifiers alt ctrl shift command
                    (mkKeyEvent (negb press && down) press (Some union) (Some Legacy) [])).

Definition input_key (name : string) (down press alt ctrl shift command : bool) : list Out :=
  match chars name with
  | [c] => [input_key_ (NRaw c) down press alt ctrl shift command]
  | _ => match List.find (fun x => String.eqb x.1 name) KEY_NAMES with
         | Some (_, key) => [input_key_ key down press alt ctrl shift command]
         | None => []
         end
  end.

(** [_handle_key_flutter_simulation]: the keys of a phone. *)
Definition handle_key_flutter_simulation (code : Z) (down_or_up : bool) : list Out :=
  match List.find (fun x => x.1 =? code)
          [(127, CK.VolumeMute); (128, CK.VolumeUp); (129, CK.VolumeDown); (102, CK.Power)] with
  | Some (_, ck) => [send_key_event (mkKeyEvent down_or_up false (Some (ControlKey ck)) (Some Translate) [])]
  | None => []
  end.

(** [handle_flutter_raw_key_event]: codes below 0 are ignored. *)
Definition handle_flutter_raw_key_event (keyboard_mode name : string) (platform position lock_modes : Z)
    (down_or_up : bool) (s : State) : list Out * State :=
  if String.eqb name "flutter_key" then (handle_key_flutter_simulation platform down_or_up, s)
  else if (position <? 0) || (platform <? 0) then ([], s)
  else
    let key := key_from_code e "linux" position in
    process_event keyboard_mode
      (mkEvent (if down_or_up then KeyPress key else KeyRelease key) position platform None) (Some lock_modes) s.

(** [send_mouse] of the session and of [client.rs], away from macOS *)
Definition scroll_xy (reverse : bool) (ty x y : Z) : Z * Z :=
  if ((ty =? 3) || (ty =? 4)) && reverse then (swrap 32 (- x), swrap 32 (- y)) else (x, y).

Definition swap_buttons (swap_left_right : bool) (mask : Z) : Z :=
  let is_left := 0 <? Z.land mask 8 in
  let is_right := 0 <? Z.land mask 16 in
  if xorb is_left is_right && swap_left_right then
    if is_left then Z.lor (Z.land mask (Z.lnot 8)) 16 else Z.lor (Z.land mask (Z.lnot 16)) 8
  else mask.

Definition send_mouse (reverse swap_left_right : bool) (mask x y : Z) (alt ctrl shift command : bool) (s : State)
  : MouseEvent :=
  let '(x, y) := scroll_xy reverse (Z.land mask 7) x y in
  let '(alt, ctrl, shift, command) := get_modifiers_state alt ctrl shift command s in
  let push (b : bool) ck l := if b then l ++ [ck] else l in
  let mods := push command CK.Meta (push ctrl CK.Control (push shift CK.Shift (push alt CK.Alt []))) in
  swap_modifier_mouse (mkMouseEvent (swap_buttons swap_left_right mask) x y mods).

End Keyboard.

End Keyboard.
