(* ===== verification/KeyboardProofs.v ===== *)
(** * What holds of the keyboard of the controlling side

    The main result follows the keys over the network: after the window has been
    left, a machine that was driven by position holds none of the keys.  The
    option that swaps Control and Meta takes characters for codes of keys. *)

From S2P Require Import Prelude RustStr NetUtil Messages Enigo Keys Connection InputService InputServiceProofs Keyboard.

#[local] Open Scope rust_scope.

Module KeyboardFacts.

Import Msg Keyboard.

(** ** Keys that the peer was told to hold *)

(** The codes that are down after some events by position. *)
Definition told_one (x : Out) (t : gset Z) : gset Z :=
  match x with
  | Send k => match k_union k with
              | Some (Chr c) => if k_down k then {[ c ]} ∪ t else t ∖ {[ c ]}
              | _ => t
              end
  | _ => t
  end.
Definition told (os : list Out) (t : gset Z) : gset Z := fold_left (fun t x => told_one x t) os t.

Lemma told_codes_app a b t : told (a ++ b) t = told b (told a t).
Proof. apply fold_left_app. Qed.

(** ** A visit to the window

    The window is entered, keys are typed and the relative mouse mode is turned
    on and off, and the window is left. *)

Inductive Happening : Type := Typed (ev : Event) | RelativeMode (active : bool).

Section Visit.
Context (e : Env) (order : gmap RdevKey Event -> list (RdevKey * Event)) (mode : string).

Definition happen (x : Happening) (s : State) : list Out * State :=
  match x with
  | Typed ev => grabbed e mode ev s
  | RelativeMode active => ([], set_relative_mouse_mode_state active s)
  end.

Fixpoint meanwhile (xs : list Happening) (s : State) : list Out * State :=
  match xs with
  | [] => ([], s)
  | x :: xs =>
    let '(o, s) := happen x s in
    let '(o', s) := meanwhile xs s in
    (o ++ o', s)
  end.

Definition visit (xs : list Happening) (s : State) : list Out * State :=
  let '(o1, s) := change_grab_status e order Run mode s in
  let '(o2, s) := meanwhile xs s in
  let '(o3, s) := change_grab_status e order Wait mode s in
  (o1 ++ o2 ++ o3, s).

(** Without changes of the mouse mode this is the loop of the grab. *)
Lemma meanwhile_typed evs s : meanwhile (map Typed evs) s = grab_loop e mode evs s.
Proof.
  revert s. induction evs as [|ev evs IH]; intros s; [reflexivity|]. cbn. destruct (grabbed e mode ev s) as [o s1].
  by rewrite IH.
Qed.

End Visit.

Section Leaving.
Context (e : Env) (order : gmap RdevKey Event -> list (RdevKey * Event)) (pos : RdevKey -> Z).

(** A key of the local keyboard has one position. *)
Definition positioned (ev : Event) : Prop :=
  match event_key ev with Some k => position_code ev = pos k | None => True end.

(** The code a key is sent as. *)
Definition sent_code (k : RdevKey) : option Z :=
  (fun c => if swap_key e && negb (c =? 0) then swap_code e c else c) <$>
    keycode_for e (without_whitespace (to_lowercase (peer_platform e))) (pos k).

Definition sent_codes (D : gset RdevKey) (c : Z) : Prop := exists k, k ∈ D /\ sent_code k = Some c.

(** What is told is to be released. *)
Definition tracked (extra : gset RdevKey) (t : gset Z) (s : State) : Prop :=
  (forall c, c ∈ t -> sent_codes (extra ∪ dom (TO_RELEASE s)) c) /\
  map_Forall (fun k ev => position_code ev = pos k) (TO_RELEASE s).

Lemma told_locks caps num k t : told_one (Send (swap_modifier_key e (push_locks caps num k))) t
  = told_one (Send (swap_modifier_key e k)) t.
Proof. unfold swap_modifier_key, push_locks, push_modifier, msg_chr. destruct caps, num, (swap_key e); reflexivity. Qed.

(** What one event by position tells the peer. *)
Lemma told_position ev k down t :
  positioned ev -> event_key ev = Some k -> is_press ev = down ->
  forall (f : KeyEvent -> KeyEvent),
  (forall x t, told_one (send_key_event e (f x)) t = told_one (send_key_event e x) t) ->
  told (map (send_key_event e) (map f (map_keyboard_mode e (without_whitespace (to_lowercase (peer_platform e))) ev Map))) t
  = match sent_code k with
    | Some c => if down then {[ c ]} ∪ t else t ∖ {[ c ]}
    | None => t
    end.
Proof.
  intros P K Hd f Hf. unfold positioned in P. rewrite K in P. unfold map_keyboard_mode, sent_code. rewrite P.
  assert (N : event_type ev <> NoKey) by (intros E; unfold event_key in K; rewrite E in K; discriminate).
  destruct (event_type ev); try contradiction;
    (destruct (keycode_for _ _ _) as [c|]; [|reflexivity]); cbn [map told fold_left fmap option_fmap option_map];
    rewrite Hf, Hd; unfold send_key_event, swap_modifier_key, msg_chr; cbn;
    destruct (swap_key e); cbn; try reflexivity; destruct (c =? 0); reflexivity.
Qed.

Lemma tracked_event ev extra t s o s' :
  positioned ev -> tracked extra t s -> process_event e "map" ev None s = (o, s') ->
  tracked (match event_type ev with KeyRelease k => extra ∖ {[ k ]} | _ => extra end) (told o t) s'.
Proof.
  intros P [Ht Hp] E. unfold process_event in E. destruct (is_long_press ev s) eqn:L.
  { injection E as <- <-. unfold is_long_press in L. destruct (event_type ev); [split; assumption|discriminate|discriminate]. }
  unfold event_to_key_events in E. cbv zeta in E. cbn [negb orb] in E.
  change (get_keyboard_mode_enum "map") with Map in E. cbn [negb orb app] in E. injection E as <- <-.
  destruct (event_key ev) as [k|] eqn:K.
  - pose proof (told_position ev k (is_press ev) t P K eq_refl
      (add_lock_modes_modifiers e (is_numpad_key ev) (is_letter_key_4_lock_modes ev))
      (fun x t => told_locks _ _ x t)) as Et.
    cbn [app]. rewrite Et.
    unfold event_key in K. unfold positioned, event_key in P. unfold note_to_release, update_modifiers_state, is_press.
    destruct (event_type ev) as [k'|k'|]; [injection K as ->|injection K as ->|discriminate].
    + split.
      * intros c Hc. cbn. rewrite dom_insert_L.
        assert (Hc' : sent_code k = Some c \/ c ∈ t) by (destruct (sent_code k); set_solver).
        destruct Hc' as [Hk|Hc']; [exists k; split; [set_solver|exact Hk]|].
        destruct (Ht c Hc') as (k2 & Hk2 & E2). exists k2. split; [set_solver|exact E2].
      * cbn. apply map_Forall_insert_2; [exact P|exact Hp].
    + split.
      * intros c Hc. cbn. rewrite dom_delete_L.
        assert (Hc' : sent_code k <> Some c /\ c ∈ t).
        { destruct (sent_code k); [|split; [discriminate|exact Hc]]. split; [|set_solver].
          intros [= ->]. set_solver. }
        destruct Hc' as [Nk Hc']. destruct (Ht c Hc') as (k2 & Hk2 & E2). exists k2. split; [|exact E2].
        assert (k2 <> k) by congruence. set_solver.
      * cbn. intros k2 ev2 H2. apply lookup_delete_Some in H2 as [_ H2]. exact (Hp k2 ev2 H2).
  - unfold map_keyboard_mode. unfold event_key in K. unfold note_to_release, update_modifiers_state.
    destruct (event_type ev); try discriminate. split; assumption.
Qed.

Lemma tracked_grabbed ev t s o s' :
  positioned ev -> tracked ∅ t s -> grabbed e "map" ev s = (o, s') ->
  tracked ∅ (told o t) s'.
Proof.
  intros P T E. unfold grabbed in E. destruct (event_key ev) as [k|]; [|injection E as <- <-; exact T].
  destruct (String.prefix "Unknown" k); [injection E as <- <-; exact T|].
  assert (B : tracked ∅ (told (should_block_relative_mouse_shortcut e k (is_press ev) s).1.2 t)
                (should_block_relative_mouse_shortcut e k (is_press ev) s).2).
  { unfold should_block_relative_mouse_shortcut. cbv zeta. repeat case_match; exact T. }
  destruct (should_block_relative_mouse_shortcut e k (is_press ev) s) as [[block o1] s1]. cbn in B.
  destruct block; [injection E as <- <-; exact B|].
  destruct (process_event e "map" ev None s1) as [o2 s2] eqn:E2. injection E as <- <-.
  pose proof (tracked_event ev ∅ _ _ _ _ P B E2) as T2. rewrite told_codes_app.
  destruct (event_type ev); [exact T2| |exact T2]. destruct T2 as [T2 T3]. split; [|exact T3].
  intros c Hc. destruct (T2 c Hc) as (k2 & Hk2 & E3). exists k2. split; [set_solver|exact E3].
Qed.

(** What is typed during a visit has the positions of its keys. *)
Definition well_placed (x : Happening) : Prop := match x with Typed ev => positioned ev | RelativeMode _ => True end.

Lemma tracked_meanwhile xs : forall t s o s',
  Forall well_placed xs -> tracked ∅ t s -> meanwhile e "map" xs s = (o, s') -> tracked ∅ (told o t) s'.
Proof.
  induction xs as [|x xs IH]; intros t s o s' P T E; [injection E as <- <-; exact T|].
  inversion_clear P as [|? ? P1 P2]. cbn [meanwhile] in E.
  destruct (happen e "map" x s) as [o1 s1] eqn:E1. destruct (meanwhile e "map" xs s1) as [o2 s2] eqn:E2.
  injection E as <- <-. rewrite told_codes_app. eapply IH; [exact P2| |exact E2].
  destruct x as [ev|active].
  - eapply tracked_grabbed; [exact P1|exact T|exact E1].
  - injection E1 as <- <-. unfold set_relative_mouse_mode_state. destruct active; exact T.
Qed.

(** ** Releasing *)

Lemma positioned_with_type k ev (f : RdevKey -> EventType) :
  position_code ev = pos k -> (f k = KeyPress k \/ f k = KeyRelease k) -> positioned (with_type (f k) ev).
Proof. intros P [E|E]; unfold positioned, with_type, event_key; cbn; rewrite E; exact P. Qed.

Lemma tracked_weaken X Y t s : X ⊆ Y -> tracked X t s -> tracked Y t s.
Proof.
  intros HXY [T1 T2]. split; [|exact T2]. intros c Hc. destruct (T1 c Hc) as (k & Hk & E).
  exists k. split; [set_solver|exact E].
Qed.

(** A release takes a key out of the table and tells the peer. *)
Lemma release_event k ev X t s o s' :
  position_code ev = pos k -> tracked X t s ->
  process_event e "map" (with_type (KeyRelease k) ev) None s = (o, s') ->
  tracked (X ∖ {[ k ]}) (told o t) s' /\ TO_RELEASE s' = delete k (TO_RELEASE s).
Proof.
  intros P T E. split.
  - exact (tracked_event _ X t s o s' (positioned_with_type k ev KeyRelease P (or_intror eq_refl)) T E).
  - unfold process_event, event_to_key_events in E. cbn in E. injection E as _ <-. reflexivity.
Qed.

Lemma press_event k ev X t s o s' :
  position_code ev = pos k -> tracked X t s ->
  process_event e "map" (with_type (KeyPress k) ev) None s = (o, s') ->
  tracked X (told o t) s' /\ delete k (TO_RELEASE s') = delete k (TO_RELEASE s).
Proof.
  intros P T E. split.
  - exact (tracked_event _ X t s o s' (positioned_with_type k ev KeyPress P (or_introl eq_refl)) T E).
  - unfold process_event in E. destruct (is_long_press _ s); [injection E as _ <-; reflexivity|].
    unfold event_to_key_events in E. cbn in E. injection E as _ <-. cbn. apply delete_insert_eq.
Qed.

Lemma tracked_release_one k ev X t s o s' :
  position_code ev = pos k -> tracked X t s -> TO_RELEASE s = ∅ ->
  release_one e "map" (k, ev) s = (o, s') ->
  tracked (X ∖ {[ k ]}) (told o t) s' /\ TO_RELEASE s' = ∅.
Proof.
  intros P T E0 E. unfold release_one in E.
  destruct (process_event e "map" (with_type (KeyRelease k) ev) None s) as [o0 s0] eqn:E1.
  destruct (release_event k ev X t s o0 s0 P T E1) as [T1 D1]. rewrite E0, delete_empty in D1.
  destruct (String.eqb k "Alt" || String.eqb k "AltGr"); [|injection E as <- <-; auto].
  destruct (process_event e "map" (with_type (KeyPress k) ev) None s0) as [o1 s1] eqn:E2.
  destruct (process_event e "map" (with_type (KeyRelease k) ev) None s1) as [o2 s2] eqn:E3.
  injection E as <- <-. destruct (press_event k ev _ _ s0 o1 s1 P T1 E2) as [T2 D2].
  destruct (release_event k ev _ _ s1 o2 s2 P T2 E3) as [T3 D3].
  rewrite !told_codes_app. split; [|rewrite D3, D2, D1; apply delete_empty].
  eapply tracked_weaken; [|exact T3]. set_solver.
Qed.

Lemma tracked_release_all l : forall X t s o s',
  Forall (fun x : RdevKey * Event => position_code x.2 = pos x.1) l ->
  X ⊆ list_to_set (map fst l) -> tracked X t s -> TO_RELEASE s = ∅ ->
  release_all e "map" l s = (o, s') -> told o t = ∅ /\ TO_RELEASE s' = ∅.
Proof.
  induction l as [|[k ev] l IH]; intros X t s o s' P HX T E0 E.
  - injection E as <- <-. split; [|exact E0]. apply set_eq. intros c. split; [|set_solver].
    intros Hc. destruct T as [T _]. destruct (T c Hc) as (k & Hk & _). rewrite E0, dom_empty_L in Hk. set_solver.
  - inversion_clear P as [|? ? P1 P2]. cbn in P1. cbn [release_all] in E.
    destruct (release_one e "map" (k, ev) s) as [o1 s1] eqn:E1.
    destruct (release_all e "map" l s1) as [o2 s2] eqn:E2. injection E as <- <-.
    destruct (tracked_release_one k ev X t s o1 s1 P1 T E0 E1) as [T1 D1].
    rewrite told_codes_app. eapply (IH (X ∖ {[ k ]})); [exact P2|cbn in HX; set_solver|exact T1|exact D1|exact E2].
Qed.

Hypothesis order_walks : forall t, order t ≡ₚ map_to_list t.

(** The table is emptied and what the peer was told is taken back. *)
Lemma tracked_release t s o s' :
  tracked ∅ t s -> release_remote_keys e order "map" s = (o, s') -> told o t = ∅ /\ TO_RELEASE s' = ∅.
Proof using order_walks.
  intros [T1 T2] E. unfold release_remote_keys in E.
  refine (tracked_release_all (order (TO_RELEASE s)) (dom (TO_RELEASE s)) _
            (s <| TO_RELEASE := ∅ |>) _ _ _ _ _ eq_refl E).
  - rewrite order_walks. apply Forall_forall. intros [k ev] Hx. apply elem_of_map_to_list in Hx. exact (T2 k ev Hx).
  - intros k Hk. apply elem_of_dom in Hk as [ev Hk]. apply elem_of_list_to_set, list_elem_of_fmap.
    exists (k, ev). split; [reflexivity|]. rewrite order_walks. apply elem_of_map_to_list, Hk.
  - split; [|apply map_Forall_empty]. intros c Hc. destruct (T1 c Hc) as (k & Hk & Ek). exists k.
    split; [|exact Ek]. cbn. rewrite dom_empty_L. set_solver.
Qed.

(** The keyboard is grabbed as long as the window is not left. *)
Lemma rdev_meanwhile xs : forall s o s',
  IS_RDEV_ENABLED s = true -> meanwhile e "map" xs s = (o, s') -> IS_RDEV_ENABLED s' = true.
Proof.
  induction xs as [|x xs IH]; intros s o s' H E; [injection E as <- <-; exact H|]. cbn [meanwhile] in E.
  destruct (happen e "map" x s) as [o1 s1] eqn:E1. destruct (meanwhile e "map" xs s1) as [o2 s2] eqn:E2.
  injection E as <- <-. refine (IH _ _ _ _ E2). clear IH E2. destruct x as [ev|[|]]; cbn in E1.
  - unfold grabbed, should_block_relative_mouse_shortcut, process_event, event_to_key_events, note_to_release,
      update_modifiers_state in E1. cbv zeta in E1.
    repeat (first [case_match; simplify_eq/= | injection E1 as <- <-]); assumption.
  - injection E1 as <- <-. exact H.
  - injection E1 as <- <-. exact H.
Qed.

Lemma told_nothing xs s o s' :
  IS_RDEV_ENABLED s = true -> TO_RELEASE s = ∅ -> Forall well_placed xs -> visit e order "map" xs s = (o, s') ->
  told o ∅ = ∅ /\ TO_RELEASE s' = ∅ /\ KEYBOARD_HOOKED s' = false.
Proof using order_walks.
  intros R R0 P E. unfold visit, change_grab_status in E. rewrite R in E. cbn [negb] in E.
  match type of E with context [meanwhile e "map" xs ?x] => destruct (meanwhile e "map" xs x) as [o2 s2] eqn:E2 end.
  assert (R2 : IS_RDEV_ENABLED s2 = true) by (eapply rdev_meanwhile; [|exact E2]; exact R). rewrite R2 in E. cbn [negb] in E.
  destruct (release_remote_keys e order "map" s2) as [o3 s3] eqn:E3. injection E as <- <-.
  assert (T : tracked ∅ (told o2 ∅) s2).
  { eapply tracked_meanwhile; [exact P| |exact E2]. split; [set_solver|].
    match goal with |- map_Forall _ ?x => change x with (TO_RELEASE s) end. rewrite R0. apply map_Forall_empty. }
  destruct (tracked_release _ _ _ _ T E3) as [T1 T2].
  split; [|by split]. change (told (o2 ++ o3 ++ [DisableGrab]) ∅ = ∅). rewrite !told_codes_app, T1. reflexivity.
Qed.

End Leaving.

(** ** On the controlled machine *)

(** Events by position. *)
Definition by_position (x : Out) : Prop :=
  match x with Send k => k_mode k = Some Map /\ (exists c, k_union k = Some (Chr c)) | _ => True end.

Lemma process_by_position e ev s : Forall by_position (process_event e "map" ev None s).1.
Proof.
  unfold process_event. destruct (is_long_press ev s); [constructor|].
  unfold event_to_key_events. change (get_keyboard_mode_enum "map") with Map. cbn [negb orb app fst].
  rewrite !Forall_map. unfold map_keyboard_mode.
  destruct (event_type ev); [| |constructor]; (destruct (keycode_for _ _ _) as [c|]; constructor; [|constructor]);
    unfold by_position, send_key_event, swap_modifier_key, add_lock_modes_modifiers, push_locks, push_modifier, msg_chr;
    destruct (is_letter_key_4_lock_modes ev && _), (is_numpad_key ev && _), (swap_key e); cbn;
    (split; [reflexivity|]); try destruct (c =? 0); eauto.
Qed.

Lemma grabbed_by_position e ev s : Forall by_position (grabbed e "map" ev s).1.
Proof.
  unfold grabbed. destruct (event_key ev) as [k|]; [|constructor]. destruct (String.prefix "Unknown" k); [constructor|].
  assert (B : Forall by_position (should_block_relative_mouse_shortcut e k (is_press ev) s).1.2).
  { unfold should_block_relative_mouse_shortcut. cbv zeta. repeat case_match; repeat constructor. }
  destruct (should_block_relative_mouse_shortcut e k (is_press ev) s) as [[block o1] s1].
  destruct block; [exact B|]. pose proof (process_by_position e ev s1) as P.
  destruct (process_event e "map" ev None s1). apply Forall_app. split; assumption.
Qed.

Lemma meanwhile_by_position e xs : forall s, Forall by_position (meanwhile e "map" xs s).1.
Proof.
  induction xs as [|x xs IH]; intros s; [constructor|]. cbn [meanwhile].
  assert (G : Forall by_position (happen e "map" x s).1) by (destruct x; [apply grabbed_by_position|constructor]).
  destruct (happen e "map" x s) as [o1 s1]. specialize (IH s1). destruct (meanwhile e "map" xs s1).
  apply Forall_app. split; assumption.
Qed.

Lemma release_all_by_position e l : forall s, Forall by_position (release_all e "map" l s).1.
Proof.
  induction l as [|[k ev] l IH]; intros s; [constructor|]. cbn [release_all].
  assert (G : Forall by_position (release_one e "map" (k, ev) s).1).
  { unfold release_one. pose proof (process_by_position e (with_type (KeyRelease k) ev) s) as P0.
    destruct (process_event e "map" (with_type (KeyRelease k) ev) None s) as [o0 s0].
    destruct (String.eqb k "Alt" || String.eqb k "AltGr"); [|exact P0].
    pose proof (process_by_position e (with_type (KeyPress k) ev) s0) as P1.
    destruct (process_event e "map" (with_type (KeyPress k) ev) None s0) as [o1 s1].
    pose proof (process_by_position e (with_type (KeyRelease k) ev) s1) as P2.
    destruct (process_event e "map" (with_type (KeyRelease k) ev) None s1) as [o2 s2].
    repeat (apply Forall_app; split); assumption. }
  destruct (release_one e "map" (k, ev) s) as [o1 s1]. specialize (IH s1). destruct (release_all e "map" l s1).
  apply Forall_app. split; assumption.
Qed.

Lemma visit_by_position e order xs s : Forall by_position (visit e order "map" xs s).1.
Proof.
  assert (M : forall g s0, Forall by_position (change_grab_status e order g "map" s0).1).
  { intros g s0. unfold change_grab_status, release_remote_keys. destruct (IS_RDEV_ENABLED s0), g; cbn [negb]; repeat constructor.
    pose proof (release_all_by_position e (order (TO_RELEASE s0)) (s0 <| TO_RELEASE := ∅ |>)) as R.
    destruct (release_all _ _ _ _). apply Forall_app. split; [exact R|repeat constructor]. }
  unfold visit. pose proof (M Run s) as M1. destruct (change_grab_status e order Run "map" s) as [o1 s1].
  pose proof (meanwhile_by_position e xs s1) as M2. destruct (meanwhile e "map" xs s1) as [o2 s2].
  pose proof (M Wait s2) as M3. destruct (change_grab_status e order Wait "map" s2) as [o3 s3].
  repeat (apply Forall_app; split); assumption.
Qed.

Section Remote.
Context {D : Type} `{KeyboardControllable D, MouseControllable D, InputService.Rdev D} (m : InputService.Machine D)
  {RL : InputFacts.RdevLaws D m}.
Hypothesis x11 : InputService.is_x11 m = true.

Abbreviation held := InputFacts.held.
Abbreviation RState := (InputService.State D).

(** One event by position on the controlled machine. *)
Lemma held_key t k c (s : RState) :
  k_mode k = Some Map -> k_union k = Some (Chr c) -> InputService.EXITING s = false ->
  let s' := (InputService.handle_key_ m t k s).2 in
  held (InputService.en s') ⊆ (if k_down k then {[ c ]} ∪ held (InputService.en s) else held (InputService.en s) ∖ {[ c ]})
  /\ InputService.EXITING s' = false.
Proof.
  intros Hm Hu He s'. unfold s', InputService.handle_key_. rewrite He.
  assert (P : forall s0 : RState, InputService.EXITING s0 = false ->
            let s1 := (InputService.key_by_mode m t k s0).2 in
            held (InputService.en s1) ⊆ (if k_down k then {[ c ]} ∪ held (InputService.en s0)
                                         else held (InputService.en s0) ∖ {[ c ]})
            /\ InputService.EXITING s1 = false).
  { intros s0 He0. unfold InputService.key_by_mode, InputService.map_keyboard_mode. rewrite Hm, x11. cbn.
    unfold InputService.key_chr. rewrite Hu. split; [|exact He0].
    destruct (k_down k); [apply InputFacts.held_press|]. unfold InputService.simulate_release.
    rewrite InputFacts.held_release. reflexivity. }
  destruct (InputService.lock_wanted m k) as [numpad|]; [|apply P, He].
  pose proof (InputFacts.quiet_lock_new m k numpad (InputService.en s)) as Q.
  destruct (InputService.lock_new k numpad (InputService.en s)) as [h d]. cbn in Q.
  match goal with |- context [InputService.key_by_mode m t k ?s0] =>
    pose proof (P s0 He) as P1; destruct (InputService.key_by_mode m t k s0) as [o s1] end.
  destruct P1 as [P1 P2]. cbn in P1, P2 |- *. split; [|exact P2].
  etransitivity; [apply InputFacts.quiet_lock_drop|]. etransitivity; [exact P1|].
  destruct (k_down k); set_solver.
Qed.

(** How a connection hands a key over: [press] says whether the machine presses
    and releases it at once ([is_press] of [connection.rs]). *)
Definition hand_over (conn t : Z) (press : KeyEvent -> bool) (x : Out) : list (Z * InputService.Step) :=
  match x with Send k => [(t, InputService.FromConn conn (Conn.Key k (press k)))] | _ => [] end.

Lemma held_hand_over conn t press x (s : RState) T :
  by_position x -> InputService.EXITING s = false -> held (InputService.en s) ⊆ T ->
  let s' := (InputService.steps m (hand_over conn t press x) s).2 in
  held (InputService.en s') ⊆ told_one x T /\ InputService.EXITING s' = false.
Proof using RL x11.
  intros B He HT. destruct x as [k| | |]; try (split; assumption). destruct B as [Hm [c Hu]].
  cbn [hand_over InputService.steps InputService.step InputService.handle_input told_one]. rewrite Hu.
  assert (Kd : forall b (s0 : RState), InputService.EXITING s0 = false ->
     let s1 := (InputService.handle_key_ m t (InputService.set_down k b) s0).2 in
     held (InputService.en s1) ⊆ (if b then {[ c ]} ∪ held (InputService.en s0) else held (InputService.en s0) ∖ {[ c ]})
     /\ InputService.EXITING s1 = false).
  { intros b s0 He0. exact (held_key t (InputService.set_down k b) c s0 Hm Hu He0). }
  destruct (press k).
  - pose proof (Kd true s He) as K1. destruct (InputService.handle_key_ m t (InputService.set_down k true) s) as [o1 s1].
    destruct K1 as [K1 E1]. pose proof (Kd false s1 E1) as K2.
    destruct (InputService.handle_key_ m t (InputService.set_down k false) s1) as [o2 s2]. destruct K2 as [K2 E2].
    split; [|exact E2]. cbn in *. destruct (k_down k); set_solver.
  - pose proof (Kd (k_down k) s He) as K1.
    destruct (InputService.handle_key_ m t (InputService.set_down k (k_down k)) s) as [o1 s1]. destruct K1 as [K1 E1].
    split; [|exact E1]. cbn in *. destruct (k_down k); set_solver.
Qed.

Lemma steps_app xs ys (s : RState) :
  (InputService.steps m (xs ++ ys) s).2 = (InputService.steps m ys (InputService.steps m xs s).2).2.
Proof.
  revert s. induction xs as [|[t x] xs IH]; intros s; [reflexivity|]. cbn [app InputService.steps].
  destruct (InputService.step m t x s) as [o s1]. specialize (IH s1).
  destruct (InputService.steps m (xs ++ ys) s1), (InputService.steps m xs s1). exact IH.
Qed.

Lemma held_told conn t press os : forall (s : RState) T,
  Forall by_position os -> InputService.EXITING s = false -> held (InputService.en s) ⊆ T ->
  held (InputService.en (InputService.steps m (flat_map (hand_over conn t press) os) s).2) ⊆ told os T.
Proof using RL x11.
  induction os as [|x os IH]; intros s T B He HT; [exact HT|]. inversion_clear B as [|? ? B1 B2].
  cbn [flat_map told fold_left]. rewrite steps_app.
  destruct (held_hand_over conn t press x s T B1 He HT) as [H1' E1]. apply IH; assumption.
Qed.

End Remote.

(** C30. Keys follow the user: the window is entered, keys are typed by position,
    the relative mouse mode is turned on and off in between (so that its
    shortcut takes presses and releases away), and the window is left.  However
    the connection hands the events over, a machine with X11 that was driven by
    them alone, and held no key, holds none, nothing is left to release and the
    keyboard is no longer grabbed.  A key may be down already when the window is
    entered, and the table of modifiers may say anything. *)
Theorem leaving_releases_peer_keys {D} `{KeyboardControllable D, MouseControllable D, InputService.Rdev D}
    (m : InputService.Machine D) `{!InputFacts.RdevLaws D m}
    (e : Env) (order : gmap RdevKey Event -> list (RdevKey * Event)) (pos : RdevKey -> Z) (xs : list Happening)
    (conn t : Z) (press : KeyEvent -> bool) (d : D) (s : State) :
  InputService.is_x11 m = true -> InputFacts.held d = ∅ ->
  (forall tbl, order tbl ≡ₚ map_to_list tbl) -> Forall (well_placed pos) xs ->
  IS_RDEV_ENABLED s = true -> TO_RELEASE s = ∅ ->
  let x := visit e order "map" xs s in
  InputFacts.held (InputService.en (InputService.steps m (flat_map (hand_over conn t press) x.1)
                                     (InputService.fresh d)).2) = ∅
  /\ TO_RELEASE x.2 = ∅ /\ KEYBOARD_HOOKED x.2 = false.
Proof.
  intros x11 Hd Ho P R R0 x.
  destruct (told_nothing e order pos Ho xs s x.1 x.2 R R0 P) as [N1 N2]; [apply surjective_pairing|]. split; [|exact N2].
  pose proof (held_told m x11 conn t press x.1 (InputService.fresh d) ∅ (visit_by_position e order xs s) eq_refl) as Hh.
  rewrite N1 in Hh. cbn in Hh. rewrite Hd in Hh. apply set_eq. intros c. split; [|set_solver].
  intros Hc. apply Hh; [reflexivity|exact Hc].
Qed.

(** ** Swapping Control and Meta *)

(** With the option that swaps Control and Meta, a character typed in the
    legacy mode is taken for the code of a key: with the codes of X, for a peer
    that is neither Windows nor macOS, the letter i (105, the code of the right
    Control key) is sent as 133, the code of the left Meta key. *)
Theorem swap_garbles_characters (e : Env) (k : KeyEvent) :
  swap_key e = true -> swap_platform e = "linux" ->
  key_from_code e "linux" 105 = "ControlRight" -> code_from_key e "linux" "MetaLeft" = Some 133 ->
  k_mode k = Some Legacy -> k_union k = Some (Chr 105) ->
  k_union (swap_modifier_key e k) = Some (Chr 133).
Proof.
  intros Hs Hp Hk Hc _ Hu. unfold swap_modifier_key. rewrite Hs. unfold msg_chr. rewrite Hu. cbn.
  unfold swap_code. rewrite Hp, Hk.
  change (swap_rdev_key "ControlRight") with "MetaLeft". rewrite Hc. reflexivity.
Qed.

(** ** The keys that leave the relative mouse mode

    Ctrl is sent; Alt is kept back and flags the shortcut.  If Ctrl is let go
    first, its release is kept back instead of that of Alt: the peer holds Ctrl,
    and the next press of Ctrl is taken for a repetition. *)
Definition x_codes (p : string) (k : RdevKey) : option Z :=
  if String.eqb k "ControlLeft" then Some 37
  else if String.eqb k "ControlRight" then Some 105
  else if String.eqb k "MetaLeft" then Some 133
  else if String.eqb k "Alt" then Some 64
  else None.
Definition x_keys (p : string) (c : Z) : RdevKey :=
  if c =? 37 then "ControlLeft" else if c =? 105 then "ControlRight" else if c =? 64 then "Alt" else "Unknown".

Definition demo_env (swap : bool) : Env :=
  mkEnv (fun _ => false) "Linux" "" (fun _ => None) (fun _ => None) (fun _ => None) (fun _ => None)
    x_keys x_codes swap (Some (true, true, false, Version.get_version_number "1.4.5")).

Definition x_event (t : EventType) : Event :=
  mkEvent t (match t with KeyPress k | KeyRelease k => unwrap_or 0 (x_codes "linux" k) | NoKey => 0 end) 0 None.

Lemma exit_shortcut_holds_control :
  let s := initial <| KEYBOARD_HOOKED := true |> <| RELATIVE_MOUSE_MODE_ACTIVE := true |> in
  let x := grab_loop (demo_env false) "map"
             (map x_event [KeyPress "ControlLeft"; KeyPress "Alt"; KeyRelease "ControlLeft"]) s in
  told x.1 ∅ = {[ 37 ]} /\ is_long_press (x_event (KeyPress "ControlLeft")) x.2 = true.
Proof. vm_compute. split; reflexivity. Qed.

(** ** Witnesses *)

(** In the relative mouse mode Ctrl is sent and Alt is kept back, as is the
    release of Ctrl: Ctrl is released when the window is left. *)
Definition demo_visit : list Happening :=
  RelativeMode true :: map Typed (map x_event [KeyPress "ControlLeft"; KeyPress "Alt"; KeyRelease "ControlLeft"]).
Definition enabled : State := initial <| IS_RDEV_ENABLED := true |>.

Lemma leaving_releases_peer_keys_witness :
  let x := visit (demo_env false) map_to_list "map" demo_visit enabled in
  InputFacts.d_codes (InputService.en (@InputService.steps _ InputFacts.desk_keyboard InputFacts.desk_mouse
    InputFacts.desk_rdev InputFacts.desk (flat_map (hand_over 1 5 (fun _ => false)) x.1)
    (InputService.fresh (InputFacts.mkDesk [] ∅))).2) = ∅
  /\ map (fun o => match o with Send k => Some (k_down k) | _ => None end) x.1 = [None; Some true; None; Some false; None].
Proof.
  intros x. split; [|vm_compute; reflexivity].
  apply (@leaving_releases_peer_keys InputFacts.Desk InputFacts.desk_keyboard InputFacts.desk_mouse
    InputFacts.desk_rdev InputFacts.desk InputFacts.desk_rdev_laws (demo_env false) map_to_list
    (fun k => unwrap_or 0 (x_codes "linux" k)) demo_visit 1 5 (fun _ => false)
    (InputFacts.mkDesk [] ∅) enabled); [reflexivity|reflexivity|reflexivity|repeat constructor|reflexivity|reflexivity].
Defined.

Lemma swap_garbles_characters_witness :
  k_union (swap_modifier_key (demo_env true) (mkKeyEvent true false (Some (Chr 105)) (Some Legacy) []))
  = Some (Chr 133).
Proof. apply (swap_garbles_characters (demo_env true)); vm_compute; reflexivity. Defined.

End KeyboardFacts.
