(* ===== verification/Clipboard.v ===== *)
(** * The system clipboard ([src/clipboard.rs], [src/server/clipboard_service.rs])

    What the clipboard holds becomes a message and back ([proto]); what a peer
    copied is written to the clipboard with a mark, so that it is not announced
    again; the listener tells its subscribers of changes, and the service of the
    controlled side announces them.

    The crate arboard, which talks to the system, is the class [Arboard]; zstd is
    a parameter with the wrappers of [hbb_common/src/compress.rs] written out.
    Texts are their bytes.  The model is a Linux build with the copying of
    files; the reading through the connection manager on Windows is left out. *)

From S2P Require Import Prelude RustStr Password ConnectionLoop.

#[local] Open Scope rust_scope.

Module Clip.

Import Utf8.

(** ** The types of arboard *)

Inductive ImageData : Type :=
| Rgba (width height : Z) (bytes : list Z) | Png (bytes : list Z) | Svg (text : list Z).

Inductive ClipboardData : Type :=
| Text (s : list Z) | Rtf (s : list Z) | Html (s : list Z) | Image (i : ImageData)
| FileUrl (urls : list string) | Special (name : string) (data : list Z) | NoData | Unsupported.

Inductive Format : Type :=
| FText | FHtml | FRtf | FImageRgba | FImagePng | FImageSvg | FFileUrl | FSpecial (name : string).

Inductive ArError : Type := ClipboardOccupied | OtherError (s : string).

(** Reading may fail and change nothing but what the next call answers. *)
Class Arboard (B : Type) := {
  board_new : B -> result unit string * B;
  board_get : list Format -> B -> result (list ClipboardData) ArError * B;
  board_set : list ClipboardData -> B -> result unit string * B }.

Definition OWNER_FORMAT : string := "dyn.com.rustdesk.owner".
Definition EXCEL_XML_SPREADSHEET : string := "XML Spreadsheet".

Definition SUPPORTED_FORMATS : list Format :=
  [FText; FHtml; FRtf; FImageRgba; FImagePng; FImageSvg; FFileUrl; FSpecial EXCEL_XML_SPREADSHEET;
   FSpecial OWNER_FORMAT].

(** ** Messages *)

Inductive ClipboardFormat : Type := PText | PRtf | PHtml | PImageRgba | PImagePng | PImageSvg | PSpecial | PUnknown.

#[export] Instance ClipboardFormat_eq_dec : EqDecision ClipboardFormat.
Proof. solve_decision. Defined.

Record Clipboard : Type := mkClipboard {
  compress : bool; content : list Z; width : Z; height : Z; format : ClipboardFormat; special_name : string }.

Definition name_bytes (s : string) : list Z := map ascii_code (String.list_ascii_of_string s).

(** ** The listener ([clipboard_listener]) *)

Inductive CallbackResult : Type := Next | Stop | StopWithError (e : string).

Record Listener : Type := mkListener { subscribers : gmap string (list CallbackResult); handle : bool }.

(** Whether the thread starts is the system's answer. *)
Definition subscribe (name : string) (starts : result unit string) (l : Listener) : result unit string * Listener :=
  let subs := <[ name := [] ]> (subscribers l) in
  if handle l then (Ok tt, mkListener subs true)
  else match starts with
       | Ok _ => (Ok tt, mkListener subs true)
       | Err e => (Err e, mkListener subs false)
       end.

(** Also what the channel of the subscriber then holds. *)
Definition unsubscribe (name : string) (l : Listener) : option (list CallbackResult) * Listener :=
  let subs := delete name (subscribers l) in
  ((fun q => q ++ [Stop]) <$> subscribers l !! name,
   mkListener subs (if bool_decide (subs = ∅) then false else handle l)).

(** [Handler]: a change, or an error, for every subscriber. *)
Definition on_clipboard_change (l : Listener) : Listener :=
  mkListener ((fun q => q ++ [Next]) <$> subscribers l) (handle l).
Definition on_clipboard_error (e : string) (l : Listener) : Listener :=
  mkListener ((fun q => q ++ [StopWithError ("Clipboard listener error: " +:+ e)]) <$> subscribers l) (handle l).

Section Proto.
Context (zstd_compress zstd_decode : list Z -> option (list Z)).

(** [compress], [decompress] of [compress.rs]: a failure gives no bytes. *)
Definition compress_func (d : list Z) : list Z := unwrap_or [] (zstd_compress d).
Definition decompress (d : list Z) : list Z := unwrap_or [] (zstd_decode d).

(** The compressed data when it is shorter, else [raw]. *)
Definition smaller (d raw : list Z) : bool * list Z :=
  let c := compress_func d in
  if (length c <? length d)%nat then (true, c) else (false, raw).

Definition plain_to_proto (s : list Z) (f : ClipboardFormat) : Clipboard :=
  let '(c, content) := smaller s s in mkClipboard c content 0 0 f "".

Definition image_to_proto (a : ImageData) : Clipboard :=
  match a with
  | Rgba w h d => let '(c, content) := smaller d d in mkClipboard c content (swrap 32 w) (swrap 32 h) PImageRgba ""
  | Png d => mkClipboard false d 0 0 PImagePng ""
  | Svg s => let '(c, content) := smaller s s in mkClipboard c content 0 0 PImageSvg ""
  end.

(** The code takes the bytes of the name where it does not compress. *)
Definition special_to_proto (d : list Z) (s : string) : Clipboard :=
  let '(c, content) := smaller d (name_bytes s) in mkClipboard c content 0 0 PSpecial s.

Definition clipboard_data_to_proto (data : ClipboardData) : option Clipboard :=
  match data with
  | Text s => Some (plain_to_proto s PText)
  | Rtf s => Some (plain_to_proto s PRtf)
  | Html s => Some (plain_to_proto s PHtml)
  | Image a => Some (image_to_proto a)
  | Special s d => Some (special_to_proto d s)
  | _ => None
  end.

Definition create_multi_clipboards (vec_data : list ClipboardData) : list Clipboard :=
  omap clipboard_data_to_proto vec_data.

Definition from_utf8 (f : list Z -> ClipboardData) (d : list Z) : option ClipboardData :=
  if is_utf8 d then Some (f d) else None.

Definition from_clipboard (c : Clipboard) : option ClipboardData :=
  let data := if compress c then decompress (content c) else content c in
  match format c with
  | PText => from_utf8 Text data
  | PRtf => from_utf8 Rtf data
  | PHtml => from_utf8 Html data
  | PImageRgba => Some (Image (Rgba (wrap 64 (width c)) (wrap 64 (height c)) data))
  | PImagePng => Some (Image (Png data))
  | PImageSvg => Some (Image (Svg (if is_utf8 data then data else [])))
  | PSpecial => Some (Special (special_name c) data)
  | PUnknown => None
  end.

Definition from_multi_clipbards (l : list Clipboard) : list ClipboardData := omap from_clipboard l.

(** What is sent: several clipboards, or the first text for an old peer. *)
Inductive ClipMessage : Type := MultiClipboards (l : list Clipboard) | OneClipboard (c : Clipboard).

Definition first_text (l : list Clipboard) : option ClipMessage :=
  OneClipboard <$> List.find (fun c => bool_decide (format c = PText)) l.

Definition get_msg_if_not_support_multi_clip (version platform : string) (l : list Clipboard) : option ClipMessage :=
  if Loop.is_support_multi_clipboard version platform then None else first_text l.

(** ** Sides *)

Inductive ClipboardSide : Type := Host | Client.

Definition get_owner_data (side : ClipboardSide) : list Z := match side with Host => [1] | Client => [2] end.

Definition is_owner (data : list Z) : bool :=
  match data with [] => false | d :: _ => negb (Z.land d 3 =? 0) end.

(** ** The context *)

Section Context_.
Context {B : Type} `{Arboard B}.

(** [ClipboardContext::new]: five attempts. *)
Fixpoint new_n (n : nat) (b : B) : result unit string * B :=
  let '(r, b) := board_new b in
  match r, n with
  | Ok _, _ => (Ok tt, b)
  | Err e, Datatypes.S (Datatypes.S _ as n) => new_n n b
  | Err e, _ => (Err e, b)
  end.
Definition new_context : B -> result unit string * B := new_n 5.

Definition is_none (c : ClipboardData) : bool := match c with NoData => true | _ => false end.

(** [get_formats]: three attempts while the clipboard is occupied. *)
Fixpoint get_formats_n (n : nat) (formats : list Format) (b : B) : result (list ClipboardData) string * B :=
  match n with
  | O => (Err "Failed to get clipboard formats, clipboard is occupied, 3 retries failed", b)
  | Datatypes.S n =>
    let '(r, b) := board_get formats b in
    match r with
    | Ok data => (Ok (List.filter (fun c => negb (is_none c)) data), b)
    | Err ClipboardOccupied => get_formats_n n formats b
    | Err (OtherError e) => (Err e, b)
    end
  end.
Definition get_formats : list Format -> B -> result (list ClipboardData) string * B := get_formats_n 3.

Definition marked (c : ClipboardData) : bool :=
  match c with Special s d => String.eqb s OWNER_FORMAT && is_owner d | _ => false end.

Definition worth_sending (c : ClipboardData) : bool :=
  match c with
  | Special s _ => negb (String.eqb s OWNER_FORMAT)
  | Text t => negb (bool_decide (t = []))
  | _ => true
  end.

(** What [get_formats_filter] does with the data. *)
Definition filter_data (force : bool) (data : list ClipboardData) : list ClipboardData :=
  if negb force && existsb marked data then [] else List.filter worth_sending data.

Definition get_formats_filter (formats : list Format) (force : bool) (b : B)
  : result (list ClipboardData) string * B :=
  let '(r, b) := get_formats formats b in
  match r with Ok data => (Ok (filter_data force data), b) | Err e => (Err e, b) end.

Definition is_file_url (c : ClipboardData) : bool := match c with FileUrl _ => true | _ => false end.

Definition get (force : bool) (b : B) : result (list ClipboardData) string * B :=
  let '(r, b) := get_formats_filter SUPPORTED_FORMATS force b in
  match r with Ok data => (Ok (if existsb is_file_url data then [] else data), b) | Err e => (Err e, b) end.

Definition first_urls (data : list ClipboardData) : option (list string) :=
  match List.find is_file_url data with Some (FileUrl urls) => Some urls | _ => None end.

Definition get_files (force : bool) (b : B) : result (option (list string)) string * B :=
  let '(r, b) := get_formats_filter [FFileUrl; FSpecial OWNER_FORMAT] force b in
  match r with Ok data => (Ok (first_urls data), b) | Err e => (Err e, b) end.

(** ** Operations of the process *)

Set Primitive Projections.

(** [ctx] says whether a context of a caller has been made. *)
Record State : Type := mkState {
  board : B;
  LAST_MULTI_CLIPBOARDS : list Clipboard;
  CLIPBOARD_CTX : bool }.

Unset Primitive Projections.

(** A context is made when there is none. *)
Definition with_context {A} (dflt : A) (k : B -> A * B) (ctx : bool) (b : B) : A * bool * B :=
  if ctx then let '(a, b) := k b in (a, true, b)
  else
    let '(r, b) := new_context b in
    match r with
    | Ok _ => let '(a, b) := k b in (a, true, b)
    | Err _ => (dflt, false, b)
    end.

Definition check_clipboard (ctx force : bool) (s : State) : option ClipMessage * bool * State :=
  let '(r, ctx, b) := with_context (Err "") (get force) ctx (board s) in
  let s := s <| board := b |> in
  match r with
  | Ok (c :: l) =>
    let clipboards := create_multi_clipboards (c :: l) in
    (Some (MultiClipboards clipboards), ctx, s <| LAST_MULTI_CLIPBOARDS := clipboards |>)
  | _ => (None, ctx, s)
  end.

Definition check_clipboard_files (ctx force : bool) (s : State) : option (list string) * bool * State :=
  let '(r, ctx, b) := with_context (Err "") (get_files force) ctx (board s) in
  let s := s <| board := b |> in
  match r with Ok (Some (u :: l)) => (Some (u :: l), ctx, s) | _ => (None, ctx, s) end.

Definition do_update_clipboard_ (data : list ClipboardData) (side : ClipboardSide) (s : State) : bool * State :=
  let '(r, ctx, b) :=
    with_context (Err "") (board_set (data ++ [Special OWNER_FORMAT (get_owner_data side)])) (CLIPBOARD_CTX s) (board s) in
  (is_ok r, s <| board := b |> <| CLIPBOARD_CTX := ctx |>).

Definition update_clipboard_ (l : list Clipboard) (side : ClipboardSide) (s : State) : bool * State :=
  match from_multi_clipbards l with [] => (false, s) | data => do_update_clipboard_ data side s end.

Definition update_clipboard_files (files : list string) (side : ClipboardSide) (s : State) : bool * State :=
  match files with [] => (false, s) | _ => do_update_clipboard_ [FileUrl files] side s end.

(** The urls below the mount point of the own files, and clearing them. *)
Definition get_file_urls_set_by_rustdesk (exclude_path : string) (data : list ClipboardData) : list string :=
  flat_map (fun c => match c with FileUrl urls => List.filter (starts_with exclude_path) urls | _ => [] end) data.

Definition clear_own_files (exclude_path : string) (is_kde_x11 : bool) (side : ClipboardSide) (b : B) : unit * B :=
  let '(r, b) := get_formats [FFileUrl] b in
  match r with
  | Ok data =>
    match get_file_urls_set_by_rustdesk exclude_path data with
    | [] => (tt, b)
    | _ =>
      let holder := if is_kde_x11 then name_bytes "RustDesk placeholder to clear the file clipbard" else [] in
      (tt, (board_set [Text holder; Special OWNER_FORMAT (get_owner_data side)] b).2)
    end
  | Err _ => (tt, b)
  end.

(** [emptied]: [empty_local_files] of the FUSE context *)
Definition try_empty_clipboard_files (exclude_path : string) (is_kde_x11 emptied : bool) (side : ClipboardSide)
    (s : State) : State :=
  let '(_, ctx, b) :=
    with_context tt (if emptied then clear_own_files exclude_path is_kde_x11 side else (fun b => (tt, b)))
      (CLIPBOARD_CTX s) (board s) in
  s <| board := b |> <| CLIPBOARD_CTX := ctx |>.

Definition get_current_clipboard_msg (version platform : string) (s : State) : option ClipMessage * State :=
  let '(s, failed) :=
    match LAST_MULTI_CLIPBOARDS s with
    | [] =>
      let '(r, _, b) := with_context (Err "") (get true) false (board s) in
      let s := s <| board := b |> in
      match r with
      | Ok data => (s <| LAST_MULTI_CLIPBOARDS := create_multi_clipboards data |>, false)
      | Err _ => (s, true)
      end
    | _ => (s, false)
    end in
  if failed then (None, s)
  else match LAST_MULTI_CLIPBOARDS s with
       | [] => (None, s)
       | l => (if Loop.is_support_multi_clipboard version platform then Some (MultiClipboards l) else first_text l, s)
       end.

(** ** The service of the controlled side *)

Inductive Announce : Type := SendAll (m : ClipMessage) | SyncFiles (urls : list string).

(** One round of [run]: no result of the listener is a timeout.  The third part
    says how [run] ends, if it does. *)
Definition service_round (file_service : bool) (r : option CallbackResult) (ctx : bool) (s : State)
  : list Announce * option (result unit string) * bool * State :=
  match r with
  | Some Next =>
    if file_service then
      let '(urls, ctx, s) := check_clipboard_files ctx false s in
      (match urls with Some u => [SyncFiles u] | None => [] end, None, ctx, s)
    else
      let '(m, ctx, s) := check_clipboard ctx false s in
      (match m with Some m => [SendAll m] | None => [] end, None, ctx, s)
  | Some Stop => ([], Some (Ok tt), ctx, s)
  | Some (StopWithError e) => ([], Some (Err ("Clipboard listener stopped with error: " +:+ e)), ctx, s)
  | None => ([], None, ctx, s)
  end.

(** The rounds while the service is running. *)
Fixpoint service_rounds (file_service : bool) (rs : list (option CallbackResult)) (ctx : bool) (s : State)
  : list Announce * result unit string * State :=
  match rs with
  | [] => ([], Ok tt, s)
  | r :: rs =>
    let '(o, fin, ctx, s) := service_round file_service r ctx s in
    match fin with
    | Some e => (o, e, s)
    | None => let '(o', e, s) := service_rounds file_service rs ctx s in (o ++ o', e, s)
    end
  end.

(** [run]: an error leaves it without [unsubscribe]. *)
Definition service_run (file_service : bool) (name : string) (starts : result unit string)
    (rs : list (option CallbackResult)) (s : State) (l : Listener)
  : list Announce * result unit string * State * Listener :=
  let '(r, b) := new_context (board s) in
  let s := s <| board := b |> in
  match r with
  | Err e => ([], Err e, s, l)
  | Ok _ =>
    let '(r, l) := subscribe name starts l in
    match r with
    | Err e => ([], Err e, s, l)
    | Ok _ =>
      let '(o, e, s) := service_rounds file_service rs true s in
      (o, e, s, if is_ok e then (unsubscribe name l).2 else l)
    end
  end.

End Context_.

End Proto.

End Clip.
