(* ===== verification/ClipboardProofs.v ===== *)
(** * What holds of the system clipboard

    What is copied arrives unchanged, except for data of a special format that
    does not compress, which arrives as the name of its format.  What a peer
    copied is not announced back. *)

From S2P Require Import Prelude RustStr Password ConnectionLoop Clipboard.

#[local] Open Scope rust_scope.

Module ClipFacts.

Import Utf8 Clip.

Section Codec.
Context (zstd_compress zstd_decode : list Z -> option (list Z)).

(** zstd: what was compressed is decoded again. *)
Hypothesis zstd_law : forall d c, zstd_compress d = Some c -> zstd_decode c = Some d.

(** Data the program sends: texts are UTF-8, sizes of images fit. *)
Definition sendable (c : ClipboardData) : Prop :=
  match c with
  | Text s | Rtf s | Html s | Image (Svg s) => is_utf8 s = true
  | Image (Rgba w h _) => 0 <= w < 2 ^ 31 /\ 0 <= h < 2 ^ 31
  | Image (Png _) => True
  | _ => False
  end.

(** The bytes that are compressed; compression succeeds. *)
Definition payload (c : ClipboardData) : list Z :=
  match c with
  | Text s | Rtf s | Html s | Image (Svg s) | Image (Png s) | Image (Rgba _ _ s) | Special _ s => s
  | _ => []
  end.

Lemma smaller_back d raw b c :
  is_Some (zstd_compress d) -> smaller zstd_compress d raw = (b, c) ->
  (b = true /\ decompress zstd_decode c = d) \/ (b = false /\ c = raw).
Proof using zstd_law.
  intros [x Hx]. unfold smaller, compress_func, decompress. rewrite Hx. change (unwrap_or [] (Some x)) with x.
  destruct (Nat.ltb (length x) (length d)); intros E; injection E as <- <-; [left|right; auto].
  rewrite (zstd_law d x Hx). auto.
Qed.

Lemma i32_size w : 0 <= w < 2 ^ 31 -> wrap 64 (swrap 32 w) = w.
Proof.
  intros Hw. unfold wrap, swrap. change (32 - 1) with 31.
  rewrite (Z.mod_small (w + 2 ^ 31)) by lia. rewrite Z.mod_small; lia.
Qed.

Lemma data_roundtrip c :
  sendable c -> is_Some (zstd_compress (payload c)) ->
  exists p, clipboard_data_to_proto zstd_compress c = Some p /\ from_clipboard zstd_decode p = Some c.
Proof using zstd_law.
  assert (T : forall s f g, is_utf8 s = true -> is_Some (zstd_compress s) ->
            (forall d cl, format cl = f -> d = (if compress cl then decompress zstd_decode (content cl) else content cl) ->
               from_clipboard zstd_decode cl = from_utf8 g d) ->
            from_clipboard zstd_decode (plain_to_proto zstd_compress s f) = Some (g s)).
  { intros s f g Hu Hz Hf. unfold plain_to_proto. destruct (smaller _ _ _) as [b x] eqn:E.
    apply (smaller_back _ _ _ _ Hz) in E as [[-> E]|[-> ->]];
      (erewrite Hf; [|reflexivity|reflexivity]); cbn; rewrite ?E; unfold from_utf8; rewrite Hu; reflexivity. }
  intros Hs Hz. destruct c as [s|s|s|[w h d|d|s]| | | |]; try contradiction; cbn in Hs, Hz |- *;
    (eexists; split; [reflexivity|]).
  - apply T; [exact Hs|exact Hz|]. intros d cl Hf ->. unfold from_clipboard. rewrite Hf. reflexivity.
  - apply T; [exact Hs|exact Hz|]. intros d cl Hf ->. unfold from_clipboard. rewrite Hf. reflexivity.
  - apply T; [exact Hs|exact Hz|]. intros d cl Hf ->. unfold from_clipboard. rewrite Hf. reflexivity.
  - destruct (smaller _ _ _) as [b x] eqn:E. destruct Hs as [Hw Hh].
    apply (smaller_back _ _ _ _ Hz) in E as [[-> E]|[-> ->]]; unfold from_clipboard; cbn [compress content format width height];
      rewrite ?E, !i32_size by assumption; reflexivity.
  - reflexivity.
  - destruct (smaller _ _ _) as [b x] eqn:E.
    apply (smaller_back _ _ _ _ Hz) in E as [[-> E]|[-> ->]]; unfold from_clipboard;
      cbn [compress content format]; rewrite ?E, Hs; reflexivity.
Qed.

End Codec.

(** Texts, formatted texts and pictures that are copied on one side are what
    the other side puts on its clipboard, in order; file lists and what the
    program cannot read are left out. *)
Theorem clipboard_roundtrip (zstd_compress zstd_decode : list Z -> option (list Z)) (l : list ClipboardData) :
  (forall d c, zstd_compress d = Some c -> zstd_decode c = Some d) ->
  Forall (fun c => is_Some (zstd_compress (payload c))) l ->
  Forall (fun c => sendable c \/ clipboard_data_to_proto zstd_compress c = None) l ->
  from_multi_clipbards zstd_decode (create_multi_clipboards zstd_compress l)
  = List.filter (fun c => match c with FileUrl _ | NoData | Unsupported => false | _ => true end) l.
Proof.
  intros law Hz Hs. unfold from_multi_clipbards, create_multi_clipboards.
  induction l as [|c l IH]; [reflexivity|].
  inversion_clear Hz as [|? ? Z1 Z2]. inversion_clear Hs as [|? ? S1 S2]. specialize (IH Z2 S2).
  destruct S1 as [S1|S1].
  - destruct (data_roundtrip _ _ law c S1 Z1) as (p & E1 & E2). cbn. rewrite E1. cbn. rewrite E2, IH.
    destruct c as [| | |[]| | | |]; try contradiction; reflexivity.
  - cbn. rewrite S1, IH. destruct c as [| | |[]| | | |]; try discriminate; reflexivity.
Qed.

(** Data of a special format that compression does not make shorter is
    replaced by the name of its format. *)
Theorem special_data_lost (zstd_compress zstd_decode : list Z -> option (list Z)) (name : string) (d : list Z) :
  (length d <= length (compress_func zstd_compress d))%nat ->
  from_multi_clipbards zstd_decode (create_multi_clipboards zstd_compress [Special name d])
  = [Special name (name_bytes name)].
Proof.
  intros Hl. cbn. unfold special_to_proto, smaller.
  destruct (Nat.ltb_spec (length (compress_func zstd_compress d)) (length d)); [lia|]. reflexivity.
Qed.

Lemma special_data_lost_witness :
  from_multi_clipbards (fun d => Some d) (create_multi_clipboards (fun d => Some d) [Special EXCEL_XML_SPREADSHEET [60; 63]])
  = [Special EXCEL_XML_SPREADSHEET (name_bytes "XML Spreadsheet")].
Proof. apply (special_data_lost (fun d => Some d) (fun d => Some d)). cbn. lia. Defined.

Lemma clipboard_roundtrip_witness :
  from_multi_clipbards (fun d => Some d) (create_multi_clipboards (fun d => Some d)
    [Text [104; 105]; FileUrl ["a"]; Image (Rgba 1 1 [0; 0; 0; 255])])
  = [Text [104; 105]; Image (Rgba 1 1 [0; 0; 0; 255])].
Proof.
  apply (clipboard_roundtrip (fun d => Some d) (fun d => Some d) [Text [104; 105]; FileUrl ["a"]; Image (Rgba 1 1 [0; 0; 0; 255])]).
  - intros d c [= ->]. reflexivity.
  - repeat (apply Forall_cons; split; [eexists; reflexivity|]). apply Forall_nil. exact I.
  - apply Forall_cons; split; [left; reflexivity|]. apply Forall_cons; split; [right; reflexivity|].
    apply Forall_cons; split; [left; cbn; lia|apply Forall_nil; exact I].
Defined.

(** ** No echo

    Data of a special format that was written, as the only data of this
    format, is on the clipboard until something else is written; opening and
    reading the clipboard leave it there, and a reading that asks for the format
    and does not fail gives it back.  Which of two data of one format is kept is
    left open. *)
Class ArboardLaws (B : Type) `{Arboard B} := {
  holds : string -> list Z -> B -> Prop;
  holds_set data b b' name d : board_set data b = (Ok tt, b') -> Special name d ∈ data ->
    (forall d', Special name d' ∈ data -> d' = d) -> holds name d b';
  holds_new name d b : holds name d b -> holds name d (board_new b).2;
  holds_get fs name d b : holds name d b -> holds name d (board_get fs b).2;
  holds_seen fs b name d l b' : FSpecial name ∈ fs -> holds name d b ->
    board_get fs b = (Ok l, b') -> Special name d ∈ l }.

Section Echo.
Context {B : Type} `{ArboardLaws B} (zstd_compress zstd_decode : list Z -> option (list Z)).

(** The clipboard carries the mark. *)
Definition owned (b : B) : Prop := exists side, holds OWNER_FORMAT (get_owner_data side) b.

Lemma owned_get fs b : owned b -> owned (board_get fs b).2.
Proof. intros [side Ho]. exists side. apply holds_get, Ho. Qed.

Lemma owned_formats n fs : forall b, FSpecial OWNER_FORMAT ∈ fs -> owned b ->
  owned (get_formats_n n fs b).2 /\
  forall l, (get_formats_n n fs b).1 = Ok l -> existsb marked l = true.
Proof.
  induction n as [|n IH]; intros b Hf Ho; [split; [exact Ho|discriminate]|]. cbn [get_formats_n].
  pose proof (owned_get fs b Ho) as Ho'. destruct Ho as [side Ho].
  pose proof (holds_seen fs b OWNER_FORMAT (get_owner_data side)) as Hs.
  destruct (board_get fs b) as [r b'] eqn:E. cbn in Ho'. destruct r as [data|[|e]].
  - split; [exact Ho'|]. intros l [= <-]. apply existsb_exists.
    exists (Special OWNER_FORMAT (get_owner_data side)). split; [|destruct side; reflexivity].
    apply filter_In. split; [|reflexivity]. apply list_elem_of_In. exact (Hs data b' Hf Ho eq_refl).
  - apply IH; assumption.
  - split; [exact Ho'|discriminate].
Qed.

Lemma owned_new n : forall b, owned b -> owned (new_n n b).2.
Proof.
  induction n as [|n IH]; intros b [side Ho]; cbn [new_n]; pose proof (holds_new _ _ b Ho) as Hn;
    destruct (board_new b) as [[u|e] b']; cbn in Hn.
  - exists side. exact Hn.
  - exists side. exact Hn.
  - exists side. exact Hn.
  - destruct n; [exists side; exact Hn|apply IH; exists side; exact Hn].
Qed.

Lemma owned_filter fs b : FSpecial OWNER_FORMAT ∈ fs -> owned b ->
  owned (get_formats_filter fs false b).2 /\
  forall l, (get_formats_filter fs false b).1 = Ok l -> l = [].
Proof.
  intros Hf Ho. unfold get_formats_filter. destruct (owned_formats 3 fs b Hf Ho) as [H1 H2].
  unfold get_formats. destruct (get_formats_n 3 fs b) as [[data|e] b']; (split; [exact H1|]); intros l; cbn; [|discriminate].
  intros [= <-]. unfold filter_data. rewrite (H2 data eq_refl). reflexivity.
Qed.

Lemma owner_supported : FSpecial OWNER_FORMAT ∈ SUPPORTED_FORMATS.
Proof. unfold SUPPORTED_FORMATS. repeat (first [apply list_elem_of_here | apply list_elem_of_further]). Qed.

Lemma owned_check ctx (s : State) : owned (board s) ->
  (check_clipboard zstd_compress ctx false s).1.1 = None /\ owned (board (check_clipboard zstd_compress ctx false s).2).
Proof.
  intros Ho. unfold check_clipboard, with_context.
  assert (G : forall b, owned b -> owned (get false b).2 /\ forall l, (get false b).1 = Ok l -> l = []).
  { intros b Hb. unfold get. destruct (owned_filter SUPPORTED_FORMATS b owner_supported Hb) as [H1 H2].
    destruct (get_formats_filter SUPPORTED_FORMATS false b) as [[data|e] b']; (split; [exact H1|]); intros l; cbn; [|discriminate].
    intros [= <-]. rewrite (H2 data eq_refl). reflexivity. }
  destruct ctx.
  - destruct (G (board s) Ho) as [G1 G2]. destruct (get false (board s)) as [[l|e] b]; cbn in *.
    + rewrite (G2 l eq_refl). split; [reflexivity|exact G1].
    + split; [reflexivity|exact G1].
  - pose proof (owned_new 5 (board s) Ho) as Hn. unfold new_context.
    destruct (new_n 5 (board s)) as [[u|e] b]; cbn in Hn; [|split; [reflexivity|exact Hn]].
    destruct (G b Hn) as [G1 G2]. destruct (get false b) as [[l|e] b']; cbn in *.
    + rewrite (G2 l eq_refl). split; [reflexivity|exact G1].
    + split; [reflexivity|exact G1].
Qed.

Lemma owned_files ctx (s : State) : owned (board s) ->
  (check_clipboard_files ctx false s).1.1 = None /\ owned (board (check_clipboard_files ctx false s).2).
Proof.
  intros Ho. unfold check_clipboard_files, with_context.
  assert (Hf : FSpecial OWNER_FORMAT ∈ [FFileUrl; FSpecial OWNER_FORMAT])
    by (apply list_elem_of_further, list_elem_of_here).
  assert (G : forall b, owned b -> owned (get_files false b).2 /\ forall u, (get_files false b).1 = Ok u -> u = None).
  { intros b Hb. unfold get_files. destruct (owned_filter _ b Hf Hb) as [H1 H2].
    destruct (get_formats_filter _ false b) as [[data|e] b']; (split; [exact H1|]); intros u; cbn; [|discriminate].
    intros [= <-]. rewrite (H2 data eq_refl). reflexivity. }
  destruct ctx.
  - destruct (G (board s) Ho) as [G1 G2]. destruct (get_files false (board s)) as [[u|e] b]; cbn in *.
    + rewrite (G2 u eq_refl). split; [reflexivity|exact G1].
    + split; [reflexivity|exact G1].
  - pose proof (owned_new 5 (board s) Ho) as Hn. unfold new_context.
    destruct (new_n 5 (board s)) as [[u|e] b]; cbn in Hn; [|split; [reflexivity|exact Hn]].
    destruct (G b Hn) as [G1 G2]. destruct (get_files false b) as [[u'|e] b']; cbn in *.
    + rewrite (G2 u' eq_refl). split; [reflexivity|exact G1].
    + split; [reflexivity|exact G1].
Qed.

Lemma owned_rounds fs rs : forall ctx (s : State), owned (board s) ->
  (service_rounds zstd_compress fs rs ctx s).1.1 = [].
Proof.
  induction rs as [|r rs IH]; intros ctx s Ho; [reflexivity|]. cbn [service_rounds].
  unfold service_round. destruct r as [[| |e]|]; try reflexivity.
  - destruct fs.
    + destruct (owned_files ctx s Ho) as [E1 E2].
      destruct (check_clipboard_files ctx false s) as [[urls ctx'] s']. cbn in E1, E2. subst urls.
      specialize (IH ctx' s' E2). destruct (service_rounds zstd_compress true rs ctx' s') as [[? ?] ?]. exact IH.
    + destruct (owned_check ctx s Ho) as [E1 E2].
      destruct (check_clipboard zstd_compress ctx false s) as [[msg ctx'] s']. cbn in E1, E2. subst msg.
      specialize (IH ctx' s' E2). destruct (service_rounds zstd_compress false rs ctx' s') as [[? ?] ?]. exact IH.
  - specialize (IH ctx s Ho). destruct (service_rounds zstd_compress fs rs ctx s) as [[? ?] ?]. exact IH.
Qed.

(** The mark is not among the contents. *)
Definition unmarked (data : list ClipboardData) : Prop := forall d, Special OWNER_FORMAT d ∉ data.

Lemma update_owned l side (s s' : State) : unmarked (from_multi_clipbards zstd_decode l) ->
  update_clipboard_ zstd_decode l side s = (true, s') -> owned (board s').
Proof.
  unfold update_clipboard_. destruct (from_multi_clipbards zstd_decode l) as [|c data]; [discriminate|]. intros U.
  unfold do_update_clipboard_, with_context.
  assert (S_ : forall b r b', board_set ((c :: data) ++ [Special OWNER_FORMAT (get_owner_data side)]) b = (r, b') ->
            is_ok r = true -> owned b').
  { intros b r b' E Hr. destruct r as [[]|]; [|discriminate]. exists side.
    apply (holds_set _ b b' _ _ E); [apply elem_of_app; right; apply list_elem_of_singleton; reflexivity|].
    intros d' Hd. apply elem_of_app in Hd as [Hd|Hd]; [destruct (U d' Hd)|].
    apply list_elem_of_singleton in Hd. congruence. }
  destruct (CLIPBOARD_CTX s).
  - destruct (board_set _ (board s)) as [r b'] eqn:E. intros [= Hr <-]. exact (S_ _ _ _ E Hr).
  - destruct (new_context (board s)) as [[u|e] b]; [|discriminate].
    destruct (board_set _ b) as [r b'] eqn:E. intros [= Hr <-]. exact (S_ _ _ _ E Hr).
Qed.

End Echo.

(** C34. After what a peer copied has been written to the clipboard, the service
    announces nothing, whatever changes it is told of, as long as nothing else
    is written to the clipboard: neither the contents nor files go back.  The
    peer's message must not carry data of the format of the mark itself, which
    the code does not look for. *)
Theorem no_echo {B} `{ArboardLaws B} (zstd_compress zstd_decode : list Z -> option (list Z))
    (l : list Clipboard) (side : ClipboardSide) (s s' : State) (file_service ctx : bool)
    (rs : list (option CallbackResult)) :
  unmarked (from_multi_clipbards zstd_decode l) -> update_clipboard_ zstd_decode l side s = (true, s') ->
  (service_rounds zstd_compress file_service rs ctx s').1.1 = [].
Proof. intros U E. exact (owned_rounds zstd_compress file_service rs ctx s' (update_owned zstd_decode l side s s' U E)). Qed.

(** A clipboard that is always free. *)
Definition list_board : Arboard (list ClipboardData) := {|
  board_new b := (Ok tt, b); board_get _ b := (Ok b, b); board_set data _ := (Ok tt, data) |}.

#[local] Instance list_board_laws : @ArboardLaws _ list_board.
Proof.
  refine (@Build_ArboardLaws _ list_board (fun name d b => Special name d ∈ b) _ _ _ _); cbn; try (intros; assumption).
  - intros data b b' name d [= <-] Hd _. exact Hd.
  - intros fs b name d l b' _ Hh [= <- _]. exact Hh.
Defined.

(** One that keeps the first data of each special format. *)
Fixpoint first_special (seen : list string) (data : list ClipboardData) : list ClipboardData :=
  match data with
  | [] => []
  | Special name d :: data =>
    if existsb (String.eqb name) seen then first_special seen data
    else Special name d :: first_special (name :: seen) data
  | c :: data => c :: first_special seen data
  end.
Definition first_board : Arboard (list ClipboardData) := {|
  board_new b := (Ok tt, b); board_get _ b := (Ok b, b); board_set data _ := (Ok tt, first_special [] data) |}.

(** There a peer that sends data of the format of the mark has its text
    announced back to it. *)
Lemma peer_mark_echoes :
  let copied := [mkClipboard false [104; 105] 0 0 PText ""; mkClipboard false [0] 0 0 PSpecial OWNER_FORMAT] in
  let s := (@update_clipboard_ (fun d => Some d) _ first_board copied Host (mkState [] [] false)).2 in
  (@service_rounds (fun d => Some d) _ first_board false [Some Next] true s).1.1
  = [SendAll (MultiClipboards [mkClipboard false [104; 105] 0 0 PText ""])].
Proof. reflexivity. Qed.

Lemma no_echo_witness :
  (@service_rounds (fun d => Some d) _ list_board false [Some Next; None; Some Next] true
     (@update_clipboard_ (fun d => Some d) _ list_board [mkClipboard false [104; 105] 0 0 PText ""] Host
        (mkState [] [] false)).2).1.1 = [].
Proof.
  apply (@no_echo _ list_board list_board_laws (fun d => Some d) (fun d => Some d)
           [mkClipboard false [104; 105] 0 0 PText ""] Host (mkState [] [] false)); [|reflexivity].
  intros d Hd. apply list_elem_of_singleton in Hd. discriminate Hd.
Defined.

(** ** The listener *)

(** The thread runs only while somebody listens. *)
Definition listening (l : Listener) : Prop := handle l = true -> subscribers l <> ∅.

Lemma subscribe_listening name starts l : listening (subscribe name starts l).2.
Proof.
  unfold subscribe, listening. destruct (handle l), starts; cbn; intros _; apply insert_non_empty.
Qed.

Lemma unsubscribe_listening name l : listening (unsubscribe name l).2.
Proof.
  unfold unsubscribe, listening. cbn [snd handle subscribers]. destruct (bool_decide _) eqn:E; [discriminate|].
  intros _. apply bool_decide_eq_false in E. exact E.
Qed.

(** A subscriber whose thread could not be started stays in the table, so the
    thread of a later subscriber does not stop when that one leaves. *)
Lemma failed_subscriber_stays :
  let l := (subscribe "a" (Err "no display") (mkListener ∅ false)).2 in
  let l := (subscribe "b" (Ok tt) l).2 in
  handle (unsubscribe "b" l).2 = true.
Proof. reflexivity. Qed.

(** A service that the listener stopped with an error stays in the table too. *)
Lemma failed_service_stays {B} `{Arboard B} zstd fs name starts e rs (s s' : State) l l' o :
  service_run zstd fs name starts rs s l = (o, Err e, s', l') ->
  (exists b, new_context (board s) = (Ok tt, b)) -> is_Some (subscribers l' !! name).
Proof.
  unfold service_run. intros E [b Hb]. rewrite Hb in E.
  destruct (subscribe name starts l) as [r l1] eqn:Es.
  assert (Hn : is_Some (subscribers l1 !! name)).
  { unfold subscribe in Es. destruct (handle l), starts; injection Es as <- <-; cbn; rewrite lookup_insert_eq; eauto. }
  destruct r as [u|e1]; [|injection E as <- <- <- <-; exact Hn].
  destruct (service_rounds zstd fs rs true _) as [[o1 e1] s1]. injection E as <- -> <- <-. exact Hn.
Qed.

End ClipFacts.
