(* ===== verification/Employee.v ===== *)
(** * Employee services ([src/employee_manager.rs])

    The additions of this derivative: the heartbeat with the number of the
    employee, and the recording of the screen in the background service, in
    pieces of a quarter of an hour which are removed when they are old or too
    many.  The recording exists on Windows only and is modelled for it.

    The file system, the answers of the server, [ffmpeg] and the clock are
    arguments; what is done to them is a list of actions.  Times are seconds. *)

From S2P Require Import Prelude RustStr.
From Stdlib Require Import Sorted.

#[local] Open Scope rust_scope.

Module Emp.

(** ** The number of the employee *)

(** A file that may hold it: whether it exists, the option of the parsed file,
    its text. *)
Record Candidate : Type := mkCandidate { exists_ : bool; loaded : option string; text : option string }.

Definition trim_matches (c : ascii) (s : string) : string :=
  let strip s := strip_any (String.length s) [String c ""] s in
  rev_string (strip (rev_string (strip s) "")) "".

Definition QUOTE : ascii := Ascii.ascii_of_nat 34.
Definition NEWLINE : ascii := Ascii.ascii_of_nat 10.

(** The search line by line.  [lines] drops a carriage return, so does [trim]. *)
Definition manual_fallback (content : string) : option string :=
  if contains_str "employee_id" content then
    head (omap (fun line =>
      if contains_str "employee_id" line then
        match split_char "="%char line with
        | _ :: v :: _ =>
          let v := trim_matches "}"%char (trim_matches "{"%char (trim_matches "'"%char (trim_matches QUOTE (trim v)))) in
          if String.eqb v "" then None else Some v
        | _ => None
        end
      else None) (split_char NEWLINE content))
  else None.

Definition search_path (p : Candidate) : option string :=
  if exists_ p then
    match loaded p with
    | Some v => if String.eqb v "" then text p ≫= manual_fallback else Some v
    | None => text p ≫= manual_fallback
    end
  else None.

(** [option] is what the configuration in memory has. *)
Definition get_employee_id (option_ : string) (paths : list Candidate) : string :=
  if String.eqb option_ "" then default "" (head (omap search_path paths)) else option_.

(** ** The heartbeat *)

Inductive Request : Type :=
| Heartbeat (employee_id device_id device_password : string)
| Register (employee_id device_id device_password device_name : string)
| Uninstall (employee_id : string).

(** [heartbeat]: the status, or an error of sending; [host]: the name of the
    machine; the last is the answer to a registration. *)
Definition send_heartbeat (employee_id id password : string) (heartbeat : result Z string)
    (host : result (option string) string) (registered : result unit string) : list Request * result unit string :=
  if String.eqb employee_id "" then ([], Ok tt)
  else
    let beat := [Heartbeat employee_id id password] in
    match heartbeat with
    | Err e => (beat, Err e)
    | Ok status =>
      if status =? 404 then
        match host with
        | Err e => (beat, Err e)
        | Ok name => (beat ++ [Register employee_id id password (default "" name)], registered)
        end
      else (beat, Ok tt)
    end.

Definition notify_uninstall (employee_id : string) : list Request :=
  if String.eqb employee_id "" then [] else [Uninstall employee_id].

(** What the server answers to the question whether to record: no client, no
    answer, or a body with its member [enabled], if it is JSON and a Boolean. *)
Inductive EnabledAnswer : Type := NoClient | NoAnswer | Body (enabled : option bool).

Definition check_recording_enabled (a : EnabledAnswer) : bool :=
  match a with Body (Some b) => b | _ => true end.

(** ** The drive *)

(** A drive: its letter and its free space, if that can be read.  [best] and
    [max_free_space] are the variables of the loop. *)
Definition pick (sys : ascii) (acc : option ascii * Z) (drive : ascii * option Z) : option ascii * Z :=
  let '(best, max_free) := acc in
  match drive with
  | (_, None) => acc
  | (letter, Some space) =>
    let is_system := Ascii.eqb letter sys in
    let best_is_system := match best with Some b => Ascii.eqb b sys | None => true end in
    if match best with None => true | Some _ => false end
       || negb is_system && (max_free <? space)
       || is_system && best_is_system && (max_free <? space)
    then
      if negb is_system || best_is_system then
        if negb is_system || (max_free <? space) then (Some letter, space) else acc
      else acc
    else acc
  end.

(** The drives from C to Z that exist, in order. *)
Definition choose_drive (sys : ascii) (drives : list (ascii * option Z)) : ascii :=
  default sys (fold_left (pick sys) drives (None, 0)).1.

(** ** Old recordings *)

Definition RETENTION : Z := 2 * 24 * 3600.
Definition MAX_TOTAL_SIZE : Z := 5 * 1024 * 1024 * 1024.

Record FileInfo : Type := mkFile { path : string; size : Z; modified : Z }.

(** An entry of the directory: its size and its time, as far as they can be
    read. *)
Record DirEntry : Type := mkEntry { name : string; metadata : option (Z * option Z) }.

(** [Path::extension] of a file name. *)
Definition extension (file : string) : option string :=
  if String.eqb file ".." then None
  else
    match after_last "."%char file with
    | None => None
    | Some ext => if String.eqb file (String "." ext) then None else Some ext
    end.

Definition recording (e : DirEntry) : option FileInfo :=
  if bool_decide (extension (name e) = Some "mp4") then
    match metadata e with
    | Some (len, Some modified) => Some (mkFile (name e) len modified)
    | _ => None
    end
  else None.

(** A time in the future has no age. *)
Definition expired (now : Z) (f : FileInfo) : bool := (modified f <=? now) && (RETENTION <? now - modified f).

(** [sort_by] on the time; it is stable. *)
Fixpoint insert_file (f : FileInfo) (l : list FileInfo) : list FileInfo :=
  match l with
  | [] => [f]
  | g :: l' => if modified f <=? modified g then f :: l else g :: insert_file f l'
  end.
Definition sort_files (l : list FileInfo) : list FileInfo := fold_right insert_file [] l.

(** The walk over the directory: what is removed, what is collected, the total;
    an entry that cannot be read ends it. *)
Fixpoint collect (now : Z) (entries : list (result DirEntry string)) (total : Z)
  : list string * result (list FileInfo * Z) string :=
  match entries with
  | [] => ([], Ok ([], total))
  | Err e :: _ => ([], Err e)
  | Ok e :: entries =>
    match recording e with
    | None => collect now entries total
    | Some f =>
      if expired now f then
        let '(gone, r) := collect now entries total in (path f :: gone, r)
      else
        let '(gone, r) := collect now entries (u64 (total + size f)) in
        (gone, match r with Ok (l, t) => Ok (f :: l, t) | Err e => Err e end)
    end
  end.

(** The oldest go first.  [removable] is the system's answer. *)
Fixpoint shrink (removable : string -> bool) (files : list FileInfo) (total : Z) : list string :=
  match files with
  | [] => []
  | f :: files =>
    if total <=? MAX_TOTAL_SIZE then []
    else path f :: shrink removable files (if removable (path f) then Z.max 0 (total - size f) else total)
  end.

(** The files that are asked to be removed. *)
Definition cleanup_old_files (now : Z) (removable : string -> bool) (dir : result (list (result DirEntry string)) string)
  : list string * result unit string :=
  match dir with
  | Err e => ([], Err e)
  | Ok entries =>
    let '(gone, r) := collect now entries 0 in
    match r with
    | Err e => (gone, Err e)
    | Ok (files, total) =>
      (gone ++ (if MAX_TOTAL_SIZE <? total then shrink removable (sort_files files) total else []), Ok tt)
    end
  end.

(** ** A round of the recording thread *)

Inductive Action : Type :=
| StopFfmpeg | CreateDir (drive : ascii) | Remove (file : string)
| Record_ (drive : ascii) (file : string) (seconds : Z) (dxgi : bool).

(** What the round asks the machine: the time as the date with the hour, the
    minute and the second. *)
Record Machine : Type := mkMachine {
  is_installed : bool; employee : string; enabled : EnabledAnswer;
  system_drive : string; drives : list (ascii * option Z);
  save_dir_exists : bool; create_dir : result unit string; ensure_ffmpeg : result unit string;
  now : Z; removable : string -> bool; save_dir : result (list (result DirEntry string)) string;
  dev_id : string; date_hour : string; minute : Z; second : Z;
  ffmpeg_running : bool; file_exists : string -> bool; spawn_dxgi : bool }.

Definition upper (c : ascii) : ascii :=
  let n := Ascii.nat_of_ascii c in
  if (97 <=? n)%nat && (n <=? 122)%nat then Ascii.ascii_of_nat (n - 32) else c.

Definition sys_drive_letter (drive : string) : ascii :=
  upper (match drive with String c _ => c | EmptyString => "C"%char end).

Definition two_digits (z : Z) : string := if z <? 10 then "0" +:+ show z else show z.

Definition quarter (m : Machine) : Z := minute m / 15 * 15.
Definition filename (m : Machine) : string :=
  dev_id m +:+ "_" +:+ date_hour m +:+ "-" +:+ two_digits (quarter m) +:+ ".mp4".

(** To the next quarter of an hour, in [u32]. *)
Definition remaining_seconds (m : Machine) : Z := u32 ((15 - minute m mod 15) * 60 - second m).

Definition manage_recording (m : Machine) : list Action * result unit string :=
  if negb (is_installed m) then ([], Ok tt)
  else if String.eqb (employee m) "" then ([], Ok tt)
  else if negb (check_recording_enabled (enabled m)) then ([StopFfmpeg], Ok tt)
  else
    let drive := choose_drive (sys_drive_letter (system_drive m)) (drives m) in
    let created := if save_dir_exists m then [] else [CreateDir drive] in
    match (if save_dir_exists m then Ok tt else create_dir m) with
    | Err e => (created, Err e)
    | Ok _ =>
      match ensure_ffmpeg m with
      | Err e => (created, Err e)
      | Ok _ =>
        let '(gone, r) := cleanup_old_files (now m) (removable m) (save_dir m) in
        let actions := created ++ map Remove gone in
        match r with
        | Err e => (actions, Err e)
        | Ok _ =>
          if ffmpeg_running m then (actions, Ok tt)
          else if file_exists m (filename m) then (actions, Ok tt)
          else
            (actions ++ [Record_ drive (filename m) (remaining_seconds m) true]
             ++ (if spawn_dxgi m then [] else [Record_ drive (filename m) (remaining_seconds m) false]), Ok tt)
        end
      end
    end.

End Emp.

(** ** What holds of the employee services

    After a cleaning the recordings are young and small enough, and no more was
    removed than necessary; a piece of recording ends with its quarter of an
    hour and is made only where the conditions hold.  The drive is not chosen
    the way its comment says. *)

Module EmpFacts.

Import Emp.

(** ** Cleaning *)

Definition total_of (l : list FileInfo) : Z := fold_right Z.add 0 (map size l).

Definition older (f g : FileInfo) : Prop := modified f <= modified g.

Lemma total_cons f l : total_of (f :: l) = size f + total_of l.
Proof. reflexivity. Qed.

Lemma total_app l k : total_of (l ++ k) = total_of l + total_of k.
Proof. unfold total_of. induction l as [|f l IH]; cbn; [reflexivity|]. rewrite IH. lia. Qed.

Lemma total_perm l k : l ≡ₚ k -> total_of l = total_of k.
Proof. unfold total_of. induction 1; cbn; lia. Qed.

Lemma total_nonneg l : Forall (fun f => 0 <= size f) l -> 0 <= total_of l.
Proof. unfold total_of. induction 1; cbn; lia. Qed.

Lemma insert_perm f l : insert_file f l ≡ₚ f :: l.
Proof.
  induction l as [|g l IH]; [reflexivity|]. cbn. destruct (modified f <=? modified g); [reflexivity|].
  rewrite IH. apply Permutation_swap.
Qed.

Lemma sort_perm l : sort_files l ≡ₚ l.
Proof. induction l as [|f l IH]; [reflexivity|]. cbn. rewrite insert_perm. by constructor. Qed.

Lemma insert_sorted f l : StronglySorted older l -> StronglySorted older (insert_file f l).
Proof.
  induction l as [|g l IH]; intros Hs; [repeat constructor|]. cbn.
  inversion_clear Hs as [|? ? Hl Hg]. destruct (Z.leb_spec (modified f) (modified g)) as [L|L].
  - constructor; [constructor; assumption|]. constructor; [exact L|].
    eapply Forall_impl; [exact Hg|]. unfold older. cbn. lia.
  - constructor; [apply IH, Hl|]. rewrite insert_perm. constructor; [unfold older; lia|exact Hg].
Qed.

Lemma sort_sorted l : StronglySorted older (sort_files l).
Proof. induction l; [constructor|]. apply insert_sorted. assumption. Qed.

Definition entries_of (l : list DirEntry) : list (result DirEntry string) := map Ok l.

Lemma collect_spec now l : forall t,
  Forall (fun f => 0 <= size f) (omap recording l) -> 0 <= t -> t + total_of (omap recording l) < 2 ^ 64 ->
  exists old young,
    collect now (entries_of l) t = (map path old, Ok (young, t + total_of young)) /\
    omap recording l ≡ₚ old ++ young /\
    Forall (fun f => expired now f = true) old /\ Forall (fun f => expired now f = false) young.
Proof.
  induction l as [|e l IH]; intros t Hp Ht Hb.
  { exists [], []. cbn. rewrite Z.add_0_r. auto. }
  cbn -[total_of entries_of] in Hp, Hb |- *. change (entries_of (e :: l)) with (Ok (E := string) e :: entries_of l). cbn [collect].
  destruct (recording e) as [f|]; [|exact (IH t Hp Ht Hb)].
  inversion_clear Hp as [|? ? Hf Hr]. rewrite total_cons in Hb.
  pose proof (total_nonneg _ Hr) as Hn. destruct (expired now f) eqn:Ex.
  - destruct (IH t Hr Ht ltac:(lia)) as (old & young & E & P & A & B). exists (f :: old), young.
    rewrite E. cbn. repeat split; [rewrite P; reflexivity|constructor; assumption|assumption].
  - unfold wrap. rewrite (Z.mod_small (t + size f)) by lia.
    destruct (IH (t + size f) Hr ltac:(lia) ltac:(lia)) as (old & young & E & P & A & B). exists old, (f :: young).
    rewrite E. split; [|split; [|split; [assumption|constructor; assumption]]].
    + rewrite total_cons, Z.add_assoc. reflexivity.
    + rewrite P. apply Permutation_middle.
Qed.

Lemma shrink_spec l : forall t,
  Forall (fun f => 0 <= size f) l -> t = total_of l ->
  exists cut kept, l = cut ++ kept /\ shrink (fun _ => true) l t = map path cut /\
    total_of kept <= MAX_TOTAL_SIZE /\
    (cut = [] \/ exists f, last cut = Some f /\ MAX_TOTAL_SIZE < size f + total_of kept).
Proof.
  induction l as [|f l IH]; intros t Hp ->.
  { exists [], []. repeat split; [cbn; unfold MAX_TOTAL_SIZE; lia|by left]. }
  cbn [shrink]. destruct (Z.leb_spec (total_of (f :: l)) MAX_TOTAL_SIZE) as [L|L].
  { exists [], (f :: l). repeat split; [exact L|by left]. }
  inversion_clear Hp as [|? ? Hf Hr]. pose proof (total_nonneg _ Hr) as Hn.
  assert (Et : Z.max 0 (total_of (f :: l) - size f) = total_of l) by (rewrite total_cons; lia).
  rewrite Et. destruct (IH _ Hr eq_refl) as (cut & kept & -> & E & T & M). exists (f :: cut), kept. rewrite E.
  repeat split; [exact T|]. right. destruct M as [->|(g & Eg & G)].
  - exists f. split; [reflexivity|]. exact L.
  - exists g. split; [|exact G]. destruct cut; [discriminate|exact Eg].
Qed.

(** After a cleaning in which the files can be removed, no recording is
    older than two days and those left have at most five gigabytes; beyond the
    old ones only the oldest are removed, and no more of them than necessary. *)
Theorem recordings_bounded (now : Z) (l : list DirEntry) :
  Forall (fun f => 0 <= size f) (omap recording l) -> total_of (omap recording l) < 2 ^ 64 ->
  exists old cut kept,
    cleanup_old_files now (fun _ => true) (Ok (entries_of l)) = (map path (old ++ cut), Ok tt) /\
    omap recording l ≡ₚ old ++ cut ++ kept /\
    Forall (fun f => expired now f = true) old /\ Forall (fun f => expired now f = false) (cut ++ kept) /\
    StronglySorted older (cut ++ if bool_decide (cut = []) then [] else kept) /\
    total_of kept <= MAX_TOTAL_SIZE /\
    (cut = [] \/ exists f, last cut = Some f /\ MAX_TOTAL_SIZE < size f + total_of kept).
Proof.
  intros Hp Hb. destruct (collect_spec now l 0 Hp ltac:(lia) ltac:(lia)) as (old & young & E & P & A & B).
  unfold cleanup_old_files. rewrite E. rewrite Z.add_0_l.
  destruct (Z.ltb_spec MAX_TOTAL_SIZE (total_of young)) as [L|L].
  - assert (Hy : Forall (fun f => 0 <= size f) (sort_files young)).
    { rewrite sort_perm. rewrite P in Hp. apply Forall_app in Hp. apply Hp. }
    destruct (shrink_spec (sort_files young) (total_of young) Hy) as (cut & kept & Es & S1 & S2 & S3);
      [apply total_perm; by rewrite sort_perm|].
    exists old, cut, kept. rewrite S1, map_app. repeat split; try assumption.
    + rewrite P, <- Es, sort_perm. reflexivity.
    + rewrite <- Es, sort_perm. exact B.
    + destruct (bool_decide_reflect (cut = [])) as [->|_]; [constructor|]. rewrite <- Es. apply sort_sorted.
  - exists old, [], young. rewrite app_nil_r. rewrite !app_nil_r. repeat split; try assumption; [constructor|by left].
Qed.

Lemma recordings_bounded_witness :
  exists old cut kept,
    cleanup_old_files 1000000 (fun _ => true) (Ok (entries_of
      [mkEntry "a.mp4" (Some (1, Some 10)); mkEntry "b.mp4" (Some (5368709120, Some 999999));
       mkEntry "c.mp4" (Some (7, Some 999990)); mkEntry "notes.txt" (Some (9, Some 0))]))
    = (map path (old ++ cut), Ok tt) /\ total_of kept <= MAX_TOTAL_SIZE /\ length (old ++ cut) = 2%nat.
Proof.
  destruct (recordings_bounded 1000000
      [mkEntry "a.mp4" (Some (1, Some 10)); mkEntry "b.mp4" (Some (5368709120, Some 999999));
       mkEntry "c.mp4" (Some (7, Some 999990)); mkEntry "notes.txt" (Some (9, Some 0))])
    as (old & cut & kept & E & _ & _ & _ & _ & T & _).
  - vm_compute. repeat constructor; discriminate.
  - vm_compute. reflexivity.
  - exists old, cut, kept. split; [exact E|]. split; [exact T|].
    apply (f_equal (fun r => length r.1)) in E. cbn [fst] in E. rewrite length_map in E. rewrite <- E.
    vm_compute. reflexivity.
Defined.

(** ** A round *)

(** A piece of recording starts only on an installed machine with an
    employee, where the server does not forbid it, with no recorder running and
    no file of this quarter; it ends exactly with the quarter, after one second
    to fifteen minutes, and the cleaning comes first. *)
Theorem recording_guarded (m : Machine) (drive : ascii) (file : string) (secs : Z) (dxgi : bool) :
  0 <= minute m < 60 -> 0 <= second m < 60 -> Record_ drive file secs dxgi ∈ (manage_recording m).1 ->
  is_installed m = true /\ employee m <> "" /\ enabled m <> Body (Some false) /\
  ffmpeg_running m = false /\ file_exists m file = false /\
  1 <= secs <= 900 /\ minute m * 60 + second m + secs = (quarter m + 15) * 60 /\
  exists before after, (manage_recording m).1 = before ++ map Remove (cleanup_old_files (now m) (removable m) (save_dir m)).1 ++ after
    /\ Record_ drive file secs dxgi ∈ after.
Proof.
  intros Hm Hs. unfold manage_recording. destruct (is_installed m); cbn [negb]; [|intros H; inversion H].
  destruct (String.eqb_spec (employee m) "") as [|He]; [intros H; inversion H|].
  destruct (check_recording_enabled (enabled m)) eqn:En; cbn [negb];
    [|cbn; intros H; apply list_elem_of_singleton in H; discriminate].
  set (dr := choose_drive _ _). set (created := if save_dir_exists m then [] else [CreateDir dr]).
  assert (Hc : Record_ drive file secs dxgi ∉ created).
  { unfold created. destruct (save_dir_exists m); [apply not_elem_of_nil|].
    intros H%list_elem_of_singleton. discriminate. }
  destruct (if save_dir_exists m then Ok tt else create_dir m); [|intros H; contradiction].
  destruct (ensure_ffmpeg m); [|intros H; contradiction].
  destruct (cleanup_old_files (now m) (removable m) (save_dir m)) as [gone r].
  assert (Hg : Record_ drive file secs dxgi ∉ created ++ map Remove gone).
  { intros [H|H]%elem_of_app; [contradiction|]. apply list_elem_of_In, in_map_iff in H as (x & ? & _). discriminate. }
  destruct r as [[]|]; [|intros H; contradiction].
  destruct (ffmpeg_running m); [intros H; contradiction|].
  destruct (file_exists m (filename m)) eqn:Ef; [intros H; contradiction|].
  cbn [fst]. intros [H|H]%elem_of_app; [contradiction|].
  assert (Hx : drive = dr /\ file = filename m /\ secs = remaining_seconds m).
  { apply elem_of_app in H as [H%list_elem_of_singleton|H]; [injection H; auto|].
    destruct (spawn_dxgi m); [inversion H|]. apply list_elem_of_singleton in H. injection H. auto. }
  destruct Hx as (-> & -> & ->).
  assert (Hr : remaining_seconds m = (15 - minute m mod 15) * 60 - second m).
  { unfold remaining_seconds, wrap. apply Z.mod_small. pose proof (Z.mod_pos_bound (minute m) 15). lia. }
  pose proof (Z.mod_pos_bound (minute m) 15 ltac:(lia)) as B. pose proof (Z.div_mod (minute m) 15 ltac:(lia)) as D.
  rewrite Hr. unfold quarter. split; [reflexivity|]. split; [exact He|].
  split; [intros E; rewrite E in En; discriminate|]. split; [reflexivity|]. split; [exact Ef|].
  split; [lia|]. split; [lia|]. exists created. eexists. rewrite <- app_assoc. split; [reflexivity|].
  rewrite <- Hr. exact H.
Qed.

Definition office : Machine :=
  mkMachine true "042" (Body (Some true)) "C:" [("C"%char, Some 100); ("D"%char, Some 90)] true (Ok tt) (Ok tt)
    1000000 (fun _ => true) (Ok []) "7" "2024-01-01_09" 37 20 false (fun _ => false) true.

Lemma recording_guarded_witness :
  Record_ "C"%char "7_2024-01-01_09-30.mp4" 460 true ∈ (manage_recording office).1 /\
  37 * 60 + 20 + 460 = (quarter office + 15) * 60.
Proof.
  assert (H : Record_ "C"%char "7_2024-01-01_09-30.mp4" 460 true ∈ (manage_recording office).1)
    by (vm_compute; apply list_elem_of_here).
  split; [exact H|]. cbn -[Z.mul Z.add quarter] in H.
  apply (recording_guarded office "C"%char "7_2024-01-01_09-30.mp4" 460 true); [cbn; lia|cbn; lia|exact H].
Defined.

(** ** The drive *)

Definition space_at_most (s : Z) (d : ascii * option Z) : Prop :=
  match d.2 with Some s' => s' <= s | None => True end.

Lemma other_stays sys l : forall b mx,
  Forall (fun d => d.1 <> sys) l -> b <> sys -> exists b', (fold_left (pick sys) l (Some b, mx)).1 = Some b' /\ b' <> sys.
Proof.
  induction l as [|[c [s|]] l IH]; intros b mx Hl Hb; [eauto| |];
    inversion_clear Hl as [|? ? Hc Hr]; cbn [fold_left]; [|apply IH; assumption].
  cbn in Hc. unfold pick at 2. rewrite (proj2 (Ascii.eqb_neq c sys) Hc), (proj2 (Ascii.eqb_neq b sys) Hb). cbn.
  destruct (mx <? s); cbn; apply IH; assumption.
Qed.

Lemma system_stays sys l : forall mx,
  Forall (fun d => d.1 <> sys) l ->
  (fold_left (pick sys) l (Some sys, mx)).1 = Some sys <-> Forall (space_at_most mx) l.
Proof.
  induction l as [|[c o] l IH]; intros mx Hl; [split; [constructor|reflexivity]|].
  inversion_clear Hl as [|? ? Hc Hr]. cbn in Hc. cbn [fold_left]. rewrite Forall_cons. destruct o as [s|].
  - unfold pick at 2. rewrite (proj2 (Ascii.eqb_neq c sys) Hc), Ascii.eqb_refl. unfold space_at_most at 1. cbn.
    destruct (Z.ltb_spec mx s) as [L|L]; cbn.
    + destruct (other_stays sys l c s Hr Hc) as (b & E & Hb). rewrite E. split; [intros [= ->]; contradiction|lia].
    + rewrite (IH mx Hr). intuition.
  - cbn. rewrite (IH mx Hr). unfold space_at_most at 2. cbn. intuition.
Qed.

Lemma never_none sys l : forall acc, acc.1 <> None -> (fold_left (pick sys) l acc).1 <> None.
Proof.
  induction l as [|[c [s|]] l IH]; intros [b mx] Hb; [exact Hb| |]; cbn [fold_left]; apply IH; [|exact Hb].
  cbn in Hb |- *. repeat (match goal with |- context [if ?c then _ else _] => destruct c end); cbn; congruence.
Qed.

#[local] Instance space_at_most_dec s d : Decision (space_at_most s d).
Proof. unfold space_at_most. destruct (d.2); apply _. Defined.

(** With the system on the first drive, recordings go to it whenever no
    other drive has more free space: other drives are not preferred. *)
Theorem system_drive_kept (sys : ascii) (s : Z) (l : list (ascii * option Z)) :
  0 < s -> Forall (fun d => d.1 <> sys) l ->
  choose_drive sys ((sys, Some s) :: l) = sys <-> Forall (space_at_most s) l.
Proof.
  intros Hs Hl. rewrite <- (system_stays sys l s Hl). unfold choose_drive. cbn [fold_left].
  assert (Ep : pick sys (None, 0) (sys, Some s) = (Some sys, s)).
  { unfold pick. rewrite Ascii.eqb_refl, (proj2 (Z.ltb_lt 0 s) Hs). reflexivity. }
  rewrite Ep.
  destruct (fold_left (pick sys) l (Some sys, s)) as [[b|] mx] eqn:E; cbn.
  - split; congruence.
  - exfalso. destruct (decide (Forall (space_at_most s) l)) as [F|F].
    + apply (system_stays sys l s Hl) in F. rewrite E in F. discriminate.
    + apply (never_none sys l (Some sys, s)); [discriminate|]. rewrite E. reflexivity.
Qed.

Lemma system_drive_kept_witness :
  choose_drive "C"%char [("C"%char, Some 100); ("D"%char, Some 90); ("E"%char, None)] = "C"%char.
Proof.
  apply (system_drive_kept "C"%char 100 [("D"%char, Some 90); ("E"%char, None)]); [lia| |].
  - repeat constructor; discriminate.
  - repeat constructor; cbn; lia.
Defined.

End EmpFacts.
