(* ===== verification/Sound.v ===== *)
(** * Sound ([src/server/audio_service.rs], [AudioHandler] and [AudioBuffer] of
    [src/client.rs])

    - [Capture]: the audio service of the controlled side on Linux: a thread
      that reads frames from the process with access to PulseAudio, the gate
      that stops sending silence, the input device of a voice call.
    - [Player]: what plays received sound on Linux; on other systems the samples
      go through [Buffer], a ring whose contents are thinned out when they stay
      too long.

    Opus ([Encoder], [AudioDecoder]), PulseAudio and the crate ringbuf are
    classes or arguments.  A sample is a binary32 number of [F32]. *)

From S2P Require Import Prelude RustStr F32 Messages Service.

#[local] Open Scope rust_scope.

(** ** The service *)
Module Capture.

Import Msg.

Definition PA_SAMPLE_RATE : Z := 48000.
Definition AUDIO_DATA_SIZE_U8 : Z := 960 * 4.
Definition MAX_AUDIO_ZERO_COUNT : Z := 800.

(** Little-endian bytes as samples ([slice::from_raw_parts] on an aligned
    copy). *)
Definition f32_of_bits (b : Z) : f32 :=
  let s := Z.testbit b 31 in
  let e := Z.land (Z.shiftr b 23) 255 in
  let m := Z.land b (2 ^ 23 - 1) in
  if e =? 0 then match m with Zpos m => S754_finite s m (-149) | _ => S754_zero s end
  else if e =? 255 then (if m =? 0 then S754_infinity s else S754_nan)
  else match m + 2 ^ 23 with Zpos m => S754_finite s m (e - 150) | _ => S754_nan end.

Fixpoint samples_of (l : list Z) : list f32 :=
  match l with
  | a :: b :: c :: d :: l => f32_of_bits (a + b * 2 ^ 8 + c * 2 ^ 16 + d * 2 ^ 24) :: samples_of l
  | _ => []
  end.

(** [x != 0.]: both zeros are equal to zero, NaN is not. *)
Definition nonzero (x : f32) : bool := match x with S754_zero _ => false | _ => true end.

Definition create_format_msg (sample_rate channels : Z) : Message := MMisc (AudioFormat sample_rate channels).

Section Encoder.
(** The encoder of Opus: a packet or an error, and its next state. *)
Context {E : Type} (encode_vec_float : E -> list f32 -> Z -> option blob * E).

(** The gate: whether the frame passes, and [AUDIO_ZERO_COUNT], a [u16]. *)
Definition zero_gate (data : list f32) (zero_count : Z) : bool * Z :=
  if existsb nonzero data then (true, 0)
  else if MAX_AUDIO_ZERO_COUNT <? zero_count then
    (false, if zero_count =? MAX_AUDIO_ZERO_COUNT + 1 then u16 (zero_count + 1) else zero_count)
  else (true, u16 (zero_count + 1)).

(** The message to send, the encoder, the counter. *)
Definition send_f32 (data : list f32) (e : E) (zero_count : Z) : option Message * E * Z :=
  let '(passes, zero_count) := zero_gate data zero_count in
  if passes then
    let '(r, e) := encode_vec_float e data (Z.of_nat (length data) * 6) in
    (MAudioFrame <$> r, e, zero_count)
  else (None, e, zero_count).

(** *** The thread *)

(** Outside [run], at the head of its loop, in the snapshot before and after
    the sending of the format, or waiting for data. *)
Inductive Phase : Type := Outside | Top | Found | Sent | Reading | Stopped.

Record State : Type := mkState {
  svc : Service.ServiceInner;
  encoder : E;
  AUDIO_ZERO_COUNT : Z;
  RESTARTING : bool;
  VOICE_CALL_INPUT_DEVICE : option string;
  phase : Phase }.

Definition with_phase (p : Phase) (s : State) : State :=
  mkState (svc s) (encoder s) (AUDIO_ZERO_COUNT s) (RESTARTING s) (VOICE_CALL_INPUT_DEVICE s) p.
Definition with_svc (sv : Service.ServiceInner) (s : State) : State :=
  mkState sv (encoder s) (AUDIO_ZERO_COUNT s) (RESTARTING s) (VOICE_CALL_INPUT_DEVICE s) (phase s).

Definition zero_audio_frame : list f32 := repeat (S754_zero false) (Z.to_nat (AUDIO_DATA_SIZE_U8 / 4)).

(** What one frame of the source leads to. *)
Definition on_raw (raw : result (list Z) string) (s : State) : option Message * State :=
  let play data :=
    let '(m, e, z) := send_f32 data (encoder s) (AUDIO_ZERO_COUNT s) in
    (m, mkState (svc s) e z (RESTARTING s) (VOICE_CALL_INPUT_DEVICE s) Top) in
  match raw with
  | Ok data =>
    if (Z.of_nat (length data) =? 0) then play zero_audio_frame
    else if negb (Z.of_nat (length data) =? AUDIO_DATA_SIZE_U8) then (None, with_phase Top s)
    else play (samples_of data)
  | Err _ => (None, with_phase Top s)
  end.

(** A step of the thread.  [init] is the outcome of connecting to the source
    and of making an encoder, [raw] what the source then gives. *)
Definition thread_step (init : result E string) (raw : result (list Z) string) (s : State)
  : list Service.Op * State :=
  match phase s with
  | Stopped => ([], s)
  | Outside =>
    if negb (Service.active (svc s)) then ([], with_phase Stopped s)
    else if Service.has_subscribes (svc s) then
      match init with
      | Ok e => ([], mkState (svc s) e 0 false (VOICE_CALL_INPUT_DEVICE s) Top)
      | Err _ => ([], mkState (svc s) (encoder s) (AUDIO_ZERO_COUNT s) false (VOICE_CALL_INPUT_DEVICE s) Outside)
      end
    else ([], s)
  | Top =>
    if Service.ok (svc s) && negb (RESTARTING s)
    then ([], with_phase (if Service.has_new_subscribes (svc s) then Found else Reading) s)
    else ([], with_phase Outside s)
  | Found => ([Service.OSendNew (create_format_msg PA_SAMPLE_RATE 2)], with_phase Sent s)
  | Sent => ([Service.OSwap], with_phase Reading s)
  | Reading =>
    let '(m, s) := on_raw raw s in
    (match m with Some m => [Service.OSend m] | None => [] end, s)
  end.

(** *** What others do *)

Definition restart (s : State) : State :=
  mkState (svc s) (encoder s) (AUDIO_ZERO_COUNT s) true (VOICE_CALL_INPUT_DEVICE s) (phase s).

Definition set_voice_call_input_device (device : option string) (set_if_present : bool) (s : State) : State :=
  if negb set_if_present && bool_decide (is_Some (VOICE_CALL_INPUT_DEVICE s)) then s
  else if bool_decide (VOICE_CALL_INPUT_DEVICE s = device) then s
  else restart (mkState (svc s) (encoder s) (AUDIO_ZERO_COUNT s) (RESTARTING s) device (phase s)).

(** [option_]: the option [audio-input] *)
Definition get_audio_input (option_ : string) (s : State) : string := default option_ (VOICE_CALL_INPUT_DEVICE s).

Inductive Event : Type :=
| Thread (init : result E string) (raw : result (list Z) string)
| Subscribe (c : Service.ConnInner) | Unsubscribe (i : Z) | Join
| Restart | SetDevice (device : option string) (set_if_present : bool).

(** The operations on the service an event performs. *)
Definition ops_of (ev : Event) (s : State) : list Service.Op * State :=
  match ev with
  | Thread init raw => thread_step init raw s
  | Subscribe c => ([Service.OSubscribe c], s)
  | Unsubscribe i => ([Service.OUnsubscribe i], s)
  | Join => ([Service.OJoin], s)
  | Restart => ([], restart s)
  | SetDevice d p => ([], set_voice_call_input_device d p s)
  end.

Definition step (ev : Event) (s : State) : list Service.Delivery * State :=
  let '(ops, s) := ops_of ev s in
  let '(ds, sv) := Service.run_ops ops (svc s) in
  (ds, with_svc sv s).

Fixpoint run (evs : list Event) (s : State) : list Service.Delivery * State :=
  match evs with
  | [] => ([], s)
  | ev :: evs =>
    let '(ds, s) := step ev s in
    let '(ds', s) := run evs s in (ds ++ ds', s)
  end.

Definition new_service (e : E) : State := mkState (Service.new "audio" true) e 0 false None Outside.

End Encoder.

End Capture.

(** ** Playing on Linux *)
Module Player.

Import Msg.

(** The decoder: made for a rate and one or two channels; a packet becomes
    samples, interleaved, with their number per channel. *)
Class Decoder (D : Type) := {
  decoder_new : Z -> bool -> option D;
  decode_float : D -> blob -> Z -> option (Z * list f32) * D }.

Section Play.
Context {D : Type} `{Decoder D}.

(** [alloc]: whether so many bytes can be had; a refusal aborts the process.
    [spec_valid], [simple_new]: PulseAudio on the number of channels, an 8-bit
    number, and the rate. *)
Context (alloc : Z -> bool) (spec_valid : Z -> Z -> bool) (simple_new : Z -> Z -> bool).

Record AudioHandler : Type := mkHandler {
  audio_decoder : option (D * list f32);
  simple : bool;
  sample_rate : Z * Z;
  channels : Z }.

Definition new : AudioHandler := mkHandler None false (0, 0) 0.

Definition start_audio (rate chans : Z) (h : AudioHandler) : AudioHandler :=
  if negb (spec_valid (u8 chans) rate) then h
  else if negb (simple_new (u8 chans) rate) then h
  else mkHandler (audio_decoder h) true (rate, rate) (channels h).

Definition buffer_bytes (rate chans : Z) : Z := rate * chans * 4.

Definition handle_format (rate chans : Z) (h : AudioHandler) : outcome AudioHandler :=
  match decoder_new rate (1 <? chans) with
  | Some d =>
    if alloc (buffer_bytes rate chans) then
      let h := mkHandler (Some (d, repeat (S754_zero false) (Z.to_nat (rate * chans)))) (simple h) (sample_rate h) (u16 chans) in
      Done (start_audio rate chans h)
    else Panic
  | None => Done h
  end.

(** The samples written; a read beyond the buffer has no result. *)
Definition handle_frame (data : blob) (h : AudioHandler) : outcome (list f32 * AudioHandler) :=
  if negb (simple h) then Done ([], h)
  else
    match audio_decoder h with
    | None => Done ([], h)
    | Some (d, buffer) =>
      let '(r, d) := decode_float d data (Z.of_nat (length buffer)) in
      match r with
      | Some (n, samples) =>
        let buffer := samples ++ drop (length samples) buffer in
        let h := mkHandler (Some (d, buffer)) (simple h) (sample_rate h) (channels h) in
        let n := u64 (n * channels h) in
        if n <=? Z.of_nat (length buffer) then Done (take (Z.to_nat n) buffer, h) else Panic
      | None => Done ([], mkHandler (Some (d, buffer)) (simple h) (sample_rate h) (channels h))
      end
    end.

(** The thread of [start_audio_thread]. *)
Inductive MediaData : Type := AudioFormat_ (rate chans : Z) | AudioFrame_ (data : blob) | OtherMedia.

Definition on_media (m : MediaData) (h : AudioHandler) : outcome (list f32 * AudioHandler) :=
  match m with
  | AudioFrame_ data => handle_frame data h
  | AudioFormat_ rate chans => let! h := handle_format rate chans h in Done ([], h)
  | OtherMedia => Done ([], h)
  end.

Fixpoint play (ms : list MediaData) (h : AudioHandler) : outcome (list f32 * AudioHandler) :=
  match ms with
  | [] => Done ([], h)
  | m :: ms =>
    let! r := on_media m h in
    let! r' := play ms r.2 in
    Done (r.1 ++ r'.1, r'.2)
  end.

End Play.

End Player.

(** ** The buffer of other systems *)
Module Buffer.

(** ringbuf's [HeapRb]: the oldest samples go first. *)
Class RingBuf (R : Type) := {
  rb_new : Z -> R;
  capacity : R -> Z;
  occupied_len : R -> Z;
  skip : Z -> R -> R;
  push_slice_overwrite : list f32 -> R -> R;
  pop_slice : Z -> R -> list f32 * R }.

Definition AUDIO_BUFFER_MS : Z := 3000.

Section Ring.
Context {R : Type} `{RingBuf R}.

(** The ring, samples per second, how often each level was seen; and the static
    variable [tms]. *)
Record AudioBuffer : Type := mkBuffer { ring : R; per_second : Z; seen : list Z; tms : Z }.

Definition default_ (tms : Z) : AudioBuffer :=
  mkBuffer (rb_new (48000 * 2 * AUDIO_BUFFER_MS / 1000)) (48000 * 2) (repeat 0 30) tms.

Definition resize (sample_rate channels : Z) (b : AudioBuffer) : AudioBuffer :=
  let cap := u64 (u64 (sample_rate * channels) * AUDIO_BUFFER_MS) / 1000 in
  if cap =? capacity (ring b) then b
  else mkBuffer (rb_new cap) (u64 (sample_rate * channels)) (seen b) (tms b).

Definition append_pcm2 (buffer : list f32) (r : R) : Z * R :=
  let cap := capacity r in
  let len := Z.of_nat (length buffer) in
  if cap <? len then (cap, push_slice_overwrite buffer r)
  else
    let having := occupied_len r + len in
    let r := if cap <? having then skip (having - cap) r else r in
    let r := push_slice_overwrite buffer r in
    (occupied_len r, r).

Definition at_ (i : nat) (l : list Z) : Z := default 0 (l !! i).

(** The loop over the levels: the statistics, the first level seen, the level
    seen most. *)
Definition scan (st : list Z * Z * nat) (i : nat) : list Z * Z * nat :=
  let '(seen, zero, max) := st in
  let zero := if (at_ i seen =? 0) && (zero =? Z.of_nat i) then zero + 1 else zero in
  if at_ max seen <? at_ i seen then (<[ max := 0 ]> seen, zero, i)
  else (<[ i := 0 ]> seen, zero, max).

Definition N : Z := 4.

(** [having / 0] panics; [dt] is the time in milliseconds. *)
Definition try_shrink (having dt : Z) (b : AudioBuffer) : outcome AudioBuffer :=
  if per_second b =? 0 then Panic
  else
    let i := Z.to_nat (Z.min 29 (u64 (having * 10) / per_second b)) in
    let seen := <[ i := u64 (at_ i (seen b) + 1) ]> (seen b) in
    if tms b =? 0 then Done (mkBuffer (ring b) (per_second b) seen dt)
    else if dt <? tms b + 12000 then Done (mkBuffer (ring b) (per_second b) seen (tms b))
    else
      let '(seen, zero, max) := fold_left scan (seq 0 30) (seen, 0, O) in
      let zero := zero * 2 / 3 in
      let seen := <[ max := 0 ]> seen in
      let max := Z.of_nat max in
      if max <? 6 then Done (mkBuffer (ring b) (per_second b) seen dt)
      else
        let max := if zero * N <? max then zero * N else max in
        let cap := capacity (ring b) in
        let having := occupied_len (ring b) in
        let n := (u64 (cap * max) / (30 * N) + 1) / 2 * 2 in
        let ring := if (n * 3 <? having) && (0 <? n) then skip n (ring b) else ring b in
        Done (mkBuffer ring (per_second b) seen dt).

Definition append_pcm (buffer : list f32) (dt : Z) (b : AudioBuffer) : outcome AudioBuffer :=
  let '(having, r) := append_pcm2 buffer (ring b) in
  try_shrink having dt (mkBuffer r (per_second b) (seen b) (tms b)).

(** The callback of the device asks for [n] samples: what the buffer has, then
    silence. *)
Definition fill_output (n : Z) (b : AudioBuffer) : list f32 * AudioBuffer :=
  let k := Z.min n (occupied_len (ring b)) in
  let '(elems, r) := if 0 <? k then pop_slice k (ring b) else ([], ring b) in
  (elems ++ repeat (S754_zero false) (Z.to_nat (n - Z.of_nat (length elems))),
   mkBuffer r (per_second b) (seen b) (tms b)).

End Ring.

End Buffer.

(** ** What holds of sound

    A connection hears the format before the first frame, however often it
    subscribes; silence is sent for 801 frames and then not until something is
    heard again; the buffer of a player keeps the newest samples in order. *)

Module CaptureFacts.

Import Msg Capture.

(** ** The format comes first *)

Section First.
Context {E : Type} (encode_vec_float : E -> list f32 -> Z -> option blob * E).

Lemma send_f32_frame data e z m : (send_f32 encode_vec_float data e z).1.1 = Some m -> exists d, m = MAudioFrame d.
Proof.
  unfold send_f32. destruct (zero_gate data z) as [[] z']; [|discriminate].
  destruct (encode_vec_float e data _) as [[d|] e']; [|discriminate]. cbn. intros [= <-]. eauto.
Qed.

Lemma on_raw_frame raw (s : State) m : (on_raw encode_vec_float raw s).1 = Some m -> exists d, m = MAudioFrame d.
Proof.
  unfold on_raw. destruct raw as [data|]; [|discriminate].
  destruct (Z.of_nat (length data) =? 0).
  - pose proof (send_f32_frame zero_audio_frame (encoder s) (AUDIO_ZERO_COUNT s) m) as F.
    destruct (send_f32 encode_vec_float _ _ _) as [[? ?] ?]. exact F.
  - destruct (negb _); [discriminate|].
    pose proof (send_f32_frame (samples_of data) (encoder s) (AUDIO_ZERO_COUNT s) m) as F.
    destruct (send_f32 encode_vec_float _ _ _) as [[? ?] ?]. exact F.
Qed.

Lemma on_raw_phase raw (s : State) : phase (on_raw encode_vec_float raw s).2 = Top.
Proof.
  unfold on_raw. destruct raw as [data|]; [|reflexivity].
  destruct (Z.of_nat (length data) =? 0); [|destruct (negb _); [reflexivity|]];
    destruct (send_f32 encode_vec_float _ _ _) as [[[m|] ?] ?]; reflexivity.
Qed.

(** The thread leaves the service to its operations. *)
Lemma ops_svc ev (s : State) : svc (ops_of encode_vec_float ev s).2 = svc s.
Proof.
  destruct ev as [init raw|c|i| | |d p]; try reflexivity; cbn.
  - unfold thread_step. destruct (phase s).
    + destruct (negb _); [reflexivity|]. destruct (Service.has_subscribes _), init; reflexivity.
    + destruct (_ && _); reflexivity.
    + reflexivity.
    + reflexivity.
    + unfold on_raw. destruct raw as [data|]; [|reflexivity].
      destruct (Z.of_nat (length data) =? 0); [|destruct (negb _); [reflexivity|]];
        destruct (send_f32 encode_vec_float _ _ _) as [[[m|] ?] ?]; reflexivity.
    + reflexivity.
  - unfold set_voice_call_input_device. destruct (_ && _); [reflexivity|]. destruct (bool_decide _); reflexivity.
Qed.

(** Nothing has been heard: not live, or without a channel. *)
Definition mute (v : Service.View) : Prop :=
  match v with Service.Off => True | Service.Pending c | Service.Live c => Service.tx c = None end.

Definition unheard (p : Phase) (v : Service.View) : Prop :=
  match v with Service.Live _ => mute v | _ => p = Sent -> mute v end.

Definition is_format (d : Service.Delivery) : Prop := Service.d_msg d = create_format_msg PA_SAMPLE_RATE 2.

(** The connection does not subscribe between the sending of the format and the
    swap of a snapshot. *)
Definition timely (i : Z) (ev : Event (E := E)) (s : State (E := E)) : Prop :=
  match ev with Subscribe c => Service.id c = i -> phase s <> Sent | _ => True end.

Fixpoint in_time (i : Z) (evs : list (Event (E := E))) (s : State (E := E)) : Prop :=
  match evs with
  | [] => True
  | ev :: evs => timely i ev s /\ in_time i evs (step encode_vec_float ev s).2
  end.

Lemma mute_send c m : Service.tx c = None -> Service.conn_send c (create_format_msg m 2) = [].
Proof. intros H. unfold Service.conn_send. cbn. by rewrite H. Qed.

(** The view of a connection in one event. *)
Lemma view_unheard i ev (s : State) v : timely i ev s -> unheard (phase s) v ->
  let '(ops, s') := ops_of encode_vec_float ev s in
  ((Service.view_run true i ops v).1 = [] /\ unheard (phase s') (Service.view_run true i ops v).2) \/
  exists d l, (Service.view_run true i ops v).1 = d :: l /\ is_format d.
Proof.
  intros Ht Hu. destruct ev as [init raw|c|j| | |d p]; cbn [ops_of].
  - unfold thread_step. destruct (phase s) eqn:Ep.
    + assert (forall q, q <> Sent -> unheard q v) as Hq by (intros q Hq; destruct v; cbn in *; done).
      destruct (negb _); [left; split; [done|by apply Hq]|].
      destruct (Service.has_subscribes _); [|left; split; [done|cbn; rewrite Ep; by apply Hq]].
      destruct init; left; (split; [done|by apply Hq]).
    + assert (forall q, q <> Sent -> unheard q v) as Hq by (intros q Hq; destruct v; cbn in *; done).
      destruct (_ && _); left; (split; [done|]); [destruct (Service.has_new_subscribes _)|]; by apply Hq.
    + destruct v as [|c|c]; cbn in Hu |- *.
      * left. by split.
      * destruct (Service.tx c) as [ch|] eqn:Etx.
        -- right. unfold Service.conn_send. cbn. rewrite Etx. eexists _, _. by split.
        -- left. rewrite mute_send by done. by split.
      * left. by split.
    + left. destruct v as [|c|c]; cbn in Hu |- *; split; try done. by apply Hu.
    + assert (forall q, q <> Sent -> unheard q v) as Hq by (intros q Hq; destruct v; cbn in *; done).
      pose proof (on_raw_frame raw s) as F. pose proof (on_raw_phase raw s) as P.
      destruct (on_raw encode_vec_float raw s) as [[m|] s']; cbn [fst snd] in F, P; left.
      * destruct (F m eq_refl) as [d ->]. rewrite P. destruct v as [|c|c]; cbn in Hu |- *; try (split; done).
        unfold Service.conn_send. cbn. by rewrite Hu.
      * rewrite P. split; [done|by apply Hq].
    + left. split; [done|]. cbn. by rewrite Ep.
  - left. cbn. destruct v as [|c'|c']; cbn in Ht, Hu |- *; try done;
      destruct (Z.eqb_spec (Service.id c) i) as [Hi|Hi]; cbn; split; try done; intros Hp; by destruct (Ht Hi).
  - left. cbn. split; [by destruct v|]. destruct v; cbn; destruct (Z.eqb _ _); done.
  - left. cbn. by destruct v.
  - left. by destruct v.
  - left. split; [done|]. unfold set_voice_call_input_device.
    destruct (_ && _); [done|]. destruct (bool_decide _); [done|]. by destruct v.
Qed.

Lemma step_unheard i ev (s : State) :
  Service.wf (svc s) -> Service.need_snapshot (svc s) = true -> timely i ev s ->
  unheard (phase s) (Service.view i (svc s)) ->
  let '(ds, s') := step encode_vec_float ev s in
  Service.wf (svc s') /\ Service.need_snapshot (svc s') = true /\
  ((Service.deliveries_to i ds = [] /\ unheard (phase s') (Service.view i (svc s')))
   \/ exists d l, Service.deliveries_to i ds = d :: l /\ is_format d).
Proof.
  intros Hw Hn Ht Hu. unfold step. pose proof (view_unheard i ev s _ Ht Hu) as V. pose proof (ops_svc ev s) as Es.
  destruct (ops_of encode_vec_float ev s) as [ops s1]. cbn in Es. rewrite Es.
  pose proof (Service.run_ops_simulates ops (svc s) i Hw) as Sim. rewrite Hn in Sim. rewrite Sim in V. cbn in V.
  pose proof (Service.run_ops_wf ops _ Hw) as W. pose proof (Service.need_snapshot_run ops (svc s)) as M.
  destruct (Service.run_ops ops (svc s)) as [ds sv]. cbn in V, W, M |- *. split; [done|]. split; [congruence|exact V].
Qed.

End First.

(** Whatever threads do, from any moment at which a connection does not listen to
    the service, the first thing it then receives is the format of the sound,
    unless it subscribes between the sending of the format to those who wait
    and their move to the listeners. *)
Theorem sound_starts_with_format {E} (encode_vec_float : E -> list f32 -> Z -> option blob * E)
    (evs : list Event) (s : State) (i : Z) :
  Service.wf (svc s) -> Service.need_snapshot (svc s) = true -> Service.view i (svc s) = Service.Off ->
  in_time encode_vec_float i evs s ->
  match Service.deliveries_to i (run encode_vec_float evs s).1 with
  | [] => True
  | d :: _ => Service.d_msg d = create_format_msg PA_SAMPLE_RATE 2
  end.
Proof.
  intros Hw Hn Hv. assert (Hu : unheard (phase s) (Service.view i (svc s))) by (by rewrite Hv).
  clear Hv. revert s Hw Hn Hu. induction evs as [|ev evs IH]; intros s Hw Hn Hu Ht; [exact I|]. cbn [run in_time] in *.
  destruct Ht as [Ht Hts].
  pose proof (step_unheard encode_vec_float i ev s Hw Hn Ht Hu) as V.
  destruct (step encode_vec_float ev s) as [ds s1]. destruct V as (W & M & V).
  specialize (IH s1 W M). destruct (run encode_vec_float evs s1) as [ds' s2]. cbn [fst snd] in IH, Hts |- *.
  rewrite Service.deliveries_to_app. destruct V as [[-> U]|(d & l & -> & F)]; [exact (IH U Hts)|exact F].
Qed.

Definition demo_step : Event (E := unit) := Thread (Ok tt) (Ok []).

Definition demo_listener (i : Z) : Service.ConnInner := Service.mkConnInner i (Some i) None.

Definition demo_events : list (Event (E := unit)) :=
  [Subscribe (demo_listener 7); demo_step; demo_step; demo_step; demo_step; demo_step].

Lemma sound_starts_with_format_witness :
  match Service.deliveries_to 7 (run (fun e _ _ => (Some [1], e)) demo_events (new_service tt)).1 with
  | [] => True
  | d :: _ => Service.d_msg d = create_format_msg PA_SAMPLE_RATE 2
  end.
Proof.
  apply (sound_starts_with_format (fun e _ _ => (Some [1], e)) demo_events (new_service tt) 7).
  - apply Service.wf_new_service.
  - reflexivity.
  - reflexivity.
  - cbn. repeat split; discriminate.
Defined.

(** Two messages reach the connection in that run; one that subscribes while
    the format is on its way gets sound without a format. *)
Example sound_device_run :
  map Service.d_msg (run (fun e _ _ => (Some [1], e)) demo_events (new_service tt)).1
    = [create_format_msg 48000 2; MAudioFrame [1]]
  /\ map Service.d_msg (Service.deliveries_to 8 (run (fun e _ _ => (Some [1], e))
       [Subscribe (demo_listener 7); demo_step; demo_step; demo_step; Subscribe (demo_listener 8); demo_step; demo_step]
       (new_service tt)).1) = [MAudioFrame [1]].
Proof. vm_compute. split; reflexivity. Qed.

(** A source that has gone does not end the loop: it goes round without
    waiting. *)
Lemma dead_source_keeps_running {E} (encode_vec_float : E -> list f32 -> Z -> option blob * E) init e (s : State) :
  phase s = Reading -> phase (thread_step encode_vec_float init (Err e) s).2 = Top /\
  (thread_step encode_vec_float init (Err e) s).1 = [].
Proof. intros Hp. unfold thread_step. rewrite Hp. auto. Qed.

(** ** The gate *)

Fixpoint gate_frames (frames : list (list f32)) (zero_count : Z) : list bool * Z :=
  match frames with
  | [] => ([], zero_count)
  | f :: frames =>
    let '(b, z) := zero_gate f zero_count in
    let '(bs, z) := gate_frames frames z in (b :: bs, z)
  end.

(** The reference: [n] silent frames have come directly before. *)
Fixpoint hold_time (n : nat) (frames : list (list f32)) : list bool :=
  match frames with
  | [] => []
  | f :: frames =>
    if existsb nonzero f then true :: hold_time 0 frames
    else (n <=? 800)%nat :: hold_time (S n) frames
  end.

(** The gate lets every frame through in which something is to be heard and
    the first 801 silent frames of every silence; its 16-bit counter does not
    overflow. *)
Theorem silence_gate (frames : list (list f32)) :
  (gate_frames frames 0).1 = hold_time 0 frames /\ 0 <= (gate_frames frames 0).2 <= 802.
Proof.
  enough (H : forall n z, z = Z.min (Z.of_nat n) 802 ->
            (gate_frames frames z).1 = hold_time n frames /\ 0 <= (gate_frames frames z).2 <= 802)
    by exact (H O 0 eq_refl).
  induction frames as [|f frames IH]; intros n z ->; [cbn; split; [reflexivity|lia]|].
  cbn [gate_frames hold_time]. unfold zero_gate, MAX_AUDIO_ZERO_COUNT. destruct (existsb nonzero f).
  - destruct (IH O 0 eq_refl) as [H1 H2]. destruct (gate_frames frames 0) as [bs z]. cbn in *. rewrite H1. auto.
  - destruct (Z.ltb_spec 800 (Z.min (Z.of_nat n) 802)) as [L|L].
    + assert (Ez : (if Z.min (Z.of_nat n) 802 =? 800 + 1 then u16 (Z.min (Z.of_nat n) 802 + 1) else Z.min (Z.of_nat n) 802)
                   = Z.min (Z.of_nat (S n)) 802).
      { destruct (Z.eqb_spec (Z.min (Z.of_nat n) 802) (800 + 1)) as [Q|Q]; [rewrite wrap_small by lia; lia|lia]. }
      rewrite Ez. destruct (IH (S n) _ eq_refl) as [H1 H2].
      destruct (gate_frames frames (Z.min (Z.of_nat (S n)) 802)) as [bs z]. cbn in H1, H2 |- *. rewrite H1.
      rewrite (proj2 (Nat.leb_gt n 800)) by lia. auto.
    + assert (Ez : u16 (Z.min (Z.of_nat n) 802 + 1) = Z.min (Z.of_nat (S n)) 802).
      { rewrite wrap_small by lia. lia. }
      rewrite Ez. destruct (IH (S n) _ eq_refl) as [H1 H2].
      destruct (gate_frames frames (Z.min (Z.of_nat (S n)) 802)) as [bs z]. cbn in H1, H2 |- *. rewrite H1.
      rewrite (proj2 (Nat.leb_le n 800)) by lia. auto.
Qed.

End CaptureFacts.

(** ** The buffer *)
Module BufferFacts.

Import Buffer.

(** The documented behaviour of ringbuf. *)
Class RingLaws (R : Type) `{RingBuf R} := {
  contents : R -> list f32;
  contents_new c : contents (rb_new c) = [];
  occupied_contents r : occupied_len r = Z.of_nat (length (contents r));
  capacity_new c : 0 <= c -> capacity (rb_new c) = c;
  capacity_skip n r : capacity (skip n r) = capacity r;
  capacity_push l r : capacity (push_slice_overwrite l r) = capacity r;
  capacity_pop n r : capacity (pop_slice n r).2 = capacity r;
  contents_skip n r : 0 <= n -> contents (skip n r) = drop (Z.to_nat n) (contents r);
  contents_push l r : contents (push_slice_overwrite l r)
    = drop (length (contents r ++ l) - Z.to_nat (capacity r)) (contents r ++ l);
  contents_pop n r : 0 <= n <= occupied_len r ->
    (pop_slice n r).1 = take (Z.to_nat n) (contents r) /\ contents (pop_slice n r).2 = drop (Z.to_nat n) (contents r) }.

Inductive Op : Type := Append (l : list f32) (dt : Z) | Output (n : Z).

Section Ring.
Context {R : Type} `{RL : RingLaws R}.

(** The samples appended, those handed to the device without the silence that
    fills up, and the buffer. *)
Fixpoint run (ops : list Op) (b : AudioBuffer) : outcome (list f32 * list f32 * AudioBuffer) :=
  match ops with
  | [] => Done ([], [], b)
  | Append l dt :: ops =>
    let! b := append_pcm l dt b in
    let! r := run ops b in
    let '(a, p, b) := r in Done (l ++ a, p, b)
  | Output n :: ops =>
    let '(out, b') := fill_output n b in
    let! r := run ops b' in
    let '(a, p, b'') := r in
    Done (a, take (Z.to_nat (Z.min n (occupied_len (ring b)))) out ++ p, b'')
  end.

(** What was appended so far, what was played and what is in the ring. *)
Definition kept (appended played : list f32) (b : AudioBuffer) : Prop :=
  per_second b <> 0 /\ capacity (ring b) = 288000 /\ Z.of_nat (length (contents (ring b))) <= capacity (ring b) /\
  sublist (played ++ contents (ring b)) appended /\ suffix (contents (ring b)) appended.

Lemma suffix_drop_ {A} k (l : list A) : suffix (drop k l) l.
Proof. exists (take k l). symmetry. apply take_drop. Qed.

Lemma sublist_drop_ {A} k (l : list A) : sublist (drop k l) l.
Proof. rewrite <- (take_drop k l) at 2. apply sublist_inserts_l. reflexivity. Qed.

(** Dropping the oldest keeps the rest. *)
Lemma kept_drop a p b k r dt seen :
  kept a p b -> capacity r = capacity (ring b) -> contents r = drop k (contents (ring b)) ->
  kept a p (mkBuffer r (per_second b) seen dt).
Proof.
  intros (K1 & K2 & K3 & K4 & K5) Hc Hr. unfold kept. cbn. rewrite Hc, Hr.
  repeat split; [exact K1|exact K2|rewrite length_drop; lia| |].
  - transitivity (p ++ contents (ring b)); [|exact K4]. apply sublist_app; [reflexivity|apply sublist_drop_].
  - transitivity (contents (ring b)); [apply suffix_drop_|exact K5].
Qed.

Lemma kept_same a p b dt seen : kept a p b -> kept a p (mkBuffer (ring b) (per_second b) seen dt).
Proof. intros K. exact K. Qed.

Lemma append_kept a p l b dt seen :
  kept a p b -> kept (a ++ l) p (mkBuffer (append_pcm2 l (ring b)).2 (per_second b) seen dt).
Proof.
  intros (K1 & K2 & K3 & K4 & K5).
  assert (G : forall r k, capacity r = capacity (ring b) -> contents r = drop k (contents (ring b)) ->
    kept (a ++ l) p (mkBuffer (push_slice_overwrite l r) (per_second b) seen dt)).
  { intros r k Hc Hr. unfold kept. cbn. rewrite capacity_push, contents_push, Hc, Hr.
    repeat split; [exact K1|exact K2|rewrite length_drop; lia| |].
    - transitivity (p ++ drop k (contents (ring b)) ++ l);
        [apply sublist_app; [reflexivity|apply sublist_drop_]|].
      rewrite app_assoc. apply sublist_app; [|reflexivity].
      transitivity (p ++ contents (ring b)); [|exact K4]. apply sublist_app; [reflexivity|apply sublist_drop_].
    - transitivity (drop k (contents (ring b)) ++ l); [apply suffix_drop_|].
      destruct (suffix_drop_ k (contents (ring b))) as [u Hu], K5 as [v Hv].
      exists (v ++ u). rewrite Hv, Hu at 1. rewrite <- !app_assoc. reflexivity. }
  unfold append_pcm2. destruct (capacity (ring b) <? Z.of_nat (length l)); cbn [snd].
  - apply (G (ring b) O); reflexivity.
  - destruct (Z.ltb_spec (capacity (ring b)) (occupied_len (ring b) + Z.of_nat (length l))) as [L|L]; cbn [snd].
    + eapply G; [apply capacity_skip|apply contents_skip; lia].
    + apply (G (ring b) O); reflexivity.
Qed.

Lemma shrink_kept a p h dt b :
  kept a p b -> exists b', try_shrink h dt b = Done b' /\ kept a p b' /\
    (ring b' = ring b \/ exists n, 0 < n /\ Z.even n = true /\ n * 3 < occupied_len (ring b) /\ ring b' = skip n (ring b)
      /\ tms b + 12000 <= dt).
Proof.
  intros K. unfold try_shrink. destruct (Z.eqb_spec (per_second b) 0) as [|Hp]; [destruct K; contradiction|].
  set (seen1 := <[ _ := _ ]> (seen b)).
  destruct (tms b =? 0); [eexists; split; [reflexivity|]; split; [exact K|left; reflexivity]|].
  destruct (Z.ltb_spec dt (tms b + 12000)); [eexists; split; [reflexivity|]; split; [exact K|left; reflexivity]|].
  destruct (fold_left scan (seq 0 30) (seen1, 0, O)) as [[seen2 zero] max].
  destruct (Z.of_nat max <? 6); [eexists; split; [reflexivity|]; split; [exact K|left; reflexivity]|].
  set (m := if _ <? _ then _ else _). set (n := (_ / (30 * N) + 1) / 2 * 2).
  eexists. split; [reflexivity|]. cbn [ring].
  destruct ((n * 3 <? occupied_len (ring b)) && (0 <? n)) eqn:C.
  - apply andb_true_iff in C as [C1%Z.ltb_lt C2%Z.ltb_lt]. split.
    + apply (kept_drop a p b (Z.to_nat n)); [exact K|apply capacity_skip|apply contents_skip; lia].
    + right. exists n. repeat split; try assumption. unfold n. rewrite Z.even_mul. apply orb_true_r.
  - split; [exact K|left; reflexivity].
Qed.

Lemma output_kept a p n b : kept a p b ->
  kept a (p ++ take (Z.to_nat (Z.min n (occupied_len (ring b)))) (fill_output n b).1) (fill_output n b).2.
Proof.
  intros K. unfold fill_output. set (k := Z.min n (occupied_len (ring b))).
  destruct (Z.ltb_spec 0 k) as [L|L].
  - assert (Hk : 0 <= k <= occupied_len (ring b)) by lia. destruct (contents_pop k (ring b) Hk) as [P1 P2].
    pose proof (capacity_pop k (ring b)) as P3. destruct (pop_slice k (ring b)) as [elems r]. cbn [fst snd] in *.
    assert (El : length elems = Z.to_nat k).
    { rewrite P1, length_take. rewrite occupied_contents in Hk. lia. }
    rewrite <- El, take_app_length. subst elems. destruct K as (K1 & K2 & K3 & K4 & K5).
    unfold kept. cbn. rewrite P2, P3. repeat split; [exact K1|exact K2|rewrite length_drop; lia| |].
    + rewrite <- app_assoc, take_drop. exact K4.
    + transitivity (contents (ring b)); [apply suffix_drop_|exact K5].
  - cbn [fst snd]. replace (Z.to_nat k) with O by lia. rewrite take_0, app_nil_r. exact (kept_same a p b _ _ K).
Qed.

Lemma run_kept ops : forall a p b, kept a p b ->
  exists a' p' b', run ops b = Done (a', p', b') /\ kept (a ++ a') (p ++ p') b'.
Proof using RL.
  induction ops as [|[l dt|n] ops IH]; intros a p b K.
  - exists [], [], b. rewrite !app_nil_r. auto.
  - cbn [run]. unfold append_pcm.
    pose proof (append_kept a p l b (tms b) (seen b) K) as K1.
    destruct (append_pcm2 l (ring b)) as [h r]. cbn [snd] in K1.
    destruct (shrink_kept (a ++ l) p h dt _ K1) as (b1 & E1 & K2 & _). rewrite E1. cbn [outcome_bind].
    destruct (IH _ _ _ K2) as (a' & p' & b' & E2 & K3). rewrite E2. cbn [outcome_bind].
    exists (l ++ a'), p', b'. rewrite app_assoc. auto.
  - cbn [run]. pose proof (output_kept a p n b K) as K1. destruct (fill_output n b) as [out b1]. cbn [fst snd] in K1.
    destruct (IH _ _ _ K1) as (a' & p' & b' & E2 & K3). rewrite E2. cbn [outcome_bind].
    eexists a', _, b'. split; [reflexivity|]. rewrite app_assoc. exact K3.
Qed.

End Ring.

(** Whatever arrives and whenever the device asks, the buffer never panics
    and never exceeds three seconds; it holds the newest samples, and what has
    been played before them is a part of what arrived, in order. *)
Theorem buffer_keeps_newest {R} `{RingLaws R} (ops : list Op) (t0 : Z) :
  exists appended played b,
    run ops (default_ t0) = Done (appended, played, b) /\
    suffix (contents (ring b)) appended /\ sublist (played ++ contents (ring b)) appended /\
    Z.of_nat (length (contents (ring b))) <= 288000.
Proof.
  assert (Hc : capacity (ring (default_ (R := R) t0)) = 288000) by (apply (capacity_new 288000); lia).
  assert (K : kept (R := R) [] [] (default_ t0)).
  { unfold kept. rewrite Hc. unfold default_. cbn [ring per_second]. rewrite contents_new. cbn.
    repeat split; try lia; [constructor|exists []; reflexivity]. }
  destruct (run_kept ops [] [] (default_ t0) K) as (a & p & b & E & (K1 & K2 & K3 & K4 & K5)).
  exists a, p, b. split; [exact E|]. split; [exact K5|]. split; [exact K4|].
  lia.
Qed.

(** Only the oldest are dropped to catch up: fewer than a third, an even number,
    and not more often than every twelve seconds. *)
Lemma catching_up_is_gentle {R} `{RingLaws R} a p h dt (b : AudioBuffer) :
  kept a p b -> exists b', try_shrink h dt b = Done b' /\
    (ring b' = ring b \/ exists n, 0 < n /\ Z.even n = true /\ n * 3 < occupied_len (ring b)
       /\ ring b' = skip n (ring b) /\ tms b + 12000 <= dt).
Proof. intros K. destruct (shrink_kept a p h dt b K) as (b' & E & _ & D). eauto. Qed.

(** A ring as a list with its capacity. *)
#[local] Instance list_ring : RingBuf (list f32 * Z) := {|
  rb_new c := ([], c);
  capacity r := r.2;
  occupied_len r := Z.of_nat (length r.1);
  skip n r := (drop (Z.to_nat n) r.1, r.2);
  push_slice_overwrite l r := (drop (length (r.1 ++ l) - Z.to_nat r.2) (r.1 ++ l), r.2);
  pop_slice n r := (take (Z.to_nat n) r.1, (drop (Z.to_nat n) r.1, r.2)) |}.

#[local] Instance list_ring_laws : RingLaws (list f32 * Z).
Proof. refine (Build_RingLaws _ _ (fun r => r.1) _ _ _ _ _ _ _ _ _); intros; cbn; auto. Defined.

Lemma buffer_keeps_newest_witness :
  exists appended played (b : AudioBuffer (R := list f32 * Z)),
    run [Append [S754_zero true; S754_nan] 5; Output 1; Append [S754_nan] 6; Output 9] (default_ 0) = Done (appended, played, b) /\
    suffix (contents (ring b)) appended /\ sublist (played ++ contents (ring b)) appended.
Proof.
  destruct (buffer_keeps_newest (R := list f32 * Z)
    [Append [S754_zero true; S754_nan] 5; Output 1; Append [S754_nan] 6; Output 9] 0) as (a & p & b & E & S1 & S2 & _).
  exists a, p, b. auto.
Defined.

End BufferFacts.

(** ** Playing *)
Module PlayerFacts.

Import Msg Player.

(** Opus: rates of at most 48000, packets of at most 120 milliseconds, which
    fit the buffer handed over. *)
Class DecoderLaws (D : Type) `{Decoder D} := {
  rate_of : D -> Z;
  rate_new rate stereo d : decoder_new rate stereo = Some d -> rate_of d = rate /\ 8000 <= rate <= 48000;
  decode_fits d data len r d' : decode_float d data len = (r, d') ->
    rate_of d' = rate_of d /\
    match r with
    | Some (n, samples) => 0 <= n /\ n * 1000 <= 120 * rate_of d /\ Z.of_nat (length samples) <= len
    | None => True
    end }.

Section Play.
Context {D : Type} `{DecoderLaws D} (alloc : Z -> bool) (spec_valid simple_new : Z -> Z -> bool).

(** The buffer holds a second of sound for the channels announced. *)
Definition sized (h : AudioHandler (D := D)) : Prop :=
  match audio_decoder h with
  | Some (d, buffer) =>
    0 <= rate_of d <= 48000 /\ 0 <= channels h < 2 ^ 16 /\ rate_of d * channels h <= Z.of_nat (length buffer)
  | None => True
  end.

Lemma handle_format_sized rate chans h h' : 0 <= chans ->
  sized h -> handle_format alloc spec_valid simple_new rate chans h = Done h' -> sized h'.
Proof.
  intros Hc Hs. unfold handle_format. destruct (decoder_new rate (1 <? chans)) as [d|] eqn:E; [|intros [= <-]; exact Hs].
  destruct (alloc _); [|discriminate]. intros [= <-].
  assert (Hn : sized (mkHandler (Some (d, repeat (S754_zero false) (Z.to_nat (rate * chans)))) (simple h) (sample_rate h) (u16 chans))).
  { unfold sized. cbn. destruct (rate_new _ _ _ E) as [-> Hr]. rewrite repeat_length. unfold wrap.
    pose proof (Z.mod_pos_bound chans (2 ^ 16)) as B. pose proof (Z.mod_le chans (2 ^ 16)) as M. repeat split; try lia. nia. }
  unfold start_audio. destruct (negb _); [exact Hn|]. destruct (negb _); exact Hn.
Qed.

Lemma handle_frame_sized data h : sized h ->
  exists out h', handle_frame data h = Done (out, h') /\ sized h'.
Proof.
  intros Hs. unfold handle_frame. destruct (negb (simple h)); [eauto|].
  unfold sized in Hs. destruct (audio_decoder h) as [[d buffer]|] eqn:E; [|exists [], h; unfold sized; rewrite E; auto].
  destruct Hs as (R & C & B). pose proof (decode_fits d data (Z.of_nat (length buffer))) as F.
  destruct (decode_float d data _) as [r d']. destruct (F r d' eq_refl) as [F1 F2].
  destruct r as [[n samples]|].
  - destruct F2 as (N1 & N2 & N3). cbn [channels].
    assert (El : length (samples ++ drop (length samples) buffer) = length buffer)
      by (rewrite length_app, length_drop; lia).
    assert (Hn : 0 <= n * channels h <= Z.of_nat (length buffer)) by nia.
    assert (Hu : u64 (n * channels h) = n * channels h) by (apply wrap_small; nia).
    rewrite Hu, El, (proj2 (Z.leb_le _ _)) by lia.
    eexists _, _. split; [reflexivity|]. unfold sized. cbn. rewrite F1, El. auto.
  - eexists _, _. split; [reflexivity|]. unfold sized. cbn. rewrite F1. auto.
Qed.

End Play.

(** Whatever formats and packets the other side sends, playing never reads
    beyond the buffer of samples: only the allocation for a format can fail. *)
Theorem playing_stays_in_buffer {D} `{DecoderLaws D} (alloc : Z -> bool) (spec_valid simple_new : Z -> Z -> bool)
    (ms : list MediaData) :
  (forall z, alloc z = true) ->
  Forall (fun m => match m with AudioFormat_ _ chans => 0 <= chans | _ => True end) ms ->
  exists out h, play alloc spec_valid simple_new ms (new (D := D)) = Done (out, h).
Proof.
  intros Ha Hm. assert (Hs : sized (new (D := D))) by exact I. revert Hs. generalize (new (D := D)).
  induction Hm as [|m ms Hc Hm IH]; intros h Hs; [eexists _, _; reflexivity|]. cbn [play].
  assert (G : exists out h', on_media alloc spec_valid simple_new m h = Done (out, h') /\ sized h').
  { destruct m as [rate chans|data|]; cbn [on_media].
    - destruct (handle_format alloc spec_valid simple_new rate chans h) as [h'|] eqn:E.
      + exists [], h'. split; [reflexivity|]. exact (handle_format_sized _ _ _ _ _ h h' Hc Hs E).
      + exfalso. unfold handle_format in E. rewrite Ha in E. destruct (decoder_new _ _); discriminate.
    - apply handle_frame_sized, Hs.
    - eauto. }
  destruct G as (out & h' & E & Hs'). rewrite E. cbn [outcome_bind snd fst].
  destruct (IH h' Hs') as (out2 & h2 & E2). rewrite E2. cbn [outcome_bind]. eauto.
Qed.

(** The number of channels is not checked: one message asks for 800 terabytes,
    more than a process can have. *)
Lemma format_exhausts_memory {D} `{Decoder D} alloc spec_valid simple_new (h : AudioHandler (D := D)) d :
  decoder_new 48000 true = Some d -> (forall z, 2 ^ 47 <= z -> alloc z = false) ->
  handle_format alloc spec_valid simple_new 48000 (2 ^ 32 - 1) h = Panic.
Proof.
  intros Hd Ha. unfold handle_format. change (1 <? 2 ^ 32 - 1) with true. rewrite Hd.
  rewrite Ha; [reflexivity|]. unfold buffer_bytes. lia.
Qed.

(** A decoder of a click of one sample. *)
#[local] Instance click : Decoder Z := {|
  decoder_new rate _ := if (8000 <=? rate) && (rate <=? 48000) then Some rate else None;
  decode_float d _ len := (if 2 <=? len then Some (1, [S754_nan; S754_nan]) else None, d) |}.

#[local] Instance click_laws : DecoderLaws Z.
Proof.
  refine (Build_DecoderLaws _ _ (fun d => Z.max 8000 (Z.min d 48000)) _ _).
  - intros rate stereo d. cbn. destruct (Z.leb_spec 8000 rate), (Z.leb_spec rate 48000); cbn; try discriminate.
    intros [= <-]. lia.
  - intros d data len r d'. cbn. intros [= <- <-]. split; [reflexivity|].
    destruct (Z.leb_spec 2 len); [cbn [length]; lia|exact I].
Defined.

Lemma playing_stays_in_buffer_witness :
  exists out h, play (D := Z) (fun _ => true) (fun _ _ => true) (fun _ _ => true)
    [AudioFormat_ 8000 2; AudioFrame_ [1]; AudioFormat_ 7 1; OtherMedia] new = Done (out, h).
Proof.
  apply (playing_stays_in_buffer (D := Z) (fun _ => true) (fun _ _ => true) (fun _ _ => true)
    [AudioFormat_ 8000 2; AudioFrame_ [1]; AudioFormat_ 7 1; OtherMedia]).
  - reflexivity.
  - repeat constructor; lia.
Defined.

End PlayerFacts.
