(* ===== verification/Recorder.v ===== *)
(** * Recording of video and its upload ([libs/scrap/src/common/record.rs],
    [src/hbbs_http/record_upload.rs])

    - [Rec]: the recorder of a session or a service: it starts a file for the
      first frame and for every change of the size or format, finishes files,
      and says what it does ([RecordState]).
    - [Upload]: the thread that sends the parts of the file that is being
      written to the API server.

    The muxer of the crate webm and the disk answer each call with success or
    failure; those answers, the clock, and the contents of the file the uploader
    sees are inputs.  The model is a build without hardware codecs. *)

From S2P Require Import Prelude RustStr VideoPlayer.
From Stdlib Require Import Sorted.

#[local] Open Scope rust_scope.

Module Rec.

Import Player.

Inductive RecordState : Type := NewFile (filename : string) | NewFrame | WriteTail | RemoveFile.

Record Frame : Type := mkFrame { pts : Z; key : bool; data : list Z }.

Definition MIN_SECS : Z := 1.

(** ** [WebmRecorder]

    A frame as it is given to the muxer: the time in nanoseconds, a [u64] that a
    release build wraps around, and the muxer's answer. *)
Record Given : Type := mkGiven { g_frame : Frame; g_time : Z; g_ok : bool }.

Definition muxer_time (p : Z) : Z := wrap 64 (wrap 64 p * 1000000).

(** [frames]: what was given to the muxer *)
Record WebmRecorder : Type := mkWebm {
  w_filename : string; w_key : bool; w_written : bool; w_start : Z; frames : list Given }.

Definition write_video (f : Frame) (ok : bool) (w : WebmRecorder) : WebmRecorder :=
  let k := w_key w || key f in
  if k then mkWebm (w_filename w) k (w_written w || ok) (w_start w) (frames w ++ [mkGiven f (muxer_time (pts f)) ok])
  else mkWebm (w_filename w) k (w_written w) (w_start w) (frames w).

(** ** [Recorder] *)

Record Context2 : Type := mkContext2 { filename : string; width : Z; height : Z; format : CodecFormat }.

(** A finished file: what was given to the muxer, and whether it is kept. *)
Record Finished : Type := mkFinished { f_name : string; f_frames : list Given; f_kept : bool }.

(** [states]: what was told to the receiver; [files]: what was finished. *)
Record Recorder : Type := mkRecorder {
  inner : option WebmRecorder;
  ctx2 : option Context2;
  r_pts : option Z;
  check_failed : bool;
  states : list RecordState;
  files : list Finished }.

Definition new : Recorder := mkRecorder None None None false [] [].

Definition send_state (s : RecordState) (r : Recorder) : Recorder :=
  mkRecorder (inner r) (ctx2 r) (r_pts r) (check_failed r) (states r ++ [s]) (files r).
Definition with_pts (p : option Z) (r : Recorder) : Recorder :=
  mkRecorder (inner r) (ctx2 r) p (check_failed r) (states r) (files r).
Definition fail (r : Recorder) : Recorder :=
  mkRecorder (inner r) (ctx2 r) (r_pts r) true (states r) (files r).

(** Times in milliseconds. *)
Record Env : Type := mkEnv { now : Z; dir_ok : bool; name_at : Z -> CodecFormat -> string; open_ok : bool }.

(** [self.inner = None]: the file in it is finished. *)
Definition drop_inner (e : Env) (r : Recorder) : Recorder :=
  match inner r with
  | None => r
  | Some w =>
    let removed := negb (w_written w) || ((now e - w_start w) / 1000 <? MIN_SECS) in
    mkRecorder None (ctx2 r) (r_pts r) (check_failed r)
      (states r ++ [if removed then RemoveFile else WriteTail])
      (files r ++ [mkFinished (w_filename w) (frames w) (negb removed)])
  end.

Definition set_filename (e : Env) (f : CodecFormat) : result string string :=
  if dir_ok e then Ok (name_at e (now e) f) else Err "create_dir_all".

Definition webm_format (f : CodecFormat) : bool := match f with VP8 | VP9 | AV1 => true | _ => false end.

(** The second half of [check]: a file for [c]. *)
Definition open_inner (e : Env) (c : Context2) (f : CodecFormat) (r : Recorder) : result unit string * Recorder :=
  match inner r with
  | Some _ => (Ok tt, r)
  | None =>
    if negb (webm_format f) then (Err "unsupported codec type", r)
    else if negb (open_ok e) then (Err "Failed to create webm mux", r)
    else
      (Ok tt, send_state (NewFile (filename c))
                (mkRecorder (Some (mkWebm (filename c) false false (now e) [])) (ctx2 r) None (check_failed r)
                   (states r) (files r)))
  end.

Definition start_ctx2 (e : Env) (w h : Z) (f : CodecFormat) (r : Recorder) : result Context2 string * Recorder :=
  match set_filename e f with
  | Err err => (Err err, r)
  | Ok n =>
    let c := mkContext2 n w h f in
    let r := drop_inner e (mkRecorder (inner r) (Some c) (r_pts r) (check_failed r) (states r) (files r)) in
    (Ok c, r)
  end.

Definition same_context (w h : Z) (f : CodecFormat) (c : Context2) : bool :=
  (width c =? w) && (height c =? h) && bool_decide (format c = f).

Definition check (e : Env) (w h : Z) (f : CodecFormat) (r : Recorder) : result unit string * Recorder :=
  let '(c, r) :=
    match ctx2 r with
    | Some c => if same_context w h f c then (Ok c, r) else start_ctx2 e w h f r
    | None => start_ctx2 e w h f r
    end in
  match c with
  | Err err => (Err err, r)
  | Ok c => open_inner e c f r
  end.

Definition check_pts (e : Env) (fr : Frame) (w h : Z) (f : CodecFormat) (r : Recorder) : result unit string * Recorder :=
  if bool_decide (r_pts r = None) && negb (key fr) then (Err "first frame is not key frame", r)
  else
    let old := default 0 (r_pts r) in
    let r := with_pts (Some (pts fr)) r in
    if pts fr <? old then
      let r := drop_inner e r in
      let r := mkRecorder (inner r) None (r_pts r) (check_failed r) (states r) (files r) in
      let '(res, r) := check e w h f r in
      match res with
      | Err err => (Err err, fail r)
      | Ok _ => (Ok tt, with_pts (Some (pts fr)) r)
      end
    else (Ok tt, r).

(** The loop over the frames of a message; with each frame the surroundings and
    the answer of the muxer. *)
Fixpoint write_frames (fs : list (Frame * Env * bool)) (w h : Z) (f : CodecFormat) (r : Recorder)
  : result unit string * Recorder :=
  match fs with
  | [] => (Ok tt, r)
  | (fr, e, ok) :: fs =>
    let '(res, r) := check_pts e fr w h f r in
    match res with
    | Err err => (Err err, r)
    | Ok _ =>
      let r := mkRecorder (write_video fr ok <$> inner r) (ctx2 r) (r_pts r) (check_failed r) (states r) (files r) in
      write_frames fs w h f r
    end
  end.

Definition write_frame (e : Env) (f : CodecFormat) (fs : list (Frame * Env * bool)) (w h : Z) (r : Recorder)
  : result unit string * Recorder :=
  if check_failed r then (Err "check failed", r)
  else if bool_decide (f = Unknown) then (Err "unsupported frame type", r)
  else
    let '(res, r) := check e w h f r in
    match res with
    | Err err => (Err err, fail r)
    | Ok _ =>
      let '(res, r) := write_frames fs w h f r in
      match res with
      | Err err => (Err err, r)
      | Ok _ => (Ok tt, send_state NewFrame r)
      end
    end.

(** A session: its messages ([write_message] drops the result), and its end. *)
Record Call : Type := mkCall { c_env : Env; c_format : CodecFormat; c_frames : list (Frame * Env * bool); c_width : Z; c_height : Z }.

Definition write_message (r : Recorder) (c : Call) : Recorder :=
  (write_frame (c_env c) (c_format c) (c_frames c) (c_width c) (c_height c) r).2.

Definition session (calls : list Call) (end_ : Env) : Recorder := drop_inner end_ (fold_left write_message calls new).

End Rec.

Module Upload.

Import Rec.

Definition MAX_HEADER_LEN : nat := 1024.
Definition SHOULD_SEND_TIME : Z := 1000.
Definition SHOULD_SEND_SIZE : Z := 1024 * 1024.

Record RecordUploader : Type := mkUploader {
  filepath : string; u_filename : string; upload_size : Z; running : bool; last_send : Z }.

Inductive Post : Type :=
| PNew (file : string) | PPart (file : string) (offset : Z) (bytes : list Z)
| PTail (file : string) (bytes : list Z) | PRemove (file : string).

(** What a turn sees: the time, the name in a path, the length of the file and
    then its contents, the answer of the server to a post. *)
Record UEnv : Type := mkUEnv {
  u_now : Z; file_name : string -> option string; metadata : result Z string; contents : result (list Z) string;
  answer : result unit string }.

Definition handle_new_file (e : UEnv) (path : string) (u : RecordUploader) : list Post * result unit string * RecordUploader :=
  match file_name e path with
  | Some n => ([PNew n], answer e, mkUploader path n 0 true (u_now e))
  | None => ([], Err "can't parse filepath", u)
  end.

Definition handle_frame (e : UEnv) (flush : bool) (u : RecordUploader) : list Post * result unit string * RecordUploader :=
  if negb flush && (u_now e - last_send u <? SHOULD_SEND_TIME) then ([], Ok tt, u)
  else
    match metadata e with
    | Err err => ([], Err err, u)
    | Ok len =>
      if len <=? upload_size u then ([], Ok tt, u)
      else if negb flush && (len - upload_size u <? SHOULD_SEND_SIZE) then ([], Ok tt, u)
      else
        match contents e with
        | Err err => ([], Err err, u)
        | Ok file =>
          let buf := drop (Z.to_nat (upload_size u)) file in
          ([PPart (u_filename u) (upload_size u) buf], answer e,
           match answer e with
           | Ok _ => mkUploader (filepath u) (u_filename u) len (running u) (u_now e)
           | Err _ => u
           end)
        end
    end.

(** [tail]: what is seen by the second part, after the first has been sent. *)
Definition handle_tail (e tail : UEnv) (u : RecordUploader) : list Post * result unit string * RecordUploader :=
  let '(ps, r, u) := handle_frame e true u in
  match r with
  | Err err => (ps, Err err, u)
  | Ok _ =>
    match contents tail with
    | Err err => (ps, Err err, u)
    | Ok file => (ps ++ [PTail (u_filename u) (take MAX_HEADER_LEN file)], answer tail, u)
    end
  end.

Definition handle_remove (e : UEnv) (u : RecordUploader) : list Post * result unit string * RecordUploader :=
  ([PRemove (u_filename u)], answer e, u).

(** One turn of [run]. *)
Definition on_state (s : RecordState) (e tail : UEnv) (u : RecordUploader) : list Post * RecordUploader :=
  let '(ps, r, u) :=
    match s with
    | NewFile path => handle_new_file e path u
    | NewFrame => if running u then handle_frame e false u else ([], Ok tt, u)
    | WriteTail => if running u then handle_tail e tail u else ([], Ok tt, u)
    | RemoveFile => if running u then handle_remove e u else ([], Ok tt, u)
    end in
  (ps, match r with
       | Ok _ => u
       | Err _ => mkUploader (filepath u) (u_filename u) (upload_size u) false (last_send u)
       end).

Fixpoint run (evs : list (RecordState * UEnv * UEnv)) (u : RecordUploader) : list Post * RecordUploader :=
  match evs with
  | [] => ([], u)
  | (s, e, t) :: evs =>
    let '(ps, u) := on_state s e t u in
    let '(ps', u) := run evs u in (ps ++ ps', u)
  end.

End Upload.

(** ** What holds of recording and uploading

    Every file starts with a key frame and never goes back in time; the receiver
    of the states is told of files one after the other, each begun and ended;
    and the uploader makes the server's copy equal to the file. *)

Module RecFacts.

Import Player Rec.

(** ** The files *)

Definition pts_of (a : Given) : Z := Rec.pts (g_frame a).
Definition earlier (a b : Given) : Prop := pts_of a <= pts_of b.

(** A file starts with a key frame, and the times of its frames, as they were
    sent, do not decrease. *)
Definition in_order (l : list Given) : Prop :=
  match l with [] => True | a :: _ => Rec.key (g_frame a) = true end /\ StronglySorted earlier l.

(** The times that a [u64] of nanoseconds can hold: 584 years. *)
Definition in_range (a : Given) : Prop := 0 <= pts_of a <= 18446744073709.

(** What a player needs: neither do the times of the file. *)
Definition playable (l : list Given) : Prop :=
  in_order l /\ (Forall in_range l -> StronglySorted (fun a b => g_time a <= g_time b) l).

Definition something_written (l : list Given) : Prop := exists a, a ∈ l /\ g_ok a = true.

Definition good_file (f : Finished) : Prop :=
  playable (f_frames f) /\ (f_kept f = true -> something_written (f_frames f)).

Definition timed (l : list Given) : Prop := Forall (fun a => g_time a = muxer_time (pts_of a)) l.

Definition good_inner (p : option Z) (w : WebmRecorder) : Prop :=
  in_order (frames w) /\ timed (frames w) /\ w_key w = negb (bool_decide (frames w = [])) /\
  (w_written w = true -> something_written (frames w)) /\
  match p with
  | Some p => Forall (fun a => pts_of a <= p) (frames w)
  | None => frames w = []
  end.

Lemma muxer_time_in_range a : g_time a = muxer_time (pts_of a) -> in_range a -> g_time a = pts_of a * 1000000.
Proof. unfold in_range, muxer_time, wrap. intros -> H. rewrite (Z.mod_small (pts_of a)) by lia. apply Z.mod_small. lia. Qed.

Lemma in_order_playable l : in_order l -> timed l -> playable l.
Proof.
  intros H T. split; [exact H|]. intros R. destruct H as [_ H]. induction H as [|a l Hl IH Ha]; [constructor|].
  inversion_clear T as [|? ? T1 T2]. inversion_clear R as [|? ? R1 R2]. constructor; [exact (IH T2 R2)|].
  rewrite (muxer_time_in_range a T1 R1). apply Forall_forall. intros b Hb. rewrite Forall_forall in Ha, T2, R2.
  rewrite (muxer_time_in_range b (T2 b Hb) (R2 b Hb)). specialize (Ha b Hb). unfold earlier in Ha. lia.
Qed.

(** The receiver's view: no file, or one open. *)
Definition proto_step (s : option bool) (st : RecordState) : option bool :=
  match s, st with
  | Some false, NewFile _ => Some true
  | Some true, NewFrame => Some true
  | Some true, (WriteTail | RemoveFile) => Some false
  | _, _ => None
  end.
Definition protocol (l : list RecordState) : option bool := fold_left proto_step l (Some false).

Definition ended (s : RecordState) : option bool :=
  match s with WriteTail => Some true | RemoveFile => Some false | _ => None end.

Definition is_open (r : Recorder) : bool := match inner r with Some _ => true | None => false end.

Record inv (r : Recorder) : Prop := mkInv {
  inv_files : Forall good_file (files r);
  inv_inner : match inner r with Some w => good_inner (r_pts r) w | None => True end;
  inv_protocol : protocol (states r) = Some (is_open r);
  inv_ended : omap ended (states r) = map f_kept (files r) }.

Lemma protocol_snoc l s : protocol (l ++ [s]) = proto_step (protocol l) s.
Proof. unfold protocol. apply fold_left_app. Qed.

Lemma inv_new : inv new.
Proof. split; cbn; try exact I; [constructor|reflexivity..]. Qed.

(** Fields that the invariant does not mention. *)
Lemma inv_fields r c b : inv r -> inv (mkRecorder (inner r) c (r_pts r) b (states r) (files r)).
Proof. intros []. split; assumption. Qed.

Lemma inv_drop e r p : inv r -> inv (drop_inner e (with_pts p r)) /\ inner (drop_inner e (with_pts p r)) = None.
Proof.
  intros [H1 H2 H3 H4]. unfold drop_inner, with_pts. cbn [inner]. unfold is_open in H3.
  destruct (inner r) as [w|] eqn:E; cbn [Rec.ctx2 r_pts check_failed states files].
  - split; [|reflexivity]. set (removed := _ || _). destruct H2 as (P & T & K & W & _).
    split; cbn [files inner states]; [|exact I| |].
    + apply Forall_app. split; [exact H1|]. constructor; [|constructor]. split; [exact (in_order_playable _ P T)|]. cbn. intros Hr.
      apply W. unfold removed in Hr. destruct (w_written w); [reflexivity|discriminate].
    + rewrite protocol_snoc, H3. destruct removed; reflexivity.
    + rewrite omap_app, H4, map_app. cbn. destruct removed; reflexivity.
  - split; [|reflexivity]. split; assumption.
Qed.

Lemma inv_drop0 e r : inv r -> inv (drop_inner e r) /\ inner (drop_inner e r) = None.
Proof. intros H. pose proof (inv_drop e r (r_pts r) H) as D. destruct r. exact D. Qed.

Lemma inv_open e c f r res r' : inv r -> open_inner e c f r = (res, r') ->
  inv r' /\ (res = Ok tt -> is_open r' = true) /\ (inner r = None -> res = Ok tt -> r_pts r' = None).
Proof.
  intros Hi. unfold open_inner. destruct (inner r) as [w|] eqn:E.
  { intros [= <- <-]. split; [exact Hi|]. unfold is_open. rewrite E. split; [reflexivity|discriminate]. }
  destruct (negb (webm_format f)); [intros [= <- <-]; split; [exact Hi|split; discriminate]|].
  destruct (negb (open_ok e)); [intros [= <- <-]; split; [exact Hi|split; discriminate]|].
  intros [= <- <-]. split; [|auto]. destruct Hi as [H1 H2 H3 H4]. unfold is_open in H3. rewrite E in H3.
  split; unfold send_state; cbn [files inner states r_pts].
  - exact H1.
  - split; [split; [exact I|constructor]|]. split; [constructor|]. split; [reflexivity|]. split; [discriminate|reflexivity].
  - rewrite protocol_snoc, H3. reflexivity.
  - rewrite omap_app, H4. cbn. rewrite app_nil_r. reflexivity.
Qed.

Lemma inv_start e w h f r res r' : inv r -> start_ctx2 e w h f r = (res, r') -> inv r' /\ (inner r = None -> inner r' = None).
Proof.
  intros Hi. unfold start_ctx2. destruct (set_filename e f); intros [= <- <-]; [|auto].
  pose proof (inv_drop0 e _ (inv_fields r (Some (mkContext2 a w h f)) (check_failed r) Hi)) as [D1 D2]. auto.
Qed.

Lemma inv_check e w h f r res r' : inv r -> check e w h f r = (res, r') ->
  inv r' /\ (res = Ok tt -> is_open r' = true) /\ (inner r = None -> res = Ok tt -> r_pts r' = None).
Proof.
  intros Hi. unfold check.
  destruct (match ctx2 r with Some c => if same_context w h f c then (Ok c, r) else start_ctx2 e w h f r
            | None => start_ctx2 e w h f r end) as [c r1] eqn:E.
  assert (H1 : inv r1 /\ (inner r = None -> inner r1 = None)).
  { destruct (ctx2 r) as [c0|]; [destruct (same_context w h f c0)|].
    - injection E as <- <-. auto.
    - exact (inv_start e w h f r c r1 Hi E).
    - exact (inv_start e w h f r c r1 Hi E). }
  destruct H1 as [H1 H2]. destruct c as [c|err].
  - intros Eo. destruct (inv_open e c f r1 res r' H1 Eo) as (A & B & C). auto.
  - intros [= <- <-]. split; [exact H1|]. split; discriminate.
Qed.

Lemma inv_fail r : inv r -> inv (fail r).
Proof. apply inv_fields. Qed.

(** A later frame may follow. *)
Lemma inv_later r p : inv r -> (forall old, r_pts r = Some old -> old <= p) -> inv (with_pts (Some p) r).
Proof.
  intros [H1 H2 H3 H4] Hp. split; cbn; try assumption. destruct (inner r) as [w|]; [|exact I].
  destruct H2 as (P & T & K & W & B). repeat (split; [assumption|]). destruct (r_pts r) as [old|].
  - eapply Forall_impl; [exact B|]. cbn. intros a Ha. specialize (Hp old eq_refl). lia.
  - rewrite B. constructor.
Qed.

Lemma inv_check_pts e fr w h f r res r' : inv r -> is_open r = true -> check_pts e fr w h f r = (res, r') ->
  inv r' /\ (res = Ok tt -> is_open r' = true /\ r_pts r' = Some (Rec.pts fr)).
Proof.
  intros Hi Ho. unfold check_pts. destruct (_ && _); [intros [= <- <-]; split; [exact Hi|discriminate]|].
  cbv zeta. destruct (Z.ltb_spec (Rec.pts fr) (default 0 (r_pts r))) as [L|L].
  - destruct (inv_drop e r (Some (Rec.pts fr)) Hi) as [D1 D2].
    set (r1 := drop_inner e (with_pts (Some (Rec.pts fr)) r)) in *. clearbody r1.
    destruct (check e w h f (mkRecorder (inner r1) None (r_pts r1) (check_failed r1) (states r1) (files r1))) as [res1 r2] eqn:E.
    destruct (inv_check e w h f _ res1 r2 (inv_fields r1 None (check_failed r1) D1) E) as (A & B & C).
    destruct res1 as [[]|err]; intros [= <- <-].
    + split; [|intros _; split; [exact (B eq_refl)|reflexivity]].
      apply inv_later; [exact A|]. rewrite (C D2 eq_refl). discriminate.
    + split; [apply inv_fail, A|discriminate].
  - intros [= <- <-]. split; [|intros _; split; [exact Ho|reflexivity]].
    apply inv_later; [exact Hi|]. intros old Eo. rewrite Eo in L. exact L.
Qed.

Lemma sorted_snoc l x : StronglySorted earlier l -> Forall (fun a => pts_of a <= pts_of x) l -> StronglySorted earlier (l ++ [x]).
Proof.
  induction 1 as [|a l Hl IH Ha]; intros Hx; [repeat constructor|]. inversion_clear Hx as [|? ? X1 X2].
  constructor; [exact (IH X2)|]. apply Forall_app. split; [exact Ha|]. constructor; [exact X1|constructor].
Qed.

Lemma inv_write r fr ok : inv r -> r_pts r = Some (Rec.pts fr) ->
  inv (mkRecorder (write_video fr ok <$> inner r) (ctx2 r) (r_pts r) (check_failed r) (states r) (files r)).
Proof.
  intros [H1 H2 H3 H4] Hp. split; cbn [inner files states r_pts]; try assumption.
  - destruct (inner r) as [w|]; [|exact I]. cbn. rewrite Hp in H2 |- *. destruct H2 as (P & T & K & W & B).
    unfold write_video. destruct (w_key w || Rec.key fr) eqn:Ek.
    + split; [|split; [|split; [|split]]]; cbn [frames w_key w_written].
      * destruct P as [P1 P2]. split; [|apply sorted_snoc; assumption].
        destruct (frames w) as [|a l]; [|exact P1]. cbn.
        rewrite K in Ek. cbn in Ek. exact Ek.
      * apply Forall_app. split; [exact T|]. constructor; [reflexivity|constructor].
      * symmetry. apply negb_true_iff, bool_decide_eq_false. destruct (frames w); discriminate.
      * intros Hw. apply orb_true_iff in Hw as [Hw|Hw].
        -- destruct (W Hw) as (g & Hg & Hk). exists g. split; [apply elem_of_app; left; exact Hg|exact Hk].
        -- eexists. split; [apply elem_of_app; right; apply list_elem_of_here|exact Hw].
      * apply Forall_app. split; [exact B|]. constructor; [unfold pts_of; cbn; lia|constructor].
    + apply orb_false_iff in Ek as [Ek _]. rewrite Ek in K.
      split; [exact P|]. split; [exact T|]. split; [exact K|]. split; [exact W|exact B].
  - unfold is_open in *. cbn. destruct (inner r); exact H3.
Qed.

Lemma inv_write_frames fs w h f : forall r res r', inv r -> is_open r = true -> write_frames fs w h f r = (res, r') ->
  inv r' /\ (res = Ok tt -> is_open r' = true).
Proof.
  induction fs as [|[[fr e] ok] fs IH]; intros r res r' Hi Ho E; [injection E as <- <-; auto|]. cbn [write_frames] in E.
  destruct (check_pts e fr w h f r) as [res1 r1] eqn:E1.
  destruct (inv_check_pts e fr w h f r res1 r1 Hi Ho E1) as [A B]. destruct res1 as [[]|err].
  - destruct (B eq_refl) as [B1 B2]. eapply IH; [| |exact E].
    + apply inv_write; assumption.
    + unfold is_open in *. cbn. destruct (inner r1); [reflexivity|discriminate].
  - injection E as <- <-. split; [exact A|discriminate].
Qed.

Lemma inv_message r c : inv r -> inv (write_message r c).
Proof.
  intros Hi. unfold write_message, write_frame. destruct (check_failed r); [exact Hi|].
  destruct (bool_decide _); [exact Hi|].
  destruct (check (c_env c) (c_width c) (c_height c) (c_format c) r) as [res r1] eqn:E1.
  destruct (inv_check _ _ _ _ _ _ _ Hi E1) as (A & B & _). destruct res as [[]|err]; [|apply inv_fail, A].
  destruct (write_frames (c_frames c) (c_width c) (c_height c) (c_format c) r1) as [res2 r2] eqn:E2.
  destruct (inv_write_frames _ _ _ _ _ _ _ A (B eq_refl) E2) as [C D]. destruct res2 as [[]|err]; [|exact C].
  destruct C as [C1 C2 C3 C4]. specialize (D eq_refl). cbn [snd].
  split; unfold send_state; cbn [files inner states r_pts]; try assumption.
  - rewrite protocol_snoc, C3, D. unfold is_open in *. cbn. rewrite D. reflexivity.
  - rewrite omap_app, C4. cbn. rewrite app_nil_r. reflexivity.
Qed.

Lemma inv_messages calls : forall r, inv r -> inv (fold_left write_message calls r).
Proof. induction calls as [|c calls IH]; intros r H; [exact H|]. apply IH, inv_message, H. Qed.

(** C35. Whatever a session writes, with whatever answers of the disk and of the
    muxer: every file starts with a key frame, the times its frames were sent
    with never decrease, and neither do those that the muxer is given, in a file
    whose frames all have a time that 64 bits of nanoseconds can hold (from 0 to
    18446744073709 milliseconds); a file that is kept has a frame in it, and the
    receiver of the states is told of files one after the other, each begun,
    ended, and as kept or removed as it is. *)
Theorem recordings_playable (calls : list Call) (end_ : Env) :
  Forall good_file (files (session calls end_)) /\
  protocol (states (session calls end_)) = Some false /\
  omap ended (states (session calls end_)) = map f_kept (files (session calls end_)).
Proof.
  destruct (inv_drop0 end_ _ (inv_messages calls new inv_new)) as [[H1 H2 H3 H4] H5].
  unfold session. split; [exact H1|]. split; [|exact H4]. rewrite H3. unfold is_open. rewrite H5. reflexivity.
Qed.

(** A time below zero, which a peer can send, is far in the future for the
    muxer: the file goes back in time with the next frame. *)
Definition demo_recorder_env (t : Z) : Env := mkEnv t true (fun n _ => if n =? 0 then "a.webm" else "b.webm") true.

Lemma negative_pts_goes_back :
  let frame p := (mkFrame p true [1], demo_recorder_env 10, true) in
  let r := session [mkCall (demo_recorder_env 0) VP9 [frame (-1); frame 0] 8 8] (demo_recorder_env 5000) in
  map (fun f => (map g_time (f_frames f), f_kept f)) (files r) = [([], false); ([2 ^ 64 - 1000000; 0], true)].
Proof. vm_compute. reflexivity. Qed.

End RecFacts.

Module UploadFacts.

Import Rec Upload.

(** ** The server's copy *)

Definition write_at (off : Z) (bytes copy : list Z) : list Z :=
  take (Z.to_nat off) copy ++ bytes ++ drop (Z.to_nat off + length bytes) copy.

Definition apply_post (copy : list Z) (p : Post) : list Z :=
  match p with
  | PNew _ | PRemove _ => []
  | PPart _ off bytes => write_at off bytes copy
  | PTail _ bytes => write_at 0 bytes copy
  end.
Definition server_copy (ps : list Post) (copy : list Z) : list Z := fold_left apply_post ps copy.

(** What the uploader sees of a file that will be [final]: a beginning of it, in
    which the header may still be another, with a length read before. *)
Definition sees (final : list Z) (e : UEnv) : Prop :=
  answer e = Ok tt /\ exists c n, contents e = Ok c /\ metadata e = Ok n /\ 0 <= n <= Z.of_nat (length c) /\
    (length c <= length final)%nat /\ drop MAX_HEADER_LEN c = take (length c - MAX_HEADER_LEN) (drop MAX_HEADER_LEN final).

(** The copy is a beginning of the file, but for the header, up to the position
    of the uploader at least. *)
Definition follows (final copy : list Z) (u : RecordUploader) : Prop :=
  running u = true /\ 0 <= upload_size u <= Z.of_nat (length copy) /\ (length copy <= length final)%nat /\
  forall i, (MAX_HEADER_LEN <= i < length copy)%nat -> copy !! i = final !! i.

Lemma sees_lookup final e c i : contents e = Ok c -> sees final e -> (MAX_HEADER_LEN <= i < length c)%nat -> c !! i = final !! i.
Proof.
  intros Hc (_ & c' & n & Hc' & _ & _ & Hl & Hd) Hi. rewrite Hc in Hc'. injection Hc' as <-.
  assert (E : drop MAX_HEADER_LEN c !! (i - MAX_HEADER_LEN)%nat
              = take (length c - MAX_HEADER_LEN) (drop MAX_HEADER_LEN final) !! (i - MAX_HEADER_LEN)%nat) by (rewrite Hd; reflexivity).
  rewrite lookup_take_lt, !lookup_drop in E by lia. replace (MAX_HEADER_LEN + (i - MAX_HEADER_LEN))%nat with i in E by lia.
  exact E.
Qed.

Lemma write_at_length off bytes copy : 0 <= off <= Z.of_nat (length copy) ->
  length (write_at off bytes copy) = Nat.max (length copy) (Z.to_nat off + length bytes).
Proof. intros H. unfold write_at. rewrite !length_app, length_take, length_drop. lia. Qed.

Lemma write_at_lookup off bytes copy i : 0 <= off <= Z.of_nat (length copy) ->
  write_at off bytes copy !! i =
  if (i <? Z.to_nat off)%nat then copy !! i
  else if (i <? Z.to_nat off + length bytes)%nat then bytes !! (i - Z.to_nat off)%nat else copy !! i.
Proof.
  intros H. unfold write_at. destruct (Nat.ltb_spec i (Z.to_nat off)).
  - rewrite lookup_app_l by (rewrite length_take; lia). apply lookup_take_lt. lia.
  - rewrite lookup_app_r by (rewrite length_take; lia). rewrite length_take, Nat.min_l by lia.
    destruct (Nat.ltb_spec i (Z.to_nat off + length bytes)).
    + rewrite lookup_app_l by lia. reflexivity.
    + rewrite lookup_app_r by lia. rewrite lookup_drop. f_equal. lia.
Qed.

Lemma frame_follows final copy e flush u : sees final e -> follows final copy u ->
  let '(ps, r, u') := handle_frame e flush u in
  r = Ok tt /\ follows final (server_copy ps copy) u' /\
  (flush = true -> metadata e = Ok (Z.of_nat (length final)) -> length (server_copy ps copy) = length final).
Proof.
  intros Hs Hf. pose proof Hs as (Ha & c & n & Hc & Hm & Hn & Hl & _). pose proof Hf as (F1 & F2 & F3 & F4).
  unfold handle_frame. destruct (negb flush && (u_now e - last_send u <? SHOULD_SEND_TIME)) eqn:B; [split; [reflexivity|split; [exact Hf|intros ->; discriminate B]]|].
  rewrite Hm. destruct (Z.leb_spec n (upload_size u)) as [L|L].
  { split; [reflexivity|]. split; [exact Hf|]. intros _ [= ->]. cbn. lia. }
  destruct (negb flush && (n - upload_size u <? SHOULD_SEND_SIZE)) eqn:B2; [split; [reflexivity|split; [exact Hf|intros ->; discriminate B2]]|].
  rewrite Hc, Ha. split; [reflexivity|]. cbn [server_copy fold_left apply_post].
  set (k := upload_size u) in *.
  assert (El : length (write_at k (drop (Z.to_nat k) c) copy) = Nat.max (length copy) (length c)).
  { rewrite write_at_length by lia. rewrite length_drop. lia. }
  split.
  - split; [exact F1|]. cbn [upload_size]. rewrite El. split; [lia|]. split; [lia|].
    intros i Hi. rewrite write_at_lookup by lia. rewrite length_drop.
    destruct (Nat.ltb_spec i (Z.to_nat k)); [apply F4; lia|].
    destruct (Nat.ltb_spec i (Z.to_nat k + (length c - Z.to_nat k))).
    + rewrite lookup_drop. replace (Z.to_nat k + (i - Z.to_nat k))%nat with i by lia.
      apply (sees_lookup final e c i Hc Hs). lia.
    + apply F4. lia.
  - intros _ [= Hm2]. rewrite El. lia.
Qed.

Lemma frames_follow final envs : forall copy u, Forall (sees final) envs -> follows final copy u ->
  follows final (server_copy (run (map (fun e => (NewFrame, e, e)) envs) u).1 copy)
    (run (map (fun e => (NewFrame, e, e)) envs) u).2.
Proof.
  induction envs as [|e envs IH]; intros copy u Hs Hf; [exact Hf|]. inversion_clear Hs as [|? ? S1 S2].
  cbn [map run]. pose proof (frame_follows final copy e false u S1 Hf) as F.
  assert (Es : on_state NewFrame e e u = ((handle_frame e false u).1.1, (handle_frame e false u).2)).
  { unfold on_state. rewrite (proj1 Hf). destruct (handle_frame e false u) as [[ps r] u1].
    destruct F as (-> & _). reflexivity. }
  rewrite Es. destruct (handle_frame e false u) as [[ps r] u1]. destruct F as (-> & F & _). cbn [fst snd].
  specialize (IH (server_copy ps copy) u1 S2 F).
  destruct (run (map (fun e => (NewFrame, e, e)) envs) u1) as [ps2 u2]. cbn [fst snd] in IH |- *.
  unfold server_copy in *. rewrite fold_left_app. exact IH.
Qed.

Lemma run_app l1 l2 : forall v, run (l1 ++ l2) v = ((run l1 v).1 ++ (run l2 (run l1 v).2).1, (run l2 (run l1 v).2).2).
Proof.
  induction l1 as [|[[s a] b] l1 IH]; intros v; [cbn; destruct (run l2 v); reflexivity|].
  cbn [app run]. destruct (on_state s a b v) as [ps v1]. rewrite (IH v1).
  destruct (run l1 v1) as [ps1 v2]. cbn [fst snd]. destruct (run l2 v2). cbn. rewrite app_assoc. reflexivity.
Qed.

(** A file that is finished while its upload is running is on the server as
    it is on the disk: whenever the uploader looked, however much had been
    written by then, and though the header changes at the end, as long as only
    the first 1024 bytes change and the posts succeed. *)
Theorem recording_uploaded (final : list Z) (path name : string) (e0 e1 e2 : UEnv) (envs : list UEnv) (u : RecordUploader) :
  file_name e0 path = Some name -> answer e0 = Ok tt -> Forall (sees final) envs ->
  contents e1 = Ok final -> metadata e1 = Ok (Z.of_nat (length final)) -> answer e1 = Ok tt ->
  contents e2 = Ok final -> answer e2 = Ok tt ->
  server_copy (run ((NewFile path, e0, e0) :: map (fun e => (NewFrame, e, e)) envs ++ [(WriteTail, e1, e2)]) u).1 []
  = final.
Proof.
  intros Hn H0 Hs C1 M1 A1 C2 A2. set (u0 := mkUploader path name 0 true (u_now e0)).
  assert (Es : on_state (NewFile path) e0 e0 u = ([PNew name], u0)).
  { unfold on_state, handle_new_file. rewrite Hn, H0. reflexivity. }
  cbn [run]. rewrite Es.
  assert (F0 : follows final [] u0) by (split; [reflexivity|]; cbn; repeat split; try lia; intros; lia).
  pose proof (frames_follow final envs [] u0 Hs F0) as F.
  rewrite run_app. set (r1 := run (map (fun e => (NewFrame, e, e)) envs) u0) in *.
  destruct r1 as [ps1 u1]. cbn [fst snd] in F |- *. cbn [run].
  assert (S1 : sees final e1).
  { split; [exact A1|]. exists final, (Z.of_nat (length final)). repeat split; try assumption; try lia.
    rewrite take_ge; [reflexivity|]. rewrite length_drop. lia. }
  pose proof (frame_follows final (server_copy ps1 []) e1 true u1 S1 F) as G.
  assert (Et : on_state WriteTail e1 e2 u1
    = ((handle_frame e1 true u1).1.1 ++ [PTail (u_filename (handle_frame e1 true u1).2) (take MAX_HEADER_LEN final)],
       (handle_frame e1 true u1).2)).
  { unfold on_state, handle_tail. rewrite (proj1 F). destruct (handle_frame e1 true u1) as [[ps2 r2] u2].
    destruct G as (-> & _). rewrite C2, A2. reflexivity. }
  rewrite Et. destruct (handle_frame e1 true u1) as [[ps2 r2] u2]. destruct G as (-> & G & L). specialize (L eq_refl M1).
  cbn [fst snd]. rewrite app_nil_r.
  unfold server_copy in *. rewrite !fold_left_app. cbn [fold_left apply_post].
  set (copy := fold_left apply_post ps2 _) in *. destruct G as (_ & _ & _ & G4).
  apply list_eq. intros i. rewrite write_at_lookup by lia. change (Z.to_nat 0) with O. rewrite Nat.sub_0_r.
  destruct (Nat.ltb_spec i 0); [lia|]. rewrite length_take. destruct (Nat.ltb_spec i (0 + Nat.min MAX_HEADER_LEN (length final))).
  - rewrite lookup_take_lt by lia. reflexivity.
  - destruct (Nat.lt_ge_cases i (length final)).
    + apply G4. lia.
    + rewrite !lookup_ge_None_2 by lia. reflexivity.
Qed.

(** A header of one byte that is filled in at the end. *)
Definition demo_final : list Z := repeat 7 1024 ++ [1; 2; 3].
Definition demo_env (t : Z) (c : list Z) : UEnv := mkUEnv t (fun s => Some s) (Ok (Z.of_nat (length c))) (Ok c) (Ok tt).

Lemma recording_uploaded_witness :
  server_copy (run ((NewFile "a.webm", demo_env 0 [], demo_env 0 [])
      :: map (fun e => (NewFrame, e, e)) [demo_env 2000 (repeat 0 1024 ++ [1]); demo_env 4000 (repeat 0 1024 ++ [1; 2])]
      ++ [(WriteTail, demo_env 5000 demo_final, demo_env 5000 demo_final)]) (mkUploader "" "" 0 false 0)).1 []
  = demo_final.
Proof.
  apply (recording_uploaded demo_final "a.webm" "a.webm" (demo_env 0 []) (demo_env 5000 demo_final) (demo_env 5000 demo_final)
    [demo_env 2000 (repeat 0 1024 ++ [1]); demo_env 4000 (repeat 0 1024 ++ [1; 2])]); try reflexivity.
  repeat constructor; (eexists _, _; split; [reflexivity|]; split; [reflexivity|]; split; [vm_compute; split; discriminate|];
    split; [apply Nat.leb_le; vm_compute; reflexivity|vm_compute; reflexivity]).
Defined.

(** After a failed post the rest of the file is not sent, and neither is the
    removal of the file. *)
Lemma failed_upload_keeps_part e tail u : running u = false ->
  on_state RemoveFile e tail u = ([], u) /\ on_state WriteTail e tail u = ([], u) /\ on_state NewFrame e tail u = ([], u).
Proof. intros H. destruct u. cbn in *. rewrite H. auto. Qed.

End UploadFacts.
