(* ===== verification/Lan.v ===== *)
(** * Discovery on the local network ([src/lan.rs], [DiscoveryPeer] and
    [LanPeers] of [config.rs])

    A machine answers pings with its description; one that looks for others
    sends a ping from every socket, waits in a thread per socket and merges the
    answers into the stored list.  Sockets, network interfaces and the encoding
    of messages are arguments; times are milliseconds. *)

From S2P Require Import Prelude RustStr Config.

#[local] Open Scope rust_scope.

Module Lan.

(** ** Data *)

Set Primitive Projections.

Record DiscoveryPeer : Type := mkPeer {
  id : string; username : string; hostname : string; platform : string; online : bool; ip_mac : gmap string string }.

Unset Primitive Projections.

(** The message [PeerDiscovery]. *)
Record PeerDiscovery : Type := mkMsg {
  m_cmd : string; m_mac : string; m_id : string; m_username : string; m_hostname : string; m_platform : string }.

Definition is_same_peer (a b : DiscoveryPeer) : bool := String.eqb (id a) (id b) && String.eqb (username a) (username b).

Definition RENDEZVOUS_PORT : Z := 21116.
Definition get_broadcast_port : Z := u16 (RENDEZVOUS_PORT + 3).

(** ** Answering *)

Record Host : Type := mkHost {
  own_id : string; lan_option : string; own_hostname : string; active_username : string; own_platform : string }.

(** [self_ip]: the own address on the way to the sender; [mac]: its hardware
    address, if an interface has it. *)
Definition get_mac (mac : string -> option string) (ip : string) : string := default "" (mac ip).

Definition answer (h : Host) (self_ip : option string) (mac : string -> option string) (p : PeerDiscovery)
  : option PeerDiscovery :=
  if String.eqb (m_cmd p) "ping" && Config.option2bool "enable-lan-discovery" (lan_option h) then
    if String.eqb (m_id p) (own_id h) then None
    else
      match self_ip with
      | None => None
      | Some ip =>
        let name := if String.eqb (own_hostname h) "localhost" then "unknown" else own_hostname h in
        Some (mkMsg "pong" (get_mac mac ip) (own_id h) (active_username h) name (own_platform h))
      end
  else None.

(** What is sent to look for others: on a desktop the id is empty. *)
Definition query : PeerDiscovery := mkMsg "ping" "" "" "" "" "".

(** ** Waiting: one thread per socket *)

(** A datagram: when it is read, where from, the own address on the way, the
    message if it is one. *)
Record Datagram : Type := mkDatagram { at_ : Z; from : string; via : option string; msg : option PeerDiscovery }.

(** The state of [wait_response]; [bound] is the address of the socket, when it
    has one of its own. *)
Record Waiter : Type := mkWaiter { last_recv_time : Z; w_mac : option string }.

Definition local_mac (bound : option string) (mac : string -> option string) (d : Datagram) (w : Waiter)
  : string * Waiter :=
  match bound with
  | None => (match via d with Some ip => get_mac mac ip | None => "" end, w)
  | Some ip =>
    match w_mac w with
    | Some m => (m, w)
    | None => let m := get_mac mac ip in (m, mkWaiter (last_recv_time w) (Some m))
    end
  end.

Definition on_datagram (bound : option string) (mac : string -> option string) (d : Datagram) (w : Waiter)
  : option DiscoveryPeer * Waiter :=
  match msg d with
  | None => (None, w)
  | Some p =>
    let w := mkWaiter (at_ d) (w_mac w) in
    if String.eqb (m_cmd p) "pong" then
      let '(m, w) := local_mac bound mac d w in
      if String.eqb m "" && String.eqb (m_mac p) "" || negb (String.eqb m (m_mac p))
      then (Some (mkPeer (m_id p) (m_username p) (m_hostname p) (m_platform p) true {[ from d := m_mac p ]}), w)
      else (None, w)
    else (None, w)
  end.

(** The reads of the loop: a datagram or the time-out of ten milliseconds, with
    the time after it.  The result says whether the loop has been left. *)
Fixpoint wait_response (bound : option string) (mac : string -> option string) (reads : list (option Datagram * Z)) (w : Waiter)
  : list DiscoveryPeer * Waiter * bool :=
  match reads with
  | [] => ([], w, false)
  | (r, now) :: reads =>
    let '(p, w) := match r with Some d => on_datagram bound mac d w | None => (None, w) end in
    let out := match p with Some p => [p] | None => [] end in
    if 3000 <? now - last_recv_time w then (out, w, true)
    else let '(out', w, fin) := wait_response bound mac reads w in (out ++ out', w, fin)
  end.

(** ** Merging *)

(** The list, who has answered, the time of the last write, what was stored. *)
Record Merge : Type := mkMerge {
  peers : list DiscoveryPeer; response_set : gset string; last_write_time : option Z; stored : list (list DiscoveryPeer) }.

(** The first position of the same peer is removed. *)
Fixpoint remove_same (p : DiscoveryPeer) (l : list DiscoveryPeer) : option DiscoveryPeer * list DiscoveryPeer :=
  match l with
  | [] => (None, [])
  | q :: l =>
    if is_same_peer q p then (Some q, l)
    else let '(r, l) := remove_same p l in (r, q :: l)
  end.

(** [extend]: the entries of the old one win. *)
Definition merge_peer (in_response_set : bool) (old : option DiscoveryPeer) (p : DiscoveryPeer) : DiscoveryPeer :=
  match old with
  | Some q => if in_response_set then p <| ip_mac := ip_mac q ∪ ip_mac p |> <| online := true |> else p
  | None => p
  end.

Definition on_peer (p : DiscoveryPeer) (now : Z) (m : Merge) : Merge :=
  let seen := bool_decide (id p ∈ response_set m) in
  let '(old, rest) := remove_same p (peers m) in
  let l := merge_peer seen old p :: rest in
  let write := match last_write_time m with Some t => 300 <? now - t | None => true end in
  mkMerge l ({[ id p ]} ∪ response_set m) (if write then Some now else last_write_time m)
    (if write then stored m ++ [l] else stored m).

Definition start (loaded : list DiscoveryPeer) : Merge :=
  mkMerge (map (fun p => p <| online := false |>) loaded) ∅ None [].

(** [handle_received_peers]: the list that is stored in the end. *)
Definition handle_received_peers (loaded : list DiscoveryPeer) (received : list (DiscoveryPeer * Z)) : list (list DiscoveryPeer) :=
  let m := fold_left (fun m p => on_peer p.1 p.2 m) received (start loaded) in
  stored m ++ [peers m].

(** ** Waking: the hardware addresses of the first entry with the id, from every
    address of this machine *)
Definition send_wol (i : string) (parse_mac : string -> bool) (interfaces : list (list string)) (l : list DiscoveryPeer)
  : list (string * string) :=
  match List.find (fun p => String.eqb (id p) i) l with
  | None => []
  | Some p =>
    flat_map (fun '(_, mac) =>
      if parse_mac mac then flat_map (fun ips => map (fun ip => (mac, ip)) ips) interfaces else [])
      (map_to_list (ip_mac p))
  end.

(** ** Lemmas *)

Definition key (p : DiscoveryPeer) : string * string := (id p, username p).

Lemma is_same_peer_key a b : is_same_peer a b = true <-> key a = key b.
Proof.
  unfold is_same_peer, key. rewrite andb_true_iff, !String.eqb_eq. split; [intros [-> ->]; reflexivity|].
  intros [= -> ->]. auto.
Qed.

Lemma remove_same_spec p l : NoDup (map key l) ->
  let '(old, rest) := remove_same p l in
  key p ∉ map key rest /\ NoDup (map key rest) /\ (forall q, q ∈ rest <-> q ∈ l /\ key q <> key p).
Proof.
  induction l as [|q l IH]; intros Hn; cbn [remove_same map].
  { split; [apply not_elem_of_nil|]. split; [constructor|]. intros q. split; [intros H; inversion H|].
    intros [H _]. exact H. }
  cbn in Hn. inversion_clear Hn as [|? ? N1 N2]. destruct (is_same_peer q p) eqn:E.
  - apply is_same_peer_key in E. rewrite <- E. split; [exact N1|]. split; [exact N2|]. intros x. split.
    + intros Hx. split; [apply list_elem_of_further, Hx|]. intros Ek. apply N1. rewrite <- Ek.
      apply list_elem_of_In, in_map, list_elem_of_In, Hx.
    + intros [Hx Hk]. apply elem_of_cons in Hx as [->|Hx]; [contradiction|exact Hx].
  - assert (Hq : key q <> key p) by (intros Ek; apply is_same_peer_key in Ek; congruence).
    specialize (IH N2). destruct (remove_same p l) as [old rest]. destruct IH as (A & B & C). cbn.
    split; [intros [Ek|Ek]%elem_of_cons; [congruence|contradiction]|]. split.
    + constructor; [|exact B]. intros Hin. apply list_elem_of_In, in_map_iff in Hin as (x & Ex & Hx).
      apply list_elem_of_In, C in Hx as [Hx _]. apply N1. rewrite <- Ex. apply list_elem_of_In, in_map, list_elem_of_In, Hx.
    + intros x. rewrite elem_of_cons, C, elem_of_cons. split; [intros [->|[H1 H2]]; auto|].
      intros [[->|H1] H2]; auto.
Qed.

(** The list while answers come in: one entry per peer; the entries that are
    online are those that have answered. *)
Definition merged (answered : list (string * string)) (m : Merge) : Prop :=
  NoDup (map key (peers m)) /\
  (forall p, p ∈ peers m -> (online p = true <-> key p ∈ answered)) /\
  (forall k, k ∈ answered -> k ∈ map key (peers m)).

Lemma merge_peer_key b o p : key (merge_peer b o p) = key p.
Proof. destruct o, b; reflexivity. Qed.

Lemma merge_peer_online b o p : online p = true -> online (merge_peer b o p) = true.
Proof. destruct o, b; auto. Qed.

Lemma on_peer_merged answered p now m :
  online p = true -> merged answered m -> merged (key p :: answered) (on_peer p now m).
Proof.
  intros Hp (H1 & H2 & H3). unfold on_peer. pose proof (remove_same_spec p (peers m) H1) as R.
  destruct (remove_same p (peers m)) as [old rest]. destruct R as (R1 & R2 & R3).
  set (q := merge_peer _ old p). assert (Hk : key q = key p) by apply merge_peer_key.
  assert (Hq : online q = true) by (apply merge_peer_online, Hp). clearbody q.
  unfold merged. cbn [peers map]. rewrite Hk. split; [constructor; assumption|]. split.
  - intros x [->|Hx]%elem_of_cons; [rewrite Hk; split; [intros _; apply list_elem_of_here|auto]|].
    apply R3 in Hx as [Hx Hkx]. rewrite (H2 x Hx), elem_of_cons. intuition.
  - intros k [->|Hx]%elem_of_cons; [apply list_elem_of_here|]. rewrite elem_of_cons.
    destruct (decide (k = key p)) as [->|Hne]; [auto|]. right.
    specialize (H3 k Hx). apply list_elem_of_In, in_map_iff in H3 as (x & Ex & Hin).
    apply list_elem_of_In, in_map_iff. exists x. split; [exact Ex|]. apply list_elem_of_In, R3.
    split; [apply list_elem_of_In, Hin|congruence].
Qed.

(** What a waiting thread reports is online. *)
Lemma wait_online bound mac reads : forall w, Forall (fun p => online p = true) (wait_response bound mac reads w).1.1.
Proof.
  induction reads as [|[r now] reads IH]; intros w; [constructor|]. cbn [wait_response].
  destruct (match r with Some d => on_datagram bound mac d w | None => (None, w) end) as [p w1] eqn:E.
  assert (Hp : Forall (fun p => online p = true) (match p with Some p => [p] | None => [] end)).
  { destruct p as [p|]; [|constructor]. constructor; [|constructor]. destruct r as [d|]; [|discriminate].
    unfold on_datagram in E. destruct (msg d) as [q|]; [|discriminate]. destruct (String.eqb (m_cmd q) "pong"); [|discriminate].
    destruct (local_mac bound mac d _) as [m w2]. destruct (_ || _); [|discriminate]. injection E as <- _. reflexivity. }
  destruct (3000 <? now - last_recv_time w1); [exact Hp|].
  specialize (IH w1). destruct (wait_response bound mac reads w1) as [[o w2] fin]. cbn in IH |- *.
  apply Forall_app. auto.
Qed.

(** A discovery stores one entry per peer, and shows as online exactly the
    peers whose answer came in, whatever was stored before and in whatever order
    the threads report. *)
Theorem discovery_exact (loaded : list DiscoveryPeer) (received : list (DiscoveryPeer * Z)) :
  NoDup (map key loaded) -> Forall (fun p => online p.1 = true) received ->
  exists l, last (handle_received_peers loaded received) = Some l /\
    NoDup (map key l) /\
    (forall p, p ∈ l -> (online p = true <-> key p ∈ map (fun r => key r.1) received)) /\
    (forall r, r ∈ received -> key r.1 ∈ map key l).
Proof.
  intros Hn Ho. unfold handle_received_peers.
  set (m := fold_left _ received (start loaded)). exists (peers m). split; [apply last_snoc|].
  assert (G : merged [] (start loaded)).
  { unfold merged, start. cbn [peers]. rewrite map_map. split; [exact Hn|]. split.
    - intros p Hp. apply list_elem_of_In, in_map_iff in Hp as (q & <- & _). split; [discriminate|intros H; inversion H].
    - intros k H. inversion H. }
  assert (H : forall rs a m0, Forall (fun p => online p.1 = true) rs -> merged a m0 ->
            exists a', (forall k, k ∈ a' <-> k ∈ a \/ k ∈ map (fun r => key r.1) rs) /\
                       merged a' (fold_left (fun m p => on_peer p.1 p.2 m) rs m0)).
  { induction rs as [|[p now] rs IH]; intros a m0 Hr Hm; [exists a; split; [|exact Hm]|].
    - intros k. cbn. split; [auto|]. intros [H|H]; [exact H|inversion H].
    - inversion_clear Hr as [|? ? R1 R2]. destruct (IH (key p :: a) _ R2 (on_peer_merged a p now m0 R1 Hm)) as (a' & A & B).
      exists a'. split; [|exact B]. intros k. rewrite A. cbn [map]. rewrite !elem_of_cons. tauto. }
  destruct (H received [] (start loaded) Ho G) as (a' & A & (M1 & M2 & M3)). fold m in M1, M2, M3.
  split; [exact M1|]. split.
  - intros p Hp. rewrite (M2 p Hp), A. split; [intros [X|X]; [inversion X|exact X]|auto].
  - intros r Hr. apply M3, A. right. apply list_elem_of_In, in_map_iff. exists r. split; [reflexivity|].
    apply list_elem_of_In, Hr.
Qed.

Definition demo_peer (i u : string) (b : bool) : DiscoveryPeer := mkPeer i u "h" "Linux" b ∅.

Lemma discovery_exact_witness :
  exists l, last (handle_received_peers [demo_peer "1" "ann" true; demo_peer "2" "bob" true]
                    [(demo_peer "2" "bob" true, 10); (demo_peer "3" "eve" true, 20); (demo_peer "2" "bob" true, 30)]) = Some l /\
    NoDup (map key l) /\ length l = 3%nat.
Proof.
  destruct (discovery_exact [demo_peer "1" "ann" true; demo_peer "2" "bob" true]
    [(demo_peer "2" "bob" true, 10); (demo_peer "3" "eve" true, 20); (demo_peer "2" "bob" true, 30)]) as (l & E & N & _).
  - apply (bool_decide_unpack _). vm_compute. exact I.
  - repeat constructor.
  - exists l. split; [exact E|]. split; [exact N|].
    transitivity (length (default [] (Some l))); [reflexivity|]. rewrite <- E. vm_compute. reflexivity.
Defined.

(** Any message of the protocol, an own ping too, starts the three seconds
    again: whoever sends one every three seconds keeps the thread. *)
Lemma ping_keeps_waiting bound mac from_ via_ n : forall w t,
  (wait_response bound mac
     (map (fun k => (Some (mkDatagram (t + Z.of_nat k) from_ via_ (Some query)), t + Z.of_nat k)) (seq 0 n)) w).2 = false.
Proof.
  intros w t. generalize O as k. revert w. induction n as [|n IH]; intros w k; [reflexivity|].
  cbn [seq map wait_response on_datagram msg]. change (String.eqb (m_cmd query) "pong") with false.
  cbn [last_recv_time at_]. rewrite Z.sub_diag. change (3000 <? 0) with false.
  specialize (IH (mkWaiter (t + Z.of_nat k) (w_mac w)) (S k)).
  destruct (wait_response _ _ _ _) as [[o w2] fin]. exact IH.
Qed.

(** An address that changes its hardware is kept with the old one while a
    discovery goes on. *)
Lemma old_mac_wins p q ip a b :
  ip_mac q !! ip = Some a -> ip_mac p !! ip = Some b -> ip_mac (merge_peer true (Some q) p) !! ip = Some a.
Proof. intros Hq Hp. cbn. apply lookup_union_Some_l, Hq. Qed.

End Lan.
