(* ===== verification/WebSocket.v ===== *)
(** * WebSocket transport ([libs/hbb_common/src/websocket.rs])

    The stream a connection uses instead of TCP when the option for WebSocket
    is on, the address a server has there ([check_ws]), the choice of the
    transport ([connect_tcp] of [socket_client.rs]) and the attempts to
    connect, with what [Tls] remembers.  The WebSocket protocol is a
    third-party crate: the stream is the messages that arrived and those that
    were handed over. *)

From S2P Require Import Prelude RustStr BytesCodec SecureStream NetUtil Tls.

Module Ws.

Import AddrMangle Secure HostPort Tls.

Abbreviation RENDEZVOUS_PORT := 21116.
Abbreviation RELAY_PORT := 21117.

(** ** The stream *)

Inductive WsMessage : Type :=
| Binary (data : list Z)
| Text (text : list Z)                      (* its UTF-8 bytes *)
| Ping (data : list Z)
| Pong (data : list Z)
| Close
| Frame (data : list Z).

Set Primitive Projections.
Record WsFramedStream : Type := mkWs {
  incoming : list (result WsMessage string);   (* what arrived and was not read *)
  ended : bool;                                (* nothing more will arrive *)
  written : list WsMessage;                    (* what was handed over *)
  addr : SocketAddr;
  ws_encrypt : option Encrypt;
  ws_send_timeout : Z
}.
Unset Primitive Projections.

#[export] Instance set_incoming : FieldSet incoming :=
  fun v r => mkWs v (ended r) (written r) (addr r) (ws_encrypt r) (ws_send_timeout r).
#[export] Instance set_written : FieldSet written :=
  fun v r => mkWs (incoming r) (ended r) v (addr r) (ws_encrypt r) (ws_send_timeout r).
#[export] Instance set_ws_encrypt : FieldSet ws_encrypt :=
  fun v r => mkWs (incoming r) (ended r) (written r) (addr r) v (ws_send_timeout r).
#[export] Instance set_ws_send_timeout : FieldSet ws_send_timeout :=
  fun v r => mkWs (incoming r) (ended r) (written r) (addr r) (ws_encrypt r) v.

Definition set_raw (s : WsFramedStream) : WsFramedStream := s <| ws_encrypt := None |>.

Definition from_tcp_stream (a : SocketAddr) : WsFramedStream := mkWs [] false [] a None 0.

Definition local_addr (s : WsFramedStream) : SocketAddr := addr s.

Definition set_send_timeout (ms : Z) (s : WsFramedStream) : WsFramedStream := s <| ws_send_timeout := ms |>.

Definition is_secured (s : WsFramedStream) : bool := match ws_encrypt s with Some _ => true | None => false end.

Section Stream.
Context `{SB : SecretBox}.

Definition set_key (k : list Z) (s : WsFramedStream) : WsFramedStream := s <| ws_encrypt := Some (Encrypt_new k) |>.

(** What the connection does with a message: takes it, fails, or takes no more
    for longer than the time-out. *)
Inductive Transport : Type := Takes | Fails (e : string) | Stalls.

(** [None]: the call does not return. *)
Definition send_bytes (t : Transport) (bytes : list Z) (s : WsFramedStream) : WsFramedStream * option (result unit string) :=
  match t with
  | Takes => (s <| written := written s ++ [Binary bytes] |>, Some (Ok tt))
  | Fails e => (s, Some (Err e))
  | Stalls => if 0 <? ws_send_timeout s then (s, Some (Err "deadline has elapsed")) else (s, None)
  end.

Definition send_raw (t : Transport) (msg : list Z) (s : WsFramedStream) : WsFramedStream * option (result unit string) :=
  match ws_encrypt s with
  | Some k => let '(msg, k) := enc k msg in send_bytes t msg (s <| ws_encrypt := Some k |>)
  | None => send_bytes t msg s
  end.

(** [send] of a protobuf message: [bytes] is what [write_to_bytes] gave. *)
Definition send (t : Transport) (bytes : result (list Z) string) (s : WsFramedStream) : WsFramedStream * option (result unit string) :=
  match bytes with
  | Ok msg => send_raw t msg s
  | Err e => (s, Some (Err e))
  end.

(** What [next] gives: an item of the stream, its end, or nothing yet. *)
Inductive Next : Type :=
| Item (r : result (list Z) string)
| EndOfStream
| Waiting.

Definition error_text (e : error) : string := match e with DecryptionError => "decryption error" | _ => "io" end.

Fixpoint next_ (l : list (result WsMessage string)) (s : WsFramedStream) : Next * WsFramedStream :=
  match l with
  | [] => (if ended s then EndOfStream else Waiting, s <| incoming := [] |>)
  | Err e :: l => (Item (Err ("WebSocket protocol error: " +:+ e)), s <| incoming := l |>)
  | Ok (Binary data) :: l =>
    match ws_encrypt s with
    | Some k =>
      match dec k data with
      | (Ok bytes, k) => (Item (Ok bytes), s <| incoming := l |> <| ws_encrypt := Some k |>)
      | (Err e, k) => (Item (Err (error_text e)), s <| incoming := l |> <| ws_encrypt := Some k |>)
      end
    | None => (Item (Ok data), s <| incoming := l |>)
    end
  | Ok (Text text) :: l => (Item (Ok text), s <| incoming := l |>)
  | Ok Close :: l => (EndOfStream, s <| incoming := l |>)
  | Ok _ :: l => next_ l s
  end.

Definition next (s : WsFramedStream) : Next * WsFramedStream := next_ (incoming s) s.

(** [next_timeout]: [None] both at the end and when the time is over.  What
    was skipped while waiting stays skipped. *)
Definition next_timeout (s : WsFramedStream) : option (result (list Z) string) * WsFramedStream :=
  match next s with
  | (Item r, s) => (Some r, s)
  | (EndOfStream, s) | (Waiting, s) => (None, s)
  end.

End Stream.

(** ** The address of a server *)

Definition is_ws_endpoint (endpoint : string) : bool := starts_with "ws://" endpoint || starts_with "wss://" endpoint.

(** What the configuration says. *)
Record WsConfig : Type := mkWsConfig {
  use_ws : bool;
  custom_rendezvous_server : string;        (* [Config::get_rendezvous_server] *)
  relay_server : string;
  api_server : string
}.

Section Address.
Context (is_ip_str is_ipv6_str : string -> bool).

Abbreviation split_hp := (split_host_port is_ipv6_str).

Definition check_ws (c : WsConfig) (endpoint : string) : string :=
  if negb (use_ws c) then endpoint
  else if String.eqb endpoint "" then endpoint
  else if is_ws_endpoint endpoint then endpoint
  else match split_hp endpoint with
  | None => endpoint
  | Some (endpoint_host, endpoint_port) =>
    let rendezvous_port := match split_hp (custom_rendezvous_server c) with
                           | Some (_, p) => p | None => RENDEZVOUS_PORT end in
    let relay_port := match split_hp (relay_server c) with Some (_, p) => p | None => RELAY_PORT end in
    let '(relay, dst_port) :=
      if endpoint_port =? rendezvous_port then (false, i32 (endpoint_port + 2))
      else if endpoint_port =? rendezvous_port - 1 then (false, i32 (endpoint_port + 3))
      else if (endpoint_port =? relay_port) || (endpoint_port =? i32 (rendezvous_port + 1)) then (true, i32 (endpoint_port + 2))
      else (true, i32 (endpoint_port + 2)) in
    let '(address, is_domain) :=
      if is_ip_str endpoint then (endpoint_host +:+ ":" +:+ show dst_port, false)
      else let domain_path := if relay : bool then "/ws/relay" else "/ws/id" in
           (endpoint_host +:+ domain_path, true) in
    let protocol := if is_domain : bool then (if starts_with "https" (api_server c) then "wss" else "ws") else "ws" in
    protocol +:+ "://" +:+ address
  end.

(** Which transport [connect_tcp] uses. *)
Inductive Route : Type :=
| ByWebSocket (url : string)
| ByProxy (proxy : string) (target : string)     (* [FramedStream::connect] *)
| ByNipIo (target : SocketAddr)                  (* the IPv6 address of [ip.nip.io] *)
| ByTcp (target : string).                       (* [FramedStream::new] *)

Definition connect_tcp_local (proxy : option string) (target : string) (resolved : option SocketAddr)
    (local : option SocketAddr) : Route :=
  match proxy with
  | Some conf => ByProxy conf target
  | None =>
    match resolved, local with
    | Some target_addr, Some local_addr =>
      match target_addr, local_addr with
      | V4 _ _, V6 _ _ _ _ => ByNipIo target_addr
      | _, _ => ByTcp target
      end
    | _, _ => ByTcp target
    end
  end.

Definition connect_tcp (c : WsConfig) (proxy : option string) (target : string) (resolved : option SocketAddr) : Route :=
  let target_str := check_ws c target in
  if is_ws_endpoint target_str then ByWebSocket target_str
  else connect_tcp_local proxy target resolved None.

End Address.

(** ** Connecting *)

(** [None]: the configuration of rustls could not be made and the crate's
    default connector, which checks certificates, is used. *)
Inductive Connector : Type :=
| CPlain
| CNativeTls (danger_accept_invalid_certs : bool)
| CRustls (danger_accept_invalid_certs : bool)
| CDefault.

Definition accepts_invalid (c : Connector) : bool :=
  match c with CNativeTls a | CRustls a => a | CPlain | CDefault => false end.

(** A new stream, as what [peer_addr] says of it. *)
Definition RawWs : Type := result SocketAddr string.

(** The handshake under its time-out. *)
Inductive WsAttempt : Type -> Type :=
| WsConnect (url : string) (ms_timeout : Z) (c : Connector) : WsAttempt (option (result RawWs string)).

Definition accepts_any {X} (v : WsAttempt X) : bool := match v with WsConnect _ _ c => accepts_invalid c end.

Section Connect.
(** Whether the crates can make a request of the address, a connector of
    native-tls, a configuration of rustls. *)
Context (into_client_request : string -> bool) (build_native client_config : bool -> bool).

Local Open Scope tls_scope.

Definition get_connector (t : TlsType) (danger_accept_invalid_certs : bool) : result Connector string :=
  match t with
  | Plain => Ok CPlain
  | NativeTls => if build_native danger_accept_invalid_certs then Ok (CNativeTls danger_accept_invalid_certs)
                 else Err "native-tls"
  | Rustls => if client_config danger_accept_invalid_certs then Ok (CRustls danger_accept_invalid_certs) else Ok CDefault
  end.

Fixpoint try_connect (fuel : nat) (url : string) (ms_timeout : Z) (tls_type : TlsType) (is_tls_type_cached : bool)
    (danger_accept_invalid_cert original_danger_accept_invalid_certs : option bool)
  : Prog WsAttempt (result RawWs string) :=
  match fuel with
  | O => NoFuel
  | S fuel =>
    let again := try_connect fuel url ms_timeout in
    if negb (into_client_request url) then Ret (Err "request")
    else match get_connector tls_type (unwrap_or false danger_accept_invalid_cert) with
    | Err e => Ret (Err e)
    | Ok connector =>
      ask r := Try (WsConnect url ms_timeout connector) in
      match r with
      | None => Ret (Err "deadline has elapsed")
      | Some (Ok a) =>
        let* _ := upsert_tls_cache url tls_type (unwrap_or false danger_accept_invalid_cert) in
        Ret (Ok a)
      | Some (Err e) =>
        match tls_type, is_tls_type_cached, danger_accept_invalid_cert with
        | Rustls, _, None => again tls_type is_tls_type_cached (Some true) original_danger_accept_invalid_certs
        | Rustls, false, Some _ =>
          again NativeTls is_tls_type_cached original_danger_accept_invalid_certs original_danger_accept_invalid_certs
        | NativeTls, _, None => again tls_type is_tls_type_cached (Some true) original_danger_accept_invalid_certs
        | _, _, _ => Ret (Err e)
        end
      end
    end
  end.

(** Enough for every path: each library, with and without checks. *)
Definition FUEL : nat := 4.

Definition connect (url : string) (ms_timeout : Z) : Prog WsAttempt (result RawWs string) :=
  let* tls_type := get_cached_tls_type url in
  let is_tls_type_cached := match tls_type with Some _ => true | None => false end in
  let tls_type := unwrap_or Rustls tls_type in
  let* danger_accept_invalid_cert := get_cached_tls_accept_invalid_cert url in
  try_connect FUEL url ms_timeout tls_type is_tls_type_cached danger_accept_invalid_cert danger_accept_invalid_cert.

Definition new (url : string) (ms_timeout : Z) : Prog WsAttempt (result WsFramedStream string) :=
  let* r := connect url ms_timeout in
  match r with
  | Ok (Ok a) => Ret (Ok (mkWs [] false [] a None ms_timeout))
  | Ok (Err e) => Ret (Err e)
  | Err e => Ret (Err e)
  end.

End Connect.

End Ws.
