(* ===== verification/Proxy.v ===== *)
(** * Connecting through a proxy ([libs/hbb_common/src/proxy.rs])

    The schemes a configured proxy is read as, its address, and [connect]:
    the CONNECT exchange of an HTTP proxy, the same under TLS with the
    fallbacks of [Tls] for an HTTPS proxy, and SOCKS5.  URL parsing, name
    resolution, TLS, SOCKS and the parser of a response are third-party
    crates.  A stream is what it will give to a reader ([Io]); a read that
    would wait for ever is one the time-out ends. *)

From S2P Require Import Prelude RustStr SecureStream Password Config NetUtil Tls.

Module Proxy.

Import AddrMangle Tls Utf8.
#[local] Open Scope rust_scope.

Abbreviation str_bytes := Config.str_bytes.

Definition MAXIMUM_RESPONSE_HEADER_LENGTH : Z := 4096.
Definition DEFINE_TIME_OUT : Z := 600.

Inductive ProxyError : Type :=
| IoError (e : string)
| TargetParseError (e : string)
| HttpParseError
| MaximumResponseHeaderLengthExceeded (n : Z)
| EndOfFile
| UrlBadScheme (s : string)
| UrlParseScheme
| NoHttpCode
| HttpCode200 (code : Z)
| AddressResolutionFailed (s : string)
| NativeTlsError.

(** ** Schemes *)

Record Auth : Type := mkAuth { user_name : string; auth_password : list Z }.

Inductive ProxyScheme : Type :=
| Http (auth : option Auth) (host : string)
| Https (auth : option Auth) (host : string)
| Socks5 (addr : SocketAddr) (auth : option Auth) (remote_dns : bool).

Definition maybe_auth (s : ProxyScheme) : option Auth :=
  match s with Http a _ | Https a _ | Socks5 _ a _ => a end.

Definition set_basic_auth (username : string) (password : list Z) (s : ProxyScheme) : ProxyScheme :=
  let auth := Some (mkAuth username password) in
  match s with
  | Http _ host => Http auth host
  | Https _ host => Https auth host
  | Socks5 addr _ dns => Socks5 addr auth dns
  end.

(** What the crate [url] says of an address. *)
Record Url : Type := mkUrl {
  url_text : string;
  has_host : bool;
  scheme : string;
  host_and_port : string;                                   (* [BeforeHost .. AfterPort] *)
  socket_addrs_of : option Z -> result (list SocketAddr) string;
  url_username : string;
  url_password : option string
}.

Section Scheme.
Context (url_parse : string -> option Url).

Definition into_url (s : string) : result Url ProxyError :=
  match url_parse s with
  | None => Err UrlParseScheme
  | Some u => if has_host u then Ok u else Err (UrlBadScheme (url_text u))
  end.

Definition parse (u : Url) : result ProxyScheme ProxyError :=
  let to_addr :=
    match socket_addrs_of u (if String.eqb (scheme u) "socks5" then Some 1080 else None) with
    | Err e => Err (IoError e)
    | Ok (a :: _) => Ok a
    | Ok [] => Err UrlParseScheme
    end in
  let? s := (if String.eqb (scheme u) "http" then Ok (Http None (host_and_port u))
             else if String.eqb (scheme u) "https" then Ok (Https None (host_and_port u))
             else if String.eqb (scheme u) "socks5" then (let? a := to_addr in Ok (Socks5 a None false))
             else Err (UrlBadScheme (scheme u))) in
  match url_password u with
  | Some pwd => Ok (set_basic_auth (url_username u) (str_bytes pwd) s)
  | None => Ok s
  end.

Definition into_proxy_scheme (s : string) : result ProxyScheme ProxyError :=
  match into_url s with
  | Ok u => parse u
  | Err UrlParseScheme => let? u := into_url ("socks5://" +:+ s) in parse u
  | Err e => Err e
  end.

Record Proxy : Type := mkProxy { intercept : ProxyScheme; proxy_timeout : Z }.

Definition new (s : string) (ms_timeout : Z) : result Proxy ProxyError :=
  let? i := into_proxy_scheme s in Ok (mkProxy i ms_timeout).

Definition is_http_or_https (p : Proxy) : bool := match intercept p with Socks5 _ _ _ => false | _ => true end.

Definition basic_auth (username : string) (password : list Z) (p : Proxy) : Proxy :=
  mkProxy (set_basic_auth username password (intercept p)) (proxy_timeout p).

Definition from_conf (conf : Config.Socks5Server) (ms_timeout : option Z) : result Proxy ProxyError :=
  let? p := new (Config.proxy conf) (unwrap_or DEFINE_TIME_OUT ms_timeout) in
  if negb (len (Config.socks_password conf) =? 0) && negb (String.eqb (Config.username conf) "")
  then Ok (basic_auth (Config.username conf) (Config.socks_password conf) p)
  else Ok p.

End Scheme.

(** ** The proxy's address *)

(** [split_once]. *)
Definition split_once (c : ascii) (s : string) : option (string * string) :=
  if contains_char c s
  then Some (until_any (Ascii.eqb c) s, drop_str (S (String.length (until_any (Ascii.eqb c) s))) s)
  else None.

Section Address.
(** [to_socket_addrs], and an address as text without and with its port. *)
Context (to_socket_addrs : string -> Z -> result (list SocketAddr) string).
Context (ip_text addr_text : SocketAddr -> string).

Definition resolve_host (host : string) (default_port : Z) : result SocketAddr ProxyError :=
  let '(host_str, port) :=
    match split_once ":" host with
    | Some (h, p) => (h, parse_u16 p)
    | None => (host, None)
    end in
  match to_socket_addrs host_str (unwrap_or default_port port) with
  | Err e => Err (IoError e)
  | Ok (a :: _) => Ok a
  | Ok [] => Err (AddressResolutionFailed host)
  end.

(** Also [Proxy::proxy_addrs]. *)
Definition socket_addrs (s : ProxyScheme) : result SocketAddr ProxyError :=
  match s with
  | Http _ host => resolve_host host 80
  | Https _ host => resolve_host host 443
  | Socks5 addr _ _ => Ok addr
  end.

Definition get_domain (s : ProxyScheme) : result string ProxyError :=
  match s with
  | Http _ host | Https _ host =>
    match split_char ":" host with
    | domain :: _ => Ok domain
    | [] => Err (AddressResolutionFailed host)
    end
  | Socks5 addr _ _ => Ok (ip_text addr)
  end.

Definition append_default_port (host : string) (default_port : Z) : string :=
  if contains_char ":" host then host else host +:+ ":" +:+ show default_port.

Definition get_host_and_port (s : ProxyScheme) : string :=
  match s with
  | Http _ host => append_default_port host 80
  | Https _ host => append_default_port host 443
  | Socks5 addr _ _ => addr_text addr
  end.

End Address.

(** ** The CONNECT exchange *)

Definition CRLF : string := bytes_string [13; 10].

Inductive TargetAddr : Type :=
| TargetIp (addr : SocketAddr)
| TargetDomain (name : string) (port : Z).

Definition port_of (a : SocketAddr) : Z := match a with V4 _ p => p | V6 _ p _ _ => p end.

Section Exchange.
Context (base64 : list Z -> string) (ip_text : SocketAddr -> string).

Definition get_basic_authorization (a : Auth) : string :=
  base64 (str_bytes (user_name a) ++ str_bytes ":" ++ auth_password a).

Definition get_proxy_authorization (a : Auth) : string :=
  "Proxy-Authorization: Basic " +:+ get_basic_authorization a +:+ CRLF.

Definition get_domain_and_port (t : TargetAddr) : string * Z :=
  match t with
  | TargetIp addr => (ip_text addr, port_of addr)
  | TargetDomain name port => (name, port)
  end.

Definition make_request (p : Proxy) (host : string) (port : Z) : string :=
  let hp := host +:+ ":" +:+ show port in
  let request := "CONNECT " +:+ hp +:+ " HTTP/1.1" +:+ CRLF +:+ "Host: " +:+ hp +:+ CRLF in
  let request := match maybe_auth (intercept p) with
                 | Some auth => request +:+ get_proxy_authorization auth
                 | None => request
                 end in
  request +:+ CRLF.

End Exchange.

(** What a stream gives to a reader, and then; what happens to what is
    written. *)
Inductive Ending : Type := Eof | IoFails (e : string) | Silent.
Inductive Writes : Type := WTaken | WFails (e : string) | WStalls.

Record Io : Type := mkIo { io_in : list Z; io_end : Ending; io_writes : Writes }.

(** A line with its line feed, and the rest. *)
Fixpoint split_line (l : list Z) : option (list Z * list Z) :=
  match l with
  | [] => None
  | b :: l =>
    if b =? 10 then Some ([b], l)
    else match split_line l with Some (x, r) => Some (b :: x, r) | None => None end
  end.

Inductive Line : Type :=
| Got (line : list Z) (rest : Io)
| LineFails (e : string)
| LineWaits.

(** [AsyncBufReadExt::read_line]: at the end of the stream what is left,
    possibly nothing; bytes that are not UTF-8 are an error. *)
Definition read_line (s : Io) : Line :=
  let checked line rest :=
    if is_utf8 line then Got line (mkIo rest (io_end s) (io_writes s))
    else LineFails "stream did not contain valid UTF-8" in
  match split_line (io_in s) with
  | Some (line, rest) => checked line rest
  | None =>
    match io_end s with
    | Eof => checked (io_in s) []
    | IoFails e => LineFails e
    | Silent => LineWaits
    end
  end.

Definition CRLF2 : list Z := [13; 10; 13; 10].

Definition ends_with_bytes (pat l : list Z) : bool := bool_decide (drop (length l - length pat) l = pat).

(** [None]: it waits for ever.  [fuel] bounds the number of lines. *)
Fixpoint get_response (fuel : nat) (response : list Z) (s : Io) : option (result (list Z * Io) ProxyError) :=
  match fuel with
  | O => None
  | S fuel =>
    match read_line s with
    | LineWaits => None
    | LineFails e => Some (Err (IoError e))
    | Got [] _ => Some (Err EndOfFile)
    | Got line s =>
      let response := response ++ line in
      if MAXIMUM_RESPONSE_HEADER_LENGTH <? len response then Some (Err (MaximumResponseHeaderLengthExceeded (len response)))
      else if ends_with_bytes CRLF2 response then Some (Ok (response, s))
      else get_response fuel response s
    end
  end.

(** Every line takes at least a byte. *)
Definition response_fuel (s : Io) : nat := S (S (length (io_in s))).

Section Connect.
(** The crates: the status of a response ([httparse], with room for 16
    headers; [None] when it does not parse), the name of a certificate, the
    configuration of rustls, the builder of native-tls. *)
Context (http_status : list Z -> option (option Z)).
Context (server_name : string -> bool) (client_config build_native : bool -> bool).
Context (base64 : list Z -> string) (ip_text addr_text : SocketAddr -> string).
Context (to_socket_addrs : string -> Z -> result (list SocketAddr) string).

Definition recv_and_check_response (s : Io) : option (result Io ProxyError) :=
  match get_response (response_fuel s) [] s with
  | None => None
  | Some (Err e) => Some (Err e)
  | Some (Ok (response, s)) =>
    match http_status response with
    | None => Some (Err HttpParseError)
    | Some (Some code) => if code =? 200 then Some (Ok s) else Some (Err (HttpCode200 code))
    | Some None => Some (Err NoHttpCode)
    end
  end.

(** A stream to the target: the request that was sent on it and what remains
    to be read. *)
Record Tunnel : Type := mkTunnel { request : string; tunnel_io : Io }.

Definition http_connect (p : Proxy) (s : Io) (target_addr : TargetAddr) : option (result Tunnel ProxyError) :=
  let '(domain, port) := get_domain_and_port ip_text target_addr in
  let request := make_request base64 p domain port in
  match io_writes s with
  | WFails e => Some (Err (IoError e))
  | WStalls => None
  | WTaken =>
    match recv_and_check_response s with
    | None => None
    | Some (Err e) => Some (Err e)
    | Some (Ok s) => Some (Ok (mkTunnel request s))
    end
  end.

(** *** What is done to the network *)

Record Tcp : Type := mkTcp { tcp_local : result SocketAddr string; tcp_io : Io }.

Inductive ProxyAttempt : Type -> Type :=
| NewStream (local proxy : SocketAddr) : ProxyAttempt (result Tcp string)
| Handshake (t : TlsType) (danger_accept_invalid_cert : bool) (domain : string) : ProxyAttempt (option (result Io ProxyError))
| SocksConnect (auth : option Auth) (target : TargetAddr) : ProxyAttempt (option (result Io string)).

Definition proxy_accepts_any {X} (v : ProxyAttempt X) : bool :=
  match v with Handshake _ a _ => a | NewStream _ _ | SocksConnect _ _ => false end.

Local Open Scope tls_scope.

Definition https_connect_nativetls (p : Proxy) (target_addr : TargetAddr) (danger_accept_invalid_cert : bool)
  : Prog ProxyAttempt (option (result Tunnel ProxyError)) :=
  if negb (build_native danger_accept_invalid_cert) then Ret (Some (Err NativeTlsError))
  else match get_domain ip_text (intercept p) with
  | Err e => Ret (Some (Err e))
  | Ok domain =>
    ask r := Try (Handshake NativeTls danger_accept_invalid_cert domain) in
    match r with
    | None => Ret None
    | Some (Err e) => Ret (Some (Err e))
    | Some (Ok s) => Ret (http_connect p s target_addr)
    end
  end.

Definition https_connect_rustls (p : Proxy) (target_addr : TargetAddr) (danger_accept_invalid_cert : bool)
  : Prog ProxyAttempt (option (result Tunnel ProxyError)) :=
  match get_domain ip_text (intercept p) with
  | Err e => Ret (Some (Err e))
  | Ok url_domain =>
    if negb (server_name url_domain) then Ret (Some (Err (AddressResolutionFailed url_domain)))
    else if negb (client_config danger_accept_invalid_cert) then Ret (Some (Err (IoError "rustls")))
    else
      ask r := Try (Handshake Rustls danger_accept_invalid_cert url_domain) in
      match r with
      | None => Ret None
      | Some (Err e) => Ret (Some (Err e))
      | Some (Ok s) => Ret (http_connect p s target_addr)
      end
  end.

(** The errors of a connection, as [anyhow] carries them. *)
Inductive ConnectError : Type :=
| Elapsed
| OfTcp (e : string)
| OfProxy (e : ProxyError)
| OfText (e : string).

Definition https_connect_nativetls_wrap_danger (p : Proxy) (url : string) (local proxy : SocketAddr)
    (target_addr : TargetAddr) (danger_accept_invalid_cert : option bool) : Prog ProxyAttempt (result Tunnel ConnectError) :=
  ask stream := Try (NewStream local proxy) in
  match stream with
  | Err e => Ret (Err (OfTcp e))
  | Ok _ =>
    let* s := https_connect_nativetls p target_addr (unwrap_or false danger_accept_invalid_cert) in
    match s with
    | None => Ret (Err Elapsed)
    | Some (Err e) => Ret (Err (OfProxy e))
    | Some (Ok s) =>
      let* _ := upsert_tls_cache url NativeTls (unwrap_or false danger_accept_invalid_cert) in
      Ret (Ok s)
    end
  end.

(** The argument of [unwrap_or] is evaluated whether or not a stream was
    given. *)
Fixpoint https_connect_rustls_wrap_danger (fuel : nat) (p : Proxy) (url : string) (local proxy : SocketAddr)
    (stream : option Tcp) (target_addr : TargetAddr) (is_tls_type_cached : bool)
    (danger_accept_invalid_cert origin_danger_accept_invalid_cert : option bool)
  : Prog ProxyAttempt (result Tunnel ConnectError) :=
  match fuel with
  | O => NoFuel
  | S fuel =>
    ask fresh := Try (NewStream local proxy) in
    match fresh with
    | Err e => Ret (Err (OfTcp e))
    | Ok fresh =>
      let stream := unwrap_or fresh stream in
      let* r := https_connect_rustls p target_addr (unwrap_or false danger_accept_invalid_cert) in
      match r with
      | None => Ret (Err Elapsed)
      | Some (Ok s) =>
        let* _ := upsert_tls_cache url Rustls (unwrap_or false danger_accept_invalid_cert) in
        Ret (Ok s)
      | Some (Err e) =>
        match danger_accept_invalid_cert with
        | None =>
          https_connect_rustls_wrap_danger fuel p url local proxy None target_addr is_tls_type_cached
            (Some true) origin_danger_accept_invalid_cert
        | Some _ =>
          if negb is_tls_type_cached then
            https_connect_nativetls_wrap_danger p url local proxy target_addr origin_danger_accept_invalid_cert
          else Ret (Err (OfProxy e))
        end
      end
    end
  end.

Definition FUEL : nat := 2.

(** [connect]: the stream and the address it is known by. *)
Definition connect (p : Proxy) (target : result TargetAddr string) (local_addr : option SocketAddr)
  : Prog ProxyAttempt (result (Tunnel * SocketAddr) ConnectError) :=
  match socket_addrs to_socket_addrs (intercept p) with
  | Err e => Ret (Err (OfProxy e))
  | Ok proxy =>
    match target with
    | Err e => Ret (Err (OfProxy (TargetParseError e)))
    | Ok target_addr =>
      let is_v4 := match proxy with V4 _ _ => true | V6 _ _ _ _ => false end in
      let local := unwrap_or (get_any_listen_addr is_v4) local_addr in
      ask stream := Try (NewStream local proxy) in
      match stream with
      | Err e => Ret (Err (OfTcp e))
      | Ok stream =>
        match tcp_local stream with
        | Err e => Ret (Err (OfTcp e))
        | Ok addr =>
          let with_addr (r : result Tunnel ConnectError) :=
            match r with Ok s => Ok (s, addr) | Err e => Err e end in
          match intercept p with
          | Http _ _ =>
            match http_connect p (tcp_io stream) target_addr with
            | None => Ret (Err Elapsed)
            | Some (Err e) => Ret (Err (OfProxy e))
            | Some (Ok s) => Ret (Ok (s, addr))
            end
          | Https _ _ =>
            let url := "https://" +:+ get_host_and_port addr_text (intercept p) in
            let* tls_type := get_cached_tls_type url in
            let* danger_accept_invalid_cert := get_cached_tls_accept_invalid_cert url in
            match unwrap_or Rustls tls_type with
            | Rustls =>
              let* r := https_connect_rustls_wrap_danger FUEL p url local proxy (Some stream) target_addr
                          (match tls_type with Some _ => true | None => false end)
                          danger_accept_invalid_cert danger_accept_invalid_cert in
              Ret (with_addr r)
            | NativeTls =>
              let* r := https_connect_nativetls_wrap_danger p url local proxy target_addr danger_accept_invalid_cert in
              Ret (with_addr r)
            | Plain => Ret (Err (OfText "Unreachable, TlsType::Plain in HTTPS proxy"))
            end
          | Socks5 _ auth _ =>
            ask r := Try (SocksConnect auth target_addr) in
            match r with
            | None => Ret (Err Elapsed)
            | Some (Err e) => Ret (Err (OfText e))
            | Some (Ok s) => Ret (Ok (mkTunnel "" s, addr))
            end
          end
        end
      end
    end
  end.

End Connect.

End Proxy.
