(* ===== verification/Http.v ===== *)
(** * HTTP clients and requests ([src/hbbs_http/http_client.rs], [src/common.rs])

    How a client of the crate [reqwest] is configured, the search for a TLS
    library and for the need to accept an invalid certificate
    ([create_http_client_with_url], its asynchronous twin, [post_request] and
    [http_request_sync]), as programs over what [Tls] remembers.  Also here:
    the response of the API server as a value ([src/hbbs_http.rs]).

    The crate, JSON and its text are parameters.  The configuration (the proxy
    and the option) does not change while a client is being made, apart from
    the option, whose readings are operations. *)

From S2P Require Import Prelude RustStr Password Config NetUtil Tls Proxy.

Module Http.

Import Tls.

(** ** Clients *)

Record ProxyUse : Type := mkProxyUse { pu_url : string; pu_auth : option (string * list Z) }.

(** [Default] is [Client::new()]: certificates are checked, and the proxies of
    the environment apply. *)
Inductive Client : Type :=
| Built (t : TlsType) (danger_accept_invalid_certs : bool) (proxy : option ProxyUse)
| Default.

Definition client_accepts_any (c : Client) : bool := match c with Built _ a _ => a | Default => false end.

Record ReqError : Type := mkReqError { is_request : bool; error_text : string }.

(** A response; reading its body may fail. *)
Record Response : Type := mkResponse {
  status : Z; headers : list (string * string); text : result string string }.

(** What is sent: the method, the headers, the body. *)
Inductive Send : Type -> Type :=
| Head (c : Client) (url : string) : Send (result Response ReqError)
| Request (c : Client) (method url : string) (hs : list (string * string)) (body : option string)
  : Send (result Response ReqError).

Definition sent_by {X} (v : Send X) : Client := match v with Head c _ | Request c _ _ _ _ => c end.
Definition sends_to_any {X} (v : Send X) : bool := client_accepts_any (sent_by v).

Section Http.
Context (socks : option Config.Socks5Server).
Context (url_parse : string -> option Proxy.Url) (addr_text : NetUtil.AddrMangle.SocketAddr -> string).
(** [reqwest::Proxy::all] and [ClientBuilder::build]. *)
Context (proxy_all : string -> bool) (build : TlsType -> bool -> option ProxyUse -> bool).

(** The macro [configure_http_client] on the systems with a desktop. *)
Definition create_http_client (tls_type : TlsType) (danger_accept_invalid_cert : bool) : Client :=
  let danger := match tls_type with Plain => false | NativeTls | Rustls => danger_accept_invalid_cert end in
  let built p := if build tls_type danger p then Built tls_type danger p else Default in
  match socks with
  | Some conf =>
    match Proxy.from_conf url_parse conf None with
    | Ok proxy =>
      let url := match Proxy.intercept proxy with
                 | Proxy.Http _ host => "http://" +:+ host
                 | Proxy.Https _ host => "https://" +:+ host
                 | Proxy.Socks5 addr _ _ => "socks5://" +:+ addr_text addr
                 end in
      if proxy_all url then
        let auth := match Proxy.maybe_auth (Proxy.intercept proxy) with
                    | Some auth =>
                      if negb (String.eqb (Proxy.user_name auth) "") && negb (len (Proxy.auth_password auth) =? 0)
                      then Some (Proxy.user_name auth, Proxy.auth_password auth) else None
                    | None => None
                    end in
        built (Some (mkProxyUse url auth))
      else Default
    | Err _ => Default
    end
  | None => built None
  end.

Definition get_url_for_tls (url : string) : string :=
  if is_plain url then
    match socks with
    | Some conf => if starts_with "https://" (Config.proxy conf) then Config.proxy conf else url
    | None => url
    end
  else url.

Local Open Scope tls_scope.

Abbreviation P := (Prog Send).

Definition is_Some' {A} (o : option A) : bool := match o with Some _ => true | None => false end.

(** ** The client for an address *)

Fixpoint create_http_client_with_url_ (fuel : nat) (url tls_url : string) (tls_type : TlsType) (is_tls_type_cached : bool)
    (danger_accept_invalid_cert original_danger_accept_invalid_cert : option bool) : P Client :=
  match fuel with
  | O => NoFuel
  | S fuel =>
    let again t danger :=
      create_http_client_with_url_ fuel url tls_url t is_tls_type_cached danger original_danger_accept_invalid_cert in
    let client := create_http_client tls_type (unwrap_or false danger_accept_invalid_cert) in
    if is_tls_type_cached && is_Some' original_danger_accept_invalid_cert then Ret client
    else
      ask r := Try (Head client url) in
      match r with
      | Err e =>
        if is_request e then
          match tls_type, is_tls_type_cached, danger_accept_invalid_cert with
          | Rustls, _, None => again tls_type (Some true)
          | Rustls, false, Some _ => again NativeTls original_danger_accept_invalid_cert
          | NativeTls, _, None => again tls_type (Some true)
          | _, _, _ => Ret client
          end
        else Ret client
      | Ok _ =>
        let* _ := upsert_tls_cache tls_url tls_type (unwrap_or false danger_accept_invalid_cert) in
        Ret client
      end
  end.

(** Enough for every path: each library, with and without checks. *)
Definition FUEL : nat := 4.

Definition create_http_client_with_url (url : string) : P Client :=
  let tls_url := get_url_for_tls url in
  let* tls_type := get_cached_tls_type tls_url in
  let is_tls_type_cached := is_Some' tls_type in
  let tls_type := unwrap_or Rustls tls_type in
  let* tls_danger_accept_invalid_cert := get_cached_tls_accept_invalid_cert tls_url in
  create_http_client_with_url_ FUEL url tls_url tls_type is_tls_type_cached
    tls_danger_accept_invalid_cert tls_danger_accept_invalid_cert.

Fixpoint create_http_client_async_with_url_ (fuel : nat) (url tls_url : string) (tls_type : TlsType)
    (is_tls_type_cached : bool) (danger_accept_invalid_cert original_danger_accept_invalid_cert : option bool) : P Client :=
  match fuel with
  | O => NoFuel
  | S fuel =>
    let again t danger :=
      create_http_client_async_with_url_ fuel url tls_url t is_tls_type_cached danger original_danger_accept_invalid_cert in
    let client := create_http_client tls_type (unwrap_or false danger_accept_invalid_cert) in
    if is_tls_type_cached && is_Some' original_danger_accept_invalid_cert then Ret client
    else
      ask r := Try (Head client url) in
      match r with
      | Err e =>
        match tls_type, is_tls_type_cached, danger_accept_invalid_cert with
        | Rustls, _, None => again tls_type (Some true)
        | Rustls, false, Some _ => again NativeTls original_danger_accept_invalid_cert
        | NativeTls, _, None => again tls_type (Some true)
        | _, _, _ => Ret client
        end
      | Ok _ =>
        let* _ := upsert_tls_cache tls_url tls_type (unwrap_or false danger_accept_invalid_cert) in
        Ret client
      end
  end.

Definition create_http_client_async_with_url (url : string) : P Client :=
  let tls_url := get_url_for_tls url in
  let* tls_type := get_cached_tls_type tls_url in
  let is_tls_type_cached := is_Some' tls_type in
  let tls_type := unwrap_or Rustls tls_type in
  let* danger_accept_invalid_cert := get_cached_tls_accept_invalid_cert tls_url in
  create_http_client_async_with_url_ FUEL url tls_url tls_type is_tls_type_cached
    danger_accept_invalid_cert danger_accept_invalid_cert.

(** ** Posting *)

(** One header in the text [name: value]. *)
Definition header_of (header : string) : list (string * string) :=
  if String.eqb header "" then []
  else match split_str ": " header with
       | [k; v] => [(k, v)]
       | _ => []
       end.

Fixpoint post_request_ (fuel : nat) (url tls_url body header : string) (tls_type : option TlsType)
    (danger_accept_invalid_cert original_danger_accept_invalid_cert : option bool) : P (result Response string) :=
  match fuel with
  | O => NoFuel
  | S fuel =>
    let again t danger := post_request_ fuel url tls_url body header t danger original_danger_accept_invalid_cert in
    let client := create_http_client (unwrap_or Rustls tls_type) (unwrap_or false danger_accept_invalid_cert) in
    let hs := header_of header ++ [("Content-Type", "application/json")] in
    let found resp :=
      let* _ := upsert_tls_cache tls_url (unwrap_or Rustls tls_type) (unwrap_or false danger_accept_invalid_cert) in
      Ret (Ok resp) in
    if is_Some' tls_type && is_Some' danger_accept_invalid_cert then
      ask r := Try (Request client "post" url hs (Some body)) in
      match r with
      | Ok resp => found resp
      | Err e => Ret (Err (error_text e))
      end
    else
      ask r := Try (Request client "post" url hs (Some body)) in
      match r with
      | Ok resp => found resp
      | Err e =>
        if (negb (is_Some' tls_type) || negb (is_Some' danger_accept_invalid_cert)) && is_request e then
          if negb (is_Some' danger_accept_invalid_cert) then again tls_type (Some true)
          else again (Some NativeTls) original_danger_accept_invalid_cert
        else Ret (Err (error_text e))
      end
  end.

Definition post_request (url body header : string) : P (result string string) :=
  let tls_url := get_url_for_tls url in
  let* tls_type := get_cached_tls_type tls_url in
  let* danger_accept_invalid_cert := get_cached_tls_accept_invalid_cert tls_url in
  let* response := post_request_ FUEL url tls_url body header tls_type danger_accept_invalid_cert
                     danger_accept_invalid_cert in
  match response with
  | Ok r => Ret (text r)
  | Err e => Ret (Err e)
  end.

Definition post_request_sync := post_request.

(** ** Any request *)

(** A text of JSON: not JSON, an object with the texts of its values (empty
    for a value that is not a text), or another value. *)
Inductive HeaderText : Type := NotJson | JsonObject (l : list (string * string)) | JsonOther.

Context (header_json : string -> HeaderText).

Definition METHODS : list string := ["get"; "post"; "put"; "delete"].

Fixpoint get_http_response_async (fuel : nat) (url tls_url method : string) (body : option string) (header : string)
    (tls_type : option TlsType) (danger_accept_invalid_cert original_danger_accept_invalid_cert : option bool)
  : P (result Response string) :=
  match fuel with
  | O => NoFuel
  | S fuel =>
    let again t danger :=
      get_http_response_async fuel url tls_url method body header t danger original_danger_accept_invalid_cert in
    let http_client := create_http_client (unwrap_or Rustls tls_type) (unwrap_or false danger_accept_invalid_cert) in
    let found resp :=
      let* _ := upsert_tls_cache tls_url (unwrap_or Rustls tls_type) (unwrap_or false danger_accept_invalid_cert) in
      Ret (Ok resp) in
    if negb (bool_decide (method ∈ METHODS)) then Ret (Err "The HTTP request method is not supported!")
    else match header_json header with
    | NotJson => Ret (Err "json")
    | JsonOther => Ret (Err "HTTP header information parsing failed!")
    | JsonObject hs =>
      if is_Some' tls_type && is_Some' danger_accept_invalid_cert then
        ask r := Try (Request http_client method url hs body) in
        match r with
        | Ok resp => found resp
        | Err e => Ret (Err (error_text e))
        end
      else
        ask r := Try (Request http_client method url hs body) in
        match r with
        | Ok resp => found resp
        | Err e =>
          if (negb (is_Some' tls_type) || negb (is_Some' danger_accept_invalid_cert)) && is_request e then
            if negb (is_Some' danger_accept_invalid_cert) then again tls_type (Some true)
            else again (Some NativeTls) original_danger_accept_invalid_cert
          else Ret (Err (error_text e))
        end
    end
  end.

(** The response as JSON text: [response_json status headers body]. *)
Context (response_json : Z -> list (string * string) -> string -> result string string).

Definition http_request_sync (url method : string) (body : option string) (header : string) : P (result string string) :=
  let tls_url := get_url_for_tls url in
  let* tls_type := get_cached_tls_type tls_url in
  let* danger_accept_invalid_cert := get_cached_tls_accept_invalid_cert tls_url in
  let* response := get_http_response_async FUEL url tls_url method body header tls_type danger_accept_invalid_cert
                     danger_accept_invalid_cert in
  match response with
  | Err e => Ret (Err e)
  | Ok r =>
    match text r with
    | Err e => Ret (Err e)
    | Ok response_body => Ret (response_json (status r) (headers r) response_body)
    end
  end.

(** ** The newest version

    [version_url] is where to ask, with [request]; [release_url] reads the
    answer.  The result is what [SOFTWARE_UPDATE_URL] becomes. *)
Context (release_url : string -> result string string).

Definition do_check_software_update (version_url request VERSION : string) : P (result string string) :=
  let tls_url := get_url_for_tls version_url in
  let* tls_type := get_cached_tls_type tls_url in
  let is_tls_not_cached := negb (is_Some' tls_type) in
  let tls_type := unwrap_or Rustls tls_type in
  let post t := Request (create_http_client t false) "post" version_url [] (Some request) in
  let read (r : Response) : P (result string string) :=
    match text r with
    | Err e => Ret (Err e)
    | Ok bytes =>
      match release_url bytes with
      | Err e => Ret (Err e)
      | Ok response_url =>
        let latest_release_version := unwrap_or response_url (after_last "/" response_url) in
        if Version.get_version_number VERSION <? Version.get_version_number latest_release_version
        then Ret (Ok response_url) else Ret (Ok "")
      end
    end in
  ask r := Try (post tls_type) in
  match r with
  | Ok resp => let* _ := upsert_tls_cache tls_url tls_type false in read resp
  | Err err =>
    if is_tls_not_cached && is_request err then
      ask r := Try (post NativeTls) in
      match r with
      | Ok resp => let* _ := upsert_tls_cache tls_url NativeTls false in read resp
      | Err e => Ret (Err (error_text e))
      end
    else Ret (Err (error_text err))
  end.

End Http.

(** ** The API server's answers ([HbbHttpResponse]) *)

Inductive HbbHttpResponse (T : Type) : Type :=
| ErrorFormat
| Error (e : string)
| DataTypeFormat
| Data (v : T).
Arguments ErrorFormat {T}.
Arguments Error {T} e.
Arguments DataTypeFormat {T}.
Arguments Data {T} v.

(** The object of an answer: its field [error], when there is one (whether it
    is a text), and its reading as a [T]. *)
Record JsonBody (T : Type) : Type := mkJsonBody { error_field : option (option string); as_data : option T }.
Arguments mkJsonBody {T} _ _.
Arguments error_field {T} _.
Arguments as_data {T} _.

Definition try_from {T} (json : option (JsonBody T)) : result (HbbHttpResponse T) string :=
  match json with
  | None => Err "not a JSON object"
  | Some map =>
    match error_field map with
    | Some (Some err) => Ok (Error err)
    | Some None => Ok ErrorFormat
    | None => match as_data map with Some v => Ok (Data v) | None => Ok DataTypeFormat end
    end
  end.

End Http.
