(* ===== verification/HttpProofs.v ===== *)
(** * Certificates: when they are checked, and the attempts that are made

    The properties of the programs of [WebSocket], [Proxy] and [Http]: with
    the insecure fallback off no attempt accepts an invalid certificate; a
    server that was reached with a checked certificate is contacted with
    checks from then on; the attempts are those of [ladder], in order.  Also
    the exchange with an HTTP proxy, and what a WebSocket stream with a key
    delivers. *)

From S2P Require Import Prelude RustStr BytesCodec SecureStream Password Config NetUtil Handshake Tls WebSocket Proxy Http.

Module HttpSafety.

Import Tls.
#[local] Open Scope tls_scope.

(** ** Attempts that must check

    [strictly] is when they must: because the option is off, or because the
    table says that the certificate of [key] was valid. *)

Section Careful.
Context {V : Type -> Type} (danger : forall X, V X -> bool) (key : string) (off pin : Prop).

Definition careful X (op : Op V X) : Prop :=
  match op with
  | Try v => off \/ pin -> danger _ v = false
  | WriteAccept d a => d = key /\ (off \/ pin -> a = false)
  | ClearTypes | ClearAccepts => False
  | _ => True
  end.

Definition informed X (op : Op V X) : X -> Prop :=
  match op in Op _ X return X -> Prop with
  | Allowed => fun x => off -> x = false
  | ReadAccept d => fun x => pin -> d = key -> x = Some false
  | _ => fun _ => True
  end.

Abbreviation wp := (wp careful informed).

Definition must_check (a : option bool) : Prop := off \/ pin -> a = Some false.

Lemma wp_type url Q : (forall t, Q t) -> wp Q (get_cached_tls_type url).
Proof. intros HQ. unfold get_cached_tls_type. destruct (is_plain url); cbn; auto. Qed.

Lemma wp_accept url (Q : option bool -> Prop) :
  key = get_domain_and_port_from_url url -> (forall a, must_check a -> Q a) ->
  wp Q (get_cached_tls_accept_invalid_cert url).
Proof.
  intros -> HQ. unfold get_cached_tls_accept_invalid_cert. cbn. split; [done|]. intros al Hoff.
  destruct al; cbn; [|by apply HQ]. destruct (is_plain url); cbn; [by apply HQ|].
  split; [done|]. intros a Ha. apply HQ. intros Hs.
  destruct Hs as [Hs|Hs]; [by specialize (Hoff Hs)|auto].
Qed.

Lemma wp_upsert url t a (Q : unit -> Prop) :
  key = get_domain_and_port_from_url url -> (off \/ pin -> a = false) -> Q tt -> wp Q (upsert_tls_cache url t a).
Proof. intros -> Ha HQ. unfold upsert_tls_cache. destruct (is_plain url); cbn; auto. Qed.

Lemma must_unwrap a : must_check a -> off \/ pin -> unwrap_or false a = false.
Proof. intros H Hs. by rewrite H. Qed.

Lemma must_not_none : ~ (off \/ pin) -> must_check (Some true).
Proof. by intros H Hs. Qed.

Lemma must_none a : must_check None -> must_check a.
Proof. intros H Hs. by specialize (H Hs). Qed.

End Careful.

Ltac careful_step :=
  match goal with
  | |- wp _ _ _ (bind _ _) => apply wp_bind
  | |- wp _ _ _ (upsert_tls_cache _ _ _) => apply wp_upsert; [first [assumption|reflexivity]|by apply must_unwrap|]
  | |- wp _ _ _ (get_cached_tls_type _) => apply wp_type; intros ?
  | |- wp _ _ _ (get_cached_tls_accept_invalid_cert _) => apply wp_accept; [first [assumption|reflexivity]|intros ? ?]
  | |- wp _ _ _ (Do (Try _) _) => cbn [wp]; split; [cbn; try done; intros ?|intros ? _]
  | |- wp _ _ _ (Ret _) => cbn [wp]
  | |- wp _ _ _ NoFuel => exact I
  | |- True => exact I
  | |- wp _ _ _ (match ?x with _ => _ end) => destruct x eqn:?
  end.

Ltac careful_finish :=
  repeat match goal with E : ?x = None |- _ => is_var x; subst x | E : ?x = Some _ |- _ => is_var x; subst x end; auto;
  try (match goal with IH : forall _, _ |- wp _ _ _ _ => apply IH end; eauto using must_none).

(** ** HTTP *)

Section HttpCareful.
Context (socks : option Config.Socks5Server) (url_parse : string -> option Proxy.Url).
Context (addr_text : NetUtil.AddrMangle.SocketAddr -> string) (proxy_all : string -> bool).
Context (build : TlsType -> bool -> option Http.ProxyUse -> bool).
Context (key : string) (off pin : Prop).

Abbreviation client := (Http.create_http_client socks url_parse addr_text proxy_all build).
Abbreviation wp := (wp (careful (@Http.sends_to_any) key off pin) (informed key off pin)).

Lemma client_careful t a : a = false -> Http.client_accepts_any (client t a) = false.
Proof.
  intros ->. unfold Http.create_http_client.
  repeat match goal with
         | |- context [match ?x with _ => _ end] => destruct x; try done
         end.
Qed.

(** The client that is handed out. *)
Definition checking (c : Http.Client) : Prop := off \/ pin -> Http.client_accepts_any c = false.

Lemma client_checking t a : must_check off pin a -> checking (client t (unwrap_or false a)).
Proof. intros Ha Hs. by apply client_careful, (must_unwrap _ _ _ Ha). Qed.

Lemma wp_client fuel url tls_url t c a o :
  key = get_domain_and_port_from_url tls_url -> must_check off pin a -> must_check off pin o ->
  wp checking (Http.create_http_client_with_url_ socks url_parse addr_text proxy_all build fuel url tls_url t c a o).
Proof.
  intros Hk Ha Ho. revert t a Ha.
  induction fuel as [|fuel IH]; intros t a Ha; cbn [Http.create_http_client_with_url_]; [done|].
  pose proof (client_checking t a Ha) as Hc.
  repeat careful_step; careful_finish.
Qed.

Lemma wp_client_async fuel url tls_url t c a o :
  key = get_domain_and_port_from_url tls_url -> must_check off pin a -> must_check off pin o ->
  wp checking (Http.create_http_client_async_with_url_ socks url_parse addr_text proxy_all build fuel url tls_url t c a o).
Proof.
  intros Hk Ha Ho. revert t a Ha.
  induction fuel as [|fuel IH]; intros t a Ha; cbn [Http.create_http_client_async_with_url_]; [done|].
  pose proof (client_checking t a Ha) as Hc.
  repeat careful_step; careful_finish.
Qed.

Lemma wp_post (R : result Http.Response string -> Prop) fuel url tls_url body hd t a o :
  key = get_domain_and_port_from_url tls_url -> must_check off pin a -> must_check off pin o -> (forall r, R r) ->
  wp R (Http.post_request_ socks url_parse addr_text proxy_all build fuel url tls_url body hd t a o).
Proof.
  intros Hk Ha Ho HR. revert t a Ha.
  induction fuel as [|fuel IH]; intros t a Ha; cbn [Http.post_request_]; [done|]. cbv zeta.
  repeat careful_step; careful_finish; try by apply client_careful, (must_unwrap _ _ _ Ha).
  all: destruct a; [done|eauto using must_none].
Qed.

Lemma wp_any (R : result Http.Response string -> Prop) hj fuel url tls_url m body hd t a o :
  key = get_domain_and_port_from_url tls_url -> must_check off pin a -> must_check off pin o -> (forall r, R r) ->
  wp R (Http.get_http_response_async socks url_parse addr_text proxy_all build hj fuel url tls_url m body hd t a o).
Proof.
  intros Hk Ha Ho HR. revert t a Ha.
  induction fuel as [|fuel IH]; intros t a Ha; cbn [Http.get_http_response_async]; [done|]. cbv zeta.
  repeat careful_step; careful_finish; try by apply client_careful, (must_unwrap _ _ _ Ha).
  all: destruct a; [done|eauto using must_none].
Qed.

End HttpCareful.

(** ** WebSocket and HTTPS proxies *)

Section OtherCareful.
Context (key : string) (off pin : Prop).

Lemma wp_ws (R : result Ws.RawWs string -> Prop) req bn cc fuel url ms t c a o :
  key = get_domain_and_port_from_url url -> must_check off pin a -> must_check off pin o -> (forall r, R r) ->
  wp (careful (@Ws.accepts_any) key off pin) (informed key off pin) R (Ws.try_connect req bn cc fuel url ms t c a o).
Proof.
  intros Hk Ha Ho HR. revert t a Ha.
  induction fuel as [|fuel IH]; intros t a Ha; cbn [Ws.try_connect]; [done|].
  repeat careful_step; careful_finish; try done.
  all: match goal with E : Ws.get_connector _ _ ?t _ = Ok _ |- _ => destruct t; cbn in E end.
  all: repeat case_match; simplify_eq; cbn; try done; by apply (must_unwrap _ _ _ Ha).
Qed.

Context (hs : list Z -> option (option Z)) (sn : string -> bool) (cc bn : bool -> bool).
Context (b64 : list Z -> string) (ipt at_ : NetUtil.AddrMangle.SocketAddr -> string).

Abbreviation wp := (wp (careful (@Proxy.proxy_accepts_any) key off pin) (informed key off pin)).

Lemma wp_native R p target a : must_check off pin a -> (forall r, R r) ->
  wp R (Proxy.https_connect_nativetls hs bn b64 ipt p target (unwrap_or false a)).
Proof.
  intros Ha HR. unfold Proxy.https_connect_nativetls.
  repeat careful_step; auto; by apply (must_unwrap _ _ _ Ha).
Qed.

Lemma wp_rustls R p target a : must_check off pin a -> (forall r, R r) ->
  wp R (Proxy.https_connect_rustls hs sn cc b64 ipt p target (unwrap_or false a)).
Proof.
  intros Ha HR. unfold Proxy.https_connect_rustls.
  repeat careful_step; auto; by apply (must_unwrap _ _ _ Ha).
Qed.

Lemma wp_native_wrap R p url l px target a :
  key = get_domain_and_port_from_url url -> must_check off pin a -> (forall r, R r) ->
  wp R (Proxy.https_connect_nativetls_wrap_danger hs bn b64 ipt p url l px target a).
Proof.
  intros Hk Ha HR. unfold Proxy.https_connect_nativetls_wrap_danger.
  repeat (careful_step || (apply wp_native; [assumption|intros ?])); auto.
Qed.

Lemma wp_rustls_wrap R fuel p url l px st target c a o :
  key = get_domain_and_port_from_url url -> must_check off pin a -> must_check off pin o -> (forall r, R r) ->
  wp R (Proxy.https_connect_rustls_wrap_danger hs sn cc bn b64 ipt fuel p url l px st target c a o).
Proof.
  intros Hk Ha Ho HR. revert st a Ha.
  induction fuel as [|fuel IH]; intros st a Ha; cbn [Proxy.https_connect_rustls_wrap_danger]; [done|].
  repeat (careful_step || (apply wp_rustls; [assumption|intros ?])); careful_finish.
  by apply wp_native_wrap.
Qed.

End OtherCareful.
(** ** From programs to runs *)

Section Runs.
Context {V : Type -> Type} (danger : forall X, V X -> bool).

(** No attempt accepts an invalid certificate, and none is remembered as
    needing that. *)
Definition checked (e : Event V) : Prop :=
  match e with
  | Ev (Try v) => danger _ v = false
  | Ev (WriteAccept _ a) => a = false
  | _ => True
  end.

(** With the option off; [R] is what holds of a careful result. *)
Definition verifies {A} (R : A -> Prop) (p : Prog V A) : Prop :=
  forall h w, (forall n, allowed h n = false) ->
  Forall checked (run h p w).1.1 /\ forall a, (run h p w).2 = Some a -> R a.

(** A server whose certificate is known to be valid: it stays so whatever else
    is contacted, and is itself contacted with checks. *)
Definition keeps_pins {A} (R : A -> Prop) (key : string) (p : Prog V A) : Prop :=
  forall h w d, accepts w !! d = Some false ->
  accepts (run h p w).1.2 !! d = Some false
  /\ (d = key -> Forall checked (run h p w).1.1 /\ forall a, (run h p w).2 = Some a -> R a).

Lemma careful_checked key off pin : off \/ pin -> forall X (op : Op V X),
  careful danger key off pin X op -> checked (Ev op).
Proof. intros H X op. destruct op; cbn; naive_solver. Qed.

Lemma forall_careful key (off pin : Prop) t : off \/ pin ->
  Forall (ok_event (careful danger key off pin)) t -> Forall checked t.
Proof.
  intros H Ht. eapply (Forall_impl _ _ _ Ht). intros [X op]. by apply careful_checked.
Qed.

Lemma careful_verifies {A} (R : A -> Prop) key (p : Prog V A) :
  wp (careful danger key True False) (informed key True False) (fun a => True \/ False -> R a) p -> verifies R p.
Proof.
  intros Hp h w Hoff.
  destruct (run_wp (careful danger key True False) (informed key True False) (fun _ => True) h) with (2 := I) (3 := Hp) (w := w)
    as (H & _ & HR).
  - clear -Hoff. intros X op w' _ _. split; [done|]. by destruct op; cbn.
  - split; [eapply (forall_careful key True False); [by left|exact H]|]. intros a Ha. apply HR; [done|by left].
Qed.

Lemma careful_keeps {A} (R : A -> Prop) key (p : Prog V A) :
  (forall pin, wp (careful danger key False pin) (informed key False pin) (fun a => False \/ pin -> R a) p) -> keeps_pins R key p.
Proof.
  intros Hp h w d Hd. specialize (Hp (d = key)).
  destruct (run_wp (careful danger key False (d = key)) (informed key False (d = key)) (fun w => accepts w !! d = Some false) h) with (2 := Hd) (3 := Hp)
    as (H1 & H2 & H3).
  - clear. intros X op w Hw Ho. destruct op; cbn in *; try done.
    + split; [done|]. by intros <- ->.
    + split; [|done]. destruct Ho as [-> Ha]. destruct (decide (d = key)) as [->|Hne].
      * rewrite lookup_insert_eq. by rewrite Ha by auto.
      * by rewrite lookup_insert_ne.
  - split; [done|]. intros He. split; [eapply (forall_careful key False (d = key)); eauto|].
    intros a Ha. apply H3; [done|by right].
Qed.

End Runs.

Section Entries.
Context (socks : option Config.Socks5Server) (url_parse : string -> option Proxy.Url).
Context (addr_text : NetUtil.AddrMangle.SocketAddr -> string) (proxy_all : string -> bool).
Context (build : TlsType -> bool -> option Http.ProxyUse -> bool).
Context (hj : string -> Http.HeaderText) (rj : Z -> list (string * string) -> string -> result string string).
Context (req : string -> bool) (cc bn : bool -> bool).
Context (hs : list Z -> option (option Z)) (sn : string -> bool) (b64 : list Z -> string).
Context (ipt : NetUtil.AddrMangle.SocketAddr -> string).
Context (resolve : string -> Z -> result (list NetUtil.AddrMangle.SocketAddr) string).

Abbreviation key_of url := (get_domain_and_port_from_url (Http.get_url_for_tls socks url)).

(** A request over HTTP. *)
Inductive Call : Type :=
| ClientFor (url : string)
| AsyncClientFor (url : string)
| Post (url body header : string)
| Any (url method : string) (body : option string) (header : string).

Definition url_of (c : Call) : string :=
  match c with ClientFor u | AsyncClientFor u | Post u _ _ | Any u _ _ _ => u end.

Definition call (c : Call) : Prog Http.Send (Http.Client + result string string) :=
  match c with
  | ClientFor u =>
    let* r := Http.create_http_client_with_url socks url_parse addr_text proxy_all build u in Ret (inl r)
  | AsyncClientFor u =>
    let* r := Http.create_http_client_async_with_url socks url_parse addr_text proxy_all build u in Ret (inl r)
  | Post u b hd => let* r := Http.post_request socks url_parse addr_text proxy_all build u b hd in Ret (inr r)
  | Any u m b hd =>
    let* r := Http.http_request_sync socks url_parse addr_text proxy_all build hj rj u m b hd in Ret (inr r)
  end.

(** A client that is handed out checks certificates. *)
Definition safe_result (r : Http.Client + result string string) : Prop :=
  match r with inl c => Http.client_accepts_any c = false | inr _ => True end.

Lemma wp_call off pin c :
  wp (careful (@Http.sends_to_any) (key_of (url_of c)) off pin) (informed (key_of (url_of c)) off pin)
    (fun r => off \/ pin -> safe_result r) (call c).
Proof.
  destruct c; cbn [call url_of]; apply wp_bind.
  - unfold Http.create_http_client_with_url. repeat careful_step.
    eapply wp_mono; [|by apply wp_client]. intros r Hr. exact Hr.
  - unfold Http.create_http_client_async_with_url. repeat careful_step.
    eapply wp_mono; [|by apply wp_client_async]. intros r Hr. exact Hr.
  - unfold Http.post_request. repeat careful_step. apply wp_post; try done. intros r. by destruct r.
  - unfold Http.http_request_sync. repeat careful_step. apply wp_any; try done.
    intros [r|e]; [|done]. by destruct (Http.text r).
Qed.

Abbreviation ws_connect := (Ws.connect req bn cc).
Abbreviation proxy_connect := (Proxy.connect hs sn cc bn b64 ipt addr_text resolve).

Lemma wp_ws_connect off pin url ms :
  wp (careful (@Ws.accepts_any) (get_domain_and_port_from_url url) off pin)
    (informed (get_domain_and_port_from_url url) off pin) (fun _ => True) (ws_connect url ms).
Proof. unfold Ws.connect. repeat careful_step. by apply wp_ws. Qed.

Definition proxy_key (p : Proxy.Proxy) : string :=
  get_domain_and_port_from_url ("https://" +:+ Proxy.get_host_and_port addr_text (Proxy.intercept p)).

Lemma wp_proxy_connect off pin p target l :
  wp (careful (@Proxy.proxy_accepts_any) (proxy_key p) off pin)
    (informed (proxy_key p) off pin) (fun _ => True) (proxy_connect p target l).
Proof.
  unfold Proxy.connect. pose proof (eq_refl : proxy_key p = get_domain_and_port_from_url
    ("https://" +:+ Proxy.get_host_and_port addr_text (Proxy.intercept p))) as Hk.
  destruct (Proxy.socket_addrs resolve _) as [px|e]; [|done]. destruct target as [ta|e]; [|done].
  repeat careful_step; try done.
  - by apply wp_native_wrap.
  - by apply wp_rustls_wrap.
Qed.

(** The request for the latest version is always made with checks, whatever
    the table and the option say, and never remembered as needing none. *)
Lemma update_request_checked ru version_url body VERSION h w :
  Forall (checked (@Http.sends_to_any))
    (run h (Http.do_check_software_update socks url_parse addr_text proxy_all build ru version_url body VERSION) w).1.1.
Proof.
  set (key := key_of version_url).
  destruct (run_wp (careful (@Http.sends_to_any) key True False) (fun _ _ _ => True) (fun _ => True) h)
    with (2 := I) (Q := fun _ : result string string => True)
         (p := Http.do_check_software_update socks url_parse addr_text proxy_all build ru version_url body VERSION) (w := w)
    as (H & _).
  - by intros.
  - unfold Http.do_check_software_update. cbv zeta.
    assert (Hc : forall t, Http.client_accepts_any (Http.create_http_client socks url_parse addr_text proxy_all build t false) = false)
      by (intros t; by apply client_careful).
    unfold get_cached_tls_type, upsert_tls_cache.
    repeat match goal with
      | |- True => exact I
      | |- True -> _ => intros _
      | |- wp _ _ _ (bind _ _) => apply wp_bind
      | |- wp _ _ _ (match ?x with _ => _ end) => destruct x
      | |- Tls.wp _ _ _ _ => cbn [Tls.wp]
      | |- _ /\ _ => split; [first [intros _; apply Hc|done]|intros ? _]
      end.
  - by eapply (forall_careful _ key True False); [left|].
Qed.

(** *** Any sequence of requests *)

Inductive Request : Type :=
| OverHttp (c : Call)
| OverWs (url : string) (ms : Z)
| OverProxy (p : Proxy.Proxy) (target : result Proxy.TargetAddr string) (l : option NetUtil.AddrMangle.SocketAddr)
| ResetCache.      (* [reset_tls_cache], when the proxy or the option for the fallback is set *)

(** Under what the tables know the server of a request. *)
Definition key (r : Request) : option string :=
  match r with
  | OverHttp c => Some (key_of (url_of c))
  | OverWs url _ => Some (get_domain_and_port_from_url url)
  | OverProxy p _ _ => Some (proxy_key p)
  | ResetCache => None
  end.

(** The option over time, and the networks. *)
Record Outside : Type := mkOutside {
  option_allows : nat -> bool;
  http_net : nat -> forall X, Http.Send X -> X;
  ws_net : nat -> forall X, Ws.WsAttempt X -> X;
  proxy_net : nat -> forall X, Proxy.ProxyAttempt X -> X
}.

(** What a request did: attempts, with whether they accept any certificate,
    what it remembered, and the client it returned, which the caller sends its
    requests with. *)
Inductive Seen : Type :=
| Attempted (any : bool)
| Remembered (d : string) (any : bool)
| Returned (any : bool)
| Otherwise.

Definition see {V} (danger : forall X, V X -> bool) (e : Event V) : Seen :=
  match e with
  | Ev (Try v) => Attempted (danger _ v)
  | Ev (WriteAccept d a) => Remembered d a
  | _ => Otherwise
  end.

Definition with_checks (s : Seen) : Prop :=
  match s with Attempted any | Remembered _ any | Returned any => any = false | Otherwise => True end.

Definition returned (r : option (Http.Client + result string string)) : list Seen :=
  match r with Some (inl c) => [Returned (Http.client_accepts_any c)] | _ => [] end.

Definition serve (o : Outside) (r : Request) (w : World) : list Seen * World :=
  match r with
  | OverHttp c =>
    let '(t, w, r) := run (mkHandler _ (option_allows o) (http_net o)) (call c) w in
    (map (see (@Http.sends_to_any)) t ++ returned r, w)
  | OverWs url ms =>
    let '(t, w, _) := run (mkHandler _ (option_allows o) (ws_net o)) (ws_connect url ms) w in
    (map (see (@Ws.accepts_any)) t, w)
  | OverProxy p target l =>
    let '(t, w, _) := run (mkHandler _ (option_allows o) (proxy_net o)) (proxy_connect p target l) w in
    (map (see (@Proxy.proxy_accepts_any)) t, w)
  | ResetCache =>
    let '(t, w, _) := run (mkHandler _ (option_allows o) (http_net o)) reset_tls_cache w in
    (map (see (@Http.sends_to_any)) t, w)
  end.

Fixpoint serve_all (o : Outside) (rs : list Request) (w : World) : list (Request * list Seen) * World :=
  match rs with
  | [] => ([], w)
  | r :: rs =>
    let '(t, w) := serve o r w in
    let '(ts, w) := serve_all o rs w in
    ((r, t) :: ts, w)
  end.

Lemma checked_seen {V} danger (t : list (Event V)) : Forall (checked danger) t -> Forall with_checks (map (see danger) t).
Proof. intros H. apply Forall_map. eapply (Forall_impl _ _ _ H). intros [X op]. by destruct op. Qed.

Lemma checked_returned r : (forall a, r = Some a -> safe_result a) -> Forall with_checks (returned r).
Proof. intros H. destruct r as [[c|?]|]; repeat constructor. by apply (H (inl c)). Qed.

Lemma wp_any_result {V A} (ok : forall X, Op V X -> Prop) ans (P : Prop) (p : Prog V A) :
  wp ok ans (fun _ => True) p -> wp ok ans (fun _ => P -> True) p.
Proof. intros H. eapply wp_mono; [|exact H]. done. Qed.

Lemma serve_off o r w : (forall n, option_allows o n = false) -> Forall with_checks (serve o r w).1.
Proof.
  intros Hoff. destruct r as [c|url ms|p target l|]; cbn [serve].
  - pose proof (careful_verifies _ _ _ _ (wp_call True False c)) as H.
    specialize (H (mkHandler _ (option_allows o) (http_net o)) w Hoff).
    destruct (run _ _ w) as [[t w'] x]. destruct H as [H1 H2]. apply Forall_app. split; [by apply checked_seen|].
    by apply checked_returned.
  - pose proof (careful_verifies _ (fun _ => True) _ _ (wp_any_result _ _ _ _ (wp_ws_connect True False url ms))) as H.
    specialize (H (mkHandler _ (option_allows o) (ws_net o)) w Hoff).
    destruct (run _ _ w) as [[t w'] x]. destruct H as [H _]. by apply checked_seen.
  - pose proof (careful_verifies _ (fun _ => True) _ _ (wp_any_result _ _ _ _ (wp_proxy_connect True False p target l))) as H.
    specialize (H (mkHandler _ (option_allows o) (proxy_net o)) w Hoff).
    destruct (run _ _ w) as [[t w'] x]. destruct H as [H _]. by apply checked_seen.
  - repeat constructor.
Qed.

Lemma keeps_seen {V A} danger (R : A -> Prop) k (p : Prog V A) h w d :
  keeps_pins danger R k p -> accepts w !! d = Some false ->
  let '(t, w', x) := run h p w in
  accepts w' !! d = Some false
  /\ (Some k = Some d -> Forall with_checks (map (see danger) t) /\ forall a, x = Some a -> R a).
Proof.
  intros Hp Hd. specialize (Hp h w d Hd). destruct (run h p w) as [[t w'] x]. cbn [fst snd] in Hp.
  destruct Hp as [H1 H2]. split; [done|]. intros [= Hk]. destruct (H2 (eq_sym Hk)). split; [by apply checked_seen|done].
Qed.

Lemma serve_pinned o r w d : r <> ResetCache -> accepts w !! d = Some false ->
  accepts (serve o r w).2 !! d = Some false /\ (key r = Some d -> Forall with_checks (serve o r w).1).
Proof.
  intros Hr Hd. destruct r as [c|url ms|p target l|]; cbn [serve key]; [| | |done].
  - pose proof (keeps_seen _ _ _ _ (mkHandler _ (option_allows o) (http_net o)) w d
                  (careful_keeps _ _ _ _ (fun pin => wp_call False pin c)) Hd) as H.
    destruct (run _ _ w) as [[t w'] x]. destruct H as [H1 H2]. split; [done|]. intros Hk. destruct (H2 Hk) as [H3 H4].
    apply Forall_app. split; [done|]. by apply checked_returned.
  - pose proof (keeps_seen _ (fun _ => True) _ _ (mkHandler _ (option_allows o) (ws_net o)) w d
                  (careful_keeps _ _ _ _ (fun pin => wp_any_result _ _ _ _ (wp_ws_connect False pin url ms))) Hd) as H.
    destruct (run _ _ w) as [[t w'] x]. destruct H as [H1 H2]. split; [done|]. intros Hk. by destruct (H2 Hk).
  - pose proof (keeps_seen _ (fun _ => True) _ _ (mkHandler _ (option_allows o) (proxy_net o)) w d
                  (careful_keeps _ _ _ _ (fun pin => wp_any_result _ _ _ _ (wp_proxy_connect False pin p target l))) Hd) as H.
    destruct (run _ _ w) as [[t w'] x]. destruct H as [H1 H2]. split; [done|]. intros Hk. by destruct (H2 Hk).
Qed.

(** C28. While the option [allow-insecure-tls-fallback] is off, no request
    makes an attempt that accepts an invalid certificate, whatever was
    remembered when it was on, none remembers that one is needed, and no client
    that accepts any certificate is handed out (the caller sends its own
    requests with it): the search for a client of HTTP, posts and other
    requests, WebSocket and HTTPS proxies, in any sequence, with resets of the
    tables in between, and whatever the networks answer. *)
Theorem fallback_off_verifies o rs w :
  (forall n, option_allows o n = false) ->
  Forall (fun x => Forall with_checks x.2) (serve_all o rs w).1.
Proof.
  intros Hoff. revert w. induction rs as [|r rs IH]; intros w; cbn [serve_all]; [constructor|].
  pose proof (serve_off o r w Hoff) as H. destruct (serve o r w) as [t w'].
  specialize (IH w'). destruct (serve_all o rs w') as [ts w'']. by constructor.
Qed.

(** C36. What is recorded as reached with a checked certificate stays so: while
    the table says for a key (a host and port as [get_domain_and_port_from_url]
    reads it from the address) that accepting any certificate is not needed,
    through any sequence of requests, one after the other and without a reset of
    the tables, to servers with this key and with others, it goes on saying so;
    and the requests whose address has this key make their attempts with checks
    and are handed out clients with checks only.  This holds also while the
    option allows the fallback and whatever the networks answer. *)
Theorem known_server_stays_checked o rs w d :
  Forall (fun r => r <> ResetCache) rs -> accepts w !! d = Some false ->
  accepts (serve_all o rs w).2 !! d = Some false
  /\ Forall (fun x => key x.1 = Some d -> Forall with_checks x.2) (serve_all o rs w).1.
Proof.
  intros Hrs. revert w. induction Hrs as [|r rs Hr _ IH]; intros w Hd; cbn [serve_all]; [by split|].
  pose proof (serve_pinned o r w d Hr Hd) as [H1 H2]. destruct (serve o r w) as [t w'].
  specialize (IH w' H1). destruct (serve_all o rs w') as [ts w'']. destruct IH as [H3 H4].
  split; [done|]. by constructor.
Qed.

End Entries.
(** ** The attempts that are made *)

(** The same operations and the same result, whatever the answers. *)
Inductive same {V A} : Prog V A -> Prog V A -> Prop :=
| SameRet a : same (Ret a) (Ret a)
| SameDo X (op : Op V X) k k' : (forall x, same (k x) (k' x)) -> same (Do op k) (Do op k').

Lemma same_run {V A} (p q : Prog V A) : same p q -> forall h w, run h p w = run h q w.
Proof. induction 1 as [a|X op k k' _ IH]; intros h w; cbn [run]; [done|]. destruct (exec h op w). by rewrite IH. Qed.

Lemma same_refl_upsert {V A} url t a (r : A) :
  same (V := V) (bind (upsert_tls_cache url t a) (fun _ => Ret r)) (bind (upsert_tls_cache url t a) (fun _ => Ret r)).
Proof. unfold upsert_tls_cache. destruct (is_plain url); cbn; repeat constructor; intros; repeat constructor. Qed.

(** A program without recursion left over gives a result. *)
Fixpoint returns {V A} (p : Prog V A) : Prop :=
  match p with Ret _ => True | NoFuel => False | Do op k => forall x, returns (k x) end.

Lemma returns_run {V A} (p : Prog V A) h w : returns p -> exists a, (run h p w).2 = Some a.
Proof.
  revert w. induction p as [a| |X op k IH]; intros w Hr; cbn [run]; [by eexists|done|].
  destruct (exec h op w) as [w1 x]. destruct (IH x w1 (Hr x)) as [a Ha].
  exists a. by destruct (run h (k x) w1) as [[t w2] r].
Qed.

Lemma same_returns {V A} (p q : Prog V A) : same p q -> returns p.
Proof. induction 1; cbn; auto. Qed.

(** The ladder is never empty. *)
Definition first_of (l : list (TlsType * bool)) : TlsType * bool := List.hd (Rustls, false) l.

(** Attempts along the ladder of what is remembered, then [finish]. *)
Definition along {V X A} (t : option TlsType) (a : option bool) (attempt : TlsType -> bool -> V X) (again : X -> bool)
    (finish : X -> TlsType -> bool -> Prog V A) : Prog V A :=
  let* r := try_in_order attempt again (first_of (ladder t a)) (List.tl (ladder t a)) in
  finish r.1 r.2.1 r.2.2.

Lemma same_upsert {V A} url t a (k k' : unit -> Prog V A) :
  same (k tt) (k' tt) -> same (bind (upsert_tls_cache url t a) k) (bind (upsert_tls_cache url t a) k').
Proof. intros H. unfold upsert_tls_cache. destruct (is_plain url); cbn; [done|]. by do 2 (constructor; intros []). Qed.

Section Ladder.
Context (socks : option Config.Socks5Server) (url_parse : string -> option Proxy.Url).
Context (addr_text : NetUtil.AddrMangle.SocketAddr -> string) (proxy_all : string -> bool).
Context (build : TlsType -> bool -> option Http.ProxyUse -> bool).

Abbreviation client := (Http.create_http_client socks url_parse addr_text proxy_all build).
Abbreviation client_for := (Http.create_http_client_with_url_ socks url_parse addr_text proxy_all build Http.FUEL).
Abbreviation client_for_async :=
  (Http.create_http_client_async_with_url_ socks url_parse addr_text proxy_all build Http.FUEL).
Abbreviation post := (Http.post_request_ socks url_parse addr_text proxy_all build Http.FUEL).

Definition retryable {A} (r : result A Http.ReqError) : bool :=
  match r with Err e => Http.is_request e | Ok _ => false end.
Definition failed {A E} (r : result A E) : bool := match r with Err _ => true | Ok _ => false end.

(** What follows the last attempt of a search for a client. *)
Definition keep_client (tls_url : string) (r : result Http.Response Http.ReqError) (t : TlsType) (a : bool)
  : Prog Http.Send Http.Client :=
  match r with
  | Ok _ => let* _ := upsert_tls_cache tls_url t a in Ret (client t a)
  | Err _ => Ret (client t a)
  end.

Definition answer (tls_url : string) (r : result Http.Response Http.ReqError) (t : TlsType) (a : bool)
  : Prog Http.Send (result Http.Response string) :=
  match r with
  | Ok resp => let* _ := upsert_tls_cache tls_url t a in Ret (Ok resp)
  | Err e => Ret (Err (Http.error_text e))
  end.

Ltac follow :=
  repeat first
    [ apply same_upsert
    | constructor; first [intros [?|?]|intros ?]
    | match goal with H : Http.is_request ?e = _ |- context [Http.is_request ?e] => rewrite H end
    | match goal with |- context [Http.is_request ?e] => destruct (Http.is_request e) eqn:? end
    | progress (cbn; unfold keep_client, answer, retryable, failed; cbn) ].

Lemma post_along url tls_url body hd t a :
  same (post url tls_url body hd t a a)
    (along t a (fun t a => Http.Request (client t a) "post" url
                             (Http.header_of hd ++ [("Content-Type", "application/json")]) (Some body))
       retryable (answer tls_url)).
Proof. destruct t as [[| |]|], a as [[|]|]; cbn; follow. Qed.

Lemma client_along url tls_url t a :
  (is_Some t -> is_Some a -> False) -> t <> Some Plain ->
  same (client_for url tls_url (unwrap_or Rustls t) (Http.is_Some' t) a a)
    (along t a (fun t a => Http.Head (client t a) url) retryable (keep_client tls_url)).
Proof. intros Hn Hp. destruct t as [[| |]|], a as [[|]|]; try done; try (exfalso; eauto; fail); cbn; follow. Qed.

Lemma client_async_along url tls_url t a :
  (is_Some t -> is_Some a -> False) -> t <> Some Plain ->
  same (client_for_async url tls_url (unwrap_or Rustls t) (Http.is_Some' t) a a)
    (along t a (fun t a => Http.Head (client t a) url) failed (keep_client tls_url)).
Proof. intros Hn Hp. destruct t as [[| |]|], a as [[|]|]; try done; try (exfalso; eauto; fail); cbn; follow. Qed.

Context (hj : string -> Http.HeaderText) (rj : Z -> list (string * string) -> string -> result string string).
Context (req : string -> bool) (cc bn : bool -> bool).

(** A request is a post when its method and its headers can be used. *)
Lemma any_along url tls_url m body header hs t a :
  m ∈ Http.METHODS -> hj header = Http.JsonObject hs ->
  same (Http.get_http_response_async socks url_parse addr_text proxy_all build hj Http.FUEL url tls_url m body header t a a)
    (along t a (fun t a => Http.Request (client t a) m url hs body) retryable (answer tls_url)).
Proof.
  intros Hm Hh. pose proof (bool_decide_eq_true_2 _ Hm) as Hb.
  destruct t as [[| |]|], a as [[|]|]; cbn -[bool_decide]; rewrite ?Hb, ?Hh; cbn -[bool_decide]; follow.
  all: rewrite ?Hb, ?Hh; cbn -[bool_decide]; follow.
Qed.

(** *** At most so many attempts, and a result *)

Fixpoint at_most {V A} (n : nat) (p : Prog V A) : Prop :=
  match p with
  | Ret _ => True
  | NoFuel => False
  | Do op k =>
    match is_try op, n with
    | true, O => False
    | true, S n => forall x, at_most n (k x)
    | false, _ => forall x, at_most n (k x)
    end
  end.

Lemma at_most_run {V A} n (p : Prog V A) h w : at_most n p ->
  (length (tries (run h p w).1.1) <= n)%nat /\ exists a, (run h p w).2 = Some a.
Proof.
  revert n w. induction p as [a| |X op k IH]; intros n w Hp; cbn [run]; [split; [cbn; lia|by eexists]|done|].
  destruct (exec h op w) as [w1 x]. unfold tries in *. cbn [at_most] in Hp.
  destruct (is_try op) eqn:Et; [destruct n as [|n]; [done|]|].
  - destruct (IH x n w1 (Hp x)) as [H1 [a Ha]]. destruct (run h (k x) w1) as [[t w2] r]. cbn [fst snd] in *.
    split; [cbn [List.filter]; rewrite Et; cbn [length]; lia|by exists a].
  - destruct (IH x n w1 (Hp x)) as [H1 [a Ha]]. destruct (run h (k x) w1) as [[t w2] r]. cbn [fst snd] in *.
    split; [cbn [List.filter]; by rewrite Et|by exists a].
Qed.

Lemma at_most_upsert {V A} n url t a (k : unit -> Prog V A) : at_most n (k tt) -> at_most n (bind (upsert_tls_cache url t a) k).
Proof. intros H. unfold upsert_tls_cache. destruct (is_plain url); cbn; [done|]. by intros [] []. Qed.

Lemma at_most_type {V A} n url (k : option TlsType -> Prog V A) :
  (forall t, at_most n (k t)) -> at_most n (bind (get_cached_tls_type url) k).
Proof. intros H. unfold get_cached_tls_type. destruct (is_plain url); cbn; auto. Qed.

Lemma at_most_accept {V A} n url (k : option bool -> Prog V A) :
  (forall t, at_most n (k t)) -> at_most n (bind (get_cached_tls_accept_invalid_cert url) k).
Proof.
  intros H. unfold get_cached_tls_accept_invalid_cert. cbn. intros [|]; cbn; [|auto].
  destruct (is_plain url); cbn; auto.
Qed.

Lemma at_most_bind {V A B} n (p : Prog V A) (k : A -> Prog V B) :
  at_most n p -> (forall a, at_most 0 (k a)) -> at_most n (bind p k).
Proof.
  intros Hp Hk. revert n Hp. induction p as [a| |X op f IH]; intros n Hp; cbn in *; [|done|].
  - specialize (Hk a). revert Hk. generalize (k a). clear. intros p. revert n.
    induction p as [b| |X op f IH]; intros n H; cbn in *; [done..|]. destruct (is_try op); [done|auto].
  - destruct (is_try op); [destruct n; auto|auto].
Qed.

Ltac count :=
  repeat first
    [ done
    | apply at_most_upsert
    | progress cbn [bind at_most is_try]
    | match goal with
      | |- at_most _ (match ?x with _ => _ end) => destruct x
      | |- at_most _ (if ?x then _ else _) => destruct x
      | |- forall _, _ => intros ?
      end ].

Lemma count_client url tls_url t a :
  at_most 4 (client_for url tls_url (unwrap_or Rustls t) (Http.is_Some' t) a a).
Proof. destruct t as [[| |]|], a as [[|]|]; cbn; count. Qed.

Lemma count_client_async url tls_url t a :
  at_most 4 (client_for_async url tls_url (unwrap_or Rustls t) (Http.is_Some' t) a a).
Proof. destruct t as [[| |]|], a as [[|]|]; cbn; count. Qed.

Lemma count_post url tls_url body hd t a : at_most 4 (post url tls_url body hd t a a).
Proof. destruct t as [[| |]|], a as [[|]|]; cbn; count. Qed.

Lemma count_any url tls_url m body hd t a :
  at_most 4 (Http.get_http_response_async socks url_parse addr_text proxy_all build hj Http.FUEL url tls_url m body hd t a a).
Proof. destruct t as [[| |]|], a as [[|]|]; cbn -[bool_decide]; count. Qed.

Lemma count_ws url ms t a :
  at_most 4 (Ws.try_connect req bn cc Ws.FUEL url ms (unwrap_or Rustls t) (Http.is_Some' t) a a).
Proof. destruct t as [[| |]|], a as [[|]|]; cbn; count. Qed.

(** C39. The posts, the other requests, and the searches for a client with and
    without blocking make the same operations and give the same result as the
    attempts of [ladder] in order: rustls before native-tls when no library is
    remembered, with checks before without when it is not remembered whether
    they fail, until one succeeds or fails in a way that another cannot mend;
    what succeeded is what is remembered.  A search makes no attempt when both
    are remembered. *)
Theorem attempts_follow_ladder h w :
  (forall url tls_url body hd t a,
     run h (post url tls_url body hd t a a) w
     = run h (along t a (fun t a => Http.Request (client t a) "post" url
                                 (Http.header_of hd ++ [("Content-Type", "application/json")]) (Some body))
                retryable (answer tls_url)) w)
  /\ (forall url tls_url m body header hs t a, m ∈ Http.METHODS -> hj header = Http.JsonObject hs ->
      run h (Http.get_http_response_async socks url_parse addr_text proxy_all build hj Http.FUEL
               url tls_url m body header t a a) w
      = run h (along t a (fun t a => Http.Request (client t a) m url hs body) retryable (answer tls_url)) w)
  /\ (forall url tls_url t a, t <> Some Plain ->
      run h (client_for url tls_url (unwrap_or Rustls t) (Http.is_Some' t) a a) w
      = (match t, a with
         | Some t, Some a => run h (Ret (client t a)) w
         | _, _ => run h (along t a (fun t a => Http.Head (client t a) url) retryable (keep_client tls_url)) w
         end))
  /\ (forall url tls_url t a, t <> Some Plain ->
      run h (client_for_async url tls_url (unwrap_or Rustls t) (Http.is_Some' t) a a) w
      = (match t, a with
         | Some t, Some a => run h (Ret (client t a)) w
         | _, _ => run h (along t a (fun t a => Http.Head (client t a) url) failed (keep_client tls_url)) w
         end)).
Proof.
  split_and!; intros.
  - apply same_run, post_along.
  - by apply same_run, any_along.
  - destruct t as [t|], a as [a|]; try done; apply same_run, client_along; try done; by intros [] [].
  - destruct t as [t|], a as [a|]; try done; apply same_run, client_async_along; try done; by intros [] [].
Qed.

(** A request over HTTP, of any kind, and a connection over WebSocket make at
    most four attempts and come to a result. *)
Theorem requests_end (c : Call) url ms h hw w :
  ((length (tries (run h (call socks url_parse addr_text proxy_all build hj rj c) w).1.1) <= 4)%nat
   /\ exists a, (run h (call socks url_parse addr_text proxy_all build hj rj c) w).2 = Some a)
  /\ ((length (tries (run hw (Ws.connect req bn cc url ms) w).1.1) <= 4)%nat
      /\ exists a, (run hw (Ws.connect req bn cc url ms) w).2 = Some a).
Proof.
  split; apply at_most_run.
  - destruct c; cbn [call]; (apply at_most_bind; [|done]).
    + apply at_most_type. intros t. apply at_most_accept. intros a. apply count_client.
    + apply at_most_type. intros t. apply at_most_accept. intros a. apply count_client_async.
    + apply at_most_type. intros t. apply at_most_accept. intros a. apply at_most_bind; [apply count_post|by intros []].
    + apply at_most_type. intros t. apply at_most_accept. intros a. apply at_most_bind; [apply count_any|].
      intros [r|e]; [by destruct (Http.text r)|done].
  - apply at_most_type. intros t. apply at_most_accept. intros a. apply count_ws.
Qed.

(** When the fallback is allowed, nothing is remembered and no attempt gets
    through, the client that is returned is the last one tried: it accepts any
    certificate. *)
Lemma failed_search_accepts_any url h w e :
  socks = None -> (forall t a p, build t a p = true) -> is_plain url = false ->
  types w !! get_domain_and_port_from_url url = None -> accepts w !! get_domain_and_port_from_url url = None ->
  (forall n, allowed h n = true) -> (forall n X (v : Http.Send X), match v in Http.Send X return X -> Prop with
     | Http.Head _ _ | Http.Request _ _ _ _ _ => fun r => r = Err e end (net h n v)) -> Http.is_request e = true ->
  exists t w', run h (Http.create_http_client_with_url socks url_parse addr_text proxy_all build url) w
    = (t, w', Some (Http.Built NativeTls true None)).
Proof.
  intros -> Hb Hp Ht Ha Hal Hn He.
  unfold Http.create_http_client_with_url, Http.get_url_for_tls, get_cached_tls_type, get_cached_tls_accept_invalid_cert.
  rewrite Hp. cbn [bind run exec]. rewrite !Hp. cbn [bind run exec]. rewrite Hal. cbn [negb bind run exec types accepts]. rewrite Ht, Ha.
  cbn [unwrap_or Http.is_Some' andb].
  do 4 (cbn [Http.create_http_client_with_url_ Http.FUEL Http.is_Some' andb]; cbn [run exec];
        match goal with |- context [net h ?n (Http.Head ?c ?u)] =>
          rewrite (Hn n _ (Http.Head c u) : net h n (Http.Head c u) = Err e) end; rewrite He; cbn [unwrap_or]).
  unfold Http.create_http_client. rewrite Hb. eexists _, _. reflexivity.
Qed.

(** A proxy that cannot be read is not used, without a word: the client
    connects directly. *)
Lemma unreadable_proxy_ignored conf e t a :
  socks = Some conf -> Proxy.from_conf url_parse conf None = Err e -> client t a = Http.Default.
Proof. intros -> He. unfold Http.create_http_client. by rewrite He. Qed.

End Ladder.
End HttpSafety.

(** ** Runs *)

Module HttpDemo.

Import Tls HttpSafety.

(** A host with a certificate of its own making: an attempt succeeds when it
    accepts any. *)
Definition self_signed : nat -> forall X, Http.Send X -> X :=
  fun _ X v => match v in Http.Send X return X with
               | Http.Head c _ | Http.Request c _ _ _ _ =>
                 if Http.client_accepts_any c then Ok (Http.mkResponse 200 [] (Ok "body"))
                 else Err (Http.mkReqError true "certificate")
               end.

Definition no_url (s : string) : option Proxy.Url := None.
Definition no_text (a : NetUtil.AddrMangle.SocketAddr) : string := "".
Definition builds (t : TlsType) (a : bool) (p : option Http.ProxyUse) : bool := true.
Definition json (s : string) : Http.HeaderText := Http.JsonObject [].
Definition render (n : Z) (l : list (string * string)) (b : string) : result string string := Ok b.

Definition outside (allow : bool) : Outside :=
  mkOutside (fun _ => allow) self_signed
    (fun _ X v => match v in Ws.WsAttempt X return X with Ws.WsConnect _ _ _ => None end)
    (fun _ X v => match v in Proxy.ProxyAttempt X return X with
                  | Proxy.NewStream _ _ => Err "refused" | Proxy.Handshake _ _ _ => None
                  | Proxy.SocksConnect _ _ => None end).

Definition empty : World := mkWorld ∅ ∅ 0.

Abbreviation all o rs w :=
  (serve_all None no_url no_text (fun _ => true) builds json render (fun _ => true) (fun _ => true) (fun _ => true)
     (fun _ => None) (fun _ => true) (fun _ => "") no_text (fun _ _ => Err "resolve") o rs w).

Definition requests : list Request := [OverHttp (Post "https://a.b/x" "" ""); OverHttp (ClientFor "https://a.b/y")].

(** With the option on the certificate is accepted and that is remembered; with
    it off every attempt checks. *)
Example on_then_remembered :
  accepts (all (outside true) requests empty).2 !! "a.b" = Some true
  /\ accepts (all (outside false) requests empty).2 !! "a.b" = None.
Proof. by vm_compute. Qed.

Lemma fallback_off_verifies_witness :
  Forall (fun x => Forall with_checks x.2) (all (outside false) requests empty).1.
Proof. apply (fallback_off_verifies None no_url). intros n. reflexivity. Defined.

Definition known : World := mkWorld {["a.b" := Rustls]} {["a.b" := false]} 0.

Lemma known_server_stays_checked_witness :
  accepts (all (outside true) requests known).2 !! "a.b" = Some false.
Proof. apply (known_server_stays_checked None no_url); [repeat constructor; discriminate|reflexivity]. Defined.

(** With the option on a server that is not recorded is handed a client that
    accepts any certificate; a reset forgets the record. *)
Example clients_returned :
  map (fun x => List.filter (fun s => match s with Returned _ => true | _ => false end) x.2)
    (all (outside true) (requests ++ [ResetCache] ++ requests) known).1
  = [[]; [Returned false]; []; []; [Returned true]].
Proof. by vm_compute. Qed.

Lemma attempts_follow_ladder_witness :
  run (mkHandler _ (fun _ => true) self_signed)
    (Http.create_http_client_with_url_ None no_url no_text (fun _ => true) builds Http.FUEL "https://a.b/" "https://a.b/"
       Rustls true None None) empty
  = run (mkHandler _ (fun _ => true) self_signed)
      (along (Some Rustls) None
         (fun t a => Http.Head (Http.create_http_client None no_url no_text (fun _ => true) builds t a) "https://a.b/")
         retryable (keep_client None no_url no_text (fun _ => true) builds "https://a.b/")) empty.
Proof.
  destruct (attempts_follow_ladder None no_url no_text (fun _ => true) builds json
              (mkHandler _ (fun _ => true) self_signed) empty) as (_ & _ & H & _).
  exact (H "https://a.b/" "https://a.b/" (Some Rustls) None ltac:(discriminate)).
Defined.

(** ** Two requests at once

    One step of one of two programs after the other. *)
Fixpoint interleave {V A B} (h : Handler V) (schedule : list bool) (p : Prog V A) (q : Prog V B) (w : World) : World :=
  match schedule with
  | [] => w
  | true :: l =>
    match p with
    | Do op k => let '(w, x) := exec h op w in interleave h l (k x) q w
    | _ => interleave h l p q w
    end
  | false :: l =>
    match q with
    | Do op k => let '(w, x) := exec h op w in interleave h l p (k x) w
    | _ => interleave h l p q w
    end
  end.

(** A host that answers the seventh operation and later attempts that accept
    any certificate. *)
Definition once_lost : nat -> forall X, Http.Send X -> X :=
  fun n X v => match v in Http.Send X return X with
               | Http.Head c _ | Http.Request c _ _ _ _ =>
                 if (n =? 6)%nat || Http.client_accepts_any c then Ok (Http.mkResponse 200 [] (Ok "body"))
                 else Err (Http.mkReqError true "reset")
               end.

Definition post := Http.post_request None no_url no_text (fun _ => true) builds "https://a.b/" "" "".
Definition reads : list bool := [true; true; true; false; false; false].

(** Two first requests to a host: one gets through with checks, and that is
    recorded; the other, which had looked before, loses its first attempt, is
    tried without checks and records that instead. *)
Example concurrent_request_unpins :
  let h := mkHandler _ (fun _ => true) once_lost in
  accepts (interleave h (reads ++ replicate 3 true) post post empty) !! "a.b" = Some false
  /\ accepts (interleave h (reads ++ replicate 3 true ++ replicate 4 false) post post empty) !! "a.b" = Some true.
Proof. by vm_compute. Qed.

(** What is remembered about a server is filed under what follows the last
    commercial at of the whole address, also one in the path. *)
Example at_in_path_moves_key :
  get_domain_and_port_from_url "https://api.example.com/users/me@other.org" = "other.org".
Proof. reflexivity. Qed.

End HttpDemo.
