(* ===== verification/TransportProofs.v ===== *)
(** * Proxies and WebSocket streams: the exchange and the messages

    What is left on a stream after the exchange with an HTTP proxy, which
    responses end it, and what a WebSocket stream with a key delivers. *)

From S2P Require Import Prelude RustStr BytesCodec SecureStream Password Config NetUtil Handshake Tls WebSocket Proxy.

Module ConnectExchange.

Import Proxy Utf8.

(** ** The head of a response

    It ends with the first empty line. *)
Definition ends (l : list Z) : Prop := exists q, l = q ++ CRLF2.
Definition is_head (l : list Z) : Prop := ends l /\ forall p q, l = p ++ q -> ends p -> q = [].

(** Its lines, with their line feeds.  The code reads them one by one as texts. *)
Fixpoint lines (l : list Z) : list (list Z) :=
  match l with
  | [] => []
  | b :: l =>
    if b =? 10 then [b] :: lines l
    else match lines l with [] => [[b]] | x :: xs => (b :: x) :: xs end
  end.
Definition readable (l : list Z) : Prop := Forall (fun x => is_utf8 x = true) (lines l).

Lemma lines_mid p l : 10 ∉ p -> lines (p ++ 10 :: l) = (p ++ [10]) :: lines l.
Proof.
  induction p as [|b p IH]; intros Hp; cbn [app lines]; [done|].
  destruct (Z.eqb_spec b 10) as [->|]; [set_solver|]. by rewrite IH by set_solver.
Qed.

Lemma readable_mid p l : 10 ∉ p -> readable (p ++ 10 :: l) <-> is_utf8 (p ++ [10]) = true /\ readable l.
Proof. intros Hp. unfold readable. rewrite lines_mid by done. by rewrite Forall_cons. Qed.

Lemma ends_spec l : ends_with_bytes CRLF2 l = true <-> ends l.
Proof.
  unfold ends_with_bytes. rewrite bool_decide_eq_true. split.
  - intros H. exists (take (length l - length CRLF2) l).
    by rewrite <- H at 2; rewrite take_drop.
  - intros [q ->]. rewrite length_app. replace (length q + length CRLF2 - length CRLF2)%nat with (length q) by lia.
    by rewrite drop_app_length.
Qed.

Lemma ends_last l : ends l -> exists p, l = p ++ [10].
Proof. intros [q ->]. exists (q ++ [13; 10; 13]). by rewrite <- app_assoc. Qed.

Lemma split_line_some l x r : split_line l = Some (x, r) -> l = x ++ r /\ exists p, x = p ++ [10] /\ 10 ∉ p.
Proof.
  revert x r. induction l as [|b l IH]; intros x r; cbn [split_line]; [done|].
  destruct (Z.eqb_spec b 10) as [->|Hb]; [intros [= <- <-]; split; [done|exists []; split; [done|set_solver]]|].
  destruct (split_line l) as [[x' r']|]; [|done]. intros [= <- <-].
  destruct (IH _ _ eq_refl) as (-> & p & -> & Hp). split; [done|]. exists (b :: p). split; [done|set_solver].
Qed.

Lemma split_line_none l : split_line l = None -> 10 ∉ l.
Proof.
  induction l as [|b l IH]; cbn [split_line]; [set_solver|].
  destruct (Z.eqb_spec b 10); [done|]. destruct (split_line l) as [[x r]|]; [done|]. set_solver.
Qed.

Lemma split_line_mid p r : 10 ∉ p -> split_line (p ++ 10 :: r) = Some (p ++ [10], r).
Proof.
  induction p as [|b p IH]; intros Hp; cbn [app split_line]; [done|].
  destruct (Z.eqb_spec b 10) as [->|]; [set_solver|]. by rewrite IH by set_solver.
Qed.

(** A part of [acc ++ line] that ends with a line feed lies in [acc], or is all
    of it. *)
Lemma prefix_line acc p line x y :
  10 ∉ p -> line = p \/ line = p ++ [10] -> acc ++ line = (x ++ [10]) ++ y ->
  (exists z, acc = (x ++ [10]) ++ z) \/ y = [].
Proof.
  intros Hp Hl He. destruct (app_eq_inv _ _ _ _ He) as [[k [Ha Hb]]|[k [Ha Hb]]].
  - left. by exists k.
  - destruct k as [|c k]; [left; exists []; by rewrite app_nil_r, Ha, app_nil_r|]. right.
    assert (exists k', c :: k = k' ++ [10]) as [k' Hk].
    { destruct (exists_last (l := c :: k)) as [k' [d Hd]]; [done|]. exists k'.
      rewrite Hd, app_assoc in Ha. apply app_inj_tail in Ha as [_ ->]. done. }
    rewrite Hk in Hb. destruct Hl as [->| ->].
    + exfalso. apply Hp. rewrite Hb. set_solver.
    + destruct y as [|d y]; [done|]. exfalso. apply Hp.
      destruct (exists_last (l := d :: y)) as [y' [e He']]; [done|]. rewrite He', app_assoc in Hb.
      apply app_inj_tail in Hb as [-> _]. set_solver.
Qed.

Definition headless (acc : list Z) : Prop := forall p q, acc = p ++ q -> ~ ends p.

Lemma headless_step acc p line : headless acc -> 10 ∉ p -> line = p \/ line = p ++ [10] -> ~ ends (acc ++ line) -> headless (acc ++ line).
Proof.
  intros Ha Hp Hl Hn x y He Hx. destruct (ends_last x Hx) as [x' ->].
  destruct (prefix_line _ _ _ _ _ Hp Hl He) as [[z ->]| ->].
  - by apply (Ha (x' ++ [10]) z).
  - rewrite app_nil_r in He. by rewrite <- He in Hx.
Qed.

Lemma head_step acc p line : headless acc -> 10 ∉ p -> line = p \/ line = p ++ [10] -> ends (acc ++ line) -> is_head (acc ++ line).
Proof.
  intros Ha Hp Hl Hn. split; [done|]. intros x y He Hx. destruct (ends_last x Hx) as [x' ->].
  destruct (prefix_line _ _ _ _ _ Hp Hl He) as [[z ->]| ->]; [|done].
  exfalso. by apply (Ha (x' ++ [10]) z).
Qed.

(** What [read_line] gives. *)
Lemma read_line_got s line s' : read_line s = Got line s' ->
  io_in s = line ++ io_in s' /\ io_end s' = io_end s /\ io_writes s' = io_writes s
  /\ is_utf8 line = true /\ exists p, 10 ∉ p /\ (line = p /\ io_in s' = [] \/ line = p ++ [10]).
Proof.
  unfold read_line. destruct (split_line (io_in s)) as [[x r]|] eqn:E.
  - destruct (is_utf8 x) eqn:Eu; [|done]. intros [= <- <-]. destruct (split_line_some _ _ _ E) as (-> & p & -> & Hp).
    split_and!; try done. exists p. auto.
  - destruct (io_end s) eqn:Ee; try done. destruct (is_utf8 (io_in s)) eqn:Eu; [|done]. intros [= <- <-]. cbn.
    rewrite app_nil_r. split_and!; try done. exists (io_in s). split; [by apply split_line_none|by left].
Qed.

Lemma get_response_sound fuel acc s resp s' : headless acc -> get_response fuel acc s = Some (Ok (resp, s')) ->
  (exists more, resp = acc ++ more /\ io_in s = more ++ io_in s' /\ readable more)
  /\ is_head resp /\ len resp <= MAXIMUM_RESPONSE_HEADER_LENGTH
  /\ io_end s' = io_end s /\ io_writes s' = io_writes s.
Proof.
  revert acc s. induction fuel as [|fuel IH]; intros acc s Ha; cbn [get_response]; [done|].
  destruct (read_line s) as [line s1|e|] eqn:E; try done.
  destruct (read_line_got _ _ _ E) as (Hin & He & Hw & Hu & p & Hp & Hl').
  assert (line = p \/ line = p ++ [10]) as Hl by naive_solver.
  destruct line as [|b line]; [done|]. set (resp1 := acc ++ b :: line).
  destruct (Z.ltb_spec MAXIMUM_RESPONSE_HEADER_LENGTH (len resp1)) as [Hm|Hm]; [done|].
  assert (Hend : ends resp1 -> b :: line = p ++ [10]).
  { intros H. destruct Hl as [Hl|Hl]; [|done]. destruct (ends_last _ H) as [x Hx]. exfalso. apply Hp.
    destruct (exists_last (l := b :: line)) as [l' [d Hd]]; [done|]. unfold resp1 in Hx.
    rewrite Hd, app_assoc in Hx. apply app_inj_tail in Hx as [_ ->]. rewrite <- Hl, Hd. set_solver. }
  destruct (ends_with_bytes CRLF2 resp1) eqn:Ee.
  - apply ends_spec in Ee. intros [= <- <-]. split_and!; try done; try lia.
    + exists (b :: line). split_and!; try done. specialize (Hend Ee). rewrite Hend in Hu |- *.
      apply (readable_mid p []); [done|]. by split; [|constructor].
    + by apply (head_step acc p).
  - assert (~ ends resp1) as Hn by (intros H; apply ends_spec in H; congruence).
    intros H. destruct (IH resp1 s1 (headless_step _ _ _ Ha Hp Hl Hn) H) as ((more & H1 & H1b & H1c) & H2 & H3 & H4 & H5).
    split_and!; try done; try congruence. exists ((b :: line) ++ more). split_and!.
    + rewrite H1. unfold resp1. by rewrite <- app_assoc.
    + by rewrite Hin, H1b, <- app_assoc.
    + destruct Hl' as [[_ Hz]|Hl']; [|rewrite Hl' in Hu |- *; rewrite <- app_assoc; by apply readable_mid].
      exfalso. apply Hn. rewrite Hz in H1b. destruct more; [|done]. rewrite app_nil_r in H1. rewrite <- H1. apply H2.
Qed.

Lemma get_response_complete fuel acc s resp more rest :
  (length (io_in s) < fuel)%nat -> io_in s = more ++ rest -> resp = acc ++ more -> more <> [] -> is_head resp ->
  len resp <= MAXIMUM_RESPONSE_HEADER_LENGTH -> readable more ->
  get_response fuel acc s = Some (Ok (resp, mkIo rest (io_end s) (io_writes s))).
Proof.
  revert acc s more. induction fuel as [|fuel IH]; intros acc s more Hf Hin Hr Hne Hh Hm Ha; [lia|]. cbn [get_response].
  assert (exists p m2, more = p ++ 10 :: m2 /\ 10 ∉ p) as (p & m2 & Hmore & Hp).
  { destruct (ends_last _ (proj1 Hh)) as [x Hx]. apply list_elem_of_split_l.
    destruct (exists_last Hne) as [m' [d Hd]]. rewrite Hr, Hd, app_assoc in Hx. apply app_inj_tail in Hx as [_ <-].
    rewrite Hd. set_solver. }
  unfold read_line. rewrite Hin, Hmore, <- app_assoc. cbn [app]. rewrite split_line_mid by done.
  rewrite Hmore in Ha. apply readable_mid in Ha as [Hl Ha]; [|done].
  rewrite Hl. destruct (p ++ [10]) as [|b l] eqn:Eb; [by destruct p|]. rewrite <- Eb.
  assert (resp = (acc ++ p ++ [10]) ++ m2) as Hr2 by (rewrite Hr, Hmore, <- !app_assoc; done).
  destruct (Z.ltb_spec MAXIMUM_RESPONSE_HEADER_LENGTH (len (acc ++ p ++ [10]))) as [Hlt|_].
  { rewrite Hr2, len_app in Hm. pose proof (len_nonneg m2). lia. }
  destruct (ends_with_bytes CRLF2 (acc ++ p ++ [10])) eqn:Ee.
  - apply ends_spec in Ee. pose proof (proj2 Hh _ _ Hr2 Ee) as ->. rewrite Hr2, app_nil_r. done.
  - apply (IH _ (mkIo (m2 ++ rest) (io_end s) (io_writes s)) m2); cbn [io_in]; try done.
    + rewrite Hin, Hmore in Hf. rewrite !length_app in Hf. cbn [length] in Hf. rewrite length_app. lia.
    + intros ->. rewrite app_nil_r in Hr2. rewrite <- Hr2 in Ee.
      pose proof (proj2 (ends_spec _) (proj1 Hh)). congruence.
Qed.

Lemma headless_nil : headless [].
Proof. intros p q H [r ->]. by destruct r. Qed.

Section Exchange.
Context (http_status : list Z -> option (option Z)) (base64 : list Z -> string) (ip_text : NetUtil.AddrMangle.SocketAddr -> string).

Abbreviation http_connect := (Proxy.http_connect http_status base64 ip_text).

(** C37. A tunnel through an HTTP proxy is opened exactly when the request can
    be written and the proxy's answer, up to and with its first empty line, has
    at most 4096 bytes, lines that are UTF-8 and status 200; every byte behind
    that line, whatever it is, is then still there to be read, none is lost and
    none of the answer is left, and what was sent is the request to connect to
    the target. *)
Theorem connect_exchange p s target tn :
  http_connect p s target = Some (Ok tn) <->
  io_writes s = WTaken /\
  exists response rest, io_in s = response ++ rest /\ is_head response /\ readable response
    /\ len response <= MAXIMUM_RESPONSE_HEADER_LENGTH /\ http_status response = Some (Some 200)
    /\ tn = mkTunnel (make_request base64 p (get_domain_and_port ip_text target).1 (get_domain_and_port ip_text target).2)
              (mkIo rest (io_end s) (io_writes s)).
Proof.
  unfold Proxy.http_connect. destruct (get_domain_and_port ip_text target) as [domain port].
  unfold recv_and_check_response. cbn [fst snd]. split.
  - destruct (io_writes s) eqn:Hw; try done. intros H. split; [done|]. revert H.
    destruct (get_response _ [] s) as [[[response s']|e]|] eqn:E; try done.
    destruct (get_response_sound _ _ _ _ _ headless_nil E) as ((more & -> & H1 & H1b) & H2 & H3 & H4 & H5).
    cbn [app] in *. destruct (http_status more) as [[code|]|] eqn:Es; try done.
    destruct (Z.eqb_spec code 200) as [->|]; [|done]. intros [= <-].
    exists more, (io_in s'). split_and!; try done. f_equal. destruct s'. cbn in *. by rewrite H4, H5, Hw.
  - intros (Hw & response & rest & Hin & Hh & Hu & Hm & Hs & ->). rewrite Hw.
    rewrite (get_response_complete _ _ _ response response rest); try done.
    + rewrite Hs. cbn. by rewrite Hw.
    + unfold response_fuel. lia.
    + intros ->. destruct Hh as [[q Hq] _]. by destruct q.
Qed.

End Exchange.

(** The limit is looked at after a line: a proxy that never ends one is read
    for as long as the time-out allows, however much it sends. *)
Lemma endless_line_unlimited bytes fuel acc w :
  10 ∉ bytes -> get_response (S fuel) acc (mkIo bytes Silent w) = None.
Proof.
  intros Hb. cbn [get_response]. unfold read_line. cbn [io_in io_end].
  destruct (split_line bytes) as [[x r]|] eqn:E; [|done].
  destruct (split_line_some _ _ _ E) as (-> & p & -> & _). set_solver.
Qed.

End ConnectExchange.

(** ** WebSocket streams *)

Module WsStream.

Import Secure Ws.

Section Stream.
Context `{SB : SecretBox}.

Definition is_control (m : WsMessage) : bool :=
  match m with Ping _ | Pong _ | Frame _ => true | Binary _ | Text _ | Close => false end.

Lemma next_skip l l' s : Forall (fun m => is_control m = true) l -> next_ (map Ok l ++ l') s = next_ l' s.
Proof. induction 1 as [|m l Hm _ IH]; [done|]. by destruct m. Qed.

(** C27. With a key set, the bytes a WebSocket stream delivers are those of its
    next message that is not a ping, a pong or a frame: either a binary
    message, opened with the key and the next number of the sequence, or a
    text message, which is delivered as it came: neither opened nor counted.
    So whoever carries the stream can put bytes of its own among the messages
    of the peer. *)
Theorem keyed_stream_delivers s k m s' : ws_encrypt s = Some k ->
  next s = (Item (Ok m), s') <->
  exists skipped rest, Forall (fun m => is_control m = true) skipped
    /\ ((exists data k', incoming s = map Ok skipped ++ Ok (Binary data) :: rest /\ dec k data = (Ok m, k')
         /\ s' = s <| incoming := rest |> <| ws_encrypt := Some k' |>)
        \/ (incoming s = map Ok skipped ++ Ok (Text m) :: rest /\ s' = s <| incoming := rest |>)).
Proof.
  intros Hk. unfold next. split.
  - generalize (incoming s). intros l0. induction l0 as [|[x|e] l IH]; cbn [next_]; [by destruct (ended s)| |done].
    destruct x as [data|text|d|d| |d].
    + rewrite Hk. destruct (dec k data) as [[b|e] k'] eqn:Ed; [|done]. intros [= <- <-].
      exists [], l. split; [constructor|]. left. by exists data, k'.
    + intros [= <- <-]. exists [], l. split; [constructor|]. by right.
    + intros H. destruct (IH H) as (sk & rest & Hs & Hr). exists (Ping d :: sk), rest. split; [by constructor|].
      destruct Hr as [(data & k' & -> & Hd & ->)|[-> ->]]; [left; by exists data, k'|by right].
    + intros H. destruct (IH H) as (sk & rest & Hs & Hr). exists (Pong d :: sk), rest. split; [by constructor|].
      destruct Hr as [(data & k' & -> & Hd & ->)|[-> ->]]; [left; by exists data, k'|by right].
    + done.
    + intros H. destruct (IH H) as (sk & rest & Hs & Hr). exists (Frame d :: sk), rest. split; [by constructor|].
      destruct Hr as [(data & k' & -> & Hd & ->)|[-> ->]]; [left; by exists data, k'|by right].
  - intros (sk & rest & Hs & [(data & k' & -> & Hd & ->)|[-> ->]]); rewrite next_skip by done; cbn [next_]; [|done].
    by rewrite Hk, Hd.
Qed.

Context {SBL : SecretBoxLaws SB}.

(** Reading as long as there are messages. *)
Fixpoint next_n (n : nat) (s : WsFramedStream) : list (list Z) * WsFramedStream :=
  match n with
  | O => ([], s)
  | S n =>
    match next s with
    | (Item (Ok m), s) => let '(ms, s) := next_n n s in (m :: ms, s)
    | (_, s) => ([], s)
    end
  end.

Fixpoint send_all (ms : list (list Z)) (s : WsFramedStream) : WsFramedStream :=
  match ms with [] => s | m :: ms => send_all ms (send_raw Takes m s).1 end.

Lemma send_all_written ms s k n d : ws_encrypt s = Some (mkEncrypt k n d) -> 0 <= n -> n + len ms < 2 ^ 64 ->
  written (send_all ms s) = written s ++ map Binary (sealed k n ms).
Proof.
  revert s n. induction ms as [|m ms IH]; intros s n He Hn Hl; cbn [send_all sealed map]; [by rewrite app_nil_r|].
  unfold len in Hl. cbn [length] in Hl. unfold send_raw. rewrite He. unfold enc. cbn [seq_enc seq_dec key send_bytes fst].
  rewrite wrap_small by lia. rewrite (IH _ (n + 1)) by (cbn; unfold len; done || lia). cbn. by rewrite <- app_assoc.
Qed.

Lemma ws_next_n_sealed ms s k n d rest : ws_encrypt s = Some (mkEncrypt k n d) -> 0 <= d -> d + len ms < 2 ^ 64 ->
  incoming s = map (fun c => Ok (Binary c)) (sealed k d ms) ++ rest ->
  (next_n (length ms) s).1 = ms.
Proof.
  revert s d. induction ms as [|m ms IH]; intros s d He Hd Hl Hi; cbn [length next_n]; [done|].
  unfold len in Hl. cbn [length] in Hl. cbn [sealed map app] in Hi. unfold next. rewrite Hi. cbn [next_]. rewrite He.
  rewrite dec_sealed by lia. match goal with |- context [next_n _ ?s1] => pose proof (IH s1 (d + 1)) as H;
    destruct (next_n (length ms) s1) as [ms' s2] end. cbn [fst] in *.
  f_equal. apply H; [done|lia|unfold len; lia|done].
Qed.

(** What one side sends over its keyed stream the other reads, when nothing is
    put in between. *)
Lemma ws_channel_delivers tx rx k n d n' ms : ws_encrypt tx = Some (mkEncrypt k n d) ->
  ws_encrypt rx = Some (mkEncrypt k n' n) -> 0 <= n -> n + len ms < 2 ^ 64 -> written tx = [] ->
  incoming rx = map Ok (written (send_all ms tx)) -> (next_n (length ms) rx).1 = ms.
Proof using SBL.
  intros Ht Hr Hn Hl Hw Hi. apply (ws_next_n_sealed ms rx k n' n []); try done.
  rewrite Hi, (send_all_written _ _ k n d) by done. rewrite Hw, app_nil_r. cbn [app]. by rewrite map_map.
Qed.

End Stream.

(** With the option for WebSocket on, a server that is named by its IP address
    is reached over [ws://], without TLS, and the key exchange with it is left
    out as well. *)
Lemma ip_server_in_clear `{SB : SecretBox} {SO : Sodium} {PR : Proto} is_ip_str is_ipv6_str c endpoint host port dec64 key sk sym got conn :
  use_ws c = true -> endpoint <> "" -> is_ws_endpoint endpoint = false -> is_ip_str endpoint = true ->
  HostPort.split_host_port is_ipv6_str endpoint = Some (host, port) ->
  starts_with "ws://" (check_ws is_ip_str is_ipv6_str c endpoint) = true
  /\ Handshake.secure_tcp dec64 (use_ws c) key sk sym got conn = Ok conn.
Proof.
  intros Hu He Hw Hi Hs. split; [|by rewrite Hu].
  unfold check_ws. rewrite Hu, (proj2 (String.eqb_neq _ _) He), Hw, Hs. cbn [negb].
  repeat match goal with |- context [if ?b then (_, i32 _) else _] => destruct b end; rewrite Hi; apply (prefix_own "ws://").
Qed.

End WsStream.

(** ** Addresses of proxies and targets *)

Module ProxyAddresses.

Import Proxy.

(** The host of a proxy is cut at its first colon: a bracketed IPv6 address is
    asked for as its part before that, and the port after it is not seen. *)
Lemma ipv6_proxy_asked_for resolve rest default_port : parse_u16 rest = None ->
  resolve_host resolve ("[" +:+ ":" +:+ rest) default_port
  = match resolve "[" default_port with
    | Err e => Err (IoError e)
    | Ok (a :: _) => Ok a
    | Ok [] => Err (AddressResolutionFailed ("[" +:+ ":" +:+ rest))
    end.
Proof.
  intros Hr. change ("[" +:+ ":" +:+ rest) with (String "[" (String ":" rest)). unfold resolve_host.
  assert (split_once ":" (String "[" (String ":" rest)) = Some ("[", rest)) as ->.
  { transitivity (Some ("[", String.substring 0 (S (S (String.length rest))) rest)); [reflexivity|].
    by rewrite substring_all by lia. }
  by rewrite Hr.
Qed.

(** An address without a scheme that the crate [url] reads as a scheme and a
    path, such as [proxy.example.com:1080], is refused; only what it cannot
    read is tried as SOCKS5. *)
Lemma name_with_port_refused url_parse s u :
  url_parse s = Some u -> has_host u = false -> into_proxy_scheme url_parse s = Err (UrlBadScheme (url_text u)).
Proof. intros Hu Hh. unfold into_proxy_scheme, into_url. by rewrite Hu, Hh. Qed.

(** An IPv6 target is written into the request without brackets. *)
Example ipv6_request :
  let ipt := fun _ => "2001:db8::1" in
  let t := TargetIp (NetUtil.AddrMangle.V6 (replicate 16 0) 80 0 0) in
  make_request (fun _ => "") (mkProxy (Http None "p") 0) (get_domain_and_port ipt t).1 (get_domain_and_port ipt t).2
  = "CONNECT 2001:db8::1:80 HTTP/1.1" +:+ CRLF +:+ "Host: 2001:db8::1:80" +:+ CRLF +:+ CRLF.
Proof. reflexivity. Qed.

End ProxyAddresses.

(** ** Runs *)

Module TransportDemo.

Import Secure Ws Proxy ConnectExchange WsStream.
#[local] Existing Instance toy_box.

Definition greeting : list Z := Config.str_bytes ("HTTP/1.1 200 OK" +:+ CRLF +:+ CRLF).
Definition status_of (l : list Z) : option (option Z) := if bool_decide (l = greeting) then Some (Some 200) else None.

Definition from_proxy : Io := mkIo (greeting ++ [255; 10; 3]) Silent WTaken.

Lemma connect_exchange_witness :
  exists response rest, io_in from_proxy = response ++ rest /\ is_head response /\ rest = [255; 10; 3].
Proof.
  destruct (proj1 (connect_exchange status_of (fun _ => "") (fun _ => "") (mkProxy (Http None "p") 600) from_proxy
                     (TargetDomain "h" 22)
                     (mkTunnel ("CONNECT h:22 HTTP/1.1" +:+ CRLF +:+ "Host: h:22" +:+ CRLF +:+ CRLF)
                        (mkIo [255; 10; 3] Silent WTaken)))
                     eq_refl) as (_ & response & rest & H1 & H2 & _ & _ & _ & H3).
  exists response, rest. split; [exact H1|split; [exact H2|]]. injection H3 as <-. reflexivity.
Defined.

Definition keyed_stream : WsFramedStream := mkWs [Ok (Ping []); Ok (Text [1; 2])] false [] (NetUtil.AddrMangle.V4 [] 0) (Some (Encrypt_new [7])) 0.

(** A text message behind a ping, on a stream with a key. *)
Lemma keyed_stream_delivers_witness :
  next keyed_stream = (Item (Ok [1; 2]), keyed_stream <| incoming := [] |>).
Proof.
  apply (keyed_stream_delivers keyed_stream (Encrypt_new [7]) [1; 2] _ eq_refl).
  exists [Ping []], []. split; [repeat constructor|]. right. split; reflexivity.
Defined.

End TransportDemo.
