(* ===== verification/ApiServer.v ===== *)
(** * The API server ([src/common.rs], [src/hbbs_http/sync.rs], [src/updater.rs])

    Which server that is, the loop that tells it every few seconds that the
    device is there and what it is ([start_hbbs_sync_async]), what its answers
    do to the configuration and to the connections, and the loop that looks
    for a newer version.

    A pass of a loop is a function: the clock, the answers of the server and
    the readings of the system are its inputs.  Instants are in milliseconds.
    The texts of JSON and the hash are parameters.  The names of the server
    that Windows takes from the executable are left out (see [CustomClient]). *)

From S2P Require Import Prelude RustStr SecureStream Password Config ConfigMore NetUtil Rendezvous ConfigProofs.

Module Api.

Import Config.

(** ** Its address *)

Section Address.
Context (is_ipv6_str : string -> bool) (S : Settings).
(** [API_SERVER] when the program was compiled, and the server a custom client
    brings. *)
Context (API_SERVER PROD_RENDEZVOUS_SERVER : string).

Abbreviation get_custom_rendezvous_server := (Rendezvous.get_custom_rendezvous_server PROD_RENDEZVOUS_SERVER).

Definition get_api_server_ (api custom : string) : string :=
  if negb (String.eqb api "") then api
  else if negb (String.eqb API_SERVER "") then API_SERVER
  else
    let s0 := get_custom_rendezvous_server custom in
    if negb (String.eqb s0 "") then
      let s := HostPort.increase_port is_ipv6_str s0 (-2) in
      if String.eqb s s0 then "http://" +:+ s +:+ ":" +:+ show (RENDEZVOUS_PORT - 2)
      else "http://" +:+ s
    else "https://admin.rustdesk.com".

(** [String::pop] of a last slash. *)
Definition without_slash (s : string) : string :=
  if ends_with "/" s then String.substring 0 (String.length s - 1) s else s.

Definition get_api_server (api custom : string) : string :=
  if ConfigMore.no_register_device S then ""
  else
    let res := without_slash (get_api_server_ api custom) in
    if starts_with "https" res && ends_with ":21114" res
       && negb (String.eqb (get_builtin_option S "allow-https-21114") "Y")
    then replace_str ":21114" "" res
    else res.

Definition is_public (url : string) : bool := contains_str "rustdesk.com/" url || ends_with "rustdesk.com" url.

Definition get_audit_server (api custom typ : string) : string :=
  let url := get_api_server api custom in
  if String.eqb url "" || is_public url then "" else url +:+ "/api/audit/" +:+ typ.

Definition heartbeat_url (st : State) : string :=
  let url := get_api_server (get_option S "api-server" st) (get_option S "custom-rendezvous-server" st) in
  if String.eqb url "" || is_public url then "" else url +:+ "/api/heartbeat".

(** The options for punching, of the user interface: [local] is
    [LocalConfig::get_option], [rendezvous_server] is
    [Config::get_rendezvous_server]. *)
Definition get_local_option (local : string -> string) (rendezvous_server key : string) : string :=
  let v := local key in
  if String.eqb key "enable-udp-punch" || String.eqb key "enable-ipv6-punch" then
    if String.eqb v "" && negb (is_public rendezvous_server) then "N" else v
  else v.

Definition get_udp_punch_enabled (local : string -> string) (rendezvous_server : string) : bool :=
  option2bool "enable-udp-punch" (get_local_option local rendezvous_server "enable-udp-punch").

Definition get_ipv6_punch_enabled (local : string -> string) (rendezvous_server : string) : bool :=
  option2bool "enable-ipv6-punch" (get_local_option local rendezvous_server "enable-ipv6-punch").

End Address.

(** ** The heartbeat *)

Definition TIME_HEARTBEAT : Z := 15000.
Definition UPLOAD_SYSINFO_TIMEOUT : Z := 120000.
Definition TIME_CONN : Z := 3000.

Record InfoUploaded : Type := mkInfo {
  uploaded : bool;
  info_url : string;
  last_uploaded : option Z;
  info_id : string;
  info_username : option string
}.

Definition info_default : InfoUploaded := mkInfo false "" None "" None.
Definition info_uploaded (url id username : string) : InfoUploaded := mkInfo true url None id (Some username).

Set Primitive Projections.
Record Sync : Type := mkSync {
  last_sent : option Z;
  info : InfoUploaded;
  sysinfo_ver : string;
  PRO : bool;
  status : gmap string string;              (* [config::Status] *)
  strategy_timestamp : string;              (* of [LocalConfig] *)
  conf : State
}.
Unset Primitive Projections.

#[export] Instance set_last_sent : FieldSet last_sent :=
  fun v r => mkSync v (info r) (sysinfo_ver r) (PRO r) (status r) (strategy_timestamp r) (conf r).
#[export] Instance set_info : FieldSet info :=
  fun v r => mkSync (last_sent r) v (sysinfo_ver r) (PRO r) (status r) (strategy_timestamp r) (conf r).
#[export] Instance set_sysinfo_ver : FieldSet sysinfo_ver :=
  fun v r => mkSync (last_sent r) (info r) v (PRO r) (status r) (strategy_timestamp r) (conf r).
#[export] Instance set_PRO : FieldSet PRO :=
  fun v r => mkSync (last_sent r) (info r) (sysinfo_ver r) v (status r) (strategy_timestamp r) (conf r).
#[export] Instance set_status : FieldSet status :=
  fun v r => mkSync (last_sent r) (info r) (sysinfo_ver r) (PRO r) v (strategy_timestamp r) (conf r).
#[export] Instance set_strategy_timestamp : FieldSet strategy_timestamp :=
  fun v r => mkSync (last_sent r) (info r) (sysinfo_ver r) (PRO r) (status r) v (conf r).
#[export] Instance set_conf : FieldSet conf :=
  fun v r => mkSync (last_sent r) (info r) (sysinfo_ver r) (PRO r) (status r) (strategy_timestamp r) v.

(** What the server answers to a heartbeat: the fields that are there, and
    those that have the right type. *)
Record Reply : Type := mkReply {
  r_sysinfo : bool;
  r_disconnect : option (list Z);
  r_modified_at : option Z;
  r_strategy : option (gmap string string)       (* [config_options] *)
}.

(** What a pass does to the outside. *)
Inductive SyncOut : Type :=
| Posted (url body : string)
| Disconnect (conns : list Z).                   (* to every connection *)

(** The readings of a pass, and the server. *)
Record TickIn : Type := mkTickIn {
  now : Z;                                       (* when the pass begins *)
  after_upload : Z;
  at_sending : Z;
  device_id : string;
  alive_conns : list Z;
  sysinfo : gmap string string;
  server : string -> string -> result string string
}.

Section Sync.
Context `{SB : SecretBox} `{B64 : Base64} (get_uuid : list Z) (S : Settings).
Context (is_ipv6_str : string -> bool) (API_SERVER PROD_RENDEZVOUS_SERVER : string).
(** The texts of JSON; the SHA-256 of two texts in base64; the version of the
    program and its number. *)
Context (to_json : gmap string string -> string) (heartbeat_json : string -> string -> list Z -> Z -> string).
Context (parse_reply : string -> option Reply) (sha256_64 : string -> string -> string).
Context (VERSION uuid64 : string).

Abbreviation own_url := (heartbeat_url is_ipv6_str S API_SERVER PROD_RENDEZVOUS_SERVER).

Definition handle_config_options (config_options : gmap string string) (st : State) : State :=
  let options := map_fold (fun k v o => if String.eqb v "" then delete k o else <[k := v]> o)
                   (get_options S st) config_options in
  set_options get_uuid S options st.

Definition set_if (k v : string) (m : gmap string string) : gmap string string :=
  if String.eqb v "" then m else <[k := v]> m.

(** What is told about the device. *)
Definition upload_body (id : string) (st : State) (v : gmap string string) : gmap string string :=
  let opt k := get_option S k st in
  let v := <["version" := VERSION]> v in
  let v := <["id" := id]> v in
  let v := <["uuid" := uuid64]> v in
  let v := set_if "preset-address-book-name" (opt "preset-address-book-name") v in
  let v := set_if "preset-address-book-tag" (opt "preset-address-book-tag") v in
  let v := set_if "preset-address-book-alias" (opt "preset-address-book-alias") v in
  let v := set_if "preset-address-book-password" (opt "preset-address-book-password") v in
  let v := set_if "preset-address-book-note" (opt "preset-address-book-note") v in
  let v := set_if "preset-user-name" (get_builtin_option S "preset-user-name") v in
  let v := set_if "preset-strategy-name" (get_builtin_option S "preset-strategy-name") v in
  let v := set_if "preset-device-group-name" (get_builtin_option S "preset-device-group-name") v in
  let v := set_if "username" (opt "preset-device-username") v in
  let v := set_if "hostname" (opt "preset-device-name") v in
  set_if "preset-note" (opt "preset-note") v.

(** The upload; [true] when the pass ends there. *)
Definition upload (t : TickIn) (url sys_username : string) (s : Sync) : Sync * list SyncOut * bool :=
  let id := device_id t in
  let v := to_json (upload_body id (conf s) (sysinfo t)) in
  let ver_url := replace_str "heartbeat" "sysinfo_ver" url in
  let hash := if is_public url then sha256_64 url v else "" in
  let '(s, out, samever) :=
    if is_public url && String.eqb hash (unwrap_or "" (status s !! "sysinfo_hash")) then
      let ver := unwrap_or "" (status s !! "sysinfo_ver") in
      match server t ver_url "" with
      | Ok x => (s <| sysinfo_ver := x |> <| PRO := true |>, [Posted ver_url ""], String.eqb x ver)
      | Err _ => (s, [Posted ver_url ""], false)
      end
    else (s, [], false) in
  if samever : bool then (s <| info := info_uploaded url id sys_username |>, out, true)
  else
    let info_url := replace_str "heartbeat" "sysinfo" url in
    let out := out ++ [Posted info_url v] in
    let failed := s <| info := mkInfo (uploaded (info s)) (Api.info_url (info s)) (Some (after_upload t))
                                 (info_id (info s)) (info_username (info s)) |> in
    match server t info_url v with
    | Ok x =>
      if String.eqb x "SYSINFO_UPDATED" then
        let s := s <| info := info_uploaded url id sys_username |> in
        let s := if negb (String.eqb hash "")
                 then s <| status := <["sysinfo_ver" := sysinfo_ver s]> (<["sysinfo_hash" := hash]> (status s)) |>
                 else s in
        (s <| PRO := true |>, out, false)
      else if String.eqb x "ID_NOT_FOUND" then
        (s <| info := mkInfo (uploaded (info s)) (Api.info_url (info s)) None (info_id (info s)) (info_username (info s)) |>, out, false)
      else (failed, out, false)
    | Err _ => (failed, out, false)
    end.

Definition handle_reply (modified_at : Z) (r : Reply) (s : Sync) : Sync * list SyncOut :=
  let s := if r_sysinfo r then
             s <| info := mkInfo false (info_url (info s)) (last_uploaded (info s)) (info_id (info s)) (info_username (info s)) |>
               <| status := <["sysinfo_hash" := ""]> (status s) |>
           else s in
  let out := match r_disconnect r with Some conns => [Disconnect conns] | None => [] end in
  let s := match r_modified_at r with
           | Some m => if negb (m =? modified_at) then s <| strategy_timestamp := show m |> else s
           | None => s
           end in
  let s := match r_strategy r with
           | Some o => s <| conf := handle_config_options o (conf s) |>
           | None => s
           end in
  (s, out).

Definition need_upload (t : TickIn) (sys_username : string) (i : InfoUploaded) : bool :=
  (negb (uploaded i) || negb (bool_decide (info_username i = Some sys_username)))
  && match last_uploaded i with Some x => UPLOAD_SYSINFO_TIMEOUT <=? now t - x | None => true end.

(** One tick of the interval. *)
Definition tick (t : TickIn) (s : Sync) : Sync * list SyncOut :=
  let url := own_url (conf s) in
  let id := device_id t in
  if String.eqb url "" then (s <| PRO := false |>, [])
  else if option2bool "stop-service" (get_option S "stop-service" (conf s)) then (s, [])
  else
    let s := if uploaded (info s) && (negb (String.eqb url (info_url (info s))) || negb (String.eqb id (info_id (info s))))
             then s <| info := mkInfo false (info_url (info s)) (last_uploaded (info s)) (info_id (info s)) (info_username (info s)) |>
                    <| PRO := false |>
             else s in
    let sys_username := unwrap_or "" (sysinfo t !! "username") in
    let '(s, out, done) := if need_upload t sys_username (info s) then upload t url sys_username s else (s, [], false) in
    if done : bool then (s, out)
    else if bool_decide (alive_conns t = [])
            && match last_sent s with Some x => at_sending t - x <? TIME_HEARTBEAT | None => false end
    then (s, out)
    else
      let s := s <| last_sent := Some (at_sending t) |> in
      let modified_at := unwrap_or 0 (parse_i64 (strategy_timestamp s)) in
      let body := heartbeat_json id uuid64 (alive_conns t) modified_at in
      let out := out ++ [Posted url body] in
      match server t url body with
      | Ok x =>
        match parse_reply x with
        | Some r => let '(s, o) := handle_reply modified_at r s in (s, out ++ o)
        | None => (s, out)
        end
      | Err _ => (s, out)
      end.

(** The loop, over its ticks. *)
Fixpoint run (l : list TickIn) (s : Sync) : Sync * list (list SyncOut) :=
  match l with
  | [] => (s, [])
  | t :: l => let '(s, o) := tick t s in let '(s, os) := run l s in (s, o :: os)
  end.

Definition is_pro (s : Sync) : bool := PRO s.

End Sync.

(** ** Looking for a newer version *)

Definition MIN_INTERVAL : Z := 600000.
Definition RETRY_INTERVAL : Z := 1800000.
Definition DUR_ONE_DAY : Z := 86400000.

Inductive UpdateMsg : Type := CheckUpdate | Exit.

(** What ends the wait: a message, or the time. *)
Definition Wake : Type := option UpdateMsg.

Record Updater : Type := mkUpdater { last_check_time : Z; check_interval : Z; stopped : bool }.

(** What a pass saw: the time, whether anybody is connected or being
    controlled, whether [check_update] fails, the time after it. *)
Record UpdateIn : Type := mkUpdateIn { u_now : Z; wake : Wake; no_active_conns : bool; check_fails : bool; u_after : Z }.

(** [start_auto_update_check_]: the state before the loop (a check has been
    made) and one pass; the boolean is the argument of [check_update] when it
    is called. *)
Definition updater_start (now : Z) : Updater := mkUpdater now DUR_ONE_DAY false.

Definition updater_step (i : UpdateIn) (u : Updater) : Updater * option bool :=
  if stopped u then (u, None)
  else match wake i with
  | Some Exit => (mkUpdater (last_check_time u) (check_interval u) true, None)
  | _ =>
    if u_now i - last_check_time u <? MIN_INTERVAL then (u, None)
    else if negb (no_active_conns i) then (mkUpdater (last_check_time u) RETRY_INTERVAL false, None)
    else
      let manually := match wake i with Some CheckUpdate => true | _ => false end in
      if check_fails i then (mkUpdater (last_check_time u) RETRY_INTERVAL false, Some manually)
      else (mkUpdater (u_after i) DUR_ONE_DAY false, Some manually)
  end.

(** [check_update], up to the installation, which only Windows has.  The file
    is what the temporary directory holds under the name. *)
Inductive CheckResult : Type :=
| NothingToDo
| Downloaded (name : string) (data : list Z)     (* written *)
| Present (name : string)                        (* as large as the server's *)
| CheckError (e : string) (removed : bool).      (* whether an older file was removed first *)

Record Answer : Type := mkAnswer { is_success : bool; content_length : option Z; body : result (list Z) string }.

Section Check.
Context (software_update_url : result string string).      (* after [do_check_software_update]; an error is ignored *)
Context (head get : string -> result Answer string) (file_size : string -> option Z).

Definition last_part (url : string) : string := List.last (split_char "/" url) "".

Definition check_update (manually auto_update : bool) : CheckResult :=
  if negb (manually || auto_update) then NothingToDo
  else match software_update_url with
  | Err _ => NothingToDo
  | Ok update_url =>
    if String.eqb update_url "" then NothingToDo
    else
      let download_url := replace_str "tag" "download" update_url in
      let name := last_part download_url in
      let fetch (removed : bool) :=
        match get download_url with
        | Err e => CheckError e removed
        | Ok a =>
          if negb (is_success a) then CheckError "Failed to download the new version file" removed
          else match body a with Err e => CheckError e removed | Ok d => Downloaded name d end
        end in
      match file_size name with
      | None => fetch false
      | Some size =>
        match head download_url with
        | Err e => CheckError e false
        | Ok a =>
          if negb (is_success a) then CheckError "Failed to get the file size" false
          else match content_length a with
          | None => CheckError "Failed to get content length" false
          | Some total => if size =? total then Present name else fetch true
          end
        end
      end
  end.

End Check.

End Api.

(** ** The API server: what its answers change, and what is told to it

    The strategy a server sends and the options afterwards, the description of
    the device that is uploaded again and again, the pace of the heartbeats and
    of the checks for a newer version. *)

Module ApiProofs.

Import Config ConfigFacts Api.

(** ** Text in text *)

Lemma contains_spec pat s : contains_str pat s = true <-> exists a b, s = a +:+ (pat +:+ b).
Proof.
  assert (Hp : forall s, starts_with pat s = true <-> exists b, s = pat +:+ b).
  { clear s. unfold starts_with. induction pat as [|c pat IH]; intros s.
    - split; [by exists s|]. intros _. by destruct s.
    - destruct s as [|d s]; cbn [String.prefix]; [split; [done|by intros [b [=]]]|].
      destruct (Ascii.ascii_dec c d) as [->|Hn].
      + rewrite IH. split; intros [b Hb]; exists b; [by rewrite Hb|]. by injection Hb.
      + split; [done|]. intros [b Hb]. by injection Hb as <-. }
  induction s as [|c s IH]; cbn [contains_str]; rewrite orb_true_iff, Hp.
  - split; [intros [[b Hb]|[=]]; by exists "", b|]. intros (a & b & Hab). left. destruct a as [|x a]; [by exists b|done].
  - rewrite IH. split.
    + intros [[b Hb]|(a & b & Hab)]; [by exists "", b|]. exists (String c a), b. by rewrite Hab.
    + intros (a & b & Hab). destruct a as [|x a]; [left; by exists b|]. right. injection Hab as <- ->. by exists a, b.
Qed.

Lemma append_eq_inv a b c d : a +:+ b = c +:+ d ->
  (exists k, a = c +:+ k /\ d = k +:+ b) \/ (exists k, c = a +:+ k /\ b = k +:+ d).
Proof.
  revert c. induction a as [|x a IH]; intros c H; [right; by exists c|].
  destruct c as [|y c]; [left; by exists (String x a)|]. injection H as <- H.
  destruct (IH c H) as [[k [-> ->]]|[k [-> ->]]]; [left|right]; by exists k.
Qed.

Lemma substring_from a p : String.substring (String.length a) (String.length p) (a +:+ p) = p.
Proof.
  induction a as [|x a IH]; [|exact IH]. change ("" +:+ p) with p. by apply substring_all.
Qed.

Lemma ends_with_own a p : ends_with p (a +:+ p) = true.
Proof.
  unfold ends_with. rewrite length_append.
  replace (String.length a + String.length p - String.length p)%nat with (String.length a) by lia.
  rewrite substring_from, String.eqb_refl, andb_true_r. apply Nat.leb_le. lia.
Qed.

(** The only slash of the name is its last character. *)
Lemma name_slash k k2 : "rustdesk.com/" = k +:+ String "/" k2 -> k = "rustdesk.com".
Proof.
  intros H. do 12 (destruct k as [|? k]; [discriminate|injection H as <- H]).
  destruct k as [|? k]; [done|]. injection H as _ H. by destruct k.
Qed.

(** Adding the path of the heartbeat to an address does not make it one of the
    public servers. *)
Lemma path_not_public url : is_public url = false -> is_public (url +:+ "/api/heartbeat") = false.
Proof.
  unfold is_public. rewrite !orb_false_iff. intros [Hc He]. split.
  - apply not_true_iff_false. rewrite contains_spec. intros (a & b & H).
    apply append_eq_inv in H as [[k [-> H]]|[k [-> H]]].
    + apply append_eq_inv in H as [[k2 [Hk H]]|[k2 [-> H]]].
      * destruct k2 as [|c k2].
        -- rewrite append_empty in Hk. subst k. assert (contains_str "rustdesk.com/" (a +:+ "rustdesk.com/") = true) as Hx;
             [|by rewrite Hx in Hc]. apply contains_spec. exists a, "". by rewrite append_empty.
        -- injection H as <- H. apply name_slash in Hk as ->. by rewrite ends_with_own in He.
      * assert (contains_str "rustdesk.com/" (a +:+ ("rustdesk.com/" +:+ k2)) = true) as Hx; [|by rewrite Hx in Hc].
        apply contains_spec. by exists a, k2.
    + assert (contains_str "rustdesk.com/" "/api/heartbeat" = true) as Hx; [|discriminate].
      apply contains_spec. by exists k, b.
  - destruct (ends_with "rustdesk.com" (url +:+ "/api/heartbeat")) eqn:E; [|done].
    exfalso. revert E. unfold ends_with. rewrite length_append. intros [_ E]%andb_true_iff. apply String.eqb_eq in E.
    assert (String.substring (String.length url + 2) 12 (url +:+ "/api/heartbeat") = "pi/heartbeat") as Hs.
    { clear. induction url as [|c url IH]; [reflexivity|exact IH]. }
    cbn [String.length] in E. replace (String.length url + 14 - 12)%nat with (String.length url + 2)%nat in E by lia.
    by rewrite Hs in E.
Qed.

Section Sync.
Context `{SB : SecretBox} `{B64 : Base64} (get_uuid : list Z) (S : Settings).
Context (is_ipv6_str : string -> bool) (API_SERVER PROD_RENDEZVOUS_SERVER : string).
Context (to_json : gmap string string -> string) (heartbeat_json : string -> string -> list Z -> Z -> string).
Context (parse_reply : string -> option Reply) (sha256_64 : string -> string -> string).
Context (VERSION uuid64 : string).

Abbreviation url_of := (heartbeat_url is_ipv6_str S API_SERVER PROD_RENDEZVOUS_SERVER).
Abbreviation api_upload := (Api.upload S to_json sha256_64 VERSION uuid64).
Abbreviation api_tick := (Api.tick get_uuid S is_ipv6_str API_SERVER PROD_RENDEZVOUS_SERVER to_json heartbeat_json
                        parse_reply sha256_64 VERSION uuid64).
Abbreviation api_handle_reply := (Api.handle_reply get_uuid S).

(** ** The description of the device *)

Lemma url_not_public st : is_public (url_of st) = false.
Proof.
  unfold Api.heartbeat_url. destruct (String.eqb _ "" || is_public _) eqn:E; [done|].
  apply orb_false_iff in E as [_ E]. by apply path_not_public.
Qed.

(** The branch that compares a hash of the description with that of the last
    upload, to leave an upload out, is for the public servers, which the
    address of the heartbeat never is: an upload is always made, the version
    on the server's side is never asked for, and no hash is kept. *)
Lemma description_always_sent t u s :
  api_upload t (url_of (conf s)) u s
  = (let '(s', _, _) := api_upload t (url_of (conf s)) u s in s',
     [Posted (replace_str "heartbeat" "sysinfo" (url_of (conf s)))
        (to_json (upload_body S VERSION uuid64 (device_id t) (conf s) (sysinfo t)))], false)
  /\ status (api_upload t (url_of (conf s)) u s).1.1 = status s.
Proof.
  unfold Api.upload. rewrite url_not_public. cbn [andb].
  destruct (server t _ _) as [x|e]; [|done]. destruct (String.eqb x "SYSINFO_UPDATED"); [done|].
  by destruct (String.eqb x "ID_NOT_FOUND").
Qed.

(** ** A strategy *)

Lemma config_fold_lookup (o base : gmap string string) k :
  map_fold (fun k v (m : gmap string string) => if String.eqb v "" then delete k m else <[k := v]> m) base o !! k
  = match o !! k with Some v => if String.eqb v "" then None else Some v | None => base !! k end.
Proof.
  revert o. apply (map_fold_weak_ind (fun m o => m !! k = match o !! k with
    Some v => if String.eqb v "" then None else Some v | None => base !! k end)).
  - by rewrite lookup_empty.
  - intros i x o r Hi IH. destruct (decide (i = k)) as [->|Hne].
    + rewrite lookup_insert_eq. destruct (String.eqb x ""); [by rewrite lookup_delete_eq|by rewrite lookup_insert_eq].
    + rewrite lookup_insert_ne by done. destruct (String.eqb x ""); [by rewrite lookup_delete_ne|by rewrite lookup_insert_ne].
Qed.

Lemma set_options_options v st : options (CONFIG2 (set_options get_uuid S v st)) = purify_options S v.
Proof. unfold set_options. by case_bool_decide. Qed.

(** Storing what is not redundant reads back as the whole. *)
Lemma purified_reads (m : gmap string string) k : OVERWRITE_SETTINGS S !! k = None ->
  unwrap_or "" (get_or (OVERWRITE_SETTINGS S) (purify_options S m) (DEFAULT_SETTINGS S) k)
  = unwrap_or "" (match m !! k with Some v => Some v | None => DEFAULT_SETTINGS S !! k end).
Proof.
  intros Ho. unfold get_or, purify_options. rewrite Ho. rewrite map_lookup_filter.
  destruct (m !! k) as [v|] eqn:Em; [|done]. cbn. case_guard as Hs; [done|]. cbn.
  assert (DEFAULT_SETTINGS S !! k = Some v) as ->; [|done].
  destruct (DEFAULT_SETTINGS S !! k) as [x|] eqn:Ed.
  - f_equal. destruct (String.eqb_spec x v) as [|Hx]; [done|]. exfalso. apply Hs. unfold is_option_can_save.
    rewrite Ho, Ed, (proj2 (String.eqb_neq _ _) Hx). by destruct (_ || _).
  - exfalso. apply Hs. unfold is_option_can_save. rewrite Ho, Ed. by destruct (_ || _).
Qed.

Definition after_strategy (o : gmap string string) (st : State) (k : string) : string :=
  match OVERWRITE_SETTINGS S !! k with
  | Some x => x
  | None =>
    match o !! k with
    | Some v => if String.eqb v "" then unwrap_or "" (DEFAULT_SETTINGS S !! k) else v
    | None => get_option S k st
    end
  end.

Lemma strategy_reads o st k : get_option S k (handle_config_options get_uuid S o st) = after_strategy o st k.
Proof.
  unfold after_strategy, handle_config_options. unfold get_option at 1. rewrite set_options_options.
  destruct (OVERWRITE_SETTINGS S !! k) as [x|] eqn:Eo; [unfold get_or; by rewrite Eo|].
  rewrite purified_reads by done. rewrite config_fold_lookup. destruct (o !! k) as [v|].
  - by destruct (String.eqb v "").
  - rewrite get_options_get_or. unfold get_option, get_or. rewrite Eo.
    destruct (options (CONFIG2 st) !! k); [done|]. by destruct (DEFAULT_SETTINGS S !! k).
Qed.

(** C38. What the answer to a heartbeat does: an option of the strategy reads
    as the server wants it from then on (its default when the server sends the
    empty text), except where the program was built with a value of its own;
    every other option reads as before, although the whole merged
    configuration is written back; the connections the server names, and only
    they, are told to end; the time stamp of the strategy is the one the next
    heartbeat carries; and a server that asks for the description gets it
    again. *)
Theorem reply_applied m r s :
  let s' := (api_handle_reply m r s).1 in
  (forall k, get_option S k (conf s') = match r_strategy r with Some o => after_strategy o (conf s) k
                                        | None => get_option S k (conf s) end)
  /\ (api_handle_reply m r s).2 = match r_disconnect r with Some l => [Disconnect l] | None => [] end
  /\ (forall x, r_modified_at r = Some x -> 0 <= x < 2 ^ 63 -> unwrap_or 0 (parse_i64 (strategy_timestamp s)) = m ->
      unwrap_or 0 (parse_i64 (strategy_timestamp s')) = x)
  /\ uploaded (info s') = uploaded (info s) && negb (r_sysinfo r).
Proof.
  cbv zeta. unfold Api.handle_reply. cbn [fst snd]. split_and!.
  - intros k. destruct (r_strategy r) as [o|].
    + cbn [conf set_field set_conf]. rewrite strategy_reads. unfold after_strategy.
      destruct (r_sysinfo r), (r_modified_at r) as [x|]; try done; by destruct (negb (x =? m)).
    + destruct (r_sysinfo r), (r_modified_at r) as [x|]; try done; by destruct (negb (x =? m)).
  - done.
  - intros x Hx Hr Hm. rewrite Hx. destruct (Z.eqb_spec x m) as [->|Hne]; cbn [negb].
    + by destruct (r_sysinfo r), (r_strategy r).
    + assert (parse_i64 (show x) = Some x) as Hp by (apply parse_show_nonneg; lia).
      destruct (r_sysinfo r), (r_strategy r); cbn; by rewrite Hp.
  - destruct (r_sysinfo r), (r_strategy r), (r_modified_at r) as [x|]; cbn;
      try destruct (x =? m); cbn; by rewrite ?andb_true_r, ?andb_false_r.
Qed.

(** A strategy that cannot be read leaves the options alone, but the time stamp
    that came with it is kept: the server is told that it was received. *)
Lemma unread_strategy_acknowledged (m x : Z) (s : Sync) : x <> m ->
  api_handle_reply m (mkReply false None (Some x) None) s = (s <| strategy_timestamp := show x |>, []).
Proof. intros Hx. unfold Api.handle_reply. cbn. by rewrite (proj2 (Z.eqb_neq _ _) Hx). Qed.

(** With nobody connected, heartbeats are at least fifteen seconds apart. *)
Lemma heartbeat_spaced (t : TickIn) (s : Sync) (x : Z) :
  last_sent s = Some x -> alive_conns t = [] -> at_sending t - x < TIME_HEARTBEAT -> last_sent (api_tick t s).1 = Some x.
Proof.
  intros Hl Ha Ht. unfold Api.tick. destruct (String.eqb _ ""); [done|]. destruct (option2bool _ _); [done|].
  cbv zeta. match goal with |- context [need_upload t _ (info ?s')] => set (s1 := s') end.
  assert (last_sent s1 = Some x) as H1 by (unfold s1; by destruct (_ && _)). clearbody s1.
  assert (exists s2 out d, (if need_upload t (unwrap_or "" (sysinfo t !! "username")) (info s1)
            then api_upload t (url_of (conf s)) (unwrap_or "" (sysinfo t !! "username")) s1 else (s1, [], false)) = (s2, out, d)
          /\ last_sent s2 = Some x) as (s2 & out & d & -> & H2).
  { destruct (need_upload _ _ _); [|by eexists _, _, _]. unfold Api.upload. rewrite url_not_public. cbn [andb].
    destruct (server t _ _) as [y|e]; [|by eexists _, _, _]. destruct (String.eqb y "SYSINFO_UPDATED"); [by eexists _, _, _|].
    destruct (String.eqb y "ID_NOT_FOUND"); by eexists _, _, _. }
  destruct d; [done|]. rewrite (bool_decide_eq_true_2 _ Ha), H2. cbn [andb].
  replace (at_sending t - x <? TIME_HEARTBEAT) with true by lia. done.
Qed.

End Sync.

(** ** Looking for a newer version *)

(** A check is made with nobody connected, at least ten minutes after the last
    that succeeded; after it the next is due in a day, or in half an hour when
    it failed or somebody was connected. *)
Lemma update_checked_when_idle i u manually : (updater_step i u).2 = Some manually ->
  no_active_conns i = true /\ MIN_INTERVAL <= u_now i - last_check_time u /\ stopped u = false
  /\ (updater_step i u).1 = (if check_fails i then mkUpdater (last_check_time u) RETRY_INTERVAL false
                            else mkUpdater (u_after i) DUR_ONE_DAY false).
Proof.
  unfold updater_step. destruct (stopped u); [done|]. destruct (wake i) as [[|]|] eqn:Ew; try done.
  all: destruct (Z.ltb_spec (u_now i - last_check_time u) MIN_INTERVAL); [done|].
  all: destruct (no_active_conns i); [|done]; by destruct (check_fails i).
Qed.

(** Any server whose name ends like the public one's counts as public. *)
Example other_name_public : is_public "https://notrustdesk.com" = true /\ is_public "https://my.rustdesk.com.example.org" = false.
Proof. by vm_compute. Qed.

End ApiProofs.

(** ** A run *)

Module ApiDemo.

Import Utf8 Vault Config ConfigFacts Secure Api ApiProofs.

Definition settings : Settings := mkSettings {["relay-server" := "built-in"]} {["whitelist" := "10.0.0.0/8"]} ∅ ∅.

Definition demo_sync : Sync := mkSync None info_default "" false ∅ "5" demo_state.

(** A strategy that sets an option, one the program overrides, and one back to
    its default. *)
Definition demo_reply : Reply :=
  mkReply true (Some [3; 4]) (Some 6)
    (Some {["enable-audio" := "N"; "relay-server" := "evil"; "whitelist" := ""]}).

Lemma reply_applied_witness :
  let s := (@handle_reply toy_box toy_b64 [7] settings 5 demo_reply demo_sync).1 in
  get_option settings "enable-audio" (conf s) = "N" /\ get_option settings "relay-server" (conf s) = "built-in"
  /\ get_option settings "whitelist" (conf s) = "10.0.0.0/8" /\ unwrap_or 0 (parse_i64 (strategy_timestamp s)) = 6.
Proof.
  destruct (@reply_applied toy_box toy_b64 [7] settings 5 demo_reply demo_sync) as (H1 & _ & H2 & _).
  split_and!.
  - rewrite (H1 "enable-audio"). reflexivity.
  - rewrite (H1 "relay-server"). reflexivity.
  - rewrite (H1 "whitelist"). reflexivity.
  - apply (H2 6); [reflexivity|lia|reflexivity].
Defined.

End ApiDemo.
