(* ===== verification/Account.v ===== *)
(** * Logging in with an account ([src/hbbs_http/account.rs])

    [OIDC_SESSION] and the functions on it: starting a log-in, its thread
    ([auth_task]), cancelling it and reading its state.  Threads take the lock
    of the session for one reading or writing at a time: each is a step here,
    and [step] is the relation of one step of one thread.  A thread that was
    started by [account_auth] asks the server for a code and an address, then
    for the result once a second, for at most three minutes.

    The answers of the server are those of [Http.HbbHttpResponse], or the
    error of the request. *)

From S2P Require Import Prelude RustStr Http.

Module Account.

Import Http.

Definition QUERY_INTERVAL_MS : Z := 1000.
Definition QUERY_TIMEOUT_MS : Z := 180000.
Definition REQUESTING_ACCOUNT_AUTH : string := "Requesting account auth".
Definition WAITING_ACCOUNT_AUTH : string := "Waiting account auth".
Definition LOGIN_ACCOUNT_AUTH : string := "Login account auth".

Record OidcAuthUrl : Type := mkAuthUrl { code : string; url : string }.

(** [type], the token, the user's name and status, and what else came. *)
Record AuthBody : Type := mkAuthBody { ab_type : string; access_token : string; user_json : string }.

Set Primitive Projections.
Record OidcSession : Type := mkSession {
  client : option string;                (* the address it was made for *)
  state_msg : string;
  failed_msg : string;
  code_url : option OidcAuthUrl;
  auth_body : option AuthBody;
  keep_querying : bool;
  running : bool;
  query_timeout : Z
}.
Unset Primitive Projections.

#[export] Instance set_client : FieldSet client := fun v r =>
  mkSession v (state_msg r) (failed_msg r) (code_url r) (auth_body r) (keep_querying r) (running r) (query_timeout r).
#[export] Instance set_state_msg : FieldSet state_msg := fun v r =>
  mkSession (client r) v (failed_msg r) (code_url r) (auth_body r) (keep_querying r) (running r) (query_timeout r).
#[export] Instance set_failed_msg : FieldSet failed_msg := fun v r =>
  mkSession (client r) (state_msg r) v (code_url r) (auth_body r) (keep_querying r) (running r) (query_timeout r).
#[export] Instance set_code_url : FieldSet code_url := fun v r =>
  mkSession (client r) (state_msg r) (failed_msg r) v (auth_body r) (keep_querying r) (running r) (query_timeout r).
#[export] Instance set_auth_body : FieldSet auth_body := fun v r =>
  mkSession (client r) (state_msg r) (failed_msg r) (code_url r) v (keep_querying r) (running r) (query_timeout r).
#[export] Instance set_keep_querying : FieldSet keep_querying := fun v r =>
  mkSession (client r) (state_msg r) (failed_msg r) (code_url r) (auth_body r) v (running r) (query_timeout r).
#[export] Instance set_running : FieldSet running := fun v r =>
  mkSession (client r) (state_msg r) (failed_msg r) (code_url r) (auth_body r) (keep_querying r) v (query_timeout r).

Definition new : OidcSession :=
  mkSession None REQUESTING_ACCOUNT_AUTH "" None None false false QUERY_TIMEOUT_MS.

Definition ensure_client (api_server : string) (s : OidcSession) : OidcSession :=
  match client s with
  | Some _ => s
  | None => s <| client := Some (api_server +:+ "/api/login-options") |>
  end.

Definition reset (s : OidcSession) : OidcSession :=
  s <| state_msg := REQUESTING_ACCOUNT_AUTH |> <| failed_msg := "" |> <| keep_querying := true |>
    <| running := false |> <| code_url := None |> <| auth_body := None |>.

Definition before_task (s : OidcSession) : OidcSession := (reset s) <| running := true |>.
Definition after_task (s : OidcSession) : OidcSession := s <| running := false |>.

Definition set_state (m f : string) (s : OidcSession) : OidcSession := s <| state_msg := m |> <| failed_msg := f |>.

Definition auth_cancel (s : OidcSession) : OidcSession := s <| keep_querying := false |>.

Record AuthResult : Type := mkResult {
  res_state_msg : string; res_failed_msg : string; res_url : option string; res_auth_body : option AuthBody }.

Definition get_result (s : OidcSession) : AuthResult :=
  mkResult (state_msg s) (failed_msg s) (option_map url (code_url s)) (auth_body s).

(** ** Threads

    [account_auth] is called by a thread of the interface; it cancels, waits
    until no task runs, prepares the session and starts a task. *)

Record Ask : Type := mkAsk { api_server : string; remember_me : bool }.

Inductive Thread : Type :=
| Cancelling (a : Ask)                    (* [auth_cancel] comes next *)
| WaitStop (a : Ask)                      (* [wait_stop_querying] *)
| Preparing (a : Ask)                     (* [before_task] and the start of the task *)
| Asking (a : Ask)                        (* the task: [auth] *)
| ShowWaiting (a : Ask) (u : OidcAuthUrl)
| ShowCode (a : Ask) (u : OidcAuthUrl)
| Begin (a : Ask) (u : OidcAuthUrl)       (* the time is taken, [query_timeout] is read *)
| Querying (a : Ask) (u : OidcAuthUrl) (begin tmo : Z)   (* the head of the loop *)
| Asked (a : Ask) (u : OidcAuthUrl) (begin tmo : Z)      (* [query] *)
| Remember (b : AuthBody)                 (* the token and the user are stored *)
| ShowLogin (b : AuthBody)
| ShowBody (b : AuthBody)
| Failing (state f : string)              (* [set_state] and the end *)
| TimedOut (begin tmo : Z)                (* behind the loop *)
| Ending                                  (* [after_task] *)
| Done.

(** The answers a step may need: of the server, and the time. *)
Record World : Type := mkWorld {
  clock : Z;
  auth_answer : result (HbbHttpResponse OidcAuthUrl) string;
  query_answer : result (HbbHttpResponse AuthBody) string
}.

(** The options of the interface that a log-in writes. *)
Definition Stored : Type := list (string * string).

(** One step of a thread: the session, what it stores, and its next place.
    Waiting and sleeping are steps that stay. *)
Definition advance (w : World) (t : Thread) (s : OidcSession) : OidcSession * Stored * Thread :=
  match t with
  | Cancelling a => (auth_cancel s, [], WaitStop a)
  | WaitStop a => if running s then (s, [], WaitStop a) else (s, [], Preparing a)
  | Preparing a => (before_task s, [], Asking a)
  | Asking a =>
    let s := ensure_client (api_server a) s in
    match auth_answer w with
    | Ok (Data u) => (s, [], ShowWaiting a u)
    | Ok (Error e) => (s, [], Failing REQUESTING_ACCOUNT_AUTH e)
    | Ok _ => (s, [], Failing REQUESTING_ACCOUNT_AUTH "Invalid auth response")
    | Err e => (s, [], Failing REQUESTING_ACCOUNT_AUTH e)
    end
  | ShowWaiting a u => (set_state WAITING_ACCOUNT_AUTH "" s, [], ShowCode a u)
  | ShowCode a u => (s <| code_url := Some u |>, [], Begin a u)
  | Begin a u => (s, [], Querying a u (clock w) (query_timeout s))
  | Querying a u b tmo =>
    if keep_querying s && (clock w - b <? tmo) then (s, [], Asked a u b tmo) else (s, [], TimedOut b tmo)
  | Asked a u b tmo =>
    let s := ensure_client (api_server a) s in
    match query_answer w with
    | Ok (Data body) =>
      (s, [], if String.eqb (ab_type body) "access_token" && remember_me a then Remember body else ShowLogin body)
    | Ok (Error e) =>
      if contains_str "No authed oidc is found" e then (s, [], Querying a u b tmo)
      else (s, [], Failing WAITING_ACCOUNT_AUTH e)
    | Ok _ | Err _ => (s, [], Querying a u b tmo)
    end
  | Remember b => (s, [("access_token", access_token b); ("user_info", user_json b)], ShowLogin b)
  | ShowLogin b => (set_state LOGIN_ACCOUNT_AUTH "" s, [], ShowBody b)
  | ShowBody b => (s <| auth_body := Some b |>, [], Ending)
  | Failing st f => (set_state st f s, [], Ending)
  | TimedOut b tmo =>
    if tmo <=? clock w - b then (set_state WAITING_ACCOUNT_AUTH "timeout" s, [], Ending) else (s, [], Ending)
  | Ending => (after_task s, [], Done)
  | Done => (s, [], Done)
  end.

(** The task itself, as opposed to the thread that starts it. *)
Definition in_task (t : Thread) : bool :=
  match t with Cancelling _ | WaitStop _ | Preparing _ | Done => false | _ => true end.

(** The session and the threads of all the calls made so far. *)
Record Process : Type := mkProcess { session : OidcSession; threads : list Thread; stored : Stored }.

Inductive step : Process -> Process -> Prop :=
| StepCall s ts st a : step (mkProcess s ts st) (mkProcess s (ts ++ [Cancelling a]) st)
| StepCancel s ts st : step (mkProcess s ts st) (mkProcess (auth_cancel s) ts st)
| StepThread s ts st w i t s' out t' :
    ts !! i = Some t -> advance w t s = (s', out, t') ->
    step (mkProcess s ts st) (mkProcess s' (<[i := t']> ts) (st ++ out)).

Inductive reachable : Process -> Prop :=
| ReachInit : reachable (mkProcess new [] [])
| ReachStep p q : reachable p -> step p q -> reachable q.

End Account.

(** ** One log-in at a time

    Calls of [account_auth] one after the other leave at most one task, which
    is what [running] says; two calls at once do not.  Also what a cancellation
    and a change of the server leave as they were. *)

Module AccountFacts.

Import Http Account.

(** ** Calls one after the other

    No call is made while another is still starting its task. *)
Definition starting (t : Thread) : bool :=
  match t with Cancelling _ | WaitStop _ | Preparing _ => true | _ => false end.

Inductive seq_step : Process -> Process -> Prop :=
| SeqCall s ts st a : Forall (fun t => starting t = false) ts ->
    seq_step (mkProcess s ts st) (mkProcess s (ts ++ [Cancelling a]) st)
| SeqOther s ts st s' ts' st' : length ts' = length ts ->
    step (mkProcess s ts st) (mkProcess s' ts' st') -> seq_step (mkProcess s ts st) (mkProcess s' ts' st').

Inductive seq_reachable : Process -> Prop :=
| SeqInit : seq_reachable (mkProcess new [] [])
| SeqStep p q : seq_reachable p -> seq_step p q -> seq_reachable q.

(** At most one element that satisfies [P]. *)
Definition at_most_one {A} (P : A -> bool) (l : list A) : Prop :=
  forall i j x y, l !! i = Some x -> l !! j = Some y -> P x = true -> P y = true -> i = j.

Definition some {A} (P : A -> bool) (l : list A) : Prop := exists i x, l !! i = Some x /\ P x = true.

Definition is_preparing (t : Thread) : bool := match t with Preparing _ => true | _ => false end.

Definition inv (p : Process) : Prop :=
  at_most_one starting (threads p) /\ at_most_one in_task (threads p)
  /\ (running (session p) = true <-> some in_task (threads p))
  /\ (some is_preparing (threads p) -> running (session p) = false).

Lemma start_not_task t : starting t = true -> in_task t = false.
Proof. by destruct t. Qed.

Lemma preparing_starting t : is_preparing t = true -> starting t = true.
Proof. by destruct t. Qed.

(** A change of one thread that is not the beginning or the end of a task and
    does not begin or prepare a start. *)
Lemma inv_same s s' ts st st' i t t' :
  inv (mkProcess s ts st) -> ts !! i = Some t -> (starting t' = true -> starting t = true) -> in_task t' = in_task t ->
  (is_preparing t' = true -> running s = false) -> running s' = running s ->
  inv (mkProcess s' (<[i := t']> ts) st').
Proof.
  intros (H1 & H2 & H3 & H4) Hi Hs Ht Hp Hr. unfold inv, at_most_one, some in *. cbn [session threads] in *.
  assert (Hl : forall j x, <[i := t']> ts !! j = Some x -> (j = i /\ x = t') \/ (j <> i /\ ts !! j = Some x)).
  { intros j x. destruct (decide (j = i)) as [->|Hne].
    - rewrite list_lookup_insert_eq by (by eapply lookup_lt_Some). intros [= ->]. by left.
    - rewrite list_lookup_insert_ne by done. by right. }
  assert (Hg : forall j x, ts !! j = Some x -> j <> i -> <[i := t']> ts !! j = Some x).
  { intros j x Hj Hne. by rewrite list_lookup_insert_ne. }
  split_and!.
  - intros a b x y Ha Hb Px Py. destruct (Hl _ _ Ha) as [[-> ->]|[? Ha']], (Hl _ _ Hb) as [[-> ->]|[? Hb']]; eauto.
  - intros a b x y Ha Hb Px Py. destruct (Hl _ _ Ha) as [[-> ->]|[? Ha']], (Hl _ _ Hb) as [[-> ->]|[? Hb']];
      rewrite ?Ht in *; eauto.
  - rewrite Hr, H3. split; intros (j & x & Hj & Px).
    + destruct (decide (j = i)) as [->|Hne].
      * exists i, t'. rewrite list_lookup_insert_eq by (by eapply lookup_lt_Some). simplify_eq. by rewrite Ht.
      * exists j, x. auto.
    + destruct (Hl _ _ Hj) as [[-> ->]|[? Hj']]; [exists i, t; by rewrite <- Ht|by exists j, x].
  - rewrite Hr. intros (j & x & Hj & Px). destruct (Hl _ _ Hj) as [[-> ->]|[? Hj']]; [by apply Hp|].
    apply H4. by exists j, x.
Qed.

Lemma inv_begin s ts st st' i a :
  inv (mkProcess s ts st) -> ts !! i = Some (Preparing a) ->
  inv (mkProcess (before_task s) (<[i := Asking a]> ts) st').
Proof.
  intros (H1 & H2 & H3 & H4) Hi. unfold inv, at_most_one, some in *. cbn [session threads] in *.
  assert (running s = false) as Hr by (apply H4; by exists i, (Preparing a)).
  assert (Hn : forall j x, ts !! j = Some x -> in_task x = false).
  { intros j x Hj. destruct (in_task x) eqn:E; [|done]. assert (running s = true) by (apply H3; by exists j, x). congruence. }
  assert (Hl : forall j x, <[i := Asking a]> ts !! j = Some x -> (j = i /\ x = Asking a) \/ (j <> i /\ ts !! j = Some x)).
  { intros j x. destruct (decide (j = i)) as [->|Hne].
    - rewrite list_lookup_insert_eq by (by eapply lookup_lt_Some). intros [= ->]. by left.
    - rewrite list_lookup_insert_ne by done. by right. }
  split_and!.
  - intros b c x y Hb Hc Px Py. destruct (Hl _ _ Hb) as [[-> ->]|[? Hb']], (Hl _ _ Hc) as [[-> ->]|[? Hc']]; try done; eauto.
  - intros b c x y Hb Hc Px Py. destruct (Hl _ _ Hb) as [[-> ->]|[? Hb']], (Hl _ _ Hc) as [[-> ->]|[? Hc']]; try done;
      exfalso; [rewrite (Hn _ _ Hc') in Py|rewrite (Hn _ _ Hb') in Px|rewrite (Hn _ _ Hb') in Px]; done.
  - split; [|intros _; reflexivity]. intros _. exists i, (Asking a). split; [|done]. by rewrite list_lookup_insert_eq by (by eapply lookup_lt_Some).
  - intros (j & x & Hj & Px). destruct (Hl _ _ Hj) as [[-> ->]|[Hne Hj']]; [done|]. exfalso. apply Hne.
    apply (H1 j i x (Preparing a)); auto using preparing_starting.
Qed.

Lemma inv_end s ts st st' i :
  inv (mkProcess s ts st) -> ts !! i = Some Ending -> inv (mkProcess (after_task s) (<[i := Done]> ts) st').
Proof.
  intros (H1 & H2 & H3 & H4) Hi. unfold inv, at_most_one, some in *. cbn [session threads] in *.
  assert (Hl : forall j x, <[i := Done]> ts !! j = Some x -> (j = i /\ x = Done) \/ (j <> i /\ ts !! j = Some x)).
  { intros j x. destruct (decide (j = i)) as [->|Hne].
    - rewrite list_lookup_insert_eq by (by eapply lookup_lt_Some). intros [= ->]. by left.
    - rewrite list_lookup_insert_ne by done. by right. }
  split_and!.
  - intros b c x y Hb Hc Px Py. destruct (Hl _ _ Hb) as [[-> ->]|[? Hb']], (Hl _ _ Hc) as [[-> ->]|[? Hc']]; try done; eauto.
  - intros b c x y Hb Hc Px Py. destruct (Hl _ _ Hb) as [[-> ->]|[? Hb']], (Hl _ _ Hc) as [[-> ->]|[? Hc']]; try done; eauto.
  - split; [done|]. intros (j & x & Hj & Px). destruct (Hl _ _ Hj) as [[-> ->]|[Hne Hj']]; [done|]. exfalso. apply Hne.
    by apply (H2 j i x Ending).
  - intros _. reflexivity.
Qed.

Lemma advance_inv w t s s' out t' ts st i :
  inv (mkProcess s ts st) -> ts !! i = Some t -> advance w t s = (s', out, t') ->
  inv (mkProcess s' (<[i := t']> ts) (st ++ out)).
Proof.
  intros HI Hi Ha.
  assert (Hk : forall a, running (ensure_client a s) = running s) by (intros a; unfold ensure_client; by destruct (client s)).
  destruct t; cbn [advance] in Ha.
  3: { injection Ha as <- <- <-. by apply (inv_begin s ts st). }
  14: { injection Ha as <- <- <-. by apply (inv_end s ts st). }
  all: repeat case_match; simplify_eq; (eapply inv_same; [exact HI|exact Hi|..]); eauto; try done; by intros _.
Qed.

Lemma step_inv p q : inv p -> seq_step p q -> inv q.
Proof.
  intros HI Hs. destruct Hs as [s ts st a Hn|s ts st s' ts' st' Hlen Hs].
  - destruct HI as (H1 & H2 & H3 & H4). unfold inv, at_most_one, some in *. cbn [session threads] in *.
    assert (Hl : forall j x, (ts ++ [Cancelling a]) !! j = Some x -> (ts !! j = Some x) \/ (j = length ts /\ x = Cancelling a)).
    { intros j x. rewrite lookup_app. destruct (ts !! j) as [y|] eqn:E; [by intros [= ->]; left|].
      apply lookup_ge_None in E. destruct (j - length ts)%nat as [|n] eqn:En; cbn; [|done]. intros [= <-]. right. split; [lia|done]. }
    rewrite Forall_lookup in Hn. split_and!.
    + intros b c x y Hb Hc Px Py. destruct (Hl _ _ Hb) as [Hb'|[-> ->]], (Hl _ _ Hc) as [Hc'|[-> ->]]; try done; eauto.
      all: exfalso; first [rewrite (Hn _ _ Hb') in Px|rewrite (Hn _ _ Hc') in Py]; done.
    + intros b c x y Hb Hc Px Py. destruct (Hl _ _ Hb) as [Hb'|[-> ->]], (Hl _ _ Hc) as [Hc'|[-> ->]]; try done; eauto.
    + rewrite H3. split; intros (j & x & Hj & Px).
      * exists j, x. split; [|done]. by apply lookup_app_l_Some.
      * destruct (Hl _ _ Hj) as [Hj'|[-> ->]]; [by exists j, x|done].
    + intros (j & x & Hj & Px). destruct (Hl _ _ Hj) as [Hj'|[-> ->]]; [|done]. apply H4. by exists j, x.
  - inversion Hs; subst; clear Hs.
    + rewrite length_app in Hlen. cbn in Hlen. lia.
    + exact HI.
    + by eapply advance_inv.
Qed.

(** C40. As long as [account_auth] is not called while another call is still
    waiting to start, there is never more than one log-in task, and [running]
    says whether there is one: the wait of a new call for the old task to end
    is enough, whatever the server answers and whenever it is cancelled. *)
Theorem one_login_at_a_time p : seq_reachable p ->
  at_most_one in_task (threads p) /\ (running (session p) = true <-> some in_task (threads p)).
Proof.
  intros H. cut (inv p); [by intros (_ & H2 & H3 & _)|]. induction H as [|p q _ IH Hs]; [|by eapply step_inv].
  unfold inv, at_most_one, some. cbn. split_and!; try done.
  - split; [done|]. intros (i & x & Hi & _). done.
Qed.

(** ** What goes wrong *)

Definition ask : Ask := mkAsk "https://a" true.
Definition waiting_world : World := mkWorld 0 (Err "") (Err "").

Lemma reach_advance s ts st w i t s' out t' :
  reachable (mkProcess s ts st) -> ts !! i = Some t -> advance w t s = (s', out, t') ->
  reachable (mkProcess s' (<[i := t']> ts) (st ++ out)).
Proof. intros H Hi Ha. eapply ReachStep; [exact H|by eapply StepThread]. Qed.

(** Two calls at once both find that nothing runs, and start a task each. *)
Lemma two_calls_two_tasks :
  exists p, reachable p /\ threads p = [Asking ask; Asking ask].
Proof.
  pose proof ReachInit as H.
  eapply ReachStep in H; [|apply (StepCall _ _ _ ask)]. eapply ReachStep in H; [|apply (StepCall _ _ _ ask)].
  eapply (reach_advance _ _ _ waiting_world 0) in H; [|reflexivity|reflexivity].
  eapply (reach_advance _ _ _ waiting_world 1) in H; [|reflexivity|reflexivity].
  eapply (reach_advance _ _ _ waiting_world 0) in H; [|reflexivity|reflexivity].
  eapply (reach_advance _ _ _ waiting_world 1) in H; [|reflexivity|reflexivity].
  eapply (reach_advance _ _ _ waiting_world 0) in H; [|reflexivity|reflexivity].
  eapply (reach_advance _ _ _ waiting_world 1) in H; [|reflexivity|reflexivity].
  eexists. split; [exact H|reflexivity].
Qed.

(** A cancellation while a query is on its way does not keep its answer from
    logging the user in. *)
Lemma cancelled_query_logs_in w a u b tmo s body :
  query_answer w = Ok (Data body) -> remember_me a = false ->
  (advance w (Asked a u b tmo) (auth_cancel s)).2 = ShowLogin body.
Proof. intros Hq Hr. cbn [advance]. rewrite Hq, Hr, andb_false_r. done. Qed.

(** The client is made for the first server and serves every later one. *)
Lemma client_kept w a s c : client s = Some c -> client (advance w (Asking a) s).1.1 = Some c.
Proof.
  intros Hc. cbn [advance]. unfold ensure_client. rewrite Hc.
  destruct (auth_answer w) as [[| | |]|]; done.
Qed.

(** The loop of queries ends with its time. *)
Lemma queries_end w a u b tmo s : tmo <= clock w - b -> advance w (Querying a u b tmo) s = (s, [], TimedOut b tmo).
Proof. intros H. cbn [advance]. replace (clock w - b <? tmo) with false by lia. by rewrite andb_false_r. Qed.

(** What a log-in stores is stored when asked for, of an answer that carries a
    token. *)
Lemma stored_when_remembered w a u b tmo s body : (advance w (Asked a u b tmo) s).2 = Remember body ->
  remember_me a = true /\ ab_type body = "access_token".
Proof.
  cbn [advance]. destruct (query_answer w) as [[|e| |v]|]; try done.
  - by destruct (contains_str _ e).
  - cbn [snd]. destruct (String.eqb_spec (ab_type v) "access_token") as [E|]; [|done]. destruct (remember_me a); [|done].
    cbn. by intros [= <-].
Qed.

Lemma one_login_at_a_time_witness : exists p,
  seq_reachable p /\ threads p = [Asking ask] /\ running (session p) = true
  /\ at_most_one in_task (threads p).
Proof.
  exists (mkProcess (before_task (auth_cancel new)) [Asking ask] []).
  assert (seq_reachable (mkProcess (before_task (auth_cancel new)) [Asking ask] [])) as H.
  { pose proof SeqInit as H. eapply SeqStep in H; [|apply (SeqCall _ _ _ ask); constructor].
    eapply SeqStep in H; [|apply SeqOther; [|eapply (StepThread _ _ _ waiting_world 0); reflexivity]; reflexivity].
    eapply SeqStep in H; [|apply SeqOther; [|eapply (StepThread _ _ _ waiting_world 0); reflexivity]; reflexivity].
    eapply SeqStep in H; [|apply SeqOther; [|eapply (StepThread _ _ _ waiting_world 0); reflexivity]; reflexivity].
    exact H. }
  split; [exact H|]. split; [reflexivity|]. split; [reflexivity|]. exact (proj1 (one_login_at_a_time _ H)).
Defined.

End AccountFacts.
