(* ===== verification/Downloader.v ===== *)
(** * Downloads ([src/hbbs_http/downloader.rs])

    [DOWNLOADERS] and the functions on it, with the thread of a download
    ([do_download]) as steps: the size, the response, its chunks, the end, a
    failure or a cancellation.  A thread knows its download by the id only; the
    sender of its cancellations is in the entry it was started with.  The files
    are a map from paths to bytes; a write may fail.

    The task that is to remove a complete download after some time is spawned
    on the runtime of [do_download], which ends, and drops its tasks, when that
    function returns: it never runs, and has no step here. *)

From S2P Require Import Prelude RustStr.

Module Downloads.

Set Primitive Projections.
Record Downloader : Type := mkDownloader {
  data : list Z;
  path : option string;
  total_size : option Z;
  downloaded_size : Z;
  error : option string;
  finished : bool;
  chan : nat;                           (* the thread that [tx_cancel] sends to *)
  cancels : nat                         (* signals sent and not received *)
}.
Unset Primitive Projections.

#[export] Instance set_data : FieldSet data := fun v r =>
  mkDownloader v (path r) (total_size r) (downloaded_size r) (error r) (finished r) (chan r) (cancels r).
#[export] Instance set_total_size : FieldSet total_size := fun v r =>
  mkDownloader (data r) (path r) v (downloaded_size r) (error r) (finished r) (chan r) (cancels r).
#[export] Instance set_downloaded_size : FieldSet downloaded_size := fun v r =>
  mkDownloader (data r) (path r) (total_size r) v (error r) (finished r) (chan r) (cancels r).
#[export] Instance set_error : FieldSet error := fun v r =>
  mkDownloader (data r) (path r) (total_size r) (downloaded_size r) v (finished r) (chan r) (cancels r).
#[export] Instance set_finished : FieldSet finished := fun v r =>
  mkDownloader (data r) (path r) (total_size r) (downloaded_size r) (error r) v (chan r) (cancels r).
#[export] Instance set_cancels : FieldSet cancels := fun v r =>
  mkDownloader (data r) (path r) (total_size r) (downloaded_size r) (error r) (finished r) (chan r) v.

(** Where the thread of a download is. *)
Inductive Phase : Type :=
| Heading                               (* [client.head(..)] *)
| Getting                               (* [client.get(..)] *)
| Receiving                             (* the loop over chunks *)
| Complete                              (* ended with everything *)
| Stopped.                              (* ended otherwise *)

Record Task : Type := mkTask { t_id : string; t_path : option string; phase : Phase }.

Record State : Type := mkState {
  DOWNLOADERS : gmap string Downloader;
  tasks : list Task;                    (* the threads, by number *)
  files : gmap string (list Z)
}.

Definition start : State := mkState ∅ [] ∅.

Definition upd (id : string) (f : Downloader -> Downloader) (s : State) : State :=
  mkState (alter f id (DOWNLOADERS s)) (tasks s) (files s).
Definition at_phase (i : nat) (p : Phase) (s : State) : State :=
  mkState (DOWNLOADERS s) (alter (fun t => mkTask (t_id t) (t_path t) p) i (tasks s)) (files s).
Definition with_files (f : gmap string (list Z)) (s : State) : State := mkState (DOWNLOADERS s) (tasks s) f.

(** ** The functions *)

(** [dir_made]: whether the directory of the path exists or can be made. *)
Definition download_file (url : string) (p : option string) (dir_made : bool) (s : State) : State * result string string :=
  let id := url in
  match DOWNLOADERS s !! id with
  | Some _ => (s, Ok id)
  | None =>
    let started :=
      (mkState (<[id := mkDownloader [] p None 0 None false (length (tasks s)) 0]> (DOWNLOADERS s))
         (tasks s ++ [mkTask id p Heading]) (files s), Ok id) in
    match p with
    | Some path =>
      if bool_decide (is_Some (files s !! path)) then (s, Err ("File " +:+ path +:+ " already exists"))
      else if negb dir_made then (s, Err "directory")
      else started
    | None => started
    end
  end.

Record DownloadData : Type := mkData {
  d_data : list Z; d_path : option string; d_total_size : option Z; d_downloaded_size : Z; d_error : option string }.

Definition get_download_data (id : string) (s : State) : result DownloadData string :=
  match DOWNLOADERS s !! id with
  | Some d =>
    let dt := if (unwrap_or 0 (total_size d) =? downloaded_size d)
                 && match path d with None => true | Some _ => false end
              then data d else [] in
    Ok (mkData dt (path d) (total_size d) (downloaded_size d) (error d))
  | None => Err "Downloader not found"
  end.

Definition cancel (id : string) (s : State) : State := upd id (fun d => d <| cancels := S (cancels d) |>) s.

Definition remove (id : string) (s : State) : State := mkState (delete id (DOWNLOADERS s)) (tasks s) (files s).

(** ** The thread *)

Inductive Event : Type :=
| HeadAnswer (r : result (bool * option Z) string)   (* success and [CONTENT_LENGTH], or an error *)
| GetAnswer (status : Z) (r : result unit string)    (* the status is not looked at *)
| FileCreated (ok : bool)
| Chunk (bytes : list Z) (written : bool)
| ChunksEnd
| ChunkError (e : string)
| CancelSeen.                                        (* [rx_cancel.recv()] *)

(** [Err] of [do_download]. *)
Definition fail (i : nat) (id e : string) (s : State) : State :=
  at_phase i Stopped (upd id (fun d => d <| error := Some e |>) s).

(** [Ok(false)]: the entry of the id and its file are removed. *)
Definition canceled (i : nat) (id : string) (s : State) : State :=
  let s1 := at_phase i Stopped s in
  match DOWNLOADERS s1 !! id with
  | Some d =>
    let s2 := mkState (delete id (DOWNLOADERS s1)) (tasks s1) (files s1) in
    match path d with
    | Some p => with_files (delete p (files s2)) s2
    | None => s2
    end
  | None => s1
  end.

(** A cancellation is seen when there is a signal, or when the sender is gone
    with its entry. *)
Definition can_cancel (i : nat) (id : string) (s : State) : bool :=
  match DOWNLOADERS s !! id with
  | Some d => if Nat.eqb (chan d) i then (0 <? cancels d)%nat else true
  | None => true
  end.

(** A step of thread [i]; [None] when the event cannot happen there. *)
Definition thread_step (i : nat) (ev : Event) (s : State) : option State :=
  match tasks s !! i with
  | None => None
  | Some t =>
    let id := t_id t in
    match phase t, ev with
    | Heading, HeadAnswer (Ok (true, Some n)) =>
      Some (at_phase i Getting (upd id (fun d => d <| total_size := Some n |>) s))
    | Heading, HeadAnswer (Ok (_, _)) => Some (fail i id "Failed to get content length" s)
    | Heading, HeadAnswer (Err e) => Some (fail i id e s)
    | Getting, GetAnswer _ (Err e) => Some (fail i id e s)
    | Getting, GetAnswer _ (Ok _) =>
      match t_path t with
      | Some p => Some (at_phase i Receiving (with_files (<[p := []]> (files s)) s))
      | None => Some (at_phase i Receiving s)
      end
    | Getting, FileCreated false => Some (fail i id "create" s)
    | Receiving, Chunk bytes written =>
      match t_path t with
      | Some p =>
        if written then
          Some (upd id (fun d => d <| downloaded_size := wrap 64 (downloaded_size d + len bytes) |>)
                  (with_files (alter (fun old => old ++ bytes) p (files s)) s))
        else Some (fail i id "write" s)
      | None =>
        Some (upd id (fun d => d <| data := data d ++ bytes |>
                                 <| downloaded_size := wrap 64 (downloaded_size d + len bytes) |>) s)
      end
    | Receiving, ChunksEnd => Some (at_phase i Complete (upd id (fun d => d <| finished := true |>) s))
    | Receiving, ChunkError e => Some (fail i id e s)
    | Heading, CancelSeen | Getting, CancelSeen =>
      if can_cancel i id s then Some (canceled i id s) else None
    | Receiving, CancelSeen =>
      if can_cancel i id s then Some (canceled i id (upd id (fun d => d <| finished := true |>) s)) else None
    | _, _ => None
    end
  end.

End Downloads.

(** ** What a download delivers

    A download from its start to its end, what its data is before that, and
    what a thread of an earlier download of the same address can do to a later
    one. *)

Module DownloadFacts.

Import Downloads.

(** ** A whole download *)

Fixpoint run (i : nat) (l : list Event) (s : State) : option State :=
  match l with
  | [] => Some s
  | ev :: l => match thread_step i ev s with Some s => run i l s | None => None end
  end.

Lemma thread_run_app i l1 l2 s : run i (l1 ++ l2) s = match run i l1 s with Some s => run i l2 s | None => None end.
Proof. revert s. induction l1 as [|ev l1 IH]; intros s; cbn; [done|]. by destruct (thread_step i ev s). Qed.

(** What the chunks do to a download in memory and to one into a file. *)
Definition received (id : string) (i : nat) (p : option string) (n : Z) (got : list Z) (s : State) : Prop :=
  tasks s !! i = Some (mkTask id p Receiving)
  /\ exists d, DOWNLOADERS s !! id = Some d /\ path d = p /\ total_size d = Some n /\ error d = None
       /\ downloaded_size d = wrap 64 (len got)
       /\ match p with None => data d = got | Some f => data d = [] /\ files s !! f = Some got end.

Lemma wrap_add a b : wrap 64 (wrap 64 a + b) = wrap 64 (a + b).
Proof. unfold wrap. by rewrite Zplus_mod_idemp_l. Qed.

Lemma chunk_received id i p n got c s : received id i p n got s ->
  exists s', thread_step i (Chunk c true) s = Some s' /\ received id i p n (got ++ c) s'.
Proof.
  intros (Ht & d & Hd & Hp & Hn & He & Hs & Hf). unfold thread_step. rewrite Ht. cbn [phase t_path t_id].
  destruct p as [f|]; eexists; (split; [reflexivity|]); unfold received; cbn [tasks upd with_files DOWNLOADERS files];
    (split; [done|]); rewrite lookup_alter_eq, Hd; eexists; (split; [reflexivity|]); cbn;
    rewrite Hs, wrap_add, <- len_app; split_and!; try done.
  - by destruct Hf.
  - destruct Hf as [_ Hf]. by rewrite lookup_alter_eq, Hf.
  - by rewrite Hf.
Qed.

Lemma chunks_received id i p n cs : forall got s, received id i p n got s ->
  exists s', run i (map (fun c => Chunk c true) cs) s = Some s' /\ received id i p n (got ++ concat cs) s'.
Proof.
  induction cs as [|c cs IH]; intros got s H; cbn [map run concat].
  - exists s. by rewrite app_nil_r.
  - destruct (chunk_received _ _ _ _ _ c _ H) as (s1 & -> & H1). destruct (IH _ _ H1) as (s2 & -> & H2).
    exists s2. by rewrite app_assoc.
Qed.

Lemma begins id p s dir i status n :
  DOWNLOADERS s !! id = None -> (forall f, p = Some f -> files s !! f = None) -> dir = true -> i = length (tasks s) ->
  (download_file id p dir s).2 = Ok id
  /\ exists s', run i [HeadAnswer (Ok (true, Some n)); GetAnswer status (Ok tt)] (download_file id p dir s).1 = Some s'
      /\ received id i p n [] s'.
Proof.
  intros Hd Hf -> ->. unfold download_file. rewrite Hd.
  assert (Hnew : forall t, (tasks s ++ [t]) !! length (tasks s) = Some t) by (intros t; by rewrite lookup_app_r, Nat.sub_diag by lia).
  destruct p as [f|].
  - rewrite bool_decide_false by (rewrite Hf by done; by intros [? ?]). cbn [negb fst snd]. split; [done|].
    cbn [run]. unfold thread_step. cbn [tasks]. rewrite Hnew. cbn [phase t_id].
    cbn [upd at_phase tasks DOWNLOADERS files]. rewrite list_lookup_alter_eq, Hnew. cbn [fmap option_fmap option_map phase t_path t_id].
    eexists. split; [reflexivity|]. unfold received. cbn [at_phase with_files upd tasks DOWNLOADERS files].
    rewrite !list_lookup_alter_eq, Hnew. split; [done|]. rewrite lookup_alter_eq, lookup_insert_eq.
    eexists. split; [reflexivity|]. cbn. split_and!; try done. by rewrite lookup_insert_eq.
  - cbn [negb fst snd]. split; [done|].
    cbn [run]. unfold thread_step. cbn [tasks]. rewrite Hnew. cbn [phase t_id].
    cbn [upd at_phase tasks DOWNLOADERS files]. rewrite list_lookup_alter_eq, Hnew. cbn [fmap option_fmap option_map phase t_path t_id].
    eexists. split; [reflexivity|]. unfold received. cbn [at_phase with_files upd tasks DOWNLOADERS files].
    rewrite !list_lookup_alter_eq, Hnew. split; [done|]. rewrite lookup_alter_eq, lookup_insert_eq.
    eexists. split; [reflexivity|]. cbn. by split_and!.
Qed.

(** A download of an address that has no entry, into memory or into a file
    that is not there, delivers the bytes of the response in order: in the
    file, or to [get_download_data], which gives them all when they are as
    many as were announced and none otherwise.  The status of the response
    plays no part: the page of an error is delivered like the file. *)
Theorem download_delivers id p s i status n cs :
  DOWNLOADERS s !! id = None -> (forall f, p = Some f -> files s !! f = None) -> i = length (tasks s) ->
  exists s',
    run i (HeadAnswer (Ok (true, Some n)) :: GetAnswer status (Ok tt) :: map (fun c => Chunk c true) cs ++ [ChunksEnd])
      (download_file id p true s).1 = Some s'
    /\ match p with
       | Some f => files s' !! f = Some (concat cs)
       | None => get_download_data id s'
                 = Ok (mkData (if n =? wrap 64 (len (concat cs)) then concat cs else []) None (Some n)
                         (wrap 64 (len (concat cs))) None)
       end.
Proof.
  intros Hd Hf Hi. destruct (begins id p s true i status n Hd Hf eq_refl Hi) as (_ & s1 & H1 & R1).
  destruct (chunks_received _ _ _ _ cs _ _ R1) as (s2 & H2 & R2). cbn [app] in R2.
  change (HeadAnswer (Ok (true, Some n)) :: GetAnswer status (Ok tt) :: map (fun c => Chunk c true) cs ++ [ChunksEnd])
    with ([HeadAnswer (Ok (true, Some n)); GetAnswer status (Ok tt)] ++ (map (fun c => Chunk c true) cs ++ [ChunksEnd])).
  rewrite thread_run_app, H1, thread_run_app, H2. cbn [run]. destruct R2 as (Ht & d & Hdd & Hp & Hn & He & Hs & Hg).
  unfold thread_step. rewrite Ht. cbn [phase t_id]. eexists. split; [reflexivity|]. destruct p as [f|].
  - by destruct Hg.
  - unfold get_download_data. cbn [at_phase upd DOWNLOADERS]. rewrite lookup_alter_eq, Hdd. cbn.
    rewrite Hn, Hs, He, Hp, Hg. cbn [unwrap_or]. by rewrite andb_true_r.
Qed.

(** ** Without removals, an entry belongs to one thread *)

Definition live (t : Task) : bool := match phase t with Complete | Stopped => false | _ => true end.

Inductive step : State -> State -> Prop :=
| StepDownload s url p dir : step s (download_file url p dir s).1
| StepCancel s id : step s (cancel id s)
| StepThread s i ev s' : thread_step i ev s = Some s' -> step s s'.

Inductive reachable : State -> Prop :=
| ReachStart f : reachable (mkState ∅ [] f)
| ReachStep s s' : reachable s -> step s s' -> reachable s'.

Definition consistent (d : Downloader) : Prop :=
  match path d with None => downloaded_size d = wrap 64 (len (data d)) | Some _ => data d = [] end.

Definition inv (s : State) : Prop :=
  (forall i t, tasks s !! i = Some t -> live t = true ->
     exists d, DOWNLOADERS s !! t_id t = Some d /\ chan d = i /\ path d = t_path t)
  /\ (forall id d, DOWNLOADERS s !! id = Some d -> consistent d).

(** A change of an entry that keeps its thread and its path, and of the phase
    of the thread. *)
Lemma inv_upd s i t f p g : inv s -> tasks s !! i = Some t -> live t = true ->
  (forall d, path (f d) = path d /\ chan (f d) = chan d) ->
  (forall d, path d = t_path t -> consistent d -> consistent (f d)) ->
  inv (at_phase i p (upd (t_id t) f (with_files g s))) /\ inv (upd (t_id t) f (with_files g s)).
Proof.
  intros [H1 H2] Ht Hl Hf Hc.
  assert (Hd : forall id d, alter f (t_id t) (DOWNLOADERS s) !! id = Some d -> consistent d).
  { intros id d. destruct (decide (t_id t = id)) as [<-|Hne]; [|rewrite lookup_alter_ne by done; apply H2].
    rewrite lookup_alter_eq. destruct (H1 i t Ht Hl) as (d0 & Hd0 & _ & Hp). rewrite Hd0. cbn. intros [= <-].
    apply Hc; [done|]. by eapply H2. }
  assert (He : forall j t' d', DOWNLOADERS s !! t_id t' = Some d' -> chan d' = j -> path d' = t_path t' ->
            exists d, alter f (t_id t) (DOWNLOADERS s) !! t_id t' = Some d /\ chan d = j /\ path d = t_path t').
  { intros j t' d' Hd' Hj Hp. destruct (decide (t_id t = t_id t')) as [E|Hne].
    - rewrite E, lookup_alter_eq, Hd'. exists (f d'). destruct (Hf d') as [-> ->]. done.
    - rewrite lookup_alter_ne by done. by exists d'. }
  split; (split; [|exact Hd]); cbn [at_phase upd with_files tasks DOWNLOADERS].
  - intros j t' Hj Hl'. destruct (decide (i = j)) as [<-|Hne].
    + rewrite list_lookup_alter_eq, Ht in Hj. injection Hj as <-. cbn [t_id t_path].
      destruct (H1 i t Ht Hl) as (d & Hd0 & Hc0 & Hp). by apply (He i t d).
    + rewrite list_lookup_alter_ne in Hj by done. destruct (H1 j t' Hj Hl') as (d & Hd0 & Hc0 & Hp). by apply (He j t' d).
  - intros j t' Hj Hl'. destruct (H1 j t' Hj Hl') as (d & Hd0 & Hc0 & Hp). by apply (He j t' d).
Qed.

(** The end of a thread by a cancellation removes its own entry. *)
Lemma inv_canceled s i t : inv s -> tasks s !! i = Some t -> live t = true -> inv (canceled i (t_id t) s).
Proof.
  intros [H1 H2] Ht Hl. destruct (H1 i t Ht Hl) as (d & Hd & Hc & Hp).
  assert (inv (mkState (delete (t_id t) (DOWNLOADERS s))
                 (alter (fun t => mkTask (t_id t) (t_path t) Stopped) i (tasks s)) (files s))) as HI.
  { split; cbn [tasks DOWNLOADERS].
    - intros j t' Hj Hl'. destruct (decide (i = j)) as [<-|Hne].
      + rewrite list_lookup_alter_eq, Ht in Hj. injection Hj as <-. done.
      + rewrite list_lookup_alter_ne in Hj by done. destruct (H1 j t' Hj Hl') as (d' & Hd' & Hc' & Hp').
        exists d'. rewrite lookup_delete_ne; [done|]. intros E. rewrite E, Hd' in Hd. congruence.
    - intros id d' Hd'. apply lookup_delete_Some in Hd' as [_ Hd']. by eapply H2. }
  unfold canceled. cbn [at_phase DOWNLOADERS]. rewrite Hd. by destruct (path d).
Qed.

Lemma inv_download url p dir s : inv s -> inv (download_file url p dir s).1.
Proof.
  intros [H1 H2]. unfold download_file. destruct (DOWNLOADERS s !! url) as [d|] eqn:Ed; [by split|].
  assert (inv (mkState (<[url := mkDownloader [] p None 0 None false (length (tasks s)) 0]> (DOWNLOADERS s))
                 (tasks s ++ [mkTask url p Heading]) (files s))) as HI.
  { split; cbn [tasks DOWNLOADERS].
    - intros j t Hj Hl. apply lookup_app_Some in Hj as [Hj|[Hge Hj]].
      + destruct (H1 j t Hj Hl) as (d & Hd & Hc). exists d. rewrite lookup_insert_ne; [done|]. intros ->. congruence.
      + destruct (j - length (tasks s))%nat eqn:Ej; [|done]. injection Hj as <-. cbn [t_id t_path].
        rewrite lookup_insert_eq. eexists. split; [reflexivity|]. split; [cbn; lia|done].
    - intros id d. destruct (decide (url = id)) as [<-|Hne].
      + rewrite lookup_insert_eq. intros [= <-]. by destruct p.
      + rewrite lookup_insert_ne by done. apply H2. }
  destruct p as [f|]; [|done]. destruct (bool_decide _); [by split|]. by destruct (negb dir); [split|].
Qed.

Lemma inv_cancel id s : inv s -> inv (cancel id s).
Proof.
  intros [H1 H2]. split; cbn [cancel upd tasks DOWNLOADERS].
  - intros j t Hj Hl. destruct (H1 j t Hj Hl) as (d & Hd & Hc & Hp). destruct (decide (id = t_id t)) as [->|Hne].
    + rewrite lookup_alter_eq, Hd. by eexists.
    + rewrite lookup_alter_ne by done. by exists d.
  - intros k d. destruct (decide (id = k)) as [<-|Hne].
    + rewrite lookup_alter_eq. destruct (DOWNLOADERS s !! id) as [d0|] eqn:E; [|done]. intros [= <-].
      by apply (H2 id d0).
    + rewrite lookup_alter_ne by done. apply H2.
Qed.

Lemma with_same_files s : with_files (files s) s = s.
Proof. by destruct s. Qed.

Lemma inv_thread i ev s s' : inv s -> thread_step i ev s = Some s' -> inv s'.
Proof.
  intros HI. unfold thread_step. destruct (tasks s !! i) as [t|] eqn:Ht; [|done].
  assert (Hu : forall f p g, live t = true -> (forall d, path (f d) = path d /\ chan (f d) = chan d) ->
            (forall d, path d = t_path t -> consistent d -> consistent (f d)) ->
            inv (at_phase i p (upd (t_id t) f (with_files g s))) /\ inv (upd (t_id t) f (with_files g s)))
    by (intros; by apply inv_upd).
  assert (Hv : forall f p, live t = true -> (forall d, path (f d) = path d /\ chan (f d) = chan d) ->
            (forall d, path d = t_path t -> consistent d -> consistent (f d)) ->
            inv (at_phase i p (upd (t_id t) f s)) /\ inv (upd (t_id t) f s))
    by (intros f p; pose proof (Hu f p (files s)) as H; by rewrite with_same_files in H).
  assert (Hq : forall p g, live t = true -> inv (at_phase i p (with_files g s))).
  { intros p g Hl. destruct HI as [H1 H2]. split; [|exact H2]. cbn [at_phase with_files tasks DOWNLOADERS].
    intros j t' Hj Hl'. destruct (decide (i = j)) as [<-|Hne].
    - rewrite list_lookup_alter_eq, Ht in Hj. injection Hj as <-. by apply (H1 i t).
    - rewrite list_lookup_alter_ne in Hj by done. by apply H1. }
  unfold live in *. destruct (phase t) eqn:Ep; destruct ev; try done.
  all: repeat case_match; try done; intros [= <-]; unfold fail.
  all: try (apply inv_canceled; [|done|by unfold live; rewrite Ep]; try done).
  all: try (eapply Hq; reflexivity).
  all: try (eapply (Hv _ _ eq_refl); [by intros|by intros]).
  all: try (eapply (Hu _ _ _ eq_refl); [by intros|intros d Hp; unfold consistent; cbn; by rewrite Hp]).
  eapply (Hv _ Stopped eq_refl); [by intros|]. intros d Hp. unfold consistent. cbn. rewrite Hp.
  intros ->. by rewrite wrap_add, <- len_app.
  Unshelve. all: exact Stopped.
Qed.

Lemma reachable_inv s : reachable s -> inv s.
Proof.
  induction 1 as [f|s s' _ IH Hs]; [by split|].
  destruct Hs; [by apply inv_download|by apply inv_cancel|by eapply inv_thread].
Qed.

(** While entries are removed only by their own downloads, whatever
    downloads run, fail and are cancelled at once: [get_download_data] gives
    bytes only when they are all of them (as many as were announced), and they
    are every byte that was counted. *)
Theorem data_only_when_complete s id r : reachable s -> get_download_data id s = Ok r -> d_data r <> [] ->
  len (d_data r) < 2 ^ 64 -> d_total_size r = Some (len (d_data r)) /\ d_downloaded_size r = len (d_data r).
Proof.
  intros Hr. apply reachable_inv in Hr as [_ H2]. unfold get_download_data.
  destruct (DOWNLOADERS s !! id) as [d|] eqn:Ed; [|done]. intros [= <-]. cbn [d_data d_total_size d_downloaded_size].
  specialize (H2 id d Ed). unfold consistent in H2. destruct (path d); [by rewrite andb_false_r|].
  rewrite andb_true_r. destruct (Z.eqb_spec (unwrap_or 0 (total_size d)) (downloaded_size d)) as [E|]; [|done].
  intros Hne Hl. pose proof (len_nonneg (data d)). rewrite H2, wrap_small in * by lia. split; [|done].
  destruct (total_size d) as [n|]; cbn in E; [by rewrite E|]. exfalso. apply Hne.
  destruct (data d); [done|]. unfold len in E. cbn in E. lia.
Qed.

(** ** What goes wrong *)

Definition get_state (r : State * result string string) : State := r.1.

(** An address is downloaded into a file; the entry is removed, the file too,
    and the download is started again: the thread of the first one finds its
    sender gone, and removes the entry and the file of the second. *)
Example old_thread_removes_new_download :
  let s1 := (download_file "u" (Some "f") true start).1 in
  let s2 := (download_file "u" (Some "f") true (remove "u" s1)).1 in
  match run 1 [HeadAnswer (Ok (true, Some 3)); GetAnswer 200 (Ok tt); Chunk [1; 2; 3] true; ChunksEnd] s2 with
  | Some s3 =>
    files s3 !! "f" = Some [1; 2; 3]
    /\ match run 0 [CancelSeen] s3 with
       | Some s4 => files s4 !! "f" = None /\ get_download_data "u" s4 = Err "Downloader not found"
       | None => False
       end
  | None => False
  end.
Proof. by vm_compute. Qed.

(** A download that failed leaves its file, which stands in the way of the next
    attempt. *)
Example failed_download_in_the_way :
  let s1 := (download_file "u" (Some "f") true start).1 in
  match run 0 [HeadAnswer (Ok (true, Some 3)); GetAnswer 200 (Ok tt); Chunk [1] true; ChunkError "reset"] s1 with
  | Some s2 => (download_file "u" (Some "f") true (remove "u" s2)).2 = Err "File f already exists"
  | None => False
  end.
Proof. by vm_compute. Qed.

(** An entry stays until it is removed, and while it is there the address is
    not downloaded again, whatever became of the file. *)
Lemma entry_blocks_download id p dir s d : DOWNLOADERS s !! id = Some d -> download_file id p dir s = (s, Ok id).
Proof. intros Hd. unfold download_file. by rewrite Hd. Qed.

Definition page : list Z := [52; 48; 52].

(** A page of 404 is delivered as the download. *)
Lemma download_delivers_witness :
  exists s', get_download_data "u" s' = Ok (mkData page None (Some 3) 3 None).
Proof.
  destruct (download_delivers "u" None start 0 404 3 [page] eq_refl ltac:(discriminate) eq_refl) as (s' & _ & H).
  exists s'. exact H.
Defined.

Lemma run_reachable i l s s' : reachable s -> run i l s = Some s' -> reachable s'.
Proof.
  revert s. induction l as [|ev l IH]; intros s Hr; cbn [run]; [by intros [= <-]|].
  destruct (thread_step i ev s) as [s1|] eqn:E; [|done]. apply IH. eapply ReachStep; [exact Hr|by apply (StepThread _ i ev)].
Qed.

Lemma data_only_when_complete_witness :
  exists s r, get_download_data "u" s = Ok r /\ d_data r = page /\ d_total_size r = Some 3.
Proof.
  set (s0 := (download_file "u" None true start).1).
  destruct (run 0 [HeadAnswer (Ok (true, Some 3)); GetAnswer 404 (Ok tt); Chunk page true] s0) as [s|] eqn:E; [|discriminate].
  assert (reachable s) as Hr.
  { assert (reachable s0) as H0 by (eapply ReachStep; [apply ReachStart|apply StepDownload]).
    by apply (run_reachable _ _ _ _ H0 E). }
  assert (get_download_data "u" s = Ok (mkData page None (Some 3) 3 None)) as Hg by (injection E as <-; reflexivity).
  exists s, (mkData page None (Some 3) 3 None). split; [exact Hg|]. split; [reflexivity|].
  apply (data_only_when_complete _ "u" (mkData page None (Some 3) 3 None) Hr Hg); [discriminate|reflexivity].
Defined.

End DownloadFacts.
