(* ===== verification/CustomClient.v ===== *)
(** * Clients made for a customer ([src/custom_server.rs], [src/common.rs])

    The servers a client takes from the name of its executable
    ([get_custom_server_from_string]), and the signed text a custom client
    brings, which fills the layers of settings that [Config], [ConfigMore] and
    the display settings of [PeerConfig] read ([read_custom_client]).  Base64,
    JSON and signatures are third-party crates.

    Also here are small functions of [common.rs]: the fingerprint of a key, the
    colour of a name, and the interval that does not catch up. *)

From S2P Require Import Prelude RustStr SecureStream Password Config ConfigMore Handshake Tls ConfigProofs.

Module Custom.

Import Config ConfigMore.

(** ** The servers in a name *)

Record CustomServer : Type := mkServer { key : string; host : string; api : string; relay : string }.

(** Where a pattern begins for the first time. *)
Fixpoint find_str (pat s : string) : option nat :=
  if starts_with pat s then Some O
  else match s with EmptyString => None | String _ s => option_map S (find_str pat s) end.

(** A byte that begins a character. *)
Definition is_char_boundary (n : nat) (s : string) : bool :=
  Nat.eqb n (String.length s)
  || match String.get n s with
     | Some c => (nat_of_ascii c <? 128)%nat || (192 <=? nat_of_ascii c)%nat
     | None => false
     end.

Section Name.
(** The URL-safe base64 of a text read from its end (a text with bytes above
    127 has none), a server as JSON, a checked signature. *)
Context (decode_url_safe : string -> option (list Z)) (server_json : list Z -> option CustomServer).
Context (verify : list Z -> list Z -> option (list Z)).

Definition PK : list Z :=
  [88; 168; 68; 104; 60; 5; 163; 198; 165; 38; 12; 85; 114; 203; 96; 163; 70; 48; 0; 131; 57;
   12; 46; 129; 83; 17; 84; 193; 119; 197; 130; 103].

Definition get_custom_server_from_config_string (s : string) : option CustomServer :=
  let tmp := rev_string s "" in
  match decode_url_safe tmp with
  | None => None
  | Some data =>
    match server_json data with
    | Some lic => Some lic
    | None =>
      match verify data PK with
      | Some data => server_json data
      | None => None
      end
    end
  end.

(** [chars().skip(n)] for a part whose first [n] characters are ASCII. *)
Definition without_exe (s : string) : string :=
  let low := to_lowercase s in
  if ends_with ".exe.exe" low then String.substring 0 (String.length s - 8) s
  else if ends_with ".exe" low then String.substring 0 (String.length s - 4) s
  else s.

Definition read_part (c : CustomServer) (el : string) : CustomServer :=
  let el_lower := to_lowercase el in
  let c := if starts_with "host=" el_lower then mkServer (key c) (Tls.drop_str 5 el) (api c) (relay c) else c in
  let c := if starts_with "key=" el_lower then mkServer (Tls.drop_str 4 el) (host c) (api c) (relay c) else c in
  let c := if starts_with "api=" el_lower then mkServer (key c) (host c) (Tls.drop_str 4 el) (relay c) else c in
  if starts_with "relay=" el_lower then mkServer (key c) (host c) (api c) (Tls.drop_str 6 el) else c.

Fixpoint first_some {A B} (f : A -> option B) (l : list A) : option B :=
  match l with
  | [] => None
  | x :: l => match f x with Some y => Some y | None => first_some f l end
  end.

(** A panic when the place found in the lower-case text is not between two
    characters of the text itself.  [to_lowercase] is that of ASCII and the
    Kelvin sign. *)
Definition get_custom_server_from_string (s : string) : outcome (result CustomServer string) :=
  let s := without_exe s in
  match find_str "host=" (to_lowercase s) with
  | Some n =>
    if is_char_boundary n s then
      let stripped := Tls.drop_str n s in
      Done (Ok (fold_left read_part (split_char "," stripped) (mkServer "" "" "" "")))
    else Panic
  | None =>
    let s := replace_str "-licensed-" "--" (replace_str "-licensed--" "--" (replace_str "-licensed---" "--" s)) in
    let one (s : string) : option CustomServer :=
      match get_custom_server_from_config_string (trim s) with
      | Some lic => Some lic
      | None =>
        if contains_char "(" s
        then first_some (fun s => get_custom_server_from_config_string (trim s)) (split_char "(" s)
        else None
      end in
    match first_some one (split_str "--" s) with
    | Some lic => Done (Ok lic)
    | None => Done (Err "Failed to parse")
    end
  end.

End Name.

(** ** The text of a custom client *)

Inductive Json : Type :=
| JStr (s : string)
| JObj (l : list (string * Json))
| JOther.

Definition as_str (v : Json) : option string := match v with JStr s => Some s | _ => None end.

Definition KEYS_DISPLAY_SETTINGS : list string :=
  ["view_only"; "show_monitors_toolbar"; "collapse_toolbar"; "show_remote_cursor"; "follow_remote_cursor";
   "follow_remote_window"; "zoom-cursor"; "show_quality_monitor"; "disable_audio"; "enable-file-copy-paste";
   "disable_clipboard"; "lock_after_session_end"; "privacy_mode"; "touch-mode"; "i444"; "reverse_mouse_wheel";
   "swap-left-right-mouse"; "displays_as_individual_windows"; "use_all_my_displays_for_the_remote_session";
   "view_style"; "terminal-persistent"; "scroll_style"; "edge-scroll-edge-thickness"; "image_quality";
   "custom_image_quality"; "custom-fps"; "codec-preference"; "sync-init-clipboard"; "trackpad-speed"].

Definition KEYS_LOCAL_SETTINGS : list string :=
  ["theme"; "lang"; "enable-confirm-closing-tabs"; "enable-open-new-connections-in-tabs"; "use-texture-render";
   "allow-d3d-render"; "sync-ab-with-recent-sessions"; "sync-ab-tags"; "filter-ab-by-intersection";
   "remote-menubar-drag-left"; "remote-menubar-drag-right"; "hideAbTagsPanel"; "remoteMenubarState";
   "peer-sorting"; "peer-tab-index"; "peer-tab-order"; "peer-tab-visible"; "peer-card-ui-type"; "current-ab-name";
   "disable-floating-window"; "floating-window-size"; "floating-window-untouchable";
   "floating-window-transparency"; "floating-window-svg"; "keep-screen-on"; "keep-awake-during-outgoing-sessions";
   "disable-group-panel"; "disable-discovery-panel"; "pre-elevate-service"; "allow-remote-cm-modification";
   "allow-auto-record-outgoing"; "video-save-directory"; "enable-udp-punch"; "enable-ipv6-punch"; "touch-mode";
   "show-virtual-mouse"; "show-virtual-joystick"; "enable-flutter-http-on-rust"; "allow-ask-for-note"].

Definition KEYS_SETTINGS : list string :=
  ["access-mode"; "enable-keyboard"; "enable-clipboard"; "enable-file-transfer"; "enable-camera";
   "enable-terminal"; "enable-remote-printer"; "enable-audio"; "enable-tunnel"; "enable-remote-restart";
   "enable-record-session"; "enable-block-input"; "allow-remote-config-modification";
   "allow-numeric-one-time-password"; "enable-lan-discovery"; "direct-server"; "direct-access-port"; "whitelist";
   "allow-auto-disconnect"; "auto-disconnect-timeout"; "allow-only-conn-window-open";
   "allow-auto-record-incoming"; "enable-abr"; "allow-remove-wallpaper"; "allow-always-software-render";
   "allow-linux-headless"; "enable-hwcodec"; "approve-mode"; "verification-method"; "temporary-password-length";
   "proxy-url"; "proxy-username"; "proxy-password"; "custom-rendezvous-server"; "api-server"; "key";
   "allow-websocket"; "preset-address-book-name"; "preset-address-book-tag"; "preset-address-book-alias";
   "preset-address-book-password"; "preset-address-book-note"; "preset-device-username"; "preset-device-name";
   "preset-note"; "enable-directx-capture"; "enable-android-software-encoding-half-scale";
   "enable-trusted-devices"; "relay-server"; "ice-servers"; "disable-udp"; "allow-insecure-tls-fallback";
   "keep-awake-during-incoming-sessions"].

Definition KEYS_BUILDIN_SETTINGS : list string :=
  ["display-name"; "preset-device-group-name"; "preset-user-name"; "preset-strategy-name";
   "remove-preset-password-warning"; "hide-security-settings"; "hide-network-settings"; "hide-server-settings";
   "hide-proxy-settings"; "hide-remote-printer-settings"; "hide-websocket-settings"; "hide-username-on-card";
   "hide-help-cards"; "default-connect-password"; "hide-tray"; "one-way-clipboard-redirection";
   "allow-logon-screen-password"; "one-way-file-transfer"; "allow-https-21114"; "allow-hostname-as-id";
   "register-device"; "hide-powered-by-me"; "main-window-always-on-top"; "file-transfer-max-files";
   "disable-change-permanent-password"; "disable-change-id"; "disable-unlock-pin"].

(** The layers of settings, and the name of the program. *)
Record Layers : Type := mkLayers {
  APP_NAME : string;
  OVERWRITE_DISPLAY_SETTINGS : gmap string string;
  DEFAULT_DISPLAY_SETTINGS : gmap string string;
  local_settings : LocalSettings;
  settings : Settings
}.

(** The maps one call writes: display, local, server, built-in. *)
Definition Four : Type := (gmap string string * gmap string string * gmap string string * gmap string string)%type.

(** [key.replace("_", "-")] of every key, to the key. *)
Definition key_map (keys : list string) : gmap string string :=
  fold_left (fun m s => <[replace_str "_" "-" s := s]> m) keys ∅.

Definition map_display_settings := key_map KEYS_DISPLAY_SETTINGS.
Definition map_local_settings := key_map KEYS_LOCAL_SETTINGS.
Definition map_settings := key_map KEYS_SETTINGS.
Definition map_buildin_settings := key_map KEYS_BUILDIN_SETTINGS.

Definition setting_step (m : Four) (kv : string * Json) : Four :=
  let '(d, l, s, b) := m in
  let '(k, v) := kv in
  match as_str v with
  | None => m
  | Some v =>
    match map_display_settings !! k with
    | Some k2 => (<[k2 := v]> d, l, s, b)
    | None =>
      match map_local_settings !! k with
      | Some k2 => (d, <[k2 := v]> l, s, b)
      | None =>
        match map_settings !! k with
        | Some k2 => (d, l, <[k2 := v]> s, b)
        | None =>
          match map_buildin_settings !! k with
          | Some k2 => (d, l, s, <[k2 := v]> b)
          | None =>
            let k2 := replace_str "_" "-" k in
            let k := replace_str "-" "_" k2 in
            let both (m : gmap string string) := <[k2 := v]> (<[k := v]> m) in
            (both d, both l, both s, both b)
          end
        end
      end
    end
  end.

Definition read_custom_client_advanced_settings (j : Json) (is_override : bool) (y : Layers) : Layers :=
  match j with
  | JObj l =>
    let L := local_settings y in
    let S := settings y in
    if is_override then
      let '(d, lo, s, b) := fold_left setting_step l
        (OVERWRITE_DISPLAY_SETTINGS y, OVERWRITE_LOCAL_SETTINGS L, OVERWRITE_SETTINGS S, BUILTIN_SETTINGS S) in
      mkLayers (APP_NAME y) d (DEFAULT_DISPLAY_SETTINGS y) (mkLocalSettings lo (DEFAULT_LOCAL_SETTINGS L))
        (mkSettings s (DEFAULT_SETTINGS S) (HARD_SETTINGS S) b)
    else
      let '(d, lo, s, b) := fold_left setting_step l
        (DEFAULT_DISPLAY_SETTINGS y, DEFAULT_LOCAL_SETTINGS L, DEFAULT_SETTINGS S, BUILTIN_SETTINGS S) in
      mkLayers (APP_NAME y) (OVERWRITE_DISPLAY_SETTINGS y) d (mkLocalSettings (OVERWRITE_LOCAL_SETTINGS L) lo)
        (mkSettings (OVERWRITE_SETTINGS S) s (HARD_SETTINGS S) b)
  | _ => y
  end.

Definition CUSTOM_KEY : string := "5Qbwsde3unUcJBtrx9ZkvUmwFNoExHzpryHuPUdqlWM=".

Section Client.
Context {SO : Sodium} (decode64 : string -> option (list Z)) (client_json : list Z -> option (list (string * Json))).

Definition get (k : string) (l : list (string * Json)) : option Json :=
  option_map snd (List.find (fun kv => String.eqb kv.1 k) l).
Definition without (k : string) (l : list (string * Json)) : list (string * Json) :=
  List.filter (fun kv => negb (String.eqb kv.1 k)) l.

(** The hard settings take what remains. *)
Definition hard_step (h : gmap string string) (kv : string * Json) : gmap string string :=
  match as_str kv.2 with Some v => <[kv.1 := v]> h | None => h end.

Definition with_hard (f : gmap string string -> gmap string string) (y : Layers) : Layers :=
  let S := settings y in
  mkLayers (APP_NAME y) (OVERWRITE_DISPLAY_SETTINGS y) (DEFAULT_DISPLAY_SETTINGS y) (local_settings y)
    (mkSettings (OVERWRITE_SETTINGS S) (DEFAULT_SETTINGS S) (f (HARD_SETTINGS S)) (BUILTIN_SETTINGS S)).

(** What is done with the object that was signed. *)
Definition apply_client (data : list (string * Json)) (y : Layers) : Layers :=
  let y := match get "app-name" data with
           | Some (JStr n) =>
             mkLayers n (OVERWRITE_DISPLAY_SETTINGS y) (DEFAULT_DISPLAY_SETTINGS y) (local_settings y) (settings y)
           | _ => y
           end in
  let data := without "app-name" data in
  let y := match get "default-settings" data with
           | Some j => read_custom_client_advanced_settings j false y | None => y end in
  let data := without "default-settings" data in
  let y := match get "override-settings" data with
           | Some j => read_custom_client_advanced_settings j true y | None => y end in
  let data := without "override-settings" data in
  with_hard (fun h => fold_left hard_step data h) y.

Definition read_custom_client (config : string) (y : Layers) : Layers :=
  match decode64 config with
  | None => y
  | Some data =>
    match Handshake.get_rs_pk decode64 CUSTOM_KEY with
    | None => y
    | Some pk =>
      match verify data pk with
      | None => y
      | Some data =>
        match client_json data with
        | None => y
        | Some data => apply_client data y
        end
      end
    end
  end.

Definition is_custom_client (y : Layers) : bool := negb (String.eqb (APP_NAME y) "RustDesk").

End Client.

(** ** Small functions *)

(** [is_empty_uni_link]: [prefix] is [get_uri_prefix]. *)
Definition is_empty_uni_link (prefix arg : string) : bool :=
  starts_with prefix arg
  && forallb (fun c => Ascii.eqb c "/") (String.list_ascii_of_string (Tls.drop_str (String.length prefix) arg)).

Definition hex_digit (d : Z) : ascii :=
  ascii_of_nat (Z.to_nat (if d <? 10 then 48 + d else 87 + d)).

Definition hex2 (u : Z) : list ascii := [hex_digit (u / 16); hex_digit (u mod 16)].

Definition pk_to_fingerprint (pk : list Z) : list ascii :=
  concat (imap (fun i c => if (0 <? i)%nat && Nat.eqb (i mod 4) 0 then [" "%char; c] else [c]) (concat (map hex2 pk))).

Definition str2color (s : string) (alpha : Z) : Z :=
  let hash := fold_left (fun hash c => u32 (ascii_code c + u32 (u32 (Z.shiftl hash 5) - hash)))
                (String.list_ascii_of_string s) 0 in
  let hash := hash mod 16777216 in
  let rgb := Z.land hash 0xFF7FFF in
  Z.lor (u32 (Z.shiftl alpha 24)) rgb.

(** [ThrottledInterval]: instants in nanoseconds; what the inner interval
    answers is an input of a poll.  [min_interval] is nine tenths of the
    period, through a floating-point number. *)
Record ThrottledInterval : Type := mkThrottled { next_tick : Z; min_interval : Z }.

(** The last component says that the waker is called at once. *)
Definition poll_tick (inner : option Z) (now : Z) (t : ThrottledInterval) : ThrottledInterval * option Z * bool :=
  match inner with
  | Some instant =>
    if next_tick t <=? now then (mkThrottled (now + min_interval t) (min_interval t), Some instant, false)
    else (t, None, true)
  | None => (t, None, false)
  end.

End Custom.

(** ** What a custom client fixes

    A setting the signed text overrides cannot be changed by the user; a text
    whose signature does not verify changes nothing; and the small functions
    of [CustomClient]. *)

Module CustomFacts.

Import Config ConfigFacts ConfigMore Custom.

(** ** Settings *)

Definition server_map (m : Four) : gmap string string := m.1.2.

(** An entry that leaves a key of the server's settings alone. *)
Definition leaves (k2 : string) (kv : string * Json) : Prop :=
  forall m, server_map (setting_step m kv) !! k2 = server_map m !! k2.

Lemma fold_leaves k2 l : Forall (leaves k2) l -> forall m, server_map (fold_left setting_step l m) !! k2 = server_map m !! k2.
Proof.
  induction 1 as [|kv l Hkv _ IH]; intros m; cbn [fold_left]; [done|]. by rewrite IH, Hkv.
Qed.

(** A known key of the server's settings, and only of those. *)
Definition server_key (k k2 : string) : Prop :=
  map_display_settings !! k = None /\ map_local_settings !! k = None /\ map_settings !! k = Some k2.

Lemma server_entry k k2 v m : server_key k k2 -> server_map (setting_step m (k, JStr v)) !! k2 = Some v.
Proof.
  intros (H1 & H2 & H3). destruct m as [[[d l] s] b]. unfold setting_step. cbn [as_str]. rewrite H1, H2, H3.
  apply lookup_insert_eq.
Qed.

Lemma overridden k k2 v l1 l2 (y : Layers) : server_key k k2 -> Forall (leaves k2) l2 ->
  OVERWRITE_SETTINGS (settings (read_custom_client_advanced_settings (JObj (l1 ++ (k, JStr v) :: l2)) true y)) !! k2 = Some v.
Proof.
  intros Hk Hl. cbn [read_custom_client_advanced_settings].
  match goal with |- context [fold_left _ _ ?m] => set (m0 := m) end.
  assert (server_map (fold_left setting_step (l1 ++ (k, JStr v) :: l2) m0) !! k2 = Some v) as H.
  { rewrite fold_left_app. cbn [fold_left]. rewrite fold_leaves by done. by apply server_entry. }
  destruct (fold_left setting_step _ m0) as [[[d lo] s] b]. exact H.
Qed.

Lemma hard_keeps f y : OVERWRITE_SETTINGS (settings (with_hard f y)) = OVERWRITE_SETTINGS (settings y).
Proof. done. Qed.

Section Client.
Context `{SB : SecretBox} `{B64 : Base64} {SO : Sodium} (uuid : list Z).
Context (decode64 : string -> option (list Z)) (client_json : list Z -> option (list (string * Json))).

Abbreviation read := (read_custom_client decode64 client_json).

(** A text whose signature does not verify under the built-in key changes
    nothing. *)
Lemma unsigned_client_ignored config y data pk : decode64 config = Some data ->
  Handshake.get_rs_pk decode64 CUSTOM_KEY = Some pk -> verify data pk = None -> read config y = y.
Proof. intros Hd Hp Hv. unfold read_custom_client. by rewrite Hd, Hp, Hv. Qed.

(** A server's option that a signed custom client overrides reads as the
    client has it, whatever the user's configuration holds and however the
    user sets it; and nothing but a text that verifies under the built-in key
    can make it so. *)
Theorem overridden_option_fixed config y data pk signed obj k k2 v l1 l2 :
  decode64 config = Some signed -> Handshake.get_rs_pk decode64 CUSTOM_KEY = Some pk -> verify signed pk = Some data ->
  client_json data = Some obj -> get "override-settings" (without "default-settings" (without "app-name" obj))
                                 = Some (JObj (l1 ++ (k, JStr v) :: l2)) ->
  server_key k k2 -> Forall (leaves k2) l2 ->
  (forall st, get_option (settings (read config y)) k2 st = v)
  /\ (forall st v', get_option (settings (read config y)) k2 (set_option uuid (settings (read config y)) k2 v' st) = v)
  /\ (forall config' signed', decode64 config' = Some signed' -> verify signed' pk = None -> read config' y = y).
Proof.
  intros Hd Hp Hv Hj Hg Hk Hl.
  assert (OVERWRITE_SETTINGS (settings (read config y)) !! k2 = Some v) as Ho.
  { unfold read_custom_client. rewrite Hd, Hp, Hv, Hj. unfold apply_client. cbv zeta. rewrite Hg, hard_keeps.
    by apply overridden. }
  split_and!.
  - intros st. unfold get_option, get_or. by rewrite Ho.
  - intros st v'. destruct (set_get_option uuid (settings (read config y)) k2 v' st) as [H _]. by rewrite H, Ho.
  - intros config' signed' Hd' Hv'. by apply (unsigned_client_ignored config' y signed' pk).
Qed.

End Client.

(** The key [touch-mode] names a display setting and a local one; a custom
    client can set the first only. *)
Lemma local_touch_mode_unreachable m v :
  setting_step m ("touch-mode", JStr v) = (let '(d, l, s, b) := m in (<["touch-mode" := v]> d, l, s, b))
  /\ map_local_settings !! "touch-mode" = Some "touch-mode".
Proof. split; [|by vm_compute]. by destruct m as [[[d l] s] b]. Qed.

(** ** Names *)

Definition nothing_decodes : string -> option (list Z) := fun _ => None.

Abbreviation from_name := (get_custom_server_from_string nothing_decodes (fun _ => None) (fun _ _ => None)).

Example names :
  from_name "rustdesk-host=server.example.net,api=abc,key=Zm9vYmFyLiwyCg==.exe"
    = Done (Ok (mkServer "Zm9vYmFyLiwyCg==" "server.example.net" "abc" ""))
  /\ from_name "rustdesk-HOST=a,relay=b,(1).exe.exe" = Done (Ok (mkServer "" "a" "" "b"))
  /\ from_name "rustdesk.exe" = Done (Err "Failed to parse").
Proof. by vm_compute. Qed.

(** The place of [host=] is looked for in the lower-case name and cut in the
    name itself: behind a character that becomes shorter, such as the Kelvin
    sign, the cut falls into it and the program panics. *)
Example kelvin_name_panics : from_name (KELVIN +:+ "host=a") = Panic.
Proof. by vm_compute. Qed.

(** ** The fingerprint of a key *)

Definition printed (c : ascii) : bool := negb (Ascii.eqb c " ").

Lemma hex_digit_printed d : 0 <= d < 16 -> printed (hex_digit d) = true.
Proof.
  intros Hd. assert (d = 0 \/ d = 1 \/ d = 2 \/ d = 3 \/ d = 4 \/ d = 5 \/ d = 6 \/ d = 7 \/ d = 8 \/ d = 9 \/ d = 10
    \/ d = 11 \/ d = 12 \/ d = 13 \/ d = 14 \/ d = 15) as H by lia.
  destruct H as [->|[->|[->|[->|[->|[->|[->|[->|[->|[->|[->|[->|[->|[->|[->| ->]]]]]]]]]]]]]]]; reflexivity.
Qed.

(** Without its spaces it is the key in hexadecimal. *)
Lemma fingerprint_hex pk : bytes pk -> List.filter printed (pk_to_fingerprint pk) = concat (map hex2 pk).
Proof.
  intros Hpk. unfold pk_to_fingerprint.
  assert (Forall (fun c => printed c = true) (concat (map hex2 pk))) as Hd.
  { induction Hpk as [|u l Hu _ IH]; cbn; [constructor|]. unfold is_byte in Hu.
    constructor; [apply hex_digit_printed; pose proof (Z.div_lt_upper_bound u 16 16); pose proof (Z.div_pos u 16); lia|].
    constructor; [apply hex_digit_printed; apply Z.mod_pos_bound; lia|done]. }
  revert Hd. generalize (concat (map hex2 pk)). clear. intros l Hl.
  assert (forall f, (forall i c, printed c = true -> List.filter printed (f i c) = [c]) ->
            List.filter printed (concat (imap f l)) = l) as H.
  { induction Hl as [|c l Hc _ IH]; intros f Hf; cbn [imap concat]; [done|].
    rewrite List.filter_app, (Hf 0%nat c Hc). cbn [app]. f_equal. apply IH. intros i d Hd. by apply Hf. }
  apply H. intros i c Hc. destruct (_ && _); cbn [List.filter]; [|by rewrite Hc]. by rewrite Hc.
Qed.

(** ** The colour of a name *)

Lemma color_range s alpha : 0 <= alpha < 256 ->
  0 <= str2color s alpha < 2 ^ 32 /\ Z.shiftr (str2color s alpha) 24 = alpha.
Proof.
  intros Ha. unfold str2color. cbv zeta. set (h := fold_left _ _ 0 mod 16777216).
  assert (0 <= Z.land h 0xFF7FFF < 2 ^ 24) as Hr.
  { change 0xFF7FFF with (Z.land 0xFF7FFF (2 ^ 24 - 1)). rewrite Z.land_assoc, land_mask by lia.
    apply Z.mod_pos_bound. lia. }
  unfold wrap. rewrite Z.mod_small by (rewrite Z.shiftl_mul_pow2 by lia; lia).
  assert (Z.lor (Z.shiftl alpha 24) (Z.land h 0xFF7FFF) = alpha * 2 ^ 24 + Z.land h 0xFF7FFF) as ->.
  { rewrite Z.lor_comm, (lor_shiftl _ alpha 24); [apply Z.add_comm|done|exact Hr]. }
  split; [lia|]. rewrite Z.shiftr_div_pow2 by lia. rewrite Z.add_comm, Z.div_add by lia. rewrite Z.div_small by lia. lia.
Qed.

(** ** The interval *)

(** When its ticks come, over polls at given times. *)
Fixpoint ready_times (l : list (option Z * Z)) (t : ThrottledInterval) : list Z :=
  match l with
  | [] => []
  | (inner, now) :: l =>
    let '(t', r, _) := poll_tick inner now t in
    match r with Some _ => now :: ready_times l t' | None => ready_times l t' end
  end.

Fixpoint gaps (g lo : Z) (l : list Z) : Prop :=
  match l with [] => True | x :: l => lo <= x /\ gaps g (x + g) l end.

(** However fast the inner interval catches up, two ticks are at least
    [min_interval] apart. *)
Lemma ticks_apart l t : gaps (min_interval t) (next_tick t) (ready_times l t).
Proof.
  revert t. induction l as [|[inner now] l IH]; intros t; cbn [ready_times]; [done|]. unfold poll_tick.
  destruct inner as [x|]; [|apply IH]. destruct (Z.leb_spec (next_tick t) now); [|apply IH]. split; [done|].
  exact (IH (mkThrottled (now + min_interval t) (min_interval t))).
Qed.

End CustomFacts.

(** ** A run *)

Module CustomDemo.

Import Utf8 Vault Config ConfigFacts ConfigMore Secure Custom CustomFacts.

(** The signature of one text verifies. *)
Definition one_signed : Sodium := {|
  sign := fun m _ => m;
  verify := fun m _ => if bool_decide (m = [1]) then Some [2] else None;
  sign_pk := fun k => k;
  box_seal := fun m _ _ _ => m;
  box_open := fun m _ _ _ => Some m;
  box_pk := fun k => k |}.

Definition decode (s : string) : option (list Z) :=
  if String.eqb s CUSTOM_KEY then Some (replicate 32 7) else if String.eqb s "signed" then Some [1] else Some [9].

Definition object : list (string * Json) :=
  [("app-name", JStr "Desk"); ("override-settings", JObj [("enable-audio", JStr "N"); ("view-only", JOther)])].

Definition layers : Layers := mkLayers "RustDesk" ∅ ∅ (mkLocalSettings ∅ ∅) (mkSettings ∅ ∅ ∅ ∅).

Abbreviation client := (@read_custom_client one_signed decode (fun _ => Some object) "signed" layers).

Lemma overridden_option_fixed_witness :
  get_option (settings client) "enable-audio" demo_state = "N"
  /\ get_option (settings client) "enable-audio"
       (@set_option toy_box toy_b64 [7] (settings client) "enable-audio" "Y" demo_state) = "N".
Proof.
  destruct (@overridden_option_fixed toy_box toy_b64 one_signed [7] decode (fun _ => Some object) "signed" layers
              [2] (replicate 32 7) [1] object "enable-audio" "enable-audio" "N" [] [("view-only", JOther)]
              eq_refl eq_refl eq_refl eq_refl eq_refl
              (conj eq_refl (conj eq_refl eq_refl))
              ltac:(constructor; [intros [[[d l] s] b]; reflexivity|constructor])) as (H1 & H2 & _).
  exact (conj (H1 demo_state) (H2 demo_state "Y")).
Defined.

End CustomDemo.
