(* ===== verification/ClientConfig.v ===== *)
(** * The login configuration of a controlling session ([src/client.rs])

    [LoginConfigHandler]: what a session knows of its peer and of its login,
    the settings it reads and writes through [PeerConfig], the option messages
    it sends, and what it keeps of the login (remembered password, server key,
    keyboard mode).

    - [Lc] is the struct (decoders, encodings and locks left out);
    - [Client] pairs it with the files of the peers, which other sessions of
      the same peer share;
    - [ClEnv] is what the operations read from their surroundings.  JSON texts
      are serde's: the connection token and the remembered directories are
      pairs of functions. *)

From S2P Require Import Prelude RustStr SecureStream Password Config NetUtil Messages PeerConfig.

Module Client.

Import Msg PeerCfg.

(** ** Where a password comes from *)

Inductive PasswordSource : Type := PersonalAb (p : list Z) | SharedAb (p : string) | Undefined.

#[global] Instance PasswordSource_eq_dec : EqDecision PasswordSource.
Proof. solve_decision. Defined.

Definition is_personal_ab (src : PasswordSource) (password : list Z) : bool :=
  match password, src with
  | [], _ => false
  | _, PersonalAb p => bool_decide (p = password)
  | _, _ => false
  end.

Section Source.
Context (sha256 : list Z -> list Z).

(** [PasswordSource::equal] *)
Definition source_equal (password : string) (connected salt : list Z) : bool :=
  bool_decide (connected = sha256 (Config.str_bytes password ++ salt)).

Definition is_shared_ab (src : PasswordSource) (password salt : list Z) : bool :=
  match password, src with
  | [], _ => false
  | _, SharedAb p => source_equal p password salt
  | _, _ => false
  end.
End Source.

Record ConnToken : Type := mkConnToken {
  t_password : list Z; t_password_source : PasswordSource; t_session_id : Z }.

Inductive ConnType : Type := DEFAULT_CONN | FILE_TRANSFER | PORT_FORWARD | RDP | VIEW_CAMERA | TERMINAL.

#[global] Instance ConnType_eq_dec : EqDecision ConnType.
Proof. solve_decision. Defined.

(** [PeerInfo], the fields the session looks at. *)
Record PeerInfo : Type := mkPeerInfo {
  pi_username : string; pi_hostname : string; pi_platform : string; pi_version : string;
  pi_privacy_mode : option bool }.  (* of [features] *)

(** ** The state *)

Set Primitive Projections.

Record Lc : Type := mkLc {
  id : string;
  conn_type : ConnType;
  is_terminal_admin : bool;
  salt : list Z;  (* the [hash] message *)
  challenge : list Z;
  lc_password : list Z;
  remember : bool;
  config : PeerConfig;
  port_forward : string * Z;
  version : Z;
  features : option bool;
  session_id : Z;
  restarting_remote_device : bool;
  force_relay : bool;
  direct : option bool;
  received : bool;
  switch_uuid : option string;
  other_server : option (string * string * string);
  custom_fps : option Z;
  adapter_luid : option Z;
  selected_windows_session_id : option Z;
  password_source : PasswordSource;
  shared_password : option string;
  record_state : bool;
  record_permission : bool }.

Record Client : Type := mkClient { lc : Lc; st : Store }.

Unset Primitive Projections.

Record ClEnv : Type := mkClEnv {
  fs : FsEnv;
  sha256 : list Z -> list Z;
  random_u64 : Z;                               (* [rand::random()] *)
  env_terminal_admin : bool;                    (* [IS_TERMINAL_ADMIN] is ["Y"] *)
  use_ws : bool;
  is_proxy : bool;
  using_public_server : bool;
  supported_decoding : SupportedDecoding;       (* of the decoders of this machine *)
  token_of_str : string -> option ConnToken;
  token_to_str : ConnToken -> option string;
  dirs_of_str : string -> option (gmap string string);
  dirs_to_str : gmap string string -> string }.

#[global] Instance KeyboardMode_eq_dec : EqDecision KeyboardMode.
Proof. solve_decision. Defined.

(** ** [src/common.rs] and [hbb_common/src/keyboard.rs]: keyboard modes *)

Definition keyboard_mode_str (m : KeyboardMode) : string :=
  match m with Legacy => "legacy" | Map => "map" | Translate => "translate" | AutoMode => "auto" end.

Definition keyboard_mode_of (s : string) : option KeyboardMode :=
  if String.eqb s "legacy" then Some Legacy else if String.eqb s "map" then Some Map
  else if String.eqb s "translate" then Some Translate else if String.eqb s "auto" then Some AutoMode
  else None.

Definition is_keyboard_mode_supported (m : KeyboardMode) (version_number : Z) (peer_platform : string) : bool :=
  match m with
  | Legacy => true
  | Map => if String.eqb (to_lowercase peer_platform) (to_lowercase "Android") then false
           else Version.get_version_number "1.2.0" <=? version_number
  | Translate | AutoMode => Version.get_version_number "1.2.0" <=? version_number
  end.

Definition get_supported_keyboard_modes (version_number : Z) (peer_platform : string) : list KeyboardMode :=
  List.filter (fun m => is_keyboard_mode_supported m version_number peer_platform) [Legacy; Map; Translate; AutoMode].

(** [handle_relay_id] of [src/ui_interface.rs] *)
Definition handle_relay_id (id : string) : string :=
  if ends_with "\r" id || ends_with "/r" id then String.substring 0 (String.length id - 2) id else id.

Definition PUBLIC_SERVER : string := "public".

(** The arguments behind the question mark: the last value of the key wins. *)
Definition arg_key (args : string) : string :=
  let m := fold_left (fun (m : smap) arg =>
             match split_char "=" arg with
             | k :: _ :: _ => <[ to_lowercase k := String.substring (String.length k + 1) (String.length arg) arg ]> m
             | _ => m
             end) (split_char "&" args) ∅ in
  unwrap_or "" (m !! "key").

Section Handler.
Context `{SB : SecretBox} `{B64 : Base64} `{F : F64Text}.
Context (get_uuid : list Z) (ds : DisplaySettings) (RS_PUB_KEY : string).

(** [load_config] and [save_config] *)
Definition load_config (e : ClEnv) (c : Client) : PeerConfig * Client :=
  let '(cfg, st') := load get_uuid ds (fs e) (id (lc c)) (st c) in (cfg, c <| st := st' |>).

Definition save_config (e : ClEnv) (cfg : PeerConfig) (c : Client) : Client :=
  c <| st := store get_uuid (fs e) (id (lc c)) cfg (st c) |> <| lc := (lc c) <| config := cfg |> |>.

(** The pattern of the [save_...] methods. *)
Definition save_with (e : ClEnv) (f : PeerConfig -> PeerConfig) (c : Client) : Client :=
  let '(cfg, c) := load_config e c in save_config e (f cfg) c.

Definition get_option (k : string) (l : Lc) : string := unwrap_or "" (options (config l) !! k).

Definition set_option (e : ClEnv) (k v : string) (c : Client) : Client :=
  let '(cfg, c) := load_config e c in
  if String.eqb v (get_option k (lc c)) then c
  else save_config e (cfg <| options := <[ k := v ]> (options cfg) |>) c.

Definition save_view_style (e : ClEnv) (v : string) := save_with e (fun c => c <| view_style := v |>).
Definition save_keyboard_mode (e : ClEnv) (v : string) := save_with e (fun c => c <| keyboard_mode := v |>).
Definition save_reverse_mouse_wheel (e : ClEnv) (v : string) :=
  save_with e (fun c => c <| reverse_mouse_wheel := v |>).
Definition save_displays_as_individual_windows (e : ClEnv) (v : string) :=
  save_with e (fun c => c <| displays_as_individual_windows := v |>).
Definition save_use_all_my_displays_for_the_remote_session (e : ClEnv) (v : string) :=
  save_with e (fun c => c <| use_all_my_displays_for_the_remote_session := v |>).
Definition save_scroll_style (e : ClEnv) (v : string) := save_with e (fun c => c <| scroll_style := v |>).
Definition save_edge_scroll_edge_thickness (e : ClEnv) (v : Z) :=
  save_with e (fun c => c <| edge_scroll_edge_thickness := v |>).
Definition save_trackpad_speed (e : ClEnv) (v : Z) := save_with e (fun c => c <| trackpad_speed := v |>).
Definition set_direct_failure (e : ClEnv) (v : Z) := save_with e (fun c => c <| direct_failures := v |>).

Definition save_ui_flutter (e : ClEnv) (k v : string) : Client -> Client :=
  save_with e (fun c => c <| ui_flutter := if String.eqb v "" then delete k (ui_flutter c)
                                           else <[ k := v ]> (ui_flutter c) |>).
Definition get_ui_flutter (k : string) (l : Lc) : string := unwrap_or "" (ui_flutter (config l) !! k).

Definition get_custom_resolution (display : Z) (l : Lc) : option (Z * Z) :=
  (fun r => (r_w r, r_h r)) <$> custom_resolutions (config l) !! show display.
Definition set_custom_resolution (e : ClEnv) (display : Z) (wh : option (Z * Z)) : Client -> Client :=
  save_with e (fun c => c <| custom_resolutions :=
    match wh with
    | Some (w, h) => <[ show display := mkResolution w h ]> (custom_resolutions c)
    | None => delete (show display) (custom_resolutions c)
    end |>).

(** ** Initialisation *)

(** The id as typed: peer, server and key. *)
Definition parse_id (id : string) (force_relay : bool)
  : string * bool * option (string * string * string) :=
  if contains_char "@" id then
    let v := split_char "@" id in
    let raw_id := nth 0 v "" in
    let server_key := split_char "?" (nth 1 v "") in
    let server := nth 0 server_key "" in
    let args := nth 1 server_key "" in
    let key := if String.eqb server PUBLIC_SERVER then RS_PUB_KEY else arg_key args in
    let real_id := handle_relay_id raw_id in
    (real_id +:+ "@" +:+ server, force_relay || negb (String.eqb real_id raw_id), Some (real_id, server, key))
  else
    let real_id := handle_relay_id id in
    (real_id, force_relay || negb (String.eqb real_id id), None).

Definition initialize (e : ClEnv) (id_ : string) (ct : ConnType) (uuid : option string) (relay : bool)
  (luid : option Z) (shared : option string) (conn_token : option string) (c : Client) : Client :=
  let '(pid, relay, server) := parse_id id_ relay in
  let c := match server with Some s => c <| lc := (lc c) <| other_server := Some s |> |> | None => c end in
  let c := c <| lc := (lc c) <| id := pid |> <| conn_type := ct |> |> in
  let '(cfg, c) := load_config e c in
  let l := (lc c) <| remember := negb (bool_decide (password cfg = [])) |> <| config := cfg |> in
  let token := match conn_token with Some x => token_of_str e x | None => None end in
  let '(sid, l) := match token with
                   | Some t => (t_session_id t, l <| lc_password := t_password t |>
                                                  <| password_source := t_password_source t |>)
                   | None => (0, l)
                   end in
  let sid := if sid =? 0 then if random_u64 e =? 0 then 1 else random_u64 e else sid in
  let l := l <| session_id := sid |> <| restarting_remote_device := false |>
             <| force_relay := Config.option2bool "force-always-relay" (get_option "force-always-relay" l)
                               || relay || use_ws e || is_proxy e |> in
  let l := match other_server l with
           | Some (real_id, server, key) =>
             let other_server_key := get_option "other-server-key" l in
             if negb (String.eqb other_server_key "") && String.eqb key ""
             then l <| other_server := Some (real_id, server, other_server_key) |> else l
           | None => l
           end in
  c <| lc := l <| direct := None |> <| received := false |> <| switch_uuid := uuid |>
               <| adapter_luid := luid |> <| selected_windows_session_id := None |>
               <| shared_password := shared |> <| record_state := false |> <| record_permission := true |>
               <| is_terminal_admin := bool_decide (ct = TERMINAL) && env_terminal_admin e |> |>.

Definition should_auto_login (l : Lc) : string :=
  let p := get_option "os-password" l in
  if negb (String.eqb p "") && lock_after_session_end (config l) && negb (String.eqb (get_option "auto-login" l) "")
  then p else "".

(** ** Options *)

Definition default_om : OptionMessage :=
  mkOptionMessage (Some IQ_NotSet) (Some NotSet) (Some NotSet) (Some NotSet) (Some NotSet) 0 (Some NotSet)
    (Some NotSet) (Some NotSet) None 0 (Some NotSet) (Some NotSet) (Some NotSet) (Some NotSet) (Some NotSet).

Definition bool_option (b : bool) : option BoolOption := Some (if b then Yes else No).

Definition get_toggle_option (name : string) (l : Lc) : bool :=
  let c := config l in
  if String.eqb name "show-remote-cursor" then show_remote_cursor c
  else if String.eqb name "lock-after-session-end" then lock_after_session_end c
  else if String.eqb name "terminal-persistent" then terminal_persistent c
  else if String.eqb name "privacy-mode" then privacy_mode c
  else if String.eqb name "enable-file-copy-paste" then enable_file_copy_paste c
  else if String.eqb name "disable-audio" then disable_audio c
  else if String.eqb name "disable-clipboard" then disable_clipboard c
  else if String.eqb name "show-quality-monitor" then show_quality_monitor c
  else if String.eqb name "allow_swap_key" then allow_swap_key c
  else if String.eqb name "view-only" then view_only c
  else if String.eqb name "show-my-cursor" then show_my_cursor c
  else if String.eqb name "follow-remote-cursor" then follow_remote_cursor c
  else if String.eqb name "follow-remote-window" then follow_remote_window c
  else negb (String.eqb (get_option name l) "").

(** The branch of [toggle_option] that a name selects: the new settings and
    the message; [None] for a name that is only an option of this side. *)
Definition toggle_known (name : string) (l : Lc) (c : PeerConfig) : option (PeerConfig * OptionMessage) :=
  let o := default_om in
  if String.eqb name "show-remote-cursor" then
    let b := negb (show_remote_cursor c) in
    Some (c <| show_remote_cursor := b |>, o <| o_show_remote_cursor := bool_option b |>)
  else if String.eqb name "follow-remote-cursor" then
    let b := negb (follow_remote_cursor c) in
    Some (c <| follow_remote_cursor := b |>, o <| o_follow_remote_cursor := bool_option b |>)
  else if String.eqb name "follow-remote-window" then
    let b := negb (follow_remote_window c) in
    Some (c <| follow_remote_window := b |>, o <| o_follow_remote_window := bool_option b |>)
  else if String.eqb name "disable-audio" then
    let b := negb (disable_audio c) in
    Some (c <| disable_audio := b |>, o <| o_disable_audio := bool_option b |>)
  else if String.eqb name "disable-clipboard" then
    let b := negb (disable_clipboard c) in
    Some (c <| disable_clipboard := b |>, o <| o_disable_clipboard := bool_option b |>)
  else if String.eqb name "lock-after-session-end" then
    let b := negb (lock_after_session_end c) in
    Some (c <| lock_after_session_end := b |>, o <| o_lock_after_session_end := bool_option b |>)
  else if String.eqb name "terminal-persistent" then
    let b := negb (terminal_persistent c) in
    Some (c <| terminal_persistent := b |>, o <| o_terminal_persistent := bool_option b |>)
  else if String.eqb name "privacy-mode" then
    Some (c, o <| o_privacy_mode := bool_option (negb (privacy_mode c)) |>)
  else if String.eqb name "enable-file-copy-paste" then
    let b := negb (enable_file_copy_paste c) in
    Some (c <| enable_file_copy_paste := b |>, o <| o_enable_file_transfer := bool_option b |>)
  else if String.eqb name "block-input" then Some (c, o <| o_block_input := bool_option true |>)
  else if String.eqb name "unblock-input" then Some (c, o <| o_block_input := bool_option false |>)
  else if String.eqb name "show-quality-monitor" then
    Some (c <| show_quality_monitor := negb (show_quality_monitor c) |>, o)
  else if String.eqb name "allow_swap_key" then
    Some (c <| allow_swap_key := negb (allow_swap_key c) |>, o)
  else if String.eqb name "view-only" then
    let c := c <| view_only := negb (view_only c) |> in
    if view_only c then
      Some (c, o <| o_disable_keyboard := bool_option true |> <| o_disable_clipboard := bool_option true |>
                 <| o_show_remote_cursor := bool_option true |>
                 <| o_enable_file_transfer := bool_option false |>
                 <| o_lock_after_session_end := bool_option false |>)
    else
      let o := o <| o_disable_keyboard := bool_option false |>
                 <| o_disable_clipboard := bool_option (get_toggle_option "disable-clipboard" l) |>
                 <| o_show_remote_cursor := bool_option (get_toggle_option "show-remote-cursor" l) |>
                 <| o_enable_file_transfer := bool_option (enable_file_copy_paste (config l)) |>
                 <| o_lock_after_session_end := bool_option (lock_after_session_end (config l)) |> in
      if show_my_cursor c then Some (c <| show_my_cursor := false |>, o <| o_show_my_cursor := bool_option false |>)
      else Some (c, o)
  else if String.eqb name "show-my-cursor" then
    let b := negb (show_my_cursor c) in
    Some (c <| show_my_cursor := b |>, o <| o_show_my_cursor := bool_option b |>)
  else None.

(** [toggle_option]: the message to send, whether the file clipboard of this
    side is emptied, and the new state. *)
Definition toggle_option (e : ClEnv) (name : string) (c : Client) : option OptionMessage * bool * Client :=
  let '(cfg, c) := load_config e c in
  match toggle_known name (lc c) cfg with
  | Some (cfg, o) =>
    let c := if contains_str "block-input" name then c else save_config e cfg c in
    (Some o, bool_decide (o_enable_file_transfer o = Some No), c)
  | None =>
    let is_set := match options (config (lc c)) !! name with Some o => negb (String.eqb o "") | None => false end in
    let opts := if is_set then delete name (options (config (lc c)))
                else <[ name := "Y" ]> (options (config (lc c))) in
    let cfg := (config (lc c)) <| options := opts |> in
    (None, false, save_config e cfg c)
  end.

Definition get_image_quality_enum (q : string) (ignore_default : bool) : option ImageQuality :=
  if String.eqb q "low" then Some IQ_Low
  else if String.eqb q "best" then Some IQ_Best
  else if String.eqb q "balanced" then if ignore_default then None else Some IQ_Balanced
  else None.

(** The image quality of [get_option_message]; the custom quality and frame
    rate are bounded on the public server. *)
Definition option_quality (e : ClEnv) (ignore_default : bool) (o : OptionMessage) (c : Client)
  : OptionMessage * Client :=
  let q := image_quality (config (lc c)) in
  match get_image_quality_enum q ignore_default with
  | Some q => (o <| o_image_quality := Some q |>, c)
  | None =>
    if String.eqb q "custom" then
      let '(cfg, c) := load_config e c in
      let allow_more := negb (using_public_server e) || bool_decide (direct (lc c) = Some true) in
      let quality := match custom_image_quality cfg with
                     | [] => 50
                     | q :: _ => if negb allow_more && (100 <? q) then 50 else q
                     end in
      let o := o <| o_custom_image_quality := i32 (Z.shiftl quality 8) |> in
      match options (config (lc c)) !! "custom-fps" with
      | Some fps =>
        let fps := unwrap_or 30 (parse_i32 fps) in
        let fps := if negb allow_more && (30 <? fps) then 30 else fps in
        (o <| o_custom_fps := fps |>, c <| lc := (lc c) <| custom_fps := Some (u64 fps) |> |>)
      | None => (o, c)
      end
    else (o, c)
  end.

Definition yes_if (b : bool) : option BoolOption := Some (if b then Yes else NotSet).

(** [get_option_message] *)
Definition get_option_message (e : ClEnv) (ignore_default : bool) (c : Client) : option OptionMessage * Client :=
  match conn_type (lc c) with
  | PORT_FORWARD | RDP | FILE_TRANSFER => (None, c)
  | TERMINAL =>
    if get_toggle_option "terminal-persistent" (lc c)
    then (Some (default_om <| o_terminal_persistent := Some Yes |>), c) else (None, c)
  | _ =>
    let '(o, c) := option_quality e ignore_default default_om c in
    let t name := get_toggle_option name (lc c) in
    let view_only := t "view-only" in
    (Some (o <| o_disable_keyboard := yes_if view_only |>
             <| o_show_remote_cursor := yes_if (view_only || t "show-remote-cursor") |>
             <| o_show_my_cursor := yes_if (view_only && t "show-my-cursor") |>
             <| o_follow_remote_cursor := yes_if (t "follow-remote-cursor") |>
             <| o_follow_remote_window := yes_if (t "follow-remote-window") |>
             <| o_lock_after_session_end := yes_if (negb view_only && t "lock-after-session-end") |>
             <| o_disable_audio := yes_if (t "disable-audio") |>
             <| o_enable_file_transfer := yes_if (negb view_only && t "enable-file-copy-paste") |>
             <| o_disable_clipboard := yes_if (view_only || t "disable-clipboard") |>
             <| o_supported_decoding := Some (supported_decoding e) |>), c)
  end.

Definition save_custom_image_quality (e : ClEnv) (q : Z) (c : Client) : OptionMessage * Client :=
  (default_om <| o_custom_image_quality := i32 (Z.shiftl q 8) |>,
   save_with e (fun c => c <| image_quality := "custom" |> <| custom_image_quality := [q] |>) c).

Definition save_image_quality (e : ClEnv) (v : string) (c : Client) : option OptionMessage * Client :=
  ((fun q => default_om <| o_image_quality := Some q |>) <$> get_image_quality_enum v false,
   save_with e (fun c => c <| image_quality := v |>) c).

Definition set_custom_fps (e : ClEnv) (fps : Z) (save : bool) (c : Client) : OptionMessage * Client :=
  let c := if save then save_with e (fun cfg => cfg <| options := <[ "custom-fps" := show fps ]> (options cfg) |>) c
           else c in
  (default_om <| o_custom_fps := fps |>, c <| lc := (lc c) <| custom_fps := Some (u64 fps) |> |>).

(** ** The peer's answer to the login *)

Definition get_username (pi : PeerInfo) (l : Lc) : string :=
  if String.eqb (pi_username pi) "" then username (info (config l)) else pi_username pi.

(** What is remembered of the password that was accepted. *)
Definition remembered (e : ClEnv) (l : Lc) (stored : list Z) : list Z :=
  let pw := lc_password l in
  if remember l then
    if negb (bool_decide (pw = [])) && negb (bool_decide (pw = stored))
       && negb (is_shared_ab (sha256 e) (password_source l) pw (salt l))
    then pw else stored
  else if is_personal_ab (password_source l) pw then pw else [].

Definition next_keyboard_mode (pi : PeerInfo) (mode : string) : string :=
  let v := Version.get_version_number (pi_version pi) in
  if String.eqb mode "" then
    if is_keyboard_mode_supported Map v (pi_platform pi) then keyboard_mode_str Map else keyboard_mode_str Legacy
  else
    let current := unwrap_or Legacy (keyboard_mode_of mode) in
    if existsb (fun m => bool_decide (m = current)) (get_supported_keyboard_modes v (pi_platform pi)) then mode else keyboard_mode_str Legacy.

(** [handle_peer_info]: the new state and the hash that is offered to the
    personal address book. *)
Definition handle_peer_info (e : ClEnv) (pi : PeerInfo) (c : Client) : Client * option (list Z) :=
  let l := lc c in
  let l := if negb (String.eqb (pi_version pi) "") then l <| version := Version.get_version_number (pi_version pi) |> else l in
  let l := l <| features := pi_privacy_mode pi |> in
  let '(cfg, c) := load_config e (c <| lc := l |>) in
  let pw := lc_password l in
  let cfg := cfg <| info := mkPeerInfoSerde (pi_username pi) (pi_hostname pi) (pi_platform pi) |>
                 <| password := remembered e l (password cfg) |> in
  let cfg := match other_server l with
             | Some (_, b, key) => if negb (String.eqb b PUBLIC_SERVER)
                                   then cfg <| options := <[ "other-server-key" := key ]> (options cfg) |> else cfg
             | None => cfg
             end in
  let cfg := if force_relay l then cfg <| options := <[ "force-always-relay" := "Y" ]> (options cfg) |> else cfg in
  let sync := if negb (bool_decide (password cfg = [])) && negb (is_shared_ab (sha256 e) (password_source l) pw (salt l))
                 && negb (is_personal_ab (password_source l) pw)
              then Some (password cfg) else None in
  let cfg := cfg <| keyboard_mode := next_keyboard_mode pi (keyboard_mode cfg) |> in
  (save_config e cfg c, sync).

(** ** Remembered directories and the connection token *)

Definition get_remote_dir (e : ClEnv) (l : Lc) : string :=
  unwrap_or "" (unwrap_or ∅ (dirs_of_str e (get_option "remote_dir" l)) !! username (info (config l))).

Definition get_all_remote_dir (e : ClEnv) (path : string) (l : Lc) : string :=
  let x := unwrap_or ∅ (dirs_of_str e (get_option "remote_dir" l)) in
  let user := username (info (config l)) in
  dirs_to_str e (if String.eqb path "" then delete user x else <[ user := path ]> x).

Definition get_conn_token (e : ClEnv) (l : Lc) : option string :=
  match lc_password l with
  | [] => None
  | _ => token_to_str e (mkConnToken (lc_password l) (password_source l) (session_id l))
  end.

Definition get_key_terminal_service_id (l : Lc) : string :=
  if is_terminal_admin l then "terminal-admin-service-id" else "terminal-service-id".

End Handler.
End Client.
