(* ===== verification/ClientOptions.v ===== *)
(** * Session options: what the two sides agree on

    The controlling side keeps the options of a session in the peer's settings
    and tells the peer of each change ([toggle_option]); at login it sends them
    all ([get_option_message]).  Here the two are compared through the
    controlled side's handler ([Connection.update_options]): after changes
    within a session the peer's switches are those a new login would set, but
    for those that were changed while a view-only session greys them out.

    - [Flags] are the nine switches of a connection the options control;
    - [apply_options] is the effect of an option message on them, and
      [flags_update_options] says that this is what the handler does;
    - [expected] is what the settings ask for. *)

From S2P Require Import Prelude RustStr SecureStream Password Config NetUtil Messages PeerConfig PeerConfigProofs.
From S2P Require Import Service Server Connection ConnectionAuth ClientConfig.

Module ClientOptions.

Import Msg PeerCfg PeerCfgFacts Client.

Set Primitive Projections.
Record Flags : Type := mkFlags {
  fl_lock : bool; fl_cursor : bool; fl_follow_cursor : bool; fl_follow_window : bool; fl_no_audio : bool;
  fl_files : bool; fl_no_clipboard : bool; fl_no_keyboard : bool; fl_my_cursor : bool }.
Unset Primitive Projections.

(** ** The controlled side *)

Definition flags (w : Conn.World) : Flags :=
  let c := Conn.conn w in
  mkFlags (Conn.lock_after_session_end c) (Conn.show_remote_cursor c) (Conn.follow_remote_cursor c)
    (Conn.follow_remote_window c) (Conn.disable_audio c) (Conn.enable_file_transfer c) (Conn.disable_clipboard c)
    (Conn.disable_keyboard c) (Conn.show_my_cursor c).

(** The value of a switch after a field of the message. *)
Definition set_by (o : option BoolOption) (old : bool) : bool :=
  match o with Some Yes => true | Some No => false | _ => old end.

Definition apply_options (o : OptionMessage) (x : Flags) : Flags :=
  mkFlags (set_by (o_lock_after_session_end o) (fl_lock x)) (set_by (o_show_remote_cursor o) (fl_cursor x))
    (set_by (o_follow_remote_cursor o) (fl_follow_cursor x)) (set_by (o_follow_remote_window o) (fl_follow_window x))
    (set_by (o_disable_audio o) (fl_no_audio x)) (set_by (o_enable_file_transfer o) (fl_files x))
    (set_by (o_disable_clipboard o) (fl_no_clipboard x)) (set_by (o_disable_keyboard o) (fl_no_keyboard x))
    (set_by (o_show_my_cursor o) (fl_my_cursor x)).

Lemma flags_when_set (get : Flags -> bool) (set : bool -> Flags -> Flags) o k w :
  (forall b w, flags (k b w) = set b (flags w)) -> (forall x, set (get x) x = x) ->
  flags (Conn.when_set o k w) = set (set_by o (get (flags w))) (flags w).
Proof. intros H1 H2. destruct o as [[]|]; cbn [Conn.when_set set_by]; by rewrite ?H1, ?H2. Qed.

Lemma flags_quality o w :
  flags (match o_supported_decoding o with
         | Some d => Conn.emit (Conn.EncoderUpdate (Some d))
                       (if 0 <? o_custom_fps o then Conn.emit (Conn.QosCustomFps (u32 (o_custom_fps o)))
                          (Conn.opt_image_quality o w) else Conn.opt_image_quality o w)
         | None => if 0 <? o_custom_fps o then Conn.emit (Conn.QosCustomFps (u32 (o_custom_fps o)))
                     (Conn.opt_image_quality o w) else Conn.opt_image_quality o w
         end) = flags w.
Proof. unfold Conn.opt_image_quality. repeat case_match; done. Qed.

Lemma flags_block_privacy o w : flags (Conn.opt_block_input o (Conn.opt_privacy_mode o w)) = flags w.
Proof.
  unfold Conn.opt_block_input. set (w1 := Conn.opt_privacy_mode o w).
  assert (flags w1 = flags w) as <-; [|repeat case_match; done].
  unfold w1, Conn.opt_privacy_mode. repeat case_match; done.
Qed.

Lemma flags_update_options e o w : flags (Conn.update_options e o w) = apply_options o (flags w).
Proof.
  unfold Conn.update_options.
  rewrite (flags_when_set fl_my_cursor (fun b x => x <| fl_my_cursor := b |>)); [|..|done].
  2:{ intros [] v; unfold Conn.opt_show_my_cursor; by destruct (Conn.whiteboard_supported e). }
  rewrite (flags_when_set fl_lock (fun b x => x) (o_terminal_persistent o)) by done.
  rewrite flags_block_privacy.
  rewrite (flags_when_set fl_no_keyboard (fun b x => x <| fl_no_keyboard := b |>)) by done.
  rewrite (flags_when_set fl_no_clipboard (fun b x => x <| fl_no_clipboard := b |>)) by done.
  rewrite (flags_when_set fl_files (fun b x => x <| fl_files := b |>)); [|by intros []|done].
  rewrite (flags_when_set fl_no_audio (fun b x => x <| fl_no_audio := b |>)); [|..|done].
  2:{ intros b v. unfold Conn.subscribe_audio. repeat case_match; done. }
  rewrite (flags_when_set fl_follow_window (fun b x => x <| fl_follow_window := b |>)) by done.
  rewrite (flags_when_set fl_follow_cursor (fun b x => x <| fl_follow_cursor := b |>)) by done.
  rewrite (flags_when_set fl_cursor (fun b x => x <| fl_cursor := b |>)) by done.
  rewrite (flags_when_set fl_lock (fun b x => x <| fl_lock := b |>)) by done.
  rewrite flags_quality. reflexivity.
Qed.

(** ** The controlling side *)

(** What the settings ask of the peer. *)
Definition expected (c : PeerConfig) : Flags :=
  let v := view_only c in
  mkFlags (negb v && lock_after_session_end c) (v || show_remote_cursor c) (follow_remote_cursor c)
    (follow_remote_window c) (disable_audio c) (negb v && enable_file_copy_paste c) (v || disable_clipboard c)
    v (v && show_my_cursor c).

Definition no_flags : Flags := mkFlags false false false false false false false false false.

(** The options of this side that are greyed out while the session is, or is
    not, view-only. *)
Definition offered (name : string) (c : PeerConfig) : bool :=
  if view_only c
  then negb (existsb (String.eqb name)
         ["show-remote-cursor"; "disable-clipboard"; "enable-file-copy-paste"; "lock-after-session-end"])
  else negb (String.eqb name "show-my-cursor").

(** The switches that were toggled while they were greyed out, since view-only
    was last switched.  (The menus toggle them all the same: so do those that
    follow the remote cursor with [show-remote-cursor].) *)
Definition loose (name : string) (c : PeerConfig) (l : list string) : list string :=
  if String.eqb name "view-only" then [] else if offered name c then l else name :: l.

Definition is_loose (name : string) (l : list string) : bool := existsb (String.eqb name) l.

(** The values of the settings, whether the session is view-only or not. *)
Definition asked (c : PeerConfig) : Flags :=
  mkFlags (lock_after_session_end c) (show_remote_cursor c) (follow_remote_cursor c) (follow_remote_window c)
    (disable_audio c) (enable_file_copy_paste c) (disable_clipboard c) (view_only c) (show_my_cursor c).

(** The loose switches of [x], the others of [y]. *)
Definition mix (l : list string) (x y : Flags) : Flags :=
  let pick name (get : Flags -> bool) := if is_loose name l then get x else get y in
  mkFlags (pick "lock-after-session-end" fl_lock) (pick "show-remote-cursor" fl_cursor) (fl_follow_cursor y)
    (fl_follow_window y) (fl_no_audio y) (pick "enable-file-copy-paste" fl_files)
    (pick "disable-clipboard" fl_no_clipboard) (fl_no_keyboard y) (pick "show-my-cursor" fl_my_cursor).

Definition actual (l : list string) (c : PeerConfig) : Flags := mix l (asked c) (expected c).

(** The own cursor is shown in view-only sessions only. *)
Definition cursor_ok (c : PeerConfig) : Prop := show_my_cursor c = true -> view_only c = true.
Definition cursor_known (l : list string) (c : PeerConfig) : Prop := is_loose "show-my-cursor" l = true \/ cursor_ok c.

Lemma get_disable_clipboard l : get_toggle_option "disable-clipboard" l = disable_clipboard (config l).
Proof. reflexivity. Qed.
Lemma get_show_remote_cursor l : get_toggle_option "show-remote-cursor" l = show_remote_cursor (config l).
Proof. reflexivity. Qed.

Lemma toggle_known_flags name l c k :
  config l = c -> cursor_known k c ->
  match toggle_known name l c with
  | Some (c', o) => apply_options o (actual k c) = actual (loose name c k) c' /\ cursor_known (loose name c k) c'
  | None => loose name c k = k
  end.
Proof.
  intros Hl Hok. unfold toggle_known.
  repeat (match goal with
  | |- context [if String.eqb name ?s then _ else _] =>
    destruct (String.eqb_spec name s) as [E|?N]; [subst name|]
  end).
  all: rewrite ?(get_disable_clipboard l), ?(get_show_remote_cursor l), ?Hl.
  all: try (unfold loose, offered; cbn [existsb];
            repeat match goal with H : ?n <> ?s |- _ => rewrite (proj2 (String.eqb_neq n s) H); clear H end;
            by destruct (view_only c)).
  all: assert (E : forall n, is_loose n [] = false) by done.
  all: assert (E' : forall n x, is_loose n (x :: k) = String.eqb n x || is_loose n k) by done.
  all: unfold loose, offered, actual, mix, asked, expected, apply_options, cursor_known, cursor_ok, set_field in *;
       clear Hl; destruct (view_only c) eqn:Hv; cbn [existsb negb].
  all: repeat match goal with |- context [String.eqb ?a ?b] =>
         let v := eval vm_compute in (String.eqb a b) in change (String.eqb a b) with v end.
  all: cbn [orb negb]; rewrite ?E, ?E'.
  all: repeat match goal with |- context [String.eqb ?a ?b] =>
         let v := eval vm_compute in (String.eqb a b) in change (String.eqb a b) with v end.
  all: clear E E'; revert Hok; repeat match goal with |- context [is_loose ?n ?l] => is_var l; generalize (is_loose n l) end; intros.
  all: destruct c as []; cbn in *; subst.
  all: repeat match goal with
       | |- match ?t with Some _ => _ | None => _ end =>
         match t with context [match ?x with true => _ | false => _ end] => is_var x; destruct x; cbn in * end
       end.
  all: split; [f_equal; try reflexivity|]; try assumption; try (by left); try (right; discriminate).
  all: repeat match goal with |- context [match ?x with true => _ | false => _ end] => is_var x; destruct x end;
       try (match goal with |- context [negb ?x] => destruct x end); try reflexivity.
  all: try (match goal with H : _ \/ (?x = true -> _) |- _ => destruct x; intuition congruence end).
Qed.

(** Toggling changes switches only. *)
Lemma toggle_known_normal r name l c :
  normal r c -> match toggle_known name l c with Some (c', _) => normal r c' | None => True end.
Proof.
  intros []. unfold toggle_known.
  repeat (match goal with |- context [if ?b then _ else _] => destruct b end); try split; done.
Qed.

(** The two names that are not stored change nothing. *)
Lemma toggle_known_block name l c : contains_str "block-input" name = true ->
  match toggle_known name l c with Some (c', _) => c' = c | None => True end.
Proof.
  intros H. unfold toggle_known.
  repeat (match goal with
  | |- context [if String.eqb name ?s then _ else _] =>
    destruct (String.eqb_spec name s) as [E|_]; [subst name; try discriminate H|]
  end); done.
Qed.

Section Agree.
Context `{SB : SecretBox} `{B64 : Base64} `{F : F64Text}.
Context {SBL : SecretBoxLaws SB} {B64L : Base64Laws B64} {FL : F64TextLaws F}.
Context (get_uuid : list Z) (ds : DisplaySettings).
Hypothesis uuid_bytes : bytes get_uuid.

Abbreviation toggle_option := (toggle_option get_uuid ds).
Abbreviation get_option_message := (get_option_message get_uuid ds).

Lemma toggle_known_storable name l c :
  storable get_uuid c ->
  match toggle_known name l c with Some (c', _) => storable get_uuid c' | None => True end.
Proof using.
  intros H. unfold toggle_known.
  repeat (match goal with |- context [if ?b then _ else _] => destruct b end); try done; exact H.
Qed.

(** The session's copy of the settings is what the file holds, the user's
    defaults were read just now, and the settings can be stored. *)
Record synced (e : ClEnv) (c : Client) : Prop := mkSynced {
  synced_fresh : refresh (fs e) (st c) = st c;
  synced_load : load get_uuid ds (fs e) (id (lc c)) (st c) = (config (lc c), st c);
  synced_storable : storable get_uuid (config (lc c));
  synced_writable : writable (fs e) (path (id (lc c))) = true }.

Lemma synced_normal e c : synced e c -> normal (read ds (st c)) (config (lc c)).
Proof using FL.
  intros [H1 H2 _ _]. pose proof (load_is_normal get_uuid ds (fs e) (id (lc c)) (st c)) as H.
  rewrite H2, H1 in H. exact H.
Qed.

Lemma synced_config e c : synced e c -> load_config get_uuid ds e c = (config (lc c), c).
Proof using. intros [_ H _ _]. unfold load_config. by rewrite H. Qed.

Lemma synced_save e c cfg : synced e c -> normal (read ds (st c)) cfg -> storable get_uuid cfg ->
  synced e (save_config get_uuid e cfg c).
Proof using SBL B64L uuid_bytes.
  intros [H1 H2 H3 H4] Hn Hs.
  assert (refresh (fs e) (store get_uuid (fs e) (id (lc c)) cfg (st c))
          = store get_uuid (fs e) (id (lc c)) cfg (st c)) as Hr.
  { revert H1. unfold refresh, store, set_field. rewrite H4. cbn [USER_DEFAULT_CONFIG files default_file].
    destruct (1000 <? _); [|done]. intros H1. apply (f_equal USER_DEFAULT_CONFIG) in H1.
    by f_equal. }
  split; [exact Hr| |exact Hs|exact H4].
  cbn. rewrite (load_store get_uuid ds uuid_bytes (fs e) (fs e)); [by rewrite Hr|done| |done].
  by rewrite H1.
Qed.

Lemma storable_option c k : storable get_uuid c ->
  storable get_uuid (c <| options := delete k (options c) |>)
  /\ storable get_uuid (c <| options := <[ k := "Y" ]> (options c) |>).
Proof using.
  intros [H1 H2]. split; (split; [exact H1|]); (eapply Forall_impl; [exact H2|]); intros o Ho v;
    unfold set_field; cbn [options].
  - destruct (decide (k = o)) as [->|Hne]; [by rewrite lookup_delete_eq|].
    rewrite lookup_delete_ne by done. apply Ho.
  - destruct (decide (k = o)) as [->|Hne].
    + rewrite lookup_insert_eq. intros [= <-]. split; [reflexivity|]. split; [vm_compute; discriminate|reflexivity].
    + rewrite lookup_insert_ne by done. apply Ho.
Qed.

(** One toggle. *)
Lemma toggle_option_step e name c k : synced e c -> cursor_known k (config (lc c)) ->
  let k' := loose name (config (lc c)) k in
  let '(m, _, c') := toggle_option e name c in
  synced e c' /\ cursor_known k' (config (lc c')) /\ conn_type (lc c') = conn_type (lc c)
  /\ match m with
     | Some o => apply_options o (actual k (config (lc c))) = actual k' (config (lc c'))
     | None => actual k (config (lc c)) = actual k' (config (lc c'))
     end.
Proof using SBL B64L FL uuid_bytes.
  intros Hs Hok k'. unfold k', Client.toggle_option. rewrite synced_config by done.
  pose proof (toggle_known_flags name (lc c) (config (lc c)) k eq_refl Hok) as Hf.
  pose proof (toggle_known_normal _ name (lc c) _ (synced_normal e c Hs)) as Hn.
  pose proof (toggle_known_storable name (lc c) _ (synced_storable e c Hs)) as Hst.
  destruct (toggle_known name (lc c) (config (lc c))) as [[cfg o]|] eqn:E.
  - destruct Hf as [Hf Hok']. destruct (contains_str "block-input" name) eqn:Eb.
    + pose proof (toggle_known_block name (lc c) (config (lc c)) Eb) as Hb. rewrite E in Hb. subst cfg. done.
    + split; [by apply synced_save|]. done.
  - destruct (storable_option (config (lc c)) name (synced_storable e c Hs)) as [Hd Hi].
    pose proof (synced_normal e c Hs) as Hn'.
    rewrite Hf. split; [|done].
    match goal with |- context [if ?b then delete name _ else _] => destruct b end.
    + apply synced_save; [done|by destruct Hn'|exact Hd].
    + apply synced_save; [done|by destruct Hn'|exact Hi].
Qed.

(** The message of a login asks for exactly what the settings say. *)
Lemma login_message_flags e c : conn_type (lc c) = DEFAULT_CONN \/ conn_type (lc c) = VIEW_CAMERA ->
  exists o, fst (get_option_message e true c) = Some o
            /\ apply_options o no_flags = expected (config (lc c)).
Proof using.
  intros Hct. unfold Client.get_option_message.
  set (q := option_quality get_uuid ds e true default_om c).
  assert (config (lc (snd q)) = config (lc c) /\ forall x, apply_options (fst q) x = x) as [Hc Ho].
  { unfold q, option_quality, load_config.
    destruct (get_image_quality_enum _ _); [done|]. destruct (String.eqb _ "custom"); [|done].
    destruct (load _ _ _ _ _) as [cfg st']. cbn [lc st]. by destruct (options _ !! _). }
  destruct q as [o c1]. cbn [fst snd] in Hc, Ho.
  assert (forall l, expected (config l) = mkFlags
    (negb (get_toggle_option "view-only" l) && get_toggle_option "lock-after-session-end" l)
    (get_toggle_option "view-only" l || get_toggle_option "show-remote-cursor" l)
    (get_toggle_option "follow-remote-cursor" l) (get_toggle_option "follow-remote-window" l)
    (get_toggle_option "disable-audio" l)
    (negb (get_toggle_option "view-only" l) && get_toggle_option "enable-file-copy-paste" l)
    (get_toggle_option "view-only" l || get_toggle_option "disable-clipboard" l)
    (get_toggle_option "view-only" l) (get_toggle_option "view-only" l && get_toggle_option "show-my-cursor" l)) as He
    by done.
  assert (forall b, set_by (yes_if b) false = b) as Hy by (by intros []).
  rewrite <-Hc, He. destruct o.
  destruct Hct as [-> | ->]; (eexists; split; [reflexivity|]); unfold apply_options, set_field; cbn -[get_toggle_option set_by yes_if];
    by rewrite !Hy.
Qed.

(** A session on the wire: each toggle's message is handled by the peer. *)
Fixpoint session (e : ClEnv) (se : Conn.Env) (names : list string) (c : Client) (w : Conn.World)
  : Client * Conn.World :=
  match names with
  | [] => (c, w)
  | name :: names =>
    let '(m, _, c) := toggle_option e name c in
    session e se names c (match m with Some o => snd (Conn.on_misc se (Option o) w) | None => w end)
  end.

(** The switches that are loose after some toggles. *)
Fixpoint all_loose (e : ClEnv) (names : list string) (c : Client) (k : list string) : list string :=
  match names with
  | [] => k
  | name :: names => all_loose e names (snd (toggle_option e name c)) (loose name (config (lc c)) k)
  end.

Lemma session_flags e se names c w k :
  synced e c -> cursor_known k (config (lc c)) -> flags w = actual k (config (lc c)) ->
  let '(c', w') := session e se names c w in
  flags w' = actual (all_loose e names c k) (config (lc c')) /\ conn_type (lc c') = conn_type (lc c).
Proof using SBL B64L FL uuid_bytes.
  revert c w k. induction names as [|name names IH]; intros c w k Hs Hok Hw; cbn [session all_loose]; [done|].
  pose proof (toggle_option_step e name c k Hs Hok) as Hstep.
  destruct (toggle_option e name c) as [[m b] c1]. destruct Hstep as (Hs1 & Hok1 & Ht & Hm).
  rewrite <-Ht. apply IH; [done|done|].
  destruct m as [o|]; [|congruence]. cbn [Conn.on_misc snd]. by rewrite flags_update_options, Hw.
Qed.

(** C32. Changing options within a session amounts to logging in with the
    changed options, but for what a view-only session greys out: after a login
    and any sequence of toggles, sent to the peer one by one, the peer's
    switches (lock, cursors, audio, clipboard, files, keyboard) are those a new
    connection gets from the login message of the resulting settings, which
    were stored and reloaded from the peer's file at each step.  The exceptions
    are the switches that were toggled while greyed out, since view-only was
    last switched: they have the values of the settings themselves, so that the
    clipboard or the files can be open to a session that is view-only. *)
Theorem toggles_like_login e se names c w0 :
  synced e c -> cursor_ok (config (lc c)) ->
  conn_type (lc c) = DEFAULT_CONN \/ conn_type (lc c) = VIEW_CAMERA -> flags w0 = no_flags ->
  exists o, fst (Client.get_option_message get_uuid ds e true c) = Some o /\
    let '(c', w') := session e se names c (Conn.update_options se o w0) in
    exists o', fst (Client.get_option_message get_uuid ds e true c') = Some o'
               /\ flags w' = mix (all_loose e names c []) (asked (config (lc c')))
                               (flags (Conn.update_options se o' w0)).
Proof using SBL B64L FL uuid_bytes.
  intros Hs Hok Hct Hw. destruct (login_message_flags e c Hct) as (o & Ho & Hf).
  exists o. split; [done|].
  assert (flags (Conn.update_options se o w0) = actual [] (config (lc c))) as Hw1
    by (by rewrite flags_update_options, Hw).
  pose proof (session_flags e se names c _ [] Hs (or_intror Hok) Hw1) as H.
  destruct (session e se names c (Conn.update_options se o w0)) as [c' w']. destruct H as [H Hct'].
  rewrite <-Hct' in Hct. destruct (login_message_flags e c' Hct) as (o' & Ho' & Hf').
  exists o'. split; [done|]. rewrite flags_update_options, Hw, Hf'. exact H.
Qed.

End Agree.

(** ** A session, to evaluate the theorem *)

Import Vault.

#[local] Existing Instance toy_f64.
#[local] Existing Instance toy_f64_laws.

Definition demo_decoding : SupportedDecoding := mkSupportedDecoding 1 0 0 (Some PC_Auto) 0 0 None (Some I420).

Definition demo_clenv : ClEnv :=
  mkClEnv demo_env (fun l => [len l]) 99 false false false false demo_decoding (fun _ => None) (fun _ => None)
    (fun _ => None) (fun _ => "").

(** The settings of the peer ["1234"], stored and loaded. *)
Definition demo_client : Client :=
  let st := refresh demo_env (store (SB := toy_box) (B64 := toy_b64) [7] demo_env "1234" demo_peer demo_store) in
  mkClient (mkLc "1234" DEFAULT_CONN false [1] [2] [] false demo_peer ("", 0) 0 None 7 false false None false None
              None None None None Undefined None false true) st.

Lemma demo_synced : synced (SB := toy_box) (B64 := toy_b64) [7] demo_ds demo_clenv demo_client.
Proof.
  split; [reflexivity| |exact demo_storable|reflexivity].
  vm_compute. reflexivity.
Qed.

Abbreviation demo_session := (session (SB := toy_box) (B64 := toy_b64) [7] demo_ds demo_clenv Auth.demo_env).
Abbreviation demo_login := (get_option_message (SB := toy_box) (B64 := toy_b64) [7] demo_ds demo_clenv true).
Abbreviation demo_loose := (all_loose (SB := toy_box) (B64 := toy_b64) [7] demo_ds demo_clenv).

(** View-only, its cursor, and back; then no clipboard. *)
Definition demo_toggles : list string := ["view-only"; "show-my-cursor"; "view-only"; "disable-clipboard"; "zoom"].

(** View-only; the clipboard is closed and opened by its menu entry. *)
Definition exposing_toggles : list string := ["view-only"; "disable-clipboard"; "disable-clipboard"].

Lemma demo_is_loose :
  demo_loose demo_toggles demo_client [] = []
  /\ demo_loose exposing_toggles demo_client [] = ["disable-clipboard"; "disable-clipboard"].
Proof. vm_compute. split; reflexivity. Qed.

(** The clipboard of the peer is open to a session that is view-only, which it
    would not be after a new login. *)
Lemma view_only_clipboard_open :
  let w0 := Conn.update_options Auth.demo_env (unwrap_or default_om (demo_login demo_client).1) (Auth.demo_world None) in
  let '(c, w) := demo_session exposing_toggles demo_client w0 in
  view_only (config (lc c)) = true /\ fl_no_clipboard (flags w) = false /\ fl_no_clipboard (expected (config (lc c))) = true.
Proof. vm_compute. repeat split; reflexivity. Qed.

Lemma toggles_like_login_witness :
  exists o, fst (demo_login demo_client) = Some o /\
  let '(c', w') := demo_session (exposing_toggles ++ demo_toggles) demo_client
                     (Conn.update_options Auth.demo_env o (Auth.demo_world None)) in
  exists o', fst (demo_login c') = Some o'
    /\ flags w' = mix (demo_loose (exposing_toggles ++ demo_toggles) demo_client []) (asked (config (lc c')))
                    (flags (Conn.update_options Auth.demo_env o' (Auth.demo_world None))).
Proof.
  apply (@toggles_like_login toy_box toy_b64 toy_f64 toy_box_laws toy_b64_laws toy_f64_laws [7] demo_ds
              ltac:(repeat constructor; unfold is_byte; lia) demo_clenv Auth.demo_env (exposing_toggles ++ demo_toggles)
              demo_client (Auth.demo_world None)).
  - exact demo_synced.
  - discriminate.
  - by left.
  - reflexivity.
Defined.

End ClientOptions.
