(* ===== verification/ClientLogin.v ===== *)
(** * Logging in to a peer ([src/client.rs])

    The controlling side's half of the login: choosing the password that
    answers the peer's challenge, building the login request, the login from
    the dialog, switching sides, and what the answer leads to.  The other half
    is the component [Connection]; the theorems compose the two.

    A handler returns what it shows or sends, in order, and the new state. *)

From S2P Require Import Prelude RustStr SecureStream Password Config NetUtil Messages PeerConfig PeerConfigProofs.
From S2P Require Import Service Server Connection ConnectionAuth ClientConfig ClientOptions.

Module Login.

Import Msg PeerCfg Client.

(** ** The address book *)

Record AbPeer : Type := mkAbPeer { ab_id : string; ab_hash : string }.
Record AbEntry : Type := mkAbEntry { ab_name : string; ab_peers : list AbPeer }.
Record Ab : Type := mkAb { ab_access_token : string; ab_entries : list AbEntry }.

(** [AbEntry::personal] *)
Definition personal (a : AbEntry) : bool :=
  String.eqb (ab_name a) "My address book" || String.eqb (ab_name a) "Legacy address book".

(** ** Surroundings and results *)

Record LoginEnv : Type := mkLoginEnv {
  cl : ClEnv;
  my_id : string;                               (* [Config::get_id()] *)
  rendezvous_server : string;
  builtin_display_name : string;
  user_info_name : string;                      (* of the account, if any *)
  os_user : string;                             (* [crate::username()] *)
  char_upper : string -> string;                (* [char::to_uppercase] of one character *)
  my_platform : string;
  my_version : string;
  get_hwid : list Z;
  uuid_from_str : string -> option (list Z);
  default_connect_password : string;            (* a built-in option *)
  access_token : string;                        (* a local option *)
  ab : Ab }.

Inductive ClOut : Type :=
| MsgBox (msgtype title text link : string)
| ToPeer (m : Message).

(** ** The display name *)

Definition white_prefix (s : string) : option nat :=
  match find (fun p => starts_with p s) WHITE_SPACE with Some p => Some (String.length p) | None => None end.

Definition push_word (word : string) (l : list string) : list string :=
  if String.eqb word "" then l else word :: l.

(** [str::split_whitespace]; [fuel] is a bound on the number of bytes. *)
Fixpoint split_whitespace_n (fuel : nat) (word s : string) : list string :=
  match fuel, s with
  | S fuel, String c r =>
    match white_prefix s with
    | Some n => push_word word (split_whitespace_n fuel "" (String.substring n (String.length s) s))
    | None => split_whitespace_n fuel (word +:+ String c "") r
    end
  | _, _ => push_word word []
  end.
Definition split_whitespace (s : string) : list string := split_whitespace_n (String.length s) "" s.

(** Bytes of the first character of a text. *)
Definition char_len (s : string) : nat :=
  match Config.str_bytes s with
  | [] => 0
  | b :: r => match Utf8.first_char b r with inl n | inr n => n end
  end.

Definition capitalize (e : LoginEnv) (w : string) : string :=
  char_upper e (String.substring 0 (char_len w) w) +:+ String.substring (char_len w) (String.length w) w.

Definition display_name (e : LoginEnv) : string :=
  let n := builtin_display_name e in
  let n := if String.eqb n "" then user_info_name e else n in
  let n := if String.eqb n "" then os_user e else n in
  String.concat " " (map (capitalize e) (split_whitespace n)).

Section Login.
Context `{SB : SecretBox} `{B64 : Base64} `{F : F64Text}.
Context (get_uuid : list Z) (ds : DisplaySettings).

(** ** [create_login_msg] *)

Definition login_union (e : LoginEnv) (l : Lc) : option LoginUnion :=
  match conn_type l with
  | FILE_TRANSFER =>
    Some (LFileTransfer (get_remote_dir (cl e) l) (negb (String.eqb (get_option "remote_show_hidden" l) "")))
  | VIEW_CAMERA => Some LViewCamera
  | PORT_FORWARD | RDP => Some (LPortForward (mkPortForward (fst (port_forward l)) (snd (port_forward l))))
  | TERMINAL => Some (LTerminal (get_option (get_key_terminal_service_id l) l))
  | DEFAULT_CONN => None
  end.

Definition create_login_msg (e : LoginEnv) (os_username os_password : string) (password : list Z) (c : Client)
  : LoginRequest * Client :=
  let '(my_id, pure_id) :=
    match other_server (lc c) with
    | Some (i, _, _) => (my_id e +:+ "@" +:+ rendezvous_server e, i)
    | None => (my_id e, id (lc c))
    end in
  let hwid := if String.eqb (get_option "trust-this-device" (lc c)) "Y" then get_hwid e else [] in
  let '(option, c) := get_option_message get_uuid ds (cl e) true c in
  (mkLoginRequest pure_id password my_id (display_name e) option (login_union e (lc c)) false
     (session_id (lc c)) (my_version e) (Some (mkOSLogin os_username os_password)) (my_platform e) hwid, c).

Definition send_login (e : LoginEnv) (os_username os_password : string) (password : list Z) (c : Client)
  : list ClOut * Client :=
  let '(r, c) := create_login_msg e os_username os_password password c in ([ToPeer (MLoginRequest r)], c).

Definition send_switch_login_request (e : LoginEnv) (uuid : list Z) (c : Client) : list ClOut * Client :=
  let '(r, c) := create_login_msg e "" "" [] c in ([ToPeer (MSwitchSidesResponse uuid (Some r))], c).

(** ** Choosing the password *)

Definition upd_lc (f : Lc -> Lc) (c : Client) : Client := c <| lc := f (lc c) |>.

Definition salted (e : LoginEnv) (p : string) (salt : list Z) : list Z :=
  sha256 (cl e) (Config.str_bytes p ++ salt).

(** The hash a personal address book holds for the peer. *)
Definition personal_ab_hash (e : LoginEnv) (peer : string) : option (list Z) :=
  if negb (String.eqb (access_token e) "") && String.eqb (access_token e) (ab_access_token (ab e)) then
    a ← find personal (ab_entries (ab e));
    p ← find (fun p => String.eqb (ab_id p) peer) (ab_peers a);
    h ← b64_decode (Config.str_bytes (ab_hash p));
    match h with [] => None | _ => Some h end
  else None.

(** The first source in the order of [handle_hash] that has one: the last
    password or the one given with the command, then the shared one (which
    replaces them), the stored one, the address book, the built-in one. *)
Definition choose_password (e : LoginEnv) (preset : string) (c : Client) : list Z * Client :=
  let l := lc c in
  let '(pw, src) :=
    match lc_password l with
    | [] => if negb (String.eqb preset "") then (salted e preset (salt l), Undefined) else ([], password_source l)
    | p => (p, password_source l)
    end in
  let '(pw, src) :=
    match shared_password l with
    | Some p => if negb (String.eqb p "") then (salted e p (salt l), SharedAb p) else (pw, src)
    | None => (pw, src)
    end in
  let '(pw, src) :=
    match pw with
    | [] => match password (config l) with [] => ([], src) | p => (p, Undefined) end
    | _ => (pw, src)
    end in
  let '(pw, src) :=
    match pw with
    | [] => match personal_ab_hash e (id l) with Some h => (h, PersonalAb h) | None => ([], src) end
    | _ => (pw, src)
    end in
  let '(pw, src) :=
    match pw with
    | [] => let p := default_connect_password e in
            if negb (String.eqb p "") then (salted e p (salt l), SharedAb p) else ([], src)
    | _ => (pw, src)
    end in
  (pw, c <| lc := l <| shared_password := None |> <| password_source := src |> |>).

(** What answers the challenge. *)
Definition answer (e : LoginEnv) (pw : list Z) (challenge : list Z) : list Z := sha256 (cl e) (pw ++ challenge).

Definition handle_hash (e : LoginEnv) (preset : string) (salt_ challenge_ : list Z) (c : Client)
  : list ClOut * Client :=
  let c := upd_lc (fun l => l <| salt := salt_ |> <| challenge := challenge_ |>) c in
  let uuid := switch_uuid (lc c) in
  let c := upd_lc (fun l => l <| switch_uuid := None |>) c in
  match match uuid with Some u => uuid_from_str e u | None => None end with
  | Some u =>
    let '(out, c) := send_switch_login_request e u c in
    (out, upd_lc (fun l => l <| password_source := Undefined |>) c)
  | None =>
    let '(pw, c) := choose_password e preset c in
    let c := upd_lc (fun l => l <| lc_password := pw |>) c in
    let empty := bool_decide (pw = []) in
    if bool_decide (conn_type (lc c) = TERMINAL) && is_terminal_admin (lc c) then
      ([MsgBox (if empty then "terminal-admin-login-password" else "terminal-admin-login") "" "" ""], c)
    else
      let box := if empty then [MsgBox "input-password" "Password Required" "" ""] else [] in
      let pw := if empty then [] else answer e pw challenge_ in
      let '(os_username, os_password) :=
        if bool_decide (conn_type (lc c) = TERMINAL) then ("", "")
        else (get_option "os-username" (lc c), get_option "os-password" (lc c)) in
      let '(out, c) := send_login e os_username os_password pw c in
      (box ++ out, c)
  end.

(** ** Login from the dialog *)

Definition handle_login_from_ui (e : LoginEnv) (os_username os_password password_ : string) (remember_ : bool)
  (c : Client) : list ClOut * Client :=
  let '(pw, c) :=
    if String.eqb password_ "" then
      match lc_password (lc c) with
      | [] => match password (config (lc c)) with
              | [] => ([], c)
              | p => (p, upd_lc (fun l => l <| password_source := Undefined |>) c)
              end
      | p => (p, c)
      end
    else (salted e password_ (salt (lc c)),
          upd_lc (fun l => l <| password_source := Undefined |> <| remember := remember_ |>) c) in
  let c := upd_lc (fun l => l <| lc_password := pw |>) c in
  send_login e os_username os_password (answer e pw (challenge (lc c))) c.

(** ** Login errors *)

Record LoginErrorMsgBox : Type := mkLoginErrorMsgBox {
  le_msgtype : string; le_title : string; le_text : string; le_link : string; try_again : bool }.

Definition LINK_HEADLESS : string := "https://github.com/rustdesk/rustdesk/wiki/Headless-Linux-Support".

Definition LOGIN_ERROR_MAP : list (string * LoginErrorMsgBox) :=
  [("Wayland login screen is not supported",
    mkLoginErrorMsgBox "error" "Login Error" "Login screen using Wayland is not supported"
      "https://rustdesk.com/docs/en/manual/linux/#login-screen" true);
   (Conn.LOGIN_MSG_DESKTOP_SESSION_NOT_READY, mkLoginErrorMsgBox "session-login" "" "" "" true);
   ("Desktop xsession failed", mkLoginErrorMsgBox "session-re-login" "" "" "" true);
   ("Desktop session another user login",
    mkLoginErrorMsgBox "info-nocancel" "another_user_login_title_tip" "another_user_login_text_tip" "" false);
   ("Desktop xorg not found",
    mkLoginErrorMsgBox "info-nocancel" "xorg_not_found_title_tip" "xorg_not_found_text_tip" LINK_HEADLESS true);
   ("Desktop none",
    mkLoginErrorMsgBox "info-nocancel" "no_desktop_title_tip" "no_desktop_text_tip" LINK_HEADLESS true);
   (Conn.LOGIN_MSG_DESKTOP_SESSION_NOT_READY_PASSWORD_EMPTY,
    mkLoginErrorMsgBox "session-login-password" "" "" "" true);
   (Conn.LOGIN_MSG_DESKTOP_SESSION_NOT_READY_PASSWORD_WRONG,
    mkLoginErrorMsgBox "session-login-re-password" "" "" "" true);
   (Conn.LOGIN_MSG_NO_PASSWORD_ACCESS,
    mkLoginErrorMsgBox "wait-remote-accept-nook" "Prompt"
      "Please wait for the remote side to accept your session request..." "" true)].

Definition SCRAP_X11_REQUIRED : string := "x11 expected".
Definition SCRAP_X11_REF_URL : string := "https://rustdesk.com/docs/en/manual/linux/#x11-required".

(** The answer of [handle_login_error]: the box, whether the session waits
    for another attempt, and the state. *)
Definition handle_login_error (e : LoginEnv) (err : string) (c : Client) : list ClOut * bool * Client :=
  if String.eqb err "Empty Password" then
    ([MsgBox "input-password" "Password Required" "" ""], true, upd_lc (fun l => l <| lc_password := [] |>) c)
  else if String.eqb err Conn.LOGIN_MSG_PASSWORD_WRONG then
    ([MsgBox "re-input-password" err "Do you want to enter again?" ""], true,
     upd_lc (fun l => l <| lc_password := [] |>) c)
  else if String.eqb err Conn.LOGIN_MSG_2FA_WRONG || String.eqb err Conn.REQUIRE_2FA then
    let c := if String.eqb (get_option "trust-this-device" (lc c)) "Y"
             then set_option get_uuid ds (cl e) "trust-this-device" "" c else c in
    ([MsgBox "input-2fa" err "" ""], true, c)
  else
    match find (fun kv => String.eqb (fst kv) err) LOGIN_ERROR_MAP with
    | Some (_, b) => ([MsgBox (le_msgtype b) (le_title b) (le_text b) (le_link b)], try_again b, c)
    | None =>
      ([MsgBox "error" "Login Error" err (if contains_str SCRAP_X11_REQUIRED err then SCRAP_X11_REF_URL else "")],
       false, c)
    end.

(** ** Whether a closed connection is retried *)

Definition check_if_retry (use_ws : bool) (msgtype title text : string) (retry_for_relay : bool) : bool :=
  let low := to_lowercase text in
  String.eqb msgtype "error" && String.eqb title "Connection Error"
  && ((contains_str "10054" text || contains_str "104" text) && retry_for_relay
      || (negb (contains_str "offline" low) && negb (contains_str "not exist" low)
          && (negb (contains_str "handshake" low)
              || contains_str "connection reset without closing handshake" low && use_ws)
          && negb (contains_str "failed" low) && negb (contains_str "resolve" low)
          && negb (contains_str "mismatch" low) && negb (contains_str "manually" low)
          && negb (contains_str "not allowed" low))).

(** [Interface::on_establish_connection_error] on Linux with the Flutter
    interface; [errno] is the last error of the system. *)
Definition on_establish_connection_error (errno : Z) (err : string) (l : Lc) : ClOut :=
  let hint := bool_decide (direct l = Some true)
              && ((errno =? 104) || contains_str "104" err
                  || negb (contains_str "Failed" err) && contains_str "deadline" err) in
  if hint then MsgBox (if received l then "relay-hint" else "relay-hint2") "Connection Error" err ""
  else MsgBox "error" "Connection Error" err "".

End Login.
End Login.
