(* ===== verification/ClientLoginProofs.v ===== *)
(** * Facts about logging in

    - the controlled side accepts the right answer to its challenge
      ([password_login_grants]), the converse direction of
      [Auth.authorized_has_evidence];
    - which password [handle_hash] answers with, and that the answer lets the
      session in;
    - a password that was remembered lets the next session in. *)

From S2P Require Import Prelude RustStr SecureStream Password Config NetUtil Messages PeerConfig PeerConfigProofs.
From S2P Require Import Service Server Connection ConnectionAuth ClientConfig ClientOptions ClientLogin.

Module LoginFacts.

Import Msg PeerCfg PeerCfgFacts Client Login.

(** ** The controlled side *)

(** A password this machine accepts at the moment. *)
Definition accepted (se : Conn.Env) (pw : list Z) : Prop :=
  pw <> [] /\
  ((Config.temporary_enabled (Conn.get_option se) = true /\ pw = Conn.temporary_password se)
   \/ (Config.permanent_enabled (Conn.get_option se) = true /\ pw = Conn.permanent_password se)).

(** A machine that waits for a password: its desktop is ready, nobody has
    turned on privacy mode, a click alone does not decide, and the address of
    the peer has no failed attempts to make up for. *)
Record ready (se : Conn.Env) (w : Conn.World) : Prop := mkReady {
  ready_2fa : Conn.require_2fa (Conn.conn w) = None;
  ready_desktop : forall os, Conn.try_start_desktop se os = "";
  ready_privacy : Conn.is_in_privacy_mode se = false;
  ready_click : Conn.click_only se = false;
  ready_failures : exists f,
    Conn.check_failure (Conn.ip (Conn.conn w)) (Conn.minute se) (Conn.failures 0 (Conn.glob w)) = (f, None) }.

Lemma validates se c pw : pw <> [] ->
  lr_password (Conn.lr c) = Conn.sha256 se (Conn.sha256 se (pw ++ Conn.salt c) ++ Conn.challenge c) ->
  Conn.validate_one_password se c pw = true.
Proof.
  intros Hne H. unfold Conn.validate_one_password. destruct pw; [done|]. by apply bool_decide_eq_true.
Qed.

Lemma validate_password_accepts se w pw : accepted se pw ->
  lr_password (Conn.lr (Conn.conn w))
    = Conn.sha256 se (Conn.sha256 se (pw ++ Conn.salt (Conn.conn w)) ++ Conn.challenge (Conn.conn w)) ->
  exists w', Conn.validate_password se w = (true, w') /\ Conn.conn w' = Conn.conn w.
Proof.
  intros [Hne Ha] Hpw. unfold Conn.validate_password.
  pose proof (validates se (Conn.conn w) pw Hne Hpw) as Hv.
  destruct Ha as [[Hen ->]|[Hen ->]].
  - rewrite Hen, Hv. by eexists.
  - destruct (Config.temporary_enabled _ && _); [by eexists|]. rewrite Hen, Hv. by eexists.
Qed.

Lemma login_password_grants se r w pw f : accepted se pw -> Conn.require_2fa (Conn.conn w) = None ->
  lr_password (Conn.lr (Conn.conn w))
    = Conn.sha256 se (Conn.sha256 se (pw ++ Conn.salt (Conn.conn w)) ++ Conn.challenge (Conn.conn w)) ->
  Conn.check_failure (Conn.ip (Conn.conn w)) (Conn.minute se) (Conn.failures 0 (Conn.glob w)) = (f, None) ->
  let '(go_on, w') := Conn.login_password se r "" w in
  go_on = true /\ Conn.authorized (Conn.conn w') = true.
Proof.
  intros Ha H2 Hpw Hf. unfold Conn.login_password, Conn.check_failure_w. rewrite Hf. cbn [negb String.eqb].
  destruct (validate_password_accepts se w pw Ha Hpw) as (w1 & -> & Hc). cbn [negb].
  split; [done|]. rewrite Auth.authorized_try_start_cm. apply Auth.send_logon_response_grants.
  change (Conn.require_2fa (Conn.conn w1) = None). by rewrite Hc.
Qed.

(** The state [w1] in which the request [r] is judged, compared with [w]. *)
Definition attempt (r : LoginRequest) (w w1 : Conn.World) : Prop :=
  Conn.lr (Conn.conn w1) = r /\ Conn.salt (Conn.conn w1) = Conn.salt (Conn.conn w)
  /\ Conn.challenge (Conn.conn w1) = Conn.challenge (Conn.conn w)
  /\ (Conn.require_2fa (Conn.conn w) = None -> Conn.require_2fa (Conn.conn w1) = None)
  /\ Conn.ip (Conn.conn w1) = Conn.ip (Conn.conn w)
  /\ Conn.failures 0 (Conn.glob w1) = Conn.failures 0 (Conn.glob w).

(** The right answer to the challenge, with the id of the machine, opens a
    remote session. *)
Lemma password_login_grants se r w pw : ready se w -> accepted se pw ->
  lr_union r = None -> Config.str_bytes (lr_username r) = Conn.get_id se ->
  lr_password r = Conn.sha256 se (Conn.sha256 se (pw ++ Conn.salt (Conn.conn w)) ++ Conn.challenge (Conn.conn w)) ->
  lr_password r <> [] ->
  let '(go_on, w') := Conn.on_message se (MLoginRequest r) w in
  go_on = true /\ Conn.authorized (Conn.conn w') = true.
Proof.
  intros [H2 Hd Hp Hc [f Hf]] Ha Hu Hid Hpw Hne. cbn [Conn.on_message]. unfold Conn.on_login_request.
  set (w1 := Conn.handle_login_request_without_validation se r w).
  assert (attempt r w w1) as Hw1.
  { unfold w1, attempt, Conn.handle_login_request_without_validation.
    destruct (lr_option r); case_match; done. }
  clearbody w1. destruct (Conn.authorized (Conn.conn w1)) eqn:Ea; [done|].
  unfold Conn.login_kind. rewrite Hu. unfold Conn.check_privacy_mode_on. rewrite Hp. cbn [negb].
  set (w2 := Conn.try_start_cm_ipc w1).
  assert (attempt r w w2) as (Hr & Hs & Hch & H2' & Hip & Hfl).
  { unfold w2, attempt, Conn.try_start_cm_ipc. by destruct (Conn.start_cm_ipc_para (Conn.conn w1)). }
  clearbody w2. rewrite Hd. cbn [String.eqb negb andb].
  rewrite (bool_decide_true _ Hid). rewrite !andb_false_r. rewrite Hc.
  destruct (Conn.is_recent_session se false w2) as [recent w3] eqn:Er.
  assert (Conn.conn w3 = Conn.conn w2) as Hc3.
  { pose proof (Auth.is_recent_session_conn se false w2) as H. by rewrite Er in H. }
  assert (Conn.LOGIN_FAILURES (Conn.glob w3) = Conn.LOGIN_FAILURES (Conn.glob w2)) as Hg3.
  { revert Er. unfold Conn.is_recent_session.
    destruct (Conn.SESSIONS _ !! _); intros [= _ <-]; done. }
  destruct recent.
  - split; [done|]. rewrite Auth.authorized_try_start_cm. apply Auth.send_logon_response_grants.
    rewrite Hc3. by apply H2'.
  - rewrite (bool_decide_false _ Hne). apply (login_password_grants se r w3 pw f); [done|rewrite Hc3; by apply H2'|..].
    + rewrite Hc3, Hr, Hs, Hch. exact Hpw.
    + rewrite Hc3, Hip. unfold Conn.failures in *. rewrite Hg3. by rewrite Hfl.
Qed.

(** ** The controlling side *)

Section Client.
Context `{SB : SecretBox} `{B64 : Base64} `{F : F64Text}.
Context {SBL : SecretBoxLaws SB} {B64L : Base64Laws B64} {FL : F64TextLaws F}.
Context (get_uuid : list Z) (ds : DisplaySettings).
Hypothesis uuid_bytes : bytes get_uuid.

(** SHA-256 has 32 bytes of output. *)
Definition sha256_ok (sha : list Z -> list Z) : Prop := forall x, length (sha x) = 32%nat.

Definition first_nonempty (l : list (list Z)) : list Z :=
  match filter (fun x => x <> []) l with x :: _ => x | [] => [] end.

Definition hashed (e : LoginEnv) (salt : list Z) (p : string) : list Z :=
  if String.eqb p "" then [] else salted e p salt.

(** The candidates in their order. *)
Definition candidates (e : LoginEnv) (preset : string) (l : Lc) : list (list Z) :=
  [hashed e (salt l) (unwrap_or "" (shared_password l)); lc_password l; hashed e (salt l) preset;
   password (config l); unwrap_or [] (personal_ab_hash e (id l)); hashed e (salt l) (default_connect_password e)].

Lemma first_nonempty_cons x l : first_nonempty (x :: l) = match x with [] => first_nonempty l | _ => x end.
Proof. unfold first_nonempty. by destruct x. Qed.

Lemma hashed_cases e s p : sha256_ok (sha256 (cl e)) ->
  (p = "" /\ hashed e s p = []) \/ (p <> "" /\ hashed e s p = salted e p s /\ salted e p s <> []).
Proof.
  intros Hs. unfold hashed. destruct (String.eqb_spec p ""); [by left|]. right. split; [done|]. split; [done|].
  unfold salted. intros H. pose proof (Hs (Config.str_bytes p ++ s)) as Hl. by rewrite H in Hl.
Qed.

Lemma personal_ab_hash_nonempty e i h : personal_ab_hash e i = Some h -> h <> [].
Proof.
  unfold personal_ab_hash. destruct (negb _ && _); [|done]. destruct (find personal _); [|done].
  cbn [mbind option_bind]. destruct (find _ _); [|done]. cbn [mbind option_bind].
  destruct (b64_decode _) as [[|]|]; try done. by intros [= <-].
Qed.

Lemma salted_cons e p s : sha256_ok (sha256 (cl e)) -> exists b r, salted e p s = b :: r.
Proof.
  intros Hs. unfold salted. pose proof (Hs (Config.str_bytes p ++ s)) as Hl.
  destruct (sha256 _ _) as [|b r]; [done|]. eauto.
Qed.

Lemma choose_password_order e preset c : sha256_ok (sha256 (cl e)) ->
  fst (choose_password e preset c) = first_nonempty (candidates e preset (lc c)).
Proof using.
  intros Hs. unfold choose_password, candidates, hashed. rewrite !first_nonempty_cons.
  pose proof (personal_ab_hash_nonempty e (id (lc c))) as Hab.
  destruct (salted_cons e preset (salt (lc c)) Hs) as (b1 & r1 & H1).
  destruct (salted_cons e (default_connect_password e) (salt (lc c)) Hs) as (b2 & r2 & H2).
  destruct (lc_password (lc c)) as [|b r]; destruct (shared_password (lc c)) as [p|]; cbn [unwrap_or];
    try (destruct (salted_cons e p (salt (lc c)) Hs) as (b3 & r3 & H3); destruct (String.eqb p ""));
    cbn; rewrite ?H3; try done; destruct (String.eqb preset ""); cbn; rewrite ?H1; try done;
    destruct (password (config (lc c))); cbn; try done;
    destruct (personal_ab_hash e (id (lc c))) as [[|]|]; cbn; try done;
    try (by destruct (Hab [] eq_refl)); destruct (String.eqb (default_connect_password e) ""); cbn; by rewrite ?H2.
Qed.

(** Choosing a password leaves everything alone but the password's source
    and the shared password. *)
Lemma choose_password_frame e preset c :
  let c' := snd (choose_password e preset c) in
  st c' = st c /\ lc c' = (lc c) <| shared_password := None |> <| password_source := password_source (lc c') |>.
Proof using.
  cbv zeta. unfold choose_password. repeat case_match; simplify_eq; done.
Qed.

Lemma get_option_message_frame e c :
  lc (snd (get_option_message get_uuid ds e true c))
  = (lc c) <| custom_fps := custom_fps (lc (snd (get_option_message get_uuid ds e true c))) |>.
Proof using.
  assert (forall o, lc (snd (option_quality get_uuid ds e true o c))
            = (lc c) <| custom_fps := custom_fps (lc (snd (option_quality get_uuid ds e true o c))) |>) as Hq.
  { intros o. unfold option_quality, load_config. destruct (get_image_quality_enum _ _); [done|].
    destruct (String.eqb _ "custom"); [|done]. destruct (load _ _ _ _ _) as [cfg st'].
    cbn [lc st set_field]. by destruct (options _ !! _). }
  unfold get_option_message. specialize (Hq default_om).
  destruct (option_quality get_uuid ds e true default_om c) as [o c1].
  destruct (conn_type (lc c)); try done. by destruct (get_toggle_option _ _).
Qed.

(** The state in which [handle_hash] chooses the password. *)
Definition challenged (salt_ challenge_ : list Z) (c : Client) : Client :=
  upd_lc (fun l => l <| switch_uuid := None |>)
    (upd_lc (fun l => l <| salt := salt_ |> <| challenge := challenge_ |>) c).

Lemma handle_hash_sends e preset s ch c : sha256_ok (sha256 (cl e)) ->
  switch_uuid (lc c) = None -> conn_type (lc c) = DEFAULT_CONN ->
  let pw := first_nonempty (candidates e preset (lc (challenged s ch c))) in
  pw <> [] ->
  exists r c', handle_hash get_uuid ds e preset s ch c = ([ToPeer (MLoginRequest r)], c')
    /\ lr_password r = answer e pw ch /\ lr_union r = None
    /\ lr_username r = match other_server (lc c) with Some (i, _, _) => i | None => id (lc c) end
    /\ lc_password (lc c') = pw.
Proof using.
  intros Hsha Hu Hct pw Hpw. unfold handle_hash.
  change (switch_uuid (lc (upd_lc (fun l => l <| salt := s |> <| challenge := ch |>) c))) with (switch_uuid (lc c)).
  rewrite Hu. fold (challenged s ch c).
  pose proof (choose_password_order e preset (challenged s ch c) Hsha) as Ho.
  pose proof (choose_password_frame e preset (challenged s ch c)) as [_ Hf].
  destruct (choose_password e preset (challenged s ch c)) as [pw' c1]. cbn [fst snd] in Ho, Hf.
  subst pw'. fold pw.
  assert (conn_type (lc (upd_lc (fun l => l <| lc_password := pw |>) c1)) = DEFAULT_CONN) as Hct1
    by (cbn; by rewrite Hf).
  rewrite Hct1. rewrite bool_decide_false by done. cbn [andb]. rewrite (bool_decide_false _ Hpw).
  unfold send_login, create_login_msg.
  set (c2 := upd_lc _ c1) in *.
  pose proof (get_option_message_frame (cl e) c2) as Hg.
  destruct (get_option_message get_uuid ds (cl e) true c2) as [om c3] eqn:Eg. cbn [snd] in Hg.
  assert (conn_type (lc c3) = DEFAULT_CONN) as Hct3 by (rewrite Hg; exact Hct1).
  assert (other_server (lc c2) = other_server (lc c) /\ id (lc c2) = id (lc c)) as [Hos Hid]
    by (unfold c2; cbn; by rewrite Hf).
  rewrite Hos. destruct (other_server (lc c)) as [[[i sv] k]|]; eexists _, _; (split; [reflexivity|]);
    unfold login_union; rewrite Hct3; cbn; rewrite ?Hid; (split; [done|]); (split; [done|]); (split; [done|]);
    rewrite Hg; done.
Qed.

(** C13. The login completes: the controlling side has some source for the
    password of the machine it connects to (the last one, one given with the
    command, a shared one, the stored hash, the address book, the built-in one,
    the first of them in the order of [handle_hash] being right), and the
    machine is ready and accepts that password.  Then the one message the
    client sends in answer to the challenge of the connection authorizes it. *)
Theorem right_password_logs_in e preset c se w pw :
  sha256_ok (sha256 (cl e)) -> (forall x, Conn.sha256 se x = sha256 (cl e) x) ->
  switch_uuid (lc c) = None -> conn_type (lc c) = DEFAULT_CONN ->
  Config.str_bytes (match other_server (lc c) with Some (i, _, _) => i | None => id (lc c) end) = Conn.get_id se ->
  ready se w -> accepted se pw ->
  first_nonempty (candidates e preset (lc (challenged (Conn.salt (Conn.conn w)) (Conn.challenge (Conn.conn w)) c)))
    = sha256 (cl e) (pw ++ Conn.salt (Conn.conn w)) ->
  exists m c', handle_hash get_uuid ds e preset (Conn.salt (Conn.conn w)) (Conn.challenge (Conn.conn w)) c
               = ([ToPeer m], c')
    /\ let '(go_on, w') := Conn.on_message se m w in go_on = true /\ Conn.authorized (Conn.conn w') = true.
Proof using.
  intros Hsha Heq Hu Hct Hid Hr Ha Hpw.
  assert (forall x, sha256 (cl e) x <> []) as Hne.
  { intros x H. pose proof (Hsha x) as Hl. by rewrite H in Hl. }
  edestruct (handle_hash_sends e preset (Conn.salt (Conn.conn w)) (Conn.challenge (Conn.conn w)) c)
    as (r & c' & Hh & Hlr & Hun & Hus & _); try done.
  { rewrite Hpw. apply Hne. }
  exists (MLoginRequest r), c'. split; [exact Hh|].
  rewrite Hpw in Hlr. apply (password_login_grants se r w pw); try done.
  - by rewrite Hus.
  - rewrite Hlr. unfold answer. by rewrite !Heq.
  - rewrite Hlr. apply Hne.
Qed.

Abbreviation synced := (ClientOptions.synced get_uuid ds).

(** Only the peer's id and settings matter for being in step with the file. *)
Lemma synced_upd e f c : id (f (lc c)) = id (lc c) -> config (f (lc c)) = config (lc c) ->
  synced e c -> synced e (upd_lc f c).
Proof using.
  intros Hi Hc [H1 H2 H3 H4]. split; cbn; rewrite ?Hi, ?Hc; done.
Qed.

Lemma get_option_message_st e c : synced e c -> st (snd (get_option_message get_uuid ds e true c)) = st c.
Proof using.
  intros Hs. unfold get_option_message, option_quality. rewrite (ClientOptions.synced_config get_uuid ds e c Hs).
  repeat case_match; simplify_eq; done.
Qed.

Lemma storable_insert c k v : k ∉ secret_options -> storable get_uuid c ->
  storable get_uuid (c <| options := <[ k := v ]> (options c) |>).
Proof using.
  intros Hk [H1 H2]. split; [exact H1|]. rewrite Forall_forall in *. intros o Ho x.
  unfold set_field. cbn [options]. rewrite lookup_insert_ne by (intros ->; done). by apply H2.
Qed.

(** What a successful login with [remember] leaves in the file. *)
Lemma peer_info_remembers e pi c pw :
  synced e c -> remember (lc c) = true -> lc_password (lc c) = pw -> pw <> [] ->
  password_source (lc c) = Undefined -> storable_vec get_uuid pw ->
  let c' := fst (handle_peer_info get_uuid ds e pi c) in
  synced e c' /\ password (config (lc c')) = pw /\ id (lc c') = id (lc c).
Proof using SBL B64L FL uuid_bytes.
  intros Hs Hr Hp Hne Hsrc Hst. cbv zeta.
  pose proof (ClientOptions.synced_normal get_uuid ds e c Hs) as Hn.
  pose proof (ClientOptions.synced_storable get_uuid ds e c Hs) as [_ Ho].
  unfold handle_peer_info.
  set (l1 := if negb _ then _ else _). set (l2 := l1 <| features := _ |>).
  assert (id l2 = id (lc c) /\ config l2 = config (lc c) /\ remember l2 = true /\ lc_password l2 = pw
          /\ password_source l2 = Undefined) as (Hi & Hc & Hr2 & Hp2 & Hs2)
    by (unfold l2, l1; by destruct (negb _)).
  assert (synced e (c <| lc := l2 |>)) as Hs'.
  { apply (synced_upd e (fun _ => l2) c); done. }
  rewrite (ClientOptions.synced_config get_uuid ds e _ Hs'). clearbody l2. cbn [lc fst set_field].
  rewrite Hc. set (cfg1 := (config (lc c)) <| info := _ |> <| password := _ |>).
  assert (password cfg1 = pw) as Hpw1.
  { unfold cfg1, remembered. cbn [password set_field]. rewrite Hr2, Hp2, Hs2. rewrite (bool_decide_false _ Hne).
    destruct (bool_decide_reflect (pw = password (config (lc c)))) as [Heq|]; cbn; [by rewrite <-Heq|].
    by destruct pw. }
  assert (normal (read ds (st c)) cfg1) as Hn1 by (by destruct Hn).
  assert (storable get_uuid cfg1) as Hst1 by (split; [by rewrite Hpw1|exact Ho]).
  clearbody cfg1.
  set (cfg2 := match other_server l2 with Some _ => _ | None => _ end).
  assert (password cfg2 = pw /\ normal (read ds (st c)) cfg2 /\ storable get_uuid cfg2) as (Hpw2 & Hn2 & Hst2).
  { unfold cfg2. destruct (other_server l2) as [[[i sv] k]|]; [|done].
    destruct (String.eqb sv PUBLIC_SERVER); cbn [negb]; [done|].
    split; [done|]. split; [by destruct Hn1|]. apply storable_insert; [set_solver|done]. }
  clearbody cfg2.
  set (cfg3 := if force_relay l2 then _ else _).
  assert (password cfg3 = pw /\ normal (read ds (st c)) cfg3 /\ storable get_uuid cfg3) as (Hpw3 & Hn3 & Hst3).
  { unfold cfg3. destruct (force_relay l2); [|done].
    split; [done|]. split; [by destruct Hn2|]. apply storable_insert; [set_solver|done]. }
  clearbody cfg3.
  split; [|split; [exact Hpw3|exact Hi]].
  apply (ClientOptions.synced_save get_uuid ds uuid_bytes); [exact Hs'|by destruct Hn3|exact Hst3].
Qed.

(** The state after the dialog's login. *)
Lemma ui_login_state e osu osp p r c : synced (cl e) c -> p <> "" ->
  let c' := snd (handle_login_from_ui get_uuid ds e osu osp p r c) in
  synced (cl e) c' /\ remember (lc c') = r /\ lc_password (lc c') = salted e p (salt (lc c))
  /\ password_source (lc c') = Undefined /\ id (lc c') = id (lc c).
Proof using.
  intros Hs Hp. cbv zeta. unfold handle_login_from_ui. rewrite (proj2 (String.eqb_neq _ _) Hp).
  unfold send_login, create_login_msg.
  set (c1 := upd_lc _ (upd_lc _ c)).
  assert (synced (cl e) c1) as Hs1 by (do 2 (apply synced_upd; [done|done|]); exact Hs).
  pose proof (get_option_message_st (cl e) c1 Hs1) as Hst.
  pose proof (get_option_message_frame (cl e) c1) as Hf.
  destruct (other_server (lc c1)) as [[[i sv] k]|];
    destruct (get_option_message get_uuid ds (cl e) true c1) as [om c2]; cbn [snd] in Hst, Hf |- *;
    assert (exists v, lc c2 = (lc c1) <| custom_fps := v |>) as [v Hv] by eauto; clear Hf;
    (split; [destruct Hs1 as [A1 A2 A3 A4]; split; rewrite ?Hst, ?Hv; done|]); rewrite Hv; done.
Qed.

(** A new session with the peer starts from the stored settings. *)
Lemma initialize_loads e RS i l0 c : synced e c -> parse_id RS i false = (id (lc c), false, None) ->
  let c' := initialize get_uuid ds RS e i DEFAULT_CONN None false None None None (mkClient l0 (st c)) in
  config (lc c') = config (lc c) /\ remember (lc c') = negb (bool_decide (password (config (lc c)) = []))
  /\ id (lc c') = id (lc c) /\ lc_password (lc c') = lc_password l0 /\ shared_password (lc c') = None
  /\ switch_uuid (lc c') = None /\ conn_type (lc c') = DEFAULT_CONN
  /\ (other_server l0 = None -> other_server (lc c') = None).
Proof using.
  intros Hs Hp. cbv zeta. unfold initialize. rewrite Hp. unfold load_config. cbn [lc st id set_field].
  rewrite (ClientOptions.synced_load get_uuid ds e c Hs). cbn [lc st set_field].
  match goal with |- context [match other_server ?x with Some _ => _ | None => _ end] =>
    change (other_server x) with (other_server l0) end.
  destruct (other_server l0) as [[[a b] k]|] eqn:El; [|repeat split; try done; intros _; exact El].
  destruct (negb _ && String.eqb k ""); repeat split; done.
Qed.

(** Without another source the stored hash is chosen. *)
Lemma stored_is_chosen e s ch c : shared_password (lc c) = None -> lc_password (lc c) = [] ->
  password (config (lc c)) <> [] ->
  first_nonempty (candidates e "" (lc (challenged s ch c))) = password (config (lc c)).
Proof using.
  intros H1 H2 H3. unfold candidates.
  change (shared_password (lc (challenged s ch c))) with (shared_password (lc c)).
  change (lc_password (lc (challenged s ch c))) with (lc_password (lc c)).
  change (config (lc (challenged s ch c))) with (config (lc c)).
  rewrite H1, H2, !first_nonempty_cons. cbn [unwrap_or hashed String.eqb].
  by destruct (password (config (lc c))).
Qed.

(** A remembered password lets the next session in: after a login from
    the dialog with "remember" that the peer accepted, a new session with the
    same peer, started with nothing but its id, answers the next challenge of
    that machine correctly and is authorized, the hash having gone through the
    sealed settings file. *)
Theorem remembered_password_returns e RS pi c osu osp p i l0 se w :
  sha256_ok (sha256 (cl e)) -> (forall x, Conn.sha256 se x = sha256 (cl e) x) ->
  synced (cl e) c -> p <> "" -> storable_vec get_uuid (salted e p (salt (lc c))) ->
  parse_id RS i false = (id (lc c), false, None) -> lc_password l0 = [] -> other_server l0 = None ->
  Config.str_bytes (id (lc c)) = Conn.get_id se -> salt (lc c) = Conn.salt (Conn.conn w) ->
  ready se w -> accepted se (Config.str_bytes p) ->
  let c1 := snd (handle_login_from_ui get_uuid ds e osu osp p true c) in
  let c2 := fst (handle_peer_info get_uuid ds (cl e) pi c1) in
  let c3 := initialize get_uuid ds RS (cl e) i DEFAULT_CONN None false None None None (mkClient l0 (st c2)) in
  exists m c', handle_hash get_uuid ds e "" (Conn.salt (Conn.conn w)) (Conn.challenge (Conn.conn w)) c3
               = ([ToPeer m], c')
    /\ let '(go_on, w') := Conn.on_message se m w in go_on = true /\ Conn.authorized (Conn.conn w') = true.
Proof using SBL B64L FL uuid_bytes.
  intros Hsha Heq Hs Hp Hst Hid Hl0 Hos Hmid Hsalt Hr Ha c1 c2 c3.
  destruct (ui_login_state e osu osp p true c Hs Hp) as (Hs1 & Hr1 & Hp1 & Hsrc1 & Hi1). fold c1 in Hs1, Hr1, Hp1, Hsrc1, Hi1.
  destruct (salted_cons e p (salt (lc c)) Hsha) as (b & r & Hne).
  destruct (peer_info_remembers (cl e) pi c1 (salted e p (salt (lc c))) Hs1 Hr1 Hp1 ltac:(by rewrite Hne) Hsrc1 Hst)
    as (Hs2 & Hp2 & Hi2). fold c2 in Hs2, Hp2, Hi2.
  destruct (initialize_loads (cl e) RS i l0 c2 Hs2) as (Hc3 & Hr3 & Hi3 & Hlp & Hsh & Hsw & Hct & Hos3).
  { by rewrite Hi2, Hi1. }
  fold c3 in Hc3, Hr3, Hi3, Hlp, Hsh, Hsw, Hct, Hos3. specialize (Hos3 Hos). clearbody c3.
  edestruct (handle_hash_sends e "" (Conn.salt (Conn.conn w)) (Conn.challenge (Conn.conn w)) c3)
    as (q & c' & Hh & Hlr & Hun & Hus & _); try done.
  { rewrite stored_is_chosen, Hc3, Hp2, Hne; [done|done|by rewrite Hlp|by rewrite Hc3, Hp2, Hne]. }
  assert (first_nonempty (candidates e "" (lc (challenged (Conn.salt (Conn.conn w)) (Conn.challenge (Conn.conn w)) c3)))
          = salted e p (salt (lc c))) as Hcand.
  { rewrite stored_is_chosen, Hc3; [done|done|by rewrite Hlp|by rewrite Hc3, Hp2, Hne]. }
  rewrite Hcand in Hlr. exists (MLoginRequest q), c'. split; [exact Hh|].
  apply (password_login_grants se q w (Config.str_bytes p)); try done.
  - by rewrite Hus, Hos3, Hi3, Hi2, Hi1.
  - rewrite Hlr. unfold answer, salted. by rewrite !Heq, Hsalt.
  - rewrite Hlr. unfold answer. intros H. pose proof (Hsha (salted e p (salt (lc c)) ++ Conn.challenge (Conn.conn w))) as Hl.
    by rewrite H in Hl.
Qed.

End Client.

(** ** Witnesses *)

Import Vault ClientOptions.

(** A "hash" of 32 bytes. *)
Definition toy_sha (x : list Z) : list Z := resize 32 0 x.

Lemma toy_sha_ok : sha256_ok toy_sha.
Proof. intros x. unfold toy_sha, resize. rewrite length_app, length_take, length_replicate. lia. Qed.

(** The peer of [ClientOptions.demo_client], with a temporary password. *)
Definition demo_machine : Conn.Env :=
  Auth.demo_env <| Conn.sha256 := toy_sha |> <| Conn.get_id := Config.str_bytes "1234" |>.

Definition demo_login_env : LoginEnv :=
  mkLoginEnv (demo_clenv <| sha256 := toy_sha |>) "555" "rs" "" "" "ann  lee" (fun s => s) "Linux" "1.4.1" [] (fun _ => None)
    "" "" (mkAb "" []).

Lemma demo_ready : ready demo_machine (Auth.demo_world None).
Proof. split; try reflexivity. eexists. vm_compute. reflexivity. Qed.

Lemma demo_accepted : accepted demo_machine (Config.str_bytes "k3xw9p").
Proof. split; [discriminate|]. left. split; reflexivity. Qed.

Lemma right_password_logs_in_witness :
  exists m c', handle_hash (SB := toy_box) (B64 := toy_b64) (F := toy_f64) [7] demo_ds demo_login_env "k3xw9p" [10] [20]
                 (demo_client <| lc := (lc demo_client) <| config := demo_peer <| password := [] |> |> |>)
               = ([ToPeer m], c')
    /\ let '(go_on, w') := Conn.on_message demo_machine m (Auth.demo_world None) in
       go_on = true /\ Conn.authorized (Conn.conn w') = true.
Proof.
  apply (@right_password_logs_in toy_box toy_b64 toy_f64 [7] demo_ds demo_login_env "k3xw9p" _ demo_machine
           (Auth.demo_world None) (Config.str_bytes "k3xw9p")).
  - exact toy_sha_ok.
  - reflexivity.
  - reflexivity.
  - reflexivity.
  - reflexivity.
  - exact demo_ready.
  - exact demo_accepted.
  - vm_compute. reflexivity.
Defined.

(** The client that has seen the salt of the machine. *)
Definition demo_client2 : Client := upd_lc (fun l => l <| salt := [10] |>) demo_client.

Lemma demo_synced2 : synced (SB := toy_box) (B64 := toy_b64) (F := toy_f64) [7] demo_ds (cl demo_login_env) demo_client2.
Proof. apply (synced_upd (SB := toy_box) (B64 := toy_b64)); [done|done|]. destruct demo_synced. by split. Qed.

Lemma remembered_password_returns_witness :
  let c1 := snd (handle_login_from_ui (SB := toy_box) (B64 := toy_b64) (F := toy_f64) [7] demo_ds demo_login_env "" ""
                   "k3xw9p" true demo_client2) in
  let c2 := fst (handle_peer_info (SB := toy_box) (B64 := toy_b64) (F := toy_f64) [7] demo_ds
                   (cl demo_login_env) (mkPeerInfo "u" "h" "Linux" "1.4.1" None) c1) in
  let c3 := initialize (SB := toy_box) (B64 := toy_b64) (F := toy_f64) [7] demo_ds "key" (cl demo_login_env) "1234"
              DEFAULT_CONN None false None None None (mkClient (lc demo_client) (st c2)) in
  exists m c', handle_hash (SB := toy_box) (B64 := toy_b64) (F := toy_f64) [7] demo_ds demo_login_env "" [10] [20] c3
               = ([ToPeer m], c')
    /\ let '(go_on, w') := Conn.on_message demo_machine m (Auth.demo_world None) in
       go_on = true /\ Conn.authorized (Conn.conn w') = true.
Proof.
  apply (@remembered_password_returns toy_box toy_b64 toy_f64 toy_box_laws toy_b64_laws toy_f64_laws [7] demo_ds
           ltac:(repeat constructor; unfold is_byte; lia) demo_login_env "key" (mkPeerInfo "u" "h" "Linux" "1.4.1" None)
           demo_client2 "" "" "k3xw9p" "1234" (lc demo_client) demo_machine (Auth.demo_world None)).
  - exact toy_sha_ok.
  - reflexivity.
  - exact demo_synced2.
  - discriminate.
  - split; vm_compute; [discriminate|reflexivity].
  - vm_compute. reflexivity.
  - reflexivity.
  - reflexivity.
  - reflexivity.
  - reflexivity.
  - exact demo_ready.
  - exact demo_accepted.
Defined.

End LoginFacts.
