(* ===== verification/PortForward.v ===== *)
(** * Port forwarding of the controlling side ([src/port_forward.rs])

    A local connection is accepted, a session for it is opened and logs in while
    what the application already says is kept; then bytes are passed both ways.
    The session's stream is the one of [SecureStream], the answers of the login
    are those of [ClientLogin], the other end is the loop of [ConnectionLoop].
    Dialling is in [Dial]: here its outcome is given. *)

From S2P Require Import Prelude RustStr BytesCodec SecureStream Password Config NetUtil Messages PeerConfig PeerConfigProofs.
From S2P Require Import Service Server Connection ConnectionAuth ClientConfig ClientOptions ClientLogin ConnectionLoop ClientLoginProofs.

#[local] Open Scope rust_scope.

Module Forward.

Import Msg PeerCfg Client Login Secure.

(** What a frame of the peer holds. *)
Inductive PeerMsg : Type :=
| PmHash (salt challenge : list Z) | PmLoginError (err : string) | PmPeerInfo | PmLoginOther
| PmTestDelay (from_client : bool) (reply : Message) | PmOther.

(** What the window says. *)
Inductive UiData : Type :=
| UiLogin (os_username os_password password : string) (remember : bool)
| UiMessage (m : Message) | UiClose | UiNewRdp | UiOther.

(** [stream.next] with its time-out, the window, the local application. *)
Inductive LoginEvent : Type :=
| EvTimeout | EvPeer (r : option (result (list Z) string)) | EvUi (d : UiData)
| EvLocal (r : option (result (list Z) string)).

Inductive FwdEvent : Type :=
| EvApp (r : option (result (list Z) string)) | EvRemote (r : option (result (list Z) string)).

Section Forward.
Context `{SB : SecretBox} `{B64 : Base64} `{F : F64Text}.
Context (get_uuid : list Z) (ds : DisplaySettings).
Context (encode_msg : Message -> list Z) (parse : list Z -> result PeerMsg string).

Record State : Type := mkState {
  client : Client;
  stream : FramedStream;
  buffer : list Z;
  received : bool;
  boxes : list ClOut }.

Definition with_client (c : Client) (s : State) : State := mkState c (stream s) (buffer s) (received s) (boxes s).

(** [stream.send]: a failure is only logged. *)
Definition send (m : Message) (s : State) : State :=
  match send_raw (stream s) (encode_msg m) with
  | Ok fs => mkState (client s) fs (buffer s) (received s) (boxes s)
  | Err _ => s
  end.

Definition out1 (o : ClOut) (s : State) : State :=
  match o with
  | ToPeer m => send m s
  | MsgBox _ _ _ _ => mkState (client s) (stream s) (buffer s) (received s) (boxes s ++ [o])
  end.
Definition outs (os : list ClOut) (s : State) : State := fold_left (fun s o => out1 o s) os s.

Inductive LoginStep : Type := Continue (s : State) | LoggedIn (s : State) | GaveUp (s : State) | Failed (err : string).

Definition on_peer_msg (e : LoginEnv) (password : string) (m : PeerMsg) (s : State) : LoginStep :=
  match m with
  | PmHash salt challenge =>
    let '(os, c) := handle_hash get_uuid ds e password salt challenge (client s) in
    Continue (outs os (with_client c s))
  | PmLoginError err =>
    let '(os, again, c) := handle_login_error get_uuid ds e err (client s) in
    let s := outs os (with_client c s) in
    if again then Continue s else GaveUp s
  | PmPeerInfo => LoggedIn s
  | PmTestDelay from_client reply => Continue (if from_client then s else send reply s)
  | PmLoginOther | PmOther => Continue s
  end.

(** One turn of the loop of [connect_and_login]. *)
Definition login_step (e : LoginEnv) (password : string) (ev : LoginEvent) (s : State) : LoginStep :=
  match ev with
  | EvTimeout => Failed "Timeout"
  | EvPeer (Some (Ok bs)) =>
    let s := if received s then s else mkState (client s) (stream s) (buffer s) true (boxes s) in
    match parse bs with
    | Ok m => on_peer_msg e password m s
    | Err err => Failed err
    end
  | EvPeer (Some (Err err)) => Failed ("Connection closed: " +:+ err)
  | EvPeer None => Failed "Reset by the peer"
  | EvUi (UiLogin os_username os_password password remember) =>
    let '(os, c) := handle_login_from_ui get_uuid ds e os_username os_password password remember (client s) in
    Continue (outs os (with_client c s))
  | EvUi (UiMessage m) => Continue (send m s)
  | EvUi _ => Continue s
  | EvLocal (Some (Ok bs)) => Continue (mkState (client s) (stream s) (buffer s ++ bs) (received s) (boxes s))
  | EvLocal _ => GaveUp s
  end.

Fixpoint login_loop (e : LoginEnv) (password : string) (evs : list LoginEvent) (s : State) : LoginStep :=
  match evs with
  | [] => Continue s
  | ev :: evs =>
    match login_step e password ev s with
    | Continue s => login_loop e password evs s
    | r => r
    end
  end.

(** After the loop: the stream goes raw and what was kept is sent. *)
Definition enter_tunnel (s : State) : FramedStream :=
  let fs := set_raw (stream s) in
  match buffer s with
  | [] => fs
  | _ => match send_bytes fs (buffer s) with Ok fs => fs | Err _ => fs end
  end.

(** The answer of [connect_and_login]. *)
Inductive Outcome : Type := Tunnel (fs : FramedStream) | NoTunnel | LoginErr (err : string) | Pending (s : State).

Definition connect_and_login (e : LoginEnv) (password : string) (fs : FramedStream) (c : Client)
    (evs : list LoginEvent) : Outcome :=
  match login_loop e password evs (mkState c fs [] false []) with
  | LoggedIn s => Tunnel (enter_tunnel s)
  | GaveUp _ => NoTunnel
  | Failed err => LoginErr err
  | Continue s => Pending s
  end.

(** *** [run_forward]: what is written to the application, the stream, whether
    the loop has ended *)
Definition forward_step (ev : FwdEvent) (fs : FramedStream) : list Z * FramedStream * bool :=
  match ev with
  | EvApp (Some (Ok bs)) => ([], match send_bytes fs bs with Ok fs => fs | Err _ => fs end, false)
  | EvApp _ => ([], fs, true)
  | EvRemote (Some (Ok bs)) => (bs, fs, false)
  | EvRemote _ => ([], fs, true)
  end.

Fixpoint run_forward (evs : list FwdEvent) (fs : FramedStream) : list Z * FramedStream * bool :=
  match evs with
  | [] => ([], fs, false)
  | ev :: evs =>
    let '(o, fs, fin) := forward_step ev fs in
    if fin then (o, fs, true) else let '(o', fs, fin) := run_forward evs fs in (o ++ o', fs, fin)
  end.

(** *** [listen]: the turns of its loop.  While a connection logs in, the loop
    waits for it. *)
Inductive ListenEvent : Type :=
| Accepted (fs : FramedStream) (evs : list LoginEvent) | DialFailed (err : string) | Ui (d : UiData).

Inductive ListenOut : Type := Spawned (fs : FramedStream) | ShowError (err : string) | RunRdp.

Definition listen_step (e : LoginEnv) (password : string) (address : string * Z) (ev : ListenEvent) (c : Client)
  : list ListenOut * Client * bool :=
  match ev with
  | Accepted fs evs =>
    let c := upd_lc (fun l => l <| port_forward := address |>) c in
    match connect_and_login e password fs c evs with
    | Tunnel fs => ([Spawned fs], c, false)
    | LoginErr err => ([ShowError err], c, false)
    | NoTunnel | Pending _ => ([], c, false)
    end
  | DialFailed err => ([ShowError err], upd_lc (fun l => l <| port_forward := address |>) c, false)
  | Ui UiClose => ([], c, true)
  | Ui UiNewRdp => ([RunRdp], c, false)
  | Ui _ => ([], c, false)
  end.

(** ** Bytes of the application *)

Definition login_locals (evs : list LoginEvent) : list Z :=
  flat_map (fun ev => match ev with EvLocal (Some (Ok bs)) => bs | _ => [] end) evs.
Definition app_bytes (evs : list FwdEvent) : list Z :=
  flat_map (fun ev => match ev with EvApp (Some (Ok bs)) => bs | _ => [] end) evs.
Definition remote_bytes (evs : list FwdEvent) : list Z :=
  flat_map (fun ev => match ev with EvRemote (Some (Ok bs)) => bs | _ => [] end) evs.

Lemma out1_buffer o s : buffer (out1 o s) = buffer s.
Proof. destruct o as [|m]; [reflexivity|]. cbn. unfold send. destruct (send_raw _ _); reflexivity. Qed.

Lemma outs_buffer os : forall s, buffer (outs os s) = buffer s.
Proof.
  unfold outs. induction os as [|o os IH]; intros s; [reflexivity|]. cbn. rewrite IH. apply out1_buffer.
Qed.

Lemma send_buffer m s : buffer (send m s) = buffer s.
Proof. apply (out1_buffer (ToPeer m)). Qed.

Definition state_of (r : LoginStep) : option State :=
  match r with Continue s | LoggedIn s => Some s | _ => None end.

Lemma login_step_buffer e password ev s s' :
  state_of (login_step e password ev s) = Some s' -> buffer s' = buffer s ++ login_locals [ev].
Proof.
  destruct ev as [|r|d|r]; cbn [login_step login_locals flat_map]; rewrite ?app_nil_r.
  - discriminate.
  - destruct r as [[bs|err]|]; [|discriminate..]. set (s1 := if received s then _ else _).
    assert (Hb : buffer s1 = buffer s) by (unfold s1; destruct (received s); reflexivity). clearbody s1.
    destruct (parse bs) as [m|]; [|discriminate]. destruct m as [salt ch|err| | |fc reply|]; cbn [on_peer_msg].
    + destruct (handle_hash _ _ _ _ _ _ _) as [os c]. intros [= <-]. rewrite outs_buffer. exact Hb.
    + destruct (handle_login_error _ _ _ _ _) as [[os again] c]. destruct again; [|discriminate].
      intros [= <-]. rewrite outs_buffer. exact Hb.
    + intros [= <-]. exact Hb.
    + intros [= <-]. exact Hb.
    + intros [= <-]. destruct fc; [exact Hb|]. rewrite send_buffer. exact Hb.
    + intros [= <-]. exact Hb.
  - destruct d as [u w p b|m| | |]; try (intros [= <-]; reflexivity).
    + destruct (handle_login_from_ui _ _ _ _ _ _ _ _) as [os c]. intros [= <-]. rewrite outs_buffer. reflexivity.
    + intros [= <-]. apply send_buffer.
  - destruct r as [[bs|err]|]; [|discriminate..]. intros [= <-]. reflexivity.
Qed.

Lemma login_loop_buffer e password evs : forall s s',
  login_loop e password evs s = Continue s' -> buffer s' = buffer s ++ login_locals evs.
Proof.
  induction evs as [|ev evs IH]; intros s s' E; cbn [login_loop] in E.
  { injection E as <-. cbn. rewrite app_nil_r. reflexivity. }
  pose proof (login_step_buffer e password ev s) as B.
  destruct (login_step e password ev s) as [s1|s1| |]; try discriminate.
  rewrite (IH s1 s' E), (B s1 eq_refl), <- app_assoc. cbn. rewrite app_nil_r. reflexivity.
Qed.

(** A raw stream in clear text, with [w] written to it. *)
Definition raw_clear (w : list Z) (fs : FramedStream) : Prop :=
  Codec.raw (codec fs) = true /\ encrypt fs = None /\ wbuf fs = w.

Lemma send_bytes_raw w fs bs : raw_clear w fs -> exists fs', send_bytes fs bs = Ok fs' /\ raw_clear (w ++ bs) fs'.
Proof.
  intros (R & En & W). unfold send_bytes, Codec.encode. rewrite R. eexists. split; [reflexivity|].
  unfold raw_clear. cbn. rewrite W. auto.
Qed.

Lemma enter_tunnel_raw s : raw_clear (wbuf (stream s) ++ buffer s) (enter_tunnel s).
Proof.
  assert (H0 : raw_clear (wbuf (stream s)) (set_raw (stream s))) by (unfold raw_clear; cbn; auto).
  unfold enter_tunnel. destruct (buffer s) as [|b l]; [rewrite app_nil_r; exact H0|].
  destruct (send_bytes_raw _ _ (b :: l) H0) as (fs & -> & H1). exact H1.
Qed.

Lemma run_forward_raw evs : forall w fs o fs', raw_clear w fs -> run_forward evs fs = (o, fs', false) ->
  o = remote_bytes evs /\ raw_clear (w ++ app_bytes evs) fs'.
Proof.
  induction evs as [|ev evs IH]; intros w fs o fs' H E.
  { injection E as <- <-. cbn. rewrite app_nil_r. auto. }
  cbn [run_forward] in E. destruct ev as [[[bs|]|]|[[bs|]|]]; cbn [forward_step] in E; try discriminate.
  - destruct (send_bytes_raw _ _ bs H) as (fs1 & E1 & H1). rewrite E1 in E.
    destruct (run_forward evs fs1) as [[o1 fs2] fin] eqn:E2. injection E as <- <- ->.
    destruct (IH _ _ _ _ H1 E2) as [-> H2]. cbn. rewrite app_assoc. auto.
  - destruct (run_forward evs fs) as [[o1 fs2] fin] eqn:E2. injection E as <- <- ->.
    destruct (IH _ _ _ _ H E2) as [-> H2]. cbn. auto.
Qed.

End Forward.

(** The controlled side passes on whatever pieces of the stream arrive. *)
Definition to_target (o : Loop.FwdOut) : list Z := match o with Loop.ToTarget d => d | Loop.FwdToPeer _ => [] end.

Lemma server_passes conn_id now cs : forall last out,
  exists last', Loop.forward_run conn_id (map (fun c => (now, Loop.FStream (Some (Ok c)) (Ok tt))) cs) last out
    = (out ++ map Loop.ToTarget cs, inl last').
Proof.
  induction cs as [|c cs IH]; intros last out; [exists last; cbn; rewrite app_nil_r; reflexivity|].
  cbn. destruct (IH now (out ++ [Loop.ToTarget c])) as [l E]. exists l. rewrite E, <- app_assoc. reflexivity.
Qed.

(** C31. What the local application says during the login and afterwards reaches
    the target in order, once and unchanged, however the stream is cut, and what
    the target says reaches the application.  On the way it is what it is: also
    where the session was encrypted, the bytes of a tunnel are sent in clear. *)
Theorem tunnel_in_clear `{SB : SecretBox} `{B64 : Base64} `{F : F64Text} get_uuid ds encode_msg parse
    (e : LoginEnv) (password : string) (evs : list LoginEvent) (last : list Z) (s s1 s2 : State)
    (fevs : list FwdEvent) (o : list Z) (fs : FramedStream) (conn_id now : Z) (cs : list (list Z)) :
  login_loop get_uuid ds encode_msg parse e password evs s = Continue s1 ->
  login_step get_uuid ds encode_msg parse e password (EvPeer (Some (Ok last))) s1 = LoggedIn s2 ->
  run_forward fevs (enter_tunnel s2) = (o, fs, false) ->
  let said := buffer s ++ login_locals evs ++ app_bytes fevs in
  wbuf fs = wbuf (stream s2) ++ said /\ encrypt fs = None /\ o = remote_bytes fevs /\
  (concat cs = said ->
   concat (map to_target (Loop.forward_run conn_id
     (map (fun c => (now, Loop.FStream (Some (Ok c)) (Ok tt))) cs) now []).1) = said).
Proof.
  intros E1 E2 E3. cbv zeta.
  assert (Hb : buffer s2 = buffer s ++ login_locals evs).
  { rewrite <- (login_loop_buffer _ _ _ _ _ _ _ _ _ E1).
    pose proof (login_step_buffer get_uuid ds encode_msg parse e password (EvPeer (Some (Ok last))) s1 s2) as B.
    rewrite E2 in B. rewrite (B eq_refl). apply app_nil_r. }
  destruct (run_forward_raw fevs _ _ _ _ (enter_tunnel_raw s2) E3) as [Ho (_ & He & Hw)].
  rewrite Hw, Hb, <- !app_assoc. split; [reflexivity|]. split; [exact He|]. split; [exact Ho|].
  intros Hc. destruct (server_passes conn_id now cs now []) as [l El]. rewrite El. cbn [fst app].
  rewrite map_map. cbn [to_target]. rewrite map_id. exact Hc.
Qed.

(** Closing the window while a connection logs in is read by the loop of the
    login, which ignores it: the port stays open. *)
Lemma close_lost `{SB : SecretBox} `{B64 : Base64} `{F : F64Text} get_uuid ds encode_msg parse e password address fs evs1 evs2 c :
  (listen_step get_uuid ds encode_msg parse e password address (Accepted fs (evs1 ++ EvUi UiClose :: evs2)) c).2 = false.
Proof. cbn [listen_step]. destruct (connect_and_login _ _ _ _ _ _ _ _ _); reflexivity. Qed.

End Forward.

(** ** An instance *)
Module ForwardDemo.

Import Msg PeerCfg PeerCfgFacts Client Login Vault ClientOptions LoginFacts Secure Forward.

(** A session that was encrypted. *)
Definition demo_state : State :=
  mkState demo_client (set_key from_stream [1; 2; 3]) [] false [].
Definition demo_parse (l : list Z) : result PeerMsg string := match l with [0] => Ok PmPeerInfo | _ => Ok PmOther end.
Definition demo_login : list LoginEvent := [EvLocal (Some (Ok [1; 2])); EvPeer (Some (Ok [7]))].
Definition demo_fwd : list FwdEvent := [EvApp (Some (Ok [3])); EvRemote (Some (Ok [9]))].

Definition demo_end : State := mkState demo_client (set_key from_stream [1; 2; 3]) [1; 2] true [].
Definition demo_tunnel : FramedStream := (run_forward demo_fwd (enter_tunnel demo_end)).1.2.

Lemma tunnel_in_clear_witness :
  is_secured (stream demo_end) = true /\ wbuf demo_tunnel = wbuf (stream demo_end) ++ [1; 2; 3] /\
  concat (map to_target (Loop.forward_run 7 (map (fun c => (0, Loop.FStream (Some (Ok c)) (Ok tt))) [[1]; [2; 3]]) 0 []).1)
  = [1; 2; 3].
Proof.
  destruct (tunnel_in_clear (SB := toy_box) (B64 := toy_b64) (F := toy_f64) [7] demo_ds (fun _ => [0]) demo_parse
    demo_login_env "" demo_login [0] demo_state demo_end demo_end demo_fwd [9] demo_tunnel 7 0 [[1]; [2; 3]])
    as (Hw & _ & _ & Ht); [reflexivity..|].
  split; [reflexivity|]. split; [exact Hw|exact (Ht eq_refl)].
Defined.

End ForwardDemo.
