(* ===== verification/ClientLoop.v ===== *)
(** * The session of the controlling side ([src/client/io_loop.rs])

    [Remote]: the handlers of the messages of the peer and of the orders of the
    user interface, the control of the frame rate, recording, voice calls, the
    notifications of the peer, and the loop around them; and the parts of
    [src/ui_session_interface.rs] the loop uses ([Session]).

    The session composes the components of the controlling side: the login
    ([ClientConfig], [ClientLogin]), the file window ([ClientFiles]), the video
    players ([VideoPlayer]) and the file clipboard ([ClipMsg]).  A handler
    returns what it does outside its state, in order, and the new state.
    Calls of the Flutter interface are values of [UiCall]. *)

From S2P Require Import Prelude RustStr SecureStream Password Config NetUtil FileTransfer Messages FileManager ClientFiles ClipFiles ClipMsg VideoPlayer PeerConfig PeerConfigProofs Service Server Connection ConnectionAuth ClientConfig ClientOptions ClientLogin.

#[local] Open Scope rust_scope.

Module Session.

Import Msg PeerCfg Client Login.

Module T := FileTransfer.Transfer.
Module C := ClipFiles.ClipFiles.
Module F := ClientFiles.ClientFiles.
Module P := VideoPlayer.Player.
Module CM := ClipMsg.ClipMsg.

(** ** Messages *)

Record DisplayInfo : Type := mkDisplayInfo {
  d_x : Z; d_y : Z; d_width : Z; d_height : Z; d_cursor_embedded : bool; d_scale : Z }.

Record WindowsSessions : Type := mkWindowsSessions { ws_sessions : list (Z * string); ws_current_sid : Z }.

(** [PeerInfo] with what the session reads besides [ClientConfig.PeerInfo]. *)
Record FullPeerInfo : Type := mkFullPeerInfo {
  base : PeerInfo;
  displays : list DisplayInfo;
  current_display : Z;
  f_terminal : option bool;             (* of [features] *)
  platform_additions : string;
  windows_sessions : WindowsSessions }.

Record SwitchDisplayMsg : Type := mkSwitchDisplayMsg {
  s_display : Z; s_x : Z; s_y : Z; s_width : Z; s_height : Z; s_cursor_embedded : bool;
  s_original : Z * Z }.

(** What the peer sends; an enum field the receiver does not know is [None]. *)
Inductive PeerMsg : Type :=
| PVideoFrame (vf : P.VideoFrame)
| PHash (salt challenge : list Z)
| PLoginError (err : string) (trusted_devices : bool)
| PLoginPeerInfo (pi : FullPeerInfo)
| PCursorData (id : Z)
| PCursorId (id : Z)
| PCursorPosition (x y : Z)
| PClipboard (contents : list (list Z))
| PCliprdr (c : Cliprdr)
| PFileResponse (fr : FileResponse)
| PAudioFormat (sample_rate channels : Z)
| PChatMessage (text : string)
| PPermissionInfo (p : option Permission) (enabled : bool)
| PSwitchDisplay (s : SwitchDisplayMsg)
| PCloseReason (c : string)
| PBlockInputState (s : option BlockInputState) (details : string)
| PPrivacyModeState (s : option PrivacyModeState) (details impl_key : string)
| PUac (b : bool)
| PForegroundWindowElevated (b : bool)
| PElevationResponse (err : string)
| PPortableServiceRunning (b : bool)
| PSwitchBack
| PSupportedEncoding (e : CodecAbility)
| PFollowCurrentDisplay (d : Z)
| PTestDelay (t : TestDelay)
| PAudioFrame (data : list Z)
| PFileAction (a : FileAction)
| PMessageBox (b : MessageBox)
| PVoiceCallRequest (is_connect : bool)
| PVoiceCallResponse (accepted : bool) (req_timestamp : Z)
| PPeerInfo (displays : list DisplayInfo) (additions : string)
| PScreenshotResponse (sid msg : string) (data : list Z)
| PTerminalResponse (opened : option (bool * string)) (payload : list Z)   (* success and service id *)
| POther.

(** What the session sends: messages a Linux server handles, and those only a
    Windows server does. *)
Inductive OutMsg : Type :=
| Plain (m : Message)
| ElevationRequest (logon : option (string * string))
| ToggleVirtualDisplay (display : Z)
| SelectedSid (sid : Z).

(** ** Orders of the user interface ([client::Data]) *)

Inductive Data : Type :=
| DClose
| DLogin (os_username os_password password : string) (remember : bool)
| DMessage (m : OutMsg)
| DFile (ev : F.FEvent)               (* the orders that concern files *)
| DRecordScreen (start : bool)
| DElevateDirect
| DElevateWithLogon (username password : string)
| DNewVoiceCall
| DCloseVoiceCall
| DResetDecoder (display : option Z)
| DTakeScreenshot (display : Z) (sid : string)
| DPortForward.                        (* [AddPortForward], [RemovePortForward], [NewRDP]: not for this loop *)

(** ** Effects *)

Record QualityStatus : Type := mkQualityStatus {
  q_speed : option (Z * Z);            (* bytes in so many milliseconds *)
  q_fps : list (Z * Z);
  q_chroma : option Chroma;
  q_codec : option P.CodecFormat;
  q_delay : option Z;
  q_bitrate : option Z }.

Inductive UiCall : Type :=
| SetConnectionType (secured direct : bool) | SetFingerprint
| CloseSuccess | AdaptSize | OnConnected (t : ConnType) | UiSetPeerInfo | SetDisplays (n : Z)
| SetPlatformAdditions (s : string) | SetMultipleWindowsSession (n : Z) | UpdatePrivacyMode
| SetCursorData (id : Z) | SetCursorId (id : Z) | SetCursorPosition (x y : Z)
| SetDisplay (x y w h : Z) (cursor_embedded : bool) (scale : Z) | UiSwitchDisplay (display : Z)
| SetCurrentDisplay (d : Z)
| NewMessage (text : string) | SetPermission (name : string) (v : bool)
| UpdateBlockInputState (on : bool) | CancelMsgbox (tag : string) | PortableServiceRunning (b : bool)
| UiSwitchBack | OnVoiceCallStarted | OnVoiceCallClosed (reason : string) | OnVoiceCallWaiting
| ScreenshotResp (sid msg : string) (data : list Z) | TerminalResp (payload : list Z)
| UpdateRecordStatus (start : bool) | UpdateQualityStatus (q : QualityStatus)
| ClearAllJobs | LoadLastJob (cnt : Z) (json : string) (auto_start : bool) | UpdateTransferList
| SyncPeerHash (hash : list Z) | FileCall (o : F.FOut)
| Box (msgtype title text link : string) (retry : bool).

Inductive ROut : Type :=
| Send (m : OutMsg)                    (* on the stream *)
| ToSelf (d : Data)                    (* [self.sender] *)
| Ui (u : UiCall)
| ToAudio (d : list Z) | ToAudioFormat (sample_rate channels : Z)
| UpdateClipboard (contents : list (list Z))
| StartClipboard | StopClipboard | SyncInitClipboard | UpdateTextRequired | UpdateFileRequired
| EmptyClipboardFiles (conn_id : Z)
| ClipEffect (e : CM.ClipEffect)
| StartVoice | StopVoice
| InputOsPassword (p : string).

(** ** State *)

Inductive ConnectionState : Type := Connecting | Connected | Disconnected.
Record ConnectionRoundState : Type := mkRound { round : Z; state : ConnectionState }.

Record ChangeDisplayRecord : Type := mkChangeDisplay { cd_time : Z; cd_display : Z; cd_width : Z; cd_height : Z }.

Record ParsedPeerInfo : Type := mkParsed {
  pp_platform : string; pp_is_installed : bool; pp_idd_impl : string; support_view_camera : bool;
  support_terminal : bool }.

Definition is_support_virtual_display (p : ParsedPeerInfo) : bool :=
  pp_is_installed p && String.eqb (pp_platform p) "Windows"
  && (String.eqb (pp_idd_impl p) "rustdesk_idd" || String.eqb (pp_idd_impl p) "amyuni_idd").

Inductive JsonValue : Type := JBool (b : bool) | JStr (s : string) | JOther.

(** Surroundings; [instant] is in milliseconds. *)
Record REnv : Type := mkREnv {
  le : LoginEnv;
  fe : F.FEnv;
  get_time : Z;
  preset_password : string;             (* [Session::password] *)
  auto_record : bool;                   (* a local option *)
  json_map : string -> option (string -> option JsonValue);
  meta_to_str : T.TransferJobMeta -> string;
  reconnected : bool;                   (* [reconnect_count > 0] *)
  cur_peer_conn : Z;                    (* the clipboard channel of the session in front *)
  clip_disk : C.Disk; metadata_len : C.text -> option Z; mount_ok : bool; clip_now : Z; stream_id : Z -> Z;
  utf16 : C.Utf16 }.

Definition instant (e : REnv) : Z := F.instant (fe e).

(** ** [src/common.rs]: what a version supports *)

Definition is_support_multi_ui_session_num (v : Z) : bool := Version.get_version_number "1.2.4" <=? v.
Definition is_support_file_copy_paste_num (v : Z) : bool := Version.get_version_number "1.3.8" <=? v.

#[global] Instance TransferSerde_eq_dec : EqDecision TransferSerde.
Proof. solve_decision. Defined.

Section Session.
Context `{SB : SecretBox} `{B64 : Base64} `{FT : F64Text}.
Context {Q : Type} `{AQ : P.ArrayQueue Q}.
Context (get_uuid : list Z) (ds : DisplaySettings).

Set Primitive Projections.

(** [Remote] and the fields of [Session] and [LoginConfigHandler] it works on,
    and the variables of [io_loop]. *)
Record Remote : Type := mkRemote {
  cli : Client;
  peer_displays : option (list DisplayInfo);      (* [lc.peer_info] *)
  supported_encoding : option CodecAbility;
  enable_trusted_devices : bool;
  last_auto_fps : option Z;
  mark_unsupported : list P.CodecFormat;
  server_keyboard_enabled : bool;
  server_file_transfer_enabled : bool;
  server_clipboard_enabled : bool;
  last_change_display : ChangeDisplayRecord;
  connection_round_state : ConnectionRoundState;
  files : F.Files;
  stop_voice_call_sender : bool;
  voice_call_request_timestamp : option Z;
  is_connected : bool;
  first_frame : bool;
  client_conn_id : Z;
  data_count : Z;
  video_format : P.CodecFormat;
  elevation_requested : bool;
  peer_info : ParsedPeerInfo;
  video_threads : gmap Z (P.VideoThread (Q := Q));
  chroma : option Chroma;
  last_record_state : bool;
  sent_close_reason : bool;
  clip_state : CM.ClipState;
  last_recv_time : Z;
  recv_once : bool;                               (* the variable [received] *)
  fps_instant : Z }.

Unset Primitive Projections.

Definition res : Type := list ROut * Remote.

(** ** Short forms *)

Definition lcr (r : Remote) : Lc := lc (cli r).
Definition upd_cli (f : Client -> Client) (r : Remote) : Remote := r <| cli := f (cli r) |>.
Definition upd_lcr (f : Lc -> Lc) (r : Remote) : Remote := upd_cli (upd_lc f) r.

Definition then_ (a : res) (k : Remote -> res) : res :=
  let '(o, r) := a in let '(o', r) := k r in (o ++ o', r).
Definition ret (r : Remote) : res := ([], r).
Definition out (o : ROut) (r : Remote) : res := ([o], r).
Definition ui (u : UiCall) : Remote -> res := out (Ui u).

Definition is_file_transfer (r : Remote) : bool := bool_decide (conn_type (lcr r) = FILE_TRANSFER).
Definition is_default (r : Remote) : bool := bool_decide (conn_type (lcr r) = DEFAULT_CONN).
Definition is_view_camera (r : Remote) : bool := bool_decide (conn_type (lcr r) = VIEW_CAMERA).
Definition is_terminal (r : Remote) : bool := bool_decide (conn_type (lcr r) = TERMINAL).
Definition is_port_forward (r : Remote) : bool :=
  bool_decide (conn_type (lcr r) = PORT_FORWARD) || bool_decide (conn_type (lcr r) = RDP).

(** [Interface::msgbox] *)
Definition msgbox (e : REnv) (msgtype title text link : string) (r : Remote) : res :=
  let retry_for_relay := bool_decide (direct (lcr r) = Some true) && negb (received (lcr r)) in
  ui (Box msgtype title text link (check_if_retry (use_ws (cl (le e))) msgtype title text retry_for_relay)) r.

Definition on_error (e : REnv) (err : string) : Remote -> res := msgbox e "error" "Error" err "".

(** What the handlers of the login show and send. *)
Fixpoint login_outs (e : REnv) (os : list ClOut) (r : Remote) : res :=
  match os with
  | [] => ret r
  | MsgBox t ti tx l :: os => then_ (msgbox e t ti tx l r) (login_outs e os)
  | ToPeer m :: os => then_ (out (Send (Plain m)) r) (login_outs e os)
  end.

(** What the file window does. *)
Definition file_out (o : F.FOut) : ROut :=
  match o with
  | F.ToPeer m => Send (Plain m)
  | F.LaterRemoveFile id path n remote => ToSelf (DFile (F.UiRemoveFile id path n remote))
  | o => Ui (FileCall o)
  end.

(** The file window sees the platform and version of the last [PeerInfo]. *)
Definition file_env (e : REnv) (r : Remote) : F.FEnv :=
  let f := fe e in
  F.mkFEnv (F.os_read f) (F.can_create f) (F.zcompress f) (F.zdecompress f) (F.wall f) (F.instant f) (F.digest_json f)
    (F.parse_digest f) (F.recursive_files f) (F.os_create_dir f) (F.platform f)
    (platform (info (config (lcr r)))) (version (lcr r)) (F.os f).

Definition file_event (e : REnv) (ev : F.FEvent) (r : Remote) : outcome res :=
  let! (o, s) := F.step (file_env e r) ev (files r) in Done (map file_out o, r <| files := s |>).

(** ** Video *)

Definition refresh_video (display : Z) (r : Remote) : ROut :=
  ToSelf (DMessage (Plain (MMisc
    (if is_support_multi_ui_session_num (version (lcr r)) then RefreshVideoDisplay (i32 display) else RefreshVideo true)))).

Definition upd_threads (f : P.VideoThread -> P.VideoThread) (r : Remote) : Remote :=
  r <| video_threads := f <$> video_threads r |>.
Definition upd_thread (d : Z) (f : P.VideoThread -> P.VideoThread) (r : Remote) : Remote :=
  r <| video_threads := alter f d (video_threads r) |>.

Definition update_record_state (r : Remote) : res :=
  let r := if record_permission (lcr r) then r else upd_lcr (fun l => l <| record_state := false |>) r in
  let start := record_state (lcr r) && record_permission (lcr r) in
  if Bool.eqb (last_record_state r) start then ret r
  else
    ([Ui (UpdateRecordStatus start); ToSelf (DMessage (Plain (MMisc (ClientRecordStatus start))))],
     upd_threads (P.send (P.RecordScreen start)) (r <| last_record_state := start |>)).

Definition new_video_thread (e : REnv) (display : Z) (r : Remote) : res :=
  let r := r <| video_threads := <[ display := P.new_thread ]> (video_threads r) |> in
  if Nat.eqb (stdpp.base.size (video_threads r)) 1
  then update_record_state (upd_lcr (fun l => l <| record_state := auto_record e |>) r)
  else ret r.

Fixpoint virtual_displays (l : list string) : list ROut :=
  match l with
  | [] => []
  | d :: l => match parse_i32 d with
              | Some i => Send (ToggleVirtualDisplay i) :: virtual_displays l
              | None => virtual_displays l
              end
  end.

Definition send_toggle_virtual_display_msg (r : Remote) : res :=
  (if is_support_virtual_display (peer_info r)
   then virtual_displays (split_char "," (get_option "virtual-display" (lcr r))) else [], r).

Definition PRIVACY_MODE_IMPL_WIN_VIRTUAL_DISPLAY : string := "privacy_mode_impl_virtual_display".

Definition send_toggle_privacy_mode_msg (r : Remote) : res :=
  let l := lcr r in
  if (Version.get_version_number "1.2.4" <=? version l) && get_toggle_option "privacy-mode" l then
    let impl_key := get_option "privacy-mode-impl-key" l in
    if String.eqb impl_key PRIVACY_MODE_IMPL_WIN_VIRTUAL_DISPLAY && negb (is_support_virtual_display (peer_info r))
    then ret r
    else out (Send (Plain (MMisc (TogglePrivacyMode impl_key true)))) r
  else ret r.

Definition on_video_frame (e : REnv) (vf : P.VideoFrame) (r : Remote) : res :=
  then_ (if first_frame r then ret r
         else then_ ([Ui CloseSuccess; Ui AdaptSize], r <| first_frame := true |>) (fun r =>
              then_ (send_toggle_virtual_display_msg r) send_toggle_privacy_mode_msg)) (fun r =>
  let r := r <| video_format := P.format_of vf |> in
  let display := u64 (P.vf_display vf) in
  then_ (match video_threads r !! display with Some _ => ret r | None => new_video_thread e display r end) (fun r =>
  match video_threads r !! display with
  | None => ret r
  | Some t =>
    let '(overflow, t) := P.on_video_frame vf t in
    let r := r <| video_threads := <[ display := t ]> (video_threads r) |> in
    (if overflow then [refresh_video display r] else [], r)
  end)).

(** ** Control of the frame rate *)

Definition inactive_threshold : Z := 15.

Definition ctl_upd (f : P.FpsControl -> P.FpsControl) (t : P.VideoThread) : P.VideoThread (Q := Q) :=
  t <| P.fps_control := f (P.fps_control t) |>.

Definition with_idle (n : Z) (c : P.FpsControl) : P.FpsControl :=
  P.mkFpsControl (P.refresh_times c) (P.last_refresh_instant c) n (P.inactive_counter c).
Definition with_inactive (n : Z) (c : P.FpsControl) : P.FpsControl :=
  P.mkFpsControl (P.refresh_times c) (P.last_refresh_instant c) (P.idle_counter c) n.

Definition queue_len (t : P.VideoThread (Q := Q)) : Z := Z.of_nat (P.aq_len (P.video_queue t)).

(** The custom rate, with its bounds. *)
Definition custom_fps_of (r : Remote) : Z :=
  let c := unwrap_or 30 (custom_fps (lcr r)) in if (c <? 5) || (120 <? c) then 30 else c.

(** The smallest of the rates; a thread without a rate makes it unknown. *)
Fixpoint min_rate (l : list (option Z)) : option (option Z) :=
  match l with
  | [] => None
  | x :: l =>
    match min_rate l with
    | None => Some x
    | Some y => Some (match x, y with Some a, Some b => Some (Z.min a b) | _, _ => None end)
    end
  end.

(** Whether a display wants less or more, and its counters. *)
Definition fps_trending (last_auto : option Z) (custom limited : Z) (t : P.VideoThread) : option bool * P.VideoThread (Q := Q) :=
  match P.decode_fps t with
  | None => (None, t)
  | Some decode_fps =>
    let n := queue_len t in
    let last := unwrap_or custom last_auto in
    let idle := P.idle_counter (P.fps_control t) in
    if inactive_threshold <? P.inactive_counter (P.fps_control t) then (None, t)
    else if ((1 <? n) && (limited <? last)) || (Z.max 1 (decode_fps / 2) <? n) then (Some false, ctl_upd (with_idle 0) t)
    else if n <=? 1 then
      let t := ctl_upd (with_idle (idle + 1)) t in
      if (3 <? idle + 1) && (last + 3 <=? limited) then (Some true, t) else (None, t)
    else (None, ctl_upd (with_idle 0) t)
  end.

Fixpoint trend_all (last_auto : option Z) (custom limited : Z) (ts : list (Z * P.VideoThread))
  : list (option bool) * list (Z * P.VideoThread (Q := Q)) :=
  match ts with
  | [] => ([], [])
  | (d, t) :: ts =>
    let '(b, t) := fps_trending last_auto custom limited t in
    let '(bs, ts) := trend_all last_auto custom limited ts in (b :: bs, (d, t) :: ts)
  end.

(** Displays whose queue is too long are refreshed, at most 20 times and not
    again within ten seconds. *)
Fixpoint refresh_all (e : REnv) (min_fps : Z) (r : Remote) (ts : list (Z * P.VideoThread))
  : list ROut * list (Z * P.VideoThread (Q := Q)) :=
  match ts with
  | [] => ([], [])
  | (d, t) :: ts =>
    let '(os, ts) := refresh_all e min_fps r ts in
    let c := P.fps_control t in
    let tolerable := Z.min min_fps (Z.of_nat (P.aq_capacity (P.video_queue t)) / 2) in
    let again := (P.refresh_times c =? 0)
                 || match P.last_refresh_instant c with Some i => 10 <? (instant e - i) / 1000 | None => false end in
    if (P.refresh_times c <? 20) && (tolerable <? queue_len t) && again
    then (refresh_video d r :: os,
          (d, ctl_upd (fun c => P.mkFpsControl (P.refresh_times c + 1) (Some (instant e)) (P.idle_counter c)
                                               (P.inactive_counter c)) t) :: ts)
    else (os, (d, t) :: ts)
  end.

Definition fps_message (fps : Z) : Message := MMisc (Option (default_om <| o_custom_fps := fps |>)).

Definition fps_control (e : REnv) (direct : bool) (real_fps : gmap Z Z) (r : Remote) : res :=
  let counted d t :=
    ctl_upd (fun c => with_inactive (if unwrap_or 0 (real_fps !! d) =? 0 then P.inactive_counter c + 1 else 0) c) t in
  let r := r <| video_threads := map_imap (fun d t => Some (counted d t)) (video_threads r) |> in
  let custom := custom_fps_of r in
  let ts := map_to_list (video_threads r) in
  let max_queue_len := foldr Z.max 0 (map (fun x => queue_len x.2) ts) in
  let active := List.filter (fun x => P.inactive_counter (P.fps_control x.2) <? inactive_threshold) ts in
  match min_rate (map (fun x => P.decode_fps x.2) active) with
  | None | Some None => ret r
  | Some (Some min_decode_fps) =>
    let limited := Z.min (if direct then min_decode_fps * 9 / 10 else min_decode_fps * 4 / 5) custom in
    let last := last_auto_fps r in
    let '(trendings, ts) := trend_all last custom limited ts in
    let should_decrease := existsb (fun v => bool_decide (v = Some false)) trendings in
    let should_increase := negb should_decrease && existsb (fun v => bool_decide (v = Some true)) trendings in
    let changed := match last with None => true | Some _ => should_decrease || should_increase end in
    let auto_fps := if should_decrease && (limited <? max_queue_len) then limited / 2 else limited in
    let auto_fps := if auto_fps <? 1 then 1 else auto_fps in
    let '(o, r) :=
      if changed && negb (bool_decide (Some auto_fps = last))
      then ([ToSelf (DMessage (Plain (fps_message (i32 auto_fps))))], r <| last_auto_fps := Some auto_fps |>)
      else ([], r) in
    let '(o', ts) := refresh_all e min_decode_fps r ts in
    (o ++ o', r <| video_threads := list_to_map ts |>)
  end.

(** ** The answer to the login *)

Definition json_field (e : REnv) (s k : string) : option JsonValue :=
  match json_map e s with Some m => m k | None => None end.

Definition set_peer_info (e : REnv) (pi : FullPeerInfo) (r : Remote) : Remote :=
  let p := peer_info r in
  let terminal := match f_terminal pi with Some b => b | None => support_terminal p end in
  let truth o := match o with Some (JBool b) => b | _ => false end in
  let s := platform_additions pi in
  let p := match json_map e s with
           | Some m => mkParsed (pi_platform (base pi)) (truth (m "is_installed"))
                         (match m "idd_impl" with Some (JStr x) => x | _ => "" end) (truth (m "support_view_camera")) terminal
           | None => mkParsed (pi_platform (base pi)) (pp_is_installed p) (pp_idd_impl p) (support_view_camera p) terminal
           end in
  r <| peer_info := p |>.

Definition check_view_camera_support (e : REnv) (pi : FullPeerInfo) (r : Remote) : bool * res :=
  if support_view_camera (peer_info r) then (true, ret r)
  else (false,
    if (Version.get_version_number (pi_version (base pi)) <? Version.get_version_number "1.3.9")
       && (String.eqb (pi_platform (base pi)) "Windows" || String.eqb (pi_platform (base pi)) "Linux")
    then msgbox e "error" "Download new version" "upgrade_remote_rustdesk_client_to_{1.3.9}_tip" "" r
    else on_error e "view_camera_unsupported_tip" r).

Definition check_terminal_support (e : REnv) (pi : FullPeerInfo) (r : Remote) : bool * res :=
  if support_terminal (peer_info r) then (true, ret r)
  else (false,
    if Version.get_version_number (pi_version (base pi)) <? Version.get_version_number "1.4.1"
    then msgbox e "error" "Remote terminal not supported"
           "Remote terminal is not supported by the remote side. Please upgrade to version 1.4.1 or higher." "" r
    else on_error e "Remote terminal is not supported by the remote side" r).

(** [LoginConfigHandler::handle_peer_info] *)
Definition lc_handle_peer_info (e : REnv) (pi : PeerInfo) (r : Remote) : res :=
  let '(c, sync) := Client.handle_peer_info get_uuid ds (cl (le e)) pi (cli r) in
  (match sync with Some h => [Ui (SyncPeerHash h)] | None => [] end, r <| cli := c |>).

Definition do_change_resolution (display w h : Z) (r : Remote) : res :=
  out (ToSelf (DMessage (Plain (MMisc
    (if is_support_multi_ui_session_num (version (lcr r)) then ChangeDisplayResolution display w h else ChangeResolution w h))))) r.

Definition change_resolution (e : REnv) (display w h : Z) (r : Remote) : res :=
  do_change_resolution display w h (r <| last_change_display := mkChangeDisplay (instant e) display w h |>).

Definition try_change_init_resolution (e : REnv) (display : Z) (r : Remote) : res :=
  match get_custom_resolution display (lcr r) with
  | Some (w, h) => change_resolution e display w h r
  | None => ret r
  end.

Definition send_selected_session_id (e : REnv) (sid : string) (r : Remote) : res :=
  match parse_int 0 (2 ^ 32 - 1) sid with
  | Some s =>
    let r := upd_lcr (fun l => l <| selected_windows_session_id := Some s |>) r in
    out (ToSelf (DMessage (SelectedSid s))) r
  | None => ret r
  end.

(** The end of [Interface::handle_peer_info], when nothing is missing;
    [send_selected_session_id] shows its own boxes from the stored information
    about the peer. *)
Definition connected (e : REnv) (pi : FullPeerInfo) (r : Remote) : res :=
  let sessions := windows_sessions pi in
  then_ (ui UpdatePrivacyMode r) (fun r =>
  then_ (lc_handle_peer_info e (base pi) r) (fun r =>
  then_ (ui UiSetPeerInfo r) (fun r =>
  then_ (if is_file_transfer r then ui CloseSuccess r
         else if negb (is_port_forward r) && negb (is_terminal r)
         then msgbox e "success" "Successful" "Connected, waiting for image..." "" r
         else ret r) (fun r =>
  then_ (ui (OnConnected (conn_type (lcr r))) r) (fun r =>
  match ws_sessions sessions with
  | [] => ret r
  | l =>
    if bool_decide (selected_windows_session_id (lcr r) = Some (ws_current_sid sessions)) then
      then_ (send_selected_session_id e (show (ws_current_sid sessions)) r) (fun r =>
        if is_file_transfer r then
          if String.eqb (pi_username (base pi)) ""
          then on_error e "No active console user logged on, please connect and logon first." r else ret r
        else if negb (is_terminal r) then msgbox e "success" "Successful" "Connected, waiting for image..." "" r
        else ret r)
    else ui (SetMultipleWindowsSession (len l)) r
  end))))).

(** [Interface::handle_peer_info] *)
Definition handle_peer_info (e : REnv) (pi : FullPeerInfo) (r : Remote) : res :=
  let r := r <| peer_displays := Some (displays pi) |> in
  let cur := if len (displays pi) <=? u64 (current_display pi) then 0 else current_display pi in
  then_ (if Version.get_version_number (pi_version (base pi)) <? Version.get_version_number "1.1.10"
         then ui (SetPermission "restart" false) r else ret r) (fun r =>
  if is_file_transfer r then
    if String.eqb (pi_username (base pi)) "" && match ws_sessions (windows_sessions pi) with [] => true | _ => false end
    then on_error e "No active console user logged on, please connect and logon first." r
    else connected e pi r
  else if negb (is_port_forward r) && negb (is_terminal r) then
    match displays pi !! Z.to_nat cur with
    | None =>
      then_ (lc_handle_peer_info e (base pi) r) (fun r =>
      then_ (ui UpdatePrivacyMode r) (msgbox e "error" "Error" (if is_view_camera r then "No cameras" else "No displays") ""))
    | Some d =>
      then_ (try_change_init_resolution e cur r) (fun r =>
      let p := should_auto_login (lcr r) in
      then_ (if String.eqb p "" then ret r else out (InputOsPassword p) r) (fun r =>
      then_ (ui (SetDisplay (d_x d) (d_y d) (d_width d) (d_height d) (d_cursor_embedded d) (d_scale d)) r) (connected e pi)))
    end
  else connected e pi r).

(** ** Jobs of earlier sessions *)

(** [str::strip_suffix] of a closing brace. *)
Definition strip_brace (s : string) : option string :=
  if ends_with "}" s then Some (String.substring 0 (String.length s - 1) s) else None.

Definition try_auto_start_job_str (is_reconnected : bool) (job : string) : option string :=
  if is_reconnected then
    let job := trim job in
    Some (match strip_brace job with
          | Some s => s +:+ "," +:+ String "034" "auto_start" +:+ String "034" ": true}"
          | None => job
          end)
  else None.

Fixpoint load_jobs (is_reconnected : bool) (cnt : Z) (l : list string) : list ROut :=
  match l with
  | [] => []
  | j :: l =>
    if String.eqb j "" then load_jobs is_reconnected cnt l
    else Ui (LoadLastJob cnt (unwrap_or j (try_auto_start_job_str is_reconnected j)) is_reconnected)
         :: load_jobs is_reconnected (cnt + 1) l
  end.

Definition load_last_jobs (e : REnv) (r : Remote) : res :=
  let '(cfg, c) := load_config get_uuid ds (cl (le e)) (cli r) in
  let r := r <| cli := c |> in
  let t := transfer cfg in
  (Ui ClearAllJobs ::
   match read_jobs t ++ write_jobs t with
   | [] => []
   | jobs => load_jobs (reconnected e) 1 jobs ++ [Ui UpdateTransferList]
   end, r).

(** What is kept of the jobs when the session ends. *)
Definition sync_jobs_status_to_local (e : REnv) (r : Remote) : bool * Remote :=
  if negb (is_connected r) then (false, r)
  else
    let '(cfg, c) := load_config get_uuid ds (cl (le e)) (cli r) in
    let metas jobs := map (fun j => meta_to_str e (T.gen_meta j)) jobs in
    let t := mkTransferSerde (metas (F.write_jobs (files r))) (metas (F.read_jobs (files r))) in
    (true, r <| cli := if decide (transfer cfg = t) then c
                       else save_config get_uuid (cl (le e)) (cfg <| transfer := t |>) c |>).

(** ** Voice calls *)

Definition stop_voice_call (r : Remote) : res :=
  (if stop_voice_call_sender r then [StopVoice] else [], r <| stop_voice_call_sender := false |>).

(** The new sender replaces the old one: a call that still runs ends. *)
Definition start_voice_call (r : Remote) : res :=
  let ended := if stop_voice_call_sender r then [StopVoice] else [] in
  if is_file_transfer r || is_port_forward r || is_terminal r then (ended, r <| stop_voice_call_sender := false |>)
  else (StartVoice :: ended, r <| stop_voice_call_sender := true |>).

Definition voice_timestamp (e : REnv) : Z := get_time e.

(** ** Ending *)

Definition send_close_reason (reason : string) (r : Remote) : res :=
  if sent_close_reason r then ret r
  else out (Send (Plain (MMisc (CloseReason reason)))) (r <| sent_close_reason := true |>).

Definition is_round_gt (round_ : Z) (s : ConnectionRoundState) : bool :=
  if (round_ =? 2 ^ 32 - 1) && (round s =? 0) then true else round_ <? round s.

Definition new_round (s : ConnectionRoundState) : ConnectionRoundState := mkRound (u32 (round s + 1)) Connecting.
Definition set_connected (s : ConnectionRoundState) : ConnectionRoundState := mkRound (round s) Connected.
Definition set_disconnected (round_ : Z) (s : ConnectionRoundState) : bool * ConnectionRoundState :=
  if is_round_gt round_ s then (false, s) else (true, mkRound (round s) Disconnected).

(** ** Orders of the user interface *)

Definition discard (t : P.VideoThread) : P.VideoThread (Q := Q) := t <| P.discard_queue := true |>.

Definition handle_msg_from_ui (e : REnv) (d : Data) (r : Remote) : outcome (bool * res) :=
  let go (a : res) := Done (true, a) in
  match d with
  | DClose => Done (false, send_close_reason "" r)
  | DLogin os_username os_password password remember =>
    let '(os, c) := handle_login_from_ui get_uuid ds (le e) os_username os_password password remember (cli r) in
    go (login_outs e os (r <| cli := c |>))
  | DMessage m =>
    let r := match m with
             | Plain (MMisc (RefreshVideo _)) => upd_threads discard r
             | Plain (MMisc (RefreshVideoDisplay display)) => upd_thread (u64 display) discard r
             | _ => r
             end in
    go (out (Send m) r)
  | DFile ev => let! a := file_event e ev r in go a
  | DRecordScreen start => go (update_record_state (upd_lcr (fun l => l <| record_state := start |>) r))
  | DElevateDirect => go (out (Send (ElevationRequest None)) (r <| elevation_requested := true |>))
  | DElevateWithLogon u p => go (out (Send (ElevationRequest (Some (u, p)))) (r <| elevation_requested := true |>))
  | DNewVoiceCall =>
    let ts := voice_timestamp e in
    go ([Send (Plain (MVoiceCallRequest ts true)); Ui OnVoiceCallWaiting],
        r <| voice_call_request_timestamp := Some ts |>)
  | DCloseVoiceCall =>
    go (then_ (stop_voice_call r) (fun r =>
        ([Ui (OnVoiceCallClosed "Closed manually by the peer"); Send (Plain (MVoiceCallRequest (voice_timestamp e) false))], r)))
  | DResetDecoder (Some display) => go (ret (upd_thread display (P.send P.Reset) r))
  | DResetDecoder None => go (ret (upd_threads (P.send P.Reset) r))
  | DTakeScreenshot display sid => go (out (Send (Plain (MScreenshotRequest display sid))) r)
  | DPortForward => go (ret r)
  end.

(** ** Notifications of the peer *)

Definition or_default (details default : string) : string := if String.eqb details "" then default else details.

Definition handle_back_msg_block_input (e : REnv) (s : BlockInputState) (details : string) (r : Remote) : res :=
  match s with
  | BlkOnSucceeded => ui (UpdateBlockInputState true) r
  | BlkOnFailed =>
    then_ (msgbox e "custom-error" "Block user input" (or_default details "Failed") "" r) (ui (UpdateBlockInputState false))
  | BlkOffSucceeded => ui (UpdateBlockInputState false) r
  | BlkOffFailed => msgbox e "custom-error" "Unblock user input" (or_default details "Failed") "" r
  | BlkStateUnknown => ret r
  end.

Definition update_privacy_mode (e : REnv) (impl_key : string) (on : bool) (r : Remote) : res :=
  let '(cfg, c) := load_config get_uuid ds (cl (le e)) (cli r) in
  let cfg := cfg <| privacy_mode := on |> in
  let cfg := if on
             then cfg <| options := <[ "privacy-mode-impl-key" := or_default impl_key "privacy_mode_impl_mag" ]> (options cfg) |>
             else cfg in
  ui UpdatePrivacyMode (r <| cli := save_config get_uuid (cl (le e)) cfg c |>).

Definition handle_back_msg_privacy_mode (e : REnv) (s : PrivacyModeState) (details impl_key : string) (r : Remote)
  : bool * res :=
  let say t text r := msgbox e t "Privacy mode" text "" r in
  let set on r := update_privacy_mode e impl_key on r in
  match s with
  | PrvOnByOther => (false, msgbox e "error" "Connecting..." "Someone turns on privacy mode, exit" "" r)
  | PrvNotSupported => (true, then_ (say "custom-error" "Unsupported" r) (set false))
  | PrvOnSucceeded => (true, then_ (say "custom-nocancel" "Enter privacy mode" r) (set true))
  | PrvOnFailedDenied => (true, then_ (say "custom-error" "Peer denied" r) (set false))
  | PrvOnFailedPlugin => (true, then_ (say "custom-error" "Please install plugins" r) (set false))
  | PrvOnFailed => (true, then_ (say "custom-error" (or_default details "Failed") r) (set false))
  | PrvOffSucceeded => (true, then_ (say "custom-nocancel" "Exit privacy mode" r) (set false))
  | PrvOffByPeer => (true, then_ (say "custom-error" "Peer exit" r) (set false))
  | PrvOffFailed => (true, say "custom-error" (or_default details "Failed to turn off") r)
  | PrvOffUnknown => (true, then_ (say "custom-error" "Turned off" r) (set false))
  | PrvStateUnknown => (true, ret r)
  end.

(** ** Permissions of the peer *)

Definition is_file_clipboard_required (r : Remote) : bool :=
  server_keyboard_enabled r && server_file_transfer_enabled r && enable_file_copy_paste (config (lcr r)).

Definition on_permission (p : Permission) (enabled : bool) (r : Remote) : res :=
  match p with
  | Keyboard => ([UpdateTextRequired; UpdateFileRequired; Ui (SetPermission "keyboard" enabled)],
                 r <| server_keyboard_enabled := enabled |>)
  | Clipboard => ([UpdateTextRequired; Ui (SetPermission "clipboard" enabled)], r <| server_clipboard_enabled := enabled |>)
  | Audio => ui (SetPermission "audio" enabled) r
  | Msg.File =>
    let r := r <| server_file_transfer_enabled := enabled |> in
    if negb enabled && is_file_transfer r then ret r
    else ([UpdateFileRequired; Ui (SetPermission "file" enabled)]
          ++ (if enabled then [] else [EmptyClipboardFiles (client_conn_id r)]), r)
  | Restart => ui (SetPermission "restart" enabled) r
  | Recording =>
    then_ (update_record_state (upd_lcr (fun l => l <| record_permission := enabled |>) r)) (ui (SetPermission "recording" enabled))
  | BlockInput => ui (SetPermission "block_input" enabled) r
  end.

(** ** The file clipboard *)

Definition handle_local_clipboard_msg (e : REnv) (clip : C.ClipboardFile) (r : Remote) : res :=
  match clip with
  | C.NotifyCallback type title text => msgbox e type title text "" r
  | _ =>
    let stop := C.is_stopping_allowed clip
                && (view_only (config (lcr r)) || negb (is_connected r)
                    || negb (server_file_transfer_enabled r && enable_file_copy_paste (config (lcr r)))) in
    if stop then ret r else out (Send (Plain (CM.clip_2_msg (metadata_len e) clip))) r
  end.

Definition handle_cliprdr_msg (e : REnv) (clip : Cliprdr) (r : Remote) : outcome res :=
  let other := match clip with FormatList _ => negb (client_conn_id r =? cur_peer_conn e) | _ => false end in
  if other then Done (ret r)
  else
    match CM.msg_2_clip clip with
    | None => Done (ret r)
    | Some clip =>
      if C.is_beginning_message clip && negb (is_file_clipboard_required r) then Done (ret r)
      else if is_support_file_copy_paste_num (version (lcr r)) then
        let! (msgs, effects, s) :=
          CM.serve_clip_messages (U := utf16 e) (clip_disk e) (metadata_len e) (mount_ok e) (clip_now e) (stream_id e)
            CM.Client clip (client_conn_id r) (clip_state r) in
        Done (map ClipEffect effects ++ map (fun m => Send (Plain m)) msgs, r <| clip_state := s |>)
      else Done (ret r)
    end.

(** ** Displays *)

Definition CHANGE_RESOLUTION_VALID_TIMEOUT_SECS : Z := 15.

Definition is_the_same_record (e : REnv) (display w h : Z) (c : ChangeDisplayRecord) : bool :=
  ((instant e - cd_time c) / 1000 <? CHANGE_RESOLUTION_VALID_TIMEOUT_SECS)
  && (cd_display c =? display) && (cd_width c =? w) && (cd_height c =? h).

Definition set_custom_resolution (e : REnv) (s : SwitchDisplayMsg) (r : Remote) : Remote :=
  let set wh := upd_cli (Client.set_custom_resolution get_uuid ds (cl (le e)) (s_display s) wh) r in
  if (s_width s =? fst (s_original s)) && (s_height s =? snd (s_original s)) then set None
  else if cd_display (last_change_display r) =? s_display s then
    set (if is_the_same_record e (s_display s) (s_width s) (s_height s) (last_change_display r)
         then Some (s_width s, s_height s) else None)
  else r.

Definition on_switch_display (e : REnv) (s : SwitchDisplayMsg) (r : Remote) : res :=
  then_ (ui (UiSwitchDisplay (s_display s)) r) (fun r =>
  let r := set_custom_resolution e s r in
  let r := upd_thread (u64 (s_display s)) (P.send P.Reset) r in
  let scale := match peer_displays r with
               | Some l => match (if u64 (s_display s) <? len l then l !! Z.to_nat (u64 (s_display s)) else None) with
                           | Some d => d_scale d | None => 1 end
               | None => 1
               end in
  if (0 <? s_width s) && (0 <? s_height s)
  then ui (SetDisplay (s_x s) (s_y s) (s_width s) (s_height s) (s_cursor_embedded s) scale) r else ret r).

(** ** Messages of the peer *)

Definition LINK_DOCS_HOME : string := "https://rustdesk.com/docs/en/".
Definition HELPER_URL (k : string) : option string :=
  if String.eqb k "rustdesk docs home" then Some LINK_DOCS_HOME
  else if String.eqb k "rustdesk docs x11-required" then Some SCRAP_X11_REF_URL
  else if String.eqb k "rustdesk x11 headless" then Some LINK_HEADLESS
  else None.

(** The prompts of Windows' UAC and elevated windows. *)
Definition on_elevated (e : REnv) (tag text : string) (b : bool) (r : Remote) : res :=
  if b && server_keyboard_enabled r then msgbox e tag "Prompt" text "" r
  else ([Ui (CancelMsgbox tag); Ui (CancelMsgbox "wait-uac"); Ui (CancelMsgbox "elevation-error")], r).

Definition on_login_peer_info (e : REnv) (pi : FullPeerInfo) (r : Remote) : bool * res :=
  let r := set_peer_info e pi r in
  let refuse (a : res) := (false, then_ a (lc_handle_peer_info e (base pi))) in
  let accept r :=
    (true,
     then_ (handle_peer_info e pi r) (fun r =>
     then_ (if is_default r
            then ([StartClipboard] ++ (if sync_init_clipboard (config (lcr r)) then [SyncInitClipboard] else [])
                  ++ [UpdateTextRequired; UpdateFileRequired], r)
            else ret r) (fun r =>
     then_ (if is_file_transfer r then load_last_jobs e r else ret r) (fun r =>
     ret (r <| is_connected := true |>))))) in
  if is_view_camera r then
    match check_view_camera_support e pi r with
    | (true, _) => accept r
    | (false, a) => refuse a
    end
  else if is_terminal r then
    match check_terminal_support e pi r with
    | (true, _) => accept r
    | (false, a) => refuse a
    end
  else accept r.

Definition on_misc (e : REnv) (m : PeerMsg) (r : Remote) : bool * res :=
  let go a := (true, a) in
  match m with
  | PAudioFormat sr ch => go (out (ToAudioFormat sr ch) r)
  | PChatMessage t => go (ui (NewMessage t) r)
  | PPermissionInfo (Some p) b => go (on_permission p b r)
  | PSwitchDisplay s => go (on_switch_display e s r)
  | PCloseReason c => (false, msgbox e "error" "Connection Error" c "" (r <| sent_close_reason := true |>))
  | PBlockInputState s details => go (handle_back_msg_block_input e (unwrap_or BlkStateUnknown s) details r)
  | PPrivacyModeState s details k => handle_back_msg_privacy_mode e (unwrap_or PrvStateUnknown s) details k r
  | PUac b => go (on_elevated e "on-uac" "Please wait for confirmation of UAC..." b r)
  | PForegroundWindowElevated b => go (on_elevated e "on-foreground-elevated" "elevated_foreground_window_tip" b r)
  | PElevationResponse err =>
    go (if String.eqb err "" then msgbox e "wait-uac" "" "" "" r
        else then_ (ui (CancelMsgbox "wait-uac") r) (msgbox e "elevation-error" "Elevation Error" err ""))
  | PPortableServiceRunning b =>
    go (then_ (ui (PortableServiceRunning b) r) (fun r =>
        if elevation_requested r && b
        then msgbox e "custom-nocancel-success" "Successful" "Elevate successfully" "" r else ret r))
  | PSwitchBack => go (ui UiSwitchBack r)
  | PSupportedEncoding c => go (ret (r <| supported_encoding := Some c |>))
  | PFollowCurrentDisplay d => go (ui (SetCurrentDisplay d) r)
  | _ => go (ret r)
  end.

(** [false] ends the session. *)
Definition handle_msg_from_peer (e : REnv) (m : PeerMsg) (r : Remote) : outcome (bool * res) :=
  let go (a : res) := Done (true, a) in
  match m with
  | PVideoFrame vf => go (on_video_frame e vf r)
  | PHash salt challenge =>
    let '(os, c) := handle_hash get_uuid ds (le e) (preset_password e) salt challenge (cli r) in
    go (login_outs e os (r <| cli := c |>))
  | PLoginError err trusted =>
    let r := if String.eqb err Conn.REQUIRE_2FA then r <| enable_trusted_devices := trusted |> else r in
    let '(os, again, c) := handle_login_error get_uuid ds (le e) err (cli r) in
    Done (again, login_outs e os (r <| cli := c |>))
  | PLoginPeerInfo pi => Done (on_login_peer_info e pi r)
  | PCursorData id => go (ui (SetCursorData id) r)
  | PCursorId id => go (ui (SetCursorId id) r)
  | PCursorPosition x y => go (ui (SetCursorPosition x y) r)
  | PClipboard contents =>
    go (if disable_clipboard (config (lcr r)) then ret r else out (UpdateClipboard contents) r)
  | PCliprdr c => let! a := handle_cliprdr_msg e c r in go a
  | PFileResponse fr => let! a := file_event e (F.PeerResponse fr) r in go a
  | PTestDelay t =>
    go (if td_from_client t then ret r
        else ([Ui (UpdateQualityStatus (mkQualityStatus None [] None None (Some (td_last_delay t)) (Some (td_target_bitrate t))));
               Send (Plain (MTestDelay t))], r))
  | PAudioFrame data => go (if disable_audio (config (lcr r)) then ret r else out (ToAudio data) r)
  | PFileAction a => let! x := file_event e (F.PeerAction a) r in go x
  | PMessageBox b =>
    go (msgbox e (mb_msgtype b) (mb_title b) (mb_text b) (unwrap_or "" (HELPER_URL (mb_link b))) r)
  | PVoiceCallRequest is_connect =>
    go (if negb is_connect && stop_voice_call_sender r
        then ([StopVoice; Ui (OnVoiceCallClosed "")], r <| stop_voice_call_sender := false |>) else ret r)
  | PVoiceCallResponse accepted ts =>
    let pending := voice_call_request_timestamp r in
    let r := r <| voice_call_request_timestamp := None |> in
    go (match pending with
        | Some t =>
          if ts =? t then
            if accepted then then_ (ui OnVoiceCallStarted r) start_voice_call else ui (OnVoiceCallClosed "") r
          else ret r
        | None => ret r
        end)
  | PPeerInfo l additions => go ([Ui (SetDisplays (len l)); Ui (SetPlatformAdditions additions)], r)
  | PScreenshotResponse sid msg data => go (ui (ScreenshotResp sid msg data) r)
  | PTerminalResponse opened payload =>
    let r := match opened with
             | Some (true, service_id) =>
               if String.eqb service_id "" then r
               else upd_cli (set_option get_uuid ds (cl (le e)) (get_key_terminal_service_id (lcr r)) service_id) r
             | _ => r
             end in
    go (ui (TerminalResp payload) r)
  | POther => go (ret r)
  | m => Done (on_misc e m r)
  end.

(** ** The loop *)

Definition SEC30 : Z := 30000.

Inductive LoopEvent : Type :=
| FromPeer (bytes : Z) (m : option PeerMsg)    (* the length and, if it parses, the message *)
| PeerFails (errno : Z) (err : string)
| PeerCloses
| FromUi (d : Data)
| LocalClipboard (c : C.ClipboardFile)
| TimerTick
| StatusTick (direct : bool)
| PlayerRuns (display : Z) (f : P.VideoThread (Q := Q) -> P.VideoThread (Q := Q)).   (* the thread of a display *)

Definition on_peer_closes (e : REnv) (r : Remote) : res :=
  if restarting_remote_device (lcr r)
  then msgbox e "restarting" "Restarting remote device" "remote_restarting_tip" "" r
  else msgbox e "error" "Connection Error" "Reset by the peer" "" r.

Definition on_status_tick (e : REnv) (direct : bool) (r : Remote) : res :=
  let elapsed := instant e - fps_instant r in
  if elapsed <? 1000 then ret r
  else
    let speed := data_count r in
    let r := r <| fps_instant := instant e |> <| data_count := 0 |> in
    let fps := (fun t => P.frame_count t * 1000 / elapsed) <$> video_threads r in
    let r := upd_threads (fun t => t <| P.frame_count := 0 |>) r in
    then_ (fps_control e direct fps r) (fun r =>
    ui (UpdateQualityStatus (mkQualityStatus (Some (speed, elapsed)) (map_to_list fps) (chroma r)
          (if decide (video_format r = P.Unknown) then None else Some (video_format r)) None None)) r).

Definition loop_step (e : REnv) (ev : LoopEvent) (r : Remote) : outcome (bool * res) :=
  match ev with
  | FromPeer n m =>
    let r := r <| last_recv_time := instant e |> in
    let r := if recv_once r then r else upd_lcr (fun l => l <| received := true |>) (r <| recv_once := true |>) in
    let r := r <| data_count := data_count r + n |> in
    match m with
    | Some m => handle_msg_from_peer e m r
    | None => Done (true, ret r)
    end
  | PeerFails errno err => Done (false, login_outs e [on_establish_connection_error errno err (lcr r)] r)
  | PeerCloses => Done (false, on_peer_closes e r)
  | FromUi d => handle_msg_from_ui e d r
  | LocalClipboard c => Done (true, handle_local_clipboard_msg e c r)
  | TimerTick =>
    if SEC30 <=? instant e - last_recv_time r
    then Done (false, msgbox e "error" "Connection Error" "Timeout" "" r)
    else let! a := file_event e F.Tick r in Done (true, a)
  | StatusTick direct => Done (true, on_status_tick e direct r)
  | PlayerRuns d f => Done (true, ret (upd_thread d f r))
  end.

(** The events until the session ends, each with its surroundings; the flag
    tells that it has ended. *)
Fixpoint loop (evs : list (REnv * LoopEvent)) (r : Remote) : outcome (list ROut * bool * Remote) :=
  match evs with
  | [] => Done ([], false, r)
  | (e, ev) :: evs =>
    let! (go, a) := loop_step e ev r in
    let '(o, r) := a in
    if go then let! (os, fin, r) := loop evs r in Done (o ++ os, fin, r)
    else Done (o, true, r)
  end.

(** [Remote::new] on what the session has. *)
Definition new_remote (e : REnv) (c : Client) (pd : option (list DisplayInfo)) (enc : option CodecAbility)
  (trusted : bool) (auto : option Z) (marked : list P.CodecFormat) (kb ft cb : bool) (cd : ChangeDisplayRecord)
  (round_ : ConnectionRoundState) (disk : T.FS) (clip : CM.ClipState) : Remote :=
  mkRemote c pd enc trusted auto marked kb ft cb cd round_
    (F.mkFiles [] [] ∅ (instant e) ∅ false disk) false None false false 0 0 P.Unknown false
    (mkParsed "" false "" false false) ∅ None false false clip (instant e) false (instant e).

(** The stream is there; [conn_id] is the channel of the file clipboard. *)
Definition begin (e : REnv) (secured direct_ : bool) (conn_id : Z) (r : Remote) : res :=
  let r := r <| connection_round_state := set_connected (connection_round_state r) |> in
  then_ (ui (SetConnectionType secured direct_) r) (fun r =>
  let r := upd_lcr (fun l => l <| direct := Some direct_ |>) r in
  then_ (if is_default r || is_view_camera r then ui SetFingerprint r else ret r) (fun r =>
  ret (if is_default r then r <| client_conn_id := conn_id |> else r))).

(** After the loop; [round_] is the round this session was started for. *)
Definition finish (kcp : bool) (round_ : Z) (r : Remote) : res :=
  then_ (stop_voice_call r) (fun r =>
  then_ (if kcp then send_close_reason "kcp" r else ret r) (fun r =>
  let '(ok, s) := set_disconnected round_ (connection_round_state r) in
  (if is_default r && ok then [StopClipboard; EmptyClipboardFiles (client_conn_id r)] else [],
   r <| connection_round_state := s |>))).

(** What [reconnect] does to the session that exists: whether it is told to
    close, and the round of the new one; [None] while it is still connecting. *)
Definition reconnect (has_thread force_relay_ : bool) (r : Remote) : option (list ROut * Z * Remote) :=
  let s := connection_round_state r in
  let start o :=
    let s := new_round s in
    Some (o, round s,
          (if force_relay_ then upd_lcr (fun l => l <| force_relay := true |>) r else r)
            <| connection_round_state := s |> <| peer_displays := None |>) in
  if has_thread then
    match state s with
    | Connecting => None
    | Connected => start [ToSelf DClose]
    | Disconnected => start []
    end
  else start [].

End Session.
End Session.
