(* ===== verification/ClientLoopProofs.v ===== *)
(** * Theorems about the session of the controlling side

    - [Recording]: the peer is told of every change of the recording, and it
      runs only while the peer permits it.
    - [Voice]: the microphone is opened only for a request of the user.
    - [Rate]: the frame rate the session asks for stays below what its slowest
      decoder manages and within the user's limit.
    - [Jobs]: the jobs of the file window survive the session. *)

From S2P Require Import Prelude RustStr SecureStream Password Config NetUtil FileTransfer Messages FileManager ClientFiles ClipFiles ClipMsg VideoPlayer PeerConfig PeerConfigProofs Service Server Connection ConnectionAuth ClientConfig ClientOptions ClientLogin ClientLoop.

#[local] Open Scope rust_scope.

Module SessionFacts.

Import Msg PeerCfg Client Login Session.

Section Facts.
Context `{SB : SecretBox} `{B64 : Base64} `{FT : F64Text}.
Context {Q : Type} `{AQ : P.ArrayQueue Q}.
Context (get_uuid : list Z) (ds : DisplaySettings).

Abbreviation RemoteT := (Remote (Q := Q)).
Abbreviation from_peer := (handle_msg_from_peer (Q := Q) get_uuid ds).
Abbreviation from_ui := (handle_msg_from_ui (Q := Q) get_uuid ds).
Abbreviation stepT := (loop_step (Q := Q) get_uuid ds).
Abbreviation loopT := (loop (Q := Q) get_uuid ds).

(** ** Handlers that neither record nor listen *)

(** What the theorems about recording and voice calls look at. *)
Definition rec_of (l : Lc) : bool * bool := (record_state l, record_permission l).

Definition quiet (o : ROut) : Prop :=
  match o with
  | StartVoice | ToSelf (DMessage (Plain (MMisc (ClientRecordStatus _)))) => False
  | _ => True
  end.

Record calm (r : RemoteT) (a : list ROut * RemoteT) : Prop := mkCalm {
  calm_out : Forall quiet (fst a);
  calm_last : last_record_state (snd a) = last_record_state r;
  calm_rec : rec_of (lcr (snd a)) = rec_of (lcr r);
  calm_voice : voice_call_request_timestamp (snd a) = voice_call_request_timestamp r }.

Lemma calm_ret r : calm r (ret r).
Proof using. by split. Qed.

Lemma calm_then r a k : calm r a -> (forall r', calm r' (k r')) -> calm r (then_ a k).
Proof using.
  intros [H1 H2 H3 H4] Hk. destruct a as [o r1]. cbn in *. specialize (Hk r1). unfold then_.
  destruct (k r1) as [o' r2]. destruct Hk as [K1 K2 K3 K4]. cbn in *.
  split; cbn; [by apply Forall_app|by rewrite K2|by rewrite K3|by rewrite K4].
Qed.

Lemma calm_out1 o r : quiet o -> calm r (out o r).
Proof using. intros H. split; [|done..]. by repeat constructor. Qed.

Lemma calm_ui u r : calm r (ui u r).
Proof using. by apply calm_out1. Qed.

(** A state that differs elsewhere. *)
Definition same (r r' : RemoteT) : Prop :=
  last_record_state r' = last_record_state r /\ rec_of (lcr r') = rec_of (lcr r)
  /\ voice_call_request_timestamp r' = voice_call_request_timestamp r.

Lemma calm_same r r' o : same r r' -> Forall quiet o -> calm r (o, r').
Proof using. intros (H1 & H2 & H3) Ho. by split. Qed.

Lemma calm_from r r' a : same r r' -> calm r' a -> calm r a.
Proof using. intros (H1 & H2 & H3) [K1 K2 K3 K4]. split; [done|congruence..]. Qed.

Lemma same_cli r c : rec_of (lc c) = rec_of (lcr r) -> same r (r <| cli := c |>).
Proof using. intros H. repeat split. exact H. Qed.

(** ** The settings of the session *)

Lemma load_config_rec e c cfg c' : load_config get_uuid ds e c = (cfg, c') -> rec_of (lc c') = rec_of (lc c).
Proof using. unfold load_config. destruct (load _ _ _ _ _). by intros [= _ <-]. Qed.

Lemma save_config_rec e cfg c : rec_of (lc (save_config get_uuid e cfg c)) = rec_of (lc c).
Proof using. done. Qed.

Lemma save_with_rec e f c : rec_of (lc (save_with get_uuid ds e f c)) = rec_of (lc c).
Proof using.
  unfold save_with. destruct (load_config get_uuid ds e c) as [cfg c'] eqn:E. by apply load_config_rec in E.
Qed.

Lemma set_option_rec e k v c : rec_of (lc (set_option get_uuid ds e k v c)) = rec_of (lc c).
Proof using.
  unfold set_option. destruct (load_config get_uuid ds e c) as [cfg c'] eqn:E. apply load_config_rec in E.
  by destruct (String.eqb _ _).
Qed.

Lemma option_quality_rec e i o c : rec_of (lc (option_quality get_uuid ds e i o c).2) = rec_of (lc c).
Proof using.
  unfold option_quality. destruct (get_image_quality_enum _ _); [done|]. destruct (String.eqb _ _); [|done].
  destruct (load_config get_uuid ds e c) as [cfg c'] eqn:E. apply load_config_rec in E.
  destruct (options _ !! _); done.
Qed.

Lemma get_option_message_rec e i c : rec_of (lc (get_option_message get_uuid ds e i c).2) = rec_of (lc c).
Proof using.
  unfold get_option_message. pose proof (option_quality_rec e i default_om c) as H.
  destruct (conn_type (lc c)); try done; try (by destruct (option_quality get_uuid ds e i default_om c)).
  by destruct (get_toggle_option _ _).
Qed.

Lemma create_login_rec e u p pw c : rec_of (lc (create_login_msg get_uuid ds e u p pw c).2) = rec_of (lc c).
Proof using.
  unfold create_login_msg. pose proof (get_option_message_rec (cl e) true c) as H.
  destruct (match other_server (lc c) with Some _ => _ | None => _ end).
  by destruct (get_option_message get_uuid ds (cl e) true c).
Qed.

Lemma send_login_rec e u p pw c : rec_of (lc (send_login get_uuid ds e u p pw c).2) = rec_of (lc c).
Proof using.
  unfold send_login. pose proof (create_login_rec e u p pw c) as H.
  by destruct (create_login_msg get_uuid ds e u p pw c).
Qed.

Lemma choose_password_rec e p c : rec_of (lc (choose_password e p c).2) = rec_of (lc c).
Proof using. unfold choose_password. repeat case_match; done. Qed.

Lemma handle_hash_rec e p s ch c : rec_of (lc (handle_hash get_uuid ds e p s ch c).2) = rec_of (lc c).
Proof using.
  unfold handle_hash. set (c0 := upd_lc (fun l => l <| salt := s |> <| challenge := ch |>) c).
  set (c1 := upd_lc (fun l => l <| switch_uuid := None |>) c0).
  change (rec_of (lc c)) with (rec_of (lc c1)).
  destruct (match switch_uuid (lc c0) with Some u => _ | None => _ end) as [u|].
  - unfold send_switch_login_request. pose proof (create_login_rec e "" "" [] c1) as H.
    by destruct (create_login_msg get_uuid ds e "" "" [] c1).
  - pose proof (choose_password_rec e p c1) as H. destruct (choose_password e p c1) as [pw c2]. cbn [snd] in H.
    destruct (_ && _); [done|]. destruct (if bool_decide (conn_type _ = TERMINAL) then _ else _) as [u w].
    set (c3 := upd_lc (fun l => l <| lc_password := pw |>) c2). 
    pose proof (send_login_rec e u w (if bool_decide (pw = []) then [] else answer e pw ch) c3) as H'.
    destruct (send_login get_uuid ds e u w _ c3). cbn [snd] in *. rewrite H'. exact H.
Qed.

Lemma handle_login_from_ui_rec e u p pw rem c :
  rec_of (lc (handle_login_from_ui get_uuid ds e u p pw rem c).2) = rec_of (lc c).
Proof using.
  unfold handle_login_from_ui.
  destruct (if String.eqb pw "" then _ else _) as [w c1] eqn:E.
  assert (rec_of (lc c1) = rec_of (lc c)) as H.
  { revert E. destruct (String.eqb pw ""); [|by intros [= _ <-]].
    destruct (lc_password (lc c)); [|by intros [= _ <-]]. destruct (password _); by intros [= _ <-]. }
  by rewrite send_login_rec.
Qed.

Lemma handle_login_error_rec e err c : rec_of (lc (handle_login_error get_uuid ds e err c).2) = rec_of (lc c).
Proof using.
  unfold handle_login_error. do 2 (destruct (String.eqb err _); [done|]).
  destruct (_ || _).
  - destruct (String.eqb _ _); [apply set_option_rec|done].
  - destruct (find _ _) as [[? ?]|]; done.
Qed.

Lemma handle_peer_info_rec e pi c : rec_of (lc (Client.handle_peer_info get_uuid ds e pi c).1) = rec_of (lc c).
Proof using.
  unfold Client.handle_peer_info.
  set (l := (if negb (String.eqb (pi_version pi) "") then _ else _) <| features := _ |>).
  assert (rec_of l = rec_of (lc c)) as Hl by (subst l; by destruct (negb _)).
  destruct (load_config get_uuid ds e (c <| lc := l |>)) as [cfg c'] eqn:E. apply load_config_rec in E.
  cbn [fst]. rewrite save_config_rec, E. exact Hl.
Qed.

(** ** Recording and listening *)

Definition told (o : list ROut) : list bool :=
  omap (fun x => match x with ToSelf (DMessage (Plain (MMisc (ClientRecordStatus b)))) => Some b | _ => None end) o.

Definition starts (o : list ROut) : nat :=
  length (List.filter (fun x => match x with StartVoice => true | _ => false end) o).

(** The values in the list are the changes from the first to the last. *)
Fixpoint changes (b : bool) (l : list bool) (b' : bool) : Prop :=
  match l with [] => b = b' | x :: l => x = negb b /\ changes x l b' end.

Definition permitted (r : RemoteT) : Prop :=
  last_record_state r = true -> record_state (lcr r) = true /\ record_permission (lcr r) = true.

Definition pending (r : RemoteT) : nat := match voice_call_request_timestamp r with Some _ => 1 | None => 0 end.

Record recorded (r : RemoteT) (a : list ROut * RemoteT) : Prop := mkRecorded {
  recorded_told : changes (last_record_state r) (told (fst a)) (last_record_state (snd a));
  recorded_permitted : permitted r -> permitted (snd a) }.

Record good (r : RemoteT) (a : list ROut * RemoteT) : Prop := mkGood {
  good_recorded : recorded r a;
  good_starts : starts (fst a) = 0%nat;
  good_voice : voice_call_request_timestamp (snd a) = voice_call_request_timestamp r }.

Lemma told_app o o' : told (o ++ o') = told o ++ told o'.
Proof using. apply omap_app. Qed.

Lemma starts_app o o' : starts (o ++ o') = (starts o + starts o')%nat.
Proof using. unfold starts. by rewrite List.filter_app, length_app. Qed.

Lemma changes_app b l b' l' b'' : changes b l b' -> changes b' l' b'' -> changes b (l ++ l') b''.
Proof using.
  revert b. induction l as [|x l IH]; intros b; cbn; [by intros ->|]. intros [H1 H2] H3. split; [done|]. by apply IH.
Qed.

Lemma changes_last b l b' : changes b l b' -> last (b :: l) = Some b'.
Proof using. revert b. induction l as [|x l IH]; intros b; cbn; [by intros ->|]. intros [_ H]. exact (IH x H). Qed.

Lemma quiet_told o : Forall quiet o -> told o = [].
Proof using.
  unfold told. induction 1 as [|x o Hx _ IH]; [done|]. cbn [omap list_omap]. 
  destruct x as [| [| |[[]| | |]| | | | | | | | |]| | | | | | | | | | | | | |]; try exact IH.
  all: match goal with |- context [match ?m with _ => _ end] => idtac | _ => idtac end.
  all: try exact IH.
  all: cbn in Hx |- *; try exact IH.
  all: case_match; try done; exact IH.
Qed.

Lemma quiet_starts o : Forall quiet o -> starts o = 0%nat.
Proof using. induction 1 as [|x o Hx _ IH]; [done|]. by destruct x. Qed.

Lemma good_calm r a : calm r a -> good r a.
Proof using.
  intros [H1 H2 H3 H4]. split; [|by apply quiet_starts|done]. split.
  - by rewrite (quiet_told _ H1), H2.
  - unfold permitted, rec_of in *. injection H3 as H5 H6. by rewrite H2, H5, H6.
Qed.

Lemma good_then r a k : good r a -> (forall r', good r' (k r')) -> good r (then_ a k).
Proof using.
  intros [[H1 H2] H3 H4] Hk. destruct a as [o r1]. cbn [fst snd] in *. specialize (Hk r1). unfold then_.
  destruct (k r1) as [o' r2]. destruct Hk as [[K1 K2] K3 K4]. cbn [fst snd] in *.
  split; cbn [fst snd]; [split; cbn [fst snd]|..].
  - rewrite told_app. by eapply changes_app.
  - auto.
  - by rewrite starts_app, H3, K3.
  - by rewrite K4.
Qed.

(** After the handler the state of the recording is settled. *)
Lemma good_update r r' :
  last_record_state r' = last_record_state r -> voice_call_request_timestamp r' = voice_call_request_timestamp r ->
  good r (update_record_state r').
Proof using.
  intros Hl Hv. unfold update_record_state.
  set (r1 := if record_permission (lcr r') then r' else _).
  assert (last_record_state r1 = last_record_state r /\ voice_call_request_timestamp r1 = voice_call_request_timestamp r)
    as [Hl1 Hv1] by (subst r1; by destruct (record_permission _)).
  set (start := record_state (lcr r1) && record_permission (lcr r1)).
  destruct (Bool.eqb (last_record_state r1) start) eqn:E.
  - apply Bool.eqb_prop in E. split; [split|done|done].
    + cbn. congruence.
    + intros _. unfold permitted. cbn [snd ret]. rewrite E. subst start. intros H. by apply andb_true_iff in H.
  - apply Bool.eqb_false_iff in E. split; [split|done|done].
    + cbn. split; [|done]. rewrite <- Hl1. revert E. generalize start. intros b. by destruct (last_record_state r1), b.
    + intros _. unfold permitted. cbn [snd last_record_state]. intros H. by apply andb_true_iff in H.
Qed.

(** ** Every handler *)

Lemma calm_msgbox e t ti tx l r : calm r (msgbox e t ti tx l r).
Proof using. apply calm_ui. Qed.

Lemma calm_on_error e err r : calm r (on_error e err r).
Proof using. apply calm_msgbox. Qed.

Lemma calm_login_outs e os r : calm r (login_outs e os r).
Proof using.
  revert r. induction os as [|[t ti tx l|m] os IH]; intros r; [apply calm_ret|..]; (apply calm_then; [|exact IH]).
  - apply calm_msgbox.
  - by apply calm_out1.
Qed.

Lemma calm_login e os r c : rec_of (lc c) = rec_of (lcr r) -> calm r (login_outs e os (r <| cli := c |>)).
Proof using. intros H. eapply calm_from; [by apply same_cli|apply calm_login_outs]. Qed.

Lemma calm_file_event e ev r a : file_event e ev r = Done a -> calm r a.
Proof using.
  unfold file_event. destruct (F.step _ _ _) as [[o s]|]; [|done]. intros [= <-]. apply calm_same; [done|].
  apply Forall_fmap, Forall_true. by intros [].
Qed.

Lemma calm_virtual_display r : calm r (send_toggle_virtual_display_msg r).
Proof using.
  apply calm_same; [done|]. destruct (is_support_virtual_display _); [|constructor].
  induction (split_char _ _) as [|d l IH]; [constructor|]. cbn. destruct (parse_i32 d); [|done]. by constructor.
Qed.

Lemma calm_privacy r : calm r (send_toggle_privacy_mode_msg r).
Proof using.
  unfold send_toggle_privacy_mode_msg. destruct (_ && _); [|apply calm_ret].
  destruct (_ && _); [apply calm_ret|by apply calm_out1].
Qed.

Lemma good_from r r' a : same r r' -> (record_state (lcr r') = record_state (lcr r)) -> good r' a -> good r a.
Proof using.
  intros (H1 & H2 & H3) _ [[K1 K2] K3 K4]. split; [split|done|congruence].
  - by rewrite <- H1.
  - intros Hp. apply K2. unfold permitted, rec_of in *. injection H2 as H4 H5. by rewrite H1, H4, H5.
Qed.

Lemma good_new_thread e d r : good r (new_video_thread e d r).
Proof using.
  unfold new_video_thread. destruct (Nat.eqb _ _).
  - by apply good_update.
  - apply good_calm, calm_same; [done|constructor].
Qed.

Lemma good_on_video e vf r : good r (on_video_frame e vf r).
Proof using.
  apply good_then; [|intros r1; apply (good_from _ (r1 <| video_format := P.format_of vf |>)); [done|done|]; apply good_then].
  - destruct (first_frame r); [apply good_calm, calm_ret|]. apply good_calm, calm_then.
    + apply calm_same; [done|by repeat constructor].
    + intros r'. apply calm_then; [apply calm_virtual_display|apply calm_privacy].
  - destruct (_ !! _); [apply good_calm, calm_ret|apply good_new_thread].
  - intros r2. destruct (_ !! _); [|apply good_calm, calm_ret].
    destruct (P.on_video_frame vf _) as [b t]. apply good_calm, calm_same; [done|].
    destruct b; [|constructor]. constructor; [|constructor]. cbn. by destruct (is_support_multi_ui_session_num _).
Qed.

Lemma calm_lc_peer_info e pi r : calm r (lc_handle_peer_info get_uuid ds e pi r).
Proof using.
  unfold lc_handle_peer_info. pose proof (handle_peer_info_rec (cl (le e)) pi (cli r)) as H.
  destruct (Client.handle_peer_info get_uuid ds (cl (le e)) pi (cli r)) as [c sync].
  apply calm_same; [by apply same_cli|]. by destruct sync; repeat constructor.
Qed.

Lemma calm_change_resolution e d w h r : calm r (change_resolution e d w h r).
Proof using.
  apply calm_same; [done|]. constructor; [|constructor]. cbn. by destruct (is_support_multi_ui_session_num _).
Qed.

Ltac calm :=
  cbv zeta;
  repeat first
    [ apply calm_ret | apply calm_ui | apply calm_msgbox | apply calm_on_error | apply calm_lc_peer_info
    | apply calm_change_resolution | apply calm_login_outs
    | apply calm_then; [|intros ?; cbv beta zeta]
    | by apply calm_out1
    | apply calm_same; [done|by repeat constructor]
    | case_match ].

Lemma calm_selected e sid r : calm r (send_selected_session_id e sid r).
Proof using. unfold send_selected_session_id. destruct (parse_int _ _ _); calm. Qed.

Lemma calm_connected e pi r : calm r (connected get_uuid ds e pi r).
Proof using.
  unfold connected. cbv zeta. do 5 (apply calm_then; [calm|intros ?]).
  destruct (ws_sessions _); [calm|]. destruct (bool_decide _); [|calm].
  apply calm_then; [apply calm_selected|]. intros ?. calm.
Qed.

Lemma calm_peer_info e pi r : calm r (handle_peer_info get_uuid ds e pi r).
Proof using.
  unfold handle_peer_info. eapply (calm_from _ (r <| peer_displays := Some (displays pi) |>)); [done|].
  apply calm_then; [calm|]. intros r1. cbv zeta.
  destruct (is_file_transfer r1); [destruct (_ && _); [calm|apply calm_connected]|].
  destruct (_ && _); [|apply calm_connected].
  destruct (displays pi !! _); [|calm].
  apply calm_then; [unfold try_change_init_resolution; calm|]. intros r2.
  apply calm_then; [calm|]. intros r3. apply calm_then; [calm|]. apply calm_connected.
Qed.

Lemma calm_jobs e r : calm r (load_last_jobs get_uuid ds e r).
Proof using.
  unfold load_last_jobs. destruct (load_config get_uuid ds (cl (le e)) (cli r)) as [cfg c] eqn:E.
  apply load_config_rec in E. apply calm_same; [by apply same_cli|].
  constructor; [done|]. destruct (_ ++ _) as [|j jobs] eqn:Ej; [constructor|]. rewrite <- Ej. clear Ej.
  apply Forall_app. split; [|by repeat constructor].
  generalize 1. induction (read_jobs _ ++ write_jobs _) as [|x l IH]; intros n; [constructor|]. cbn [load_jobs].
  destruct (String.eqb x ""); [apply IH|]. by constructor.
Qed.

Lemma calm_login_peer_info e pi r : calm r (on_login_peer_info get_uuid ds e pi r).2.
Proof using.
  unfold on_login_peer_info. set (r1 := set_peer_info e pi r).
  assert (same r r1) as Hs by (subst r1; unfold set_peer_info; by destruct (json_map e _)).
  assert (forall r, calm r (then_ (handle_peer_info get_uuid ds e pi r) (fun r =>
     then_ (if is_default r
            then ([StartClipboard] ++ (if sync_init_clipboard (config (lcr r)) then [SyncInitClipboard] else [])
                  ++ [UpdateTextRequired; UpdateFileRequired], r)
            else ret r) (fun r =>
     then_ (if is_file_transfer r then load_last_jobs get_uuid ds e r else ret r) (fun r =>
     ret (r <| is_connected := true |>)))))) as Hacc.
  { intros r2. apply calm_then; [apply calm_peer_info|]. intros r3. apply calm_then.
    { destruct (is_default _); [|calm]. destruct (sync_init_clipboard _); calm. }
    intros r4. apply calm_then; [destruct (is_file_transfer _); [apply calm_jobs|calm]|]. intros r5. calm. }
  unfold check_view_camera_support, check_terminal_support.
  destruct (is_view_camera r1); [destruct (support_view_camera _)|destruct (is_terminal r1); [destruct (support_terminal _)|]].
  all: cbn [snd]; eapply calm_from; [exact Hs|]; try apply Hacc.
  all: apply calm_then; [calm|intros; calm].
Qed.

Lemma refresh_quiet e m r ts : Forall quiet (refresh_all e m r ts).1.
Proof using.
  induction ts as [|[d t] ts IH]; [constructor|]. cbn [refresh_all]. destruct (refresh_all e m r ts) as [os ts'].
  destruct (_ && _); [|done]. constructor; [|done]. cbn. by destruct (is_support_multi_ui_session_num _).
Qed.

Lemma calm_fps e d fps r : calm r (fps_control e d fps r).
Proof using.
  unfold fps_control.
  set (r1 := r <| video_threads := _ |>). eapply (calm_from _ r1); [done|].
  destruct (min_rate _) as [[m|]|]; [|calm..].
  destruct (trend_all _ _ _ _) as [tr ts]. cbv zeta.
  match goal with |- context [let '(o, r) := ?x in _] => assert (calm r1 x) as Hx end.
  { destruct (_ && negb (bool_decide _)); calm. }
  match goal with |- context [let '(o, r) := ?x in _] => destruct x as [o r2] end.
  pose proof (refresh_quiet e m r2 ts) as H. destruct (refresh_all e m r2 ts) as [o' ts']. cbn [fst] in H.
  destruct Hx as [H1 H2 H3 H4]. split; cbn [fst snd] in *; [by apply Forall_app|done..].
Qed.

Lemma good_permission p b r : good r (on_permission p b r).
Proof using.
  destruct p; try (by apply good_calm; cbn [on_permission]; calm).
  cbn [on_permission]. apply good_then; [by apply good_update|]. intros. apply good_calm. calm.
Qed.

Lemma calm_privacy_mode e k on r : calm r (update_privacy_mode get_uuid ds e k on r).
Proof using.
  unfold update_privacy_mode. destruct (load_config get_uuid ds (cl (le e)) (cli r)) as [cfg c] eqn:E.
  apply load_config_rec in E. apply calm_same; [by apply same_cli|by repeat constructor].
Qed.

Lemma calm_back_privacy e s d k r : calm r (handle_back_msg_privacy_mode get_uuid ds e s d k r).2.
Proof using.
  destruct s; cbn [handle_back_msg_privacy_mode snd];
    first [by calm | apply calm_then; [calm|intros; apply calm_privacy_mode]].
Qed.

Lemma calm_block_input e s d r : calm r (handle_back_msg_block_input e s d r).
Proof using. destruct s; cbn [handle_back_msg_block_input]; calm. Qed.

Lemma calm_switch_display e s r : calm r (on_switch_display get_uuid ds e s r).
Proof using.
  unfold on_switch_display. apply calm_then; [calm|]. intros r1. cbv zeta.
  set (r2 := set_custom_resolution get_uuid ds e s r1).
  assert (same r1 r2) as H2.
  { subst r2. unfold set_custom_resolution. cbv zeta.
    assert (forall wh, same r1 (upd_cli (Client.set_custom_resolution get_uuid ds (cl (le e)) (s_display s) wh) r1)) as Hs
      by (intros wh; apply same_cli, save_with_rec).
    destruct (_ && _); [apply Hs|]. destruct (_ =? _); [apply Hs|done]. }
  set (r3 := upd_thread (u64 (s_display s)) (P.send P.Reset) r2).
  assert (same r1 r3) as H3 by exact H2.
  eapply calm_from; [exact H3|]. destruct (_ && _); calm.
Qed.

Lemma good_on_misc e m r : good r (on_misc get_uuid ds e m r).2.
Proof using.
  destruct m; cbn [on_misc snd]; try (apply good_calm; by calm).
  - destruct p; cbn [snd]; [apply good_permission|apply good_calm, calm_ret].
  - apply good_calm, calm_switch_display.
  - apply good_calm, calm_block_input.
  - apply good_calm, calm_back_privacy.
  - apply good_calm. unfold on_elevated. calm.
  - apply good_calm. unfold on_elevated. calm.
Qed.

Lemma calm_cliprdr e c r a : handle_cliprdr_msg e c r = Done a -> calm r a.
Proof using.
  unfold handle_cliprdr_msg. destruct (match c with FormatList _ => _ | _ => false end); [intros [= <-]; apply calm_ret|].
  destruct (CM.msg_2_clip c) as [clip|]; [|intros [= <-]; apply calm_ret].
  destruct (_ && _); [intros [= <-]; apply calm_ret|].
  destruct (is_support_file_copy_paste_num _); [|intros [= <-]; apply calm_ret].
  destruct (CM.serve_clip_messages _ _ _ _ _ _ _ _ _) as [[[msgs ef] s]|]; [|done]. intros [= <-].
  apply calm_same; [done|]. apply Forall_app. split; apply Forall_fmap, Forall_true; done.
Qed.

(** What an event may do to the voice call: only the answer to a pending
    request opens the microphone, and only the user makes a request. *)
Definition asks (ev : LoopEvent (Q := Q)) : nat := match ev with FromUi DNewVoiceCall => 1 | _ => 0 end.

Definition answers_pending (ev : LoopEvent (Q := Q)) (r : RemoteT) : Prop :=
  match ev with
  | FromPeer _ (Some (PVoiceCallResponse true ts)) => voice_call_request_timestamp r = Some ts
  | _ => False
  end.

Record fair (ev : LoopEvent) (r : RemoteT) (a : list ROut * RemoteT) : Prop := mkFair {
  fair_recorded : recorded r a;
  fair_voice : (starts (fst a) + pending (snd a) <= pending r + asks ev)%nat;
  fair_answer : starts (fst a) <> 0%nat -> answers_pending ev r }.

Lemma fair_good ev r a : good r a -> fair ev r a.
Proof using.
  intros [H1 H2 H3]. split; [done| |by rewrite H2]. rewrite H2. unfold pending. rewrite H3. lia.
Qed.

Lemma fair_from ev r r' a : same r r' -> (answers_pending ev r' -> answers_pending ev r) -> fair ev r' a -> fair ev r a.
Proof using.
  intros (H1 & H2 & H3) Hp [[K1 K2] K3 K4]. split; [split| |auto].
  - by rewrite <- H1.
  - intros H. apply K2. unfold permitted, rec_of in *. injection H2 as H4 H5. by rewrite H1, H4, H5.
  - unfold pending in *. by rewrite <- H3.
Qed.

Lemma calm_reply r o r' : same r r' -> Forall quiet o -> good r (o, r').
Proof using. intros H1 H2. by apply good_calm, calm_same. Qed.

Lemma good_recorded_voice r o r' : Forall quiet o -> last_record_state r' = last_record_state r ->
  rec_of (lcr r') = rec_of (lcr r) -> recorded r (o, r').
Proof using.
  intros H1 H2 H3. split; cbn [fst snd].
  - by rewrite (quiet_told _ H1), H2.
  - unfold permitted, rec_of in *. injection H3 as H4 H5. by rewrite H2, H4, H5.
Qed.

Lemma done_snd {A B} (x : A * B) y z : Done x = Done (y, z) -> z = snd x.
Proof using. by intros [= ->]. Qed.

Lemma fair_peer n e m r go a : from_peer e m r = Done (go, a) -> fair (FromPeer n (Some m)) r a.
Proof using.
  assert (forall a b, Done (true, a) = Done (go, b) -> good r a -> fair (FromPeer n (Some m)) r b) as Hgo
    by (intros ? ? [= _ <-]; apply fair_good).
  assert (forall x, match x with Done a0 => Done (true, a0) | Panic => Panic end = Done (go, a) ->
            (forall a0, x = Done a0 -> calm r a0) -> fair (FromPeer n (Some m)) r a) as Hb.
  { intros [a0|] [= _ <-] Hc. by apply fair_good, good_calm, Hc. }
  destruct m; cbn [handle_msg_from_peer];
    try (intros E; eapply Hgo; [exact E|apply good_calm; by calm]);
    try (intros E; apply done_snd in E; subst a; apply fair_good, (good_on_misc e _ r)).
  - intros E. eapply Hgo; [exact E|apply good_on_video].
  - match goal with |- context [handle_hash _ _ _ _ ?s ?c _] =>
      pose proof (handle_hash_rec (le e) (preset_password e) s c (cli r)) as H end.
    destruct (handle_hash _ _ _ _ _ _ _) as [os c]. intros E. eapply Hgo; [exact E|]. by apply good_calm, calm_login.
  - set (r1 := if String.eqb err Conn.REQUIRE_2FA then _ else r).
    assert (same r r1 /\ cli r1 = cli r) as [Hs1 Hc1] by (subst r1; by destruct (String.eqb _ _)).
    pose proof (handle_login_error_rec (le e) err (cli r1)) as H.
    destruct (handle_login_error _ _ _ _ _) as [[os again] c]. intros [= _ <-].
    apply fair_good, good_calm. eapply calm_from; [exact Hs1|]. by apply calm_login.
  - intros E. apply done_snd in E. subst a. apply fair_good, good_calm, calm_login_peer_info.
  - unfold outcome_bind. intros E. apply (Hb _ E), calm_cliprdr.
  - unfold outcome_bind. intros E. eapply (Hb _ E), calm_file_event.
  - unfold outcome_bind. intros E. eapply (Hb _ E), calm_file_event.
  - intros [= _ <-]. destruct accepted.
    + destruct (voice_call_request_timestamp r) as [t|] eqn:Ev; cycle 1.
      { apply fair_good, calm_reply; [|constructor]. repeat split. by rewrite Ev. }
      destruct (req_timestamp =? t) eqn:Et; cycle 1.
      { split; [by apply good_recorded_voice; [constructor|..]|cbn; lia|done]. }
      apply Z.eqb_eq in Et. subst t. split.
      * cbn [then_ ui out]. unfold start_voice_call.
        match goal with |- recorded r (let '(o', r0) := ?x in _) => destruct x as [o' r2] eqn:E2 end.
        revert E2. destruct (_ || _); intros [= <- <-].
        all: split; [|done].
        all: cbn [fst snd told omap list_omap app]; by destruct (stop_voice_call_sender _).
      * unfold pending. rewrite Ev. cbn [then_ ui out]. unfold start_voice_call.
        destruct (_ || _); destruct (stop_voice_call_sender _); cbn; lia.
      * intros _. exact Ev.
    + destruct (voice_call_request_timestamp r) as [t|] eqn:Ev; cycle 1.
      { apply fair_good, calm_reply; [|constructor]. repeat split. by rewrite Ev. }
      destruct (req_timestamp =? t); split; try done; try (cbn; lia); apply good_recorded_voice; by repeat constructor.
  - intros [= _ <-]. apply fair_good, good_calm.
    assert (forall r', same r r' -> calm r (ui (TerminalResp payload) r')) as Hc
      by (intros r' H; eapply calm_from; [exact H|apply calm_ui]).
    apply Hc. destruct opened as [[[] sid]|]; [|done|done].
    destruct (String.eqb sid ""); [done|]. apply same_cli, set_option_rec.
Qed.

Lemma fair_ui e d r go a : from_ui e d r = Done (go, a) -> fair (FromUi d) r a.
Proof using.
  destruct d; cbn [handle_msg_from_ui]; try (intros [= _ <-]; apply fair_good, good_calm; by calm).
  - intros [= _ <-]. apply fair_good, good_calm. unfold send_close_reason. calm.
  - match goal with |- context [handle_login_from_ui _ _ _ ?u ?p ?w ?m _] =>
      pose proof (handle_login_from_ui_rec (le e) u p w m (cli r)) as H end.
    destruct (handle_login_from_ui _ _ _ _ _ _ _ _) as [os c]. intros [= _ <-]. by apply fair_good, good_calm, calm_login.
  - unfold file_event. destruct (F.step _ _ _) as [[o s]|] eqn:E; [|done]. intros [= _ <-].
    apply fair_good, good_calm, (calm_file_event e ev). unfold file_event. by rewrite E.
  - intros [= _ <-]. by apply fair_good, good_update.
  - intros [= _ <-]. split; [by apply good_recorded_voice; [repeat constructor|..]|cbn; lia|done].
  - destruct display; intros [= _ <-]; apply fair_good, good_calm; calm.
Qed.

(** Every event of the loop. *)
Lemma fair_step e ev r go a : stepT e ev r = Done (go, a) -> fair ev r a.
Proof using.
  destruct ev as [n m|errno err| |d|c| |d|d f]; cbn [loop_step].
  - set (r1 := r <| last_recv_time := instant e |>).
    set (r2 := if recv_once r1 then r1 else upd_lcr (fun l => l <| received := true |>) (r1 <| recv_once := true |>)).
    set (r3 := r2 <| data_count := data_count r2 + n |>).
    assert (same r r3) as Hs by (subst r3 r2; destruct (recv_once r1); done).
    destruct m as [m|].
    + intros E. apply (fair_from _ r r3); [done| |by apply (fair_peer n e m r3 go)].
      unfold answers_pending. destruct m; try done. destruct accepted; [|done]. destruct Hs as (_ & _ & Hv). cbv iota. by rewrite Hv.
    + intros E; apply done_snd in E; subst a; cbn [snd]. by apply fair_good, good_calm, calm_same.
  - intros E; apply done_snd in E; subst a; cbn [snd]. apply fair_good, good_calm, calm_login_outs.
  - intros E; apply done_snd in E; subst a; cbn [snd]. apply fair_good, good_calm. unfold on_peer_closes. calm.
  - apply fair_ui.
  - intros E; apply done_snd in E; subst a; cbn [snd]. apply fair_good, good_calm. unfold handle_local_clipboard_msg. destruct c; calm.
  - destruct (_ <=? _); [intros [= _ <-]; apply fair_good, good_calm; calm|].
    unfold outcome_bind. destruct (file_event e F.Tick r) as [x|] eqn:E; [|done]. intros [= _ <-].
    by eapply fair_good, good_calm, calm_file_event.
  - intros E; apply done_snd in E; subst a; cbn [snd]. apply fair_good, good_calm. unfold on_status_tick. destruct (_ <? _); [calm|].
    set (r1 := upd_threads _ (r <| fps_instant := _ |> <| data_count := 0 |>)).
    eapply (calm_from _ r1); [done|]. apply calm_then; [apply calm_fps|intros; calm].
  - intros E; apply done_snd in E; subst a; cbn [snd]. by apply fair_good, good_calm, calm_same.
Qed.

(** ** Runs of the loop *)

Definition requests (evs : list (REnv * LoopEvent (Q := Q))) : nat := list_sum (map (fun x => asks x.2) evs).

Lemma loop_fair evs r os fin r' : loopT evs r = Done (os, fin, r') ->
  changes (last_record_state r) (told os) (last_record_state r') /\ (permitted r -> permitted r')
  /\ (starts os + pending r' <= pending r + requests evs)%nat.
Proof using.
  revert r os fin. induction evs as [|[e ev] evs IH]; intros r os fin; cbn [loop].
  { intros [= <- _ <-]. cbn. split; [done|]. split; [done|lia]. }
  unfold outcome_bind. destruct (loop_step _ _ e ev r) as [[go [o r1]]|] eqn:E; [|done].
  destruct (fair_step e ev r go (o, r1) E) as [[K1 K2] K3 _]. cbn [fst snd] in *.
  unfold requests. cbn [map list_sum foldr snd]. fold (requests evs). change (foldr Nat.add 0%nat) with list_sum.
  fold (requests evs). destruct go.
  - destruct (loop _ _ evs r1) as [[[os1 fin1] r2]|] eqn:E2; [|done]. intros [= <- _ <-].
    destruct (IH _ _ _ E2) as (I1 & I2 & I3). rewrite told_app, starts_app.
    split; [by eapply changes_app|]. split; [auto|lia].
  - intros [= <- _ <-]. split; [done|]. split; [done|lia].
Qed.

(** C19. The peer is told of every recording: over any session, whatever the
    peer, the user and the decoders do and in whatever order, the
    notifications queued for the peer are exactly the changes of the state of
    the recording, in order, so that the last one it hears is whether it is
    being recorded; and the session records only while the user wants it and
    the peer permits it. *)
Theorem recording_is_announced evs r os fin r' :
  loopT evs r = Done (os, fin, r') -> last_record_state r = false ->
  changes false (told os) (last_record_state r')
  /\ last (false :: told os) = Some (last_record_state r')
  /\ (last_record_state r' = true -> record_state (lcr r') = true /\ record_permission (lcr r') = true).
Proof using.
  intros E Hr. destruct (loop_fair _ _ _ _ _ E) as (H1 & H2 & _). rewrite Hr in H1.
  split; [done|]. split; [by apply changes_last|]. apply H2. intros H. congruence.
Qed.

(** The microphone is opened only on the user's request: over any session
    it is started at most as often as the user has asked for a call, each
    request counted once, and only by the peer's answer that carries the time
    of the request still waiting; answers nobody waits for, old or repeated
    ones start nothing. *)
Theorem voice_only_on_request evs r os fin r' :
  loopT evs r = Done (os, fin, r') -> voice_call_request_timestamp r = None ->
  (starts os <= requests evs)%nat
  /\ forall e ev go a, stepT e ev r' = Done (go, a) -> starts (fst a) <> 0%nat ->
       exists n t, ev = FromPeer n (Some (PVoiceCallResponse true t)) /\ voice_call_request_timestamp r' = Some t
                   /\ voice_call_request_timestamp (snd a) = None.
Proof using.
  intros E Hr. destruct (loop_fair _ _ _ _ _ E) as (_ & _ & H). unfold pending in H at 2. rewrite Hr in H.
  split; [lia|]. intros e ev go a Ha Hs. destruct (fair_step e ev r' go a Ha) as [_ Hv Hp].
  specialize (Hp Hs). unfold answers_pending in Hp.
  destruct ev as [n [[]|]| | | | | | |]; try done. destruct accepted; [|done].
  eexists _, _. split; [done|]. split; [exact Hp|]. cbn [asks] in Hv. unfold pending in Hv at 2. rewrite Hp in Hv.
  unfold pending in Hv. destruct (voice_call_request_timestamp (snd a)); [lia|done].
Qed.

End Facts.
End SessionFacts.
