(* ===== verification/ClientSessionProofs.v ===== *)
(** * More theorems about the session of the controlling side

    - the frame rate the session asks for stays below what its slowest active
      decoder manages and within the user's limit;
    - the jobs of the file window survive the session;
    - an old session's end does not disturb the round of a new one;
    and a session to evaluate the theorems on. *)

From S2P Require Import Prelude RustStr SecureStream Password Config NetUtil FileTransfer Messages FileManager ClientFiles ClientFilesProofs ClipFiles ClipMsg VideoPlayer PeerConfig PeerConfigProofs Service Server Connection ConnectionAuth ConfigProofs ClientConfig ClientOptions ClientLogin ClientLoginProofs ClientLoop ClientLoopProofs.

#[local] Open Scope rust_scope.

Module SessionMore.

Import Msg PeerCfg Client Login Session.

Section Rate.
Context `{SB : SecretBox} `{B64 : Base64} `{FT : F64Text}.
Context {Q : Type} `{AQ : P.ArrayQueue Q}.

Abbreviation RemoteT := (Remote (Q := Q)).
Abbreviation ThreadT := (P.VideoThread (Q := Q)).

Lemma custom_bounds r : 5 <= custom_fps_of (Q := Q) r <= 120.
Proof using.
  unfold custom_fps_of. set (c := unwrap_or 30 _). clearbody c.
  destruct (c <? 5) eqn:E1; cbn [orb]; [lia|]. destruct (120 <? c) eqn:E2; lia.
Qed.

Lemma min_rate_spec l m : min_rate l = Some (Some m) -> Forall (fun x => exists d, x = Some d /\ m <= d) l.
Proof using.
  revert m. induction l as [|x l IH]; intros m; cbn [min_rate]; [done|].
  destruct (min_rate l) as [[y|]|] eqn:E; destruct x as [a|]; intros [= <-]; constructor.
  all: try (eexists; split; [done|lia]).
  - eapply Forall_impl; [by apply IH|]. intros ? (d & -> & H). exists d. split; [done|lia].
  - destruct l as [|z l]; [constructor|]. cbn in E. by repeat case_match.
Qed.

(** Whether a display counts: its last frames are not too long ago. *)
Definition active (real : gmap Z Z) (d : Z) (t : ThreadT) : Prop :=
  (if unwrap_or 0 (real !! d) =? 0 then P.inactive_counter (P.fps_control t) + 1 else 0) < inactive_threshold.

(** What the session can be told to ask for. *)
Definition asked_rates (o : list ROut) : list Z :=
  omap (fun x => match x with ToSelf (DMessage (Plain (MMisc (Option om)))) => Some (o_custom_fps om) | _ => None end) o.

Lemma asked_refresh e m r ts : asked_rates (refresh_all (Q := Q) e m r ts).1 = [].
Proof using.
  induction ts as [|[d t] ts IH]; cbn [refresh_all]; [done|].
  destruct (refresh_all e m r ts) as [os ts']. cbn [fst] in IH.
  destruct (_ && _); [|exact IH]. cbn [fst asked_rates omap list_omap refresh_video].
  destruct (is_support_multi_ui_session_num _); exact IH.
Qed.

(** The session adapts the frame rate within bounds: whatever the state of
    the queues and of the displays, each second it asks the peer for at most
    one rate; that rate is at least 1 and at most the user's limit, which is
    between 5 and 120; every active display has a measured decoding rate, and
    the rate asked for is at most 90 percent of it (80 percent through a
    relay), or 1. *)
Theorem auto_fps_bounds e direct real r n :
  n ∈ asked_rates (fst (fps_control (Q := Q) e direct real r)) ->
  asked_rates (fst (fps_control e direct real r)) = [n]
  /\ last_auto_fps (snd (fps_control e direct real r)) = Some n
  /\ 1 <= n <= custom_fps_of r /\ 5 <= custom_fps_of r <= 120
  /\ forall d t, video_threads r !! d = Some t -> active real d t ->
       exists rate, P.decode_fps t = Some rate /\ n <= Z.max 1 (if direct then rate * 9 / 10 else rate * 4 / 5).
Proof using.
  unfold fps_control.
  set (th := map_imap _ _). set (r1 := r <| video_threads := th |>).
  change (video_threads r1) with th. change (custom_fps_of r1) with (custom_fps_of r).
  pose proof (custom_bounds r) as Hc. set (custom := custom_fps_of r) in *. clearbody custom.
  set (act := List.filter _ _).
  destruct (min_rate _) as [[m|]|] eqn:Em; try (intros H; by apply elem_of_nil in H).
  set (limited := Z.min (if direct then _ else _) custom).
  destruct (trend_all _ _ _ _) as [tr ts].
  set (dec := existsb _ tr). set (inc := negb dec && _). set (changed := match last_auto_fps r1 with None => _ | _ => _ end).
  set (auto0 := if dec && _ then limited / 2 else limited).
  set (auto := if auto0 <? 1 then 1 else auto0).
  assert (1 <= auto <= custom /\ auto <= Z.max 1 (if direct then m * 9 / 10 else m * 4 / 5)) as [Ha Hm].
  { assert (auto0 = limited \/ auto0 = limited / 2) as Hauto by (subst auto0; destruct (dec && _); auto).
    subst auto. clearbody auto0. subst limited. destruct (auto0 <? 1) eqn:E; [lia|].
    apply Z.ltb_ge in E. destruct direct; split; Z.to_euclidean_division_equations; lia. }
  destruct (changed && _); cycle 1.
  { destruct (refresh_all e m r1 ts) as [o' ts'] eqn:E. pose proof (asked_refresh e m r1 ts) as H. rewrite E in H.
    cbn [fst app] in *. rewrite H. intros Hx. by apply elem_of_nil in Hx. }
  set (r2 := r1 <| last_auto_fps := Some auto |>).
  destruct (refresh_all e m r2 ts) as [o' ts'] eqn:E. pose proof (asked_refresh e m r2 ts) as H. rewrite E in H.
  cbn [fst snd app asked_rates omap list_omap fps_message o_custom_fps] in *.
  change (o_custom_fps (default_om <| o_custom_fps := i32 auto |>)) with (i32 auto).
  assert (i32 auto = auto) as -> by (apply swrap_small; lia).
  rewrite H. intros Hn. apply list_elem_of_singleton in Hn as ->.
  split; [done|]. split; [done|]. split; [done|]. split; [done|].
  intros d t Ht Hact. apply min_rate_spec in Em. rewrite Forall_forall in Em.
  set (t' := ctl_upd (fun c => with_inactive (if unwrap_or 0 (real !! d) =? 0 then P.inactive_counter c + 1 else 0) c) t).
  destruct (Em (P.decode_fps t')) as (rate & Hr & Hle).
  { apply list_elem_of_In, in_map_iff. exists (d, t'). split; [done|]. apply filter_In. split.
    - apply list_elem_of_In, elem_of_map_to_list. unfold th. rewrite map_lookup_imap. by rewrite Ht.
    - apply Z.ltb_lt. exact Hact. }
  exists rate. split; [exact Hr|]. clearbody auto. destruct direct; Z.to_euclidean_division_equations; lia.
Qed.

End Rate.

Section Jobs.
Context `{SB : SecretBox} `{B64 : Base64} `{FT : F64Text}.
Context {SBL : SecretBoxLaws SB} {B64L : Base64Laws B64} {FL : F64TextLaws FT}.
Context {Q : Type} `{AQ : P.ArrayQueue Q}.
Context (get_uuid : list Z) (ds : DisplaySettings).
Hypothesis uuid_bytes : bytes get_uuid.

Abbreviation RemoteT := (Remote (Q := Q)).
Abbreviation synced := (ClientOptions.synced get_uuid ds).

(** The settings the end of a session leaves in the file. *)
Definition kept (e : REnv) (r : RemoteT) : TransferSerde :=
  let metas := map (fun j => meta_to_str e (T.gen_meta j)) in
  mkTransferSerde (metas (F.write_jobs (files r))) (metas (F.read_jobs (files r))).

Lemma sync_stores e r : is_connected r = true -> synced (cl (le e)) (cli r) ->
  let c' := cli (snd (sync_jobs_status_to_local get_uuid ds e r)) in
  synced (cl (le e)) c' /\ transfer (config (lc c')) = kept e r /\ id (lc c') = id (lcr r).
Proof using SBL B64L FL uuid_bytes.
  intros Hc Hs. unfold sync_jobs_status_to_local. rewrite Hc. cbn [negb].
  rewrite (ClientOptions.synced_config get_uuid ds _ _ Hs). cbn [snd cli]. fold (kept e r).
  pose proof (ClientOptions.synced_normal get_uuid ds _ _ Hs) as Hn.
  pose proof (ClientOptions.synced_storable get_uuid ds _ _ Hs) as Hst.
  match goal with |- context [decide ?p] => destruct (decide p) as [H|H] end; cbn [cli set_field]; [done|].
  split; [|done]. apply (ClientOptions.synced_save get_uuid ds uuid_bytes); [done|by destruct Hn|exact Hst].
Qed.

Fixpoint shown (auto : bool) (n : Z) (l : list string) : list ROut :=
  match l with
  | [] => []
  | j :: l => Ui (LoadLastJob n (unwrap_or j (try_auto_start_job_str auto j)) auto) :: shown auto (n + 1) l
  end.

Lemma load_jobs_all auto n l : Forall (fun j => j <> ""%string) l -> load_jobs auto n l = shown auto n l.
Proof using.
  intros H. revert n. induction H as [|j l Hj _ IH]; intros n; cbn [load_jobs shown]; [done|].
  rewrite (proj2 (String.eqb_neq _ _) Hj). by rewrite IH.
Qed.

(** Jobs survive the session: what a session that was logged in leaves in
    the settings of the peer when it ends is, when a later session with the
    same peer loads it, exactly its unfinished jobs, the read jobs before the
    write jobs and each in order, numbered from 1, after the list of the window
    has been cleared; the jobs went through the sealed file and none is lost. *)
Theorem jobs_survive e e' (r r' : RemoteT) :
  is_connected r = true -> synced (cl (le e)) (cli r) ->
  (forall m, meta_to_str e m <> ""%string) ->
  fs (cl (le e')) = fs (cl (le e)) -> id (lcr r') = id (lcr r) ->
  st (cli r') = st (cli (snd (sync_jobs_status_to_local get_uuid ds e r))) ->
  let jobs := map (fun j => meta_to_str e (T.gen_meta j)) (F.read_jobs (files r) ++ F.write_jobs (files r)) in
  fst (load_last_jobs get_uuid ds e' r')
  = Ui ClearAllJobs :: match jobs with [] => [] | _ => shown (reconnected e') 1 jobs ++ [Ui UpdateTransferList] end.
Proof using SBL B64L FL uuid_bytes.
  intros Hc Hs Hm Hfs Hid Hst jobs. destruct (sync_stores e r Hc Hs) as (Hs' & Ht & Hi').
  set (c' := cli (snd _)) in *. clearbody c'. unfold load_last_jobs, load_config. fold (lcr r').
  rewrite Hfs, Hid, Hst, <-Hi', (ClientOptions.synced_load get_uuid ds _ _ Hs').
  cbn [fst]. rewrite Ht. cbn [read_jobs write_jobs kept]. rewrite <-map_app. fold jobs.
  destruct jobs as [|j l] eqn:E; [done|]. rewrite load_jobs_all; [done|].
  rewrite <-E. apply Forall_fmap, Forall_true. intros x. apply Hm.
Qed.

End Jobs.

(** ** Rounds *)

Section Rounds.
Context {Q : Type} `{AQ : P.ArrayQueue Q}.

(** The end of a session of an earlier round leaves the state of the present
    one alone, and does not touch its clipboard. *)
Lemma stale_end_ignored kcp rd (r : Remote (Q := Q)) :
  0 <= rd < round (connection_round_state r) ->
  connection_round_state (snd (finish kcp rd r)) = connection_round_state r
  /\ StopClipboard ∉ fst (finish kcp rd r).
Proof using.
  intros H. unfold finish, stop_voice_call. cbn [then_].
  set (r1 := r <| stop_voice_call_sender := false |>).
  match goal with |- context [then_ ?x _] => set (a := x) end.
  assert (connection_round_state a.2 = connection_round_state r /\ StopClipboard ∉ a.1) as [Hr Ho].
  { subst a. destruct kcp; [unfold send_close_reason; destruct (sent_close_reason r1)|];
      (split; [done|]); intros Hx; repeat (apply elem_of_cons in Hx as [Hx|Hx]; [done|]); by apply elem_of_nil in Hx. }
  clearbody a. destruct a as [o r2]. cbn [fst snd then_] in *.
  unfold set_disconnected, is_round_gt. rewrite Hr. rewrite (proj2 (Z.eqb_neq (round _) 0)) by lia.
  rewrite andb_false_r. rewrite (proj2 (Z.ltb_lt _ _)) by lia. rewrite andb_false_r. cbn [fst snd].
  split; [done|]. rewrite app_nil_r. intros Hx. apply elem_of_app in Hx as [Hx|Hx]; [|done].
  destruct (stop_voice_call_sender r); [|by apply elem_of_nil in Hx]. by apply list_elem_of_singleton in Hx.
Qed.

End Rounds.

(** ** A session, to evaluate the theorems on *)

Import Vault PeerCfgFacts ClientOptions.

Abbreviation DemoQ := (nat * list P.VideoFrame)%type.

#[local] Existing Instance P.list_queue.

(** At [t] milliseconds. *)
Definition demo_renv (t : Z) : REnv :=
  mkREnv (LoginFacts.demo_login_env)
    (let f := ClientFileFacts.demo_env in
     F.mkFEnv (F.os_read f) (F.can_create f) (F.zcompress f) (F.zdecompress f) (F.wall f) t (F.digest_json f)
       (F.parse_digest f) (F.recursive_files f) (F.os_create_dir f) (F.platform f) (F.peer_platform f) (F.peer_version f) (F.os f))
    t "" false (fun _ => None) (fun m => "{" +:+ T.m_remote m +:+ "}") true 0 ClipMsg.ClipMsg.demo_disk (fun _ => None)
    true 0 (fun i => i) C.utf16le.

Definition demo_remote : Remote (Q := DemoQ) :=
  new_remote (demo_renv 0) demo_client None None false None [] true true true (mkChangeDisplay 0 0 0 0)
    (mkRound 1 Connecting) ClientFileFacts.demo_disk (ClipMsg.ClipMsg.demo_owner 0).

Definition demo_loop (evs : list (Z * LoopEvent (Q := DemoQ))) (r : Remote) :=
  loop (SB := toy_box) (B64 := toy_b64) (FT := toy_f64) [7] demo_ds (map (fun x => (demo_renv x.1, x.2)) evs) r.

(** The user records, the peer forbids it, the user records again; then a call
    that is answered twice. *)
Definition demo_events : list (Z * LoopEvent (Q := DemoQ)) := [
  (10, FromUi (DRecordScreen true)); (20, FromPeer 9 (Some (PPermissionInfo (Some Recording) false)));
  (30, FromUi (DRecordScreen true)); (40, FromPeer 9 (Some (PPermissionInfo (Some Recording) true)));
  (50, FromUi (DRecordScreen true)); (60, FromUi DNewVoiceCall);
  (70, FromPeer 9 (Some (PVoiceCallResponse true 59))); (80, FromUi DNewVoiceCall);
  (90, FromPeer 9 (Some (PVoiceCallResponse true 80))); (95, FromPeer 9 (Some (PVoiceCallResponse true 80)))].

Definition demo_run : list ROut * bool * Remote :=
  match demo_loop demo_events demo_remote with Done x => x | Panic => ([], true, demo_remote) end.

Lemma demo_run_done : demo_loop demo_events demo_remote = Done demo_run.
Proof. unfold demo_run. by destruct (demo_loop demo_events demo_remote) eqn:E; [|vm_compute in E]. Qed.

Lemma recording_is_announced_witness :
  let '(os, _, r) := demo_run in
  SessionFacts.told os = [true; false; true] /\ last (false :: SessionFacts.told os) = Some (last_record_state r)
  /\ record_permission (lcr r) = true.
Proof.
  pose proof demo_run_done as H. assert (SessionFacts.told demo_run.1.1 = [true; false; true]) as Ht by (by vm_compute).
  assert (last_record_state demo_run.2 = true) as Hl by (by vm_compute).
  destruct demo_run as [[os fin] r]. cbn [fst snd] in Ht, Hl.
  destruct (SessionFacts.recording_is_announced _ _ _ _ _ _ _ H eq_refl) as (_ & H2 & H3).
  split; [done|]. split; [done|]. by apply H3.
Defined.

Lemma voice_only_on_request_witness :
  let '(os, _, r) := demo_run in
  (SessionFacts.starts os <= 2)%nat /\ SessionFacts.starts os = 1%nat.
Proof.
  pose proof demo_run_done as H. assert (SessionFacts.starts demo_run.1.1 = 1%nat) as Hs by (by vm_compute).
  destruct demo_run as [[os fin] r]. cbn [fst] in Hs.
  destruct (SessionFacts.voice_only_on_request _ _ _ _ _ _ _ H eq_refl) as [H1 _].
  split; [exact H1|exact Hs].
Defined.

(** Two displays, one of them without frames for long. *)
Definition demo_thread (rate inactive : Z) : P.VideoThread (Q := DemoQ) :=
  P.new_thread <| P.decode_fps := Some rate |> <| P.fps_control := P.mkFpsControl 0 None 0 inactive |>.

Definition demo_video : Remote (Q := DemoQ) :=
  demo_remote <| video_threads := {[ 0 := demo_thread 21 0; 1 := demo_thread 4 99 ]} |>.

Lemma auto_fps_bounds_witness :
  asked_rates (fst (fps_control (demo_renv 1000) true {[ 0 := 20 ]} demo_video)) = [18]
  /\ 1 <= 18 <= custom_fps_of demo_video
  /\ exists rate, P.decode_fps (demo_thread 21 0) = Some rate /\ 18 <= Z.max 1 (rate * 9 / 10).
Proof.
  destruct (auto_fps_bounds (demo_renv 1000) true {[ 0 := 20 ]} demo_video 18) as (H1 & _ & H2 & _ & H3).
  - vm_compute. by left.
  - split; [exact H1|]. split; [exact H2|]. apply (H3 0 (demo_thread 21 0)); by vm_compute.
Defined.

(** A session with an upload and a download that has just been lost. *)
Definition demo_write : T.TransferJob := T.new_write 4 T.Generic "/peer/b" (T.FilePath "/home/b") 0 false true [] true.
Definition demo_read : T.TransferJob := T.new_write 5 T.Generic "/peer/a" (T.FilePath "/home/a") 0 false false [] true.
Definition demo_lost : Remote (Q := DemoQ) :=
  demo_remote <| is_connected := true |>
    <| files := F.mkFiles [demo_read] [demo_write] ∅ 0 ∅ false ClientFileFacts.demo_disk |>.

Lemma jobs_survive_witness :
  let r1 := snd (sync_jobs_status_to_local (SB := toy_box) (B64 := toy_b64) (FT := toy_f64) [7] demo_ds (demo_renv 5) demo_lost) in
  fst (load_last_jobs (SB := toy_box) (B64 := toy_b64) (FT := toy_f64) [7] demo_ds (demo_renv 9) (demo_remote <| cli := mkClient (lc demo_client) (st (cli r1)) |>))
  = [Ui ClearAllJobs;
     Ui (LoadLastJob 1 ("{/peer/a," +:+ String "034" "auto_start" +:+ String "034" ": true}") true);
     Ui (LoadLastJob 2 ("{/peer/b," +:+ String "034" "auto_start" +:+ String "034" ": true}") true);
     Ui UpdateTransferList].
Proof.
  cbv zeta.
  refine (@jobs_survive toy_box toy_b64 toy_f64 toy_box_laws toy_b64_laws toy_f64_laws _ [7] demo_ds
           ltac:(repeat constructor; unfold is_byte; lia) (demo_renv 5) (demo_renv 9) demo_lost _ _ _ _ _ _ _).
  - reflexivity.
  - pose proof demo_synced as [H1 H2 H3 H4]. by split.
  - done.
  - reflexivity.
  - reflexivity.
  - reflexivity.
Defined.

End SessionMore.
